(* ===== verification/_CoqProject ===== *)
-Q . S2P
Prelude.v
CList.v
LockFree.v
Bitmap.v
RBTree.v
RBSpec.v
RBRefine.v
RBOps.v
RBErase.v
RBMap.v
Bytes.v
BCache.v
BCacheInv.v
BCacheLog.v
BCacheCrash.v
BCacheOps.v
BCacheSteps.v
BCacheProps.v
BlockStore.v
BCacheStore.v
Sem.v
Console.v
CString.v
Inode.v
InodeFile.v
InodeMap.v
InodeWrite.v
InodeDir.v
InodeProps.v
Mkfs.v
MkfsProps.v
MkfsRoot.v
HashMap.v
Pipe.v
File.v
FileProps.v
Format.v
Mmu.v
Mem.v
IPC.v
PT.v
Shell.v
ShellSpec.v
ShellParse.v
ShellRun.v
RBFrame.v
Timer.v
Sched.v
SchedSteps.v
SchedCalls.v
SchedProps.v
Sections.v
ProcTree.v
ProcExit.v
ProcWait.v
ProcFork.v
ProcProps.v
SysFile.v
SysProps.v
Hoare.v
SysLocks.v
SysFds.v
Paging.v
PagingMem.v
PagingProps.v
Swap.v
SwapProps.v
SwapCalls.v
Emmc.v
Sd.v
SdProps.v
Fork.v
ForkProps.v
FreeDir.v
UserMem.v
Exec.v
ExecProps.v
SdInit.v
Trap.v
KernelPT.v
