(* ===== verification/Prelude.v ===== *)
(** * A verification of the kernel of OS-2022Fall-Fudan

    The repository is a teaching operating system for AArch64: a kernel with
    processes, virtual memory, a logging file system and a console, a shell
    and the host program that builds the disk image. This library models its
    C code, file by file, as executable Rocq functions over explicit states,
    and proves what makes it correct. This file also holds what the others
    share: the monad [M] of C functions with its notations, loops, ranges of
    integers, lists and maps.

    ** How C is represented

    A C function is a [Definition] in the monad [M S] over the state [S] of
    its component: it returns ([Ret]) or stops for a reason ([stop_reason]
    below). Fields, globals and list nodes keep their names; structs are
    records, pointers are integers with NULL 0 and index a heap ([gmap Z _]),
    and an access to a pointer that is not there is a [Fault]. Integers are
    [Z] with the conversions of the code written out ([u8] to [u64], [i32],
    [i64] below); bit operations are those of [Z]. What runs under one lock,
    or between two points at which a thread may lose the processor, is one
    transition, except in LockFree and Pipe, whose steps are single accesses; a
    call that would sleep or spin stops with [Sleep], or is cut in two there. Where interleavings matter (LockFree, Sem, Pipe, BCacheSteps,
    SchedProps) there is a step relation and the theorems are invariants of
    the reachable states.

    Loops are [while fuel body], [for_upto] and [for_acc] below, or recursion
    on the list a ring stands for. The fuel is computed from the state by the
    entry point (the number of nodes of a heap, the length of a string, the
    number of pages of a range), and the theorems show that it is enough:
    they conclude [Ret], or the documented stop, never "if it returns". The
    constants are those of the source.

    ** The components, from the bottom

    Shared structures (src/src/common):
    - CList: list.h, list.c: rings of [ListNode]s and [Queue]s on a heap.
      LockFree: the QueueNode lists of list.c, one access at a time.
    - RBTree: rbtree.c, statement by statement; RBSpec is the specification on
      trees as values, RBRefine, RBOps, RBErase and RBMap the refinement to an
      ordered set, RBFrame several trees in one memory.
    - Bitmap: bitmap.h, with the allocators of pids (kernel/proc.c) and of
      swap slots (fs/cache.c). HashMap: hashmap.c. CString: string.c.
      Format: format.c. Sem: sem.c. IPC: ipc.c. Bytes: the views of memory as
      bytes, words and structs the code casts between.

    File system (src/src/fs):
    - BCache: cache.c, the block cache and the log. BCacheInv is its
      invariant and the view of the disk its clients have, BCacheLog and
      BCacheCrash what a commit writes and what a crash at any write leaves,
      BCacheOps and BCacheSteps operations of several clients, BCacheProps
      the properties.
    - BlockStore: struct BlockCache as the class [BlockCache], with its laws
      [BlockCacheLaws]; BCacheStore shows that cache.c keeps them. The layers
      above are proved against the class.
    - Inode: the structs of defines.h and inode.c. InodeFile holds the
      well-formedness of files, InodeMap, InodeWrite and InodeDir the
      operations, InodeProps the properties, instantiated at cache.c.
    - Pipe: pipe.c as small-step programs, cut at the locks and at every access
      to the ring. File: file.c and pipeAlloc;
      FileProps its properties.
    - Mkfs: user/mkfs/main.c, which builds the image; with MkfsProps and
      MkfsRoot it shows that the image is a file system in the sense of InodeFile.

    Kernel (src/src/kernel, and the macros of aarch64/mmu.h in Mmu):
    - Mem: mem.c, pages with reference counts and slabs, on the words of
      memory. PT: pt.c, page tables as pages of that memory.
    - Sections: the sections of an address space, the checks of user
      addresses and the dispatch of system calls (syscall.c).
    - Paging: paging.c, with the parts of pt.c, mem.c and proc.c it rests on.
      PagingMem and PagingProps treat page faults and copy on write, Swap,
      SwapProps and SwapCalls the way of pages to the disk and back. Swap asks
      for the class [SwapCache], which cache.c implements. Fork holds the
      address spaces of two processes in one memory, ForkProps what fork
      (proc.c) does to them and what a write of either does later, FreeDir
      how an address space is given back.
    - Exec: exec.c, on the state of Paging. UserMem is the view a process has
      of its bytes, with copyout; ExecProps treats the segments, over the inode
      layer, and the stack with the arguments.
    - Timer: cpu.c. Sched: sched.c and container.c, on the trees of RBFrame;
      SchedSteps and SchedCalls lead to the invariant of SchedProps.
    - ProcTree: proc.c on the rings of CList, the bitmaps and the hash map;
      ProcExit, ProcWait and ProcFork lead to ProcProps.
    - Console: console.c.
    - SysFile: sysfile.c, the system calls on files, over File and Inode.
      SysProps has the reads and writes; Hoare is a logic of triples for [M],
      used by SysLocks (locks given back) and SysFds (counts of files).

    Disk driver (src/src/driver):
    - Emmc: sddef.h, the commands and the waits on the controller's registers,
      which are functions of a hidden state of the device; its class
      [EmmcLaws] is what the controller promises. Sd: sd.c, common/buf.c and
      fs/block_device.c, cut at the points where a thread waits; SdProps relates the queue of
      requests to a disk that serves them one by one. SdInit: the start of
      the card (sdInit and what it calls).

    Processor: Trap has the dispatch of traps and interrupts (aarch64/trap.c,
    driver/interrupt.c, driver/clock.c), KernelPT the tables of
    aarch64/kernel_pt.c and the addresses they map.

    Shell (src/src/user/sh): Shell is the parser of main.c, ShellSpec the
    language with a reference parser and a printer, ShellParse their
    equivalence; ShellRun runs commands, as interaction trees over the calls.

    ** What the theorems show

    - Crash safety: [end_op_crash_atomic] (a commit is atomic under a crash at
      any write, recovery included), [reachable_calls_safe].
    - Functional correctness of the file system: [inode_read_correct],
      [inode_write_correct], the directory operations as those of a finite
      map ([inode_lookup_correct], [inode_insert_correct],
      [inode_remove_correct]), [namex_terminates]; [mkfs_image] for the image
      the kernel mounts; [sys_read_correct] and [sys_write_correct] for the
      calls, [calls_release_all] and [descriptors_counted] for their locks and
      counts along any sequence of calls.
    - Memory: [allocator_safe], [page_ref_overflow], [vmmap_correct],
      [free_pgdir_correct], [pgfault_correct] (demand-zero and copy on
      write), [swap_round_trip], [fork_copies_on_write], [user_checks_exact];
      [load_correct] and [exec_stack_correct] for a new program.
    - The hardware: [disk_requests_refine]; [sd_init_ends] (the start of the
      card gives up waiting and reports what it did); [interrupts_served];
      [kernel_map_correct].
    - Processes: [scheduler_runs_safe], [resched_runs_least],
      [woken_process_unreachable], [cpu_timers_correct], [exit_correct],
      [wait_reaps], [child_started], [kill_spec].
    - Structures as their abstract types: [rb_run_refines],
      [hashmap_refines_set], [sentinel_list_refines], [msg_queue_refines],
      [console_refines]; under interleaving [add_queue_linearizable],
      [sem_conserves], [pipe_fifo].
    - Text: [parsecmd_correct], [shell_round_trip], [shell_line_spawns],
      [vformat_correct].
    Some theorems show how the code departs from what it means to do, e.g.
    [page_ref_overflow], [woken_process_unreachable] (a process that no CPU
    runs any more), [msg_queue_refines] (the selection for negative types) and
    [kill_spec].

    ** What is not modelled, and why

    - The drivers uart, mbox and aux, aarch64's intrinsics and start.S read
      and write device and system registers: their behaviour is the
      hardware's. BCache has the disk of fs/block_device.c as a finite map.
    - [swtch], [trap_return], [proc_entry] and the saved registers: switching
      stacks has no counterpart in a functional state. Sched ends where the
      lock passes to the next process.
    - common/spinlock.c and the memory order of its atomics: a critical
      section is one transition (only LockFree and Pipe go below that,
      with sequentially consistent accesses). TLB invalidation has no effect on
      these states.
    - common/variadic.h and rc.h are the [va_arg] of the compiler and an
      atomic counter; printk and panic are output; init.h and core.c call the
      initialisers of the components in the order of a linker section.
    - kernel/sysproc.c passes the arguments of system calls on to the modelled
      components.
    - Tests (src/src/test, src/src/fs/test) and the small user programs cat,
      echo, ls, mkdir, init and usertests. *)
From stdpp Require Import base gmap list strings numbers fin_maps.
From Stdlib Require Import ZArith Lia.

Open Scope Z_scope.

(** ** Outcomes of a C function

    A call either returns ([Ret]) or stops without returning:
    [Panic] is a failed [ASSERT] or an explicit [PANIC()], [Fault] an access
    through a NULL or unallocated pointer or out of an array, [Sleep] a call
    that would put the calling thread to sleep, and [NoFuel] marks a loop
    that ran out of the fuel its model was given. *)
Inductive stop_reason := Panic | Fault | Sleep | NoFuel.

Inductive outcome (A : Type) : Type :=
| Ret (a : A)
| Stop (r : stop_reason).
Arguments Ret {A} a.
Arguments Stop {A} r.

#[global] Instance stop_reason_eq_dec : EqDecision stop_reason.
Proof. solve_decision. Defined.

(** ** The state-and-error monad of the models *)
Definition M (S A : Type) : Type := S -> outcome (A * S).

Definition ret {S A} (a : A) : M S A := fun s => Ret (a, s).
Definition stop {S A} (r : stop_reason) : M S A := fun _ => Stop r.
Definition bind {S A B} (m : M S A) (k : A -> M S B) : M S B :=
  fun s => match m s with Ret (a, s') => k a s' | Stop r => Stop r end.
Definition gets {S A} (f : S -> A) : M S A := fun s => Ret (f s, s).
Definition modify {S} (f : S -> S) : M S unit := fun s => Ret (tt, f s).

Declare Scope c_scope.
Delimit Scope c_scope with c.
Open Scope c_scope.

Notation "x <- m ;; k" := (bind m (fun x => k))
  (at level 100, m at next level, k at level 200, right associativity) : c_scope.
Notation "m ;;; k" := (bind m (fun _ => k))
  (at level 100, k at level 200, right associativity) : c_scope.

(** [ASSERT(b)] and a guarded statement. *)
Definition assert {S} (b : bool) : M S unit := if b then ret tt else stop Panic.
Definition when {S} (b : bool) (m : M S unit) : M S unit := if b then m else ret tt.

(** A [while] loop: [body] says whether to go on ([inl], the new loop
    variables) or to leave with a value ([inr]). *)
Fixpoint while {S A B} (fuel : nat) (body : A -> M S (A + B)) (a : A) : M S B :=
  match fuel with
  | O => stop NoFuel
  | S n => r <- body a ;;
           match r with inl a' => while n body a' | inr b => ret b end
  end.

(** [for (i = start; i < start + n; i++) body], leaving at the first [Some]. *)
Fixpoint for_upto {S B} (n : nat) (i : Z) (body : Z -> M S (option B)) : M S (option B) :=
  match n with
  | O => ret None
  | S n' => r <- body i ;;
            match r with Some b => ret (Some b) | None => for_upto n' (i + 1) body end
  end.

(** The same with loop variables and without early exits. *)
Fixpoint for_acc {S A} (n : nat) (i : Z) (body : Z -> A -> M S A) (a : A) : M S A :=
  match n with
  | O => ret a
  | S n' => a' <- body i a ;; for_acc n' (i + 1) body a'
  end.

(** Access to an allocated object: [load] and [store] fault on a pointer
    that is not in the heap (NULL is never there). *)
Definition load {T} (p : Z) : M (gmap Z T) T :=
  fun h => match h !! p with Some v => Ret (v, h) | None => Stop Fault end.
Definition update {T} (p : Z) (f : T -> T) : M (gmap Z T) unit :=
  fun h => match h !! p with Some v => Ret (tt, <[p := f v]> h) | None => Stop Fault end.

(** Running a component's operation inside a bigger state. *)
Definition zoom {S T A} (get : S -> T) (set : T -> S -> S) (m : M T A) : M S A :=
  fun s => match m (get s) with
           | Ret (a, t) => Ret (a, set t s)
           | Stop r => Stop r
           end.

(** ** Equations of the monad *)
Section monad.
Context {S A B : Type}.
Implicit Types (s : S) (m : M S A) (k : A -> M S B).

Lemma bind_Ret m k s a s' : m s = Ret (a, s') -> bind m k s = k a s'.
Proof. intros H. unfold bind. by rewrite H. Qed.

Lemma bind_Stop m k s r : m s = Stop r -> bind m k s = Stop r.
Proof. intros H. unfold bind. by rewrite H. Qed.

Lemma bind_inv m k s b s' :
  bind m k s = Ret (b, s') -> exists a s1, m s = Ret (a, s1) /\ k a s1 = Ret (b, s').
Proof. unfold bind. destruct (m s) as [[a s1]|r] eqn:E; [eauto|done]. Qed.
End monad.

Lemma while_S {S A B} n (body : A -> M S (A + B)) a s :
  while (Datatypes.S n) body a s =
    (r <- body a ;; match r with inl a' => while n body a' | inr b => ret b end) s.
Proof. done. Qed.

Lemma while_more {S B C} (body : C -> M S (C + B)) n n' c s b s' :
  while n body c s = Ret (b, s') -> (n <= n')%nat -> while n' body c s = Ret (b, s').
Proof.
  revert n' c s. induction n as [|n IH]; intros n' c s H Hle; [done|].
  destruct n' as [|n']; [lia|]. simpl in *.
  apply bind_inv in H as (r & s1 & H1 & H2).
  rewrite (bind_Ret _ _ _ _ _ H1). destruct r; [apply IH; [done|lia]|done].
Qed.

Lemma bind_assoc {S A B C} (m : M S A) (f : A -> M S B) (g : B -> M S C) s :
  bind (bind m f) g s = bind m (fun a => bind (f a) g) s.
Proof. unfold bind. by destruct (m s) as [[??]|]. Qed.

(** A [for] loop with an invariant that never leaves early. *)
Lemma for_upto_inv {S B} (P : Z -> S -> Prop) (body : Z -> M S (option B)) n i s :
  P i s ->
  (forall j s, i <= j < i + Z.of_nat n -> P j s -> exists s', body j s = Ret (None, s') /\ P (j + 1) s') ->
  exists s', for_upto n i body s = Ret (None, s') /\ P (i + Z.of_nat n) s'.
Proof.
  revert i s. induction n as [|n IH]; intros i s Hs Hb.
  - exists s. split; [done|]. by replace (i + Z.of_nat 0) with i by lia.
  - destruct (Hb i s) as (s1 & E & H1); [lia|done|]. cbn [for_upto]. rewrite (bind_Ret _ _ _ _ _ E).
    destruct (IH (i + 1) s1 H1) as (s2 & E2 & H2); [intros j s' Hj; apply Hb; lia|].
    exists s2. split; [done|]. by replace (i + Z.of_nat (Datatypes.S n)) with (i + 1 + Z.of_nat n) by lia.
Qed.

(** The invariant of a loop with loop variables. *)
Lemma for_acc_inv {S A} (P : Z -> A -> S -> Prop) (body : Z -> A -> M S A) n i a s :
  P i a s ->
  (forall j a s, i <= j < i + Z.of_nat n -> P j a s -> exists a' s', body j a s = Ret (a', s') /\ P (j + 1) a' s') ->
  exists a' s', for_acc n i body a s = Ret (a', s') /\ P (i + Z.of_nat n) a' s'.
Proof.
  revert i a s. induction n as [|n IH]; intros i a s Hs Hb.
  - exists a, s. split; [done|]. by replace (i + Z.of_nat 0) with i by lia.
  - destruct (Hb i a s) as (a1 & s1 & E & H1); [lia|done|]. cbn [for_acc]. rewrite (bind_Ret _ _ _ _ _ E).
    destruct (IH (i + 1) a1 s1 H1) as (a2 & s2 & E2 & H2); [intros j a' s' Hj; apply Hb; lia|].
    exists a2, s2. split; [done|]. by replace (i + Z.of_nat (Datatypes.S n)) with (i + 1 + Z.of_nat n) by lia.
Qed.

Lemma zoom_Ret {S T A} (get : S -> T) (set : T -> S -> S) (m : M T A) s a t :
  m (get s) = Ret (a, t) -> zoom get set m s = Ret (a, set t s).
Proof. intros H. unfold zoom. by rewrite H. Qed.

(** [keeps f m]: no successful run of [m] changes [f] of the state. *)
Definition keeps {S X A} (f : S -> X) (m : M S A) : Prop :=
  forall s a s', m s = Ret (a, s') -> f s' = f s.

Section keeps.
Context {S X : Type} (f : S -> X).

Lemma keeps_bind {A B} (m : M S A) (k : A -> M S B) :
  keeps f m -> (forall a, keeps f (k a)) -> keeps f (bind m k).
Proof.
  intros Hm Hk s b s' H. apply bind_inv in H as (a & s1 & H1 & H2).
  rewrite (Hk _ _ _ _ H2). by apply Hm in H1.
Qed.

Lemma keeps_ret {A} (a : A) : keeps f (ret a).
Proof. intros s b s' H. unfold ret in H. by simplify_eq. Qed.

Lemma keeps_stop {A} r : keeps f (stop r : M S A).
Proof. by intros s b s' H. Qed.

Lemma keeps_gets {A} (g : S -> A) : keeps f (gets g).
Proof. intros s b s' H. unfold gets in H. by simplify_eq. Qed.

Lemma keeps_modify g : (forall s, f (g s) = f s) -> keeps f (modify g).
Proof. intros Hg s b s' H. unfold modify in H. by simplify_eq. Qed.

Lemma keeps_assert b : keeps f (assert b).
Proof. destruct b; [apply keeps_ret|apply keeps_stop]. Qed.

Lemma keeps_when b m : keeps f m -> keeps f (when b m).
Proof. destruct b; [done|intros _; apply keeps_ret]. Qed.

Lemma keeps_while {A B} fuel (body : A -> M S (A + B)) a :
  (forall a, keeps f (body a)) -> keeps f (while fuel body a).
Proof.
  intros Hb. revert a. induction fuel as [|fuel IH]; intros a; cbn [while]; [apply keeps_stop|].
  apply keeps_bind; [done|]. intros [a'|b]; [done|apply keeps_ret].
Qed.
End keeps.

Create HintDb keeps.
#[export] Hint Resolve keeps_bind keeps_ret keeps_stop keeps_gets keeps_assert keeps_when keeps_while : keeps.

(** Walks through a model's statements; [keeps] hints close the leaves. *)
Ltac keeps_step :=
  first
    [ solve [auto with keeps nocore]
    | apply keeps_bind; [|intros ?]
    | apply keeps_while; intros ?
    | apply keeps_when
    | match goal with
      | |- keeps _ (if ?b then _ else _) => destruct b
      | |- keeps _ (match ?x with _ => _ end) => destruct x
      end ].
Ltac keeps_tac := repeat keeps_step.

Lemma keeps_load {T} p : keeps dom (load (T := T) p).
Proof. intros s b s' H. unfold load in H. destruct (s !! p); [|done]. by simplify_eq. Qed.

Lemma keeps_update {T} p g : keeps dom (update (T := T) p g).
Proof.
  intros s b s' H. unfold update in H. destruct (s !! p) as [n|] eqn:E; [|done].
  simplify_eq. rewrite dom_insert_L. apply elem_of_dom_2 in E. set_solver.
Qed.
#[export] Hint Resolve keeps_load keeps_update : keeps.

Lemma load_Ret {T} (h : gmap Z T) p v : h !! p = Some v -> load p h = Ret (v, h).
Proof. intros H. unfold load. by rewrite H. Qed.

Lemma update_Ret {T} (h : gmap Z T) p v f :
  h !! p = Some v -> update p f h = Ret (tt, <[p := f v]> h).
Proof. intros H. unfold update. by rewrite H. Qed.

(** [bind_step H] rewrites the first call of the goal with its result [H];
    [inv_bind H] decomposes a successful run. *)
Ltac bind_step H := rewrite (bind_Ret _ _ _ _ _ H).

Ltac inv_bind H :=
  let a := fresh "a" in let s := fresh "s" in
  let H1 := fresh H in let H2 := fresh H in
  apply bind_inv in H as (a & s & H1 & H2).

(** ** Removing an element from a list *)
Lemma filter_ne (a : Z) (l : list Z) : a ∉ l -> filter (fun b => b <> a) l = l.
Proof.
  induction l as [|b l IH]; intros Ha; [done|]. rewrite filter_cons_True by set_solver.
  f_equal. apply IH. set_solver.
Qed.

Lemma filter_mid (a : Z) l1 l2 :
  NoDup (l1 ++ a :: l2) -> filter (fun b => b <> a) (l1 ++ a :: l2) = l1 ++ l2.
Proof.
  intros (_ & Hd & [Ha _]%NoDup_cons)%NoDup_app. rewrite filter_app, filter_cons_False by tauto.
  rewrite !filter_ne; [done|done|]. intros Hb. apply (Hd _ Hb). by left.
Qed.

Lemma length_filter_ne (a : Z) (l : list Z) :
  NoDup l -> a ∈ l -> length l = S (length (filter (fun b => b <> a) l)).
Proof.
  intros Hnd (l1 & l2 & ->)%list_elem_of_split. rewrite filter_mid by done.
  rewrite !length_app. simpl. lia.
Qed.

(** ** Machine integers *)
Definition wrapu (w z : Z) : Z := z mod 2 ^ w.
Definition wraps (w z : Z) : Z := (z + 2 ^ (w - 1)) mod 2 ^ w - 2 ^ (w - 1).

Definition u8 := wrapu 8.
Definition u16 := wrapu 16.
Definition u32 := wrapu 32.
Definition u64 := wrapu 64.
Definition i8 := wraps 8.
Definition i32 := wraps 32.
Definition i64 := wraps 64.

Lemma wrapu_small w z : 0 <= z < 2 ^ w -> wrapu w z = z.
Proof. intros. by apply Z.mod_small. Qed.

Lemma wraps_small w z : 0 < w -> - 2 ^ (w - 1) <= z < 2 ^ (w - 1) -> wraps w z = z.
Proof.
  intros Hw H. unfold wraps.
  assert (2 ^ w = 2 * 2 ^ (w - 1)) by (rewrite <- Z.pow_succ_r by lia; f_equal; lia).
  rewrite Z.mod_small; lia.
Qed.

Lemma wrapu_bound w z : 0 <= w -> 0 <= wrapu w z < 2 ^ w.
Proof. intros. apply Z.mod_pos_bound. by apply Z.pow_pos_nonneg. Qed.

Lemma i32_small z : - 2 ^ 31 <= z < 2 ^ 31 -> i32 z = z.
Proof. intros. by apply wraps_small. Qed.

Lemma u64_small z : 0 <= z < 2 ^ 64 -> u64 z = z.
Proof. apply wrapu_small. Qed.

Lemma u32_small z : 0 <= z < 2 ^ 32 -> u32 z = z.
Proof. apply wrapu_small. Qed.

Create HintDb cmodel.
#[export] Hint Resolve load_Ret update_Ret : cmodel.
