(* ===== verification/CList.v ===== *)
(** * Circular doubly linked lists, queues and the lock-free list (common/list.c)

    [ListNode]s live in a heap [gmap Z ListNode]; a pointer is a [Z] and NULL
    is [0].  A circular list is the predicate [ring h l]: the nodes of [l], in
    [next] order, are linked to each other in both directions.  The module
    proves that [_merge_list], [_detach_from_list] and the queue operations
    implement concatenation, removal and a FIFO on that view. *)
From stdpp Require Import base gmap list.
From Stdlib Require Import ZArith Lia.
From S2P Require Import Prelude.

(** ** The code *)
Record ListNode := mkNode { prev : Z; next : Z }.

Abbreviation lheap := (gmap Z ListNode).

Definition get_prev (p : Z) : M lheap Z := n <- load p ;; ret (prev n).
Definition get_next (p : Z) : M lheap Z := n <- load p ;; ret (next n).
Definition set_prev (p v : Z) : M lheap unit := update p (fun n => mkNode v (next n)).
Definition set_next (p v : Z) : M lheap unit := update p (fun n => mkNode (prev n) v).

Definition init_list_node (node : Z) : M lheap unit :=
  set_prev node node ;;; set_next node node.

Definition _merge_list (node1 node2 : Z) : M lheap Z :=
  if node1 =? 0 then ret node2
  else if node2 =? 0 then ret node1
  else
    node3 <- get_next node1 ;;
    node4 <- get_prev node2 ;;
    set_next node1 node2 ;;;
    set_prev node2 node1 ;;;
    set_next node4 node3 ;;;
    set_prev node3 node4 ;;;
    ret node1.

Definition _insert_into_list (list node : Z) : M lheap Z :=
  init_list_node node ;;; _merge_list list node.

Definition _detach_from_list (node : Z) : M lheap Z :=
  prv <- get_prev node ;;
  p <- get_prev node ;; n <- get_next node ;; set_next p n ;;;
  n <- get_next node ;; p <- get_prev node ;; set_prev n p ;;;
  init_list_node node ;;;
  if prv =? node then ret 0 else ret prv.

Definition _empty_list (list : Z) : M lheap bool :=
  n <- get_next list ;; ret (n =? list).

(** The nodes a [_for_in_list(valptr, list)] loop visits, in order: it starts
    at [list->next] and stops after [list] itself has been visited. *)
Fixpoint for_in_list (fuel : nat) (flag valptr : Z) : M lheap (list Z) :=
  match fuel with
  | O => stop NoFuel
  | S fuel =>
      if valptr =? flag then ret [valptr]
      else n <- get_next valptr ;; vs <- for_in_list fuel flag n ;; ret (valptr :: vs)
  end.

Definition _for_in_list (fuel : nat) (head : Z) : M lheap (list Z) :=
  v <- get_next head ;; for_in_list fuel head v.

(** The [Queue] of list.h; its spin lock is taken by the callers. *)
Record Queue := mkQueue { q_begin : Z; q_end : Z; q_sz : Z }.

Definition queue_init : Queue := mkQueue 0 0 0.

Definition queue_push (x : Queue) (item : Z) : M lheap Queue :=
  init_list_node item ;;;
  if q_sz x =? 0 then ret (mkQueue item item (i32 (q_sz x + 1)))
  else _merge_list (q_end x) item ;;;
       ret (mkQueue (q_begin x) item (i32 (q_sz x + 1))).

Definition queue_pop (x : Queue) : M lheap Queue :=
  if q_sz x =? 0 then stop Panic
  else if q_sz x =? 1 then ret (mkQueue 0 0 (i32 (q_sz x - 1)))
  else
    let t := q_begin x in
    b <- get_next (q_begin x) ;;
    _detach_from_list t ;;;
    ret (mkQueue b (q_end x) (i32 (q_sz x - 1))).

Definition queue_front (x : Queue) : M lheap Z :=
  if q_begin x =? 0 then stop Panic else ret (q_begin x).

Definition queue_empty (x : Queue) : bool := q_sz x =? 0.

(** ** The list view of the heap

    The invariant is stated on links: [linked h a b] says that [a] points
    forward to [b] and [b] back to [a]. *)
Definition linked (h : lheap) (a b : Z) : Prop :=
  (next <$> h !! a) = Some b /\ (prev <$> h !! b) = Some a.

(** The links inside [a :: l]. *)
Fixpoint opath (h : lheap) (a : Z) (l : list Z) : Prop :=
  match l with [] => True | b :: l' => linked h a b /\ opath h b l' end.

(** The last node of [a :: l]. *)
Fixpoint lst (a : Z) (l : list Z) : Z :=
  match l with [] => a | b :: l' => lst b l' end.

(** [ring h l]: [l] is a non-empty circular list of distinct nodes. *)
Definition ring (h : lheap) (l : list Z) : Prop :=
  match l with
  | [] => False
  | a :: l' => NoDup l /\ 0 ∉ l /\ opath h a l' /\ linked h (lst a l') a
  end.

(** The writes [x->next = y; y->prev = x]. *)
Definition relink (h : lheap) (x y : Z) : lheap :=
  alter (fun n => mkNode x (next n)) y (alter (fun n => mkNode (prev n) y) x h).

Lemma lst_app a l1 b l2 : lst a (l1 ++ b :: l2) = lst b l2.
Proof. revert a. induction l1; intros a'; [done|]. apply IHl1. Qed.

Lemma lst_In a l : lst a l ∈ a :: l.
Proof.
  revert a. induction l as [|b l IH]; intros a; [by left|]. right. apply IH.
Qed.

Lemma opath_app h a l1 b l2 :
  opath h a (l1 ++ b :: l2) <-> opath h a l1 /\ linked h (lst a l1) b /\ opath h b l2.
Proof.
  revert a. induction l1 as [|c l1 IH]; intros a; [simpl; tauto|].
  cbn [app opath lst]. rewrite IH. tauto.
Qed.

Lemma linked_alloc h a b : linked h a b -> is_Some (h !! a) /\ is_Some (h !! b).
Proof. intros [(?&?&_)%fmap_Some (?&?&_)%fmap_Some]; eauto. Qed.

Lemma relink_next h x y a :
  next <$> relink h x y !! a = if decide (a = x) then (fun _ => y) <$> h !! a else next <$> h !! a.
Proof.
  unfold relink. rewrite !lookup_alter. repeat case_decide; subst; try done;
  rewrite <- ?option_fmap_compose; by destruct (h !! _).
Qed.

Lemma relink_prev h x y a :
  prev <$> relink h x y !! a = if decide (a = y) then (fun _ => x) <$> h !! a else prev <$> h !! a.
Proof.
  unfold relink. rewrite !lookup_alter. repeat case_decide; subst; try done;
  rewrite <- ?option_fmap_compose; by destruct (h !! _).
Qed.

Lemma relink_other h x y a : a <> x -> a <> y -> relink h x y !! a = h !! a.
Proof. intros. unfold relink. by rewrite !lookup_alter_ne. Qed.

Lemma relink_alloc h x y a : is_Some (h !! a) -> is_Some (relink h x y !! a).
Proof.
  intros Ha. unfold relink. rewrite !lookup_alter.
  repeat case_decide; subst; rewrite ?fmap_is_Some; done.
Qed.

Lemma relink_linked h x y :
  is_Some (h !! x) -> is_Some (h !! y) -> linked (relink h x y) x y.
Proof.
  intros [? Hx] [? Hy]. split; [rewrite relink_next|rewrite relink_prev];
  rewrite decide_True by done; by rewrite ?Hx, ?Hy.
Qed.

Lemma relink_keeps h x y s t : s <> x -> t <> y -> linked h s t -> linked (relink h x y) s t.
Proof.
  intros Hs Ht [H1 H2]. split; [rewrite relink_next|rewrite relink_prev];
  by rewrite decide_False.
Qed.

(** Links inside a path survive a write from outside of it, or from its end. *)
Lemma opath_relink h x y a l :
  x ∉ a :: l \/ (NoDup (a :: l) /\ x = lst a l) -> y ∉ l ->
  opath h a l -> opath (relink h x y) a l.
Proof.
  revert a. induction l as [|b l IH]; intros a Hx Hy; [done|]. intros [Hl Hp].
  apply not_elem_of_cons in Hy as [Hy1 Hy2].
  assert (Ha : a <> x).
  { destruct Hx as [Hx|[Hnd ->]]; [by apply not_elem_of_cons in Hx as [? _]|].
    apply NoDup_cons in Hnd as [Hnd _]. cbn [lst]. intros E. apply Hnd. rewrite E. apply lst_In. }
  split; [by apply relink_keeps|]. apply IH; [|done..].
  destruct Hx as [Hx|[Hnd ->]].
  - left. by apply not_elem_of_cons in Hx as [_ ?].
  - right. by apply NoDup_cons in Hnd as [_ ?].
Qed.

Lemma opath_alloc h a l x : opath h a l -> is_Some (h !! a) -> x ∈ a :: l -> is_Some (h !! x).
Proof.
  revert a. induction l as [|b l IH]; intros a Hp Ha [->|Hx]%elem_of_cons; try done.
  - by apply elem_of_nil in Hx.
  - destruct Hp as [Hl Hp]. apply (IH b); [done| |done]. by apply linked_alloc in Hl as [_ ?].
Qed.

Lemma ring_alloc h l x : ring h l -> x ∈ l -> is_Some (h !! x).
Proof.
  destruct l as [|a l]; [done|]. intros (_ & _ & Hp & Hl) Hx.
  eapply opath_alloc; [done| |done]. by apply linked_alloc in Hl as [_ ?].
Qed.

Lemma ring_frame h h' l : ring h l -> (forall a, a ∈ l -> h' !! a = h !! a) -> ring h' l.
Proof.
  destruct l as [|a l]; [done|]. intros (Hnd & H0 & Hp & Hl) Heq.
  split; [done|]. split; [done|]. split.
  - clear Hnd H0 Hl. revert a Hp Heq. induction l as [|b l IH]; intros a Hp Heq; [done|].
    destruct Hp as [[H1 H2] Hp]. split; [split; rewrite Heq by set_solver; done|].
    apply IH; [done|]. intros c Hc. apply Heq. by right.
  - destruct Hl as [H1 H2]. pose proof (lst_In a l). split; rewrite Heq by set_solver; done.
Qed.

(** A ring can be entered at any of its nodes. *)
Lemma ring_rotate h l1 l2 : ring h (l1 ++ l2) -> ring h (l2 ++ l1).
Proof.
  destruct l1 as [|a l1]; [by rewrite app_nil_r|].
  destruct l2 as [|b l2]; [by rewrite app_nil_r|].
  cbn [app]. intros (Hnd & H0 & Hp & Hl).
  apply opath_app in Hp as (Hp1 & Hm & Hp2). rewrite lst_app in Hl.
  split; [|split; [set_solver|split]].
  - change (NoDup ((b :: l2) ++ a :: l1)). rewrite Permutation_app_comm. exact Hnd.
  - by apply opath_app.
  - by rewrite lst_app.
Qed.

Lemma ring_NoDup h l : ring h l -> NoDup l.
Proof. destruct l; [done|]. by intros (? & ? & ?). Qed.

Lemma ring_nonnull h l : ring h l -> 0 ∉ l.
Proof. destruct l; [done|]. by intros (? & ? & ?). Qed.

(** ** Symbolic execution of field accesses *)
Lemma update_alter {T} (h : gmap Z T) p f :
  is_Some (h !! p) -> update p f h = Ret (tt, alter f p h).
Proof.
  intros [v H]. unfold update. rewrite H. do 2 f_equal. apply map_eq. intros i.
  rewrite lookup_alter, lookup_insert. case_decide; [subst; by rewrite H|done].
Qed.

Lemma get_next_Ret h p v : next <$> h !! p = Some v -> get_next p h = Ret (v, h).
Proof.
  unfold get_next, load, bind. destruct (h !! p); [|done]. simpl. by intros [= <-].
Qed.

Lemma get_prev_Ret h p v : prev <$> h !! p = Some v -> get_prev p h = Ret (v, h).
Proof.
  unfold get_prev, load, bind. destruct (h !! p); [|done]. simpl. by intros [= <-].
Qed.

Lemma relink_Ret {B} h x y (k : unit -> M lheap B) :
  is_Some (h !! x) -> is_Some (h !! y) ->
  (set_next x y ;;; bind (set_prev y x) k) h = k tt (relink h x y).
Proof.
  intros Hx Hy. unfold set_next, set_prev.
  erewrite bind_Ret by by apply update_alter.
  erewrite bind_Ret by (apply update_alter; rewrite lookup_alter; case_decide; [by apply fmap_is_Some|done]).
  done.
Qed.

Lemma init_list_node_spec h a :
  is_Some (h !! a) -> init_list_node a h = Ret (tt, <[a := mkNode a a]> h).
Proof.
  intros [v H]. unfold init_list_node, set_prev, set_next.
  erewrite bind_Ret by by apply update_Ret.
  erewrite update_Ret by by rewrite lookup_insert_eq.
  by rewrite insert_insert_eq.
Qed.

Lemma ring_single h a : a <> 0 -> ring (<[a := mkNode a a]> h) [a].
Proof.
  intros Ha. split; [apply NoDup_singleton|]. split; [set_solver|].
  split; [done|]. split; cbn [lst]; by rewrite lookup_insert_eq.
Qed.

Lemma NoDup_interleave (n1 n2 : Z) l1 l2 :
  NoDup (n1 :: l1) -> NoDup (n2 :: l2) -> (n1 :: l1) ## (n2 :: l2) ->
  NoDup (n1 :: n2 :: l2 ++ l1).
Proof.
  intros Hnd1 Hnd2 Hdis.
  assert (n1 :: n2 :: l2 ++ l1 ≡ₚ (n1 :: l1) ++ n2 :: l2) as ->.
  { simpl. f_equiv. by rewrite app_comm_cons, Permutation_app_comm. }
  apply NoDup_app. split; [done|]. split; [|done]. intros x Hx Hx'. by apply (Hdis x).
Qed.

(** What the four writes of [_merge_list] make of two rings. *)
Lemma merge_list_relinked h n1 l1 n2 l2 :
  ring h (n1 :: l1) -> ring h (n2 :: l2) -> NoDup (n1 :: n2 :: l2 ++ l1) ->
  0 ∉ n1 :: n2 :: l2 ++ l1 ->
  ring (relink (relink h n1 n2) (lst n2 l2) (hd n1 l1)) (n1 :: n2 :: l2 ++ l1).
Proof.
  intros Hr1 Hr2 Hnd H0.
  pose proof (ring_alloc _ _ n1 Hr1 ltac:(by left)) as A1.
  pose proof (ring_alloc _ _ n2 Hr2 ltac:(by left)) as A2.
  pose proof (lst_In n2 l2) as Hn4. pose proof (ring_alloc _ _ _ Hr2 Hn4) as A4.
  assert (A3 : is_Some (h !! hd n1 l1)).
  { apply (ring_alloc _ _ _ Hr1). destruct l1; set_solver. }
  destruct Hr1 as (Hnd1 & _ & Hp1 & Hl1), Hr2 as (Hnd2 & _ & Hp2 & Hl2).
  apply NoDup_cons in Hnd as Hnd'. destruct Hnd' as [Hn1 Hnd'].
  apply NoDup_cons in Hnd2 as Hnd2'. destruct Hnd2' as [Hn2 _].
  assert (Hd : forall z, z ∈ n2 :: l2 -> z ∉ l1).
  { rewrite app_comm_cons in Hnd'. by apply NoDup_app in Hnd' as (_ & ? & _). }
  apply not_elem_of_cons in Hn1 as [Hne Hn1]. apply not_elem_of_app in Hn1 as [Hn12 Hn11].
  assert (N42 : n1 ∉ n2 :: l2) by by apply not_elem_of_cons.
  assert (N41 : lst n2 l2 <> n1) by (intros E; by rewrite E in Hn4).
  pose proof (relink_alloc h n1 n2) as R1.
  split; [done|]. split; [done|]. cbn [opath]. apply Logic.and_assoc. split.
  { apply relink_keeps; [done| |by apply relink_linked].
    destruct l1; cbn [hd]; [done|]. intros ->. apply (Hd _ ltac:(by left)). by left. }
  assert (P2 : forall y, y ∉ l2 -> opath (relink (relink h n1 n2) (lst n2 l2) y) n2 l2).
  { intros y Hy. apply opath_relink; [by right|done|]. apply opath_relink; auto. }
  destruct l1 as [|x l1]; cbn [hd].
  - rewrite app_nil_r in *. split; [by apply P2|cbn [lst]; apply relink_linked; auto].
  - assert (Hx2 : x ∉ n2 :: l2) by (intros Hx; apply (Hd x Hx); by left).
    apply not_elem_of_cons in Hx2 as [Hxn2 Hx2].
    assert (Hx1 : x ∉ l1) by by apply NoDup_cons in Hnd1 as [_ [? ?]%NoDup_cons].
    destruct Hp1 as [Hl0 Hp1]. cbn [lst] in *. rewrite lst_app.
    split; [apply opath_app; split; [by apply P2|split]|].
    + apply relink_linked; auto.
    + apply opath_relink; [left; intros Hi; by apply (Hd _ Hn4)|done|].
      apply opath_relink; [by left| |done]. intros Hi. apply (Hd n2); [by left|by right].
    + pose proof (lst_In x l1) as Hl. apply relink_keeps; [|by intros ->; apply Hn11; left|].
      { intros E. apply (Hd _ Hn4). by rewrite <- E. }
      apply relink_keeps; [intros E; by rewrite E in Hl|done|done].
Qed.

(** Two disjoint rings merge into one, entered at [node1] with [node2] next. *)
Lemma merge_list_ring h n1 l1 n2 l2 :
  ring h (n1 :: l1) -> ring h (n2 :: l2) -> (n1 :: l1) ## (n2 :: l2) ->
  exists h', _merge_list n1 n2 h = Ret (n1, h') /\
    ring h' (n1 :: n2 :: l2 ++ l1) /\
    forall a, a ∉ (n1 :: l1) ++ (n2 :: l2) -> h' !! a = h !! a.
Proof.
  intros Hr1 Hr2 Hdis.
  pose proof (NoDup_interleave _ _ _ _ (ring_NoDup _ _ Hr1) (ring_NoDup _ _ Hr2) Hdis) as Hnd.
  pose proof (ring_nonnull _ _ Hr1). pose proof (ring_nonnull _ _ Hr2).
  assert (Hnn : 0 ∉ n1 :: n2 :: l2 ++ l1) by set_solver.
  set (n3 := hd n1 l1). set (n4 := lst n2 l2).
  assert (n3 ∈ n1 :: l1) by (unfold n3; destruct l1; set_solver).
  pose proof (lst_In n2 l2) as Hn4.
  pose proof (ring_alloc _ _ n1 Hr1 ltac:(by left)). pose proof (ring_alloc _ _ n2 Hr2 ltac:(by left)).
  pose proof (ring_alloc _ _ n3 Hr1 ltac:(done)). pose proof (ring_alloc _ _ n4 Hr2 Hn4).
  exists (relink (relink h n1 n2) n4 n3). split; [|split].
  - unfold _merge_list.
    destruct (Z.eqb_spec n1 0); [set_solver|]. destruct (Z.eqb_spec n2 0); [set_solver|].
    destruct Hr1 as (_ & _ & Hp1 & Hl1), Hr2 as (_ & _ & Hp2 & Hl2).
    erewrite bind_Ret; [|apply (get_next_Ret _ _ n3); subst n3; destruct l1; [apply Hl1|apply Hp1]].
    erewrite bind_Ret; [|apply (get_prev_Ret _ _ n4); apply Hl2].
    rewrite relink_Ret by done. rewrite relink_Ret by by apply relink_alloc. done.
  - by apply merge_list_relinked.
  - intros a Ha. rewrite !relink_other; [done|..]; intros ->; set_solver.
Qed.

(** Removing a node from a ring of at least two. *)
Lemma detach_linked h p a n :
  linked h p a -> linked h a n -> p <> a -> n <> a ->
  _detach_from_list a h = Ret (p, <[a := mkNode a a]> (relink h p n)).
Proof.
  intros Hp Hn Hpa Hna. destruct (linked_alloc _ _ _ Hp) as [Ap Aa], (linked_alloc _ _ _ Hn) as [_ An].
  destruct Hp as [Hp1 Hp2], Hn as [Hn1 Hn2]. unfold _detach_from_list.
  do 2 erewrite bind_Ret by (apply get_prev_Ret; done).
  erewrite bind_Ret by (apply get_next_Ret; done).
  unfold set_next. erewrite bind_Ret by by apply update_alter.
  erewrite bind_Ret by (apply get_next_Ret; by rewrite lookup_alter_ne).
  erewrite bind_Ret by (apply get_prev_Ret; by rewrite lookup_alter_ne).
  unfold set_prev. erewrite bind_Ret.
  2:{ apply update_alter. rewrite lookup_alter. case_decide; [by apply fmap_is_Some|done]. }
  erewrite bind_Ret.
  2:{ apply init_list_node_spec. by rewrite !lookup_alter_ne. }
  by destruct (Z.eqb_spec p a).
Qed.

Lemma detach_from_list_ring h a b l :
  ring h (a :: b :: l) ->
  exists h', _detach_from_list a h = Ret (lst b l, h') /\
    ring h' (b :: l) /\ ring h' [a] /\
    forall c, c ∉ a :: b :: l -> h' !! c = h !! c.
Proof.
  intros (Hnd & H0 & [Hab Hp] & Hl). cbn [lst] in Hl.
  apply NoDup_cons in Hnd as [Ha Hnd]. pose proof (lst_In b l) as Hlast.
  apply not_elem_of_cons in H0 as [Ha0 H0].
  assert (Hpa : lst b l <> a) by (intros E; by rewrite E in Hlast).
  assert (Hba : b <> a) by (intros ->; by apply Ha; left).
  exists (<[a := mkNode a a]> (relink h (lst b l) b)). split; [by apply detach_linked|].
  assert (Hr : ring (relink h (lst b l) b) (b :: l)).
  { split; [done|]. split; [done|]. split.
    - apply opath_relink; [by right| |done]. by apply NoDup_cons in Hnd as [? _].
    - apply linked_alloc in Hab as [_ ?], Hl as [? _]. by apply relink_linked. }
  split; [|split].
  - eapply ring_frame; [done|]. intros c Hc. apply lookup_insert_ne. by intros ->.
  - by apply ring_single.
  - intros c Hc. apply not_elem_of_cons in Hc as [Hc1 Hc2]. rewrite lookup_insert_ne by done.
    apply relink_other; [by intros ->|]. intros ->. by apply Hc2; left.
Qed.

(** Removing the only node of a ring leaves it as it is and answers NULL. *)
Lemma detach_from_list_single h a :
  ring h [a] -> _detach_from_list a h = Ret (0, h).
Proof.
  intros (_ & H0 & _ & [H1 H2]). cbn [lst] in *.
  destruct (h !! a) as [[p n]|] eqn:E; [|done]. simpl in *. simplify_eq.
  unfold _detach_from_list.
  do 2 erewrite bind_Ret by (apply get_prev_Ret; by rewrite E).
  erewrite bind_Ret by (apply get_next_Ret; by rewrite E).
  unfold set_next, set_prev. erewrite bind_Ret by by apply update_Ret. cbn [next prev].
  erewrite bind_Ret by (apply get_next_Ret; by rewrite lookup_insert_eq).
  erewrite bind_Ret by (apply get_prev_Ret; by rewrite lookup_insert_eq).
  erewrite bind_Ret by (apply update_Ret; by rewrite lookup_insert_eq). cbn [next prev].
  erewrite bind_Ret by (apply init_list_node_spec; by rewrite lookup_insert_eq).
  rewrite !insert_insert_eq, insert_id by done. by rewrite Z.eqb_refl.
Qed.

Lemma insert_into_list_ring h a l n :
  ring h (a :: l) -> is_Some (h !! n) -> n <> 0 -> n ∉ a :: l ->
  exists h', _insert_into_list a n h = Ret (a, h') /\ ring h' (a :: n :: l) /\
    forall c, c ∉ n :: a :: l -> h' !! c = h !! c.
Proof.
  intros Hr Hn Hn0 Hnl. unfold _insert_into_list.
  erewrite bind_Ret by by apply init_list_node_spec.
  destruct (merge_list_ring (<[n := mkNode n n]> h) a l n []) as (h' & E & Hr' & Hf).
  - eapply ring_frame; [done|]. intros c Hc. apply lookup_insert_ne. by intros ->.
  - by apply ring_single.
  - intros x Hx ->%list_elem_of_singleton. done.
  - exists h'. split; [done|]. split; [done|]. intros c Hc.
    rewrite Hf; [apply lookup_insert_ne; set_solver|]. set_solver.
Qed.

(** A [_for_in_list] loop visits every node of the ring once, the head last. *)
Lemma for_in_list_opath h flag a l fuel :
  opath h a l -> linked h (lst a l) flag -> flag ∉ a :: l -> (length l + 2 <= fuel)%nat ->
  for_in_list fuel flag a h = Ret (a :: l ++ [flag], h).
Proof.
  revert a fuel. induction l as [|b l IH]; intros a fuel Hp Hl Hf Hfuel.
  - destruct fuel as [|[|fuel]]; simpl in *; try lia.
    destruct (Z.eqb_spec a flag); [set_solver|].
    erewrite bind_Ret by (apply get_next_Ret, Hl). by rewrite Z.eqb_refl.
  - destruct fuel as [|fuel]; simpl in Hfuel; [lia|]. cbn [for_in_list].
    apply not_elem_of_cons in Hf as [Hf1 Hf2].
    destruct (Z.eqb_spec a flag); [done|]. destruct Hp as [Hab Hp].
    erewrite bind_Ret by (apply get_next_Ret, Hab).
    erewrite bind_Ret by (apply IH; [done|done|done|lia]). done.
Qed.

Lemma for_in_list_ring h head l fuel :
  ring h (head :: l) -> (length l + 1 <= fuel)%nat ->
  _for_in_list fuel head h = Ret (l ++ [head], h).
Proof.
  intros (Hnd & _ & Hp & Hl) Hfuel. unfold _for_in_list. destruct l as [|a l]; cbn [lst opath] in *.
  - erewrite bind_Ret by (apply get_next_Ret, Hl). destruct fuel; simpl in *; [lia|].
    by rewrite Z.eqb_refl.
  - destruct Hp as [Hha Hp]. erewrite bind_Ret by (apply get_next_Ret, Hha).
    apply NoDup_cons in Hnd as [? _]. apply for_in_list_opath; [done..|]. simpl in Hfuel. lia.
Qed.

(** ** The queue implements a FIFO *)
Definition queue_rep (h : lheap) (q : Queue) (l : list Z) : Prop :=
  q_sz q = Z.of_nat (length l) /\ Z.of_nat (length l) < 2 ^ 31 - 1 /\
  match l with
  | [] => q_begin q = 0 /\ q_end q = 0
  | a :: l' => q_begin q = a /\ q_end q = lst a l' /\ ring h l
  end.

Lemma lst_snoc (a : Z) l : exists l0, a :: l = l0 ++ [lst a l].
Proof.
  revert a. induction l as [|b l IH]; intros a; [by exists []|].
  destruct (IH b) as [l0 E]. exists (a :: l0). cbn [lst]. by rewrite E at 1.
Qed.

Lemma queue_push_fifo h q l item :
  queue_rep h q l -> is_Some (h !! item) -> item <> 0 -> item ∉ l ->
  Z.of_nat (length l) + 1 < 2 ^ 31 - 1 ->
  exists q' h', queue_push q item h = Ret (q', h') /\ queue_rep h' q' (l ++ [item]).
Proof.
  intros (Hsz & Hlen & Hl) Hi Hi0 Hil Hlen'. unfold queue_push.
  erewrite bind_Ret by by apply init_list_node_spec. rewrite Hsz.
  rewrite i32_small by lia.
  destruct l as [|a l].
  - eexists _, _. split; [done|]. split; [done|]. split; [done|].
    split; [done|]. split; [done|]. by apply ring_single.
  - destruct Hl as (Hb & He & Hr). rewrite He.
    destruct (Z.eqb_spec (Z.of_nat (length (a :: l))) 0) as [E|_]; [simpl in E; lia|].
    destruct (lst_snoc a l) as [l0 El].
    destruct (merge_list_ring (<[item := mkNode item item]> h) (lst a l) l0 item [])
      as (h' & E & Hr' & _).
    + apply (ring_rotate _ l0 [lst a l]). rewrite <- El.
      eapply ring_frame; [done|]. intros c Hc. apply lookup_insert_ne. by intros ->.
    + by apply ring_single.
    + intros x Hx ->%list_elem_of_singleton. apply Hil. rewrite El. set_solver.
    + erewrite bind_Ret by done. eexists _, _. split; [done|].
      assert (Hring : ring h' ((a :: l) ++ [item])).
      { rewrite El, <- app_assoc. by apply (ring_rotate _ [lst a l; item] l0). }
      split; [|split]; cbn [q_sz q_begin q_end]; rewrite ?length_app; simpl length in *; try lia.
      cbn [app]. split; [done|]. split; [|done]. by rewrite lst_app.
Qed.

Lemma queue_pop_fifo h q a l :
  queue_rep h q (a :: l) ->
  exists q' h', queue_pop q h = Ret (q', h') /\ queue_rep h' q' l.
Proof.
  intros (Hsz & Hlen & Hb & He & Hr). unfold queue_pop. rewrite Hsz.
  destruct (Z.eqb_spec (Z.of_nat (length (a :: l))) 0) as [E|_]; [simpl in E; lia|].
  destruct l as [|b l].
  - eexists _, _. split; [done|]. by repeat split.
  - destruct (Z.eqb_spec (Z.of_nat (length (a :: b :: l))) 1) as [E|_]; [simpl in E; lia|].
    rewrite Hb. erewrite bind_Ret by (apply get_next_Ret, Hr).
    destruct (detach_from_list_ring _ _ _ _ Hr) as (h' & E & Hr' & _ & _).
    erewrite bind_Ret by done. eexists _, _. split; [done|].
    simpl length in *. rewrite i32_small by lia.
    split; [|split]; cbn [q_sz q_begin q_end]; [simpl length; lia..|].
    split; [done|]. split; [by rewrite He|done].
Qed.

Lemma queue_front_fifo h q l :
  queue_rep h q l ->
  queue_front q h = (match l with [] => Stop Panic | a :: _ => Ret (a, h) end) /\
  queue_empty q = bool_decide (l = []).
Proof.
  intros (Hsz & _ & Hl). unfold queue_front, queue_empty. rewrite Hsz.
  destruct l as [|a l]; [by destruct Hl as [-> _]|].
  destruct Hl as (-> & _ & Hr). apply ring_nonnull in Hr.
  destruct (Z.eqb_spec a 0) as [->|]; [set_solver|]. done.
Qed.

(** ** A list with a sentinel

    Most lists of the kernel hang off a sentinel node [head]; the other
    components represent such a list by the sequence of its other nodes. *)
Lemma sentinel_detach h head l1 p l2 :
  ring h (head :: l1 ++ p :: l2) ->
  exists h', _detach_from_list p h = Ret (lst head l1, h') /\ ring h' (head :: l1 ++ l2) /\ ring h' [p].
Proof.
  intros Hr. change (head :: l1 ++ p :: l2) with ((head :: l1) ++ p :: l2) in Hr.
  apply ring_rotate in Hr. rewrite <- app_comm_cons in Hr.
  destruct (l2 ++ head :: l1) as [|b l] eqn:El; [by destruct l2|].
  destruct (detach_from_list_ring _ _ _ _ Hr) as (h' & E & Hr' & Hp & _). exists h'. split; [|split; [|done]].
  - rewrite E. f_equal. f_equal. destruct l2 as [|c l2]; simpl in El; simplify_eq; [done|]. apply lst_app.
  - rewrite <- El in Hr'. by apply ring_rotate in Hr'.
Qed.

Lemma sentinel_ends h head l :
  ring h (head :: l) ->
  _empty_list head h = Ret (bool_decide (l = []), h) /\ get_prev head h = Ret (lst head l, h).
Proof.
  intros (Hnd & H0 & Hp & Hl). split; [|apply get_prev_Ret, Hl]. unfold _empty_list.
  destruct l as [|a l]; cbn [lst opath] in *.
  - erewrite bind_Ret by (apply get_next_Ret, Hl). by rewrite Z.eqb_refl.
  - destruct Hp as [Hha _]. erewrite bind_Ret by (apply get_next_Ret, Hha).
    rewrite (proj2 (Z.eqb_neq _ _)); [done|]. intros ->. by apply NoDup_cons in Hnd as [? _]; set_solver.
Qed.

(** ** Sequences of queue operations *)
Inductive queue_op := QPush (item : Z) | QPop | QFront.

Definition queue_call (op : queue_op) (q : Queue) : M lheap (Queue * option Z) :=
  match op with
  | QPush item => q' <- queue_push q item ;; ret (q', None)
  | QPop => q' <- queue_pop q ;; ret (q', None)
  | QFront => f <- queue_front q ;; ret (q, Some f)
  end.

Fixpoint queue_run (ops : list queue_op) (q : Queue) : M lheap (Queue * list Z) :=
  match ops with
  | [] => ret (q, [])
  | op :: ops' =>
      r <- queue_call op q ;;
      rs <- queue_run ops' (fst r) ;;
      ret (fst rs, match snd r with Some f => f :: snd rs | None => snd rs end)
  end.

(** The same on a plain list; [None] where the code panics. *)
Fixpoint fifo_run (ops : list queue_op) (l : list Z) : option (list Z * list Z) :=
  match ops, l with
  | [], _ => Some (l, [])
  | QPush i :: ops', _ => fifo_run ops' (l ++ [i])
  | QPop :: ops', _ :: l' => fifo_run ops' l'
  | QFront :: ops', a :: _ => '(l', rs) ← fifo_run ops' l; Some (l', a :: rs)
  | _, [] => None
  end.

(** Pushed nodes are allocated and not already queued, and the length stays
    within an [int]. *)
Fixpoint fifo_ok (d : gset Z) (ops : list queue_op) (l : list Z) : bool :=
  match ops with
  | [] => true
  | QPush i :: ops' => bool_decide (i ∈ d /\ i <> 0 /\ i ∉ l /\ Z.of_nat (length l) + 1 < 2 ^ 31 - 1)
                       && fifo_ok d ops' (l ++ [i])
  | QPop :: ops' => fifo_ok d ops' (tail l)
  | QFront :: ops' => fifo_ok d ops' l
  end.

Lemma queue_call_keeps op q : keeps dom (queue_call op q).
Proof.
  unfold queue_call, queue_push, queue_pop, queue_front, _merge_list, _detach_from_list, init_list_node,
    set_prev, set_next, get_prev, get_next.
  keeps_tac.
Qed.

Lemma queue_run_fifo_aux ops h q l l' rs :
  queue_rep h q l -> fifo_ok (dom h) ops l = true -> fifo_run ops l = Some (l', rs) ->
  exists q' h', queue_run ops q h = Ret ((q', rs), h') /\ queue_rep h' q' l'.
Proof.
  revert h q l l' rs. induction ops as [|op ops IH]; intros h q l l' rs Hq Hok Hr.
  { simpl in Hr. simplify_eq. by exists q, h. }
  cbn [queue_run].
  assert (Hstep : forall q1 h1 f l1, queue_call op q h = Ret ((q1, f), h1) -> queue_rep h1 q1 l1 ->
    fifo_ok (dom h) ops l1 = true -> forall rs1, fifo_run ops l1 = Some (l', rs1) ->
    rs = match f with Some f => f :: rs1 | None => rs1 end ->
    exists q' h', (r <- queue_call op q ;; rs <- queue_run ops (fst r) ;;
      ret (fst rs, match snd r with Some f => f :: snd rs | None => snd rs end)) h = Ret ((q', rs), h') /\
      queue_rep h' q' l').
  { intros q1 h1 f l1 E1 Hq1 Hok1 rs1 Hr1 ->. rewrite <- (queue_call_keeps _ _ _ _ _ E1) in Hok1.
    destruct (IH _ _ _ _ _ Hq1 Hok1 Hr1) as (q' & h' & E2 & Hq'). exists q', h'. split; [|done].
    rewrite (bind_Ret _ _ _ _ _ E1). cbn [fst snd]. rewrite (bind_Ret _ _ _ _ _ E2). by destruct f. }
  destruct op as [i| |]; simpl in Hok.
  - apply andb_true_iff in Hok as [(Hi & Hi0 & Hil & Hlen)%bool_decide_eq_true Hok].
    apply elem_of_dom in Hi. destruct (queue_push_fifo h q l i) as (q1 & h1 & E1 & Hq1); try done.
    eapply (Hstep q1 h1 None); [|done|done|destruct l; exact Hr|done].
    cbn [queue_call]. by erewrite bind_Ret by exact E1.
  - destruct l as [|a l]; [done|]. destruct (queue_pop_fifo h q a l Hq) as (q1 & h1 & E1 & Hq1).
    eapply (Hstep q1 h1 None); [|done|done|exact Hr|done].
    cbn [queue_call]. by erewrite bind_Ret by exact E1.
  - destruct l as [|a l]; [done|]. destruct (queue_front_fifo h q (a :: l) Hq) as [E1 _].
    cbn [fifo_run] in Hr. apply bind_Some in Hr as ([l2 rs2] & Hr & E2). simplify_eq.
    eapply (Hstep q h (Some a)); [|done|done|exact Hr|done].
    cbn [queue_call]. by erewrite bind_Ret by exact E1.
Qed.

(** ** The properties *)

(** Any sequence of [queue_push], [queue_pop] and [queue_front] calls on a
    well-formed queue that a FIFO list can run, runs on the linked
    representation as well, without a panic or a fault: the fronts it reports
    are the ones of the list, and the final queue holds its elements in order. *)
Theorem queue_run_fifo (ops : list queue_op) (h : lheap) (q : Queue) (l l' rs : list Z) :
  queue_rep h q l -> fifo_ok (dom h) ops l = true -> fifo_run ops l = Some (l', rs) ->
  exists q' h', queue_run ops q h = Ret ((q', rs), h') /\ queue_rep h' q' l'.
Proof. apply queue_run_fifo_aux. Qed.

(** [_merge_list(n1, n2)] on two disjoint circular lists splices the second
    after [n1] (so [n1->next == n2]), returns [n1] and touches no other node;
    [_detach_from_list] of a node of a circular list returns its predecessor,
    closes the list behind it and leaves the node as a list of its own;
    detaching the last node returns NULL. *)
Theorem list_splice_detach (h : lheap) (n1 : Z) (l1 : list Z) (n2 : Z) (l2 : list Z) :
  ring h (n1 :: l1) -> ring h (n2 :: l2) -> (n1 :: l1) ## (n2 :: l2) ->
  (exists h', _merge_list n1 n2 h = Ret (n1, h') /\ ring h' (n1 :: n2 :: l2 ++ l1) /\
    forall a, a ∉ (n1 :: l1) ++ (n2 :: l2) -> h' !! a = h !! a) /\
  (match l1 with
   | [] => _detach_from_list n1 h = Ret (0, h)
   | b :: l => exists h', _detach_from_list n1 h = Ret (lst b l, h') /\ ring h' l1 /\ ring h' [n1] /\
       ring h' (n2 :: l2)
   end).
Proof.
  intros H1 H2 Hd. split; [by apply merge_list_ring|].
  destruct l1 as [|b l]; [by apply detach_from_list_single|].
  destruct (detach_from_list_ring _ _ _ _ H1) as (h' & E & Hr & Hs & Hf). exists h'.
  split; [done|]. split; [done|]. split; [done|]. eapply ring_frame; [exact H2|].
  intros c Hc. apply Hf. intros Hc'. by apply (Hd c).
Qed.

(** A circular list with a sentinel [head] behaves as the sequence [l] of
    its other nodes: [_insert_into_list] adds in front, [_detach_from_list]
    removes a node wherever it is, returns its predecessor and leaves it
    alone, [_for_in_list] visits [l] in order and then the sentinel,
    [_empty_list] tests [l] and [head->prev] is the last node. *)
Theorem sentinel_list_refines (h : lheap) (head : Z) (l : list Z) :
  ring h (head :: l) ->
  (forall n, is_Some (h !! n) -> n <> 0 -> n ∉ head :: l ->
     exists h', _insert_into_list head n h = Ret (head, h') /\ ring h' (head :: n :: l)) /\
  (forall l1 p l2, l = l1 ++ p :: l2 ->
     exists h', _detach_from_list p h = Ret (lst head l1, h') /\ ring h' (head :: l1 ++ l2) /\ ring h' [p]) /\
  (forall fuel, (length l + 1 <= fuel)%nat -> _for_in_list fuel head h = Ret (l ++ [head], h)) /\
  _empty_list head h = Ret (bool_decide (l = []), h) /\ get_prev head h = Ret (lst head l, h).
Proof.
  intros Hr. split; [|split; [|split]].
  - intros n Hn H0 Hnl. destruct (insert_into_list_ring h head l n Hr Hn H0 Hnl) as (h' & E & Hr' & _). eauto.
  - intros l1 p l2 ->. by apply sentinel_detach.
  - intros fuel Hf. by apply for_in_list_ring.
  - by apply sentinel_ends.
Qed.

(** ** Witnesses *)
Definition ex_list : lheap :=
  {[ 8 := mkNode 24 16; 16 := mkNode 8 24; 24 := mkNode 16 8; 32 := mkNode 32 32; 40 := mkNode 0 0 ]}.

Lemma list_splice_detach_witness :
  (exists h', _merge_list 8 32 ex_list = Ret (8, h') /\ ring h' [8; 32; 16; 24] /\
    forall a, a ∉ [8; 16; 24; 32] -> h' !! a = ex_list !! a) /\
  (exists h', _detach_from_list 8 ex_list = Ret (24, h') /\ ring h' [16; 24] /\ ring h' [8] /\ ring h' [32]).
Proof.
  apply (list_splice_detach ex_list 8 [16; 24] 32 []).
  - split; [apply (bool_decide_unpack _); by vm_compute|].
    split; [apply (bool_decide_unpack _); by vm_compute|]. vm_compute. repeat split.
  - split; [apply (bool_decide_unpack _); by vm_compute|].
    split; [apply (bool_decide_unpack _); by vm_compute|]. vm_compute. repeat split.
  - intros a Ha ->%list_elem_of_singleton. revert Ha. apply (bool_decide_unpack _). by vm_compute.
Defined.

Lemma queue_run_fifo_witness :
  exists q' h', queue_run [QPush 32; QPush 40; QFront; QPop; QFront; QPush 8] queue_init ex_list =
    Ret ((q', [32; 40]), h') /\ queue_rep h' q' [40; 8].
Proof.
  apply (queue_run_fifo [QPush 32; QPush 40; QFront; QPop; QFront; QPush 8] ex_list queue_init []).
  - by repeat split.
  - by vm_compute.
  - reflexivity.
Defined.

Lemma sentinel_list_refines_witness :
  (exists h', _insert_into_list 8 40 ex_list = Ret (8, h') /\ ring h' [8; 40; 16; 24]) /\
  (exists h', _detach_from_list 24 ex_list = Ret (16, h') /\ ring h' [8; 16] /\ ring h' [24]) /\
  _for_in_list 3 8 ex_list = Ret ([16; 24; 8], ex_list) /\ get_prev 8 ex_list = Ret (24, ex_list).
Proof.
  destruct (sentinel_list_refines ex_list 8 [16; 24]) as (Hi & Hd & Hf & _ & Hp).
  { split; [apply (bool_decide_unpack _); by vm_compute|].
    split; [apply (bool_decide_unpack _); by vm_compute|]. vm_compute. repeat split. }
  split; [|split; [|split]].
  - apply Hi; [vm_compute; eauto|lia|]. apply (bool_decide_unpack _). by vm_compute.
  - apply (Hd [16] 24 []). reflexivity.
  - apply (Hf 3%nat). simpl. lia.
  - exact Hp.
Defined.
