(* ===== verification/LockFree.v ===== *)
(** * The lock-free list of common/list.c under interleaving

    [add_to_queue], [fetch_from_queue] and [fetch_all_from_queue] are modelled
    one atomic access at a time: every thread has a program counter in
    [lf_thr], and [lf_step t spurious] lets thread [t] do its next access of
    the shared head or of a node.  [spurious] is the failure a weak
    compare-exchange may report although the comparison held. *)
From stdpp Require Import base gmap list.
From Stdlib Require Import ZArith Lia.
From S2P Require Import Prelude.

Inductive lfpc :=
| AddLoad (node : Z)              (* node->next = *head *)
| AddCas (node : Z)               (* CAS(head, &node->next, node) *)
| AddDone (node : Z)
| FetLoad                         (* node = *head; test node *)
| FetRead (node : Z)              (* read node->next for the CAS *)
| FetCas (node nxt : Z)           (* CAS(head, &node, nxt) *)
| FetDone (node : Z)
| AllXchg                         (* exchange(head, NULL) *)
| AllDone (node : Z).

Record lf := mkLf { lf_head : Z; lf_next : gmap Z Z; lf_thr : gmap nat lfpc }.

Definition set_pc (t : nat) (pc : lfpc) (s : lf) : lf :=
  mkLf (lf_head s) (lf_next s) (<[t := pc]> (lf_thr s)).

(** One access of [add_to_queue(&head, node)]. *)
Definition add_to_queue_step (t : nat) (spurious : bool) (s : lf) (pc : lfpc) : option lf :=
  match pc with
  | AddLoad n =>
      if decide (is_Some (lf_next s !! n))
      then Some (mkLf (lf_head s) (<[n := lf_head s]> (lf_next s)) (<[t := AddCas n]> (lf_thr s)))
      else None
  | AddCas n =>
      nx ← lf_next s !! n;
      if bool_decide (nx = lf_head s) && negb spurious
      then Some (mkLf n (lf_next s) (<[t := AddDone n]> (lf_thr s)))
      else Some (mkLf (lf_head s) (<[n := lf_head s]> (lf_next s)) (<[t := AddLoad n]> (lf_thr s)))
  | _ => None
  end.

(** One access of [fetch_from_queue(&head)]. *)
Definition fetch_from_queue_step (t : nat) (spurious : bool) (s : lf) (pc : lfpc) : option lf :=
  match pc with
  | FetLoad => if bool_decide (lf_head s = 0) then Some (set_pc t (FetDone 0) s)
               else Some (set_pc t (FetRead (lf_head s)) s)
  | FetRead n => nx ← lf_next s !! n; Some (set_pc t (FetCas n nx) s)
  | FetCas n nx =>
      if bool_decide (n = lf_head s) && negb spurious
      then Some (mkLf nx (lf_next s) (<[t := FetDone n]> (lf_thr s)))
      else Some (set_pc t FetLoad s)
  | _ => None
  end.

(** [fetch_all_from_queue(&head)] is one exchange. *)
Definition fetch_all_from_queue_step (t : nat) (s : lf) (pc : lfpc) : option lf :=
  match pc with
  | AllXchg => Some (mkLf 0 (lf_next s) (<[t := AllDone (lf_head s)]> (lf_thr s)))
  | _ => None
  end.

Definition lf_step (t : nat) (spurious : bool) (s : lf) : option lf :=
  pc ← lf_thr s !! t;
  match pc with
  | AddLoad _ | AddCas _ => add_to_queue_step t spurious s pc
  | FetLoad | FetRead _ | FetCas _ _ => fetch_from_queue_step t spurious s pc
  | AllXchg => fetch_all_from_queue_step t s pc
  | AddDone _ | FetDone _ | AllDone _ => None
  end.

(** A thread that is done may call the next operation. *)
Definition lf_idle (pc : lfpc) : bool :=
  match pc with AddDone _ | FetDone _ | AllDone _ => true | _ => false end.

Definition lf_call (t : nat) (pc : lfpc) (s : lf) : option lf :=
  old ← lf_thr s !! t;
  if lf_idle old then Some (set_pc t pc s) else None.

(** ** The list held by the queue *)
Fixpoint stk (nx : gmap Z Z) (head : Z) (l : list Z) : Prop :=
  match l with
  | [] => head = 0
  | a :: l' => head = a /\ a <> 0 /\ exists b, nx !! a = Some b /\ stk nx b l'
  end.

Lemma stk_insert_ne nx head l a v : a ∉ l -> stk nx head l -> stk (<[a := v]> nx) head l.
Proof.
  revert head. induction l as [|b l IH]; intros head Ha; [done|].
  intros (-> & Hb & c & Hc & Hs). apply not_elem_of_cons in Ha as [Ha1 Ha2].
  split; [done|]. split; [done|]. exists c. split; [by rewrite lookup_insert_ne|by apply IH].
Qed.

(** A node a thread holds privately while it adds it. *)
Definition adding (pc : lfpc) : option Z :=
  match pc with AddLoad n | AddCas n => Some n | _ => None end.

Definition popping (pc : lfpc) : bool :=
  match pc with FetLoad | FetRead _ | FetCas _ _ => true | _ => false end.

(** Well-formedness while no thread runs [fetch_from_queue]: the nodes being
    added are private, pairwise distinct and not in the list. *)
Definition own_inv (thr : gmap nat lfpc) (nx : gmap Z Z) (l : list Z) : Prop :=
  (forall t pc n, thr !! t = Some pc -> adding pc = Some n ->
     n <> 0 /\ n ∉ l /\ is_Some (nx !! n)) /\
  (forall t t' pc pc' n, thr !! t = Some pc -> thr !! t' = Some pc' ->
     adding pc = Some n -> adding pc' = Some n -> t = t') /\
  (forall t pc, thr !! t = Some pc -> popping pc = false).

Definition add_inv (s : lf) (l : list Z) : Prop :=
  stk (lf_next s) (lf_head s) l /\ own_inv (lf_thr s) (lf_next s) l.

(** What one access does to the list, seen from outside. *)
Definition lf_effect (s' : lf) (t : nat) (l l' : list Z) : Prop :=
  match lf_thr s' !! t with
  | Some (AddDone n) => l' = n :: l
  | Some (AllDone n) => l' = [] /\ n = hd 0 l
  | Some (FetDone n) => match l with [] => n = 0 /\ l' = [] | a :: l0 => n = a /\ l' = l0 end
  | _ => l' = l
  end.

Lemma stk_hd nx head l : stk nx head l -> head = hd 0 l.
Proof. destruct l; [done|]. by intros [-> _]. Qed.

(** A thread may move on, keeping or giving up its private node. *)
Lemma own_inv_update thr nx l t pc pc' nx' l' :
  own_inv thr nx l -> thr !! t = Some pc -> popping pc' = false ->
  adding pc' = adding pc \/ adding pc' = None ->
  (forall a, is_Some (nx !! a) -> is_Some (nx' !! a)) ->
  (forall n, n ∈ l' -> n ∈ l \/ (adding pc = Some n /\ adding pc' = None)) ->
  own_inv (<[t := pc']> thr) nx' l'.
Proof.
  intros (Hown & Hdis & Hpop) Ht Hpc' Had Hnx Hl. split; [|split].
  - intros t' q n Ht' Hn. rewrite lookup_insert in Ht'. case_decide; simplify_eq.
    + destruct Had as [Had|Had]; [|congruence]. rewrite Hn in Had.
      destruct (Hown _ _ n Ht (eq_sym Had)) as (? & ? & ?).
      split; [done|]. split; [|auto]. intros [?|[_ ?]]%Hl; [done|congruence].
    + destruct (Hown _ _ n Ht' Hn) as (? & ? & ?).
      split; [done|]. split; [|auto]. intros [?|[? _]]%Hl; eauto.
  - intros t1 t2 q1 q2 n H1 H2 Hn1 Hn2. rewrite lookup_insert in H1, H2.
    repeat case_decide; simplify_eq; try done; [| |eauto];
      destruct Had as [Had|Had]; rewrite Had in *; try done; eauto.
  - intros t' q Ht'. rewrite lookup_insert in Ht'. case_decide; simplify_eq; eauto.
Qed.

Lemma insert_is_Some {A} (m : gmap Z A) i x a : is_Some (m !! a) -> is_Some (<[i := x]> m !! a).
Proof. rewrite lookup_insert. by case_decide. Qed.

Lemma add_inv_step s l t sp s' :
  add_inv s l -> lf_step t sp s = Some s' ->
  exists l', add_inv s' l' /\ lf_effect s' t l l'.
Proof.
  intros [Hs Hinv] Hstep. pose proof Hinv as (Hown & _ & Hpop). unfold lf_step in Hstep.
  destruct (lf_thr s !! t) as [pc|] eqn:Ht; [|done]. simpl in Hstep.
  pose proof (Hpop _ _ Ht) as Hpc.
  destruct pc as [n|n|n| |n|n nx|n| |n]; simpl in *; try done.
  - destruct (Hown _ _ n Ht eq_refl) as (Hn0 & Hnl & Hns). rewrite decide_True in Hstep by done.
    simplify_eq. exists l. split; [|by unfold lf_effect; simpl; rewrite lookup_insert_eq].
    split; [by apply stk_insert_ne|]. eapply own_inv_update; eauto using insert_is_Some.
  - destruct (Hown _ _ n Ht eq_refl) as (Hn0 & Hnl & [nx Hns]). rewrite Hns in Hstep. simpl in Hstep.
    destruct (bool_decide (nx = lf_head s) && negb sp) eqn:E; simplify_eq.
    + apply andb_prop in E as [->%bool_decide_eq_true _]. exists (n :: l).
      split; [|by unfold lf_effect; simpl; rewrite lookup_insert_eq].
      split; [simpl; eauto|]. eapply own_inv_update; eauto.
      intros m [->|?]%elem_of_cons; auto.
    + exists l. split; [|by unfold lf_effect; simpl; rewrite lookup_insert_eq].
      split; [by apply stk_insert_ne|]. eapply own_inv_update; eauto using insert_is_Some.
  - simplify_eq. exists []. split.
    + split; [done|]. eapply own_inv_update; eauto. intros m Hm. by apply elem_of_nil in Hm.
    + unfold lf_effect. simpl. rewrite lookup_insert_eq. split; [done|by eapply stk_hd].
Qed.

(** ** Runs *)
Inductive lf_event := EStep (t : nat) (spurious : bool) | ECall (t : nat) (pc : lfpc).

Definition lf_do (e : lf_event) (s : lf) : option lf :=
  match e with EStep t sp => lf_step t sp s | ECall t pc => lf_call t pc s end.

Fixpoint lf_run (es : list lf_event) (s : lf) : option lf :=
  match es with [] => Some s | e :: es' => s' ← lf_do e s; lf_run es' s' end.

(** The events of a run without [fetch_from_queue], where a thread only adds
    a node that is allocated and that nobody holds. *)
Definition call_ok (s : lf) (l : list Z) (e : lf_event) : Prop :=
  match e with
  | EStep _ _ => True
  | ECall t (AddLoad n) =>
      n <> 0 /\ n ∉ l /\ is_Some (lf_next s !! n) /\
      forall t' pc, lf_thr s !! t' = Some pc -> adding pc <> Some n
  | ECall t AllXchg => True
  | ECall _ _ => False
  end.

(** One event of the concurrent machine is one event of a list: nothing, a
    push by the thread whose CAS succeeded, or taking the whole list. *)
Inductive lf_sim : lf -> list Z -> list lf_event -> lf -> list Z -> Prop :=
| sim_nil s l : lf_sim s l [] s l
| sim_step s l t sp s1 l1 es s2 l2 :
    lf_step t sp s = Some s1 -> lf_effect s1 t l l1 ->
    lf_sim s1 l1 es s2 l2 -> lf_sim s l (EStep t sp :: es) s2 l2
| sim_call s l t pc s1 es s2 l2 :
    lf_call t pc s = Some s1 -> call_ok s l (ECall t pc) ->
    lf_sim s1 l es s2 l2 -> lf_sim s l (ECall t pc :: es) s2 l2.

Lemma add_inv_call s l t pc s' :
  add_inv s l -> lf_call t pc s = Some s' -> call_ok s l (ECall t pc) -> add_inv s' l.
Proof.
  intros [Hs (Hown & Hdis & Hpop)] Hc Hok. unfold lf_call in Hc.
  destruct (lf_thr s !! t) as [old|] eqn:Ht; [|done]. simpl in Hc.
  destruct (lf_idle old) eqn:Hi; [|done]. simplify_eq. split; [done|].
  destruct pc as [n|n|n| |n|n nx|n| |n]; try done; simpl in *.
  - destruct Hok as (Hn0 & Hnl & Hns & Hfree). split; [|split]; simpl.
    + intros t' q m Ht' Hm. rewrite lookup_insert in Ht'. case_decide; simplify_eq/=; eauto.
    + intros t1 t2 q1 q2 m H1 H2 Hm1 Hm2. rewrite lookup_insert in H1, H2.
      repeat case_decide; simplify_eq/=; eauto; exfalso; eapply Hfree; eauto.
    + intros t' q Ht'. rewrite lookup_insert in Ht'. case_decide; simplify_eq/=; eauto.
  - eapply own_inv_update; [by split; [|split]|done|done|by right|done|by left].
Qed.

Lemma lf_sim_inv s l es s' l' : lf_sim s l es s' l' -> add_inv s l -> add_inv s' l'.
Proof.
  induction 1 as [|s l t sp s1 l1 es s2 l2 Hst Heff _ IH|s l t pc s1 es s2 l2 Hc Hok _ IH]; intros Hi;
    [done| |eauto using add_inv_call].
  apply IH. destruct (add_inv_step _ _ _ _ _ Hi Hst) as (l1' & Hi' & Heff').
  assert (l1 = l1') as ->; [|done]. unfold lf_effect in Heff, Heff'.
  destruct Hi as [_ (_ & _ & Hp)]. unfold lf_step in Hst.
  destruct (lf_thr s !! t) as [pc|] eqn:Ht; [|done]. simpl in Hst.
  specialize (Hp _ _ Ht). destruct (lf_thr s1 !! t) as [[]|]; try congruence.
  - destruct l; naive_solver.
  - naive_solver.
Qed.

(** C31: while threads only run [add_to_queue] and [fetch_all_from_queue],
    every atomic access, in any interleaving and with any spurious CAS
    failures, keeps the shared list well formed and acts on it as one atomic
    list operation: a successful CAS of [add_to_queue(n)] pushes [n], the
    exchange takes the whole list, everything else leaves it unchanged. *)
Theorem add_queue_linearizable (s : lf) (l : list Z) (t : nat) (sp : bool) (s' : lf) :
  add_inv s l -> lf_step t sp s = Some s' ->
  exists l', add_inv s' l' /\ lf_effect s' t l l'.
Proof. apply add_inv_step. Qed.

Definition demo_add : lf :=
  mkLf 16 {[16 := 0; 32 := 7; 48 := 7]} {[0%nat := AddLoad 32; 1%nat := AllXchg]}.

Lemma add_queue_linearizable_witness :
  exists l', add_inv (mkLf 16 {[16 := 0; 32 := 16; 48 := 7]} {[0%nat := AddCas 32; 1%nat := AllXchg]}) l' /\
    lf_effect (mkLf 16 {[16 := 0; 32 := 16; 48 := 7]} {[0%nat := AddCas 32; 1%nat := AllXchg]}) 0 [16] l'.
Proof.
  apply (add_queue_linearizable demo_add [16] 0 false).
  - split; [simpl; eauto|]. split; [|split].
    + intros t pc n Ht Hn. unfold demo_add in Ht. simpl in Ht.
      apply lookup_insert_Some in Ht as [[<- <-]|[_ Ht]]; [injection Hn as <-|].
      * split; [done|]. split; [set_solver|]. by eexists.
      * apply lookup_singleton_Some in Ht as [<- <-]. done.
    + intros t t' pc pc' n H1 H2 Hn1 Hn2. unfold demo_add in H1, H2. simpl in H1, H2.
      apply lookup_insert_Some in H1 as [[<- <-]|[_ H1]];
      apply lookup_insert_Some in H2 as [[<- <-]|[_ H2]]; try done;
      repeat match goal with H : {[_ := _]} !! _ = Some _ |- _ =>
        apply lookup_singleton_Some in H as [<- <-] end; done.
    + intros t pc Ht. unfold demo_add in Ht. simpl in Ht.
      apply lookup_insert_Some in Ht as [[<- <-]|[_ Ht]]; [done|].
      by apply lookup_singleton_Some in Ht as [<- <-].
  - vm_compute. reflexivity.
Defined.

(** The interleaving of the ABA problem: thread 0 has read [16] and its
    successor [32]; threads 1 and 2 fetch both nodes and thread 1 adds [16]
    back; thread 0's CAS then succeeds and makes [32] the head again. *)
Definition aba_start : lf :=
  mkLf 16 {[16 := 32; 32 := 0]}
    {[0%nat := FetLoad; 1%nat := FetLoad; 2%nat := FetLoad; 3%nat := FetLoad]}.

Definition aba_run : list lf_event :=
  [EStep 0 false; EStep 0 false;
   EStep 1 false; EStep 1 false; EStep 1 false;
   EStep 2 false; EStep 2 false; EStep 2 false;
   ECall 1 (AddLoad 16); EStep 1 false; EStep 1 false;
   EStep 0 false;
   EStep 3 false; EStep 3 false; EStep 3 false].

(** [fetch_from_queue] is not safe against concurrent adds and fetches: there
    is a run from a well-formed two-node list in which the same node [32] is
    returned to thread 2 and, without having been added back, to thread 3. *)
Theorem fetch_from_queue_aba :
  stk (lf_next aba_start) (lf_head aba_start) [16; 32] /\
  exists s', lf_run aba_run aba_start = Some s' /\
    lf_thr s' !! 2%nat = Some (FetDone 32) /\ lf_thr s' !! 3%nat = Some (FetDone 32).
Proof.
  split; [simpl; eauto 20|]. eexists. split; [vm_compute; reflexivity|]. by vm_compute.
Qed.
