(* ===== verification/Bitmap.v ===== *)
(** * Bitmaps and the allocators built on them

    [common/bitmap.h] packs booleans into 64-bit cells; [alloc_pid] and
    [free_pid] of [kernel/proc.c] search such a map next-fit, and
    [find_and_set_8_blocks] and [release_8_blocks] of [fs/cache.c] hand out
    the swap slots with one. *)
From stdpp Require Import base list.
From Stdlib Require Import ZArith Lia.
From S2P Require Import Prelude.

(** ** common/bitmap.h *)
Abbreviation bitmap := (list Z).

Definition BITMAP_BITS_PER_CELL := 64.
Definition BIT (i : Z) : Z := u64 (Z.shiftl 1 i).
Definition BITMAP_TO_NUM_CELLS (size : Z) : Z :=
  (size + BITMAP_BITS_PER_CELL - 1) / BITMAP_BITS_PER_CELL.

(** [bitmap[idx]] as an lvalue: out of the array is a fault. *)
Definition cell_get (idx : Z) : M bitmap Z :=
  fun bm => match bm !! Z.to_nat idx with
            | Some c => if 0 <=? idx then Ret (c, bm) else Stop Fault
            | None => Stop Fault
            end.
Definition cell_set (idx v : Z) : M bitmap unit :=
  cell_get idx ;;; modify (fun bm => <[Z.to_nat idx := v]> bm).

Definition BITMAP_PARSE_INDEX (index : Z) : Z * Z :=
  (index / BITMAP_BITS_PER_CELL, index mod BITMAP_BITS_PER_CELL).

Definition bitmap_get (index : Z) : M bitmap bool :=
  let '(idx, offset) := BITMAP_PARSE_INDEX index in
  c <- cell_get idx ;; ret (negb (Z.land (Z.shiftr c offset) 1 =? 0)).

Definition bitmap_set (index : Z) : M bitmap unit :=
  let '(idx, offset) := BITMAP_PARSE_INDEX index in
  c <- cell_get idx ;; cell_set idx (Z.lor c (BIT offset)).

Definition bitmap_clear (index : Z) : M bitmap unit :=
  let '(idx, offset) := BITMAP_PARSE_INDEX index in
  c <- cell_get idx ;; cell_set idx (Z.land c (u64 (Z.lnot (BIT offset)))).

(** ** The boolean array it represents *)
Definition bit (bm : bitmap) (i : Z) : bool :=
  match bm !! Z.to_nat (i / 64) with Some c => Z.testbit c (i mod 64) | None => false end.

Definition bm_wf (bm : bitmap) (size : Z) : Prop :=
  Z.of_nat (length bm) = BITMAP_TO_NUM_CELLS size /\ Forall (fun c => 0 <= c < 2 ^ 64) bm.

Lemma land_1_testbit c o : 0 <= o -> negb (Z.land (Z.shiftr c o) 1 =? 0) = Z.testbit c o.
Proof.
  intros Ho. change 1 with (Z.ones 1). rewrite Z.land_ones by lia.
  rewrite Z.pow_1_r, Zmod_odd, <- Z.bit0_odd, Z.shiftr_spec, Z.add_0_l by lia.
  by destruct (Z.testbit c o).
Qed.

Lemma BIT_spec o : 0 <= o < 64 -> BIT o = 2 ^ o.
Proof.
  intros Ho. unfold BIT, u64. rewrite Z.shiftl_1_l, wrapu_small; [done|].
  split; [apply Z.pow_nonneg; lia|apply Z.pow_lt_mono_r; lia].
Qed.

Lemma not_BIT_spec o : 0 <= o < 64 -> u64 (Z.lnot (BIT o)) = 2 ^ 64 - 1 - 2 ^ o.
Proof.
  intros Ho. rewrite BIT_spec by done. unfold u64, wrapu, Z.lnot.
  assert (0 < 2 ^ o < 2 ^ 64) by (split; [apply Z.pow_pos_nonneg; lia|apply Z.pow_lt_mono_r; lia]).
  symmetry. apply (Z.mod_unique _ _ (-1)); lia.
Qed.

Lemma testbit_not_BIT o i : 0 <= o < 64 -> 0 <= i < 64 ->
  Z.testbit (2 ^ 64 - 1 - 2 ^ o) i = negb (i =? o).
Proof.
  intros Ho Hi. replace (2 ^ 64 - 1 - 2 ^ o) with (Z.ldiff (Z.ones 64) (2 ^ o)).
  - rewrite Z.ldiff_spec, Z.ones_spec_low, Z.pow2_bits_eqb by lia. simpl. by rewrite Z.eqb_sym.
  - rewrite <- Z.sub_nocarry_ldiff; [rewrite Z.ones_equiv; lia|].
    apply Z.bits_inj'. intros n Hn. rewrite Z.ldiff_spec, Z.pow2_bits_eqb, Z.bits_0 by lia.
    destruct (Z.eqb_spec o n) as [->|]; [|done]. by rewrite Z.ones_spec_low by lia.
Qed.

(** ** Reading and writing one bit *)
Section bits.
Context (bm : bitmap) (size i : Z).
Context (Hwf : bm_wf bm size) (Hi : 0 <= i < size).

Lemma cell_in_range : exists c, bm !! Z.to_nat (i / 64) = Some c /\ 0 <= c < 2 ^ 64.
Proof.
  destruct Hwf as [Hlen Hall]. unfold BITMAP_TO_NUM_CELLS, BITMAP_BITS_PER_CELL in Hlen.
  assert (Z.to_nat (i / 64) < length bm)%nat as [c Hc]%lookup_lt_is_Some_2.
  { apply Nat2Z.inj_lt. rewrite Hlen, Z2Nat.id by (apply Z.div_pos; lia).
    apply Z.div_lt_upper_bound; [lia|].
    pose proof (Z.div_mod (size + 64 - 1) 64 ltac:(lia)).
    pose proof (Z.mod_pos_bound (size + 64 - 1) 64 ltac:(lia)). lia. }
  exists c. split; [done|]. by eapply Forall_lookup_1 in Hall.
Qed.

Lemma cell_get_Ret c : bm !! Z.to_nat (i / 64) = Some c -> cell_get (i / 64) bm = Ret (c, bm).
Proof.
  intros Hc. unfold cell_get. rewrite Hc.
  by rewrite (proj2 (Z.leb_le 0 (i / 64))) by (apply Z.div_pos; lia).
Qed.

Lemma bitmap_get_Ret : bitmap_get i bm = Ret (bit bm i, bm).
Proof.
  destruct cell_in_range as (c & Hc & _). unfold bitmap_get, BITMAP_PARSE_INDEX, BITMAP_BITS_PER_CELL, bit.
  erewrite bind_Ret by by apply cell_get_Ret. rewrite Hc. unfold ret.
  by rewrite land_1_testbit by (apply Z.mod_pos_bound; lia).
Qed.

(** Writing cell [i / 64] with a value whose bits are [f]. *)
Lemma cell_write c v (b : bool) :
  bm !! Z.to_nat (i / 64) = Some c -> 0 <= v < 2 ^ 64 ->
  (forall o, 0 <= o < 64 -> Z.testbit v o = if o =? i mod 64 then b else Z.testbit c o) ->
  exists bm', cell_set (i / 64) v bm = Ret (tt, bm') /\ bm_wf bm' size /\
    forall j, 0 <= j -> bit bm' j = if j =? i then b else bit bm j.
Proof.
  intros Hc Hv Hbits. exists (<[Z.to_nat (i / 64) := v]> bm).
  split; [unfold cell_set; by erewrite bind_Ret by by apply cell_get_Ret|].
  destruct Hwf as [Hlen Hall]. split.
  { split; [by rewrite length_insert|by apply Forall_insert]. }
  intros j Hj. unfold bit.
  pose proof (Z.mod_pos_bound j 64 ltac:(lia)) as Hm. pose proof (Z.div_pos j 64 Hj ltac:(lia)).
  pose proof (Z.div_pos i 64 ltac:(lia) ltac:(lia)).
  pose proof (Z.div_mod i 64 ltac:(lia)). pose proof (Z.div_mod j 64 ltac:(lia)).
  destruct (decide (j / 64 = i / 64)) as [E|E].
  - rewrite E, list_lookup_insert_eq by (by eapply lookup_lt_Some). rewrite Hbits, Hc by done.
    destruct (Z.eqb_spec (j mod 64) (i mod 64)), (Z.eqb_spec j i); try done; exfalso; lia.
  - rewrite list_lookup_insert_ne by lia. destruct (Z.eqb_spec j i); [congruence|done].
Qed.

Lemma bitmap_set_Ret : exists bm', bitmap_set i bm = Ret (tt, bm') /\ bm_wf bm' size /\
  forall j, 0 <= j -> bit bm' j = if j =? i then true else bit bm j.
Proof.
  destruct cell_in_range as (c & Hc & Hb). unfold bitmap_set, BITMAP_PARSE_INDEX, BITMAP_BITS_PER_CELL.
  erewrite bind_Ret by by apply cell_get_Ret.
  pose proof (Z.mod_pos_bound i 64 ltac:(lia)).
  rewrite BIT_spec by done. apply (cell_write c); [done| |].
  - split; [apply Z.lor_nonneg; split; [lia|apply Z.pow_nonneg; lia]|].
    apply Z.log2_lt_cancel. rewrite Z.log2_lor, Z.log2_pow2, (Z.log2_pow2 64) by lia.
    apply Z.max_lub_lt; [|lia]. destruct (decide (c = 0)) as [->|]; [done|].
    apply Z.log2_lt_pow2; lia.
  - intros o Ho. rewrite Z.lor_spec, Z.pow2_bits_eqb, Z.eqb_sym by lia.
    by destruct (o =? i mod 64); rewrite ?orb_true_r, ?orb_false_r.
Qed.

Lemma bitmap_clear_Ret : exists bm', bitmap_clear i bm = Ret (tt, bm') /\ bm_wf bm' size /\
  forall j, 0 <= j -> bit bm' j = if j =? i then false else bit bm j.
Proof.
  destruct cell_in_range as (c & Hc & Hb). unfold bitmap_clear, BITMAP_PARSE_INDEX, BITMAP_BITS_PER_CELL.
  erewrite bind_Ret by by apply cell_get_Ret.
  pose proof (Z.mod_pos_bound i 64 ltac:(lia)).
  rewrite not_BIT_spec by done. apply (cell_write c); [done| |].
  - split; [apply Z.land_nonneg; lia|].
    destruct (decide (Z.land c (2 ^ 64 - 1 - 2 ^ (i mod 64)) = 0)) as [->|]; [lia|].
    apply Z.log2_lt_pow2; [pose proof (Z.land_nonneg c (2 ^ 64 - 1 - 2 ^ (i mod 64))); lia|].
    eapply Z.le_lt_trans; [apply Z.log2_land; [lia|]|].
    { assert (2 ^ (i mod 64) < 2 ^ 64) by (apply Z.pow_lt_mono_r; lia). lia. }
    apply Z.min_lt_iff. left. destruct (decide (c = 0)) as [->|]; [done|].
    apply Z.log2_lt_pow2; lia.
  - intros o Ho. rewrite Z.land_spec, testbit_not_BIT by done.
    by destruct (o =? i mod 64); rewrite ?andb_true_r, ?andb_false_r.
Qed.
End bits.

(** ** kernel/proc.c: the pid map *)
Definition MAX_CONTAINER_PID := 256.

Record pidmap_t := mkPidmap { pm_bitmap : bitmap; last_pid : Z }.

Definition on_bitmap {A} (m : M bitmap A) : M pidmap_t A :=
  zoom pm_bitmap (fun bm p => mkPidmap bm (last_pid p)) m.

(** [while (pid < hi && bitmap_get(bitmap, pid)) ++pid;] *)
Definition pid_scan (fuel : nat) (hi pid : Z) : M pidmap_t Z :=
  while fuel (fun pid =>
    if pid <? hi then
      b <- on_bitmap (bitmap_get pid) ;;
      if b : bool then ret (inl (pid + 1)) else ret (inr pid)
    else ret (inr pid)) pid.

Definition alloc_pid : M pidmap_t Z :=
  lp <- gets last_pid ;;
  pid <- pid_scan 258 MAX_CONTAINER_PID (lp + 1) ;;
  pid <- (if pid =? MAX_CONTAINER_PID then pid_scan 258 (lp + 1) 0 else ret pid) ;;
  if negb (MAX_CONTAINER_PID =? pid) then
    b <- on_bitmap (bitmap_get pid) ;;
    if negb b then
      modify (fun p => mkPidmap (pm_bitmap p) pid) ;;;
      on_bitmap (bitmap_set pid) ;;;
      ret pid
    else ret (-1)
  else ret (-1).

Definition free_pid (pid : Z) : M pidmap_t unit := on_bitmap (bitmap_clear pid).

(** ** fs/cache.c: the swap area *)
Definition SWAP_START := 800.
Definition SWAP_END := 1000.
Definition SWAP_SIZE := 25.

Definition release_8_blocks (bno : Z) : M bitmap unit :=
  bitmap_clear (u32 (bno - SWAP_START) / 8).

Definition find_and_set_8_blocks : M bitmap Z :=
  r <- for_upto (Z.to_nat SWAP_SIZE) 0 (fun i =>
    b <- bitmap_get i ;;
    if negb b then bitmap_set i ;;; ret (Some (SWAP_START + i * 8)) else ret None) ;;
  match r with Some bno => ret bno | None => stop Panic end.

(** ** Next-fit pid allocation *)
Definition pid_wf (p : pidmap_t) : Prop :=
  bm_wf (pm_bitmap p) MAX_CONTAINER_PID /\ -1 <= last_pid p < MAX_CONTAINER_PID.

Definition pid_used (p : pidmap_t) (i : Z) : bool := bit (pm_bitmap p) i.

Lemma on_bitmap_Ret {A} (m : M bitmap A) s a bm :
  m (pm_bitmap s) = Ret (a, bm) -> on_bitmap m s = Ret (a, mkPidmap bm (last_pid s)).
Proof. intros H. unfold on_bitmap, zoom. by rewrite H. Qed.

Lemma pid_get_Ret s i :
  bm_wf (pm_bitmap s) MAX_CONTAINER_PID -> 0 <= i < MAX_CONTAINER_PID ->
  on_bitmap (bitmap_get i) s = Ret (pid_used s i, s).
Proof.
  intros Hwf Hi. erewrite on_bitmap_Ret by by eapply bitmap_get_Ret. by destruct s.
Qed.

Lemma pid_scan_spec s fuel hi pid :
  bm_wf (pm_bitmap s) MAX_CONTAINER_PID -> 0 <= pid <= hi -> hi <= MAX_CONTAINER_PID ->
  hi - pid < Z.of_nat fuel ->
  exists p, pid_scan fuel hi pid s = Ret (p, s) /\ pid <= p <= hi /\
    (forall q, pid <= q < p -> pid_used s q = true) /\ (p < hi -> pid_used s p = false).
Proof.
  intros Hwf Hpid Hhi. revert pid Hpid. unfold pid_scan.
  induction fuel as [|fuel IH]; intros pid Hpid Hfuel; [lia|]. cbn [while].
  destruct (Z.ltb_spec pid hi).
  - rewrite bind_assoc. erewrite bind_Ret by (apply pid_get_Ret; [done|lia]).
    destruct (pid_used s pid) eqn:E.
    + destruct (IH (pid + 1)) as (p & Hp & Hle & Hused & Hfree); [lia..|].
      exists p. split; [done|]. split; [lia|]. split; [|done].
      intros q Hq. destruct (decide (q = pid)) as [->|]; [done|]. apply Hused. lia.
    + exists pid. split; [done|]. split; [lia|]. split; [intros; lia|done].
  - exists pid. split; [done|]. split; [lia|]. split; intros; lia.
Qed.

(** Taking a free pid. *)
Lemma pid_take s p :
  pid_wf s -> 0 <= p < MAX_CONTAINER_PID -> pid_used s p = false ->
  exists s', (if negb (MAX_CONTAINER_PID =? p) then
      b <- on_bitmap (bitmap_get p) ;;
      if negb b then
        modify (fun q => mkPidmap (pm_bitmap q) p) ;;; on_bitmap (bitmap_set p) ;;; ret p
      else ret (-1)
    else ret (-1)) s = Ret (p, s') /\
    pid_wf s' /\ last_pid s' = p /\
    forall j, 0 <= j -> pid_used s' j = if j =? p then true else pid_used s j.
Proof.
  intros [Hwf Hlast] Hp Hfree. destruct (Z.eqb_spec MAX_CONTAINER_PID p); [lia|]. simpl.
  erewrite bind_Ret by by apply pid_get_Ret. rewrite Hfree. simpl.
  destruct (bitmap_set_Ret _ _ _ Hwf Hp) as (bm' & E & Hwf' & Hbits).
  erewrite bind_Ret by done. erewrite bind_Ret by by apply on_bitmap_Ret.
  eexists. split; [done|]. split; [by split; simpl; [|lia]|]. done.
Qed.

Lemma alloc_pid_full s :
  pid_wf s -> (forall j, 0 <= j < MAX_CONTAINER_PID -> pid_used s j = true) ->
  alloc_pid s = Ret (-1, s).
Proof.
  intros [Hwf Hlast] Hfull. unfold alloc_pid, MAX_CONTAINER_PID in *. erewrite bind_Ret by done.
  destruct (pid_scan_spec s 258 256 (last_pid s + 1)) as (p & E & Hle & _ & Hf); [done|unfold MAX_CONTAINER_PID; lia..|].
  erewrite bind_Ret by done. destruct (decide (p < 256)) as [Hlt|Hge].
  { rewrite Hfull in Hf by lia. by specialize (Hf Hlt). }
  assert (p = 256) as -> by lia. rewrite Z.eqb_refl.
  destruct (pid_scan_spec s 258 (last_pid s + 1) 0) as (p & E' & Hle' & _ & Hf'); [done|unfold MAX_CONTAINER_PID; lia..|].
  erewrite bind_Ret by done. destruct (Z.eqb_spec 256 p) as [|Hne]; [done|]. simpl.
  erewrite bind_Ret by (apply pid_get_Ret; [done|unfold MAX_CONTAINER_PID; lia]).
  by rewrite Hfull by lia.
Qed.

(** [p] comes after the last pid handed out, cyclically, with no free pid between. *)
Definition next_fit (s : pidmap_t) (p : Z) : Prop :=
  forall q, 0 <= q < MAX_CONTAINER_PID ->
    (if last_pid s <? p then last_pid s < q < p else last_pid s < q \/ q < p) ->
    pid_used s q = true.

Lemma alloc_pid_free s j :
  pid_wf s -> 0 <= j < MAX_CONTAINER_PID -> pid_used s j = false ->
  exists p s', alloc_pid s = Ret (p, s') /\ 0 <= p < MAX_CONTAINER_PID /\
    pid_used s p = false /\ next_fit s p /\ pid_wf s' /\ last_pid s' = p /\
    forall i, 0 <= i -> pid_used s' i = if i =? p then true else pid_used s i.
Proof.
  intros Hs Hj Hfree. pose proof Hs as [Hwf Hlast]. unfold alloc_pid, next_fit.
  unfold MAX_CONTAINER_PID in Hlast, Hj |- * at 1. erewrite bind_Ret by done.
  destruct (pid_scan_spec s 258 256 (last_pid s + 1)) as (p & E & Hle & Hu & Hf); [done|unfold MAX_CONTAINER_PID; lia..|].
  erewrite bind_Ret by done. destruct (decide (p < 256)) as [Hlt|Hge].
  - destruct (Z.eqb_spec p MAX_CONTAINER_PID) as [->|_]; [done|]. erewrite bind_Ret by done.
    destruct (pid_take s p) as (s' & E' & Hs' & Hl' & Hb'); [done|unfold MAX_CONTAINER_PID; lia|auto|].
    exists p, s'. rewrite E'. split; [done|]. split; [unfold MAX_CONTAINER_PID; lia|].
    split; [auto|]. split; [|done].
    intros q Hq. destruct (Z.ltb_spec (last_pid s) p); [|lia]. intros. apply Hu. lia.
  - assert (p = 256) as -> by lia. unfold MAX_CONTAINER_PID at 1. rewrite Z.eqb_refl.
    destruct (pid_scan_spec s 258 (last_pid s + 1) 0) as (p & E' & Hle' & Hu' & Hf'); [done|unfold MAX_CONTAINER_PID; lia..|].
    erewrite bind_Ret by done.
    assert (Hp : p < last_pid s + 1).
    { destruct (decide (p < last_pid s + 1)); [done|]. destruct (decide (j < last_pid s + 1)).
      - rewrite Hu' in Hfree by lia. done.
      - rewrite Hu in Hfree by lia. done. }
    destruct (pid_take s p) as (s' & E'' & Hs' & Hl' & Hb'); [done|unfold MAX_CONTAINER_PID; lia|auto|].
    exists p, s'. rewrite E''. split; [done|]. split; [unfold MAX_CONTAINER_PID; lia|].
    split; [auto|]. split; [|done]. unfold MAX_CONTAINER_PID.
    intros q Hq. destruct (Z.ltb_spec (last_pid s) p); [lia|].
    intros [?|?]; [apply Hu|apply Hu']; lia.
Qed.

(** [alloc_pid] hands out a pid that was free, next-fit after the last one
    handed out (cyclically, with no free pid skipped), marks exactly it as
    used and keeps the pid map well formed; and it answers [-1], changing
    nothing, exactly when all 256 pids are in use. *)
Theorem alloc_pid_next_fit (s : pidmap_t) :
  pid_wf s ->
  ((forall j, 0 <= j < MAX_CONTAINER_PID -> pid_used s j = true) /\ alloc_pid s = Ret (-1, s)) \/
  (exists p s', alloc_pid s = Ret (p, s') /\ 0 <= p < MAX_CONTAINER_PID /\
    pid_used s p = false /\ next_fit s p /\ pid_wf s' /\ last_pid s' = p /\
    forall i, 0 <= i -> pid_used s' i = if i =? p then true else pid_used s i).
Proof.
  intros Hs.
  destruct (decide (Forall (fun j => pid_used s (Z.of_nat j) = true) (seq 0 256))) as [Hall|Hex].
  - left. assert (Hf : forall j, 0 <= j < MAX_CONTAINER_PID -> pid_used s j = true).
    { unfold MAX_CONTAINER_PID. intros j Hj. rewrite Forall_forall in Hall.
      rewrite <- (Z2Nat.id j) by lia. apply Hall. apply elem_of_seq. lia. }
    split; [done|by apply alloc_pid_full].
  - right. apply not_Forall_Exists in Hex; [|apply _]. apply Exists_exists in Hex as (j & Hj & Hn).
    apply elem_of_seq in Hj. apply not_true_is_false in Hn.
    eapply alloc_pid_free; [done| |done]. unfold MAX_CONTAINER_PID. lia.
Qed.

Definition demo_pidmap : pidmap_t := mkPidmap [2 ^ 64 - 1; 0; 0; 2 ^ 63] 255.

Lemma alloc_pid_next_fit_witness :
  pid_wf demo_pidmap /\ alloc_pid demo_pidmap = Ret (64, mkPidmap [2 ^ 64 - 1; 1; 0; 2 ^ 63] 64) /\
  (((forall j, 0 <= j < MAX_CONTAINER_PID -> pid_used demo_pidmap j = true) /\
     alloc_pid demo_pidmap = Ret (-1, demo_pidmap)) \/
   (exists p s', alloc_pid demo_pidmap = Ret (p, s') /\ 0 <= p < MAX_CONTAINER_PID /\
    pid_used demo_pidmap p = false /\ next_fit demo_pidmap p /\ pid_wf s' /\ last_pid s' = p /\
    forall i, 0 <= i -> pid_used s' i = if i =? p then true else pid_used demo_pidmap i)).
Proof.
  assert (H : pid_wf demo_pidmap).
  { split; [split; [done|repeat constructor; lia]|unfold MAX_CONTAINER_PID; simpl; lia]. }
  split; [exact H|]. split; [vm_compute; reflexivity|].
  apply (alloc_pid_next_fit demo_pidmap H).
Defined.

(** ** Swap slots *)
Lemma swap_scan bm n i :
  bm_wf bm SWAP_SIZE -> 0 <= i -> i + Z.of_nat n = SWAP_SIZE ->
  (forall j, 0 <= j < i -> bit bm j = true) ->
  ((forall j, 0 <= j < SWAP_SIZE -> bit bm j = true) /\
   for_upto n i (fun i => b <- bitmap_get i ;;
     if negb b then bitmap_set i ;;; ret (Some (SWAP_START + i * 8)) else ret None) bm = Ret (None, bm)) \/
  exists k bm', i <= k < SWAP_SIZE /\ bit bm k = false /\ (forall j, 0 <= j < k -> bit bm j = true) /\
    for_upto n i (fun i => b <- bitmap_get i ;;
     if negb b then bitmap_set i ;;; ret (Some (SWAP_START + i * 8)) else ret None) bm
      = Ret (Some (SWAP_START + k * 8), bm') /\
    bm_wf bm' SWAP_SIZE /\ forall j, 0 <= j -> bit bm' j = if j =? k then true else bit bm j.
Proof.
  intros Hwf. revert i. induction n as [|n IH]; intros i Hi Hn Hused.
  - left. assert (i = SWAP_SIZE) as -> by lia. done.
  - cbn [for_upto]. rewrite bind_assoc. erewrite bind_Ret by (eapply bitmap_get_Ret; [done|lia]).
    destruct (bit bm i) eqn:E; simpl negb; cbn iota.
    + erewrite bind_Ret by done. destruct (IH (i + 1)) as [[Ha Hb]|(k & bm' & Hk & Hrest)]; [lia|lia| |by left|].
      { intros j Hj. destruct (decide (j = i)) as [->|]; [done|]. apply Hused. lia. }
      right. exists k, bm'. split; [lia|]. done.
    + right. destruct (bitmap_set_Ret bm SWAP_SIZE i Hwf) as (bm' & E' & Hwf' & Hbits); [lia|].
      exists i, bm'. split; [lia|]. split; [done|]. split; [done|].
      rewrite bind_assoc. erewrite bind_Ret by done. by erewrite bind_Ret by done.
Qed.

(** [find_and_set_8_blocks] returns the first free run of 8 swap blocks, inside
    [SWAP_START .. SWAP_END), and marks only it; it panics exactly when
    all 25 runs are taken; and [release_8_blocks] of the run it returned makes
    the bitmap what it was before. *)
Theorem swap_alloc_release (bm : bitmap) :
  bm_wf bm SWAP_SIZE ->
  ((forall j, 0 <= j < SWAP_SIZE -> bit bm j = true) /\ find_and_set_8_blocks bm = Stop Panic) \/
  (exists k bm', 0 <= k < SWAP_SIZE /\ bit bm k = false /\ (forall j, 0 <= j < k -> bit bm j = true) /\
    find_and_set_8_blocks bm = Ret (SWAP_START + k * 8, bm') /\
    SWAP_START <= SWAP_START + k * 8 /\ SWAP_START + k * 8 + 8 <= SWAP_END /\
    (forall j, 0 <= j -> bit bm' j = if j =? k then true else bit bm j) /\
    exists bm'', release_8_blocks (SWAP_START + k * 8) bm' = Ret (tt, bm'') /\
      forall j, 0 <= j -> bit bm'' j = bit bm j).
Proof.
  intros Hwf. unfold find_and_set_8_blocks.
  destruct (swap_scan bm (Z.to_nat SWAP_SIZE) 0 Hwf) as [[Hf E]|(k & bm' & Hk & Hfree & Hfirst & E & Hwf' & Hb)];
    [lia|done|intros; lia| |].
  - left. split; [done|]. by erewrite bind_Ret by done.
  - right. exists k, bm'. erewrite bind_Ret by done.
    unfold SWAP_SIZE, SWAP_START, SWAP_END in *. repeat (split; [done || lia|]).
    assert (Er : u32 (800 + k * 8 - 800) / 8 = k).
    { unfold u32. rewrite wrapu_small by lia. replace (800 + k * 8 - 800) with (k * 8) by lia.
      apply Z.div_mul. lia. }
    destruct (bitmap_clear_Ret bm' 25 k Hwf' Hk) as (bm'' & E'' & _ & Hb'').
    exists bm''. unfold release_8_blocks, SWAP_START. rewrite Er. split; [done|].
    intros j Hj. rewrite Hb'', Hb by done. destruct (Z.eqb_spec j k) as [->|]; done.
Qed.

Lemma swap_alloc_release_witness :
  bm_wf [5] SWAP_SIZE /\ find_and_set_8_blocks [5] = Ret (808, [7]) /\
  (((forall j, 0 <= j < SWAP_SIZE -> bit [5] j = true) /\ find_and_set_8_blocks [5] = Stop Panic) \/
  (exists k bm', 0 <= k < SWAP_SIZE /\ bit [5] k = false /\ (forall j, 0 <= j < k -> bit [5] j = true) /\
    find_and_set_8_blocks [5] = Ret (SWAP_START + k * 8, bm') /\
    SWAP_START <= SWAP_START + k * 8 /\ SWAP_START + k * 8 + 8 <= SWAP_END /\
    (forall j, 0 <= j -> bit bm' j = if j =? k then true else bit [5] j) /\
    exists bm'', release_8_blocks (SWAP_START + k * 8) bm' = Ret (tt, bm'') /\
      forall j, 0 <= j -> bit bm'' j = bit [5] j)).
Proof.
  assert (H : bm_wf [5] SWAP_SIZE) by (split; [done|repeat constructor; lia]).
  split; [exact H|]. split; [vm_compute; reflexivity|]. apply (swap_alloc_release [5] H).
Defined.
