(* ===== verification/RBTree.v ===== *)
(** * The red-black tree of common/rbtree.c, statement by statement

    Nodes live in a heap [gmap Z rb_node_]; the parent pointer and the color
    share the word [rb_parent_color], as in the code.  The loops carry fuel;
    RBRefine.v proves that the fuel the entry points give them is enough. *)
From stdpp Require Import base gmap.
From Stdlib Require Import ZArith Lia.
From S2P Require Import Prelude.

Record rb_node_ := mkRbNode { rb_parent_color : Z; rb_right : Z; rb_left : Z }.

(** The nodes and the [rb_node] field of the root the operation works on. *)
Record rbst := mkRb { nodes : gmap Z rb_node_; root : Z }.

Definition RB_RED := 0.
Definition RB_BLACK := 1.

Definition on_nodes {A} (m : M (gmap Z rb_node_) A) : M rbst A :=
  zoom nodes (fun h s => mkRb h (root s)) m.

Definition pc_of (p : Z) : M rbst Z := n <- on_nodes (load p) ;; ret (rb_parent_color n).
Definition right_of (p : Z) : M rbst Z := n <- on_nodes (load p) ;; ret (rb_right n).
Definition left_of (p : Z) : M rbst Z := n <- on_nodes (load p) ;; ret (rb_left n).
Definition set_pc (p v : Z) : M rbst unit :=
  on_nodes (update p (fun n => mkRbNode v (rb_right n) (rb_left n))).
Definition set_right (p v : Z) : M rbst unit :=
  on_nodes (update p (fun n => mkRbNode (rb_parent_color n) v (rb_left n))).
Definition set_left (p v : Z) : M rbst unit :=
  on_nodes (update p (fun n => mkRbNode (rb_parent_color n) (rb_right n) v)).
Definition set_root (v : Z) : M rbst unit := modify (fun s => mkRb (nodes s) v).

(** [__rb_parent(pc)], [__rb_color(pc)] and the tests on a node. *)
Definition __rb_parent (pc : Z) : Z := Z.land pc (Z.lnot 3).
Definition __rb_color (pc : Z) : Z := Z.land pc 1.
Definition __rb_is_black (pc : Z) : bool := negb (__rb_color pc =? 0).
Definition __rb_is_red (pc : Z) : bool := __rb_color pc =? 0.
Definition rb_parent (r : Z) : M rbst Z := pc <- pc_of r ;; ret (__rb_parent pc).
Definition rb_is_red (r : Z) : M rbst bool := pc <- pc_of r ;; ret (__rb_is_red pc).
Definition rb_is_black (r : Z) : M rbst bool := pc <- pc_of r ;; ret (__rb_is_black pc).

Definition rb_set_black (rb : Z) : M rbst unit := pc <- pc_of rb ;; set_pc rb (Z.lor pc RB_BLACK).
Definition rb_red_parent (red : Z) : M rbst Z := pc_of red.
Definition rb_set_parent (rb p : Z) : M rbst unit :=
  pc <- pc_of rb ;; set_pc rb (Z.lor (__rb_color pc) p).
Definition rb_set_parent_color (rb p color : Z) : M rbst unit := set_pc rb (Z.lor p color).

Definition __rb_change_child (old new parent : Z) : M rbst unit :=
  if negb (parent =? 0) then
    l <- left_of parent ;;
    if l =? old then set_left parent new else set_right parent new
  else set_root new.

Definition __rb_rotate_set_parents (old new color : Z) : M rbst unit :=
  parent <- rb_parent old ;;
  pc <- pc_of old ;; set_pc new pc ;;;
  rb_set_parent_color old new color ;;;
  __rb_change_child old new parent.

(** [if (tmp) rb_set_parent_color(tmp, p, color)] *)
Definition set_parent_color_if (tmp p color : Z) : M rbst unit :=
  when (negb (tmp =? 0)) (rb_set_parent_color tmp p color).

(** [tmp && rb_is_red(tmp)] and [!tmp || rb_is_black(tmp)] *)
Definition and_is_red (tmp : Z) : M rbst bool := if tmp =? 0 then ret false else rb_is_red tmp.
Definition or_is_black (tmp : Z) : M rbst bool := if tmp =? 0 then ret true else rb_is_black tmp.

(** One turn of the loop of [__rb_insert_fix]; the loop variables are [node]
    and [parent]. *)
Definition rb_insert_fix_body (np : Z * Z) : M rbst (Z * Z + unit) :=
  let '(node, parent) := np in
  if parent =? 0 then
    rb_set_parent_color node 0 RB_BLACK ;;; set_root node ;;; ret (inr tt)
  else
    black <- rb_is_black parent ;;
    if black : bool then ret (inr tt) else
    gparent <- rb_red_parent parent ;;
    tmp <- right_of gparent ;;
    if negb (parent =? tmp) then
      red <- and_is_red tmp ;;
      if red : bool then
        rb_set_parent_color tmp gparent RB_BLACK ;;;
        rb_set_parent_color parent gparent RB_BLACK ;;;
        p <- rb_parent gparent ;;
        rb_set_parent_color gparent p RB_RED ;;;
        ret (inl (gparent, p))
      else
        tmp <- right_of parent ;;
        pt <- (if node =? tmp then
                 tmp <- left_of node ;;
                 set_right parent tmp ;;;
                 set_parent_color_if tmp parent RB_BLACK ;;;
                 set_left node parent ;;;
                 rb_set_parent_color parent node RB_RED ;;;
                 tmp <- right_of node ;; ret (node, tmp)
               else ret (parent, tmp)) ;;
        let '(parent, tmp) := pt in
        set_left gparent tmp ;;;
        set_parent_color_if tmp gparent RB_BLACK ;;;
        set_right parent gparent ;;;
        __rb_rotate_set_parents gparent parent RB_RED ;;;
        ret (inr tt)
    else
      tmp <- left_of gparent ;;
      red <- and_is_red tmp ;;
      if red : bool then
        rb_set_parent_color tmp gparent RB_BLACK ;;;
        rb_set_parent_color parent gparent RB_BLACK ;;;
        p <- rb_parent gparent ;;
        rb_set_parent_color gparent p RB_RED ;;;
        ret (inl (gparent, p))
      else
        tmp <- left_of parent ;;
        pt <- (if node =? tmp then
                 tmp <- right_of node ;;
                 set_left parent tmp ;;;
                 set_parent_color_if tmp parent RB_BLACK ;;;
                 set_right node parent ;;;
                 rb_set_parent_color parent node RB_RED ;;;
                 tmp <- left_of node ;; ret (node, tmp)
               else ret (parent, tmp)) ;;
        let '(parent, tmp) := pt in
        set_right gparent tmp ;;;
        set_parent_color_if tmp gparent RB_BLACK ;;;
        set_left parent gparent ;;;
        __rb_rotate_set_parents gparent parent RB_RED ;;;
        ret (inr tt).

Definition __rb_insert_fix (fuel : nat) (node : Z) : M rbst unit :=
  parent <- rb_red_parent node ;; while fuel rb_insert_fix_body (node, parent).

(** [do { parent = successor; successor = tmp; tmp = tmp->rb_left; } while (tmp);] *)
Definition rb_successor (fuel : nat) (successor tmp : Z) : M rbst (Z * Z) :=
  while fuel (fun st : Z * Z =>
    let '(successor, tmp) := st in
    let parent := successor in
    let successor := tmp in
    tmp <- left_of tmp ;;
    if negb (tmp =? 0) then ret (inl (successor, tmp)) else ret (inr (parent, successor)))
  (successor, tmp).

Definition __rb_erase (fuel : nat) (node : Z) : M rbst Z :=
  child <- right_of node ;;
  tmp <- left_of node ;;
  if tmp =? 0 then
    pc <- pc_of node ;;
    let parent := __rb_parent pc in
    __rb_change_child node child parent ;;;
    if negb (child =? 0) then set_pc child pc ;;; ret 0
    else ret (if __rb_is_black pc then parent else 0)
  else if child =? 0 then
    pc <- pc_of node ;; set_pc tmp pc ;;;
    let parent := __rb_parent pc in
    __rb_change_child node tmp parent ;;;
    ret 0
  else
    tmp <- left_of child ;;
    pcs <- (if tmp =? 0 then
              child2 <- right_of child ;; ret (child, child2, child)
            else
              ps <- rb_successor fuel child tmp ;;
              let '(parent, successor) := ps in
              child2 <- right_of successor ;;
              set_left parent child2 ;;;
              set_right successor child ;;;
              rb_set_parent child successor ;;;
              ret (parent, child2, successor)) ;;
    let '(parent, child2, successor) := pcs in
    tmp <- left_of node ;; set_left successor tmp ;;;
    rb_set_parent tmp successor ;;;
    pc <- pc_of node ;;
    let tmp := __rb_parent pc in
    __rb_change_child node successor tmp ;;;
    if negb (child2 =? 0) then
      set_pc successor pc ;;;
      rb_set_parent_color child2 parent RB_BLACK ;;;
      ret 0
    else
      pc2 <- pc_of successor ;;
      set_pc successor pc ;;;
      ret (if __rb_is_black pc2 then parent else 0).

(** One turn of the loop of [__rb_erase_fix]; the loop variables are [node]
    and [parent]. *)
Definition rb_erase_fix_body (np : Z * Z) : M rbst (Z * Z + unit) :=
  let '(node, parent) := np in
  sibling <- right_of parent ;;
  if negb (node =? sibling) then
    red <- rb_is_red sibling ;;
    sibling <- (if red : bool then
                  tmp1 <- left_of sibling ;;
                  set_right parent tmp1 ;;;
                  rb_set_parent_color tmp1 parent RB_BLACK ;;;
                  set_left sibling parent ;;;
                  __rb_rotate_set_parents parent sibling RB_RED ;;;
                  ret tmp1
                else ret sibling) ;;
    tmp1 <- right_of sibling ;;
    b1 <- or_is_black tmp1 ;;
    tb <- (if b1 : bool then
             tmp2 <- left_of sibling ;; b2 <- or_is_black tmp2 ;; ret (tmp2, b2)
           else ret (0, false)) ;;
    let '(tmp2, b2) := tb in
    if b1 && b2 then
      rb_set_parent_color sibling parent RB_RED ;;;
      red <- rb_is_red parent ;;
      if red : bool then rb_set_black parent ;;; ret (inr tt)
      else
        p <- rb_parent parent ;;
        if negb (p =? 0) then ret (inl (parent, p)) else ret (inr tt)
    else
      ts <- (if b1 then
               tmp1 <- right_of tmp2 ;;
               set_left sibling tmp1 ;;;
               set_parent_color_if tmp1 sibling RB_BLACK ;;;
               set_right tmp2 sibling ;;;
               set_right parent tmp2 ;;;
               ret (sibling, tmp2)
             else ret (tmp1, sibling)) ;;
      let '(tmp1, sibling) := ts in
      tmp2 <- left_of sibling ;;
      set_right parent tmp2 ;;;
      when (negb (tmp2 =? 0)) (rb_set_parent tmp2 parent) ;;;
      set_left sibling parent ;;;
      rb_set_parent_color tmp1 sibling RB_BLACK ;;;
      __rb_rotate_set_parents parent sibling RB_BLACK ;;;
      ret (inr tt)
  else
    sibling <- left_of parent ;;
    red <- rb_is_red sibling ;;
    sibling <- (if red : bool then
                  tmp1 <- right_of sibling ;;
                  set_left parent tmp1 ;;;
                  rb_set_parent_color tmp1 parent RB_BLACK ;;;
                  set_right sibling parent ;;;
                  __rb_rotate_set_parents parent sibling RB_RED ;;;
                  ret tmp1
                else ret sibling) ;;
    tmp1 <- left_of sibling ;;
    b1 <- or_is_black tmp1 ;;
    tb <- (if b1 : bool then
             tmp2 <- right_of sibling ;; b2 <- or_is_black tmp2 ;; ret (tmp2, b2)
           else ret (0, false)) ;;
    let '(tmp2, b2) := tb in
    if b1 && b2 then
      rb_set_parent_color sibling parent RB_RED ;;;
      red <- rb_is_red parent ;;
      if red : bool then rb_set_black parent ;;; ret (inr tt)
      else
        p <- rb_parent parent ;;
        if negb (p =? 0) then ret (inl (parent, p)) else ret (inr tt)
    else
      ts <- (if b1 then
               tmp1 <- left_of tmp2 ;;
               set_right sibling tmp1 ;;;
               set_parent_color_if tmp1 sibling RB_BLACK ;;;
               set_left tmp2 sibling ;;;
               set_left parent tmp2 ;;;
               ret (sibling, tmp2)
             else ret (tmp1, sibling)) ;;
      let '(tmp1, sibling) := ts in
      tmp2 <- right_of sibling ;;
      set_left parent tmp2 ;;;
      when (negb (tmp2 =? 0)) (rb_set_parent tmp2 parent) ;;;
      set_right sibling parent ;;;
      rb_set_parent_color tmp1 sibling RB_BLACK ;;;
      __rb_rotate_set_parents parent sibling RB_BLACK ;;;
      ret (inr tt).

Definition __rb_erase_fix (fuel : nat) (parent : Z) : M rbst unit :=
  while fuel rb_erase_fix_body (0, parent).

(** Every loop moves along one path of the tree, so the number of nodes in
    the heap bounds it. *)
Definition rb_fuel : M rbst nat := gets (fun s => S (size (nodes s))).

Section entry.
Context (cmp : Z -> Z -> bool).

(** The descent of [_rb_insert]: [inr true] when [node] was linked in,
    [inr false] when an equal node was met. *)
Definition rb_insert_descend (node : Z) (np : Z * Z) : M rbst (Z * Z + bool) :=
  let '(nw, parent) := np in
  if nw =? 0 then ret (inr true)
  else
    let parent := nw in
    if cmp node nw then
      nw <- left_of nw ;;
      when (nw =? 0) (set_left parent node ;;; set_pc node parent) ;;;
      ret (inl (nw, parent))
    else if cmp nw node then
      nw <- right_of nw ;;
      when (nw =? 0) (set_right parent node ;;; set_pc node parent) ;;;
      ret (inl (nw, parent))
    else ret (inr false).

Definition _rb_insert (node : Z) : M rbst Z :=
  nw <- gets root ;;
  set_right node 0 ;;; set_left node 0 ;;;
  set_pc node 0 ;;;
  fuel <- rb_fuel ;;
  ok <- while fuel (rb_insert_descend node) (nw, 0) ;;
  if ok : bool then __rb_insert_fix fuel node ;;; ret 0 else ret (-1).

Definition rb_lookup_body (node nw : Z) : M rbst (Z + Z) :=
  if nw =? 0 then ret (inr 0)
  else if cmp node nw then nw <- left_of nw ;; ret (inl nw)
  else if cmp nw node then nw <- right_of nw ;; ret (inl nw)
  else ret (inr nw).

Definition _rb_lookup (node : Z) : M rbst Z :=
  nw <- gets root ;;
  fuel <- rb_fuel ;;
  while fuel (rb_lookup_body node) nw.
End entry.

Definition _rb_erase (node : Z) : M rbst unit :=
  fuel <- rb_fuel ;;
  rebalance <- __rb_erase fuel node ;;
  if negb (rebalance =? 0) then __rb_erase_fix fuel rebalance else ret tt.

Definition _rb_first : M rbst Z :=
  n <- gets root ;;
  if n =? 0 then ret 0
  else
    fuel <- rb_fuel ;;
    while fuel (fun n =>
      l <- left_of n ;;
      if negb (l =? 0) then ret (inl l) else ret (inr n)) n.
