(* ===== verification/RBSpec.v ===== *)
(** * Red-black trees as values: the specification of common/rbtree.c

    A tree carries the addresses of its nodes.  [ins_fix] and [era_fix] are
    the two rebalancing procedures on a zipper, and the lemmas say that they
    keep the in-order sequence and restore the red-black invariant. *)
From stdpp Require Import base list sorting.
From Stdlib Require Import ZArith Lia.
From S2P Require Import Prelude.

Inductive color := Red | Black.

Inductive tree :=
| E
| T (c : color) (l : tree) (a : Z) (r : tree).

(** A frame is a node with a hole for its left ([FL]) or right ([FR]) child. *)
Inductive frame :=
| FL (c : color) (a : Z) (r : tree)
| FR (c : color) (l : tree) (a : Z).

Abbreviation context := (list frame).

Definition ptr (t : tree) : Z := match t with E => 0 | T _ _ a _ => a end.
Definition f_addr (f : frame) : Z := match f with FL _ a _ => a | FR _ _ a => a end.
Definition f_color (f : frame) : color := match f with FL c _ _ => c | FR c _ _ => c end.
Definition f_sib (f : frame) : tree := match f with FL _ _ r => r | FR _ l _ => l end.

Definition fill (t : tree) (f : frame) : tree :=
  match f with FL c a r => T c t a r | FR c l a => T c l a t end.

Fixpoint plug (t : tree) (k : context) : tree :=
  match k with [] => t | f :: k' => plug (fill t f) k' end.

Fixpoint inorder (t : tree) : list Z :=
  match t with E => [] | T _ l a r => inorder l ++ a :: inorder r end.

(** The nodes before and after the hole. *)
Fixpoint before (k : context) : list Z :=
  match k with
  | [] => []
  | FL _ _ _ :: k' => before k'
  | FR _ l a :: k' => before k' ++ inorder l ++ [a]
  end.
Fixpoint after (k : context) : list Z :=
  match k with
  | [] => []
  | FL _ a r :: k' => a :: inorder r ++ after k'
  | FR _ _ _ :: k' => after k'
  end.

Definition setcol (c : color) (t : tree) : tree :=
  match t with E => E | T _ l a r => T c l a r end.
Definition rootcol (t : tree) : color := match t with E => Black | T c _ _ _ => c end.
Definition is_red (t : tree) : bool := match rootcol t with Red => true | Black => false end.

Lemma inorder_setcol c t : inorder (setcol c t) = inorder t.
Proof. by destruct t. Qed.

Lemma inorder_plug t k : inorder (plug t k) = before k ++ inorder t ++ after k.
Proof.
  revert t. induction k as [|[c a r|c l a] k IH]; intros t; cbn [plug before after fill].
  - by rewrite app_nil_r.
  - rewrite IH. cbn [inorder]. by rewrite <- !app_assoc.
  - rewrite IH. cbn [inorder]. by rewrite <- !app_assoc, <- !app_comm_cons.
Qed.

(** Lists of nodes up to associativity. *)
Ltac app_norm := repeat first [rewrite <- app_assoc | progress (cbn [app])].

(** ** Rebalancing after an insertion *)
Fixpoint ins_fix (t : tree) (k : context) : tree :=
  match k with
  | [] => setcol Black t
  | f1 :: k1 =>
      match f_color f1, k1 with
      | Black, _ => plug t k
      | Red, [] => plug t k
      | Red, f2 :: k' =>
          if is_red (f_sib f2) then
            ins_fix (match f2 with
                     | FL _ g u => T Red (setcol Black (fill t f1)) g (setcol Black u)
                     | FR _ u g => T Red (setcol Black u) g (setcol Black (fill t f1))
                     end) k'
          else
            plug (match f1, f2, t with
                  | FL _ p pr, FL cg g u, _ => T cg t p (T Red (setcol Black pr) g u)
                  | FR _ pl p, FL cg g u, T _ nl n nr =>
                      T cg (T Red pl p (setcol Black nl)) n (T Red (setcol Black nr) g u)
                  | FR _ pl p, FR cg u g, _ => T cg (T Red u g (setcol Black pl)) p t
                  | FL _ p pr, FR cg u g, T _ nl n nr =>
                      T cg (T Red u g (setcol Black nl)) n (T Red (setcol Black nr) p pr)
                  | _, _, E => fill (fill t f1) f2
                  end) k'
      end
  end.

Lemma ins_fix_inorder t k : inorder (ins_fix t k) = inorder (plug t k).
Proof.
  revert t. induction k as [k IH] using (induction_ltof1 _ length); intros t.
  destruct k as [|f1 [|f2 k]]; cbn [ins_fix]; [by rewrite inorder_setcol|by destruct (f_color f1)|].
  destruct (f_color f1); [|done]. destruct (is_red (f_sib f2)).
  - rewrite IH by (unfold ltof; simpl; lia). rewrite !inorder_plug. cbn [before after plug].
    destruct f1, f2; cbn [inorder before after setcol fill]; rewrite ?inorder_setcol;
      by app_norm.
  - rewrite !inorder_plug. destruct f1, f2, t;
      cbn [inorder before after setcol fill app]; rewrite ?inorder_setcol; by app_norm.
Qed.

(** ** The red-black invariant *)

(** Every path to a leaf has [n] black nodes. *)
Fixpoint bal (n : nat) (t : tree) : Prop :=
  match t with
  | E => n = 0%nat
  | T Red l _ r => bal n l /\ bal n r
  | T Black l _ r => exists m, n = S m /\ bal m l /\ bal m r
  end.

(** No red node has a red child. *)
Fixpoint norr (t : tree) : Prop :=
  match t with
  | E => True
  | T c l _ r => (c = Red -> rootcol l = Black /\ rootcol r = Black) /\ norr l /\ norr r
  end.

Definition redblack (t : tree) : Prop := rootcol t = Black /\ norr t /\ exists n, bal n t.

(** The context expects a subtree of black height [n] in its hole and the
    whole has black height [m]. *)
Fixpoint cbal (n : nat) (k : context) (m : nat) : Prop :=
  match k with
  | [] => n = m
  | f :: k' => bal n (f_sib f) /\
      cbal (match f_color f with Red => n | Black => S n end) k' m
  end.

(** No red node of the context has a red child, the root is black. *)
Fixpoint cnorr (k : context) : Prop :=
  match k with
  | [] => True
  | f :: k' => norr (f_sib f) /\ cnorr k' /\
      (f_color f = Red -> rootcol (f_sib f) = Black /\
         match k' with [] => False | f' :: _ => f_color f' = Black end)
  end.

(** The hole may take a subtree with a red root. *)
Definition takes_red (k : context) : Prop :=
  match k with [] => False | f :: _ => f_color f = Black end.

Lemma bal_setcol_red n t : rootcol t = Red -> bal n t -> bal (S n) (setcol Black t).
Proof. destruct t as [|[] l a r]; [done| |done]. intros _ [??]. by exists n. Qed.

Lemma setcol_black t : rootcol t = Black -> setcol Black t = t.
Proof. by destruct t as [|[] l a r]. Qed.

Lemma norr_setcol_black t : norr t -> norr (setcol Black t).
Proof. destruct t; [done|]. intros (_ & ? & ?). by split. Qed.

Lemma rootcol_setcol t : rootcol (setcol Black t) = Black.
Proof. by destruct t. Qed.

Lemma is_red_false t : is_red t = false -> rootcol t = Black.
Proof. unfold is_red. by destruct (rootcol t). Qed.

Lemma is_red_true t : is_red t = true -> rootcol t = Red.
Proof. unfold is_red. by destruct (rootcol t). Qed.

Lemma fill_norr t f :
  norr t -> norr (f_sib f) -> (f_color f = Red -> rootcol t = Black /\ rootcol (f_sib f) = Black) ->
  norr (fill t f).
Proof. destruct f; simpl; tauto. Qed.

Lemma fill_bal n t f :
  bal n t -> bal n (f_sib f) -> bal (match f_color f with Red => n | Black => S n end) (fill t f).
Proof. destruct f as [[] ? ?|[] ? ?]; simpl; eauto. Qed.

Lemma rootcol_fill t f : rootcol (fill t f) = f_color f.
Proof. by destruct f. Qed.

Lemma plug_norr t k :
  norr t -> cnorr k -> (rootcol t = Red -> takes_red k) ->
  norr (plug t k) /\ rootcol (plug t k) = Black.
Proof.
  revert t. induction k as [|f k IH]; intros t Ht Hk Hr; cbn [plug].
  - split; [done|]. destruct (rootcol t); [by destruct Hr|done].
  - destruct Hk as (Hs & Hk & Hf). apply IH; [|done|].
    + apply fill_norr; [done..|]. intros Hc. destruct (Hf Hc) as [? ?]. split; [|done].
      destruct (rootcol t); [|done]. simpl in Hr. rewrite Hr in Hc by done. done.
    + rewrite rootcol_fill. intros Hc. by destruct (Hf Hc) as [_ ?].
Qed.

Lemma plug_bal t n k m : bal n t -> cbal n k m -> bal m (plug t k).
Proof.
  revert t n. induction k as [|f k IH]; intros t n Ht Hk; cbn [plug].
  - simpl in Hk. by subst.
  - destruct Hk as [Hs Hk]. eapply IH; [|done]. by apply fill_bal.
Qed.

Lemma ins_fix_redblack t k n m :
  rootcol t = Red -> norr t -> bal n t -> cnorr k -> cbal n k m -> redblack (ins_fix t k).
Proof.
  revert t n. induction k as [k IH] using (induction_ltof1 _ length).
  intros t n Hred Ht Hb Hk Hc. destruct k as [|f1 k1]; cbn [ins_fix].
  { split; [apply rootcol_setcol|]. split; [by apply norr_setcol_black|].
    exists (S n). by apply bal_setcol_red. }
  assert (Hplug : forall t' n' k', norr t' -> bal n' t' -> cnorr k' -> cbal n' k' m ->
    (rootcol t' = Red -> takes_red k') -> redblack (plug t' k')).
  { intros t' n' k' H1 H2 H3 H4 H5. destruct (plug_norr t' k' H1 H3 H5). split; [done|].
    split; [done|]. exists m. by eapply plug_bal. }
  destruct Hk as (Hs1 & Hk1 & Hf1), Hc as [Hb1 Hc1].
  destruct (f_color f1) eqn:Hcol.
  2: { apply (Hplug t n (f1 :: k1)); [done|done| | |by simpl]; simpl; rewrite Hcol; done. }
  destruct (Hf1 eq_refl) as [Hsb Hf2]. destruct k1 as [|f2 k]; [done|].
  destruct Hk1 as (Hs2 & Hk & _), Hc1 as [Hb2 Hc2]. rewrite Hf2 in Hc2.
  destruct (is_red (f_sib f2)) eqn:Hu.
  - apply is_red_true in Hu.
    assert (Hfill : norr (setcol Black (fill t f1)) /\ bal (S n) (setcol Black (fill t f1))).
    { destruct f1; simpl in *; (split; [split; [done|tauto]|eauto]). }
    destruct Hfill as [Hn1 Hbf]. apply norr_setcol_black in Hs2. apply bal_setcol_red in Hb2; [|done].
    apply (IH k) with (n := S n); [unfold ltof; simpl; lia|by destruct f2| | |done|done];
      destruct f2; simpl in *; rewrite ?rootcol_setcol; auto.
  - apply is_red_false in Hu.
    destruct t as [|[] nl na nr]; [done| |done]. simpl in Hred.
    destruct Ht as (Hch & Hnl & Hnr), Hb as [Hbl Hbr]. destruct (Hch eq_refl) as [Hrl Hrr].
    apply (Hplug _ (S n)); [| |done|done|];
      destruct f1 as [? p pr|? pl p], f2 as [? g u|? u g]; simpl in *; subst;
      rewrite ?setcol_black by done; simpl; auto; try done; intuition eauto 10.
Qed.

(** From the whole tree to the subtree in the hole and its context. *)
Lemma fill_norr_inv t f :
  norr (fill t f) ->
  norr t /\ norr (f_sib f) /\ (f_color f = Red -> rootcol t = Black /\ rootcol (f_sib f) = Black).
Proof. destruct f; simpl; tauto. Qed.

Lemma fill_bal_inv m t f :
  bal m (fill t f) ->
  exists n, bal n t /\ bal n (f_sib f) /\ m = match f_color f with Red => n | Black => S n end.
Proof. destruct f as [[] ? ?|[] ? ?]; simpl; [intros [??]|intros (n&->&?&?)|intros [??]|intros (n&->&?&?)]; eauto. Qed.

Lemma plug_redblack_inv t k :
  redblack (plug t k) ->
  norr t /\ cnorr k /\ (rootcol t = Red -> takes_red k) /\ exists n m, bal n t /\ cbal n k m.
Proof.
  revert t. induction k as [|f k IH]; intros t; cbn [plug].
  - intros (Hr & Hn & n & Hb). split; [done|]. split; [done|]. split; [by rewrite Hr|]. by exists n, n.
  - intros (Hn & Hk & Htk & m & m' & Hb & Hc)%IH. rewrite rootcol_fill in Htk.
    apply fill_norr_inv in Hn as (Hn & Hs & Hrr). apply fill_bal_inv in Hb as (n & Hb & Hbs & ->).
    split; [done|]. split; [|split].
    + split; [done|]. split; [done|]. intros Hf. split; [by apply Hrr|by apply Htk].
    + intros Ht. simpl. destruct (f_color f) eqn:Hf; [|done].
      destruct (Hrr eq_refl). congruence.
    + exists n, m'. by split.
Qed.

(** ** Rebalancing after a removal *)

(** The hole of [f] holds [t], one black node short; the sibling has a black
    root.  The flag says that the result is still one black node short. *)
Definition era_sib (t : tree) (f : frame) : tree * bool :=
  match f with
  | FL cp p (T _ sl s sr) =>
      if is_red sr then (T cp (T Black t p sl) s (setcol Black sr), false)
      else match sl with
           | T Red a t2 b => (T cp (T Black t p a) t2 (T Black (setcol Black b) s sr), false)
           | _ => (T Black t p (T Red sl s sr), match cp with Red => false | Black => true end)
           end
  | FR cp (T _ sl s sr) p =>
      if is_red sl then (T cp (setcol Black sl) s (T Black sr p t), false)
      else match sr with
           | T Red a t2 b => (T cp (T Black sl s (setcol Black a)) t2 (T Black b p t), false)
           | _ => (T Black (T Red sl s sr) p t, match cp with Red => false | Black => true end)
           end
  | _ => (fill t f, false)
  end.

Fixpoint era_fix (t : tree) (k : context) : tree :=
  match k with
  | [] => t
  | f :: k' =>
      match f, f_sib f with
      | FL cp p _, T Red sl s sr =>
          plug (era_sib t (FL Red p (setcol Black sl))).1 (FL cp s sr :: k')
      | FR cp _ p, T Red sl s sr =>
          plug (era_sib t (FR Red (setcol Black sr) p)).1 (FR cp sl s :: k')
      | _, _ => let '(t', d) := era_sib t f in if d then era_fix t' k' else plug t' k'
      end
  end.

Lemma era_sib_inorder t f : inorder (era_sib t f).1 = inorder (fill t f).
Proof.
  destruct f as [cp p [|c sl s sr]|cp [|c sl s sr] p]; simpl; try done.
  - destruct (is_red sr); simpl; rewrite ?inorder_setcol; [by app_norm|].
    destruct sl as [|[] a t2 b]; simpl; rewrite ?inorder_setcol; try done.
    by app_norm.
  - destruct (is_red sl); simpl; rewrite ?inorder_setcol; [by app_norm|].
    destruct sr as [|[] a t2 b]; simpl; rewrite ?inorder_setcol; try done.
    by app_norm.
Qed.

Lemma era_fix_inorder t k : inorder (era_fix t k) = inorder (plug t k).
Proof.
  revert t. induction k as [|f k IH]; intros t; cbn [era_fix]; [done|].
  assert (Hs : forall f', inorder (let '(t', d) := era_sib t f' in if d then era_fix t' k else plug t' k)
    = inorder (plug t (f' :: k))).
  { intros f'. pose proof (era_sib_inorder t f') as H. destruct (era_sib t f') as [t' d]. simpl in H.
    cbn [plug]. rewrite (inorder_plug (fill t f')), <- H. destruct d; [rewrite IH|]; by rewrite inorder_plug. }
  destruct f as [cp p sib|cp sib p]; simpl f_sib; destruct sib as [|[] sl s sr]; try apply Hs;
    cbn [plug]; rewrite !inorder_plug; cbn [fill inorder]; rewrite era_sib_inorder;
    cbn [fill inorder]; rewrite ?inorder_setcol; by app_norm.
Qed.

Lemma bal_0 t : bal 0 t -> rootcol t = Black -> t = E.
Proof. destruct t as [|[] l a r]; [done|done|]. by intros (m & ? & _). Qed.

Lemma bal_S n t : bal (S n) t -> t <> E.
Proof. by intros H ->. Qed.

Ltac rb_crush :=
  repeat match goal with
         | H : is_red _ = true |- _ => apply is_red_true in H
         | H : is_red _ = false |- _ => apply is_red_false in H
         | H : exists _, _ |- _ => destruct H
         | H : _ /\ _ |- _ => destruct H
         | H : S ?a = S ?b |- _ => injection H as H; try subst b; try subst a
         | H : ?x = ?x -> _ |- _ => specialize (H eq_refl)
         end.

Lemma era_sib_ok n t f :
  norr t -> rootcol t = Black -> bal n t -> f_sib f <> E -> rootcol (f_sib f) = Black ->
  norr (f_sib f) -> bal (S n) (f_sib f) ->
  let '(t', d) := era_sib t f in
  norr t' /\ (rootcol t' = Red -> f_color f = Red) /\
  if d : bool then rootcol t' = Black /\ bal (S n) t' /\ f_color f = Black
  else bal (match f_color f with Red => S n | Black => S (S n) end) t'.
Proof.
  intros Ht Hr Hb HE Hsr Hs Hsb.
  destruct f as [cp p [|[] sl s sr]|cp [|[] sl s sr] p]; simpl in *; try done; rb_crush.
  - destruct (is_red sr) eqn:Er; rb_crush.
    { assert (bal (S n) (setcol Black sr)) by by apply bal_setcol_red.
      assert (norr (setcol Black sr)) by by apply norr_setcol_black.
      pose proof (rootcol_setcol sr). destruct cp; simpl; intuition eauto 10. }
    destruct sl as [|[] a t2 b]; simpl in *; rb_crush;
      rewrite ?setcol_black by done; destruct cp; simpl; intuition eauto 10.
  - destruct (is_red sl) eqn:Er; rb_crush.
    { assert (bal (S n) (setcol Black sl)) by by apply bal_setcol_red.
      assert (norr (setcol Black sl)) by by apply norr_setcol_black.
      pose proof (rootcol_setcol sl). destruct cp; simpl; intuition eauto 10. }
    destruct sr as [|[] a t2 b]; simpl in *; rb_crush;
      rewrite ?setcol_black by done; destruct cp; simpl; intuition eauto 10.
Qed.

Arguments era_sib : simpl never.

Lemma redblack_plug t n k m :
  norr t -> (rootcol t = Red -> takes_red k) -> bal n t -> cnorr k -> cbal n k m -> redblack (plug t k).
Proof.
  intros Ht Hr Hb Hk Hc. destruct (plug_norr t k Ht Hk Hr). split; [done|]. split; [done|].
  exists m. by eapply plug_bal.
Qed.

Lemma era_fix_redblack t n k m :
  norr t -> rootcol t = Black -> bal n t -> cnorr k -> cbal (S n) k m -> redblack (era_fix t k).
Proof.
  revert t n. induction k as [|f k IH]; intros t n Ht Hr Hb Hk Hc; cbn [era_fix].
  { split; [done|]. split; [done|]. by exists n. }
  destruct Hk as (Hs & Hk & Hf), Hc as [Hsb Hc].
  destruct (rootcol (f_sib f)) eqn:Hrs.
  - assert (Hcf : f_color f = Black).
    { destruct (f_color f); [|done]. by destruct (Hf eq_refl). }
    rewrite Hcf in Hc.
    destruct f as [cp p [|[] sl s sr]|cp [|[] sl s sr] p]; simpl in *; try done;
      destruct Hs as (Hch & Hsl & Hsr), Hsb as [Hbl Hbr]; destruct (Hch eq_refl) as [Hcl Hcr]; subst cp.
    + rewrite setcol_black by done.
      pose proof (era_sib_ok n t (FL Red p sl) Ht Hr Hb (bal_S _ _ Hbl) Hcl Hsl Hbl) as Hok.
      destruct (era_sib t (FL Red p sl)) as [t' d]. destruct Hok as (Hn' & _ & Hd). simpl in Hd.
      destruct d; [by destruct Hd as (_ & _ & ?)|].
      apply (redblack_plug t' (S n) (FL Black s sr :: k) m); simpl; auto. split; [done|]. split; done.
    + rewrite setcol_black by done.
      pose proof (era_sib_ok n t (FR Red sr p) Ht Hr Hb (bal_S _ _ Hbr) Hcr Hsr Hbr) as Hok.
      destruct (era_sib t (FR Red sr p)) as [t' d]. destruct Hok as (Hn' & _ & Hd). simpl in Hd.
      destruct d; [by destruct Hd as (_ & _ & ?)|].
      apply (redblack_plug t' (S n) (FR Black sl s :: k) m); simpl; auto. split; [done|]. split; done.
  - pose proof (era_sib_ok n t f Ht Hr Hb (bal_S _ _ Hsb) Hrs Hs Hsb) as Hok.
    assert (Hgoal : redblack (let '(t', d) := era_sib t f in if d then era_fix t' k else plug t' k)).
    { destruct (era_sib t f) as [t' d]. destruct Hok as (Hn' & Hr' & Hd). destruct d.
      - destruct Hd as (Hb' & Hbal & Hcf). rewrite Hcf in Hc. by eapply IH.
      - eapply redblack_plug; [done| |done|done|done]. intros Ht'%Hr'.
        destruct (Hf Ht') as [_ H]. destruct k; done. }
    destruct f as [cp p [|[] sl s sr]|cp [|[] sl s sr] p]; simpl in *; done.
Qed.

(** ** Removing a node *)

(** The leftmost node of [T c l a r], with what hangs to its right and the
    frames above it (on top of [k]). *)
Fixpoint min_of (l : tree) (c : color) (a : Z) (r : tree) (k : context) : color * Z * tree * context :=
  match l with
  | E => (c, a, r, k)
  | T c' l' a' r' => min_of l' c' a' r' (FL c a r :: k)
  end.

(** Removing the node [a] in the hole of [k]: a finished tree, or the context
    of an empty subtree that is one black node short. *)
Definition era_node (c : color) (l : tree) (r : tree) (k : context) : tree + context :=
  match l, r with
  | E, E => match c with Red => inl (plug E k) | Black => inr k end
  | E, T _ _ _ _ => inl (plug (setcol c r) k)
  | T _ _ _ _, E => inl (plug (setcol c l) k)
  | T _ _ _ _, T rc rl ra rr =>
      let '(sc, s, sr, ks) := min_of rl rc ra rr [] in
      let k' := ks ++ FR c l s :: k in
      match sr with
      | E => match sc with Red => inl (plug E k') | Black => inr k' end
      | T _ _ _ _ => inl (plug (setcol Black sr) k')
      end
  end.

Definition era (c : color) (l : tree) (r : tree) (k : context) : tree :=
  match era_node c l r k with inl t => t | inr k' => era_fix E k' end.

Lemma min_of_plug l c a r k :
  let '(sc, s, sr, ks) := min_of l c a r k in plug (T sc E s sr) ks = plug (T c l a r) k.
Proof.
  revert c a r k. induction l as [|c' l' IH a' r' _]; intros c a r k; [done|].
  cbn [min_of]. specialize (IH c' a' r' (FL c a r :: k)).
  by destruct (min_of l' c' a' r' (FL c a r :: k)) as [[[sc s] sr] ks].
Qed.

Lemma min_of_app l c a r k k0 :
  min_of l c a r (k ++ k0) = let '(sc, s, sr, ks) := min_of l c a r k in (sc, s, sr, ks ++ k0).
Proof.
  revert c a r k. induction l as [|c' l' IH a' r' _]; intros c a r k; [done|].
  cbn [min_of]. by rewrite app_comm_cons, IH.
Qed.

Lemma min_of_before l c a r k :
  let '(_, _, _, ks) := min_of l c a r k in before ks = before k.
Proof.
  revert c a r k. induction l as [|c' l' IH a' r' _]; intros c a r k; [done|].
  cbn [min_of]. specialize (IH c' a' r' (FL c a r :: k)).
  by destruct (min_of l' c' a' r' (FL c a r :: k)) as [[[sc s] sr] ks].
Qed.

Lemma context_app ks k0 :
  before (ks ++ k0) = before k0 ++ before ks /\ after (ks ++ k0) = after ks ++ after k0.
Proof.
  induction ks as [|[c a r|c l a] ks [IH1 IH2]]; simpl; rewrite ?app_nil_r; [done| |].
  - rewrite IH1, IH2. by app_norm.
  - rewrite IH1, IH2. by app_norm.
Qed.

Lemma era_inorder c l r k :
  inorder (era c l r k) = before k ++ inorder l ++ inorder r ++ after k.
Proof.
  unfold era, era_node. destruct l as [|lc ll la lr], r as [|rc rl ra rr].
  - destruct c; rewrite ?era_fix_inorder, inorder_plug; done.
  - by rewrite inorder_plug, inorder_setcol.
  - by rewrite inorder_plug, inorder_setcol.
  - pose proof (min_of_plug rl rc ra rr []) as Hp. pose proof (min_of_before rl rc ra rr []) as Hb.
    destruct (min_of rl rc ra rr []) as [[[sc s] sr] ks]. simpl in Hb.
    apply (f_equal inorder) in Hp. rewrite !inorder_plug, Hb in Hp. cbn [inorder before after app] in Hp.
    rewrite app_nil_r in Hp.
    assert (Hres : forall t, inorder t = inorder sr -> inorder (plug t (ks ++ FR c (T lc ll la lr) s :: k)) =
      before k ++ inorder (T lc ll la lr) ++ inorder (T rc rl ra rr) ++ after k).
    { intros t Ht. rewrite inorder_plug, Ht. destruct (context_app ks (FR c (T lc ll la lr) s :: k)) as [-> ->].
      cbn [before after]. rewrite Hb. cbn [inorder]. rewrite <- Hp. by app_norm. }
    destruct sr as [|sc' sl sa srr].
    + destruct sc; [by apply Hres|]. rewrite era_fix_inorder. by apply Hres.
    + apply Hres. by rewrite inorder_setcol.
Qed.

(** The address of a frame matters to neither part of the invariant. *)
Lemma context_swap ks c l a s k :
  (cnorr (ks ++ FR c l a :: k) -> cnorr (ks ++ FR c l s :: k)) /\
  (forall n m, cbal n (ks ++ FR c l a :: k) m -> cbal n (ks ++ FR c l s :: k) m).
Proof.
  induction ks as [|f ks [IH1 IH2]]; [done|]. split.
  - intros (H1 & H2 & H3). split; [done|]. split; [by apply IH1|]. intros Hf. destruct (H3 Hf) as [? H4].
    split; [done|]. by destruct ks.
  - intros n m [H1 H2]. split; [done|]. by apply IH2.
Qed.

Lemma norr_red_bal0 t : bal 0 t -> t <> E -> rootcol t = Red.
Proof. destruct t as [|[] l a r]; [done..|]. by intros (m & ? & _). Qed.

(** A node with an empty left subtree: its right subtree is a red leaf. *)
Lemma single_child c a t n :
  norr (T c E a t) -> bal n (T c E a t) -> t <> E ->
  c = Black /\ norr (setcol Black t) /\ bal n (setcol Black t).
Proof.
  intros (Hc & _ & Ht) Hb HE. destruct c.
  - destruct Hb as [Hn Hb]. simpl in Hn. subst n. apply norr_red_bal0 in Hb; [|done].
    destruct (Hc eq_refl). congruence.
  - destruct Hb as (m & -> & Hn & Hb). simpl in Hn. subst m. split; [done|].
    split; [by apply norr_setcol_black|]. apply bal_setcol_red; [|done]. by apply norr_red_bal0.
Qed.

Lemma era_node_ok c l a r k :
  redblack (plug (T c l a r) k) ->
  match era_node c l r k with
  | inl t => redblack t
  | inr k' => cnorr k' /\ exists m, cbal 1 k' m
  end.
Proof.
  intros Hrb. unfold era_node. destruct l as [|lc ll la lr].
  - apply plug_redblack_inv in Hrb as (Hn & Hk & Ht & n & m & Hb & Hc).
    destruct r as [|rc rl ra rr].
    + destruct c; simpl in Hb.
      * destruct Hb as [-> _]. by eapply redblack_plug.
      * destruct Hb as (? & -> & -> & _). eauto.
    + destruct (single_child _ _ _ _ Hn Hb) as (-> & ? & ?); [done|].
      by eapply redblack_plug.
  - destruct r as [|rc rl ra rr].
    + apply plug_redblack_inv in Hrb as (Hn & Hk & Ht & n & m & Hb & Hc).
      assert (Hn' : norr (T c E a (T lc ll la lr))) by (simpl in *; tauto).
      assert (Hb' : bal n (T c E a (T lc ll la lr))).
      { destruct c; simpl in *; [tauto|]. destruct Hb as (p & ? & ? & ?). by exists p. }
      destruct (single_child _ _ _ _ Hn' Hb') as (-> & ? & ?); [done|].
      by eapply redblack_plug.
    + pose proof (min_of_plug rl rc ra rr (FR c (T lc ll la lr) a :: k)) as Hp.
      change (plug (T c (T lc ll la lr) a (T rc rl ra rr)) k)
        with (plug (T rc rl ra rr) (FR c (T lc ll la lr) a :: k)) in Hrb.
      rewrite <- (app_nil_l (FR c _ a :: k)), min_of_app in Hp.
      destruct (min_of rl rc ra rr []) as [[[sc s] sr] ks]. rewrite app_nil_l in Hp. rewrite <- Hp in Hrb.
      apply plug_redblack_inv in Hrb as (Hn & Hk & _ & n & m & Hb & Hc).
      destruct (context_swap ks c (T lc ll la lr) a s k) as [Hsw1 Hsw2]. apply Hsw1 in Hk. apply Hsw2 in Hc.
      destruct sr as [|rc' rl' ra' rr'].
      * destruct sc; simpl in Hb.
        -- destruct Hb as [-> _]. by eapply redblack_plug.
        -- destruct Hb as (? & -> & -> & _). eauto.
      * destruct (single_child _ _ _ _ Hn Hb) as (-> & ? & ?); [done|].
        by eapply redblack_plug.
Qed.

Lemma era_redblack c l a r k : redblack (plug (T c l a r) k) -> redblack (era c l r k).
Proof.
  intros Hrb%era_node_ok. unfold era. destruct (era_node c l r k) as [t|k']; [done|].
  destruct Hrb as [Hk [m Hc]]. by eapply era_fix_redblack.
Qed.

(** ** Height *)
Fixpoint height (t : tree) : nat :=
  match t with E => 0 | T _ l _ r => S (Nat.max (height l) (height r)) end.

Lemma height_length t : (height t <= length (inorder t))%nat.
Proof. induction t; simpl; rewrite ?length_app; simpl; lia. Qed.

Lemma bal_length n t : bal n t -> (2 ^ n <= S (length (inorder t)))%nat.
Proof.
  revert n. induction t as [|[] l IHl a r IHr]; intros n Hb; simpl in *; rewrite ?length_app; simpl.
  - by subst.
  - destruct Hb as [Hl Hr]. apply IHl in Hl. lia.
  - destruct Hb as (m & -> & Hl & Hr). apply IHl in Hl. apply IHr in Hr. simpl. lia.
Qed.

Lemma bal_height n t :
  norr t -> bal n t -> (height t <= 2 * n + match rootcol t with Red => 1 | Black => 0 end)%nat.
Proof.
  revert n. induction t as [|c l IHl a r IHr]; intros n Hn Hb; [simpl; lia|].
  destruct Hn as (Hc & Hl & Hr). destruct c; simpl in *.
  - destruct (Hc eq_refl) as [E1 E2], Hb as [Hbl Hbr]. specialize (IHl n Hl Hbl). specialize (IHr n Hr Hbr).
    rewrite E1 in IHl. rewrite E2 in IHr. lia.
  - destruct Hb as (m & -> & Hbl & Hbr). specialize (IHl m Hl Hbl). specialize (IHr m Hr Hbr).
    destruct (rootcol l), (rootcol r); lia.
Qed.

Lemma redblack_height t : redblack t -> (height t <= 2 * Nat.log2 (S (length (inorder t))))%nat.
Proof.
  intros (Hr & Hn & n & Hb). pose proof (bal_height _ _ Hn Hb) as Hh. rewrite Hr in Hh.
  apply bal_length in Hb. apply Nat.log2_le_mono in Hb. rewrite Nat.log2_pow2 in Hb by lia. lia.
Qed.
