(* ===== verification/RBRefine.v ===== *)
(** * The code of common/rbtree.c implements the tree specification

    [zrep s t k] says that the heap of [s] holds the tree [t] in the hole of
    the context [k].  The lemmas run the code of RBTree.v on such heaps and
    show that it computes [ins_fix], [era_node] and [era_fix] of RBSpec.v. *)
From stdpp Require Import base gmap list sorting.
From Stdlib Require Import ZArith Lia.
From S2P Require Import Prelude RBTree RBSpec.

Abbreviation heap := (gmap Z rb_node_).

Definition col (c : color) : Z := match c with Red => RB_RED | Black => RB_BLACK end.

Fixpoint rep (h : heap) (par : Z) (t : tree) : Prop :=
  match t with
  | E => True
  | T c l a r =>
      h !! a = Some (mkRbNode (Z.lor par (col c)) (ptr r) (ptr l)) /\ rep h a l /\ rep h a r
  end.

Definition cpar (k : context) : Z := match k with [] => 0 | f :: _ => f_addr f end.

Fixpoint rep_ctx (h : heap) (rt p : Z) (k : context) : Prop :=
  match k with
  | [] => rt = p
  | f :: k' =>
      h !! f_addr f = Some (match f with
        | FL c a r => mkRbNode (Z.lor (cpar k') (col c)) (ptr r) p
        | FR c l a => mkRbNode (Z.lor (cpar k') (col c)) p (ptr l)
        end) /\
      rep h (f_addr f) (f_sib f) /\ rep_ctx h rt (f_addr f) k'
  end.

Definition outside (k : context) : list Z := before k ++ after k.

(** Node addresses are distinct, not NULL, and word aligned. *)
Definition addr_ok (l : list Z) : Prop := NoDup (0 :: l) /\ Forall (fun a => a mod 4 = 0) l.

Definition zrep (s : rbst) (t : tree) (k : context) : Prop :=
  rep (nodes s) (cpar k) t /\ rep_ctx (nodes s) (root s) (ptr t) k /\
  addr_ok (inorder t ++ outside k).

Definition tree_rep (s : rbst) (t : tree) : Prop := zrep s t [].

(** ** Packed parent and color *)
Lemma lor_col_parent p c : p mod 4 = 0 -> __rb_parent (Z.lor p (col c)) = p.
Proof.
  intros Hp. unfold __rb_parent. apply Z.bits_inj'. intros n Hn.
  rewrite Z.land_spec, Z.lor_spec, Z.lnot_spec by done.
  assert (Hlow : 0 <= n < 2 -> Z.testbit p n = false).
  { intros. rewrite <- (Z.mod_pow2_bits_low p 2 n) by lia. change (2 ^ 2) with 4. rewrite Hp. apply Z.bits_0. }
  assert (H3 : Z.testbit 3 n = (n <? 2)).
  { change 3 with (Z.ones 2). rewrite Z.testbit_ones_nonneg by lia. done. }
  assert (Hc : 2 <= n -> Z.testbit (col c) n = false).
  { intros. destruct c; simpl; [apply Z.bits_0|]. change RB_BLACK with (2 ^ 0). rewrite Z.pow2_bits_eqb by lia.
    apply Z.eqb_neq. lia. }
  rewrite H3. destruct (Z.ltb_spec n 2); simpl.
  - rewrite andb_false_r. symmetry. apply Hlow. lia.
  - rewrite andb_true_r, Hc by done. apply orb_false_r.
Qed.

Lemma lor_col_color p c : p mod 4 = 0 -> __rb_color (Z.lor p (col c)) = col c.
Proof.
  intros Hp. unfold __rb_color. change 1 with (Z.ones 1). rewrite Z.land_ones, Z.pow_1_r by lia.
  assert (Hb : Z.testbit p 0 = false).
  { rewrite <- (Z.mod_pow2_bits_low p 2 0) by lia. change (2 ^ 2) with 4. by rewrite Hp. }
  rewrite Zmod_odd, <- Z.bit0_odd, Z.lor_spec, Hb. by destruct c.
Qed.

Lemma lor_col_black p c : p mod 4 = 0 ->
  __rb_is_black (Z.lor p (col c)) = match c with Red => false | Black => true end.
Proof. intros Hp. unfold __rb_is_black. rewrite lor_col_color by done. by destruct c. Qed.

Lemma lor_col_red p c : p mod 4 = 0 ->
  __rb_is_red (Z.lor p (col c)) = match c with Red => true | Black => false end.
Proof. intros Hp. unfold __rb_is_red. rewrite lor_col_color by done. by destruct c. Qed.

(** ** Field writes *)
Definition spc (v : Z) (n : rb_node_) := mkRbNode v (rb_right n) (rb_left n).
Definition srt (v : Z) (n : rb_node_) := mkRbNode (rb_parent_color n) v (rb_left n).
Definition slt (v : Z) (n : rb_node_) := mkRbNode (rb_parent_color n) (rb_right n) v.

Definition on_heap (f : heap -> heap) (s : rbst) : rbst := mkRb (f (nodes s)) (root s).

Section fields.
Context (s : rbst) (p : Z) (n : rb_node_) (Hp : nodes s !! p = Some n).

Lemma pc_of_Ret : pc_of p s = Ret (rb_parent_color n, s).
Proof. unfold pc_of, on_nodes, zoom, bind, load. rewrite Hp. by destruct s. Qed.
Lemma right_of_Ret : right_of p s = Ret (rb_right n, s).
Proof. unfold right_of, on_nodes, zoom, bind, load. rewrite Hp. by destruct s. Qed.
Lemma left_of_Ret : left_of p s = Ret (rb_left n, s).
Proof. unfold left_of, on_nodes, zoom, bind, load. rewrite Hp. by destruct s. Qed.

Lemma alter_insert (f : rb_node_ -> rb_node_) : <[p := f n]> (nodes s) = alter f p (nodes s).
Proof.
  apply map_eq. intros i. rewrite lookup_alter, lookup_insert. case_decide; [subst; by rewrite Hp|done].
Qed.
Lemma set_pc_Ret v : set_pc p v s = Ret (tt, on_heap (alter (spc v) p) s).
Proof. unfold set_pc, on_nodes, zoom, update. rewrite Hp. unfold on_heap. by rewrite <- alter_insert. Qed.
Lemma set_right_Ret v : set_right p v s = Ret (tt, on_heap (alter (srt v) p) s).
Proof. unfold set_right, on_nodes, zoom, update. rewrite Hp. unfold on_heap. by rewrite <- alter_insert. Qed.
Lemma set_left_Ret v : set_left p v s = Ret (tt, on_heap (alter (slt v) p) s).
Proof. unfold set_left, on_nodes, zoom, update. rewrite Hp. unfold on_heap. by rewrite <- alter_insert. Qed.
End fields.

(** The write to the root of a subtree, if it has one, and to the child
    pointer above a hole. *)
Definition hpc (t : tree) (v : Z) (h : heap) : heap :=
  match t with E => h | T _ _ a _ => alter (spc v) a h end.

Definition hctx (k : context) (new : Z) (h : heap) : heap :=
  match k with
  | [] => h
  | FL _ a _ :: _ => alter (slt new) a h
  | FR _ _ a :: _ => alter (srt new) a h
  end.

Definition newroot (k : context) (new rt : Z) : Z := match k with [] => new | _ :: _ => rt end.

(** ** Ownership: every address belongs to one part of the heap *)
Lemma own_exists (ls : list (list Z)) :
  NoDup (concat ls) ->
  exists o : Z -> nat, forall i l, ls !! i = Some l -> forall b, b ∈ l -> o b = i.
Proof.
  induction ls as [|l ls IH]; [by exists (fun _ => 0%nat)|]. cbn [concat]. intros (Hl & Hd & Hls)%NoDup_app.
  destruct (IH Hls) as [o Ho]. exists (fun b => if decide (b ∈ l) then 0%nat else S (o b)).
  intros [|i] l' Hi b Hb; simpl in Hi; [simplify_eq; by rewrite decide_True|].
  rewrite decide_False; [by rewrite (Ho i l')|]. intros Hbl. apply (Hd _ Hbl).
  apply list_elem_of_In, in_concat. exists l'. split; apply list_elem_of_In; [|done].
  by apply list_elem_of_lookup_2 in Hi.
Qed.

Lemma count_occ_cons1 (a : Z) l x :
  count_occ Z.eq_dec (a :: l) x = (count_occ Z.eq_dec [a] x + count_occ Z.eq_dec l x)%nat.
Proof. simpl. destruct (Z.eq_dec a x); lia. Qed.

Ltac perm_solve :=
  apply (Permutation_count_occ Z.eq_dec); intros ?x;
  unfold outside; cbn [concat inorder before after f_addr f_sib fill setcol];
  repeat (rewrite ?inorder_setcol, ?count_occ_app;
          match goal with
          | |- context [count_occ _ (?a :: ?l) _] =>
              lazymatch l with [] => fail | _ => rewrite (count_occ_cons1 a l) end
          end);
  rewrite ?inorder_setcol, ?count_occ_app; simpl (count_occ _ [] _); lia.

Lemma NoDup_perm (l l' : list Z) : NoDup l -> l' ≡ₚ l -> NoDup l'.
Proof. by intros ? ->. Qed.

(** The address lists [ls], [0] first, are a rearrangement of [l]: they get
    an ownership function, and their addresses are aligned. *)
Lemma own_of l ls :
  addr_ok l -> concat ls ≡ₚ 0 :: l ->
  exists o : Z -> nat, forall i l', ls !! i = Some l' ->
    NoDup l' /\ forall b, b ∈ l' -> o b = i /\ b mod 4 = 0.
Proof.
  intros [Hnd Hal] Hp. rewrite <- Hp in Hnd. destruct (own_exists ls Hnd) as [o Ho].
  exists o. intros i l' Hi. split.
  { apply list_elem_of_lookup_2 in Hi. apply list_elem_of_split in Hi as (l1 & l2 & ->).
    rewrite concat_app in Hnd. cbn [concat] in Hnd. by apply NoDup_app in Hnd as (_ & _ & [? _]%NoDup_app). }
  intros b Hb. split; [by eapply Ho|].
  assert (Hin : b ∈ concat ls).
  { apply list_elem_of_In, in_concat. exists l'. split; apply list_elem_of_In; [|done].
    by apply list_elem_of_lookup_2 in Hi. }
  rewrite Hp in Hin. apply elem_of_cons in Hin as [->|Hin]; [done|]. by eapply Forall_forall in Hal.
Qed.

Lemma elem_single (a : Z) : a ∈ [a]. Proof. by left. Qed.

Lemma ptr_in t : ptr t = 0 \/ ptr t ∈ inorder t.
Proof. destruct t; [by left|]. right. simpl. set_solver. Qed.

Lemma cpar_in k : cpar k = 0 \/ cpar k ∈ outside k.
Proof. destruct k as [|[] k]; [by left|..]; right; unfold outside; simpl; set_solver. Qed.

Lemma own_ptr (o : Z -> nat) t i :
  o 0 = 0%nat -> (forall b, b ∈ inorder t -> o b = i /\ b mod 4 = 0) ->
  (o (ptr t) = 0%nat \/ o (ptr t) = i) /\ ptr t mod 4 = 0.
Proof. intros H0 H. destruct (ptr_in t) as [->|[]%H]; auto. Qed.

Lemma own_cpar (o : Z -> nat) k i :
  o 0 = 0%nat -> (forall b, b ∈ outside k -> o b = i /\ b mod 4 = 0) ->
  (o (cpar k) = 0%nat \/ o (cpar k) = i) /\ cpar k mod 4 = 0.
Proof. intros H0 H. destruct (cpar_in k) as [->|[]%H]; auto. Qed.

Lemma own_fst (o : Z -> nat) (l : list Z) i :
  (forall b, b ∈ l -> o b = i /\ b mod 4 = 0) -> forall b, b ∈ l -> o b = i.
Proof. firstorder. Qed.

Ltac own_pose o Ho ls i :=
  lazymatch ls with
  | [] => idtac
  | ?l :: ?ls' =>
      lazymatch l with
      | [?a] => destruct (proj2 (Ho i l eq_refl) a (elem_single a))
      | inorder ?t =>
          pose proof (own_fst o l i (proj2 (Ho i l eq_refl)));
          pose proof (proj1 (Ho i l eq_refl));
          match goal with H0 : o 0 = 0%nat |- _ =>
            destruct (own_ptr o t i H0 (proj2 (Ho i l eq_refl))) end
      | outside ?k =>
          pose proof (own_fst o l i (proj2 (Ho i l eq_refl)));
          pose proof (proj1 (Ho i l eq_refl));
          match goal with H0 : o 0 = 0%nat |- _ =>
            destruct (own_cpar o k i H0 (proj2 (Ho i l eq_refl))) end
      end;
      own_pose o Ho ls' (S i)
  end.

(** [own_facts H ls]: the parts [ls] of the address list of [H : addr_ok _],
    as an ownership function [o] and the facts it gives. *)
Ltac own_facts H ls :=
  let o := fresh "o" in let Ho := fresh "Ho" in
  destruct (own_of _ ls H) as [o Ho]; [perm_solve|];
  own_pose o Ho ls 0%nat; clear Ho.

(** ** Framing *)
Lemma rep_frame h h' p t :
  (forall a, a ∈ inorder t -> h' !! a = h !! a) -> rep h p t -> rep h' p t.
Proof.
  revert p. induction t as [|c l IHl a r IHr]; intros p Hf; [done|]. intros (Ha & Hl & Hr).
  simpl in Hf. split; [rewrite Hf; [done|set_solver]|].
  split; [apply IHl|apply IHr]; try done; intros b Hb; apply Hf; set_solver.
Qed.

Lemma rep_alter_ne h p t f q : q ∉ inorder t -> rep h p t -> rep (alter f q h) p t.
Proof. intros Hq. apply rep_frame. intros a Ha. apply lookup_alter_ne. by intros ->. Qed.

Lemma rep_hpc_ne h p t x v : ptr x ∉ inorder t -> rep h p t -> rep (hpc x v h) p t.
Proof. destruct x; [done|]. apply rep_alter_ne. Qed.

Lemma rep_hctx_ne h p t k v : cpar k ∉ inorder t -> rep h p t -> rep (hctx k v h) p t.
Proof. destruct k as [|[] k]; [done|apply rep_alter_ne..]. Qed.

Lemma hpc_ne h t v b : b <> ptr t -> hpc t v h !! b = h !! b.
Proof. destruct t; [done|]. intros. by apply lookup_alter_ne. Qed.

Lemma hctx_ne h k v b : b <> cpar k -> hctx k v h !! b = h !! b.
Proof. destruct k as [|[] k]; [done|intros; by apply lookup_alter_ne..]. Qed.

Lemma rep_ctx_frame h h' rt p k :
  (forall a, a ∈ outside k -> h' !! a = h !! a) -> rep_ctx h rt p k -> rep_ctx h' rt p k.
Proof.
  revert p. unfold outside. induction k as [|f k IH]; intros p Hf; [done|]. intros (Ha & Hs & Hk).
  destruct f as [c a r|c l a]; simpl in *;
    (split; [rewrite Hf; [done|set_solver]|split]);
    [eapply rep_frame; [|done]|apply IH; [|done]|eapply rep_frame; [|done]|apply IH; [|done]];
    intros b Hb; apply Hf; set_solver.
Qed.

Lemma rep_ctx_alter_ne h rt p k f q :
  q ∉ outside k -> rep_ctx h rt p k -> rep_ctx (alter f q h) rt p k.
Proof. intros Hq. apply rep_ctx_frame. intros a Ha. apply lookup_alter_ne. by intros ->. Qed.

Lemma rep_ctx_hpc_ne h rt p k x v :
  ptr x ∉ outside k -> rep_ctx h rt p k -> rep_ctx (hpc x v h) rt p k.
Proof. destruct x; [done|]. apply rep_ctx_alter_ne. Qed.

(** Re-parenting a subtree. *)
Lemma rep_hpc h p p' t c :
  NoDup (inorder t) -> rep h p t -> rep (hpc t (Z.lor p' (col c)) h) p' (setcol c t).
Proof.
  destruct t as [|c' l a r]; [done|]. intros Hnd (Ha & Hl & Hr). simpl in *.
  apply NoDup_app in Hnd as (_ & Hd & [Har _]%NoDup_cons).
  split; [by rewrite lookup_alter_eq, Ha|]. split; apply rep_alter_ne; try done.
  intros Hal. apply (Hd _ Hal). by left.
Qed.

(** Re-directing the pointer above the hole. *)
Lemma rep_ctx_hctx h rt p new k :
  NoDup (outside k) -> rep_ctx h rt p k -> rep_ctx (hctx k new h) (newroot k new rt) new k.
Proof.
  destruct k as [|[c a r|c l a] k]; [done|..]; unfold outside; intros Hnd (Ha & Hs & Hk); simpl in *.
  - assert (a ∉ inorder r /\ a ∉ outside k) as [? ?].
    { rewrite Permutation_app_comm in Hnd. simpl in Hnd. unfold outside. apply NoDup_cons in Hnd as [? _]. set_solver. }
    split; [by rewrite lookup_alter_eq, Ha|]. split; [by apply rep_alter_ne|by apply rep_ctx_alter_ne].
  - assert (a ∉ inorder l /\ a ∉ outside k) as [? ?].
    { assert (NoDup (a :: inorder l ++ outside k)) as [? _]%NoDup_cons by (eapply NoDup_perm; [exact Hnd|perm_solve]).
      set_solver. }
    split; [by rewrite lookup_alter_eq, Ha|]. split; [by apply rep_alter_ne|by apply rep_ctx_alter_ne].
Qed.

(** ** Running the helpers *)
Lemma change_child_Ret s old new k :
  NoDup (0 :: old :: outside k) -> rep_ctx (nodes s) (root s) old k ->
  __rb_change_child old new (cpar k) s = Ret (tt, mkRb (hctx k new (nodes s)) (newroot k new (root s))).
Proof.
  intros Hnd Hk. unfold __rb_change_child. destruct k as [|f k]; [done|].
  destruct Hk as (Ha & Hs & Hk).
  assert (f_addr f <> 0 /\ ptr (f_sib f) <> old) as [H0 Hne].
  { destruct (own_exists [[0]; [old]; [f_addr f]; inorder (f_sib f); outside k]) as [o Ho].
    { eapply NoDup_perm; [exact Hnd|]. destruct f; perm_solve. }
    pose proof (Ho 0%nat _ eq_refl 0 (elem_single 0)). pose proof (Ho 1%nat _ eq_refl _ (elem_single old)).
    pose proof (Ho 2%nat _ eq_refl _ (elem_single (f_addr f))).
    split; [congruence|]. destruct (ptr_in (f_sib f)) as [E|E%(Ho 3%nat _ eq_refl)]; congruence. }
  cbn [cpar]. rewrite (proj2 (Z.eqb_neq _ _) H0). cbn [negb].
  erewrite bind_Ret by by apply left_of_Ret.
  destruct f as [c a r|c l a]; simpl in *.
  - rewrite Z.eqb_refl. by erewrite set_left_Ret by done.
  - rewrite (proj2 (Z.eqb_neq _ _) Hne). by erewrite set_right_Ret by done.
Qed.

Lemma rotate_Ret s old new c colv k n nn :
  NoDup (0 :: old :: new :: outside k) -> cpar k mod 4 = 0 ->
  nodes s !! old = Some n -> rb_parent_color n = Z.lor (cpar k) (col c) ->
  nodes s !! new = Some nn -> rep_ctx (nodes s) (root s) old k ->
  __rb_rotate_set_parents old new colv s =
    Ret (tt, mkRb (hctx k new (alter (spc (Z.lor new colv)) old
                  (alter (spc (Z.lor (cpar k) (col c))) new (nodes s)))) (newroot k new (root s))).
Proof.
  intros Hnd Hal Hold Hpc Hnew Hk. unfold __rb_rotate_set_parents, rb_parent, rb_set_parent_color.
  assert (Hno : old <> new) by (intros ->; by apply NoDup_cons in Hnd as [_ [Hx _]%NoDup_cons]; set_solver).
  rewrite bind_assoc. erewrite bind_Ret by by apply pc_of_Ret. erewrite bind_Ret by done.
  erewrite bind_Ret by by apply pc_of_Ret. rewrite Hpc, lor_col_parent by done.
  erewrite bind_Ret by by apply (set_pc_Ret _ _ nn).
  erewrite bind_Ret.
  2: { apply (set_pc_Ret _ _ n). simpl. by rewrite lookup_alter_ne by done. }
  rewrite change_child_Ret; [done|..]; simpl.
  - apply NoDup_cons in Hnd as [H1 [H2 [H3 H4]%NoDup_cons]%NoDup_cons].
    apply NoDup_cons. split; [set_solver|]. apply NoDup_cons. split; [set_solver|done].
  - apply NoDup_cons in Hnd as [H1 [H2 [H3 H4]%NoDup_cons]%NoDup_cons].
    apply rep_ctx_alter_ne; [set_solver|]. by apply rep_ctx_alter_ne.
Qed.

Lemma set_parent_color_if_Ret s t q p' c' :
  rep (nodes s) q t -> 0 ∉ inorder t ->
  set_parent_color_if (ptr t) p' c' s = Ret (tt, on_heap (hpc t (Z.lor p' c')) s).
Proof.
  intros Hr H0. unfold set_parent_color_if, when, rb_set_parent_color, on_heap.
  destruct t as [|ct l a r]; simpl; [by destruct s|].
  destruct Hr as (Hn & _).
  destruct (Z.eqb_spec a 0); [subst; simpl in H0; set_solver|]. simpl. by erewrite set_pc_Ret by done.
Qed.

Lemma and_is_red_Ret s p t :
  rep (nodes s) p t -> 0 ∉ inorder t -> p mod 4 = 0 -> and_is_red (ptr t) s = Ret (is_red t, s).
Proof.
  intros Hr H0 Hp. unfold and_is_red, rb_is_red. destruct t as [|c l a r]; [done|]. simpl in *.
  destruct (Z.eqb_spec a 0); [subst; set_solver|]. destruct Hr as (Ha & _).
  erewrite bind_Ret by by apply pc_of_Ret. simpl. rewrite lor_col_red by done. by destruct c.
Qed.

Lemma or_is_black_Ret s p t :
  rep (nodes s) p t -> 0 ∉ inorder t -> p mod 4 = 0 -> or_is_black (ptr t) s = Ret (negb (is_red t), s).
Proof.
  intros Hr H0 Hp. unfold or_is_black, rb_is_black. destruct t as [|c l a r]; [done|]. simpl in *.
  destruct (Z.eqb_spec a 0); [subst; set_solver|]. destruct Hr as (Ha & _).
  erewrite bind_Ret by by apply pc_of_Ret. simpl. rewrite lor_col_black by done. by destruct c.
Qed.

Lemma rb_is_black_Ret s a c p r l :
  nodes s !! a = Some (mkRbNode (Z.lor p (col c)) r l) -> p mod 4 = 0 ->
  rb_is_black a s = Ret (match c with Red => false | Black => true end, s).
Proof.
  intros Ha Hp. unfold rb_is_black. erewrite bind_Ret by by apply pc_of_Ret. simpl.
  by rewrite lor_col_black.
Qed.

Lemma rb_is_red_Ret s a c p r l :
  nodes s !! a = Some (mkRbNode (Z.lor p (col c)) r l) -> p mod 4 = 0 ->
  rb_is_red a s = Ret (match c with Red => true | Black => false end, s).
Proof.
  intros Ha Hp. unfold rb_is_red. erewrite bind_Ret by by apply pc_of_Ret. simpl.
  by rewrite lor_col_red.
Qed.

Lemma rb_parent_Ret s a c p r l :
  nodes s !! a = Some (mkRbNode (Z.lor p (col c)) r l) -> p mod 4 = 0 ->
  rb_parent a s = Ret (p, s).
Proof.
  intros Ha Hp. unfold rb_parent. erewrite bind_Ret by by apply pc_of_Ret. simpl.
  by rewrite lor_col_parent.
Qed.

Lemma and_is_red_node s a c p r l :
  nodes s !! a = Some (mkRbNode (Z.lor p (col c)) r l) -> a <> 0 -> p mod 4 = 0 ->
  and_is_red a s = Ret (match c with Red => true | Black => false end, s).
Proof.
  intros Ha H0 Hp. unfold and_is_red. rewrite (proj2 (Z.eqb_neq a 0) H0). by eapply rb_is_red_Ret.
Qed.

Lemma or_is_black_node s a c p r l :
  nodes s !! a = Some (mkRbNode (Z.lor p (col c)) r l) -> a <> 0 -> p mod 4 = 0 ->
  or_is_black a s = Ret (match c with Red => false | Black => true end, s).
Proof.
  intros Ha H0 Hp. unfold or_is_black. rewrite (proj2 (Z.eqb_neq a 0) H0). by eapply rb_is_black_Ret.
Qed.

Arguments col : simpl never.

(** ** Automation for one turn of a loop

    [lk] computes a lookup in a written heap, [ne] separates addresses by
    their owners. *)
Ltac own_norm o :=
  repeat match goal with
         | H : ?b ∈ ?l, Ho : forall b, b ∈ ?l -> o b = _ |- _ => apply Ho in H
         end.

Ltac ne :=
  match goal with
  | o : Z -> nat |- _ =>
      first
        [ done
        | let Hc := fresh in
          intros Hc; rewrite ?inorder_setcol in Hc; own_norm o;
          repeat match goal with H : o ?x = _ \/ o ?x = _ |- _ =>
            match goal with
            | _ => match type of Hc with context [x] => destruct H as [H|H] end
            end end;
          congruence ]
  end.

Ltac lk :=
  cbn [on_heap nodes root];
  repeat first
    [ rewrite lookup_alter_eq
    | rewrite lookup_alter_ne by ne
    | rewrite hpc_ne by ne
    | rewrite hctx_ne by ne ].

(** Side conditions and framing. *)
Ltac rep_tac :=
  cbn [on_heap nodes root ptr];
  repeat first
    [ eassumption
    | eapply rep_alter_ne; [ne|]
    | eapply rep_hpc_ne; [ne|]
    | eapply rep_hctx_ne; [ne|]
    | eapply rep_hpc; [assumption|]
    | eapply rep_ctx_alter_ne; [ne|]
    | eapply rep_ctx_hpc_ne; [ne|]
    | eapply rep_ctx_hctx; [assumption|] ].

Ltac nodup_tac :=
  repeat (apply NoDup_cons; split; [rewrite ?not_elem_of_cons; repeat split; ne|]); assumption.

Lemma addr_ok_mod l a : addr_ok l -> a ∈ l -> a mod 4 = 0.
Proof. intros [_ H] Ha. by eapply Forall_forall in H. Qed.

Lemma addr_ok_perm l l' : addr_ok l -> l' ≡ₚ l -> addr_ok l'.
Proof. intros [H1 H2] Hp. split; by rewrite Hp. Qed.

Lemma cpar_mod l k : addr_ok (l ++ outside k) -> cpar k mod 4 = 0.
Proof.
  intros H. destruct (cpar_in k) as [->|Hin]; [done|]. eapply addr_ok_mod; [done|]. set_solver.
Qed.

Lemma addr_ok_NoDup_l l1 l2 : addr_ok (l1 ++ l2) -> NoDup l1 /\ 0 ∉ l1 /\ NoDup l2 /\ 0 ∉ l2.
Proof.
  intros [[H0 Hnd]%NoDup_cons _]. apply NoDup_app in Hnd as (? & _ & ?). set_solver.
Qed.

(** [rb_step] runs the next statement. *)
Ltac lkup :=
  lk; match goal with H : ?h !! ?a = Some _ |- _ => rewrite H end; reflexivity.

Lemma ptr_setcol c t : ptr (setcol c t) = ptr t.
Proof. by destruct t. Qed.

Lemma lor_red p : Z.lor p (col Red) = p.
Proof. apply Z.lor_0_r. Qed.

Ltac lkfin :=
  lk; match goal with H : ?h !! ?a = Some _ |- _ => rewrite H end;
  cbn; rewrite ?lor_red, ?ptr_setcol; reflexivity.

Ltac rb_step :=
  first
    [ rewrite bind_assoc
    | erewrite bind_Ret by (eapply rb_is_black_Ret; [lkup|assumption])
    | erewrite bind_Ret by (eapply rb_is_red_Ret; [lkup|assumption])
    | erewrite bind_Ret by (eapply rb_parent_Ret; [lkup|assumption])
    | match goal with k : list frame |- _ =>
        erewrite bind_Ret by
          (eapply (rotate_Ret _ _ _ _ _ k); [nodup_tac|assumption|lkup|reflexivity|lkup|rep_tac]) end
    | erewrite bind_Ret by (eapply and_is_red_node; [lkup|ne|assumption])
    | erewrite bind_Ret by (eapply or_is_black_node; [lkup|ne|assumption])
    | erewrite bind_Ret by (eapply and_is_red_Ret; [rep_tac|ne|assumption])
    | erewrite bind_Ret by (eapply or_is_black_Ret; [rep_tac|ne|assumption])
    | erewrite bind_Ret by (eapply set_parent_color_if_Ret; [rep_tac|ne])
    | erewrite bind_Ret by (eapply pc_of_Ret; lkup)
    | erewrite bind_Ret by (eapply left_of_Ret; lkup)
    | erewrite bind_Ret by (eapply right_of_Ret; lkup)
    | erewrite bind_Ret by (eapply set_pc_Ret; lkup)
    | erewrite bind_Ret by (eapply set_left_Ret; lkup)
    | erewrite bind_Ret by (eapply set_right_Ret; lkup)
    | rewrite Z.eqb_refl
    | rewrite (proj2 (Z.eqb_neq _ _)) by ne
    | erewrite bind_Ret by reflexivity ];
  cbn [rb_parent_color rb_left rb_right on_heap nodes root spc srt slt negb ptr];
  rewrite ?lor_red.

Ltac rb_unfold :=
  unfold rb_insert_fix_body, rb_erase_fix_body, rb_red_parent, rb_set_parent_color;
  change RB_RED with (col Red); change RB_BLACK with (col Black); cbn [ptr f_addr].

(** Proves the representation of the new tree, one node at a time. *)
Ltac rep_split :=
  repeat match goal with
         | |- _ /\ _ => split
         | |- rep _ _ (T _ _ _ _) => cbn [rep]
         | |- rep _ _ E => exact I
         | |- True => exact I
         end.

(** [insert_fix] with a red uncle, the parent being a left child. *)
Lemma insert_red_uncle_l s t f1 cg g u k :
  f_color f1 = Red -> is_red u = true ->
  rep (nodes s) (f_addr f1) t -> rep_ctx (nodes s) (root s) (ptr t) (f1 :: FL cg g u :: k) ->
  addr_ok (inorder t ++ outside (f1 :: FL cg g u :: k)) ->
  exists s', rb_insert_fix_body (ptr t, f_addr f1) s = Ret (inl (g, cpar k), s') /\
    zrep s' (T Red (setcol Black (fill t f1)) g (setcol Black u)) k.
Proof.
  intros Hc1 Hu Ht (Hp & Hs1 & Hg & Hu' & Hk) Hok.
  destruct u as [|[] ul ua ur]; [done| |done]. destruct Hu' as (Hua & Hul & Hur).
  destruct f1 as [c1 p x|c1 x p]; simpl in Hc1, Hp, Hs1, Hg, Hk, Ht, Hua |- *; subst c1;
    own_facts Hok [[0]; [p]; [g]; [ua]; inorder t; inorder x; inorder ul; inorder ur; outside k];
    (eexists; split;
     [rb_unfold; repeat rb_step; reflexivity
     |split; [|split; [|eapply addr_ok_perm; [exact Hok|perm_solve]]];
      rep_split; rep_tac; lkfin]).
Qed.

Lemma insert_red_uncle_r s t f1 cg g u k :
  f_color f1 = Red -> is_red u = true ->
  rep (nodes s) (f_addr f1) t -> rep_ctx (nodes s) (root s) (ptr t) (f1 :: FR cg u g :: k) ->
  addr_ok (inorder t ++ outside (f1 :: FR cg u g :: k)) ->
  exists s', rb_insert_fix_body (ptr t, f_addr f1) s = Ret (inl (g, cpar k), s') /\
    zrep s' (T Red (setcol Black u) g (setcol Black (fill t f1))) k.
Proof.
  intros Hc1 Hu Ht (Hp & Hs1 & Hg & Hu' & Hk) Hok.
  destruct u as [|[] ul ua ur]; [done| |done]. destruct Hu' as (Hua & Hul & Hur).
  destruct f1 as [c1 p x|c1 x p]; simpl in Hc1, Hp, Hs1, Hg, Hk, Ht, Hua |- *; subst c1;
    own_facts Hok [[0]; [p]; [g]; [ua]; inorder t; inorder x; inorder ul; inorder ur; outside k];
    (eexists; split;
     [rb_unfold; repeat rb_step; reflexivity
     |split; [|split; [|eapply addr_ok_perm; [exact Hok|perm_solve]]];
      rep_split; rep_tac; lkfin]).
Qed.

(** ... with a black uncle: one or two rotations end the loop. *)
Lemma insert_rotate_ll s t p x cg g u k :
  is_red u = false -> rep (nodes s) p t -> t <> E ->
  rep_ctx (nodes s) (root s) (ptr t) (FL Red p x :: FL cg g u :: k) ->
  addr_ok (inorder t ++ outside (FL Red p x :: FL cg g u :: k)) ->
  exists s', rb_insert_fix_body (ptr t, p) s = Ret (inr tt, s') /\
    zrep s' (T cg t p (T Red (setcol Black x) g u)) k.
Proof.
  intros Hu Ht HE (Hp & Hs1 & Hg & Hu' & Hk) Hok. simpl in Hp, Hs1, Hg, Hk, Hu'.
  destruct t as [|[] nl n nr]; [done|..]; destruct Ht as (Hn & Hnl & Hnr); simpl in Hp;
  own_facts Hok [[0]; [p]; [g]; [n]; inorder nl; inorder nr; inorder x; inorder u; outside k];
  (eexists; split;
     [rb_unfold; repeat rb_step; rewrite Hu; repeat rb_step; reflexivity
     |split; [|split; [|eapply addr_ok_perm; [exact Hok|perm_solve]]];
      rep_split; rep_tac; lkfin]).
Qed.

Lemma insert_rotate_lr s nl n nr p x cg g u k :
  is_red u = false -> rep (nodes s) p (T Red nl n nr) ->
  rep_ctx (nodes s) (root s) n (FR Red x p :: FL cg g u :: k) ->
  addr_ok (inorder (T Red nl n nr) ++ outside (FR Red x p :: FL cg g u :: k)) ->
  exists s', rb_insert_fix_body (n, p) s = Ret (inr tt, s') /\
    zrep s' (T cg (T Red x p (setcol Black nl)) n (T Red (setcol Black nr) g u)) k.
Proof.
  intros Hu (Hn & Hnl & Hnr) (Hp & Hs1 & Hg & Hu' & Hk) Hok. simpl in Hp, Hs1, Hg, Hk, Hu'.
  own_facts Hok [[0]; [p]; [g]; [n]; inorder nl; inorder nr; inorder x; inorder u; outside k];
  (eexists; split;
     [rb_unfold; repeat rb_step; rewrite Hu; repeat rb_step; reflexivity
     |split; [|split; [|eapply addr_ok_perm; [exact Hok|perm_solve]]];
      rep_split; rep_tac; lkfin]).
Qed.

Lemma insert_rotate_rr s t p x cg g u k :
  is_red u = false -> rep (nodes s) p t -> t <> E ->
  rep_ctx (nodes s) (root s) (ptr t) (FR Red x p :: FR cg u g :: k) ->
  addr_ok (inorder t ++ outside (FR Red x p :: FR cg u g :: k)) ->
  exists s', rb_insert_fix_body (ptr t, p) s = Ret (inr tt, s') /\
    zrep s' (T cg (T Red u g (setcol Black x)) p t) k.
Proof.
  intros Hu Ht HE (Hp & Hs1 & Hg & Hu' & Hk) Hok. simpl in Hp, Hs1, Hg, Hk, Hu'.
  destruct t as [|[] nl n nr]; [done|..]; destruct Ht as (Hn & Hnl & Hnr); simpl in Hp;
  own_facts Hok [[0]; [p]; [g]; [n]; inorder nl; inorder nr; inorder x; inorder u; outside k];
  (eexists; split;
     [rb_unfold; repeat rb_step; rewrite Hu; repeat rb_step; reflexivity
     |split; [|split; [|eapply addr_ok_perm; [exact Hok|perm_solve]]];
      rep_split; rep_tac; lkfin]).
Qed.

Lemma insert_rotate_rl s nl n nr p x cg g u k :
  is_red u = false -> rep (nodes s) p (T Red nl n nr) ->
  rep_ctx (nodes s) (root s) n (FL Red p x :: FR cg u g :: k) ->
  addr_ok (inorder (T Red nl n nr) ++ outside (FL Red p x :: FR cg u g :: k)) ->
  exists s', rb_insert_fix_body (n, p) s = Ret (inr tt, s') /\
    zrep s' (T cg (T Red u g (setcol Black nl)) n (T Red (setcol Black nr) p x)) k.
Proof.
  intros Hu (Hn & Hnl & Hnr) (Hp & Hs1 & Hg & Hu' & Hk) Hok. simpl in Hp, Hs1, Hg, Hk, Hu'.
  own_facts Hok [[0]; [p]; [g]; [n]; inorder nl; inorder nr; inorder x; inorder u; outside k];
  (eexists; split;
     [rb_unfold; repeat rb_step; rewrite Hu; repeat rb_step; reflexivity
     |split; [|split; [|eapply addr_ok_perm; [exact Hok|perm_solve]]];
      rep_split; rep_tac; lkfin]).
Qed.

(** ** Moving the focus *)
Lemma zrep_up s t f k : zrep s t (f :: k) -> zrep s (fill t f) k.
Proof.
  intros (Ht & (Hf & Hs & Hk) & Hok). split; [|split].
  - by destruct f.
  - by destruct f.
  - eapply addr_ok_perm; [exact Hok|]. destruct f; perm_solve.
Qed.

Lemma zrep_plug s t k : zrep s t k -> tree_rep s (plug t k).
Proof. revert t. induction k as [|f k IH]; intros t H; [done|]. apply IH. by apply zrep_up. Qed.

Lemma zrep_down_l s c l a r k : zrep s (T c l a r) k -> zrep s l (FL c a r :: k).
Proof.
  intros ((Ha & Hl & Hr) & Hk & Hok). split; [done|]. split; [done|].
  eapply addr_ok_perm; [exact Hok|perm_solve].
Qed.

Lemma zrep_down_r s c l a r k : zrep s (T c l a r) k -> zrep s r (FR c l a :: k).
Proof.
  intros ((Ha & Hl & Hr) & Hk & Hok). split; [done|]. split; [done|].
  eapply addr_ok_perm; [exact Hok|perm_solve].
Qed.

Lemma plug_focus a t k0 :
  a ∈ inorder t -> exists c l r k, plug t k0 = plug (T c l a r) k.
Proof.
  revert k0. induction t as [|c l IHl b r IHr]; intros k0 Ha; [by apply elem_of_nil in Ha|].
  simpl in Ha. apply elem_of_app in Ha as [Ha|[->|Ha]%elem_of_cons].
  - destruct (IHl (FL c b r :: k0) Ha) as (c' & l' & r' & k & E). by exists c', l', r', k.
  - by exists c, l, r, k0.
  - destruct (IHr (FR c l b :: k0) Ha) as (c' & l' & r' & k & E). by exists c', l', r', k.
Qed.

Lemma zrep_unplug s t k : tree_rep s (plug t k) -> zrep s t k.
Proof.
  revert t. induction k as [|f k IH]; intros t H; [done|]. cbn [plug] in H. apply IH in H.
  destruct f; [by apply zrep_down_l|by apply zrep_down_r].
Qed.

(** The nodes of the tree are nodes of the heap. *)
Lemma rep_alloc h p t a : rep h p t -> a ∈ inorder t -> is_Some (h !! a).
Proof.
  revert p. induction t as [|c l IHl b r IHr]; intros p H Ha; [by apply elem_of_nil in Ha|].
  destruct H as (Hb & Hl & Hr). simpl in Ha. apply elem_of_app in Ha as [Ha|[->|Ha]%elem_of_cons]; eauto.
Qed.

Lemma size_bound (h : heap) l :
  NoDup l -> (forall a, a ∈ l -> is_Some (h !! a)) -> (length l <= size h)%nat.
Proof.
  intros Hnd Hin. rewrite <- size_dom, <- (size_list_to_set (C := gset Z) l Hnd).
  apply subseteq_size. intros a Ha. apply elem_of_list_to_set in Ha. by apply elem_of_dom, Hin.
Qed.

(** ** The loop of [__rb_insert_fix] *)
Lemma insert_fix_root s nl n nr :
  rep (nodes s) 0 (T Red nl n nr) -> addr_ok (inorder (T Red nl n nr)) ->
  exists s', rb_insert_fix_body (n, 0) s = Ret (inr tt, s') /\ tree_rep s' (T Black nl n nr).
Proof.
  intros (Hn & Hnl & Hnr) Hok.
  own_facts Hok [[0]; [n]; inorder nl; inorder nr].
  eexists. split; [rb_unfold; repeat rb_step; reflexivity|].
  split; [|split; [done|by rewrite app_nil_r]]. rep_split; rep_tac; lkfin.
Qed.

Lemma insert_fix_loop fuel nl n nr k s :
  (length k < fuel)%nat -> rep (nodes s) (cpar k) (T Red nl n nr) ->
  (k <> [] -> rep_ctx (nodes s) (root s) n k) ->
  addr_ok (inorder (T Red nl n nr) ++ outside k) -> cnorr k ->
  exists s', while fuel rb_insert_fix_body (n, cpar k) s = Ret (tt, s') /\
    tree_rep s' (ins_fix (T Red nl n nr) k).
Proof.
  revert fuel nl n nr s. induction k as [k IH] using (induction_ltof1 _ length).
  intros fuel nl n nr s Hfuel Ht Hk Hok Hnorr. destruct fuel as [|fuel]; [lia|]. cbn [while].
  destruct k as [|f1 k1].
  { unfold outside in Hok. simpl app in Hok. rewrite app_nil_r in Hok.
    destruct (insert_fix_root s nl n nr Ht Hok) as (s' & E & H). rewrite (bind_Ret _ _ _ _ _ E). by exists s'. }
  specialize (Hk ltac:(done)). cbn [ins_fix].
  destruct (f_color f1) eqn:Hc1.
  2: { exists s. split; [|by apply zrep_plug].
    assert (Hm : cpar k1 mod 4 = 0).
    { apply (cpar_mod (inorder (T Red nl n nr) ++ f_addr f1 :: inorder (f_sib f1))).
      eapply addr_ok_perm; [exact Hok|]. destruct f1; perm_solve. }
    assert (H0 : f_addr f1 <> 0).
    { destruct Hok as [[Hz _]%NoDup_cons _]. intros E. apply Hz. rewrite <- E. unfold outside. destruct f1; simpl; set_solver. }
    destruct Hk as (Hf & _ & _). unfold rb_insert_fix_body. cbn [cpar].
    rewrite (proj2 (Z.eqb_neq _ _) H0). rewrite bind_assoc.
    destruct f1 as [c1 p x|c1 x p]; simpl in Hc1, Hf |- *; subst c1;
      by erewrite bind_Ret by by eapply rb_is_black_Ret. }
  destruct k1 as [|f2 k]; [by destruct Hnorr as (_ & _ & [_ []])|].
  destruct (is_red (f_sib f2)) eqn:Hu.
  - assert (Hstep : exists s', rb_insert_fix_body (n, f_addr f1) s = Ret (inl (f_addr f2, cpar k), s') /\
      zrep s' (match f2 with
               | FL _ g u => T Red (setcol Black (fill (T Red nl n nr) f1)) g (setcol Black u)
               | FR _ u g => T Red (setcol Black u) g (setcol Black (fill (T Red nl n nr) f1))
               end) k).
    { destruct f2 as [cg g u|cg u g];
        [eapply (insert_red_uncle_l s (T Red nl n nr))|eapply (insert_red_uncle_r s (T Red nl n nr))]; eauto. }
    destruct Hstep as (s' & E & Hs' & Hk' & Hok'). cbn [cpar]. rewrite (bind_Ret _ _ _ _ _ E).
    destruct Hnorr as (_ & (_ & Hnorr & _) & _).
    destruct f2 as [cg g u|cg u g];
      (eapply (IH k); [unfold ltof; simpl; lia|simpl in Hfuel; lia|exact Hs'|intros _; exact Hk'|exact Hok'|done]).
  - assert (Hstep : exists s', rb_insert_fix_body (n, f_addr f1) s = Ret (inr tt, s') /\
      zrep s' (match f1, f2, T Red nl n nr with
        | FL _ p pr, FL cg g u, t => T cg t p (T Red (setcol Black pr) g u)
        | FR _ pl p, FL cg g u, _ => T cg (T Red pl p (setcol Black nl)) n (T Red (setcol Black nr) g u)
        | FR _ pl p, FR cg u g, t => T cg (T Red u g (setcol Black pl)) p t
        | FL _ p pr, FR cg u g, _ => T cg (T Red u g (setcol Black nl)) n (T Red (setcol Black nr) p pr)
        end) k).
    { destruct f1 as [c1 p x|c1 x p], f2 as [cg g u|cg u g]; simpl in Hc1; subst c1.
      - by eapply (insert_rotate_ll s (T Red nl n nr)).
      - by eapply insert_rotate_rl.
      - by eapply insert_rotate_lr.
      - by eapply (insert_rotate_rr s (T Red nl n nr)). }
    destruct Hstep as (s' & E & Hs'). cbn [cpar]. rewrite (bind_Ret _ _ _ _ _ E). exists s'.
    split; [done|]. apply zrep_plug in Hs'. by destruct f1, f2.
Qed.
