(* ===== verification/RBOps.v ===== *)
(** * Correctness of _rb_insert, _rb_lookup and _rb_first (common/rbtree.c)

    The search functions against a strict order [cmp] on nodes, and the
    theorems that the code keeps a red-black search tree. *)
From stdpp Require Import base gmap list sorting.
From Stdlib Require Import ZArith Lia.
From S2P Require Import Prelude RBTree RBSpec RBRefine.

Section ordered.
Context (cmp : Z -> Z -> bool).
Context (cmp_trans : forall a b c, cmp a b = true -> cmp b c = true -> cmp a c = true).

Abbreviation lt a b := (cmp a b = true).
Abbreviation sorted l := (StronglySorted (fun a b => cmp a b = true) l).

(** Where the descent for [x] ends. *)
Fixpoint find_leaf (x : Z) (t : tree) (k : context) : option context :=
  match t with
  | E => Some k
  | T c l a r =>
      if cmp x a then find_leaf x l (FL c a r :: k)
      else if cmp a x then find_leaf x r (FR c l a :: k)
      else None
  end.

Fixpoint find_eq (x : Z) (t : tree) : Z :=
  match t with
  | E => 0
  | T _ l a r => if cmp x a then find_eq x l else if cmp a x then find_eq x r else a
  end.

Lemma find_leaf_plug x t k k' : find_leaf x t k = Some k' -> plug E k' = plug t k.
Proof.
  revert k. induction t as [|c l IHl a r IHr]; intros k H; simpl in H; [by simplify_eq|].
  destruct (cmp x a); [by apply IHl in H|]. destruct (cmp a x); [by apply IHr in H|done].
Qed.

Lemma sorted_mid l1 a l2 :
  sorted (l1 ++ a :: l2) -> (forall b, b ∈ l1 -> lt b a) /\ (forall b, b ∈ l2 -> lt a b).
Proof.
  intros H. apply StronglySorted_app in H as (H1 & H2 & H3). split.
  - intros b Hb. apply H1; [done|by left].
  - apply StronglySorted_inv in H3 as [_ H3]. rewrite Forall_forall in H3. done.
Qed.

Lemma find_leaf_bounds x t k k' :
  sorted (before k ++ inorder t ++ after k) ->
  (forall b, b ∈ before k -> lt b x) -> (forall b, b ∈ after k -> lt x b) ->
  find_leaf x t k = Some k' ->
  (forall b, b ∈ before k' -> lt b x) /\ (forall b, b ∈ after k' -> lt x b).
Proof.
  revert k. induction t as [|c l IHl a r IHr]; intros k Hs Hb Ha Hf; simpl in Hf; [by simplify_eq|].
  cbn [inorder] in Hs.
  assert (Hs' : sorted ((before k ++ inorder l) ++ a :: inorder r ++ after k)) by (revert Hs; by app_norm).
  destruct (sorted_mid _ _ _ Hs') as [Hla Hra].
  destruct (cmp x a) eqn:Hxa.
  - eapply (IHl (FL c a r :: k)); [|done| |done]; cbn [before after].
    + revert Hs. by app_norm.
    + intros b [->|[Hr|Hk]%elem_of_app]%elem_of_cons; [done| |by apply Ha].
      eapply cmp_trans; [done|]. apply Hra. by apply elem_of_app; left.
  - destruct (cmp a x) eqn:Hax; [|done].
    eapply (IHr (FR c l a :: k)); [| |done|done]; cbn [before after].
    + revert Hs. by app_norm.
    + intros b [Hk|[Hl| ->%list_elem_of_singleton]%elem_of_app]%elem_of_app; [by apply Hb| |done].
      eapply cmp_trans; [|done]. apply Hla. by apply elem_of_app; right.
Qed.

Lemma find_leaf_None x t k :
  find_leaf x t k = None -> exists a, a ∈ inorder t /\ cmp x a = false /\ cmp a x = false /\ find_eq x t = a.
Proof.
  revert k. induction t as [|c l IHl a r IHr]; intros k H; simpl in H; [done|]. simpl.
  destruct (cmp x a) eqn:Hxa.
  - destruct (IHl _ H) as (b & ? & ?). exists b. split; [set_solver|done].
  - destruct (cmp a x) eqn:Hax.
    + destruct (IHr _ H) as (b & ? & ?). exists b. split; [set_solver|done].
    + exists a. split; [set_solver|done].
Qed.

Lemma find_leaf_fresh x t k k' :
  sorted (before k ++ inorder t ++ after k) ->
  (forall b, b ∈ before k -> lt b x) -> (forall b, b ∈ after k -> lt x b) ->
  find_leaf x t k = Some k' ->
  forall a, a ∈ inorder t -> cmp x a = true \/ cmp a x = true.
Proof.
  intros Hs Hb Ha Hf a Hin. destruct (find_leaf_bounds _ _ _ _ Hs Hb Ha Hf) as [H1 H2].
  assert (Ho : a ∈ before k' ++ after k').
  { pose proof (find_leaf_plug _ _ _ _ Hf) as E. apply (f_equal inorder) in E.
    rewrite !inorder_plug in E. simpl in E. rewrite E. set_solver. }
  apply elem_of_app in Ho as [?%H1|?%H2]; auto.
Qed.

(** ** The descent of [_rb_insert] *)
Definition linked_in (s : rbst) (x : Z) (k : context) : Prop :=
  rep (nodes s) (cpar k) (T Red E x E) /\ (k <> [] -> rep_ctx (nodes s) (root s) x k) /\
  addr_ok (inorder (T Red E x E) ++ outside k).

(** Linking [x] below a node with an empty child. *)
Lemma link_left s x c a r k :
  zrep s (T c E a r) k -> nodes s !! x = Some (mkRbNode 0 0 0) ->
  addr_ok (x :: inorder (T c E a r) ++ outside k) ->
  exists s', (set_left a x ;;; set_pc x a) s = Ret (tt, s') /\ linked_in s' x (FL c a r :: k).
Proof.
  intros ((Ha & _ & Hr) & Hk & _) Hx Hok. simpl in Ha, Hk.
  own_facts Hok [[0]; [x]; [a]; inorder r; outside k].
  exists (on_heap (alter (spc a) x) (on_heap (alter (slt x) a) s)). split.
  { rb_step. by erewrite set_pc_Ret by lkup. }
  split; [|split; [intros _|eapply addr_ok_perm; [exact Hok|perm_solve]]].
  - rep_split; rep_tac; lkfin.
  - cbn [rep_ctx f_addr f_sib]. rep_split; rep_tac; lkfin.
Qed.

Lemma link_right s x c a l k :
  zrep s (T c l a E) k -> nodes s !! x = Some (mkRbNode 0 0 0) ->
  addr_ok (x :: inorder (T c l a E) ++ outside k) ->
  exists s', (set_right a x ;;; set_pc x a) s = Ret (tt, s') /\ linked_in s' x (FR c l a :: k).
Proof.
  intros ((Ha & Hl & _) & Hk & _) Hx Hok. simpl in Ha, Hk.
  own_facts Hok [[0]; [x]; [a]; inorder l; outside k].
  exists (on_heap (alter (spc a) x) (on_heap (alter (srt x) a) s)). split.
  { rb_step. by erewrite set_pc_Ret by lkup. }
  split; [|split; [intros _|eapply addr_ok_perm; [exact Hok|perm_solve]]].
  - rep_split; rep_tac; lkfin.
  - cbn [rep_ctx f_addr f_sib]. rep_split; rep_tac; lkfin.
Qed.

Lemma descend_spec x t k s fuel par :
  zrep s t k -> nodes s !! x = Some (mkRbNode 0 0 0) -> addr_ok (x :: inorder t ++ outside k) ->
  t <> E -> (length (inorder t) < fuel)%nat ->
  match find_leaf x t k with
  | None => while fuel (rb_insert_descend cmp x) (ptr t, par) s = Ret (false, s)
  | Some k' => exists s', while fuel (rb_insert_descend cmp x) (ptr t, par) s = Ret (true, s') /\
                 linked_in s' x k'
  end.
Proof.
  revert k fuel par. induction t as [|c l IHl a r IHr]; intros k fuel par Hz Hx Hok HE Hfuel; [done|].
  destruct fuel as [|fuel]; [lia|].
  assert (Ha0 : a <> 0). { destruct Hz as (_ & _ & [[Hz _]%NoDup_cons _]). simpl in Hz. set_solver. }
  simpl in Hfuel. rewrite length_app in Hfuel. simpl in Hfuel.
  pose proof Hz as ((Hna & _ & _) & _).
  cbn [while find_leaf ptr]. unfold rb_insert_descend at 1 3.
  rewrite (proj2 (Z.eqb_neq _ _) Ha0). destruct (cmp x a).
  - rewrite bind_assoc. erewrite !bind_Ret by by apply left_of_Ret. cbn [rb_left].
    destruct l as [|lc ll la lr].
    + destruct (link_left _ _ _ _ _ _ Hz Hx Hok) as (s' & E & Hl). simpl.
      exists s'. split; [|done]. unfold when. rewrite bind_assoc. erewrite bind_Ret by exact E.
      destruct fuel; [lia|]. done.
    + assert (Hla0 : la <> 0). { destruct Hz as (_ & _ & [[Hz' _]%NoDup_cons _]). simpl in Hz'. set_solver. }
      cbn [ptr]. rewrite (proj2 (Z.eqb_neq _ _) Hla0). unfold when.
      apply (IHl (FL c a r :: k) fuel a); [by apply zrep_down_l|done| |done|lia].
      eapply addr_ok_perm; [exact Hok|perm_solve].
  - destruct (cmp a x); [|done].
    rewrite bind_assoc. erewrite !bind_Ret by by apply right_of_Ret. cbn [rb_right].
    destruct r as [|rc rl ra rr].
    + destruct (link_right _ _ _ _ _ _ Hz Hx Hok) as (s' & E & Hl). simpl.
      exists s'. split; [|done]. unfold when. rewrite bind_assoc. erewrite bind_Ret by exact E.
      destruct fuel; [lia|]. done.
    + assert (Hra0 : ra <> 0). { destruct Hz as (_ & _ & [[Hz' _]%NoDup_cons _]). simpl in Hz'. set_solver. }
      cbn [ptr]. rewrite (proj2 (Z.eqb_neq _ _) Hra0). unfold when.
      apply (IHr (FR c l a :: k) fuel a); [by apply zrep_down_r|done| |done|lia].
      eapply addr_ok_perm; [exact Hok|perm_solve].
Qed.

(** ** [_rb_insert] *)
Lemma length_outside k : (length k <= length (outside k))%nat.
Proof.
  unfold outside. rewrite length_app. induction k as [|[c a r|c l a] k IH]; simpl; [lia|..];
    rewrite ?length_app; simpl; lia.
Qed.

Lemma tree_rep_length s t : tree_rep s t -> (length (inorder t) <= size (nodes s))%nat.
Proof.
  intros (Hr & _ & Hok). apply size_bound; [by apply addr_ok_NoDup_l in Hok as [? _]|].
  intros a. by apply rep_alloc with (p := 0).
Qed.

(** The state after the three writes to the new node. *)
Lemma insert_init (s : rbst) x (n0 : rb_node_) t :
  nodes s !! x = Some n0 -> x ∉ inorder t -> tree_rep s t ->
  exists s1, (forall A (m : M rbst A), (set_right x 0 ;;; set_left x 0 ;;; set_pc x 0 ;;; m) s = m s1) /\
    nodes s1 !! x = Some (mkRbNode 0 0 0) /\ root s1 = root s /\ tree_rep s1 t.
Proof.
  intros Hx Hni (Hr & Hk & Hok).
  exists (on_heap (alter (spc 0) x) (on_heap (alter (slt 0) x) (on_heap (alter (srt 0) x) s))).
  split; [|split; [|split]].
  - intros A m. erewrite bind_Ret by by eapply set_right_Ret.
    erewrite bind_Ret by (eapply set_left_Ret; simpl; by rewrite lookup_alter_eq, Hx).
    erewrite bind_Ret by (eapply set_pc_Ret; simpl; rewrite !lookup_alter_eq, Hx; done). done.
  - simpl. by rewrite !lookup_alter_eq, Hx.
  - done.
  - split; [|by split]. simpl. by repeat apply rep_alter_ne.
Qed.

Lemma sorted_insert x l1 l2 :
  sorted (l1 ++ l2) -> (forall b, b ∈ l1 -> lt b x) -> (forall b, b ∈ l2 -> lt x b) ->
  sorted (l1 ++ x :: l2).
Proof.
  intros (H1 & H2 & H3)%StronglySorted_app Hb Ha. apply StronglySorted_app_2.
  - intros a b Ha1 [->|Hb2]%elem_of_cons; auto.
  - done.
  - constructor; [done|]. apply Forall_forall. auto.
Qed.

Lemma insert_refines s t x n0 :
  tree_rep s t -> redblack t -> sorted (inorder t) ->
  nodes s !! x = Some n0 -> addr_ok (x :: inorder t) ->
  match find_leaf x t [] with
  | Some k => exists s', _rb_insert cmp x s = Ret (0, s') /\ tree_rep s' (ins_fix (T Red E x E) k)
  | None => exists s', _rb_insert cmp x s = Ret (-1, s') /\ tree_rep s' t
  end.
Proof.
  intros Ht Hrb Hs Hx Hok.
  assert (Hni : x ∉ inorder t).
  { destruct Hok as [[_ [? _]%NoDup_cons]%NoDup_cons _]. done. }
  destruct (insert_init s x n0 t Hx Hni Ht) as (s1 & Hrun & Hx1 & Hroot & Ht1).
  assert (Hlen := tree_rep_length _ _ Ht1).
  unfold _rb_insert. erewrite bind_Ret by reflexivity. rewrite Hrun, <- Hroot.
  erewrite bind_Ret by reflexivity. pose proof Ht1 as (_ & Hr & _). simpl in Hr. rewrite Hr.
  assert (Hfix : forall k s', find_leaf x t [] = Some k -> linked_in s' x k ->
    exists s'', (__rb_insert_fix (S (size (nodes s1))) x ;;; ret 0) s' = Ret (0, s'') /\
      tree_rep s'' (ins_fix (T Red E x E) k)).
  { intros k s' Hf (Hl & Hc & Ho). pose proof (find_leaf_plug _ _ _ _ Hf) as Hp.
    assert (Hk : cnorr k). { simpl in Hp. rewrite <- Hp in Hrb. by apply plug_redblack_inv in Hrb as (_ & ? & _). }
    destruct (insert_fix_loop (S (size (nodes s1))) E x E k s') as (s'' & E1 & H1); try done.
    { apply (f_equal inorder) in Hp. rewrite inorder_plug in Hp. simpl in Hp.
      pose proof (length_outside k). unfold outside in *. rewrite Hp in *. lia. }
    exists s''. split; [|done]. unfold __rb_insert_fix, rb_red_parent. rewrite bind_assoc.
    destruct Hl as (Hl & _). erewrite bind_Ret by by apply pc_of_Ret. cbn [rb_parent_color].
    rewrite lor_red. by erewrite bind_Ret. }
  destruct t as [|c l a r].
  - cbn [find_leaf ptr]. erewrite bind_Ret by reflexivity. cbn [negb]. apply (Hfix []); [done|].
    split; [done|]. split; [done|]. unfold outside. by rewrite app_nil_r.
  - pose proof (descend_spec x (T c l a r) [] s1 (S (size (nodes s1))) 0 Ht1 Hx1) as Hd.
    unfold outside in Hd. cbn [before after] in Hd. rewrite !app_nil_r in Hd.
    specialize (Hd Hok ltac:(done) ltac:(lia)).
    destruct (find_leaf x (T c l a r) []) as [k|] eqn:Hf.
    + destruct Hd as (s' & E1 & Hl). erewrite bind_Ret by exact E1. by apply Hfix.
    + exists s1. split; [|done]. erewrite bind_Ret by exact Hd. done.
Qed.

Lemma insert_search_tree t x k :
  redblack t -> sorted (inorder t) -> find_leaf x t [] = Some k ->
  let t' := ins_fix (T Red E x E) k in
  redblack t' /\ sorted (inorder t') /\ inorder t' ≡ₚ x :: inorder t.
Proof.
  intros Hrb Hs Hf t'. pose proof (find_leaf_plug _ _ _ _ Hf) as Hp. simpl in Hp.
  destruct (find_leaf_bounds x t [] k) as [Hb Ha]; simpl; rewrite ?app_nil_r; try done; try set_solver.
  pose proof (f_equal inorder Hp) as Hio. rewrite inorder_plug in Hio. simpl in Hio.
  unfold t'. rewrite ins_fix_inorder, inorder_plug, <- Hio. cbn [inorder app]. split; [|split].
  - rewrite <- Hp in Hrb. apply plug_redblack_inv in Hrb as (_ & Hk & _ & n & m & Hn & Hc).
    simpl in Hn. subst n. by eapply ins_fix_redblack.
  - apply sorted_insert; [by rewrite Hio|done..].
  - by rewrite Permutation_middle.
Qed.

(** ** [_rb_lookup] *)
Lemma lookup_loop x t h p s fuel :
  rep h p t -> h = nodes s -> 0 ∉ inorder t -> (height t < fuel)%nat ->
  while fuel (rb_lookup_body cmp x) (ptr t) s = Ret (find_eq x t, s).
Proof.
  revert p fuel. induction t as [|c l IHl a r IHr]; intros p fuel Hr -> H0 Hf;
    (destruct fuel as [|fuel]; [simpl in Hf; lia|]); [done|].
  destruct Hr as (Ha & Hl & Hr). simpl in Hf, H0.
  cbn [while find_eq ptr]. unfold rb_lookup_body at 1. rewrite (proj2 (Z.eqb_neq _ _)) by set_solver.
  destruct (cmp x a).
  - rewrite bind_assoc. erewrite bind_Ret by by apply left_of_Ret.
    apply (IHl a); [done|done|set_solver|lia].
  - destruct (cmp a x); [|done]. rewrite bind_assoc. erewrite bind_Ret by by apply right_of_Ret.
    apply (IHr a); [done|done|set_solver|lia].
Qed.

Lemma lookup_refines s t x : tree_rep s t -> _rb_lookup cmp x s = Ret (find_eq x t, s).
Proof.
  intros Ht. pose proof (tree_rep_length _ _ Ht). destruct Ht as (Hr & Hroot & Hok). simpl in Hroot.
  unfold _rb_lookup. erewrite !bind_Ret by reflexivity. rewrite Hroot.
  pose proof (height_length t). eapply lookup_loop; [done|done| |lia]. apply addr_ok_NoDup_l in Hok. tauto.
Qed.

(** What the search computes. *)
Lemma find_eq_spec x t :
  sorted (inorder t) -> 0 ∉ inorder t ->
  (find_eq x t = 0 <-> forall a, a ∈ inorder t -> cmp x a = true \/ cmp a x = true) /\
  (find_eq x t <> 0 -> find_eq x t ∈ inorder t /\ cmp x (find_eq x t) = false /\ cmp (find_eq x t) x = false).
Proof.
  intros Hs H0. destruct (find_leaf x t []) as [k|] eqn:Hf.
  - assert (Hall : forall a, a ∈ inorder t -> cmp x a = true \/ cmp a x = true).
    { eapply find_leaf_fresh; [| | |exact Hf]; simpl; rewrite ?app_nil_r; [done|set_solver..]. }
    assert (Hz : find_eq x t = 0).
    { clear -Hf. revert Hf. generalize (@nil frame).
      induction t as [|c l IHl a r IHr]; intros k0 Hf; [done|]. simpl in *.
      destruct (cmp x a); [eauto|]. destruct (cmp a x); [eauto|done]. }
    split; [|done]. by split.
  - apply find_leaf_None in Hf as (a & Ha & H1 & H2 & <-). split; [|auto].
    split; [intros E; rewrite E in Ha; done|]. intros H. apply H in Ha as [?|?]; congruence.
Qed.
End ordered.

(** ** [_rb_first] *)
Lemma first_loop l c a r h p s fuel :
  rep h p (T c l a r) -> h = nodes s -> 0 ∉ inorder (T c l a r) -> (length (inorder l) < fuel)%nat ->
  while fuel (fun n => l <- left_of n ;; if negb (l =? 0) then ret (inl l) else ret (inr n)) a s =
    Ret (hd 0 (inorder (T c l a r)), s).
Proof.
  revert c a r p fuel. induction l as [|lc ll IH la lr _]; intros c a r p fuel (Ha & Hl & Hr) -> H0 Hf;
    (destruct fuel as [|fuel]; [simpl in Hf; lia|]); cbn [while]; rewrite bind_assoc;
    (erewrite bind_Ret by (by apply left_of_Ret)); simpl; [done|].
  simpl in H0, Hf. rewrite length_app in Hf. simpl in Hf.
  rewrite (proj2 (Z.eqb_neq _ _)) by set_solver. simpl.
  etrans; [apply (IH lc la lr a fuel Hl eq_refl); [simpl; set_solver|lia]|].
  simpl. by destruct (inorder ll).
Qed.

Lemma first_refines s t : tree_rep s t -> _rb_first s = Ret (hd 0 (inorder t), s).
Proof.
  intros Ht. pose proof (tree_rep_length _ _ Ht) as Hlen. destruct Ht as (Hr & Hroot & Hok). simpl in Hroot.
  unfold _rb_first. erewrite bind_Ret by reflexivity. rewrite Hroot.
  destruct t as [|c l a r]; [done|].
  assert (H0 : 0 ∉ inorder (T c l a r)) by (apply addr_ok_NoDup_l in Hok; tauto).
  cbn [ptr]. rewrite (proj2 (Z.eqb_neq _ _)) by (simpl in H0; set_solver).
  erewrite bind_Ret by reflexivity. eapply first_loop; [done..|].
  simpl in Hlen. rewrite length_app in Hlen. lia.
Qed.
