(* ===== verification/RBErase.v ===== *)
(** * Correctness of _rb_erase (common/rbtree.c)

    [__rb_erase] computes [era_node], one turn of the loop of
    [__rb_erase_fix] computes [era_sib], and the whole removes the node and
    restores the red-black invariant. *)
From stdpp Require Import base gmap list sorting.
From Stdlib Require Import ZArith Lia.
From S2P Require Import Prelude RBTree RBSpec RBRefine RBOps.

(** ** [rb_set_parent] *)
Lemma setcol_rootcol t : setcol (rootcol t) t = t.
Proof. by destruct t. Qed.

Lemma rb_set_parent_Ret s a c p p' r l :
  nodes s !! a = Some (mkRbNode (Z.lor p (col c)) r l) -> p mod 4 = 0 ->
  rb_set_parent a p' s = Ret (tt, on_heap (alter (spc (Z.lor p' (col c))) a) s).
Proof.
  intros Ha Hp. unfold rb_set_parent. erewrite bind_Ret by by apply pc_of_Ret. simpl.
  rewrite lor_col_color by done. rewrite Z.lor_comm. by erewrite set_pc_Ret.
Qed.

Lemma set_parent_if_Ret s q t p' :
  rep (nodes s) q t -> 0 ∉ inorder t -> q mod 4 = 0 ->
  when (negb (ptr t =? 0)) (rb_set_parent (ptr t) p') s =
    Ret (tt, on_heap (hpc t (Z.lor p' (col (rootcol t)))) s).
Proof.
  intros Hr H0 Hq. unfold when. destruct t as [|ct l a r]; simpl; [by destruct s|].
  destruct Hr as (Hn & _).
  destruct (Z.eqb_spec a 0); [subst; simpl in H0; set_solver|]. simpl. by eapply rb_set_parent_Ret.
Qed.

Lemma rep_hpc_same h p p' t :
  NoDup (inorder t) -> rep h p t -> rep (hpc t (Z.lor p' (col (rootcol t))) h) p' t.
Proof. intros H1 H2. pose proof (rep_hpc h p p' t (rootcol t) H1 H2) as H. by rewrite setcol_rootcol in H. Qed.

Ltac rb_estep :=
  first
    [ erewrite bind_Ret by (eapply set_parent_if_Ret; [rep_tac|ne|assumption])
    | rb_step ].

Ltac rep_etac :=
  rep_tac; repeat first [eapply rep_hpc_same; [assumption|] | progress rep_tac].

(** ** One turn of the loop, the sibling being black *)
Definition erase_tail_l (parent sibling : Z) : M rbst (Z * Z + unit) :=
  tmp1 <- right_of sibling ;;
  b1 <- or_is_black tmp1 ;;
  tb <- (if b1 : bool then
           tmp2 <- left_of sibling ;; b2 <- or_is_black tmp2 ;; ret (tmp2, b2)
         else ret (0, false)) ;;
  let '(tmp2, b2) := tb in
  if b1 && b2 then
    rb_set_parent_color sibling parent RB_RED ;;;
    red <- rb_is_red parent ;;
    if red : bool then rb_set_black parent ;;; ret (inr tt)
    else
      p <- rb_parent parent ;;
      if negb (p =? 0) then ret (inl (parent, p)) else ret (inr tt)
  else
    ts <- (if b1 then
             tmp1 <- right_of tmp2 ;;
             set_left sibling tmp1 ;;;
             set_parent_color_if tmp1 sibling RB_BLACK ;;;
             set_right tmp2 sibling ;;;
             set_right parent tmp2 ;;;
             ret (sibling, tmp2)
           else ret (tmp1, sibling)) ;;
    let '(tmp1, sibling) := ts in
    tmp2 <- left_of sibling ;;
    set_right parent tmp2 ;;;
    when (negb (tmp2 =? 0)) (rb_set_parent tmp2 parent) ;;;
    set_left sibling parent ;;;
    rb_set_parent_color tmp1 sibling RB_BLACK ;;;
    __rb_rotate_set_parents parent sibling RB_BLACK ;;;
    ret (inr tt).

Definition next_turn (d : bool) (p : Z) (k : context) : Z * Z + unit :=
  if d && negb (cpar k =? 0) then inl (p, cpar k) else inr tt.

Lemma erase_case4_l s t cp p sl a sr k :
  is_red sr = true -> zrep s t (FL cp p (T Black sl a sr) :: k) ->
  exists s', erase_tail_l p a s = Ret (inr tt, s') /\
    zrep s' (T cp (T Black t p sl) a (setcol Black sr)) k.
Proof.
  intros Hsr (Ht & (Hp & (Ha & Hsl & Hsr') & Hk) & Hok). simpl in Ht, Hp, Ha, Hsl, Hsr', Hk.
  destruct sr as [|[] rl ra rr]; [done| |done]. destruct Hsr' as (Hra & Hrl & Hrr). simpl in Ha.
  own_facts Hok [[0]; [p]; [a]; [ra]; inorder t; inorder sl; inorder rl; inorder rr; outside k].
  eexists. split.
  { unfold erase_tail_l. rb_unfold. repeat rb_estep. cbn [andb]. repeat rb_estep. reflexivity. }
  split; [|split; [|eapply addr_ok_perm; [exact Hok|perm_solve]]]; cbn [setcol]; rep_split; rep_etac; lkfin.
Qed.

Lemma erase_case3_l s t cp p la l2 lb a sr k :
  is_red sr = false -> zrep s t (FL cp p (T Black (T Red la l2 lb) a sr) :: k) ->
  exists s', erase_tail_l p a s = Ret (inr tt, s') /\
    zrep s' (T cp (T Black t p la) l2 (T Black (setcol Black lb) a sr)) k.
Proof.
  intros Hr (Ht & (Hp & (Ha & (Hl2 & Hla & Hlb) & Hsr) & Hk) & Hok). simpl in Ht, Hp, Ha, Hl2, Hla, Hlb, Hsr, Hk.
  own_facts Hok [[0]; [p]; [a]; [l2]; inorder t; inorder la; inorder lb; inorder sr; outside k].
  eexists. split.
  { unfold erase_tail_l. rb_unfold. repeat rb_estep. rewrite Hr. cbn [negb]. repeat rb_estep. cbn [andb].
    repeat rb_estep. reflexivity. }
  split; [|split; [|eapply addr_ok_perm; [exact Hok|perm_solve]]]; cbn [setcol]; rep_split; rep_etac; lkfin.
Qed.

Lemma erase_case2_l s t cp p sl a sr k :
  is_red sl = false -> is_red sr = false -> zrep s t (FL cp p (T Black sl a sr) :: k) ->
  exists s', erase_tail_l p a s =
      Ret (next_turn (match cp with Red => false | Black => true end) p k, s') /\
    zrep s' (T Black t p (T Red sl a sr)) k.
Proof.
  intros Hrl Hrr (Ht & (Hp & (Ha & Hsl & Hsr) & Hk) & Hok). simpl in Ht, Hp, Ha, Hsl, Hsr, Hk.
  own_facts Hok [[0]; [p]; [a]; inorder t; inorder sl; inorder sr; outside k].
  unfold erase_tail_l, rb_set_black, next_turn. destruct cp; cbn [andb].
  - eexists. split.
    { rb_unfold. repeat rb_estep. rewrite Hrr. cbn [negb]. repeat rb_estep. rewrite Hrl. cbn [negb andb].
      repeat rb_estep. reflexivity. }
    split; [|split; [|eapply addr_ok_perm; [exact Hok|perm_solve]]]; rep_split; rep_etac; lkfin.
  - exists (on_heap (alter (spc (Z.lor p (col Red))) a) s). split.
    { rb_unfold. repeat rb_estep. rewrite Hrr. cbn [negb]. repeat rb_estep. rewrite Hrl. cbn [negb andb].
      repeat rb_estep. by destruct (cpar k =? 0). }
    split; [|split; [|eapply addr_ok_perm; [exact Hok|perm_solve]]]; rep_split; rep_etac; lkfin.
Qed.

(** The mirror images. *)
Definition erase_tail_r (parent sibling : Z) : M rbst (Z * Z + unit) :=
  tmp1 <- left_of sibling ;;
  b1 <- or_is_black tmp1 ;;
  tb <- (if b1 : bool then
           tmp2 <- right_of sibling ;; b2 <- or_is_black tmp2 ;; ret (tmp2, b2)
         else ret (0, false)) ;;
  let '(tmp2, b2) := tb in
  if b1 && b2 then
    rb_set_parent_color sibling parent RB_RED ;;;
    red <- rb_is_red parent ;;
    if red : bool then rb_set_black parent ;;; ret (inr tt)
    else
      p <- rb_parent parent ;;
      if negb (p =? 0) then ret (inl (parent, p)) else ret (inr tt)
  else
    ts <- (if b1 then
             tmp1 <- left_of tmp2 ;;
             set_right sibling tmp1 ;;;
             set_parent_color_if tmp1 sibling RB_BLACK ;;;
             set_left tmp2 sibling ;;;
             set_left parent tmp2 ;;;
             ret (sibling, tmp2)
           else ret (tmp1, sibling)) ;;
    let '(tmp1, sibling) := ts in
    tmp2 <- right_of sibling ;;
    set_left parent tmp2 ;;;
    when (negb (tmp2 =? 0)) (rb_set_parent tmp2 parent) ;;;
    set_right sibling parent ;;;
    rb_set_parent_color tmp1 sibling RB_BLACK ;;;
    __rb_rotate_set_parents parent sibling RB_BLACK ;;;
    ret (inr tt).

Lemma erase_case4_r s t cp p sl a sr k :
  is_red sl = true -> zrep s t (FR cp (T Black sl a sr) p :: k) ->
  exists s', erase_tail_r p a s = Ret (inr tt, s') /\
    zrep s' (T cp (setcol Black sl) a (T Black sr p t)) k.
Proof.
  intros Hsl (Ht & (Hp & (Ha & Hsl' & Hsr) & Hk) & Hok). simpl in Ht, Hp, Ha, Hsl', Hsr, Hk.
  destruct sl as [|[] ll la lr]; [done| |done]. destruct Hsl' as (Hla & Hll & Hlr). simpl in Ha.
  own_facts Hok [[0]; [p]; [a]; [la]; inorder t; inorder sr; inorder ll; inorder lr; outside k].
  eexists. split.
  { unfold erase_tail_r. rb_unfold. repeat rb_estep. cbn [andb]. repeat rb_estep. reflexivity. }
  split; [|split; [|eapply addr_ok_perm; [exact Hok|perm_solve]]]; cbn [setcol]; rep_split; rep_etac; lkfin.
Qed.

Lemma erase_case3_r s t cp p sl a ra r2 rb k :
  is_red sl = false -> zrep s t (FR cp (T Black sl a (T Red ra r2 rb)) p :: k) ->
  exists s', erase_tail_r p a s = Ret (inr tt, s') /\
    zrep s' (T cp (T Black sl a (setcol Black ra)) r2 (T Black rb p t)) k.
Proof.
  intros Hr (Ht & (Hp & (Ha & Hsl & (Hr2 & Hra & Hrb)) & Hk) & Hok). simpl in Ht, Hp, Ha, Hr2, Hra, Hrb, Hsl, Hk.
  own_facts Hok [[0]; [p]; [a]; [r2]; inorder t; inorder ra; inorder rb; inorder sl; outside k].
  eexists. split.
  { unfold erase_tail_r. rb_unfold. repeat rb_estep. rewrite Hr. cbn [negb]. repeat rb_estep. cbn [andb].
    repeat rb_estep. reflexivity. }
  split; [|split; [|eapply addr_ok_perm; [exact Hok|perm_solve]]]; cbn [setcol]; rep_split; rep_etac; lkfin.
Qed.

Lemma erase_case2_r s t cp p sl a sr k :
  is_red sl = false -> is_red sr = false -> zrep s t (FR cp (T Black sl a sr) p :: k) ->
  exists s', erase_tail_r p a s =
      Ret (next_turn (match cp with Red => false | Black => true end) p k, s') /\
    zrep s' (T Black (T Red sl a sr) p t) k.
Proof.
  intros Hrl Hrr (Ht & (Hp & (Ha & Hsl & Hsr) & Hk) & Hok). simpl in Ht, Hp, Ha, Hsl, Hsr, Hk.
  own_facts Hok [[0]; [p]; [a]; inorder t; inorder sl; inorder sr; outside k].
  unfold erase_tail_r, rb_set_black, next_turn. destruct cp; cbn [andb].
  - eexists. split.
    { rb_unfold. repeat rb_estep. rewrite Hrl. cbn [negb]. repeat rb_estep. rewrite Hrr. cbn [negb andb].
      repeat rb_estep. reflexivity. }
    split; [|split; [|eapply addr_ok_perm; [exact Hok|perm_solve]]]; rep_split; rep_etac; lkfin.
  - exists (on_heap (alter (spc (Z.lor p (col Red))) a) s). split.
    { rb_unfold. repeat rb_estep. rewrite Hrl. cbn [negb]. repeat rb_estep. rewrite Hrr. cbn [negb andb].
      repeat rb_estep. by destruct (cpar k =? 0). }
    split; [|split; [|eapply addr_ok_perm; [exact Hok|perm_solve]]]; rep_split; rep_etac; lkfin.
Qed.

(** A turn with a black sibling is [era_sib]. *)
Definition erase_tail (f : frame) : Z -> Z -> M rbst (Z * Z + unit) :=
  match f with FL _ _ _ => erase_tail_l | FR _ _ _ => erase_tail_r end.

Lemma erase_tail_spec s t f k :
  f_sib f <> E -> rootcol (f_sib f) = Black -> zrep s t (f :: k) ->
  exists s', erase_tail f (f_addr f) (ptr (f_sib f)) s =
      Ret (next_turn (era_sib t f).2 (f_addr f) k, s') /\
    zrep s' (era_sib t f).1 k.
Proof.
  intros HE Hb Hz. destruct f as [cp p [|[] sl a sr]|cp [|[] sl a sr] p]; try done; unfold era_sib; simpl.
  - destruct (is_red sr) eqn:Hsr; [by apply erase_case4_l|].
    destruct sl as [|[] la l2 lb]; [by apply erase_case2_l|by apply erase_case3_l|by apply erase_case2_l].
  - destruct (is_red sl) eqn:Hsl; [by apply erase_case4_r|].
    destruct sr as [|[] la l2 lb]; [by apply erase_case2_r|by apply erase_case3_r|by apply erase_case2_r].
Qed.

(** ** A whole turn *)
Lemma erase_body_eq node parent :
  rb_erase_fix_body (node, parent) =
    (sibling <- right_of parent ;;
     if negb (node =? sibling) then
       red <- rb_is_red sibling ;;
       sibling <- (if red : bool then
                     tmp1 <- left_of sibling ;;
                     set_right parent tmp1 ;;;
                     rb_set_parent_color tmp1 parent RB_BLACK ;;;
                     set_left sibling parent ;;;
                     __rb_rotate_set_parents parent sibling RB_RED ;;;
                     ret tmp1
                   else ret sibling) ;;
       erase_tail_l parent sibling
     else
       sibling <- left_of parent ;;
       red <- rb_is_red sibling ;;
       sibling <- (if red : bool then
                     tmp1 <- right_of sibling ;;
                     set_left parent tmp1 ;;;
                     rb_set_parent_color tmp1 parent RB_BLACK ;;;
                     set_right sibling parent ;;;
                     __rb_rotate_set_parents parent sibling RB_RED ;;;
                     ret tmp1
                   else ret sibling) ;;
       erase_tail_r parent sibling).
Proof. reflexivity. Qed.

Lemma erase_body_black s t f k :
  f_sib f <> E -> rootcol (f_sib f) = Black -> zrep s t (f :: k) ->
  rb_erase_fix_body (ptr t, f_addr f) s = erase_tail f (f_addr f) (ptr (f_sib f)) s.
Proof.
  intros HE Hb (Ht & (Hp & Hs & Hk) & Hok).
  destruct f as [cp p [|[] sl a sr]|cp [|[] sl a sr] p]; try done; destruct Hs as (Ha & _);
    simpl in Hp, Ha; cbn [f_addr f_sib ptr erase_tail];
    own_facts Hok [[0]; [p]; [a]; inorder t; inorder sl; inorder sr; outside k];
    rewrite erase_body_eq; rb_unfold; repeat rb_estep; done.
Qed.

Lemma erase_body_red_l s t cp p sl a sr k :
  sl <> E -> zrep s t (FL cp p (T Red sl a sr) :: k) ->
  exists s', rb_erase_fix_body (ptr t, p) s = erase_tail_l p (ptr sl) s' /\
    zrep s' t (FL Red p (setcol Black sl) :: FL cp a sr :: k).
Proof.
  intros HE (Ht & (Hp & (Ha & Hsl & Hsr) & Hk) & Hok). simpl in Ht, Hp, Ha, Hsl, Hsr, Hk.
  destruct sl as [|c ll la lr]; [done|]. destruct Hsl as (Hla & Hll & Hlr). simpl in Ha.
  own_facts Hok [[0]; [p]; [a]; [la]; inorder t; inorder ll; inorder lr; inorder sr; outside k].
  eexists. split; [rewrite erase_body_eq; rb_unfold; repeat rb_estep; reflexivity|].
  split; [|split; [|eapply addr_ok_perm; [exact Hok|perm_solve]]]; cbn [setcol rep_ctx f_addr f_sib cpar];
    rep_split; rep_etac; lkfin.
Qed.

Lemma erase_body_red_r s t cp p sl a sr k :
  sr <> E -> zrep s t (FR cp (T Red sl a sr) p :: k) ->
  exists s', rb_erase_fix_body (ptr t, p) s = erase_tail_r p (ptr sr) s' /\
    zrep s' t (FR Red (setcol Black sr) p :: FR cp sl a :: k).
Proof.
  intros HE (Ht & (Hp & (Ha & Hsl & Hsr) & Hk) & Hok). simpl in Ht, Hp, Ha, Hsl, Hsr, Hk.
  destruct sr as [|c ll la lr]; [done|]. destruct Hsr as (Hla & Hll & Hlr). simpl in Ha.
  own_facts Hok [[0]; [p]; [a]; [la]; inorder t; inorder ll; inorder lr; inorder sl; outside k].
  eexists. split; [rewrite erase_body_eq; rb_unfold; repeat rb_estep; reflexivity|].
  split; [|split; [|eapply addr_ok_perm; [exact Hok|perm_solve]]]; cbn [setcol rep_ctx f_addr f_sib cpar];
    rep_split; rep_etac; lkfin.
Qed.

(** ** The loop of [__rb_erase_fix] *)
Lemma era_sib_ptr t f :
  f_sib f <> E -> (era_sib t f).2 = true -> ptr (era_sib t f).1 = f_addr f.
Proof.
  unfold era_sib. destruct f as [cp p [|c sl a sr]|cp [|c sl a sr] p]; try done; simpl.
  - destruct (is_red sr); [done|]. by destruct sl as [|[] ???].
  - destruct (is_red sl); [done|]. by destruct sr as [|[] ???].
Qed.

Lemma era_fix_black t f k :
  rootcol (f_sib f) = Black ->
  era_fix t (f :: k) = let '(t', d) := era_sib t f in if d then era_fix t' k else plug t' k.
Proof. by destruct f as [cp p [|[] sl a sr]|cp [|[] sl a sr] p]. Qed.

Lemma cpar_zero t k s : zrep s t k -> k <> [] -> cpar k <> 0.
Proof.
  intros (_ & _ & [[H0 _]%NoDup_cons _]) Hk E. apply H0. destruct k as [|f k]; [done|].
  rewrite <- E. unfold outside. destruct f; simpl; set_solver.
Qed.

(** The red-sibling turn ends the loop: the new parent is red. *)
Lemma erase_body_red s t f k :
  match f, f_sib f with
  | FL cp p _, T Red sl a sr => sl <> E /\ rootcol sl = Black
  | FR cp _ p, T Red sl a sr => sr <> E /\ rootcol sr = Black
  | _, _ => False
  end -> zrep s t (f :: k) ->
  exists s', rb_erase_fix_body (ptr t, f_addr f) s = Ret (inr tt, s') /\ tree_rep s' (era_fix t (f :: k)).
Proof.
  intros Hs Hz. destruct f as [cp p [|[] sl a sr]|cp [|[] sl a sr] p]; try done; simpl in Hs;
    destruct Hs as [HE Hb].
  - destruct (erase_body_red_l _ _ _ _ _ _ _ _ HE Hz) as (s1 & E1 & Hz1). cbn [f_addr]. rewrite E1.
    cbn [era_fix f_sib]. rewrite setcol_black in Hz1 |- * by done.
    destruct (erase_tail_spec s1 t (FL Red p sl) _ HE Hb Hz1) as (s2 & E2 & Hz2). exists s2.
    cbn [erase_tail f_addr f_sib] in E2. rewrite E2. split; [|by apply zrep_plug].
    unfold era_sib. destruct sl as [|c ll la lr]; [done|]. destruct (is_red lr); [done|]. by destruct ll as [|[] ???].
  - destruct (erase_body_red_r _ _ _ _ _ _ _ _ HE Hz) as (s1 & E1 & Hz1). cbn [f_addr]. rewrite E1.
    cbn [era_fix f_sib]. rewrite setcol_black in Hz1 |- * by done.
    destruct (erase_tail_spec s1 t (FR Red sr p) _ HE Hb Hz1) as (s2 & E2 & Hz2). exists s2.
    cbn [erase_tail f_addr f_sib] in E2. rewrite E2. split; [|by apply zrep_plug].
    unfold era_sib. destruct sr as [|c ll la lr]; [done|]. destruct (is_red ll); [done|]. by destruct lr as [|[] ???].
Qed.

Lemma erase_fix_loop fuel t n k m s :
  (length k <= fuel)%nat -> k <> [] -> zrep s t k ->
  norr t -> rootcol t = Black -> bal n t -> cnorr k -> cbal (S n) k m ->
  exists s', while fuel rb_erase_fix_body (ptr t, cpar k) s = Ret (tt, s') /\ tree_rep s' (era_fix t k).
Proof.
  revert fuel t n s. induction k as [|f k IH]; intros fuel t n s Hfuel Hne Hz Hn Hr Hb Hk Hc; [done|].
  destruct fuel as [|fuel]; [simpl in Hfuel; lia|]. cbn [while cpar].
  destruct Hk as (Hs & Hk & Hf), Hc as [Hsb Hc]. pose proof (bal_S _ _ Hsb) as HE.
  destruct (rootcol (f_sib f)) eqn:Hrs.
  - destruct (erase_body_red s t f k) as (s' & E1 & Ht'); [|done|].
    { destruct f as [cp p [|[] sl a sr]|cp [|[] sl a sr] p]; simpl in *; try done;
        destruct Hsb as [Hbl Hbr], Hs as (Hch & _ & _); destruct (Hch eq_refl);
        (split; [|done]); eapply bal_S; [exact Hbl|exact Hbr]. }
    rewrite (bind_Ret _ _ _ _ _ E1). by exists s'.
  - destruct (erase_tail_spec s t f k HE Hrs Hz) as (s' & E1 & Hz').
    rewrite <- (erase_body_black s t f k HE Hrs Hz) in E1. rewrite (bind_Ret _ _ _ _ _ E1).
    pose proof (era_sib_ok n t f Hn Hr Hb HE Hrs Hs Hsb) as Hok.
    pose proof (era_sib_ptr t f HE) as Hptr. rewrite (era_fix_black t f k Hrs).
    destruct (era_sib t f) as [t' d]. simpl in Hz', Hptr, E1 |- *.
    destruct Hok as (Hn' & Hr' & Hd). unfold next_turn. destruct d; cbn [andb].
    + destruct Hd as (Hb' & Hbal & Hcf). rewrite Hcf in Hc. destruct k as [|f' k'].
      { simpl. by exists s'. }
      rewrite (proj2 (Z.eqb_neq _ _)) by by eapply cpar_zero. cbn [negb].
      rewrite <- Hptr by done. simpl in Hfuel. by eapply IH; [simpl; lia|..].
    + exists s'. split; [done|]. by apply zrep_plug.
Qed.

(** Dropping the removed node from the owned addresses. *)
Lemma addr_ok_drop a l l' : addr_ok l -> l ≡ₚ a :: l' -> addr_ok l'.
Proof.
  intros Hok Hp. apply (addr_ok_perm _ (a :: l')) in Hok; [|by symmetry].
  destruct Hok as [[Hz [_ Hnd]%NoDup_cons]%NoDup_cons [_ Hal]%Forall_cons].
  split; [|done]. apply NoDup_cons. split; [set_solver|done].
Qed.

(** ** [__rb_erase]: a node with at most one child *)
Definition rebalance_at (c : color) (k : context) : Z := match c with Red => 0 | Black => cpar k end.

Lemma erase_leaf s c a k fuel :
  zrep s (T c E a E) k ->
  exists s', __rb_erase fuel a s = Ret (rebalance_at c k, s') /\ zrep s' E k.
Proof.
  intros ((Ha & _) & Hk & Hok). simpl in Ha, Hk. own_facts Hok [[0]; [a]; outside k].
  eexists. split.
  { unfold __rb_erase. repeat rb_estep. rewrite lor_col_parent, lor_col_black by done.
    erewrite bind_Ret by (apply change_child_Ret; [nodup_tac|done]). by destruct c. }
  split; [done|]. split; [by rep_tac|]. apply (addr_ok_drop a _ _ Hok); perm_solve.
Qed.

Lemma erase_right_only s c a r k fuel :
  r <> E -> zrep s (T c E a r) k ->
  exists s', __rb_erase fuel a s = Ret (0, s') /\ zrep s' (setcol c r) k.
Proof.
  intros HE ((Ha & _ & Hr) & Hk & Hok). simpl in Ha, Hk, Hr. destruct r as [|rc rl ra rr]; [done|].
  destruct Hr as (Hra & Hrl & Hrr). own_facts Hok [[0]; [a]; [ra]; inorder rl; inorder rr; outside k].
  eexists. split.
  { unfold __rb_erase. repeat rb_estep. rewrite lor_col_parent by done.
    erewrite bind_Ret by (apply change_child_Ret; [nodup_tac|done]). repeat rb_estep. reflexivity. }
  split; [|split].
  - cbn [setcol]. rep_split; rep_etac; lkfin.
  - rep_etac.
  - apply (addr_ok_drop a _ _ Hok); perm_solve.
Qed.

Lemma erase_left_only s c l a k fuel :
  l <> E -> zrep s (T c l a E) k ->
  exists s', __rb_erase fuel a s = Ret (0, s') /\ zrep s' (setcol c l) k.
Proof.
  intros HE ((Ha & Hl & _) & Hk & Hok). simpl in Ha, Hk, Hl. destruct l as [|lc ll la lr]; [done|].
  destruct Hl as (Hla & Hll & Hlr). own_facts Hok [[0]; [a]; [la]; inorder ll; inorder lr; outside k].
  eexists. split.
  { unfold __rb_erase. repeat rb_estep. rewrite lor_col_parent by done.
    erewrite bind_Ret by (apply change_child_Ret; [nodup_tac|rep_tac]). repeat rb_estep. reflexivity. }
  split; [|split].
  - cbn [setcol]. rep_split; rep_etac; lkfin.
  - rep_etac.
  - apply (addr_ok_drop a _ _ Hok); perm_solve.
Qed.

(** ** [__rb_erase]: two children, the right one being the successor *)
Definition rebalance_hole (sr : tree) (c : color) (k : context) : Z :=
  match sr with E => rebalance_at c k | T _ _ _ _ => 0 end.

Lemma erase_two_near s c l a rc ra rr k fuel :
  l <> E -> zrep s (T c l a (T rc E ra rr)) k ->
  exists s', __rb_erase fuel a s = Ret (rebalance_hole rr rc (FR c l ra :: k), s') /\
    zrep s' (setcol Black rr) (FR c l ra :: k).
Proof.
  intros HE ((Ha & Hl & (Hra & _ & Hrr)) & Hk & Hok). simpl in Ha, Hk, Hl, Hra, Hrr.
  destruct l as [|lc ll la lr]; [done|]. destruct Hl as (Hla & Hll & Hlr).
  destruct rr as [|xc xl xa xr].
  - own_facts Hok [[0]; [a]; [ra]; [la]; inorder ll; inorder lr; outside k]. simpl in Ha.
    eexists. split.
    { unfold __rb_erase. repeat rb_estep.
      erewrite bind_Ret by (eapply rb_set_parent_Ret; [lkup|done]). repeat rb_estep. rewrite lor_col_parent by done.
      erewrite bind_Ret by (apply change_child_Ret; [nodup_tac|rep_tac]). repeat rb_estep.
      rewrite lor_col_black by done. by destruct rc. }
    split; [done|split; [|apply (addr_ok_drop a _ _ Hok); perm_solve]].
    cbn [rep_ctx f_addr f_sib ptr setcol]; rep_split; rep_etac; lkfin.
  - destruct Hrr as (Hxa & Hxl & Hxr). simpl in Hra.
    own_facts Hok [[0]; [a]; [ra]; [la]; [xa]; inorder ll; inorder lr; inorder xl; inorder xr; outside k].
    simpl in Ha. eexists. split.
    { unfold __rb_erase. repeat rb_estep.
      erewrite bind_Ret by (eapply rb_set_parent_Ret; [lkup|done]). repeat rb_estep. rewrite lor_col_parent by done.
      erewrite bind_Ret by (apply change_child_Ret; [nodup_tac|rep_tac]). rb_unfold. repeat rb_estep. done. }
    split; [|split; [|apply (addr_ok_drop a _ _ Hok); perm_solve]];
    cbn [rep_ctx f_addr f_sib ptr setcol cpar]; rep_split; rep_etac; lkfin.
Qed.

(** ** [__rb_erase]: two children, the successor further down

    [rep_seg h p ks top] is the part of a context between a hole that holds
    [p] and a node [top]. *)
Fixpoint rep_seg (h : heap) (p : Z) (ks : context) (top : Z) : Prop :=
  match ks with
  | [] => True
  | f :: ks' =>
      let par := match ks' with [] => top | f' :: _ => f_addr f' end in
      h !! f_addr f = Some (match f with
        | FL c a r => mkRbNode (Z.lor par (col c)) (ptr r) p
        | FR c l a => mkRbNode (Z.lor par (col c)) p (ptr l)
        end) /\
      rep h (f_addr f) (f_sib f) /\ rep_seg h (f_addr f) ks' top
  end.

Lemma rep_ctx_app h rt p ks f k :
  rep_ctx h rt p (ks ++ f :: k) <->
  rep_seg h p ks (f_addr f) /\ rep_ctx h rt (match rev ks with [] => p | g :: _ => f_addr g end) (f :: k).
Proof.
  revert p. induction ks as [|g ks IH]; intros p; [simpl; tauto|]. cbn [app].
  change (rep_ctx h rt p (g :: ks ++ f :: k)) with
    (h !! f_addr g = Some (match g with
        | FL c a r => mkRbNode (Z.lor (cpar (ks ++ f :: k)) (col c)) (ptr r) p
        | FR c l a => mkRbNode (Z.lor (cpar (ks ++ f :: k)) (col c)) p (ptr l) end) /\
     rep h (f_addr g) (f_sib g) /\ rep_ctx h rt (f_addr g) (ks ++ f :: k)).
  rewrite IH. assert (Hc : cpar (ks ++ f :: k) = match ks with [] => f_addr f | f' :: _ => f_addr f' end) by by destruct ks.
  rewrite Hc. cbn [rep_seg rev].
  assert (Hr : match rev ks ++ [g] with [] => p | g0 :: _ => f_addr g0 end =
    match rev ks with [] => f_addr g | g0 :: _ => f_addr g0 end) by by destruct (rev ks).
  rewrite Hr. tauto.
Qed.

Lemma rep_seg_frame h h' p ks top :
  (forall a, a ∈ outside ks -> h' !! a = h !! a) -> rep_seg h p ks top -> rep_seg h' p ks top.
Proof.
  revert p. unfold outside. induction ks as [|f ks IH]; intros p Hf; [done|]. intros (Ha & Hs & Hk).
  destruct f as [c a r|c l a]; simpl in *;
    (split; [rewrite Hf; [done|set_solver]|split]);
    [eapply rep_frame; [|done]|apply IH; [|done]|eapply rep_frame; [|done]|apply IH; [|done]];
    intros b Hb; apply Hf; set_solver.
Qed.

Lemma rep_seg_alter_ne h p ks top f q :
  q ∉ outside ks -> rep_seg h p ks top -> rep_seg (alter f q h) p ks top.
Proof. intros Hq. apply rep_seg_frame. intros a Ha. apply lookup_alter_ne. by intros ->. Qed.

Lemma rep_seg_hpc_ne h p ks top t v :
  ptr t ∉ outside ks -> rep_seg h p ks top -> rep_seg (hpc t v h) p ks top.
Proof. destruct t; [done|]. apply rep_seg_alter_ne. Qed.

Lemma rep_seg_hctx_ne h p ks top k v :
  cpar k ∉ outside ks -> rep_seg h p ks top -> rep_seg (hctx k v h) p ks top.
Proof. destruct k as [|[] k]; [done|apply rep_seg_alter_ne..]. Qed.

Lemma rep_ctx_hctx_ne h rt p k ks v :
  cpar ks ∉ outside k -> rep_ctx h rt p k -> rep_ctx (hctx ks v h) rt p k.
Proof. destruct ks as [|[] ks]; [done|apply rep_ctx_alter_ne..]. Qed.

Lemma frame_fresh f ks : NoDup (outside (f :: ks)) -> f_addr f ∉ inorder (f_sib f) /\ f_addr f ∉ outside ks.
Proof.
  intros Hnd. assert (NoDup (f_addr f :: inorder (f_sib f) ++ outside ks)) as [? _]%NoDup_cons.
  { eapply NoDup_perm; [exact Hnd|]. destruct f; perm_solve. }
  set_solver.
Qed.

(** Re-directing the pointer above the hole, and the parent of the top node. *)
Lemma rep_seg_hctx h p new ks top :
  NoDup (outside ks) -> rep_seg h p ks top -> rep_seg (hctx ks new h) new ks top.
Proof.
  destruct ks as [|f ks]; [done|]. intros [? ?]%frame_fresh (Ha & Hs & Hk).
  destruct f as [c a r|c l a]; simpl in *;
    (split; [by rewrite lookup_alter_eq, Ha|]); (split; [by apply rep_alter_ne|by apply rep_seg_alter_ne]).
Qed.

Lemma rep_seg_top h p ks f top :
  rep_seg h p (ks ++ [f]) top ->
  exists r l, h !! f_addr f = Some (mkRbNode (Z.lor top (col (f_color f))) r l).
Proof.
  revert p. induction ks as [|g ks IH]; intros p (Ha & Hs & Hk); [destruct f; eauto|by eapply IH].
Qed.

Lemma outside_cons f ks : outside (f :: ks) ≡ₚ f_addr f :: inorder (f_sib f) ++ outside ks.
Proof. destruct f; perm_solve. Qed.

Lemma elem_outside_last ks f : f_addr f ∈ outside (ks ++ [f]).
Proof.
  induction ks as [|g ks IH]; cbn [app]; rewrite outside_cons; set_solver.
Qed.

Lemma rep_seg_retop h p ks f top top' :
  NoDup (outside (ks ++ [f])) -> rep_seg h p (ks ++ [f]) top ->
  rep_seg (alter (spc (Z.lor top' (col (f_color f)))) (f_addr f) h) p (ks ++ [f]) top'.
Proof.
  revert p. induction ks as [|g ks IH]; intros p Hnd (Ha & Hs & Hk); cbn [app] in *.
  - apply frame_fresh in Hnd as [Hf _]. destruct f as [c a r|c l a]; simpl in *;
      (split; [by rewrite lookup_alter_eq, Ha|]); (split; [by apply rep_alter_ne|done]).
  - pose proof (elem_outside_last ks f) as Hin. rewrite outside_cons in Hnd.
    apply NoDup_cons in Hnd as [Hg (_ & Hd & Hnd)%NoDup_app].
    cbn [rep_seg]. split; [|split; [|by apply IH]].
    + rewrite lookup_alter_ne by (intros Heq; apply Hg; rewrite <- Heq; apply elem_of_app; by right). rewrite Ha. by destruct ks, g.
    + apply rep_alter_ne; [|done]. intros Hb. by apply (Hd _ Hb).
Qed.

Lemma successor_loop l c a r k0 s p fuel :
  l <> E -> rep (nodes s) p l -> 0 ∉ inorder l -> (length (inorder l) < fuel)%nat ->
  rb_successor fuel a (ptr l) s =
    Ret (let '(_, sa, _, ks) := min_of l c a r k0 in (cpar ks, sa), s).
Proof.
  unfold rb_successor. revert c a r k0 p fuel.
  induction l as [|lc ll IH la lr _]; intros c a r k0 p fuel HE Hl H0 Hf; [done|].
  destruct Hl as (Hla & Hll & Hlr). destruct fuel as [|fuel]; [lia|]. cbn [while ptr].
  rewrite bind_assoc. erewrite bind_Ret by by apply left_of_Ret. cbn [rb_left min_of].
  simpl in H0, Hf. rewrite length_app in Hf. simpl in Hf.
  destruct ll as [|c2 l2 a2 r2]; [done|]. cbn [ptr].
  rewrite (proj2 (Z.eqb_neq _ _)) by (simpl in H0; set_solver). cbn [negb].
  apply (IH lc la lr (FL c a r :: k0) la fuel); [done|done|set_solver|lia].
Qed.

Lemma min_of_last l c a r :
  l <> E ->
  let '(_, _, _, ks) := min_of l c a r [] in
  exists ks' hc ha hr ks0, ks = ks' ++ [FL c a r] /\ ks = FL hc ha hr :: ks0.
Proof.
  destruct l as [|c' l' a' r']; [done|]. intros _. cbn [min_of].
  assert (Hh : forall l c a r k hc ha hr ks0, k = FL hc ha hr :: ks0 ->
    let '(_, _, _, ks) := min_of l c a r k in exists hc ha hr ks0, ks = FL hc ha hr :: ks0).
  { clear. intros l. induction l as [|c' l' IH a' r' _]; intros c a r k hc ha hr ks0 ->; [simpl; by exists hc, ha, hr, ks0|].
    cbn [min_of]. by eapply IH. }
  specialize (Hh l' c' a' r' [FL c a r] c a r [] eq_refl).
  pose proof (min_of_app l' c' a' r' [] [FL c a r]) as Ha. cbn [app] in Ha. rewrite Ha in Hh |- *.
  destruct (min_of l' c' a' r' []) as [[[sc sa] sr] ks]. destruct Hh as (hc & ha & hr & ks0 & E1).
  by exists ks, hc, ha, hr, ks0.
Qed.

Lemma outside_app ks k : outside (ks ++ k) ≡ₚ outside ks ++ outside k.
Proof. unfold outside. destruct (context_app ks k) as [-> ->]. perm_solve. Qed.

(** Taking the successor out of its place and putting it above [child]. *)
Lemma take_successor s sc sa sr ks ks' rc ra rr c l a k :
  zrep s (T sc E sa sr) (ks ++ FR c l a :: k) -> ks = ks' ++ [FL rc ra rr] ->
  (exists hc ha hr ks0, ks = FL hc ha hr :: ks0) ->
  exists s', (child2 <- right_of sa ;; set_left (cpar ks) child2 ;;; set_right sa ra ;;; rb_set_parent ra sa ;;;
              ret (cpar ks, child2, sa)) s = Ret ((cpar ks, ptr sr, sa), s') /\
    nodes s' !! sa = Some (mkRbNode (Z.lor (cpar ks) (col sc)) ra 0) /\ rep (nodes s') sa sr /\
    rep_seg (nodes s') (ptr sr) ks sa /\ rep_ctx (nodes s') (root s') ra (FR c l a :: k).
Proof.
  intros ((Hsa & _ & Hsr) & Hctx & Hok) Hks (hc & ha & hr & ks0 & Hhd).
  apply rep_ctx_app in Hctx as [Hseg (Ha & Hl & Hk)].
  assert (Hcp : cpar (ks ++ FR c l a :: k) = cpar ks) by by rewrite Hhd. rewrite Hcp in Hsa.
  assert (Hlast : match rev ks with [] => sa | g :: _ => f_addr g end = ra).
  { rewrite Hks, rev_app_distr. done. }
  assert (Hra : ra ∈ outside ks) by (rewrite Hks; apply (elem_outside_last ks' (FL rc ra rr))).
  simpl in Hseg, Ha, Hl, Hk, Hsa, Hsr. rewrite Hlast in Ha. clear Hcp Hlast.
  assert (Hok' : addr_ok (sa :: inorder sr ++ a :: inorder l ++ outside ks ++ outside k)).
  { eapply addr_ok_perm; [exact Hok|]. rewrite outside_app. cbn [inorder]. perm_solve. }
  clear Hok. own_facts Hok' [[0]; [sa]; [a]; inorder sr; inorder l; outside ks; outside k].
  assert (Hora : o ra = 5%nat) by auto.
  assert (Hseg1 : rep_seg (hctx ks (ptr sr) (nodes s)) (ptr sr) ks a) by by eapply rep_seg_hctx.
  assert (Htop : exists r l, hctx ks (ptr sr) (nodes s) !! ra = Some (mkRbNode (Z.lor a (col rc)) r l)).
  { rewrite Hks in Hseg1 at 2. by apply rep_seg_top in Hseg1. }
  destruct Htop as (tr & tl & Htop).
  assert (Hset : set_left (cpar ks) (ptr sr) s = Ret (tt, on_heap (hctx ks (ptr sr)) s)).
  { rewrite Hhd in Hseg |- *. destruct Hseg as (Hh & _). by erewrite set_left_Ret by exact Hh. }
  eexists. split.
  { repeat rb_estep. rewrite (bind_Ret _ _ _ _ _ Hset). rb_estep.
    erewrite bind_Ret; [reflexivity|]. eapply (rb_set_parent_Ret _ ra rc a); [|done]. lk. exact Htop. }
  split; [|split; [|split]].
  - lkfin.
  - rep_etac.
  - cbn [on_heap nodes]. rewrite Hks at 2.
    apply (rep_seg_retop _ _ ks' (FL rc ra rr) a); [by rewrite <- Hks|].
    rewrite <- Hks. apply rep_seg_alter_ne; [ne|done].
  - cbn [rep_ctx f_addr f_sib on_heap nodes root]. split; [|split].
    + lkfin.
    + rep_etac.
    + rep_etac. apply rep_ctx_hctx_ne; [ne|done].
Qed.

(** Putting it in the place of the removed node. *)
Definition put_successor (node parent child2 successor : Z) : M rbst Z :=
  tmp <- left_of node ;; set_left successor tmp ;;;
  rb_set_parent tmp successor ;;;
  pc <- pc_of node ;;
  let tmp := __rb_parent pc in
  __rb_change_child node successor tmp ;;;
  if negb (child2 =? 0) then
    set_pc successor pc ;;;
    rb_set_parent_color child2 parent RB_BLACK ;;;
    ret 0
  else
    pc2 <- pc_of successor ;;
    set_pc successor pc ;;;
    ret (if __rb_is_black pc2 then parent else 0).

Lemma put_successor_far s sc sa sr ks ra c lc ll la lr a k :
  nodes s !! sa = Some (mkRbNode (Z.lor (cpar ks) (col sc)) ra 0) -> rep (nodes s) sa sr ->
  rep_seg (nodes s) (ptr sr) ks sa -> rep_ctx (nodes s) (root s) ra (FR c (T lc ll la lr) a :: k) ->
  addr_ok (sa :: inorder sr ++ a :: inorder (T lc ll la lr) ++ outside ks ++ outside k) ->
  exists s', put_successor a (cpar ks) (ptr sr) sa s = Ret (rebalance_hole sr sc ks, s') /\
    rep (nodes s') (cpar ks) (setcol Black sr) /\
    rep_seg (nodes s') (ptr sr) ks sa /\ rep_ctx (nodes s') (root s') ra (FR c (T lc ll la lr) sa :: k).
Proof.
  intros Hsa Hsr Hseg (Ha & (Hla & Hll & Hlr) & Hk) Hok. simpl in Ha, Hla, Hll, Hlr, Hk.
  destruct sr as [|xc xl xa xr].
  - own_facts Hok [[0]; [a]; [sa]; [la]; inorder ll; inorder lr; outside ks; outside k].
    eexists. split.
    { unfold put_successor. repeat rb_estep.
      erewrite bind_Ret by (eapply (rb_set_parent_Ret _ la lc a); [lkup|done]). repeat rb_estep.
      rewrite lor_col_parent by done.
      erewrite bind_Ret by (apply change_child_Ret; [nodup_tac|rep_tac]). repeat rb_estep.
      rewrite lor_col_black by done. by destruct sc. }
    split; [done|]. split.
    + cbn [on_heap nodes]. repeat (apply rep_seg_alter_ne; [ne|]). apply rep_seg_hctx_ne; [ne|].
      repeat (apply rep_seg_alter_ne; [ne|]). done.
    + cbn [rep_ctx f_addr f_sib]; rep_split; rep_etac; lkfin.
  - destruct Hsr as (Hxa & Hxl & Hxr).
    own_facts Hok [[0]; [a]; [sa]; [la]; [xa]; inorder ll; inorder lr; inorder xl; inorder xr; outside ks; outside k].
    eexists. split.
    { unfold put_successor. repeat rb_estep.
      erewrite bind_Ret by (eapply (rb_set_parent_Ret _ la lc a); [lkup|done]). repeat rb_estep.
      rewrite lor_col_parent by done.
      erewrite bind_Ret by (apply change_child_Ret; [nodup_tac|rep_tac]). rb_unfold. repeat rb_estep. reflexivity. }
    split; [cbn [setcol]; rep_split; rep_etac; lkfin|]. split.
    + cbn [on_heap nodes]. repeat (apply rep_seg_alter_ne; [ne|]). apply rep_seg_hctx_ne; [ne|].
      repeat (apply rep_seg_alter_ne; [ne|]). done.
    + cbn [rep_ctx f_addr f_sib]; rep_split; rep_etac; lkfin.
Qed.

Lemma erase_two_far s c l a rc rl ra rr k fuel sc sa sr ks :
  l <> E -> rl <> E -> zrep s (T c l a (T rc rl ra rr)) k -> (length (inorder rl) < fuel)%nat ->
  min_of rl rc ra rr [] = (sc, sa, sr, ks) ->
  exists s', __rb_erase fuel a s = Ret (rebalance_hole sr sc (ks ++ FR c l sa :: k), s') /\
    zrep s' (setcol Black sr) (ks ++ FR c l sa :: k).
Proof.
  intros HE HrE Hz Hfuel Hmin.
  assert (Hz' : zrep s (T sc E sa sr) (ks ++ FR c l a :: k)).
  { apply zrep_unplug. pose proof (min_of_plug rl rc ra rr (FR c l a :: k)) as Hp.
    pose proof (min_of_app rl rc ra rr [] (FR c l a :: k)) as Happ. rewrite Hmin in Happ. simpl in Happ.
    rewrite Happ in Hp. rewrite Hp. by apply (zrep_plug s _ k) in Hz. }
  pose proof (min_of_last rl rc ra rr HrE) as Hlast. rewrite Hmin in Hlast.
  destruct Hlast as (ks' & hc & ha & hr & ks0 & Hks & Hhd).
  assert (Hok : addr_ok (sa :: inorder sr ++ a :: inorder l ++ outside ks ++ outside k)).
  { destruct Hz' as (_ & _ & Hok). eapply addr_ok_perm; [exact Hok|]. rewrite outside_app. cbn [inorder]. perm_solve. }
  destruct (take_successor _ _ _ _ _ _ _ _ _ _ _ _ _ Hz' Hks) as (s1 & E1 & Hsa & Hsr & Hseg & Hctx); [by eauto 10|].
  destruct l as [|lc ll la lr]; [done|].
  destruct (put_successor_far _ _ _ _ _ _ _ _ _ _ _ _ _ Hsa Hsr Hseg Hctx Hok) as (s2 & E2 & Hr2 & Hseg2 & Hctx2).
  assert (Hcp : cpar (ks ++ FR c (T lc ll la lr) sa :: k) = cpar ks) by by rewrite Hhd.
  exists s2. split.
  - destruct Hz as ((Ha & (Hla & _) & (Hra & Hrl & _)) & _ & Hok0). simpl in Ha, Hra, Hrl, Hla.
    assert (H0 : 0 ∉ inorder (T c (T lc ll la lr) a (T rc rl ra rr))) by (apply addr_ok_NoDup_l in Hok0; tauto).
    simpl in H0. unfold __rb_erase.
    erewrite bind_Ret by by apply right_of_Ret. erewrite bind_Ret by by apply left_of_Ret. cbn [rb_left rb_right].
    rewrite !(proj2 (Z.eqb_neq _ _)) by set_solver.
    erewrite bind_Ret by by apply left_of_Ret. cbn [rb_left].
    rewrite (proj2 (Z.eqb_neq (ptr rl) 0)) by (destruct rl; [done|simpl in *; set_solver]).
    rewrite bind_assoc. erewrite bind_Ret.
    2: { eapply (successor_loop rl rc ra rr []); [done|done|set_solver|done]. }
    rewrite Hmin. change (put_successor a (cpar ks) (ptr sr) sa s1 = Ret (rebalance_hole sr sc ks, s2)) in E2.
    erewrite bind_Ret by exact E1. etrans; [exact E2|].
    unfold rebalance_hole, rebalance_at. by rewrite Hcp.
  - split; [by rewrite Hcp|]. split.
    + apply rep_ctx_app. rewrite ptr_setcol. split; [done|].
      rewrite Hks, rev_app_distr. done.
    + apply (addr_ok_drop a _ _ Hok). rewrite outside_app, inorder_setcol. perm_solve.
Qed.

(** ** [_rb_erase] *)
Lemma erase_node_refines s c l a r k fuel :
  zrep s (T c l a r) k -> (length (inorder r) < fuel)%nat ->
  exists s' reb, __rb_erase fuel a s = Ret (reb, s') /\
    match era_node c l r k with
    | inl t => reb = 0 /\ tree_rep s' t
    | inr k' => reb = cpar k' /\ zrep s' E k'
    end.
Proof.
  intros Hz Hf. unfold era_node. destruct l as [|lc ll la lr], r as [|rc rl ra rr].
  - destruct (erase_leaf s c a k fuel Hz) as (s' & E1 & H1). exists s', (rebalance_at c k).
    split; [done|]. destruct c; (split; [done|]); [by apply zrep_plug|done].
  - destruct (erase_right_only s c a (T rc rl ra rr) k fuel) as (s' & E1 & H1); [done..|].
    exists s', 0. split; [done|]. split; [done|]. by apply (zrep_plug s' (setcol c (T rc rl ra rr))).
  - destruct (erase_left_only s c (T lc ll la lr) a k fuel) as (s' & E1 & H1); [done..|].
    exists s', 0. split; [done|]. split; [done|]. by apply (zrep_plug s' (setcol c (T lc ll la lr))).
  - assert (Hstep : let '(sc, sa, sr, ks) := min_of rl rc ra rr [] in
      let k' := ks ++ FR c (T lc ll la lr) sa :: k in
      exists s', __rb_erase fuel a s = Ret (rebalance_hole sr sc k', s') /\ zrep s' (setcol Black sr) k').
    { destruct rl as [|c2 l2 a2 r2]; [by apply erase_two_near|].
      destruct (min_of (T c2 l2 a2 r2) rc ra rr []) as [[[sc sa] sr] ks] eqn:Hmin.
      eapply (erase_two_far s c _ a rc (T c2 l2 a2 r2) ra rr); [done|done|done| |done].
      cbn [inorder] in Hf |- *. rewrite !length_app in *. simpl in *. lia. }
    destruct (min_of rl rc ra rr []) as [[[sc sa] sr] ks]. destruct Hstep as (s' & E1 & H1).
    exists s', (rebalance_hole sr sc (ks ++ FR c (T lc ll la lr) sa :: k)). split; [done|].
    destruct sr as [|xc xl xa xr]; [destruct sc|]; (split; [done|]); try done; by apply zrep_plug in H1.
Qed.

Lemma erase_refines s c l a r k :
  tree_rep s (plug (T c l a r) k) -> redblack (plug (T c l a r) k) ->
  exists s', _rb_erase a s = Ret (tt, s') /\ tree_rep s' (era c l r k).
Proof.
  intros Ht Hrb. pose proof (tree_rep_length _ _ Ht) as Hlen. apply zrep_unplug in Ht.
  rewrite inorder_plug in Hlen. cbn [inorder] in Hlen. rewrite !length_app in Hlen. simpl in Hlen.
  unfold _rb_erase. erewrite bind_Ret by reflexivity.
  destruct (erase_node_refines s c l a r k (S (size (nodes s))) Ht) as (s1 & reb & E1 & H1); [lia|].
  rewrite (bind_Ret _ _ _ _ _ E1). apply era_node_ok in Hrb. unfold era.
  pose proof (era_inorder c l r k) as Hio. unfold era in Hio.
  destruct (era_node c l r k) as [t|k'].
  - destruct H1 as [-> H1]. by exists s1.
  - destruct H1 as [-> H1], Hrb as [Hk [m Hc]]. destruct k' as [|f k'].
    { simpl. by exists s1. }
    rewrite (proj2 (Z.eqb_neq _ _)) by by eapply cpar_zero. cbn [negb].
    eapply (erase_fix_loop _ E 0); try done.
    rewrite era_fix_inorder, inorder_plug in Hio. apply (f_equal length) in Hio.
    rewrite !length_app in Hio. pose proof (length_outside (f :: k')) as Ho. unfold outside in Ho.
    rewrite length_app in Ho. simpl (length (inorder E)) in Hio. lia.
Qed.
