(* ===== verification/RBMap.v ===== *)
(** * The ordered set that common/rbtree.c implements

    [is_set cmp s l] says that the tree under the root of [s] is a red-black
    search tree whose nodes, in order, are [l].  The theorems give every
    entry point of the code as an operation on [l]; [rb_run_refines] composes
    them over any sequence of calls. *)
From stdpp Require Import base gmap list sorting.
From Stdlib Require Import ZArith Lia.
From S2P Require Import Prelude RBTree RBSpec RBRefine RBOps RBErase.

Definition is_set (cmp : Z -> Z -> bool) (s : rbst) (l : list Z) : Prop :=
  exists t, tree_rep s t /\ redblack t /\ inorder t = l /\ StronglySorted (fun a b => cmp a b = true) l.

(** [node] compares equal to no member. *)
Definition fresh_key (cmp : Z -> Z -> bool) (x : Z) (l : list Z) : bool :=
  forallb (fun a => cmp x a || cmp a x) l.

(** The member equal to [x], or NULL. *)
Definition find_key (cmp : Z -> Z -> bool) (x : Z) (l : list Z) : Z :=
  match list_find (fun a => cmp x a = false /\ cmp a x = false) l with
  | Some (_, a) => a
  | None => 0
  end.

Fixpoint insert_key (cmp : Z -> Z -> bool) (x : Z) (l : list Z) : list Z :=
  match l with
  | [] => [x]
  | a :: l' => if cmp x a then x :: l else a :: insert_key cmp x l'
  end.

Section set_ops.
Context (cmp : Z -> Z -> bool).
Context (cmp_trans : forall a b c, cmp a b = true -> cmp b c = true -> cmp a c = true).
Context (cmp_irrefl : forall a, cmp a a = false).
Context (cmp_weak : forall a b c, cmp a b = true -> cmp a c = true \/ cmp c b = true).

Abbreviation sorted l := (StronglySorted (fun a b => cmp a b = true) l).

Lemma fresh_key_spec x l :
  fresh_key cmp x l = true <-> forall a, a ∈ l -> cmp x a = true \/ cmp a x = true.
Proof.
  unfold fresh_key. rewrite forallb_forall. setoid_rewrite orb_true_iff. setoid_rewrite list_elem_of_In. done.
Qed.

Lemma fresh_key_find x t :
  sorted (inorder t) -> fresh_key cmp x (inorder t) = bool_decide (is_Some (find_leaf cmp x t [])).
Proof.
  intros Hs. destruct (find_leaf cmp x t []) as [k|] eqn:Hf.
  - rewrite bool_decide_true by eauto. apply fresh_key_spec.
    eapply (find_leaf_fresh cmp cmp_trans); [| | |exact Hf]; simpl; rewrite ?app_nil_r; [done|set_solver..].
  - rewrite bool_decide_false by (intros [? ?]; done). apply (find_leaf_None cmp cmp_trans) in Hf as (a & Ha & H1 & H2 & _).
    apply not_true_iff_false. rewrite fresh_key_spec. intros H. apply H in Ha as [?|?]; congruence.
Qed.

Lemma cmp_asym a b : cmp a b = true -> cmp b a = false.
Proof.
  intros H. destruct (cmp b a) eqn:E; [|done]. rewrite <- (cmp_irrefl a). symmetry. by eapply cmp_trans.
Qed.

Lemma equal_members_eq x l a b :
  sorted l -> a ∈ l -> b ∈ l -> cmp x a = false -> cmp a x = false ->
  cmp x b = false -> cmp b x = false -> a = b.
Proof.
  intros Hs. induction Hs as [|y l Hs IH Hy]; [set_solver|]. rewrite Forall_forall in Hy.
  intros [->|Ha]%elem_of_cons [->|Hb]%elem_of_cons ????; [done| | |by apply IH].
  - destruct (cmp_weak y b x (Hy _ Hb)); congruence.
  - destruct (cmp_weak y a x (Hy _ Ha)); congruence.
Qed.

Lemma StronglySorted_sublist_filter l (P : Z -> Prop) `{forall x, Decision (P x)} :
  sorted l -> sorted (filter P l).
Proof.
  induction 1 as [|y l Hs IH Hy]; [constructor|]. rewrite filter_cons. case_decide; [|done].
  constructor; [done|]. apply Forall_forall. intros b Hb. apply list_elem_of_filter in Hb as [_ Hb].
  rewrite Forall_forall in Hy. by apply Hy.
Qed.

Lemma insert_key_split x l1 l2 :
  (forall b, b ∈ l1 -> cmp b x = true) -> (forall b, b ∈ l2 -> cmp x b = true) ->
  insert_key cmp x (l1 ++ l2) = l1 ++ x :: l2.
Proof.
  intros H1 H2. induction l1 as [|a l1 IH]; simpl.
  - destruct l2 as [|b l2]; [done|]. simpl. by rewrite H2 by set_solver.
  - rewrite (cmp_asym a x) by (apply H1; set_solver). f_equal. apply IH. set_solver.
Qed.

Lemma find_key_spec x t :
  sorted (inorder t) -> 0 ∉ inorder t -> find_key cmp x (inorder t) = find_eq cmp x t.
Proof.
  intros Hs H0. destruct (find_eq_spec cmp cmp_trans x t Hs H0) as [Hz Hnz]. unfold find_key.
  destruct (list_find _ (inorder t)) as [[i a]|] eqn:Hf.
  - apply list_find_Some in Hf as (Hi & [H1 H2] & _).
    assert (Ha : a ∈ inorder t) by by apply list_elem_of_lookup_2 in Hi.
    destruct (decide (find_eq cmp x t = 0)) as [E|E].
    { destruct (proj1 Hz E a Ha); congruence. }
    destruct (Hnz E) as (Hin & H3 & H4). by apply (equal_members_eq x (inorder t)).
  - apply list_find_None in Hf. symmetry. apply Hz. intros a Ha.
    rewrite Forall_forall in Hf. specialize (Hf a Ha). simpl in Hf.
    destruct (cmp x a); [by left|]. destruct (cmp a x); [by right|]. by destruct Hf.
Qed.

(** ** One call *)
Lemma set_NoDup s l : is_set cmp s l -> NoDup l /\ 0 ∉ l.
Proof.
  intros (t & (_ & _ & Hok) & _ & <- & _). apply addr_ok_NoDup_l in Hok. tauto.
Qed.

Lemma set_insert s l x n0 :
  is_set cmp s l -> nodes s !! x = Some n0 -> x <> 0 -> x mod 4 = 0 -> x ∉ l ->
  exists s', _rb_insert cmp x s = Ret (if fresh_key cmp x l then 0 else -1, s') /\
    is_set cmp s' (if fresh_key cmp x l then insert_key cmp x l else l).
Proof.
  intros (t & Ht & Hrb & <- & Hs) Hx Hx0 Hx4 Hni. pose proof Ht as (_ & _ & Hok).
  assert (Hok' : addr_ok (x :: inorder t)).
  { unfold outside in Hok. simpl in Hok. rewrite app_nil_r in Hok. destruct Hok as [[? ?]%NoDup_cons Hal].
    split; [|by constructor]. apply NoDup_cons. split; [set_solver|]. by apply NoDup_cons. }
  pose proof (insert_refines cmp cmp_trans s t x n0 Ht Hrb Hs Hx Hok') as Hi. rewrite fresh_key_find by done.
  destruct (find_leaf cmp x t []) as [k|] eqn:Hf.
  - rewrite bool_decide_true by eauto. destruct Hi as (s' & E1 & Ht'). exists s'. split; [done|].
    destruct (insert_search_tree cmp cmp_trans t x k Hrb Hs Hf) as (Hrb' & Hs' & _).
    exists (ins_fix (T Red E x E) k). split; [done|]. split; [done|].
    assert (Hio : inorder (ins_fix (T Red E x E) k) = insert_key cmp x (inorder t)).
    { pose proof (find_leaf_plug _ _ _ _ _ Hf) as Hp. apply (f_equal inorder) in Hp.
      rewrite inorder_plug in Hp. simpl in Hp. rewrite ins_fix_inorder, inorder_plug, <- Hp. simpl.
      destruct (find_leaf_bounds cmp cmp_trans x t [] k) as [Hb Ha]; simpl; rewrite ?app_nil_r; try done; try by intros ? ?%elem_of_nil.
      by rewrite insert_key_split. }
    rewrite <- Hio. done.
  - rewrite bool_decide_false by (intros [? ?]; done). destruct Hi as (s' & E1 & Ht'). exists s'.
    split; [done|]. by exists t.
Qed.

Lemma set_erase s l x :
  is_set cmp s l -> x ∈ l ->
  exists s', _rb_erase x s = Ret (tt, s') /\ is_set cmp s' (filter (fun b => b <> x) l).
Proof.
  intros Hset Hx. pose proof (set_NoDup _ _ Hset) as [Hnd _].
  destruct Hset as (t & Ht & Hrb & <- & Hs).
  destruct (plug_focus x t [] Hx) as (c & tl & r & k & E1). simpl in E1. subst t.
  destruct (erase_refines s c tl x r k Ht Hrb) as (s' & E1 & Ht'). exists s'. split; [done|].
  exists (era c tl r k). split; [done|]. split; [by eapply era_redblack|].
  assert (Heq : inorder (era c tl r k) = filter (fun b => b <> x) (inorder (plug (T c tl x r) k))).
  { rewrite inorder_plug in Hnd |- *. cbn [inorder] in Hnd |- *. rewrite era_inorder.
    assert (Ere : before k ++ (inorder tl ++ x :: inorder r) ++ after k =
      (before k ++ inorder tl) ++ x :: (inorder r ++ after k)) by by app_norm.
    rewrite Ere in Hnd |- *. rewrite filter_mid by done. by app_norm. }
  rewrite <- Heq. split; [done|]. rewrite Heq.
  eapply StronglySorted_sublist_filter. exact Hs.
Qed.

Lemma set_lookup s l x : is_set cmp s l -> _rb_lookup cmp x s = Ret (find_key cmp x l, s).
Proof.
  intros (t & Ht & _ & <- & Hs). rewrite find_key_spec; [by apply (lookup_refines cmp cmp_trans)|done|].
  destruct Ht as (_ & _ & Hok). apply addr_ok_NoDup_l in Hok. tauto.
Qed.

Lemma set_first s l : is_set cmp s l -> _rb_first s = Ret (hd 0 l, s).
Proof. intros (t & Ht & _ & <- & _). by apply first_refines. Qed.
End set_ops.

(** ** No call allocates or frees a node *)
Abbreviation node_set := (fun s : rbst => dom (nodes s)).

Lemma keeps_on_nodes {A} (m : M heap A) : keeps dom m -> keeps node_set (on_nodes m).
Proof.
  intros Hm s a s' H. unfold on_nodes, zoom in H. destruct (m (nodes s)) as [[? h]|] eqn:E; [|done].
  simplify_eq. by apply Hm in E.
Qed.
#[local] Hint Resolve keeps_on_nodes : keeps.

Lemma keeps_set_root v : keeps node_set (set_root v).
Proof. by apply keeps_modify. Qed.
#[local] Hint Resolve keeps_set_root : keeps.

Ltac rb_keeps :=
  repeat first
    [ progress keeps_tac
    | progress unfold pc_of, right_of, left_of, set_pc, set_right, set_left, rb_set_parent_color,
        rb_set_parent, rb_set_black, rb_red_parent, rb_is_red, rb_is_black, rb_parent, and_is_red,
        or_is_black, set_parent_color_if, __rb_change_child, __rb_rotate_set_parents, rb_fuel, rb_successor ].

Lemma insert_keeps_dom cmp x : keeps node_set (_rb_insert cmp x).
Proof. unfold _rb_insert, __rb_insert_fix, rb_insert_descend, rb_insert_fix_body. rb_keeps. Qed.

Lemma erase_keeps_dom x : keeps node_set (_rb_erase x).
Proof. unfold _rb_erase, __rb_erase, __rb_erase_fix, rb_erase_fix_body. rb_keeps. Qed.

(** ** Sequences of calls *)
Inductive rb_op := OInsert (x : Z) | OErase (x : Z) | OLookup (x : Z) | OFirst.

Definition rb_call (cmp : Z -> Z -> bool) (op : rb_op) : M rbst Z :=
  match op with
  | OInsert x => _rb_insert cmp x
  | OErase x => _rb_erase x ;;; ret 0
  | OLookup x => _rb_lookup cmp x
  | OFirst => _rb_first
  end.

Definition set_call (cmp : Z -> Z -> bool) (op : rb_op) (l : list Z) : Z * list Z :=
  match op with
  | OInsert x => if fresh_key cmp x l then (0, insert_key cmp x l) else (-1, l)
  | OErase x => (0, filter (fun b => b <> x) l)
  | OLookup x => (find_key cmp x l, l)
  | OFirst => (hd 0 l, l)
  end.

(** What a caller owes: a node to insert is allocated, aligned and not in the
    tree, a node to erase is in it. *)
Definition call_ok (d : gset Z) (op : rb_op) (l : list Z) : Prop :=
  match op with
  | OInsert x => x ∈ d /\ x <> 0 /\ x mod 4 = 0 /\ x ∉ l
  | OErase x => x ∈ l
  | _ => True
  end.

Fixpoint rb_run (cmp : Z -> Z -> bool) (ops : list rb_op) : M rbst (list Z) :=
  match ops with
  | [] => ret []
  | op :: ops' => r <- rb_call cmp op ;; rs <- rb_run cmp ops' ;; ret (r :: rs)
  end.

Fixpoint set_run (cmp : Z -> Z -> bool) (ops : list rb_op) (l : list Z) : list Z * list Z :=
  match ops with
  | [] => ([], l)
  | op :: ops' => let '(r, l') := set_call cmp op l in
                  let '(rs, l'') := set_run cmp ops' l' in (r :: rs, l'')
  end.

Fixpoint run_ok (cmp : Z -> Z -> bool) (d : gset Z) (ops : list rb_op) (l : list Z) : Prop :=
  match ops with
  | [] => True
  | op :: ops' => call_ok d op l /\ run_ok cmp d ops' (set_call cmp op l).2
  end.

#[export] Instance call_ok_dec d op l : Decision (call_ok d op l).
Proof. destruct op; simpl; apply _. Defined.

#[export] Instance run_ok_dec cmp d ops l : Decision (run_ok cmp d ops l).
Proof.
  revert l. induction ops as [|op ops IH]; intros l; simpl; [apply _|].
  specialize (IH (set_call cmp op l).2). apply _.
Defined.

(** A comparator of the kernel: less-than on a key of the node. *)
Class KeyOrder (cmp : Z -> Z -> bool) : Prop := {
  ko_irrefl : forall a, cmp a a = false;
  ko_trans : forall a b c, cmp a b = true -> cmp b c = true -> cmp a c = true;
  ko_weak : forall a b c, cmp a b = true -> cmp a c = true \/ cmp c b = true
}.

#[export] Instance key_order (key : Z -> Z) : KeyOrder (fun a b => key a <? key b).
Proof.
  split; intros *; rewrite ?Z.ltb_lt, ?Z.ltb_ge; try lia.
Qed.

Section run.
Context (cmp : Z -> Z -> bool) `{!KeyOrder cmp}.

Lemma call_refines op s l :
  is_set cmp s l -> call_ok (dom (nodes s)) op l ->
  exists s', rb_call cmp op s = Ret ((set_call cmp op l).1, s') /\
    is_set cmp s' (set_call cmp op l).2 /\ dom (nodes s') = dom (nodes s).
Proof.
  intros Hs Hok. destruct op as [x|x|x|]; simpl in *.
  - destruct Hok as (Hx & ? & ? & ?). apply elem_of_dom in Hx as [n Hx].
    destruct (set_insert cmp ko_trans ko_irrefl ko_weak s l x n) as (s' & E1 & Hs'); try done.
    exists s'. pose proof (insert_keeps_dom cmp x s _ _ E1). by destruct (fresh_key cmp x l).
  - destruct (set_erase cmp s l x Hs Hok) as (s' & E1 & H1). exists s'.
    pose proof (erase_keeps_dom x s _ _ E1). split; [|done]. by rewrite (bind_Ret _ _ _ _ _ E1).
  - exists s. split; [|done]. by apply (set_lookup cmp ko_trans ko_irrefl ko_weak).
  - exists s. split; [|done]. by eapply set_first.
Qed.

Lemma run_refines ops s l :
  is_set cmp s l -> run_ok cmp (dom (nodes s)) ops l ->
  exists s', rb_run cmp ops s = Ret ((set_run cmp ops l).1, s') /\ is_set cmp s' (set_run cmp ops l).2.
Proof.
  revert s l. induction ops as [|op ops IH]; intros s l Hs Hok; [by exists s|]. destruct Hok as [Hc Hok].
  destruct (call_refines op s l Hs Hc) as (s1 & E1 & Hs1 & Hd). cbn [rb_run set_run].
  rewrite <- Hd in Hok. destruct (IH s1 _ Hs1 Hok) as (s2 & E2 & Hs2).
  destruct (set_call cmp op l) as [r l']. simpl in *.
  rewrite (bind_Ret _ _ _ _ _ E1), (bind_Ret _ _ _ _ _ E2). exists s2.
  by destruct (set_run cmp ops l') as [rs l''].
Qed.
End run.

(** ** The properties *)

(** [_rb_insert] on a red-black search tree, with an allocated, aligned
    node [x] that is not in the tree, always returns; it returns 0 and the
    tree then holds [x] at its place in the order when no member compares
    equal to [x], and returns -1 and leaves the members alone otherwise.
    The result is a red-black search tree again. *)
Theorem rb_insert_correct (cmp : Z -> Z -> bool) (Hcmp : KeyOrder cmp) (s : rbst) (l : list Z) (x : Z) :
  is_set cmp s l -> is_Some (nodes s !! x) -> x <> 0 -> x mod 4 = 0 -> x ∉ l ->
  exists s', _rb_insert cmp x s = Ret (if fresh_key cmp x l then 0 else -1, s') /\
    is_set cmp s' (if fresh_key cmp x l then insert_key cmp x l else l).
Proof.
  intros Hs [n Hx] H0 H4 Hni. by apply (set_insert cmp ko_trans ko_irrefl ko_weak s l x n).
Qed.

(** [_rb_erase] of a member always returns, removes exactly that node,
    keeps the order of the others and restores the red-black invariant. *)
Theorem rb_erase_correct (cmp : Z -> Z -> bool) (Hcmp : KeyOrder cmp) (s : rbst) (l : list Z) (x : Z) :
  is_set cmp s l -> x ∈ l ->
  exists s', _rb_erase x s = Ret (tt, s') /\ is_set cmp s' (filter (fun b => b <> x) l).
Proof. by apply (set_erase cmp). Qed.

(** C2: any sequence of calls of [_rb_insert], [_rb_erase], [_rb_lookup] and
    [_rb_first] that keeps to the callers' obligations returns the results of
    the ordered-set specification and ends in its state. *)
Theorem rb_run_refines (cmp : Z -> Z -> bool) (Hcmp : KeyOrder cmp) (ops : list rb_op) (s : rbst) (l : list Z) :
  is_set cmp s l -> run_ok cmp (dom (nodes s)) ops l ->
  exists s', rb_run cmp ops s = Ret ((set_run cmp ops l).1, s') /\ is_set cmp s' (set_run cmp ops l).2.
Proof. by apply run_refines. Qed.

(** [_rb_lookup] returns the member that compares equal to [node], or
    NULL, changes nothing, and does so in at most 2 log2 (n+1) steps down the
    tree: a loop with one turn more than that already returns. *)
Theorem rb_lookup_correct (cmp : Z -> Z -> bool) (Hcmp : KeyOrder cmp) (s : rbst) (l : list Z) (x : Z) :
  is_set cmp s l ->
  _rb_lookup cmp x s = Ret (find_key cmp x l, s) /\
  while (S (2 * Nat.log2 (S (length l)))) (rb_lookup_body cmp x) (root s) s = Ret (find_key cmp x l, s).
Proof.
  intros Hs. split; [by apply (set_lookup cmp ko_trans ko_irrefl ko_weak)|].
  destruct Hs as (t & (Hr & Hroot & Hok) & Hrb & <- & Hs). apply redblack_height in Hrb.
  assert (H0 : 0 ∉ inorder t) by (apply addr_ok_NoDup_l in Hok; tauto).
  rewrite (find_key_spec cmp ko_trans ko_irrefl ko_weak) by done. simpl in Hroot. rewrite Hroot.
  eapply (lookup_loop cmp ko_trans); [done|done|done|lia].
Qed.

(** ** A tree of four nodes, keyed by address *)
Definition ex_cmp (a b : Z) : bool := a <? b.

Definition ex_nodes : heap :=
  {[ 16 := mkRbNode 32 0 0; 32 := mkRbNode 1 48 16; 48 := mkRbNode 32 0 0; 64 := mkRbNode 0 0 0;
     20 := mkRbNode 0 0 0 ]}.
Definition ex_rb : rbst := mkRb ex_nodes 32.
Definition ex_tree : tree := T Black (T Red E 16 E) 32 (T Red E 48 E).

Lemma ex_order : KeyOrder ex_cmp.
Proof. apply (key_order (fun a => a)). Qed.

Lemma ex_is_set : is_set ex_cmp ex_rb [16; 32; 48].
Proof.
  exists ex_tree. split; [|split; [|split]].
  - split; [vm_compute; repeat split|]. split; [reflexivity|]. split.
    + apply (bool_decide_unpack _). by vm_compute.
    + repeat constructor.
  - split; [done|]. split; [simpl; intuition done|]. exists 1%nat. simpl. exists 0%nat. done.
  - done.
  - repeat constructor.
Qed.

Lemma rb_insert_correct_witness :
  exists s', _rb_insert ex_cmp 64 ex_rb = Ret (0, s') /\ is_set ex_cmp s' [16; 32; 48; 64].
Proof.
  apply (rb_insert_correct ex_cmp ex_order ex_rb [16; 32; 48] 64 ex_is_set).
  - vm_compute. eauto.
  - lia.
  - reflexivity.
  - apply (bool_decide_unpack _). by vm_compute.
Defined.

Lemma rb_erase_correct_witness :
  exists s', _rb_erase 32 ex_rb = Ret (tt, s') /\ is_set ex_cmp s' [16; 48].
Proof.
  apply (rb_erase_correct ex_cmp ex_order ex_rb [16; 32; 48] 32 ex_is_set).
  apply (bool_decide_unpack _). by vm_compute.
Defined.

Lemma rb_lookup_correct_witness :
  _rb_lookup ex_cmp 48 ex_rb = Ret (48, ex_rb) /\
  while (S (2 * Nat.log2 4)) (rb_lookup_body ex_cmp 48) 32 ex_rb = Ret (48, ex_rb).
Proof. apply (rb_lookup_correct ex_cmp ex_order ex_rb [16; 32; 48] 48 ex_is_set). Defined.

Lemma rb_run_refines_witness :
  exists s', rb_run ex_cmp [OInsert 64; OErase 32; OLookup 48; OErase 16; OFirst; OInsert 20] ex_rb =
    Ret ([0; 0; 48; 0; 48; 0], s') /\ is_set ex_cmp s' [20; 48; 64].
Proof.
  apply (rb_run_refines ex_cmp ex_order
    [OInsert 64; OErase 32; OLookup 48; OErase 16; OFirst; OInsert 20] ex_rb [16; 32; 48] ex_is_set).
  apply (bool_decide_unpack _). by vm_compute.
Defined.
