(* ===== verification/Bytes.v ===== *)
(** * Bytes in memory and on disk

    The code casts block buffers to arrays of 64-bit cells, to inode entries
    and to directory entries, and copies ranges of them with [memmove]; the
    machine is little-endian.  This file holds those views and their round
    trips. *)
From stdpp Require Import base list.
From Stdlib Require Import ZArith Lia.
From S2P Require Import Prelude.

Abbreviation bytes := (list Z).

Definition byte_ok (b : Z) : Prop := 0 <= b < 256.

#[export] Instance byte_ok_dec b : Decision (byte_ok b).
Proof. unfold byte_ok. apply _. Defined.

(** ** One little-endian word *)
Fixpoint le_encode (n : nat) (z : Z) : bytes :=
  match n with O => [] | S n' => z mod 256 :: le_encode n' (z / 256) end.

Fixpoint le_decode (l : bytes) : Z :=
  match l with [] => 0 | b :: l' => b + 256 * le_decode l' end.

Lemma le_encode_length n z : length (le_encode n z) = n.
Proof. revert z. induction n; intros z; simpl; auto. Qed.

Lemma le_encode_ok n z : Forall byte_ok (le_encode n z).
Proof.
  revert z. induction n as [|n IH]; intros z; constructor; [|done].
  unfold byte_ok. by apply Z.mod_pos_bound.
Qed.

Lemma le_decode_bound l : Forall byte_ok l -> 0 <= le_decode l < 256 ^ Z.of_nat (length l).
Proof.
  induction 1 as [|b l Hb _ IH]; [done|]. unfold byte_ok in Hb. simpl length.
  rewrite Nat2Z.inj_succ, Z.pow_succ_r by lia. cbn [le_decode]. lia.
Qed.

Lemma le_decode_encode n z : 0 <= z < 256 ^ Z.of_nat n -> le_decode (le_encode n z) = z.
Proof.
  revert z. induction n as [|n IH]; intros z Hz; [simpl in *; lia|].
  rewrite Nat2Z.inj_succ, Z.pow_succ_r in Hz by lia. cbn [le_encode le_decode].
  rewrite IH; [pose proof (Z.div_mod z 256); lia|].
  split; [apply Z.div_pos; lia|]. apply Z.div_lt_upper_bound; lia.
Qed.

Lemma le_encode_decode l : Forall byte_ok l -> le_encode (length l) (le_decode l) = l.
Proof.
  induction 1 as [|b l Hb _ IH]; [done|]. unfold byte_ok in Hb. cbn [length le_encode le_decode].
  rewrite (Z.mul_comm 256), Z.mod_add, Z.div_add, Z.mod_small, Z.div_small, Z.add_0_l by lia. by rewrite IH.
Qed.

(** ** Arrays of words *)
Fixpoint words (w n : nat) (l : bytes) : list Z :=
  match n with O => [] | S n' => le_decode (take w l) :: words w n' (drop w l) end.

Fixpoint unwords (w : nat) (ws : list Z) : bytes :=
  match ws with [] => [] | z :: ws' => le_encode w z ++ unwords w ws' end.

Definition word_ok (w : nat) (z : Z) : Prop := 0 <= z < 256 ^ Z.of_nat w.

Lemma unwords_length w ws : length (unwords w ws) = (w * length ws)%nat.
Proof. induction ws as [|z ws IH]; simpl; [lia|]. rewrite length_app, le_encode_length, IH. lia. Qed.

Lemma unwords_app w l1 l2 : unwords w (l1 ++ l2) = unwords w l1 ++ unwords w l2.
Proof. induction l1 as [|x l1 IH]; cbn [unwords app]; [done|]. by rewrite IH, app_assoc. Qed.

Lemma unwords_ok w ws : Forall byte_ok (unwords w ws).
Proof. induction ws; simpl; [constructor|]. apply Forall_app. split; [apply le_encode_ok|done]. Qed.

Lemma words_length w n l : length (words w n l) = n.
Proof. revert l. induction n; intros l; simpl; auto. Qed.

Lemma words_unwords w ws rest :
  Forall (word_ok w) ws -> words w (length ws) (unwords w ws ++ rest) = ws.
Proof.
  induction 1 as [|z ws Hz _ IH]; [done|]. cbn [length words unwords].
  rewrite <- app_assoc. f_equal.
  - rewrite take_app_length' by (by rewrite le_encode_length). by apply le_decode_encode.
  - rewrite drop_app_length' by (by rewrite le_encode_length). done.
Qed.

Lemma unwords_words w n l :
  Forall byte_ok l -> length l = (w * n)%nat -> unwords w (words w n l) = l.
Proof.
  revert l. induction n as [|n IH]; intros l Hl Hlen; [destruct l; simpl in *; [done|lia]|].
  cbn [words unwords]. rewrite IH.
  - assert (E : length (take w l) = w) by (rewrite length_take; lia).
    rewrite <- E at 1. rewrite le_encode_decode by by apply Forall_take. apply take_drop.
  - by apply Forall_drop.
  - rewrite length_drop. lia.
Qed.

Lemma words_ok w n l : Forall byte_ok l -> length l = (w * n)%nat -> Forall (word_ok w) (words w n l).
Proof.
  revert l. induction n as [|n IH]; intros l Hl Hlen; [constructor|]. cbn [words]. constructor.
  - pose proof (le_decode_bound (take w l) (Forall_take _ _ _ Hl)) as H.
    rewrite length_take in H. by replace (w `min` length l)%nat with w in H by lia.
  - apply IH; [by apply Forall_drop|]. rewrite length_drop. lia.
Qed.

(** ** [memmove(l + off, src, length src)] and reading a range *)
Definition splice (off : nat) (src l : bytes) : bytes :=
  take off l ++ src ++ drop (off + length src) l.

Definition range (off len : nat) (l : bytes) : bytes := take len (drop off l).

Lemma splice_length off src l :
  (off + length src <= length l)%nat -> length (splice off src l) = length l.
Proof. intros. unfold splice. rewrite !length_app, length_take, length_drop. lia. Qed.

Lemma splice_lookup off src l i :
  (off + length src <= length l)%nat ->
  splice off src l !! i =
    if decide (off <= i < off + length src)%nat then src !! (i - off)%nat else l !! i.
Proof.
  intros Hlen. unfold splice.
  assert (Ht : length (take off l) = off) by (rewrite length_take; lia).
  case_decide as Hi.
  - rewrite lookup_app_r, Ht by lia. rewrite lookup_app_l by lia. done.
  - destruct (decide (i < off)%nat).
    + rewrite lookup_app_l by lia. by apply lookup_take_lt.
    + rewrite lookup_app_r, Ht by lia. rewrite lookup_app_r by lia. rewrite lookup_drop. f_equal. lia.
Qed.

Lemma range_splice_same off src l :
  (off + length src <= length l)%nat -> range off (length src) (splice off src l) = src.
Proof.
  intros H. unfold range, splice. rewrite drop_app_length' by (rewrite length_take; lia).
  by rewrite take_app_length.
Qed.

Lemma range_lookup off len l i :
  range off len l !! i = if decide (i < len)%nat then l !! (off + i)%nat else None.
Proof.
  unfold range. case_decide.
  - rewrite lookup_take_lt by done. by rewrite lookup_drop.
  - rewrite lookup_take_ge by lia. done.
Qed.

Lemma range_length off len l : (off + len <= length l)%nat -> length (range off len l) = len.
Proof. intros. unfold range. rewrite length_take, length_drop. lia. Qed.

Lemma range_splice_disjoint off src l o n :
  (off + length src <= length l)%nat -> (o + n <= off \/ off + length src <= o)%nat ->
  range o n (splice off src l) = range o n l.
Proof.
  intros Hlen Hd. apply list_eq. intros i. rewrite !range_lookup. case_decide; [|done].
  rewrite splice_lookup by done. rewrite decide_False by lia. done.
Qed.

Lemma splice_ok off src l : Forall byte_ok src -> Forall byte_ok l -> Forall byte_ok (splice off src l).
Proof.
  intros. unfold splice. rewrite !Forall_app. eauto using Forall_take, Forall_drop.
Qed.

Lemma range_ok off n l : Forall byte_ok l -> Forall byte_ok (range off n l).
Proof. intros. unfold range. eauto using Forall_take, Forall_drop. Qed.
