(* ===== verification/BCache.v ===== *)
(** * The block cache and the write-ahead log (fs/cache.c)

    [Block]s live in a heap of their own and hang off the list [lru], the
    sequence of the circular list whose sentinel is [head] (CList.v proves
    that circular lists with a sentinel behave as such sequences).  The disk
    is a finite map; every write to the device is also appended to [dtrace],
    from which BCacheCrash.v reads what a crash may leave behind.  The
    critical sections under [lock] and [log.lock] are single transitions, and
    a call that would block stops with [Sleep]. *)
From stdpp Require Import base gmap list.
From Stdlib Require Import ZArith Lia.
From S2P Require Import Prelude Bytes Bitmap.

(** ** Data (fs/defines.h, fs/cache.h) *)
Definition BLOCK_SIZE := 512.
Definition LOG_MAX_SIZE := 63.
Definition BIT_PER_BLOCK := BLOCK_SIZE * 8.
Definition OP_MAX_NUM_BLOCKS := 10.
Definition EVICTION_THRESHOLD := 20.

(** The content of a block. *)
Definition block_ok (d : bytes) : Prop := length d = Z.to_nat BLOCK_SIZE /\ Forall byte_ok d.

Record SuperBlock := mkSuper {
  sb_num_blocks : Z; sb_num_data_blocks : Z; sb_num_inodes : Z; sb_num_log_blocks : Z;
  sb_log_start : Z; sb_inode_start : Z; sb_bitmap_start : Z
}.

Record LogHeader := mkHeader { num_blocks : Z; hblock_no : list Z }.

(** [lock] is the value of the block's sleep lock; nobody sleeps on it in a
    sequential run. *)
Record Block := mkBlock {
  block_no : Z; acquired : bool; pinned : bool; lock : Z; valid : bool; data : bytes
}.

Record LOG := mkLog { log_used : Z; log_size : Z; outstanding : Z; committing : bool }.

Record bcst := mkBc {
  blocks : gmap Z Block;
  lru : list Z;
  disk : gmap Z bytes;
  dtrace : list (Z * bytes);
  header : LogHeader;
  log : LOG;
  ctxs : gmap Z Z    (* [rm] of the operation contexts *)
}.

(** [kalloc] hands out an address that is not in use (kernel/mem.c). *)
Class Kalloc := {
  kalloc : gset Z -> Z;
  kalloc_fresh : forall d, kalloc d ∉ d;
  kalloc_nonnull : forall d, kalloc d <> 0
}.

Section code.
Context (sblock : SuperBlock) {KA : Kalloc}.

(** ** Access to the state *)
Definition set_blocks (f : gmap Z Block -> gmap Z Block) (s : bcst) : bcst :=
  mkBc (f (blocks s)) (lru s) (disk s) (dtrace s) (header s) (log s) (ctxs s).
Definition set_lru (f : list Z -> list Z) (s : bcst) : bcst :=
  mkBc (blocks s) (f (lru s)) (disk s) (dtrace s) (header s) (log s) (ctxs s).
Definition set_header (f : LogHeader -> LogHeader) (s : bcst) : bcst :=
  mkBc (blocks s) (lru s) (disk s) (dtrace s) (f (header s)) (log s) (ctxs s).
Definition set_log (f : LOG -> LOG) (s : bcst) : bcst :=
  mkBc (blocks s) (lru s) (disk s) (dtrace s) (header s) (f (log s)) (ctxs s).
Definition set_ctxs (f : gmap Z Z -> gmap Z Z) (s : bcst) : bcst :=
  mkBc (blocks s) (lru s) (disk s) (dtrace s) (header s) (log s) (f (ctxs s)).

Definition load_block (p : Z) : M bcst Block :=
  fun s => match blocks s !! p with Some b => Ret (b, s) | None => Stop Fault end.
Definition update_block (p : Z) (f : Block -> Block) : M bcst unit :=
  fun s => match blocks s !! p with
           | Some b => Ret (tt, set_blocks (insert p (f b)) s)
           | None => Stop Fault
           end.

Definition set_acquired (v : bool) (b : Block) : Block :=
  mkBlock (block_no b) v (pinned b) (lock b) (valid b) (data b).
Definition set_pinned (v : bool) (b : Block) : Block :=
  mkBlock (block_no b) (acquired b) v (lock b) (valid b) (data b).
Definition set_lock (v : Z) (b : Block) : Block :=
  mkBlock (block_no b) (acquired b) (pinned b) v (valid b) (data b).
Definition set_data (d : bytes) (b : Block) : Block :=
  mkBlock (block_no b) (acquired b) (pinned b) (lock b) (valid b) d.

(** ** The device *)
Definition dev_read (n : Z) : M bcst bytes :=
  fun s => match disk s !! n with Some d => Ret (d, s) | None => Stop Fault end.
Definition dev_write (n : Z) (d : bytes) : M bcst unit :=
  fun s => match disk s !! n with
           | Some _ => Ret (tt, mkBc (blocks s) (lru s) (<[n := d]> (disk s)) (dtrace s ++ [(n, d)])
                                  (header s) (log s) (ctxs s))
           | None => Stop Fault
           end.

Definition device_read (p : Z) : M bcst unit :=
  b <- load_block p ;; d <- dev_read (block_no b) ;; update_block p (set_data d).
Definition device_write (p : Z) : M bcst unit :=
  b <- load_block p ;; dev_write (block_no b) (data b).

(** [(u8* )&header] *)
Definition header_bytes (h : LogHeader) : bytes := unwords 8 (num_blocks h :: hblock_no h).
Definition header_of (d : bytes) : LogHeader :=
  match words 8 64 d with n :: l => mkHeader n l | [] => mkHeader 0 [] end.

Definition read_header : M bcst unit :=
  d <- dev_read (sb_log_start sblock) ;; modify (set_header (fun _ => header_of d)).
Definition write_header : M bcst unit :=
  h <- gets header ;; dev_write (sb_log_start sblock) (header_bytes h).

(** ** The cache *)
Definition init_block : Block :=
  mkBlock 0 false false 1 false (replicate (Z.to_nat BLOCK_SIZE) 0).

Fixpoint count_nodes (l : list Z) (num : Z) : Z :=
  match l with [] => num | _ :: l' => count_nodes l' (i32 (num + 1)) end.
Definition get_num_cached_blocks : M bcst Z := l <- gets lru ;; ret (count_nodes l 0).

(** The semaphore of a sleep lock: [get_sem], [unalertable_wait_sem] and
    [post_sem]; a negative value after a post means that someone sleeps, and
    the code asserts that the sleep list is not empty. *)
Definition get_sem (p : Z) : M bcst unit :=
  b <- load_block p ;; when (lock b >? 0) (update_block p (set_lock (lock b - 1))).
Definition unalertable_wait_sem (p : Z) : M bcst unit :=
  b <- load_block p ;;
  if lock b - 1 >=? 0 then update_block p (set_lock (lock b - 1)) else stop Sleep.
Definition post_sem (p : Z) : M bcst unit :=
  b <- load_block p ;;
  if lock b + 1 <=? 0 then stop Panic else update_block p (set_lock (lock b + 1)).

(** The search loop of [cache_acquire]. *)
Fixpoint find_cached (bno : Z) (l : list Z) : M bcst (option Z) :=
  match l with
  | [] => ret None
  | p :: l' => b <- load_block p ;; if block_no b =? bno then ret (Some p) else find_cached bno l'
  end.

Definition detach (p : Z) (l : list Z) : list Z := filter (fun q => q <> p) l.

(** The eviction loop, [ps] being the nodes from [head.prev] backwards. *)
Fixpoint evict (ps : list Z) (cnum : Z) : M bcst unit :=
  match ps with
  | [] => ret tt
  | p :: ps' =>
      if cnum >=? EVICTION_THRESHOLD then
        b <- load_block p ;;
        if negb (pinned b) && negb (acquired b) then
          modify (set_lru (detach p)) ;;; modify (set_blocks (delete p)) ;;; evict ps' (cnum - 1)
        else evict ps' cnum
      else ret tt
  end.

Definition alloc_block (bno : Z) : M bcst Z :=
  p <- gets (fun s => kalloc (dom (blocks s))) ;;
  modify (set_blocks (insert p (mkBlock bno true (pinned init_block) (lock init_block) true (data init_block)))) ;;;
  ret p.

(** [goto start] runs again after a sleep; [fuel] counts the restarts. *)
Fixpoint cache_acquire_loop (fuel : nat) (bno : Z) : M bcst Z :=
  match fuel with
  | O => stop NoFuel
  | S fuel' =>
      l <- gets lru ;;
      found <- find_cached bno l ;;
      match found with
      | Some p =>
          b <- load_block p ;;
          if negb (acquired b) then
            get_sem p ;;;
            modify (set_lru (fun l => p :: detach p l)) ;;;
            update_block p (set_acquired true) ;;;
            ret p
          else unalertable_wait_sem p ;;; cache_acquire_loop fuel' bno
      | None =>
          cnum <- get_num_cached_blocks ;;
          (if cnum >=? EVICTION_THRESHOLD then ps <- gets (fun s => reverse (lru s)) ;; evict ps cnum else ret tt) ;;;
          p <- alloc_block bno ;;
          modify (set_lru (cons p)) ;;;
          unalertable_wait_sem p ;;;
          device_read p ;;;
          ret p
      end
  end.

Definition cache_acquire (bno : Z) : M bcst Z := cache_acquire_loop 2 bno.

Definition cache_release (p : Z) : M bcst unit :=
  update_block p (set_acquired false) ;;; post_sem p.

(** [memmove(dst->data, src->data, BLOCK_SIZE)] *)
Definition copy_block (dst src : Z) : M bcst unit :=
  b <- load_block src ;; update_block dst (set_data (data b)).

(** ** The log *)
Definition hblock (i : Z) : M bcst Z :=
  h <- gets header ;;
  match hblock_no h !! Z.to_nat i with Some n => ret n | None => stop Fault end.

Definition log_wb_turn (i : Z) : M bcst (option unit) :=
  logb <- cache_acquire (sb_log_start sblock + i + 1) ;;
  n <- hblock i ;;
  sdb <- cache_acquire n ;;
  copy_block sdb logb ;;;
  device_write sdb ;;;
  update_block sdb (set_pinned false) ;;;
  cache_release logb ;;;
  cache_release sdb ;;;
  ret None.

Definition log_wb : M bcst unit :=
  n <- gets (fun s => num_blocks (header s)) ;;
  for_upto (Z.to_nat n) 0 log_wb_turn ;;;
  modify (set_header (fun h => mkHeader 0 (hblock_no h))) ;;;
  write_header.

Definition init_bcache : M bcst unit :=
  modify (fun s => mkBc (blocks s) [] (disk s) (dtrace s) (header s)
    (mkLog 0 (u32 (Z.min LOG_MAX_SIZE (u32 (sb_num_log_blocks sblock - 1)))) 0 false) (ctxs s)) ;;;
  read_header ;;; log_wb.

Definition cache_begin_op (ctx : Z) : M bcst unit :=
  lg <- gets log ;;
  if (u32 (log_used lg + OP_MAX_NUM_BLOCKS) >? log_size lg) || committing lg then stop Sleep
  else
    modify (set_ctxs (insert ctx OP_MAX_NUM_BLOCKS)) ;;;
    modify (set_log (fun lg => mkLog (u32 (log_used lg + OP_MAX_NUM_BLOCKS)) (log_size lg)
                                 (u32 (outstanding lg + 1)) (committing lg))).

Definition load_ctx (ctx : Z) : M bcst Z :=
  fun s => match ctxs s !! ctx with Some rm => Ret (rm, s) | None => Stop Fault end.

(** The search loop of [cache_sync]: the index of [bno] among the first
    [num_blocks] entries, or [num_blocks]. *)
Fixpoint find_logged (n : nat) (i bno : Z) : M bcst Z :=
  match n with
  | O => ret i
  | S n' => b <- hblock i ;; if b =? bno then ret i else find_logged n' (i + 1) bno
  end.

Definition hblock_set (i bno : Z) : M bcst unit :=
  h <- gets header ;;
  if i <? Z.of_nat (length (hblock_no h)) then
    modify (set_header (fun h => mkHeader (num_blocks h) (<[Z.to_nat i := bno]> (hblock_no h))))
  else stop Fault.

(** [ctx] is [None] for a NULL context. *)
Definition cache_sync (ctx : option Z) (p : Z) : M bcst unit :=
  match ctx with
  | Some c =>
      b <- load_block p ;;
      n <- gets (fun s => num_blocks (header s)) ;;
      i <- find_logged (Z.to_nat n) 0 (block_no b) ;;
      hblock_set i (block_no b) ;;;
      if i =? n then
        rm <- load_ctx c ;;
        if rm =? 0 then stop Panic
        else
          modify (set_ctxs (insert c (u64 (rm - 1)))) ;;;
          modify (set_header (fun h => mkHeader (u64 (num_blocks h + 1)) (hblock_no h))) ;;;
          update_block p (set_pinned true)
      else ret tt
  | None => device_write p
  end.

Definition commit_turn (i : Z) : M bcst (option unit) :=
  logb <- cache_acquire (sb_log_start sblock + i + 1) ;;
  n <- hblock i ;;
  sdb <- cache_acquire n ;;
  copy_block logb sdb ;;;
  device_write logb ;;;
  cache_release logb ;;;
  cache_release sdb ;;;
  ret None.

Definition set_committing (v : bool) : M bcst unit :=
  modify (set_log (fun lg => mkLog (log_used lg) (log_size lg) (outstanding lg) v)).

(** The commit that the last operation to end performs. *)
Definition commit : M bcst unit :=
  set_committing true ;;;
  n <- gets (fun s => num_blocks (header s)) ;;
  for_upto (Z.to_nat n) 0 commit_turn ;;;
  write_header ;;;
  modify (fun s => set_log (fun lg => mkLog (u32 (log_used lg - num_blocks (header s))) (log_size lg)
                                        (outstanding lg) (committing lg)) s) ;;;
  log_wb ;;;
  set_committing false.

(** [true] when this call committed the group, [false] when it went to sleep
    until another operation commits it. *)
Definition cache_end_op (ctx : Z) : M bcst bool :=
  rm <- load_ctx ctx ;;
  modify (set_log (fun lg => mkLog (u32 (log_used lg - rm)) (log_size lg) (outstanding lg) (committing lg))) ;;;
  modify (set_ctxs (insert ctx 0)) ;;;
  modify (set_log (fun lg => mkLog (log_used lg) (log_size lg) (u32 (outstanding lg - 1)) (committing lg))) ;;;
  lg <- gets log ;;
  if outstanding lg =? 0 then commit ;;; ret true else ret false.

(** ** The free-block bitmap *)

(** [bitmap_get], [bitmap_set] and [bitmap_clear] on [(BitmapCell* )b->data]. *)
Definition on_cells {A} (p : Z) (m : M bitmap A) : M bcst A :=
  b <- load_block p ;;
  match m (words 8 64 (data b)) with
  | Ret (a, cells) => update_block p (set_data (unwords 8 cells)) ;;; ret a
  | Stop r => stop r
  end.

Definition cache_alloc_bit (ctx : option Z) (b i j : Z) : M bcst (option Z) :=
  used <- on_cells b (bitmap_get j) ;;
  if used : bool then ret None
  else
    on_cells b (bitmap_set j) ;;;
    cache_sync ctx b ;;;
    cache_release b ;;;
    nw <- cache_acquire (i + j) ;;
    update_block nw (set_data (replicate (Z.to_nat BLOCK_SIZE) 0)) ;;;
    cache_sync ctx nw ;;;
    cache_release nw ;;;
    ret (Some (i + j)).

Definition cache_alloc_block (ctx : option Z) (k : Z) : M bcst (option Z) :=
  let i := k * BIT_PER_BLOCK in
  b <- cache_acquire (sb_bitmap_start sblock + i / BIT_PER_BLOCK) ;;
  r <- for_upto (Z.to_nat (Z.min BIT_PER_BLOCK (SWAP_START - i))) 0 (cache_alloc_bit ctx b i) ;;
  match r with
  | Some n => ret (Some n)
  | None => cache_release b ;;; ret None
  end.

(** [for (i = 0; i < SWAP_START; i += BIT_PER_BLOCK)] *)
Definition cache_alloc (ctx : option Z) : M bcst Z :=
  r <- for_upto (Z.to_nat ((SWAP_START + BIT_PER_BLOCK - 1) / BIT_PER_BLOCK)) 0 (cache_alloc_block ctx) ;;
  match r with Some n => ret n | None => stop Panic end.

Definition cache_free (ctx : option Z) (bno : Z) : M bcst unit :=
  b <- cache_acquire (sb_bitmap_start sblock + bno / BIT_PER_BLOCK) ;;
  on_cells b (bitmap_clear (bno mod BIT_PER_BLOCK)) ;;;
  cache_sync ctx b ;;;
  cache_release b.

End code.
