(* ===== verification/BCacheInv.v ===== *)
(** * The block cache keeps a coherent view of the disk (fs/cache.c)

    [cache_ok] is the invariant of the cache, [view s n] the content of block
    [n] that clients see.  The lemmas give every operation of the cache as a
    change of [view], of the set of held blocks and of the disk. *)
From stdpp Require Import base gmap list.
From Stdlib Require Import ZArith Lia.
From S2P Require Import Prelude Bytes Bitmap BCache.

(** A block that is neither held nor in the log agrees with the disk. *)
Definition cached_ok (dk : gmap Z bytes) (b : Block) : Prop :=
  block_ok (data b) /\ valid b = true /\ lock b = (if acquired b then 0 else 1) /\
  is_Some (dk !! block_no b) /\
  (pinned b = false -> acquired b = false -> dk !! block_no b = Some (data b)).

Record cache_ok (s : bcst) : Prop := {
  co_nodup : NoDup (lru s);
  co_dom : forall p, p ∈ lru s <-> is_Some (blocks s !! p);
  co_inj : forall p q b c, blocks s !! p = Some b -> blocks s !! q = Some c -> block_no b = block_no c -> p = q;
  co_block : forall p b, blocks s !! p = Some b -> cached_ok (disk s) b;
  co_disk : forall n d, disk s !! n = Some d -> block_ok d;
  co_size : Z.of_nat (size (disk s)) < 2 ^ 31 - 1
}.

(** ** The cached copy of a block *)
Fixpoint find_in (bl : gmap Z Block) (l : list Z) (n : Z) : option (Z * Block) :=
  match l with
  | [] => None
  | p :: l' => match bl !! p with
               | Some b => if block_no b =? n then Some (p, b) else find_in bl l' n
               | None => None
               end
  end.

Definition cached (s : bcst) (n : Z) : option (Z * Block) := find_in (blocks s) (lru s) n.

Definition view (s : bcst) (n : Z) : option bytes :=
  match cached s n with Some (_, b) => Some (data b) | None => disk s !! n end.
Definition acq (s : bcst) (n : Z) : bool :=
  match cached s n with Some (_, b) => acquired b | None => false end.
Definition pin (s : bcst) (n : Z) : bool :=
  match cached s n with Some (_, b) => pinned b | None => false end.

Lemma find_in_Some bl l n p b :
  (forall q, q ∈ l -> is_Some (bl !! q)) ->
  (forall q r c d, bl !! q = Some c -> bl !! r = Some d -> block_no c = block_no d -> q = r) ->
  find_in bl l n = Some (p, b) <-> p ∈ l /\ bl !! p = Some b /\ block_no b = n.
Proof.
  intros Hd Hinj. induction l as [|q l IH]; simpl; [split; [done|set_solver]|].
  destruct (Hd q) as [c Hq]; [set_solver|]. rewrite Hq. destruct (Z.eqb_spec (block_no c) n) as [E|E].
  - split; [intros [= <- <-]; set_solver|]. intros (_ & Hp & Hn).
    assert (p = q) as -> by (eapply Hinj; [done..|congruence]). congruence.
  - rewrite IH by set_solver. split; [set_solver|]. intros ([->|Hp]%elem_of_cons & Hb & Hn); [congruence|done].
Qed.

Lemma cached_Some s n p b :
  cache_ok s -> cached s n = Some (p, b) <-> blocks s !! p = Some b /\ block_no b = n.
Proof.
  intros H. unfold cached. rewrite find_in_Some; [|by intros q Hq; apply (co_dom _ H)|apply (co_inj _ H)].
  split; [tauto|]. intros [Hb Hn]. split; [|done]. apply (co_dom _ H). eauto.
Qed.

Lemma cached_None s n :
  cache_ok s -> cached s n = None <-> forall p b, blocks s !! p = Some b -> block_no b <> n.
Proof.
  intros H. split.
  - intros Hn p b Hb E. assert (cached s n = Some (p, b)) by by apply cached_Some. congruence.
  - intros Hall. destruct (cached s n) as [[p b]|] eqn:E; [|done]. apply cached_Some in E as [Hb Hn]; [|done].
    by destruct (Hall _ _ Hb).
Qed.

Lemma find_cached_spec s n l :
  (forall q, q ∈ l -> is_Some (blocks s !! q)) ->
  find_cached n l s = Ret (fst <$> find_in (blocks s) l n, s).
Proof.
  induction l as [|p l IH]; intros Hl; [done|]. cbn [find_cached find_in].
  destruct (Hl p) as [b Hb]; [set_solver|]. unfold load_block, bind. rewrite Hb.
  destruct (block_no b =? n); [done|]. apply IH. set_solver.
Qed.

(** Blocks are determined by their numbers, so a change of the heap at one
    pointer is a change of [cached] at one number. *)
Lemma cached_ext s s' n :
  cache_ok s -> cache_ok s' ->
  (forall p b, block_no b = n -> blocks s' !! p = Some b <-> blocks s !! p = Some b) ->
  cached s' n = cached s n.
Proof.
  intros H H' Hb. destruct (cached s n) as [[p b]|] eqn:E.
  - apply cached_Some in E as [E1 E2]; [|done]. apply cached_Some; [done|]. split; [by apply Hb|done].
  - apply cached_None; [done|]. intros p b E1 E2. rewrite cached_None in E by done. apply (E p b); [|done].
    by apply Hb.
Qed.

(** The parts of the state that the cache proper never touches. *)
Definition same_rest (s s' : bcst) : Prop :=
  disk s' = disk s /\ dtrace s' = dtrace s /\ header s' = header s /\ log s' = log s /\ ctxs s' = ctxs s.

Lemma same_rest_refl s : same_rest s s.
Proof. done. Qed.

Lemma same_rest_trans s1 s2 s3 : same_rest s1 s2 -> same_rest s2 s3 -> same_rest s1 s3.
Proof. unfold same_rest. intuition congruence. Qed.

(** ** Counting *)
Lemma count_nodes_spec l k :
  0 <= k -> k + Z.of_nat (length l) < 2 ^ 31 - 1 -> count_nodes l k = k + Z.of_nat (length l).
Proof.
  revert k. induction l as [|p l IH]; intros k Hk Hlen; simpl; [lia|]. simpl in Hlen.
  unfold i32. rewrite wraps_small by lia. rewrite IH by lia. lia.
Qed.

Lemma lru_length s : cache_ok s -> (length (lru s) <= size (disk s))%nat.
Proof.
  intros H. pose (f := fun p => match blocks s !! p with Some b => block_no b | None => 0 end).
  assert (Hnd : NoDup (f <$> lru s)).
  { apply NoDup_fmap_2_strong; [|apply (co_nodup _ H)]. intros p q Hp Hq E. unfold f in E.
    apply (co_dom _ H) in Hp as [b Hb]. apply (co_dom _ H) in Hq as [c Hc]. rewrite Hb, Hc in E.
    by eapply (co_inj _ H). }
  rewrite <- (length_fmap f), <- size_dom, <- (size_list_to_set (C := gset Z) _ Hnd).
  apply subseteq_size. intros n Hn. apply elem_of_list_to_set, list_elem_of_fmap in Hn as (p & -> & Hp).
  apply (co_dom _ H) in Hp as [b Hb]. unfold f. rewrite Hb. apply elem_of_dom.
  by destruct (co_block _ H _ _ Hb) as (_ & _ & _ & ? & _).
Qed.

(** ** Eviction *)
Definition drop_block (p : Z) (s : bcst) : bcst := set_blocks (delete p) (set_lru (detach p) s).

Lemma elem_of_detach p q l : q ∈ detach p l <-> q ∈ l /\ q <> p.
Proof. unfold detach. rewrite list_elem_of_filter. tauto. Qed.

Lemma drop_block_ok s p : cache_ok s -> cache_ok (drop_block p s).
Proof.
  intros H. split; simpl.
  - apply NoDup_filter, (co_nodup _ H).
  - intros q. rewrite elem_of_detach, (co_dom _ H). split.
    + intros [Hq Hne]. by rewrite lookup_delete_ne.
    + intros [b Hb]. apply lookup_delete_Some in Hb as [Hne Hb]. split; [eauto|done].
  - intros q r b c [_ Hq]%lookup_delete_Some [_ Hr]%lookup_delete_Some. by eapply (co_inj _ H).
  - intros q b [_ Hq]%lookup_delete_Some. by eapply (co_block _ H).
  - apply (co_disk _ H).
  - apply (co_size _ H).
Qed.

(** [s'] is [s] without some blocks that are neither pinned nor held. *)
Definition shrunk (s s' : bcst) : Prop :=
  same_rest s s' /\ blocks s' ⊆ blocks s /\
  forall p b, blocks s !! p = Some b -> blocks s' !! p = None -> pinned b = false /\ acquired b = false.

Lemma evict_spec ps cnum s :
  cache_ok s -> NoDup ps -> (forall p, p ∈ ps -> p ∈ lru s) ->
  exists s', evict ps cnum s = Ret (tt, s') /\ cache_ok s' /\ shrunk s s' /\
    (cnum - (Z.of_nat (length (lru s)) - Z.of_nat (length (lru s'))) < EVICTION_THRESHOLD \/
     forall p b, p ∈ ps -> blocks s' !! p = Some b -> pinned b = true \/ acquired b = true).
Proof.
  revert cnum s. induction ps as [|p ps IH]; intros cnum s H Hnd Hin; cbn [evict].
  { exists s. split; [done|]. split; [done|]. split; [|right; set_solver].
    split; [done|]. split; [done|]. intros p b E1 E2. congruence. }
  apply NoDup_cons in Hnd as [Hp Hnd].
  destruct (Z.geb_spec cnum EVICTION_THRESHOLD) as [Hc|Hc].
  2: { exists s. split; [done|]. split; [done|]. split; [|left; lia].
       split; [done|]. split; [done|]. intros q b E1 E2. congruence. }
  destruct (proj1 (co_dom _ H p)) as [b Hb]; [set_solver|].
  erewrite bind_Ret by (unfold load_block; by rewrite Hb).
  destruct (negb (pinned b) && negb (acquired b)) eqn:Hf.
  - apply andb_true_iff in Hf as [Hf1%negb_true_iff Hf2%negb_true_iff].
    erewrite !bind_Ret by reflexivity.
    destruct (IH (cnum - 1) (drop_block p s)) as (s' & E & H' & (Hr & Hsub & Hdrop) & Hcnt).
    { by apply drop_block_ok. } { done. } { intros q Hq. simpl. rewrite elem_of_detach. set_solver. }
    exists s'. split; [exact E|]. split; [done|]. split.
    + split; [done|]. split; [etrans; [exact Hsub|]; simpl; apply delete_subseteq|].
      intros q c Hq Hn. destruct (decide (q = p)) as [->|Hne]; [by simplify_eq|].
      apply (Hdrop q c); [|done]. simpl. by rewrite lookup_delete_ne.
    + assert (Hlen : Z.of_nat (length (lru s)) = Z.of_nat (length (detach p (lru s))) + 1).
      { pose proof (length_filter_ne p (lru s) (co_nodup _ H)) as E1. unfold detach. rewrite E1 by set_solver. lia. }
      simpl in Hcnt. destruct Hcnt as [Hcnt|Hcnt]; [left; lia|right].
      intros q c [->|Hq]%elem_of_cons Hqc; [|by eapply Hcnt].
      exfalso. apply (lookup_weaken _ _ _ _ Hqc) in Hsub. simpl in Hsub. by rewrite lookup_delete_eq in Hsub.
  - destruct (IH cnum s H Hnd) as (s' & E & H' & (Hr & Hsub & Hdrop) & Hcnt); [set_solver|].
    exists s'. split; [exact E|]. split; [done|]. split; [done|]. destruct Hcnt as [Hcnt|Hcnt]; [by left|right].
    intros q c [->|Hq]%elem_of_cons Hqc; [|by eapply Hcnt].
    assert (c = b) as -> by (apply (lookup_weaken _ _ _ _ Hqc) in Hsub; congruence).
    destruct (pinned b), (acquired b); simpl in Hf; auto.
Qed.

(** ** Changing one block *)
Lemma upd_ok s p b b' :
  cache_ok s -> blocks s !! p = Some b -> block_no b' = block_no b -> cached_ok (disk s) b' ->
  cache_ok (set_blocks (insert p b') s).
Proof.
  intros H Hb Hn Hok. split; simpl.
  - apply (co_nodup _ H).
  - intros q. rewrite (co_dom _ H). destruct (decide (q = p)) as [->|Hne].
    + rewrite lookup_insert_eq. rewrite Hb. split; eauto.
    + by rewrite lookup_insert_ne.
  - intros q r c d Hq Hr E. apply lookup_insert_Some in Hq as [[<- <-]|[Hq1 Hq]];
      apply lookup_insert_Some in Hr as [[<- <-]|[Hr1 Hr]]; [done|..].
    + exfalso. apply Hr1. eapply (co_inj _ H); [done|done|congruence].
    + exfalso. apply Hq1. symmetry. eapply (co_inj _ H); [done|done|congruence].
    + by eapply (co_inj _ H).
  - intros q c Hq. apply lookup_insert_Some in Hq as [[<- <-]|[Hq1 Hq]]; [done|]. by eapply (co_block _ H).
  - apply (co_disk _ H).
  - apply (co_size _ H).
Qed.

Lemma upd_cached s p b b' m :
  cache_ok s -> blocks s !! p = Some b -> block_no b' = block_no b -> cached_ok (disk s) b' ->
  cached (set_blocks (insert p b') s) m = if decide (m = block_no b) then Some (p, b') else cached s m.
Proof.
  intros H Hb Hn Hok. pose proof (upd_ok _ _ _ _ H Hb Hn Hok) as H'. case_decide as Hm.
  - apply cached_Some; [done|]. simpl. rewrite lookup_insert_eq. split; [done|congruence].
  - apply cached_ext; [done|done|]. intros q c Hc. simpl. split.
    + intros Hq. apply lookup_insert_Some in Hq as [[<- <-]|[Hq1 Hq]]; [congruence|done].
    + intros Hq. rewrite lookup_insert_ne; [done|]. intros <-. congruence.
Qed.

Lemma lru_ok s l : cache_ok s -> l ≡ₚ lru s -> cache_ok (set_lru (fun _ => l) s).
Proof.
  intros H Hl. split; simpl; try apply H.
  - rewrite Hl. apply (co_nodup _ H).
  - intros p. rewrite Hl. apply (co_dom _ H).
Qed.

Lemma lru_cached s l m : cache_ok s -> l ≡ₚ lru s -> cached (set_lru (fun _ => l) s) m = cached s m.
Proof. intros H Hl. apply cached_ext; [done|by apply lru_ok|done]. Qed.

Lemma detach_perm p l : NoDup l -> p ∈ l -> p :: detach p l ≡ₚ l.
Proof.
  intros Hnd (l1 & l2 & ->)%list_elem_of_split. unfold detach. rewrite filter_mid by done.
  by rewrite Permutation_middle.
Qed.

(** A new block. *)
Definition add_block (p : Z) (b : Block) (s : bcst) : bcst := set_lru (cons p) (set_blocks (insert p b) s).

Lemma add_ok s p b :
  cache_ok s -> blocks s !! p = None -> cached s (block_no b) = None -> cached_ok (disk s) b ->
  cache_ok (add_block p b s).
Proof.
  intros H Hp Hc Hok. rewrite cached_None in Hc by done. split; simpl.
  - apply NoDup_cons. split; [|apply (co_nodup _ H)]. rewrite (co_dom _ H), Hp. by intros [? ?].
  - intros q. rewrite elem_of_cons, (co_dom _ H). destruct (decide (q = p)) as [->|Hne].
    + rewrite lookup_insert_eq. split; eauto.
    + rewrite lookup_insert_ne by done. naive_solver.
  - intros q r c d Hq Hr E. apply lookup_insert_Some in Hq as [[<- <-]|[Hq1 Hq]];
      apply lookup_insert_Some in Hr as [[<- <-]|[Hr1 Hr]]; [done|..].
    + by destruct (Hc _ _ Hr).
    + by destruct (Hc _ _ Hq).
    + by eapply (co_inj _ H).
  - intros q c Hq. apply lookup_insert_Some in Hq as [[<- <-]|[Hq1 Hq]]; [done|]. by eapply (co_block _ H).
  - apply (co_disk _ H).
  - apply (co_size _ H).
Qed.

Lemma add_cached s p b m :
  cache_ok s -> blocks s !! p = None -> cached s (block_no b) = None -> cached_ok (disk s) b ->
  cached (add_block p b s) m = if decide (m = block_no b) then Some (p, b) else cached s m.
Proof.
  intros H Hp Hc Hok. pose proof (add_ok _ _ _ H Hp Hc Hok) as H'. case_decide as Hm.
  - apply cached_Some; [done|]. simpl. by rewrite lookup_insert_eq.
  - apply cached_ext; [done|done|]. intros q c Hcn. simpl. split.
    + intros Hq. apply lookup_insert_Some in Hq as [[<- <-]|[Hq1 Hq]]; [congruence|done].
    + intros Hq. rewrite lookup_insert_ne; [done|]. intros <-. congruence.
Qed.

(** What clients see of block [m] is the same, and if it is held, so is its
    buffer. *)
Definition same_block (s s' : bcst) (m : Z) : Prop :=
  view s' m = view s m /\ acq s' m = acq s m /\ pin s' m = pin s m /\
  (acq s m = true -> cached s' m = cached s m) /\ (cached s m = None -> cached s' m = None).

Lemma same_block_cached s s' m : cached s' m = cached s m -> disk s' !! m = disk s !! m -> same_block s s' m.
Proof. intros E D. unfold same_block, view, acq, pin. by rewrite E, D. Qed.

Lemma same_block_trans s1 s2 s3 m : same_block s1 s2 m -> same_block s2 s3 m -> same_block s1 s3 m.
Proof.
  intros (V1 & A1 & P1 & C1 & N1) (V2 & A2 & P2 & C2 & N2).
  split; [congruence|]. split; [congruence|]. split; [congruence|]. split; [|auto].
  intros Ha. rewrite C2 by congruence. by apply C1.
Qed.

(** Eviction is invisible. *)
Lemma shrunk_same s s' m : cache_ok s -> cache_ok s' -> shrunk s s' -> same_block s s' m.
Proof.
  intros H H' ((Hd & _) & Hsub & Hdrop). destruct (cached s m) as [[p b]|] eqn:E.
  - pose proof E as [Hb Hn]%cached_Some; [|done].
    destruct (blocks s' !! p) as [c|] eqn:Hc.
    + assert (c = b) as -> by (apply (lookup_weaken _ _ _ _ Hc) in Hsub; congruence).
      apply same_block_cached; [|by rewrite Hd]. rewrite E. by apply cached_Some.
    + destruct (Hdrop _ _ Hb Hc) as [Hp Ha].
      assert (E' : cached s' m = None).
      { apply cached_None; [done|]. intros q c Hq Hqn. pose proof (lookup_weaken _ _ _ _ Hq Hsub) as Hq'.
        assert (q = p) as -> by (eapply (co_inj _ H); [done..|congruence]). congruence. }
      unfold same_block, view, acq, pin. rewrite E, E', Hp, Ha, Hd.
      split; [|done]. destruct (co_block _ H _ _ Hb) as (_ & _ & _ & _ & Hcl). rewrite <- Hn. by apply Hcl.
  - apply same_block_cached; [|by rewrite Hd]. rewrite E. apply cached_None; [done|].
    intros q c Hq. rewrite cached_None in E by done. apply (E q). by eapply lookup_weaken.
Qed.

(** ** [cache_acquire] *)
Section acquire.
Context {KA : Kalloc}.

Lemma load_block_Ret s p b : blocks s !! p = Some b -> load_block p s = Ret (b, s).
Proof. intros H. unfold load_block. by rewrite H. Qed.

Lemma update_block_Ret s p b f :
  blocks s !! p = Some b -> update_block p f s = Ret (tt, set_blocks (insert p (f b)) s).
Proof. intros H. unfold update_block. by rewrite H. Qed.

Lemma num_cached_Ret s :
  cache_ok s -> get_num_cached_blocks s = Ret (Z.of_nat (length (lru s)), s).
Proof.
  intros H. unfold get_num_cached_blocks. erewrite bind_Ret by reflexivity. unfold ret.
  pose proof (lru_length _ H). pose proof (co_size _ H). rewrite count_nodes_spec by lia. by rewrite Z.add_0_l.
Qed.

(** The block is cached and free. *)
Lemma acquire_hit fuel s n p b :
  cache_ok s -> cached s n = Some (p, b) -> acquired b = false ->
  cache_acquire_loop (S fuel) n s =
    Ret (p, set_blocks (insert p (set_acquired true (set_lock 0 b))) (set_lru (fun _ => p :: detach p (lru s)) s)).
Proof.
  intros H Hc Ha. pose proof Hc as [Hb Hn]%cached_Some; [|done]. cbn [cache_acquire_loop].
  erewrite bind_Ret by reflexivity.
  erewrite bind_Ret by (apply find_cached_spec; intros q Hq; by apply (co_dom _ H)).
  unfold cached in Hc. rewrite Hc. cbn [fmap option_fmap option_map fst].
  erewrite bind_Ret by by apply load_block_Ret. rewrite Ha. cbn [negb].
  destruct (co_block _ H _ _ Hb) as (_ & _ & Hl & _). rewrite Ha in Hl.
  assert (Hg : get_sem p s = Ret (tt, set_blocks (insert p (set_lock 0 b)) s)).
  { unfold get_sem. erewrite bind_Ret by by apply load_block_Ret. rewrite Hl. simpl.
    by erewrite update_block_Ret. }
  rewrite (bind_Ret _ _ _ _ _ Hg). erewrite bind_Ret by reflexivity.
  erewrite bind_Ret. 2: { apply update_block_Ret. simpl. by rewrite lookup_insert_eq. }
  unfold ret, set_blocks, set_lru. simpl. by rewrite insert_insert_eq.
Qed.

(** The block is not cached. *)
Lemma acquire_miss fuel s n d :
  cache_ok s -> cached s n = None -> disk s !! n = Some d ->
  exists s1 p, cache_ok s1 /\ shrunk s s1 /\ blocks s1 !! p = None /\
    cache_acquire_loop (S fuel) n s = Ret (p, add_block p (mkBlock n true false 0 true d) s1) /\
    (Z.of_nat (length (lru s1)) < EVICTION_THRESHOLD \/
     forall q b, blocks s1 !! q = Some b -> pinned b = true \/ acquired b = true).
Proof.
  intros H Hc Hd. cbn [cache_acquire_loop]. erewrite bind_Ret by reflexivity.
  erewrite bind_Ret by (apply find_cached_spec; intros q Hq; by apply (co_dom _ H)).
  unfold cached in Hc. rewrite Hc. cbn [fmap option_fmap option_map].
  erewrite bind_Ret by by apply num_cached_Ret.
  set (ev := if Z.of_nat (length (lru s)) >=? EVICTION_THRESHOLD
             then ps <- gets (fun s => reverse (lru s)) ;; evict ps (Z.of_nat (length (lru s))) else ret tt).
  assert (Hev : exists s1, ev s = Ret (tt, s1) /\ cache_ok s1 /\ shrunk s s1 /\
    (Z.of_nat (length (lru s1)) < EVICTION_THRESHOLD \/
     forall q b, blocks s1 !! q = Some b -> pinned b = true \/ acquired b = true)).
  { unfold ev. destruct (Z.geb_spec (Z.of_nat (length (lru s))) EVICTION_THRESHOLD) as [Hg|Hg].
    - erewrite bind_Ret by reflexivity.
      destruct (evict_spec (reverse (lru s)) (Z.of_nat (length (lru s))) s H) as (s1 & E & H1 & Hsh & Hcnt).
      + rewrite reverse_Permutation. apply (co_nodup _ H).
      + intros q. by rewrite elem_of_reverse.
      + exists s1. split; [done|]. split; [done|]. split; [done|]. destruct Hcnt as [Hcnt|Hcnt]; [left; lia|right].
        intros q b Hq. apply (Hcnt q b); [|done]. rewrite elem_of_reverse.
        apply (co_dom _ H). destruct Hsh as (_ & Hsub & _). exists b. by eapply lookup_weaken.
    - exists s. split; [done|]. split; [done|]. split; [|left; lia].
      split; [done|]. split; [done|]. intros q b E1 E2. congruence. }
  destruct Hev as (s1 & E & H1 & Hsh & Hcnt). rewrite (bind_Ret _ _ _ _ _ E).
  set (p := kalloc (dom (blocks s1))). exists s1, p. split; [done|]. split; [done|].
  assert (Hp : blocks s1 !! p = None).
  { apply not_elem_of_dom. apply kalloc_fresh. }
  split; [done|]. split; [|done].
  unfold alloc_block. rewrite bind_assoc. erewrite bind_Ret by reflexivity. fold p.
  rewrite bind_assoc. erewrite bind_Ret by reflexivity. erewrite bind_Ret by reflexivity.
  erewrite bind_Ret by reflexivity.
  erewrite bind_Ret.
  2: { unfold unalertable_wait_sem. erewrite bind_Ret.
       2: { apply load_block_Ret. simpl. by rewrite lookup_insert_eq. }
       simpl. eapply update_block_Ret. simpl. by rewrite lookup_insert_eq. }
  erewrite bind_Ret.
  2: { unfold device_read. erewrite bind_Ret.
       2: { apply load_block_Ret. simpl. by rewrite lookup_insert_eq. }
       simpl. erewrite bind_Ret.
       2: { unfold dev_read. simpl. destruct Hsh as ((-> & _) & _). by rewrite Hd. }
       eapply update_block_Ret. simpl. by rewrite lookup_insert_eq. }
  unfold ret, add_block, set_blocks, set_lru. simpl. by rewrite !insert_insert_eq.
Qed.

Lemma acquire_spec s n :
  cache_ok s -> acq s n = false -> is_Some (disk s !! n) ->
  exists p s' b, cache_acquire n s = Ret (p, s') /\ cache_ok s' /\ same_rest s s' /\
    cached s' n = Some (p, b) /\ acquired b = true /\ view s n = Some (data b) /\ pinned b = pin s n /\
    forall m, m <> n -> same_block s s' m.
Proof.
  intros H Ha [d Hd]. unfold cache_acquire. destruct (cached s n) as [[p b]|] eqn:Hc.
  - unfold acq in Ha. rewrite Hc in Ha. pose proof Hc as [Hb Hn]%cached_Some; [|done].
    destruct (co_block _ H _ _ Hb) as (Hok & Hv & Hl & Hds & Hcl).
    eexists p, _, (set_acquired true (set_lock 0 b)). rewrite (acquire_hit _ _ _ _ _ H Hc Ha). split; [done|].
    assert (Hin : p ∈ lru s) by (apply (co_dom _ H); eauto).
    assert (Hperm := detach_perm _ _ (co_nodup _ H) Hin).
    assert (H1 := lru_ok _ _ H Hperm).
    assert (Hok' : cached_ok (disk s) (set_acquired true (set_lock 0 b))) by done.
    split; [by apply (upd_ok _ p b)|]. split; [done|].
    assert (Hu := fun m => upd_cached _ p b (set_acquired true (set_lock 0 b)) m H1 Hb eq_refl Hok').
    split; [rewrite Hu, decide_True by done; done|]. split; [done|].
    unfold view, pin. rewrite Hc. split; [done|]. split; [done|]. intros m Hm.
    apply same_block_cached; [|done]. rewrite Hu, decide_False by congruence. by apply lru_cached.
  - destruct (acquire_miss 1 s n d H Hc Hd) as (s1 & p & H1 & Hsh & Hp & E & _).
    assert (Hc1 : cached s1 n = None).
    { apply cached_None; [done|]. intros q c Hq. rewrite cached_None in Hc by done. apply (Hc q).
      destruct Hsh as (_ & Hsub & _). by eapply lookup_weaken. }
    pose proof Hsh as ((Hd1 & ? & ? & ? & ?) & _).
    assert (Hok' : cached_ok (disk s1) (mkBlock n true false 0 true d)).
    { rewrite Hd1. split; [by eapply (co_disk _ H)|]. split; [done|]. split; [done|]. split; [by eexists|done]. }
    eexists p, _, (mkBlock n true false 0 true d). split; [exact E|]. split; [by apply add_ok|].
    split; [done|]. split; [rewrite add_cached, decide_True by done; done|]. split; [done|].
    unfold view, pin. rewrite Hc. split; [done|]. split; [done|]. intros m Hm.
    eapply same_block_trans; [by apply shrunk_same|]. apply same_block_cached; [|done].
    rewrite add_cached by done. by rewrite decide_False.
Qed.

(** A block that is held puts the caller to sleep. *)
Lemma acquire_sleep s n : cache_ok s -> acq s n = true -> cache_acquire n s = Stop Sleep.
Proof.
  intros H Ha. unfold acq in Ha. destruct (cached s n) as [[p b]|] eqn:Hc; [|done].
  pose proof Hc as [Hb Hn]%cached_Some; [|done]. unfold cache_acquire. cbn [cache_acquire_loop].
  erewrite bind_Ret by reflexivity.
  erewrite bind_Ret by (apply find_cached_spec; intros q Hq; by apply (co_dom _ H)).
  unfold cached in Hc. rewrite Hc. cbn [fmap option_fmap option_map fst].
  erewrite bind_Ret by by apply load_block_Ret. rewrite Ha. cbn [negb]. apply bind_Stop.
  unfold unalertable_wait_sem. erewrite bind_Ret by by apply load_block_Ret.
  destruct (co_block _ H _ _ Hb) as (_ & _ & Hl & _). rewrite Ha in Hl. by rewrite Hl.
Qed.
End acquire.

(** ** Operations on a held block *)
Lemma held_update s n p b f :
  cache_ok s -> cached s n = Some (p, b) -> block_no (f b) = block_no b -> cached_ok (disk s) (f b) ->
  exists s', update_block p f s = Ret (tt, s') /\ cache_ok s' /\ same_rest s s' /\
    cached s' n = Some (p, f b) /\ forall m, m <> n -> cached s' m = cached s m.
Proof.
  intros H Hc Hn Hok. pose proof Hc as [Hb Hbn]%cached_Some; [|done].
  eexists. split; [by apply update_block_Ret|]. split; [by eapply upd_ok|]. split; [done|].
  split; [rewrite (upd_cached _ p b) by done; by rewrite decide_True|].
  intros m Hm. rewrite (upd_cached _ p b) by done. rewrite decide_False by congruence. done.
Qed.

Lemma set_data_spec s n p b d :
  cache_ok s -> cached s n = Some (p, b) -> acquired b = true -> block_ok d ->
  exists s', update_block p (set_data d) s = Ret (tt, s') /\ cache_ok s' /\ same_rest s s' /\
    cached s' n = Some (p, set_data d b) /\ forall m, m <> n -> cached s' m = cached s m.
Proof.
  intros H Hc Ha Hd. apply held_update; [done..|]. pose proof Hc as [Hb Hbn]%cached_Some; [|done].
  destruct (co_block _ H _ _ Hb) as (_ & Hv & Hl & Hds & _).
  split; [done|]. split; [done|]. split; [done|]. split; [done|]. simpl. by rewrite Ha.
Qed.

Lemma set_pinned_spec s n p b v :
  cache_ok s -> cached s n = Some (p, b) -> acquired b = true ->
  exists s', update_block p (set_pinned v) s = Ret (tt, s') /\ cache_ok s' /\ same_rest s s' /\
    cached s' n = Some (p, set_pinned v b) /\ forall m, m <> n -> cached s' m = cached s m.
Proof.
  intros H Hc Ha. apply held_update; [done..|]. pose proof Hc as [Hb Hbn]%cached_Some; [|done].
  destruct (co_block _ H _ _ Hb) as (? & Hv & Hl & Hds & _).
  split; [done|]. split; [done|]. split; [done|]. split; [done|]. simpl. by rewrite Ha.
Qed.

Lemma release_spec s n p b :
  cache_ok s -> cached s n = Some (p, b) -> acquired b = true ->
  (pinned b = true \/ disk s !! n = Some (data b)) ->
  exists s', cache_release p s = Ret (tt, s') /\ cache_ok s' /\ same_rest s s' /\
    cached s' n = Some (p, set_lock 1 (set_acquired false b)) /\ forall m, m <> n -> cached s' m = cached s m.
Proof.
  intros H Hc Ha Hcl. pose proof Hc as [Hb Hbn]%cached_Some; [|done].
  destruct (co_block _ H _ _ Hb) as (? & Hv & Hl & Hds & _). rewrite Ha in Hl.
  destruct (held_update s n p b (fun b => set_lock 1 (set_acquired false b))) as (s' & E & Hrest); [done..| |].
  { split; [done|]. split; [done|]. split; [done|]. split; [done|]. simpl. rewrite Hbn.
    destruct Hcl as [->|]; [done|]. done. }
  exists s'. split; [|done]. unfold cache_release. erewrite bind_Ret by by apply update_block_Ret.
  unfold post_sem. erewrite bind_Ret.
  2: { apply load_block_Ret. simpl. by rewrite lookup_insert_eq. }
  simpl. rewrite Hl. simpl. erewrite update_block_Ret by (simpl; by rewrite lookup_insert_eq).
  rewrite (update_block_Ret _ _ b) in E by done. rewrite <- E. unfold set_blocks. simpl. by rewrite insert_insert_eq.
Qed.

Definition on_disk (n : Z) (d : bytes) (s : bcst) : bcst :=
  mkBc (blocks s) (lru s) (<[n := d]> (disk s)) (dtrace s ++ [(n, d)]) (header s) (log s) (ctxs s).

Lemma dev_write_spec s n d :
  cache_ok s -> is_Some (disk s !! n) -> block_ok d ->
  (forall p b, cached s n = Some (p, b) -> pinned b = true \/ acquired b = true \/ data b = d) ->
  dev_write n d s = Ret (tt, on_disk n d s) /\ cache_ok (on_disk n d s) /\
  forall m, cached (on_disk n d s) m = cached s m.
Proof.
  intros H [d0 Hd0] Hd Hc. split; [unfold dev_write; by rewrite Hd0|]. split; [|done]. split; simpl.
  - apply (co_nodup _ H).
  - apply (co_dom _ H).
  - apply (co_inj _ H).
  - intros p b Hb. destruct (co_block _ H _ _ Hb) as (? & ? & ? & ? & Hcl).
    split; [done|]. split; [done|]. split; [done|]. split; [by apply lookup_insert_is_Some'; right|].
    intros Hp Ha. destruct (decide (block_no b = n)) as [E|E].
    + rewrite E, lookup_insert_eq. destruct (Hc p b) as [?|[?|Hdb]]; [|congruence|congruence|by rewrite Hdb].
      by apply cached_Some.
    + rewrite lookup_insert_ne by done. auto.
  - intros m dm [[<- <-]|[_ Hm]]%lookup_insert_Some; [done|]. by eapply (co_disk _ H).
  - rewrite map_size_insert, Hd0. apply (co_size _ H).
Qed.

(** A block that is neither pinned nor held is on the disk. *)
Lemma clean_view s n : cache_ok s -> pin s n = false -> acq s n = false -> view s n = disk s !! n.
Proof.
  intros H. unfold pin, acq, view. destruct (cached s n) as [[p b]|] eqn:E; [|done]. intros Hp Ha.
  pose proof E as [Hb Hn]%cached_Some; [|done]. destruct (co_block _ H _ _ Hb) as (_ & _ & _ & _ & Hcl).
  rewrite <- Hn. symmetry. by apply Hcl.
Qed.

Lemma view_ok s n d : cache_ok s -> view s n = Some d -> block_ok d.
Proof.
  intros H. unfold view. destruct (cached s n) as [[p b]|] eqn:E; [|by apply (co_disk _ H)].
  intros [= <-]. apply cached_Some in E as [Hb _]; [|done]. by destruct (co_block _ H _ _ Hb).
Qed.

Lemma view_is_Some s n : cache_ok s -> is_Some (view s n) <-> is_Some (disk s !! n).
Proof.
  intros H. unfold view. destruct (cached s n) as [[p b]|] eqn:E; [|done].
  apply cached_Some in E as [Hb <-]; [|done]. destruct (co_block _ H _ _ Hb) as (_ & _ & _ & ? & _). split; eauto.
Qed.
