(* ===== verification/BCacheLog.v ===== *)
(** * What the commit and the write-back of the log write (fs/cache.c)

    The device writes of [commit] and [log_wb], in order, and the state they
    leave behind. *)
From stdpp Require Import base gmap list.
From Stdlib Require Import ZArith Lia.
From S2P Require Import Prelude Bytes Bitmap BCache BCacheInv.

(** ** Sequences of device writes *)
Fixpoint apply_writes (d : gmap Z bytes) (ws : list (Z * bytes)) : gmap Z bytes :=
  match ws with [] => d | (n, x) :: ws' => apply_writes (<[n := x]> d) ws' end.

Lemma apply_writes_app d ws1 ws2 : apply_writes d (ws1 ++ ws2) = apply_writes (apply_writes d ws1) ws2.
Proof. revert d. induction ws1 as [|[n x] ws1 IH]; intros d; [done|]. apply IH. Qed.

Lemma apply_writes_other d ws m : m ∉ ws.*1 -> apply_writes d ws !! m = d !! m.
Proof.
  revert d. induction ws as [|[n x] ws IH]; intros d Hm; [done|]. simpl in *.
  rewrite IH by set_solver. apply lookup_insert_ne. set_solver.
Qed.

(** [s'] is [s] after the writes [ws]. *)
Definition wrote (s s' : bcst) (ws : list (Z * bytes)) : Prop :=
  disk s' = apply_writes (disk s) ws /\ dtrace s' = dtrace s ++ ws.

Lemma wrote_nil s s' : disk s' = disk s -> dtrace s' = dtrace s -> wrote s s' [].
Proof. intros H1 H2. split; [done|]. by rewrite app_nil_r. Qed.

Lemma wrote_trans s1 s2 s3 w1 w2 : wrote s1 s2 w1 -> wrote s2 s3 w2 -> wrote s1 s3 (w1 ++ w2).
Proof.
  intros [D1 T1] [D2 T2]. split; [by rewrite D2, D1, apply_writes_app|]. by rewrite T2, T1, app_assoc.
Qed.

Section turns.
Context (sblock : SuperBlock) {KA : Kalloc}.

Definition log_block (i : Z) : Z := sb_log_start sblock + i + 1.

(** Nothing but the views of [ns] and the disk has changed. *)
Definition quiet (s s' : bcst) : Prop :=
  header s' = header s /\ log s' = log s /\ ctxs s' = ctxs s /\ (forall m, acq s' m = acq s m).

Lemma copy_block_spec s n p b m q c :
  cache_ok s -> cached s n = Some (p, b) -> acquired b = true -> cached s m = Some (q, c) ->
  exists s', copy_block p q s = Ret (tt, s') /\ cache_ok s' /\ same_rest s s' /\
    cached s' n = Some (p, set_data (data c) b) /\ forall m, m <> n -> cached s' m = cached s m.
Proof.
  intros H Hn Ha Hm. pose proof Hm as [Hc _]%cached_Some; [|done]. unfold copy_block.
  erewrite bind_Ret by by apply load_block_Ret. apply set_data_spec; [done..|].
  by destruct (co_block _ H _ _ Hc).
Qed.

Lemma device_write_spec s n p b :
  cache_ok s -> cached s n = Some (p, b) -> acquired b = true ->
  device_write p s = Ret (tt, on_disk n (data b) s) /\ cache_ok (on_disk n (data b) s) /\
  forall m, cached (on_disk n (data b) s) m = cached s m.
Proof.
  intros H Hn Ha. pose proof Hn as [Hb <-]%cached_Some; [|done].
  destruct (co_block _ H _ _ Hb) as (Hok & _ & _ & Hd & _).
  unfold device_write. erewrite bind_Ret by by apply load_block_Ret.
  apply dev_write_spec; [done..|]. intros q c Hq. rewrite Hn in Hq. simplify_eq. auto.
Qed.

(** Both turns acquire the log block and the home block of entry [i]. *)
Lemma acquire_pair s n1 n2 :
  cache_ok s -> (forall m, acq s m = false) -> is_Some (disk s !! n1) -> is_Some (disk s !! n2) -> n1 <> n2 ->
  exists p1 p2 s1 s2 b1 b2,
    cache_acquire n1 s = Ret (p1, s1) /\ same_rest s s1 /\ cache_acquire n2 s1 = Ret (p2, s2) /\
    cache_ok s2 /\ same_rest s s2 /\
    cached s2 n1 = Some (p1, b1) /\ acquired b1 = true /\ view s n1 = Some (data b1) /\ pinned b1 = pin s n1 /\
    cached s2 n2 = Some (p2, b2) /\ acquired b2 = true /\ view s n2 = Some (data b2) /\ pinned b2 = pin s n2 /\
    forall m, m <> n1 -> m <> n2 -> same_block s s2 m.
Proof.
  intros H Ha H1 H2 Hne.
  destruct (acquire_spec s n1 H (Ha n1) H1) as (p1 & s1 & b1 & E1 & Hs1 & R1 & C1 & A1 & V1 & P1 & O1).
  destruct (O1 n2) as (Ov & Oa & Op & _ & _); [done|].
  destruct (acquire_spec s1 n2 Hs1) as (p2 & s2 & b2 & E2 & Hs2 & R2 & C2 & A2 & V2 & P2 & O2).
  { by rewrite Oa. } { by destruct R1 as (-> & _). }
  exists p1, p2, s1, s2, b1, b2. split; [done|]. split; [done|]. split; [done|]. split; [done|].
  split; [by eapply same_rest_trans|].
  destruct (O2 n1 Hne) as (_ & _ & _ & Oc & _).
  split; [rewrite Oc; [done|unfold acq; by rewrite C1]|].
  split; [done|]. split; [done|]. split; [done|]. split; [done|]. split; [done|].
  split; [congruence|]. split; [congruence|]. intros m Hm1 Hm2. eapply same_block_trans; eauto.
Qed.

(** Releasing the two blocks: the first one is on the disk. *)
Lemma release_pair s n1 n2 p1 p2 b1 b2 :
  cache_ok s -> cached s n1 = Some (p1, b1) -> cached s n2 = Some (p2, b2) -> n1 <> n2 ->
  acquired b1 = true -> acquired b2 = true ->
  (pinned b1 = true \/ disk s !! n1 = Some (data b1)) -> (pinned b2 = true \/ disk s !! n2 = Some (data b2)) ->
  exists s', (cache_release p1 ;;; cache_release p2 ;;; ret (A := option unit) None) s = Ret (None, s') /\
    cache_ok s' /\ same_rest s s' /\
    (forall n, n = n1 \/ n = n2 -> view s' n = view s n /\ pin s' n = pin s n /\ acq s' n = false) /\
    (forall m, m <> n1 -> m <> n2 -> cached s' m = cached s m).
Proof.
  intros H C1 C2 Hne A1 A2 D1 D2.
  destruct (release_spec s n1 p1 b1 H C1 A1 D1) as (s1 & E1 & H1 & R1 & Cn1 & O1).
  destruct (release_spec s1 n2 p2 b2) as (s2 & E2 & H2 & R2 & Cn2 & O2); [done| |done| |].
  { rewrite O1 by done. done. } { by destruct R1 as (-> & _). }
  exists s2. split. { by rewrite (bind_Ret _ _ _ _ _ E1), (bind_Ret _ _ _ _ _ E2). }
  split; [done|]. split; [by eapply same_rest_trans|]. split.
  - intros n [->| ->]; unfold view, pin, acq; [rewrite O2, Cn1, C1 by done|rewrite Cn2, C2]; done.
  - intros m Hm1 Hm2. rewrite O2, O1 by done. done.
Qed.

(** One turn of the commit loop: the home block's content goes to the log. *)
Lemma commit_turn_spec s i n d :
  cache_ok s -> (forall m, acq s m = false) -> hblock_no (header s) !! Z.to_nat i = Some n ->
  is_Some (disk s !! log_block i) -> n <> log_block i -> view s n = Some d ->
  exists s', commit_turn sblock i s = Ret (None, s') /\ cache_ok s' /\ quiet s s' /\
    wrote s s' [(log_block i, d)] /\ view s' (log_block i) = Some d /\
    (forall m, m <> log_block i -> view s' m = view s m) /\ (forall m, pin s' m = pin s m) /\
    (forall m, m <> log_block i -> m <> n -> cached s m = None -> cached s' m = None).
Proof.
  intros H Ha Hh Hl Hne Hv.
  assert (Hn : is_Some (disk s !! n)) by (apply view_is_Some; eauto).
  destruct (acquire_pair s (log_block i) n H Ha Hl Hn) as
    (p1 & p2 & s1 & s2 & b1 & b2 & E1 & R1 & E2 & H2 & R2 & C1 & A1 & V1 & P1 & C2 & A2 & V2 & P2 & O2); [done|].
  assert (data b2 = d) by congruence. subst d.
  destruct (copy_block_spec s2 (log_block i) p1 b1 n p2 b2) as (s3 & E3 & H3 & R3 & C3 & O3); [done..|].
  destruct (device_write_spec s3 (log_block i) p1 (set_data (data b2) b1)) as (E4 & H4 & O4); [done..|].
  destruct (release_pair (on_disk (log_block i) (data b2) s3) (log_block i) n p1 p2 (set_data (data b2) b1) b2)
    as (s5 & E5 & H5 & R5 & V5 & O5); try done.
  { rewrite O4, O3 by done. done. }
  { right. simpl. by rewrite lookup_insert_eq. }
  { destruct (pinned b2) eqn:Hp2; [by left|right]. simpl. rewrite lookup_insert_ne by done.
    destruct R3 as (-> & _). destruct R2 as (-> & _). rewrite <- V2. symmetry. by apply clean_view. }
  exists s5. split.
  { unfold commit_turn. rewrite (bind_Ret _ _ _ _ _ E1). unfold hblock. rewrite bind_assoc.
    erewrite bind_Ret by reflexivity. destruct R1 as (_ & _ & -> & _). rewrite Hh.
    erewrite bind_Ret by reflexivity. rewrite (bind_Ret _ _ _ _ _ E2), (bind_Ret _ _ _ _ _ E3), (bind_Ret _ _ _ _ _ E4).
    exact E5. }
  split; [done|].
  destruct R5 as (D5 & T5 & F5 & L5 & X5), R3 as (D3 & T3 & F3 & L3 & X3), R2 as (D2 & T2 & F2 & L2 & X2).
  simpl in *.
  assert (Hoth : forall m, m <> log_block i -> m <> n -> same_block s s5 m).
  { intros m Hm1 Hm2. eapply same_block_trans; [by apply O2|]. apply same_block_cached.
    - rewrite O5, O4, O3 by done. done.
    - rewrite D5. rewrite lookup_insert_ne by done. by rewrite D3. }
  destruct (V5 (log_block i)) as (Vl & Pl & Al); [by left|].
  destruct (V5 n) as (Vn & Pn & An); [by right|].
  unfold view in Vl, Vn. unfold pin in Pl, Pn. rewrite O4, C3 in Vl, Pl. rewrite O4, O3, C2 in Vn, Pn by done.
  split; [|split; [|split; [|split; [|split]]]].
  - split; [congruence|]. split; [congruence|]. split; [congruence|]. intros m.
    destruct (decide (m = log_block i)) as [->|Hm1]; [by rewrite Ha|].
    destruct (decide (m = n)) as [->|Hm2]; [by rewrite Ha|]. by apply Hoth.
  - split; [simpl; congruence|]. congruence.
  - done.
  - intros m Hm. destruct (decide (m = n)) as [->|Hm2]; [unfold view at 1; congruence|]. by apply Hoth.
  - intros m. destruct (decide (m = log_block i)) as [->|Hm1]; [unfold pin at 1; simpl in Pl; congruence|].
    destruct (decide (m = n)) as [->|Hm2]; [unfold pin at 1; congruence|]. by apply Hoth.
  - intros m Hm1 Hm2 Hc. by apply Hoth.
Qed.

(** One turn of the write-back loop: the log block's content goes home. *)
Lemma log_wb_turn_spec s i n d :
  cache_ok s -> (forall m, acq s m = false) -> hblock_no (header s) !! Z.to_nat i = Some n ->
  is_Some (disk s !! n) -> n <> log_block i -> view s (log_block i) = Some d -> pin s (log_block i) = false ->
  exists s', log_wb_turn sblock i s = Ret (None, s') /\ cache_ok s' /\ quiet s s' /\
    wrote s s' [(n, d)] /\ view s' n = Some d /\ pin s' n = false /\
    (forall m, m <> n -> view s' m = view s m) /\ (forall m, m <> n -> pin s' m = pin s m) /\
    (forall m, m <> log_block i -> m <> n -> cached s m = None -> cached s' m = None).
Proof.
  intros H Ha Hh Hn Hne Hv Hpl.
  assert (Hl : is_Some (disk s !! log_block i)) by (apply view_is_Some; eauto).
  destruct (acquire_pair s (log_block i) n H Ha Hl Hn) as
    (p1 & p2 & s1 & s2 & b1 & b2 & E1 & R1 & E2 & H2 & R2 & C1 & A1 & V1 & P1 & C2 & A2 & V2 & P2 & O2); [done|].
  assert (data b1 = d) by congruence. subst d.
  destruct (copy_block_spec s2 n p2 b2 (log_block i) p1 b1) as (s3 & E3 & H3 & R3 & C3 & O3); [done..|].
  destruct (device_write_spec s3 n p2 (set_data (data b1) b2)) as (E4 & H4 & O4); [done..|]. simpl in E4, H4, O4.
  destruct (set_pinned_spec (on_disk n (data b1) s3) n p2 (set_data (data b1) b2) false) as (s5 & E5 & H5 & R5 & C5 & O5);
    [done..|].
  destruct (release_pair s5 (log_block i) n p1 p2 b1 (set_pinned false (set_data (data b1) b2)))
    as (s6 & E6 & H6 & R6 & V6 & O6); try done.
  { rewrite O5, O4, O3 by done. done. }
  { right. destruct R5 as (-> & _). simpl. rewrite lookup_insert_ne by done.
    destruct R3 as (-> & _). destruct R2 as (-> & _). rewrite <- V1. symmetry. by apply clean_view. }
  { right. destruct R5 as (-> & _). simpl. by rewrite lookup_insert_eq. }
  exists s6. split.
  { unfold log_wb_turn. rewrite (bind_Ret _ _ _ _ _ E1). unfold hblock. rewrite bind_assoc.
    erewrite bind_Ret by reflexivity. destruct R1 as (_ & _ & -> & _). rewrite Hh.
    erewrite bind_Ret by reflexivity. rewrite (bind_Ret _ _ _ _ _ E2), (bind_Ret _ _ _ _ _ E3), (bind_Ret _ _ _ _ _ E4),
      (bind_Ret _ _ _ _ _ E5). exact E6. }
  split; [done|].
  destruct R6 as (D6 & T6 & F6 & L6 & X6), R5 as (D5 & T5 & F5 & L5 & X5), R3 as (D3 & T3 & F3 & L3 & X3),
    R2 as (D2 & T2 & F2 & L2 & X2). simpl in *.
  assert (Hoth : forall m, m <> log_block i -> m <> n -> same_block s s6 m).
  { intros m Hm1 Hm2. eapply same_block_trans; [by apply O2|]. apply same_block_cached.
    - rewrite O6, O5, O4, O3 by done. done.
    - rewrite D6, D5. rewrite lookup_insert_ne by done. by rewrite D3. }
  destruct (V6 (log_block i)) as (Vl & Pl & Al); [by left|].
  destruct (V6 n) as (Vn & Pn & An); [by right|].
  unfold view in Vl, Vn. unfold pin in Pl, Pn. rewrite O5, O4, O3, C1 in Vl, Pl by done. rewrite C5 in Vn, Pn.
  split; [|split; [|split; [|split; [|split; [|split]]]]].
  - split; [congruence|]. split; [congruence|]. split; [congruence|]. intros m.
    destruct (decide (m = log_block i)) as [->|Hm1]; [by rewrite Ha|].
    destruct (decide (m = n)) as [->|Hm2]; [by rewrite Ha|]. by apply Hoth.
  - split; [simpl; congruence|]. congruence.
  - done.
  - done.
  - intros m Hm. destruct (decide (m = log_block i)) as [->|Hm2]; [unfold view at 1; congruence|]. by apply Hoth.
  - intros m Hm. destruct (decide (m = log_block i)) as [->|Hm1]; [unfold pin at 1; congruence|]. by apply Hoth.
  - intros m Hm1 Hm2 Hc. by apply Hoth.
Qed.

(** ** The loops *)

(** The entries of the header and the writes of the two loops. *)
Definition entries (h : LogHeader) : list Z := take (Z.to_nat (num_blocks h)) (hblock_no h).

Fixpoint log_writes (i : Z) (ds : list bytes) : list (Z * bytes) :=
  match ds with [] => [] | d :: ds' => (log_block i, d) :: log_writes (i + 1) ds' end.

Lemma log_writes_snoc i ds d :
  log_writes i (ds ++ [d]) = log_writes i ds ++ [(log_block (i + Z.of_nat (length ds)), d)].
Proof.
  revert i. induction ds as [|x ds IH]; intros i; cbn [app log_writes length].
  - by rewrite Z.add_0_r.
  - rewrite IH. by replace (i + Z.of_nat (S (length ds))) with (i + 1 + Z.of_nat (length ds)) by lia.
Qed.

Lemma log_writes_fst i ds m : m ∈ (log_writes i ds).*1 <-> exists j, i <= j < i + Z.of_nat (length ds) /\ m = log_block j.
Proof.
  revert i. induction ds as [|x ds IH]; intros i; cbn [log_writes fmap list_fmap fst length].
  - split; [set_solver|]. intros (j & ? & _). lia.
  - rewrite elem_of_cons, IH. split.
    + intros [->|(j & Hj & ->)]; [exists i|exists j]; (split; [lia|done]).
    + intros (j & Hj & ->). destruct (decide (j = i)) as [->|]; [by left|right]. exists j. split; [lia|done].
Qed.

(** The number of blocks the log can hold; [init_bcache] puts it in
    [log.log_size]. *)
Definition log_cap : Z := Z.min LOG_MAX_SIZE (sb_num_log_blocks sblock - 1).

(** The log area and the blocks it protects. *)
Record log_layout (s : bcst) : Prop := {
  ll_cap : 0 <= num_blocks (header s) <= log_cap;
  ll_area : forall i, 0 <= i < num_blocks (header s) -> is_Some (disk s !! log_block i);
  ll_header : is_Some (disk s !! sb_log_start sblock);
  ll_home : forall n, n ∈ entries (header s) ->
    is_Some (disk s !! n) /\ ~ (sb_log_start sblock <= n <= sb_log_start sblock + log_cap);
  ll_len : length (hblock_no (header s)) = Z.to_nat LOG_MAX_SIZE;
  ll_uncached : cached s (sb_log_start sblock) = None
}.

Lemma log_cap_max : log_cap <= LOG_MAX_SIZE.
Proof. unfold log_cap. lia. Qed.

Lemma ll_num s :
  log_layout s -> 0 <= num_blocks (header s) <= Z.of_nat (length (hblock_no (header s))).
Proof.
  intros H. pose proof (ll_cap _ H). pose proof log_cap_max. rewrite (ll_len _ H). unfold LOG_MAX_SIZE in *. lia.
Qed.

Lemma entries_lookup h i n :
  0 <= i < num_blocks h -> hblock_no h !! Z.to_nat i = Some n -> entries h !! Z.to_nat i = Some n.
Proof. intros Hi Hn. unfold entries. by rewrite lookup_take_lt by lia. Qed.

Lemma home_ne_log s i n :
  log_layout s -> 0 <= i < num_blocks (header s) -> n ∈ entries (header s) -> n <> log_block i.
Proof.
  intros H Hi Hn E. destruct (ll_home _ H n Hn) as [_ Hr]. apply Hr. unfold log_block in E.
  pose proof (ll_cap _ H). lia.
Qed.

Lemma hblock_bound s i :
  log_layout s -> 0 <= i < num_blocks (header s) -> is_Some (hblock_no (header s) !! Z.to_nat i).
Proof. intros H Hi. apply lookup_lt_is_Some. pose proof (ll_num _ H). lia. Qed.

Lemma log_block_inj i j : log_block i = log_block j -> i = j.
Proof. unfold log_block. lia. Qed.

Lemma log_block_not_start i : 0 <= i -> sb_log_start sblock <> log_block i.
Proof. unfold log_block. lia. Qed.

Lemma start_not_home s n : log_layout s -> n ∈ entries (header s) -> sb_log_start sblock <> n.
Proof.
  intros H Hn E. destruct (ll_home _ H n Hn) as [_ Hr]. apply Hr. pose proof (ll_cap _ H). lia.
Qed.

Definition commit_inv (s : bcst) (ds : list bytes) (i : Z) (s' : bcst) : Prop :=
  cache_ok s' /\ quiet s s' /\ wrote s s' (log_writes 0 (take (Z.to_nat i) ds)) /\
  (forall j, 0 <= j < i -> view s' (log_block j) = ds !! Z.to_nat j) /\
  (forall m, (forall j, 0 <= j < i -> m <> log_block j) -> view s' m = view s m) /\
  (forall m, pin s' m = pin s m) /\ cached s' (sb_log_start sblock) = None.

Lemma disk_dom_wrote s s' ws m : wrote s s' ws -> is_Some (disk s !! m) -> is_Some (disk s' !! m).
Proof.
  intros [-> _]. generalize (disk s). induction ws as [|[n x] ws IH]; intros d Hd; [done|]. simpl. apply IH.
  destruct (decide (m = n)) as [->|]; [rewrite lookup_insert_eq; eauto|by rewrite lookup_insert_ne].
Qed.

Lemma take_S {A} (ds : list A) i d :
  0 <= i -> ds !! Z.to_nat i = Some d -> take (Z.to_nat (i + 1)) ds = take (Z.to_nat i) ds ++ [d].
Proof. intros Hi Hd. replace (Z.to_nat (i + 1)) with (S (Z.to_nat i)) by lia. by apply take_S_r. Qed.

Lemma commit_loop s ds :
  cache_ok s -> (forall m, acq s m = false) -> log_layout s ->
  Forall2 (fun n d => view s n = Some d) (entries (header s)) ds ->
  exists s', for_upto (Z.to_nat (num_blocks (header s))) 0 (commit_turn sblock) s = Ret (None, s') /\
    commit_inv s ds (num_blocks (header s)) s'.
Proof.
  intros H Ha Hl Hds. set (N := num_blocks (header s)). pose proof (ll_num _ Hl) as HN. fold N in HN.
  destruct (for_upto_inv (commit_inv s ds) (commit_turn sblock) (Z.to_nat N) 0 s) as (s' & E & Hs').
  - split; [done|]. split; [done|]. split; [by apply wrote_nil|]. split; [intros; lia|]. split; [done|].
    split; [done|]. by apply Hl.
  - intros j sj Hj (Hc & Hq & Hw & Hv & Ho & Hp & Hu).
    rewrite Z2Nat.id in Hj by lia. rewrite Z.add_0_l in Hj.
    destruct (hblock_bound s j Hl Hj) as [n Hn]. pose proof (entries_lookup _ _ _ Hj Hn) as He.
    destruct (Forall2_lookup_l _ _ _ _ _ Hds He) as (d & Hd & Hvd). simpl in Hvd.
    assert (Hin : n ∈ entries (header s)) by by eapply list_elem_of_lookup_2.
    destruct Hq as (Q1 & Q2 & Q3 & Q4).
    destruct (commit_turn_spec sj j n d) as (s1 & E1 & H1 & Hq1 & Hw1 & Hv1 & Ho1 & Hp1 & Hu1); [done| | | | | |].
    + intros m. by rewrite Q4.
    + by rewrite Q1.
    + eapply disk_dom_wrote; [exact Hw|]. by apply Hl.
    + by apply (home_ne_log s).
    + rewrite Ho; [done|]. intros k Hk. apply (home_ne_log s); [done|lia|done].
    + exists s1. split; [done|]. split; [done|]. split; [|split; [|split; [|split; [|split]]]].
      * destruct Hq1 as (? & ? & ? & Q4'). split; [congruence|]. split; [congruence|]. split; [congruence|].
        intros m. by rewrite Q4', Q4.
      * rewrite (take_S ds j d) by (done || lia). rewrite log_writes_snoc.
        assert (Hlen : length (take (Z.to_nat j) ds) = Z.to_nat j).
        { rewrite length_take. apply lookup_lt_Some in Hd. lia. }
        rewrite Hlen, Z2Nat.id, Z.add_0_l by lia. by eapply wrote_trans.
      * intros k Hk. destruct (decide (k = j)) as [->|]; [congruence|].
        rewrite Ho1 by (intros Hkj%log_block_inj; lia). apply Hv. lia.
      * intros m Hm. rewrite Ho1 by (apply Hm; lia). apply Ho. intros k Hk. apply Hm. lia.
      * intros m. by rewrite Hp1.
      * apply Hu1; [apply log_block_not_start; lia|by apply (start_not_home s)|done].
  - exists s'. split; [done|]. by rewrite Z2Nat.id, Z.add_0_l in Hs' by lia.
Qed.

Definition wb_inv (s : bcst) (ds : list bytes) (i : Z) (s' : bcst) : Prop :=
  cache_ok s' /\ quiet s s' /\ wrote s s' (take (Z.to_nat i) (zip (entries (header s)) ds)) /\
  (forall j n, 0 <= j < i -> entries (header s) !! Z.to_nat j = Some n ->
     view s' n = ds !! Z.to_nat j /\ pin s' n = false) /\
  (forall m, m ∉ take (Z.to_nat i) (entries (header s)) -> view s' m = view s m /\ pin s' m = pin s m) /\
  cached s' (sb_log_start sblock) = None.

Lemma log_not_home s i j :
  log_layout s -> 0 <= i < num_blocks (header s) -> log_block i ∉ take (Z.to_nat j) (entries (header s)).
Proof.
  intros Hl Hi Hin. apply (home_ne_log s i (log_block i) Hl Hi); [|done].
  apply elem_of_take in Hin as (k & Hk & _). by eapply list_elem_of_lookup_2.
Qed.

Lemma wb_loop s ds :
  cache_ok s -> (forall m, acq s m = false) -> log_layout s -> NoDup (entries (header s)) ->
  length ds = Z.to_nat (num_blocks (header s)) ->
  (forall i d, ds !! i = Some d -> view s (log_block (Z.of_nat i)) = Some d /\ pin s (log_block (Z.of_nat i)) = false) ->
  exists s', for_upto (Z.to_nat (num_blocks (header s))) 0 (log_wb_turn sblock) s = Ret (None, s') /\
    wb_inv s ds (num_blocks (header s)) s'.
Proof.
  intros H Ha Hl Hnd Hlen Hds. set (N := num_blocks (header s)). pose proof (ll_num _ Hl) as HN. fold N in HN, Hlen.
  destruct (for_upto_inv (wb_inv s ds) (log_wb_turn sblock) (Z.to_nat N) 0 s) as (s' & E & Hs').
  - split; [done|]. split; [done|]. split; [by apply wrote_nil|]. split; [intros; lia|]. split; [done|].
    by apply Hl.
  - intros j sj Hj (Hc & Hq & Hw & Hv & Ho & Hu).
    rewrite Z2Nat.id in Hj by lia. rewrite Z.add_0_l in Hj.
    destruct (hblock_bound s j Hl Hj) as [n Hn]. pose proof (entries_lookup _ _ _ Hj Hn) as He.
    destruct (lookup_lt_is_Some_2 ds (Z.to_nat j)) as [d Hd]; [lia|].
    destruct (Hds _ _ Hd) as [Hvd Hpd]. rewrite Z2Nat.id in Hvd, Hpd by lia.
    assert (Hin : n ∈ entries (header s)) by by eapply list_elem_of_lookup_2.
    destruct Hq as (Q1 & Q2 & Q3 & Q4). destruct (Ho (log_block j)) as [Hvl Hpl]; [by apply log_not_home|].
    destruct (log_wb_turn_spec sj j n d) as (s1 & E1 & H1 & Hq1 & Hw1 & Hv1 & Hpn1 & Ho1 & Hp1 & Hu1);
      [done| | | | | | |].
    + intros m. by rewrite Q4.
    + by rewrite Q1.
    + eapply disk_dom_wrote; [exact Hw|]. by apply Hl.
    + by apply (home_ne_log s).
    + congruence.
    + congruence.
    + exists s1. split; [done|]. split; [done|]. split; [|split; [|split; [|split]]].
      * destruct Hq1 as (? & ? & ? & Q4'). split; [congruence|]. split; [congruence|]. split; [congruence|].
        intros m. by rewrite Q4', Q4.
      * rewrite (take_S _ j (n, d)); [by eapply wrote_trans|lia|]. apply lookup_zip_Some. done.
      * intros k n' Hk Hk'. destruct (decide (n' = n)) as [->|Hne].
        { assert (Z.to_nat k = Z.to_nat j) as -> by by eapply NoDup_lookup. split; [congruence|done]. }
        rewrite Ho1, Hp1 by done. apply Hv; [|done]. assert (k <> j) by (intros ->; congruence). lia.
      * intros m Hm. rewrite (take_S _ j n) in Hm by (done || lia). rewrite Ho1, Hp1 by set_solver. apply Ho. set_solver.
      * apply Hu1; [apply log_block_not_start; lia|by apply (start_not_home s)|done].
  - exists s'. split; [done|]. by rewrite Z2Nat.id, Z.add_0_l in Hs' by lia.
Qed.

(** ** The header block *)
Lemma header_bytes_ok h : length (hblock_no h) = Z.to_nat LOG_MAX_SIZE -> block_ok (header_bytes h).
Proof.
  intros Hl. split; [|apply unwords_ok]. unfold header_bytes. rewrite unwords_length. simpl length. by rewrite Hl.
Qed.

Definition header_ok (h : LogHeader) : Prop :=
  length (hblock_no h) = Z.to_nat LOG_MAX_SIZE /\ Forall (word_ok 8) (num_blocks h :: hblock_no h).

Lemma header_round_trip h : header_ok h -> header_of (header_bytes h) = h.
Proof.
  intros [Hl Hok]. unfold header_of, header_bytes.
  pose proof (words_unwords 8 (num_blocks h :: hblock_no h) [] Hok) as E. rewrite app_nil_r in E.
  simpl length in E. rewrite Hl in E. change (S (Z.to_nat LOG_MAX_SIZE)) with 64%nat in E. rewrite E. by destruct h.
Qed.

Lemma write_header_spec s :
  cache_ok s -> is_Some (disk s !! sb_log_start sblock) -> cached s (sb_log_start sblock) = None ->
  length (hblock_no (header s)) = Z.to_nat LOG_MAX_SIZE ->
  let s' := on_disk (sb_log_start sblock) (header_bytes (header s)) s in
  write_header sblock s = Ret (tt, s') /\ cache_ok s' /\ (forall m, cached s' m = cached s m).
Proof.
  intros H Hd Hu Hl. unfold write_header. erewrite bind_Ret by reflexivity.
  apply dev_write_spec; [done|done|by apply header_bytes_ok|]. intros p b Hc. congruence.
Qed.

Definition empty_header (h : LogHeader) : LogHeader := mkHeader 0 (hblock_no h).

Lemma set_header_ok s f : cache_ok s -> cache_ok (set_header f s).
Proof. intros H. by split; apply H. Qed.

(** [log_wb]: the log blocks go home, then the header is cleared. *)
Lemma log_wb_spec s ds :
  cache_ok s -> (forall m, acq s m = false) -> log_layout s -> NoDup (entries (header s)) ->
  length ds = Z.to_nat (num_blocks (header s)) ->
  (forall i d, ds !! i = Some d -> view s (log_block (Z.of_nat i)) = Some d /\ pin s (log_block (Z.of_nat i)) = false) ->
  exists s', log_wb sblock s = Ret (tt, s') /\ cache_ok s' /\
    wrote s s' (zip (entries (header s)) ds ++ [(sb_log_start sblock, header_bytes (empty_header (header s)))]) /\
    header s' = empty_header (header s) /\ log s' = log s /\ ctxs s' = ctxs s /\
    (forall m, acq s' m = false) /\
    (forall m, pin s' m = true -> m ∉ entries (header s) /\ pin s m = true) /\
    (forall m, m <> sb_log_start sblock -> m ∉ entries (header s) -> view s' m = view s m) /\
    (forall i n d, entries (header s) !! i = Some n -> ds !! i = Some d -> view s' n = Some d) /\
  cached s' (sb_log_start sblock) = None.
Proof.
  intros H Ha Hl Hnd Hlen Hds. pose proof (ll_num _ Hl) as HN.
  destruct (wb_loop s ds H Ha Hl Hnd Hlen Hds) as (s1 & E1 & H1 & (Q1 & Q2 & Q3 & Q4) & Hw1 & Hv1 & Ho1 & Hu1).
  assert (Hent : length (entries (header s)) = Z.to_nat (num_blocks (header s))).
  { unfold entries. rewrite length_take. lia. }
  rewrite take_ge in Hw1 by (rewrite length_zip; lia). rewrite take_ge in Ho1 by lia.
  set (s2 := set_header empty_header s1).
  destruct (write_header_spec s2) as (E3 & H3 & Hc3).
  { by apply set_header_ok. } { simpl. eapply disk_dom_wrote; [exact Hw1|]. apply Hl. } { done. }
  { simpl. rewrite Q1. apply Hl. }
  eexists. split.
  { unfold log_wb. erewrite bind_Ret by reflexivity. rewrite (bind_Ret _ _ _ _ _ E1).
    erewrite bind_Ret by reflexivity. exact E3. }
  split; [exact H3|]. split; [|split; [|split; [|split; [|split; [|split; [|split; [|split]]]]]]]; try (simpl; congruence).
  - eapply wrote_trans; [exact Hw1|]. split; simpl; by rewrite Q1.
  - intros m. unfold acq. rewrite Hc3. change (acq s1 m = false). by rewrite Q4.
  - intros m. unfold pin at 1. rewrite Hc3. change (pin s1 m = true -> m ∉ entries (header s) /\ pin s m = true).
    intros Hp. assert (Hni : m ∉ entries (header s)).
    { intros [i Hi]%list_elem_of_lookup. pose proof (lookup_lt_Some _ _ _ Hi) as Hlt.
      destruct (Hv1 (Z.of_nat i) m) as [_ Hpf]; [lia|by rewrite Nat2Z.id|congruence]. }
    split; [done|]. destruct (Ho1 m Hni) as [_ E]. congruence.
  - intros m Hm Hni. destruct (Ho1 m Hni) as [E _]. rewrite <- E. unfold view. rewrite Hc3. simpl.
    change (cached s2 m) with (cached s1 m). destruct (cached s1 m) as [[? ?]|]; [done|].
    by rewrite lookup_insert_ne by done.
  - intros i n d Hi Hd. pose proof (lookup_lt_Some _ _ _ Hi) as Hlt.
    destruct (Hv1 (Z.of_nat i) n) as [E _]; [lia|by rewrite Nat2Z.id|]. rewrite Nat2Z.id, Hd in E.
    rewrite <- E. unfold view. rewrite Hc3. change (cached s2 n) with (cached s1 n).
    destruct (cached s1 n) as [[? ?]|]; [done|]. simpl. apply lookup_insert_ne.
    eapply start_not_home; [done|]. by eapply list_elem_of_lookup_2.
  - by rewrite Hc3.
Qed.

(** ** The commit *)

(** Exactly the blocks of the log are pinned, each logged once. *)
Definition log_pins (s : bcst) : Prop :=
  NoDup (entries (header s)) /\ forall m, pin s m = true <-> m ∈ entries (header s).

Lemma log_block_unpinned s i :
  log_layout s -> log_pins s -> 0 <= i < num_blocks (header s) -> pin s (log_block i) = false.
Proof.
  intros Hl [_ Hp] Hi. apply not_true_iff_false. rewrite Hp. intros Hin. by apply (home_ne_log s i (log_block i)).
Qed.

Definition commit_writes (s : bcst) (ds : list bytes) : list (Z * bytes) :=
  log_writes 0 ds ++ [(sb_log_start sblock, header_bytes (header s))] ++
  zip (entries (header s)) ds ++ [(sb_log_start sblock, header_bytes (empty_header (header s)))].

Lemma set_log_ok s f : cache_ok s -> cache_ok (set_log f s).
Proof. intros H. by split; apply H. Qed.

Lemma set_log_layout s f : log_layout s -> log_layout (set_log f s).
Proof. intros H. by split; apply H. Qed.

Lemma commit_spec s ds :
  cache_ok s -> (forall m, acq s m = false) -> log_layout s -> log_pins s ->
  Forall2 (fun n d => view s n = Some d) (entries (header s)) ds ->
  exists s', commit sblock s = Ret (tt, s') /\ cache_ok s' /\ wrote s s' (commit_writes s ds) /\
    header s' = empty_header (header s) /\
    log s' = mkLog (u32 (log_used (log s) - num_blocks (header s))) (log_size (log s)) (outstanding (log s)) false /\
    ctxs s' = ctxs s /\ (forall m, acq s' m = false) /\ (forall m, pin s' m = false) /\
    (forall m, ~ (sb_log_start sblock <= m <= sb_log_start sblock + log_cap) -> view s' m = view s m) /\
  cached s' (sb_log_start sblock) = None.
Proof.
  intros H Ha Hl Hp Hds. pose proof Hp as [Hnd Hpin]. pose proof (ll_num _ Hl) as HN.
  set (s0 := set_log (fun lg => mkLog (log_used lg) (log_size lg) (outstanding lg) true) s).
  destruct (commit_loop s0 ds) as (s1 & E1 & H1 & (Q1 & Q2 & Q3 & Q4) & Hw1 & Hv1 & Ho1 & Hp1 & Hu1);
    [by apply set_log_ok|done|by apply set_log_layout|done|].
  change (header s0) with (header s) in *.
  assert (Hlen : length ds = Z.to_nat (num_blocks (header s))).
  { rewrite <- (Forall2_length _ _ _ Hds). unfold entries. rewrite length_take. lia. }
  rewrite take_ge in Hw1 by lia.
  destruct (write_header_spec s1) as (E2 & H2 & Hc2); [done| |done|rewrite Q1; apply Hl|].
  { eapply disk_dom_wrote; [exact Hw1|]. apply Hl. }
  set (s2 := on_disk (sb_log_start sblock) (header_bytes (header s1)) s1) in *.
  set (s3 := set_log (fun lg => mkLog (u32 (log_used lg - num_blocks (header s2))) (log_size lg)
                                  (outstanding lg) (committing lg)) s2).
  assert (Hw2 : wrote s s2 (log_writes 0 ds ++ [(sb_log_start sblock, header_bytes (header s))])).
  { eapply wrote_trans; [exact Hw1|]. split; simpl; by rewrite Q1. }
  assert (Hv2 : forall m, m <> sb_log_start sblock -> view s2 m = view s1 m).
  { intros m Hm. unfold view. rewrite Hc2. destruct (cached s1 m) as [[? ?]|]; [done|]. simpl.
    by rewrite lookup_insert_ne. }
  assert (Hp2 : forall m, pin s2 m = pin s m) by (intros m; unfold pin at 1; rewrite Hc2; apply Hp1).
  assert (Eh3 : header s3 = header s) by done.
  assert (Hl3 : log_layout s3).
  { split; rewrite ?Eh3; try apply Hl.
    - intros i Hi. apply (disk_dom_wrote s s2 _ _ Hw2). by apply Hl.
    - apply (disk_dom_wrote s s2 _ _ Hw2). apply Hl.
    - intros n Hn. split; [|by apply Hl]. apply (disk_dom_wrote s s2 _ _ Hw2). by apply Hl.
    - change (cached s2 (sb_log_start sblock) = None). by rewrite Hc2. }
  destruct (log_wb_spec s3 ds) as (s4 & E4 & H4 & Hw4 & Hh4 & Hlg4 & Hx4 & Ha4 & Hp4 & Ho4 & Hv4 & Hu4).
  { by apply set_log_ok. }
  { intros m. change (acq s2 m = false). unfold acq. rewrite Hc2. change (acq s1 m = false). rewrite Q4. apply Ha. }
  { done. } { by rewrite Eh3. } { by rewrite Eh3. }
  { intros i d Hd. pose proof (lookup_lt_Some _ _ _ Hd) as Hlt. change (view s2 (log_block (Z.of_nat i)) = Some d /\
      pin s2 (log_block (Z.of_nat i)) = false). split.
    - rewrite Hv2 by (apply not_eq_sym, log_block_not_start; lia). rewrite Hv1 by lia. by rewrite Nat2Z.id.
    - rewrite Hp2. apply log_block_unpinned; [done..|lia]. }
  rewrite Eh3 in *.
  eexists. split.
  { unfold commit, set_committing. erewrite bind_Ret by reflexivity. erewrite bind_Ret by reflexivity.
    rewrite (bind_Ret _ _ _ _ _ E1), (bind_Ret _ _ _ _ _ E2). erewrite bind_Ret by reflexivity.
    rewrite (bind_Ret _ _ _ _ _ E4). reflexivity. }
  split; [by apply set_log_ok|]. split; [|split; [|split; [|split; [|split; [|split; [|split; [|done]]]]]]].
  - unfold commit_writes. rewrite (app_assoc (log_writes 0 ds)). eapply wrote_trans; [exact Hw2|]. exact Hw4.
  - done.
  - simpl. rewrite Hlg4. simpl. by rewrite Q2, Q1.
  - simpl. by rewrite Hx4.
  - done.
  - intros m. apply not_true_iff_false. intros [Hni Hpm]%Hp4. apply Hni, Hpin. by rewrite <- Hp2.
  - intros m Hm. change (view s4 m = view s m).
    destruct (decide (m ∈ entries (header s))) as [[i Hi]%list_elem_of_lookup|Hni].
    + destruct (Forall2_lookup_l _ _ _ _ _ Hds Hi) as (d & Hd & Hvd). by rewrite (Hv4 i m d).
    + pose proof (ll_cap _ Hl). rewrite Ho4 by (done || lia). change (view s2 m = view s m).
      rewrite Hv2 by lia. apply Ho1. intros j Hj E. apply Hm. unfold log_block in E. lia.
Qed.
End turns.
