(* ===== verification/BCacheCrash.v ===== *)
(** * Crash safety of the log (fs/cache.c)

    A crash keeps a prefix of the device writes and loses memory; the next
    boot runs [init_bcache], which may itself be interrupted any number of
    times.  The theorem: whatever the prefixes, a boot that completes shows
    every block outside the log area either as it was before the commit or as
    the committed operations left it, and the same choice for all of them. *)
From stdpp Require Import base gmap list.
From Stdlib Require Import ZArith Lia.
From S2P Require Import Prelude Bytes Bitmap BCache BCacheInv BCacheLog.

Record disk_ok (dk : gmap Z bytes) : Prop := {
  dk_block : forall n d, dk !! n = Some d -> block_ok d;
  dk_size : Z.of_nat (size dk) < 2 ^ 31 - 1
}.

Lemma cache_disk_ok s : cache_ok s -> disk_ok (disk s).
Proof. intros H. split; apply H. Qed.

Lemma disk_ok_insert dk n d : disk_ok dk -> is_Some (dk !! n) -> block_ok d -> disk_ok (<[n := d]> dk).
Proof.
  intros [H1 H2] [d0 Hd0] Hd. split.
  - intros m x [[<- <-]|[_ Hm]]%lookup_insert_Some; eauto.
  - by rewrite map_size_insert, Hd0.
Qed.

Lemma disk_ok_writes dk ws :
  disk_ok dk -> Forall (fun w => is_Some (dk !! w.1) /\ block_ok w.2) ws -> disk_ok (apply_writes dk ws).
Proof.
  intros H Hw. revert dk H Hw. induction ws as [|[n d] ws IH]; intros dk H Hw; [done|].
  apply Forall_cons in Hw as [[Hn Hd] Hw]. simpl. apply IH; [by apply disk_ok_insert|].
  eapply Forall_impl; [exact Hw|]. intros [m x] [Hm Hx]. split; [|done]. simpl in *.
  by apply lookup_insert_is_Some'; right.
Qed.

Section crash.
Context (sblock : SuperBlock) {KA : Kalloc}.

Abbreviation ls := (sb_log_start sblock).
Abbreviation lblock := (log_block sblock).

Definition in_area (m : Z) : Prop := ls <= m <= ls + log_cap sblock.

(** Memory after a reset: an empty cache; the log variables are whatever. *)
Definition boot (dk : gmap Z bytes) : bcst :=
  mkBc ∅ [] dk [] (mkHeader 0 []) (mkLog 0 0 0 false) ∅.

Definition disk_header (dk : gmap Z bytes) : LogHeader := header_of (default [] (dk !! ls)).

(** The disk holds a log that can be written back: [ds] are its blocks. *)
Record recoverable (dk : gmap Z bytes) (ds : list bytes) : Prop := {
  rc_disk : disk_ok dk;
  rc_start : is_Some (dk !! ls);
  rc_num : 0 <= num_blocks (disk_header dk) <= log_cap sblock;
  rc_len : length ds = Z.to_nat (num_blocks (disk_header dk));
  rc_log : forall i d, ds !! i = Some d -> dk !! lblock (Z.of_nat i) = Some d;
  rc_nodup : NoDup (entries (disk_header dk));
  rc_home : forall n, n ∈ entries (disk_header dk) -> is_Some (dk !! n) /\ ~ in_area n
}.

Lemma header_of_length d : length (hblock_no (header_of d)) = Z.to_nat LOG_MAX_SIZE.
Proof.
  unfold header_of. pose proof (words_length 8 64 d) as H. destruct (words 8 64 d) as [|n l]; [done|].
  simpl in *. by injection H.
Qed.

Lemma disk_header_length dk : length (hblock_no (disk_header dk)) = Z.to_nat LOG_MAX_SIZE.
Proof. apply header_of_length. Qed.

Definition recovery_writes (dk : gmap Z bytes) (ds : list bytes) : list (Z * bytes) :=
  zip (entries (disk_header dk)) ds ++ [(ls, header_bytes (empty_header (disk_header dk)))].

Lemma entries_length dk ds : recoverable dk ds -> length (entries (disk_header dk)) = length ds.
Proof.
  intros H. rewrite (rc_len _ _ H). unfold entries. rewrite length_take, disk_header_length.
  pose proof (rc_num _ _ H). pose proof (log_cap_max sblock). unfold LOG_MAX_SIZE in *. lia.
Qed.

Lemma recover_spec dk ds :
  recoverable dk ds ->
  exists s', init_bcache sblock (boot dk) = Ret (tt, s') /\ cache_ok s' /\
    dtrace s' = recovery_writes dk ds /\ disk s' = apply_writes dk (recovery_writes dk ds) /\
    header s' = empty_header (disk_header dk) /\
    (forall m, acq s' m = false) /\ (forall m, pin s' m = false) /\
    log s' = mkLog 0 (u32 (Z.min LOG_MAX_SIZE (u32 (sb_num_log_blocks sblock - 1)))) 0 false /\
    ctxs s' = ∅ /\ cached s' ls = None.
Proof.
  intros H. destruct (rc_start _ _ H) as [hd Hhd].
  set (lg := mkLog 0 (u32 (Z.min LOG_MAX_SIZE (u32 (sb_num_log_blocks sblock - 1)))) 0 false).
  set (s0 := mkBc ∅ [] dk [] (disk_header dk) lg ∅).
  assert (E0 : forall A (k : unit -> M bcst A), bind (read_header sblock) k (mkBc ∅ [] dk [] (mkHeader 0 []) lg ∅) = k tt s0).
  { intros A k. unfold read_header. rewrite bind_assoc. erewrite bind_Ret.
    2: { unfold dev_read. simpl. by rewrite Hhd. }
    erewrite bind_Ret by reflexivity. unfold set_header, s0, disk_header. simpl. by rewrite Hhd. }
  assert (H0 : cache_ok s0).
  { split; simpl; try done.
    - constructor.
    - intros p. rewrite lookup_empty. split; [set_solver|by intros [? ?]].
    - apply H.
    - apply H. }
  pose proof (entries_length _ _ H) as Hel. pose proof (rc_num _ _ H) as HN.
  destruct (log_wb_spec sblock s0 ds) as (s' & E & Hc & Hw & Hh & Hlg & Hx & Ha & Hp & _ & _ & Hu); try done.
  { split; try change (header s0) with (disk_header dk); try change (disk s0) with dk;
      rewrite ?disk_header_length; try done.
    - intros i Hi. destruct (lookup_lt_is_Some_2 ds (Z.to_nat i)) as [d Hd]; [rewrite (rc_len _ _ H); lia|].
      apply (rc_log _ _ H) in Hd. rewrite Z2Nat.id in Hd by lia. eauto.
    - apply H. }
  { apply H. } { apply H. }
  { intros i d Hd. split; [|done]. unfold view, cached. simpl. by apply (rc_log _ _ H). }
  exists s'. split.
  { unfold init_bcache. erewrite bind_Ret by reflexivity. simpl. rewrite (E0 unit). exact E. }
  destruct Hw as [Hd Ht]. simpl in Hd, Ht. split; [done|]. split; [done|]. split; [done|]. split; [done|].
  split; [done|]. split; [|done]. intros m. apply not_true_iff_false. by intros [_ ?]%Hp.
Qed.

(** What a completed recovery will show of a block outside the log area. *)
Definition target (dk : gmap Z bytes) (ds : list bytes) (m : Z) : option bytes :=
  apply_writes dk (zip (entries (disk_header dk)) ds) !! m.

Lemma zip_fst_sub (l : list Z) (ds : list bytes) m : m ∈ (zip l ds).*1 -> m ∈ l.
Proof.
  revert ds. induction l as [|n l IH]; intros [|d ds]; simpl; rewrite ?elem_of_nil; try done.
  rewrite !elem_of_cons. intros [->|Hm%IH]; auto.
Qed.

Lemma apply_zip_lookup dk (l : list Z) (ds : list bytes) i n d :
  NoDup l -> l !! i = Some n -> ds !! i = Some d -> apply_writes dk (zip l ds) !! n = Some d.
Proof.
  revert dk ds i. induction l as [|a l IH]; intros dk ds i Hnd Hi Hd; [done|].
  apply NoDup_cons in Hnd as [Ha Hnd].
  destruct ds as [|x ds]; [done|]. destruct i as [|i]; simpl in *; simplify_eq.
  - rewrite apply_writes_other; [by rewrite lookup_insert_eq|]. by intros ?%zip_fst_sub.
  - by eapply IH.
Qed.

Lemma target_other dk ds m : m ∉ entries (disk_header dk) -> target dk ds m = dk !! m.
Proof. intros Hm. unfold target. apply apply_writes_other. by intros ?%zip_fst_sub. Qed.

(** The target depends on the home blocks outside the log only. *)
Lemma target_ext dk dk' ds m :
  NoDup (entries (disk_header dk)) -> length ds = length (entries (disk_header dk)) ->
  disk_header dk' = disk_header dk ->
  (m ∉ entries (disk_header dk) -> dk' !! m = dk !! m) -> target dk' ds m = target dk ds m.
Proof.
  intros Hnd Hlen Hh Hm. destruct (decide (m ∈ entries (disk_header dk))) as [Hin|Hni].
  - apply list_elem_of_lookup in Hin as [i Hi]. pose proof (lookup_lt_Some _ _ _ Hi) as Hlt.
    destruct (lookup_lt_is_Some_2 ds i) as [d Hd]; [lia|].
    unfold target. rewrite Hh. by rewrite !(apply_zip_lookup _ _ _ i m d).
  - rewrite !target_other by (rewrite ?Hh; done). by apply Hm.
Qed.

(** ** Interrupted recoveries *)
Lemma header_of_ok d : block_ok d -> header_ok (header_of d).
Proof.
  intros [Hl Hb]. split; [apply header_of_length|]. unfold header_of.
  pose proof (words_ok 8 64 d Hb Hl) as H. pose proof (words_length 8 64 d) as Hlen.
  by destruct (words 8 64 d) as [|n l].
Qed.

Lemma empty_header_ok h : header_ok h -> header_ok (empty_header h).
Proof. intros [Hl [_ Hw]%Forall_cons]. split; [done|]. apply Forall_cons. split; [|done]. by split. Qed.

Lemma disk_header_ok dk ds : recoverable dk ds -> header_ok (disk_header dk).
Proof.
  intros H. destruct (rc_start _ _ H) as [d Hd]. unfold disk_header. rewrite Hd. simpl.
  apply header_of_ok. by eapply (dk_block _ (rc_disk _ _ H)).
Qed.

Lemma zip_writes_ok dk ds :
  recoverable dk ds -> Forall (fun w => is_Some (dk !! w.1) /\ block_ok w.2) (zip (entries (disk_header dk)) ds).
Proof.
  intros H. apply Forall_lookup. intros i [n d] [Hn Hd]%lookup_zip_Some. simpl in *. split.
  - apply (rc_home _ _ H). by eapply list_elem_of_lookup_2.
  - eapply (dk_block _ (rc_disk _ _ H)). by apply (rc_log _ _ H).
Qed.

(** Writing home blocks leaves the log area alone. *)
Lemma home_writes_area dk ds k m :
  recoverable dk ds -> in_area m -> apply_writes dk (take k (zip (entries (disk_header dk)) ds)) !! m = dk !! m.
Proof.
  intros H Hm. apply apply_writes_other. intros ([n d] & -> & Hn)%list_elem_of_fmap.
  apply elem_of_take in Hn as (i & [Hn _]%lookup_zip_Some & _).
  destruct (rc_home _ _ H n) as [_ Hna]; [by eapply list_elem_of_lookup_2|]. by apply Hna.
Qed.

Lemma ls_in_area : 0 <= log_cap sblock -> in_area ls.
Proof. unfold in_area. lia. Qed.

Lemma rc_area dk ds : recoverable dk ds -> in_area ls.
Proof. intros H. apply ls_in_area. pose proof (rc_num _ _ H). lia. Qed.

Lemma partial_recovery dk ds k :
  recoverable dk ds ->
  let dk' := apply_writes dk (take k (zip (entries (disk_header dk)) ds)) in
  recoverable dk' ds /\ disk_header dk' = disk_header dk /\ forall m, target dk' ds m = target dk ds m.
Proof.
  intros H dk'. assert (Hh : disk_header dk' = disk_header dk).
  { unfold disk_header, dk'. by rewrite home_writes_area by (done || by eapply rc_area). }
  pose proof (rc_num _ _ H) as HN.
  assert (Hdom : forall m, is_Some (dk !! m) -> is_Some (dk' !! m)).
  { intros m Hm. apply (disk_dom_wrote (boot dk) (mkBc ∅ [] dk' (take k (zip (entries (disk_header dk)) ds))
      (mkHeader 0 []) (mkLog 0 0 0 false) ∅) (take k (zip (entries (disk_header dk)) ds))); [by split|done]. }
  split; [|split; [done|]].
  - split; rewrite ?Hh; try apply H.
    + apply disk_ok_writes; [apply H|]. by apply Forall_take, zip_writes_ok.
    + apply Hdom, H.
    + intros i d Hd. unfold dk'. rewrite home_writes_area; [by apply (rc_log _ _ H)|done|].
      apply lookup_lt_Some in Hd. rewrite (rc_len _ _ H) in Hd. unfold in_area, log_block. lia.
    + intros n Hn. destruct (rc_home _ _ H n Hn) as [Hd Ha]. by split; [apply Hdom|].
  - intros m. apply target_ext; [apply H|by rewrite (entries_length _ _ H)|done|]. intros Hm.
    unfold dk'. apply apply_writes_other. intros ([n d] & -> & Hn)%list_elem_of_fmap.
    apply elem_of_take in Hn as (i & [Hn _]%lookup_zip_Some & _). apply Hm. by eapply list_elem_of_lookup_2.
Qed.

Lemma completed_recovery dk ds :
  recoverable dk ds ->
  let dk' := apply_writes dk (recovery_writes dk ds) in
  recoverable dk' [] /\ forall m, ~ in_area m -> target dk' [] m = target dk ds m.
Proof.
  intros H dk'. set (dk1 := apply_writes dk (zip (entries (disk_header dk)) ds)).
  assert (E1 : dk' = <[ls := header_bytes (empty_header (disk_header dk))]> dk1).
  { unfold dk', recovery_writes. by rewrite apply_writes_app. }
  destruct (partial_recovery dk ds (length (zip (entries (disk_header dk)) ds)) H) as (Hr & Hh1 & _).
  rewrite firstn_all in Hr, Hh1. fold dk1 in Hr, Hh1.
  assert (Hh : disk_header dk' = empty_header (disk_header dk)).
  { unfold disk_header at 1. rewrite E1, lookup_insert_eq. simpl.
    apply header_round_trip, empty_header_ok. by eapply disk_header_ok. }
  split.
  - split; rewrite ?Hh; try done.
    + rewrite E1. apply disk_ok_insert; [apply Hr|apply Hr|]. apply header_bytes_ok. apply disk_header_length.
    + rewrite E1, lookup_insert_eq. eauto.
    + pose proof (rc_num _ _ H). cbn [empty_header num_blocks]. lia.
    + constructor.
    + intros n Hn. unfold entries, empty_header in Hn. simpl in Hn. by apply elem_of_nil in Hn.
  - intros m Hm. rewrite target_other.
    + rewrite E1. rewrite lookup_insert_ne; [done|]. intros <-. by eapply Hm, rc_area.
    + rewrite Hh. unfold entries, empty_header. simpl. apply not_elem_of_nil.
Qed.

(** [crashes dk dk']: boots that each complete some prefix of the recovery's
    writes take the disk from [dk] to [dk']. *)
Inductive crashes : gmap Z bytes -> gmap Z bytes -> Prop :=
| crashes_none dk : crashes dk dk
| crashes_more dk s' k dk' :
    init_bcache sblock (boot dk) = Ret (tt, s') ->
    crashes (apply_writes dk (take k (dtrace s'))) dk' -> crashes dk dk'.

Lemma crashes_recoverable dk dk' ds :
  crashes dk dk' -> recoverable dk ds ->
  exists ds', recoverable dk' ds' /\ forall m, ~ in_area m -> target dk' ds' m = target dk ds m.
Proof.
  intros Hc. revert ds. induction Hc as [dk|dk s' k dk' E _ IH]; intros ds H; [by exists ds|].
  destruct (recover_spec dk ds H) as (s1 & E1 & _ & Ht & _). rewrite E in E1. injection E1 as <-.
  rewrite Ht in IH. unfold recovery_writes in IH.
  set (z := zip (entries (disk_header dk)) ds) in *.
  destruct (decide (k <= length z)%nat) as [Hk|Hk].
  - rewrite take_app_le in IH by done. destruct (partial_recovery dk ds k H) as (Hr & _ & Htg).
    destruct (IH ds Hr) as (ds' & Hr' & Ht'). exists ds'. split; [done|]. intros m Hm. by rewrite Ht'.
  - rewrite take_ge in IH by (rewrite length_app; simpl; lia).
    destruct (completed_recovery dk ds H) as [Hr Htg].
    destruct (IH [] Hr) as (ds' & Hr' & Ht'). exists ds'. split; [done|]. intros m Hm. rewrite Ht' by done. by apply Htg.
Qed.

(** A boot that completes shows the target. *)
Lemma recovered_view dk ds :
  recoverable dk ds ->
  exists s', init_bcache sblock (boot dk) = Ret (tt, s') /\ cache_ok s' /\
    forall m, ~ in_area m -> view s' m = target dk ds m /\ disk s' !! m = target dk ds m.
Proof.
  intros H. destruct (recover_spec dk ds H) as (s' & E & Hc & Ht & Hd & _ & Ha & Hp & _).
  exists s'. split; [done|]. split; [done|]. intros m Hm.
  rewrite clean_view by done. rewrite Hd. unfold recovery_writes. rewrite apply_writes_app. simpl.
  rewrite lookup_insert_ne; [done|]. intros <-. by eapply Hm, rc_area.
Qed.

(** ** Crashes during a commit *)

(** Between commits: the cache is coherent, the log's blocks are pinned, the
    header on disk is empty. *)
Record log_inv (s : bcst) : Prop := {
  li_cache : cache_ok s;
  li_layout : log_layout sblock s;
  li_pins : log_pins s;
  li_words : header_ok (header s);
  li_clear : num_blocks (disk_header (disk s)) = 0
}.

Lemma log_writes_area s (ds : list bytes) k m :
  log_inv s -> length ds = Z.to_nat (num_blocks (header s)) ->
  m ∈ (take k (log_writes sblock 0 ds)).*1 -> in_area m /\ m <> ls /\ is_Some (disk s !! m).
Proof.
  intros H Hlen ([n d] & -> & Hn)%list_elem_of_fmap. apply elem_of_take in Hn as (i & Hi & _).
  apply list_elem_of_lookup_2, (list_elem_of_fmap_2 fst) in Hi.
  apply log_writes_fst in Hi as (j & Hj & E). simpl in E |- *. subst n.
  pose proof (ll_cap _ _ (li_layout _ H)) as HN.
  unfold in_area, log_block in *. split; [lia|]. split; [lia|].
  apply (ll_area _ _ (li_layout _ H)). lia.
Qed.

Lemma log_writes_values (ds : list bytes) i w : w ∈ log_writes sblock i ds -> w.2 ∈ ds.
Proof.
  revert i. induction ds as [|d ds IH]; intros i; cbn [log_writes]; [by rewrite elem_of_nil|].
  rewrite !elem_of_cons. intros [->|Hw]; [by left|right; eauto].
Qed.

Lemma views_ok s ds :
  cache_ok s -> Forall2 (fun n d => view s n = Some d) (entries (header s)) ds -> Forall block_ok ds.
Proof.
  intros H Hds. apply Forall_lookup. intros i d Hd.
  destruct (Forall2_lookup_r _ _ _ _ _ Hds Hd) as (n & _ & Hv). by eapply view_ok.
Qed.

Lemma log_writes_ok s ds k :
  log_inv s -> length ds = Z.to_nat (num_blocks (header s)) -> Forall block_ok ds ->
  disk_ok (apply_writes (disk s) (take k (log_writes sblock 0 ds))).
Proof.
  intros H Hlen Hok. apply disk_ok_writes; [apply cache_disk_ok, H|].
  apply Forall_forall. intros w Hw. split.
  - apply (log_writes_area s ds k); [done|done|]. by apply list_elem_of_fmap_2.
  - rewrite Forall_forall in Hok. apply Hok. apply elem_of_take in Hw as (i & Hi & _).
    apply list_elem_of_lookup_2 in Hi. by eapply log_writes_values.
Qed.

(** Before the header is written the old state stands. *)
Lemma crash_before s ds k :
  log_inv s -> Forall2 (fun n d => view s n = Some d) (entries (header s)) ds ->
  length ds = Z.to_nat (num_blocks (header s)) ->
  let dk := apply_writes (disk s) (take k (log_writes sblock 0 ds)) in
  recoverable dk [] /\ forall m, ~ in_area m -> target dk [] m = disk s !! m.
Proof.
  intros H Hds Hlen dk.
  assert (Hls : dk !! ls = disk s !! ls).
  { apply apply_writes_other. intros (_ & ? & _)%(log_writes_area s); done. }
  assert (Hh : disk_header dk = disk_header (disk s)) by (unfold disk_header; by rewrite Hls).
  assert (He : entries (disk_header dk) = []) by (rewrite Hh; unfold entries; by rewrite (li_clear _ H)).
  split.
  - split; rewrite ?He; try rewrite Hh, (li_clear _ H); try done.
    + apply log_writes_ok; [done..|]. eapply views_ok; [apply H|done].
    + rewrite Hls. apply (li_layout _ H).
    + pose proof (ll_cap _ _ (li_layout _ H)). lia.
    + constructor.
    + intros n Hn. by apply elem_of_nil in Hn.
  - intros m Hm. rewrite target_other by (rewrite He; apply not_elem_of_nil).
    apply apply_writes_other. intros (? & _)%(log_writes_area s); done.
Qed.

(** Once it is written the new state stands. *)
Lemma crash_after s ds :
  log_inv s -> (forall m, acq s m = false) ->
  Forall2 (fun n d => view s n = Some d) (entries (header s)) ds ->
  length ds = Z.to_nat (num_blocks (header s)) ->
  let dk := apply_writes (disk s) (log_writes sblock 0 ds ++ [(ls, header_bytes (header s))]) in
  disk_header dk = header s /\ recoverable dk ds /\ forall m, ~ in_area m -> target dk ds m = view s m.
Proof.
  intros H Ha Hds Hlen dk. set (d1 := apply_writes (disk s) (log_writes sblock 0 ds)).
  assert (E1 : dk = <[ls := header_bytes (header s)]> d1) by (unfold dk; by rewrite apply_writes_app).
  assert (Hh : disk_header dk = header s).
  { unfold disk_header. rewrite E1, lookup_insert_eq. simpl. apply header_round_trip, H. }
  pose proof (li_layout _ H) as Hl. pose proof (ll_cap _ _ Hl) as HN.
  assert (Hall : forall m, m ∈ (log_writes sblock 0 ds).*1 -> in_area m /\ m <> ls).
  { intros m Hm. destruct (log_writes_area s ds (length (log_writes sblock 0 ds)) m) as (? & ? & _); [done|done| |done].
    by rewrite firstn_all. }
  assert (Hhome : forall m, ~ in_area m -> dk !! m = disk s !! m).
  { intros m Hm. rewrite E1, lookup_insert_ne by (intros <-; apply Hm, ls_in_area; lia).
    apply apply_writes_other. by intros [? _]%Hall. }
  assert (Hok1 : disk_ok d1).
  { pose proof (log_writes_ok s ds (length (log_writes sblock 0 ds)) H Hlen) as Hok. rewrite firstn_all in Hok.
    apply Hok. eapply views_ok; [apply H|done]. }
  assert (Hls : is_Some (d1 !! ls)).
  { unfold d1. rewrite apply_writes_other; [apply Hl|]. by intros [_ ?]%Hall. }
  split; [done|]. split.
  - split; rewrite ?Hh; try done.
    + rewrite E1. apply disk_ok_insert; [done|done|]. apply header_bytes_ok, Hl.
    + rewrite E1, lookup_insert_eq. eauto.
    + intros i d Hd. pose proof (lookup_lt_Some _ _ _ Hd) as Hlt. rewrite E1, lookup_insert_ne.
      * unfold d1. clear -Hd. revert Hd. generalize (disk s). cut (forall j dk, ds !! i = Some d ->
          apply_writes dk (log_writes sblock j ds) !! lblock (j + Z.of_nat i) = Some d).
        { intros Hc dk Hd. specialize (Hc 0 dk Hd). by rewrite Z.add_0_l in Hc. }
        revert i. induction ds as [|x ds IH]; intros [|i] j dk Hd; simpl in *; simplify_eq.
        -- rewrite Z.add_0_r, apply_writes_other; [by rewrite lookup_insert_eq|].
           intros (q & Hq & E)%log_writes_fst. unfold log_block in E. lia.
        -- replace (j + Z.of_nat (S i)) with (j + 1 + Z.of_nat i) by lia. by apply IH.
      * unfold log_block. lia.
    + apply (li_pins _ H).
    + intros n Hn. destruct (ll_home _ _ Hl n Hn) as [Hd Har]. rewrite Hhome; done.
  - intros m Hm. destruct (decide (m ∈ entries (header s))) as [Hin|Hni].
    + apply list_elem_of_lookup in Hin as [i Hi]. destruct (Forall2_lookup_l _ _ _ _ _ Hds Hi) as (d & Hd & Hv).
      unfold target. rewrite Hh, Hv. eapply apply_zip_lookup; [apply (li_pins _ H)|done|done].
    + rewrite target_other by (by rewrite Hh). rewrite Hhome by done. symmetry. apply clean_view; [apply H| |done].
      apply not_true_iff_false. by rewrite (proj2 (li_pins _ H)).
Qed.

Lemma commit_crash s ds k dk :
  log_inv s -> (forall m, acq s m = false) ->
  Forall2 (fun n d => view s n = Some d) (entries (header s)) ds ->
  length ds = Z.to_nat (num_blocks (header s)) ->
  crashes (apply_writes (disk s) (take k (commit_writes sblock s ds))) dk ->
  exists s', init_bcache sblock (boot dk) = Ret (tt, s') /\ cache_ok s' /\
    ((k <= length ds)%nat /\ (forall m, ~ in_area m -> view s' m = disk s !! m) \/
     (length ds < k)%nat /\ forall m, ~ in_area m -> view s' m = view s m).
Proof.
  intros H Ha Hds Hlen Hc. unfold commit_writes in Hc.
  assert (Hll : forall i, length (log_writes sblock i ds) = length ds).
  { clear. induction ds; intros i; simpl; auto. }
  destruct (decide (k <= length ds)%nat) as [Hk|Hk].
  - rewrite take_app_le in Hc by (rewrite Hll; done).
    destruct (crash_before s ds k H Hds Hlen) as [Hr Ht].
    destruct (crashes_recoverable _ _ _ Hc Hr) as (ds' & Hr' & Ht').
    destruct (recovered_view _ _ Hr') as (s' & E & Hc' & Hv). exists s'. split; [done|]. split; [done|]. left.
    split; [done|]. intros m Hm. rewrite (proj1 (Hv m Hm)), Ht', Ht by done. done.
  - rewrite app_assoc, take_app_ge in Hc by (rewrite length_app, Hll; simpl; lia).
    rewrite apply_writes_app in Hc.
    destruct (crash_after s ds H Ha Hds Hlen) as (Hh & Hr & Ht).
    set (d0 := apply_writes (disk s) (log_writes sblock 0 ds ++ [(ls, header_bytes (header s))])) in *.
    destruct (recover_spec d0 ds Hr) as (s0 & E0 & _ & Ht0 & _).
    assert (Hc0 : crashes d0 dk).
    { eapply (crashes_more d0 s0); [exact E0|]. rewrite Ht0. unfold recovery_writes. rewrite Hh. exact Hc. }
    destruct (crashes_recoverable _ _ _ Hc0 Hr) as (ds' & Hr' & Ht').
    destruct (recovered_view _ _ Hr') as (s' & E & Hc' & Hv). exists s'. split; [done|]. split; [done|]. right.
    split; [lia|]. intros m Hm. rewrite (proj1 (Hv m Hm)), Ht', Ht by done. done.
Qed.
End crash.
