(* ===== verification/BCacheOps.v ===== *)
(** * Atomic operations on the block cache (fs/cache.c)

    Clients bracket their updates with [cache_begin_op] and [cache_end_op];
    several operations may be open at once and share one log.  [wal_inv] is
    the invariant of the log: its space is reserved operation by operation,
    its entries are the pinned blocks.  Every call that keeps to its caller's
    obligations preserves it, and the last [cache_end_op] commits. *)
From stdpp Require Import base gmap list.
From Stdlib Require Import ZArith Lia.
From S2P Require Import Prelude Bytes Bitmap BCache BCacheInv BCacheLog BCacheCrash.

Definition sum_rm (m : gmap Z Z) : Z := map_fold (fun _ rm acc => rm + acc) 0 m.

Lemma sum_rm_insert_new m c v : m !! c = None -> sum_rm (<[c := v]> m) = v + sum_rm m.
Proof. intros Hc. unfold sum_rm. rewrite map_fold_insert_L; [done| |done]. intros; lia. Qed.

Lemma sum_rm_insert m c v : sum_rm (<[c := v]> m) = sum_rm m - default 0 (m !! c) + v.
Proof.
  destruct (m !! c) as [w|] eqn:E; simpl; [|rewrite sum_rm_insert_new by done; lia].
  rewrite <- (insert_delete_id m c w E) at 2. rewrite <- insert_delete_eq.
  rewrite !sum_rm_insert_new by apply lookup_delete_eq. lia.
Qed.

Lemma sum_rm_nonneg m : (forall c rm, m !! c = Some rm -> 0 <= rm) -> 0 <= sum_rm m.
Proof.
  induction m as [|c v m Hc IH] using map_ind; intros H; [done|].
  rewrite sum_rm_insert_new by done.
  assert (0 <= v) by (apply (H c); by rewrite lookup_insert_eq).
  assert (0 <= sum_rm m); [|lia]. apply IH. intros c' rm Hc'. apply (H c'). rewrite lookup_insert_ne; congruence.
Qed.

Lemma sum_rm_ge m c v : (forall c rm, m !! c = Some rm -> 0 <= rm) -> m !! c = Some v -> v <= sum_rm m.
Proof.
  intros H Hc. rewrite <- (insert_delete_id m c v Hc), sum_rm_insert_new by apply lookup_delete_eq.
  assert (0 <= sum_rm (delete c m)); [|lia]. apply sum_rm_nonneg.
  intros c' rm [_ Hc']%lookup_delete_Some. eauto.
Qed.

Section ops.
Context (sblock : SuperBlock) {KA : Kalloc}.

Abbreviation ls := (sb_log_start sblock).

(** [ops] are the open operations. *)
Record wal_inv (ops : gset Z) (s : bcst) : Prop := {
  wi_log : log_inv sblock s;
  wi_area : forall i, 0 <= i < log_size (log s) -> is_Some (disk s !! log_block sblock i);
  wi_words : forall n, is_Some (disk s !! n) -> word_ok 8 n;
  wi_cap : log_size (log s) = log_cap sblock;
  wi_used : log_used (log s) = sum_rm (ctxs s) + num_blocks (header s);
  wi_fit : log_used (log s) <= log_size (log s);
  wi_rm : forall c rm, ctxs s !! c = Some rm -> 0 <= rm <= OP_MAX_NUM_BLOCKS /\ (c ∉ ops -> rm = 0);
  wi_open : forall c, c ∈ ops -> is_Some (ctxs s !! c);
  wi_outstanding : outstanding (log s) = Z.of_nat (size ops);
  wi_reserved : OP_MAX_NUM_BLOCKS * Z.of_nat (size ops) <= log_used (log s);
  wi_idle : committing (log s) = false;
  wi_held : forall m, acq s m = true -> ~ in_area sblock m
}.

Lemma wi_size ops s : wal_inv ops s -> 0 <= log_size (log s) <= LOG_MAX_SIZE.
Proof.
  intros H. rewrite (wi_cap _ _ H). pose proof (ll_cap _ _ (li_layout _ _ (wi_log _ _ H))).
  pose proof (log_cap_max sblock). lia.
Qed.

Lemma wal_ls ops s : wal_inv ops s -> in_area sblock ls.
Proof.
  intros H. apply ls_in_area. pose proof (ll_cap _ _ (li_layout _ _ (wi_log _ _ H))). lia.
Qed.

(** The parts of the invariant that look at the cache only through these. *)
Lemma log_inv_view s s' :
  cache_ok s' -> disk s' = disk s -> header s' = header s -> (forall m, pin s' m = pin s m) ->
  cached s' ls = None -> log_inv sblock s -> log_inv sblock s'.
Proof.
  intros Hc Hd Hh Hp Hu H. split; [done| | | |].
  - split; rewrite ?Hh, ?Hd; try apply H. done.
  - split; [rewrite Hh; apply H|]. intros m. rewrite Hp, Hh. apply H.
  - rewrite Hh. apply H.
  - rewrite Hd. apply H.
Qed.

Lemma wal_inv_view ops s s' :
  cache_ok s' -> same_rest s s' -> (forall m, pin s' m = pin s m) -> cached s' ls = None ->
  (forall m, acq s' m = true -> ~ in_area sblock m) -> wal_inv ops s -> wal_inv ops s'.
Proof.
  intros Hc (Hd & Ht & Hh & Hl & Hx) Hp Hu Ha H. split; rewrite ?Hd, ?Hh, ?Hl, ?Hx; try apply H.
  - eapply log_inv_view; [done|done|done|done|done|apply H].
  - done.
Qed.

(** ** [cache_begin_op] *)
Lemma begin_op_spec ops s c :
  wal_inv ops s -> c ∉ ops ->
  if log_used (log s) + OP_MAX_NUM_BLOCKS >? log_size (log s) then cache_begin_op c s = Stop Sleep
  else exists s', cache_begin_op c s = Ret (tt, s') /\ wal_inv ({[c]} ∪ ops) s' /\
    ctxs s' !! c = Some OP_MAX_NUM_BLOCKS /\ disk s' = disk s /\ dtrace s' = dtrace s /\
    forall m, cached s' m = cached s m.
Proof.
  intros H Hc. pose proof (wi_size _ _ H) as Hsz. pose proof (wi_fit _ _ H) as Hfit.
  pose proof (wi_reserved _ _ H) as Hrs. pose proof (wi_outstanding _ _ H) as Hout.
  unfold cache_begin_op. erewrite bind_Ret by reflexivity. rewrite (wi_idle _ _ H), orb_false_r.
  unfold OP_MAX_NUM_BLOCKS, LOG_MAX_SIZE in *. unfold u32. rewrite wrapu_small by lia.
  destruct (Z.gtb_spec (log_used (log s) + 10) (log_size (log s))) as [Hg|Hg]; [done|].
  eexists. split; [by erewrite bind_Ret by reflexivity|]. split; [|split; [simpl; apply lookup_insert_eq|done]].
  assert (Hrm0 : default 0 (ctxs s !! c) = 0).
  { destruct (ctxs s !! c) as [rm|] eqn:E; [|done]. simpl. by apply (wi_rm _ _ H c rm). }
  assert (Hsize : size ({[c]} ∪ ops) = S (size ops)).
  { rewrite size_union by set_solver. by rewrite size_singleton. }
  split; simpl; rewrite ?Hsize; try apply H.
  - eapply (log_inv_view s); try done; [|apply H|apply H]. pose proof (li_cache _ _ (wi_log _ _ H)) as H0.
    by split; apply H0.
  - rewrite wrapu_small by lia. rewrite sum_rm_insert, Hrm0, (wi_used _ _ H). lia.
  - rewrite wrapu_small by lia. lia.
  - intros c' rm [[<- <-]|[Hne Hc']]%lookup_insert_Some; [split; [by unfold OP_MAX_NUM_BLOCKS|set_solver]|].
    destruct (wi_rm _ _ H _ _ Hc'). split; [done|]. set_solver.
  - intros c' [->%elem_of_singleton|Hc']%elem_of_union; [rewrite lookup_insert_eq; eauto|].
    rewrite lookup_insert_ne by (intros <-; done). by apply H.
  - unfold OP_MAX_NUM_BLOCKS. rewrite wrapu_small by lia. lia.
  - unfold OP_MAX_NUM_BLOCKS. rewrite wrapu_small by lia. lia.
Qed.

(** ** [cache_sync] *)
Lemma hblock_Ret s i n : hblock_no (header s) !! Z.to_nat i = Some n -> hblock i s = Ret (n, s).
Proof. intros E. unfold hblock. erewrite bind_Ret by reflexivity. by rewrite E. Qed.

Lemma find_logged_spec s bno k i :
  0 <= i -> (Z.to_nat i + k <= length (hblock_no (header s)))%nat ->
  exists j, find_logged k i bno s = Ret (j, s) /\ i <= j <= i + Z.of_nat k /\
    (j < i + Z.of_nat k -> hblock_no (header s) !! Z.to_nat j = Some bno) /\
    (j = i + Z.of_nat k -> forall q, i <= q < j -> hblock_no (header s) !! Z.to_nat q <> Some bno).
Proof.
  revert i. induction k as [|k IH]; intros i Hi Hk.
  - exists i. split; [done|]. split; [lia|]. split; [lia|]. intros _ q Hq. lia.
  - destruct (lookup_lt_is_Some_2 (hblock_no (header s)) (Z.to_nat i)) as [m Hm]; [lia|].
    cbn [find_logged]. rewrite (bind_Ret _ _ _ _ _ (hblock_Ret _ _ _ Hm)).
    destruct (Z.eqb_spec m bno) as [->|Hne].
    + exists i. split; [done|]. split; [lia|]. split; [done|]. lia.
    + destruct (IH (i + 1)) as (j & E & Hj & H1 & H2); [lia|lia|]. exists j. split; [done|]. split; [lia|].
      split; [intros; apply H1; lia|]. intros Ej q Hq. destruct (decide (q = i)) as [->|]; [congruence|].
      apply H2; lia.
Qed.

Lemma entries_elem h n :
  0 <= num_blocks h <= Z.of_nat (length (hblock_no h)) ->
  n ∈ entries h <-> exists q, 0 <= q < num_blocks h /\ hblock_no h !! Z.to_nat q = Some n.
Proof.
  intros Hn. unfold entries. rewrite elem_of_take. split.
  - intros (i & Hi & Hlt). exists (Z.of_nat i). rewrite Nat2Z.id. split; [lia|done].
  - intros (q & Hq & E). exists (Z.to_nat q). split; [done|lia].
Qed.

Lemma set_header_id s : set_header (fun h => mkHeader (num_blocks h) (hblock_no h)) s = s.
Proof. by destruct s as [? ? ? ? [] ? ?]. Qed.

(** The block is already in the log: absorbed, nothing changes. *)
Lemma sync_absorbed ops s c n p b :
  wal_inv ops s -> cached s n = Some (p, b) -> n ∈ entries (header s) ->
  cache_sync (Some c) p s = Ret (tt, s).
Proof.
  intros H Hc Hin. pose proof (li_cache _ _ (wi_log _ _ H)) as H0.
  pose proof Hc as [Hb Hn]%cached_Some; [|done].
  pose proof (ll_num _ _ (li_layout _ _ (wi_log _ _ H))) as HN.
  destruct (find_logged_spec s n (Z.to_nat (num_blocks (header s))) 0) as (j & E & Hj & H1 & H2); [lia|lia|].
  rewrite Z2Nat.id, Z.add_0_l in * by lia.
  assert (Hlt : j < num_blocks (header s)).
  { destruct (decide (j = num_blocks (header s))) as [Ej|]; [|lia].
    apply entries_elem in Hin as (q & Hq & Eq); [|done]. destruct (H2 Ej q); [lia|done]. }
  unfold cache_sync. erewrite bind_Ret by by apply load_block_Ret. erewrite bind_Ret by reflexivity.
  rewrite Hn, (bind_Ret _ _ _ _ _ E). unfold hblock_set. rewrite bind_assoc. erewrite bind_Ret by reflexivity.
  rewrite (proj2 (Z.ltb_lt _ _)) by lia. erewrite bind_Ret by reflexivity.
  rewrite (proj2 (Z.eqb_neq _ _)) by lia. unfold ret. f_equal. f_equal.
  rewrite <- (set_header_id s) at 2. unfold set_header. f_equal. f_equal. apply list_insert_id. by apply H1.
Qed.

(** The call up to the reservation test, for a block that is not logged. *)
Definition log_appended (n : Z) (s : bcst) : bcst :=
  set_header (fun h => mkHeader (num_blocks h) (<[Z.to_nat (num_blocks h) := n]> (hblock_no h))) s.

Lemma sync_new ops s c n p b :
  wal_inv ops s -> cached s n = Some (p, b) -> n ∉ entries (header s) -> num_blocks (header s) < LOG_MAX_SIZE ->
  cache_sync (Some c) p s =
    (rm <- load_ctx c ;;
     if rm =? 0 then stop Panic
     else
       modify (set_ctxs (insert c (u64 (rm - 1)))) ;;;
       modify (set_header (fun h => mkHeader (u64 (num_blocks h + 1)) (hblock_no h))) ;;;
       update_block p (set_pinned true)) (log_appended n s).
Proof.
  intros H Hc Hin Hlt. pose proof (li_cache _ _ (wi_log _ _ H)) as H0.
  pose proof Hc as [Hb Hn]%cached_Some; [|done].
  pose proof (li_layout _ _ (wi_log _ _ H)) as Hl. pose proof (ll_num _ _ Hl) as HN.
  pose proof (ll_len _ _ Hl) as Hlen.
  destruct (find_logged_spec s n (Z.to_nat (num_blocks (header s))) 0) as (j & E & Hj & H1 & H2); [lia|lia|].
  rewrite Z2Nat.id, Z.add_0_l in * by lia.
  assert (j = num_blocks (header s)) as ->.
  { destruct (decide (j = num_blocks (header s))) as [Ej|]; [done|]. exfalso. apply Hin.
    apply entries_elem; [done|]. exists j. split; [lia|]. apply H1. lia. }
  unfold cache_sync. erewrite bind_Ret by by apply load_block_Ret. erewrite bind_Ret by reflexivity.
  rewrite Hn, (bind_Ret _ _ _ _ _ E). unfold hblock_set. rewrite bind_assoc. erewrite bind_Ret by reflexivity.
  rewrite (proj2 (Z.ltb_lt _ _)) by (rewrite Hlen; unfold LOG_MAX_SIZE in *; lia).
  erewrite bind_Ret by reflexivity. rewrite Z.eqb_refl. done.
Qed.

Lemma entries_append h n :
  0 <= num_blocks h < Z.of_nat (length (hblock_no h)) ->
  entries (mkHeader (num_blocks h + 1) (<[Z.to_nat (num_blocks h) := n]> (hblock_no h))) = entries h ++ [n].
Proof.
  intros Hn. unfold entries. simpl. replace (Z.to_nat (num_blocks h + 1)) with (S (Z.to_nat (num_blocks h))) by lia.
  rewrite (take_S_r _ _ n) by (apply list_lookup_insert_eq; lia). by rewrite take_insert_ge by lia.
Qed.

(** The operation has used up its reservation. *)
Lemma sync_exhausted ops s c n p b :
  wal_inv ops s -> cached s n = Some (p, b) -> n ∉ entries (header s) -> ctxs s !! c = Some 0 ->
  num_blocks (header s) < LOG_MAX_SIZE -> cache_sync (Some c) p s = Stop Panic.
Proof.
  intros H Hc Hin Hx Hlt. rewrite (sync_new ops s c n p b) by done. erewrite bind_Ret by (unfold load_ctx; simpl; by rewrite Hx).
  done.
Qed.

(** The block enters the log and is pinned. *)
Lemma sync_logged ops s c n p b rm :
  wal_inv ops s -> c ∈ ops -> cached s n = Some (p, b) -> acquired b = true -> n ∉ entries (header s) ->
  ctxs s !! c = Some rm -> rm <> 0 ->
  exists s', cache_sync (Some c) p s = Ret (tt, s') /\ wal_inv ops s' /\
    entries (header s') = entries (header s) ++ [n] /\ ctxs s' = <[c := rm - 1]> (ctxs s) /\
    log s' = log s /\ disk s' = disk s /\ dtrace s' = dtrace s /\
    cached s' n = Some (p, set_pinned true b) /\ forall m, m <> n -> cached s' m = cached s m.
Proof.
  intros H Hcin Hc Ha Hin Hx Hrm. pose proof (wi_log _ _ H) as Hli. pose proof (li_cache _ _ Hli) as H0.
  pose proof (li_layout _ _ Hli) as Hl. pose proof (ll_num _ _ Hl) as HN. pose proof (ll_len _ _ Hl) as Hlen.
  destruct (wi_rm _ _ H _ _ Hx) as [Hrb _]. pose proof (wi_size _ _ H) as Hsz.
  assert (Hnum : num_blocks (header s) < log_size (log s)).
  { pose proof (wi_used _ _ H) as Hu. pose proof (wi_fit _ _ H).
    assert (rm <= sum_rm (ctxs s)); [|lia]. eapply sum_rm_ge; [|done]. intros c' r Hr. destruct (wi_rm _ _ H _ _ Hr). lia. }
  set (hd := mkHeader (num_blocks (header s) + 1) (<[Z.to_nat (num_blocks (header s)) := n]> (hblock_no (header s)))).
  set (s1 := set_header (fun _ => hd) (set_ctxs (insert c (rm - 1)) s)).
  assert (H1 : cache_ok s1) by by split; apply H0.
  destruct (set_pinned_spec s1 n p b true H1 Hc Ha) as (s2 & E2 & H2 & R2 & C2 & O2).
  destruct R2 as (D2 & T2 & F2 & L2 & X2). exists s2.
  assert (Hent : entries hd = entries (header s) ++ [n]).
  { apply entries_append. rewrite Hlen. unfold LOG_MAX_SIZE in *. lia. }
  assert (Hna : ~ in_area sblock n) by (apply (wi_held _ _ H); unfold acq; by rewrite Hc).
  assert (Hnd : is_Some (disk s !! n)).
  { pose proof Hc as [Hb <-]%cached_Some; [|done]. by destruct (co_block _ H0 _ _ Hb) as (_ & _ & _ & ? & _). }
  split.
  { rewrite (sync_new ops s c n p b) by (done || lia). erewrite bind_Ret by (unfold load_ctx; simpl; by rewrite Hx).
    rewrite (proj2 (Z.eqb_neq _ _)) by done. do 2 erewrite bind_Ret by reflexivity. rewrite <- E2. f_equal.
    unfold OP_MAX_NUM_BLOCKS, LOG_MAX_SIZE in *. unfold s1, hd, u64, set_header, set_ctxs. simpl.
    rewrite !wrapu_small by lia. done. }
  split; [|split; [by rewrite F2|]; split; [by rewrite X2|]; split; [done|]; split; [done|]; split; [done|]; split; [done|];
           intros m Hm; by rewrite O2].
  assert (Hpin : forall m, pin s2 m = true <-> m = n \/ pin s m = true).
  { intros m. unfold pin. destruct (decide (m = n)) as [->|Hm]; [rewrite C2; simpl; tauto|].
    rewrite O2 by done. change (cached s1 m) with (cached s m). tauto. }
  assert (Hacq : forall m, acq s2 m = acq s m).
  { intros m. unfold acq. destruct (decide (m = n)) as [->|Hm]; [by rewrite C2, Hc|]. by rewrite O2. }
  split; rewrite ?D2, ?F2, ?L2, ?X2; try apply H.
  - split; rewrite ?D2, ?F2; try done.
    + split; rewrite ?D2, ?F2; simpl; rewrite ?length_insert.
      * pose proof (wi_cap _ _ H). lia.
      * intros i Hi. apply (wi_area _ _ H). lia.
      * apply Hl.
      * intros m. fold hd. rewrite Hent, elem_of_app, list_elem_of_singleton. intros [Hm| ->]; [by apply Hl|].
        split; [done|]. unfold in_area in Hna. lia.
      * done.
      * rewrite O2; [apply Hl|]. intros <-. by eapply Hna, wal_ls.
    + split; rewrite F2; simpl; fold hd; rewrite Hent.
      * apply NoDup_app. split; [apply (li_pins _ _ Hli)|]. split; [|apply NoDup_singleton].
        intros m Hm ->%list_elem_of_singleton. done.
      * intros m. rewrite Hpin, elem_of_app, list_elem_of_singleton, (proj2 (li_pins _ _ Hli)). tauto.
    + destruct (li_words _ _ Hli) as [Hwl [Hw1 Hw2]%Forall_cons]. split; simpl; [by rewrite length_insert|].
      assert (Hwn : word_ok 8 n) by by apply (wi_words _ _ H).
      constructor; [unfold word_ok, LOG_MAX_SIZE in *; simpl num_blocks; change (256 ^ Z.of_nat 8) with 18446744073709551616; lia|]. by apply Forall_insert.
    + apply Hli.
  - simpl. rewrite sum_rm_insert, Hx. simpl. rewrite (wi_used _ _ H). lia.
  - simpl. intros c' r [[<- <-]|[_ Hc']]%lookup_insert_Some; [split; [lia|done]|by apply (wi_rm _ _ H)].
  - simpl. intros c' Hc'. destruct (decide (c' = c)) as [->|]; [rewrite lookup_insert_eq; eauto|].
    rewrite lookup_insert_ne by done. by apply H.
  - intros m. rewrite Hacq. apply (wi_held _ _ H).
Qed.

(** ** Calls on blocks *)
Lemma wal_acquire ops s n :
  wal_inv ops s -> acq s n = false -> is_Some (disk s !! n) -> ~ in_area sblock n ->
  exists p s' b, cache_acquire n s = Ret (p, s') /\ wal_inv ops s' /\ same_rest s s' /\
    cached s' n = Some (p, b) /\ acquired b = true /\ view s n = Some (data b) /\
    forall m, m <> n -> same_block s s' m.
Proof.
  intros H Ha Hd Hn. pose proof (li_cache _ _ (wi_log _ _ H)) as H0.
  destruct (acquire_spec s n H0 Ha Hd) as (p & s' & b & E & H1 & R & C & A & V & P & O).
  exists p, s', b. split; [done|]. split; [|done]. eapply wal_inv_view; try done.
  - intros m. destruct (decide (m = n)) as [->|Hm]; [unfold pin at 1; by rewrite C|]. by apply O.
  - apply O; [|apply (li_layout _ _ (wi_log _ _ H))]. intros <-. by eapply Hn, wal_ls.
  - intros m. destruct (decide (m = n)) as [->|Hm]; [done|]. destruct (O m Hm) as (_ & -> & _).
    apply (wi_held _ _ H).
Qed.

(** Changing a held block in a way that keeps it held or releases it. *)
Lemma wal_change ops s s' n p b b' :
  wal_inv ops s -> cache_ok s' -> same_rest s s' -> cached s n = Some (p, b) -> cached s' n = Some (p, b') ->
  acquired b = true -> pinned b' = pinned b -> (forall m, m <> n -> cached s' m = cached s m) -> wal_inv ops s'.
Proof.
  intros H H' R C C' A P O.
  assert (Hna : ~ in_area sblock n) by (apply (wi_held _ _ H); unfold acq; by rewrite C).
  eapply wal_inv_view; try done.
  - intros m. unfold pin. destruct (decide (m = n)) as [->|Hm]; [by rewrite C, C', P|by rewrite O].
  - rewrite O; [apply (li_layout _ _ (wi_log _ _ H))|]. intros <-. by eapply Hna, wal_ls.
  - intros m Hm. destruct (decide (m = n)) as [->|Hmn]; [done|]. apply (wi_held _ _ H).
    unfold acq in Hm |- *. by rewrite O in Hm.
Qed.

Lemma wal_write ops s n p b d :
  wal_inv ops s -> cached s n = Some (p, b) -> acquired b = true -> block_ok d ->
  exists s', update_block p (set_data d) s = Ret (tt, s') /\ wal_inv ops s' /\ same_rest s s' /\
    cached s' n = Some (p, set_data d b) /\ forall m, m <> n -> cached s' m = cached s m.
Proof.
  intros H C A Hd. pose proof (li_cache _ _ (wi_log _ _ H)) as H0.
  destruct (set_data_spec s n p b d H0 C A Hd) as (s' & E & H1 & R & C' & O). exists s'. split; [done|].
  split; [|done]. by eapply wal_change.
Qed.

Lemma wal_release ops s n p b :
  wal_inv ops s -> cached s n = Some (p, b) -> acquired b = true ->
  (pinned b = true \/ disk s !! n = Some (data b)) ->
  exists s', cache_release p s = Ret (tt, s') /\ wal_inv ops s' /\ same_rest s s' /\
    cached s' n = Some (p, set_lock 1 (set_acquired false b)) /\ forall m, m <> n -> cached s' m = cached s m.
Proof.
  intros H C A Hd. pose proof (li_cache _ _ (wi_log _ _ H)) as H0.
  destruct (release_spec s n p b H0 C A Hd) as (s' & E & H1 & R & C' & O). exists s'. split; [done|].
  split; [|done]. by eapply wal_change.
Qed.

(** ** [cache_end_op] *)
Definition end_prefix (c rm : Z) (s : bcst) : bcst :=
  set_log (fun lg => mkLog (u32 (log_used lg - rm)) (log_size lg) (u32 (outstanding lg - 1)) (committing lg))
    (set_ctxs (insert c 0) s).

Lemma end_op_prefix s c rm :
  ctxs s !! c = Some rm ->
  cache_end_op sblock c s =
    (if outstanding (log (end_prefix c rm s)) =? 0 then commit sblock ;;; ret true else ret false) (end_prefix c rm s).
Proof.
  intros Hx. unfold cache_end_op. erewrite bind_Ret by (unfold load_ctx; by rewrite Hx).
  do 3 erewrite bind_Ret by reflexivity. by erewrite bind_Ret by reflexivity.
Qed.

(** The reservation goes back. *)
Lemma end_prefix_inv ops s c rm :
  wal_inv ops s -> c ∈ ops -> ctxs s !! c = Some rm -> wal_inv (ops ∖ {[c]}) (end_prefix c rm s) /\
    size ops = S (size (ops ∖ {[c]})).
Proof.
  intros H Hc Hx. destruct (wi_rm _ _ H _ _ Hx) as [Hrb _]. pose proof (wi_size _ _ H).
  pose proof (wi_fit _ _ H). pose proof (wi_used _ _ H) as Hu. pose proof (wi_reserved _ _ H) as Hrs.
  pose proof (wi_outstanding _ _ H) as Hout. pose proof (ll_num _ _ (li_layout _ _ (wi_log _ _ H))).
  assert (Hge : rm <= sum_rm (ctxs s)).
  { eapply sum_rm_ge; [|done]. intros c' r Hr. destruct (wi_rm _ _ H _ _ Hr). lia. }
  assert (Hsz : size ops = S (size (ops ∖ {[c]}))).
  { rewrite (union_difference_singleton_L c ops) at 1 by done.
    rewrite size_union by set_solver. by rewrite size_singleton. }
  split; [|done]. unfold OP_MAX_NUM_BLOCKS, LOG_MAX_SIZE in *.
  split; simpl; unfold u32; rewrite ?(wrapu_small 32 (log_used (log s) - rm)),
    ?(wrapu_small 32 (outstanding (log s) - 1)) by lia; try apply H.
  - eapply (log_inv_view s); try done; [|apply H|apply H]. pose proof (li_cache _ _ (wi_log _ _ H)) as Hck.
    by split; apply Hck.
  - rewrite sum_rm_insert, Hx. simpl. lia.
  - lia.
  - intros c' r [[<- <-]|[Hne Hc']]%lookup_insert_Some; [done|].
    destruct (wi_rm _ _ H _ _ Hc'). split; [done|]. set_solver.
  - intros c' Hc'. rewrite lookup_insert_ne by set_solver. apply H. set_solver.
  - lia.
  - unfold OP_MAX_NUM_BLOCKS. lia.
Qed.

(** Another operation is still open: the caller goes to sleep. *)
Lemma end_op_wait ops s c rm :
  wal_inv ops s -> c ∈ ops -> ctxs s !! c = Some rm -> (1 < size ops)%nat ->
  cache_end_op sblock c s = Ret (false, end_prefix c rm s).
Proof.
  intros H Hc Hx Hsz. rewrite (end_op_prefix s c rm Hx).
  destruct (end_prefix_inv ops s c rm H Hc Hx) as [H1 E]. rewrite (wi_outstanding _ _ H1).
  rewrite (proj2 (Z.eqb_neq _ _)) by lia. done.
Qed.

(** The last open operation commits the group. *)
Lemma views_exist s (l : list Z) :
  (forall n, n ∈ l -> is_Some (view s n)) -> exists ds, Forall2 (fun n d => view s n = Some d) l ds.
Proof.
  induction l as [|n l IH]; intros H; [by exists []|].
  destruct (H n) as [d Hd]; [by left|]. destruct IH as [ds Hds]; [intros m Hm; apply H; by right|].
  exists (d :: ds). by constructor.
Qed.

Lemma entries_views s :
  log_inv sblock s -> exists ds, Forall2 (fun n d => view s n = Some d) (entries (header s)) ds /\
    length ds = Z.to_nat (num_blocks (header s)).
Proof.
  intros H. destruct (views_exist s (entries (header s))) as [ds Hds].
  - intros n Hn. apply view_is_Some; [apply H|]. by apply (li_layout _ _ H).
  - exists ds. split; [done|]. rewrite <- (Forall2_length _ _ _ Hds). unfold entries. rewrite length_take.
    pose proof (ll_num _ _ (li_layout _ _ H)). lia.
Qed.

Lemma apply_writes_is_Some d ws n : is_Some (apply_writes d ws !! n) -> n ∈ ws.*1 \/ is_Some (d !! n).
Proof.
  destruct (decide (n ∈ ws.*1)) as [|Hn]; [by left|]. rewrite apply_writes_other by done. by right.
Qed.

(** A commit writes existing blocks only. *)
Lemma commit_writes_dom s ds n :
  log_inv sblock s -> length ds = Z.to_nat (num_blocks (header s)) ->
  is_Some (apply_writes (disk s) (commit_writes sblock s ds) !! n) -> is_Some (disk s !! n).
Proof.
  intros H Hlen [Hn|Hn]%apply_writes_is_Some; [|done]. unfold commit_writes in Hn.
  rewrite !fmap_app, !elem_of_app in Hn. simpl in Hn. rewrite list_elem_of_singleton in Hn.
  destruct Hn as [Hn|[->|[Hn| ->]]]; [|apply (li_layout _ _ H)| |apply (li_layout _ _ H)].
  - apply (log_writes_area sblock s ds (length (log_writes sblock 0 ds)) n); [done|done|]. by rewrite firstn_all.
  - apply zip_fst_sub in Hn. by apply (li_layout _ _ H).
Qed.

Lemma commit_clears s s' ds :
  log_inv sblock s -> wrote s s' (commit_writes sblock s ds) -> num_blocks (disk_header sblock (disk s')) = 0.
Proof.
  intros H [Hd _]. unfold disk_header. rewrite Hd. unfold commit_writes. rewrite !app_assoc, apply_writes_app.
  cbn [apply_writes]. rewrite lookup_insert_eq. cbn [default from_option id].
  rewrite header_round_trip; [done|]. by apply empty_header_ok, H.
Qed.

Lemma end_op_commits s c rm :
  wal_inv {[c]} s -> (forall m, acq s m = false) -> ctxs s !! c = Some rm ->
  exists s' ds, cache_end_op sblock c s = Ret (true, s') /\ wal_inv ∅ s' /\
    wrote s s' (commit_writes sblock s ds) /\
    Forall2 (fun n d => view s n = Some d) (entries (header s)) ds /\
    (forall m, ~ in_area sblock m -> view s' m = view s m /\ disk s' !! m = view s m) /\
    (forall m, acq s' m = false) /\ header s' = empty_header (header s) /\ ctxs s' = <[c := 0]> (ctxs s).
Proof.
  intros H Ha Hx. destruct (end_prefix_inv {[c]} s c rm H) as [H1 Esz]; [set_solver|done|].
  rewrite difference_diag_L in H1. set (s1 := end_prefix c rm s) in *.
  pose proof (wi_log _ _ H1) as Hl1. destruct (entries_views s1 Hl1) as (ds & Hds & Hlen).
  destruct (commit_spec sblock s1 ds) as (s' & E & Hc & Hw & Hh & Hlg & Hx' & Ha' & Hp' & Hv' & Hu'); try done; try apply Hl1.
  exists s', ds. split.
  { rewrite (end_op_prefix s c rm Hx). fold s1. rewrite (wi_outstanding _ _ H1), size_empty. simpl.
    by rewrite (bind_Ret _ _ _ _ _ E). }
  assert (Hdom : forall m, is_Some (disk s1 !! m) -> is_Some (disk s' !! m)) by (intros m; by eapply disk_dom_wrote).
  pose proof (wi_used _ _ H1) as Hu. pose proof (wi_fit _ _ H1). pose proof (wi_size _ _ H1).
  pose proof (ll_num _ _ (li_layout _ _ Hl1)) as HN.
  assert (Hsum : 0 <= sum_rm (ctxs s1)).
  { apply sum_rm_nonneg. intros c' r Hr. destruct (wi_rm _ _ H1 _ _ Hr). lia. }
  split; [|split; [done|split; [done|split; [|by split; [|split]]]]].
  - assert (Hu32 : u32 (log_used (log s1) - num_blocks (header s1)) = sum_rm (ctxs s1)).
    { unfold u32. unfold LOG_MAX_SIZE in *. rewrite wrapu_small by lia. lia. }
    split; rewrite ?Hlg, ?Hx', ?Hh; cbn [log_size log_used outstanding committing num_blocks empty_header];
      rewrite ?Hu32; try done; try lia.
    + split; [done| | | |].
      * split; rewrite ?Hh; simpl num_blocks; simpl hblock_no.
        -- pose proof (ll_cap _ _ (li_layout _ _ Hl1)). lia.
        -- intros i Hi. lia.
        -- apply Hdom, Hl1.
        -- intros n Hn. by apply elem_of_nil in Hn.
        -- apply Hl1.
        -- done.
      * split; rewrite Hh; [constructor|]. intros m. rewrite Hp'. unfold entries, empty_header. simpl.
        rewrite elem_of_nil. done.
      * rewrite Hh. apply empty_header_ok, Hl1.
      * by eapply commit_clears.
    + intros i Hi. apply Hdom, (wi_area _ _ H1). exact Hi.
    + intros n Hn. apply (wi_words _ _ H1). apply (commit_writes_dom s1 ds n Hl1 Hlen).
      destruct Hw as [Hd _]. by rewrite <- Hd.
    + apply (wi_cap _ _ H1).
    + apply (wi_rm _ _ H1).
    + apply (wi_outstanding _ _ H1).
    + intros m Hm. by rewrite Ha' in Hm.
  - intros m Hm. rewrite <- (clean_view s' m) by done. by rewrite Hv'.
Qed.
End ops.
