(* ===== verification/BCacheSteps.v ===== *)
(** * Interleaved clients of the block cache

    The calls of several clients, each with its own operation contexts, as
    labels of a step relation; [wal_inv] holds in every reachable state, and
    no call that keeps to its obligations faults. *)
From stdpp Require Import base gmap list.
From Stdlib Require Import ZArith Lia.
From S2P Require Import Prelude Bytes Bitmap BCache BCacheInv BCacheLog BCacheCrash BCacheOps.

Inductive cop :=
| CBegin (c : Z)
| CAcquire (n : Z)
| CWrite (p : Z) (d : bytes)
| CSync (c p : Z)
| CRelease (p : Z)
| CEnd (c : Z).

Definition block_okb (d : bytes) : bool :=
  (length d =? Z.to_nat BLOCK_SIZE)%nat && forallb (fun b => (0 <=? b) && (b <? 256)) d.

Lemma block_okb_spec d : block_okb d = true -> block_ok d.
Proof.
  unfold block_okb. intros [H1 H2]%andb_true_iff. split; [by apply Nat.eqb_eq|].
  apply Forall_forall. intros b Hb. rewrite forallb_forall in H2. apply list_elem_of_In, H2 in Hb.
  apply andb_true_iff in Hb as [?%Z.leb_le ?%Z.ltb_lt]. done.
Qed.

Section steps.
Context (sblock : SuperBlock) {KA : Kalloc}.

Abbreviation ls := (sb_log_start sblock).

Definition in_areab (n : Z) : bool := (ls <=? n) && (n <=? ls + log_cap sblock).

Definition cop_run (op : cop) : M bcst unit :=
  match op with
  | CBegin c => cache_begin_op c
  | CAcquire n => cache_acquire n ;;; ret tt
  | CWrite p d => update_block p (set_data d)
  | CSync c p => cache_sync (Some c) p
  | CRelease p => cache_release p
  | CEnd c => cache_end_op sblock c ;;; ret tt
  end.

Definition held (s : bcst) (p : Z) : option Block :=
  match blocks s !! p with Some b => if acquired b then Some b else None | None => None end.

Definition none_held (s : bcst) : bool :=
  forallb (fun '(_, b) => negb (acquired b)) (map_to_list (blocks s)).

(** What the caller of each function owes: operations are begun before they
    are used and ended once, only blocks outside the log area that exist are
    acquired, only held blocks are written, synced and released, a modified
    block is synced before it is released, and the operation that ends last
    holds no block. *)
Definition cop_ok (ops : gset Z) (s : bcst) (op : cop) : bool :=
  match op with
  | CBegin c => bool_decide (c ∉ ops)
  | CAcquire n => bool_decide (is_Some (disk s !! n)) && negb (in_areab n)
  | CWrite p d => bool_decide (is_Some (held s p)) && block_okb d
  | CSync c p => bool_decide (c ∈ ops) && bool_decide (is_Some (held s p))
  | CRelease p => match held s p with
                  | Some b => pinned b || bool_decide (disk s !! block_no b = Some (data b))
                  | None => false
                  end
  | CEnd c => bool_decide (c ∈ ops) && (negb (bool_decide (size ops = 1%nat)) || none_held s)
  end.

Definition cop_open (op : cop) (ops : gset Z) : gset Z :=
  match op with CBegin c => {[c]} ∪ ops | CEnd c => ops ∖ {[c]} | _ => ops end.

(** Why a call may not return. *)
Definition cop_stops (s : bcst) (op : cop) (r : stop_reason) : Prop :=
  match op with
  | CBegin c => r = Sleep /\ log_size (log s) < log_used (log s) + OP_MAX_NUM_BLOCKS
  | CAcquire n => r = Sleep /\ acq s n = true
  | CSync c p => ctxs s !! c = Some 0 /\ exists b, blocks s !! p = Some b /\ block_no b ∉ entries (header s)
  | _ => False
  end.

Lemma in_areab_spec n : in_areab n = false -> ~ in_area sblock n.
Proof.
  unfold in_areab, in_area. intros H Hn. apply andb_false_iff in H as [H|H]; apply Z.leb_gt in H; lia.
Qed.

Lemma held_cached s p b : cache_ok s -> held s p = Some b -> cached s (block_no b) = Some (p, b) /\ acquired b = true.
Proof.
  intros H. unfold held. destruct (blocks s !! p) as [b'|] eqn:E; [|done].
  destruct (acquired b') eqn:Ea; [|done]. intros [= <-]. split; [|done]. by apply cached_Some.
Qed.

Lemma none_held_spec s m : none_held s = true -> acq s m = false.
Proof.
  intros H. unfold acq, cached. destruct (find_in (blocks s) (lru s) m) as [[p b]|] eqn:E; [|done].
  assert (Hb : blocks s !! p = Some b).
  { clear H. induction (lru s) as [|q l IH]; simpl in E; [done|]. destruct (blocks s !! q) eqn:Eq; [|done].
    destruct (block_no b0 =? m); [by simplify_eq|auto]. }
  unfold none_held in H. rewrite forallb_forall in H. apply negb_true_iff. apply (H (p, b)).
  by apply list_elem_of_In, elem_of_map_to_list.
Qed.

(** The log is full. *)
Lemma sync_overrun ops s c n p b :
  wal_inv sblock ops s -> cached s n = Some (p, b) -> n ∉ entries (header s) ->
  num_blocks (header s) = LOG_MAX_SIZE -> cache_sync (Some c) p s = Stop Fault.
Proof.
  intros H Hc Hin Hlt. pose proof (li_cache _ _ (wi_log _ _ _ H)) as H0.
  pose proof Hc as [Hb Hn]%cached_Some; [|done].
  pose proof (li_layout _ _ (wi_log _ _ _ H)) as Hl. pose proof (ll_num _ _ Hl) as HN.
  pose proof (ll_len _ _ Hl) as Hlen.
  destruct (find_logged_spec s n (Z.to_nat (num_blocks (header s))) 0) as (j & E & Hj & H1 & H2); [lia|lia|].
  rewrite Z2Nat.id, Z.add_0_l in * by lia.
  assert (j = num_blocks (header s)) as ->.
  { destruct (decide (j = num_blocks (header s))) as [Ej|]; [done|]. exfalso. apply Hin.
    apply entries_elem; [done|]. exists j. split; [lia|]. apply H1. lia. }
  unfold cache_sync. erewrite bind_Ret by by apply load_block_Ret. erewrite bind_Ret by reflexivity.
  rewrite Hn, (bind_Ret _ _ _ _ _ E). apply bind_Stop. unfold hblock_set. erewrite bind_Ret by reflexivity.
  rewrite (proj2 (Z.ltb_ge _ _)) by (rewrite Hlen, Hlt; done). done.
Qed.

Lemma cop_step ops s op :
  wal_inv sblock ops s -> cop_ok ops s op = true ->
  match cop_run op s with
  | Ret (_, s') => wal_inv sblock (cop_open op ops) s'
  | Stop r => cop_stops s op r
  end.
Proof.
  intros H Hok. pose proof (li_cache _ _ (wi_log _ _ _ H)) as H0. destruct op as [c|n|p d|c p|p|c]; cbn [cop_run cop_ok cop_open cop_stops] in *.
  - apply bool_decide_eq_true in Hok. pose proof (begin_op_spec sblock ops s c H Hok) as Hb.
    destruct (Z.gtb_spec (log_used (log s) + OP_MAX_NUM_BLOCKS) (log_size (log s))) as [Hg|Hg].
    + rewrite Hb. split; [done|lia].
    + destruct Hb as (s' & -> & Hs' & _). done.
  - apply andb_true_iff in Hok as [Hd%bool_decide_eq_true Hn%negb_true_iff%in_areab_spec].
    destruct (acq s n) eqn:Ha.
    + rewrite (bind_Stop _ _ _ Sleep); [done|]. by apply acquire_sleep.
    + destruct (wal_acquire sblock ops s n H Ha Hd Hn) as (p & s' & b & E & Hs' & _).
      rewrite (bind_Ret _ _ _ _ _ E). done.
  - apply andb_true_iff in Hok as [[b Hb]%bool_decide_eq_true Hd%block_okb_spec].
    destruct (held_cached _ _ _ H0 Hb) as [C A].
    destruct (wal_write sblock ops s _ p b d H C A Hd) as (s' & -> & Hs' & _). done.
  - apply andb_true_iff in Hok as [Hc%bool_decide_eq_true [b Hb]%bool_decide_eq_true].
    destruct (held_cached _ _ _ H0 Hb) as [C A]. pose proof C as [Hbl _]%cached_Some; [|done].
    destruct (decide (block_no b ∈ entries (header s))) as [Hin|Hin].
    { rewrite (sync_absorbed sblock ops s c _ p b) by done. done. }
    destruct (wi_open _ _ _ H c Hc) as [rm Hx]. destruct (decide (rm = 0)) as [->|Hrm].
    + pose proof (ll_num _ _ (li_layout _ _ (wi_log _ _ _ H))) as HN.
      rewrite (ll_len _ _ (li_layout _ _ (wi_log _ _ _ H))) in HN.
      destruct (decide (num_blocks (header s) = LOG_MAX_SIZE)) as [Hf|Hf].
      * rewrite (sync_overrun ops s c _ p b) by done. simpl. eauto.
      * rewrite (sync_exhausted sblock ops s c _ p b) by (done || (unfold LOG_MAX_SIZE in *; lia)). simpl. eauto.
    + destruct (sync_logged sblock ops s c _ p b rm H Hc C A Hin Hx Hrm) as (s' & -> & Hs' & _). done.
  - destruct (held s p) as [b|] eqn:Hb; [|done]. destruct (held_cached _ _ _ H0 Hb) as [C A].
    destruct (wal_release sblock ops s _ p b H C A) as (s' & -> & Hs' & _); [|done].
    apply orb_true_iff in Hok as [?|?%bool_decide_eq_true]; auto.
  - apply andb_true_iff in Hok as [Hc%bool_decide_eq_true Hh]. destruct (wi_open _ _ _ H c Hc) as [rm Hx].
    destruct (end_prefix_inv sblock ops s c rm H Hc Hx) as [H1 Hsz].
    destruct (decide (size ops = 1%nat)) as [E|E].
    + rewrite bool_decide_true in Hh by done. simpl in Hh.
      assert (Hops : ops = {[c]}).
      { assert (Hz : size (ops ∖ {[c]}) = 0%nat) by lia. apply size_empty_inv in Hz.
        rewrite (union_difference_singleton_L c ops) by done. set_solver. }
      subst ops. destruct (end_op_commits sblock s c rm H) as (s' & ds & E1 & Hs' & _); [|done|].
      { intros m. by apply none_held_spec. }
      rewrite (bind_Ret _ _ _ _ _ E1). simpl. by rewrite difference_diag_L.
    + rewrite (bind_Ret _ _ _ _ _ (end_op_wait sblock ops s c rm H Hc Hx ltac:(lia))). done.
Qed.

(** ** From boot *)

(** A disk a system can boot from. *)
Record disk_wf (dk : gmap Z bytes) (ds : list bytes) : Prop := {
  dw_log : recoverable sblock dk ds;
  dw_area : forall i, 0 <= i < log_cap sblock -> is_Some (dk !! log_block sblock i);
  dw_words : forall n, is_Some (dk !! n) -> word_ok 8 n;
  dw_super : 1 <= sb_num_log_blocks sblock < 2 ^ 32
}.

Lemma recovery_dom dk ds n :
  recoverable sblock dk ds -> is_Some (apply_writes dk (recovery_writes sblock dk ds) !! n) <-> is_Some (dk !! n).
Proof.
  intros H. split.
  - intros [Hn|Hn]%apply_writes_is_Some; [|done]. unfold recovery_writes in Hn.
    rewrite fmap_app, elem_of_app in Hn. simpl in Hn. rewrite list_elem_of_singleton in Hn.
    destruct Hn as [Hn%zip_fst_sub| ->]; [by apply (rc_home _ _ _ H)|apply (rc_start _ _ _ H)].
  - intros Hn. apply (disk_dom_wrote (boot dk) (mkBc ∅ [] (apply_writes dk (recovery_writes sblock dk ds))
      (recovery_writes sblock dk ds) (mkHeader 0 []) (mkLog 0 0 0 false) ∅) (recovery_writes sblock dk ds)); [by split|done].
Qed.

Lemma boot_wal dk ds :
  disk_wf dk ds -> exists s, init_bcache sblock (boot dk) = Ret (tt, s) /\ wal_inv sblock ∅ s /\
    forall m, ~ in_area sblock m -> view s m = target sblock dk ds m.
Proof.
  intros [H Ha Hw Hs]. destruct (recover_spec sblock dk ds H) as (s & E & Hc & Ht & Hd & Hh & Hacq & Hpin & Hl & Hx & Hu).
  exists s. split; [done|].
  assert (Hsz : u32 (Z.min LOG_MAX_SIZE (u32 (sb_num_log_blocks sblock - 1))) = log_cap sblock).
  { unfold u32, log_cap, LOG_MAX_SIZE. rewrite (wrapu_small _ (sb_num_log_blocks sblock - 1)) by lia. apply wrapu_small. lia. }
  assert (Hdom := recovery_dom dk ds). split.
  - split; rewrite ?Hl, ?Hx, ?Hsz; cbn [log_size log_used outstanding committing]; try done.
    + split; [done| | | |].
      * split; rewrite ?Hh, ?Hd; cbn [empty_header num_blocks hblock_no]; try done.
        -- pose proof (rc_num _ _ _ H). lia.
        -- intros i Hi. lia.
        -- apply Hdom; [done|]. apply (rc_start _ _ _ H).
        -- intros n Hn. by apply elem_of_nil in Hn.
      * split; rewrite Hh; [constructor|]. intros m. rewrite Hpin. unfold entries, empty_header. simpl.
        by rewrite elem_of_nil.
      * rewrite Hh. apply empty_header_ok. by eapply disk_header_ok.
      * rewrite Hd. destruct (completed_recovery sblock dk ds H) as [_ _].
        unfold disk_header, recovery_writes. rewrite apply_writes_app. cbn [apply_writes]. rewrite lookup_insert_eq.
        cbn [default from_option id]. rewrite header_round_trip; [done|]. apply empty_header_ok. by eapply disk_header_ok.
    + rewrite Hd. intros i Hi. apply Hdom; [done|]. by apply Ha.
    + rewrite Hd. intros n Hn. apply Hw. by apply Hdom in Hn.
    + rewrite Hh. done.
    + pose proof (rc_num _ _ _ H). lia.
    + intros m Hm. by rewrite Hacq in Hm.
  - intros m Hm. destruct (recovered_view sblock dk ds H) as (s' & E' & _ & Hv). rewrite E in E'. injection E' as <-. by apply Hv.
Qed.

Inductive reach (dk : gmap Z bytes) : gset Z -> bcst -> Prop :=
| reach_boot s : init_bcache sblock (boot dk) = Ret (tt, s) -> reach dk ∅ s
| reach_step ops s op s' :
    reach dk ops s -> cop_ok ops s op = true -> cop_run op s = Ret (tt, s') -> reach dk (cop_open op ops) s'.

Lemma reach_inv dk ds ops s : disk_wf dk ds -> reach dk ops s -> wal_inv sblock ops s.
Proof.
  intros Hw. induction 1 as [s E|ops s op s' _ IH Hok E].
  - destruct (boot_wal dk ds Hw) as (s' & E' & H & _). congruence.
  - pose proof (cop_step ops s op IH Hok) as H. by rewrite E in H.
Qed.
End steps.
