(* ===== verification/BCacheProps.v ===== *)
(** * Properties of the block cache and its log (fs/cache.c) *)
From stdpp Require Import base gmap list.
From Stdlib Require Import ZArith Lia.
From S2P Require Import Prelude Bytes Bitmap BCache BCacheInv BCacheLog BCacheCrash BCacheOps BCacheSteps.

(** C1: [cache_end_op] of the last open operation, with no block held, always
    returns after having committed, and is atomic under crashes: its device
    writes [W] have a commit point [cp] such that, whatever prefix of them a
    crash lets through and however often the recovery of the next boots is
    interrupted at any of its own writes, a boot that completes shows every
    block outside the log area as it was on disk before the commit (up to
    [cp]) or as all committed operations together left it (after [cp]). *)
Theorem end_op_crash_atomic (sblock : SuperBlock) (KA : Kalloc) (s : bcst) (c : Z) :
  wal_inv sblock {[c]} s -> none_held s = true ->
  exists s1 W cp, cache_end_op sblock c s = Ret (true, s1) /\ dtrace s1 = dtrace s ++ W /\ (cp < length W)%nat /\
    (forall m, ~ in_area sblock m -> view s1 m = view s m /\ disk s1 !! m = view s m) /\
    forall k dk, crashes sblock (apply_writes (disk s) (take k W)) dk ->
      exists s2, init_bcache sblock (boot dk) = Ret (tt, s2) /\ cache_ok s2 /\
        forall m, ~ in_area sblock m -> view s2 m = if decide (k <= cp)%nat then disk s !! m else view s m.
Proof.
  intros H Hh. assert (Ha : forall m, acq s m = false) by (intros m; by apply none_held_spec).
  destruct (wi_open _ _ _ H c) as [rm Hx]; [set_solver|].
  destruct (end_op_commits sblock s c rm H Ha Hx) as (s1 & ds & E & _ & [_ Ht] & Hds & Hv & _).
  exists s1, (commit_writes sblock s ds), (length ds). split; [done|]. split; [done|]. split.
  { unfold commit_writes. rewrite !length_app. simpl.
    assert (Hl : forall i, length (log_writes sblock i ds) = length ds) by (clear; induction ds; intros i; simpl; auto).
    rewrite Hl. lia. }
  split; [done|]. intros k dk Hc.
  destruct (commit_crash sblock s ds k dk) as (s2 & E2 & Hc2 & Hcase); [apply H|done|done| |done|].
  { destruct (entries_views sblock s (wi_log _ _ _ H)) as (ds' & Hds' & Hl).
    rewrite <- Hl, <- (Forall2_length _ _ _ Hds), <- (Forall2_length _ _ _ Hds'). done. }
  exists s2. split; [done|]. split; [done|]. intros m Hm. destruct Hcase as [[Hk Hvk]|[Hk Hvk]].
  - rewrite decide_True by done. by apply Hvk.
  - rewrite decide_False by lia. by apply Hvk.
Qed.

(** C28: from any state reachable from a boot by calls that keep to their
    callers' obligations, with any interleaving of operation contexts, every
    such call either returns, or puts its caller to sleep for the documented
    reason (the log has no room for an operation, the block is held by
    someone else), or is a [cache_sync] beyond the operation's budget of
    [OP_MAX_NUM_BLOCKS] blocks: no call faults otherwise. *)
Theorem reachable_calls_safe (sblock : SuperBlock) (KA : Kalloc) (dk : gmap Z bytes) (ds : list bytes)
    (ops : gset Z) (s : bcst) (op : cop) :
  disk_wf sblock dk ds -> reach sblock dk ops s -> cop_ok sblock ops s op = true ->
  match cop_run sblock op s with
  | Ret (_, s') => cache_ok s' /\ log_used (log s') <= log_size (log s')
  | Stop r => cop_stops s op r
  end.
Proof.
  intros Hw Hr Hok. pose proof (cop_step sblock ops s op (reach_inv sblock dk ds ops s Hw Hr) Hok) as H.
  destruct (cop_run sblock op s) as [[? s']|r]; [|done]. split; [apply (wi_log _ _ _ H)|apply H].
Qed.

(** In every reachable state the log is never over-committed: the blocks
    logged so far and the reservations of the open operations fit in it, at
    most six operations are open at once, an operation that has logged fewer
    than [OP_MAX_NUM_BLOCKS] blocks can log another held block, and the
    logged blocks are exactly the pinned ones. *)
Theorem log_reservation_sound (sblock : SuperBlock) (KA : Kalloc) (dk : gmap Z bytes) (ds : list bytes)
    (ops : gset Z) (s : bcst) :
  disk_wf sblock dk ds -> reach sblock dk ops s ->
  sum_rm (ctxs s) + num_blocks (header s) <= log_size (log s) /\ log_size (log s) <= LOG_MAX_SIZE /\
  (size ops <= 6)%nat /\
  (forall c rm p b, c ∈ ops -> ctxs s !! c = Some rm -> rm <> 0 -> held s p = Some b ->
     exists s', cache_sync (Some c) p s = Ret (tt, s') /\ block_no b ∈ entries (header s')) /\
  (forall m, pin s m = true <-> m ∈ entries (header s)).
Proof.
  intros Hw Hr. pose proof (reach_inv sblock dk ds ops s Hw Hr) as H.
  pose proof (wi_used _ _ _ H). pose proof (wi_fit _ _ _ H). pose proof (wi_size _ _ _ H).
  pose proof (wi_reserved _ _ _ H). unfold LOG_MAX_SIZE, OP_MAX_NUM_BLOCKS in *.
  split; [lia|]. split; [lia|]. split; [lia|]. split; [|apply (li_pins _ _ (wi_log _ _ _ H))].
  intros c rm p b Hc Hx Hrm Hb. destruct (held_cached _ _ _ (li_cache _ _ (wi_log _ _ _ H)) Hb) as [C A].
  destruct (decide (block_no b ∈ entries (header s))) as [Hin|Hin].
  - exists s. split; [|done]. by apply (sync_absorbed sblock ops s c (block_no b) p b).
  - destruct (sync_logged sblock ops s c _ p b rm H Hc C A Hin Hx Hrm) as (s' & E & _ & He & _).
    exists s'. split; [done|]. rewrite He. apply elem_of_app. right. by left.
Qed.

(** [cache_acquire] of an existing block that nobody holds always returns,
    with the block held and its buffer holding the latest content, cached or
    from disk; no other block's content, hold or pin changes, in particular
    eviction loses nothing; and the cache stays small: it holds at most
    [EVICTION_THRESHOLD] blocks unless all others are pinned or held. *)
Theorem acquire_coherent (KA : Kalloc) (s : bcst) (n : Z) :
  cache_ok s -> acq s n = false -> is_Some (disk s !! n) ->
  exists p s' b, cache_acquire n s = Ret (p, s') /\ cache_ok s' /\ same_rest s s' /\
    blocks s' !! p = Some b /\ block_no b = n /\ acquired b = true /\ view s n = Some (data b) /\
    (forall m, view s' m = view s m /\ pin s' m = pin s m /\ (m <> n -> acq s' m = acq s m)) /\
    (Z.of_nat (length (lru s')) <= Z.max EVICTION_THRESHOLD (Z.of_nat (length (lru s))) \/
     forall q b, q <> p -> blocks s' !! q = Some b -> pinned b = true \/ acquired b = true).
Proof.
  intros H Ha Hd. destruct (acquire_spec s n H Ha Hd) as (p & s' & b & E & H' & R & C & A & V & P & O).
  exists p, s', b. split; [done|]. split; [done|]. split; [done|]. pose proof C as [Hb Hn]%cached_Some; [|done].
  split; [done|]. split; [done|]. split; [done|]. split; [done|]. split.
  { intros m. destruct (decide (m = n)) as [->|Hm]; [|by destruct (O m Hm) as (? & ? & ? & _)].
    unfold view at 1, pin at 1. rewrite C. done. }
  destruct (cached s n) as [[p0 b0]|] eqn:Hc.
  - left. unfold acq in Ha. rewrite Hc in Ha. unfold cache_acquire in E. rewrite (acquire_hit _ _ _ _ _ H Hc Ha) in E.
    injection E as <- <-. simpl. pose proof Hc as [Hb0 _]%cached_Some; [|done].
    pose proof (length_filter_ne p0 (lru s) (co_nodup _ H)) as El. unfold detach.
    rewrite El by (apply (co_dom _ H); eauto). lia.
  - destruct Hd as [d Hd]. destruct (acquire_miss 1 s n d H Hc Hd) as (s1 & q & H1 & Hsh & Hq & E' & Hcnt).
    unfold cache_acquire in E. rewrite E' in E. injection E as <- <-. destruct Hcnt as [Hcnt|Hcnt].
    + left. simpl. lia.
    + right. intros r c Hr Hrc. simpl in Hrc. rewrite lookup_insert_ne in Hrc by done. by eapply Hcnt.
Qed.

(** the log header survives its trip through a disk block. *)
Theorem log_header_round_trip (h : LogHeader) :
  length (hblock_no h) = Z.to_nat LOG_MAX_SIZE -> Forall (word_ok 8) (num_blocks h :: hblock_no h) ->
  header_of (header_bytes h) = h /\ block_ok (header_bytes h).
Proof. intros H1 H2. split; [by apply header_round_trip|by apply header_bytes_ok]. Qed.

(** ** A small disk *)
Definition ex_sb : SuperBlock := mkSuper 40 10 8 15 2 20 25.

Definition ex_block (v : Z) : bytes := replicate (Z.to_nat BLOCK_SIZE) v.
Definition ex_disk : gmap Z bytes := list_to_map ((fun i => (Z.of_nat i, ex_block 0)) <$> seq 0 70).

Definition max_key (d : gset Z) : Z := foldr Z.max 0 (elements d).

Lemma max_key_ge d x : x ∈ d -> x <= max_key d.
Proof.
  intros Hx. unfold max_key. apply elem_of_elements in Hx. induction (elements d) as [|y l IH]; [set_solver|].
  apply elem_of_cons in Hx as [->|Hx]; simpl; [lia|]. specialize (IH Hx). lia.
Qed.

Lemma max_key_nonneg d : 0 <= max_key d.
Proof. unfold max_key. induction (elements d); simpl; lia. Qed.

Definition ex_kalloc : Kalloc.
Proof.
  refine {| kalloc d := max_key d + 1 |}.
  - intros d Hd%max_key_ge. lia.
  - intros d. pose proof (max_key_nonneg d). lia.
Defined.

(** Operations 1 and 2 open, 2 has written block 30 (its buffer is at
    address 1), synced it and ended. *)
Definition ex_calls : list cop :=
  [CBegin 1; CAcquire 30; CWrite 1 (ex_block 7); CSync 1 1; CRelease 1].

Fixpoint run_calls (ops : gset Z) (l : list cop) (s : bcst) : option (gset Z * bcst) :=
  match l with
  | [] => Some (ops, s)
  | op :: l' =>
      if cop_ok ex_sb ops s op then
        match @cop_run ex_sb ex_kalloc op s with
        | Ret (_, s') => run_calls (cop_open op ops) l' s'
        | Stop _ => None
        end
      else None
  end.

Lemma run_calls_reach dk ops l s ops' s' :
  @reach ex_sb ex_kalloc dk ops s -> run_calls ops l s = Some (ops', s') -> @reach ex_sb ex_kalloc dk ops' s'.
Proof.
  revert ops s. induction l as [|op l IH]; intros ops s Hr E; simpl in E; [by simplify_eq|].
  destruct (cop_ok ex_sb ops s op) eqn:Hok; [|done].
  destruct (cop_run ex_sb op s) as [[[] s1]|] eqn:E1; [|done]. eapply IH; [|exact E]. by eapply reach_step.
Qed.

Definition ex_boot : bcst :=
  match @init_bcache ex_sb ex_kalloc (boot ex_disk) with Ret (_, s) => s | Stop _ => boot ex_disk end.
Definition ex_end : gset Z * bcst := default (∅, ex_boot) (run_calls ∅ ex_calls ex_boot).

Lemma ex_disk_lookup n d : ex_disk !! n = Some d -> d = ex_block 0 /\ 0 <= n < 70.
Proof.
  unfold ex_disk. intros H%elem_of_list_to_map_2. apply list_elem_of_fmap in H as (i & E & Hi).
  injection E as -> ->. split; [done|]. apply elem_of_seq in Hi. lia.
Qed.

Lemma ex_disk_dom n : 0 <= n < 70 -> is_Some (ex_disk !! n).
Proof.
  intros Hn. unfold ex_disk. apply elem_of_dom. rewrite dom_list_to_map. apply elem_of_list_to_set.
  rewrite <- list_fmap_compose. apply list_elem_of_fmap. exists (Z.to_nat n). split; [cbn; lia|].
  apply elem_of_seq. lia.
Qed.

Lemma ex_header : @disk_header ex_sb ex_disk = mkHeader 0 (replicate 63 0).
Proof. vm_compute. reflexivity. Qed.

Lemma ex_disk_wf : disk_wf ex_sb ex_disk [].
Proof.
  split.
  - split; rewrite ?ex_header; try done.
    + split; [|by vm_compute]. intros n d [-> _]%ex_disk_lookup. by apply block_okb_spec.
    + constructor.
    + intros n Hn. by apply elem_of_nil in Hn.
  - intros i Hi. apply ex_disk_dom. unfold log_cap, LOG_MAX_SIZE, log_block in *. simpl in *. lia.
  - intros n [d [_ Hn]%ex_disk_lookup]. unfold word_ok. change (256 ^ Z.of_nat 8) with 18446744073709551616. lia.
  - done.
Qed.

Lemma ex_reach : @reach ex_sb ex_kalloc ex_disk {[1]} ex_end.2.
Proof.
  apply (run_calls_reach ex_disk ∅ ex_calls ex_boot).
  - apply reach_boot. by vm_compute.
  - by vm_compute.
Qed.

Lemma end_op_crash_atomic_witness :
  exists s1 W cp, @cache_end_op ex_sb ex_kalloc 1 ex_end.2 = Ret (true, s1) /\
    dtrace s1 = dtrace ex_end.2 ++ W /\ (cp < length W)%nat /\
    (forall m, ~ in_area ex_sb m -> view s1 m = view ex_end.2 m /\ disk s1 !! m = view ex_end.2 m) /\
    forall k dk, @crashes ex_sb ex_kalloc (apply_writes (disk ex_end.2) (take k W)) dk ->
      exists s2, @init_bcache ex_sb ex_kalloc (boot dk) = Ret (tt, s2) /\ cache_ok s2 /\
        forall m, ~ in_area ex_sb m ->
          view s2 m = if decide (k <= cp)%nat then disk ex_end.2 !! m else view ex_end.2 m.
Proof.
  apply (end_op_crash_atomic ex_sb ex_kalloc ex_end.2 1).
  - apply (@reach_inv ex_sb ex_kalloc ex_disk [] {[1]} ex_end.2 ex_disk_wf ex_reach).
  - by vm_compute.
Defined.

Lemma reachable_calls_safe_witness :
  match @cop_run ex_sb ex_kalloc (CEnd 1) ex_end.2 with
  | Ret (_, s') => cache_ok s' /\ log_used (log s') <= log_size (log s')
  | Stop r => cop_stops ex_end.2 (CEnd 1) r
  end.
Proof.
  apply (reachable_calls_safe ex_sb ex_kalloc ex_disk [] {[1]} ex_end.2 (CEnd 1) ex_disk_wf ex_reach).
  by vm_compute.
Defined.

Lemma log_reservation_sound_witness :
  sum_rm (ctxs ex_end.2) + num_blocks (header ex_end.2) <= log_size (log ex_end.2) /\
  (forall m, pin ex_end.2 m = true <-> m ∈ entries (header ex_end.2)) /\ pin ex_end.2 30 = true.
Proof.
  destruct (log_reservation_sound ex_sb ex_kalloc ex_disk [] {[1]} ex_end.2 ex_disk_wf ex_reach)
    as (H1 & _ & _ & _ & H2).
  split; [exact H1|]. split; [exact H2|]. by vm_compute.
Defined.

Lemma acquire_coherent_witness :
  exists p s' b, @cache_acquire ex_kalloc 31 ex_end.2 = Ret (p, s') /\ cache_ok s' /\
    blocks s' !! p = Some b /\ block_no b = 31 /\ acquired b = true /\ view ex_end.2 31 = Some (data b).
Proof.
  destruct (acquire_coherent ex_kalloc ex_end.2 31) as (p & s' & b & H1 & H2 & _ & H3 & H4 & H5 & H6 & _).
  - apply (li_cache _ _ (wi_log _ _ _ (@reach_inv ex_sb ex_kalloc ex_disk [] {[1]} ex_end.2 ex_disk_wf ex_reach))).
  - by vm_compute.
  - vm_compute. eauto.
  - exists p, s', b. split; [exact H1|]. split; [exact H2|]. split; [exact H3|]. split; [exact H4|].
    split; [exact H5|exact H6].
Defined.

Lemma log_header_round_trip_witness :
  header_of (header_bytes (mkHeader 2 ([700; 30] ++ replicate 61 0))) = mkHeader 2 ([700; 30] ++ replicate 61 0) /\
  block_ok (header_bytes (mkHeader 2 ([700; 30] ++ replicate 61 0))).
Proof.
  apply log_header_round_trip; [reflexivity|].
  change (Forall (word_ok 8) ([2; 700; 30] ++ replicate 61 0)). apply Forall_app. split.
  - repeat (apply Forall_cons; split; [split; [lia|reflexivity]|]). constructor.
  - apply Forall_replicate. split; [lia|reflexivity].
Defined.
