(* ===== verification/BlockStore.v ===== *)
(** * The interface of the block cache (struct BlockCache of fs/cache.h)

    Clients reach the cache through the function pointers of [BlockCache].
    The class [BlockCache] holds those operations over an abstract state, and
    [BlockCacheLaws] what the cache promises to a client that runs one atomic
    operation: the calls act on a [store], the content of the blocks together
    with the buffers held, the blocks logged and the budget left.
    BCacheStore.v proves that fs/cache.c keeps the promise. *)
From stdpp Require Import base gmap list.
From Stdlib Require Import ZArith Lia.
From S2P Require Import Prelude Bytes Bitmap BCache.

(** ** The operations *)
Class BlockCache (St : Type) := {
  bc_acquire : Z -> M St Z;
  bc_release : Z -> M St unit;
  bc_sync : option Z -> Z -> M St unit;
  bc_alloc : option Z -> M St Z;
  bc_free : option Z -> Z -> M St unit;
  bc_begin_op : Z -> M St unit;
  bc_end_op : Z -> M St unit;
  bc_data : Z -> M St bytes;               (* [b->data] *)
  bc_set_data : Z -> bytes -> M St unit
}.

(** ** The abstract state *)
Record store := mkStore {
  st_view : gmap Z bytes;   (* the content of every block outside the log *)
  st_held : gmap Z Z;       (* the held blocks, with their buffers *)
  st_dirty : gset Z;        (* those changed since they were last synced *)
  st_logged : gset Z;
  st_budget : Z
}.

Definition a_acquire (n p : Z) (a : store) : store :=
  mkStore (st_view a) (<[n := p]> (st_held a)) (st_dirty a) (st_logged a) (st_budget a).
Definition a_write (n : Z) (d : bytes) (a : store) : store :=
  mkStore (<[n := d]> (st_view a)) (st_held a) ({[n]} ∪ st_dirty a) (st_logged a) (st_budget a).
Definition a_sync (n : Z) (a : store) : store :=
  mkStore (st_view a) (st_held a) (st_dirty a ∖ {[n]}) ({[n]} ∪ st_logged a)
    (if decide (n ∈ st_logged a) then st_budget a else st_budget a - 1).
Definition a_release (n : Z) (a : store) : store :=
  mkStore (st_view a) (delete n (st_held a)) (st_dirty a) (st_logged a) (st_budget a).

(** A synced update of a block that is not held. *)
Definition a_put (n : Z) (d : bytes) (a : store) : store :=
  mkStore (<[n := d]> (st_view a)) (st_held a) (st_dirty a ∖ {[n]}) ({[n]} ∪ st_logged a)
    (if decide (n ∈ st_logged a) then st_budget a else st_budget a - 1).

Definition syncable (n : Z) (a : store) : Prop := n ∈ st_logged a \/ 0 < st_budget a.

(** Block [b]'s bit in the bitmap, and the bitmap with that bit changed. *)
Definition block_bit (d : bytes) (i : Z) : bool := bit (words 8 64 d) i.

Definition put_bit (v : bool) (i : Z) (d : bytes) : bytes :=
  match (if v then bitmap_set i else bitmap_clear i) (words 8 64 d) with
  | Ret (_, cells) => unwords 8 cells
  | Stop _ => d
  end.

Definition zero_block : bytes := replicate (Z.to_nat BLOCK_SIZE) 0.

(** The block [alloc] hands out. *)
Definition first_free (d : bytes) (n : Z) : Prop :=
  0 <= n < SWAP_START /\ block_bit d n = false /\ forall j, 0 <= j < n -> block_bit d j = true.

(** ** What the cache promises *)
Class BlockCacheLaws (St : Type) {BC : BlockCache St} (sblock : SuperBlock) := {
  idle : St -> gmap Z bytes -> Prop;
  abs : Z -> St -> store -> Prop;
  abs_block c s a n d : abs c s a -> st_view a !! n = Some d -> block_ok d;
  abs_held c s a n p : abs c s a -> st_held a !! n = Some p -> is_Some (st_view a !! n);
  acquire_law c s a n d :
    abs c s a -> st_view a !! n = Some d -> st_held a !! n = None ->
    exists p s', bc_acquire n s = Ret (p, s') /\ abs c s' (a_acquire n p a);
  data_law c s a n p d :
    abs c s a -> st_held a !! n = Some p -> st_view a !! n = Some d -> bc_data p s = Ret (d, s);
  set_data_law c s a n p d :
    abs c s a -> st_held a !! n = Some p -> block_ok d ->
    exists s', bc_set_data p d s = Ret (tt, s') /\ abs c s' (a_write n d a);
  sync_law c s a n p :
    abs c s a -> st_held a !! n = Some p -> syncable n a ->
    exists s', bc_sync (Some c) p s = Ret (tt, s') /\ abs c s' (a_sync n a);
  sync_over_law c s a n p :
    abs c s a -> st_held a !! n = Some p -> ~ syncable n a ->
    exists r, bc_sync (Some c) p s = Stop r;
  release_law c s a n p :
    abs c s a -> st_held a !! n = Some p -> n ∉ st_dirty a ->
    exists s', bc_release p s = Ret (tt, s') /\ abs c s' (a_release n a);
  alloc_law c s a d n :
    abs c s a -> st_view a !! sb_bitmap_start sblock = Some d -> st_held a !! sb_bitmap_start sblock = None ->
    first_free d n -> is_Some (st_view a !! n) -> st_held a !! n = None -> n <> sb_bitmap_start sblock ->
    syncable (sb_bitmap_start sblock) a ->
    syncable n (a_put (sb_bitmap_start sblock) (put_bit true n d) a) ->
    exists s', bc_alloc (Some c) s = Ret (n, s') /\
      abs c s' (a_put n zero_block (a_put (sb_bitmap_start sblock) (put_bit true n d) a));
  alloc_full_law c s a d :
    abs c s a -> st_view a !! sb_bitmap_start sblock = Some d -> st_held a !! sb_bitmap_start sblock = None ->
    sb_bitmap_start sblock ∉ st_dirty a ->
    (forall j, 0 <= j < SWAP_START -> block_bit d j = true) -> bc_alloc (Some c) s = Stop Panic;
  free_law c s a d n :
    abs c s a -> 0 <= n < BIT_PER_BLOCK ->
    st_view a !! sb_bitmap_start sblock = Some d -> st_held a !! sb_bitmap_start sblock = None ->
    syncable (sb_bitmap_start sblock) a ->
    exists s', bc_free (Some c) n s = Ret (tt, s') /\ abs c s' (a_put (sb_bitmap_start sblock) (put_bit false n d) a);
  begin_law c s v :
    idle s v -> exists s', bc_begin_op c s = Ret (tt, s') /\ abs c s' (mkStore v ∅ ∅ ∅ OP_MAX_NUM_BLOCKS);
  end_law c s a :
    abs c s a -> st_held a = ∅ -> exists s', bc_end_op c s = Ret (tt, s') /\ idle s' (st_view a);
  idle_law s v n d :
    idle s v -> v !! n = Some d ->
    exists p s1 s2, bc_acquire n s = Ret (p, s1) /\ bc_data p s1 = Ret (d, s1) /\ bc_release p s1 = Ret (tt, s2) /\ idle s2 v
}.

(** States in which the blocks of [v] can be read, inside an operation or
    between operations. *)
Definition reader {St} {BC : BlockCache St} (R : St -> Prop) (v : gmap Z bytes) : Prop :=
  forall s n d, R s -> v !! n = Some d ->
    exists p s1 s2, bc_acquire n s = Ret (p, s1) /\ bc_data p s1 = Ret (d, s1) /\ bc_release p s1 = Ret (tt, s2) /\ R s2.

(** ** Equations of the abstract state *)
Lemma store_eq a b :
  st_view a = st_view b -> st_held a = st_held b -> st_dirty a = st_dirty b -> st_logged a = st_logged b ->
  st_budget a = st_budget b -> a = b.
Proof. destruct a, b. simpl. intros; by subst. Qed.

Lemma a_release_acquire n p a : st_held a !! n = None -> a_release n (a_acquire n p a) = a.
Proof. intros H. apply store_eq; try done. simpl. by apply delete_insert_id. Qed.

Lemma a_put_steps n p d a :
  st_held a !! n = None -> a_release n (a_sync n (a_write n d (a_acquire n p a))) = a_put n d a.
Proof.
  intros H. apply store_eq; simpl; try done; [by apply delete_insert_id|].
  apply set_eq. intros m. set_solver.
Qed.

(** ** Bits *)
Lemma block_bits_wf d : block_ok d -> bm_wf (words 8 64 d) BIT_PER_BLOCK.
Proof.
  intros [Hl Hb]. split; [by rewrite words_length|].
  apply (words_ok 8 64 d Hb). by rewrite Hl.
Qed.

Lemma put_bit_spec v i d :
  block_ok d -> 0 <= i < BIT_PER_BLOCK ->
  block_ok (put_bit v i d) /\
  (if v then bitmap_set i else bitmap_clear i) (words 8 64 d) = Ret (tt, words 8 64 (put_bit v i d)) /\
  forall j, 0 <= j -> block_bit (put_bit v i d) j = if j =? i then v else block_bit d j.
Proof.
  intros Hd Hi. pose proof (block_bits_wf d Hd) as Hwf.
  assert (exists bm', (if v then bitmap_set i else bitmap_clear i) (words 8 64 d) = Ret (tt, bm') /\
    bm_wf bm' BIT_PER_BLOCK /\ forall j, 0 <= j -> bit bm' j = if j =? i then v else bit (words 8 64 d) j)
    as (bm' & E & [Hl' Hc'] & Hb').
  { destruct v; [by apply bitmap_set_Ret|by apply bitmap_clear_Ret]. }
  assert (Hlen : length bm' = 64%nat).
  { change (Z.of_nat (length bm') = 64) in Hl'. lia. }
  assert (Hw : words 8 64 (unwords 8 bm') = bm').
  { rewrite <- Hlen, <- (app_nil_r (unwords 8 bm')). by apply words_unwords. }
  assert (Hput : put_bit v i d = unwords 8 bm') by (unfold put_bit; by rewrite E).
  unfold block_bit. rewrite Hput, Hw. split; [|by split; [|intros j Hj; apply Hb']].
  split; [by rewrite unwords_length, Hlen|apply unwords_ok].
Qed.

Lemma zero_block_ok : block_ok zero_block.
Proof. split; [done|]. apply Forall_replicate. split; lia. Qed.

(** ** Composite calls *)
Section composite.
Context {St : Type} {BC : BlockCache St} {sblock : SuperBlock} {BL : BlockCacheLaws St sblock}.
Abbreviation bmb := (sb_bitmap_start sblock).

Lemma read_block c s a n d :
  abs c s a -> st_view a !! n = Some d -> st_held a !! n = None -> n ∉ st_dirty a ->
  exists p s1 s2, bc_acquire n s = Ret (p, s1) /\ bc_data p s1 = Ret (d, s1) /\
    bc_release p s1 = Ret (tt, s2) /\ abs c s2 a.
Proof.
  intros H Hd Hh Hn. destruct (acquire_law c s a n d H Hd Hh) as (p & s1 & E1 & H1).
  assert (Hp : st_held (a_acquire n p a) !! n = Some p) by (simpl; apply lookup_insert_eq).
  destruct (release_law c s1 _ n p H1 Hp Hn) as (s2 & E2 & H2). rewrite a_release_acquire in H2 by done.
  exists p, s1, s2. split; [done|]. split; [by eapply data_law|]. done.
Qed.

Lemma abs_reader c a : st_held a = ∅ -> st_dirty a = ∅ -> reader (fun s => abs c s a) (st_view a).
Proof. intros Hh Hd s n d H Hn. apply read_block; [done|done|by rewrite Hh|by rewrite Hd]. Qed.

Lemma idle_reader v : reader (fun s => idle s v) v.
Proof. intros s n d. apply idle_law. Qed.

(** The buffer of a held block is updated, synced and released. *)
Lemma put_held c s a n p d :
  abs c s (a_acquire n p a) -> st_held a !! n = None -> block_ok d -> syncable n a ->
  exists s1 s2 s3, bc_set_data p d s = Ret (tt, s1) /\ bc_sync (Some c) p s1 = Ret (tt, s2) /\
    abs c s2 (a_sync n (a_write n d (a_acquire n p a))) /\
    bc_release p s2 = Ret (tt, s3) /\ abs c s3 (a_put n d a).
Proof.
  intros H Hh Hd Hs. assert (Hp : forall a', st_held (a_acquire n p a') !! n = Some p) by (intros; apply lookup_insert_eq).
  destruct (set_data_law c s _ n p d H (Hp _) Hd) as (s1 & E1 & H1).
  destruct (sync_law c s1 _ n p H1 (Hp _) Hs) as (s2 & E2 & H2).
  destruct (release_law c s2 _ n p H2 (Hp _)) as (s3 & E3 & H3); [simpl; set_solver|].
  exists s1, s2, s3. rewrite a_put_steps in H3 by done. done.
Qed.

Lemma put_block c s a n d d' :
  abs c s a -> st_view a !! n = Some d -> st_held a !! n = None -> block_ok d' -> syncable n a ->
  exists p s1 s2 s3 s4, bc_acquire n s = Ret (p, s1) /\ bc_data p s1 = Ret (d, s1) /\
    bc_set_data p d' s1 = Ret (tt, s2) /\ bc_sync (Some c) p s2 = Ret (tt, s3) /\
    bc_release p s3 = Ret (tt, s4) /\ abs c s4 (a_put n d' a).
Proof.
  intros H Hd Hh Hd' Hs. destruct (acquire_law c s a n d H Hd Hh) as (p & s1 & E1 & H1).
  destruct (put_held c s1 a n p d' H1 Hh Hd' Hs) as (s2 & s3 & s4 & E2 & E3 & _ & E4 & H4).
  exists p, s1, s2, s3, s4. split; [done|]. split; [|done].
  eapply data_law; [exact H1|simpl; apply lookup_insert_eq|done].
Qed.
End composite.

(** ** The budget

    [spent a0 X a]: between [a0] and [a] the operation synced no block
    outside [X], and its budget went down by one for each new one. *)
Definition spent (a0 : store) (X : gset Z) (a : store) : Prop :=
  st_logged a0 ⊆ st_logged a /\ st_logged a ⊆ st_logged a0 ∪ X /\
  st_budget a + Z.of_nat (size (st_logged a ∖ st_logged a0)) = st_budget a0.

Lemma spent_refl a0 X : spent a0 X a0.
Proof. split; [done|]. split; [set_solver|]. rewrite difference_diag_L, size_empty. lia. Qed.

Lemma spent_mono a0 X X' a : spent a0 X a -> X ⊆ X' -> spent a0 X' a.
Proof. intros (H1 & H2 & H3) HX. split; [done|]. split; [set_solver|done]. Qed.

Lemma spent_syncable a0 X a n :
  spent a0 X a -> n ∈ X -> Z.of_nat (size X) <= st_budget a0 -> syncable n a.
Proof.
  intros (H1 & H2 & H3) Hn Hx. destruct (decide (n ∈ st_logged a)) as [|Hl]; [by left|right].
  assert (size (st_logged a ∖ st_logged a0) < size X)%nat; [|lia].
  apply subset_size. split; [set_solver|]. intros Hc. specialize (Hc n Hn). set_solver.
Qed.

Lemma spent_put a0 X a n d : spent a0 X a -> n ∈ X -> spent a0 X (a_put n d a).
Proof.
  intros (H1 & H2 & H3) Hn. split; [simpl; set_solver|]. split; [simpl; set_solver|]. simpl. case_decide as Hl.
  - by replace ({[n]} ∪ st_logged a) with (st_logged a) by set_solver.
  - rewrite difference_union_distr_l_L, size_union by set_solver.
    replace ({[n]} ∖ st_logged a0) with ({[n]} : gset Z) by set_solver. rewrite size_singleton. lia.
Qed.
