(* ===== verification/BCacheStore.v ===== *)
(** * fs/cache.c implements the interface of the block cache *)
From stdpp Require Import base gmap list.
From Stdlib Require Import ZArith Lia.
From S2P Require Import Prelude Bytes Bitmap BCache BCacheInv BCacheLog BCacheCrash BCacheOps BCacheSteps BlockStore.

Lemma sum_rm_zero m : (forall c rm, m !! c = Some rm -> rm = 0) -> sum_rm m = 0.
Proof.
  induction m as [|c v m Hc IH] using map_ind; intros H; [done|]. rewrite sum_rm_insert_new by done.
  rewrite (H c v) by apply lookup_insert_eq. apply IH. intros c' rm Hc'. apply (H c').
  rewrite lookup_insert_ne by congruence. done.
Qed.

Section refine.
Context (sblock : SuperBlock) {KA : Kalloc}.

#[export] Instance in_area_dec n : Decision (in_area sblock n).
Proof. unfold in_area. apply _. Defined.

(** ** The operations *)
#[export] Instance bcache : BlockCache bcst := {|
  bc_acquire := cache_acquire;
  bc_release := cache_release;
  bc_sync := cache_sync;
  bc_alloc := cache_alloc sblock;
  bc_free := cache_free sblock;
  bc_begin_op := cache_begin_op;
  bc_end_op c := done <- cache_end_op sblock c ;; if done : bool then ret tt else stop Sleep;
  bc_data p := b <- load_block p ;; ret (data b);
  bc_set_data p d := update_block p (set_data d)
|}.

(** ** The abstraction *)
Definition outside_log (s : bcst) (v : gmap Z bytes) : Prop :=
  forall n, v !! n = if decide (in_area sblock n) then None else view s n.

Record cache_idle (s : bcst) (v : gmap Z bytes) : Prop := {
  id_wal : wal_inv sblock ∅ s;
  id_free : forall n, acq s n = false;
  id_log : num_blocks (header s) = 0;
  id_view : outside_log s v
}.

Record cache_abs (c : Z) (s : bcst) (a : store) : Prop := {
  ab_wal : wal_inv sblock {[c]} s;
  ab_view : outside_log s (st_view a);
  ab_held : forall n p, st_held a !! n = Some p <-> exists b, cached s n = Some (p, b) /\ acquired b = true;
  ab_clean : forall n, acq s n = true -> n ∉ st_dirty a -> pin s n = true \/ disk s !! n = view s n;
  ab_logged : forall n, n ∈ st_logged a <-> n ∈ entries (header s);
  ab_budget : ctxs s !! c = Some (st_budget a)
}.

Lemma view_Some_abs c s a n d :
  cache_abs c s a -> st_view a !! n = Some d -> view s n = Some d /\ ~ in_area sblock n /\ is_Some (disk s !! n).
Proof.
  intros H Hd. rewrite (ab_view _ _ _ H) in Hd. case_decide as Hn; [done|]. split; [done|]. split; [done|].
  apply view_is_Some; [apply (wi_log _ _ _ (ab_wal _ _ _ H))|]. eauto.
Qed.

Lemma held_None_abs c s a n : cache_abs c s a -> st_held a !! n = None <-> acq s n = false.
Proof.
  intros H. pose proof (ab_held _ _ _ H n) as Hh. unfold acq. destruct (cached s n) as [[p b]|] eqn:E.
  - split.
    + intros Hn. apply not_true_iff_false. intros Ha. specialize (Hh p). rewrite Hn in Hh.
      assert (None = Some p) by (apply Hh; eauto). done.
    + intros Ha. apply eq_None_not_Some. intros [q Hq]. apply Hh in Hq as (b' & E' & Ha'). congruence.
  - split; [done|]. intros _. apply eq_None_not_Some. intros [q Hq]. apply Hh in Hq as (b' & E' & Ha'). congruence.
Qed.

(** A step that touches one cached block only. *)
Lemma outside_log_step s s' v n d :
  outside_log s v -> ~ in_area sblock n -> view s' n = Some d -> (forall m, m <> n -> view s' m = view s m) ->
  outside_log s' (<[n := d]> v).
Proof.
  intros Hv Hn Hd Ho m. destruct (decide (m = n)) as [->|Hm].
  - rewrite lookup_insert_eq, decide_False by done. done.
  - rewrite lookup_insert_ne, (Hv m) by done. by rewrite Ho.
Qed.

Lemma outside_log_same s s' v : outside_log s v -> (forall m, view s' m = view s m) -> outside_log s' v.
Proof. intros Hv Ho m. by rewrite (Hv m), Ho. Qed.

Lemma cached_view s s' m : disk s' = disk s -> cached s' m = cached s m -> view s' m = view s m /\ acq s' m = acq s m /\ pin s' m = pin s m.
Proof. intros Hd Hc. unfold view, acq, pin. by rewrite Hd, Hc. Qed.

Lemma same_block_view s s' m : same_block s s' m -> view s' m = view s m /\ acq s' m = acq s m /\ pin s' m = pin s m.
Proof. unfold same_block. tauto. Qed.

Lemma abs_step c s s' a a' n :
  cache_abs c s a -> wal_inv sblock {[c]} s' -> disk s' = disk s -> ~ in_area sblock n ->
  (forall m, m <> n -> same_block s s' m) ->
  (forall m, m <> n -> st_view a' !! m = st_view a !! m /\ st_held a' !! m = st_held a !! m /\
     (m ∈ st_dirty a' <-> m ∈ st_dirty a)) ->
  st_view a' !! n = view s' n ->
  (forall p, st_held a' !! n = Some p <-> exists b, cached s' n = Some (p, b) /\ acquired b = true) ->
  (acq s' n = true -> n ∉ st_dirty a' -> pin s' n = true \/ disk s' !! n = view s' n) ->
  (forall m, m ∈ st_logged a' <-> m ∈ entries (header s')) -> ctxs s' !! c = Some (st_budget a') ->
  cache_abs c s' a'.
Proof.
  intros H Hw Hd Hn Hs Ha Hv Hh Hc Hl Hb. split; [done| | | |done|done].
  - intros m. destruct (decide (m = n)) as [->|Hm]; [by rewrite decide_False|].
    destruct (Ha m Hm) as (-> & _ & _). rewrite (ab_view _ _ _ H m). by destruct (Hs m Hm) as (-> & _).
  - intros m p. destruct (decide (m = n)) as [->|Hm]; [done|]. destruct (Ha m Hm) as (_ & -> & _).
    rewrite (ab_held _ _ _ H m p). destruct (Hs m Hm) as (_ & Hacq & _ & Hcc & _). unfold acq in Hacq, Hcc.
    split; intros (b & Eb & Eb').
    + exists b. rewrite Eb in Hcc. by rewrite (Hcc Eb').
    + rewrite Eb, Eb' in Hacq. destruct (cached s m) as [[q b']|] eqn:E; [|done].
      rewrite <- Hacq, Eb in Hcc. specialize (Hcc eq_refl). simplify_eq. eauto.
  - intros m. destruct (decide (m = n)) as [->|Hm]; [done|]. destruct (Ha m Hm) as (_ & _ & Hdm).
    destruct (Hs m Hm) as (-> & -> & -> & _). rewrite Hdm, Hd. apply (ab_clean _ _ _ H).
Qed.

(** ** The calls on one block *)
Lemma abs_acquire c s a n d :
  cache_abs c s a -> st_view a !! n = Some d -> st_held a !! n = None ->
  exists p s', cache_acquire n s = Ret (p, s') /\ cache_abs c s' (a_acquire n p a).
Proof.
  intros H Hd Hh. apply (held_None_abs c s a n H) in Hh as Ha. pose proof (ab_wal _ _ _ H) as Hw.
  destruct (view_Some_abs c s a n d H Hd) as (Hvn & Hn & Hdk).
  destruct (wal_acquire sblock {[c]} s n Hw Ha Hdk Hn) as (p & s' & b & E & Hw' & R & C & A & V & O).
  destruct (acquire_spec s n (li_cache _ _ (wi_log _ _ _ Hw)) Ha Hdk) as (p0 & s0 & b0 & E0 & _ & _ & C0 & _ & _ & P0 & _).
  rewrite E in E0. simplify_eq.
  destruct R as (D & _ & Hd' & _ & X). exists p0, s0. split; [done|].
  apply (abs_step c s s0 a _ n); try done; simpl.
  - intros m Hm. by rewrite lookup_insert_ne.
  - unfold view. by rewrite C, Hd, <- Hvn.
  - intros p. rewrite lookup_insert_eq, C. split; [intros; simplify_eq; eauto|intros (? & ? & ?); by simplify_eq].
  - intros _ _. destruct (pin s n) eqn:Hp.
    + left. unfold pin in Hp |- *. rewrite C. congruence.
    + right. rewrite D, <- (clean_view s n) by (done || apply (wi_log _ _ _ Hw)). unfold view at 2. by rewrite C.
  - rewrite Hd'. apply (ab_logged _ _ _ H).
  - rewrite X. apply (ab_budget _ _ _ H).
Qed.

(** A held block in the cache. *)
Lemma held_block c s a n p :
  cache_abs c s a -> st_held a !! n = Some p ->
  exists b, cached s n = Some (p, b) /\ acquired b = true /\ blocks s !! p = Some b /\
    st_view a !! n = Some (data b) /\ ~ in_area sblock n.
Proof.
  intros H Hh. apply (ab_held _ _ _ H) in Hh as (b & C & A). pose proof (ab_wal _ _ _ H) as Hw.
  exists b. split; [done|]. split; [done|]. pose proof C as [Hb Hn]%cached_Some; [|apply (wi_log _ _ _ Hw)].
  split; [done|]. assert (Hna : ~ in_area sblock n) by (apply (wi_held _ _ _ Hw); unfold acq; by rewrite C).
  split; [|done]. rewrite (ab_view _ _ _ H n), decide_False by done. unfold view. by rewrite C.
Qed.

Lemma abs_data c s a n p d :
  cache_abs c s a -> st_held a !! n = Some p -> st_view a !! n = Some d ->
  (b <- load_block p ;; ret (data b)) s = Ret (d, s).
Proof.
  intros H Hh Hd. destruct (held_block c s a n p H Hh) as (b & _ & _ & Hb & Hv & _).
  erewrite bind_Ret by by apply load_block_Ret. unfold ret. congruence.
Qed.

Lemma abs_set_data c s a n p d :
  cache_abs c s a -> st_held a !! n = Some p -> block_ok d ->
  exists s', update_block p (set_data d) s = Ret (tt, s') /\ cache_abs c s' (a_write n d a).
Proof.
  intros H Hh Hd. destruct (held_block c s a n p H Hh) as (b & C & A & Hb & Hv & Hn).
  destruct (wal_write sblock {[c]} s n p b d (ab_wal _ _ _ H) C A Hd) as (s' & E & Hw' & R & C' & O).
  destruct R as (D & _ & Hd' & _ & X). exists s'. split; [done|].
  apply (abs_step c s s' a _ n); try done; simpl.
  - intros m Hm. apply same_block_cached; [by apply O|by rewrite D].
  - intros m Hm. rewrite lookup_insert_ne by done. split; [done|]. split; [done|]. set_solver.
  - rewrite lookup_insert_eq. unfold view. by rewrite C'.
  - intros q. rewrite C', (ab_held _ _ _ H n q), C.
    split; intros (b' & E1 & E2); simplify_eq; eauto.
  - set_solver.
  - rewrite Hd'. apply (ab_logged _ _ _ H).
  - rewrite X. apply (ab_budget _ _ _ H).
Qed.

Lemma abs_release c s a n p :
  cache_abs c s a -> st_held a !! n = Some p -> n ∉ st_dirty a ->
  exists s', cache_release p s = Ret (tt, s') /\ cache_abs c s' (a_release n a).
Proof.
  intros H Hh Hd. destruct (held_block c s a n p H Hh) as (b & C & A & Hb & Hv & Hn).
  destruct (wal_release sblock {[c]} s n p b (ab_wal _ _ _ H) C A) as (s' & E & Hw' & R & C' & O).
  { destruct (ab_clean _ _ _ H n) as [Hp|Hp]; [unfold acq; by rewrite C|done| |].
    - left. unfold pin in Hp. by rewrite C in Hp.
    - right. unfold view in Hp. by rewrite C in Hp. }
  destruct R as (D & _ & Hd' & _ & X). exists s'. split; [done|].
  apply (abs_step c s s' a _ n); try done; simpl.
  - intros m Hm. apply same_block_cached; [by apply O|by rewrite D].
  - intros m Hm. by rewrite lookup_delete_ne.
  - rewrite Hv. unfold view. by rewrite C'.
  - intros q. rewrite lookup_delete_eq, C'. split; [done|]. intros (b' & E1 & E2). by simplify_eq.
  - unfold acq. by rewrite C'.
  - rewrite Hd'. apply (ab_logged _ _ _ H).
  - rewrite X. apply (ab_budget _ _ _ H).
Qed.

Lemma abs_sync c s a n p :
  cache_abs c s a -> st_held a !! n = Some p -> syncable n a ->
  exists s', cache_sync (Some c) p s = Ret (tt, s') /\ cache_abs c s' (a_sync n a).
Proof.
  intros H Hh Hs. destruct (held_block c s a n p H Hh) as (b & C & A & Hb & Hv & Hn).
  pose proof (ab_wal _ _ _ H) as Hw. destruct (decide (n ∈ st_logged a)) as [Hl|Hl].
  - exists s. apply (ab_logged _ _ _ H) in Hl as Hl'. split; [by eapply sync_absorbed|].
    apply (abs_step c s s a _ n); try done; simpl.
    + intros m Hm. split; [done|]. split; [done|]. set_solver.
    + rewrite Hv. unfold view. by rewrite C.
    + apply (ab_held _ _ _ H n).
    + intros _ _. left. by apply (li_pins _ _ (wi_log _ _ _ Hw)).
    + intros m. rewrite elem_of_union, elem_of_singleton, (ab_logged _ _ _ H). set_solver.
    + rewrite decide_True by done. apply (ab_budget _ _ _ H).
  - destruct Hs as [Hs|Hs]; [done|]. assert (Hl' : n ∉ entries (header s)) by by rewrite <- (ab_logged _ _ _ H).
    destruct (sync_logged sblock {[c]} s c n p b (st_budget a) Hw) as (s' & E & Hw' & Hent & X & _ & D & _ & C' & O);
      [set_solver|done|done|done|apply (ab_budget _ _ _ H)|lia|].
    exists s'. split; [done|]. apply (abs_step c s s' a _ n); try done; simpl.
    + intros m Hm. apply same_block_cached; [by apply O|by rewrite D].
    + intros m Hm. split; [done|]. split; [done|]. set_solver.
    + rewrite Hv. unfold view. by rewrite C'.
    + intros q. rewrite C', (ab_held _ _ _ H n q), C. split; intros (b' & E1 & E2); simplify_eq; eauto.
    + intros _ _. left. unfold pin. by rewrite C'.
    + intros m. rewrite Hent, elem_of_union, elem_of_app, elem_of_singleton, list_elem_of_singleton, (ab_logged _ _ _ H). tauto.
    + rewrite X, lookup_insert_eq, decide_False by done. done.
Qed.

Lemma abs_sync_over c s a n p :
  cache_abs c s a -> st_held a !! n = Some p -> ~ syncable n a -> exists r, cache_sync (Some c) p s = Stop r.
Proof.
  intros H Hh Hs. destruct (held_block c s a n p H Hh) as (b & C & A & Hb & Hv & Hn).
  pose proof (ab_wal _ _ _ H) as Hw. unfold syncable in Hs.
  assert (Hl' : n ∉ entries (header s)) by (rewrite <- (ab_logged _ _ _ H); tauto).
  pose proof (ll_num _ _ (li_layout _ _ (wi_log _ _ _ Hw))) as HN.
  destruct (decide (num_blocks (header s) = LOG_MAX_SIZE)) as [E|E].
  - exists Fault. by eapply sync_overrun.
  - exists Panic. destruct (wi_rm _ _ _ Hw c _ (ab_budget _ _ _ H)) as [Hb0 _].
    pose proof (wi_used _ _ _ Hw). pose proof (wi_fit _ _ _ Hw). pose proof (wi_size _ _ _ Hw).
    assert (0 <= sum_rm (ctxs s)) by (apply sum_rm_nonneg; intros c' r Hr; by apply (wi_rm _ _ _ Hw c' r)).
    eapply sync_exhausted; [done..| |lia]. rewrite (ab_budget _ _ _ H). f_equal.
    assert (~ 0 < st_budget a) by tauto. lia.
Qed.

(** ** The bitmap *)
Abbreviation bmb := (sb_bitmap_start sblock).

Lemma get_cell c s a p d j :
  cache_abs c s a -> st_held a !! bmb = Some p -> st_view a !! bmb = Some d -> 0 <= j < BIT_PER_BLOCK ->
  on_cells p (bitmap_get j) s = Ret (block_bit d j, s).
Proof.
  intros H Hh Hd Hj. destruct (held_block c s a _ p H Hh) as (b & C & A & Hb & Hv & _).
  assert (data b = d) as <- by congruence.
  assert (Hok : block_ok (data b)).
  { apply (view_ok s bmb); [apply (wi_log _ _ _ (ab_wal _ _ _ H))|]. unfold view. by rewrite C. }
  unfold on_cells. erewrite bind_Ret by by apply load_block_Ret.
  rewrite (bitmap_get_Ret _ _ j (block_bits_wf _ Hok) Hj).
  rewrite unwords_words by (apply Hok || (destruct Hok as [-> _]; done)).
  unfold bind, update_block. rewrite Hb. unfold ret. f_equal. f_equal.
  unfold set_blocks. rewrite insert_id; [by destruct s|]. rewrite Hb. by destruct b.
Qed.

Lemma put_cell (v : bool) c s a p d j :
  cache_abs c s a -> st_held a !! bmb = Some p -> st_view a !! bmb = Some d -> 0 <= j < BIT_PER_BLOCK ->
  exists s', on_cells p (if v then bitmap_set j else bitmap_clear j) s = Ret (tt, s') /\
    cache_abs c s' (a_write bmb (put_bit v j d) a).
Proof.
  intros H Hh Hd Hj. destruct (held_block c s a _ p H Hh) as (b & C & A & Hb & Hv & _).
  assert (data b = d) as <- by congruence.
  assert (Hok : block_ok (data b)).
  { apply (view_ok s bmb); [apply (wi_log _ _ _ (ab_wal _ _ _ H))|]. unfold view. by rewrite C. }
  destruct (put_bit_spec v j _ Hok Hj) as (Hok' & E & _).
  destruct (abs_set_data c s a _ p _ H Hh Hok') as (s' & E' & H'). exists s'. split; [|done].
  unfold on_cells. erewrite bind_Ret by by apply load_block_Ret. rewrite E.
  rewrite unwords_words by (apply Hok' || (destruct Hok' as [-> _]; done)).
  by rewrite (bind_Ret _ _ _ _ _ E').
Qed.

(** Acquire, change, sync and release, the calls in between given as [k]. *)
Lemma abs_put c s a n p d :
  cache_abs c s (a_write n d (a_acquire n p a)) -> st_held a !! n = None -> syncable n a ->
  exists s1 s2, cache_sync (Some c) p s = Ret (tt, s1) /\ cache_release p s1 = Ret (tt, s2) /\
    cache_abs c s2 (a_put n d a).
Proof.
  intros H Hh Hs.
  destruct (abs_sync c s _ n p H) as (s1 & E1 & H1); [simpl; apply lookup_insert_eq|done|].
  destruct (abs_release c s1 _ n p H1) as (s2 & E2 & H2); [simpl; apply lookup_insert_eq|simpl; set_solver|].
  exists s1, s2. split; [done|]. split; [done|]. by rewrite a_put_steps in H2.
Qed.

Lemma alloc_scan c s a p d n i k :
  cache_abs c s a -> st_held a !! bmb = Some p -> st_view a !! bmb = Some d -> 0 <= i ->
  i + Z.of_nat k <= BIT_PER_BLOCK -> i <= n < i + Z.of_nat k -> (forall j, i <= j < n -> block_bit d j = true) ->
  block_bit d n = false ->
  for_upto k i (cache_alloc_bit (Some c) p 0) s =
    (r <- cache_alloc_bit (Some c) p 0 n ;;
     match r with Some b => ret (Some b) | None => for_upto (k - S (Z.to_nat (n - i))) (n + 1) (cache_alloc_bit (Some c) p 0) end) s.
Proof.
  intros H Hh Hd. revert i. induction k as [|k IH]; intros i Hi Hk Hn Hu Hf; [lia|].
  destruct (decide (i = n)) as [->|Hin].
  - cbn [for_upto]. replace (S k - S (Z.to_nat (n - n)))%nat with k by lia. done.
  - cbn [for_upto]. erewrite bind_Ret.
    2: { unfold cache_alloc_bit at 1. erewrite bind_Ret by (eapply get_cell; try done; lia).
         rewrite Hu by lia. reflexivity. }
    cbv beta iota. rewrite (IH (i + 1)) by (try done; try lia; intros; apply Hu; lia).
    by replace (k - S (Z.to_nat (n - (i + 1))))%nat with (S k - S (Z.to_nat (n - i)))%nat by lia.
Qed.

Lemma alloc_bit_free c s a p d n :
  cache_abs c s (a_acquire bmb p a) -> st_held a !! bmb = None -> st_view a !! bmb = Some d ->
  0 <= n < BIT_PER_BLOCK -> block_bit d n = false ->
  is_Some (st_view a !! n) -> st_held a !! n = None -> n <> bmb ->
  syncable bmb a -> syncable n (a_put bmb (put_bit true n d) a) ->
  exists s', cache_alloc_bit (Some c) p 0 n s = Ret (Some n, s') /\
    cache_abs c s' (a_put n zero_block (a_put bmb (put_bit true n d) a)).
Proof.
  intros H Hh Hd Hn Hf Hv Hhn Hne Hs1 Hs2. unfold cache_alloc_bit.
  assert (Hp : st_held (a_acquire bmb p a) !! bmb = Some p) by (simpl; apply lookup_insert_eq).
  erewrite bind_Ret by (eapply get_cell; done). rewrite Hf.
  destruct (put_cell true c s _ p d n H Hp Hd Hn) as (s1 & E1 & H1). rewrite (bind_Ret _ _ _ _ _ E1).
  destruct (abs_put c s1 a bmb p _ H1 Hh Hs1) as (s2 & s3 & E2 & E3 & H3).
  rewrite (bind_Ret _ _ _ _ _ E2), (bind_Ret _ _ _ _ _ E3).
  destruct Hv as [d0 Hv]. destruct (abs_acquire c s3 _ n d0 H3) as (q & s4 & E4 & H4);
    [simpl; by rewrite lookup_insert_ne|done|].
  rewrite Z.add_0_l, (bind_Ret _ _ _ _ _ E4).
  destruct (abs_set_data c s4 _ n q zero_block H4) as (s5 & E5 & H5); [simpl; apply lookup_insert_eq|apply zero_block_ok|].
  rewrite (bind_Ret _ _ _ _ _ E5).
  destruct (abs_put c s5 _ n q _ H5) as (s6 & s7 & E6 & E7 & H7); [done|done|].
  rewrite (bind_Ret _ _ _ _ _ E6), (bind_Ret _ _ _ _ _ E7). by exists s7.
Qed.

(** The bitmap of the blocks below [SWAP_START] fits in one block. *)
Lemma cache_alloc_one ctx s :
  cache_alloc sblock ctx s =
    (r <- cache_alloc_block sblock ctx 0 ;; match r with Some n => ret n | None => stop Panic end) s.
Proof.
  unfold cache_alloc.
  change (Z.to_nat ((SWAP_START + BIT_PER_BLOCK - 1) / BIT_PER_BLOCK)) with 1%nat. cbn [for_upto].
  rewrite bind_assoc. unfold bind. by destruct (cache_alloc_block sblock ctx 0 s) as [[[]]|].
Qed.

Lemma cache_alloc_block_0 ctx s p s1 :
  cache_acquire bmb s = Ret (p, s1) ->
  cache_alloc_block sblock ctx 0 s =
    (r <- for_upto 800 0 (cache_alloc_bit ctx p 0) ;;
     match r with Some n => ret (Some n) | None => cache_release p ;;; ret None end) s1.
Proof.
  intros E. unfold cache_alloc_block. change (0 * BIT_PER_BLOCK / BIT_PER_BLOCK) with 0.
  rewrite Z.add_0_r, (bind_Ret _ _ _ _ _ E). done.
Qed.

Lemma abs_alloc c s a d n :
  cache_abs c s a -> st_view a !! bmb = Some d -> st_held a !! bmb = None -> first_free d n ->
  is_Some (st_view a !! n) -> st_held a !! n = None -> n <> bmb ->
  syncable bmb a -> syncable n (a_put bmb (put_bit true n d) a) ->
  exists s', cache_alloc sblock (Some c) s = Ret (n, s') /\
    cache_abs c s' (a_put n zero_block (a_put bmb (put_bit true n d) a)).
Proof.
  intros H Hd Hh (Hn & Hf & Hu) Hv Hhn Hne Hs1 Hs2. unfold SWAP_START in *.
  destruct (abs_acquire c s a _ d H Hd Hh) as (p & s1 & E1 & H1).
  assert (Hp : st_held (a_acquire bmb p a) !! bmb = Some p) by (simpl; apply lookup_insert_eq).
  destruct (alloc_bit_free c s1 a p d n H1) as (s2 & E2 & H2); try done; [unfold BIT_PER_BLOCK, BLOCK_SIZE; lia|].
  exists s2. split; [|done]. rewrite cache_alloc_one. erewrite bind_Ret with (a := Some n) (s' := s2); [done|].
  rewrite (cache_alloc_block_0 _ _ _ _ E1).
  erewrite bind_Ret with (a := Some n) (s' := s2); [done|].
  rewrite (alloc_scan c s1 _ p d n 0 800 H1 Hp Hd) by (try done; unfold BIT_PER_BLOCK, BLOCK_SIZE; lia).
  unfold bind. by rewrite E2.
Qed.

Lemma abs_alloc_full c s a d :
  cache_abs c s a -> st_view a !! bmb = Some d -> st_held a !! bmb = None -> bmb ∉ st_dirty a ->
  (forall j, 0 <= j < SWAP_START -> block_bit d j = true) -> cache_alloc sblock (Some c) s = Stop Panic.
Proof.
  intros H Hd Hh Hdt Hu. unfold SWAP_START in *. destruct (abs_acquire c s a _ d H Hd Hh) as (p & s1 & E1 & H1).
  assert (Hp : st_held (a_acquire bmb p a) !! bmb = Some p) by (simpl; apply lookup_insert_eq).
  destruct (abs_release c s1 _ bmb p H1 Hp Hdt) as (s2 & E2 & _).
  rewrite cache_alloc_one. erewrite bind_Ret with (a := None) (s' := s2); [done|].
  rewrite (cache_alloc_block_0 _ _ _ _ E1).
  destruct (for_upto_inv (fun _ t => t = s1) (cache_alloc_bit (Some c) p 0) 800 0 s1) as (t & Et & ->); [done| |].
  { intros j t Hj ->. exists s1. split; [|done]. unfold cache_alloc_bit.
    erewrite bind_Ret by (eapply get_cell; try done; unfold BIT_PER_BLOCK, BLOCK_SIZE; lia). rewrite Hu by lia. done. }
  rewrite (bind_Ret _ _ _ _ _ Et). by rewrite (bind_Ret _ _ _ _ _ E2).
Qed.

Lemma abs_free c s a d n :
  cache_abs c s a -> 0 <= n < BIT_PER_BLOCK -> st_view a !! bmb = Some d -> st_held a !! bmb = None ->
  syncable bmb a ->
  exists s', cache_free sblock (Some c) n s = Ret (tt, s') /\ cache_abs c s' (a_put bmb (put_bit false n d) a).
Proof.
  intros H Hn Hd Hh Hs. unfold cache_free. rewrite Z.div_small, Z.mod_small, Z.add_0_r by done.
  destruct (abs_acquire c s a _ d H Hd Hh) as (p & s1 & E1 & H1). rewrite (bind_Ret _ _ _ _ _ E1).
  destruct (put_cell false c s1 _ p d n H1) as (s2 & E2 & H2); [simpl; apply lookup_insert_eq|done|done|].
  rewrite (bind_Ret _ _ _ _ _ E2).
  destruct (abs_put c s2 a bmb p _ H2 Hh Hs) as (s3 & s4 & E3 & E4 & H4).
  rewrite (bind_Ret _ _ _ _ _ E3). eauto.
Qed.

(** ** The brackets of an operation *)
Lemma idle_begin c s v :
  OP_MAX_NUM_BLOCKS <= log_cap sblock -> cache_idle s v ->
  exists s', cache_begin_op c s = Ret (tt, s') /\ cache_abs c s' (mkStore v ∅ ∅ ∅ OP_MAX_NUM_BLOCKS).
Proof.
  intros Hcap [Hw Ha Hl Hv]. pose proof (begin_op_spec sblock ∅ s c Hw ltac:(set_solver)) as Hb.
  assert (Hs : sum_rm (ctxs s) = 0).
  { apply sum_rm_zero. intros c' rm Hc'. apply (wi_rm _ _ _ Hw c' rm Hc'). set_solver. }
  rewrite (wi_used _ _ _ Hw), Hs, Hl, (wi_cap _ _ _ Hw) in Hb.
  destruct (Z.gtb_spec (0 + 0 + OP_MAX_NUM_BLOCKS) (log_cap sblock)) as [?|_]; [lia|].
  destruct Hb as (s' & E & Hw' & Hx & Hd & _ & Hc). rewrite (right_id_L ∅ _) in Hw'.
  assert (Hvs : forall m, view s' m = view s m /\ acq s' m = acq s m /\ pin s' m = pin s m)
    by (intros m; by apply cached_view).
  assert (Hhd : header s' = header s).
  { clear -E. unfold cache_begin_op, bind, gets in E.
    destruct ((u32 (log_used (log s) + OP_MAX_NUM_BLOCKS) >? log_size (log s)) || committing (log s)); [done|].
    injection E as <-. done. }
  exists s'. split; [done|]. split; simpl; [done| | | | |done].
  - eapply outside_log_same; [exact Hv|]. intros m. apply Hvs.
  - intros n p. rewrite lookup_empty, Hc. split; [done|]. intros (b & E1 & E2). specialize (Ha n).
    unfold acq in Ha. rewrite E1 in Ha. congruence.
  - intros n Hn. destruct (Hvs n) as (_ & Hn' & _). rewrite Hn', Ha in Hn. done.
  - intros n. rewrite Hhd. unfold entries. rewrite Hl. simpl. set_solver.
Qed.

Lemma abs_end c s a :
  cache_abs c s a -> st_held a = ∅ ->
  exists s', (r <- cache_end_op sblock c ;; if r : bool then ret tt else stop Sleep) s = Ret (tt, s') /\
    cache_idle s' (st_view a).
Proof.
  intros H Hh. assert (Ha : forall m, acq s m = false).
  { intros m. apply (held_None_abs c s a m H). by rewrite Hh. }
  destruct (end_op_commits sblock s c _ (ab_wal _ _ _ H) Ha (ab_budget _ _ _ H))
    as (s' & ds & E & Hw' & _ & _ & Hv & Ha' & Hhd & _).
  exists s'. split; [by rewrite (bind_Ret _ _ _ _ _ E)|]. split; [done|done|by rewrite Hhd|].
  intros n. rewrite (ab_view _ _ _ H n). case_decide as Hn; [done|]. symmetry. by apply Hv.
Qed.

(** Reading between operations. *)
Lemma idle_read s v n d :
  cache_idle s v -> v !! n = Some d ->
  exists p s1 s2, cache_acquire n s = Ret (p, s1) /\ (b <- load_block p ;; ret (data b)) s1 = Ret (d, s1) /\ cache_release p s1 = Ret (tt, s2) /\ cache_idle s2 v.
Proof.
  intros [Hw Ha Hl Hv] Hd. pose proof (Hv n) as Hn. rewrite Hd in Hn. case_decide as Harea; [done|].
  assert (Hdk : is_Some (disk s !! n)) by (apply view_is_Some; [apply (wi_log _ _ _ Hw)|eauto]).
  destruct (wal_acquire sblock ∅ s n Hw (Ha n) Hdk Harea) as (p & s1 & b & E & Hw1 & R1 & C & A & V & O). rewrite <- Hn in V. injection V as ->.
  pose proof C as [Hb _]%cached_Some; [|apply (wi_log _ _ _ Hw1)].
  destruct R1 as (D1 & _ & Hd1 & _ & _). assert (Hent : entries (header s) = []) by (unfold entries; by rewrite Hl).
  assert (Hpin : pin s n = false).
  { apply not_true_iff_false. intros Hp. apply (li_pins _ _ (wi_log _ _ _ Hw)) in Hp. rewrite Hent in Hp. by apply elem_of_nil in Hp. }
  destruct (wal_release sblock ∅ s1 n p b Hw1 C A) as (s2 & E2 & Hw2 & R2 & C2 & O2).
  { right. rewrite D1, <- (clean_view s n); [by rewrite <- Hn|apply (wi_log _ _ _ Hw)|done|apply Ha]. }
  destruct R2 as (D2 & _ & Hd2 & _ & _).
  exists p, s1, s2. split; [done|]. split; [unfold load_block, bind; by rewrite Hb|]. split; [done|]. split; [done| |by rewrite Hd2, Hd1|].
  - intros m. destruct (decide (m = n)) as [->|Hm]; [unfold acq; by rewrite C2|]. unfold acq. rewrite O2 by done. destruct (O m Hm) as (_ & Hacq & _). unfold acq in Hacq. rewrite Hacq. apply Ha.
  - eapply outside_log_same; [exact Hv|]. intros m. destruct (decide (m = n)) as [->|Hm]; [unfold view at 1; by rewrite C2|].
    destruct (O m Hm) as (<- & _). unfold view. by rewrite O2, D2 by done.
Qed.

(** ** The laws *)
Lemma abs_block_ok c s a n d : cache_abs c s a -> st_view a !! n = Some d -> block_ok d.
Proof.
  intros H Hd. apply (view_ok s n); [apply (wi_log _ _ _ (ab_wal _ _ _ H))|]. by apply (view_Some_abs c s a).
Qed.

Lemma abs_held_view c s a n p : cache_abs c s a -> st_held a !! n = Some p -> is_Some (st_view a !! n).
Proof. intros H Hh. destruct (held_block c s a n p H Hh) as (b & _ & _ & _ & -> & _). eauto. Qed.

#[export] Instance bcache_laws (Hcap : OP_MAX_NUM_BLOCKS <= log_cap sblock) : BlockCacheLaws bcst sblock := {|
  idle := cache_idle;
  abs := cache_abs;
  BlockStore.abs_block := abs_block_ok;
  abs_held := abs_held_view;
  acquire_law := abs_acquire;
  data_law := abs_data;
  set_data_law := abs_set_data;
  sync_law := abs_sync;
  sync_over_law := abs_sync_over;
  release_law := abs_release;
  alloc_law := abs_alloc;
  alloc_full_law := abs_alloc_full;
  free_law := abs_free;
  begin_law c s v := idle_begin c s v Hcap;
  end_law := abs_end;
  idle_law := idle_read
|}.
End refine.
