(* ===== verification/Sem.v ===== *)
(** * Semaphores and sleep locks (common/sem.c)

    A semaphore keeps a value and the list of those waiting for it, the
    newest first.  [_wait_sem] is cut where it gives up the processor: up to
    [sched] ([_wait_sem_enter]) and from there on ([_wait_sem_leave]), since
    other threads run in between.  The critical sections under [sem->lock]
    are single transitions; [activated] records the calls of
    [activate_proc]. *)
From stdpp Require Import base gmap list.
From Stdlib Require Import ZArith Lia.
From S2P Require Import Prelude.

Record WaitData := mkWait { up : bool; wproc : Z }.
Record Semaphore := mkSem { val : Z; sleeplist : list Z }.
Record sem_st := mkSemSt { sem : Semaphore; waits : gmap Z WaitData; activated : list Z }.

Definition set_sem (f : Semaphore -> Semaphore) (s : sem_st) : sem_st :=
  mkSemSt (f (sem s)) (waits s) (activated s).
Definition set_waits (f : gmap Z WaitData -> gmap Z WaitData) (s : sem_st) : sem_st :=
  mkSemSt (sem s) (f (waits s)) (activated s).
Definition set_val (v : Z) (m : Semaphore) : Semaphore := mkSem v (sleeplist m).
Definition set_sleeplist (f : list Z -> list Z) (m : Semaphore) : Semaphore := mkSem (val m) (f (sleeplist m)).

(** ** The code *)
Definition init_sem (v : Z) : Semaphore := mkSem v [].
Definition init_sleeplock : Semaphore := init_sem 1.

Definition _get_sem : M sem_st bool :=
  m <- gets sem ;;
  if val m >? 0 then modify (set_sem (set_val (i32 (val m - 1)))) ;;; ret true else ret false.

Definition _query_sem : M sem_st Z := m <- gets sem ;; ret (val m).

Definition get_all_sem : M sem_st Z :=
  m <- gets sem ;;
  if val m >? 0 then modify (set_sem (set_val 0)) ;;; ret (val m) else ret 0.

Definition load_wait (w : Z) : M sem_st WaitData :=
  fun s => match waits s !! w with Some d => Ret (d, s) | None => Stop Fault end.

Definition activate_proc (p : Z) : M sem_st unit :=
  modify (fun s => mkSemSt (sem s) (waits s) (activated s ++ [p])).

Definition detach_wait (w : Z) : M sem_st unit :=
  modify (set_sem (set_sleeplist (filter (fun v => v <> w)))).

Definition _post_sem : M sem_st unit :=
  modify (set_sem (fun m => set_val (i32 (val m + 1)) m)) ;;;
  m <- gets sem ;;
  if val m <=? 0 then
    assert (negb (bool_decide (sleeplist m = []))) ;;;
    match last (sleeplist m) with
    | Some w =>
        d <- load_wait w ;;
        modify (set_waits (insert w (mkWait true (wproc d)))) ;;;
        detach_wait w ;;;
        activate_proc (wproc d)
    | None => stop Fault
    end
  else ret tt.

(** [do _post_sem(sem), ret++; while (!_get_sem(sem));] *)
Definition post_all_body (r : Z) : M sem_st (Z + Z) :=
  _post_sem ;;; let r := i32 (r + 1) in
  got <- _get_sem ;; ret (if got : bool then inr r else inl r).
Definition post_all_sem (fuel : nat) : M sem_st Z := while fuel post_all_body (-1).

(** [true]: passed at once; [false]: [thisproc()] now sleeps with the wait
    record [w] that [kalloc] returned. *)
Definition _wait_sem_enter (thisproc w : Z) : M sem_st bool :=
  modify (set_sem (fun m => set_val (i32 (val m - 1)) m)) ;;;
  m <- gets sem ;;
  if val m >=? 0 then ret true
  else
    modify (set_waits (insert w (mkWait false thisproc))) ;;;
    modify (set_sem (set_sleeplist (cons w))) ;;;
    ret false.

(** After [sched]; the result tells a wake-up by a post from one by other
    sources. *)
Definition _wait_sem_leave (w : Z) : M sem_st bool :=
  d <- load_wait w ;;
  (if negb (up d) then
     modify (set_sem (fun m => set_val (i32 (val m + 1)) m)) ;;;
     m <- gets sem ;;
     assert (val m <=? 0) ;;;
     detach_wait w
   else ret tt) ;;;
  modify (set_waits (delete w)) ;;;
  ret (up d).

(** ** The invariant *)
Record sem_inv (s : sem_st) : Prop := {
  sm_nodup : NoDup (sleeplist (sem s));
  sm_waits : forall w, w ∈ sleeplist (sem s) <-> exists p, waits s !! w = Some (mkWait false p);
  sm_idle : 0 <= val (sem s) -> sleeplist (sem s) = [];
  sm_busy : val (sem s) < 0 -> val (sem s) = - Z.of_nat (length (sleeplist (sem s)));
  sm_range : - (2 ^ 31 - 1) <= val (sem s) < 2 ^ 31 - 1
}.

Definition wake (l : list Z) (w p : Z) (s : sem_st) : sem_st :=
  mkSemSt (mkSem (val (sem s) + 1) l) (<[w := mkWait true p]> (waits s)) (activated s ++ [p]).

Lemma sem_cases s :
  sem_inv s ->
  (0 <= val (sem s) /\ sleeplist (sem s) = []) \/
  exists l w p, val (sem s) = - Z.of_nat (S (length l)) /\ sleeplist (sem s) = l ++ [w] /\
    waits s !! w = Some (mkWait false p) /\ w ∉ l.
Proof.
  intros H. destruct (decide (0 <= val (sem s))) as [Hv|Hv]; [left; split; [done|by apply (sm_idle _ H)]|right].
  pose proof (sm_busy _ H ltac:(lia)) as Hl. pose proof (sm_nodup _ H) as Hnd.
  destruct (sleeplist (sem s)) as [|w l _] eqn:E using rev_ind; [simpl in Hl; lia|].
  destruct (proj1 (sm_waits _ H w)) as [p Hp]; [rewrite E; set_solver|]. exists l, w, p.
  rewrite length_app in Hl. simpl in Hl. split; [lia|]. split; [done|]. split; [done|].
  apply NoDup_app in Hnd as (_ & Hd & _). intros Hw. apply (Hd w Hw). by left.
Qed.

(** ** Each operation on a state of the invariant *)
Lemma post_idle s :
  sem_inv s -> 0 <= val (sem s) -> val (sem s) + 1 < 2 ^ 31 ->
  _post_sem s = Ret (tt, set_sem (set_val (val (sem s) + 1)) s).
Proof.
  intros H Hv Hr. unfold _post_sem, modify, gets, bind, set_sem. simpl. rewrite i32_small by lia.
  rewrite (proj2 (Z.leb_gt _ _)) by lia. done.
Qed.

(** Posting wakes the thread that has waited longest. *)
Lemma post_busy s l w p :
  sem_inv s -> val (sem s) = - Z.of_nat (S (length l)) -> sleeplist (sem s) = l ++ [w] ->
  waits s !! w = Some (mkWait false p) -> w ∉ l ->
  _post_sem s = Ret (tt, wake l w p s) /\ sem_inv (wake l w p s).
Proof.
  intros H Hv Hl Hw Hwl. pose proof (sm_range _ H) as Hr. split.
  - unfold _post_sem, modify, gets, bind, set_sem. simpl. rewrite i32_small by lia.
    rewrite (proj2 (Z.leb_le _ _)) by lia. unfold assert. rewrite bool_decide_eq_false_2 by (rewrite Hl; by destruct l).
    cbn. rewrite Hl, last_snoc. unfold load_wait. simpl. rewrite Hw. simpl. unfold wake, detach_wait, activate_proc, modify, set_waits, set_sem, set_sleeplist.
    cbn -[filter]. rewrite Hl, filter_app, filter_ne, filter_cons_False, filter_nil, app_nil_r by (done || tauto). done.
  - split; simpl.
    + pose proof (sm_nodup _ H) as Hnd. rewrite Hl in Hnd. by apply NoDup_app in Hnd as [? _].
    + intros v. pose proof (sm_waits _ H v) as Hv'. rewrite Hl, elem_of_app, list_elem_of_singleton in Hv'.
      destruct (decide (v = w)) as [->|Hne].
      * rewrite lookup_insert_eq. split; [done|]. intros [q ?]. simplify_eq.
      * rewrite lookup_insert_ne by done. rewrite <- Hv'. tauto.
    + intros ?. destruct l; [done|]. simpl in Hv. lia.
    + intros ?. rewrite Hv. lia.
    + lia.
Qed.

Lemma val_up s v :
  sem_inv s -> 0 <= val (sem s) -> 0 <= v < 2 ^ 31 - 1 -> sem_inv (set_sem (set_val v) s).
Proof. intros H Hv Hr. split; simpl; try apply H; try lia. intros _. by apply (sm_idle _ H). Qed.

Lemma get_spec s :
  sem_inv s ->
  _get_sem s = if val (sem s) >? 0 then Ret (true, set_sem (set_val (val (sem s) - 1)) s) else Ret (false, s).
Proof.
  intros H. pose proof (sm_range _ H). unfold _get_sem, gets, bind, modify. destruct (Z.gtb_spec (val (sem s)) 0); [|done].
  rewrite i32_small by lia. done.
Qed.

(** ** Interleavings *)
Inductive sop := SPost | SGet | SEnter (p w : Z) | SLeave (w : Z).

Definition sop_run (op : sop) : M sem_st bool :=
  match op with
  | SPost => _post_sem ;;; ret false
  | SGet => _get_sem
  | SEnter p w => _wait_sem_enter p w
  | SLeave w => _wait_sem_leave w ;;; ret false
  end.

(** A wait record is fresh when it is allocated, a thread that leaves has
    entered, and the value stays away from the ends of [int]. *)
Definition sop_ok (s : sem_st) (op : sop) : bool :=
  match op with
  | SPost => val (sem s) <? 2 ^ 31 - 2
  | SGet => true
  | SEnter _ w => bool_decide (waits s !! w = None) && (- (2 ^ 31 - 1) <? val (sem s))
  | SLeave w => bool_decide (is_Some (waits s !! w))
  end.

(** [posts] counts the posts, [passes] the threads that passed at once. *)
Inductive sem_reach (v0 : Z) : Z -> Z -> sem_st -> Prop :=
| sem_start : sem_reach v0 0 0 (mkSemSt (init_sem v0) ∅ [])
| sem_step posts passes s op b s' :
    sem_reach v0 posts passes s -> sop_ok s op = true -> sop_run op s = Ret (b, s') ->
    sem_reach v0 (posts + match op with SPost => 1 | _ => 0 end) (passes + if b then 1 else 0) s'.

Lemma sop_step s op :
  sem_inv s -> sop_ok s op = true ->
  exists b s', sop_run op s = Ret (b, s') /\ sem_inv s' /\
    Z.max 0 (val (sem s')) + (if b then 1 else 0) + Z.of_nat (length (activated s')) =
      Z.max 0 (val (sem s)) + Z.of_nat (length (activated s)) + match op with SPost => 1 | _ => 0 end.
Proof.
  intros H Hok. pose proof (sm_range _ H) as Hr. destruct op as [| |p w|w]; cbn [sop_run sop_ok] in *.
  - apply Z.ltb_lt in Hok. destruct (sem_cases s H) as [[Hv Hl]|(l & w & p & Hv & Hl & Hw & Hwl)].
    + eexists false, _. split; [by rewrite (bind_Ret _ _ _ _ _ (post_idle s H Hv ltac:(lia)))|].
      split; [apply val_up; [done..|lia]|]. simpl. lia.
    + destruct (post_busy s l w p H Hv Hl Hw Hwl) as [E H'].
      eexists false, _. split; [by rewrite (bind_Ret _ _ _ _ _ E)|]. split; [done|].
      simpl. rewrite length_app. simpl. lia.
  - rewrite get_spec by done. destruct (Z.gtb_spec (val (sem s)) 0); eexists _, _; (split; [done|]);
      simpl; (split; [|lia]); [apply val_up; [done|lia..]|done].
  - apply andb_true_iff in Hok as [Hw%bool_decide_eq_true Hv%Z.ltb_lt].
    unfold _wait_sem_enter, gets, bind, modify. simpl. rewrite i32_small by lia.
    destruct (Z.geb_spec (val (sem s) - 1) 0) as [Hge|Hlt]; eexists _, _; (split; [done|]);
      unfold set_sem, set_waits; simpl; rewrite ?i32_small by lia; (split; [|lia]).
    + apply (val_up s (val (sem s) - 1)); [done|lia..].
    + assert (Hwl : w ∉ sleeplist (sem s)) by (intros [q Hq]%(sm_waits _ H); congruence).
      split; simpl.
      * apply NoDup_cons. split; [done|apply H].
      * intros v. rewrite elem_of_cons, (sm_waits _ H v). destruct (decide (v = w)) as [->|Hne].
        -- rewrite lookup_insert_eq. split; [eauto|]. auto.
        -- rewrite lookup_insert_ne by done. tauto.
      * lia.
      * intros _. destruct (decide (0 <= val (sem s))) as [H0|H0].
        -- rewrite (sm_idle _ H H0). simpl. lia.
        -- pose proof (sm_busy _ H ltac:(lia)). lia.
      * lia.
  - apply bool_decide_eq_true in Hok as [[u p] Hw]. unfold _wait_sem_leave, load_wait, bind at 1.
    cbn [bind]. unfold bind. rewrite Hw. destruct u; cbn.
    + eexists _, _. split; [done|]. simpl. split; [|lia]. split; simpl; try apply H.
      intros v. rewrite (sm_waits _ H v). destruct (decide (v = w)) as [->|Hne].
      * rewrite lookup_delete_eq, Hw. split; intros [q ?]; congruence.
      * by rewrite lookup_delete_ne.
    + assert (Hin : w ∈ sleeplist (sem s)) by (apply (sm_waits _ H); eauto).
      assert (Hv : val (sem s) < 0).
      { destruct (decide (0 <= val (sem s))) as [H0|H0]; [|lia]. rewrite (sm_idle _ H H0) in Hin. by apply elem_of_nil in Hin. }
      pose proof (sm_busy _ H Hv) as Hb. pose proof (length_filter_ne w _ (sm_nodup _ H) Hin) as Hlen.
      rewrite i32_small by lia. rewrite (proj2 (Z.leb_le _ _)) by lia. cbn.
      eexists _, _. split; [done|]. unfold set_waits, set_sem, set_sleeplist. simpl. rewrite i32_small by lia.
      split; [|lia]. split; simpl.
      * apply NoDup_filter, H.
      * intros v. rewrite list_elem_of_filter, (sm_waits _ H v). destruct (decide (v = w)) as [->|Hne].
        -- rewrite lookup_delete_eq. split; [tauto|]. by intros [q ?].
        -- rewrite lookup_delete_ne by done. tauto.
      * intros H0. destruct (filter _ _) as [|v l]; [done|]. simpl in Hlen. lia.
      * lia.
      * lia.
Qed.

(** C32: in every interleaving of posts and waits on a semaphore, with waits
    that are woken by posts or by other sources, no assertion of sem.c fails
    and every operation returns; a negative value counts the sleeping
    threads, threads only sleep when no token is available, and tokens are
    conserved: the initial value and the posts are what is available plus
    what was granted to threads that passed at once or were woken.  In
    particular, a sleep lock released by its holders only has at most one. *)
Theorem sem_conserves (v0 posts passes : Z) (s : sem_st) :
  0 <= v0 < 2 ^ 31 - 1 -> sem_reach v0 posts passes s ->
  (forall op, sop_ok s op = true -> exists b s', sop_run op s = Ret (b, s')) /\
  (0 < val (sem s) -> sleeplist (sem s) = []) /\
  (val (sem s) < 0 -> - val (sem s) = Z.of_nat (length (sleeplist (sem s)))) /\
  v0 + posts = Z.max 0 (val (sem s)) + passes + Z.of_nat (length (activated s)).
Proof.
  intros Hv0 Hr.
  assert (sem_inv s /\ v0 + posts = Z.max 0 (val (sem s)) + passes + Z.of_nat (length (activated s))) as [H Hc].
  { induction Hr as [|posts passes s op b s' Hr [IH Hc] Hok E].
    - split; [|simpl; lia]. split; simpl; try done; try lia; [constructor|]. intros w.
      rewrite elem_of_nil. split; [done|]. by intros [p ?].
    - destruct (sop_step s op IH Hok) as (b' & s1 & E' & H' & Hc'). rewrite E in E'. simplify_eq.
      split; [done|]. lia. }
  split; [|split; [intros; apply (sm_idle _ H); lia|split; [intros Hv; pose proof (sm_busy _ H Hv); lia|done]]].
  intros op Hok. destruct (sop_step s op H Hok) as (b & s' & E & _). eauto.
Qed.

(** ** [post_all_sem] *)
Lemma post_all_step s r :
  sem_inv s -> -1 <= r -> r + 1 < 2 ^ 31 -> val (sem s) + 1 < 2 ^ 31 - 1 ->
  (exists l w p, sleeplist (sem s) = l ++ [w] /\ waits s !! w = Some (mkWait false p) /\ w ∉ l /\
     val (sem s) = - Z.of_nat (S (length l)) /\
     post_all_body r s = Ret (inl (r + 1), wake l w p s) /\ sem_inv (wake l w p s)) \/
  (0 <= val (sem s) /\ post_all_body r s = Ret (inr (r + 1), s)).
Proof.
  intros H Hr Hr' Hv. unfold post_all_body. rewrite i32_small by lia.
  destruct (sem_cases s H) as [[Hv0 Hl]|(l & w & p & Hv0 & Hl & Hw & Hwl)].
  - right. split; [done|]. rewrite (bind_Ret _ _ _ _ _ (post_idle s H Hv0 ltac:(lia))).
    assert (H' := val_up s (val (sem s) + 1) H Hv0 ltac:(lia)).
    erewrite bind_Ret by (rewrite get_spec by done; simpl; rewrite (proj2 (Z.gtb_lt _ _)) by lia; reflexivity).
    unfold ret. f_equal. f_equal. destruct s as [[v sl] ws ac]. unfold set_sem, set_val. simpl. f_equal. f_equal. lia.
  - left. exists l, w, p. do 4 (split; [done|]). destruct (post_busy s l w p H Hv0 Hl Hw Hwl) as [E H'].
    split; [|done]. rewrite (bind_Ret _ _ _ _ _ E).
    erewrite bind_Ret by (rewrite get_spec by done; simpl; rewrite Z.gtb_ltb, (proj2 (Z.ltb_ge _ _)) by lia; reflexivity).
    done.
Qed.

(** [post_all_sem] returns: with [n] threads asleep, after [n + 1] posts,
    it has woken all of them, oldest first, and returns [n]; with nobody
    asleep it returns 0 and leaves the semaphore alone. *)
Theorem post_all_sem_wakes_all (s : sem_st) :
  sem_inv s -> val (sem s) < 2 ^ 31 - 2 ->
  exists s', post_all_sem (S (length (sleeplist (sem s)))) s = Ret (Z.of_nat (length (sleeplist (sem s))), s') /\
    sem_inv s' /\ sleeplist (sem s') = [] /\ val (sem s') = Z.max 0 (val (sem s)) /\
    Forall2 (fun w p => waits s !! w = Some (mkWait false p)) (reverse (sleeplist (sem s)))
      (drop (length (activated s)) (activated s')) /\
    activated s' = activated s ++ drop (length (activated s)) (activated s').
Proof.
  intros H Hv. unfold post_all_sem.
  cut (forall n s r, n = length (sleeplist (sem s)) -> sem_inv s -> val (sem s) < 2 ^ 31 - 2 -> -1 <= r -> r + 1 + Z.of_nat n < 2 ^ 31 ->
    exists s' ps, while (S n) post_all_body r s = Ret (r + 1 + Z.of_nat n, s') /\ sem_inv s' /\
      sleeplist (sem s') = [] /\ val (sem s') = Z.max 0 (val (sem s)) /\ activated s' = activated s ++ ps /\
      Forall2 (fun w p => waits s !! w = Some (mkWait false p)) (reverse (sleeplist (sem s))) ps).
  { intros Hall. pose proof (sm_range _ H).
    assert (Hlen : Z.of_nat (length (sleeplist (sem s))) < 2 ^ 31).
    { destruct (decide (0 <= val (sem s))) as [Hv0|Hv0]; [by rewrite (sm_idle _ H Hv0)|].
      pose proof (sm_busy _ H ltac:(lia)). lia. }
    destruct (Hall _ s (-1) eq_refl H Hv) as (s' & ps & E & H' & H1 & H2 & H3 & H4); [lia|lia|].
    exists s'. rewrite E. rewrite H3, drop_app_length. split; [f_equal; f_equal; lia|]. done. }
  clear s H Hv. intros n. induction n as [|n IH]; intros s r Hn H Hv Hr Hr'; cbn [while].
  - destruct (post_all_step s r H Hr ltac:(lia) ltac:(lia)) as [(l & w & p & Hl & _)|[H0 E]].
    { rewrite Hl, length_app in Hn. simpl in Hn. lia. }
    exists s, []. rewrite (bind_Ret _ _ _ _ _ E). split; [unfold ret; f_equal; f_equal; lia|].
    split; [done|]. rewrite (sm_idle _ H H0). split; [done|]. split; [lia|]. by rewrite app_nil_r.
  - destruct (post_all_step s r H Hr ltac:(lia) ltac:(lia)) as [(l & w & p & Hl & Hw & Hwl & Hval & E & H')|[H0 E]];
      [|by rewrite (sm_idle _ H H0) in Hn].
    rewrite Hl, length_app in Hn. simpl in Hn.
    destruct (IH (wake l w p s) (r + 1)) as (s' & ps & E' & H1 & H2 & H3 & H4 & H5); try done; simpl in *; try lia.
    exists s', (p :: ps). rewrite (bind_Ret _ _ _ _ _ E), E'. split; [f_equal; f_equal; lia|].
    split; [done|]. split; [done|]. split; [lia|]. split; [by rewrite H4, <- app_assoc|].
    rewrite Hl, reverse_snoc. constructor; [done|]. eapply Forall2_impl; [exact H5|].
    intros v q Hvq. cbv beta in Hvq. destruct (decide (v = w)) as [->|Hne]; [rewrite lookup_insert_eq in Hvq; done|].
    by rewrite lookup_insert_ne in Hvq.
Qed.

(** ** Two threads wait, one is woken by another source, one by a post *)
Definition ex_sem_ops : list sop := [SEnter 7 100; SEnter 8 200; SEnter 9 300; SLeave 200; SPost].

Fixpoint sop_runs (l : list sop) (st : Z * Z * sem_st) : option (Z * Z * sem_st) :=
  match l with
  | [] => Some st
  | op :: l' =>
      let '(posts, passes, s) := st in
      if sop_ok s op then
        match sop_run op s with
        | Ret (b, s') => sop_runs l' (posts + match op with SPost => 1 | _ => 0 end, passes + (if b : bool then 1 else 0), s')
        | Stop _ => None
        end
      else None
  end.

Lemma sop_runs_reach v0 l posts passes s posts' passes' s' :
  sem_reach v0 posts passes s -> sop_runs l (posts, passes, s) = Some (posts', passes', s') ->
  sem_reach v0 posts' passes' s'.
Proof.
  revert posts passes s. induction l as [|op l IH]; intros posts passes s Hr E; simpl in E; [by simplify_eq|].
  destruct (sop_ok s op) eqn:Hok; [|done]. destruct (sop_run op s) as [[b s1]|] eqn:E1; [|done].
  eapply IH; [|exact E]. by eapply sem_step.
Qed.

Definition ex_sem : sem_st :=
  default (mkSemSt (init_sem 1) ∅ []) (snd <$> sop_runs ex_sem_ops (0, 0, mkSemSt init_sleeplock ∅ [])).

Lemma ex_sem_reach : sem_reach 1 1 1 ex_sem.
Proof. eapply (sop_runs_reach 1 ex_sem_ops 0 0); [constructor|]. by vm_compute. Qed.

Lemma sem_conserves_witness :
  1 + 1 = Z.max 0 (val (sem ex_sem)) + 1 + Z.of_nat (length (activated ex_sem)) /\ activated ex_sem = [9].
Proof.
  split; [|by vm_compute]. apply (sem_conserves 1 1 1 ex_sem); [lia|]. apply ex_sem_reach.
Defined.

Definition ex_sem2 : sem_st :=
  default (mkSemSt (init_sem 0) ∅ [])
    (snd <$> sop_runs [SEnter 7 100; SEnter 8 200; SEnter 9 300] (0, 0, mkSemSt (init_sem 0) ∅ [])).

Lemma ex_sem2_inv : sem_inv ex_sem2.
Proof.
  split; [apply (bool_decide_unpack _); by vm_compute| |done|done|by vm_compute].
  intros w. replace ex_sem2 with (mkSemSt (mkSem (-3) [300; 200; 100])
    {[100 := mkWait false 7; 200 := mkWait false 8; 300 := mkWait false 9]} []) by (vm_compute; reflexivity).
  simpl. rewrite !elem_of_cons, elem_of_nil. split.
  - intros [->|[->|[->|[]]]]; [exists 9|exists 8|exists 7]; by vm_compute.
  - intros [p Hp]. rewrite !lookup_insert_Some, lookup_singleton_Some in Hp. naive_solver.
Qed.

Lemma post_all_sem_wakes_all_witness :
  exists s', post_all_sem 4 ex_sem2 = Ret (3, s') /\ sleeplist (sem s') = [] /\ val (sem s') = 0.
Proof.
  destruct (post_all_sem_wakes_all ex_sem2 ex_sem2_inv) as (s' & E & _ & H1 & H2 & _); [by vm_compute|].
  exists s'. split; [exact E|]. split; [exact H1|exact H2].
Defined.
