(* ===== verification/Console.v ===== *)
(** * The console (kernel/console.c)

    A ring buffer of [INPUT_BUF] characters with three indices: [r] up to
    where readers have read, [w] up to where lines are complete, [e] up to
    where the line being edited reaches.  The indices are [usize]s that wrap
    around.  The characters of the UART are a queue to read from and a
    sequence written.  The locks of the inode, which [console_read] and
    [console_write] give up meanwhile, are handled in Inode.v. *)
From stdpp Require Import base gmap list.
From Stdlib Require Import ZArith Lia.
From S2P Require Import Prelude Bytes Sem.

Definition INPUT_BUF := 128.

(** [C(x)]: Control-x *)
Definition C (x : Z) : Z := x - 64.
Definition BS := 8.      (* '\b' *)
Definition DEL := 127.
Definition CR := 13.     (* '\r' *)
Definition LF := 10.     (* '\n' *)
Definition SPACE := 32.
Definition CTRL_U := C 85.
Definition CTRL_C := C 67.
Definition CTRL_D := C 68.

Record input := mkInput { buf : list Z; r : Z; w : Z; e : Z; read : sem_st }.

(** [kills] counts the calls [kill(thisproc()->pid)]. *)
Record console := mkCons { inp : input; uart_in : list Z; uart_out : list Z; kills : Z }.

Section console.
Context (thisproc_idle : bool) (kill_thisproc : Z).

Definition set_input (f : input -> input) (s : console) : console :=
  mkCons (f (inp s)) (uart_in s) (uart_out s) (kills s).
Definition set_r (v : Z) (i : input) : input := mkInput (buf i) v (w i) (e i) (read i).
Definition set_w (v : Z) (i : input) : input := mkInput (buf i) (r i) v (e i) (read i).
Definition set_e (v : Z) (i : input) : input := mkInput (buf i) (r i) (w i) v (read i).
Definition set_buf (f : list Z -> list Z) (i : input) : input := mkInput (f (buf i)) (r i) (w i) (e i) (read i).
Definition set_read (v : sem_st) (i : input) : input := mkInput (buf i) (r i) (w i) (e i) v.

Definition uart_put_char (c : Z) : M console unit :=
  modify (fun s => mkCons (inp s) (uart_in s) (uart_out s ++ [c]) (kills s)).

(** 0xff when no character has arrived. *)
Definition uart_get_char : M console Z :=
  fun s => match uart_in s with
           | [] => Ret (255, s)
           | c :: l => Ret (c, mkCons (inp s) l (uart_out s) (kills s))
           end.

(** The character at index [i] of the ring. *)
Definition ring_get (i : Z) : M console Z :=
  fun s => match buf (inp s) !! Z.to_nat (i mod INPUT_BUF) with Some c => Ret (c, s) | None => Stop Fault end.

(** ** console_write *)
Fixpoint console_put (cs : list Z) : M console unit :=
  match cs with
  | [] => ret tt
  | c :: cs' =>
      (if c =? BS then uart_put_char BS ;;; uart_put_char SPACE else ret tt) ;;;
      uart_put_char c ;;;
      console_put cs'
  end.

(** ** console_read

    [Block] when the reader has to sleep for input; it goes on from there
    when it is woken. *)
Inductive read_result := Done (dst : list Z) | Block (dst : list Z).

Definition console_read_body (n : Z) (st : Z * list Z) : M console ((Z * list Z) + read_result) :=
  let '(i, dst) := st in
  if i =? n then ret (inr (Done dst))
  else
    p <- gets inp ;;
    if r p =? w p then ret (inr (Block dst))
    else
      c <- ring_get (r p) ;;
      if c =? CTRL_D then ret (inr (Done dst))
      else
        modify (set_input (set_r (u64 (r p + 1)))) ;;;
        (if c =? LF then ret (inr (Done (dst ++ [c]))) else ret (inl (i + 1, dst ++ [c]))).

Definition console_read_from (n : Z) (dst : list Z) : M console read_result :=
  res <- while (S (Z.to_nat (n - Z.of_nat (length dst)))) (console_read_body n) (Z.of_nat (length dst), dst) ;;
  match res with
  | Done [] =>
      p <- gets inp ;;
      c <- ring_get (r p) ;;
      (if c =? CTRL_D then modify (set_input (set_r (u64 (r p + 1)))) else ret tt) ;;;
      ret res
  | _ => ret res
  end.

(** ** console_intr *)
Definition rub_out : M console unit :=
  p <- gets inp ;;
  modify (set_input (set_e (u64 (e p - 1)))) ;;;
  uart_put_char BS ;;; uart_put_char SPACE ;;; uart_put_char BS.

(** [while (input.e != input.w)]; at most [INPUT_BUF] turns. *)
Definition kill_line : M console unit :=
  while (S (Z.to_nat INPUT_BUF)) (fun _ : unit =>
    p <- gets inp ;;
    if e p =? w p then ret (inr tt) else rub_out ;;; ret (inl tt)) tt.

Definition post_readers : M console unit :=
  p <- gets inp ;;
  match post_all_sem (S (length (sleeplist (sem (read p))))) (read p) with
  | Ret (_, sm) => modify (set_input (set_read sm))
  | Stop x => stop x
  end.

Definition console_char (c : Z) : M console unit :=
  if (c =? DEL) || (c =? BS) then
    p <- gets inp ;;
    if negb (e p =? w p) then rub_out else kill_line
  else if c =? CTRL_U then kill_line
  else if c =? CTRL_C then
    if negb thisproc_idle then
      modify (fun s => mkCons (inp s) (uart_in s) (uart_out s) (kills s + 1)) ;;;
      assert (negb (kill_thisproc =? -1))
    else ret tt
  else
    p <- gets inp ;;
    if negb (u64 (r p + INPUT_BUF) =? e p) then
      let c := if c =? CR then LF else c in
      modify (set_input (set_buf (fun b => <[Z.to_nat (e p mod INPUT_BUF) := c]> b))) ;;;
      modify (set_input (set_e (u64 (e p + 1)))) ;;;
      uart_put_char c ;;;
      when ((c =? LF) || (c =? CTRL_D)) (
        p <- gets inp ;;
        modify (set_input (set_w (e p))) ;;;
        post_readers)
    else ret tt.

Definition console_intr_body (_ : unit) : M console (unit + unit) :=
  c <- uart_get_char ;; if c =? 255 then ret (inr tt) else console_char c ;;; ret (inl tt).

Definition console_intr : M console unit :=
  fun s => while (S (length (uart_in s))) console_intr_body tt s.

(** ** The line discipline it implements *)

(** The complete lines not yet read, and the line being edited. *)
Definition tty : Type := list Z * list Z.

Definition tty_char (c : Z) (t : tty) : tty :=
  let '(ready, line) := t in
  if (c =? DEL) || (c =? BS) then (ready, take (length line - 1) line)
  else if c =? CTRL_U then (ready, [])
  else if c =? CTRL_C then t
  else if (Z.of_nat (length ready + length line) <? INPUT_BUF) then
    let c := if c =? CR then LF else c in
    if (c =? LF) || (c =? CTRL_D) then (ready ++ line ++ [c], []) else (ready, line ++ [c])
  else t.

(** What a reader that may still take [n] characters gets. *)
Fixpoint tty_read (n : nat) (ready : list Z) : bool * list Z * list Z :=
  match n with
  | O => (true, [], ready)
  | S n' =>
      match ready with
      | [] => (false, [], [])
      | c :: ready' =>
          if c =? CTRL_D then (true, [], ready)
          else if c =? LF then (true, [c], ready')
          else let '(d, got, rest) := tty_read n' ready' in (d, c :: got, rest)
      end
  end.

(** An end-of-file that ends an empty read is taken from the input. *)
Definition tty_eof (got rest : list Z) : list Z :=
  match got, rest with [], c :: rest' => if c =? CTRL_D then rest' else rest | _, _ => rest end.

(** [R] is where the reader stands in the unbounded stream of characters. *)
Definition tty_rep (s : console) (t : tty) : Prop :=
  exists R, length (buf (inp s)) = Z.to_nat INPUT_BUF /\
    r (inp s) = u64 R /\ w (inp s) = u64 (R + Z.of_nat (length t.1)) /\
    e (inp s) = u64 (R + Z.of_nat (length t.1) + Z.of_nat (length t.2)) /\
    Z.of_nat (length t.1 + length t.2) <= INPUT_BUF /\
    (forall i c, (t.1 ++ t.2) !! i = Some c -> buf (inp s) !! Z.to_nat ((R + Z.of_nat i) mod INPUT_BUF) = Some c) /\
    sem_inv (read (inp s)) /\ val (sem (read (inp s))) < 2 ^ 31 - 2.

(** ** Index arithmetic *)
Lemma u64_add a b : u64 (u64 a + b) = u64 (a + b).
Proof. unfold u64, wrapu. by rewrite Zplus_mod_idemp_l. Qed.

Lemma u64_eq_small a k : 0 <= k < 2 ^ 64 -> u64 a = u64 (a + k) <-> k = 0.
Proof.
  intros Hk. unfold u64, wrapu. split; [|intros ->; by rewrite Z.add_0_r].
  intros H. pose proof (Z.div_mod a (2 ^ 64) ltac:(lia)). pose proof (Z.div_mod (a + k) (2 ^ 64) ltac:(lia)).
  pose proof (Z.mod_pos_bound a (2 ^ 64) ltac:(lia)). pose proof (Z.mod_pos_bound (a + k) (2 ^ 64) ltac:(lia)).
  nia.
Qed.

Lemma u64_mod_buf a : u64 a mod INPUT_BUF = a mod INPUT_BUF.
Proof.
  unfold u64, wrapu, INPUT_BUF. rewrite <- Znumtheory.Zmod_div_mod; [done|lia|lia|].
  exists (2 ^ 57). done.
Qed.

(** ** Characters typed *)
Lemma rep_ring s ready line i c :
  tty_rep s (ready, line) -> (ready ++ line) !! i = Some c ->
  exists R, r (inp s) = u64 R /\ ring_get (u64 (R + Z.of_nat i)) s = Ret (c, s).
Proof.
  intros (R & _ & Hr & _ & _ & _ & Hb & _) Hi. exists R. split; [done|].
  unfold ring_get. by rewrite u64_mod_buf, (Hb i c Hi).
Qed.

Lemma rub_out_spec s ready line x :
  tty_rep s (ready, line ++ [x]) ->
  exists s', rub_out s = Ret (tt, s') /\ tty_rep s' (ready, line) /\ uart_in s' = uart_in s.
Proof.
  intros (R & Hl & Hr & Hw & He & Hn & Hb & Hs). eexists. split; [reflexivity|]. split; [|done].
  exists R. simpl in *. rewrite length_app in *. simpl in *. do 3 (split; [done|]). split.
  - rewrite He. unfold Z.sub. rewrite u64_add. f_equal. lia.
  - split; [lia|]. split; [|done]. intros i c Hi. apply Hb. rewrite app_assoc. by apply lookup_app_l_Some.
Qed.

Lemma at_line_end s ready line :
  tty_rep s (ready, line) -> (e (inp s) =? w (inp s)) = bool_decide (line = []).
Proof.
  intros (R & _ & _ & Hw & He & Hn & _). simpl in *. unfold INPUT_BUF in Hn. rewrite Hw, He.
  case_bool_decide as Hline.
  - subst. apply Z.eqb_eq. simpl. by rewrite Z.add_0_r.
  - apply Z.eqb_neq. intros E. symmetry in E. apply u64_eq_small in E; [|lia]. destruct line; [done|]. simpl in E. lia.
Qed.

Lemma kill_line_spec s ready line :
  tty_rep s (ready, line) ->
  exists s', kill_line s = Ret (tt, s') /\ tty_rep s' (ready, []) /\ uart_in s' = uart_in s.
Proof.
  intros H. unfold kill_line.
  assert (Hn : (length line < S (Z.to_nat INPUT_BUF))%nat).
  { destruct H as (R & _ & _ & _ & _ & Hn & _). simpl in Hn. lia. }
  revert s line H Hn. induction (S (Z.to_nat INPUT_BUF)) as [|n IH]; intros s line H Hn; [lia|].
  cbn [while]. pose proof (at_line_end s ready line H) as Hend.
  destruct line as [|x line _] using rev_ind.
  { erewrite bind_Ret with (a := inr tt) (s' := s); [by exists s|].
    erewrite bind_Ret by reflexivity. by rewrite Hend. }
  rewrite bool_decide_eq_false_2 in Hend by (by destruct line).
  destruct (rub_out_spec s ready line x H) as (s1 & E1 & H1 & U1).
  erewrite bind_Ret with (a := inl tt) (s' := s1).
  2: { erewrite bind_Ret by reflexivity. rewrite Hend. by rewrite (bind_Ret _ _ _ _ _ E1). }
  destruct (IH s1 line H1) as (s2 & E2 & H2 & U2); [rewrite length_app in Hn; simpl in Hn; lia|].
  exists s2. split; [done|]. split; [done|congruence].
Qed.

(** One character goes to the end of the line. *)
Lemma room s ready line :
  tty_rep s (ready, line) ->
  (u64 (r (inp s) + INPUT_BUF) =? e (inp s)) = negb (Z.of_nat (length ready + length line) <? INPUT_BUF).
Proof.
  intros (R & _ & Hr & _ & He & Hn & _). simpl in *. rewrite Hr, He, u64_add, <- Z.add_assoc.
  unfold INPUT_BUF in *. set (k := Z.of_nat (length ready) + Z.of_nat (length line)).
  replace (R + 128) with (R + k + (128 - k)) by lia.
  destruct (Z.ltb_spec (Z.of_nat (length ready + length line)) 128); simpl.
  - apply Z.eqb_neq. intros E. symmetry in E. apply u64_eq_small in E; lia.
  - apply Z.eqb_eq. f_equal. lia.
Qed.

Definition typed (c : Z) (s : console) : console :=
  mkCons (set_e (u64 (e (inp s) + 1)) (set_buf (fun b => <[Z.to_nat (e (inp s) mod INPUT_BUF) := c]> b) (inp s)))
    (uart_in s) (uart_out s ++ [c]) (kills s).

Lemma typed_rep s ready line c :
  tty_rep s (ready, line) -> Z.of_nat (length ready + length line) < INPUT_BUF ->
  tty_rep (typed c s) (ready, line ++ [c]).
Proof.
  intros (R & Hl & Hr & Hw & He & Hn & Hb & Hs) Hlt. exists R. simpl in *. rewrite length_insert, length_app. simpl.
  split; [done|]. split; [done|]. split; [done|]. split.
  { rewrite He, u64_add. f_equal. lia. }
  split; [lia|]. split; [|done]. intros i x Hi. rewrite He, u64_mod_buf. unfold INPUT_BUF in *.
  pose proof (Z.mod_pos_bound (R + Z.of_nat (length ready) + Z.of_nat (length line)) 128 ltac:(lia)).
  rewrite app_assoc in Hi. destruct (decide (i < length (ready ++ line))%nat) as [Hlti|Hge].
  - rewrite lookup_app_l in Hi by done. rewrite length_app in Hlti. rewrite list_lookup_insert_ne; [by apply Hb|].
    intros E. apply Z2Nat.inj in E; [|lia|apply Z.mod_pos_bound; lia].
    pose proof (Z.div_mod (R + Z.of_nat (length ready) + Z.of_nat (length line)) 128 ltac:(lia)).
    pose proof (Z.div_mod (R + Z.of_nat i) 128 ltac:(lia)). nia.
  - rewrite lookup_app_r in Hi by lia. rewrite length_app in *.
    destruct (i - (length ready + length line))%nat eqn:Ei; [|done]. simpl in Hi. simplify_eq.
    replace (R + Z.of_nat i) with (R + Z.of_nat (length ready) + Z.of_nat (length line)) by lia.
    apply list_lookup_insert_eq. lia.
Qed.

Lemma lines_ready s ready line sm :
  tty_rep s (ready, line) -> sem_inv sm -> val (sem sm) < 2 ^ 31 - 2 ->
  tty_rep (set_input (set_read sm) (set_input (set_w (e (inp s))) s)) (ready ++ line, []).
Proof.
  intros (R & Hl & Hr & Hw & He & Hn & Hb & Hs) Hsm Hv. exists R. simpl in *. rewrite length_app, app_nil_r. simpl.
  split; [done|]. split; [done|]. rewrite He.
  split; [f_equal; lia|]. split; [f_equal; lia|]. split; [lia|]. done.
Qed.

Lemma console_char_spec s t c :
  tty_rep s t -> (c = CTRL_C -> thisproc_idle = true \/ kill_thisproc <> -1) ->
  exists s', console_char c s = Ret (tt, s') /\ tty_rep s' (tty_char c t) /\ uart_in s' = uart_in s.
Proof.
  destruct t as [ready line]. intros H Hk. unfold console_char, tty_char.
  destruct ((c =? DEL) || (c =? BS)); [|destruct (c =? CTRL_U); [|destruct (Z.eqb_spec c CTRL_C) as [Ec|Ec]]].
  - erewrite bind_Ret by reflexivity. rewrite (at_line_end s ready line H).
    destruct line as [|x line _] using rev_ind; [by eapply kill_line_spec|].
    rewrite bool_decide_eq_false_2 by (by destruct line). rewrite length_app, Nat.add_sub, take_app_length.
    by eapply rub_out_spec.
  - by eapply kill_line_spec.
  - destruct thisproc_idle; simpl; [by exists s|]. destruct (Hk Ec) as [|Hk']; [done|].
    rewrite (proj2 (Z.eqb_neq _ _)) by done. eexists. split; [reflexivity|]. done.
  - erewrite bind_Ret by reflexivity. rewrite (room s ready line H), negb_involutive.
    destruct (Z.ltb_spec (Z.of_nat (length ready + length line)) INPUT_BUF) as [Hlt|Hge]; [|by exists s].
    set (c' := if c =? CR then LF else c). pose proof (typed_rep s ready line c' H Hlt) as H1.
    do 3 erewrite bind_Ret by reflexivity. fold c'.
    match goal with |- context [when _ _ ?st] => change st with (typed c' s) end.
    destruct ((c' =? LF) || (c' =? CTRL_D)).
    2: { by exists (typed c' s). }
    unfold when. do 2 erewrite bind_Ret by reflexivity. unfold post_readers. erewrite bind_Ret by reflexivity.
    destruct H as (R & _ & _ & _ & _ & _ & _ & Hs & Hv).
    destruct (post_all_sem_wakes_all (read (inp s)) Hs Hv) as (sm & Ep & Hsm & _ & Hvm & _).
    change (read (inp _)) with (read (inp s)) at 1 2. rewrite Ep. eexists. split; [reflexivity|].
    split; [|done]. apply lines_ready; [done|done|]. rewrite Hvm. lia.
Qed.

(** ** Reading *)
Lemma rep_front s ready line :
  tty_rep s (ready, line) ->
  (r (inp s) =? w (inp s)) = bool_decide (ready = []) /\
  forall c ready', ready = c :: ready' ->
    ring_get (r (inp s)) s = Ret (c, s) /\ tty_rep (set_input (set_r (u64 (r (inp s) + 1))) s) (ready', line).
Proof.
  intros (R & Hl & Hr & Hw & He & Hn & Hb & Hs). simpl in *. unfold INPUT_BUF in *. split.
  - rewrite Hr, Hw. case_bool_decide as Hready.
    + subst. simpl. rewrite Z.add_0_r. apply Z.eqb_refl.
    + apply Z.eqb_neq. intros E. apply u64_eq_small in E; [|lia]. destruct ready; [done|]. simpl in E. lia.
  - intros c ready' ->. split.
    + unfold ring_get. specialize (Hb 0%nat c eq_refl). rewrite Z.add_0_r in Hb. rewrite Hr, u64_mod_buf.
      unfold INPUT_BUF. by rewrite Hb.
    + exists (R + 1). simpl in *. rewrite Hr, u64_add. unfold INPUT_BUF. do 2 (split; [done|]).
      split; [rewrite Hw; f_equal; lia|]. split; [rewrite He; f_equal; lia|]. split; [lia|]. split; [|done].
      intros i x Hi. specialize (Hb (S i) x Hi). by replace (R + 1 + Z.of_nat i) with (R + Z.of_nat (S i)) by lia.
Qed.

Lemma read_loop n s ready line i dst k :
  tty_rep s (ready, line) -> n = i + Z.of_nat k ->
  exists s', while (S k) (console_read_body n) (i, dst) s =
    (let '(d, got, rest) := tty_read k ready in
     Ret ((if d : bool then Done else Block) (dst ++ got), s')) /\
    tty_rep s' ((tty_read k ready).2, line) /\ uart_in s' = uart_in s.
Proof.
  revert s ready i dst. induction k as [|k IH]; intros s ready i dst H ->.
  - exists s. rewrite while_S; cbn [tty_read]. rewrite app_nil_r. split; [|done].
    erewrite bind_Ret with (a := inr (Done dst)) (s' := s); [done|].
    unfold console_read_body. rewrite (proj2 (Z.eqb_eq _ _)) by lia. done.
  - destruct (rep_front s ready line H) as [Hrw Hf].
    destruct ready as [|c ready'].
    { exists s. rewrite while_S; cbn [tty_read]. rewrite app_nil_r. split; [|done].
      erewrite bind_Ret with (a := inr (Block dst)) (s' := s); [done|].
      unfold console_read_body. rewrite (proj2 (Z.eqb_neq _ _)) by lia. erewrite bind_Ret by reflexivity.
      rewrite Hrw. done. }
    destruct (Hf c ready' eq_refl) as [Hg H1]. set (s1 := set_input (set_r (u64 (r (inp s) + 1))) s) in *.
    assert (Eb : console_read_body (i + Z.of_nat (S k)) (i, dst) s =
      if c =? CTRL_D then Ret (inr (Done dst), s)
      else if c =? LF then Ret (inr (Done (dst ++ [c])), s1) else Ret (inl (i + 1, dst ++ [c]), s1)).
    { unfold console_read_body. rewrite (proj2 (Z.eqb_neq _ _)) by lia. erewrite bind_Ret by reflexivity.
      rewrite Hrw. rewrite bool_decide_eq_false_2 by done. rewrite (bind_Ret _ _ _ _ _ Hg).
      destruct (c =? CTRL_D); [done|]. erewrite bind_Ret by reflexivity. by destruct (c =? LF). }
    cbn [tty_read]. destruct (c =? CTRL_D) eqn:E4.
    { exists s. rewrite app_nil_r. split; [|done]. rewrite while_S. by rewrite (bind_Ret _ _ _ _ _ Eb). }
    destruct (c =? LF) eqn:E10.
    { exists s1. split; [|done]. rewrite while_S. by rewrite (bind_Ret _ _ _ _ _ Eb). }
    destruct (IH s1 ready' (i + 1) (dst ++ [c]) H1) as (s' & E & H' & U'); [lia|].
    exists s'. rewrite while_S, (bind_Ret _ _ _ _ _ Eb), E.
    destruct (tty_read k ready') as [[d got] rest]. by rewrite <- app_assoc.
Qed.

(** An end of file read at once is taken from the input. *)
Lemma tty_read_eof k ready d rest :
  tty_read (S k) ready = (d, [], rest) -> d = true -> exists rest', rest = CTRL_D :: rest' /\ ready = rest.
Proof.
  destruct ready as [|c ready']; cbn [tty_read]; [by intros [= <- _]|].
  destruct (Z.eqb_spec c CTRL_D) as [->|]; [intros [= <- <-]; eauto|]. destruct (c =? LF); [done|].
  by destruct (tty_read k ready') as [[??]?].
Qed.

Lemma tty_read_prefix k ready : exists l, ready = l ++ (tty_read k ready).2.
Proof.
  revert ready. induction k as [|k IH]; intros [|c ready]; cbn [tty_read]; try by exists [].
  destruct (c =? CTRL_D); [by exists []|]. destruct (c =? LF); [by exists [c]|].
  destruct (IH ready) as [l Hl]. destruct (tty_read k ready) as [[??]?]. simpl in *. exists (c :: l). by rewrite Hl.
Qed.

Lemma console_read_spec n s ready line dst :
  tty_rep s (ready, line) -> Z.of_nat (length dst) < n ->
  exists s', console_read_from n dst s =
    (let '(d, got, rest) := tty_read (Z.to_nat (n - Z.of_nat (length dst))) ready in
     Ret ((if d : bool then Done else Block) (dst ++ got), s')) /\ uart_in s' = uart_in s /\
    tty_rep s' (let '(d, got, rest) := tty_read (Z.to_nat (n - Z.of_nat (length dst))) ready in
                if d : bool then tty_eof (dst ++ got) rest else rest, line).
Proof.
  intros H Hn. unfold console_read_from.
  destruct (read_loop n s ready line (Z.of_nat (length dst)) dst (Z.to_nat (n - Z.of_nat (length dst))) H)
    as (s1 & E & H1 & U1); [lia|].
  destruct (Z.to_nat (n - Z.of_nat (length dst))) as [|k] eqn:Ek; [lia|].
  destruct (tty_read (S k) ready) as [[d got] rest] eqn:Er. simpl in H1. rewrite (bind_Ret _ _ _ _ _ E).
  destruct d; [|by exists s1].
  destruct (dst ++ got) as [|c l] eqn:El; [|by exists s1].
  apply app_eq_nil in El as [-> ->]. destruct (tty_read_eof k ready true rest Er eq_refl) as (rest' & -> & _).
  destruct (rep_front s1 _ line H1) as [_ Hf]. destruct (Hf _ _ eq_refl) as [Hg H2].
  eexists. split; [|split; [|exact H2]]; [|done].
  erewrite bind_Ret by reflexivity. rewrite (bind_Ret _ _ _ _ _ Hg). done.
Qed.

(** ** Interrupts and readers *)
Inductive tty_event := Typed (cs : list Z) | Read (n : Z) (dst : list Z).

Definition console_event (ev : tty_event) : M console (option read_result) :=
  match ev with
  | Typed cs => modify (fun s => mkCons (inp s) (uart_in s ++ cs) (uart_out s) (kills s)) ;;; console_intr ;;; ret None
  | Read n dst => res <- console_read_from n dst ;; ret (Some res)
  end.

Definition tty_event_step (ev : tty_event) (t : tty) : option read_result * tty :=
  match ev with
  | Typed cs => (None, foldl (fun t c => tty_char c t) t cs)
  | Read n dst =>
      let '(d, got, rest) := tty_read (Z.to_nat (n - Z.of_nat (length dst))) t.1 in
      (Some ((if d : bool then Done else Block) (dst ++ got)), (if d : bool then tty_eof (dst ++ got) rest else rest, t.2))
  end.

Definition event_ok (ev : tty_event) : Prop :=
  match ev with
  | Typed cs => 255 ∉ cs /\ (CTRL_C ∈ cs -> thisproc_idle = true \/ kill_thisproc <> -1)
  | Read n dst => Z.of_nat (length dst) < n
  end.

Fixpoint console_run (l : list tty_event) : M console (list (option read_result)) :=
  match l with
  | [] => ret []
  | ev :: l' => x <- console_event ev ;; xs <- console_run l' ;; ret (x :: xs)
  end.

Fixpoint tty_run (l : list tty_event) (t : tty) : list (option read_result) * tty :=
  match l with
  | [] => ([], t)
  | ev :: l' => let '(x, t1) := tty_event_step ev t in let '(xs, t2) := tty_run l' t1 in (x :: xs, t2)
  end.

Lemma intr_loop cs s t :
  tty_rep s t -> uart_in s = cs -> 255 ∉ cs -> (CTRL_C ∈ cs -> thisproc_idle = true \/ kill_thisproc <> -1) ->
  exists s', while (S (length cs)) console_intr_body tt s = Ret (tt, s') /\
    tty_rep s' (foldl (fun t c => tty_char c t) t cs) /\ uart_in s' = [].
Proof.
  revert s t. induction cs as [|c cs IH]; intros s t H Hu Hn Hk; rewrite while_S.
  - exists s. split; [|done]. erewrite bind_Ret with (a := inr tt) (s' := s); [done|].
    unfold console_intr_body, uart_get_char, bind. by rewrite Hu.
  - set (s0 := mkCons (inp s) cs (uart_out s) (kills s)).
    destruct (console_char_spec s0 t c H) as (s1 & E1 & H1 & U1); [intros ->; apply Hk; by left|].
    destruct (IH s1 (tty_char c t) H1 U1) as (s2 & E2 & H2 & U2); [set_solver|set_solver|].
    exists s2. split; [|done]. erewrite bind_Ret with (a := inl tt) (s' := s1); [done|].
    unfold console_intr_body. erewrite bind_Ret with (a := c) (s' := s0).
    2: { unfold uart_get_char. by rewrite Hu. }
    rewrite (proj2 (Z.eqb_neq _ _)) by set_solver. by rewrite (bind_Ret _ _ _ _ _ E1).
Qed.
End console.

(** C33: the console implements its line discipline: whatever characters
    interrupts deliver and whatever reads run in between, interrupted by
    waits or not, every call returns, a line becomes readable once it is
    complete and its editing is applied, readers get the lines in order, a
    read ends at a newline, at an end of file or when it has [n] characters
    and goes to sleep when no complete line is left, characters beyond the
    capacity of [INPUT_BUF] are dropped, and the wrap-around of the ring's
    64-bit indices is harmless. *)
Theorem console_refines (thisproc_idle : bool) (kill_thisproc : Z) (l : list tty_event) (s : console) (t : tty) :
  tty_rep s t -> uart_in s = [] -> Forall (event_ok thisproc_idle kill_thisproc) l ->
  exists s', console_run thisproc_idle kill_thisproc l s = Ret ((tty_run l t).1, s') /\ tty_rep s' (tty_run l t).2.
Proof.
  revert s t. induction l as [|ev l IH]; intros s [ready line] H Hu Hok; [by exists s|].
  apply Forall_cons in Hok as [Hev Hok]. cbn [console_run tty_run].
  assert (exists s1, console_event thisproc_idle kill_thisproc ev s = Ret ((tty_event_step ev (ready, line)).1, s1) /\
    tty_rep s1 (tty_event_step ev (ready, line)).2 /\ uart_in s1 = []) as (s1 & E1 & H1 & U1).
  { destruct ev as [cs|n dst]; cbn [console_event tty_event_step fst snd].
    - destruct Hev as [Hn Hk]. set (s0 := mkCons (inp s) (uart_in s ++ cs) (uart_out s) (kills s)).
      destruct (intr_loop thisproc_idle kill_thisproc cs s0 _ H) as (s1 & E1 & H1 & U1); [simpl; by rewrite Hu|done|done|].
      exists s1. split; [|done]. erewrite bind_Ret by reflexivity. fold s0.
      erewrite bind_Ret; [done|]. unfold console_intr. simpl length. by rewrite Hu.
    - destruct (console_read_spec n s ready line dst H Hev) as (s1 & E1 & U1 & H1). exists s1.
      destruct (tty_read (Z.to_nat (n - Z.of_nat (length dst))) ready) as [[d got] rest].
      split; [by rewrite (bind_Ret _ _ _ _ _ E1)|]. split; [done|congruence]. }
  rewrite (bind_Ret _ _ _ _ _ E1). destruct (tty_event_step ev (ready, line)) as [x t1]. simpl in H1.
  destruct (IH s1 t1 H1 U1 Hok) as (s2 & E2 & H2). rewrite (bind_Ret _ _ _ _ _ E2).
  exists s2. destruct (tty_run l t1) as [xs t2]. done.
Qed.

Definition ex_cons : console :=
  mkCons (mkInput (replicate 128 0) (2 ^ 64 - 2) (2 ^ 64 - 2) (2 ^ 64 - 2) (mkSemSt (init_sem 0) ∅ [])) [] [] 0.

Lemma console_refines_witness :
  exists s', console_run false 0 [Typed [97; 98; 8; 99; 13; 100; 4; 101]; Read 10 []; Read 10 []; Read 10 [];  Read 10 [100]] ex_cons =
    Ret ([None; Some (Done [97; 99; 10]); Some (Done [100]); Some (Done []); Some (Block [100])], s') /\
    tty_rep s' ([], [101]).
Proof.
  apply (console_refines false 0 [Typed [97; 98; 8; 99; 13; 100; 4; 101]; Read 10 []; Read 10 []; Read 10 []; Read 10 [100]] ex_cons ([], [])).
  - exists (2 ^ 64 - 2). do 4 (split; [by vm_compute|]). split; [by vm_compute|]. split; [by intros i c Hi|].
    split; [|done]. split; simpl; try done; [constructor|].
    intros v. rewrite elem_of_nil. split; [done|]. by intros [q ?].
  - reflexivity.
  - repeat constructor; simpl; try lia; apply (bool_decide_unpack _); by vm_compute.
Defined.
