(* ===== verification/CString.v ===== *)
(** * Strings and memory blocks (common/string.c)

    A pointer into an array is an index; [memcpy] and [memcmp] work on two
    arrays, [memmove] on one, where source and destination may overlap.
    Strings end at a zero byte; reading past an array is a fault. *)
From stdpp Require Import base gmap list.
From Stdlib Require Import ZArith Lia.
From S2P Require Import Prelude Bytes.

(** ** Reading an array of any state *)
Definition rd {S} (a : list Z) (i : Z) : M S Z :=
  match (if 0 <=? i then a !! Z.to_nat i else None) with Some c => ret c | None => stop Fault end.

Fixpoint strncmp_loop {S} (s1 s2 : list Z) (n : nat) (i : Z) : M S Z :=
  match n with
  | O => ret 0
  | Datatypes.S n' =>
      c1 <- rd s1 i ;; c2 <- rd s2 i ;;
      if negb (c1 =? c2) then ret (c1 - c2)
      else if (c1 =? 0) || (c2 =? 0) then ret 0
      else strncmp_loop s1 s2 n' (i + 1)
  end.
Definition strncmp {S} (s1 s2 : list Z) (n : Z) : M S Z := strncmp_loop s1 s2 (Z.to_nat n) 0.

Fixpoint memcmp_loop {S} (s1 s2 : list Z) (n : nat) (i : Z) : M S Z :=
  match n with
  | O => ret 0
  | Datatypes.S n' =>
      c1 <- rd s1 i ;; c2 <- rd s2 i ;;
      if negb (c1 =? c2) then ret (c1 - c2) else memcmp_loop s1 s2 n' (i + 1)
  end.
Definition memcmp {S} (s1 s2 : list Z) (n : Z) : M S Z := memcmp_loop s1 s2 (Z.to_nat n) 0.

Definition strlen {S} (s : list Z) : M S Z :=
  while (Datatypes.S (length s)) (fun i => c <- rd s i ;; ret (if c =? 0 then inr i else inl (i + 1))) 0.

(** ** Writing an array: the state is the destination *)
Abbreviation mem := (list Z).

Definition rdm (i : Z) : M mem Z := fun m => rd m i m.
Definition wr (i v : Z) : M mem unit :=
  fun m => if (0 <=? i) && (i <? Z.of_nat (length m)) then Ret (tt, <[Z.to_nat i := v]> m) else Stop Fault.

Definition memset (s c n : Z) : M mem unit :=
  for_upto (Z.to_nat n) 0 (fun i => wr (s + i) (u8 (Z.land c 255)) ;;; ret (None : option unit)) ;;; ret tt.

Definition memcpy (dest : Z) (src : list Z) (n : Z) : M mem unit :=
  for_upto (Z.to_nat n) 0 (fun i => c <- rd src i ;; wr (dest + i) c ;;; ret (None : option unit)) ;;; ret tt.

(** The two loops [while (n-- > 0)] of [memmove]. *)
Fixpoint move_down (n : nat) (d s : Z) : M mem unit :=
  match n with
  | O => ret tt
  | S n' => c <- rdm (s - 1) ;; wr (d - 1) c ;;; move_down n' (d - 1) (s - 1)
  end.
Fixpoint move_up (n : nat) (d s : Z) : M mem unit :=
  match n with
  | O => ret tt
  | S n' => c <- rdm s ;; wr d c ;;; move_up n' (d + 1) (s + 1)
  end.
Definition memmove (dest src n : Z) : M mem unit :=
  if (src <? dest) && (dest - src <? n) then move_down (Z.to_nat n) (dest + n) (src + n)
  else move_up (Z.to_nat n) dest src.

(** The index at which the copying loop of [strncpy] stops. *)
Fixpoint copy_string (src : list Z) (dest : Z) (n : nat) (i : Z) : M mem Z :=
  match n with
  | O => ret i
  | S n' => c <- rd src i ;; if c =? 0 then ret i else wr (dest + i) c ;;; copy_string src dest n' (i + 1)
  end.
Definition strncpy (dest : Z) (src : list Z) (n : Z) : M mem unit :=
  i <- copy_string src dest (Z.to_nat n) 0 ;;
  for_upto (Z.to_nat (n - i)) i (fun i => wr (dest + i) 0 ;;; ret (None : option unit)) ;;; ret tt.
Definition strncpy_fast (dest : Z) (src : list Z) (n : Z) : M mem unit :=
  i <- copy_string src dest (Z.to_nat n) 0 ;;
  when (i <? n) (wr (dest + i) 0).

(** ** Strings as values *)

(** The string in the first [n] bytes of [s]. *)
Fixpoint cstr (n : nat) (s : list Z) : list Z :=
  match n, s with
  | S n', c :: s' => if c =? 0 then [] else c :: cstr n' s'
  | _, _ => []
  end.

(** The string ends, or has all of its [n] bytes, inside the array. *)
Definition readable (n : nat) (s : list Z) : Prop := (n <= length s)%nat \/ 0 ∈ s.

Lemma readable_cons n c s : readable (S n) (c :: s) -> c <> 0 -> readable n s.
Proof. intros [H|H] Hc; [left; simpl in H; lia|right; set_solver]. Qed.

Lemma readable_head n s : readable (S n) s -> exists c s', s = c :: s'.
Proof. destruct s; [|eauto]. intros [H|H]; [simpl in H; lia|by apply elem_of_nil in H]. Qed.

Lemma rd_Ret {S} (a : list Z) i c (st : S) : 0 <= i -> a !! Z.to_nat i = Some c -> rd a i st = Ret (c, st).
Proof. intros Hi Hc. unfold rd. rewrite (proj2 (Z.leb_le _ _)) by lia. by rewrite Hc. Qed.

Lemma drop_cons_inv {A} i (l : list A) c t : drop i l = c :: t -> l !! i = Some c /\ drop (S i) l = t.
Proof.
  revert l. induction i as [|i IH]; intros [|x l] E; simpl in *; try done; [by simplify_eq|].
  by apply IH.
Qed.

Lemma strncmp_loop_spec {S} (s1 s2 : list Z) n i (st : S) :
  readable n (drop i s1) -> readable n (drop i s2) ->
  exists z, strncmp_loop s1 s2 n (Z.of_nat i) st = Ret (z, st) /\
    (z = 0 <-> cstr n (drop i s1) = cstr n (drop i s2)).
Proof.
  revert i. induction n as [|n IH]; intros i H1 H2; [by exists 0|].
  destruct (readable_head _ _ H1) as (c1 & t1 & E1). destruct (readable_head _ _ H2) as (c2 & t2 & E2).
  destruct (drop_cons_inv _ _ _ _ E1) as [L1 D1]. destruct (drop_cons_inv _ _ _ _ E2) as [L2 D2].
  cbn [strncmp_loop]. erewrite bind_Ret by (apply rd_Ret; [lia|by rewrite Nat2Z.id]).
  erewrite bind_Ret by (apply rd_Ret; [lia|by rewrite Nat2Z.id]).
  rewrite E1 in H1 |- *. rewrite E2 in H2 |- *. destruct (Z.eqb_spec c1 c2) as [<-|Hc]; cbn [negb].
  - cbn [cstr]. rewrite orb_diag. destruct (Z.eqb_spec c1 0) as [->|H0]; [by exists 0|].
    replace (Z.of_nat i + 1) with (Z.of_nat (Datatypes.S i)) by lia.
    destruct (IH (Datatypes.S i)) as (z & Ez & Hz); [rewrite D1; by eapply readable_cons|rewrite D2; by eapply readable_cons|].
    exists z. split; [done|]. rewrite Hz, D1, D2. split; [by intros ->|by intros [= ->]].
  - exists (c1 - c2). split; [done|]. split; [lia|]. cbn [cstr].
    destruct (Z.eqb_spec c1 0), (Z.eqb_spec c2 0); intros; simplify_eq; lia.
Qed.

(** [strncmp] compares the strings. *)
Lemma strncmp_spec {S} (s1 s2 : list Z) n (st : S) :
  0 <= n -> readable (Z.to_nat n) s1 -> readable (Z.to_nat n) s2 ->
  exists z, strncmp s1 s2 n st = Ret (z, st) /\ (z = 0 <-> cstr (Z.to_nat n) s1 = cstr (Z.to_nat n) s2).
Proof.
  intros Hn H1 H2. unfold strncmp. change 0 with (Z.of_nat 0) at 1.
  destruct (strncmp_loop_spec s1 s2 (Z.to_nat n) 0 st) as (z & E & Hz); [by rewrite drop_0..|].
  rewrite !drop_0 in Hz. eauto.
Qed.

(** ** Blocks of memory *)
Definition in_mem (m : mem) (i n : Z) : Prop := 0 <= i /\ 0 <= n /\ i + n <= Z.of_nat (length m).

(** [n] bytes at [src] copied to [dest], all read before any is written. *)
Definition copied (dest src n : Z) (m : mem) : mem :=
  splice (Z.to_nat dest) (range (Z.to_nat src) (Z.to_nat n) m) m.

Lemma rdm_Ret (m : mem) i : 0 <= i < Z.of_nat (length m) -> exists c, m !! Z.to_nat i = Some c /\ rdm i m = Ret (c, m).
Proof.
  intros Hi. destruct (lookup_lt_is_Some_2 m (Z.to_nat i)) as [c Hc]; [lia|]. exists c. split; [done|].
  unfold rdm. by rewrite (rd_Ret m i c m) by (done || lia).
Qed.

Lemma wr_Ret (m : mem) i v : 0 <= i < Z.of_nat (length m) -> wr i v m = Ret (tt, <[Z.to_nat i := v]> m).
Proof. intros Hi. unfold wr. by rewrite (proj2 (Z.leb_le _ _)), (proj2 (Z.ltb_lt _ _)) by lia. Qed.

(** Copying upwards is right when no byte is overwritten before it is read. *)
Lemma move_up_spec n d s (m : mem) :
  0 <= d -> 0 <= s -> d + Z.of_nat n <= Z.of_nat (length m) -> s + Z.of_nat n <= Z.of_nat (length m) ->
  (d <= s \/ s + Z.of_nat n <= d) ->
  exists m', move_up n d s m = Ret (tt, m') /\ length m' = length m /\
    forall i, m' !! i = if decide (Z.to_nat d <= i < Z.to_nat d + n)%nat
                        then m !! (Z.to_nat s + (i - Z.to_nat d))%nat else m !! i.
Proof.
  revert d s m. induction n as [|n IH]; intros d s m Hd Hs Hdn Hsn Ho.
  - exists m. split; [done|]. split; [done|]. intros i. rewrite decide_False by lia. done.
  - destruct (rdm_Ret m s) as (c & Hc & Ec); [lia|]. cbn [move_up].
    rewrite (bind_Ret _ _ _ _ _ Ec), (bind_Ret _ _ _ _ _ (wr_Ret m d c ltac:(lia))).
    destruct (IH (d + 1) (s + 1) (<[Z.to_nat d := c]> m)) as (m' & E & Hl & Hm'); rewrite ?length_insert; try lia.
    exists m'. rewrite length_insert in Hl. split; [done|]. split; [done|]. intros i. rewrite Hm'.
    destruct (decide (i = Z.to_nat d)) as [->|Hi].
    + rewrite decide_False, decide_True by lia. rewrite list_lookup_insert_eq by lia.
      by rewrite Nat.sub_diag, Nat.add_0_r.
    + destruct (decide (Z.to_nat (d + 1) <= i < Z.to_nat (d + 1) + n)%nat).
      * rewrite decide_True by lia. rewrite list_lookup_insert_ne by lia. f_equal. lia.
      * rewrite decide_False by lia. by rewrite list_lookup_insert_ne by lia.
Qed.

Lemma move_down_spec n d s (m : mem) :
  Z.of_nat n <= d -> Z.of_nat n <= s -> d <= Z.of_nat (length m) -> s <= Z.of_nat (length m) -> s <= d ->
  exists m', move_down n d s m = Ret (tt, m') /\ length m' = length m /\
    forall i, m' !! i = if decide (Z.to_nat d - n <= i < Z.to_nat d)%nat
                        then m !! (Z.to_nat s - n + (i - (Z.to_nat d - n)))%nat else m !! i.
Proof.
  revert d s m. induction n as [|n IH]; intros d s m Hd Hs Hdn Hsn Ho.
  - exists m. split; [done|]. split; [done|]. intros i. rewrite decide_False by lia. done.
  - destruct (rdm_Ret m (s - 1)) as (c & Hc & Ec); [lia|]. cbn [move_down].
    rewrite (bind_Ret _ _ _ _ _ Ec), (bind_Ret _ _ _ _ _ (wr_Ret m (d - 1) c ltac:(lia))).
    destruct (IH (d - 1) (s - 1) (<[Z.to_nat (d - 1) := c]> m)) as (m' & E & Hl & Hm'); rewrite ?length_insert; try lia.
    exists m'. rewrite length_insert in Hl. split; [done|]. split; [done|]. intros i. rewrite Hm'.
    destruct (decide (i = Z.to_nat (d - 1))) as [->|Hi].
    + rewrite decide_False, decide_True by lia. rewrite list_lookup_insert_eq by lia.
      rewrite <- Hc. f_equal. lia.
    + destruct (decide (Z.to_nat (d - 1) - n <= i < Z.to_nat (d - 1))%nat).
      * rewrite decide_True by lia. rewrite list_lookup_insert_ne by lia. f_equal. lia.
      * rewrite decide_False by lia. by rewrite list_lookup_insert_ne by lia.
Qed.

Lemma copied_lookup dest src n (m : mem) i :
  in_mem m dest n -> in_mem m src n ->
  copied dest src n m !! i = if decide (Z.to_nat dest <= i < Z.to_nat dest + Z.to_nat n)%nat
                             then m !! (Z.to_nat src + (i - Z.to_nat dest))%nat else m !! i.
Proof.
  intros (? & ? & ?) (? & ? & ?). unfold copied.
  rewrite splice_lookup by (rewrite range_length by lia; lia). rewrite range_length by lia.
  case_decide; [|done]. rewrite range_lookup. by rewrite decide_True by lia.
Qed.

(** [memmove] copies [n] bytes from [src] to [dest] as if through a
    temporary buffer, whether and however the two ranges overlap, and changes
    nothing else. *)
Theorem memmove_correct (dest src n : Z) (m : mem) :
  in_mem m dest n -> in_mem m src n -> memmove dest src n m = Ret (tt, copied dest src n m).
Proof.
  intros Hd Hs. pose proof (copied_lookup dest src n m) as Hc. destruct Hd as (? & ? & ?), Hs as (? & ? & ?).
  unfold memmove. destruct ((src <? dest) && (dest - src <? n)) eqn:E.
  - apply andb_true_iff in E as [E1%Z.ltb_lt E2%Z.ltb_lt].
    destruct (move_down_spec (Z.to_nat n) (dest + n) (src + n) m) as (m' & E & _ & Hm'); try lia.
    rewrite E. f_equal. f_equal. apply list_eq. intros i. rewrite Hm', Hc by done.
    destruct (decide (Z.to_nat dest <= i < Z.to_nat dest + Z.to_nat n)%nat).
    + rewrite decide_True by lia. f_equal. lia.
    + by rewrite decide_False by lia.
  - destruct (move_up_spec (Z.to_nat n) dest src m) as (m' & E' & _ & Hm'); try lia.
    rewrite E'. f_equal. f_equal. apply list_eq. intros i. by rewrite Hm', Hc.
Qed.

(** [strncmp] returns, with 0 exactly when its arguments hold the same
    string in their first [n] bytes, and does not read past the end of
    either string. *)
Theorem strncmp_correct (s1 s2 : list Z) (n : Z) :
  0 <= n -> readable (Z.to_nat n) s1 -> readable (Z.to_nat n) s2 ->
  exists z, strncmp s1 s2 n tt = Ret (z, tt) /\ (z = 0 <-> cstr (Z.to_nat n) s1 = cstr (Z.to_nat n) s2).
Proof. apply strncmp_spec. Qed.

Lemma memmove_correct_witness :
  memmove 1 0 3 [1; 2; 3; 4; 5] = Ret (tt, [1; 1; 2; 3; 5]) /\ in_mem [1; 2; 3; 4; 5] 1 3.
Proof.
  split; [|unfold in_mem; simpl; lia]. apply (memmove_correct 1 0 3 [1; 2; 3; 4; 5]); unfold in_mem; simpl; lia.
Defined.

Lemma strncmp_correct_witness :
  exists z, strncmp [97; 98; 0; 5] [97; 98; 0; 7] 14 tt = Ret (z, tt) /\
    (z = 0 <-> [97; 98] = [97; 98]).
Proof.
  apply (strncmp_correct [97; 98; 0; 5] [97; 98; 0; 7] 14); [lia|right; set_solver|right; set_solver].
Defined.
