(* ===== verification/Inode.v ===== *)
(** * Inodes and directory entries on disk (fs/defines.h)

    The structures of the on-disk format as records, with the bytes the
    compiler lays them out in: [InodeEntry] has 64 bytes, [DirEntry] 16,
    neither with padding. *)
From stdpp Require Import base list gmap.
From Stdlib Require Import ZArith Lia.
From S2P Require Import Prelude Bytes BCache BlockStore CString Console.

Definition INODE_NUM_DIRECT := 12.
Definition INODE_NUM_INDIRECT := BLOCK_SIZE / 4.
Definition INODE_PER_BLOCK := BLOCK_SIZE / 64.
Definition INODE_MAX_BLOCKS := INODE_NUM_DIRECT + INODE_NUM_INDIRECT.
Definition INODE_MAX_BYTES := INODE_MAX_BLOCKS * BLOCK_SIZE.
Definition FILE_NAME_MAX_LENGTH := 14.
Definition INODE_INVALID := 0.
Definition INODE_DIRECTORY := 1.
Definition INODE_REGULAR := 2.
Definition INODE_DEVICE := 3.
Definition ROOT_INODE_NO := 1.

Record InodeEntry := mkEntry {
  type : Z; major : Z; minor : Z; num_links : Z; num_bytes : Z; addrs : list Z; indirect : Z
}.

Record DirEntry := mkDirent { de_inode_no : Z; name : list Z }.

Definition sizeof_InodeEntry := 64.
Definition sizeof_DirEntry := 16.

(** ** Layout *)
Definition entry_bytes (e : InodeEntry) : bytes :=
  unwords 2 [type e; major e; minor e; num_links e] ++ unwords 4 (num_bytes e :: addrs e ++ [indirect e]).

Definition entry_of (d : bytes) : InodeEntry :=
  let h := words 2 4 d in
  let w := words 4 14 (drop 8 d) in
  mkEntry (h !!! 0%nat) (h !!! 1%nat) (h !!! 2%nat) (h !!! 3%nat)
    (w !!! 0%nat) (take 12 (drop 1 w)) (w !!! 13%nat).

Definition dirent_bytes (de : DirEntry) : bytes := le_encode 2 (de_inode_no de) ++ name de.
Definition dirent_of (d : bytes) : DirEntry := mkDirent (le_decode (take 2 d)) (drop 2 d).

Definition entry_ok (e : InodeEntry) : Prop :=
  word_ok 2 (type e) /\ word_ok 2 (major e) /\ word_ok 2 (minor e) /\ word_ok 2 (num_links e) /\
  word_ok 4 (num_bytes e) /\ Forall (word_ok 4) (addrs e) /\ length (addrs e) = 12%nat /\ word_ok 4 (indirect e).

Definition dirent_ok (de : DirEntry) : Prop :=
  word_ok 2 (de_inode_no de) /\ length (name de) = Z.to_nat FILE_NAME_MAX_LENGTH /\ Forall byte_ok (name de).

Lemma entry_bytes_length e : length (addrs e) = 12%nat -> length (entry_bytes e) = 64%nat.
Proof. intros H. unfold entry_bytes. rewrite length_app, !unwords_length. simpl. rewrite length_app. simpl. lia. Qed.

Lemma entry_bytes_ok e : Forall byte_ok (entry_bytes e).
Proof. unfold entry_bytes. apply Forall_app. split; apply unwords_ok. Qed.

Lemma entry_of_bytes e rest : entry_ok e -> entry_of (entry_bytes e ++ rest) = e.
Proof.
  intros (H1 & H2 & H3 & H4 & H5 & H6 & H7 & H8). unfold entry_of, entry_bytes.
  assert (E1 : words 2 4 ((unwords 2 [type e; major e; minor e; num_links e] ++
    unwords 4 (num_bytes e :: addrs e ++ [indirect e])) ++ rest) = [type e; major e; minor e; num_links e]).
  { rewrite <- app_assoc. change 4%nat with (length [type e; major e; minor e; num_links e]) at 1.
    apply words_unwords. by rewrite !Forall_cons, Forall_nil. }
  rewrite E1, <- app_assoc, drop_app_length' by by rewrite unwords_length.
  replace 14%nat with (length (num_bytes e :: addrs e ++ [indirect e])) by (simpl; rewrite length_app, H7; done).
  rewrite words_unwords by by rewrite Forall_cons, Forall_app, Forall_singleton.
  change (drop 1 (num_bytes e :: addrs e ++ [indirect e])) with (addrs e ++ [indirect e]).
  rewrite take_app_length' by done.
  change (num_bytes e :: addrs e ++ [indirect e]) with ((num_bytes e :: addrs e) ++ [indirect e]).
  rewrite (lookup_total_app_r _ _ 13) by (simpl; lia). replace (13 - length (num_bytes e :: addrs e))%nat with 0%nat by (simpl; lia).
  by destruct e.
Qed.

Lemma entry_of_ok d : Forall byte_ok d -> (64 <= length d)%nat -> entry_ok (entry_of d).
Proof.
  intros Hd Hl.
  assert (Hw : forall w n l i, Forall byte_ok l -> (w * n <= length l)%nat -> (i < n)%nat -> word_ok w (words w n l !!! i)).
  { intros w n. induction n as [|n IH]; intros l [|i] Hb Hlen Hi; try lia; cbn [words].
    - pose proof (le_decode_bound (take w l) (Forall_take _ _ _ Hb)) as H. rewrite length_take in H.
      unfold word_ok. simpl. by replace (w `min` length l)%nat with w in H by lia.
    - apply IH; [by apply Forall_drop|rewrite length_drop; lia|lia]. }
  assert (Hl8 : (4 * 14 <= length (drop 8 d))%nat) by (rewrite length_drop; lia).
  unfold entry_of, entry_ok. cbn [type major minor num_links num_bytes addrs indirect].
  repeat (split; [apply Hw; first [done|by apply Forall_drop|lia]|]).
  split; [|split; [by rewrite length_take, length_drop, words_length|apply Hw; first [by apply Forall_drop|lia]]].
  apply Forall_take, Forall_drop. apply Forall_lookup. intros i x Hx.
  rewrite <- (list_lookup_total_correct _ _ _ Hx). apply Hw; [by apply Forall_drop|done|].
  apply lookup_lt_Some in Hx. by rewrite words_length in Hx.
Qed.

Lemma dirent_bytes_length de : length (name de) = 14%nat -> length (dirent_bytes de) = 16%nat.
Proof. intros H. unfold dirent_bytes. by rewrite length_app, le_encode_length, H. Qed.

Lemma dirent_of_bytes de : dirent_ok de -> dirent_of (dirent_bytes de) = de.
Proof.
  intros (H1 & H2 & H3). unfold dirent_of, dirent_bytes.
  rewrite take_app_length', drop_app_length' by by rewrite le_encode_length.
  rewrite le_decode_encode by done. by destruct de.
Qed.

Lemma dirent_bytes_of d : length d = 16%nat -> Forall byte_ok d -> dirent_bytes (dirent_of d) = d.
Proof.
  intros Hl Hd. unfold dirent_of, dirent_bytes. cbn [de_inode_no name].
  assert (E : length (take 2 d) = 2%nat) by (rewrite length_take; lia).
  pose proof (le_encode_decode (take 2 d) (Forall_take _ _ _ Hd)) as Ed. rewrite E in Ed. rewrite Ed. apply take_drop.
Qed.

(** ** Inode [i] of a block *)
Definition inode_off (i : Z) : nat := Z.to_nat ((i mod INODE_PER_BLOCK) * 64).

Lemma inode_off_bound i : (inode_off i + 64 <= Z.to_nat BLOCK_SIZE)%nat.
Proof.
  unfold inode_off, INODE_PER_BLOCK, BLOCK_SIZE. pose proof (Z.mod_pos_bound i (512 / 64) ltac:(reflexivity)).
  change (512 / 64) with 8 in *. lia.
Qed.

Definition get_entry (d : bytes) (i : Z) : InodeEntry := entry_of (range (inode_off i) 64 d).
Definition put_entry (i : Z) (e : InodeEntry) (d : bytes) : bytes := splice (inode_off i) (entry_bytes e) d.

Lemma get_put_entry i e d : block_ok d -> entry_ok e -> get_entry (put_entry i e d) i = e.
Proof.
  intros [Hl _] He. pose proof (inode_off_bound i). unfold get_entry, put_entry.
  assert (Hlen : length (entry_bytes e) = 64%nat) by (apply entry_bytes_length; apply He).
  rewrite <- Hlen at 1. rewrite range_splice_same by (rewrite Hlen, Hl; done).
  rewrite <- (app_nil_r (entry_bytes e)). by apply entry_of_bytes.
Qed.

Lemma get_put_entry_ne i j e d :
  block_ok d -> length (addrs e) = 12%nat -> i mod INODE_PER_BLOCK <> j mod INODE_PER_BLOCK ->
  get_entry (put_entry i e d) j = get_entry d j.
Proof.
  intros [Hl _] He Hij. pose proof (inode_off_bound i). unfold get_entry, put_entry. f_equal.
  apply range_splice_disjoint; rewrite entry_bytes_length by done; [by rewrite Hl|].
  unfold inode_off, INODE_PER_BLOCK, BLOCK_SIZE in *. change (512 / 64) with 8 in *.
  pose proof (Z.mod_pos_bound i 8 ltac:(lia)). pose proof (Z.mod_pos_bound j 8 ltac:(lia)). lia.
Qed.

Lemma put_entry_ok i e d : block_ok d -> length (addrs e) = 12%nat -> block_ok (put_entry i e d).
Proof.
  intros [Hl Hb] He. pose proof (inode_off_bound i). split.
  - unfold put_entry. by rewrite splice_length; rewrite ?entry_bytes_length, ?Hl by done.
  - apply splice_ok; [apply entry_bytes_ok|done].
Qed.

Lemma get_entry_ok i d : block_ok d -> entry_ok (get_entry d i).
Proof.
  intros [Hl Hb]. pose proof (inode_off_bound i). apply entry_of_ok; [by apply range_ok|].
  rewrite range_length; [done|]. by rewrite Hl.
Qed.

(** * The inode layer (fs/inode.c)

    Written against the interface of the block cache, as the code is: it
    only uses the function pointers of [cache].  In-memory inodes live in a
    heap and hang off the list [ilist] of the sentinel [head].  [lock] of an
    inode is the value of its sleep lock; a call that would sleep stops with
    [Sleep].  Buffers of callers are byte lists: what a function stores
    through a pointer is part of its result. *)

Record Inode := mkInode { ilock : Z; rc : Z; inode_no : Z; ivalid : bool; entry : InodeEntry }.

Record ist (St : Type) := mkIst {
  cache : St;
  iheap : gmap Z Inode;
  ilist : list Z;
  cons : console;
  iroot : Z            (* [inodes.root] *)
}.
Arguments mkIst {St} _ _ _ _ _.
Arguments cache {St} _.
Arguments iheap {St} _.
Arguments ilist {St} _.
Arguments cons {St} _.
Arguments iroot {St} _.

Section code.
Context {St : Type} {BC : BlockCache St} (sblock : SuperBlock) {KA : Kalloc}.

(** What [kalloc] leaves in the entry of a new in-memory inode. *)
Context (uninit : InodeEntry).

Abbreviation M := (M (ist St)).

(** ** Access to the state *)
Definition set_cache (c : St) (s : ist St) : ist St := mkIst c (iheap s) (ilist s) (cons s) (iroot s).
Definition set_iheap (f : gmap Z Inode -> gmap Z Inode) (s : ist St) : ist St :=
  mkIst (cache s) (f (iheap s)) (ilist s) (cons s) (iroot s).
Definition set_ilist (f : list Z -> list Z) (s : ist St) : ist St :=
  mkIst (cache s) (iheap s) (f (ilist s)) (cons s) (iroot s).
Definition set_cons (c : console) (s : ist St) : ist St := mkIst (cache s) (iheap s) (ilist s) c (iroot s).
Definition set_iroot (r : Z) (s : ist St) : ist St := mkIst (cache s) (iheap s) (ilist s) (cons s) r.

Definition on_cache {A} (m : Prelude.M St A) : M A := zoom cache set_cache m.
Definition on_cons {A} (m : Prelude.M console A) : M A := zoom cons set_cons m.

Definition load_inode (p : Z) : M Inode :=
  fun s => match iheap s !! p with Some i => Ret (i, s) | None => Stop Fault end.
Definition update_inode (p : Z) (f : Inode -> Inode) : M unit :=
  fun s => match iheap s !! p with
           | Some i => Ret (tt, set_iheap (insert p (f i)) s)
           | None => Stop Fault
           end.

Definition set_ilock (v : Z) (i : Inode) : Inode := mkInode v (rc i) (inode_no i) (ivalid i) (entry i).
Definition set_rc (v : Z) (i : Inode) : Inode := mkInode (ilock i) v (inode_no i) (ivalid i) (entry i).
Definition set_valid (v : bool) (i : Inode) : Inode := mkInode (ilock i) (rc i) (inode_no i) v (entry i).
Definition set_entry (e : InodeEntry) (i : Inode) : Inode := mkInode (ilock i) (rc i) (inode_no i) (ivalid i) e.

Definition set_type (t : Z) (e : InodeEntry) : InodeEntry :=
  mkEntry t (major e) (minor e) (num_links e) (num_bytes e) (addrs e) (indirect e).
Definition set_num_bytes (n : Z) (e : InodeEntry) : InodeEntry :=
  mkEntry (type e) (major e) (minor e) (num_links e) n (addrs e) (indirect e).
Definition set_num_links (n : Z) (e : InodeEntry) : InodeEntry :=
  mkEntry (type e) (major e) (minor e) n (num_bytes e) (addrs e) (indirect e).
Definition set_addr (i a : Z) (e : InodeEntry) : InodeEntry :=
  mkEntry (type e) (major e) (minor e) (num_links e) (num_bytes e) (<[Z.to_nat i := a]> (addrs e)) (indirect e).
Definition set_indirect (a : Z) (e : InodeEntry) : InodeEntry :=
  mkEntry (type e) (major e) (minor e) (num_links e) (num_bytes e) (addrs e) a.

Definition load_entry (p : Z) : M InodeEntry := i <- load_inode p ;; ret (entry i).
Definition update_entry (p : Z) (f : InodeEntry -> InodeEntry) : M unit :=
  update_inode p (fun i => set_entry (f (entry i)) i).

(** [arr[i]] *)
Definition elem (l : list Z) (i : Z) : M Z :=
  match l !! Z.to_nat i with Some a => ret a | None => stop Fault end.

(** ** Small functions *)
Definition to_block_no (inode_no : Z) : Z := sb_inode_start sblock + inode_no / INODE_PER_BLOCK.

(** [(IndirectBlock* )block->data] *)
Definition get_addrs (d : bytes) : list Z := words 4 (Z.to_nat INODE_NUM_INDIRECT) d.
Definition put_addrs (l : list Z) : bytes := unwords 4 l.

Definition zero_entry : InodeEntry := mkEntry 0 0 0 0 0 (replicate 12 0) 0.

Definition init_inode : Inode := mkInode 1 0 0 false uninit.

(** ** alloc, lock, unlock, sync *)
Definition inode_alloc (ctx : option Z) (ty : Z) : M Z :=
  assert (negb (ty =? INODE_INVALID)) ;;;
  res <- for_upto (Z.to_nat (sb_num_inodes sblock - 1)) 1 (fun i =>
    b <- on_cache (bc_acquire (to_block_no i)) ;;
    d <- on_cache (bc_data b) ;;
    if type (get_entry d i) =? INODE_INVALID then
      on_cache (bc_set_data b (put_entry i (set_type ty zero_entry) d)) ;;;
      on_cache (bc_sync ctx b) ;;;
      on_cache (bc_release b) ;;;
      ret (Some i)
    else on_cache (bc_release b) ;;; ret None) ;;
  match res with Some i => ret i | None => stop Panic end.

Definition inode_lock (p : Z) : M unit :=
  i <- load_inode p ;;
  assert (rc i >? 0) ;;;
  if ilock i - 1 >=? 0 then update_inode p (set_ilock (ilock i - 1)) else stop Sleep.

Definition inode_unlock (p : Z) : M unit :=
  i <- load_inode p ;;
  assert (rc i >? 0) ;;;
  if ilock i + 1 <=? 0 then stop Panic else update_inode p (set_ilock (ilock i + 1)).

Definition inode_sync (ctx : option Z) (p : Z) (do_write : bool) : M unit :=
  i <- load_inode p ;;
  b <- on_cache (bc_acquire (to_block_no (inode_no i))) ;;
  d <- on_cache (bc_data b) ;;
  (if ivalid i && do_write then
     on_cache (bc_set_data b (put_entry (inode_no i) (entry i) d)) ;;;
     on_cache (bc_sync ctx b)
   else if negb (ivalid i) then
     update_inode p (set_entry (get_entry d (inode_no i))) ;;;
     update_inode p (set_valid true)
   else ret tt) ;;;
  on_cache (bc_release b).

(** ** get, share *)
Fixpoint find_inode (ino : Z) (l : list Z) : M (option Z) :=
  match l with
  | [] => ret None
  | p :: l' => i <- load_inode p ;; if inode_no i =? ino then ret (Some p) else find_inode ino l'
  end.

Definition increment_rc (p : Z) : M unit := update_inode p (fun i => set_rc (rc i + 1) i).
Definition decrement_rc (p : Z) : M unit := update_inode p (fun i => set_rc (rc i - 1) i).

Definition inode_get (ino : Z) : M Z :=
  assert (ino >? 0) ;;;
  assert (ino <? sb_num_inodes sblock) ;;;
  l <- gets ilist ;;
  found <- find_inode ino l ;;
  match found with
  | Some p => increment_rc p ;;; inode_lock p ;;; inode_unlock p ;;; ret p
  | None =>
      p <- gets (fun s => kalloc (dom (iheap s))) ;;
      modify (set_iheap (insert p (mkInode (ilock init_inode) (rc init_inode) ino (ivalid init_inode) (entry init_inode)))) ;;;
      increment_rc p ;;;
      modify (set_ilist (fun l => p :: l)) ;;;
      inode_lock p ;;;
      inode_sync None p false ;;;
      inode_unlock p ;;;
      e <- load_entry p ;;
      assert (negb (type e =? INODE_INVALID)) ;;;
      ret p
  end.

Definition inode_share (p : Z) : M Z := increment_rc p ;;; ret p.

Definition init_inodes : M unit :=
  modify (set_ilist (fun _ => [])) ;;;
  when (ROOT_INODE_NO <? sb_num_inodes sblock) (r <- inode_get ROOT_INODE_NO ;; modify (set_iroot r)).

(** ** clear, put *)
Definition clear_direct (ctx : option Z) (p i : Z) : M (option unit) :=
  e <- load_entry p ;;
  a <- elem (addrs e) i ;;
  (if negb (a =? 0) then on_cache (bc_free ctx a) ;;; update_entry p (set_addr i 0) else ret tt) ;;;
  ret None.

Definition clear_indirect (ctx : option Z) (b i : Z) : M (option unit) :=
  d <- on_cache (bc_data b) ;;
  a <- elem (get_addrs d) i ;;
  (if negb (a =? 0) then on_cache (bc_free ctx a) else ret tt) ;;;
  ret None.

Definition inode_clear (ctx : option Z) (p : Z) : M unit :=
  for_upto (Z.to_nat INODE_NUM_DIRECT) 0 (clear_direct ctx p) ;;;
  e <- load_entry p ;;
  (if negb (indirect e =? 0) then
     b <- on_cache (bc_acquire (indirect e)) ;;
     for_upto (Z.to_nat INODE_NUM_INDIRECT) 0 (clear_indirect ctx b) ;;;
     on_cache (bc_release b) ;;;
     on_cache (bc_free ctx (indirect e)) ;;;
     update_entry p (set_indirect 0)
   else ret tt) ;;;
  update_entry p (set_num_bytes 0) ;;;
  inode_sync ctx p true.

Definition inode_put (ctx : option Z) (p : Z) : M unit :=
  i <- load_inode p ;;
  if (rc i =? 1) && (num_links (entry i) =? 0) && ivalid i then
    modify (set_ilist (filter (fun q => q <> p))) ;;;
    inode_lock p ;;;
    inode_clear ctx p ;;;
    update_entry p (set_type INODE_INVALID) ;;;
    inode_sync ctx p true ;;;
    update_inode p (set_valid false) ;;;
    inode_unlock p ;;;
    modify (set_iheap (delete p))
  else decrement_rc p.

(** ** map, read, write *)

(** The block of the file at block offset [offset], and [*modified]. *)
Definition inode_map (ctx : option Z) (p offset : Z) : M (Z * bool) :=
  if offset <? INODE_NUM_DIRECT then
    e <- load_entry p ;;
    a <- elem (addrs e) offset ;;
    modified <- (if a =? 0 then
                   n <- on_cache (bc_alloc ctx) ;;
                   update_entry p (set_addr offset (u32 n)) ;;;
                   ret true
                 else ret false) ;;
    e <- load_entry p ;;
    block_no <- elem (addrs e) offset ;;
    ret (block_no, modified)
  else if offset <? INODE_NUM_DIRECT + INODE_NUM_INDIRECT then
    let offset := offset - INODE_NUM_DIRECT in
    e <- load_entry p ;;
    (if indirect e =? 0 then
       n <- on_cache (bc_alloc ctx) ;; update_entry p (set_indirect (u32 n))
     else ret tt) ;;;
    e <- load_entry p ;;
    b <- on_cache (bc_acquire (indirect e)) ;;
    d <- on_cache (bc_data b) ;;
    a <- elem (get_addrs d) offset ;;
    modified <- (if a =? 0 then
                   n <- on_cache (bc_alloc ctx) ;;
                   on_cache (bc_set_data b (put_addrs (<[Z.to_nat offset := u32 n]> (get_addrs d)))) ;;;
                   on_cache (bc_sync ctx b) ;;;
                   ret true
                 else ret false) ;;
    d <- on_cache (bc_data b) ;;
    block_no <- elem (get_addrs d) offset ;;
    on_cache (bc_release b) ;;;
    ret (block_no, modified)
  else stop Panic.

(** [console_write] and [console_read] (kernel/console.c) on an inode. *)
Definition console_write (p : Z) (src : bytes) (n : Z) : M Z :=
  e <- load_entry p ;;
  assert (type e =? INODE_DEVICE) ;;;
  inode_unlock p ;;;
  (if n <=? Z.of_nat (length src) then on_cons (console_put (take (Z.to_nat n) src)) else stop Fault) ;;;
  inode_lock p ;;;
  ret n.

Definition console_read (p n : Z) : M (Z * bytes) :=
  e <- load_entry p ;;
  assert (type e =? INODE_DEVICE) ;;;
  inode_unlock p ;;;
  res <- on_cons (console_read_from n []) ;;
  match res with
  | Done dst => inode_lock p ;;; ret (Z.of_nat (length dst), dst)
  | Block _ => stop Sleep
  end.

(** One turn of the loop of [inode_read]; [offset], [count] and what has been
    copied to [dest] are the loop's variables. *)
Definition read_turn (p end_ i : Z) (st : Z * Z * bytes) : M (Z * Z * bytes) :=
  let '(offset, count, dest) := st in
  let n := Z.min (u64 (end_ - offset)) (u64 ((i + 1) * BLOCK_SIZE - offset)) in
  mp <- inode_map None p i ;;
  b <- on_cache (bc_acquire mp.1) ;;
  d <- on_cache (bc_data b) ;;
  on_cache (bc_release b) ;;;
  ret (u64 (offset + n), u64 (count + n), dest ++ range (Z.to_nat (offset mod BLOCK_SIZE)) (Z.to_nat n) d).

Definition block_turns (offset end_ : Z) : nat :=
  Z.to_nat (u64 (end_ - 1) / BLOCK_SIZE - offset / BLOCK_SIZE + 1).

(** The bytes stored through [dest] and the value returned. *)
Definition inode_read (p offset count : Z) : M (Z * bytes) :=
  e <- load_entry p ;;
  if type e =? INODE_DEVICE then assert (major e =? 1) ;;; console_read p count
  else
    let count := if u64 (count + offset) >? num_bytes e then u64 (num_bytes e - offset) else count in
    let end_ := u64 (offset + count) in
    assert (offset <=? num_bytes e) ;;;
    assert (end_ <=? num_bytes e) ;;;
    assert (offset <=? end_) ;;;
    if count =? 0 then ret (count, [])
    else
      r <- for_acc (block_turns offset end_) (offset / BLOCK_SIZE) (read_turn p end_) (offset, 0, []) ;;
      let '(_, count, dest) := r in ret (count, dest).

Definition write_turn (ctx : option Z) (p : Z) (src : bytes) (end_ i : Z) (st : Z * Z) : M (Z * Z) :=
  let '(offset, count) := st in
  let n := Z.min (u64 (end_ - offset)) (u64 ((i + 1) * BLOCK_SIZE - offset)) in
  mp <- inode_map ctx p i ;;
  b <- on_cache (bc_acquire mp.1) ;;
  d <- on_cache (bc_data b) ;;
  (if Z.of_nat (length src) <? count + n then stop Fault
   else on_cache (bc_set_data b
          (splice (Z.to_nat (offset mod BLOCK_SIZE)) (range (Z.to_nat count) (Z.to_nat n) src) d))) ;;;
  on_cache (bc_sync ctx b) ;;;
  on_cache (bc_release b) ;;;
  ret (u64 (offset + n), u64 (count + n)).

Definition inode_write (ctx : option Z) (p : Z) (src : bytes) (offset count : Z) : M Z :=
  e <- load_entry p ;;
  let end_ := u64 (offset + count) in
  if type e =? INODE_DEVICE then assert (major e =? 1) ;;; console_write p src count
  else
    assert (offset <=? num_bytes e) ;;;
    assert (end_ <=? INODE_MAX_BYTES) ;;;
    assert (offset <=? end_) ;;;
    r <- for_acc (block_turns offset end_) (offset / BLOCK_SIZE) (write_turn ctx p src end_) (offset, 0) ;;
    e <- load_entry p ;;
    (if end_ >? num_bytes e then
       update_entry p (set_num_bytes (u32 end_)) ;;;
       inode_sync ctx p true
     else ret tt) ;;;
    ret r.2.

(** ** lookup, insert, remove *)

(** [DirEntry de; inode_read(inode, (u8* )&de, offset, sizeof(DirEntry))] *)
Definition read_dirent (p offset : Z) : M DirEntry :=
  r <- inode_read p offset sizeof_DirEntry ;;
  if (length r.2 =? 16)%nat then ret (dirent_of r.2) else stop Fault.

Definition dir_turns (e : InodeEntry) : nat := Z.to_nat ((num_bytes e + sizeof_DirEntry - 1) / sizeof_DirEntry).

(** The inode number and the index; 0 and no index when there is no entry. *)
Definition inode_lookup (p : Z) (nm : bytes) : M (Z * option Z) :=
  e <- load_entry p ;;
  assert (type e =? INODE_DIRECTORY) ;;;
  res <- for_upto (dir_turns e) 0 (fun k =>
    let offset := k * sizeof_DirEntry in
    de <- read_dirent p offset ;;
    if de_inode_no de =? 0 then ret None
    else
      c <- strncmp nm (name de) FILE_NAME_MAX_LENGTH ;;
      ret (if c =? 0 then Some (de_inode_no de, offset) else None)) ;;
  ret (match res with Some (ino, offset) => (ino, Some offset) | None => (0, None) end).

(** -1 (as a [usize]) when the name is taken. *)
Definition inode_insert (ctx : option Z) (p : Z) (nm : bytes) (ino : Z) : M Z :=
  e <- load_entry p ;;
  assert (type e =? INODE_DIRECTORY) ;;;
  l <- inode_lookup p nm ;;
  if negb (l.1 =? 0) then ret (u64 (-1))
  else
    res <- for_upto (dir_turns e) 0 (fun k =>
      let offset := k * sizeof_DirEntry in
      de <- read_dirent p offset ;;
      ret (if de_inode_no de =? 0 then Some offset else None)) ;;
    let offset := default (Z.of_nat (dir_turns e) * sizeof_DirEntry) res in
    (if (length nm <? Z.to_nat FILE_NAME_MAX_LENGTH)%nat then stop Fault
     else inode_write ctx p (dirent_bytes (mkDirent (u16 ino) (take (Z.to_nat FILE_NAME_MAX_LENGTH) nm)))
            offset sizeof_DirEntry) ;;;
    ret offset.

Definition inode_remove (ctx : option Z) (p index : Z) : M unit :=
  assert (index mod sizeof_DirEntry =? 0) ;;;
  e <- load_entry p ;;
  when (index <? num_bytes e)
    (inode_write ctx p (dirent_bytes (mkDirent 0 (replicate 14 0))) index sizeof_DirEntry ;;; ret tt).

(** ** Paths *)
Definition SLASH := 47.

(** The pointer [path] is the rest of the string, terminator included. *)
Fixpoint skip_slashes (path : list Z) : list Z :=
  match path with c :: path' => if c =? SLASH then skip_slashes path' else path | [] => [] end.

Fixpoint skip_name (path : list Z) (len : Z) : Z * list Z :=
  match path with
  | c :: path' => if (c =? SLASH) || (c =? 0) then (len, path) else skip_name path' (len + 1)
  | [] => (len, [])
  end.

(** The rest of the path and the new content of [name]; [None] at the end. *)
Definition skipelem (path nm : list Z) : M (option (list Z * list Z)) :=
  let s := skip_slashes path in
  c <- rd s 0 ;;
  if c =? 0 then ret None
  else
    let '(len, path) := skip_name s 0 in
    rd path 0 ;;;
    let nm := if len >=? FILE_NAME_MAX_LENGTH then take (Z.to_nat FILE_NAME_MAX_LENGTH) s
              else splice 0 (take (Z.to_nat len) s ++ [0]) nm in
    ret (Some (skip_slashes path, nm)).

(** The loop of [namex]: [inl] goes on, [inr] is the result, an inode and the
    content of [name], or NULL. *)
Definition namex_body (ctx : option Z) (nameiparent : bool) (st : Z * list Z * list Z) :
    M ((Z * list Z * list Z) + option (Z * list Z)) :=
  let '(p, path, nm) := st in
  next <- skipelem path nm ;;
  match next with
  | None => ret (inr (Some (p, nm)))
  | Some (path, nm) =>
      inode_lock p ;;;
      e <- load_entry p ;;
      if negb (type e =? INODE_DIRECTORY) then
        inode_unlock p ;;; inode_put ctx p ;;; ret (inr None)
      else
        c <- rd path 0 ;;
        if nameiparent && (c =? 0) then inode_unlock p ;;; ret (inr (Some (p, nm)))
        else
          l <- inode_lookup p nm ;;
          inode_unlock p ;;;
          if l.1 =? 0 then ret (inr None)
          else
            inode_put ctx p ;;;
            p <- inode_get l.1 ;;
            ret (inl (p, path, nm))
  end.

Definition namex (cwd : Z) (path : list Z) (nameiparent : bool) (nm : list Z) (ctx : option Z) :
    M (option (Z * list Z)) :=
  c <- rd path 0 ;;
  root <- gets iroot ;;
  p <- inode_share (if c =? SLASH then root else cwd) ;;
  first <- (if nameiparent then skipelem path nm else ret None) ;;
  if nameiparent && bool_decide (first = None) then ret None
  else while (S (length path)) (namex_body ctx nameiparent)
         (p, path, if nameiparent then default nm (snd <$> first) else nm).

Definition namei (cwd : Z) (path nm : list Z) (ctx : option Z) : M (option Z) :=
  r <- namex cwd path false nm ctx ;; ret (fst <$> r).
Definition nameiparent (cwd : Z) (path nm : list Z) (ctx : option Z) : M (option (Z * list Z)) :=
  namex cwd path true nm ctx.

(** ** stat *)
Definition S_IFREG := 32768.
Definition S_IFDIR := 16384.
Record stat := mkStat { st_dev : Z; st_ino : Z; st_nlink : Z; st_size : Z; st_mode : Z }.

Definition stati (p : Z) : M stat :=
  i <- load_inode p ;;
  let e := entry i in
  mode <- (if type e =? INODE_REGULAR then ret S_IFREG
           else if type e =? INODE_DIRECTORY then ret S_IFDIR
           else if type e =? INODE_DEVICE then ret 0
           else stop Panic) ;;
  ret (mkStat 1 (inode_no i) (num_links e) (num_bytes e) mode).
End code.
