(* ===== verification/InodeFile.v ===== *)
(** * Files as the inode layer lays them out

    The block map of an inode in the blocks of the file system, its
    well-formedness, and how allocating and attaching blocks changes it. *)
From stdpp Require Import base gmap list.
From Stdlib Require Import ZArith Lia.
From S2P Require Import Prelude Bytes Bitmap BCache BlockStore CString Console Inode.

Section file.
Context (sblock : SuperBlock).

Abbreviation bmb := (sb_bitmap_start sblock).
Implicit Types (v : gmap Z bytes) (e : InodeEntry).

(** ** The file system around a file *)
Definition used v (b : Z) : bool := match v !! bmb with Some d => block_bit d b | None => false end.

Definition meta (b : Z) : Prop :=
  b = bmb \/ exists ino, 0 <= ino < sb_num_inodes sblock /\ b = to_block_no sblock ino.

(** Bitmap and inode blocks exist, and whatever the allocator may hand out
    is a block that can be used for data. *)
Record fs_ok v : Prop := {
  fo_bitmap : is_Some (v !! bmb);
  fo_block : forall n d, v !! n = Some d -> block_ok d;
  fo_inode : forall ino, 0 <= ino < sb_num_inodes sblock -> is_Some (v !! to_block_no sblock ino) /\ to_block_no sblock ino <> bmb;
  fo_free : forall n, 0 <= n < SWAP_START -> used v n = false -> is_Some (v !! n) /\ ~ meta n /\ n <> 0
}.

Definition data_block v (b : Z) : Prop :=
  0 < b < BIT_PER_BLOCK /\ used v b = true /\ ~ meta b /\ is_Some (v !! b).

(** ** The block map of a file *)
Definition table v (b : Z) : list Z := match v !! b with Some d => get_addrs d | None => [] end.

Definition blk v e (i : Z) : Z :=
  if i <? INODE_NUM_DIRECT then addrs e !!! Z.to_nat i
  else if indirect e =? 0 then 0 else table v (indirect e) !!! Z.to_nat (i - INODE_NUM_DIRECT).

Record maps_ok v e : Prop := {
  mo_entry : entry_ok e;
  mo_data : forall i, 0 <= i < INODE_MAX_BLOCKS -> blk v e i <> 0 -> data_block v (blk v e i);
  mo_ind : indirect e <> 0 -> data_block v (indirect e);
  mo_inj : forall i j, 0 <= i < INODE_MAX_BLOCKS -> 0 <= j < INODE_MAX_BLOCKS -> blk v e i = blk v e j -> blk v e i <> 0 -> i = j;
  mo_ind_ne : forall i, 0 <= i < INODE_MAX_BLOCKS -> blk v e i <> 0 -> blk v e i <> indirect e
}.

Definition owns v e (b : Z) : Prop :=
  b <> 0 /\ (b = indirect e \/ exists i, 0 <= i < INODE_MAX_BLOCKS /\ blk v e i = b).

Lemma owns_data v e b : maps_ok v e -> owns v e b -> data_block v b.
Proof.
  intros H [Hb [->|(i & Hi & <-)]]; [by apply (mo_ind _ _ H)|by apply (mo_data _ _ H)].
Qed.

Lemma data_not_bmb v b : data_block v b -> b <> bmb.
Proof. intros (_ & _ & Hm & _) ->. apply Hm. by left. Qed.

Lemma data_not_inode v b ino : data_block v b -> 0 <= ino < sb_num_inodes sblock -> b <> to_block_no sblock ino.
Proof. intros (_ & _ & Hm & _) Hi ->. apply Hm. right. eauto. Qed.

(** [blk] only looks at the indirect block. *)
Lemma blk_ext v v' e i : (indirect e <> 0 -> v' !! indirect e = v !! indirect e) -> blk v' e i = blk v e i.
Proof.
  intros H. unfold blk. destruct (i <? INODE_NUM_DIRECT); [done|]. destruct (Z.eqb_spec (indirect e) 0); [done|].
  unfold table. by rewrite H.
Qed.

(** A file is untouched by changes to blocks that are not its own. *)
Lemma maps_frame v v' e :
  maps_ok v e -> (forall b, owns v e b -> v' !! b = v !! b) -> (forall b, 0 <= b -> used v b = true -> used v' b = true) ->
  maps_ok v' e /\ forall i, blk v' e i = blk v e i.
Proof.
  intros H Hv Hu. assert (Hb : forall i, blk v' e i = blk v e i).
  { intros i. apply blk_ext. intros Hi. apply Hv. split; [done|by left]. }
  assert (Hd : forall b, owns v e b -> data_block v' b).
  { intros b Ho. destruct (owns_data v e b H Ho) as (? & ? & ? & ?). split; [done|]. split; [apply Hu; [lia|done]|].
    split; [done|]. by rewrite Hv. }
  split; [|done]. split; [apply H|..].
  - intros i Hi Hne. rewrite Hb. apply Hd. split; [by rewrite <- Hb|]. right. by exists i.
  - intros Hi. apply Hd. split; [done|by left].
  - intros i j Hi Hj. rewrite !Hb. by apply (mo_inj _ _ H).
  - intros i Hi. rewrite Hb. by apply (mo_ind_ne _ _ H).
Qed.

(** ** Allocation *)
Definition alloc_view v (d : bytes) (n : Z) : gmap Z bytes := <[n := zero_block]> (<[bmb := put_bit true n d]> v).

Lemma bmb_bounds : 0 <= SWAP_START <= BIT_PER_BLOCK.
Proof. unfold SWAP_START, BIT_PER_BLOCK, BLOCK_SIZE. lia. Qed.

Section alloc.
Context (v : gmap Z bytes) (d : bytes) (n : Z).
Context (Hfs : fs_ok v) (Hd : v !! bmb = Some d) (Hn : first_free d n).

Lemma alloc_free : used v n = false.
Proof. unfold used. rewrite Hd. apply Hn. Qed.

Lemma alloc_ne_bmb : n <> bmb.
Proof.
  destruct (fo_free _ Hfs n) as (_ & Hm & _); [apply Hn|apply alloc_free|]. intros ->. apply Hm. by left.
Qed.

Lemma alloc_used m : 0 <= m -> used (alloc_view v d n) m = (m =? n) || used v m.
Proof.
  intros Hm. unfold used, alloc_view. rewrite lookup_insert_ne, lookup_insert_eq, Hd by apply alloc_ne_bmb.
  pose proof bmb_bounds. destruct Hn as (? & _ & _).
  destruct (put_bit_spec true n d) as (_ & _ & Hb); [by eapply (fo_block _ Hfs)|lia|].
  rewrite Hb by done. by destruct (m =? n).
Qed.

Lemma alloc_other m : m <> n -> m <> bmb -> alloc_view v d n !! m = v !! m.
Proof. intros H1 H2. unfold alloc_view. by rewrite !lookup_insert_ne. Qed.

Lemma alloc_fs_ok : fs_ok (alloc_view v d n).
Proof.
  pose proof bmb_bounds. destruct Hn as (Hnb & _ & _).
  assert (Hsome : forall m, is_Some (v !! m) -> is_Some (alloc_view v d n !! m)).
  { intros m Hm. unfold alloc_view. apply lookup_insert_is_Some'. right. apply lookup_insert_is_Some'. by right. }
  split.
  - apply Hsome, Hfs.
  - unfold alloc_view. intros m dm [[<- <-]|[_ [[<- <-]|[_ Hm]]%lookup_insert_Some]]%lookup_insert_Some.
    + apply zero_block_ok.
    + apply put_bit_spec; [by eapply (fo_block _ Hfs)|lia].
    + by eapply (fo_block _ Hfs).
  - intros ino Hi. destruct (fo_inode _ Hfs ino Hi). split; [by apply Hsome|done].
  - intros m Hm Hu. rewrite alloc_used in Hu by lia. apply orb_false_iff in Hu as [_ Hu].
    destruct (fo_free _ Hfs m Hm Hu) as (? & ? & ?). split; [by apply Hsome|done].
Qed.

Lemma alloc_data : data_block (alloc_view v d n) n.
Proof.
  pose proof bmb_bounds. pose proof Hn as (Hnb & _ & _).
  destruct (fo_free _ Hfs n) as (_ & Hm & H0); [done|apply alloc_free|].
  split; [lia|]. split; [rewrite alloc_used by lia; by rewrite Z.eqb_refl|]. split; [done|].
  unfold alloc_view. rewrite lookup_insert_eq. eauto.
Qed.

Lemma alloc_old b : data_block v b -> data_block (alloc_view v d n) b /\ alloc_view v d n !! b = v !! b /\ b <> n.
Proof.
  intros (Hb & Hu & Hm & Hs). assert (Hne : b <> n) by (intros ->; by rewrite alloc_free in Hu).
  assert (Hnb : b <> bmb) by (intros ->; apply Hm; by left).
  rewrite alloc_other by done. split; [|done]. split; [done|]. split; [|split; [done|by rewrite alloc_other]].
  rewrite alloc_used by lia. by rewrite Hu, orb_true_r.
Qed.

Lemma alloc_maps e : maps_ok v e -> maps_ok (alloc_view v d n) e /\ (forall i, blk (alloc_view v d n) e i = blk v e i) /\
  ~ owns (alloc_view v d n) e n.
Proof.
  intros H. destruct (maps_frame v (alloc_view v d n) e H) as [H' Hb].
  - intros b Ho. by apply alloc_old, (owns_data v e).
  - intros b Hb Hu. rewrite alloc_used, Hu by done. by rewrite orb_true_r.
  - split; [done|]. split; [done|]. intros [Hn0 Ho].
    assert (owns v e n) as Ho'%owns_data; [|by apply alloc_old in Ho' as (_ & _ & ?)|done].
    split; [done|]. destruct Ho as [?|(i & Hi & E)]; [by left|right]. exists i. by rewrite <- Hb.
Qed.
End alloc.

(** ** Attaching a fresh block *)
Lemma addrs_length v e : maps_ok v e -> length (addrs e) = 12%nat.
Proof. intros H. apply (mo_entry _ _ H). Qed.

Lemma word4 b : 0 < b < BIT_PER_BLOCK -> word_ok 4 b /\ u32 b = b.
Proof.
  unfold BIT_PER_BLOCK, BLOCK_SIZE, word_ok, u32. intros Hb. change (256 ^ Z.of_nat 4) with 4294967296.
  split; [lia|]. apply wrapu_small. lia.
Qed.

(** The maps of [e] with slot [i], so far empty, set to [n]. *)
Lemma maps_attach v e v' e' i n :
  maps_ok v e -> entry_ok e' -> indirect e' = indirect e -> data_block v' n -> ~ owns v e n ->
  (forall b, owns v e b -> data_block v' b) ->
  (forall j, 0 <= j < INODE_MAX_BLOCKS -> blk v' e' j = if j =? i then n else blk v e j) ->
  maps_ok v' e'.
Proof.
  intros H He Hi Hn Hno Hd Hb.
  assert (Hown : forall j, 0 <= j < INODE_MAX_BLOCKS -> blk v e j <> 0 -> owns v e (blk v e j)).
  { intros j Hj Hne. split; [done|]. right. by exists j. }
  split; [done|..].
  - intros j Hj. rewrite Hb by done. destruct (j =? i); [done|]. auto.
  - rewrite Hi. intros H0. apply Hd. split; [done|by left].
  - intros j k Hj Hk. rewrite !Hb by done. destruct (Z.eqb_spec j i) as [->|], (Z.eqb_spec k i) as [->|]; try done.
    + intros E Hne. destruct Hno. rewrite E. apply Hown; [done|congruence].
    + intros E Hne. destruct Hno. rewrite <- E. by apply Hown.
    + by apply (mo_inj _ _ H).
  - intros j Hj. rewrite Hb, Hi by done. destruct (Z.eqb_spec j i) as [->|]; [|by apply (mo_ind_ne _ _ H)].
    intros Hne ->. apply Hno. split; [done|by left].
Qed.

Lemma entry_set_addr e i n : entry_ok e -> word_ok 4 n -> entry_ok (set_addr i n e).
Proof.
  intros (H1 & H2 & H3 & H4 & H5 & H6 & H7 & H8) Hn. unfold entry_ok, set_addr. cbn.
  rewrite length_insert. repeat (split; [done|]). split; [by apply Forall_insert|done].
Qed.

Lemma attach_direct v e i n :
  maps_ok v e -> data_block v n -> ~ owns v e n -> 0 <= i < INODE_NUM_DIRECT ->
  maps_ok v (set_addr i n e) /\
  forall j, 0 <= j < INODE_MAX_BLOCKS -> blk v (set_addr i n e) j = if j =? i then n else blk v e j.
Proof.
  intros H Hn Hno Hi. pose proof (addrs_length v e H) as Hl. unfold INODE_NUM_DIRECT in Hi.
  assert (Hb : forall j, 0 <= j < INODE_MAX_BLOCKS -> blk v (set_addr i n e) j = if j =? i then n else blk v e j).
  { intros j Hj. unfold blk, INODE_NUM_DIRECT. simpl. destruct (Z.ltb_spec j 12).
    - destruct (Z.eqb_spec j i) as [->|Hne]; [apply list_lookup_total_insert_eq; lia|].
      apply list_lookup_total_insert_ne. lia.
    - by rewrite (proj2 (Z.eqb_neq j i)) by lia. }
  split; [|done]. eapply (maps_attach v e v _ i n); try done.
  - apply entry_set_addr; [apply H|]. apply word4, Hn.
  - intros b. by apply owns_data.
Qed.

Lemma get_addrs_put (l : list Z) : length l = 128%nat -> Forall (word_ok 4) l -> get_addrs (put_addrs l) = l.
Proof.
  intros Hl Hw. unfold get_addrs, put_addrs. change (Z.to_nat INODE_NUM_INDIRECT) with 128%nat.
  rewrite <- Hl, <- (app_nil_r (unwords 4 l)). by apply words_unwords.
Qed.

Lemma get_addrs_ok d : block_ok d -> length (get_addrs d) = 128%nat /\ Forall (word_ok 4) (get_addrs d).
Proof.
  intros [Hl Hb]. unfold get_addrs. change (Z.to_nat INODE_NUM_INDIRECT) with 128%nat.
  split; [apply words_length|]. apply words_ok; [done|]. by rewrite Hl.
Qed.

Lemma put_addrs_ok (l : list Z) : length l = 128%nat -> block_ok (put_addrs l).
Proof. intros Hl. unfold put_addrs. split; [by rewrite unwords_length, Hl|apply unwords_ok]. Qed.

(** The indirect block [d] with entry [i] set to [n]. *)
Definition table_set (i n : Z) (d : bytes) : bytes := put_addrs (<[Z.to_nat i := n]> (get_addrs d)).

Lemma table_set_spec i n d :
  block_ok d -> word_ok 4 n -> block_ok (table_set i n d) /\ get_addrs (table_set i n d) = <[Z.to_nat i := n]> (get_addrs d).
Proof.
  intros Hd Hn. destruct (get_addrs_ok d Hd) as [Hl Hw]. split.
  - apply put_addrs_ok. by rewrite length_insert.
  - apply get_addrs_put; [by rewrite length_insert|by apply Forall_insert].
Qed.

Lemma attach_indirect v e i n d :
  fs_ok v -> maps_ok v e -> data_block v n -> ~ owns v e n -> INODE_NUM_DIRECT <= i < INODE_MAX_BLOCKS -> indirect e <> 0 ->
  v !! indirect e = Some d ->
  let v' := <[indirect e := table_set (i - INODE_NUM_DIRECT) n d]> v in
  maps_ok v' e /\ forall j, 0 <= j < INODE_MAX_BLOCKS -> blk v' e j = if j =? i then n else blk v e j.
Proof.
  intros Hfs H Hn Hno Hi H0 Hd v'. change INODE_MAX_BLOCKS with 140 in *. change INODE_NUM_DIRECT with 12 in *.
  pose proof (word4 n ltac:(apply Hn)) as [Hw _].
  destruct (table_set_spec (i - 12) n d) as [_ Et]; [by eapply (fo_block _ Hfs)|done|].
  destruct (get_addrs_ok d) as [Hl _]; [by eapply (fo_block _ Hfs)|].
  assert (Hb : forall j, 0 <= j < 140 -> blk v' e j = if j =? i then n else blk v e j).
  { intros j Hj. unfold blk, table, v'. change INODE_NUM_DIRECT with 12. rewrite lookup_insert_eq, Hd, Et.
    destruct (Z.ltb_spec j 12).
    - by rewrite (proj2 (Z.eqb_neq j i)) by lia.
    - rewrite (proj2 (Z.eqb_neq _ _)) by done. destruct (Z.eqb_spec j i) as [->|Hne].
      + apply list_lookup_total_insert_eq. rewrite Hl. lia.
      + apply list_lookup_total_insert_ne. lia. }
  assert (Hbm : indirect e <> bmb) by (apply (data_not_bmb v), (mo_ind _ _ H H0)).
  assert (Hdb : forall b, data_block v b -> data_block v' b).
  { intros b (? & Hu & ? & ?). split; [done|]. split; [|split; [done|]].
    - unfold used, v' in *. by rewrite lookup_insert_ne.
    - apply lookup_insert_is_Some'. by right. }
  split; [|done]. eapply (maps_attach v e v' e i n); try done.
  - apply H.
  - by apply Hdb.
  - intros b Ho. by apply Hdb, (owns_data v e).
Qed.

(** A fresh indirect block is an empty table. *)
Lemma table_zero : get_addrs zero_block = replicate 128 0.
Proof. vm_compute. reflexivity. Qed.

Lemma attach_table v e n :
  maps_ok v e -> data_block v n -> ~ owns v e n -> indirect e = 0 -> v !! n = Some zero_block ->
  maps_ok v (set_indirect n e) /\ forall j, 0 <= j < INODE_MAX_BLOCKS -> blk v (set_indirect n e) j = blk v e j.
Proof.
  intros H Hn Hno H0 Hz.
  assert (Hb : forall j, 0 <= j < INODE_MAX_BLOCKS -> blk v (set_indirect n e) j = blk v e j).
  { change INODE_MAX_BLOCKS with 140. intros j Hj. unfold blk, set_indirect. change INODE_NUM_DIRECT with 12. simpl.
    rewrite H0, Z.eqb_refl. destruct (Z.ltb_spec j 12); [done|].
    destruct (n =? 0); [done|]. unfold table. rewrite Hz, table_zero. apply lookup_total_replicate_2. lia. }
  split; [|done]. destruct (mo_entry _ _ H) as (H1 & H2 & H3 & H4 & H5 & H6 & H7 & H8). split.
  - repeat (split; [done|]). apply word4, Hn.
  - intros i Hi. rewrite Hb by done. by apply (mo_data _ _ H).
  - done.
  - intros i j Hi Hj. rewrite !Hb by done. by apply (mo_inj _ _ H).
  - intros i Hi Hne E. rewrite Hb in * by done. simpl in E. apply Hno. split; [congruence|]. right. by exists i.
Qed.
End file.
