(* ===== verification/InodeMap.v ===== *)
(** * [inode_map] (fs/inode.c) finds or allocates the block of an offset *)
From stdpp Require Import base gmap list.
From Stdlib Require Import ZArith Lia.
From S2P Require Import Prelude Bytes Bitmap BCache BlockStore CString Console Inode InodeFile.

(** ** Free blocks *)
Definition free_blocks (sblock : SuperBlock) (v : gmap Z bytes) : list Z :=
  filter (fun n => used sblock v n = false) (Z.of_nat <$> seq 0 (Z.to_nat SWAP_START)).
Definition free_count (sblock : SuperBlock) (v : gmap Z bytes) : Z := Z.of_nat (length (free_blocks sblock v)).

Lemma filter_ext_in {A} (P Q : A -> Prop) `{!forall x, Decision (P x)} `{!forall x, Decision (Q x)} (l : list A) :
  (forall x, x ∈ l -> P x <-> Q x) -> filter P l = filter Q l.
Proof.
  induction l as [|x l IH]; intros Hl; [done|]. pose proof (Hl x ltac:(by left)) as Hx.
  rewrite !filter_cons, IH by (intros y Hy; apply Hl; by right).
  destruct (decide (P x)), (decide (Q x)); tauto.
Qed.

Section map.
Context {St : Type} {BC : BlockCache St} (sblock : SuperBlock) {BL : BlockCacheLaws St sblock}.

Abbreviation bmb := (sb_bitmap_start sblock).
Abbreviation used := (used sblock).
Abbreviation fs_ok := (fs_ok sblock).
Abbreviation maps_ok := (maps_ok sblock).
Abbreviation data_block := (data_block sblock).
Implicit Types (v : gmap Z bytes) (e : InodeEntry) (s : ist St) (X : gset Z).

Lemma elem_of_free v n : n ∈ free_blocks sblock v <-> 0 <= n < SWAP_START /\ used v n = false.
Proof.
  unfold free_blocks. rewrite list_elem_of_filter, list_elem_of_fmap. split.
  - intros (Hu & i & -> & Hi%elem_of_seq). unfold SWAP_START in *. split; [lia|done].
  - intros [Hn Hu]. split; [done|]. exists (Z.to_nat n). rewrite elem_of_seq. unfold SWAP_START in *. lia.
Qed.

Lemma NoDup_free v : NoDup (free_blocks sblock v).
Proof. apply NoDup_filter, (NoDup_fmap_2 _), NoDup_seq. Qed.

Lemma find_free (d : bytes) m :
  (exists n, 0 <= n < Z.of_nat m /\ block_bit d n = false) ->
  exists n, 0 <= n < Z.of_nat m /\ block_bit d n = false /\ forall j, 0 <= j < n -> block_bit d j = true.
Proof.
  induction m as [|m IH]; intros (n & Hn & Hf); [lia|].
  destruct (decide (Exists (fun j => block_bit d (Z.of_nat j) = false) (seq 0 m))) as [Hex|Hno].
  - apply Exists_exists in Hex as (j & Hj%elem_of_seq & Hjf).
    destruct IH as (k & Hk & ? & ?); [exists (Z.of_nat j); split; [lia|done]|]. exists k. split; [lia|done].
  - assert (Hall : forall j, 0 <= j < Z.of_nat m -> block_bit d j = true).
    { intros j Hj. apply not_false_iff_true. intros Hjf. apply Hno, Exists_exists. exists (Z.to_nat j).
      rewrite elem_of_seq, Z2Nat.id by lia. split; [lia|done]. }
    exists n. split; [done|]. split; [done|]. intros j Hj. apply Hall.
    destruct (decide (n = Z.of_nat m)); [lia|]. rewrite Hall in Hf by lia. done.
Qed.

Lemma free_first v d : v !! bmb = Some d -> 0 < free_count sblock v -> exists n, first_free d n.
Proof.
  intros Hd Hc. unfold free_count in Hc. destruct (free_blocks sblock v) as [|n l] eqn:E; [simpl in Hc; lia|].
  assert (Hin : n ∈ free_blocks sblock v) by (rewrite E; by left).
  apply elem_of_free in Hin as [Hn Hu]. unfold InodeFile.used in Hu. rewrite Hd in Hu.
  destruct (find_free d (Z.to_nat SWAP_START)) as (k & Hk & ? & ?); [exists n; unfold SWAP_START in *; split; [lia|done]|].
  exists k. unfold first_free, SWAP_START in *. split; [lia|done].
Qed.

Lemma alloc_count v d n :
  fs_ok v -> v !! bmb = Some d -> first_free d n ->
  free_count sblock (alloc_view sblock v d n) = free_count sblock v - 1.
Proof.
  intros Hfs Hd Hn.
  assert (E : free_blocks sblock (alloc_view sblock v d n) = filter (fun b => b <> n) (free_blocks sblock v)).
  { unfold free_blocks. rewrite list_filter_filter. apply filter_ext_in. intros b (i & -> & _)%list_elem_of_fmap.
    rewrite (alloc_used sblock v d n) by (done || lia). destruct (Z.eqb_spec (Z.of_nat i) n); simpl; [|tauto].
    split; [done|]. tauto. }
  assert (Hin : n ∈ free_blocks sblock v).
  { apply elem_of_free. split; [apply Hn|]. by apply (alloc_free sblock v d n). }
  unfold free_count. rewrite E. pose proof (length_filter_ne n _ (NoDup_free v) Hin). lia.
Qed.

(** ** Stepping through the cache *)
Lemma on_cache_Ret {A} (m : M St A) s (x : A) c : m (cache s) = Ret (x, c) -> on_cache m s = Ret (x, set_cache c s).
Proof. apply zoom_Ret. Qed.

Lemma load_entry_Ret s p ip : iheap s !! p = Some ip -> load_entry p s = Ret (entry ip, s).
Proof. intros H. unfold load_entry, load_inode, bind. by rewrite H. Qed.

Lemma update_entry_Ret s p ip f :
  iheap s !! p = Some ip -> update_entry p f s = Ret (tt, set_iheap (insert p (set_entry (f (entry ip)) ip)) s).
Proof. intros H. unfold update_entry, update_inode. by rewrite H. Qed.

Lemma elem_Ret (l : list Z) i s : (Z.to_nat i < length l)%nat -> elem (St := St) l i s = Ret (l !!! Z.to_nat i, s).
Proof.
  intros Hi. unfold elem. destruct (lookup_lt_is_Some_2 l (Z.to_nat i) Hi) as [x Hx].
  rewrite Hx. by rewrite (list_lookup_total_correct _ _ _ Hx).
Qed.

(** Allocation while at most the indirect block is held. *)
Definition alloc_store (d : bytes) (n : Z) (a : store) : store :=
  a_put n zero_block (a_put bmb (put_bit true n d) a).

Lemma alloc_fresh c cs a a0 X :
  abs c cs a -> fs_ok (st_view a) -> (forall b, is_Some (st_held a !! b) -> data_block (st_view a) b) ->
  0 < free_count sblock (st_view a) -> spent a0 X a -> bmb ∈ X -> Z.of_nat (size X) + 1 <= st_budget a0 ->
  exists n d cs', st_view a !! bmb = Some d /\ first_free d n /\
    bc_alloc (Some c) cs = Ret (n, cs') /\ abs c cs' (alloc_store d n a) /\ spent a0 ({[n]} ∪ X) (alloc_store d n a).
Proof.
  intros H Hfs Hh Hf Hs Hb Hx. destruct (fo_bitmap _ _ Hfs) as [d Hd].
  destruct (free_first _ d Hd Hf) as [n Hn]. exists n, d.
  assert (Hnot : forall b, ~ data_block (st_view a) b -> st_held a !! b = None).
  { intros b Hb'. apply eq_None_not_Some. intros Hs'. by apply Hb', Hh. }
  destruct (fo_free _ _ Hfs n) as (Hsn & _ & _); [apply Hn|by apply (alloc_free sblock _ d n)|].
  assert (HX : Z.of_nat (size ({[n]} ∪ X)) <= st_budget a0).
  { assert (size ({[n]} ∪ X) <= 1 + size X)%nat; [|lia].
    rewrite size_union_alt, size_singleton. apply Nat.add_le_mono_l, subseteq_size. set_solver. }
  assert (Hs' : spent a0 ({[n]} ∪ X) a) by (eapply spent_mono; [done|set_solver]).
  assert (Hs1 : spent a0 ({[n]} ∪ X) (a_put bmb (put_bit true n d) a)) by (apply spent_put; [done|set_solver]).
  destruct (alloc_law c cs a d n H Hd) as (cs' & E & H'); try done.
  - apply Hnot. intros Hdb%data_not_bmb. done.
  - apply Hnot. intros Hdb. by apply (alloc_old sblock _ d n) in Hdb as (_ & _ & ?).
  - by apply (alloc_ne_bmb sblock (st_view a) d n).
  - eapply spent_syncable; [done| |done]. set_solver.
  - eapply spent_syncable; [done| |done]. set_solver.
  - exists cs'. do 4 (split; [done|]). apply spent_put; [done|set_solver].
Qed.

(** ** What [inode_map] does to a file *)
Definition same_fields e e' : Prop :=
  type e' = type e /\ major e' = major e /\ minor e' = minor e /\ num_links e' = num_links e /\ num_bytes e' = num_bytes e.

Record mapped v e v' e' (i b : Z) : Prop := {
  mp_fs : fs_ok v';
  mp_maps : maps_ok v' e';
  mp_fields : same_fields e e';
  mp_blk : forall j, 0 <= j < INODE_MAX_BLOCKS -> blk v' e' j = if j =? i then b else blk v e j;
  mp_b : b <> 0;
  mp_old : blk v e i <> 0 -> b = blk v e i /\ v' !! b = v !! b;
  mp_new : blk v e i = 0 -> v' !! b = Some zero_block /\ used v b = false;
  mp_ind : indirect e <> 0 -> indirect e' = indirect e;
  mp_direct : i < INODE_NUM_DIRECT -> indirect e' = indirect e;
  mp_table : INODE_NUM_DIRECT <= i -> indirect e' <> 0;
  mp_frame : forall m, m <> bmb -> (m = indirect e' -> m = 0) -> m <> b -> v' !! m = v !! m;
  mp_used : forall m, 0 <= m -> used v m = true -> used v' m = true;
  mp_owns : forall m, owns v' e' m -> owns v e m \/ used v m = false
}.

Lemma mapped_hit v e i :
  fs_ok v -> maps_ok v e -> blk v e i <> 0 -> mapped v e v e i (blk v e i).
Proof.
  intros Hfs H Hb. split; try done; [| |tauto].
  - intros j Hj. destruct (Z.eqb_spec j i) as [->|]; done.
  - intros Hi H0. apply Hb. unfold blk. by rewrite (proj2 (Z.ltb_ge _ _)), H0 by lia.
Qed.

(** The block is there: nothing changes. *)
Lemma map_hit ctx (R : St -> Prop) v s p ip i :
  reader R v -> R (cache s) -> iheap s !! p = Some ip ->
  maps_ok v (entry ip) -> 0 <= i < INODE_MAX_BLOCKS -> blk v (entry ip) i <> 0 ->
  exists cs, inode_map ctx p i s = Ret ((blk v (entry ip) i, false), set_cache cs s) /\ R cs.
Proof.
  intros Hread H Hp Hm Hi Hb. pose proof (addrs_length sblock _ _ Hm) as Hl. unfold inode_map.
  pose proof (load_entry_Ret s p ip Hp) as El. unfold blk in Hb |- *.
  destruct (Z.ltb_spec i INODE_NUM_DIRECT) as [Hid|Hid].
  - exists (cache s). rewrite (bind_Ret _ _ _ _ _ El). change INODE_NUM_DIRECT with 12 in *.
    assert (Ee : elem (addrs (entry ip)) i s = Ret (addrs (entry ip) !!! Z.to_nat i, s)) by (apply elem_Ret; lia).
    rewrite (bind_Ret _ _ _ _ _ Ee), (proj2 (Z.eqb_neq _ _)) by done.
    erewrite bind_Ret by reflexivity. rewrite (bind_Ret _ _ _ _ _ El), (bind_Ret _ _ _ _ _ Ee).
    split; [by destruct s|done].
  - destruct (Z.eqb_spec (indirect (entry ip)) 0) as [|H0]; [done|].
    destruct (mo_ind _ _ _ Hm H0) as (_ & _ & _ & [d Hd]).
    destruct (Hread (cache s) _ d H Hd) as (q & s1 & s2 & E1 & E2 & E3 & H2).
    assert (Htab : length (get_addrs d) = 128%nat) by apply words_length.
    unfold table in *. rewrite Hd in *. change (INODE_NUM_DIRECT + INODE_NUM_INDIRECT) with 140.
    change INODE_MAX_BLOCKS with 140 in Hi. change INODE_NUM_DIRECT with 12 in *.
    rewrite (proj2 (Z.ltb_lt _ _)) by lia. cbv zeta. exists s2. split; [|done].
    rewrite (bind_Ret _ _ _ _ _ El), (proj2 (Z.eqb_neq _ _)) by done. erewrite bind_Ret by reflexivity.
    rewrite (bind_Ret _ _ _ _ _ El). erewrite bind_Ret by (apply on_cache_Ret; exact E1).
    erewrite bind_Ret by (apply on_cache_Ret; exact E2). erewrite bind_Ret by (apply elem_Ret; lia).
    rewrite (proj2 (Z.eqb_neq _ _)) by done. erewrite bind_Ret by reflexivity.
    erewrite bind_Ret by (apply on_cache_Ret; exact E2). erewrite bind_Ret by (apply elem_Ret; lia).
    erewrite bind_Ret by (apply on_cache_Ret; exact E3). done.
Qed.

(** The outcome of a call that allocates, [k] blocks more than one. *)
Definition map_result c a0 X s a p ip i (k : Z) : Prop :=
  exists b e' a' cs,
    inode_map (Some c) p i s = Ret ((b, true), set_iheap (insert p (set_entry e' ip)) (set_cache cs s)) /\
    abs c cs a' /\ st_held a' = ∅ /\ st_dirty a' = ∅ /\
    mapped (st_view a) (entry ip) (st_view a') e' i b /\
    spent a0 ({[b]} ∪ (if INODE_NUM_DIRECT <=? i then {[indirect e']} else ∅) ∪ X) a' /\
    free_count sblock (st_view a') = free_count sblock (st_view a) - 1 - k.

Lemma alloc_store_plain d n a :
  st_held (alloc_store d n a) = st_held a /\ (st_dirty a = ∅ -> st_dirty (alloc_store d n a) = ∅) /\
  st_view (alloc_store d n a) = alloc_view sblock (st_view a) d n.
Proof. split; [done|]. split; [simpl; intros ->; set_solver|done]. Qed.

Lemma alloc_u32 v d n : fs_ok v -> v !! bmb = Some d -> first_free d n -> u32 n = n /\ 0 < n < BIT_PER_BLOCK.
Proof.
  intros Hfs Hd Hn. destruct (alloc_data sblock v d n Hfs Hd Hn) as (Hb & _). split; [by apply word4|done].
Qed.

Lemma set_iheap_entry s p ip e' : iheap s !! p = Some ip ->
  iheap (set_iheap (insert p (set_entry e' ip)) s) !! p = Some (set_entry e' ip).
Proof. intros _. simpl. apply lookup_insert_eq. Qed.

Lemma set_entry_same s p ip cs : iheap s !! p = Some ip ->
  set_iheap (insert p (set_entry (entry ip) ip)) (set_cache cs s) = set_cache cs s.
Proof. intros Hp. unfold set_iheap, set_cache. simpl. f_equal. apply insert_id. rewrite Hp. by destruct ip. Qed.

(** The three ways a slot is filled, on the view of the disk. *)
Lemma mapped_direct v e d n i :
  fs_ok v -> maps_ok v e -> v !! bmb = Some d -> first_free d n -> 0 <= i < INODE_NUM_DIRECT -> blk v e i = 0 ->
  mapped v e (alloc_view sblock v d n) (set_addr i n e) i n.
Proof.
  intros Hfs Hm Hd Hn Hi Hb. destruct (alloc_maps sblock v d n Hfs Hd Hn e Hm) as (Hm1 & Hb1 & Hno).
  pose proof (alloc_data sblock v d n Hfs Hd Hn) as Hdn. pose proof Hdn as (Hn0 & _).
  destruct (attach_direct sblock _ _ i n Hm1 Hdn Hno Hi) as (Hm2 & Hb2). split; try done.
  - by apply alloc_fs_ok.
  - intros j Hj. rewrite Hb2 by done. by rewrite Hb1.
  - lia.
  - intros _. split; [apply lookup_insert_eq|]. by apply (alloc_free sblock _ d n).
  - lia.
  - intros m H1 H2 H3. by apply alloc_other.
  - intros m H0 Hum. rewrite alloc_used, Hum by done. by rewrite orb_true_r.
  - intros m [Hm0 Ho]. destruct (decide (m = n)) as [->|Hmn]; [right; by apply (alloc_free sblock _ d n)|left].
    split; [done|]. destruct Ho as [->|(j & Hj & <-)]; [by left|right]. exists j. split; [done|].
    rewrite Hb2, Hb1 by done. destruct (Z.eqb_spec j i) as [->|]; [|done]. rewrite Hb2, Z.eqb_refl in Hmn by done. done.
Qed.

Lemma mapped_table v e d n i t :
  fs_ok v -> maps_ok v e -> v !! bmb = Some d -> first_free d n -> INODE_NUM_DIRECT <= i < INODE_MAX_BLOCKS ->
  indirect e <> 0 -> v !! indirect e = Some t -> blk v e i = 0 ->
  mapped v e (<[indirect e := table_set (i - INODE_NUM_DIRECT) n t]> (alloc_view sblock v d n)) e i n.
Proof.
  intros Hfs Hm Hd Hn Hi H0 Ht Hb. set (ind := indirect e) in *.
  assert (Hind : data_block v ind) by exact (mo_ind _ _ _ Hm H0).
  destruct (alloc_maps sblock _ d n Hfs Hd Hn _ Hm) as (Hm1 & Hb1 & Hno).
  pose proof (alloc_data sblock _ d n Hfs Hd Hn) as Hdn. pose proof Hdn as (Hn0 & _).
  pose proof (alloc_fs_ok sblock _ d n Hfs Hd Hn) as Hfs1.
  destruct (alloc_old sblock _ d n Hfs Hd Hn ind Hind) as (Hind1 & Hti & Hne). rewrite Ht in Hti.
  destruct (attach_indirect sblock _ e i n t Hfs1 Hm1 Hdn Hno Hi H0 Hti) as (Hm2 & Hb2). fold ind in Hm2, Hb2.
  assert (Hok : block_ok t) by by eapply (fo_block _ _ Hfs).
  destruct (table_set_spec (i - INODE_NUM_DIRECT) n t Hok) as [Hok' Et]; [by apply word4|].
  assert (Hbm : ind <> bmb) by by apply (data_not_bmb sblock v).
  assert (Hui : forall m, used (<[ind := table_set (i - INODE_NUM_DIRECT) n t]> (alloc_view sblock v d n)) m = used (alloc_view sblock v d n) m).
  { intros m. unfold InodeFile.used. by rewrite lookup_insert_ne. }
  split; simpl; try done.
  - split.
    + apply lookup_insert_is_Some'. right. apply Hfs1.
    + intros m dm [[<- <-]|[_ Hdm]]%lookup_insert_Some; [done|]. by eapply (fo_block _ _ Hfs1).
    + intros ino Hino. destruct (fo_inode _ _ Hfs1 ino Hino). split; [apply lookup_insert_is_Some'; by right|done].
    + intros m Hm'. rewrite Hui. intros Hum. destruct (fo_free _ _ Hfs1 m Hm' Hum) as (? & ? & ?).
      split; [apply lookup_insert_is_Some'; by right|done].
  - intros j Hj. rewrite Hb2 by done. by rewrite Hb1.
  - lia.
  - intros _. rewrite lookup_insert_ne by done. split; [apply lookup_insert_eq|]. by apply (alloc_free sblock _ d n).
  - intros m Hm1' Hm2' Hm3'. fold ind in Hm2'. rewrite lookup_insert_ne by (intros <-; tauto). by apply (alloc_other sblock v d n).
  - intros m Hm0 Hum. rewrite Hui, (alloc_used sblock v), Hum by done. by rewrite orb_true_r.
  - intros m [Hm0 Ho]. destruct (decide (m = n)) as [->|Hmn]; [right; by apply (alloc_free sblock _ d n)|left].
    split; [done|]. destruct Ho as [->|(j & Hj & <-)]; [by left|right]. exists j. split; [done|].
    rewrite Hb2, Hb1 by done. destruct (Z.eqb_spec j i) as [->|]; [|done]. rewrite Hb2, Z.eqb_refl in Hmn by done. done.
Qed.

(** An indirect block first, then as if it had been there. *)
Lemma mapped_first v e d n v' e' i b :
  fs_ok v -> maps_ok v e -> v !! bmb = Some d -> first_free d n -> INODE_NUM_DIRECT <= i < INODE_MAX_BLOCKS -> indirect e = 0 ->
  mapped (alloc_view sblock v d n) (set_indirect n e) v' e' i b -> mapped v e v' e' i b /\ indirect e' = n.
Proof.
  intros Hfs Hm Hd Hn Hi H0 Hmp. destruct (alloc_maps sblock _ d n Hfs Hd Hn _ Hm) as (Hm1 & Hb1 & Hno).
  pose proof (alloc_data sblock _ d n Hfs Hd Hn) as Hdn. pose proof Hdn as (Hn0 & _).
  destruct (attach_table sblock _ _ n Hm1 Hdn Hno H0) as (Hm2 & Hb2); [apply lookup_insert_eq|].
  assert (Hi140 : 0 <= i < INODE_MAX_BLOCKS) by (change INODE_NUM_DIRECT with 12 in Hi; lia).
  assert (Hie : indirect e' = n) by (apply (mp_ind _ _ _ _ _ _ Hmp); simpl; lia).
  assert (Hblk : forall j, 0 <= j < INODE_MAX_BLOCKS -> blk (alloc_view sblock v d n) (set_indirect n e) j = blk v e j).
  { intros j Hj. by rewrite Hb2, Hb1. }
  assert (Hb0 : blk v e i = 0) by (unfold blk; rewrite (proj2 (Z.ltb_ge _ _)), H0 by lia; done).
  assert (Hfree : forall m, 0 <= m -> used (alloc_view sblock v d n) m = false -> used v m = false).
  { intros m Hm0. rewrite alloc_used by done. by intros [_ ?]%orb_false_iff. }
  assert (Hbpos : 0 <= b).
  { destruct (mo_data _ _ _ (mp_maps _ _ _ _ _ _ Hmp) i Hi140) as [? _];
      rewrite (mp_blk _ _ _ _ _ _ Hmp), Z.eqb_refl in * by done; [apply (mp_b _ _ _ _ _ _ Hmp)|lia]. }
  split; [|done]. split.
  - exact (mp_fs _ _ _ _ _ _ Hmp).
  - exact (mp_maps _ _ _ _ _ _ Hmp).
  - exact (mp_fields _ _ _ _ _ _ Hmp).
  - intros j Hj. rewrite (mp_blk _ _ _ _ _ _ Hmp), Hblk by done. done.
  - exact (mp_b _ _ _ _ _ _ Hmp).
  - done.
  - intros _. destruct (mp_new _ _ _ _ _ _ Hmp); [by rewrite Hblk|]. split; [done|]. by apply Hfree.
  - done.
  - lia.
  - exact (mp_table _ _ _ _ _ _ Hmp).
  - intros m H1' H2' H3'. rewrite (mp_frame _ _ _ _ _ _ Hmp) by done. apply alloc_other; [intros ->; rewrite Hie in H2'; lia|done].
  - intros m Hm0 Hum. apply (mp_used _ _ _ _ _ _ Hmp); [done|]. rewrite alloc_used, Hum by done. by rewrite orb_true_r.
  - intros m Ho. pose proof (owns_data _ _ _ _ (mp_maps _ _ _ _ _ _ Hmp) Ho) as [Hmb _].
    destruct (mp_owns _ _ _ _ _ _ Hmp m Ho) as [[Hm0 Ho']|Hum]; [|right; apply Hfree; [lia|done]].
    destruct Ho' as [->|(j & Hj & <-)]; [right; by apply (alloc_free sblock _ d n)|left].
    split; [done|]. right. exists j. by rewrite Hblk.
Qed.

(** A slot of the inode. *)
Lemma map_miss_direct c a0 X s a p ip i :
  abs c (cache s) a -> st_held a = ∅ -> st_dirty a = ∅ -> iheap s !! p = Some ip ->
  fs_ok (st_view a) -> maps_ok (st_view a) (entry ip) -> 0 <= i < INODE_NUM_DIRECT ->
  blk (st_view a) (entry ip) i = 0 ->
  0 < free_count sblock (st_view a) -> spent a0 X a -> bmb ∈ X -> Z.of_nat (size X) + 1 <= st_budget a0 ->
  map_result c a0 X s a p ip i 0.
Proof.
  intros H Hh Hdt Hp Hfs Hm Hi Hb Hf Hs HbX Hx. pose proof (addrs_length sblock _ _ Hm) as Hl.
  destruct (alloc_fresh c (cache s) a a0 X H Hfs) as (n & d & cs & Hd & Hn & E & H' & Hs'); try done.
  { rewrite Hh. intros b [? Hb']. by rewrite lookup_empty in Hb'. }
  destruct (alloc_store_plain d n a) as (Hh' & Hdt' & Hv').
  destruct (alloc_maps sblock _ d n Hfs Hd Hn _ Hm) as (Hm1 & Hb1 & Hno).
  pose proof (alloc_data sblock _ d n Hfs Hd Hn) as Hdn.
  destruct (attach_direct sblock _ _ i n Hm1 Hdn Hno Hi) as (Hm2 & Hb2).
  destruct (alloc_u32 _ d n Hfs Hd Hn) as [Hu Hn0].
  exists n, (set_addr i n (entry ip)), (alloc_store d n a), cs. split; [|split; [done|]].
  { unfold inode_map. change INODE_NUM_DIRECT with 12 in *. rewrite (proj2 (Z.ltb_lt _ _)) by lia.
    rewrite (bind_Ret _ _ _ _ _ (load_entry_Ret s p ip Hp)). erewrite bind_Ret by (apply elem_Ret; lia).
    unfold blk in Hb. change INODE_NUM_DIRECT with 12 in Hb. rewrite (proj2 (Z.ltb_lt _ _)) in Hb by lia.
    rewrite Hb, Z.eqb_refl. erewrite bind_Ret.
    2: { erewrite bind_Ret by (apply on_cache_Ret; exact E). erewrite bind_Ret by (by apply update_entry_Ret). reflexivity. }
    erewrite bind_Ret by (apply load_entry_Ret, set_iheap_entry; exact Hp). rewrite Hu. simpl entry.
    erewrite bind_Ret by (apply elem_Ret; simpl; rewrite length_insert; lia). simpl addrs.
    by rewrite list_lookup_total_insert_eq by lia. }
  split; [by rewrite Hh'|]. split; [by apply Hdt'|]. rewrite Hv'. split; [by apply mapped_direct|split].
  - change (INODE_NUM_DIRECT) with 12 in *. rewrite (proj2 (Z.leb_gt _ _)) by lia. eapply spent_mono; [done|]. set_solver.
  - rewrite alloc_count by done. lia.
Qed.

(** A slot of the indirect block. *)
Lemma map_miss_table c a0 X s a p ip i :
  abs c (cache s) a -> st_held a = ∅ -> st_dirty a = ∅ -> iheap s !! p = Some ip ->
  fs_ok (st_view a) -> maps_ok (st_view a) (entry ip) -> INODE_NUM_DIRECT <= i < INODE_MAX_BLOCKS ->
  indirect (entry ip) <> 0 -> blk (st_view a) (entry ip) i = 0 ->
  0 < free_count sblock (st_view a) -> spent a0 X a -> bmb ∈ X -> indirect (entry ip) ∈ X ->
  Z.of_nat (size X) + 1 <= st_budget a0 ->
  map_result c a0 X s a p ip i 0.
Proof.
  intros H Hh Hdt Hp Hfs Hm Hi H0 Hb Hf Hs HbX HiX Hx. set (e := entry ip) in *. set (ind := indirect e) in *.
  assert (Hind : data_block (st_view a) ind) by exact (mo_ind _ _ _ Hm H0). pose proof Hind as (_ & _ & _ & [t Ht]).
  destruct (acquire_law c (cache s) a ind t H Ht) as (q & c1 & E1 & H1); [by rewrite Hh|].
  destruct (alloc_fresh c c1 (a_acquire ind q a) a0 X H1 Hfs) as (n & d & c2 & Hd & Hn & E2 & H2 & Hs2); try done.
  { simpl. rewrite Hh. intros b [? [[<- _]|[_ Hb']]%lookup_insert_Some]; [done|by rewrite lookup_empty in Hb']. }
  destruct (alloc_maps sblock _ d n Hfs Hd Hn _ Hm) as (Hm1 & Hb1 & Hno).
  pose proof (alloc_data sblock _ d n Hfs Hd Hn) as Hdn.
  pose proof (alloc_fs_ok sblock _ d n Hfs Hd Hn) as Hfs1.
  destruct (alloc_old sblock _ d n Hfs Hd Hn ind Hind) as (Hind1 & Hti & Hne). rewrite Ht in Hti.
  destruct (attach_indirect sblock _ e i n t Hfs1 Hm1 Hdn Hno Hi H0 Hti) as (Hm2 & Hb2). fold ind in Hm2, Hb2.
  destruct (alloc_u32 _ d n Hfs Hd Hn) as [Hu Hn0].
  assert (Hok : block_ok t) by by eapply (fo_block _ _ Hfs).
  destruct (table_set_spec (i - INODE_NUM_DIRECT) n t Hok) as [Hok' Et]; [by apply word4|].
  change (alloc_store d n (a_acquire ind q a)) with (a_acquire ind q (alloc_store d n a)) in H2.
  assert (Hs3 : spent a0 ({[n]} ∪ X) (alloc_store d n a)) by exact Hs2.
  destruct (put_held c c2 (alloc_store d n a) ind q (table_set (i - INODE_NUM_DIRECT) n t) H2)
    as (c3 & c4 & c5 & E3 & E4 & H4 & E5 & H5); [simpl; by rewrite Hh|done| |].
  { eapply spent_syncable; [exact Hs3|set_solver|]. rewrite size_union_alt, size_singleton.
    assert (size (X ∖ {[n]}) <= size X)%nat by (apply subseteq_size; set_solver). lia. }
  assert (Hbm : ind <> bmb) by by apply (data_not_bmb sblock (st_view a)).
  exists n, e, (a_put ind (table_set (i - INODE_NUM_DIRECT) n t) (alloc_store d n a)), c5.
  split; [|split; [done|]].
  { unfold inode_map. fold e. change INODE_NUM_DIRECT with 12 in *. change INODE_MAX_BLOCKS with 140 in *.
    change (12 + INODE_NUM_INDIRECT) with 140. rewrite (proj2 (Z.ltb_ge i 12)), (proj2 (Z.ltb_lt i 140)) by lia. cbv zeta.
    pose proof (load_entry_Ret s p ip Hp) as El. fold e in El.
    assert (Hlt : length (get_addrs t) = 128%nat) by apply words_length.
    assert (Ez : get_addrs t !!! Z.to_nat (i - 12) = 0).
    { unfold blk in Hb. change INODE_NUM_DIRECT with 12 in Hb. rewrite (proj2 (Z.ltb_ge i 12)) in Hb by lia.
      fold ind in Hb. rewrite (proj2 (Z.eqb_neq _ _)) in Hb by done. unfold table in Hb. by rewrite Ht in Hb. }
    rewrite (bind_Ret _ _ _ _ _ El). fold ind. rewrite (proj2 (Z.eqb_neq _ _)) by done. erewrite bind_Ret by reflexivity.
    rewrite (bind_Ret _ _ _ _ _ El). fold ind. erewrite bind_Ret by (apply on_cache_Ret; exact E1).
    erewrite bind_Ret by (apply on_cache_Ret; eapply data_law; [exact H1|simpl; apply lookup_insert_eq|exact Ht]).
    erewrite bind_Ret by (apply elem_Ret; lia). rewrite Ez, Z.eqb_refl. erewrite bind_Ret.
    2: { erewrite bind_Ret by (apply on_cache_Ret; exact E2). rewrite Hu.
         erewrite bind_Ret by (apply on_cache_Ret; exact E3). erewrite bind_Ret by (apply on_cache_Ret; exact E4). reflexivity. }
    erewrite bind_Ret by (apply on_cache_Ret; eapply data_law; [exact H4|simpl; apply lookup_insert_eq|simpl; apply lookup_insert_eq]).
    erewrite bind_Ret by (apply elem_Ret; rewrite Et, length_insert; lia).
    rewrite Et, list_lookup_total_insert_eq by lia. erewrite bind_Ret by (apply on_cache_Ret; exact E5).
    unfold e. by rewrite set_entry_same. }
  split; [simpl; by rewrite Hh|]. split; [simpl; rewrite Hdt; set_solver|]. split; [by apply mapped_table|split].
  - rewrite (proj2 (Z.leb_le _ _)) by lia. fold ind. apply spent_put; [|set_solver]. eapply spent_mono; [exact Hs3|set_solver].
  - simpl. assert (E : free_count sblock (<[ind := table_set (i - INODE_NUM_DIRECT) n t]> (alloc_view sblock (st_view a) d n)) =
      free_count sblock (alloc_view sblock (st_view a) d n)).
    { unfold free_count, free_blocks. f_equal. f_equal. apply filter_ext_in. intros m _. unfold InodeFile.used. by rewrite lookup_insert_ne. }
    change (a_put n zero_block (a_put bmb (put_bit true n d) a)) with (alloc_store d n a).
    unfold alloc_view in E. rewrite E. fold (alloc_view sblock (st_view a) d n). rewrite alloc_count by done. lia.
Qed.

(** The first slot of the indirect block: the block is allocated first, and
    from there on the call goes as if it had been there. *)
Lemma map_miss_first c a0 X s a p ip i :
  abs c (cache s) a -> st_held a = ∅ -> st_dirty a = ∅ -> iheap s !! p = Some ip ->
  fs_ok (st_view a) -> maps_ok (st_view a) (entry ip) -> INODE_NUM_DIRECT <= i < INODE_MAX_BLOCKS ->
  indirect (entry ip) = 0 ->
  1 < free_count sblock (st_view a) -> spent a0 X a -> bmb ∈ X ->
  Z.of_nat (size X) + 2 <= st_budget a0 ->
  map_result c a0 X s a p ip i 1.
Proof.
  intros H Hh Hdt Hp Hfs Hm Hi H0 Hf Hs HbX Hx.
  destruct (alloc_fresh c (cache s) a a0 X H Hfs) as (n & d & c1 & Hd & Hn & E & H1 & Hs1); try done; try lia.
  { rewrite Hh. intros b [? Hb']. by rewrite lookup_empty in Hb'. }
  destruct (alloc_store_plain d n a) as (Hh1 & Hdt1 & Hv1).
  destruct (alloc_maps sblock _ d n Hfs Hd Hn _ Hm) as (Hm1 & Hb1 & Hno).
  pose proof (alloc_data sblock _ d n Hfs Hd Hn) as Hdn.
  destruct (alloc_u32 _ d n Hfs Hd Hn) as [Hu Hn0].
  destruct (attach_table sblock _ _ n Hm1 Hdn Hno H0) as (Hm2 & Hb2); [apply lookup_insert_eq|].
  set (e1 := set_indirect n (entry ip)) in *. set (ip1 := set_entry e1 ip).
  set (s1 := set_iheap (insert p ip1) (set_cache c1 s)). set (a1 := alloc_store d n a) in *.
  assert (Es : inode_map (Some c) p i s = inode_map (Some c) p i s1).
  { unfold inode_map. change INODE_NUM_DIRECT with 12 in *. change INODE_MAX_BLOCKS with 140 in *.
    change (12 + INODE_NUM_INDIRECT) with 140. rewrite (proj2 (Z.ltb_ge i 12)), (proj2 (Z.ltb_lt i 140)) by lia. cbv zeta.
    rewrite (bind_Ret _ _ _ _ _ (load_entry_Ret s p ip Hp)), H0, Z.eqb_refl. erewrite bind_Ret.
    2: { erewrite bind_Ret by (apply on_cache_Ret; exact E). rewrite Hu. by apply update_entry_Ret. }
    fold e1 ip1. change (set_iheap _ _) with s1 at 1.
    assert (Hp1 : iheap s1 !! p = Some ip1) by (simpl; apply lookup_insert_eq).
    symmetry. rewrite (bind_Ret _ _ _ _ _ (load_entry_Ret s1 p ip1 Hp1)) at 1.
    simpl indirect. rewrite (proj2 (Z.eqb_neq n 0)) by lia. by erewrite bind_Ret by reflexivity. }
  assert (Hi140 : 0 <= i < INODE_MAX_BLOCKS) by (change INODE_NUM_DIRECT with 12 in Hi; lia).
  assert (Hb0 : blk (st_view a) (entry ip) i = 0).
  { unfold blk. rewrite (proj2 (Z.ltb_ge _ _)), H0 by lia. done. }
  assert (Hres : map_result c a0 ({[n]} ∪ X) s1 a1 p ip1 i 0).
  { apply map_miss_table; [done|by rewrite Hh1|by apply Hdt1|simpl; apply lookup_insert_eq|..].
    - rewrite Hv1. apply (alloc_fs_ok sblock _ d n Hfs Hd Hn).
    - rewrite Hv1. exact Hm2.
    - done.
    - simpl. lia.
    - simpl entry. rewrite Hv1, Hb2, Hb1 by done. done.
    - rewrite Hv1, alloc_count by done. lia.
    - done.
    - apply elem_of_union. by right.
    - apply elem_of_union. left. apply elem_of_singleton. done.
    - rewrite size_union_alt, size_singleton.
      assert (size (X ∖ {[n]}) <= size X)%nat by (apply subseteq_size; set_solver). lia. }
  destruct Hres as (b & e' & a' & cs & E' & H' & Hh' & Hdt' & Hmp & Hs' & Hf').
  simpl entry in Hmp. rewrite Hv1 in Hmp, Hf'. rewrite alloc_count in Hf' by done.
  destruct (mapped_first _ _ d n _ _ i b Hfs Hm Hd Hn Hi H0 Hmp) as [Hmp' Hie].
  exists b, e', a', cs. split; [|split; [done|split; [done|split; [done|split; [done|split; [|lia]]]]]].
  + rewrite Es, E'. f_equal. f_equal. unfold s1, set_iheap, set_cache. simpl. f_equal. by rewrite insert_insert_eq.
  + eapply spent_mono; [exact Hs'|]. change INODE_NUM_DIRECT with 12 in *. rewrite (proj2 (Z.leb_le _ _)), Hie by lia. set_solver.
Qed.

(** Slots that [inode_map] has to fill first. *)
Definition table_missing e (i : Z) : Z := if (INODE_NUM_DIRECT <=? i) && (indirect e =? 0) then 1 else 0.

Lemma map_miss c a0 X s a p ip i :
  abs c (cache s) a -> st_held a = ∅ -> st_dirty a = ∅ -> iheap s !! p = Some ip ->
  fs_ok (st_view a) -> maps_ok (st_view a) (entry ip) -> 0 <= i < INODE_MAX_BLOCKS ->
  blk (st_view a) (entry ip) i = 0 ->
  table_missing (entry ip) i < free_count sblock (st_view a) -> spent a0 X a -> bmb ∈ X ->
  (indirect (entry ip) <> 0 -> indirect (entry ip) ∈ X) ->
  Z.of_nat (size X) + 1 + table_missing (entry ip) i <= st_budget a0 ->
  map_result c a0 X s a p ip i (table_missing (entry ip) i).
Proof.
  intros H Hh Hdt Hp Hfs Hm Hi Hb Hf Hs HbX HiX Hx. unfold table_missing in *.
  destruct (Z.leb_spec INODE_NUM_DIRECT i) as [Hid|Hid]; simpl in *.
  - destruct (Z.eqb_spec (indirect (entry ip)) 0) as [H0|H0].
    + apply map_miss_first; try done; lia.
    + apply map_miss_table; try done; try lia. by apply HiX.
  - apply map_miss_direct; try done; lia.
Qed.
End map.

(** * [inode_read] (fs/inode.c) returns the content of the file *)

(** ** The content of a file *)
Definition fbyte (v : gmap Z bytes) (e : InodeEntry) (k : Z) : option Z :=
  if blk v e (k / BLOCK_SIZE) =? 0 then None
  else v !! blk v e (k / BLOCK_SIZE) ≫= fun d => d !! Z.to_nat (k mod BLOCK_SIZE).

Definition file_data (v : gmap Z bytes) (e : InodeEntry) : bytes :=
  (fun k => default 0 (fbyte v e (Z.of_nat k))) <$> seq 0 (Z.to_nat (num_bytes e)).

(** A regular file or directory whose blocks up to its size are there. *)
Record file_wf (sblock : SuperBlock) (v : gmap Z bytes) (e : InodeEntry) : Prop := {
  fw_maps : maps_ok sblock v e;
  fw_type : type e <> INODE_DEVICE;
  fw_size : num_bytes e <= INODE_MAX_BYTES;
  fw_full : forall i, 0 <= i -> i * BLOCK_SIZE < num_bytes e -> blk v e i <> 0
}.

Section read.
Context {St : Type} {BC : BlockCache St} (sblock : SuperBlock) {BL : BlockCacheLaws St sblock}.

Abbreviation fs_ok := (fs_ok sblock).
Abbreviation maps_ok := (maps_ok sblock).
Abbreviation file_wf := (file_wf sblock).
Implicit Types (v : gmap Z bytes) (e : InodeEntry) (s : ist St).

Lemma num_bytes_nonneg v e : maps_ok v e -> 0 <= num_bytes e < 2 ^ 32.
Proof. intros H. destruct (mo_entry _ _ _ H) as (_ & _ & _ & _ & Hn & _). exact Hn. Qed.

Lemma file_data_length v e : maps_ok v e -> Z.of_nat (length (file_data v e)) = num_bytes e.
Proof. intros H. unfold file_data. rewrite length_fmap, length_seq. pose proof (num_bytes_nonneg v e H). lia. Qed.

Lemma fbyte_block v e i d k :
  blk v e i <> 0 -> v !! blk v e i = Some d -> i * BLOCK_SIZE <= k < (i + 1) * BLOCK_SIZE ->
  fbyte v e k = d !! Z.to_nat (k - i * BLOCK_SIZE).
Proof.
  unfold BLOCK_SIZE. intros Hb Hd Hk. unfold fbyte, BLOCK_SIZE.
  assert (E : k / 512 = i) by (symmetry; apply (Z.div_unique _ _ _ (k - i * 512)); lia).
  rewrite E, (proj2 (Z.eqb_neq _ _)), Hd by done. simpl. do 2 f_equal.
  rewrite Z.mod_eq by lia. rewrite E. lia.
Qed.

Lemma file_data_lookup v e k :
  file_wf v e -> fs_ok v -> 0 <= k < num_bytes e -> file_data v e !! Z.to_nat k = fbyte v e k /\ is_Some (fbyte v e k).
Proof.
  intros H Hfs Hk. assert (Hi : 0 <= k / BLOCK_SIZE) by (apply Z.div_pos; unfold BLOCK_SIZE; lia).
  assert (Hlt : k / BLOCK_SIZE * BLOCK_SIZE <= k < (k / BLOCK_SIZE + 1) * BLOCK_SIZE).
  { unfold BLOCK_SIZE. pose proof (Z.div_mod k 512 ltac:(lia)). pose proof (Z.mod_pos_bound k 512 ltac:(lia)). lia. }
  assert (Hb : blk v e (k / BLOCK_SIZE) <> 0) by (apply (fw_full _ _ _ H); lia).
  assert (Hmax : k / BLOCK_SIZE < INODE_MAX_BLOCKS).
  { pose proof (fw_size _ _ _ H). unfold INODE_MAX_BYTES in *. apply Z.div_lt_upper_bound; unfold BLOCK_SIZE in *; lia. }
  destruct (mo_data _ _ _ (fw_maps _ _ _ H) _ (conj Hi Hmax) Hb) as (_ & _ & _ & [d Hd]).
  assert (Hs : is_Some (fbyte v e k)).
  { rewrite (fbyte_block v e _ d k Hb Hd Hlt). apply lookup_lt_is_Some. destruct (fo_block _ _ Hfs _ _ Hd) as [-> _].
    unfold BLOCK_SIZE in *. lia. }
  split; [|done]. unfold file_data. rewrite list_lookup_fmap, lookup_seq_lt by lia. simpl.
  rewrite Z2Nat.id by lia. by destruct Hs as [x ->].
Qed.

(** The part of a block that belongs to the file. *)
Lemma range_block v e i d o n :
  file_wf v e -> fs_ok v -> blk v e i <> 0 -> v !! blk v e i = Some d ->
  0 <= i -> i * BLOCK_SIZE <= o -> 0 <= n -> o + n <= (i + 1) * BLOCK_SIZE -> o + n <= num_bytes e ->
  range (Z.to_nat (o - i * BLOCK_SIZE)) (Z.to_nat n) d = range (Z.to_nat o) (Z.to_nat n) (file_data v e).
Proof.
  intros H Hfs Hb Hd Hi Ho Hn Hon Hnb. apply list_eq. intros k. rewrite !range_lookup. case_decide as Hk; [|done].
  assert (0 <= i * BLOCK_SIZE) by (unfold BLOCK_SIZE; lia).
  destruct (file_data_lookup v e (o + Z.of_nat k) H Hfs) as [E _]; [lia|].
  rewrite (fbyte_block v e i d) in E by (done || lia).
  replace (Z.to_nat o + k)%nat with (Z.to_nat (o + Z.of_nat k)) by lia. rewrite E. f_equal. lia.
Qed.

Lemma range_app (l : bytes) o m n : range o (m + n) l = range o m l ++ range (o + m) n l.
Proof. unfold range. by rewrite <- take_take_drop, drop_drop. Qed.

(** ** The loop *)

(** Where the loop stands before turn [i]. *)
Definition pos (off end_ i : Z) : Z := Z.min end_ (Z.max off (i * BLOCK_SIZE)).

Record turn_ok (off end_ i : Z) : Prop := {
  tn_off : 0 <= off <= end_;
  tn_end : 1 <= end_ <= INODE_MAX_BYTES;
  tn_i : off / BLOCK_SIZE <= i <= (end_ - 1) / BLOCK_SIZE
}.

Lemma turn_bounds off end_ i :
  turn_ok off end_ i ->
  0 <= i < INODE_MAX_BLOCKS /\ i * BLOCK_SIZE < end_ /\ i * BLOCK_SIZE <= pos off end_ i <= pos off end_ (i + 1) /\
  pos off end_ (i + 1) <= (i + 1) * BLOCK_SIZE /\ off <= pos off end_ i /\ pos off end_ (i + 1) <= end_ /\
  pos off end_ i < (i + 1) * BLOCK_SIZE.
Proof.
  intros [Ho He Hi]. unfold pos, INODE_MAX_BYTES, INODE_MAX_BLOCKS, INODE_NUM_DIRECT, INODE_NUM_INDIRECT, BLOCK_SIZE in *.
  pose proof (Z.div_mod off 512 ltac:(lia)). pose proof (Z.mod_pos_bound off 512 ltac:(lia)).
  pose proof (Z.div_mod (end_ - 1) 512 ltac:(lia)). pose proof (Z.mod_pos_bound (end_ - 1) 512 ltac:(lia)).
  change (512 / 4) with 128 in *. lia.
Qed.

(** [n], the length of a turn, and where it ends. *)
Lemma turn_length off end_ i :
  turn_ok off end_ i ->
  Z.min (u64 (end_ - pos off end_ i)) (u64 ((i + 1) * BLOCK_SIZE - pos off end_ i)) = pos off end_ (i + 1) - pos off end_ i.
Proof.
  intros H. destruct (turn_bounds _ _ _ H) as (Hi & Hie & Hp & Hp1 & Hpo & Hpe & Hp2). destruct H as [Ho He _].
  assert (end_ <= 71680) by apply He. rewrite !u64_small by (unfold BLOCK_SIZE in *; lia).
  unfold pos in *. unfold BLOCK_SIZE in *. lia.
Qed.

Lemma turn_mod off end_ i :
  turn_ok off end_ i -> pos off end_ i mod BLOCK_SIZE = pos off end_ i - i * BLOCK_SIZE.
Proof.
  intros H. destruct (turn_bounds _ _ _ H) as (Hi & Hie & Hp & Hp1 & Hpo & Hpe & Hp2).
  symmetry. apply (Z.mod_unique _ _ i); unfold BLOCK_SIZE in *; lia.
Qed.

Lemma pos_first off end_ : 0 <= off <= end_ -> pos off end_ (off / BLOCK_SIZE) = off.
Proof.
  intros H. unfold pos, BLOCK_SIZE. pose proof (Z.div_mod off 512 ltac:(lia)). pose proof (Z.mod_pos_bound off 512 ltac:(lia)). lia.
Qed.

Lemma pos_last off end_ : 0 <= off <= end_ -> pos off end_ ((end_ - 1) / BLOCK_SIZE + 1) = end_.
Proof.
  intros H. unfold pos, BLOCK_SIZE. pose proof (Z.div_mod (end_ - 1) 512 ltac:(lia)). pose proof (Z.mod_pos_bound (end_ - 1) 512 ltac:(lia)). lia.
Qed.

(** The turns of the loop are those of [turn_ok]. *)
Lemma turns off end_ :
  0 <= off <= end_ -> 1 <= end_ <= INODE_MAX_BYTES ->
  Z.of_nat (block_turns off end_) = (end_ - 1) / BLOCK_SIZE - off / BLOCK_SIZE + 1 /\
  forall i, off / BLOCK_SIZE <= i < off / BLOCK_SIZE + Z.of_nat (block_turns off end_) -> turn_ok off end_ i.
Proof.
  intros Ho He. assert (end_ <= 71680) by apply He.
  assert (E : Z.of_nat (block_turns off end_) = (end_ - 1) / BLOCK_SIZE - off / BLOCK_SIZE + 1).
  { unfold block_turns, BLOCK_SIZE. rewrite u64_small by lia.
    pose proof (Z.div_mod off 512 ltac:(lia)). pose proof (Z.mod_pos_bound off 512 ltac:(lia)).
    pose proof (Z.div_mod (end_ - 1) 512 ltac:(lia)). pose proof (Z.mod_pos_bound (end_ - 1) 512 ltac:(lia)). lia. }
  split; [done|]. intros i Hi. split; [done|done|]. lia.
Qed.

Section loop.
Context (R : St -> Prop) (v : gmap Z bytes) (s : ist St) (p : Z) (ip : Inode) (off end_ : Z).
Abbreviation e := (entry ip).
Context (Hread : reader R v) (Hp : iheap s !! p = Some ip).
Context (Hfs : fs_ok v) (Hw : file_wf v e) (Hend : end_ <= num_bytes e).

Definition read_inv (i : Z) (st : Z * Z * bytes) (s' : ist St) : Prop :=
  exists cs, s' = set_cache cs s /\ R cs /\
    st = (pos off end_ i, pos off end_ i - off, range (Z.to_nat off) (Z.to_nat (pos off end_ i - off)) (file_data v e)).

Lemma read_turn_spec i st s' :
  turn_ok off end_ i -> read_inv i st s' ->
  exists st2 s2, read_turn p end_ i st s' = Ret (st2, s2) /\ read_inv (i + 1) st2 s2.
Proof.
  intros Ht (cs & -> & H & ->). destruct (turn_bounds _ _ _ Ht) as (Hi & Hie & Hps & Hp1 & Hpo & Hpe & Hp2).
  pose proof (turn_length _ _ _ Ht) as Hn. pose proof (turn_mod _ _ _ Ht) as Hm.
  set (o := pos off end_ i) in *. set (o' := pos off end_ (i + 1)) in *.
  assert (Hb : blk v e i <> 0) by (apply (fw_full _ _ _ Hw); lia).
  destruct (mo_data _ _ _ (fw_maps _ _ _ Hw) i Hi Hb) as (_ & _ & _ & [d Hd]).
  destruct (map_hit sblock None R v (set_cache cs s) p ip i) as (cs1 & E1 & H1); try done; [apply Hw|].
  destruct (Hread cs1 _ d H1 Hd) as (q & c2 & c3 & E2 & E3 & E4 & H4).
  destruct Ht as [Ho He _]. assert (end_ <= 71680) by apply He.
  eexists _, (set_cache c3 s). split.
  { unfold read_turn. fold o. rewrite Hn. cbv zeta. rewrite (bind_Ret _ _ _ _ _ E1). cbn [fst].
    erewrite bind_Ret by (apply on_cache_Ret; exact E2). erewrite bind_Ret by (apply on_cache_Ret; exact E3).
    erewrite bind_Ret by (apply on_cache_Ret; exact E4). reflexivity. }
  exists c3. split; [done|]. split; [done|]. fold o'. rewrite Hm.
  rewrite (range_block v e i d o (o' - o) Hw Hfs Hb Hd) by lia.
  replace (o + (o' - o)) with o' by lia. replace (o - off + (o' - o)) with (o' - off) by lia.
  rewrite !u64_small by lia. f_equal.
  replace (Z.to_nat (o' - off)) with (Z.to_nat (o - off) + Z.to_nat (o' - o))%nat by lia.
  rewrite range_app. by replace (Z.to_nat off + Z.to_nat (o - off))%nat with (Z.to_nat o) by lia.
Qed.
End loop.

Lemma range_0 (l : bytes) o : range o 0 l = [].
Proof. done. Qed.

Lemma range_all o n (l : bytes) : (length l <= o + n)%nat -> range o n l = drop o l.
Proof. intros H. unfold range. apply take_ge. rewrite length_drop. lia. Qed.

(** The requested bytes, cut at the end of the file. *)
Lemma inode_read_reads (R : St -> Prop) v s p ip off count :
  reader R v -> R (cache s) -> iheap s !! p = Some ip -> fs_ok v -> file_wf v (entry ip) ->
  0 <= off <= num_bytes (entry ip) -> 0 <= count < 2 ^ 32 ->
  exists cs, inode_read p off count s =
    Ret ((Z.min count (num_bytes (entry ip) - off), range (Z.to_nat off) (Z.to_nat count) (file_data v (entry ip))), set_cache cs s) /\ R cs.
Proof.
  intros Hread H Hp Hfs Hw Hoff Hcount. pose proof (num_bytes_nonneg _ _ (fw_maps _ _ _ Hw)) as Hnb.
  pose proof (file_data_length _ _ (fw_maps _ _ _ Hw)) as Hlen.
  assert (Hmax : num_bytes (entry ip) <= 71680) by apply (fw_size _ _ _ Hw).
  set (cnt := Z.min count (num_bytes (entry ip) - off)).
  assert (Er : range (Z.to_nat off) (Z.to_nat count) (file_data v (entry ip)) =
    range (Z.to_nat off) (Z.to_nat cnt) (file_data v (entry ip))).
  { destruct (decide (count <= num_bytes (entry ip) - off)); [by replace cnt with count by lia|].
    rewrite !range_all by lia. done. }
  assert (Ecnt : (if u64 (count + off) >? num_bytes (entry ip) then u64 (num_bytes (entry ip) - off) else count) = cnt).
  { rewrite !u64_small by lia. destruct (Z.gtb_spec (count + off) (num_bytes (entry ip))); lia. }
  unfold inode_read. rewrite (bind_Ret _ _ _ _ _ (load_entry_Ret s p ip Hp)).
  rewrite (proj2 (Z.eqb_neq _ _)) by apply (fw_type _ _ _ Hw). rewrite Ecnt. cbv zeta.
  rewrite (u64_small (off + cnt)) by lia.
  rewrite !(proj2 (Z.leb_le _ _)) by lia. do 3 erewrite bind_Ret by reflexivity.
  destruct (Z.eqb_spec cnt 0) as [E0|E0].
  { exists (cache s). rewrite Er, E0, range_0. split; [|done]. unfold ret. f_equal. f_equal. by destruct s. }
  destruct (turns off (off + cnt)) as [Et Hturn]; [lia|unfold INODE_MAX_BYTES; change INODE_MAX_BLOCKS with 140; unfold BLOCK_SIZE; lia|].
  destruct (for_acc_inv (read_inv R v s ip off (off + cnt)) (read_turn p (off + cnt)) (block_turns off (off + cnt))
    (off / BLOCK_SIZE) (off, 0, []) s) as (st' & s' & E & (cs & -> & H' & ->)).
  - exists (cache s). split; [by destruct s|]. split; [done|]. rewrite pos_first, Z.sub_diag by lia. done.
  - intros j st' s' Hj Hinv. apply read_turn_spec; try done; [lia|]. by apply Hturn.
  - exists cs. rewrite (bind_Ret _ _ _ _ _ E). rewrite Et.
    replace (off / BLOCK_SIZE + ((off + cnt - 1) / BLOCK_SIZE - off / BLOCK_SIZE + 1)) with ((off + cnt - 1) / BLOCK_SIZE + 1) by lia.
    rewrite pos_last by lia. replace (off + cnt - off) with cnt by lia. by rewrite Er.
Qed.

Lemma inode_read_spec c a s p ip off count :
  abs c (cache s) a -> st_held a = ∅ -> st_dirty a = ∅ -> iheap s !! p = Some ip ->
  fs_ok (st_view a) -> file_wf (st_view a) (entry ip) ->
  0 <= off <= num_bytes (entry ip) -> 0 <= count < 2 ^ 32 ->
  exists cs, inode_read p off count s =
    Ret ((Z.min count (num_bytes (entry ip) - off), range (Z.to_nat off) (Z.to_nat count) (file_data (st_view a) (entry ip))), set_cache cs s) /\
    abs c cs a.
Proof. intros H Hh Hdt. apply (inode_read_reads (fun cs => abs c cs a)); [by apply abs_reader|done]. Qed.
End read.
