(* ===== verification/InodeWrite.v ===== *)
(** * [inode_write] (fs/inode.c) splices its bytes into the file *)
From stdpp Require Import base gmap list.
From Stdlib Require Import ZArith Lia.
From S2P Require Import Prelude Bytes Bitmap BCache BlockStore CString Console Inode InodeFile InodeMap.

Section write.
Context {St : Type} {BC : BlockCache St} (sblock : SuperBlock) {BL : BlockCacheLaws St sblock}.

Abbreviation bmb := (sb_bitmap_start sblock).
Abbreviation used := (used sblock).
Abbreviation fs_ok := (fs_ok sblock).
Abbreviation maps_ok := (maps_ok sblock).
Abbreviation file_wf := (file_wf sblock).
Abbreviation data_block := (data_block sblock).
Implicit Types (v : gmap Z bytes) (e : InodeEntry) (s : ist St) (X : gset Z).

(** ** Writing blocks of the file *)
Lemma fs_write v b d : fs_ok v -> b <> bmb -> block_ok d -> is_Some (v !! b) -> fs_ok (<[b := d]> v).
Proof.
  intros H Hb Hd Hs.
  assert (Hu : forall m, used (<[b := d]> v) m = used v m) by (intros m; unfold InodeFile.used; by rewrite lookup_insert_ne).
  split.
  - apply lookup_insert_is_Some'. right. apply H.
  - intros m dm [[<- <-]|[_ Hm]]%lookup_insert_Some; [done|]. by eapply (fo_block _ _ H).
  - intros ino Hi. destruct (fo_inode _ _ H ino Hi). split; [apply lookup_insert_is_Some'; by right|done].
  - intros n Hn. rewrite Hu. intros Hun. destruct (fo_free _ _ H n Hn Hun) as (? & ? & ?).
    split; [apply lookup_insert_is_Some'; by right|done].
Qed.

Lemma used_write v b d m : b <> bmb -> used (<[b := d]> v) m = used v m.
Proof. intros Hb. unfold InodeFile.used. by rewrite lookup_insert_ne. Qed.

Lemma free_write v b d : b <> bmb -> free_count sblock (<[b := d]> v) = free_count sblock v.
Proof.
  intros Hb. unfold free_count, free_blocks. do 2 f_equal. apply filter_ext_in. intros m _. by rewrite used_write.
Qed.

Lemma maps_write v e b d :
  maps_ok v e -> b <> bmb -> b <> indirect e -> maps_ok (<[b := d]> v) e /\ forall i, blk (<[b := d]> v) e i = blk v e i.
Proof.
  intros H Hb Hi. assert (Hbl : forall i, blk (<[b := d]> v) e i = blk v e i).
  { intros i. apply blk_ext. intros _. by rewrite lookup_insert_ne. }
  assert (Hd : forall m, data_block v m -> data_block (<[b := d]> v) m).
  { intros m (? & ? & ? & ?). split; [done|]. rewrite used_write by done. split; [done|]. split; [done|].
    apply lookup_insert_is_Some'. by right. }
  split; [|done]. split; [apply H|..].
  - intros i Hi'. rewrite Hbl. intros Hne. by apply Hd, (mo_data _ _ _ H).
  - intros H0. by apply Hd, (mo_ind _ _ _ H).
  - intros i j Hi' Hj. rewrite !Hbl. by apply (mo_inj _ _ _ H).
  - intros i Hi'. rewrite Hbl. by apply (mo_ind_ne _ _ _ H).
Qed.

(** ** How a file grows *)
Record grew v e v' e' : Prop := {
  gr_fs : fs_ok v';
  gr_maps : maps_ok v' e';
  gr_fields : same_fields e e';
  gr_keep : forall j, 0 <= j < INODE_MAX_BLOCKS -> blk v e j <> 0 -> blk v' e' j = blk v e j;
  gr_ind : indirect e <> 0 -> indirect e' = indirect e;
  gr_frame : forall m, m <> bmb -> ~ owns v' e' m -> v' !! m = v !! m;
  gr_used : forall m, 0 <= m -> used v m = true -> used v' m = true;
  gr_owns : forall m, owns v' e' m -> owns v e m \/ used v m = false
}.

Lemma grew_refl v e : fs_ok v -> maps_ok v e -> grew v e v e.
Proof. intros. split; try done. tauto. Qed.

Lemma grew_owns v e v' e' m : grew v e v' e' -> owns v e m -> owns v' e' m.
Proof.
  intros H [Hm [->|(i & Hi & E)]]; (split; [done|]).
  - left. symmetry. by apply (gr_ind _ _ _ _ H).
  - right. exists i. split; [done|]. rewrite (gr_keep _ _ _ _ H) by congruence. done.
Qed.

(** A turn of the loop: a block is mapped and then written. *)
Lemma grew_turn v e v1 e1 v2 e2 i b d :
  grew v e v1 e1 -> maps_ok v e -> mapped sblock v1 e1 v2 e2 i b -> 0 <= i < INODE_MAX_BLOCKS -> block_ok d ->
  grew v e (<[b := d]> v2) e2 /\ blk (<[b := d]> v2) e2 i = b /\
  (forall j, 0 <= j < INODE_MAX_BLOCKS -> j <> i -> blk (<[b := d]> v2) e2 j = blk v1 e1 j).
Proof.
  intros H Hm M Hi Hd. pose proof (mp_maps _ _ _ _ _ _ _ M) as Hm2.
  assert (Hbi : blk v2 e2 i = b) by (rewrite (mp_blk _ _ _ _ _ _ _ M), Z.eqb_refl by done; done).
  assert (Hbd : data_block v2 b).
  { rewrite <- Hbi. apply (mo_data _ _ _ Hm2); [done|]. rewrite Hbi. apply (mp_b _ _ _ _ _ _ _ M). }
  assert (Hbm : b <> bmb) by by apply (data_not_bmb sblock v2).
  assert (Hbn : b <> indirect e2).
  { rewrite <- Hbi. apply (mo_ind_ne _ _ _ Hm2); [done|]. rewrite Hbi. apply (mp_b _ _ _ _ _ _ _ M). }
  destruct (maps_write v2 e2 b d Hm2 Hbm Hbn) as [Hm3 Hb3].
  assert (Hblk : forall j, 0 <= j < INODE_MAX_BLOCKS -> blk (<[b := d]> v2) e2 j = if j =? i then b else blk v1 e1 j).
  { intros j Hj. rewrite Hb3. by apply (mp_blk _ _ _ _ _ _ _ M). }
  assert (Hown2 : forall m, owns (<[b := d]> v2) e2 m <-> owns v2 e2 m).
  { intros m. unfold owns. by setoid_rewrite Hb3. }
  assert (Hob : owns v2 e2 b) by (split; [apply (mp_b _ _ _ _ _ _ _ M)|right; by exists i]).
  split; [|split; [by rewrite Hblk, Z.eqb_refl|intros j Hj Hne; rewrite Hblk by done; by rewrite (proj2 (Z.eqb_neq _ _))]].
  split.
  - apply fs_write; [apply (mp_fs _ _ _ _ _ _ _ M)|done|done|apply Hbd].
  - done.
  - destruct (gr_fields _ _ _ _ H) as (? & ? & ? & ? & ?), (mp_fields _ _ _ _ _ _ _ M) as (? & ? & ? & ? & ?).
    unfold same_fields. intuition congruence.
  - intros j Hj Hne. pose proof (gr_keep _ _ _ _ H j Hj Hne) as E. rewrite Hblk by done.
    destruct (Z.eqb_spec j i) as [->|]; [|done]. destruct (mp_old _ _ _ _ _ _ _ M) as [-> _]; congruence.
  - intros H0. pose proof (gr_ind _ _ _ _ H H0) as E. rewrite <- E. apply (mp_ind _ _ _ _ _ _ _ M). congruence.
  - intros m Hmb Ho. rewrite Hown2 in Ho. assert (m <> b) by (intros ->; done).
    assert (Hmi : m = indirect e2 -> m = 0).
    { intros ->. destruct (decide (indirect e2 = 0)) as [|Hne]; [done|]. exfalso. apply Ho. split; [done|by left]. }
    rewrite lookup_insert_ne, (mp_frame _ _ _ _ _ _ _ M) by done. apply (gr_frame _ _ _ _ H); [done|].
    intros [Hm0 Ho1]. apply Ho. split; [done|]. destruct Ho1 as [->|(j & Hj & E)].
    + left. symmetry. by apply (mp_ind _ _ _ _ _ _ _ M).
    + right. exists j. split; [done|]. rewrite (mp_blk _ _ _ _ _ _ _ M) by done.
      destruct (Z.eqb_spec j i) as [->|]; [|done]. destruct (mp_old _ _ _ _ _ _ _ M) as [-> _]; congruence.
  - intros m Hm0 Hu. rewrite used_write by done. by apply (mp_used _ _ _ _ _ _ _ M), (gr_used _ _ _ _ H).
  - intros m Ho. rewrite Hown2 in Ho. pose proof (owns_data _ _ _ _ Hm2 Ho) as [Hmb _].
    destruct (mp_owns _ _ _ _ _ _ _ M m Ho) as [Ho1|Hu]; [by apply (gr_owns _ _ _ _ H)|right].
    apply not_true_iff_false. intros Hu'. rewrite (gr_used _ _ _ _ H) in Hu by (done || lia). done.
Qed.

(** Other files do not notice. *)
Lemma grew_other v e v' e' e2 :
  grew v e v' e' -> file_wf v e2 -> fs_ok v -> (forall b, owns v e b -> ~ owns v e2 b) ->
  file_wf v' e2 /\ file_data v' e2 = file_data v e2 /\ (forall b, owns v' e' b -> ~ owns v' e2 b).
Proof.
  intros H H2 Hfs Hd.
  assert (Hno : forall b, owns v e2 b -> ~ owns v' e' b).
  { intros b Ho Ho'. destruct (gr_owns _ _ _ _ H b Ho') as [Ho1|Hu]; [by apply (Hd b)|].
    destruct (owns_data _ _ _ _ (fw_maps _ _ _ H2) Ho) as (_ & Hu' & _). congruence. }
  assert (Hsame : forall b, owns v e2 b -> v' !! b = v !! b).
  { intros b Ho. apply (gr_frame _ _ _ _ H); [|by apply Hno]. apply (data_not_bmb sblock v), (owns_data _ _ e2); [apply H2|done]. }
  destruct (maps_frame sblock v v' e2 (fw_maps _ _ _ H2) Hsame (gr_used _ _ _ _ H)) as [Hm Hb].
  split; [|split].
  - split; [done|apply H2|apply H2|]. intros i Hi Hlt. rewrite Hb. by apply (fw_full _ _ _ H2).
  - unfold file_data. apply list_fmap_ext. intros k x Hx. f_equal. unfold fbyte. rewrite Hb.
    destruct (Z.eqb_spec (blk v e2 (Z.of_nat x / BLOCK_SIZE)) 0) as [|Hne]; [done|].
    apply lookup_seq in Hx as [-> Hlt]. rewrite Hsame; [done|]. split; [done|]. right. eexists. split; [|done].
    pose proof (num_bytes_nonneg sblock v e2 (fw_maps _ _ _ H2)).
    assert (num_bytes e2 <= 71680) by apply (fw_size _ _ _ H2). change INODE_MAX_BLOCKS with 140. unfold BLOCK_SIZE.
    split; [apply Z.div_pos; lia|apply Z.div_lt_upper_bound; lia].
  - intros b Ho Ho2. apply (Hno b); [|done]. destruct Ho2 as [Hb0 Ho2]. split; [done|].
    destruct Ho2 as [->|(i & Hi & <-)]; [by left|right; exists i; by rewrite Hb].
Qed.

(** ** The bytes after a turn *)
Lemma turn_bytes v1 e1 v2 e2 i b d :
  mapped sblock v1 e1 v2 e2 i b -> maps_ok v1 e1 -> 0 <= i < INODE_MAX_BLOCKS ->
  (forall k, i * BLOCK_SIZE <= k < (i + 1) * BLOCK_SIZE -> fbyte (<[b := d]> v2) e2 k = d !! Z.to_nat (k - i * BLOCK_SIZE)) /\
  (forall k, 0 <= k < INODE_MAX_BYTES -> ~ i * BLOCK_SIZE <= k < (i + 1) * BLOCK_SIZE -> fbyte (<[b := d]> v2) e2 k = fbyte v1 e1 k).
Proof.
  intros M Hm1 Hi. pose proof (mp_maps _ _ _ _ _ _ _ M) as Hm2. pose proof (mp_b _ _ _ _ _ _ _ M) as Hb0.
  assert (Hbi : blk v2 e2 i = b) by (rewrite (mp_blk _ _ _ _ _ _ _ M), Z.eqb_refl by done; done).
  assert (Hbd : data_block v2 b) by (rewrite <- Hbi; apply (mo_data _ _ _ Hm2); [done|congruence]).
  assert (Hbn : b <> indirect e2) by (rewrite <- Hbi; apply (mo_ind_ne _ _ _ Hm2); [done|congruence]).
  destruct (maps_write v2 e2 b d Hm2) as [_ Hb3]; [by apply (data_not_bmb sblock v2)|done|].
  split.
  - intros k Hk. rewrite (fbyte_block (<[b := d]> v2) e2 i d k); [done|by rewrite Hb3, Hbi| |done].
    rewrite Hb3, Hbi. apply lookup_insert_eq.
  - intros k Hk Hki. unfold fbyte. rewrite Hb3.
    assert (Hj : 0 <= k / BLOCK_SIZE < INODE_MAX_BLOCKS).
    { split; [apply Z.div_pos; unfold BLOCK_SIZE; lia|]. unfold INODE_MAX_BYTES in Hk. apply Z.div_lt_upper_bound; unfold BLOCK_SIZE in *; lia. }
    assert (Hne : k / BLOCK_SIZE <> i).
    { intros <-. apply Hki. unfold BLOCK_SIZE. pose proof (Z.div_mod k 512 ltac:(lia)). pose proof (Z.mod_pos_bound k 512 ltac:(lia)). lia. }
    rewrite (mp_blk _ _ _ _ _ _ _ M), (proj2 (Z.eqb_neq (k / BLOCK_SIZE) i)) by done.
    destruct (Z.eqb_spec (blk v1 e1 (k / BLOCK_SIZE)) 0) as [|Hb]; [done|].
    assert (Ej : blk v2 e2 (k / BLOCK_SIZE) = blk v1 e1 (k / BLOCK_SIZE)).
    { by rewrite (mp_blk _ _ _ _ _ _ _ M), (proj2 (Z.eqb_neq (k / BLOCK_SIZE) i)) by done. }
    assert (Hnb : blk v1 e1 (k / BLOCK_SIZE) <> b).
    { rewrite <- Ej, <- Hbi. intros E. apply Hne. apply (mo_inj _ _ _ Hm2); congruence. }
    rewrite lookup_insert_ne by done. rewrite (mp_frame _ _ _ _ _ _ _ M); [done| |intros E|done].
    + apply (data_not_bmb sblock v1). by apply (mo_data _ _ _ Hm1).
    + exfalso. rewrite <- Ej in E. by apply (mo_ind_ne _ _ _ Hm2 _ Hj); [congruence|].
Qed.

(** ** The entry on disk *)
Definition disk_entry v (ino : Z) : option InodeEntry := (fun d => get_entry d ino) <$> v !! to_block_no sblock ino.

(** Files and the other inodes do not notice. *)
Lemma inode_block_write v e2 ino e d :
  fs_ok v -> 0 <= ino < sb_num_inodes sblock -> v !! to_block_no sblock ino = Some d -> entry_ok e ->
  let v' := <[to_block_no sblock ino := put_entry ino e d]> v in
  fs_ok v' /\ (forall m, used v' m = used v m) /\
  (maps_ok v e2 -> maps_ok v' e2 /\ (forall i, blk v' e2 i = blk v e2 i)) /\
  (file_wf v e2 -> file_wf v' e2 /\ file_data v' e2 = file_data v e2) /\
  disk_entry v' ino = Some e /\
  (forall j, 0 <= j < sb_num_inodes sblock -> j <> ino -> disk_entry v' j = disk_entry v j).
Proof.
  intros Hfs Hi Hd He v'. destruct (fo_inode _ _ Hfs ino Hi) as [_ Hne].
  assert (Hdok : block_ok d) by by eapply (fo_block _ _ Hfs).
  assert (Hu : forall m, used v' m = used v m) by (intros m; by apply used_write).
  assert (Hm : maps_ok v e2 -> maps_ok v' e2 /\ forall i, blk v' e2 i = blk v e2 i).
  { intros H2. apply (maps_frame sblock v v' e2 H2); [|by intros b _; rewrite Hu].
    intros b Ho. unfold v'. rewrite lookup_insert_ne; [done|]. intros <-.
    by eapply (data_not_inode sblock v _ ino (owns_data _ _ _ _ H2 Ho)). }
  split; [apply fs_write; [done|done|apply put_entry_ok; [done|apply He]|eauto]|]. split; [done|]. split; [done|].
  split; [|split].
  - intros H2. destruct (Hm (fw_maps _ _ _ H2)) as [Hm2 Hb2]. split.
    + split; [done|apply H2|apply H2|]. intros i. rewrite Hb2. apply (fw_full _ _ _ H2).
    + unfold file_data. apply list_fmap_ext. intros k x [-> Hlt]%lookup_seq. f_equal. unfold fbyte. rewrite Hb2.
      destruct (Z.eqb_spec (blk v e2 (Z.of_nat (0 + k) / BLOCK_SIZE)) 0) as [|Hnz]; [done|].
      unfold v'. rewrite lookup_insert_ne; [done|]. intros E.
      assert (Hj : 0 <= Z.of_nat (0 + k) / BLOCK_SIZE < INODE_MAX_BLOCKS).
      { pose proof (num_bytes_nonneg sblock v e2 (fw_maps _ _ _ H2)). assert (num_bytes e2 <= 71680) by apply (fw_size _ _ _ H2).
        change INODE_MAX_BLOCKS with 140. unfold BLOCK_SIZE. split; [apply Z.div_pos; lia|apply Z.div_lt_upper_bound; lia]. }
      by eapply (data_not_inode sblock v _ ino (mo_data _ _ _ (fw_maps _ _ _ H2) _ Hj Hnz)).
  - unfold disk_entry, v'. rewrite lookup_insert_eq. simpl. f_equal. by apply get_put_entry.
  - intros j Hj Hji. unfold disk_entry, v'.
    destruct (decide (to_block_no sblock ino = to_block_no sblock j)) as [E|E]; [|by rewrite lookup_insert_ne].
    rewrite <- E, lookup_insert_eq, Hd. simpl. f_equal. apply get_put_entry_ne; [done|apply He|].
    intros Em. apply Hji. unfold to_block_no in E. change INODE_PER_BLOCK with 8 in *.
    pose proof (Z.div_mod ino 8 ltac:(lia)). pose proof (Z.div_mod j 8 ltac:(lia)). lia.
Qed.

Lemma grew_disk v e v' e' ino :
  grew v e v' e' -> fs_ok v -> 0 <= ino < sb_num_inodes sblock -> v' !! to_block_no sblock ino = v !! to_block_no sblock ino.
Proof.
  intros G Hfs Hi. destruct (fo_inode _ _ Hfs ino Hi) as [_ Hne]. apply (gr_frame _ _ _ _ G); [done|].
  intros Ho. by apply (data_not_inode sblock v' _ ino (owns_data _ _ _ _ (gr_maps _ _ _ _ G) Ho)).
Qed.

(** What a write by the file [e] to [e'] leaves alone. *)
Record others v e v' e' (ino : Z) : Prop := {
  ot_fs : fs_ok v';
  ot_files : forall e2, file_wf v e2 -> (forall b, owns v e b -> ~ owns v e2 b) ->
    file_wf v' e2 /\ file_data v' e2 = file_data v e2 /\ (forall b, owns v' e' b -> ~ owns v' e2 b);
  ot_inodes : forall j, 0 <= j < sb_num_inodes sblock -> j <> ino -> disk_entry v' j = disk_entry v j;
  ot_synced : disk_entry v ino = Some e -> disk_entry v' ino = Some e'
}.

(** From the end of the loop to the result, the size being the greater of the
    old one and [end_]. *)
Lemma written_data v e v' e' (src : bytes) off end_ :
  file_wf v e -> fs_ok v -> file_wf v' e' -> fs_ok v' -> 0 <= off <= num_bytes e -> off <= end_ <= INODE_MAX_BYTES ->
  end_ - off <= Z.of_nat (length src) -> num_bytes e' = Z.max (num_bytes e) end_ ->
  (forall k, off <= k < end_ -> fbyte v' e' k = src !! Z.to_nat (k - off)) ->
  (forall k, 0 <= k < INODE_MAX_BYTES -> ~ off <= k < end_ -> blk v e (k / BLOCK_SIZE) <> 0 -> fbyte v' e' k = fbyte v e k) ->
  file_data v' e' = splice (Z.to_nat off) (take (Z.to_nat (end_ - off)) src) (file_data v e).
Proof.
  intros H Hfs H' Hfs' Ho He Hs Hn Hnew Hold.
  pose proof (file_data_length sblock _ _ (fw_maps _ _ _ H)) as Hl.
  pose proof (file_data_length sblock _ _ (fw_maps _ _ _ H')) as Hl'.
  assert (Hmax : num_bytes e' <= INODE_MAX_BYTES) by apply (fw_size _ _ _ H').
  assert (Ht : length (take (Z.to_nat (end_ - off)) src) = Z.to_nat (end_ - off)) by (rewrite length_take; lia).
  apply list_eq. intros k. unfold splice. rewrite Ht.
  assert (Htk : length (take (Z.to_nat off) (file_data v e)) = Z.to_nat off) by (rewrite length_take; lia).
  destruct (decide (Z.of_nat k < num_bytes e')) as [Hk|Hk].
  - destruct (file_data_lookup sblock v' e' (Z.of_nat k) H' Hfs') as [E' _]; [lia|]. rewrite Nat2Z.id in E'. rewrite E'.
    assert (Hkeep : Z.of_nat k < num_bytes e -> ~ off <= Z.of_nat k < end_ -> fbyte v' e' (Z.of_nat k) = file_data v e !! k).
    { intros Hlt Hno. destruct (file_data_lookup sblock v e (Z.of_nat k) H Hfs) as [E _]; [lia|]. rewrite Nat2Z.id in E. rewrite E.
      apply Hold; [lia|done|]. apply (fw_full _ _ _ H); [apply Z.div_pos; unfold BLOCK_SIZE; lia|].
      unfold BLOCK_SIZE. pose proof (Z.div_mod (Z.of_nat k) 512 ltac:(lia)). pose proof (Z.mod_pos_bound (Z.of_nat k) 512 ltac:(lia)). lia. }
    destruct (decide (Z.of_nat k < off)); [|destruct (decide (Z.of_nat k < end_))].
    + rewrite lookup_app_l, lookup_take_lt by lia. apply Hkeep; lia.
    + rewrite lookup_app_r, Htk, lookup_app_l, lookup_take_lt by lia. rewrite Hnew by lia. f_equal. lia.
    + rewrite !lookup_app_r; rewrite ?Htk, ?Ht; try lia. rewrite lookup_drop, Hkeep by lia. f_equal. lia.
  - rewrite !lookup_ge_None_2; [done| |lia]. rewrite !length_app, Htk, Ht, length_drop. lia.
Qed.

Lemma set_size_maps v e n : maps_ok v e -> word_ok 4 n -> maps_ok v (set_num_bytes n e) /\
  (forall i, blk v (set_num_bytes n e) i = blk v e i) /\ (forall b, owns v (set_num_bytes n e) b <-> owns v e b).
Proof.
  intros H Hn. split; [|done]. destruct H as [(H1 & H2 & H3 & H4 & H5 & H6) ? ? ? ?]. by split.
Qed.


(** ** The blocks written so far *)
Section data.
Context (v0 : gmap Z bytes) (e0 : InodeEntry) (src : bytes) (off end_ : Z).
Abbreviation first := (off / BLOCK_SIZE).
Context (Hfs : fs_ok v0) (Hm0 : maps_ok v0 e0) (Hsrc : end_ - off <= Z.of_nat (length src)) (Hbytes : Forall byte_ok src).

(** Before the block [i] is written. *)
Record written (i : Z) v e : Prop := {
  wr_grew : grew v0 e0 v e;
  wr_new : forall k, off <= k < pos off end_ i -> fbyte v e k = src !! Z.to_nat (k - off);
  wr_old : forall k, 0 <= k < INODE_MAX_BYTES -> ~ off <= k < pos off end_ i -> blk v0 e0 (k / BLOCK_SIZE) <> 0 -> fbyte v e k = fbyte v0 e0 k;
  wr_mapped : forall j, first <= j < i -> blk v e j <> 0
}.

(** The new content of the block of turn [i]. *)
Lemma splice_block (d : bytes) i k :
  turn_ok off end_ i -> length d = Z.to_nat BLOCK_SIZE -> i * BLOCK_SIZE <= k < (i + 1) * BLOCK_SIZE ->
  splice (Z.to_nat (pos off end_ i - i * BLOCK_SIZE))
    (range (Z.to_nat (pos off end_ i - off)) (Z.to_nat (pos off end_ (i + 1) - pos off end_ i)) src) d !! Z.to_nat (k - i * BLOCK_SIZE) =
  (if decide (pos off end_ i <= k < pos off end_ (i + 1)) then src !! Z.to_nat (k - off) else d !! Z.to_nat (k - i * BLOCK_SIZE)).
Proof.
  intros Ht Hd Hk. destruct (turn_bounds _ _ _ Ht) as (Hi & Hie & Hps & Hp1 & Hpo & Hpe & Hp2).
  set (o := pos off end_ i) in *. set (o' := pos off end_ (i + 1)) in *.
  assert (Hr : length (range (Z.to_nat (o - off)) (Z.to_nat (o' - o)) src) = Z.to_nat (o' - o)) by (apply range_length; lia).
  rewrite splice_lookup; rewrite Hr, ?Hd; [|unfold BLOCK_SIZE in *; lia].
  destruct (decide (o <= k < o')).
  - rewrite decide_True by lia. rewrite range_lookup, decide_True by lia. f_equal. lia.
  - by rewrite decide_False by lia.
Qed.

Lemma written_start : 0 <= off <= end_ -> written first v0 e0.
Proof.
  intros Ho. split; try done.
  - by apply grew_refl.
  - intros k Hk. rewrite pos_first in Hk by done. lia.
  - lia.
Qed.

(** The new content of the block [i], from its content [d]. *)
Definition turn_data (i : Z) (d : bytes) : bytes :=
  splice (Z.to_nat (pos off end_ i - i * BLOCK_SIZE)) (range (Z.to_nat (pos off end_ i - off)) (Z.to_nat (pos off end_ (i + 1) - pos off end_ i)) src) d.

Lemma turn_data_ok i d : turn_ok off end_ i -> block_ok d -> block_ok (turn_data i d).
Proof.
  intros Ht [Hl Hb]. destruct (turn_bounds _ _ _ Ht) as (Hi & Hie & Hps & Hp1 & Hpo & Hpe & Hp2).
  split; [|by apply splice_ok; [apply range_ok|]]. unfold turn_data.
  rewrite splice_length; [done|]. rewrite range_length by lia. rewrite Hl. unfold BLOCK_SIZE in *. lia.
Qed.

Lemma written_turn i v1 e1 v2 e2 b d :
  turn_ok off end_ i -> written i v1 e1 -> mapped sblock v1 e1 v2 e2 i b -> v2 !! b = Some d ->
  written (i + 1) (<[b := turn_data i d]> v2) e2.
Proof.
  intros Ht [G Wn Wo Wm] M Hd. destruct (turn_bounds _ _ _ Ht) as (Hi & Hie & Hps & Hp1 & Hpo & Hpe & Hp2).
  pose proof splice_block as Hsp. assert (Hdok : block_ok d) by by eapply (fo_block _ _ (mp_fs _ _ _ _ _ _ _ M)).
  pose proof (turn_data_ok i d Ht Hdok) as Hd'. pose proof Ht as [Ho He _]. assert (Hmax : end_ <= 71680) by apply He.
  destruct (grew_turn v0 e0 v1 e1 v2 e2 i b _ G Hm0 M Hi Hd') as (G' & Hbi & Hbj).
  destruct (turn_bytes v1 e1 v2 e2 i b (turn_data i d) M (gr_maps _ _ _ _ G) Hi) as [Hin Hout].
  assert (Hold : forall k, i * BLOCK_SIZE <= k < (i + 1) * BLOCK_SIZE -> blk v1 e1 i <> 0 -> d !! Z.to_nat (k - i * BLOCK_SIZE) = fbyte v1 e1 k).
  { intros k Hk Hne. destruct (mp_old _ _ _ _ _ _ _ M Hne) as [-> Ed]. symmetry. apply fbyte_block; [done|congruence|done]. }
  set (o := pos off end_ i) in *. set (o' := pos off end_ (i + 1)) in *.
  split; [done|..].
  - intros k Hk. fold o' in Hk. destruct (decide (i * BLOCK_SIZE <= k < (i + 1) * BLOCK_SIZE)) as [Hki|Hki].
    + rewrite Hin by done. unfold turn_data. rewrite Hsp; [|done|apply Hdok|done].
      rewrite decide_True; [done|]. unfold o, pos, BLOCK_SIZE in *. lia.
    + rewrite Hout; [|change INODE_MAX_BYTES with 71680; lia|done]. apply Wn. fold o. unfold o, pos, BLOCK_SIZE in *. lia.
  - intros k Hk Hko Hb0. fold o' in Hko. destruct (decide (i * BLOCK_SIZE <= k < (i + 1) * BLOCK_SIZE)) as [Hki|Hki].
    + assert (Ek : k / BLOCK_SIZE = i) by (symmetry; apply (Z.div_unique _ _ _ (k - i * BLOCK_SIZE)); unfold BLOCK_SIZE in *; lia).
      rewrite Ek in Hb0. pose proof (gr_keep _ _ _ _ G i Hi Hb0) as Hbe.
      rewrite Hin by done. unfold turn_data. rewrite Hsp; [|done|apply Hdok|done]. fold o o'.
      rewrite decide_False by lia. rewrite Hold by congruence || done. apply Wo; [done|fold o; lia|by rewrite Ek].
    + rewrite Hout by done. apply Wo; [done| |done]. fold o. unfold o, pos, BLOCK_SIZE in *. lia.
  - intros j Hj. destruct (decide (j = i)) as [->|Hji]; [rewrite Hbi; apply (mp_b _ _ _ _ _ _ _ M)|].
    assert (0 <= first) by (apply Z.div_pos; unfold BLOCK_SIZE; lia). rewrite Hbj by lia. apply Wm. lia.
Qed.

(** After the last block. *)
Context (Hw0 : file_wf v0 e0) (Hoff : 0 <= off <= num_bytes e0) (Hend : off < end_ <= INODE_MAX_BYTES).
Definition written_all v e : Prop := written ((end_ - 1) / BLOCK_SIZE + 1) v e.

Lemma written_full v e : written_all v e -> forall i, 0 <= i -> i * BLOCK_SIZE < Z.max (num_bytes e0) end_ -> blk v e i <> 0.
Proof.
  intros [G Wn Wo Wm] i Hi Hlt. assert (Hi140 : 0 <= i < INODE_MAX_BLOCKS).
  { pose proof (fw_size _ _ _ Hw0). change INODE_MAX_BYTES with 71680 in *. change INODE_MAX_BLOCKS with 140. unfold BLOCK_SIZE in *. lia. }
  destruct (decide (i * BLOCK_SIZE < num_bytes e0)) as [Hlt'|Hge].
  - pose proof (fw_full _ _ _ Hw0 i Hi Hlt') as Hb. by rewrite (gr_keep _ _ _ _ G).
  - apply Wm. unfold BLOCK_SIZE in *. pose proof (Z.div_mod off 512 ltac:(lia)). pose proof (Z.mod_pos_bound off 512 ltac:(lia)).
    pose proof (Z.div_mod (end_ - 1) 512 ltac:(lia)). pose proof (Z.mod_pos_bound (end_ - 1) 512 ltac:(lia)). lia.
Qed.

Lemma written_bytes v e : written_all v e ->
  (forall k, off <= k < end_ -> fbyte v e k = src !! Z.to_nat (k - off)) /\
  (forall k, 0 <= k < INODE_MAX_BYTES -> ~ off <= k < end_ -> blk v0 e0 (k / BLOCK_SIZE) <> 0 -> fbyte v e k = fbyte v0 e0 k).
Proof. intros [G Wn Wo Wm]. rewrite pos_last in * by lia. done. Qed.

(** The file has grown: its entry, with the new size, is written to disk. *)
Lemma written_grown v e ino d :
  written_all v e -> num_bytes e0 < end_ -> 0 <= ino < sb_num_inodes sblock -> v !! to_block_no sblock ino = Some d ->
  let e1 := set_num_bytes end_ e in
  let v' := <[to_block_no sblock ino := put_entry ino e1 d]> v in
  entry_ok e1 /\ file_wf v' e1 /\ file_data v' e1 = splice (Z.to_nat off) (take (Z.to_nat (end_ - off)) src) (file_data v0 e0) /\ others v0 e0 v' e1 ino.
Proof.
  intros W Hgt Hino Hd e1 v'. pose proof (wr_grew _ _ _ W) as G. destruct (gr_fields _ _ _ _ G) as (Hty & Hmaj & Hmin & Hnl & Hnb).
  pose proof (written_full v e W) as Hfull. destruct (written_bytes v e W) as [Hnew Hold]. assert (Hmax : end_ <= 71680) by apply Hend.
  destruct (set_size_maps v e end_ (gr_maps _ _ _ _ G)) as (Hm' & Hb' & Ho'); [split; [lia|change (256 ^ Z.of_nat 4) with 4294967296; lia]|].
  fold e1 in Hm', Hb', Ho'. assert (He1 : entry_ok e1) by apply (mo_entry _ _ _ Hm').
  assert (Hw1 : file_wf v e1).
  { split; [done|simpl; rewrite Hty; apply (fw_type _ _ _ Hw0)|done|]. intros i Hi Hlt. rewrite Hb'. apply Hfull; [done|]. simpl in Hlt. lia. }
  destruct (inode_block_write v e1 _ e1 d (gr_fs _ _ _ _ G) Hino Hd He1) as (Hfs2 & Hu2 & Hm1 & Hw2 & Hsy & Hoi).
  destruct (Hw2 Hw1) as [Hw3 Hd3]. fold v' in Hfs2, Hw3, Hd3, Hsy, Hoi. split; [done|]. split; [done|]. split.
  - rewrite Hd3. apply written_data; [exact Hw0|exact Hfs|exact Hw1|apply (gr_fs _ _ _ _ G)|lia|unfold INODE_MAX_BYTES in *; lia|lia|simpl; lia|exact Hnew|exact Hold].
  - split; [exact Hfs2| | |].
    + intros e2 He2 Hd2. destruct (grew_other _ _ _ _ e2 G He2 Hfs Hd2) as (H2' & Hd2' & Ho2).
      destruct (inode_block_write v e2 _ e1 d (gr_fs _ _ _ _ G) Hino Hd He1) as (_ & _ & Hm2 & Hw4 & _).
      destruct (Hw4 H2') as [Hw5 Hd5]. split; [exact Hw5|]. split; [exact (eq_trans Hd5 Hd2')|].
      destruct (Hm2 (fw_maps _ _ _ H2')) as [_ Hb2]. destruct (Hm1 Hm') as [_ Hb1]. intros b Hob Hob2. apply (Ho2 b).
      * apply Ho'. destruct Hob as [Hb0 Hob]. split; [done|]. destruct Hob as [->|(i & Hi & <-)]; [by left|right]. exists i. by rewrite Hb1.
      * destruct Hob2 as [Hb0 Hob2]. split; [done|]. destruct Hob2 as [->|(i & Hi & <-)]; [by left|right]. exists i. by rewrite Hb2.
    + intros j Hj Hji. etrans; [by apply Hoi|]. unfold disk_entry. by rewrite (grew_disk _ _ _ _ _ G Hfs Hj).
    + intros _. exact Hsy.
Qed.
End data.

(** ** One call of [inode_map] by the loop *)
Definition has_table e : Z := if indirect e =? 0 then 0 else 1.

Lemma has_table_bounds e : 0 <= has_table e <= 1.
Proof. unfold has_table. destruct (indirect e =? 0); lia. Qed.

Lemma map_step c a0 X s a p ip i :
  abs c (cache s) a -> st_held a = ∅ -> st_dirty a = ∅ -> iheap s !! p = Some ip ->
  fs_ok (st_view a) -> maps_ok (st_view a) (entry ip) -> 0 <= i < INODE_MAX_BLOCKS ->
  1 + (1 - has_table (entry ip)) <= free_count sblock (st_view a) -> spent a0 X a -> bmb ∈ X ->
  (indirect (entry ip) <> 0 -> indirect (entry ip) ∈ X) ->
  Z.of_nat (size X) + 1 + (1 - has_table (entry ip)) <= st_budget a0 ->
  exists b md e' a' cs X',
    inode_map (Some c) p i s = Ret ((b, md), set_iheap (insert p (set_entry e' ip)) (set_cache cs s)) /\
    abs c cs a' /\ st_held a' = ∅ /\ st_dirty a' = ∅ /\ mapped sblock (st_view a) (entry ip) (st_view a') e' i b /\
    spent a0 X' a' /\ X ⊆ X' /\ b ∈ X' /\ (indirect e' <> 0 -> indirect e' ∈ X') /\
    (blk (st_view a) (entry ip) i <> 0 -> e' = entry ip) /\
    Z.of_nat (size X') <= Z.of_nat (size X) + 1 + (has_table e' - has_table (entry ip)) /\
    free_count sblock (st_view a) - 1 - (has_table e' - has_table (entry ip)) <= free_count sblock (st_view a').
Proof.
  intros H Hh Hdt Hp Hfs Hm Hi Hf Hs HbX HiX Hx.
  assert (Hsize : forall b : Z, Z.of_nat (size ({[b]} ∪ X)) <= Z.of_nat (size X) + 1).
  { intros b. rewrite size_union_alt, size_singleton. assert (size (X ∖ {[b]}) <= size X)%nat by (apply subseteq_size; set_solver). lia. }
  destruct (decide (blk (st_view a) (entry ip) i = 0)) as [Hb|Hb].
  - assert (Ht : table_missing (entry ip) i <= 1 - has_table (entry ip)).
    { unfold table_missing, has_table. destruct (INODE_NUM_DIRECT <=? i), (indirect (entry ip) =? 0); simpl; lia. }
    destruct (map_miss sblock c a0 X s a p ip i) as (b & e' & a' & cs & E & H' & Hh' & Hdt' & M & Hs' & Hf'); try done; try lia.
    set (X' := {[b]} ∪ (if INODE_NUM_DIRECT <=? i then {[indirect e']} else ∅) ∪ X) in *.
    exists b, true, e', a', cs, X'. do 6 (split; [done|]). split; [set_solver|]. split; [set_solver|].
    unfold table_missing, has_table in *. destruct (Z.leb_spec INODE_NUM_DIRECT i) as [Hid|Hid]; simpl in *.
    + pose proof (mp_table _ _ _ _ _ _ _ M Hid) as Hne. rewrite (proj2 (Z.eqb_neq (indirect e') 0)) by done.
      split; [set_solver|]. split; [done|]. destruct (Z.eqb_spec (indirect (entry ip)) 0) as [H0|H0]; (split; [|lia]).
      * specialize (Hsize b). assert (size X' <= 1 + size ({[b]} ∪ X))%nat; [|lia].
        replace X' with ({[indirect e']} ∪ ({[b]} ∪ X)) by set_solver.
        rewrite size_union_alt, size_singleton. apply Nat.add_le_mono_l, subseteq_size. set_solver.
      * replace X' with ({[b]} ∪ X); [specialize (Hsize b); lia|]. rewrite (mp_ind _ _ _ _ _ _ _ M H0) in *.
        specialize (HiX H0). unfold X'. rewrite (mp_ind _ _ _ _ _ _ _ M H0). set_solver.
    + rewrite (mp_direct _ _ _ _ _ _ _ M) by lia. split; [intros Hne; apply elem_of_union; right; by apply HiX|].
      split; [done|]. split; [|lia]. replace X' with ({[b]} ∪ X) by set_solver. specialize (Hsize b). lia.
  - destruct (map_hit sblock (Some c) _ _ s p ip i (abs_reader c a Hh Hdt) H Hp Hm Hi Hb) as (cs & E & H').
    exists (blk (st_view a) (entry ip) i), false, (entry ip), a, cs, ({[blk (st_view a) (entry ip) i]} ∪ X).
    rewrite set_entry_same by done. do 4 (split; [done|]). split; [by apply mapped_hit|].
    split; [eapply spent_mono; [done|set_solver]|]. split; [set_solver|]. split; [set_solver|].
    split; [intros Hne; apply elem_of_union; right; by apply HiX|]. split; [done|].
    specialize (Hsize (blk (st_view a) (entry ip) i)). lia.
Qed.

(** ** The loop *)
Section loop.
Context (c : Z) (a : store) (s : ist St) (p : Z) (ip : Inode) (src : bytes) (off end_ iblk : Z).
Abbreviation v0 := (st_view a).
Abbreviation e0 := (entry ip).
Abbreviation first := (off / BLOCK_SIZE).
Context (Hfs : fs_ok v0) (Hm0 : maps_ok v0 e0) (Hsrc : end_ - off <= Z.of_nat (length src)) (Hbytes : Forall byte_ok src).

(** Between turns: what has been written, what has not changed, and the
    blocks and the budget used so far. *)
Record write_inv (i : Z) (ai : store) (ei : InodeEntry) (X : gset Z) : Prop := {
  wv_held : st_held ai = ∅;
  wv_dirty : st_dirty ai = ∅;
  wv_data : written v0 e0 src off end_ i (st_view ai) ei;
  wv_same : (forall j, first <= j < i -> blk v0 e0 j <> 0) -> ei = e0;
  wv_spent : spent a X ai;
  wv_bmb : bmb ∈ X;
  wv_iblk : iblk ∈ X;
  wv_ind : indirect ei <> 0 -> indirect ei ∈ X;
  wv_size : Z.of_nat (size X) <= 2 + has_table ei + (i - first);
  wv_free : free_count sblock v0 - (i - first) - has_table ei <= free_count sblock (st_view ai)
}.

Definition write_state (i : Z) (st : Z * Z) (s' : ist St) : Prop :=
  exists cs ai ei X, s' = set_iheap (insert p (set_entry ei ip)) (set_cache cs s) /\ abs c cs ai /\
    st = (pos off end_ i, pos off end_ i - off) /\ write_inv i ai ei X.

Lemma write_turn_spec i st s' :
  turn_ok off end_ i -> 3 + (i - first + 1) <= st_budget a -> (i - first + 1) + 1 <= free_count sblock v0 ->
  write_state i st s' ->
  exists st2 s2, write_turn (Some c) p src end_ i st s' = Ret (st2, s2) /\ write_state (i + 1) st2 s2.
Proof.
  intros Ht Hbud Hfree (cs & ai & ei & X & -> & H & -> & W).
  destruct (turn_bounds _ _ _ Ht) as (Hi & Hie & Hps & Hp1 & Hpo & Hpe & Hp2).
  pose proof (turn_length _ _ _ Ht) as Hn. pose proof (turn_mod _ _ _ Ht) as Hmod.
  set (o := pos off end_ i) in *. set (o' := pos off end_ (i + 1)) in *.
  pose proof (wr_grew _ _ _ _ _ _ _ _ (wv_data _ _ _ _ W)) as G. pose proof (has_table_bounds ei) as Htb.
  pose proof (wv_size _ _ _ _ W) as HsX. pose proof (wv_free _ _ _ _ W) as HfX.
  set (s1 := set_iheap (insert p (set_entry ei ip)) (set_cache cs s)).
  destruct (map_step c a X s1 ai p (set_entry ei ip) i) as
    (b & md & e2 & a2 & c1 & X' & E1 & H1 & Hh1 & Hdt1 & M & Hs1 & HX & HbX & HiX & Hsame & Hsz & Hfr);
    try (exact H || exact (wv_held _ _ _ _ W) || exact (wv_dirty _ _ _ _ W) || exact (wv_spent _ _ _ _ W) ||
         exact (wv_bmb _ _ _ _ W) || exact (wv_ind _ _ _ _ W) || exact (gr_fs _ _ _ _ G) || exact (gr_maps _ _ _ _ G) || done); try lia.
  { simpl. apply lookup_insert_eq. }
  { simpl. lia. }
  { simpl. lia. }
  simpl entry in *. pose proof (has_table_bounds e2) as Htb2.
  pose proof (mp_maps _ _ _ _ _ _ _ M) as Hm2.
  assert (Hbd : data_block (st_view a2) b).
  { pose proof (mp_blk _ _ _ _ _ _ _ M i Hi) as Eb. rewrite Z.eqb_refl in Eb.
    rewrite <- Eb. apply (mo_data _ _ _ Hm2); [done|]. rewrite Eb. apply (mp_b _ _ _ _ _ _ _ M). }
  pose proof Hbd as (_ & _ & _ & [d Hd]).
  assert (Hdok : block_ok d) by (eapply (fo_block _ _ (mp_fs _ _ _ _ _ _ _ M)); exact Hd).
  set (n := o' - o) in *.
  set (d' := turn_data src off end_ i d). assert (Hd' : block_ok d') by by apply turn_data_ok.
  destruct (put_block c c1 a2 b d d' H1 Hd) as (q & c2 & c3 & c4 & c5 & E2 & E3 & E4 & E5 & E6 & H6);
    [by rewrite Hh1|done|eapply spent_syncable; [exact Hs1|done|lia]|].
  pose proof Ht as [Ho He _]. assert (Hmax : end_ <= 71680) by apply He.
  eexists _, (set_iheap (insert p (set_entry e2 ip)) (set_cache c5 s)). split.
  { unfold write_turn. fold o. rewrite Hn. fold n. cbv zeta. rewrite (bind_Ret _ _ _ _ _ E1). cbn [fst].
    erewrite bind_Ret by (apply on_cache_Ret; exact E2). erewrite bind_Ret by (apply on_cache_Ret; exact E3).
    rewrite (proj2 (Z.ltb_ge _ _)) by (unfold n; lia). rewrite Hmod.
    erewrite bind_Ret by (apply on_cache_Ret; exact E4). erewrite bind_Ret by (apply on_cache_Ret; exact E5).
    erewrite bind_Ret by (apply on_cache_Ret; exact E6). unfold s1, set_iheap, set_cache. simpl.
    rewrite insert_insert_eq. reflexivity. }
  exists c5, (a_put b d' a2), e2, X'. split; [done|]. split; [done|]. split.
  { fold o'. rewrite !u64_small by (unfold n; lia). f_equal; unfold n; lia. }
  split; simpl; try done.
  - rewrite Hdt1. set_solver.
  - apply (written_turn v0 e0 src off end_ Hm0 Hsrc Hbytes i (st_view ai) ei); [done|apply (wv_data _ _ _ _ W)|done|done].
  - intros Hall. rewrite Hsame; [apply (wv_same _ _ _ _ W); intros j Hj; apply Hall; lia|].
    assert (Hb0 : blk v0 e0 i <> 0) by (apply Hall; destruct Ht; lia).
    by rewrite (gr_keep _ _ _ _ G i Hi Hb0).
  - by apply spent_put.
  - apply HX, (wv_bmb _ _ _ _ W).
  - apply HX, (wv_iblk _ _ _ _ W).
  - lia.
  - rewrite free_write by by apply (data_not_bmb sblock (st_view a2)). lia.
Qed.

Definition start_blocks : gset Z := {[bmb; iblk]} ∪ (if indirect e0 =? 0 then ∅ else {[indirect e0]}).

Lemma write_start : 0 <= off <= end_ -> st_held a = ∅ -> st_dirty a = ∅ -> write_inv first a e0 start_blocks.
Proof.
  intros Ho Hh Hdt. split; try done.
  - by apply written_start.
  - apply spent_refl.
  - unfold start_blocks. set_solver.
  - unfold start_blocks. set_solver.
  - intros Hne. unfold start_blocks. rewrite (proj2 (Z.eqb_neq _ _)) by done. set_solver.
  - unfold start_blocks, has_table. rewrite Z.sub_diag.
    assert (Hle : (size ({[bmb; iblk]} : gset Z) <= 2)%nat).
    { rewrite size_union_alt, !size_singleton. assert (size ({[iblk]} ∖ {[bmb]} : gset Z) <= 1)%nat; [|lia].
      rewrite <- (size_singleton (C := gset Z) iblk). apply subseteq_size. set_solver. }
    destruct (indirect e0 =? 0); [rewrite (right_id_L ∅ _); lia|].
    rewrite size_union_alt. assert (size ({[indirect e0]} ∖ {[bmb; iblk]} : gset Z) <= 1)%nat; [|lia].
    rewrite <- (size_singleton (C := gset Z) (indirect e0)). apply subseteq_size. set_solver.
  - pose proof (has_table_bounds e0). lia.
Qed.

Lemma write_loop :
  0 <= off <= end_ -> 1 <= end_ <= INODE_MAX_BYTES -> abs c (cache s) a -> st_held a = ∅ -> st_dirty a = ∅ ->
  iheap s !! p = Some ip ->
  3 + Z.of_nat (block_turns off end_) <= st_budget a -> Z.of_nat (block_turns off end_) + 1 <= free_count sblock v0 ->
  exists s', for_acc (block_turns off end_) first (write_turn (Some c) p src end_) (off, 0) s = Ret ((end_, end_ - off), s') /\
    write_state ((end_ - 1) / BLOCK_SIZE + 1) (end_, end_ - off) s'.
Proof.
  intros Ho He H Hh Hdt Hp Hbud Hfree. destruct (turns off end_ Ho He) as [Et Hturn].
  destruct (for_acc_inv write_state (write_turn (Some c) p src end_) (block_turns off end_) first (off, 0) s) as (st' & s' & E & Hst).
  - exists (cache s), a, e0, start_blocks. split; [|split; [done|split; [|by apply write_start]]].
    + rewrite set_entry_same by done. by destruct s.
    + rewrite pos_first, Z.sub_diag by done. done.
  - intros j st' s' Hj Hst. apply write_turn_spec; [by apply Hturn|lia|lia|done].
  - rewrite Et in Hst. replace (first + ((end_ - 1) / BLOCK_SIZE - first + 1)) with ((end_ - 1) / BLOCK_SIZE + 1) in Hst by lia.
    pose proof Hst as (cs & ai & ei & X & _ & _ & Est & _). rewrite pos_last in Est by done. subst st'. exists s'. done.
Qed.
End loop.

(** ** Synchronising the entry *)
Lemma sync_spec c a s p ip d :
  abs c (cache s) a -> st_held a = ∅ -> iheap s !! p = Some ip -> ivalid ip = true -> entry_ok (entry ip) ->
  st_view a !! to_block_no sblock (inode_no ip) = Some d -> syncable (to_block_no sblock (inode_no ip)) a ->
  exists cs, inode_sync sblock (Some c) p true s = Ret (tt, set_cache cs s) /\
    abs c cs (a_put (to_block_no sblock (inode_no ip)) (put_entry (inode_no ip) (entry ip) d) a).
Proof.
  intros H Hh Hp Hv He Hd Hs.
  destruct (put_block c (cache s) a _ d (put_entry (inode_no ip) (entry ip) d) H Hd) as
    (q & c1 & c2 & c3 & c4 & E1 & E2 & E3 & E4 & E5 & H5); [by rewrite Hh| |done|].
  { apply put_entry_ok; [by eapply abs_block|apply He]. }
  exists c4. split; [|done]. unfold inode_sync. erewrite bind_Ret by (unfold load_inode; by rewrite Hp).
  erewrite bind_Ret by (apply on_cache_Ret; exact E1). erewrite bind_Ret by (apply on_cache_Ret; exact E2).
  rewrite Hv. cbn [andb]. rewrite bind_assoc. erewrite bind_Ret by (apply on_cache_Ret; exact E3).
  erewrite bind_Ret by (apply on_cache_Ret; exact E4). erewrite on_cache_Ret by (exact E5). done.
Qed.

(** ** The whole call *)

Lemma inode_write_spec c a s p ip src off count :
  abs c (cache s) a -> st_held a = ∅ -> st_dirty a = ∅ -> iheap s !! p = Some ip -> ivalid ip = true ->
  0 <= inode_no ip < sb_num_inodes sblock ->
  fs_ok (st_view a) -> file_wf (st_view a) (entry ip) ->
  0 <= off <= num_bytes (entry ip) -> 0 < count -> off + count <= INODE_MAX_BYTES ->
  count <= Z.of_nat (length src) -> Forall byte_ok src ->
  3 + Z.of_nat (block_turns off (off + count)) <= st_budget a ->
  Z.of_nat (block_turns off (off + count)) + 1 <= free_count sblock (st_view a) ->
  exists cs a' e',
    inode_write sblock (Some c) p src off count s = Ret (count, set_iheap (insert p (set_entry e' ip)) (set_cache cs s)) /\
    abs c cs a' /\ st_held a' = ∅ /\ st_dirty a' = ∅ /\ file_wf (st_view a') e' /\
    file_data (st_view a') e' = splice (Z.to_nat off) (take (Z.to_nat count) src) (file_data (st_view a) (entry ip)) /\
    others (st_view a) (entry ip) (st_view a') e' (inode_no ip) /\ type e' = type (entry ip) /\ num_links e' = num_links (entry ip).
Proof.
  intros H Hh Hdt Hp Hv Hino Hfs Hw Hoff Hc Hend Hsrc Hbytes Hbud Hfree.
  pose proof (fw_maps _ _ _ Hw) as Hm. set (end_ := off + count) in *.
  assert (Hmax : end_ <= 71680) by exact Hend.
  destruct (write_loop c a s p ip src off end_ (to_block_no sblock (inode_no ip)) Hfs Hm) as
    (s' & E & cs & ai & ei & X & -> & H' & _ & W); try done; try (unfold end_; lia).
  assert (WD : written_all (st_view a) (entry ip) src off end_ (st_view ai) ei) by exact (wv_data _ _ _ _ _ _ _ _ _ _ W).
  pose proof (wr_grew _ _ _ _ _ _ _ _ WD) as G. pose proof (gr_fields _ _ _ _ G) as (Hty & Hmaj & Hmin & Hnl & Hnb).
  set (s1 := set_iheap (insert p (set_entry ei ip)) (set_cache cs s)) in *.
  assert (Hp1 : iheap s1 !! p = Some (set_entry ei ip)) by (simpl; apply lookup_insert_eq).
  pose proof (wv_size _ _ _ _ _ _ _ _ _ _ W) as HsX. pose proof (has_table_bounds ei) as Htb.
  destruct (turns off end_) as [Et _]; [lia|change INODE_MAX_BYTES with 71680; lia|].
  assert (Hend' : off < end_ <= INODE_MAX_BYTES) by (change INODE_MAX_BYTES with 71680; unfold end_ in *; lia).
  pose proof (written_full _ _ _ _ _ Hw Hoff Hend' _ _ WD) as Hfull. destruct (written_bytes _ _ _ _ _ Hoff Hend' _ _ WD) as [Hnew Hold].
  assert (Erun : inode_write sblock (Some c) p src off count s =
    ((if end_ >? num_bytes ei then update_entry p (set_num_bytes (u32 end_)) ;;; inode_sync sblock (Some c) p true else ret tt) ;;;
     ret count) s1).
  { unfold inode_write. rewrite (bind_Ret _ _ _ _ _ (load_entry_Ret s p ip Hp)). fold end_.
    rewrite (u64_small end_) by lia. cbv zeta. rewrite (proj2 (Z.eqb_neq _ _)) by apply (fw_type _ _ _ Hw).
    rewrite !(proj2 (Z.leb_le _ _)) by (done || lia). do 3 erewrite bind_Ret by reflexivity.
    rewrite (bind_Ret _ _ _ _ _ E), (bind_Ret _ _ _ _ _ (load_entry_Ret s1 p _ Hp1)). simpl entry. cbn [snd].
    by replace (end_ - off) with count by (unfold end_; lia). }
  rewrite Erun. replace count with (end_ - off) at 3 by (unfold end_; lia).
  destruct (Z.gtb_spec end_ (num_bytes ei)) as [Hgt|Hle].
  - assert (Hu : u32 end_ = end_) by (apply wrapu_small; lia). rewrite Hu.
    set (e1 := set_num_bytes end_ ei) in *.
    set (s2 := set_iheap (insert p (set_entry e1 ip)) (set_cache cs s)).
    destruct (fo_inode _ _ (gr_fs _ _ _ _ G) _ Hino) as [[d Hd] Hnebm].
    destruct (written_grown (st_view a) (entry ip) src off end_ Hfs ltac:(unfold end_; lia) Hw Hoff Hend' _ _ _ d WD ltac:(lia) Hino Hd) as (He1 & Hw3 & Hd3 & Hot).
    fold e1 in He1, Hw3, Hd3, Hot.
    destruct (sync_spec c ai s2 p (set_entry e1 ip) d) as (c2 & E2 & H2); try done.
    { apply (wv_held _ _ _ _ _ _ _ _ _ _ W). } { simpl. apply lookup_insert_eq. }
    { simpl. eapply spent_syncable; [apply (wv_spent _ _ _ _ _ _ _ _ _ _ W)|apply (wv_iblk _ _ _ _ _ _ _ _ _ _ W)|lia]. }
    simpl inode_no in *. simpl entry in *.
    eexists c2, _, e1. split.
    { rewrite bind_assoc. erewrite bind_Ret by (apply update_entry_Ret; exact Hp1). simpl entry.
      unfold s1, set_iheap at 1. simpl iheap. simpl cache. rewrite insert_insert_eq. fold e1.
      change (mkIst _ _ _ _ _) with s2. rewrite (bind_Ret _ _ _ _ _ E2). reflexivity. }
    split; [exact H2|]. split; [simpl; apply (wv_held _ _ _ _ _ _ _ _ _ _ W)|].
    split; [simpl; rewrite (wv_dirty _ _ _ _ _ _ _ _ _ _ W); set_solver|]. split; [exact Hw3|].
    split; [|split; [exact Hot|by rewrite <- Hty, <- Hnl]]. simpl. rewrite Hd3. do 3 f_equal. unfold end_. lia.
  - assert (Esame : ei = entry ip).
    { apply (wv_same _ _ _ _ _ _ _ _ _ _ W). intros j Hj. unfold BLOCK_SIZE in *.
      pose proof (Z.div_mod off 512 ltac:(lia)). pose proof (Z.mod_pos_bound off 512 ltac:(lia)).
      pose proof (Z.div_mod (end_ - 1) 512 ltac:(lia)). pose proof (Z.mod_pos_bound (end_ - 1) 512 ltac:(lia)).
      apply (fw_full _ _ _ Hw); unfold BLOCK_SIZE; lia. }
    assert (Hw1 : file_wf (st_view ai) ei).
    { split; [apply (gr_maps _ _ _ _ G)|rewrite Hty; apply (fw_type _ _ _ Hw)|rewrite Hnb; apply (fw_size _ _ _ Hw)|].
      intros i Hi Hlt. apply Hfull; [done|lia]. }
    exists cs, ai, ei. split; [by erewrite bind_Ret by reflexivity|]. split; [done|].
    split; [apply (wv_held _ _ _ _ _ _ _ _ _ _ W)|]. split; [apply (wv_dirty _ _ _ _ _ _ _ _ _ _ W)|]. split; [done|].
    split; [|split; [|done]].
    + replace count with (end_ - off) by (unfold end_; lia).
      apply written_data; [exact Hw|exact Hfs|exact Hw1|apply (gr_fs _ _ _ _ G)|lia|lia|lia|lia|exact Hnew|exact Hold].
    + split; [apply (gr_fs _ _ _ _ G)| | |].
      * intros e2 H2 Hd2. by apply (grew_other _ _ _ _ e2 G H2 Hfs Hd2).
      * intros j Hj _. unfold disk_entry. by rewrite (grew_disk _ _ _ _ _ G Hfs Hj).
      * unfold disk_entry. rewrite (grew_disk _ _ _ _ _ G Hfs Hino). by rewrite Esame.
Qed.
End write.
