(* ===== verification/InodeDir.v ===== *)
(** * Directories (fs/inode.c): lookup, insert and remove

    A directory is a file of [DirEntry]s.  With distinct live names it is a
    finite map from names to inode numbers, and the three operations are
    those of the map. *)
From stdpp Require Import base gmap list.
From Stdlib Require Import ZArith Lia.
From S2P Require Import Prelude Bytes Bitmap BCache BlockStore CString Console Inode InodeFile InodeMap InodeWrite.

(** The first result of a search loop. *)
Fixpoint first_some {B} (n : nat) (i : Z) (f : Z -> option B) : option B :=
  match n with O => None | S n' => match f i with Some b => Some b | None => first_some n' (i + 1) f end end.

Lemma for_upto_search {S B} (I : S -> Prop) (f : Z -> option B) (body : Z -> M S (option B)) n i s :
  I s -> (forall j s, i <= j < i + Z.of_nat n -> I s -> exists s', body j s = Ret (f j, s') /\ I s') ->
  exists s', for_upto n i body s = Ret (first_some n i f, s') /\ I s'.
Proof.
  revert i s. induction n as [|n IH]; intros i s Hs Hb; [by exists s|].
  destruct (Hb i s) as (s1 & E & H1); [lia|done|]. cbn [for_upto first_some]. rewrite (bind_Ret _ _ _ _ _ E).
  destruct (f i); [by exists s1|]. apply IH; [done|]. intros j s' Hj. apply Hb. lia.
Qed.

(** ** Entries *)
Definition entry_at (data : bytes) (k : nat) : DirEntry := dirent_of (range (16 * k) 16 data).
Definition dirents (v : gmap Z bytes) (e : InodeEntry) : list DirEntry :=
  entry_at (file_data v e) <$> seq 0 (Z.to_nat (num_bytes e / sizeof_DirEntry)).

Definition live (de : DirEntry) : bool := negb (de_inode_no de =? 0).
Definition dname (de : DirEntry) : list Z := cstr (Z.to_nat FILE_NAME_MAX_LENGTH) (name de).

Fixpoint dir_find (nm : list Z) (k : nat) (l : list DirEntry) : option (Z * nat) :=
  match l with
  | [] => None
  | de :: l' => if live de && bool_decide (dname de = nm) then Some (de_inode_no de, k) else dir_find nm (S k) l'
  end.

Fixpoint free_slot (k : nat) (l : list DirEntry) : nat :=
  match l with [] => k | de :: l' => if live de then free_slot (S k) l' else k end.

Record dir_wf (sblock : SuperBlock) (v : gmap Z bytes) (e : InodeEntry) : Prop := {
  dw_file : file_wf sblock v e;
  dw_type : type e = INODE_DIRECTORY;
  dw_size : num_bytes e mod sizeof_DirEntry = 0
}.

(** ** The directory as a map *)
Definition dir_pairs (l : list DirEntry) : list (list Z * Z) := (fun de => (dname de, de_inode_no de)) <$> filter live l.
Definition dir_map (l : list DirEntry) : gmap (list Z) Z := list_to_map (dir_pairs l).
Definition dir_unique (l : list DirEntry) : Prop := NoDup (dir_pairs l).*1.

Lemma dir_pairs_cons de l : dir_pairs (de :: l) = if live de then (dname de, de_inode_no de) :: dir_pairs l else dir_pairs l.
Proof.
  unfold dir_pairs. destruct (live de) eqn:E; [rewrite filter_cons_True by (by rewrite E)|rewrite filter_cons_False by (rewrite E; by intros [])]; done.
Qed.

Lemma dir_pairs_app l1 l2 : dir_pairs (l1 ++ l2) = dir_pairs l1 ++ dir_pairs l2.
Proof. unfold dir_pairs. by rewrite filter_app, fmap_app. Qed.

Lemma dir_find_map nm k l : fst <$> dir_find nm k l = dir_map l !! nm.
Proof.
  revert k. unfold dir_map. induction l as [|de l IH]; intros k; [done|]. rewrite dir_pairs_cons. cbn [dir_find].
  destruct (live de); simpl; [|apply IH]. case_bool_decide as E.
  - rewrite E, lookup_insert_eq. done.
  - rewrite lookup_insert_ne by done. apply IH.
Qed.

Lemma dir_find_Some nm k l ino j :
  dir_find nm k l = Some (ino, j) ->
  (k <= j)%nat /\ exists l1 de l2, l = l1 ++ de :: l2 /\ length l1 = (j - k)%nat /\ live de = true /\ dname de = nm /\ de_inode_no de = ino.
Proof.
  revert k. induction l as [|de l IH]; intros k H; [done|]. cbn [dir_find] in H.
  destruct (live de && bool_decide (dname de = nm)) eqn:E.
  - simplify_eq. apply andb_true_iff in E as [El En%bool_decide_eq_true]. split; [lia|].
    exists [], de, l. split; [done|]. split; [simpl; lia|]. done.
  - destruct (IH _ H) as (Hk & l1 & de' & l2 & -> & Hl & ?). split; [lia|]. exists (de :: l1), de', l2.
    split; [done|]. split; [simpl; lia|]. done.
Qed.

Lemma free_slot_spec k l :
  (k <= free_slot k l)%nat /\
  ((free_slot k l = k + length l)%nat \/
   exists l1 de l2, l = l1 ++ de :: l2 /\ length l1 = (free_slot k l - k)%nat /\ live de = false).
Proof.
  revert k. induction l as [|de l IH]; intros k; simpl; [split; [done|left; lia]|].
  destruct (live de) eqn:E.
  - destruct (IH (S k)) as [Hk [H|(l1 & de' & l2 & -> & Hl & Hd)]]; (split; [lia|]); [left; lia|right].
    exists (de :: l1), de', l2. split; [done|]. split; [simpl; lia|done].
  - split; [done|]. right. exists [], de, l. split; [done|]. split; [simpl; lia|done].
Qed.

(** ** Writing one entry *)
Definition put_dirent (k : nat) (de : DirEntry) (l : list DirEntry) : list DirEntry := take k l ++ de :: drop (S k) l.

Lemma put_dirent_mid l1 d de l2 : put_dirent (length l1) de (l1 ++ d :: l2) = l1 ++ de :: l2.
Proof.
  unfold put_dirent. rewrite take_app_length. replace (S (length l1)) with (length (l1 ++ [d])) by (rewrite length_app; simpl; lia).
  rewrite (app_assoc l1 [d] l2 : l1 ++ d :: l2 = _). by rewrite drop_app_length.
Qed.

Lemma put_dirent_end l de : put_dirent (length l) de l = l ++ [de].
Proof. unfold put_dirent. rewrite firstn_all, drop_ge by lia. done. Qed.

Lemma map_put_new l k de :
  k = free_slot 0 l -> live de = true -> dir_unique l -> dir_map l !! dname de = None ->
  dir_unique (put_dirent k de l) /\ dir_map (put_dirent k de l) = <[dname de := de_inode_no de]> (dir_map l).
Proof.
  intros -> Hl Hu Hn. unfold dir_unique, dir_map in *.
  assert (Hp : dir_pairs (put_dirent (free_slot 0 l) de l) ≡ₚ (dname de, de_inode_no de) :: dir_pairs l).
  { destruct (free_slot_spec 0 l) as [_ [->|(l1 & d & l2 & El & Hk & Hd)]].
    - simpl. rewrite put_dirent_end, dir_pairs_app, dir_pairs_cons, Hl. by rewrite Permutation_app_comm.
    - rewrite Nat.sub_0_r in Hk. rewrite <- Hk, El, put_dirent_mid, !dir_pairs_app, !dir_pairs_cons, Hl, Hd.
      by rewrite Permutation_middle. }
  assert (Hnin : dname de ∉ (dir_pairs l).*1) by by apply not_elem_of_list_to_map.
  assert (Hnd : NoDup ((dname de, de_inode_no de) :: dir_pairs l).*1) by by apply NoDup_cons.
  split; [by rewrite Hp|]. rewrite (list_to_map_proper _ _ (dir_pairs _) Hp) || idtac.
  erewrite list_to_map_proper; [|by rewrite Hp|exact Hp]. done.
Qed.

Lemma map_put_dead l k de ino nm :
  dir_find nm 0 l = Some (ino, k) -> live de = false -> dir_unique l ->
  dir_unique (put_dirent k de l) /\ dir_map (put_dirent k de l) = delete nm (dir_map l).
Proof.
  intros Hf Hl Hu. destruct (dir_find_Some _ _ _ _ _ Hf) as (_ & l1 & d & l2 & -> & Hk & Hd & <- & <-).
  rewrite Nat.sub_0_r in Hk. subst k. rewrite put_dirent_mid. unfold dir_unique, dir_map in *.
  rewrite !dir_pairs_app, !dir_pairs_cons, Hl, Hd in *. rewrite !fmap_app, fmap_cons in *. simpl in *.
  assert (Hnd := Hu). apply NoDup_app in Hu as (Hu1 & Hu2 & [Hn2 Hu3]%NoDup_cons).
  assert (Hn1 : dname d ∉ (dir_pairs l1).*1) by (intros H; apply (Hu2 _ H); by left).
  split.
  - apply NoDup_app. split; [done|]. split; [|done]. intros x Hx Hx2. apply (Hu2 x Hx). by right.
  - rewrite <- Permutation_middle in Hnd.
    erewrite (list_to_map_proper (dir_pairs l1 ++ (dname d, de_inode_no d) :: dir_pairs l2)).
    3: { symmetry. apply Permutation_middle. }
    + simpl. rewrite delete_insert_id; [done|]. apply not_elem_of_list_to_map_1. rewrite fmap_app, elem_of_app. tauto.
    + rewrite fmap_app. simpl. by rewrite <- Permutation_middle.
Qed.

Lemma splice_lookup_le off src l i :
  (off <= length l)%nat ->
  splice off src l !! i = if decide (off <= i < off + length src)%nat then src !! (i - off)%nat else l !! i.
Proof.
  intros H. unfold splice. assert (Ht : length (take off l) = off) by (rewrite length_take; lia).
  destruct (decide (i < off)%nat).
  - rewrite lookup_app_l, lookup_take_lt by lia. by rewrite decide_False by lia.
  - rewrite lookup_app_r, Ht by lia. destruct (decide (i < off + length src)%nat).
    + rewrite lookup_app_l by lia. by rewrite decide_True by lia.
    + rewrite lookup_app_r, lookup_drop by lia. rewrite decide_False by lia. f_equal. lia.
Qed.

Lemma range_put k j n (x l : bytes) :
  (length x = n)%nat -> (n * k <= length l)%nat -> (0 < n)%nat ->
  range (n * j) n (splice (n * k) x l) = if decide (j = k) then x else range (n * j) n l.
Proof.
  intros Hx Hk Hn. apply list_eq. intros i. rewrite range_lookup. case_decide as Hi.
  - rewrite splice_lookup_le, Hx by done. case_decide as Hj.
    + assert (j = k) as -> by nia. rewrite decide_True by done. f_equal. lia.
    + rewrite decide_False by nia. by rewrite range_lookup, decide_True.
  - destruct (decide (j = k)); [by rewrite lookup_ge_None_2 by lia|]. by rewrite range_lookup, decide_False.
Qed.

(** ** The operations *)
Section dir.
Context {St : Type} {BC : BlockCache St} (sblock : SuperBlock) {BL : BlockCacheLaws St sblock}.
Implicit Types (v : gmap Z bytes) (e : InodeEntry) (s : ist St).

Lemma dir_turns_size v e : dir_wf sblock v e -> Z.of_nat (dir_turns e) = num_bytes e / sizeof_DirEntry /\ num_bytes e = 16 * Z.of_nat (dir_turns e).
Proof.
  intros H. pose proof (num_bytes_nonneg sblock v e (fw_maps _ _ _ (dw_file _ _ _ H))). pose proof (dw_size _ _ _ H) as Hm.
  unfold dir_turns, sizeof_DirEntry in *. pose proof (Z.div_mod (num_bytes e) 16 ltac:(lia)).
  assert (E : (num_bytes e + 16 - 1) / 16 = num_bytes e / 16) by (symmetry; apply (Z.div_unique _ _ _ 15); lia).
  rewrite E. assert (0 <= num_bytes e / 16) by (apply Z.div_pos; lia). lia.
Qed.

Lemma dirents_seq v e : dir_wf sblock v e -> dirents v e = entry_at (file_data v e) <$> seq 0 (dir_turns e).
Proof. intros H. unfold dirents. destruct (dir_turns_size v e H) as [<- _]. by rewrite Nat2Z.id. Qed.

Lemma dirents_length v e : dir_wf sblock v e -> length (dirents v e) = dir_turns e.
Proof. intros H. by rewrite (dirents_seq v e H), length_fmap, length_seq. Qed.

Lemma dirents_lookup v e k : dir_wf sblock v e -> (k < dir_turns e)%nat -> dirents v e !! k = Some (entry_at (file_data v e) k).
Proof. intros H Hk. rewrite (dirents_seq v e H), list_lookup_fmap, lookup_seq_lt by done. done. Qed.

Lemma entry_range v e k :
  dir_wf sblock v e -> (k < dir_turns e)%nat -> length (range (16 * k) 16 (file_data v e)) = 16%nat.
Proof.
  intros H Hk. destruct (dir_turns_size v e H) as [_ Hn].
  pose proof (file_data_length sblock v e (fw_maps _ _ _ (dw_file _ _ _ H))). apply range_length. lia.
Qed.

Lemma entry_name_length v e k : dir_wf sblock v e -> (k < dir_turns e)%nat -> length (name (entry_at (file_data v e) k)) = 14%nat.
Proof. intros H Hk. unfold entry_at, dirent_of. cbn [name]. by rewrite length_drop, (entry_range v e k H Hk). Qed.

(** A file with entry [k] rewritten is the directory with entry [k] replaced. *)
Lemma put_dirents v e v' e' k de :
  dir_wf sblock v e -> file_wf sblock v' e' -> type e' = type e -> dirent_ok de -> (k <= dir_turns e)%nat ->
  file_data v' e' = splice (16 * k) (dirent_bytes de) (file_data v e) ->
  dir_wf sblock v' e' /\ dirents v' e' = put_dirent k de (dirents v e).
Proof.
  intros H Hw' Hty Hde Hk Ed. destruct (dir_turns_size v e H) as [_ Hn].
  pose proof (file_data_length sblock v e (fw_maps _ _ _ (dw_file _ _ _ H))) as Hl.
  pose proof (file_data_length sblock v' e' (fw_maps _ _ _ Hw')) as Hl'.
  assert (Hdl : length (dirent_bytes de) = 16%nat) by (apply dirent_bytes_length, Hde).
  assert (Hn' : num_bytes e' = 16 * Z.max (Z.of_nat (dir_turns e)) (Z.of_nat k + 1)).
  { rewrite <- Hl', Ed. unfold splice. rewrite !length_app, length_take, length_drop, Hdl. lia. }
  assert (H' : dir_wf sblock v' e').
  { split; [done|rewrite Hty; apply (dw_type _ _ _ H)|]. rewrite Hn', Z.mul_comm. by apply Z.mod_mul. }
  split; [done|]. destruct (dir_turns_size v' e' H') as [_ Hn2].
  assert (Hdt : dir_turns e' = Nat.max (dir_turns e) (k + 1)) by lia.
  apply list_eq. intros j. rewrite (dirents_seq v' e' H'). unfold put_dirent.
  assert (Hlk : length (take k (dirents v e)) = k) by (rewrite length_take, (dirents_length v e H); lia).
  destruct (decide (j < dir_turns e')%nat) as [Hj|Hj].
  - rewrite list_lookup_fmap, lookup_seq_lt by done. simpl. unfold entry_at. rewrite Ed.
    rewrite (range_put k j 16) by (lia || done). destruct (decide (j = k)) as [->|Hjk].
    + rewrite lookup_app_r, Hlk, Nat.sub_diag by lia. simpl. f_equal. by apply dirent_of_bytes.
    + assert (Hjt : (j < dir_turns e)%nat) by lia. change (dirent_of (range (16 * j) 16 (file_data v e))) with (entry_at (file_data v e) j).
      rewrite <- (dirents_lookup v e j H Hjt). destruct (decide (j < k)%nat).
      * by rewrite lookup_app_l, lookup_take_lt by lia.
      * rewrite lookup_app_r, Hlk by lia. replace (j - k)%nat with (S (j - S k)) by lia. simpl.
        rewrite lookup_drop. f_equal. lia.
  - rewrite !lookup_ge_None_2; [done| |].
    + rewrite length_app, Hlk. simpl. rewrite length_drop, (dirents_length v e H). lia.
    + rewrite length_fmap, length_seq. lia.
Qed.

Section at_inode.
Context (c : Z) (a : store) (s : ist St) (p : Z) (ip : Inode).
Abbreviation v := (st_view a).
Abbreviation e := (entry ip).
Context (Hh : st_held a = ∅) (Hdt : st_dirty a = ∅) (Hp : iheap s !! p = Some ip).
Context (Hfs : fs_ok sblock v) (Hw : dir_wf sblock v e).

Definition same_store (s' : ist St) : Prop := exists cs, s' = set_cache cs s /\ abs c cs a.

Lemma read_dirent_spec (k : nat) s' :
  (k < dir_turns e)%nat -> same_store s' ->
  exists s2, read_dirent p (Z.of_nat k * sizeof_DirEntry) s' = Ret (entry_at (file_data v e) k, s2) /\ same_store s2.
Proof using Hh Hdt Hp Hfs Hw.
  intros Hk (cs & -> & H). destruct (dir_turns_size v e Hw) as [_ Hn]. pose proof (entry_range v e k Hw Hk) as Hl.
  unfold sizeof_DirEntry.
  destruct (inode_read_spec sblock c a (set_cache cs s) p ip (Z.of_nat k * 16) 16 H Hh Hdt Hp Hfs) as (c2 & E & H2);
    [apply Hw|lia|lia|]. exists (set_cache c2 s). split; [|by exists c2].
  unfold read_dirent. rewrite (bind_Ret _ _ _ _ _ E). cbn [snd].
  replace (Z.to_nat (Z.of_nat k * 16)) with (16 * k)%nat by lia. change (Z.to_nat 16) with 16%nat. by rewrite Hl.
Qed.

Lemma first_some_find nm (data : bytes) (n k : nat) :
  first_some n (Z.of_nat k) (fun i => let de := entry_at data (Z.to_nat i) in
    if de_inode_no de =? 0 then None else if bool_decide (dname de = nm) then Some (de_inode_no de, i * sizeof_DirEntry) else None) =
  (fun '(ino, j) => (ino, Z.of_nat j * sizeof_DirEntry)) <$> dir_find nm k (entry_at data <$> seq k n).
Proof.
  revert k. induction n as [|n IH]; intros k; [done|]. cbn [first_some seq fmap list_fmap dir_find].
  rewrite Nat2Z.id. unfold live. destruct (de_inode_no _ =? 0); cbn [negb andb].
  - replace (Z.of_nat k + 1) with (Z.of_nat (S k)) by lia. apply IH.
  - case_bool_decide; [done|]. replace (Z.of_nat k + 1) with (Z.of_nat (S k)) by lia. apply IH.
Qed.

Lemma first_some_free (data : bytes) (n k : nat) :
  default (Z.of_nat (k + n) * sizeof_DirEntry) (first_some n (Z.of_nat k) (fun i =>
    if de_inode_no (entry_at data (Z.to_nat i)) =? 0 then Some (i * sizeof_DirEntry) else None)) =
  Z.of_nat (free_slot k (entry_at data <$> seq k n)) * sizeof_DirEntry.
Proof.
  revert k. induction n as [|n IH]; intros k; [simpl; by rewrite Nat.add_0_r|]. cbn [first_some seq fmap list_fmap free_slot].
  rewrite Nat2Z.id. unfold live. destruct (de_inode_no _ =? 0); cbn [negb]; [done|].
  replace (Z.of_nat k + 1) with (Z.of_nat (S k)) by lia. rewrite <- IH. do 2 f_equal. lia.
Qed.

(** The entry of the name, if the directory has one. *)
Lemma inode_lookup_spec nm :
  abs c (cache s) a -> readable 14 nm ->
  exists s2, inode_lookup p nm s =
    Ret (match dir_find (cstr 14 nm) 0 (dirents v e) with
         | Some (ino, k) => (ino, Some (Z.of_nat k * sizeof_DirEntry)) | None => (0, None) end, s2) /\ same_store s2.
Proof using Hh Hdt Hp Hfs Hw.
  intros H Hnm. unfold inode_lookup. rewrite (bind_Ret _ _ _ _ _ (load_entry_Ret s p ip Hp)).
  rewrite (dw_type _ _ _ Hw). erewrite bind_Ret by reflexivity.
  match goal with |- context [for_upto ?n 0 ?b] =>
    destruct (for_upto_search same_store (fun i => let de := entry_at (file_data v e) (Z.to_nat i) in
      if de_inode_no de =? 0 then None else if bool_decide (dname de = cstr 14 nm) then Some (de_inode_no de, i * sizeof_DirEntry) else None)
      b n 0 s) as (s2 & E & H2)
  end.
  - exists (cache s). split; [by destruct s|done].
  - intros j s' Hj Hs'. destruct (read_dirent_spec (Z.to_nat j) s') as (s2 & E & H2); [lia|done|].
    rewrite Z2Nat.id in E by lia. exists s2. split; [|done]. cbv zeta. rewrite (bind_Ret _ _ _ _ _ E).
    destruct (de_inode_no _ =? 0) eqn:E0; [done|].
    destruct (strncmp_spec nm (name (entry_at (file_data v e) (Z.to_nat j))) FILE_NAME_MAX_LENGTH s2) as (z & Ez & Hz);
      [done|done|left; rewrite entry_name_length by (done || lia); done|].
    rewrite (bind_Ret _ _ _ _ _ Ez). unfold ret. do 2 f_equal. unfold dname. case_bool_decide as Hn.
    + by rewrite (proj2 (Z.eqb_eq z 0)) by by apply Hz.
    + rewrite (proj2 (Z.eqb_neq z 0)); [done|]. intros Hz0%Hz. by apply Hn.
  - exists s2. split; [|done]. rewrite (bind_Ret _ _ _ _ _ E). unfold ret. change 0 with (Z.of_nat 0) at 1.
    rewrite first_some_find, <- (dirents_seq v e Hw). by destruct (dir_find _ _ _) as [[ino k]|].
Qed.

Lemma free_slot_le l k : (free_slot k l <= k + length l)%nat.
Proof. revert k. induction l as [|de l IH]; intros k; simpl; [lia|]. destruct (live de); [specialize (IH (S k))|]; lia. Qed.

(** The loop of [inode_insert] that looks for a slot. *)
Lemma find_slot_spec s1 :
  same_store s1 ->
  exists s2, for_upto (dir_turns e) 0 (fun k =>
      let offset := k * sizeof_DirEntry in
      de <- read_dirent p offset ;;
      ret (if de_inode_no de =? 0 then Some offset else None)) s1 =
    Ret (first_some (dir_turns e) 0 (fun i => if de_inode_no (entry_at (file_data v e) (Z.to_nat i)) =? 0 then Some (i * sizeof_DirEntry) else None), s2) /\
    same_store s2.
Proof using Hh Hdt Hp Hfs Hw.
  intros H1. apply (for_upto_search same_store); [done|]. intros j s' Hj Hs'.
  destruct (read_dirent_spec (Z.to_nat j) s') as (s2 & E & H2); [lia|done|].
  rewrite Z2Nat.id in E by lia. exists s2. split; [|done]. cbv zeta. rewrite (bind_Ret _ _ _ _ _ E). done.
Qed.

(** Writing one entry of the directory. *)
Lemma write_dirent_spec de (k : nat) s1 :
  same_store s1 -> ivalid ip = true -> 0 <= inode_no ip < sb_num_inodes sblock -> dirent_ok de ->
  (k <= dir_turns e)%nat -> Z.of_nat k < INODE_MAX_BYTES / sizeof_DirEntry ->
  4 <= st_budget a -> 2 <= free_count sblock v ->
  exists cs a' e',
    inode_write sblock (Some c) p (dirent_bytes de) (Z.of_nat k * sizeof_DirEntry) sizeof_DirEntry s1 =
      Ret (sizeof_DirEntry, set_iheap (insert p (set_entry e' ip)) (set_cache cs s)) /\
    abs c cs a' /\ st_held a' = ∅ /\ st_dirty a' = ∅ /\ dir_wf sblock (st_view a') e' /\
    dirents (st_view a') e' = put_dirent k de (dirents v e) /\ others sblock v e (st_view a') e' (inode_no ip) /\
    num_links e' = num_links e.
Proof using Hh Hdt Hp Hfs Hw.
  intros (cs & -> & H) Hv Hino Hde Hk Hmax Hb Hf. destruct (dir_turns_size v e Hw) as [_ Hn].
  change (INODE_MAX_BYTES / sizeof_DirEntry) with 4480 in Hmax. unfold sizeof_DirEntry.
  assert (Hdl : length (dirent_bytes de) = 16%nat) by (apply dirent_bytes_length, Hde).
  assert (Hbt : Z.of_nat (block_turns (Z.of_nat k * 16) (Z.of_nat k * 16 + 16)) = 1).
  { destruct (turns (Z.of_nat k * 16) (Z.of_nat k * 16 + 16)) as [-> _]; [lia|change INODE_MAX_BYTES with 71680; lia|].
    unfold BLOCK_SIZE. assert (E : (Z.of_nat k * 16 + 16 - 1) / 512 = Z.of_nat k * 16 / 512); [|lia].
    pose proof (Z.div_mod (Z.of_nat k * 16) 512 ltac:(lia)). pose proof (Z.mod_pos_bound (Z.of_nat k * 16) 512 ltac:(lia)).
    assert ((Z.of_nat k * 16) mod 512 = 16 * (Z.of_nat k mod 32)).
    { replace (Z.of_nat k * 16) with (16 * Z.of_nat k) by lia. change 512 with (16 * 32). by rewrite Z.mul_mod_distr_l. }
    pose proof (Z.mod_pos_bound (Z.of_nat k) 32 ltac:(lia)).
    symmetry. apply (Z.div_unique _ _ _ ((Z.of_nat k * 16) mod 512 + 15)); lia. }
  destruct (inode_write_spec sblock c a (set_cache cs s) p ip (dirent_bytes de) (Z.of_nat k * 16) 16) as
    (c2 & a' & e' & E & H2 & Hh2 & Hdt2 & Hw2 & Ed & Ho & Hty & Hnl); try done; try lia.
  { apply Hw. } { change INODE_MAX_BYTES with 71680. lia. }
  { unfold dirent_bytes. apply Forall_app. split; [apply le_encode_ok|apply Hde]. }
  replace (Z.to_nat (Z.of_nat k * 16)) with (16 * k)%nat in Ed by lia. rewrite firstn_all2 in Ed by (rewrite Hdl; done).
  destruct (put_dirents v e (st_view a') e' k de Hw Hw2 Hty Hde Hk Ed) as [Hw3 Ed3].
  exists c2, a', e'. done.
Qed.
Lemma dirent_new_ok nm ino : (14 <= length nm)%nat -> Forall byte_ok nm -> dirent_ok (mkDirent (u16 ino) (take 14 nm)).
Proof.
  intros Hl Hb. split; [apply wrapu_bound; lia|]. split; [|by apply Forall_take].
  cbn [name]. change (Z.to_nat FILE_NAME_MAX_LENGTH) with 14%nat. rewrite length_take. lia.
Qed.

Lemma cstr_take n (nm : list Z) : cstr n (take n nm) = cstr n nm.
Proof.
  revert nm. induction n as [|n IH]; intros [|x nm]; try done. cbn [take cstr]. destruct (x =? 0); [done|]. by rewrite IH.
Qed.

Lemma inode_insert_taken nm ino ino0 :
  abs c (cache s) a -> readable 14 nm -> dir_map (dirents v e) !! cstr 14 nm = Some ino0 ->
  exists s2, inode_insert sblock (Some c) p nm ino s = Ret (u64 (-1), s2) /\ same_store s2.
Proof using Hh Hdt Hp Hfs Hw.
  intros H Hnm Hm. destruct (inode_lookup_spec nm H Hnm) as (s2 & E & H2). exists s2. split; [|done].
  rewrite <- (dir_find_map _ 0) in Hm. destruct (dir_find _ _ _) as [[i k]|] eqn:Ef; [|done]. simpl in Hm. simplify_eq.
  destruct (dir_find_Some _ _ _ _ _ Ef) as (_ & l1 & de & l2 & _ & _ & Hl & _ & <-).
  unfold inode_insert. rewrite (bind_Ret _ _ _ _ _ (load_entry_Ret s p ip Hp)), (dw_type _ _ _ Hw).
  erewrite bind_Ret by reflexivity. rewrite (bind_Ret _ _ _ _ _ E). cbn [fst]. unfold live in Hl. by rewrite Hl.
Qed.

Lemma inode_insert_new nm ino :
  abs c (cache s) a -> dir_map (dirents v e) !! cstr 14 nm = None -> dir_unique (dirents v e) ->
  (14 <= length nm)%nat -> Forall byte_ok nm -> u16 ino <> 0 -> ivalid ip = true -> 0 <= inode_no ip < sb_num_inodes sblock ->
  num_bytes e + sizeof_DirEntry <= INODE_MAX_BYTES -> 4 <= st_budget a -> 2 <= free_count sblock v ->
  exists cs a' e',
    inode_insert sblock (Some c) p nm ino s =
      Ret (Z.of_nat (free_slot 0 (dirents v e)) * sizeof_DirEntry, set_iheap (insert p (set_entry e' ip)) (set_cache cs s)) /\
    abs c cs a' /\ st_held a' = ∅ /\ st_dirty a' = ∅ /\ dir_wf sblock (st_view a') e' /\
    dir_unique (dirents (st_view a') e') /\
    dir_map (dirents (st_view a') e') = <[cstr 14 nm := u16 ino]> (dir_map (dirents v e)) /\
    others sblock v e (st_view a') e' (inode_no ip).
Proof using Hh Hdt Hp Hfs Hw.
  intros H Hn Hu Hl Hb Hi Hv Hino Hsz Hbud Hf. destruct (dir_turns_size v e Hw) as [_ Hnb].
  pose proof (free_slot_le (dirents v e) 0) as Hfs0. rewrite (dirents_length v e Hw) in Hfs0.
  destruct (inode_lookup_spec nm H) as (s1 & E1 & H1); [left; done|].
  rewrite <- (dir_find_map _ 0) in Hn. destruct (dir_find _ _ _) eqn:Ef; [done|].
  destruct (find_slot_spec s1 H1) as (s2 & E2 & H2).
  set (de := mkDirent (u16 ino) (take 14 nm)).
  assert (Hde : dname de = cstr 14 nm) by (apply cstr_take).
  destruct (write_dirent_spec de (free_slot 0 (dirents v e)) s2 H2) as (cs & a' & e' & E3 & H3 & Hh3 & Hdt3 & Hw3 & Ed3 & Ho & _);
    try done; [by apply dirent_new_ok| |].
  { change (INODE_MAX_BYTES / sizeof_DirEntry) with 4480. change INODE_MAX_BYTES with 71680 in Hsz. unfold sizeof_DirEntry in Hsz. lia. }
  destruct (map_put_new (dirents v e) _ de eq_refl) as [Hu' Hm']; [by apply negb_true_iff, Z.eqb_neq|done| |].
  { rewrite Hde, <- (dir_find_map _ 0), Ef. done. }
  exists cs, a', e'. split; [|rewrite Ed3, Hm', Hde; done].
  unfold inode_insert. rewrite (bind_Ret _ _ _ _ _ (load_entry_Ret s p ip Hp)), (dw_type _ _ _ Hw).
  erewrite bind_Ret by reflexivity. rewrite (bind_Ret _ _ _ _ _ E1). cbn [fst]. change (negb (0 =? 0)) with false. cbv iota.
  rewrite (bind_Ret _ _ _ _ _ E2). cbv zeta.
  pose proof (first_some_free (file_data v e) (dir_turns e) 0) as Efs.
  change (Z.of_nat 0) with 0 in Efs. change (0 + dir_turns e)%nat with (dir_turns e) in Efs.
  rewrite Efs, <- (dirents_seq v e Hw).
  change (Z.to_nat FILE_NAME_MAX_LENGTH) with 14%nat. rewrite (proj2 (Nat.ltb_ge _ _)) by done.
  fold de. rewrite (bind_Ret _ _ _ _ _ E3). done.
Qed.

Lemma inode_remove_spec nm ino (k : nat) :
  abs c (cache s) a -> dir_unique (dirents v e) -> dir_find nm 0 (dirents v e) = Some (ino, k) ->
  ivalid ip = true -> 0 <= inode_no ip < sb_num_inodes sblock -> 4 <= st_budget a -> 2 <= free_count sblock v ->
  exists cs a' e',
    inode_remove sblock (Some c) p (Z.of_nat k * sizeof_DirEntry) s =
      Ret (tt, set_iheap (insert p (set_entry e' ip)) (set_cache cs s)) /\
    abs c cs a' /\ st_held a' = ∅ /\ st_dirty a' = ∅ /\ dir_wf sblock (st_view a') e' /\
    dir_unique (dirents (st_view a') e') /\ dir_map (dirents (st_view a') e') = delete nm (dir_map (dirents v e)) /\
    others sblock v e (st_view a') e' (inode_no ip).
Proof using Hh Hdt Hp Hfs Hw.
  intros H Hu Hf Hv Hino Hbud Hfr. destruct (dir_turns_size v e Hw) as [_ Hnb].
  destruct (dir_find_Some _ _ _ _ _ Hf) as (_ & l1 & d & l2 & El & Hk & _).
  assert (Hkt : (k < dir_turns e)%nat).
  { rewrite <- (dirents_length v e Hw), El, length_app, Hk. simpl. lia. }
  pose proof (fw_size _ _ _ (dw_file _ _ _ Hw)) as Hmax. change INODE_MAX_BYTES with 71680 in Hmax.
  set (de := mkDirent 0 (replicate 14 0)).
  assert (Hs : same_store s) by (exists (cache s); split; [by destruct s|done]).
  destruct (write_dirent_spec de k s Hs) as (cs & a' & e' & E3 & H3 & Hh3 & Hdt3 & Hw3 & Ed3 & Ho & _); try done; try lia.
  { split; [by vm_compute|]. split; [done|]. apply Forall_replicate. by vm_compute. }
  { change (INODE_MAX_BYTES / sizeof_DirEntry) with 4480. lia. }
  destruct (map_put_dead (dirents v e) k de ino nm Hf eq_refl Hu) as [Hu' Hm'].
  exists cs, a', e'. split; [|rewrite Ed3, Hm'; done].
  unfold inode_remove. unfold sizeof_DirEntry at 1 2. rewrite Z.mod_mul by done. erewrite bind_Ret by reflexivity.
  rewrite (bind_Ret _ _ _ _ _ (load_entry_Ret s p ip Hp)). rewrite (proj2 (Z.ltb_lt _ _)) by (unfold sizeof_DirEntry; lia).
  unfold when. fold de. rewrite (bind_Ret _ _ _ _ _ E3). done.
Qed.
End at_inode.
End dir.
