(* ===== verification/InodeProps.v ===== *)
(** * The promises of the inode layer, over the block cache of fs/cache.c

    Reading, writing and the directory operations, for any implementation of
    the interface of the block cache that keeps its laws; the examples run
    them over the model of fs/cache.c, mounted on a small disk. *)
From stdpp Require Import base gmap list.
From Stdlib Require Import ZArith Lia.
From S2P Require Import Prelude Bytes Bitmap BCache BCacheInv BCacheLog BCacheCrash BCacheSteps BCacheProps BlockStore BCacheStore CString Console Inode InodeFile InodeMap InodeWrite InodeDir.

Section props.
Context {St : Type} {BC : BlockCache St} (sblock : SuperBlock) {BL : BlockCacheLaws St sblock}.
Implicit Types (s : ist St).

(** Between calls inside operation [c]: no block is held, the inode at [p] is
    loaded. *)
Record opened (c : Z) (a : store) (s : ist St) (p : Z) (ip : Inode) : Prop := {
  op_abs : abs c (cache s) a;
  op_held : st_held a = ∅;
  op_dirty : st_dirty a = ∅;
  op_inode : iheap s !! p = Some ip;
  op_valid : ivalid ip = true;
  op_no : 0 <= inode_no ip < sb_num_inodes sblock;
  op_fs : fs_ok sblock (st_view a)
}.

(** The state of the inode layer with a new cache and a new entry at [p]. *)
Definition reentered (p : Z) (ip : Inode) (e : InodeEntry) (cs : St) (s : ist St) : ist St :=
  set_iheap (insert p (set_entry e ip)) (set_cache cs s).

Lemma opened_reentered c a s p ip e cs :
  opened c a s p ip -> forall a', abs c cs a' -> st_held a' = ∅ -> st_dirty a' = ∅ -> fs_ok sblock (st_view a') ->
  opened c a' (reentered p ip e cs s) p (set_entry e ip).
Proof. intros [] a' H1 H2 H3 H4. split; try done. apply lookup_insert_eq. Qed.

(** C16: [inode_read] returns the bytes of the file from [off] on, at most
    [count] of them and none past the end of the file, and changes nothing
    but the state of the cache. *)
Theorem inode_read_correct c a s p ip off count :
  opened c a s p ip -> file_wf sblock (st_view a) (entry ip) ->
  0 <= off <= num_bytes (entry ip) -> 0 <= count < 2 ^ 32 ->
  exists cs, inode_read p off count s =
      Ret ((Z.min count (num_bytes (entry ip) - off), range (Z.to_nat off) (Z.to_nat count) (file_data (st_view a) (entry ip))), set_cache cs s) /\
    opened c a (set_cache cs s) p ip.
Proof.
  intros [] Hw Ho Hc. destruct (inode_read_spec sblock c a s p ip off count) as (cs & E & H'); try done.
  exists cs. split; [done|]. by split.
Qed.

(** C3: [inode_write] of [count] bytes at [off], when they fit under the
    limits of a file, the free blocks and the reservation of the operation,
    overwrites or extends the file with exactly these bytes; the new entry is
    on disk if the old one was, and no other file and no other inode
    changes. *)
Theorem inode_write_correct c a s p ip src off count :
  opened c a s p ip -> file_wf sblock (st_view a) (entry ip) ->
  0 <= off <= num_bytes (entry ip) -> 0 < count -> off + count <= INODE_MAX_BYTES ->
  count <= Z.of_nat (length src) -> Forall byte_ok src ->
  3 + Z.of_nat (block_turns off (off + count)) <= st_budget a ->
  Z.of_nat (block_turns off (off + count)) + 1 <= free_count sblock (st_view a) ->
  exists cs a' e',
    inode_write sblock (Some c) p src off count s = Ret (count, reentered p ip e' cs s) /\
    opened c a' (reentered p ip e' cs s) p (set_entry e' ip) /\
    file_wf sblock (st_view a') e' /\
    file_data (st_view a') e' = splice (Z.to_nat off) (take (Z.to_nat count) src) (file_data (st_view a) (entry ip)) /\
    others sblock (st_view a) (entry ip) (st_view a') e' (inode_no ip).
Proof.
  intros H Hw Ho Hc Hm Hl Hb Hbud Hf. pose proof H as [].
  destruct (inode_write_spec sblock c a s p ip src off count) as (cs & a' & e' & E & H1 & H2 & H3 & H4 & H5 & H6 & _); try done.
  exists cs, a', e'. split; [done|]. split; [|done]. eapply opened_reentered; try done. apply (ot_fs _ _ _ _ _ _ H6).
Qed.

(** C24: [inode_lookup] finds the inode number a directory maps the name to,
    0 when there is none, and the offset of the entry that holds it. *)
Theorem inode_lookup_correct c a s p ip nm :
  opened c a s p ip -> dir_wf sblock (st_view a) (entry ip) -> readable 14 nm ->
  exists cs res, inode_lookup p nm s = Ret (res, set_cache cs s) /\ opened c a (set_cache cs s) p ip /\
    match dir_map (dirents (st_view a) (entry ip)) !! cstr 14 nm with
    | Some ino => exists k de, res = (ino, Some (Z.of_nat k * sizeof_DirEntry)) /\ ino <> 0 /\
        dirents (st_view a) (entry ip) !! k = Some de /\ dname de = cstr 14 nm /\ de_inode_no de = ino
    | None => res = (0, None)
    end.
Proof.
  intros [] Hw Hn. destruct (inode_lookup_spec sblock c a s p ip) with (nm := nm) as (s2 & E & cs & -> & H'); try done.
  eexists cs, _. split; [exact E|]. split; [by split|]. rewrite <- (dir_find_map _ 0).
  destruct (dir_find _ _ _) as [[ino k]|] eqn:Ef; [|done]. simpl.
  destruct (dir_find_Some _ _ _ _ _ Ef) as (_ & l1 & de & l2 & El & Hk & Hl & Hd & Hi).
  exists k, de. split; [done|]. rewrite Nat.sub_0_r in Hk. split; [|split; [|done]].
  - apply negb_true_iff, Z.eqb_neq in Hl. congruence.
  - rewrite El. by rewrite lookup_app_r, Hk, Nat.sub_diag by lia.
Qed.

(** C22: [inode_insert] refuses a name that the directory has, with -1 and no
    effect, and otherwise adds the pair to the directory's map and returns
    the offset of its entry; names stay distinct and no other file and no
    other inode changes. *)
Theorem inode_insert_correct c a s p ip nm ino :
  opened c a s p ip -> dir_wf sblock (st_view a) (entry ip) -> dir_unique (dirents (st_view a) (entry ip)) ->
  (14 <= length nm)%nat -> Forall byte_ok nm -> u16 ino <> 0 ->
  num_bytes (entry ip) + sizeof_DirEntry <= INODE_MAX_BYTES -> 4 <= st_budget a -> 2 <= free_count sblock (st_view a) ->
  match dir_map (dirents (st_view a) (entry ip)) !! cstr 14 nm with
  | Some _ => exists cs, inode_insert sblock (Some c) p nm ino s = Ret (u64 (-1), set_cache cs s) /\ opened c a (set_cache cs s) p ip
  | None => exists cs a' e',
      inode_insert sblock (Some c) p nm ino s =
        Ret (Z.of_nat (free_slot 0 (dirents (st_view a) (entry ip))) * sizeof_DirEntry, reentered p ip e' cs s) /\
      opened c a' (reentered p ip e' cs s) p (set_entry e' ip) /\
      dir_wf sblock (st_view a') e' /\ dir_unique (dirents (st_view a') e') /\
      dir_map (dirents (st_view a') e') = <[cstr 14 nm := u16 ino]> (dir_map (dirents (st_view a) (entry ip))) /\
      others sblock (st_view a) (entry ip) (st_view a') e' (inode_no ip)
  end.
Proof.
  intros H Hw Hu Hl Hb Hi Hs Hbud Hf. pose proof H as []. destruct (dir_map _ !! _) as [ino0|] eqn:Em.
  - destruct (inode_insert_taken sblock c a s p ip) with (nm := nm) (ino := ino) (ino0 := ino0) as (s2 & E & cs & -> & H'); try done;
      [by left|]. exists cs. split; [done|]. by split.
  - destruct (inode_insert_new sblock c a s p ip) with (nm := nm) (ino := ino) as (cs & a' & e' & E & H1 & H2 & H3 & H4 & H5 & H6 & H7); try done.
    exists cs, a', e'. split; [done|]. split; [|done]. eapply opened_reentered; try done. apply (ot_fs _ _ _ _ _ _ H7).
Qed.

(** C27: [inode_remove] at the offset [inode_lookup] gives for a name deletes
    that name from the directory's map; no other file and no other inode
    changes. *)
Theorem inode_remove_correct c a s p ip nm s1 ino off :
  opened c a s p ip -> dir_wf sblock (st_view a) (entry ip) -> dir_unique (dirents (st_view a) (entry ip)) ->
  readable 14 nm -> inode_lookup p nm s = Ret ((ino, Some off), s1) ->
  4 <= st_budget a -> 2 <= free_count sblock (st_view a) ->
  exists cs a' e', inode_remove sblock (Some c) p off s1 = Ret (tt, reentered p ip e' cs s) /\
    opened c a' (reentered p ip e' cs s) p (set_entry e' ip) /\
    dir_wf sblock (st_view a') e' /\ dir_unique (dirents (st_view a') e') /\
    dir_map (dirents (st_view a') e') = delete (cstr 14 nm) (dir_map (dirents (st_view a) (entry ip))) /\
    others sblock (st_view a) (entry ip) (st_view a') e' (inode_no ip).
Proof.
  intros H Hw Hu Hn E1 Hbud Hf. pose proof H as [].
  destruct (inode_lookup_spec sblock c a s p ip) with (nm := nm) as (s2 & E & cs1 & -> & H1); try done.
  rewrite E in E1. destruct (dir_find _ _ _) as [[i k]|] eqn:Ef; [|done]. simplify_eq.
  destruct (inode_remove_spec sblock c a (set_cache cs1 s) p ip) with (nm := cstr 14 nm) (ino := ino) (k := k) as
    (cs & a' & e' & E2 & H2 & H3 & H4 & H5 & H6 & H7 & H8); try done.
  exists cs, a', e'. split; [exact E2|]. split; [|done]. eapply opened_reentered; try done. apply (ot_fs _ _ _ _ _ _ H8).
Qed.
End props.

(** ** A write of nothing *)
Lemma for_acc_stuck {S A} n i (body : Z -> A -> M S A) k a s :
  i <= k < i + Z.of_nat n -> (forall a s, exists r, body k a s = Stop r) -> exists r, for_acc n i body a s = Stop r.
Proof.
  revert i a s. induction n as [|n IH]; intros i a s Hk Hb; [lia|]. cbn [for_acc].
  destruct (decide (i = k)) as [->|Hne].
  - destruct (Hb a s) as [r E]. exists r. by apply bind_Stop.
  - unfold bind. destruct (body i a s) as [[a' s']|r]; [|by exists r]. apply IH; [lia|done].
Qed.

(** Writing 0 bytes at offset 0 does not return: the last block to write,
    [(end - 1) / BLOCK_SIZE], is computed from an [end - 1] that wraps around,
    and the loop goes on until it is past the last block a file can have. *)
Theorem inode_write_nothing_stops {St} {BC : BlockCache St} (sblock : SuperBlock) ctx p src (s : ist St) ip :
  iheap s !! p = Some ip -> type (entry ip) <> INODE_DEVICE ->
  exists r, inode_write sblock ctx p src 0 0 s = Stop r.
Proof.
  intros Hp Hty. unfold inode_write. rewrite (bind_Ret _ _ _ _ _ (load_entry_Ret s p ip Hp)).
  rewrite (proj2 (Z.eqb_neq _ _)) by done. change (u64 (0 + 0)) with 0. cbv zeta.
  destruct (0 <=? num_bytes (entry ip)); [|by exists Panic].
  do 3 erewrite bind_Ret by reflexivity.
  match goal with |- context [for_acc ?n ?i ?b ?a] =>
    destruct (for_acc_stuck n i b INODE_MAX_BLOCKS a s) as [r E]; [|intros [o k] s'|exists r; by apply bind_Stop] end.
  - change (0 / BLOCK_SIZE) with 0. unfold block_turns. rewrite Z2Nat.id by by vm_compute. by vm_compute.
  - exists Panic. reflexivity.
Qed.

(** ** Paths *)

(** [k] turns of a loop that all go on. *)
Inductive loop_turns {S A B} (body : A -> M S (A + B)) : nat -> A -> S -> A -> S -> Prop :=
| loop_none a s : loop_turns body 0 a s a s
| loop_more k a s a1 s1 a2 s2 : body a s = Ret (inl a1, s1) -> loop_turns body k a1 s1 a2 s2 -> loop_turns body (Datatypes.S k) a s a2 s2.

(** A loop whose variables get smaller leaves: after at most as many turns as
    their size comes one that ends it, with a result or by stopping itself. *)
Lemma while_leaves {S A B} (mu : A -> nat) (body : A -> M S (A + B)) n a s :
  (forall a s a' s', body a s = Ret (inl a', s') -> (mu a' < mu a)%nat) -> (mu a < n)%nat ->
  exists k a1 s1, (k <= mu a)%nat /\ loop_turns body k a s a1 s1 /\
    match body a1 s1 with
    | Ret (inl _, _) => False
    | Ret (inr b, s2) => while n body a s = Ret (b, s2)
    | Stop e => while n body a s = Stop e
    end.
Proof.
  intros Hm. revert a s. induction n as [|n IH]; intros a s Hn; [lia|]. rewrite while_S. unfold bind.
  destruct (body a s) as [[[a'|b] s']|e] eqn:E.
  - pose proof (Hm _ _ _ _ E) as Hlt. destruct (IH a' s') as (k & a1 & s1 & Hk & Ht & H); [lia|].
    exists (Datatypes.S k), a1, s1. split; [lia|]. split; [by eapply loop_more|exact H].
  - exists 0%nat, a, s. split; [lia|]. split; [constructor|]. by rewrite E.
  - exists 0%nat, a, s. split; [lia|]. split; [constructor|]. by rewrite E.
Qed.

Lemma skip_slashes_length path : (length (skip_slashes path) <= length path)%nat.
Proof. induction path as [|c path IH]; simpl; [done|]. destruct (c =? SLASH); simpl; lia. Qed.

Lemma skip_slashes_head path : match skip_slashes path with c :: _ => c <> SLASH | [] => True end.
Proof. induction path as [|c path IH]; simpl; [done|]. destruct (Z.eqb_spec c SLASH); done. Qed.

Lemma skip_name_length path len : (length (skip_name path len).2 <= length path)%nat.
Proof.
  revert len. induction path as [|c path IH]; intros len; simpl; [done|].
  destruct ((c =? SLASH) || (c =? 0)); simpl; [lia|]. specialize (IH (len + 1)). lia.
Qed.

Lemma rd_inv {S} (a : list Z) i c (s s' : S) : rd a i s = Ret (c, s') -> s' = s /\ a !! Z.to_nat i = Some c /\ 0 <= i.
Proof.
  unfold rd. destruct (Z.leb_spec 0 i); [|done]. destruct (a !! Z.to_nat i) eqn:E; [|done].
  intros H'. injection H' as <- <-. done.
Qed.

(** An element is taken off the path, or the path is at its end. *)
Lemma skipelem_shrinks {St} path nm (s s' : ist St) path' nm' :
  skipelem path nm s = Ret (Some (path', nm'), s') -> s' = s /\ (length path' < length path)%nat.
Proof.
  unfold skipelem. intros H. apply bind_inv in H as (c & s1 & (-> & Hc & _)%rd_inv & H).
  destruct (Z.eqb_spec c 0) as [->|H0]; [done|].
  pose proof (skip_slashes_head path) as Hs. pose proof (skip_slashes_length path) as Hl.
  destruct (skip_slashes path) as [|c' t] eqn:Et; [done|]. simpl in Hc. simplify_eq.
  cbn [skip_name] in H. rewrite (proj2 (Z.eqb_neq c SLASH)), (proj2 (Z.eqb_neq c 0)) in H by done. cbn [orb] in H.
  pose proof (skip_name_length t (0 + 1)) as Hn. destruct (skip_name t (0 + 1)) as [len t'].
  apply bind_inv in H as (x & s2 & (-> & _)%rd_inv & H). unfold ret in H. simplify_eq.
  split; [done|]. pose proof (skip_slashes_length t'). simpl in *. lia.
Qed.

Lemma namex_body_shrinks {St} {BC : BlockCache St} (sblock : SuperBlock) {KA : Kalloc} (uninit : InodeEntry) ctx par st (s : ist St) st' s' :
  namex_body sblock uninit ctx par st s = Ret (inl st', s') -> (length st'.1.2 < length st.1.2)%nat.
Proof.
  destruct st as [[p path] nm], st' as [[p' path'] nm']. simpl. unfold namex_body. intros H.
  apply bind_inv in H as ([[path1 nm1]|] & s1 & E1 & H); [|done]. apply skipelem_shrinks in E1 as [_ Hlt].
  apply bind_inv in H as (_ & s2 & _ & H). apply bind_inv in H as (e & s3 & _ & H).
  destruct (negb _).
  { apply bind_inv in H as (_ & s4 & _ & H). by apply bind_inv in H as (_ & s5 & _ & H). }
  apply bind_inv in H as (c & s4 & _ & H). destruct (par && (c =? 0)).
  { by apply bind_inv in H as (_ & s5 & _ & H). }
  apply bind_inv in H as (l & s5 & _ & H). apply bind_inv in H as (_ & s6 & _ & H).
  destruct (l.1 =? 0); [done|]. apply bind_inv in H as (_ & s7 & _ & H). apply bind_inv in H as (q & s8 & _ & H).
  unfold ret in H. by simplify_eq.
Qed.

(** ** Computations that never run out of fuel *)
Definition ends {S A} (m : M S A) : Prop := forall s, m s <> Stop NoFuel.
Create HintDb ends.

Section ends_rules.
Context {S : Type}.
Lemma walk_ends_ret {A} (a : A) : ends (ret a : M S A).
Proof. done. Qed.
Lemma ends_stop {A} e : e <> NoFuel -> ends (stop e : M S A).
Proof. intros He s [= E]. done. Qed.
Lemma walk_ends_gets {A} (f : S -> A) : ends (gets f).
Proof. done. Qed.
Lemma walk_ends_modify (f : S -> S) : ends (modify f).
Proof. done. Qed.
Lemma ends_assert b : ends (assert b : M S unit).
Proof. by destruct b. Qed.
Lemma ends_rd (l : list Z) i : ends (rd l i : M S Z).
Proof. intros s. unfold rd. by case_match. Qed.
Lemma walk_ends_bind {A B} (m : M S A) (k : A -> M S B) : ends m -> (forall a, ends (k a)) -> ends (bind m k).
Proof. intros Hm Hk s. unfold bind. specialize (Hm s). destruct (m s) as [[a s1]|e]; [apply Hk|congruence]. Qed.
Lemma ends_when b (m : M S unit) : ends m -> ends (when b m).
Proof. by destruct b. Qed.
Lemma ends_for_upto {B} n i (body : Z -> M S (option B)) : (forall i, ends (body i)) -> ends (for_upto n i body).
Proof. intros H. revert i. induction n as [|n IH]; intros i; [done|]. apply walk_ends_bind; [apply H|]. by intros [b|]. Qed.
Lemma ends_for_acc {A} n i (body : Z -> A -> M S A) a : (forall i a, ends (body i a)) -> ends (for_acc n i body a).
Proof. intros H. revert i a. induction n as [|n IH]; intros i a; [done|]. apply walk_ends_bind; [apply H|]. intros b. apply IH. Qed.
Lemma ends_while {A B} (mu : A -> nat) n (body : A -> M S (A + B)) a :
  (forall a s a' s', body a s = Ret (inl a', s') -> (mu a' < mu a)%nat) -> (forall a, ends (body a)) -> (mu a < n)%nat -> ends (while n body a).
Proof.
  intros Hm Hb Hn s. destruct (while_leaves mu body n a s Hm Hn) as (k & a1 & s1 & _ & _ & H). specialize (Hb a1 s1).
  destruct (body a1 s1) as [[[?|b] s2]|e]; [done|by rewrite H|rewrite H; congruence].
Qed.
Lemma ends_strncmp a b n : ends (strncmp a b n : M S Z).
Proof.
  unfold strncmp. generalize 0 as i. induction (Z.to_nat n) as [|k IH]; intros i; [done|]. cbn [strncmp_loop].
  do 2 (apply walk_ends_bind; [apply ends_rd|intros ?]). repeat (case_match; try apply walk_ends_ret); apply IH.
Qed.
End ends_rules.
#[export] Hint Resolve walk_ends_ret walk_ends_gets walk_ends_modify ends_assert ends_rd ends_strncmp : ends.
#[export] Hint Extern 1 (ends (stop _)) => apply ends_stop; discriminate : ends.

Ltac ends_walk :=
  repeat first
    [ solve [auto with ends]
    | apply ends_when
    | apply walk_ends_bind; [|intros ?]
    | apply ends_for_upto; intros ?
    | apply ends_for_acc; intros ? ?
    | match goal with
      | |- ends (if ?b then _ else _) => destruct b
      | |- ends (match ?x with _ => _ end) => destruct x
      end
    | progress cbv zeta ].

(** No operation of the block cache runs out of fuel. *)
Record cache_ends {St} (BC : BlockCache St) : Prop := {
  ce_acquire n : ends (bc_acquire n);
  ce_release p : ends (bc_release p);
  ce_sync c p : ends (bc_sync c p);
  ce_free c n : ends (bc_free c n);
  ce_alloc c : ends (bc_alloc c);
  ce_data p : ends (bc_data p);
  ce_set_data p d : ends (bc_set_data p d)
}.

(** A read of the console counts its characters up to [n]. *)
Lemma ends_console_read n : 0 <= n -> ends (console_read_from n []).
Proof.
  intros Hn. unfold console_read_from. apply walk_ends_bind.
  - assert (Hring : forall i, ends (ring_get i)) by (intros i s; unfold ring_get; by case_match).
    assert (Hup : forall i dst s i' dst' s', console_read_body n (i, dst) s = Ret (inl (i', dst'), s') -> i' = i + 1 /\ i <> n).
    { intros i dst s i' dst' s' H. unfold console_read_body in H. destruct (Z.eqb_spec i n); [done|].
      apply bind_inv in H as (p & s1 & _ & H). destruct (_ =? _); [done|]. apply bind_inv in H as (c & s2 & _ & H). destruct (c =? CTRL_D); [done|].
      apply bind_inv in H as (u & s3 & _ & H). destruct (c =? LF); [done|]. unfold ret in H. by simplify_eq. }
    (** The index stays below [n]. *)
    cut (forall k i dst, (Z.to_nat (n - i) < k)%nat -> i <= n -> ends (while k (console_read_body n) (i, dst))).
    { intros H. apply H; simpl; lia. }
    induction k as [|k IH]; intros i dst Hk Hi s; [lia|]. rewrite while_S. unfold bind.
    assert (Hb : ends (console_read_body n (i, dst))) by (unfold console_read_body; ends_walk).
    specialize (Hb s). destruct (console_read_body n (i, dst) s) as [[[[i' dst']|b] s1]|e] eqn:E; [|done|congruence].
    apply Hup in E as [-> Hne]. apply IH; lia.
  - intros res. assert (Hring : forall i, ends (ring_get i)) by (intros i s; unfold ring_get; by case_match). ends_walk.
Qed.

Section ends_inodes.
Context {St : Type} {BC : BlockCache St} (sblock : SuperBlock) {KA : Kalloc} (uninit : InodeEntry) (Hce : cache_ends BC).

Lemma ends_on_cache {A} (m : M St A) : ends m -> ends (on_cache m).
Proof. intros H s. unfold on_cache, zoom. specialize (H (cache s)). destruct (m (cache s)) as [[b c]|e]; [done|congruence]. Qed.
Lemma ends_on_cons {A} (m : M console A) : ends m -> ends (on_cons m : M (ist St) A).
Proof. intros H s. unfold on_cons, zoom. specialize (H (cons s)). destruct (m (cons s)) as [[b c]|e]; [done|congruence]. Qed.
Lemma ends_load p : ends (load_inode p : M (ist St) _).
Proof. intros s. unfold load_inode. by case_match. Qed.
Lemma ends_update p f : ends (update_inode p f : M (ist St) _).
Proof. intros s. unfold update_inode. by case_match. Qed.
Lemma ends_elem l i : ends (elem l i : M (ist St) _).
Proof. unfold elem. ends_walk. Qed.
Hint Resolve ends_on_cache ends_load ends_update ends_elem ce_acquire ce_release ce_sync ce_free ce_alloc ce_data ce_set_data : ends.
Lemma ends_load_entry p : ends (load_entry p : M (ist St) _).
Proof. unfold load_entry. ends_walk. Qed.
Lemma ends_update_entry p f : ends (update_entry p f : M (ist St) _).
Proof. unfold update_entry. ends_walk. Qed.
Hint Resolve ends_load_entry ends_update_entry : ends.
Lemma ends_lock p : ends (inode_lock p : M (ist St) _).
Proof. unfold inode_lock. ends_walk. Qed.
Lemma ends_unlock p : ends (inode_unlock p : M (ist St) _).
Proof. unfold inode_unlock. ends_walk. Qed.
Lemma ends_sync c p b : ends (inode_sync sblock c p b).
Proof. unfold inode_sync. ends_walk. Qed.
Lemma ends_map c p i : ends (inode_map c p i).
Proof. unfold inode_map. ends_walk. Qed.
Hint Resolve ends_lock ends_unlock ends_sync ends_map : ends.
Lemma ends_read_dirent p o : ends (read_dirent p o).
Proof.
  unfold read_dirent, inode_read, console_read, Inode.read_turn.
  assert (Hc : ends (on_cons (console_read_from sizeof_DirEntry []) : M (ist St) _)) by (by apply ends_on_cons, ends_console_read). ends_walk.
Qed.
Hint Resolve ends_read_dirent : ends.
Lemma ends_lookup p nm : ends (inode_lookup p nm).
Proof. unfold inode_lookup. ends_walk. Qed.
Lemma ends_find ino l : ends (find_inode ino l : M (ist St) _).
Proof. induction l as [|p l IH]; cbn [find_inode]; ends_walk. Qed.
Hint Resolve ends_lookup ends_find : ends.
Lemma ends_get ino : ends (inode_get sblock uninit ino).
Proof. unfold inode_get, increment_rc. ends_walk. Qed.
Lemma ends_put c p : ends (inode_put sblock c p).
Proof. unfold inode_put, inode_clear, clear_direct, clear_indirect, decrement_rc. ends_walk. Qed.
Lemma ends_skipelem path nm : ends (skipelem path nm : M (ist St) _).
Proof. unfold skipelem. ends_walk. Qed.
Hint Resolve ends_get ends_put ends_skipelem : ends.
Lemma ends_namex_body c par st : ends (namex_body sblock uninit c par st).
Proof. destruct st as [[p path] nm]. unfold namex_body. ends_walk. Qed.
Lemma ends_namex_loop c par n p path nm : (length path < n)%nat -> ends (while n (namex_body sblock uninit c par) (p, path, nm)).
Proof. intros Hn. apply (ends_while (fun st => length st.1.2)); [intros ? ? ? ?; apply namex_body_shrinks|apply ends_namex_body|done]. Qed.
Lemma ends_namex cwd path par nm c : ends (namex sblock uninit cwd path par nm c).
Proof.
  unfold namex, inode_share, increment_rc. assert (Hl : forall p nm, ends (while (Datatypes.S (length path)) (namex_body sblock uninit c par) (p, path, nm))) by (intros; apply ends_namex_loop; lia).
  ends_walk.
Qed.
End ends_inodes.

(** C34: The walk along a path ends. The loop of [namex] leaves: after at most
    as many turns as the path has characters, each of which goes on with a
    shorter path, comes a turn that ends it, with a result or because one of
    its own calls stops, and that is what the loop gives for any fuel beyond
    the length of the path. And when no operation of the block cache runs out
    of fuel, neither that turn nor [namex] as a whole does: every walk, from
    any state, returns or stops at an assertion, an invalid access or a
    sleep. *)
Theorem namex_terminates {St} {BC : BlockCache St} (sblock : SuperBlock) {KA : Kalloc} (uninit : InodeEntry) ctx par n p path nm (s : ist St) :
  (length path < n)%nat ->
  (exists k st s1, (k <= length path)%nat /\ loop_turns (namex_body sblock uninit ctx par) k (p, path, nm) s st s1 /\
    match namex_body sblock uninit ctx par st s1 with
    | Ret (inl _, _) => False
    | Ret (inr r, s2) => while n (namex_body sblock uninit ctx par) (p, path, nm) s = Ret (r, s2)
    | Stop e => while n (namex_body sblock uninit ctx par) (p, path, nm) s = Stop e
    end) /\
  (cache_ends BC ->
    while n (namex_body sblock uninit ctx par) (p, path, nm) s <> Stop NoFuel /\
    forall cwd nm', namex sblock uninit cwd path par nm' ctx s <> Stop NoFuel).
Proof.
  intros Hn. split.
  - refine (while_leaves (fun st : Z * list Z * list Z => length st.1.2) _ n (p, path, nm) s _ Hn). intros ? ? ? ?. apply namex_body_shrinks.
  - intros Hce. split; [by apply ends_namex_loop|]. intros cwd nm'. by apply ends_namex.
Qed.

(** ** Deciding the hypotheses on a given disk *)
Section decide.
Context (sb : SuperBlock) (v : gmap Z bytes) (e : InodeEntry).

Definition metab (b : Z) : bool :=
  (b =? sb_bitmap_start sb) || existsb (fun ino => b =? to_block_no sb (Z.of_nat ino)) (seq 0 (Z.to_nat (sb_num_inodes sb))).
Definition someb {A} (o : option A) : bool := match o with Some _ => true | None => false end.
Definition fs_okb : bool :=
  someb (v !! sb_bitmap_start sb) && forallb (fun p => block_okb p.2) (map_to_list v) &&
  forallb (fun ino => someb (v !! to_block_no sb (Z.of_nat ino)) && negb (to_block_no sb (Z.of_nat ino) =? sb_bitmap_start sb))
    (seq 0 (Z.to_nat (sb_num_inodes sb))) &&
  forallb (fun n => used sb v (Z.of_nat n) || (someb (v !! Z.of_nat n) && negb (metab (Z.of_nat n)) && negb (Nat.eqb n 0)))
    (seq 0 (Z.to_nat SWAP_START)).
Definition data_blockb (b : Z) : bool :=
  (0 <? b) && (b <? BIT_PER_BLOCK) && used sb v b && negb (metab b) && someb (v !! b).

Lemma metab_spec b : metab b = false -> ~ meta sb b.
Proof.
  unfold metab. intros [H1%Z.eqb_neq H2]%orb_false_iff [->|(ino & Hi & ->)]; [done|].
  apply not_true_iff_false in H2. apply H2, existsb_exists. exists (Z.to_nat ino).
  rewrite Z2Nat.id by lia. split; [apply in_seq; lia|apply Z.eqb_refl].
Qed.

Lemma someb_spec {A} (o : option A) : someb o = true -> is_Some o.
Proof. destruct o; [by eexists|done]. Qed.

Lemma fs_okb_spec : fs_okb = true -> fs_ok sb v.
Proof.
  unfold fs_okb. intros (((H1 & H2)%andb_true_iff & H3)%andb_true_iff & H4)%andb_true_iff.
  rewrite forallb_forall in H2. rewrite forallb_forall in H3. rewrite forallb_forall in H4. split.
  - by apply someb_spec.
  - intros n d Hd. apply block_okb_spec, (H2 (n, d)). by apply list_elem_of_In, elem_of_map_to_list.
  - intros ino Hi. specialize (H3 (Z.to_nat ino)). rewrite in_seq, Z2Nat.id in H3 by lia.
    destruct (proj1 (andb_true_iff _ _) (H3 ltac:(lia))) as [Ha Hb]. split; [by apply someb_spec|].
    by apply Z.eqb_neq, negb_true_iff.
  - intros n Hn Hu. specialize (H4 (Z.to_nat n)). rewrite in_seq, Z2Nat.id in H4 by lia.
    specialize (H4 ltac:(lia)). rewrite Hu in H4. cbn [orb] in H4.
    apply andb_true_iff in H4 as [[Ha Hb]%andb_true_iff Hc]. split; [by apply someb_spec|].
    split; [by apply metab_spec, negb_true_iff|]. intros ->. done.
Qed.

Lemma data_blockb_spec b : data_blockb b = true -> data_block sb v b.
Proof.
  unfold data_blockb. intros ((((H1 & H2)%andb_true_iff & H3)%andb_true_iff & H4)%andb_true_iff & H5)%andb_true_iff.
  split; [lia|]. split; [done|]. split; [by apply metab_spec, negb_true_iff|by apply someb_spec].
Qed.

(** A file without an indirect block. *)
Definition direct_okb : bool :=
  (indirect e =? 0) && forallb (fun b => (b =? 0) || data_blockb b) (addrs e) &&
  bool_decide (NoDup (filter (fun b => b <> 0) (addrs e))).

Lemma NoDup_nonzero (l : list Z) i j (b : Z) :
  NoDup (filter (fun b => b <> 0) l) -> l !! i = Some b -> l !! j = Some b -> b <> 0 -> i = j.
Proof.
  revert i j. induction l as [|x l IH]; intros i j Hn Hi Hj Hb; [done|].
  rewrite filter_cons in Hn. destruct i as [|i], j as [|j]; simpl in *; simplify_eq; try done.
  - rewrite decide_True in Hn by done. apply NoDup_cons in Hn as [Hn _]. destruct Hn.
    apply list_elem_of_filter. split; [done|]. by eapply list_elem_of_lookup_2.
  - rewrite decide_True in Hn by done. apply NoDup_cons in Hn as [Hn _]. destruct Hn.
    apply list_elem_of_filter. split; [done|]. by eapply list_elem_of_lookup_2.
  - f_equal. apply (IH i j); try done. case_decide; [by apply NoDup_cons in Hn as [_ Hn]|done].
Qed.

Lemma direct_okb_spec : direct_okb = true -> entry_ok e -> maps_ok sb v e.
Proof.
  unfold direct_okb. intros ((H0%Z.eqb_eq & H1)%andb_true_iff & H2%bool_decide_eq_true)%andb_true_iff He.
  pose proof He as (_ & _ & _ & _ & _ & _ & Hl & _). rewrite forallb_forall in H1.
  assert (Hb : forall i, 0 <= i -> blk v e i <> 0 -> addrs e !! Z.to_nat i = Some (blk v e i) /\ i < 12).
  { intros i Hi. unfold blk. change INODE_NUM_DIRECT with 12. rewrite H0, Z.eqb_refl.
    destruct (Z.ltb_spec i 12); [|done]. intros _. split; [|done]. apply list_lookup_lookup_total_lt. lia. }
  split; [done|..].
  - intros i Hi Hne. destruct (Hb i) as [E _]; [lia|done|]. apply data_blockb_spec.
    specialize (H1 (blk v e i)). rewrite (proj2 (Z.eqb_neq _ _)) in H1 by done. apply H1.
    apply list_elem_of_In. by eapply list_elem_of_lookup_2.
  - done.
  - intros i j Hi Hj E Hne. destruct (Hb i) as [Ei _]; [lia|done|]. destruct (Hb j) as [Ej _]; [lia|congruence|].
    rewrite <- E in Ej. pose proof (NoDup_nonzero _ _ _ _ H2 Ei Ej Hne). lia.
  - intros i Hi Hne. by rewrite H0.
Qed.
End decide.

(** A freshly mounted disk without a pending group. *)
Definition mounted (sb : SuperBlock) (dk : gmap Z bytes) : gmap Z bytes := filter (fun p => in_areab sb p.1 = false) dk.

Lemma mount_idle sb {KA : Kalloc} dk :
  disk_wf sb dk [] -> exists s, init_bcache sb (boot dk) = Ret (tt, s) /\ cache_idle sb s (mounted sb dk).
Proof.
  intros Hd. destruct (boot_wal sb dk [] Hd) as (s & E & Hw & Hv). exists s. split; [done|].
  destruct (recover_spec sb dk [] (dw_log _ _ _ Hd)) as (s' & E' & _ & _ & _ & Hh & Hacq & _). rewrite E in E'. injection E' as <-.
  split; [done|done|by rewrite Hh|]. intros n. unfold mounted. case_decide as Ha.
  - apply map_lookup_filter_None. right. intros d _. simpl. unfold in_areab, in_area in *.
    destruct Ha. rewrite !(proj2 (Z.leb_le _ _)) by done. done.
  - rewrite Hv by done. unfold target. rewrite zip_with_nil_r. simpl.
    destruct (dk !! n) eqn:Ed.
    + apply map_lookup_filter_Some. split; [done|]. simpl. apply not_true_iff_false. intros Hb. apply Ha.
      unfold in_areab in Hb. apply andb_true_iff in Hb as [?%Z.leb_le ?%Z.leb_le]. done.
    + apply map_lookup_filter_None. by left.
Qed.

Lemma boot_idle sb {KA : Kalloc} dk s :
  disk_wf sb dk [] -> init_bcache sb (boot dk) = Ret (tt, s) -> cache_idle sb s (mounted sb dk).
Proof. intros Hd E. destruct (mount_idle sb dk Hd) as (s' & E' & H). rewrite E in E'. by injection E' as ->. Qed.

(** ** An example: the root directory, in block 29, with entries [.] and [a] *)
Definition ex_name (c : Z) : bytes := c :: replicate 13 0.
Definition ex_dir : InodeEntry := mkEntry INODE_DIRECTORY 0 0 1 32 (29 :: replicate 11 0) 0.
Definition ex_bits : bytes := [255; 255; 255; 63; 0] ++ replicate 95 255 ++ replicate 412 0.
Definition ex_fs_disk : gmap Z bytes :=
  <[20 := put_entry 1 ex_dir (ex_block 0)]> (<[25 := ex_bits]>
    (<[29 := splice 0 (dirent_bytes (mkDirent 1 (ex_name 46)) ++ dirent_bytes (mkDirent 2 (ex_name 97))) (ex_block 0)]> ex_disk)).
Definition ex_fs_boot : bcst :=
  match @init_bcache ex_sb ex_kalloc (boot ex_fs_disk) with Ret (_, s) => s | Stop _ => boot ex_fs_disk end.
Definition ex_view : gmap Z bytes := mounted ex_sb ex_fs_disk.
Definition ex_store : store := mkStore ex_view ∅ ∅ ∅ OP_MAX_NUM_BLOCKS.
Definition ex_inode : Inode := mkInode 1 1 1 true ex_dir.

Lemma ex_cap : OP_MAX_NUM_BLOCKS <= log_cap ex_sb.
Proof. by vm_compute. Qed.

#[local] Existing Instance ex_kalloc.
#[local] Instance ex_cache : BlockCache bcst := bcache ex_sb.
#[local] Instance ex_laws : BlockCacheLaws bcst ex_sb := bcache_laws ex_sb ex_cap.

Lemma ex_fs_dom n : is_Some (ex_fs_disk !! n) <-> is_Some (ex_disk !! n).
Proof.
  unfold ex_fs_disk. rewrite !lookup_insert_is_Some'. split; [|tauto].
  intros [<-|[<-|[<-|H]]]; [apply ex_disk_dom; lia..|done].
Qed.

Lemma ex_fs_header : disk_header ex_sb ex_fs_disk = mkHeader 0 (replicate 63 0).
Proof. vm_compute. reflexivity. Qed.

Lemma ex_fs_disk_wf : disk_wf ex_sb ex_fs_disk [].
Proof.
  pose proof ex_disk_wf as [H1 H2 H3 H4]. split; [|intros i Hi; by apply ex_fs_dom, H2|intros n Hn; by apply H3, ex_fs_dom|done].
  split; rewrite ?ex_fs_header; try done.
  - split; [|by vm_compute]. assert (Hb : forallb (fun p => block_okb p.2) (map_to_list ex_fs_disk) = true) by by vm_compute.
    rewrite forallb_forall in Hb. intros n d Hd. apply block_okb_spec, (Hb (n, d)). by apply list_elem_of_In, elem_of_map_to_list.
  - constructor.
  - intros n Hn. by apply elem_of_nil in Hn.
Qed.

Lemma ex_idle : cache_idle ex_sb ex_fs_boot ex_view.
Proof. apply (boot_idle ex_sb (KA := ex_kalloc)); [apply ex_fs_disk_wf|by vm_compute]. Qed.

(** Operation 7 has begun, the root inode is loaded at address 8. *)
Definition ex_ist : ist bcst :=
  mkIst match bc_begin_op 7 ex_fs_boot with Ret (_, s) => s | Stop _ => ex_fs_boot end
    {[8 := ex_inode]} [8] ex_cons 8.

Lemma ex_opened : opened ex_sb 7 ex_store ex_ist 8 ex_inode.
Proof.
  destruct (@begin_law bcst ex_cache ex_sb ex_laws 7 ex_fs_boot ex_view ex_idle) as (s' & E & H). constructor.
  - unfold ex_ist. rewrite E. exact H.
  - reflexivity.
  - reflexivity.
  - reflexivity.
  - reflexivity.
  - vm_compute. split; congruence.
  - apply fs_okb_spec. vm_compute. reflexivity.
Qed.

Lemma ex_dir_wf : dir_wf ex_sb ex_view ex_dir.
Proof.
  split; [|done|done]. split; [|done|done|].
  - apply direct_okb_spec; [vm_compute; reflexivity|]. unfold entry_ok, word_ok, ex_dir. cbn [type major minor num_links num_bytes addrs indirect replicate].
    repeat constructor; vm_compute; congruence.
  - intros i Hi Hlt. simpl in Hlt. assert (i = 0) as -> by (unfold BLOCK_SIZE in Hlt; lia). by vm_compute.
Qed.

Lemma ex_dir_map : dirents ex_view ex_dir = [mkDirent 1 (ex_name 46); mkDirent 2 (ex_name 97)].
Proof. vm_compute. reflexivity. Qed.

Lemma ex_dir_unique : dir_unique (dirents ex_view ex_dir).
Proof. rewrite ex_dir_map. unfold dir_unique, dir_pairs. simpl. apply (bool_decide_unpack _). by vm_compute. Qed.

Lemma ex_free : free_count ex_sb ex_view = 10.
Proof. vm_compute. reflexivity. Qed.

Lemma inode_read_correct_witness :
  exists cs, inode_read 8 16 100 ex_ist = Ret ((16, dirent_bytes (mkDirent 2 (ex_name 97))), set_cache cs ex_ist) /\
    opened ex_sb 7 ex_store (set_cache cs ex_ist) 8 ex_inode.
Proof.
  assert (E : dirent_bytes (mkDirent 2 (ex_name 97)) = range 16 100 (file_data ex_view ex_dir)) by (vm_compute; reflexivity).
  rewrite E. apply (inode_read_correct ex_sb 7 ex_store ex_ist 8 ex_inode 16 100 ex_opened (dw_file _ _ _ ex_dir_wf)).
  - vm_compute. split; congruence.
  - vm_compute. split; congruence.
Defined.

Lemma inode_write_correct_witness :
  exists cs a' e', inode_write ex_sb (Some 7) 8 (replicate 600 5) 32 600 ex_ist = Ret (600, reentered 8 ex_inode e' cs ex_ist) /\
    opened ex_sb 7 a' (reentered 8 ex_inode e' cs ex_ist) 8 (set_entry e' ex_inode) /\
    file_wf ex_sb (st_view a') e' /\
    file_data (st_view a') e' = splice 32 (take 600 (replicate 600 5)) (file_data ex_view ex_dir) /\
    others ex_sb ex_view ex_dir (st_view a') e' 1.
Proof.
  apply (inode_write_correct ex_sb 7 ex_store ex_ist 8 ex_inode (replicate 600 5) 32 600 ex_opened (dw_file _ _ _ ex_dir_wf)).
  - vm_compute. split; congruence.
  - vm_compute. congruence.
  - vm_compute. congruence.
  - vm_compute. congruence.
  - apply Forall_replicate. vm_compute. split; congruence.
  - vm_compute. congruence.
  - change (st_view ex_store) with ex_view. rewrite ex_free. vm_compute. congruence.
Defined.

Lemma inode_lookup_correct_witness :
  exists cs res, inode_lookup 8 (ex_name 97) ex_ist = Ret (res, set_cache cs ex_ist) /\
    opened ex_sb 7 ex_store (set_cache cs ex_ist) 8 ex_inode /\
    match dir_map (dirents ex_view ex_dir) !! [97] with
    | Some ino => exists k de, res = (ino, Some (Z.of_nat k * sizeof_DirEntry)) /\ ino <> 0 /\
        dirents ex_view ex_dir !! k = Some de /\ dname de = [97] /\ de_inode_no de = ino
    | None => res = (0, None)
    end.
Proof.
  apply (inode_lookup_correct ex_sb 7 ex_store ex_ist 8 ex_inode (ex_name 97) ex_opened ex_dir_wf). by left.
Defined.

Lemma inode_insert_correct_witness :
  match dir_map (dirents ex_view ex_dir) !! [98] with
  | Some _ => exists cs, inode_insert ex_sb (Some 7) 8 (ex_name 98) 3 ex_ist = Ret (u64 (-1), set_cache cs ex_ist) /\
      opened ex_sb 7 ex_store (set_cache cs ex_ist) 8 ex_inode
  | None => exists cs a' e',
      inode_insert ex_sb (Some 7) 8 (ex_name 98) 3 ex_ist =
        Ret (Z.of_nat (free_slot 0 (dirents ex_view ex_dir)) * sizeof_DirEntry, reentered 8 ex_inode e' cs ex_ist) /\
      opened ex_sb 7 a' (reentered 8 ex_inode e' cs ex_ist) 8 (set_entry e' ex_inode) /\
      dir_wf ex_sb (st_view a') e' /\ dir_unique (dirents (st_view a') e') /\
      dir_map (dirents (st_view a') e') = <[[98] := 3]> (dir_map (dirents ex_view ex_dir)) /\
      others ex_sb ex_view ex_dir (st_view a') e' 1
  end.
Proof.
  apply (inode_insert_correct ex_sb 7 ex_store ex_ist 8 ex_inode (ex_name 98) 3 ex_opened ex_dir_wf ex_dir_unique).
  - by left.
  - unfold ex_name. apply Forall_cons. split; [vm_compute; split; congruence|]. apply Forall_replicate. vm_compute. split; congruence.
  - vm_compute. congruence.
  - vm_compute. congruence.
  - vm_compute. congruence.
  - change (st_view ex_store) with ex_view. rewrite ex_free. vm_compute. congruence.
Defined.

Lemma ex_lookup : exists s1, inode_lookup 8 (ex_name 97) ex_ist = Ret ((2, Some 16), s1).
Proof. eexists. vm_compute. reflexivity. Qed.

Lemma inode_remove_correct_witness :
  exists s1 cs a' e', inode_lookup 8 (ex_name 97) ex_ist = Ret ((2, Some 16), s1) /\
    inode_remove ex_sb (Some 7) 8 16 s1 = Ret (tt, reentered 8 ex_inode e' cs ex_ist) /\
    opened ex_sb 7 a' (reentered 8 ex_inode e' cs ex_ist) 8 (set_entry e' ex_inode) /\
    dir_map (dirents (st_view a') e') = delete [97] (dir_map (dirents ex_view ex_dir)).
Proof.
  destruct ex_lookup as [s1 E].
  destruct (inode_remove_correct ex_sb 7 ex_store ex_ist 8 ex_inode (ex_name 97) s1 2 16 ex_opened ex_dir_wf ex_dir_unique) as
    (cs & a' & e' & E2 & H & _ & _ & Hm & _).
  - by left.
  - exact E.
  - vm_compute. congruence.
  - change (st_view ex_store) with ex_view. rewrite ex_free. vm_compute. congruence.
  - exists s1, cs, a', e'. split; [exact E|]. split; [exact E2|]. split; [exact H|exact Hm].
Defined.

Lemma inode_write_nothing_stops_witness : exists r, inode_write ex_sb (Some 7) 8 [] 0 0 ex_ist = Stop r.
Proof. apply (inode_write_nothing_stops ex_sb (Some 7) 8 [] ex_ist ex_inode); [reflexivity|vm_compute; congruence]. Defined.

(** A cache of blocks in memory, which never sleeps. *)
Definition plain_cache : BlockCache (gmap Z bytes) := {|
  bc_acquire n := ret n;
  bc_release _ := ret tt;
  bc_sync _ _ := ret tt;
  bc_alloc _ := stop Panic;
  bc_free _ n := modify (delete n);
  bc_begin_op _ := ret tt;
  bc_end_op _ := ret tt;
  bc_data n := fun s => match s !! n with Some d => Ret (d, s) | None => Stop Fault end;
  bc_set_data n d := modify (insert n d)
|}.
Definition ex_plain : ist (gmap Z bytes) := mkIst ex_fs_disk {[8 := ex_inode]} [8] ex_cons 8.

Lemma namex_terminates_witness :
  (exists k st s1, (k <= 4)%nat /\ loop_turns (namex_body ex_sb zero_entry (Some 7) false) k (8, [46; 47; 97; 0], []) ex_ist st s1 /\
    match namex_body ex_sb zero_entry (Some 7) false st s1 with
    | Ret (inl _, _) => False
    | Ret (inr r, s2) => while 5 (namex_body ex_sb zero_entry (Some 7) false) (8, [46; 47; 97; 0], []) ex_ist = Ret (r, s2)
    | Stop e => while 5 (namex_body ex_sb zero_entry (Some 7) false) (8, [46; 47; 97; 0], []) ex_ist = Stop e
    end) /\
  @namex _ plain_cache ex_sb _ zero_entry 8 [46; 47; 97; 0] false [] (Some 7) ex_plain <> Stop NoFuel.
Proof.
  split.
  - apply (namex_terminates ex_sb zero_entry (Some 7) false 5 8 [46; 47; 97; 0] [] ex_ist). simpl. lia.
  - apply (@namex_terminates _ plain_cache ex_sb _ zero_entry (Some 7) false 5 8 [46; 47; 97; 0] [] ex_plain); [simpl; lia|].
    split; intros; intros s; simpl; try done. by case_match.
Defined.
