(* ===== verification/Mkfs.v ===== *)
(** * Building a file system image (user/mkfs/main.c)

    The image file is an array of sectors, as the program only ever reads and
    writes whole ones. The calls of the host's C library on it succeed,
    except that reading past the end of the file ends the program; a message
    on stderr followed by [exit(1)], and a failing [assert], are a
    [Stop Panic]. The files to copy are given by their paths and by the
    pieces [read] returns of them. *)
From stdpp Require Import base gmap list.
From Stdlib Require Import ZArith Lia.
From S2P Require Import Prelude Bytes BCache BlockStore CString Console Inode Bitmap InodeFile InodeMap InodeWrite.

Definition FSSIZE := 1000.
Definition NINODES := 200.
Definition nbitmap := FSSIZE / (BLOCK_SIZE * 8) + 1.
Definition ninodeblocks := NINODES / INODE_PER_BLOCK + 1.
Definition num_log_blocks := LOG_MAX_SIZE.
Definition nmeta := 2 + num_log_blocks + ninodeblocks + nbitmap.
Definition num_data_blocks := FSSIZE - nmeta.

(** Little-endian byte order, through the bytes of the result. *)
Definition xshort (x : Z) : Z := le_decode [x mod 256; Z.shiftr x 8 mod 256].
Definition xint (x : Z) : Z := le_decode [x mod 256; Z.shiftr x 8 mod 256; Z.shiftr x 16 mod 256; Z.shiftr x 24 mod 256].

Definition sb : SuperBlock :=
  mkSuper (xint FSSIZE) (xint num_data_blocks) (xint NINODES) (xint num_log_blocks) (xint 2) (xint (2 + num_log_blocks)) (xint (2 + num_log_blocks + ninodeblocks)).
Definition sb_bytes (s : SuperBlock) : bytes :=
  unwords 4 [sb_num_blocks s; sb_num_data_blocks s; sb_num_inodes s; sb_num_log_blocks s; sb_log_start s; sb_inode_start s; sb_bitmap_start s].

Record mkst := mkMk { img : gmap Z bytes; freeinode : Z; freeblock : Z }.
Definition set_img (f : gmap Z bytes -> gmap Z bytes) (s : mkst) : mkst := mkMk (f (img s)) (freeinode s) (freeblock s).
Definition set_freeinode (n : Z) (s : mkst) : mkst := mkMk (img s) n (freeblock s).
Definition set_freeblock (n : Z) (s : mkst) : mkst := mkMk (img s) (freeinode s) n.

Abbreviation M := (M mkst).

(** The sector at which [lseek(fsfd, sec * BSIZE, 0)] leaves the file. *)
Definition sector (sec : Z) : Z := u32 (sec * BLOCK_SIZE) / BLOCK_SIZE.
Definition wsect (sec : Z) (buf : bytes) : M unit := modify (set_img (insert (sector sec) buf)).
Definition rsect (sec : Z) : M bytes := m <- gets img ;; match m !! sector sec with Some d => ret d | None => stop Panic end.

Definition IBLOCK (i : Z) : Z := i / INODE_PER_BLOCK + sb_inode_start sb.
Definition winode (inum : Z) (ip : InodeEntry) : M unit :=
  buf <- rsect (IBLOCK inum) ;; wsect (IBLOCK inum) (put_entry inum ip buf).
Definition rinode (inum : Z) : M InodeEntry := buf <- rsect (IBLOCK inum) ;; ret (get_entry buf inum).

Definition next_inode : M Z := i <- gets freeinode ;; modify (set_freeinode (u32 (i + 1))) ;;; ret i.
Definition next_block : M Z := b <- gets freeblock ;; modify (set_freeblock (u32 (b + 1))) ;;; ret b.

Definition ialloc (ty : Z) : M Z :=
  inum <- next_inode ;;
  winode inum (mkEntry (xshort ty) 0 0 (xshort 1) (xint 0) (replicate 12 0) 0) ;;;
  ret inum.

(** The block [fbn] of the file, allocated on demand. *)
Definition iblock (din : InodeEntry) (fbn : Z) : M (InodeEntry * Z) :=
  if fbn <? INODE_NUM_DIRECT then
    din <- (if xint (addrs din !!! Z.to_nat fbn) =? 0 then b <- next_block ;; ret (set_addr fbn (xint b) din) else ret din) ;;
    ret (din, xint (addrs din !!! Z.to_nat fbn))
  else
    din <- (if xint (indirect din) =? 0 then b <- next_block ;; ret (set_indirect (xint b) din) else ret din) ;;
    buf <- rsect (xint (indirect din)) ;;
    let ind := get_addrs buf in
    let k := Z.to_nat (fbn - INODE_NUM_DIRECT) in
    ind <- (if ind !!! k =? 0 then
              b <- next_block ;;
              let ind := <[k := xint b]> ind in
              wsect (xint (indirect din)) (put_addrs ind) ;;; ret ind
            else ret ind) ;;
    ret (din, xint (ind !!! k)).

(** [p] is what is left of the source, [n] the number of its bytes to go. *)
Definition iappend_turn '((din, off, p, n) : InodeEntry * Z * bytes * Z) : M (InodeEntry * Z * bytes * Z + InodeEntry * Z) :=
  if 0 <? n then
    let fbn := off / BLOCK_SIZE in
    assert (fbn <? INODE_MAX_BLOCKS) ;;;
    r <- iblock din fbn ;;
    let '(din, x) := r in
    let n1 := Z.min n (u32 (u32 ((fbn + 1) * BLOCK_SIZE) - off)) in
    buf <- rsect x ;;
    wsect x (splice (Z.to_nat (off - fbn * BLOCK_SIZE)) (take (Z.to_nat n1) p) buf) ;;;
    ret (inl (din, u32 (off + n1), drop (Z.to_nat n1) p, i32 (n - n1)))
  else ret (inr (din, off)).

Definition iappend (inum : Z) (p : bytes) (n : Z) : M unit :=
  din <- rinode inum ;;
  r <- while (S (Z.to_nat n)) iappend_turn (din, xint (num_bytes din), p, n) ;;
  winode inum (set_num_bytes (xint r.2) r.1).

(** [buf[i / 8] | (0x1 << (i % 8))] for [i] from 0 to [used]. *)
Definition balloc_bits (used : Z) : bytes :=
  foldl (fun buf i => <[(i / 8)%nat := Z.lor (buf !!! (i / 8)%nat) (Z.shiftl 1 (Z.of_nat (i mod 8)))]> buf) (replicate 512 0) (seq 0 (Z.to_nat used)).
Definition balloc (used : Z) : M unit :=
  assert (used <? BLOCK_SIZE * 8) ;;; wsect (sb_bitmap_start sb) (balloc_bits used).

(** ** The files *)
Record input := mkInput { path : bytes; reads : list bytes }.

(** The loop over [*argv[i]] leaves it at the end; [j] counts the bytes since
    the last slash. *)
Definition after_slash (path : bytes) : Z := foldl (fun j c => (if c =? 47 then -1 else j) + 1) 0 path.
Definition base_name (path : bytes) : bytes := drop (length path - Z.to_nat (after_slash path)) path.
Definition strip_underscore (s : bytes) : bytes := match s with c :: s' => if c =? 95 then s' else s | [] => [] end.

(** [bzero], then [strncpy] of at most [DIRSIZ] bytes. *)
Definition dirsiz (s : bytes) : bytes := take 14 (s ++ replicate 14 0).
Definition link (dir inum : Z) (nm : bytes) : M unit := iappend dir (dirent_bytes (mkDirent (xshort inum) (dirsiz nm))) sizeof_DirEntry.

Definition copy_file (rootino : Z) (f : input) : M unit :=
  let nm := base_name (path f) in
  assert (forallb (fun c => negb (c =? 47)) nm) ;;;
  inum <- ialloc INODE_REGULAR ;;
  link rootino inum (strip_underscore nm) ;;;
  foldr (fun buf m => iappend inum buf (Z.of_nat (length buf)) ;;; m) (ret tt) (reads f).

Definition main (files : list input) : M Z :=
  modify (set_freeblock nmeta) ;;;
  foldr (fun i m => wsect (Z.of_nat i) (replicate 512 0) ;;; m) (ret tt) (seq 0 (Z.to_nat FSSIZE)) ;;;
  wsect 1 (splice 0 (sb_bytes sb) (replicate 512 0)) ;;;
  rootino <- ialloc INODE_DIRECTORY ;;
  assert (rootino =? ROOT_INODE_NO) ;;;
  link rootino rootino [46] ;;;
  link rootino rootino [46; 46] ;;;
  foldr (fun f m => copy_file rootino f ;;; m) (ret tt) files ;;;
  din <- rinode rootino ;;
  let off := xint (num_bytes din) in
  let off := u32 (u32 (off / BLOCK_SIZE + 1) * BLOCK_SIZE) in
  winode rootino (set_num_bytes (xint off) din) ;;;
  used <- gets freeblock ;;
  balloc used ;;;
  ret 0.

(** The globals before [main]. *)
Definition start : mkst := mkMk ∅ 1 0.

(** * The files of an image under construction (user/mkfs/main.c)

    The program marks the used blocks in the bitmap only at the end. Its
    image is related here to the view [gv] in which the bitmap is already
    what it will be for the blocks handed out so far: on that view the
    well-formedness of files is that of the kernel (InodeFile.v), and
    [iappend] is an [inode_write] at the end of the file (InodeWrite.v). *)

Lemma sb_val : sb = mkSuper 1000 908 200 63 2 65 91.
Proof. vm_compute. reflexivity. Qed.

(** ** Byte order *)
Lemma xint_id x : 0 <= x < 2 ^ 32 -> xint x = x.
Proof.
  intros Hx. unfold xint. pose proof (le_decode_encode 4 x) as H. cbn [le_encode] in H. rewrite !Z.shiftr_div_pow2 by lia. etrans; [|apply H; change (256 ^ Z.of_nat 4) with (2 ^ 32); lia].
  f_equal. rewrite !Z.div_div by lia. done.
Qed.
Lemma xshort_id x : 0 <= x < 2 ^ 16 -> xshort x = x.
Proof.
  intros Hx. unfold xshort. pose proof (le_decode_encode 2 x) as H. cbn [le_encode] in H. rewrite !Z.shiftr_div_pow2 by lia. etrans; [|apply H; change (256 ^ Z.of_nat 2) with (2 ^ 16); lia]. done.
Qed.
Lemma sector_id n : 0 <= n < 4096 -> sector n = n.
Proof. intros Hn. unfold sector, BLOCK_SIZE. unfold u32. rewrite wrapu_small by lia. by apply Z.div_mul. Qed.

(** ** The bitmap to be *)
Definition gbits (u : Z) : bytes := foldl (fun d i => put_bit true (Z.of_nat i) d) zero_block (seq 0 (Z.to_nat u)).

Lemma gbits_S u : 0 <= u -> gbits (u + 1) = put_bit true u (gbits u).
Proof. intros Hu. unfold gbits. replace (Z.to_nat (u + 1)) with (S (Z.to_nat u)) by lia. rewrite seq_S, foldl_app. cbn. by rewrite Z2Nat.id. Qed.

Lemma gbits_spec u : 0 <= u <= BIT_PER_BLOCK -> block_ok (gbits u) /\ forall j, 0 <= j -> block_bit (gbits u) j = (j <? u).
Proof.
  intros [H0 Hu]. revert Hu. pattern u. apply natlike_ind; [| |done].
  - intros _. split; [apply zero_block_ok|]. intros j Hj. rewrite (proj2 (Z.ltb_ge _ _)) by done. unfold block_bit.
    change (gbits 0) with zero_block. assert (E : words 8 64 zero_block = replicate 64 0) by (vm_compute; reflexivity). rewrite E. unfold bit.
    destruct (replicate 64 0 !! _) as [c|] eqn:Hc; [|done]. apply lookup_replicate in Hc as [-> _]. apply Z.testbit_0_l.
  - intros x Hx IH Hb. destruct IH as [IH1 IH2]; [lia|]. change (Z.succ x) with (x + 1) in *. rewrite gbits_S by done.
    destruct (put_bit_spec true x (gbits x) IH1) as (H1 & _ & H2); [lia|]. split; [done|]. intros j Hj. rewrite H2, IH2 by done.
    destruct (Z.eqb_spec j x), (Z.ltb_spec j x), (Z.ltb_spec j (x + 1)); try done; lia.
Qed.

(** [balloc] writes exactly that. *)
Fixpoint same_bits (n : nat) (i : nat) (d1 d2 : bytes) : bool :=
  bool_decide (d1 = d2) && match n with
  | O => true
  | S n => same_bits n (S i) (<[(i / 8)%nat := Z.lor (d1 !!! (i / 8)%nat) (Z.shiftl 1 (Z.of_nat (i mod 8)))]> d1) (put_bit true (Z.of_nat i) d2)
  end.

Lemma same_bits_spec n i d1 d2 : same_bits n i d1 d2 = true -> forall k, (k <= n)%nat ->
  foldl (fun buf i => <[(i / 8)%nat := Z.lor (buf !!! (i / 8)%nat) (Z.shiftl 1 (Z.of_nat (i mod 8)))]> buf) d1 (seq i k) =
  foldl (fun d i => put_bit true (Z.of_nat i) d) d2 (seq i k).
Proof.
  revert i d1 d2. induction n as [|n IH]; intros i d1 d2; cbn [same_bits]; intros [H1%bool_decide_eq_true H2]%andb_true_iff k Hk.
  - assert (k = 0%nat) as -> by lia. done.
  - destruct k as [|k]; [done|]. cbn [seq foldl]. apply (IH _ _ _ H2). lia.
Qed.

Lemma balloc_gbits u : 0 <= u <= SWAP_START -> balloc_bits u = gbits u.
Proof.
  intros Hu. unfold balloc_bits, gbits. apply (same_bits_spec 800 0 (replicate 512 0) zero_block); [vm_compute; reflexivity|]. change SWAP_START with 800 in Hu. lia.
Qed.

(** ** The image *)
Definition gv (s : mkst) : gmap Z bytes := <[91 := gbits (freeblock s)]> (img s).

Record base (s : mkst) : Prop := {
  bs_blk : nmeta <= freeblock s <= SWAP_START;
  bs_dom : forall n, is_Some (img s !! n) <-> 0 <= n < FSSIZE;
  bs_ok : forall n d, img s !! n = Some d -> block_ok d;
  bs_zero : forall n, freeblock s <= n < FSSIZE -> img s !! n = Some zero_block
}.

Lemma nmeta_val : nmeta = 92.
Proof. done. Qed.

Lemma gv_ne s n : n <> 91 -> gv s !! n = img s !! n.
Proof. intros Hn. unfold gv. by rewrite lookup_insert_ne. Qed.

Lemma gv_bits s : gv s !! 91 = Some (gbits (freeblock s)).
Proof. apply lookup_insert_eq. Qed.

Lemma gv_used s b : base s -> 0 <= b -> used sb (gv s) b = (b <? freeblock s).
Proof.
  intros H Hb. unfold used. rewrite sb_val. cbn [sb_bitmap_start]. rewrite gv_bits. pose proof (bs_blk s H) as Hf. change SWAP_START with 800 in Hf. rewrite nmeta_val in Hf.
  apply gbits_spec; [change BIT_PER_BLOCK with 4096; lia|done].
Qed.

Lemma to_block_bounds ino : 0 <= ino < 200 -> 65 <= to_block_no sb ino < 91.
Proof.
  intros Hi. unfold to_block_no. rewrite sb_val. cbn [sb_inode_start]. change INODE_PER_BLOCK with 8.
  assert (0 <= ino / 8) by (apply Z.div_pos; lia). assert (ino / 8 < 25) by (apply Z.div_lt_upper_bound; lia). lia.
Qed.

Lemma IBLOCK_block ino : IBLOCK ino = to_block_no sb ino.
Proof. unfold IBLOCK, to_block_no. lia. Qed.

Lemma base_fs s : base s -> fs_ok sb (gv s).
Proof.
  intros H. pose proof (bs_blk s H) as Hf. change SWAP_START with 800 in Hf. rewrite nmeta_val in Hf. split.
  - rewrite sb_val. cbn. rewrite gv_bits. eauto.
  - intros n d. unfold gv. intros [[<- <-]|[Hn Hd]]%lookup_insert_Some; [apply gbits_spec; change BIT_PER_BLOCK with 4096; lia|by apply (bs_ok s H n)].
  - intros ino Hi. rewrite sb_val in Hi. cbn in Hi. pose proof (to_block_bounds ino Hi). split; [|rewrite sb_val at 2; cbn [sb_bitmap_start]; lia].
    rewrite gv_ne by lia. apply (bs_dom s H). unfold FSSIZE. lia.
  - intros n Hn. change SWAP_START with 800 in Hn. rewrite gv_used by (done || lia). intros Hge%Z.ltb_ge. rewrite gv_ne by lia.
    split; [apply (bs_dom s H); unfold FSSIZE; lia|]. split; [|lia]. intros [->|(ino & Hi & ->)]; [rewrite sb_val in Hge; cbn in Hge; lia|].
    rewrite sb_val in Hi. cbn in Hi. pose proof (to_block_bounds ino Hi). lia.
Qed.

Lemma data_bounds s b : base s -> data_block sb (gv s) b -> 0 < b < freeblock s /\ b <> 91.
Proof.
  intros H Hd. pose proof (data_not_bmb sb _ _ Hd) as Hne. destruct Hd as ([H0 H1] & Hu & _ & _). rewrite gv_used in Hu by (done || lia).
  rewrite sb_val in Hne. cbn in Hne. apply Z.ltb_lt in Hu. done.
Qed.

(** A sector is read. *)
Lemma rsect_Ret s b d : gv s !! b = Some d -> 0 <= b < 4096 -> b <> 91 -> rsect b s = Ret (d, s).
Proof. intros Hd Hb Hne. unfold rsect. rewrite (bind_Ret (gets img) _ s _ s eq_refl), sector_id by done. rewrite gv_ne in Hd by done. by rewrite Hd. Qed.

(** A sector in use is written. *)
Lemma base_write s b d : base s -> 0 <= b < freeblock s -> b <> 91 -> block_ok d ->
  let s' := set_img (insert b d) s in wsect b d s = Ret (tt, s') /\ base s' /\ gv s' = <[b := d]> (gv s) /\ freeinode s' = freeinode s /\ freeblock s' = freeblock s.
Proof.
  intros H Hb Hne Hd s'. pose proof (bs_blk s H) as Hf. change SWAP_START with 800 in Hf. split; [unfold wsect; rewrite sector_id by lia; done|]. split; [|split; [|done]].
  - split; [apply H|..].
    + intros n. change (img s') with (<[b := d]> (img s)). rewrite lookup_insert_is_Some', (bs_dom s H). unfold FSSIZE. split; [intros [<-|?]; lia|by right].
    + intros n dn. change (img s') with (<[b := d]> (img s)). intros [[<- <-]|[_ Hdn]]%lookup_insert_Some; [done|by apply (bs_ok s H n)].
    + intros n Hn. cbn [img s' set_img freeblock] in *. rewrite lookup_insert_ne by lia. by apply (bs_zero s H).
  - unfold gv. cbn [img s' set_img freeblock]. by rewrite insert_insert_ne.
Qed.

(** A block is handed out. *)
Lemma base_alloc s : base s -> freeblock s < SWAP_START ->
  let n := freeblock s in let s' := set_freeblock (n + 1) s in
  next_block s = Ret (n, s') /\ base s' /\ gv s' = alloc_view sb (gv s) (gbits n) n /\ gv s !! sb_bitmap_start sb = Some (gbits n) /\ first_free (gbits n) n.
Proof.
  intros H Hlt n s'. pose proof (bs_blk s H) as Hf. change SWAP_START with 800 in *. rewrite nmeta_val in Hf. fold n in Hf, Hlt.
  split; [|split; [|split; [|split]]].
  - unfold next_block. rewrite (bind_Ret (gets freeblock) _ s _ s eq_refl). unfold u32. rewrite wrapu_small by (fold n; lia). done.
  - split; cbn [freeblock s' set_freeblock img]; [rewrite nmeta_val; change SWAP_START with 800; lia|apply H|apply H|]. intros m Hm. apply (bs_zero s H). fold n. lia.
  - unfold alloc_view, gv. rewrite sb_val. cbn [sb_bitmap_start freeblock s' set_freeblock img]. fold n. rewrite gbits_S, insert_insert_eq by lia.
    rewrite insert_insert_ne by lia. f_equal. symmetry. apply insert_id, (bs_zero s H). unfold FSSIZE. fold n. lia.
  - rewrite sb_val. apply gv_bits.
  - destruct (gbits_spec n) as [_ Hb]; [change BIT_PER_BLOCK with 4096; lia|]. split; [change SWAP_START with 800; lia|]. split; [rewrite Hb by lia; apply Z.ltb_irrefl|].
    intros j Hj. rewrite Hb by lia. apply Z.ltb_lt. lia.
Qed.

(** ** Mapping a block of a file *)
Definition missing v e (i : Z) : Z := if blk v e i =? 0 then 1 + table_missing e i else 0.

Lemma word4_xint x : word_ok 4 x -> xint x = x.
Proof. apply xint_id. Qed.

Lemma bound_xint n : 0 <= n < 4096 -> xint n = n.
Proof. intros H. apply xint_id. lia. Qed.

(** A slot of the indirect block, which is there. *)
Lemma iblock_table s e i :
  base s -> maps_ok sb (gv s) e -> 12 <= i < 140 -> indirect e <> 0 -> freeblock s + missing (gv s) e i <= SWAP_START ->
  exists b s', iblock e i s = Ret ((e, b), s') /\ mapped sb (gv s) e (gv s') e i b /\ base s' /\ freeinode s' = freeinode s /\ freeblock s' = freeblock s + missing (gv s) e i.
Proof.
  intros H Hm Hi H0 Hf. set (ind := indirect e) in *. pose proof (base_fs s H) as Hfs.
  assert (Hind : data_block sb (gv s) ind) by exact (mo_ind _ _ _ Hm H0). destruct (data_bounds s ind H Hind) as [Hib Hi91]. pose proof Hind as (_ & _ & _ & [t Ht]).
  pose proof (bs_blk s H) as Hfb. change SWAP_START with 800 in *. rewrite nmeta_val in Hfb.
  assert (Hw : xint ind = ind) by (apply bound_xint; lia).
  assert (Htok : block_ok t) by by eapply (fo_block _ _ Hfs). destruct (get_addrs_ok t Htok) as [Hl Hwt].
  assert (Hblk : blk (gv s) e i = get_addrs t !!! Z.to_nat (i - 12)).
  { unfold blk. change INODE_NUM_DIRECT with 12. rewrite (proj2 (Z.ltb_ge i 12)) by lia. fold ind. rewrite (proj2 (Z.eqb_neq ind 0)) by done. unfold table. by rewrite Ht. }
  assert (Hwk : word_ok 4 (get_addrs t !!! Z.to_nat (i - 12))).
  { rewrite Forall_lookup in Hwt. apply (Hwt (Z.to_nat (i - 12))). apply list_lookup_lookup_total_lt. lia. }
  assert (Er : rsect ind s = Ret (t, s)) by (apply rsect_Ret; [done|lia|done]).
  assert (Etm : table_missing e i = 0) by (unfold table_missing; fold ind; rewrite (proj2 (Z.eqb_neq ind 0)) by done; by rewrite andb_false_r).
  unfold iblock. change INODE_NUM_DIRECT with 12. rewrite (proj2 (Z.ltb_ge i 12)) by lia. fold ind. rewrite Hw, (proj2 (Z.eqb_neq ind 0)) by done.
  rewrite (bind_Ret (ret e) _ s e s eq_refl). fold ind. rewrite Hw, (bind_Ret _ _ _ _ _ Er). cbv zeta. unfold missing in *. rewrite Hblk in *.
  destruct (Z.eqb_spec (get_addrs t !!! Z.to_nat (i - 12)) 0) as [Ez|Ez].
  - destruct (base_alloc s H) as (En & Hb1 & Hg1 & Hd & Hff); [change SWAP_START with 800; lia|]. set (n := freeblock s) in *. set (s1 := set_freeblock (n + 1) s) in *.
    destruct (word4 n) as [Hwn _]; [change BIT_PER_BLOCK with 4096; lia|].
    destruct (table_set_spec (i - 12) n t Htok Hwn) as [Htok' _].
    destruct (base_write s1 ind (table_set (i - 12) n t) Hb1) as (Ew & Hb2 & Hg2 & Hi2 & Hf2); [cbn; lia|done|done|].
    set (s2 := set_img (insert ind (table_set (i - 12) n t)) s1) in *.
    exists n, s2. rewrite (bind_Ret _ _ s (<[Z.to_nat (i - 12) := n]> (get_addrs t)) s2).
    2:{ rewrite (bind_Ret _ _ _ _ _ En). rewrite (bound_xint n) by lia. change (put_addrs (<[Z.to_nat (i - 12) := n]> (get_addrs t))) with (table_set (i - 12) n t). by rewrite (bind_Ret _ _ _ _ _ Ew). }
    rewrite list_lookup_total_insert_eq by lia. rewrite (bound_xint n) by lia. split; [done|]. rewrite Hg2, Hg1. split; [|split; [done|split; [done|rewrite Hf2, Etm; done]]].
    apply (mapped_table sb); try done. by rewrite Hblk.
  - exists (get_addrs t !!! Z.to_nat (i - 12)), s. rewrite (bind_Ret (ret _) _ s _ s eq_refl), word4_xint by done. split; [done|]. split; [|split; [done|split; [done|lia]]].
    rewrite <- Hblk. apply mapped_hit; [done|done|by rewrite Hblk].
Qed.

Lemma iblock_spec s e i :
  base s -> maps_ok sb (gv s) e -> 0 <= i < INODE_MAX_BLOCKS -> freeblock s + missing (gv s) e i <= SWAP_START ->
  exists e' b s', iblock e i s = Ret ((e', b), s') /\ mapped sb (gv s) e (gv s') e' i b /\ base s' /\ freeinode s' = freeinode s /\ freeblock s' = freeblock s + missing (gv s) e i.
Proof.
  intros H Hm Hi Hf. change INODE_MAX_BLOCKS with 140 in Hi. pose proof (bs_blk s H) as Hfb. change SWAP_START with 800 in *. rewrite nmeta_val in Hfb.
  pose proof (base_fs s H) as Hfs. destruct (Z.ltb_spec i 12) as [Hid|Hid].
  - pose proof (addrs_length sb _ _ Hm) as Hl. assert (Hblk : blk (gv s) e i = addrs e !!! Z.to_nat i).
    { unfold blk. change INODE_NUM_DIRECT with 12. by rewrite (proj2 (Z.ltb_lt i 12)) by lia. }
    assert (Hwk : word_ok 4 (addrs e !!! Z.to_nat i)).
    { destruct (mo_entry _ _ _ Hm) as (_ & _ & _ & _ & _ & Hwa & _). rewrite Forall_lookup in Hwa. apply (Hwa (Z.to_nat i)). apply list_lookup_lookup_total_lt. lia. }
    assert (Etm : table_missing e i = 0) by (unfold table_missing; change INODE_NUM_DIRECT with 12; by rewrite (proj2 (Z.leb_gt 12 i)) by lia).
    unfold iblock. change INODE_NUM_DIRECT with 12. rewrite (proj2 (Z.ltb_lt i 12)), word4_xint by (done || lia). unfold missing in *. rewrite Hblk in *.
    destruct (Z.eqb_spec (addrs e !!! Z.to_nat i) 0) as [Ez|Ez].
    + destruct (base_alloc s H) as (En & Hb1 & Hg1 & Hd & Hff); [change SWAP_START with 800; lia|]. set (n := freeblock s) in *. set (s1 := set_freeblock (n + 1) s) in *.
      exists (set_addr i n e), n, s1. rewrite (bind_Ret _ _ s (set_addr i n e) s1) by (rewrite (bind_Ret _ _ _ _ _ En), (bound_xint n) by lia; done).
      cbn [addrs set_addr]. rewrite list_lookup_total_insert_eq, (bound_xint n) by lia. split; [done|]. rewrite Hg1. split; [|split; [done|split; [done|rewrite Etm; done]]].
      apply (mapped_direct sb); try done; [change INODE_NUM_DIRECT with 12; lia|by rewrite Hblk].
    + exists e, (addrs e !!! Z.to_nat i), s. rewrite (bind_Ret (ret _) _ s _ s eq_refl), word4_xint by done. split; [done|]. split; [|split; [done|split; [done|lia]]].
      rewrite <- Hblk. apply mapped_hit; [done|done|by rewrite Hblk].
  - destruct (decide (indirect e = 0)) as [E0|E0]; [|destruct (iblock_table s e i H Hm ltac:(lia) E0 Hf) as (b & s' & Hb); by exists e, b, s'].
    assert (Hb0 : blk (gv s) e i = 0) by (unfold blk; change INODE_NUM_DIRECT with 12; rewrite (proj2 (Z.ltb_ge i 12)), E0 by lia; done).
    assert (Etm : table_missing e i = 1) by (unfold table_missing; change INODE_NUM_DIRECT with 12; rewrite (proj2 (Z.leb_le 12 i)), E0 by lia; done).
    unfold missing in *. rewrite Hb0, Etm in *. cbn [Z.eqb] in *.
    destruct (base_alloc s H) as (En & Hb1 & Hg1 & Hd & Hff); [change SWAP_START with 800; lia|]. set (n := freeblock s) in *. set (s1 := set_freeblock (n + 1) s) in *.
    set (e1 := set_indirect n e). destruct (alloc_maps sb _ _ n Hfs Hd Hff _ Hm) as (Hm1 & Hb1' & Hno). pose proof (alloc_data sb _ _ n Hfs Hd Hff) as Hdn.
    destruct (attach_table sb _ _ n Hm1 Hdn Hno E0) as (Hm2 & Hb2); [apply lookup_insert_eq|]. fold e1 in Hm2, Hb2. rewrite <- Hg1 in Hm2, Hb2.
    assert (Hmi : missing (gv s1) e1 i = 1).
    { unfold missing. rewrite Hb2 by (change INODE_MAX_BLOCKS with 140; lia). rewrite Hg1, Hb1', Hb0. cbn [Z.eqb]. unfold table_missing. cbn [e1 set_indirect indirect]. rewrite (proj2 (Z.eqb_neq n 0)), andb_false_r by lia. done. }
    destruct (iblock_table s1 e1 i Hb1 Hm2) as (b & s' & E & M & Hb & Hfi & Hfb'); [lia|cbn; lia|rewrite Hmi; change SWAP_START with 800; cbn; lia|].
    exists e1, b, s'. rewrite Hg1 in M. destruct (mapped_first sb (gv s) e (gbits n) n (gv s') e1 i b Hfs Hm Hd Hff) as [M' _]; [change INODE_NUM_DIRECT with 12; change INODE_MAX_BLOCKS with 140; lia|done|exact M|].
    split; [|split; [done|split; [done|split; [done|rewrite Hfb', Hmi; cbn; lia]]]]. rewrite <- E.
    unfold iblock. change INODE_NUM_DIRECT with 12. rewrite (proj2 (Z.ltb_ge i 12)), E0 by lia. change (xint 0) with 0. rewrite Z.eqb_refl.
    rewrite (bind_Ret _ _ s e1 s1) by (rewrite (bind_Ret _ _ _ _ _ En), (bound_xint n) by lia; done). cbn [e1 set_indirect indirect]. rewrite (bound_xint n) by lia.
    rewrite (proj2 (Z.eqb_neq n 0)) by lia. rewrite (bind_Ret (ret e1) _ s1 e1 s1 eq_refl). cbn [e1 set_indirect indirect]. by rewrite (bound_xint n) by lia.
Qed.

(** ** Appending to a file *)

(** The blocks a file of [n] bytes takes, its indirect block included. *)
Definition cost (n : Z) : Z := (n + 511) / 512 + (if n <=? 6144 then 0 else 1).

(** No byte but zeros behind the first [n]. *)
Definition zero_after v e (n : Z) : Prop := forall k, n <= k < INODE_MAX_BYTES -> default 0 (fbyte v e k) = 0.

Section append.
Context (v0 : gmap Z bytes) (e0 : InodeEntry) (src : bytes) (off end_ : Z).
Context (Hw0 : file_wf sb v0 e0) (Hfs0 : fs_ok sb v0) (Hsize : num_bytes e0 = off) (Hend : off < end_ <= INODE_MAX_BYTES).
Context (Hsrc : Z.of_nat (length src) = end_ - off) (Hbytes : Forall byte_ok src).
Abbreviation first := (off / BLOCK_SIZE).
Abbreviation pos := (pos off end_).

Lemma zero_turn i v1 e1 v2 e2 b d :
  turn_ok off end_ i -> written sb v0 e0 src off end_ i v1 e1 -> mapped sb v1 e1 v2 e2 i b -> v2 !! b = Some d ->
  zero_after v1 e1 (pos i) -> zero_after (<[b := turn_data src off end_ i d]> v2) e2 (pos (i + 1)).
Proof.
  intros Ht W M Hd Hz k Hk. destruct (turn_bounds _ _ _ Ht) as (Hi & Hie & Hps & Hp1 & Hpo & Hpe & Hp2). pose proof (wr_grew _ _ _ _ _ _ _ _ _ W) as G.
  assert (Hoff0 : 0 <= off) by (rewrite <- Hsize; apply (num_bytes_nonneg sb v0 e0 (fw_maps _ _ _ Hw0))).
  assert (Hdok : block_ok d) by by eapply (fo_block _ _ (mp_fs _ _ _ _ _ _ _ M)).
  destruct (turn_bytes sb v1 e1 v2 e2 i b (turn_data src off end_ i d) M (gr_maps _ _ _ _ _ G) Hi) as [Hin Hout].
  destruct (decide (i * BLOCK_SIZE <= k < (i + 1) * BLOCK_SIZE)) as [Hki|Hki]; [|rewrite Hout by (done || lia); apply Hz; lia].
  rewrite Hin by done. unfold turn_data. rewrite (splice_block src off end_ ltac:(lia) d i k Ht (proj1 Hdok) Hki), decide_False by lia.
  destruct (decide (blk v1 e1 i = 0)) as [Hb|Hb].
  - destruct (mp_new _ _ _ _ _ _ _ M Hb) as [Hz' _]. rewrite Hd in Hz'. injection Hz' as ->. unfold zero_block.
    destruct (replicate _ 0 !! Z.to_nat (k - i * BLOCK_SIZE)) as [x|] eqn:Hx; [|done]. by apply lookup_replicate in Hx as [-> _].
  - destruct (mp_old _ _ _ _ _ _ _ M Hb) as [-> Ed]. rewrite <- (fbyte_block v1 e1 i d k Hb) by (congruence || done). apply Hz. lia.
Qed.

Lemma missing_cost i v e : turn_ok off end_ i -> written sb v0 e0 src off end_ i v e -> missing v e i <= cost (pos (i + 1)) - cost (pos i).
Proof.
  intros Ht W. destruct (turn_bounds _ _ _ Ht) as (Hi & Hie & Hps & Hp1 & Hpo & Hpe & Hp2). pose proof (wr_grew _ _ _ _ _ _ _ _ _ W) as G.
  assert (Hoff0 : 0 <= off) by (rewrite <- Hsize; apply (num_bytes_nonneg sb v0 e0 (fw_maps _ _ _ Hw0))).
  unfold BLOCK_SIZE in *. change INODE_MAX_BLOCKS with 140 in Hi. set (p := pos i) in *. set (p' := pos (i + 1)) in *.
  assert (Hold : forall j, 0 <= j < 140 -> j * 512 < off -> blk v e j <> 0).
  { intros j Hj Hlt. assert (Hb : blk v0 e0 j <> 0) by (apply (fw_full _ _ _ Hw0); unfold BLOCK_SIZE; lia). by rewrite (gr_keep _ _ _ _ _ G). }
  assert (Hpp : p < p') by (unfold p, p', InodeMap.pos, BLOCK_SIZE; destruct Ht as [_ _ [_ Hl]]; unfold BLOCK_SIZE in *; lia).
  assert (Hmono : (p + 511) / 512 <= (p' + 511) / 512) by (apply Z.div_le_mono; lia).
  unfold missing. destruct (Z.eqb_spec (blk v e i) 0) as [Hb|Hb].
  - assert (Hpi : p = i * 512).
    { destruct (Z.ltb_spec (i * 512) off); [by destruct (Hold i)|]. unfold p, InodeMap.pos, BLOCK_SIZE in *. lia. }
    assert (E1 : (p + 511) / 512 = i) by (symmetry; apply (Z.div_unique _ _ _ 511); lia).
    assert (E2 : (p' + 511) / 512 = i + 1) by (symmetry; apply (Z.div_unique _ _ _ (p' - i * 512 - 1)); lia).
    unfold cost. rewrite E1, E2. unfold table_missing. change INODE_NUM_DIRECT with 12.
    destruct (Z.leb_spec 12 i) as [Hi12|Hi12]; cbn [andb].
    + rewrite (proj2 (Z.leb_gt p' 6144)) by lia. destruct (decide (i = 12)) as [->|Hne].
      * rewrite (proj2 (Z.leb_le p 6144)) by lia. destruct (indirect e =? 0); lia.
      * assert (Hbp : blk v e (i - 1) <> 0).
        { destruct (Z.ltb_spec ((i - 1) * 512) off); [apply Hold; lia|]. apply (wr_mapped _ _ _ _ _ _ _ _ _ W). unfold BLOCK_SIZE.
          assert (off / 512 <= i - 1) by (apply Z.lt_succ_r, Z.div_lt_upper_bound; lia). lia. }
        assert (Hind : indirect e <> 0).
        { intros E0. apply Hbp. unfold blk. change INODE_NUM_DIRECT with 12. rewrite (proj2 (Z.ltb_ge (i - 1) 12)), E0 by lia. done. }
        rewrite (proj2 (Z.eqb_neq _ _)) by done. rewrite (proj2 (Z.leb_gt p 6144)) by lia. lia.
    + rewrite (proj2 (Z.leb_le p 6144)), (proj2 (Z.leb_le p' 6144)) by lia. lia.
  - unfold cost. destruct (Z.leb_spec p 6144), (Z.leb_spec p' 6144); lia.
Qed.

Definition app_inv (b0 i : Z) (st : InodeEntry * Z * bytes * Z) (s : mkst) : Prop :=
  exists e, st = (e, pos i, drop (Z.to_nat (pos i - off)) src, end_ - pos i) /\ base s /\ written sb v0 e0 src off end_ i (gv s) e /\
    zero_after (gv s) e (pos i) /\ freeblock s <= b0 + (cost (pos i) - cost off).

Lemma iappend_turn_spec b0 i st s :
  turn_ok off end_ i -> app_inv b0 i st s -> b0 + (cost (pos (i + 1)) - cost off) <= SWAP_START ->
  exists st' s', iappend_turn st s = Ret (inl st', s') /\ app_inv b0 (i + 1) st' s' /\ freeinode s' = freeinode s.
Proof.
  intros Ht (e & -> & Hb & W & Hz & Hf) Hc. destruct (turn_bounds _ _ _ Ht) as (Hi & Hie & Hps & Hp1 & Hpo & Hpe & Hp2).
  pose proof (missing_cost i _ _ Ht W) as Hmc. pose proof (wr_grew _ _ _ _ _ _ _ _ _ W) as G. pose proof (gr_maps _ _ _ _ _ G) as Hm.
  assert (Hmax : end_ <= 71680) by apply Hend. pose proof Ht as [Ho _ Hl].
  assert (Hpp : pos i < pos (i + 1)) by (unfold InodeMap.pos, BLOCK_SIZE in *; lia).
  destruct (iblock_spec s e i Hb Hm Hi ltac:(lia)) as (e' & b & s1 & E & M & Hb1 & Hfi & Hfb).
  pose proof (mp_maps _ _ _ _ _ _ _ M) as Hm2.
  assert (Hbd : data_block sb (gv s1) b).
  { pose proof (mp_blk _ _ _ _ _ _ _ M i Hi) as Eb. rewrite Z.eqb_refl in Eb. rewrite <- Eb. apply (mo_data _ _ _ Hm2); [done|]. rewrite Eb. apply (mp_b _ _ _ _ _ _ _ M). }
  destruct (data_bounds s1 b Hb1 Hbd) as [Hbb Hb91]. pose proof Hbd as (_ & _ & _ & [d Hd]). pose proof (bs_blk s1 Hb1) as Hfb1. change SWAP_START with 800 in *.
  assert (Hdok : block_ok d) by (eapply (fo_block _ _ (base_fs s1 Hb1)); exact Hd).
  pose proof (turn_data_ok src off end_ ltac:(lia) Hbytes i d Ht Hdok) as Hd'.
  destruct (base_write s1 b _ Hb1 ltac:(lia) Hb91 Hd') as (Ew & Hb2 & Hg2 & Hi2 & Hf2). set (s2 := set_img (insert b (turn_data src off end_ i d)) s1) in *.
  eexists _, s2. split; [|split; [|congruence]].
  - unfold iappend_turn. rewrite (proj2 (Z.ltb_lt 0 _)) by lia.
    assert (Ei : pos i / BLOCK_SIZE = i) by (symmetry; apply (Z.div_unique _ _ _ (pos i - i * BLOCK_SIZE)); unfold BLOCK_SIZE in *; lia). rewrite Ei.
    rewrite (proj2 (Z.ltb_lt i _)) by apply Hi. rewrite (bind_Ret (assert true) _ s tt s eq_refl), (bind_Ret _ _ _ _ _ E).
    rewrite (bind_Ret _ _ _ _ _ (rsect_Ret s1 b d Hd ltac:(lia) Hb91)). unfold BLOCK_SIZE in *. change INODE_MAX_BLOCKS with 140 in Hi.
    assert (Eu : u32 (u32 ((i + 1) * 512) - pos i) = (i + 1) * 512 - pos i) by (unfold u32; rewrite (wrapu_small 32 ((i + 1) * 512)) by lia; apply wrapu_small; lia). rewrite Eu.
    assert (En : Z.min (end_ - pos i) ((i + 1) * 512 - pos i) = pos (i + 1) - pos i).
    { unfold InodeMap.pos, BLOCK_SIZE in *. lia. }
    rewrite En. change (splice _ (take _ (drop _ src)) d) with (turn_data src off end_ i d) at 1.
    rewrite (bind_Ret _ _ _ _ _ Ew). unfold u32. rewrite wrapu_small by lia. rewrite i32_small by lia. rewrite drop_drop. reflexivity.
  - exists e'. split; [|split; [done|split]].
    + f_equal; [f_equal; [f_equal; lia|f_equal; lia]|lia].
    + rewrite Hg2. by apply (written_turn sb v0 e0 src off end_ (fw_maps _ _ _ Hw0) ltac:(lia) Hbytes i (gv s) e).
    + split; [rewrite Hg2; by apply (zero_turn i (gv s) e (gv s1))|lia].
Qed.

Lemma iappend_loop b0 k i st s fuel :
  0 <= i -> Z.of_nat k = (end_ - 1) / BLOCK_SIZE + 1 - i -> first <= i -> (k < fuel)%nat -> app_inv b0 i st s ->
  b0 + (cost end_ - cost off) <= SWAP_START ->
  exists e s', while fuel iappend_turn st s = Ret ((e, end_), s') /\ app_inv b0 ((end_ - 1) / BLOCK_SIZE + 1) (e, end_, [], 0) s' /\ freeinode s' = freeinode s.
Proof.
  assert (Hoff0 : 0 <= off) by (rewrite <- Hsize; apply (num_bytes_nonneg sb v0 e0 (fw_maps _ _ _ Hw0))).
  revert i st s fuel. induction k as [|k IH]; intros i st s fuel Hi Hk Hf Hfu H Hc.
  - assert (i = (end_ - 1) / BLOCK_SIZE + 1) as -> by lia. destruct fuel as [|fuel]; [lia|]. pose proof H as (e & -> & Hb & W & Hz & Hfb). exists e, s.
    rewrite pos_last in * by lia. split; [|split; [|done]].
    + rewrite while_S. rewrite (bind_Ret (iappend_turn _) _ s (inr (e, end_)) s) by (unfold iappend_turn; by rewrite Z.sub_diag). done.
    + exists e. rewrite pos_last by lia. split; [|done]. rewrite drop_ge, Z.sub_diag by lia. done.
  - assert (Ht : turn_ok off end_ i) by (split; [lia|change INODE_MAX_BYTES with 71680 in *; lia|lia]).
    destruct (turn_bounds _ _ _ Ht) as (Hib & Hie & Hps & Hp1 & Hpo & Hpe & Hp2).
    assert (Hcm : cost (pos (i + 1)) <= cost end_).
    { unfold cost. assert ((pos (i + 1) + 511) / 512 <= (end_ + 511) / 512) by (apply Z.div_le_mono; lia). destruct (Z.leb_spec (pos (i + 1)) 6144), (Z.leb_spec end_ 6144); lia. }
    destruct fuel as [|fuel]; [lia|]. destruct (iappend_turn_spec b0 i st s Ht H ltac:(lia)) as (st' & s1 & E & H1 & Hfi).
    destruct (IH (i + 1) st' s1 fuel ltac:(lia) ltac:(lia) ltac:(lia) ltac:(lia) H1 Hc) as (e & s' & E' & H' & Hfi').
    exists e, s'. split; [|split; [done|congruence]]. by rewrite while_S, (bind_Ret _ _ _ _ _ E).
Qed.
End append.

(** [iappend] appends, and leaves the other files and the sectors of the
    log alone. *)
Lemma iappend_spec s inum e0 p :
  base s -> 0 <= inum < NINODES -> disk_entry sb (gv s) inum = Some e0 -> file_wf sb (gv s) e0 -> p <> [] -> Forall byte_ok p ->
  num_bytes e0 + Z.of_nat (length p) <= INODE_MAX_BYTES -> zero_after (gv s) e0 (num_bytes e0) ->
  freeblock s + (cost (num_bytes e0 + Z.of_nat (length p)) - cost (num_bytes e0)) <= SWAP_START ->
  exists s' e1, iappend inum p (Z.of_nat (length p)) s = Ret (tt, s') /\ base s' /\ freeinode s' = freeinode s /\
    freeblock s' <= freeblock s + (cost (num_bytes e0 + Z.of_nat (length p)) - cost (num_bytes e0)) /\
    disk_entry sb (gv s') inum = Some e1 /\ file_wf sb (gv s') e1 /\ file_data (gv s') e1 = file_data (gv s) e0 ++ p /\
    type e1 = type e0 /\ num_links e1 = num_links e0 /\ num_bytes e1 = num_bytes e0 + Z.of_nat (length p) /\
    others sb (gv s) e0 (gv s') e1 inum /\
    (forall b, owns (gv s') e1 b -> owns (gv s) e0 b \/ freeblock s <= b) /\
    (forall b, b < 65 -> ~ owns (gv s') e1 b -> gv s' !! b = gv s !! b) /\
    (forall b, data_block sb (gv s) b -> ~ owns (gv s) e0 b -> gv s' !! b = gv s !! b) /\ zero_after (gv s') e1 (num_bytes e1) /\
    freeblock s <= freeblock s'.
Proof.
  intros Hb Hi Hde Hw Hp Hpb Hmax Hz0 Hcost. pose proof (base_fs s Hb) as Hfs. pose proof (fw_maps _ _ _ Hw) as Hm0.
  pose proof (num_bytes_nonneg sb _ _ Hm0) as Hnb. set (off := num_bytes e0) in *. set (end_ := off + Z.of_nat (length p)) in *.
  assert (Hlen : 0 < Z.of_nat (length p)) by (destruct p; [done|cbn; lia]). assert (Hmax' : end_ <= 71680) by exact Hmax.
  pose proof (bs_blk s Hb) as Hfb. change SWAP_START with 800 in Hfb. rewrite nmeta_val in Hfb. unfold NINODES in Hi. pose proof (to_block_bounds inum Hi) as Htb.
  unfold disk_entry in Hde. destruct (gv s !! to_block_no sb inum) as [db|] eqn:Hdb; [|done]. injection Hde as Hde.
  assert (Er : rinode inum s = Ret (e0, s)).
  { unfold rinode. rewrite IBLOCK_block, (bind_Ret _ _ _ _ _ (rsect_Ret s _ db Hdb ltac:(lia) ltac:(lia))). by rewrite Hde. }
  assert (Hcov : app_inv (gv s) e0 p off end_ (freeblock s) (off / BLOCK_SIZE) (e0, off, p, Z.of_nat (length p)) s).
  { exists e0. rewrite pos_first, Z.sub_diag by lia. split; [unfold end_; repeat f_equal; lia|]. split; [done|]. split; [|split; [exact Hz0|lia]].
    apply written_start; [exact Hfs|exact Hm0|lia]. }
  destruct (iappend_loop (gv s) e0 p off end_ Hw eq_refl ltac:(split; [lia|exact Hmax]) ltac:(lia) Hpb (freeblock s)
    (Z.to_nat ((end_ - 1) / BLOCK_SIZE + 1 - off / BLOCK_SIZE)) (off / BLOCK_SIZE) (e0, off, p, Z.of_nat (length p)) s (S (length p))) as (e & s1 & El & (e' & Est & Hb1 & W & Hz1 & Hf1) & Hfi1); try exact Hcov.
  { apply Z.div_pos; unfold BLOCK_SIZE; lia. }
  { assert (off / BLOCK_SIZE <= (end_ - 1) / BLOCK_SIZE) by (apply Z.div_le_mono; unfold BLOCK_SIZE; lia). lia. }
  { lia. }
  { unfold BLOCK_SIZE. assert ((end_ - 1) / 512 <= off / 512 + (end_ - 1 - off)); [|lia].
    apply Z.lt_succ_r, Z.div_lt_upper_bound; [lia|]. pose proof (Z.div_mod off 512 ltac:(lia)). pose proof (Z.mod_pos_bound off 512 ltac:(lia)). lia. }
  { exact Hcost. }
  injection Est as -> _ _ _. rewrite pos_last in Hf1, Hz1 by lia. pose proof (wr_grew _ _ _ _ _ _ _ _ _ W) as G.
  assert (Hdb1 : gv s1 !! to_block_no sb inum = Some db).
  { rewrite <- Hdb. apply (grew_disk sb _ _ _ _ inum G Hfs). rewrite sb_val. exact Hi. }
  destruct (written_grown sb (gv s) e0 p off end_ Hfs ltac:(lia) Hw ltac:(unfold off; lia) ltac:(split; [lia|exact Hmax]) _ _ inum db W ltac:(lia) ltac:(rewrite sb_val; exact Hi) Hdb1) as (He1 & Hw1 & Hd1 & Hot).
  set (e1 := set_num_bytes end_ e') in *.
  assert (Hok : block_ok (put_entry inum e1 db)).
  { apply put_entry_ok; [|apply He1]. eapply (fo_block _ _ Hfs). exact Hdb. }
  pose proof (bs_blk s1 Hb1) as Hfb1. rewrite nmeta_val in Hfb1.
  destruct (base_write s1 (to_block_no sb inum) _ Hb1 ltac:(lia) ltac:(lia) Hok) as (Ew & Hb2 & Hg2 & Hi2 & Hf2). set (s2 := set_img _ s1) in *.
  rewrite <- Hg2 in Hw1, Hd1, Hot. exists s2, e1. destruct (gr_fields _ _ _ _ _ G) as (Hty & _ & _ & Hnl & Hnb1).
  assert (Hown : forall b, owns (gv s2) e1 b <-> owns (gv s1) e' b).
  { rewrite Hg2. pose proof (inode_block_write sb (gv s1) e1 inum e1 db (gr_fs _ _ _ _ _ G) ltac:(rewrite sb_val; exact Hi) Hdb1 He1) as (_ & _ & Hmm & _).
    destruct (set_size_maps sb (gv s1) e' end_ (gr_maps _ _ _ _ _ G)) as (Hm' & Hb' & _); [split; [lia|change (256 ^ Z.of_nat 4) with 4294967296; lia]|].
    destruct (Hmm Hm') as [_ Hbb]. intros b. unfold owns. by setoid_rewrite Hbb. }
  split; [|split; [done|split; [congruence|split; [lia|split; [|split; [done|split; [|split; [done|split; [done|split; [done|split; [done|split; [|split; [|split; [|split]]]]]]]]]]]]]].
  - unfold iappend. rewrite (bind_Ret _ _ _ _ _ Er). fold off. rewrite Nat2Z.id, xint_id by lia. rewrite (bind_Ret _ _ _ _ _ El). cbn [fst snd].
    unfold winode. rewrite IBLOCK_block, xint_id by lia. rewrite (bind_Ret _ _ _ _ _ (rsect_Ret s1 _ db Hdb1 ltac:(lia) ltac:(lia))). exact Ew.
  - apply (ot_synced _ _ _ _ _ _ Hot). unfold disk_entry. rewrite Hdb. cbn. by rewrite Hde.
  - rewrite Hd1. replace (Z.to_nat (end_ - off)) with (length p) by lia. rewrite take_ge by lia.
    pose proof (file_data_length sb _ _ Hm0) as Hfl. fold off in Hfl. unfold splice. rewrite take_ge by lia. rewrite drop_ge, app_nil_r by lia. done.
  - intros b Ho. apply Hown in Ho. destruct (gr_owns _ _ _ _ _ G b Ho) as [Ho'|Hu]; [by left|right].
    destruct (owns_data _ _ _ _ (gr_maps _ _ _ _ _ G) Ho) as ([H0 _] & _). rewrite gv_used in Hu by (done || lia). apply Z.ltb_ge in Hu. lia.
  - intros b Hlt Ho. rewrite Hg2, lookup_insert_ne by lia. apply (gr_frame _ _ _ _ _ G); [rewrite sb_val; cbn; lia|].
    intros Ho'. by apply Ho, Hown.
  - intros b Hd Ho. rewrite Hg2, lookup_insert_ne by (intros <-; by apply (data_not_inode sb _ _ inum Hd); [rewrite sb_val|]).
    apply (gr_frame _ _ _ _ _ G); [by apply (data_not_bmb sb (gv s))|]. intros Ho'. destruct (gr_owns _ _ _ _ _ G b Ho') as [?|Hu]; [done|].
    destruct Hd as (_ & Hu' & _). congruence.
  - intros k Hk. rewrite Hg2. change (num_bytes e1) with end_ in Hk. etrans; [|exact (Hz1 k Hk)]. f_equal.
    pose proof (inode_block_write sb (gv s1) e1 inum e1 db (gr_fs _ _ _ _ _ G) ltac:(rewrite sb_val; exact Hi) Hdb1 He1) as (_ & _ & Hmm & _).
    destruct (set_size_maps sb (gv s1) e' end_ (gr_maps _ _ _ _ _ G)) as (Hm' & Hb' & _); [split; [lia|change (256 ^ Z.of_nat 4) with 4294967296; lia]|].
    destruct (Hmm Hm') as [_ Hbb]. unfold fbyte. rewrite Hbb. change (blk (gv s1) e1 (k / BLOCK_SIZE)) with (blk (gv s1) e' (k / BLOCK_SIZE)).
    destruct (Z.eqb_spec (blk (gv s1) e' (k / BLOCK_SIZE)) 0) as [|Hnz]; [done|]. rewrite lookup_insert_ne; [done|]. intros E.
    assert (Hdb' : data_block sb (gv s1) (blk (gv s1) e' (k / BLOCK_SIZE))).
    { apply (mo_data _ _ _ (gr_maps _ _ _ _ _ G)); [|done]. change INODE_MAX_BYTES with 71680 in Hk. change INODE_MAX_BLOCKS with 140. unfold BLOCK_SIZE. split; [apply Z.div_pos; lia|apply Z.div_lt_upper_bound; lia]. }
    by apply (data_not_inode sb _ _ inum Hdb'); [rewrite sb_val|].
  - pose proof (gr_used _ _ _ _ _ G (freeblock s - 1) ltac:(lia)) as Hu. rewrite !gv_used in Hu by (done || lia). rewrite Hf2. apply Z.ltb_lt in Hu; [lia|]. apply Z.ltb_lt. lia.
Qed.
