(* ===== verification/MkfsProps.v ===== *)
(** * What mkfs promises to the kernel (user/mkfs/main.c)

    The image, seen by the kernel that mounts it: the file system is well
    formed, the root directory maps the names of the files to their inodes,
    and every file holds the bytes that were copied. *)
From stdpp Require Import base gmap list.
From Stdlib Require Import ZArith Lia.
From S2P Require Import Prelude Bytes Bitmap BCache BCacheInv BCacheLog BCacheCrash BCacheSteps BCacheProps BlockStore BCacheStore CString Console Inode InodeFile InodeMap InodeWrite InodeDir InodeProps Mkfs.

(** ** Files under changes elsewhere *)
Lemma file_frame v v' e :
  fs_ok sb v -> fs_ok sb v' -> file_wf sb v e -> (forall b, owns v e b -> v' !! b = v !! b) -> (forall b, 0 <= b -> used sb v b = true -> used sb v' b = true) ->
  file_wf sb v' e /\ file_data v' e = file_data v e /\ (forall n, 0 <= n -> zero_after v e n -> zero_after v' e n) /\ (forall b, owns v' e b <-> owns v e b).
Proof.
  intros Hfs Hfs' H Hv Hu. pose proof (fw_maps _ _ _ H) as Hm. destruct (maps_frame sb v v' e Hm Hv Hu) as [Hm' Hb].
  assert (Hfb : forall k, 0 <= k < INODE_MAX_BYTES -> fbyte v' e k = fbyte v e k).
  { intros k Hk. unfold fbyte. rewrite Hb. destruct (Z.eqb_spec (blk v e (k / BLOCK_SIZE)) 0) as [|Hne]; [done|]. rewrite Hv; [done|]. split; [done|]. right.
    exists (k / BLOCK_SIZE). split; [|done]. change INODE_MAX_BYTES with 71680 in Hk. change INODE_MAX_BLOCKS with 140. unfold BLOCK_SIZE. split; [apply Z.div_pos; lia|apply Z.div_lt_upper_bound; lia]. }
  split; [split; [done|apply H|apply H|intros i; rewrite Hb; apply (fw_full _ _ _ H)]|]. split; [|split].
  - unfold file_data. apply list_fmap_ext. intros j k [-> Hlt]%lookup_seq. rewrite Hfb; [done|].
    pose proof (num_bytes_nonneg sb v e Hm). pose proof (fw_size _ _ _ H). lia.
  - intros n Hn Hz k Hk. rewrite Hfb by lia. by apply Hz.
  - intros b. unfold owns. by setoid_rewrite Hb.
Qed.

(** ** The files of the image *)
Definition cost_sum (F : list (Z * bytes)) : Z := foldr (fun x a => cost (Z.of_nat (length x.2)) + a) 0 F.

Record holds (v : gmap Z bytes) (inum : Z) (e : InodeEntry) (ty : Z) (data : bytes) : Prop := {
  ho_entry : disk_entry sb v inum = Some e;
  ho_wf : file_wf sb v e;
  ho_type : type e = ty;
  ho_links : num_links e = 1;
  ho_data : file_data v e = data;
  ho_zero : zero_after v e (num_bytes e);
  ho_owns : forall b, owns v e b -> nmeta <= b
}.

Lemma holds_size v inum e ty data : holds v inum e ty data -> num_bytes e = Z.of_nat (length data).
Proof. intros H. rewrite <- (ho_data _ _ _ _ _ H). symmetry. apply (file_data_length sb). apply H. Qed.

(** The inodes from 1 on hold the files [F]; the others are free. *)
Record finv (s : mkst) (F : list (Z * bytes)) : Prop := {
  fi_base : base s;
  fi_num : freeinode s = 1 + Z.of_nat (length F) /\ freeinode s <= NINODES;
  fi_cost : freeblock s <= nmeta + cost_sum F;
  fi_file : forall k ty data, F !! k = Some (ty, data) -> exists e, holds (gv s) (1 + Z.of_nat k) e ty data;
  fi_disj : forall i j ei ej, i <> j -> 1 <= i < freeinode s -> 1 <= j < freeinode s ->
    disk_entry sb (gv s) i = Some ei -> disk_entry sb (gv s) j = Some ej -> forall b, owns (gv s) ei b -> ~ owns (gv s) ej b;
  fi_rest : forall k, freeinode s <= k < NINODES -> exists e, disk_entry sb (gv s) k = Some e /\ type e = INODE_INVALID;
  fi_log : forall b, 2 <= b < 65 -> gv s !! b = Some zero_block;
  fi_super : gv s !! 1 = Some (splice 0 (sb_bytes sb) zero_block)
}.

Lemma holds_frame v v' inum e ty data :
  fs_ok sb v -> fs_ok sb v' -> holds v inum e ty data -> disk_entry sb v' inum = Some e -> (forall b, owns v e b -> v' !! b = v !! b) ->
  (forall b, 0 <= b -> used sb v b = true -> used sb v' b = true) -> holds v' inum e ty data /\ forall b, owns v' e b <-> owns v e b.
Proof.
  intros Hfs Hfs' [H1 H2 H3 H4 H5 H6 H7] Hd Hv Hu. destruct (file_frame v v' e Hfs Hfs' H2 Hv Hu) as (Hw & Hdt & Hz & Ho).
  split; [|done]. split; try done; [congruence| |intros b Hb; by apply H7, Ho].
  apply Hz; [|done]. pose proof (num_bytes_nonneg sb v e (fw_maps _ _ _ H2)). lia.
Qed.

Lemma finv_lookup s F i ei : finv s F -> 1 <= i < freeinode s -> disk_entry sb (gv s) i = Some ei -> exists ty data, F !! Z.to_nat (i - 1) = Some (ty, data) /\ holds (gv s) i ei ty data.
Proof.
  intros H Hi Hd. destruct (fi_num _ _ H) as [Hn _]. destruct (lookup_lt_is_Some_2 F (Z.to_nat (i - 1))) as [[ty data] Hk]; [lia|].
  exists ty, data. split; [done|]. destruct (fi_file _ _ H _ _ _ Hk) as [e He]. replace (1 + Z.of_nat (Z.to_nat (i - 1))) with i in He by lia.
  pose proof (ho_entry _ _ _ _ _ He) as E. rewrite Hd in E. by injection E as ->.
Qed.

(** ** [ialloc] *)
Definition new_entry (ty : Z) : InodeEntry := mkEntry ty 0 0 1 0 (replicate 12 0) 0.

Lemma new_blk v ty i : 0 <= i < INODE_MAX_BLOCKS -> blk v (new_entry ty) i = 0.
Proof.
  change INODE_MAX_BLOCKS with 140. intros Hi. unfold blk. cbn [new_entry indirect addrs]. rewrite Z.eqb_refl. change INODE_NUM_DIRECT with 12.
  destruct (Z.ltb_spec i 12); [|done]. apply lookup_total_replicate_2. lia.
Qed.

Lemma new_owns v ty b : ~ owns v (new_entry ty) b.
Proof. intros [Hb [->|(i & Hi & <-)]]; [done|]. by rewrite new_blk in Hb. Qed.

Lemma new_entry_ok ty : 0 < ty < 3 -> entry_ok (new_entry ty).
Proof.
  intros Hty. unfold entry_ok, word_ok, new_entry. cbn [type major minor num_links num_bytes addrs indirect].
  change (256 ^ Z.of_nat 2) with 65536. change (256 ^ Z.of_nat 4) with 4294967296. repeat (split; [lia|]). split; [|split; [done|lia]]. apply Forall_replicate. lia.
Qed.

Lemma new_holds v inum ty : fs_ok sb v -> disk_entry sb v inum = Some (new_entry ty) -> 0 < ty < 3 -> holds v inum (new_entry ty) ty [].
Proof.
  intros Hfs Hd Hty. pose proof (new_entry_ok ty Hty) as Hok. split; try done.
  - split; [|cbn; unfold INODE_DEVICE; lia|done|cbn; intros i Hi Hlt; unfold BLOCK_SIZE in Hlt; lia]. split; try done.
    + intros i Hi. by rewrite new_blk.
    + intros i j Hi Hj _. by rewrite new_blk.
  - intros k Hk. cbn [new_entry num_bytes] in Hk. unfold fbyte. rewrite new_blk; [done|]. change INODE_MAX_BYTES with 71680 in Hk. change INODE_MAX_BLOCKS with 140. unfold BLOCK_SIZE.
    split; [apply Z.div_pos; lia|apply Z.div_lt_upper_bound; lia].
  - intros b Hb. by apply new_owns in Hb.
Qed.

(** Inode blocks are written one entry at a time. *)
Lemma winode_Ret s inum e : base s -> 0 <= inum < NINODES -> entry_ok e ->
  exists d s', gv s !! to_block_no sb inum = Some d /\ winode inum e s = Ret (tt, s') /\ base s' /\ gv s' = <[to_block_no sb inum := put_entry inum e d]> (gv s) /\
    freeinode s' = freeinode s /\ freeblock s' = freeblock s.
Proof.
  intros Hb Hi He. unfold NINODES in Hi. pose proof (to_block_bounds inum Hi) as Ht. pose proof (base_fs s Hb) as Hfs.
  destruct (fo_inode _ _ Hfs inum) as [[d Hd] _]; [rewrite sb_val; exact Hi|]. pose proof (bs_blk s Hb) as Hfb. rewrite nmeta_val in Hfb. change SWAP_START with 800 in Hfb.
  destruct (base_write s (to_block_no sb inum) (put_entry inum e d) Hb) as (Ew & H1 & H2 & H3 & H4); [lia|lia|apply put_entry_ok; [by eapply (fo_block _ _ Hfs)|apply He]|].
  exists d. eexists. split; [done|]. split; [|done]. unfold winode. rewrite IBLOCK_block, (bind_Ret _ _ _ _ _ (rsect_Ret s _ d Hd ltac:(lia) ltac:(lia))). exact Ew.
Qed.

(** What the write of an entry leaves of a file. *)
Lemma holds_winode s v' inum e d j ej ty data :
  base s -> 0 <= inum < NINODES -> entry_ok e -> gv s !! to_block_no sb inum = Some d -> v' = <[to_block_no sb inum := put_entry inum e d]> (gv s) ->
  0 <= j < NINODES -> j <> inum -> holds (gv s) j ej ty data -> holds v' j ej ty data /\ forall b, owns v' ej b <-> owns (gv s) ej b.
Proof.
  intros Hb Hi He Hd -> Hj Hne H. pose proof (base_fs s Hb) as Hfs. unfold NINODES in *. assert (Hi' : 0 <= inum < sb_num_inodes sb) by (rewrite sb_val; exact Hi).
  destruct (inode_block_write sb (gv s) ej inum e d Hfs Hi' Hd He) as (Hfs' & Hu & _ & _ & _ & Hdj).
  apply (holds_frame (gv s) _ j ej ty data Hfs Hfs' H).
  - rewrite Hdj; [apply H|rewrite sb_val; exact Hj|done].
  - intros b Ho. rewrite lookup_insert_ne; [done|]. intros <-. apply (data_not_inode sb (gv s) _ inum (owns_data _ _ _ _ (fw_maps _ _ _ (ho_wf _ _ _ _ _ H)) Ho) Hi'). done.
  - intros b _. by rewrite Hu.
Qed.

Lemma finv_ialloc s F ty : finv s F -> 1 + Z.of_nat (length F) < NINODES -> 0 < ty < 3 ->
  exists s', ialloc ty s = Ret (1 + Z.of_nat (length F), s') /\ finv s' (F ++ [(ty, [])]).
Proof.
  intros H Hlt Hty. destruct (fi_num _ _ H) as [Hn _]. set (inum := 1 + Z.of_nat (length F)) in *. pose proof (fi_base _ _ H) as Hb. unfold NINODES in *.
  set (s1 := set_freeinode (inum + 1) s). assert (Hb1 : base s1) by (destruct Hb; by split). change (gv s) with (gv s1) in *.
  pose proof (new_entry_ok ty Hty) as He. destruct (winode_Ret s1 inum (new_entry ty) Hb1) as (d & s2 & Hd & Ew & Hb2 & Hg & Hfi & Hfb); [unfold NINODES; lia|done|].
  pose proof (base_fs s1 Hb1) as Hfs. assert (Hi' : 0 <= inum < sb_num_inodes sb) by (rewrite sb_val; cbn; lia).
  destruct (inode_block_write sb (gv s1) (new_entry ty) inum (new_entry ty) d Hfs Hi' Hd He) as (Hfs2 & _ & _ & _ & Hnew & Hoth). rewrite <- Hg in Hfs2, Hnew, Hoth.
  pose proof (new_holds (gv s2) inum ty Hfs2 Hnew Hty) as Hnh.
  assert (Hold : forall k ty0 data, F !! k = Some (ty0, data) -> exists e, holds (gv s2) (1 + Z.of_nat k) e ty0 data).
  { intros k ty0 data Hk. pose proof (lookup_lt_Some _ _ _ Hk). destruct (fi_file _ _ H k ty0 data Hk) as [e Hh]. exists e.
    apply (holds_winode s1 (gv s2) inum (new_entry ty) d (1 + Z.of_nat k) e ty0 data Hb1); [unfold NINODES; lia|done|done|done|unfold NINODES; lia|lia|exact Hh]. }
  assert (Hoi : forall j ej, 1 <= j < inum -> disk_entry sb (gv s2) j = Some ej -> disk_entry sb (gv s1) j = Some ej /\ forall b, owns (gv s2) ej b <-> owns (gv s1) ej b).
  { intros j ej Hj Hdj. rewrite Hoth in Hdj by (rewrite ?sb_val; cbn; lia). split; [done|]. destruct (finv_lookup s F j ej H) as (ty0 & data & _ & Hh); [lia|done|].
    apply (holds_winode s1 (gv s2) inum (new_entry ty) d j ej ty0 data Hb1); [unfold NINODES; lia|done|done|done|unfold NINODES; lia|lia|exact Hh]. }
  exists s2. split.
  - unfold ialloc. rewrite (bind_Ret _ _ s inum s1).
    2:{ unfold next_inode. rewrite (bind_Ret (gets freeinode) _ s _ s eq_refl). rewrite Hn. unfold u32. rewrite wrapu_small by lia. done. }
    rewrite (xshort_id ty), (xshort_id 1), (xint_id 0) by lia. by rewrite (bind_Ret _ _ _ _ _ Ew).
  - pose proof (fi_cost _ _ H) as Hc. split; [done|..].
    + rewrite Hfi, length_app. cbn [freeinode s1 set_freeinode length]. unfold NINODES. lia.
    + rewrite Hfb. change (freeblock s1) with (freeblock s). etrans; [exact Hc|]. unfold cost_sum. rewrite foldr_app. cbn [foldr snd length].
      apply Z.add_le_mono_l. change (cost (Z.of_nat 0) + 0) with 0. lia.
    + intros k ty0 data [Hk|[Hk Hk']]%lookup_app_Some; [by apply Hold|]. apply list_lookup_singleton_Some in Hk' as [Hk0 [= <- <-]].
      replace (1 + Z.of_nat k) with inum by lia. by exists (new_entry ty).
    + intros i j ei ej Hij Hi Hj Hdi Hdj b Hbi Hbj. rewrite Hfi in Hi, Hj. cbn [freeinode s1 set_freeinode] in Hi, Hj.
      destruct (decide (i = inum)) as [->|Hni]; [rewrite Hnew in Hdi; injection Hdi as <-; by apply new_owns in Hbi|].
      destruct (decide (j = inum)) as [->|Hnj]; [rewrite Hnew in Hdj; injection Hdj as <-; by apply new_owns in Hbj|].
      destruct (Hoi i ei ltac:(lia) Hdi) as [Hdi' Hoi1], (Hoi j ej ltac:(lia) Hdj) as [Hdj' Hoj].
      apply (fi_disj _ _ H i j ei ej Hij ltac:(lia) ltac:(lia) Hdi' Hdj' b); [by apply Hoi1|by apply Hoj].
    + intros k Hk. rewrite Hfi in Hk. cbn [freeinode s1 set_freeinode] in Hk. unfold NINODES in Hk. destruct (fi_rest _ _ H k) as (e & Hde & Hte); [unfold NINODES; lia|]. exists e. split; [|done].
      rewrite Hoth; [exact Hde|rewrite sb_val; cbn; lia|lia].
    + intros b Hbb. rewrite Hg. pose proof (to_block_bounds inum ltac:(lia)). rewrite lookup_insert_ne by lia. by apply (fi_log _ _ H).
    + rewrite Hg. pose proof (to_block_bounds inum ltac:(lia)). rewrite lookup_insert_ne by lia. apply (fi_super _ _ H).
Qed.

(** ** [iappend] *)
Lemma cost_sum_insert F k x y : F !! k = Some x -> cost_sum (<[k := y]> F) = cost_sum F - cost (Z.of_nat (length x.2)) + cost (Z.of_nat (length y.2)).
Proof.
  revert k. induction F as [|z F IH]; intros [|k]; try done.
  - intros [= ->]. change (<[0%nat := y]> (x :: F)) with (y :: F). unfold cost_sum. cbn [foldr]. lia.
  - intros Hk. change (<[S k := y]> (z :: F)) with (z :: <[k := y]> F). specialize (IH k Hk). unfold cost_sum in *. cbn [foldr]. lia.
Qed.

Lemma finv_iappend s F k ty data p : finv s F -> F !! k = Some (ty, data) -> p <> [] -> Forall byte_ok p ->
  Z.of_nat (length (data ++ p)) <= INODE_MAX_BYTES -> nmeta + cost_sum (<[k := (ty, data ++ p)]> F) <= SWAP_START ->
  exists s', iappend (1 + Z.of_nat k) p (Z.of_nat (length p)) s = Ret (tt, s') /\ finv s' (<[k := (ty, data ++ p)]> F).
Proof.
  intros H Hk Hp Hpb Hmax Hcost. pose proof (lookup_lt_Some _ _ _ Hk) as Hlt. destruct (fi_num _ _ H) as [Hn HnN]. pose proof (fi_base _ _ H) as Hb.
  destruct (fi_file _ _ H k ty data Hk) as [e He]. set (inum := 1 + Z.of_nat k) in *. pose proof (holds_size _ _ _ _ _ He) as Hsz.
  rewrite (cost_sum_insert _ _ _ _ Hk) in Hcost. cbn [snd] in Hcost. pose proof (fi_cost _ _ H) as Hc.
  rewrite length_app in Hmax, Hcost. rewrite Nat2Z.inj_add in Hmax, Hcost. unfold NINODES in HnN. pose proof (base_fs s Hb) as Hfs.
  destruct (iappend_spec s inum e p Hb) as (s' & e1 & E & Hb' & Hfi & Hfb & Hde & Hw & Hdt & Hty & Hnl & Hnb & Hot & Hown & Hlog & Hfr & Hz & Hmono);
    [unfold NINODES; lia|apply He|apply He|done|done|rewrite Hsz; lia|apply He|rewrite Hsz; lia|].
  exists s'. split; [done|]. pose proof (base_fs s' Hb') as Hfs'. pose proof (bs_blk s Hb) as Hbb. rewrite nmeta_val in Hbb.
  assert (Hoth : forall j ej, 1 <= j < freeinode s -> j <> inum -> disk_entry sb (gv s) j = Some ej -> forall ty0 d0, holds (gv s) j ej ty0 d0 ->
    holds (gv s') j ej ty0 d0 /\ forall b, owns (gv s') ej b <-> owns (gv s) ej b).
  { intros j ej Hj Hne Hdj ty0 d0 Hh. apply (holds_frame (gv s) (gv s') j ej ty0 d0 Hfs Hfs' Hh).
    - etrans; [|exact Hdj]. apply (ot_inodes _ _ _ _ _ _ Hot); [rewrite sb_val; cbn; lia|done].
    - intros b Ho. apply Hfr; [by apply (owns_data _ _ _ _ (fw_maps _ _ _ (ho_wf _ _ _ _ _ Hh)))|]. intros Ho'.
      apply (fi_disj _ _ H j inum ej e Hne ltac:(lia) ltac:(lia) Hdj (ho_entry _ _ _ _ _ He) b Ho Ho').
    - intros b H0. rewrite !gv_used by done. rewrite !Z.ltb_lt. lia. }
  assert (Hh1 : holds (gv s') inum e1 ty (data ++ p)).
  { split; [done|done|by rewrite Hty, (ho_type _ _ _ _ _ He)|by rewrite Hnl, (ho_links _ _ _ _ _ He)|by rewrite Hdt, (ho_data _ _ _ _ _ He)|done|].
    intros b Ho. destruct (Hown b Ho) as [Ho'|Hge]; [by apply (ho_owns _ _ _ _ _ He)|rewrite nmeta_val; lia]. }
  assert (Hback : forall j ej, 1 <= j < freeinode s -> j <> inum -> disk_entry sb (gv s') j = Some ej -> disk_entry sb (gv s) j = Some ej).
  { intros j ej Hj Hne Hdj. rewrite <- Hdj. symmetry. apply (ot_inodes _ _ _ _ _ _ Hot); [rewrite sb_val; cbn; lia|done]. }
  assert (Hdis : forall j ej, 1 <= j < freeinode s -> j <> inum -> disk_entry sb (gv s') j = Some ej -> forall b, owns (gv s') e1 b -> ~ owns (gv s') ej b).
  { intros j ej Hj Hne Hdj. pose proof (Hback j ej Hj Hne Hdj) as Hdj'. destruct (finv_lookup s F j ej H Hj Hdj') as (ty0 & d0 & _ & Hh).
    apply (ot_files _ _ _ _ _ _ Hot ej (ho_wf _ _ _ _ _ Hh)). intros b Ho. apply (fi_disj _ _ H inum j e ej ltac:(lia) ltac:(lia) ltac:(lia) (ho_entry _ _ _ _ _ He) Hdj' b Ho). }
  split; [done|..].
  - rewrite length_insert, Hfi. unfold NINODES. lia.
  - rewrite (cost_sum_insert _ _ _ _ Hk). cbn [snd]. rewrite length_app, Nat2Z.inj_add, <- Hsz. lia.
  - intros j ty0 d0. destruct (decide (k = j)) as [->|Hne].
    + rewrite list_lookup_insert_eq by done. intros [= <- <-]. by exists e1.
    + rewrite list_lookup_insert_ne by done. intros Hj. pose proof (lookup_lt_Some _ _ _ Hj). destruct (fi_file _ _ H j ty0 d0 Hj) as [ej Hej]. exists ej.
      apply (Hoth _ ej); [lia|lia|apply Hej|done].
  - intros i j ei ej Hij Hi Hj Hdi Hdj b Hbi Hbj. rewrite Hfi in Hi, Hj. pose proof (ho_entry _ _ _ _ _ Hh1) as Hd1.
    destruct (decide (i = inum)) as [->|Hni]; [rewrite Hd1 in Hdi; injection Hdi as <-; by apply (Hdis j ej Hj ltac:(lia) Hdj b)|].
    destruct (decide (j = inum)) as [->|Hnj]; [rewrite Hd1 in Hdj; injection Hdj as <-; by apply (Hdis i ei Hi Hni Hdi b)|].
    pose proof (Hback i ei Hi Hni Hdi) as Hdi'. pose proof (Hback j ej Hj Hnj Hdj) as Hdj'.
    destruct (finv_lookup s F i ei H Hi Hdi') as (? & ? & _ & Hhi), (finv_lookup s F j ej H Hj Hdj') as (? & ? & _ & Hhj).
    destruct (Hoth i ei Hi Hni Hdi' _ _ Hhi) as [_ Hoi], (Hoth j ej Hj Hnj Hdj' _ _ Hhj) as [_ Hoj].
    apply (fi_disj _ _ H i j ei ej Hij Hi Hj Hdi' Hdj' b); [by apply Hoi|by apply Hoj].
  - intros j Hj. rewrite Hfi in Hj. unfold NINODES in Hj. destruct (fi_rest _ _ H j) as (ej & Hdj & Htj); [unfold NINODES; lia|]. exists ej. split; [|done].
    rewrite <- Hdj. apply (ot_inodes _ _ _ _ _ _ Hot); [rewrite sb_val; cbn; lia|lia].
  - intros b Hb65. rewrite Hlog; [by apply (fi_log _ _ H)|lia|]. intros Ho. apply (ho_owns _ _ _ _ _ Hh1) in Ho. rewrite nmeta_val in Ho. lia.
  - rewrite Hlog; [apply (fi_super _ _ H)|lia|]. intros Ho. apply (ho_owns _ _ _ _ _ Hh1) in Ho. rewrite nmeta_val in Ho. lia.
Qed.
