(* ===== verification/MkfsRoot.v ===== *)
(** * The image that mkfs leaves (user/mkfs/main.c)

    [main] from the empty file to the bitmap: what the image holds after each
    part of it, and what the kernel finds when it mounts the result. *)
From stdpp Require Import base gmap list.
From Stdlib Require Import ZArith Lia.
From S2P Require Import Prelude Bytes Bitmap BCache BCacheInv BCacheLog BCacheCrash BCacheSteps BCacheProps BlockStore BCacheStore CString Console Inode InodeFile InodeMap InodeWrite InodeDir InodeProps Mkfs MkfsProps.

(** ** Names *)
Definition file_name (f : input) : bytes := strip_underscore (base_name (path f)).

Lemma after_slash_bounds p : 0 <= after_slash p <= Z.of_nat (length p).
Proof.
  unfold after_slash. induction p as [|c p IH] using rev_ind; [done|]. rewrite foldl_app, length_app. cbn [foldl length]. destruct (c =? 47); lia.
Qed.

Lemma base_name_snoc p c : base_name (p ++ [c]) = if c =? 47 then [] else base_name p ++ [c].
Proof.
  unfold base_name. pose proof (after_slash_bounds p) as H. assert (E : after_slash (p ++ [c]) = (if c =? 47 then -1 else after_slash p) + 1) by (unfold after_slash; by rewrite foldl_app).
  rewrite E, length_app. cbn [length]. destruct (c =? 47).
  - rewrite drop_ge; [done|]. rewrite length_app. cbn. lia.
  - rewrite drop_app_le by lia. do 2 f_equal. lia.
Qed.

Lemma base_name_noslash p : forallb (fun c => negb (c =? 47)) (base_name p) = true.
Proof.
  induction p as [|c p IH] using rev_ind; [done|]. rewrite base_name_snoc. destruct (c =? 47) eqn:E; [done|].
  rewrite forallb_app, IH. cbn. by rewrite E.
Qed.

Lemma file_name_bytes f (P : Z -> Prop) : Forall P (path f) -> Forall P (file_name f).
Proof.
  intros H. unfold file_name. assert (Hb : Forall P (base_name (path f))) by (unfold base_name; by apply Forall_drop).
  unfold strip_underscore. destruct (base_name (path f)) as [|c l]; [done|]. apply Forall_cons in Hb as [? ?]. destruct (c =? 95); [done|by constructor].
Qed.

Lemma dirsiz_length nm : length (dirsiz nm) = 14%nat.
Proof. unfold dirsiz. rewrite length_take, length_app, length_replicate. lia. Qed.

Lemma dirsiz_ok nm : Forall byte_ok nm -> Forall byte_ok (dirsiz nm).
Proof. intros H. unfold dirsiz. apply Forall_take, Forall_app. split; [done|]. apply Forall_replicate. unfold byte_ok. lia. Qed.

Lemma cstr_dirsiz n nm : Forall (fun c => c <> 0) nm -> cstr n (take n (nm ++ replicate n 0)) = take n nm.
Proof.
  intros H. revert nm H. assert (Hz : forall m k, cstr m (replicate k 0) = []) by (intros [|m] [|k]; done).
  induction n as [|n IH]; intros nm H; [done|]. destruct nm as [|c nm]; [cbn [app]; by rewrite take_replicate, Hz|].
  apply Forall_cons in H as [Hc H]. cbn [app take cstr]. rewrite (proj2 (Z.eqb_neq c 0)) by done. f_equal.
  rewrite <- (IH nm H). assert (E : take n (nm ++ replicate (S n) 0) = take n (nm ++ replicate n 0)); [|by rewrite E].
  rewrite replicate_S_end, app_assoc. apply take_app_le. rewrite length_app, length_replicate. lia.
Qed.

(** ** The files so far *)
Definition root_dirents (files : list input) : list DirEntry :=
  mkDirent 1 (dirsiz [46]) :: mkDirent 1 (dirsiz [46; 46]) :: imap (fun i f => mkDirent (2 + Z.of_nat i) (dirsiz (file_name f))) files.
Definition root_data (files : list input) : bytes := concat (dirent_bytes <$> root_dirents files).
Definition image_of (files : list input) : list (Z * bytes) :=
  (INODE_DIRECTORY, root_data files) :: ((fun f => (INODE_REGULAR, concat (reads f))) <$> files).

Record input_ok (f : input) : Prop := {
  io_path : Forall (fun c => 0 < c < 256) (path f);
  io_reads : Forall (fun c => c <> [] /\ Forall byte_ok c) (reads f);
  io_size : Z.of_nat (length (concat (reads f))) <= INODE_MAX_BYTES
}.

Lemma root_dirents_snoc files f : root_dirents (files ++ [f]) = root_dirents files ++ [mkDirent (2 + Z.of_nat (length files)) (dirsiz (file_name f))].
Proof. unfold root_dirents. rewrite imap_app. cbn [imap app]. by rewrite Nat.add_0_r. Qed.

Lemma root_data_snoc files f : root_data (files ++ [f]) = root_data files ++ dirent_bytes (mkDirent (2 + Z.of_nat (length files)) (dirsiz (file_name f))).
Proof. unfold root_data. rewrite root_dirents_snoc, fmap_app, concat_app. cbn [fmap list_fmap concat]. by rewrite app_nil_r. Qed.

Lemma root_data_length files : length (root_data files) = (16 * (2 + length files))%nat.
Proof.
  induction files as [|f files IH] using rev_ind; [by vm_compute|]. rewrite root_data_snoc, length_app, IH, length_app, dirent_bytes_length by apply dirsiz_length. cbn [length]. lia.
Qed.

Lemma image_of_snoc files f :
  image_of (files ++ [f]) = <[(1 + length files)%nat := (INODE_REGULAR, concat (reads f))]>
    (<[0%nat := (INODE_DIRECTORY, root_data (files ++ [f]))]> (image_of files ++ [(INODE_REGULAR, [])])).
Proof.
  unfold image_of. rewrite fmap_app. cbn [fmap list_fmap].
  change (<[0%nat := (INODE_DIRECTORY, root_data (files ++ [f]))]> (((INODE_DIRECTORY, root_data files) :: ((fun f => (INODE_REGULAR, concat (reads f))) <$> files)) ++ [(INODE_REGULAR, [])]))
    with ((INODE_DIRECTORY, root_data (files ++ [f])) :: (((fun f => (INODE_REGULAR, concat (reads f))) <$> files) ++ [(INODE_REGULAR, [])])).
  set (l := (fun f => (INODE_REGULAR, concat (reads f))) <$> files).
  change (<[(1 + length files)%nat := (INODE_REGULAR, concat (reads f))]> ((INODE_DIRECTORY, root_data (files ++ [f])) :: (l ++ [(INODE_REGULAR, [])])))
    with ((INODE_DIRECTORY, root_data (files ++ [f])) :: <[length files := (INODE_REGULAR, concat (reads f))]> (l ++ [(INODE_REGULAR, [])])). f_equal.
  replace (length files) with (length l + 0)%nat by (unfold l; rewrite length_fmap; lia). by rewrite insert_app_r.
Qed.

Lemma cost_mono m n : 0 <= m <= n -> cost m <= cost n.
Proof. intros H. unfold cost. assert ((m + 511) / 512 <= (n + 511) / 512) by (apply Z.div_le_mono; lia). destruct (Z.leb_spec m 6144), (Z.leb_spec n 6144); lia. Qed.

Lemma cost_nonneg n : 0 <= n -> 0 <= cost n.
Proof. intros H. unfold cost. assert (0 <= (n + 511) / 512) by (apply Z.div_pos; lia). destruct (n <=? 6144); lia. Qed.

Lemma cost_sum_cons x F : cost_sum (x :: F) = cost (Z.of_nat (length x.2)) + cost_sum F.
Proof. done. Qed.

Lemma cost_sum_app F G : cost_sum (F ++ G) = cost_sum F + cost_sum G.
Proof. induction F as [|x F IH]; [done|]. change ((x :: F) ++ G) with (x :: (F ++ G)). rewrite !cost_sum_cons, IH. lia. Qed.

Lemma cost_sum_nonneg F : 0 <= cost_sum F.
Proof. induction F as [|x F IH]; [done|]. rewrite cost_sum_cons. pose proof (cost_nonneg (Z.of_nat (length x.2))). lia. Qed.

(** The blocks the final image needs are enough for every state on the way. *)
Lemma cost_prefix files more : cost_sum (image_of files) <= cost_sum (image_of (files ++ more)).
Proof.
  unfold image_of. rewrite fmap_app, !cost_sum_cons, cost_sum_app. cbn [snd]. pose proof (cost_sum_nonneg ((fun f => (INODE_REGULAR, concat (reads f))) <$> more)).
  pose proof (cost_mono (Z.of_nat (length (root_data files))) (Z.of_nat (length (root_data (files ++ more))))) as Hc. rewrite !root_data_length, length_app in *. lia.
Qed.

(** ** The parts of [main] *)
Lemma insert_0_cons {A} (x y : A) l : <[0%nat := x]> (y :: l) = x :: l.
Proof. done. Qed.

Lemma link_spec s F data inum nm :
  finv s F -> F !! 0%nat = Some (INODE_DIRECTORY, data) -> 0 <= inum < 2 ^ 16 -> Forall byte_ok nm ->
  let data' := data ++ dirent_bytes (mkDirent inum (dirsiz nm)) in
  Z.of_nat (length data') <= INODE_MAX_BYTES -> nmeta + cost_sum (<[0%nat := (INODE_DIRECTORY, data')]> F) <= SWAP_START ->
  exists s', link 1 inum nm s = Ret (tt, s') /\ finv s' (<[0%nat := (INODE_DIRECTORY, data')]> F).
Proof.
  intros H H0 Hi Hnm data' Hmax Hc. assert (Hl : length (dirent_bytes (mkDirent inum (dirsiz nm))) = 16%nat) by (apply dirent_bytes_length, dirsiz_length).
  destruct (finv_iappend s F 0 INODE_DIRECTORY data (dirent_bytes (mkDirent inum (dirsiz nm))) H H0) as (s' & E & H'); [intros E; by rewrite E in Hl| |done|done|].
  - unfold dirent_bytes. apply Forall_app. split; [apply le_encode_ok|by apply dirsiz_ok].
  - exists s'. split; [|done]. unfold link. rewrite xshort_id by lia. rewrite Hl in E. exact E.
Qed.

Lemma chunks_spec k ty chunks : forall s F data,
  finv s F -> F !! k = Some (ty, data) -> Forall (fun c => c <> [] /\ Forall byte_ok c) chunks ->
  Z.of_nat (length (data ++ concat chunks)) <= INODE_MAX_BYTES -> nmeta + cost_sum (<[k := (ty, data ++ concat chunks)]> F) <= SWAP_START ->
  exists s', foldr (fun buf m => iappend (1 + Z.of_nat k) buf (Z.of_nat (length buf)) ;;; m) (ret tt) chunks s = Ret (tt, s') /\
    finv s' (<[k := (ty, data ++ concat chunks)]> F).
Proof.
  induction chunks as [|c chunks IH]; intros s F data H Hk Hch Hmax Hc.
  - exists s. split; [done|]. cbn [concat]. by rewrite app_nil_r, list_insert_id.
  - apply Forall_cons in Hch as [[Hne Hb] Hch]. cbn [concat] in *. rewrite app_assoc in *. pose proof (lookup_lt_Some _ _ _ Hk) as Hlt.
    assert (Hcm : cost_sum (<[k := (ty, data ++ c)]> F) <= cost_sum (<[k := (ty, (data ++ c) ++ concat chunks)]> F)).
    { rewrite !(cost_sum_insert F k _ _ Hk). cbn [snd]. apply Z.add_le_mono_l, cost_mono. rewrite !length_app. lia. }
    destruct (finv_iappend s F k ty data c H Hk Hne Hb) as (s1 & E1 & H1); [rewrite !length_app in *; lia|lia|].
    destruct (IH s1 (<[k := (ty, data ++ c)]> F) (data ++ c) H1) as (s2 & E2 & H2); [by apply list_lookup_insert_eq|done|done|by rewrite list_insert_insert_eq|].
    exists s2. rewrite list_insert_insert_eq in H2. split; [|done]. cbn [foldr]. by rewrite (bind_Ret _ _ _ _ _ E1).
Qed.

Lemma copy_file_spec s files f :
  finv s (image_of files) -> input_ok f -> Z.of_nat (length files) < 198 -> nmeta + cost_sum (image_of (files ++ [f])) <= SWAP_START ->
  exists s', copy_file 1 f s = Ret (tt, s') /\ finv s' (image_of (files ++ [f])).
Proof.
  intros H [Hp Hr Hs] Hlen Hc. assert (Hli : length (image_of files) = S (length files)) by (unfold image_of; cbn [length]; by rewrite length_fmap).
  destruct (finv_ialloc s (image_of files) INODE_REGULAR H) as (s1 & E1 & H1); [rewrite Hli; unfold NINODES; lia|done|].
  set (inum := 1 + Z.of_nat (length (image_of files))) in *. assert (Hin : inum = 2 + Z.of_nat (length files)) by lia.
  rewrite image_of_snoc in Hc |- *. set (F1 := image_of files ++ [(INODE_REGULAR, [])]) in *. rewrite root_data_snoc in Hc |- *. rewrite <- Hin in Hc |- *.
  set (F2 := <[0%nat := (INODE_DIRECTORY, root_data files ++ dirent_bytes (mkDirent inum (dirsiz (file_name f))))]> F1) in *.
  assert (Hk2 : F2 !! (1 + length files)%nat = Some (INODE_REGULAR, [])).
  { unfold F2. rewrite list_lookup_insert_ne by lia. unfold F1. rewrite lookup_app_r by lia. rewrite Hli. by rewrite Nat.sub_diag. }
  rewrite (cost_sum_insert F2 _ _ _ Hk2) in Hc. cbn [snd length] in Hc. change (cost (Z.of_nat 0)) with 0 in Hc.
  pose proof (cost_nonneg (Z.of_nat (length (concat (reads f))))) as Hcn.
  destruct (link_spec s1 F1 (root_data files) inum (file_name f) H1 eq_refl) as (s2 & E2 & H2); [lia| | |unfold F2 in Hc; lia|].
  { apply file_name_bytes. eapply Forall_impl; [exact Hp|]. unfold byte_ok. intros; cbn in *; lia. }
  { rewrite length_app, root_data_length, dirent_bytes_length by apply dirsiz_length. change INODE_MAX_BYTES with 71680. lia. }
  fold F2 in H2. destruct (chunks_spec (1 + length files) INODE_REGULAR (reads f) s2 F2 [] H2 Hk2 Hr) as (s3 & E3 & H3); [done|rewrite (cost_sum_insert F2 _ _ _ Hk2); cbn [snd length app]; change (cost (Z.of_nat 0)) with 0; lia|].
  exists s3. split; [|done]. unfold copy_file. rewrite base_name_noslash. rewrite (bind_Ret (assert true) _ s tt s eq_refl), (bind_Ret _ _ _ _ _ E1).
  change (strip_underscore (base_name (path f))) with (file_name f). rewrite (bind_Ret _ _ _ _ _ E2). replace inum with (1 + Z.of_nat (1 + length files)) by lia. exact E3.
Qed.

Lemma copy_files_spec more : forall s files,
  finv s (image_of files) -> Forall input_ok more -> Z.of_nat (length (files ++ more)) <= 198 -> nmeta + cost_sum (image_of (files ++ more)) <= SWAP_START ->
  exists s', foldr (fun f m => copy_file 1 f ;;; m) (ret tt) more s = Ret (tt, s') /\ finv s' (image_of (files ++ more)).
Proof.
  induction more as [|f more IH]; intros s files H Hok Hlen Hc; [exists s; by rewrite app_nil_r in *|].
  apply Forall_cons in Hok as [Hf Hok]. replace (files ++ f :: more) with ((files ++ [f]) ++ more) in * by by rewrite <- app_assoc.
  pose proof (cost_prefix (files ++ [f]) more) as Hcp. rewrite !length_app in Hlen. cbn [length] in Hlen.
  destruct (copy_file_spec s files f H Hf) as (s1 & E1 & H1); [lia|lia|]. destruct (IH s1 (files ++ [f]) H1 Hok) as (s2 & E2 & H2); [rewrite !length_app; cbn [length]; lia|done|].
  exists s2. split; [|done]. cbn [foldr]. by rewrite (bind_Ret _ _ _ _ _ E1).
Qed.

(** The empty file system. *)
Lemma zero_sectors n : forall k s, (k + n <= 4096)%nat ->
  exists m, foldr (fun i m => wsect (Z.of_nat i) (replicate 512 0) ;;; m) (ret tt) (seq k n) s = Ret (tt, set_img (fun _ => m) s) /\
    forall j, m !! j = if decide (Z.of_nat k <= j < Z.of_nat (k + n)) then Some zero_block else img s !! j.
Proof.
  induction n as [|n IH]; intros k s Hk.
  - exists (img s). split; [by destruct s|]. intros j. by rewrite decide_False by lia.
  - cbn [seq foldr]. set (s1 := set_img (insert (Z.of_nat k) (replicate 512 0)) s).
    rewrite (bind_Ret (wsect _ _) _ s tt s1) by (unfold wsect; by rewrite sector_id by lia).
    destruct (IH (S k) s1) as (m & E & Hm); [lia|]. exists m. split; [exact E|]. intros j. rewrite Hm. cbn [img s1 set_img].
    destruct (decide (Z.of_nat (S k) <= j < Z.of_nat (S k + n))); [by rewrite decide_True by lia|].
    destruct (decide (j = Z.of_nat k)) as [->|Hne]; [by rewrite lookup_insert_eq, decide_True by lia|]. by rewrite lookup_insert_ne, decide_False by lia.
Qed.

Lemma super_block_ok : block_ok (splice 0 (sb_bytes sb) zero_block).
Proof. apply block_okb_spec. vm_compute. reflexivity. Qed.

Lemma zero_entry k : type (get_entry zero_block k) = INODE_INVALID.
Proof.
  unfold get_entry, zero_block, range. pose proof (inode_off_bound k) as H. rewrite drop_replicate, take_replicate.
  replace (64 `min` (Z.to_nat BLOCK_SIZE - inode_off k))%nat with 64%nat by lia. vm_compute. reflexivity.
Qed.

Lemma format_spec (f : gmap Z bytes -> gmap Z bytes) s :
  freeinode s = 1 -> (forall j, f (img s) !! j = if decide (0 <= j < FSSIZE) then Some zero_block else None) ->
  finv (set_img (insert 1 (splice 0 (sb_bytes sb) zero_block)) (set_img f (set_freeblock nmeta s))) [].
Proof.
  intros Hi Hm. set (s' := set_img _ _). assert (Hg : forall n, n <> 91 -> n <> 1 -> 0 <= n < FSSIZE -> gv s' !! n = Some zero_block).
  { intros n H91 H1 Hn. rewrite gv_ne by done. cbn [img s' set_img]. rewrite lookup_insert_ne by done. cbn [img set_freeblock]. by rewrite Hm, decide_True. }
  assert (H1 : gv s' !! 1 = Some (splice 0 (sb_bytes sb) zero_block)) by (rewrite gv_ne by done; apply lookup_insert_eq).
  assert (Hb : base s').
  { split; cbn [freeblock s' set_img set_freeblock]; [rewrite nmeta_val; change SWAP_START with 800; lia| | |].
    - intros n. change (img s') with (<[1 := splice 0 (sb_bytes sb) zero_block]> (f (img s))). rewrite lookup_insert_is_Some', Hm. unfold FSSIZE.
      destruct (decide (0 <= n < 1000)) as [Hn|Hn]; (split; [|intros Hn'; done || lia || (right; eauto)]); [done|]. intros [<-|[x Hx]]; [lia|done].
    - intros n d. change (img s') with (<[1 := splice 0 (sb_bytes sb) zero_block]> (f (img s))). intros [[<- <-]|[_ Hd]]%lookup_insert_Some; [apply super_block_ok|].
      rewrite Hm in Hd. case_decide; [|done]. injection Hd as <-. apply zero_block_ok.
    - intros n Hn. rewrite nmeta_val in Hn. rewrite <- (Hg n) by (unfold FSSIZE in *; lia). by rewrite gv_ne by lia. }
  split; try done.
  - cbn [freeinode s' set_img set_freeblock]. rewrite Hi. split; [done|unfold NINODES; lia].
  - intros i j ei ej Hij Hi' Hj. cbn [freeinode s' set_img set_freeblock] in Hi'. lia.
  - intros k Hk. cbn [freeinode s' set_img set_freeblock] in Hk. unfold NINODES in Hk. exists (get_entry zero_block k). split; [|apply zero_entry].
    pose proof (to_block_bounds k ltac:(lia)). unfold disk_entry. rewrite Hg by (unfold FSSIZE; lia). done.
  - intros b Hb'. apply Hg; unfold FSSIZE; lia.
Qed.

(** The two entries of the empty root directory. *)
Lemma root_links s : finv s [] -> exists s1 s2 s3, ialloc INODE_DIRECTORY s = Ret (1, s1) /\ link 1 1 [46] s1 = Ret (tt, s2) /\
  link 1 1 [46; 46] s2 = Ret (tt, s3) /\ finv s3 (image_of []).
Proof.
  intros H. destruct (finv_ialloc s [] INODE_DIRECTORY H) as (s1 & E1 & H1); [done|done|]. cbn [length app] in E1, H1. change (1 + Z.of_nat 0) with 1 in E1.
  destruct (link_spec s1 _ [] 1 [46] H1 eq_refl) as (s2 & E2 & H2); [lia|repeat constructor; unfold byte_ok; lia|vm_compute; congruence|vm_compute; congruence|]. rewrite insert_0_cons in H2.
  destruct (link_spec s2 _ _ 1 [46; 46] H2 eq_refl) as (s3 & E3 & H3); [lia|repeat constructor; unfold byte_ok; lia|vm_compute; congruence|vm_compute; congruence|]. rewrite insert_0_cons in H3.
  exists s1, s2, s3. done.
Qed.

(** The size of the root directory is rounded up to whole blocks. *)
Definition round_up (n : Z) : Z := (n / BLOCK_SIZE + 1) * BLOCK_SIZE.

Lemma rounded_file v inum e ty data :
  fs_ok sb v -> holds v inum e ty data -> num_bytes e mod BLOCK_SIZE <> 0 ->
  let e' := set_num_bytes (round_up (num_bytes e)) e in
  file_wf sb v e' /\ file_data v e' = data ++ replicate (Z.to_nat (round_up (num_bytes e)) - length data) 0 /\ (forall b, owns v e' b <-> owns v e b) /\ round_up (num_bytes e) <= INODE_MAX_BYTES.
Proof.
  intros Hfs H Hmod e'. pose proof (ho_wf _ _ _ _ _ H) as Hw. pose proof (fw_maps _ _ _ Hw) as Hm. pose proof (num_bytes_nonneg sb v e Hm) as Hn. pose proof (fw_size _ _ _ Hw) as Hmax.
  change INODE_MAX_BYTES with 71680 in *. unfold BLOCK_SIZE in *. pose proof (Z.div_mod (num_bytes e) 512 ltac:(lia)) as Hdm. pose proof (Z.mod_pos_bound (num_bytes e) 512 ltac:(lia)) as Hb.
  assert (Hr : num_bytes e < round_up (num_bytes e) <= 71680) by (unfold round_up, BLOCK_SIZE; lia).
  destruct (set_size_maps sb v e (round_up (num_bytes e)) Hm) as (Hm' & Hbk & Ho); [split; [lia|change (256 ^ Z.of_nat 4) with 4294967296; lia]|].
  assert (Hw' : file_wf sb v e').
  { split; [done|apply (fw_type _ _ _ Hw)|cbn; change INODE_MAX_BYTES with 71680; lia|]. intros i Hi Hlt. unfold e'. rewrite Hbk. apply (fw_full _ _ _ Hw); [done|].
    cbn [e' set_num_bytes num_bytes] in Hlt. unfold round_up, BLOCK_SIZE in *. lia. }
  split; [done|]. split; [|split; [done|lia]]. pose proof (holds_size _ _ _ _ _ H) as Hsz. rewrite <- (ho_data _ _ _ _ _ H) at 1. unfold file_data. cbn [e' set_num_bytes num_bytes].
  replace (Z.to_nat (round_up (num_bytes e))) with (Z.to_nat (num_bytes e) + (Z.to_nat (round_up (num_bytes e)) - length data))%nat at 1 by lia.
  rewrite seq_app, fmap_app. f_equal. apply list_eq. intros k. rewrite list_lookup_fmap. destruct (decide (k < Z.to_nat (round_up (num_bytes e)) - length data)%nat) as [Hk|Hk].
  - rewrite lookup_seq_lt, lookup_replicate_2 by done. cbn [fmap option_fmap option_map]. f_equal. apply (ho_zero _ _ _ _ _ H). change INODE_MAX_BYTES with 71680. lia.
  - rewrite lookup_seq_ge, lookup_ge_None_2 by (rewrite ?length_replicate; lia). done.
Qed.

(** ** What the kernel finds *)
Definition root_pairs (files : list input) : list (bytes * Z) :=
  ([46], 1) :: ([46; 46], 1) :: imap (fun i f => (take 14 (file_name f), 2 + Z.of_nat i)) files.

Record built (files : list input) (disk : gmap Z bytes) (v : gmap Z bytes) : Prop := {
  bu_super : disk !! 1 = Some (splice 0 (sb_bytes sb) zero_block);
  bu_disk : disk_wf sb disk [];
  bu_fs : fs_ok sb v;
  bu_root : exists e, disk_entry sb v ROOT_INODE_NO = Some e /\ dir_wf sb v e /\ num_links e = 1 /\
    dir_unique (dirents v e) /\ dir_map (dirents v e) = list_to_map (root_pairs files);
  bu_file : forall k f, files !! k = Some f -> exists e, disk_entry sb v (2 + Z.of_nat k) = Some e /\ file_wf sb v e /\ type e = INODE_REGULAR /\ num_links e = 1 /\
    file_data v e = concat (reads f);
  bu_disj : forall i j ei ej, i <> j -> 1 <= i < 2 + Z.of_nat (length files) -> 1 <= j < 2 + Z.of_nat (length files) ->
    disk_entry sb v i = Some ei -> disk_entry sb v j = Some ej -> forall b, owns v ei b -> ~ owns v ej b;
  bu_free : forall k, 2 + Z.of_nat (length files) <= k < NINODES -> exists e, disk_entry sb v k = Some e /\ type e = INODE_INVALID
}.

(** *** The mounted view *)
Lemma mounted_lookup V n : mounted sb V !! n = if decide (2 <= n <= 64) then None else V !! n.
Proof.
  unfold mounted. assert (E : in_areab sb n = bool_decide (2 <= n <= 64)).
  { unfold in_areab. rewrite sb_val. cbn [sb_log_start]. change (log_cap (mkSuper 1000 908 200 63 2 65 91)) with 62. destruct (Z.leb_spec 2 n), (Z.leb_spec n (2 + 62)); cbn [andb]; symmetry; first [apply bool_decide_eq_true_2; lia|apply bool_decide_eq_false_2; lia]. }
  destruct (decide (2 <= n <= 64)) as [Hn|Hn].
  - apply map_lookup_filter_None. right. intros d _. cbn. by rewrite E, bool_decide_eq_true_2.
  - destruct (V !! n) as [d|] eqn:Hd; [apply map_lookup_filter_Some|apply map_lookup_filter_None; by left]. cbn. by rewrite E, bool_decide_eq_false_2.
Qed.

Lemma mounted_ne V n : ~ 2 <= n <= 64 -> mounted sb V !! n = V !! n.
Proof. intros H. rewrite mounted_lookup. by destruct (decide _). Qed.

Lemma mounted_used V b : used sb (mounted sb V) b = used sb V b.
Proof. unfold used. rewrite mounted_ne; [done|rewrite sb_val; cbn; lia]. Qed.

Lemma mounted_fs s : base s -> fs_ok sb (mounted sb (gv s)).
Proof.
  intros H. pose proof (base_fs s H) as Hfs. pose proof (bs_blk s H) as Hb. rewrite nmeta_val in Hb. split.
  - rewrite mounted_ne by (rewrite sb_val; cbn; lia). apply Hfs.
  - intros n d. rewrite mounted_lookup. case_decide; [done|]. apply (fo_block _ _ Hfs).
  - intros ino Hi. destruct (fo_inode _ _ Hfs ino Hi) as [H1 H2]. split; [|done]. rewrite sb_val in Hi. cbn in Hi. pose proof (to_block_bounds ino Hi).
    rewrite mounted_ne by lia. done.
  - intros n Hn. rewrite mounted_used. intros Hu. destruct (fo_free _ _ Hfs n Hn Hu) as (H1 & H2 & H3). split; [|done].
    rewrite gv_used in Hu by (done || lia). apply Z.ltb_ge in Hu. by rewrite mounted_ne by lia.
Qed.

Lemma mounted_entry V k : 0 <= k < NINODES -> disk_entry sb (mounted sb V) k = disk_entry sb V k.
Proof. intros Hk. unfold NINODES in Hk. pose proof (to_block_bounds k Hk). unfold disk_entry. by rewrite mounted_ne by lia. Qed.

Lemma mounted_file s e : base s -> file_wf sb (gv s) e -> (forall b, owns (gv s) e b -> nmeta <= b) ->
  file_wf sb (mounted sb (gv s)) e /\ file_data (mounted sb (gv s)) e = file_data (gv s) e /\ forall b, owns (mounted sb (gv s)) e b <-> owns (gv s) e b.
Proof.
  intros H Hw Ho. destruct (file_frame (gv s) (mounted sb (gv s)) e (base_fs s H) (mounted_fs s H) Hw) as (H1 & H2 & _ & H3); [| |done].
  - intros b Hb%Ho. rewrite nmeta_val in Hb. by rewrite mounted_ne by lia.
  - intros b _. by rewrite mounted_used.
Qed.

(** *** The log is empty *)
Lemma image_disk_wf s : base s -> (forall b, 2 <= b < 65 -> gv s !! b = Some zero_block) -> disk_wf sb (gv s) [].
Proof.
  intros H Hlog. assert (Hdom : forall n, is_Some (gv s !! n) -> 0 <= n < FSSIZE).
  { intros n. unfold gv. rewrite lookup_insert_is_Some', (bs_dom s H). intros [<-|?]; [done|done]. }
  assert (Hh : disk_header sb (gv s) = mkHeader 0 (replicate 63 0)).
  { unfold disk_header. rewrite sb_val. cbn [sb_log_start]. rewrite Hlog by lia. vm_compute. reflexivity. }
  split.
  - split; rewrite ?Hh; try done.
    + split; [apply (fo_block _ _ (base_fs s H))|]. rewrite <- size_dom. assert (Hs : dom (gv s) ⊆ (list_to_set (seqZ 0 1000) : gset Z)).
      { intros n Hn%elem_of_dom. apply elem_of_list_to_set, elem_of_seqZ. apply Hdom in Hn. unfold FSSIZE in Hn. lia. }
      apply subseteq_size in Hs. rewrite size_list_to_set in Hs by apply NoDup_seqZ. rewrite length_seqZ in Hs. lia.
    + rewrite sb_val. cbn [sb_log_start]. rewrite Hlog by lia. eauto.
    + constructor.
    + intros n Hn. by apply elem_of_nil in Hn.
  - intros i Hi. rewrite sb_val in *. change (log_cap (mkSuper 1000 908 200 63 2 65 91)) with 62 in Hi. unfold log_block. cbn [sb_log_start]. rewrite Hlog by lia. eauto.
  - intros n Hn%Hdom. unfold FSSIZE in Hn. unfold word_ok. change (256 ^ Z.of_nat 8) with (2 ^ 64). lia.
  - rewrite sb_val. cbn. lia.
Qed.

(** *** The root directory *)
Lemma entry_at_dirents (l : list DirEntry) z k de :
  Forall dirent_ok l -> l !! k = Some de -> entry_at (concat (dirent_bytes <$> l) ++ z) k = de.
Proof.
  intros Hok. revert k. induction l as [|d l IH]; intros k Hk; [done|]. apply Forall_cons in Hok as [Hd Hok].
  assert (Hl : length (dirent_bytes d) = 16%nat) by (apply dirent_bytes_length, Hd). cbn [fmap list_fmap concat]. rewrite <- app_assoc. destruct k as [|k].
  - injection Hk as ->. unfold entry_at, range. rewrite Nat.mul_0_r, drop_0, take_app_le, take_ge by lia. by apply dirent_of_bytes.
  - rewrite <- (IH Hok k Hk). unfold entry_at, range. replace (16 * S k)%nat with (16 + 16 * k)%nat by lia. rewrite <- drop_drop, drop_app_length' by done. done.
Qed.

Lemma entry_at_zeros (l : bytes) m k : (16 * k >= length l)%nat -> live (entry_at (l ++ replicate m 0) k) = false.
Proof.
  intros Hk. unfold entry_at, range, dirent_of, live. cbn [de_inode_no]. rewrite drop_app_ge by lia. rewrite drop_replicate, !take_replicate.
  assert (E : forall n, le_decode (replicate n 0) = 0); [|by rewrite E]. induction n as [|n IH]; [done|]. cbn [replicate le_decode]. by rewrite IH.
Qed.

Lemma dirent_names files : Forall input_ok files -> Z.of_nat (length files) <= 198 ->
  Forall dirent_ok (root_dirents files) /\ dir_pairs (root_dirents files) = root_pairs files.
Proof.
  intros Hok Hn. induction files as [|f files IH] using rev_ind.
  - split; [|vm_compute; reflexivity]. repeat constructor; unfold word_ok, byte_ok; cbn; try lia; try (vm_compute; split; congruence).
  - apply Forall_app in Hok as [Hok [Hf _]%Forall_cons]. rewrite length_app in Hn. cbn [length] in Hn. destruct IH as [IH1 IH2]; [done|lia|].
    assert (Hb : Forall (fun c => 0 < c < 256) (file_name f)) by apply file_name_bytes, Hf. rewrite root_dirents_snoc. split.
    + apply Forall_app. split; [done|]. constructor; [|constructor]. split; [cbn; unfold word_ok; change (256 ^ Z.of_nat 2) with 65536; lia|]. split; [apply dirsiz_length|].
      apply dirsiz_ok. eapply Forall_impl; [exact Hb|]. unfold byte_ok. intros c Hc. cbn in Hc. lia.
    + rewrite dir_pairs_app, IH2, dir_pairs_cons. unfold live. cbn [de_inode_no]. rewrite (proj2 (Z.eqb_neq (2 + Z.of_nat (length files)) 0)) by lia. cbn [negb].
      unfold dname, dirsiz. cbn [name]. change (Z.to_nat FILE_NAME_MAX_LENGTH) with 14%nat. rewrite cstr_dirsiz by (eapply Forall_impl; [exact Hb|]; intros c Hc; cbn in Hc; lia).
      unfold root_pairs. rewrite imap_app. cbn [imap app fmap]. by rewrite Nat.add_0_r.
Qed.

Lemma dir_pairs_dead l : Forall (fun de => live de = false) l -> dir_pairs l = [].
Proof. induction 1 as [|de l H _ IH]; [done|]. by rewrite dir_pairs_cons, H. Qed.

Lemma dirents_padded v e files m :
  dir_wf sb v e -> file_data v e = root_data files ++ replicate m 0 -> Forall input_ok files -> Z.of_nat (length files) <= 198 ->
  dir_pairs (dirents v e) = root_pairs files.
Proof.
  intros Hw Hd Hok Hn. destruct (dirent_names files Hok Hn) as [H1 H2]. rewrite <- H2. rewrite (dirents_seq sb v e Hw), Hd. destruct (dir_turns_size sb v e Hw) as [_ Ht].
  pose proof (file_data_length sb v e (fw_maps _ _ _ (dw_file _ _ _ Hw))) as Hl. rewrite Hd, length_app, root_data_length, length_replicate in Hl.
  assert (Hlen : length (root_dirents files) = (2 + length files)%nat) by (unfold root_dirents; cbn [length]; by rewrite length_imap).
  replace (dir_turns e) with ((2 + length files) + (dir_turns e - (2 + length files)))%nat by lia. rewrite seq_app, fmap_app, dir_pairs_app.
  assert (E1 : entry_at (root_data files ++ replicate m 0) <$> seq 0 (2 + length files) = root_dirents files).
  { apply list_eq. intros k. rewrite list_lookup_fmap. destruct (decide (k < 2 + length files)%nat) as [Hk|Hk].
    - rewrite lookup_seq_lt by done. destruct (lookup_lt_is_Some_2 (root_dirents files) k) as [de Hde]; [lia|]. rewrite Hde. unfold root_data. change (Some (entry_at (concat (dirent_bytes <$> root_dirents files) ++ replicate m 0) k) = Some de). f_equal. by apply entry_at_dirents.
    - rewrite lookup_seq_ge by lia. symmetry. apply lookup_ge_None_2. lia. }
  set (dead := entry_at _ <$> seq _ (_ - _)). rewrite E1, (dir_pairs_dead dead), app_nil_r; [done|]. apply Forall_fmap, Forall_forall. intros k Hk%elem_of_seq. apply entry_at_zeros. rewrite root_data_length. lia.
Qed.

(** *** The last steps of [main] *)
Lemma root_mod files : Z.of_nat (2 + length files) mod 32 <> 0 -> Z.of_nat (length (root_data files)) mod BLOCK_SIZE <> 0.
Proof.
  rewrite root_data_length, Nat2Z.inj_mul. change BLOCK_SIZE with (16 * 32). rewrite Z.mul_mod_distr_l by lia. lia.
Qed.

(** The files under the rewriting of the root's inode. *)
Record closed (s s' : mkst) (files : list input) : Prop := {
  cl_base : base s';
  cl_root : exists e, disk_entry sb (gv s') 1 = Some e /\ file_wf sb (gv s') e /\ type e = INODE_DIRECTORY /\ num_links e = 1 /\ num_bytes e mod 16 = 0 /\
    (exists m, file_data (gv s') e = root_data files ++ replicate m 0) /\ (forall b, owns (gv s') e b -> nmeta <= b);
  cl_file : forall k f, files !! k = Some f -> exists e, holds (gv s') (2 + Z.of_nat k) e INODE_REGULAR (concat (reads f));
  cl_owns : forall j ej, 1 <= j < 2 + Z.of_nat (length files) -> disk_entry sb (gv s') j = Some ej ->
    file_wf sb (gv s') ej /\ exists e0, disk_entry sb (gv s) j = Some e0 /\ forall b, owns (gv s') ej b <-> owns (gv s) e0 b;
  cl_rest : forall k, 2 + Z.of_nat (length files) <= k < NINODES -> exists e, disk_entry sb (gv s') k = Some e /\ type e = INODE_INVALID;
  cl_meta : forall b, 0 <= b < 65 -> gv s' !! b = gv s !! b
}.

Lemma close_root s files :
  finv s (image_of files) -> Z.of_nat (2 + length files) mod 32 <> 0 ->
  exists e s', rinode 1 s = Ret (e, s) /\ num_bytes e = Z.of_nat (length (root_data files)) /\
    winode 1 (set_num_bytes (round_up (num_bytes e)) e) s = Ret (tt, s') /\ closed s s' files.
Proof.
  intros H Hmod. pose proof (fi_base _ _ H) as Hb. pose proof (base_fs s Hb) as Hfs. destruct (fi_num _ _ H) as [Hn Hn'].
  assert (Hli : length (image_of files) = S (length files)) by (unfold image_of; cbn [length]; by rewrite length_fmap). rewrite Hli in Hn.
  destruct (fi_file _ _ H 0 INODE_DIRECTORY (root_data files) eq_refl) as [e He]. change (1 + Z.of_nat 0) with 1 in He.
  pose proof (holds_size _ _ _ _ _ He) as Hsz. destruct (rounded_file (gv s) 1 e INODE_DIRECTORY (root_data files) Hfs He) as (Hw & Hd & Ho & Hr); [rewrite Hsz; by apply root_mod|].
  set (e' := set_num_bytes (round_up (num_bytes e)) e) in *. pose proof (mo_entry _ _ _ (fw_maps _ _ _ Hw)) as Hek.
  destruct (winode_Ret s 1 e' Hb) as (d & s' & Hdk & Ew & Hb' & Hg & Hfi & Hfb); [unfold NINODES; lia|done|].
  assert (H1 : 0 <= 1 < sb_num_inodes sb) by (rewrite sb_val; cbn; lia).
  destruct (inode_block_write sb (gv s) e' 1 e' d Hfs H1 Hdk Hek) as (Hfs' & Hu & Hm' & Hf' & Hd1 & Hdj). rewrite <- Hg in *.
  destruct (Hm' (fw_maps _ _ _ Hw)) as [_ Hbk]. destruct (Hf' Hw) as [Hw' Hdat].
  assert (Ho' : forall b, owns (gv s') e' b <-> owns (gv s) e b) by (intros b; rewrite <- Ho; unfold owns; by setoid_rewrite Hbk).
  assert (Hoth : forall j ej ty data, 0 <= j < NINODES -> j <> 1 -> holds (gv s) j ej ty data -> holds (gv s') j ej ty data /\ forall b, owns (gv s') ej b <-> owns (gv s) ej b).
  { intros j ej ty data Hj Hj1. apply (holds_winode s (gv s') 1 e' d); try done. }
  assert (Hdj' : forall j, 0 <= j < NINODES -> j <> 1 -> disk_entry sb (gv s') j = disk_entry sb (gv s) j) by (intros j Hj Hj1; apply Hdj; [rewrite sb_val; exact Hj|done]).
  exists e, s'. split; [|split; [done|split; [done|]]].
  { pose proof (ho_entry _ _ _ _ _ He) as Een. unfold disk_entry in Een. rewrite Hdk in Een. injection Een as Een. unfold rinode. pose proof (to_block_bounds 1 ltac:(lia)) as Ht.
    pose proof (bs_blk s Hb) as Hbb. rewrite nmeta_val in Hbb. rewrite IBLOCK_block, (bind_Ret _ _ _ _ _ (rsect_Ret s _ d Hdk ltac:(lia) ltac:(lia))). by rewrite Een. }
  split; [done|..].
  - exists e'. split; [done|]. split; [done|]. split; [exact (ho_type _ _ _ _ _ He)|]. split; [exact (ho_links _ _ _ _ _ He)|]. split.
    { cbn [e' set_num_bytes num_bytes]. unfold round_up. change BLOCK_SIZE with (32 * 16) at 2. rewrite Z.mul_assoc. apply Z_mod_mult. }
    split; [eexists; rewrite Hdat; exact Hd|]. intros b Hob%Ho'. by apply (ho_owns _ _ _ _ _ He).
  - intros k f Hk. pose proof (lookup_lt_Some _ _ _ Hk) as Hlt. destruct (fi_file _ _ H (S k) INODE_REGULAR (concat (reads f))) as [ek Hek'].
    { unfold image_of. cbn [lookup list_lookup]. change (((fun f => (INODE_REGULAR, concat (reads f))) <$> files) !! k = Some (INODE_REGULAR, concat (reads f))). by rewrite list_lookup_fmap, Hk. }
    replace (1 + Z.of_nat (S k)) with (2 + Z.of_nat k) in Hek' by lia. exists ek. apply (Hoth (2 + Z.of_nat k)); [lia|lia|done].
  - intros j ej Hj Hdj1. destruct (decide (j = 1)) as [->|Hne].
    + rewrite Hd1 in Hdj1. injection Hdj1 as <-. split; [done|]. exists e. split; [exact (ho_entry _ _ _ _ _ He)|done].
    + rewrite Hdj' in Hdj1 by lia. destruct (finv_lookup s _ j ej H) as (ty & data & _ & Hh); [lia|done|].
      destruct (Hoth j ej ty data) as [Hh' Hoo]; [lia|done|done|]. split; [exact (ho_wf _ _ _ _ _ Hh')|]. exists ej. done.
  - intros k Hk. destruct (fi_rest _ _ H k) as (ek & E & Ht); [lia|]. exists ek. by rewrite Hdj' by lia.
  - intros b Hbb. pose proof (to_block_bounds 1 ltac:(lia)). rewrite Hg. apply lookup_insert_ne. lia.
Qed.

Lemma closed_built s s' files :
  finv s (image_of files) -> closed s s' files -> Forall input_ok files -> Z.of_nat (length files) <= 198 -> NoDup (root_pairs files).*1 ->
  built files (gv s') (mounted sb (gv s')).
Proof.
  intros H [Hb (e & E1 & Hw & Ht & Hl & Hm & [m Hd] & Ho) Hf Hown Hr Hmeta] Hok Hn Hnd. pose proof (mounted_fs s' Hb) as Hfs.
  destruct (fi_num _ _ H) as [Hnum _]. unfold image_of in Hnum. cbn [length] in Hnum. rewrite length_fmap in Hnum.
  assert (Hen : forall k ek, 1 <= k < 2 + Z.of_nat (length files) -> disk_entry sb (mounted sb (gv s')) k = Some ek ->
    exists e0, disk_entry sb (gv s) k = Some e0 /\ forall b, owns (mounted sb (gv s')) ek b <-> owns (gv s) e0 b).
  { intros k ek Hk. rewrite mounted_entry by (unfold NINODES; lia). intros Hek. destruct (Hown k ek Hk Hek) as (Hwk & e0 & He0 & Hoo). exists e0. split; [done|].
    destruct (finv_lookup s _ k e0 H) as (ty & data & _ & Hh); [lia|done|]. destruct (mounted_file s' ek Hb Hwk) as (_ & _ & Hom).
    - intros b Hob. apply (ho_owns _ _ _ _ _ Hh). by apply Hoo.
    - intros b. by rewrite Hom. }
  split.
  - rewrite Hmeta by lia. apply H.
  - apply image_disk_wf; [done|]. intros b Hbb. rewrite Hmeta by lia. by apply (fi_log _ _ H).
  - done.
  - destruct (mounted_file s' e Hb Hw Ho) as (Hw' & Hd' & _). exists e. rewrite mounted_entry by (unfold NINODES, ROOT_INODE_NO; lia). split; [done|].
    assert (Hdw : dir_wf sb (mounted sb (gv s')) e) by done. rewrite Hd in Hd'. pose proof (dirents_padded _ _ _ _ Hdw Hd' Hok Hn) as Hp.
    split; [done|]. split; [done|]. unfold dir_unique, dir_map. by rewrite Hp.
  - intros k f Hk. pose proof (lookup_lt_Some _ _ _ Hk) as Hlt. destruct (Hf k f Hk) as [ek Hh]. destruct (mounted_file s' ek Hb (ho_wf _ _ _ _ _ Hh) (ho_owns _ _ _ _ _ Hh)) as (Hw' & Hd' & _).
    exists ek. rewrite mounted_entry by (unfold NINODES; lia). split; [exact (ho_entry _ _ _ _ _ Hh)|]. split; [done|]. split; [exact (ho_type _ _ _ _ _ Hh)|].
    split; [exact (ho_links _ _ _ _ _ Hh)|]. rewrite Hd'. exact (ho_data _ _ _ _ _ Hh).
  - intros i j ei ej Hij Hi Hj Hei Hej b Hbi Hbj. destruct (Hen i ei Hi Hei) as (ei0 & Hei0 & Hoi). destruct (Hen j ej Hj Hej) as (ej0 & Hej0 & Hoj).
    apply (fi_disj _ _ H i j ei0 ej0 Hij) with b; [lia|lia|done|done|by apply Hoi|by apply Hoj].
  - intros k Hk. rewrite mounted_entry by lia. by apply Hr.
Qed.

(** [balloc] writes the bitmap of the blocks in use. *)
Lemma balloc_Ret s : base s -> balloc (freeblock s) s = Ret (tt, set_img (fun _ => gv s) s).
Proof.
  intros H. pose proof (bs_blk s H) as Hb. rewrite nmeta_val in Hb. unfold balloc. rewrite balloc_gbits by lia.
  change SWAP_START with 800 in Hb. rewrite (proj2 (Z.ltb_lt _ _)) by (unfold BLOCK_SIZE; lia). reflexivity.
Qed.

Lemma round_up_u32 n : 0 <= n <= INODE_MAX_BYTES -> u32 (u32 (n / BLOCK_SIZE + 1) * BLOCK_SIZE) = round_up n.
Proof.
  change INODE_MAX_BYTES with 71680. intros Hn. unfold round_up, BLOCK_SIZE. pose proof (Z.div_pos n 512 ltac:(lia) ltac:(lia)). pose proof (Z.div_le_upper_bound n 512 140 ltac:(lia) ltac:(lia)).
  rewrite (u32_small (n / 512 + 1)) by lia. apply u32_small. lia.
Qed.

(** What the image needs: the names are distinct, and the blocks fit below
    the swap area. The files fit the size field, and the directory does not
    end exactly at the end of a block. *)
Record inputs_ok (files : list input) : Prop := {
  is_ok : Forall input_ok files;
  is_count : Z.of_nat (length files) <= 198;
  is_part : Z.of_nat (2 + length files) mod 32 <> 0;
  is_names : NoDup (root_pairs files).*1;
  is_fit : nmeta + cost_sum (image_of files) <= SWAP_START
}.

Section image.
Context {KA : Kalloc}.

(** C12: mkfs builds a file system that the kernel can mount and that holds
    what was copied. For files with distinct names (after the leading
    underscore and the cut to 14 bytes) whose blocks fit below the swap area,
    [main] runs to the end; [init_bcache] mounts the image with an empty log
    and no recovery work; the file system it then shows is well formed, its
    root directory maps [.], [..] and exactly the names of the files to their
    inodes, each inode is a regular file with one link and the bytes read from
    the source, no two files share a block, and the other inodes are free. *)
Theorem mkfs_image files :
  inputs_ok files ->
  exists s cs, main files start = Ret (0, s) /\ init_bcache sb (boot (img s)) = Ret (tt, cs) /\
    cache_idle sb cs (mounted sb (img s)) /\ built files (img s) (mounted sb (img s)).
Proof.
  intros [Hok Hn Hmod Hnd Hfit].
  destruct (zero_sectors 1000 0 (set_freeblock nmeta start) ltac:(lia)) as (m0 & E0 & Hm0).
  set (s1 := set_img (insert 1 (splice 0 (sb_bytes sb) zero_block)) (set_img (fun _ => m0) (set_freeblock nmeta start))).
  assert (H1 : finv s1 []).
  { apply (format_spec (fun _ => m0) start); [done|]. intros j. rewrite Hm0. cbn [img set_freeblock start]. rewrite lookup_empty. unfold FSSIZE.
    destruct (decide (Z.of_nat 0 <= j < Z.of_nat (0 + 1000))), (decide (0 <= j < 1000)); (lia || done). }
  destruct (root_links s1 H1) as (t1 & t2 & s2 & Ea & Eb & Ec & H2). destruct (copy_files_spec files s2 [] H2 Hok) as (s3 & E3 & H3); [done|done|]. cbn [app] in H3.
  destruct (close_root s3 files H3 Hmod) as (e & s4 & Er & Hsz & Ew & Hcl). pose proof (cl_base _ _ _ Hcl) as Hb4.
  assert (Hbuilt : built files (gv s4) (mounted sb (gv s4))) by by apply (closed_built s3).
  destruct (mount_idle sb (gv s4) (bu_disk _ _ _ Hbuilt)) as (cs & Em & Hidle).
  exists (set_img (fun _ => gv s4) s4), cs. split; [|done].
  unfold main. rewrite (bind_Ret (modify (set_freeblock nmeta)) _ start tt _ eq_refl). change (Z.to_nat FSSIZE) with 1000%nat. rewrite (bind_Ret _ _ _ _ _ E0).
  rewrite (bind_Ret (wsect 1 _) _ _ tt s1 eq_refl), (bind_Ret _ _ _ _ _ Ea), (bind_Ret (assert (1 =? ROOT_INODE_NO)) _ t1 tt t1 eq_refl),
    (bind_Ret _ _ _ _ _ Eb), (bind_Ret _ _ _ _ _ Ec), (bind_Ret _ _ _ _ _ E3), (bind_Ret _ _ _ _ _ Er). cbv zeta.
  pose proof (root_data_length files) as Hlen. rewrite (xint_id (num_bytes e)) by lia. rewrite round_up_u32 by (change INODE_MAX_BYTES with 71680; lia).
  rewrite xint_id by (unfold round_up, BLOCK_SIZE; Z.div_mod_to_equations; lia). rewrite (bind_Ret _ _ _ _ _ Ew), (bind_Ret (gets freeblock) _ s4 _ s4 eq_refl), (bind_Ret _ _ _ _ _ (balloc_Ret s4 Hb4)). done.
Qed.
End image.

(** ** An example: [mkfs fs.img bin/_sh README] *)
Definition ex_files : list input :=
  [mkInput [98; 105; 110; 47; 95; 115; 104] [replicate 512 7; [1; 2; 3]]; mkInput [82; 69; 65; 68; 77; 69] [[104; 105]]].

Lemma mkfs_image_witness :
  exists s cs, main ex_files start = Ret (0, s) /\ @init_bcache sb ex_kalloc (boot (img s)) = Ret (tt, cs) /\
    cache_idle sb cs (mounted sb (img s)) /\ built ex_files (img s) (mounted sb (img s)).
Proof.
  apply (@mkfs_image ex_kalloc ex_files). split.
  - repeat constructor; cbn; try congruence; try lia; apply (bool_decide_unpack _); vm_compute; reflexivity.
  - cbn. lia.
  - vm_compute. congruence.
  - apply (bool_decide_unpack _). vm_compute. reflexivity.
  - vm_compute. congruence.
Defined.
