(* ===== verification/HashMap.v ===== *)
(** * The intrusive hash map (common/hashmap.c)

    Nodes are addresses; [next] holds their links. The functions [hash] and
    [hashcmp] the callers pass are parameters. *)
From stdpp Require Import base gmap sets list.
From Stdlib Require Import ZArith Lia.
From S2P Require Import Prelude.

Definition HASHSIZE := 128.

Record hash_map := mkHm { next : gmap Z Z; bullet : list Z }.

(** ** Chains *)
Fixpoint chain (nx : gmap Z Z) (p : Z) (l : list Z) : Prop :=
  match l with
  | [] => p = 0
  | a :: l' => p = a /\ a <> 0 /\ exists q, nx !! a = Some q /\ chain nx q l'
  end.

(** The last node of [l], or [pre]. *)
Fixpoint lst_pre (pre : Z) (l : list Z) : Z := match l with [] => pre | a :: l' => lst_pre a l' end.

(** A segment from [p] to the node [q]. *)
Fixpoint seg (nx : gmap Z Z) (p : Z) (l : list Z) (q : Z) : Prop :=
  match l with
  | [] => p = q
  | a :: l' => p = a /\ a <> 0 /\ exists r, nx !! a = Some r /\ seg nx r l' q
  end.

Lemma chain_app nx p l1 l2 : chain nx p (l1 ++ l2) <-> exists q, seg nx p l1 q /\ chain nx q l2.
Proof.
  revert p. induction l1 as [|a l1 IH]; intros p; simpl.
  - split; [eauto|by intros (q & -> & H)].
  - split.
    + intros (-> & Ha & r & Hr & (q & H1 & H2)%IH). exists q. split; [|done]. split; [done|]. split; [done|]. by exists r.
    + intros (q & (-> & Ha & r & Hr & H1) & H2). split; [done|]. split; [done|]. exists r. split; [done|]. apply IH. by exists q.
Qed.

Lemma chain_ext nx nx' p l : (forall a, a ∈ l -> nx' !! a = nx !! a) -> chain nx p l -> chain nx' p l.
Proof.
  revert p. induction l as [|a l IH]; intros p Hx; simpl; [done|]. intros (-> & Ha & q & Hq & H).
  split; [done|]. split; [done|]. exists q. rewrite Hx by set_solver. split; [done|]. apply IH; [set_solver|done].
Qed.

Lemma seg_ext nx nx' p l q : (forall a, a ∈ l -> nx' !! a = nx !! a) -> seg nx p l q -> seg nx' p l q.
Proof.
  revert p. induction l as [|a l IH]; intros p Hx; simpl; [done|]. intros (-> & Ha & r & Hr & H).
  split; [done|]. split; [done|]. exists r. rewrite Hx by set_solver. split; [done|]. apply IH; [set_solver|done].
Qed.

Lemma chain_head nx p l : chain nx p l -> p = 0 <-> l = [].
Proof. destruct l as [|a l]; simpl; [naive_solver|]. intros (-> & Ha & _). naive_solver. Qed.

(** ** The code *)
Section code.
Context (hash : Z -> Z).

Definition set_next (f : gmap Z Z -> gmap Z Z) (m : hash_map) : hash_map := mkHm (f (next m)) (bullet m).

Definition get_next (p : Z) : M hash_map Z :=
  fun m => match next m !! p with Some q => Ret (q, m) | None => Stop Fault end.
Definition put_next (p q : Z) : M hash_map unit :=
  fun m => match next m !! p with Some _ => Ret (tt, set_next (insert p q) m) | None => Stop Fault end.
Definition get_bullet (b : Z) : M hash_map Z :=
  fun m => match (if 0 <=? b then bullet m !! Z.to_nat b else None) with Some p => Ret (p, m) | None => Stop Fault end.
Definition put_bullet (b p : Z) : M hash_map unit :=
  fun m => if (0 <=? b) && (b <? Z.of_nat (length (bullet m)))
           then Ret (tt, mkHm (next m) (<[Z.to_nat b := p]> (bullet m))) else Stop Fault.

Definition _hashmap_init : M hash_map unit :=
  for_upto (Z.to_nat HASHSIZE) 0 (fun i => put_bullet i 0 ;;; ret (None : option unit)) ;;; ret tt.

(** [while (t->next != NULL)] of [_hashmap_insert]; [inr None] is the return
    of -1. *)
Definition insert_turn (node t : Z) : M hash_map (Z + option Z) :=
  n <- get_next t ;;
  if n =? 0 then ret (inr (Some t))
  else if t =? node then ret (inr None) else ret (inl n).

Definition _hashmap_insert (fuel : nat) (node : Z) : M hash_map Z :=
  put_next node 0 ;;;
  let b := hash node in
  t <- get_bullet b ;;
  if t =? 0 then put_bullet b node ;;; ret 0
  else
    r <- while fuel (insert_turn node) t ;;
    match r with
    | None => ret (-1)
    | Some t => put_next t node ;;; ret 0
    end.

Definition erase_turn (node b : Z) (st : Z * Z) : M hash_map (Z * Z + unit) :=
  let '(pre, cur) := st in
  if cur =? 0 then ret (inr tt)
  else if cur =? node then
    n <- get_next cur ;;
    (if pre =? 0 then put_bullet b n else put_next pre n) ;;;
    ret (inr tt)
  else n <- get_next cur ;; ret (inl (cur, n)).

Definition _hashmap_erase (fuel : nat) (node : Z) : M hash_map unit :=
  let b := hash node in
  cur <- get_bullet b ;;
  while fuel (erase_turn node b) (0, cur).

Definition lookup_turn (hashcmp : Z -> Z -> bool) (node cur : Z) : M hash_map (Z + Z) :=
  if cur =? 0 then ret (inr 0)
  else if hashcmp cur node then ret (inr cur)
  else n <- get_next cur ;; ret (inl n).

Definition _hashmap_lookup (hashcmp : Z -> Z -> bool) (fuel : nat) (node : Z) : M hash_map Z :=
  let b := hash node in
  cur <- get_bullet b ;;
  while fuel (lookup_turn hashcmp node) cur.

(** The map: one chain per bucket. *)
Record hm_rep (m : hash_map) (bs : list (list Z)) : Prop := {
  hr_size : length bs = Z.to_nat HASHSIZE;
  hr_bullet : length (bullet m) = Z.to_nat HASHSIZE;
  hr_chain : forall i p l, bullet m !! i = Some p -> bs !! i = Some l -> chain (next m) p l;
  hr_hash : forall i l a, bs !! i = Some l -> a ∈ l -> hash a = Z.of_nat i;
  hr_nodup : forall i l, bs !! i = Some l -> NoDup l
}.

Definition bucket (bs : list (list Z)) (b : Z) : list Z := default [] (bs !! Z.to_nat b).
Definition members (bs : list (list Z)) : gset Z := list_to_set (mjoin bs).

Context (Hhash : forall a, 0 <= hash a < HASHSIZE).

Lemma bucket_lookup m bs b : hm_rep m bs -> 0 <= b < HASHSIZE -> bs !! Z.to_nat b = Some (bucket bs b).
Proof.
  intros H Hb. unfold bucket. destruct (lookup_lt_is_Some_2 bs (Z.to_nat b)) as [l ->]; [|done].
  rewrite (hr_size _ _ H). lia.
Qed.

Lemma elem_of_members m bs a : hm_rep m bs -> a ∈ members bs <-> a ∈ bucket bs (hash a).
Proof using Hhash.
  intros H. unfold members. rewrite elem_of_list_to_set, list_elem_of_join. split.
  - intros (l & Ha & Hl). apply list_elem_of_lookup in Hl as [i Hi].
    pose proof (hr_hash _ _ H i l a Hi Ha) as E. unfold bucket. rewrite E, Nat2Z.id, Hi. done.
  - intros Ha. exists (bucket bs (hash a)). split; [done|]. eapply list_elem_of_lookup_2. by apply (bucket_lookup m).
Qed.

Lemma get_bullet_rep m bs b :
  hm_rep m bs -> 0 <= b < HASHSIZE -> exists p, get_bullet b m = Ret (p, m) /\ bullet m !! Z.to_nat b = Some p /\ chain (next m) p (bucket bs b).
Proof.
  intros H Hb. destruct (lookup_lt_is_Some_2 (bullet m) (Z.to_nat b)) as [p Hp]; [rewrite (hr_bullet _ _ H); lia|].
  exists p. unfold get_bullet. rewrite (proj2 (Z.leb_le _ _)), Hp by lia. split; [done|]. split; [done|].
  by apply (hr_chain _ _ H (Z.to_nat b)), (bucket_lookup m).
Qed.

Lemma hm_next_Ret m p q : next m !! p = Some q -> get_next p m = Ret (q, m).
Proof. intros H. unfold get_next. by rewrite H. Qed.

Lemma hm_put_next_Ret m p q q' : next m !! p = Some q' -> put_next p q m = Ret (tt, set_next (insert p q) m).
Proof. intros H. unfold put_next. by rewrite H. Qed.

Lemma put_bullet_rep m bs b p :
  hm_rep m bs -> 0 <= b < HASHSIZE -> put_bullet b p m = Ret (tt, mkHm (next m) (<[Z.to_nat b := p]> (bullet m))).
Proof.
  intros H Hb. unfold put_bullet. rewrite (proj2 (Z.leb_le _ _)), (proj2 (Z.ltb_lt _ _)); [done| |lia].
  rewrite (hr_bullet _ _ H). lia.
Qed.

(** Changing one chain: the others are not concerned when their nodes keep
    their links. *)
Lemma hm_rep_change m bs nx' bl' b l' :
  hm_rep m bs -> 0 <= b < HASHSIZE -> length bl' = Z.to_nat HASHSIZE ->
  (forall i, i <> Z.to_nat b -> bl' !! i = bullet m !! i) ->
  (forall a, hash a <> b -> nx' !! a = next m !! a) ->
  (forall p, bl' !! Z.to_nat b = Some p -> chain nx' p l') ->
  (forall a, a ∈ l' -> hash a = b) -> NoDup l' ->
  hm_rep (mkHm nx' bl') (<[Z.to_nat b := l']> bs).
Proof.
  intros H Hb Hl Hbl Hnx Hc Hh Hn. split; cbn [next bullet].
  - by rewrite length_insert, (hr_size _ _ H).
  - done.
  - intros i p l Hp [(<- & <- & _)|(Hi & Hbs)]%list_lookup_insert_Some; [by apply Hc|].
    rewrite Hbl in Hp by done. eapply chain_ext; [|by eapply (hr_chain _ _ H)].
    intros a Ha. apply Hnx. rewrite (hr_hash _ _ H i l a Hbs Ha). lia.
  - intros i l a [(<- & <- & _)|(Hi & Hbs)]%list_lookup_insert_Some Ha; [rewrite (Hh a Ha); lia|by eapply (hr_hash _ _ H)].
  - intros i l [(<- & <- & _)|(Hi & Hbs)]%list_lookup_insert_Some; [done|by eapply (hr_nodup _ _ H)].
Qed.

Lemma members_change m m' bs b l' a :
  hm_rep m bs -> 0 <= b < HASHSIZE -> hm_rep m' (<[Z.to_nat b := l']> bs) ->
  a ∈ members (<[Z.to_nat b := l']> bs) <-> if decide (hash a = b) then a ∈ l' else a ∈ members bs.
Proof using Hhash.
  intros H Hb H'. rewrite (elem_of_members m' _ a H'). unfold bucket. case_decide as E.
  - rewrite E, list_lookup_insert_eq; [done|]. rewrite (hr_size _ _ H). lia.
  - pose proof (Hhash a). rewrite list_lookup_insert_ne by lia. by rewrite (elem_of_members m _ a H).
Qed.

(** ** Insertion *)
Lemma insert_walk m node t l0 z fuel :
  chain (next m) t (l0 ++ [z]) -> node ∉ l0 -> (length l0 < fuel)%nat ->
  while fuel (insert_turn node) t m = Ret (Some z, m).
Proof.
  revert t fuel. induction l0 as [|a l0 IH]; intros t [|fuel] Hc Hn Hf; simpl in Hf; try lia;
    rewrite while_S; simpl in Hc; destruct Hc as (-> & Ha & q & Hq & Hc); unfold insert_turn at 1;
    rewrite !bind_assoc, (bind_Ret _ _ _ _ _ (hm_next_Ret _ _ _ Hq)).
  - rewrite Hc. done.
  - assert (q <> 0) by (intros ->; destruct l0; by destruct Hc as (? & ? & _)).
    assert (a <> node) by (intros ->; apply Hn; by left).
    rewrite (proj2 (Z.eqb_neq q 0)), (proj2 (Z.eqb_neq a node)) by done.
    erewrite bind_Ret by reflexivity. apply IH; [done|intros Hi; apply Hn; by right|lia].
Qed.

Lemma insert_spec m bs node fuel :
  hm_rep m bs -> node <> 0 -> is_Some (next m !! node) -> node ∉ members bs -> (size (members bs) < fuel)%nat ->
  exists m', _hashmap_insert fuel node m = Ret (0, m') /\ dom (next m') = dom (next m) /\
    exists bs', hm_rep m' bs' /\ members bs' = {[node]} ∪ members bs.
Proof using Hhash.
  intros H Hn [q0 Hq0] Hm Hfuel. pose proof (Hhash node) as Hb. set (b := hash node) in *.
  destruct (get_bullet_rep m bs b H Hb) as (p & Ep & Hp & Hc).
  set (m1 := set_next (insert node 0) m).
  assert (Hnb : node ∉ bucket bs b) by (unfold b; by rewrite <- (elem_of_members m bs node H)).
  assert (Hc1 : chain (next m1) p (bucket bs b)).
  { eapply chain_ext; [|done]. intros a Ha. simpl. rewrite lookup_insert_ne; [done|]. by intros ->. }
  assert (Hall : forall a, a ∈ bucket bs b -> hash a = b).
  { intros a Ha. rewrite (hr_hash _ _ H (Z.to_nat b) (bucket bs b) a); [lia|by apply (bucket_lookup m)|done]. }
  assert (Hnd : NoDup (bucket bs b)) by (eapply (hr_nodup _ _ H); by apply (bucket_lookup m)).
  assert (Hsz : (length (bucket bs b) <= size (members bs))%nat).
  { rewrite <- (size_list_to_set (C := gset Z) (bucket bs b)) by done. apply subseteq_size. intros a Ha%elem_of_list_to_set.
    rewrite (elem_of_members m bs a H). by rewrite (Hall a Ha). }
  assert (Hfin : forall nx' bl', length bl' = Z.to_nat HASHSIZE -> (forall i, i <> Z.to_nat b -> bl' !! i = bullet m !! i) ->
    (forall a, hash a <> b -> nx' !! a = next m !! a) ->
    (forall p, bl' !! Z.to_nat b = Some p -> chain nx' p (bucket bs b ++ [node])) ->
    exists bs', hm_rep (mkHm nx' bl') bs' /\ members bs' = {[node]} ∪ members bs).
  { intros nx' bl' H1 H2 H3 H4.
    assert (H' : hm_rep (mkHm nx' bl') (<[Z.to_nat b := bucket bs b ++ [node]]> bs)).
    { apply (hm_rep_change m); try done.
      - intros a [Ha| ->%list_elem_of_singleton]%elem_of_app; [by apply Hall|done].
      - apply NoDup_app. split; [done|]. split; [|apply NoDup_singleton]. intros a Ha ->%list_elem_of_singleton. done. }
    eexists. split; [exact H'|]. apply set_eq. intros a. rewrite (members_change m _ bs b _ a H Hb H').
    rewrite elem_of_union, elem_of_singleton. case_decide as Ea.
    - rewrite elem_of_app, list_elem_of_singleton, (elem_of_members m bs a H), Ea. tauto.
    - split; [by right|]. intros [->|?]; [done|done]. }
  unfold _hashmap_insert. rewrite (bind_Ret _ _ _ _ _ (hm_put_next_Ret _ _ _ _ Hq0)). fold m1. cbv zeta. fold b.
  assert (Ep1 : get_bullet b m1 = Ret (p, m1)).
  { unfold get_bullet in *. simpl in *. rewrite (proj2 (Z.leb_le 0 b)), Hp by lia. done. }
  rewrite (bind_Ret _ _ _ _ _ Ep1). destruct (Z.eqb_spec p 0) as [->|Hp0].
  - pose proof (proj1 (chain_head _ _ _ Hc) eq_refl) as E0.
    assert (Eb : put_bullet b node m1 = Ret (tt, mkHm (next m1) (<[Z.to_nat b := node]> (bullet m)))).
    { unfold put_bullet. simpl. rewrite (proj2 (Z.leb_le 0 b)), (proj2 (Z.ltb_lt b _)); [done|rewrite (hr_bullet _ _ H); lia|lia]. }
    rewrite (bind_Ret _ _ _ _ _ Eb). eexists. split; [done|]. simpl. split.
    { rewrite dom_insert_L. apply elem_of_dom_2 in Hq0. set_solver. }
    apply Hfin.
    + by rewrite length_insert, (hr_bullet _ _ H).
    + intros i Hi. by rewrite list_lookup_insert_ne.
    + intros a Ha. rewrite lookup_insert_ne; [done|]. by intros <-.
    + rewrite list_lookup_insert_eq by (rewrite (hr_bullet _ _ H); lia). intros p' [= <-]. rewrite E0. simpl.
      split; [done|]. split; [done|]. exists 0. by rewrite lookup_insert_eq.
  - destruct (bucket bs b) as [|x l] eqn:Eb using rev_ind; [by destruct Hp0; apply (chain_head _ _ _ Hc)|]. clear IHl.
    rewrite length_app in Hsz. simpl in Hsz.
    rewrite (bind_Ret _ _ _ _ _ (insert_walk m1 node p l x fuel Hc1 ltac:(set_solver) ltac:(lia))).
    destruct (proj1 (chain_app _ _ _ _) Hc1) as (q & Hseg & -> & Hx0 & r & Hr & Hr0). simpl in Hr0. subst r.
    rewrite (bind_Ret _ _ _ _ _ (hm_put_next_Ret _ _ _ _ Hr)). eexists. split; [done|]. simpl. split.
    { apply elem_of_dom_2 in Hq0. apply elem_of_dom_2 in Hr. simpl in Hr. rewrite !dom_insert_L in *. set_solver. }
    apply Hfin.
    + apply (hr_bullet _ _ H).
    + done.
    + intros a Ha. rewrite lookup_insert_ne by (intros <-; apply Ha, Hall; set_solver).
      unfold m1. simpl. by rewrite lookup_insert_ne by (by intros <-).
    + simpl. rewrite Hp. intros p' [= <-]. apply NoDup_app in Hnd as (_ & Hnd & _). rewrite <- app_assoc. apply chain_app. exists x. split.
      * eapply seg_ext; [|exact Hseg]. intros a Ha. simpl. rewrite lookup_insert_ne; [done|]. intros <-. apply (Hnd x Ha). by left.
      * simpl. split; [done|]. split; [done|]. exists node. rewrite lookup_insert_eq. split; [done|]. split; [done|].
        split; [done|]. exists 0. unfold m1. simpl. rewrite lookup_insert_ne by set_solver. by rewrite lookup_insert_eq.
Qed.

(** ** Lookup *)
Definition first_equal (hashcmp : Z -> Z -> bool) (node : Z) (l : list Z) : Z := default 0 (head (filter (fun p => hashcmp p node = true) l)).

Lemma lookup_walk hashcmp m node t l fuel :
  chain (next m) t l -> (length l < fuel)%nat -> while fuel (lookup_turn hashcmp node) t m = Ret (first_equal hashcmp node l, m).
Proof.
  revert t fuel. induction l as [|a l IH]; intros t [|fuel] Hc Hf; simpl in Hf; try lia; rewrite while_S; simpl in Hc; unfold lookup_turn at 1.
  - rewrite Hc. done.
  - destruct Hc as (-> & Ha & q & Hq & Hc). rewrite (proj2 (Z.eqb_neq a 0)) by done. unfold first_equal.
    destruct (hashcmp a node) eqn:E.
    + rewrite filter_cons_True by done. done.
    + rewrite filter_cons_False by congruence. rewrite bind_assoc, (bind_Ret _ _ _ _ _ (hm_next_Ret _ _ _ Hq)).
      erewrite bind_Ret by reflexivity. apply IH; [done|lia].
Qed.

Lemma first_equal_spec hashcmp node l :
  (first_equal hashcmp node l <> 0 -> first_equal hashcmp node l ∈ l /\ hashcmp (first_equal hashcmp node l) node = true) /\
  (first_equal hashcmp node l = 0 -> 0 ∉ l -> forall a, a ∈ l -> hashcmp a node = false).
Proof.
  unfold first_equal. destruct (filter _ l) as [|x xs] eqn:E; simpl.
  - split; [done|]. intros _ _ a Ha. apply not_true_iff_false. intros Ht. apply (not_elem_of_nil a). rewrite <- E.
    by apply list_elem_of_filter.
  - assert (Hx : x ∈ filter (fun p => hashcmp p node = true) l) by (rewrite E; by left).
    apply list_elem_of_filter in Hx as [Ht Hx]. split; [done|]. by intros ->.
Qed.

(** ** Erasing *)
Lemma erase_walk m node b pre t l1 l2 fuel :
  chain (next m) t (l1 ++ node :: l2) -> node ∉ l1 -> (length l1 < fuel)%nat ->
  exists q, next m !! node = Some q /\ chain (next m) q l2 /\
    while fuel (erase_turn node b) (pre, t) m =
      ((if lst_pre pre l1 =? 0 then put_bullet b q else put_next (lst_pre pre l1) q) ;;; ret tt) m.
Proof.
  revert pre t fuel. induction l1 as [|a l1 IH]; intros pre t [|fuel] Hc Hn Hf; simpl in Hf; try lia;
    rewrite while_S; simpl in Hc; destruct Hc as (-> & Ha & q & Hq & Hc); unfold erase_turn at 1;
    rewrite (proj2 (Z.eqb_neq _ 0)) by done.
  - exists q. split; [done|]. split; [done|]. rewrite Z.eqb_refl, !bind_assoc, (bind_Ret _ _ _ _ _ (hm_next_Ret _ _ _ Hq)).
    rewrite bind_assoc. done.
  - rewrite (proj2 (Z.eqb_neq a node)) by set_solver. rewrite bind_assoc, (bind_Ret _ _ _ _ _ (hm_next_Ret _ _ _ Hq)).
    erewrite bind_Ret by reflexivity. simpl. apply IH; [done|set_solver|lia].
Qed.

Lemma erase_walk_absent m node b pre t l fuel :
  chain (next m) t l -> node ∉ l -> (length l < fuel)%nat -> while fuel (erase_turn node b) (pre, t) m = Ret (tt, m).
Proof.
  revert pre t fuel. induction l as [|a l IH]; intros pre t [|fuel] Hc Hn Hf; simpl in Hf; try lia;
    rewrite while_S; simpl in Hc; unfold erase_turn at 1.
  - by rewrite Hc.
  - destruct Hc as (-> & Ha & q & Hq & Hc). rewrite (proj2 (Z.eqb_neq _ 0)) by done.
    rewrite (proj2 (Z.eqb_neq a node)) by set_solver. rewrite bind_assoc, (bind_Ret _ _ _ _ _ (hm_next_Ret _ _ _ Hq)).
    erewrite bind_Ret by reflexivity. apply IH; [done|set_solver|lia].
Qed.

Lemma bucket_size m bs b : hm_rep m bs -> 0 <= b < HASHSIZE -> (length (bucket bs b) <= size (members bs))%nat.
Proof using Hhash.
  intros H Hb. pose proof (bucket_lookup m bs b H Hb) as Hl.
  rewrite <- (size_list_to_set (C := gset Z) (bucket bs b)) by (by eapply (hr_nodup _ _ H)).
  apply subseteq_size. intros a Ha%elem_of_list_to_set. rewrite (elem_of_members m bs a H).
  rewrite (hr_hash _ _ H _ _ a Hl Ha), Z2Nat.id by lia. done.
Qed.

Lemma erase_spec m bs node fuel :
  hm_rep m bs -> (size (members bs) < fuel)%nat ->
  exists m', _hashmap_erase fuel node m = Ret (tt, m') /\ dom (next m') = dom (next m) /\
    exists bs', hm_rep m' bs' /\ members bs' = members bs ∖ {[node]}.
Proof using Hhash.
  intros H Hfuel. pose proof (Hhash node) as Hb.
  destruct (get_bullet_rep m bs (hash node) H Hb) as (p & Ep & Hp & Hc).
  pose proof (bucket_size m bs (hash node) H Hb) as Hsz. pose proof (bucket_lookup m bs (hash node) H Hb) as Hbl.
  unfold _hashmap_erase. cbv zeta. rewrite (bind_Ret _ _ _ _ _ Ep).
  destruct (decide (node ∈ bucket bs (hash node))) as [Hin|Hout].
  - pose proof (hr_nodup _ _ H _ _ Hbl) as Hnd. pose proof (hr_hash _ _ H _ _ node Hbl Hin) as _.
    assert (Hall : forall a, a ∈ bucket bs (hash node) -> hash a = hash node).
    { intros a Ha. rewrite (hr_hash _ _ H _ _ a Hbl Ha). lia. }
    apply list_elem_of_split in Hin as (l1 & l2 & E). rewrite E in *. rewrite length_app in Hsz. simpl in Hsz.
    pose proof Hnd as (Hn1 & Hn2 & [Hn3 Hn4]%NoDup_cons)%NoDup_app.
    assert (Hni : node ∉ l1) by (intros Hi; apply (Hn2 _ Hi); by left).
    destruct (erase_walk m node (hash node) 0 p l1 l2 fuel Hc Hni ltac:(lia)) as (q & Hq & Hcq & ->).
    assert (Hfin : forall nx' bl', length bl' = Z.to_nat HASHSIZE -> (forall i, i <> Z.to_nat (hash node) -> bl' !! i = bullet m !! i) ->
      (forall a, hash a <> hash node -> nx' !! a = next m !! a) ->
      (forall p, bl' !! Z.to_nat (hash node) = Some p -> chain nx' p (l1 ++ l2)) ->
      exists bs', hm_rep (mkHm nx' bl') bs' /\ members bs' = members bs ∖ {[node]}).
    { intros nx' bl' H1 H2 H3 H4.
      assert (H' : hm_rep (mkHm nx' bl') (<[Z.to_nat (hash node) := l1 ++ l2]> bs)).
      { apply (hm_rep_change m); try done.
        - intros a Ha. apply Hall. set_solver.
        - apply NoDup_app. split; [done|]. split; [|done]. intros x Hx Hx2. apply (Hn2 x Hx). by right. }
      eexists. split; [exact H'|]. apply set_eq. intros a. rewrite (members_change m _ bs (hash node) _ a H Hb H').
      rewrite elem_of_difference, elem_of_singleton. case_decide as Ea.
      - rewrite (elem_of_members m bs a H), Ea, E. split.
        + intros Ha. split; [set_solver|]. intros ->. apply elem_of_app in Ha as [?|?]; done.
        + intros [Ha Hne]. set_solver.
      - split; [|tauto]. intros Ha. split; [done|]. by intros ->. }
    destruct l1 as [|a l1] using rev_ind; [|clear IHl1].
    + simpl in Hc. destruct Hc as (-> & Hn0 & _). cbn [lst_pre]. rewrite Z.eqb_refl.
      rewrite (bind_Ret _ _ _ _ _ (put_bullet_rep m bs (hash node) q H Hb)). eexists. split; [done|]. split; [done|].
      apply Hfin.
      * by rewrite length_insert, (hr_bullet _ _ H).
      * intros i Hi. by rewrite list_lookup_insert_ne.
      * done.
      * rewrite list_lookup_insert_eq by (rewrite (hr_bullet _ _ H); lia). by intros p' [= <-].
    + assert (El : forall pre, lst_pre pre (l1 ++ [a]) = a) by (clear; induction l1 as [|x l1 IH]; intros pre; simpl; [done|apply IH]).
      rewrite El. rewrite <- app_assoc in Hc. destruct (proj1 (chain_app _ _ _ _) Hc) as (r & Hseg & -> & Ha0 & q' & Hq' & -> & _).
      rewrite (proj2 (Z.eqb_neq a 0)) by done. rewrite (bind_Ret _ _ _ _ _ (hm_put_next_Ret _ _ q _ Hq')).
      eexists. split; [done|]. split; [simpl; rewrite dom_insert_L; apply elem_of_dom_2 in Hq'; set_solver|].
      assert (Hal : a ∉ l1 /\ a ∉ l2).
      { split; [|intros Hx; apply (Hn2 a); set_solver]. apply NoDup_app in Hn1 as (_ & Hn1 & _). intros Hx. apply (Hn1 a Hx). by left. }
      apply Hfin.
      * apply (hr_bullet _ _ H).
      * done.
      * intros x Hx. rewrite lookup_insert_ne; [done|]. intros <-. apply Hx, Hall. set_solver.
      * rewrite Hp. intros p' [= <-]. rewrite <- app_assoc. apply chain_app. exists a. split.
        -- eapply seg_ext; [|exact Hseg]. intros x Hx. rewrite lookup_insert_ne; [done|]. intros <-. tauto.
        -- simpl. split; [done|]. split; [done|]. exists q. rewrite lookup_insert_eq. split; [done|].
           eapply chain_ext; [|exact Hcq]. intros x Hx. rewrite lookup_insert_ne; [done|]. intros <-. tauto.
  - rewrite (erase_walk_absent m node (hash node) 0 p _ fuel Hc Hout) by lia.
    exists m. split; [done|]. split; [done|]. exists bs. split; [done|].
    assert (node ∉ members bs) by by rewrite (elem_of_members m bs node H). set_solver.
Qed.

Lemma lookup_spec hashcmp m bs node fuel :
  hm_rep m bs -> (size (members bs) < fuel)%nat ->
  exists r, _hashmap_lookup hashcmp fuel node m = Ret (r, m) /\
    (r <> 0 -> r ∈ members bs /\ hash r = hash node /\ hashcmp r node = true) /\
    (r = 0 -> forall a, a ∈ members bs -> hash a = hash node -> hashcmp a node = false).
Proof using Hhash.
  intros H Hfuel. pose proof (Hhash node) as Hb.
  destruct (get_bullet_rep m bs (hash node) H Hb) as (p & Ep & Hp & Hc).
  pose proof (bucket_size m bs (hash node) H Hb) as Hsz. pose proof (bucket_lookup m bs (hash node) H Hb) as Hbl.
  exists (first_equal hashcmp node (bucket bs (hash node))).
  destruct (first_equal_spec hashcmp node (bucket bs (hash node))) as [Hs1 Hs2]. split; [|split].
  - unfold _hashmap_lookup. cbv zeta. rewrite (bind_Ret _ _ _ _ _ Ep). apply lookup_walk; [done|lia].
  - intros Hne. destruct (Hs1 Hne) as [Hin Ht]. pose proof (hr_hash _ _ H _ _ _ Hbl Hin) as Eh.
    rewrite Z2Nat.id in Eh by lia. split; [|done]. rewrite (elem_of_members m bs _ H). by rewrite Eh.
  - intros E0 a Ha Eh. rewrite (elem_of_members m bs a H), Eh in Ha. apply Hs2; [done| |done].
    intros Hz. clear -Hc Hz. revert p Hc Hz. induction (bucket bs (hash node)) as [|x l IH]; intros p Hc Hz; [by apply elem_of_nil in Hz|].
    destruct Hc as (_ & Hx & q & _ & Hc). apply elem_of_cons in Hz as [<-|Hz]; [done|]. by eapply IH.
Qed.

(** ** Sequences of calls *)
Inductive hop := HInsert (node : Z) | HErase (node : Z) | HLookup (hashcmp : Z -> Z -> bool) (node : Z).

Definition hop_run (fuel : nat) (op : hop) : M hash_map Z :=
  match op with
  | HInsert node => _hashmap_insert fuel node
  | HErase node => _hashmap_erase fuel node ;;; ret 0
  | HLookup cmp node => _hashmap_lookup cmp fuel node
  end.

(** What a call promises about the set of members before and after it. *)
Definition hop_spec (op : hop) (X : gset Z) (r : Z) (X' : gset Z) : Prop :=
  match op with
  | HInsert node => r = 0 /\ X' = {[node]} ∪ X
  | HErase node => r = 0 /\ X' = X ∖ {[node]}
  | HLookup cmp node => X' = X /\ (r <> 0 -> r ∈ X /\ hash r = hash node /\ cmp r node = true) /\
      (r = 0 -> forall a, a ∈ X -> hash a = hash node -> cmp a node = false)
  end.

Fixpoint hm_run (fuel : nat) (ops : list hop) : M hash_map (list Z) :=
  match ops with [] => ret [] | op :: ops' => r <- hop_run fuel op ;; rs <- hm_run fuel ops' ;; ret (r :: rs) end.

Inductive hm_trace : list hop -> gset Z -> list Z -> gset Z -> Prop :=
| trace_nil X : hm_trace [] X [] X
| trace_cons op ops X r X1 rs X2 :
    hop_spec op X r X1 -> hm_trace ops X1 rs X2 -> hm_trace (op :: ops) X (r :: rs) X2.

(** Only allocated nodes ([D]) that are not in the map are inserted. *)
Fixpoint hops_ok (D X : gset Z) (ops : list hop) : Prop :=
  match ops with
  | [] => True
  | HInsert node :: ops' => node <> 0 /\ node ∈ D /\ node ∉ X /\ hops_ok D ({[node]} ∪ X) ops'
  | HErase node :: ops' => hops_ok D (X ∖ {[node]}) ops'
  | HLookup _ _ :: ops' => hops_ok D X ops'
  end.

Lemma hm_run_spec fuel ops m bs :
  hm_rep m bs -> (size (dom (next m)) < fuel)%nat -> hops_ok (dom (next m)) (members bs) ops ->
  exists rs m' bs', hm_run fuel ops m = Ret (rs, m') /\ hm_rep m' bs' /\ hm_trace ops (members bs) rs (members bs').
Proof using Hhash.
  revert m bs. induction ops as [|op ops IH]; intros m bs H Hf Hok; [exists [], m, bs; split; [done|]; split; [done|constructor]|].
  assert (Hsub : members bs ⊆ dom (next m)).
  { intros a Ha. rewrite (elem_of_members m bs a H) in Ha.
    destruct (get_bullet_rep m bs (hash a) H (Hhash a)) as (p & _ & _ & Hc). clear -Hc Ha.
    revert p Hc. induction (bucket bs (hash a)) as [|x l IH]; intros p Hc; [by apply elem_of_nil in Ha|].
    destruct Hc as (_ & Hx & q & Hq & Hc). apply elem_of_cons in Ha as [->|Ha]; [by eapply elem_of_dom_2|by eapply IH]. }
  assert (Hsz : (size (members bs) < fuel)%nat) by (apply subseteq_size in Hsub; lia).
  assert (Hstep : exists r m1 bs1, hop_run fuel op m = Ret (r, m1) /\ dom (next m1) = dom (next m) /\ hm_rep m1 bs1 /\
    hop_spec op (members bs) r (members bs1) /\ hops_ok (dom (next m)) (members bs1) ops).
  { destruct op as [node|node|cmp node]; simpl in Hok |- *.
    - destruct Hok as (H0 & Hd%elem_of_dom & Hn & Hok).
      destruct (insert_spec m bs node fuel H H0 Hd Hn Hsz) as (m1 & E & Ed & bs1 & H1 & E1).
      exists 0, m1, bs1. rewrite E1. done.
    - destruct (erase_spec m bs node fuel H Hsz) as (m1 & E & Ed & bs1 & H1 & E1).
      exists 0, m1, bs1. rewrite (bind_Ret _ _ _ _ _ E), E1. done.
    - destruct (lookup_spec cmp m bs node fuel H Hsz) as (r & E & H1 & H2). exists r, m, bs. done. }
  destruct Hstep as (r & m1 & bs1 & E & Ed & H1 & Hs & Hok1). rewrite <- Ed in Hok1.
  destruct (IH m1 bs1 H1 ltac:(by rewrite Ed) Hok1) as (rs & m2 & bs2 & E2 & H2 & Ht).
  exists (r :: rs), m2, bs2. cbn [hm_run]. rewrite (bind_Ret _ _ _ _ _ E), (bind_Ret _ _ _ _ _ E2).
  split; [done|]. split; [done|]. by econstructor.
Qed.

(** ** Initialisation *)
Lemma init_spec m :
  length (bullet m) = Z.to_nat HASHSIZE ->
  _hashmap_init m = Ret (tt, mkHm (next m) (replicate (Z.to_nat HASHSIZE) 0)).
Proof.
  intros Hl. unfold _hashmap_init.
  destruct (for_upto_inv (fun i m' => exists bl, m' = mkHm (next m) bl /\ length bl = Z.to_nat HASHSIZE /\
      forall j, (j < Z.to_nat i)%nat -> bl !! j = Some 0)
    (fun i => put_bullet i 0 ;;; ret (None : option unit)) (Z.to_nat HASHSIZE) 0 m) as (m' & E & bl & -> & Hl' & Hb).
  - exists (bullet m). split; [by destruct m|]. split; [done|]. simpl. lia.
  - intros j m' Hj (bl & -> & Hl' & Hb).
    assert (E : put_bullet j 0 (mkHm (next m) bl) = Ret (tt, mkHm (next m) (<[Z.to_nat j := 0]> bl))).
    { unfold put_bullet. cbn [bullet]. rewrite Hl', (proj2 (Z.leb_le 0 j)), (proj2 (Z.ltb_lt j _)) by lia. done. }
    rewrite (bind_Ret _ _ _ _ _ E). eexists. split; [done|].
    eexists. split; [done|]. rewrite length_insert. split; [done|]. intros k Hk.
    destruct (decide (k = Z.to_nat j)) as [->|Hne]; [apply list_lookup_insert_eq; lia|].
    rewrite list_lookup_insert_ne by lia. apply Hb. lia.
  - rewrite (bind_Ret _ _ _ _ _ E). unfold ret. do 3 f_equal. apply list_eq. intros j.
    destruct (decide (j < Z.to_nat HASHSIZE)%nat) as [Hj|Hj].
    + rewrite Hb by lia. symmetry. by apply lookup_replicate_2.
    + rewrite !lookup_ge_None_2; [done|rewrite length_replicate; lia|lia].
Qed.

Lemma empty_rep nx : hm_rep (mkHm nx (replicate (Z.to_nat HASHSIZE) 0)) (replicate (Z.to_nat HASHSIZE) []).
Proof.
  split; cbn [next bullet]; rewrite ?length_replicate; try done.
  - intros i p l [-> _]%lookup_replicate [-> _]%lookup_replicate. done.
  - intros i l a [-> _]%lookup_replicate Ha. by apply elem_of_nil in Ha.
  - intros i l [-> _]%lookup_replicate. constructor.
Qed.

Lemma empty_members : members (replicate (Z.to_nat HASHSIZE) []) = ∅.
Proof. vm_compute. reflexivity. Qed.
End code.

(** From its initialisation on, under any sequence of insertions of nodes
    that are not in it, erasures and lookups the hash map behaves as a set of
    nodes: every call returns, insertion gives 0 and adds the node, erasure
    removes exactly the node, and a lookup gives a member in the same bucket
    that compares equal, or NULL if there is none. *)
Theorem hashmap_refines_set (hash : Z -> Z) fuel ops m :
  (forall a, 0 <= hash a < HASHSIZE) -> length (bullet m) = Z.to_nat HASHSIZE ->
  (size (dom (next m)) < fuel)%nat -> hops_ok (dom (next m)) ∅ ops ->
  exists rs m' X, (_hashmap_init ;;; hm_run hash fuel ops) m = Ret (rs, m') /\ hm_trace hash ops ∅ rs X.
Proof.
  intros Hh Hl Hf Hok. set (m0 := mkHm (next m) (replicate (Z.to_nat HASHSIZE) 0)).
  destruct (hm_run_spec hash Hh fuel ops m0 (replicate (Z.to_nat HASHSIZE) [])) as (rs & m' & bs' & E & H' & Ht).
  - apply empty_rep.
  - exact Hf.
  - by rewrite empty_members.
  - rewrite empty_members in Ht. exists rs, m', (members bs'). split; [|exact Ht].
    rewrite (bind_Ret _ _ _ _ _ (init_spec m Hl)). exact E.
Qed.

(** ** Inserting a node that is in the map *)
Lemma loop_forever nx bl hashcmp node a fuel p l :
  seg nx p l a -> nx !! a = Some a -> a <> 0 -> (forall x, x ∈ l -> hashcmp x node = false) -> hashcmp a node = false ->
  while fuel (lookup_turn hashcmp node) p (mkHm nx bl) = Stop NoFuel.
Proof.
  intros Hs Ha H0 Hl Hn. revert p l Hs Hl. induction fuel as [|fuel IH]; intros p l Hs Hl; [done|].
  rewrite while_S. unfold lookup_turn at 1. destruct l as [|x l]; simpl in Hs.
  - subst p. rewrite (proj2 (Z.eqb_neq a 0)), Hn by done.
    rewrite bind_assoc, (bind_Ret _ _ _ _ _ (hm_next_Ret (mkHm nx bl) a a Ha)). erewrite bind_Ret by reflexivity.
    by apply (IH a []).
  - destruct Hs as (-> & Hx & r & Hr & Hs). rewrite (proj2 (Z.eqb_neq x 0)), (Hl x) by (done || by left).
    rewrite bind_assoc, (bind_Ret _ _ _ _ _ (hm_next_Ret (mkHm nx bl) x r Hr)). erewrite bind_Ret by reflexivity.
    apply (IH r l); [done|]. intros y Hy. apply Hl. by right.
Qed.

(** [_hashmap_insert] never notices that the node is in the map: it
    clears the node's link before it looks for it, so it gives 0 instead of
    -1 and leaves the node linked to itself, and a lookup in that bucket that
    finds no equal node before it never ends, whatever its fuel. *)
Theorem hashmap_reinsert_cycles (hash : Z -> Z) hashcmp m bs node key fuel :
  (forall a, 0 <= hash a < HASHSIZE) -> hm_rep hash m bs -> node ∈ members bs -> (size (members bs) < fuel)%nat ->
  hash key = hash node -> (forall a, a ∈ members bs -> hashcmp a key = false) ->
  exists m', _hashmap_insert hash fuel node m = Ret (0, m') /\ next m' !! node = Some node /\
    forall n, _hashmap_lookup hash hashcmp n key m' = Stop NoFuel.
Proof.
  intros Hh H Hin Hf Hk Hc. pose proof (bucket_lookup hash m bs (hash node) H (Hh node)) as Hbl.
  pose proof (bucket_size hash Hh m bs (hash node) H (Hh node)) as Hsz. rewrite (elem_of_members hash Hh m bs node H) in Hin.
  destruct (get_bullet_rep hash m bs (hash node) H (Hh node)) as (p & Ep & Hp & Hch).
  assert (Hcmp : forall a, a ∈ bucket bs (hash node) -> hashcmp a key = false).
  { intros a Ha. apply Hc. rewrite (elem_of_members hash Hh m bs a H). pose proof (hr_hash _ _ _ H _ _ a Hbl Ha) as Ea.
    rewrite Z2Nat.id in Ea by apply Hh. by rewrite Ea. }
  pose proof (hr_nodup _ _ _ H _ _ Hbl) as Hnd.
  apply list_elem_of_split in Hin as (l1 & l2 & E). rewrite E in *. rewrite length_app in Hsz. simpl in Hsz.
  apply NoDup_app in Hnd as (_ & Hn1 & _). assert (Hni : node ∉ l1) by (intros Hi; apply (Hn1 _ Hi); by left).
  destruct (proj1 (chain_app _ _ _ _) Hch) as (q & Hseg & -> & Hn0 & r & Hr & _).
  assert (Hseg1 : forall v, seg (<[node := v]> (next m)) p l1 node).
  { intros v. eapply seg_ext; [|exact Hseg]. intros a Ha. rewrite lookup_insert_ne; [done|]. by intros ->. }
  set (m1 := set_next (insert node 0) m).
  assert (Hw : while fuel (insert_turn node) p m1 = Ret (Some node, m1)).
  { apply (insert_walk m1 node p l1 node); [|done|lia]. apply chain_app. exists node. split; [apply Hseg1|].
    simpl. split; [done|]. split; [done|]. exists 0. by rewrite lookup_insert_eq. }
  assert (Hp0 : p <> 0).
  { destruct l1 as [|x l1]; simpl in Hseg; [by subst p|]. destruct Hseg as (-> & ? & _). done. }
  exists (mkHm (<[node := node]> (next m)) (bullet m)). split; [|split; [apply lookup_insert_eq|]].
  - unfold _hashmap_insert. rewrite (bind_Ret _ _ _ _ _ (hm_put_next_Ret _ _ _ _ Hr)). fold m1. cbv zeta.
    assert (Ep1 : get_bullet (hash node) m1 = Ret (p, m1)).
    { unfold get_bullet in *. simpl in *. rewrite (proj2 (Z.leb_le 0 _)), Hp by apply Hh. done. }
    rewrite (bind_Ret _ _ _ _ _ Ep1), (proj2 (Z.eqb_neq p 0)), (bind_Ret _ _ _ _ _ Hw) by done.
    erewrite bind_Ret by (apply (hm_put_next_Ret m1 node node 0); simpl; apply lookup_insert_eq).
    unfold ret, m1, set_next. simpl. by rewrite insert_insert_eq.
  - intros n. unfold _hashmap_lookup. cbv zeta. rewrite Hk.
    assert (Ep2 : get_bullet (hash node) (mkHm (<[node := node]> (next m)) (bullet m)) = Ret (p, mkHm (<[node := node]> (next m)) (bullet m))).
    { unfold get_bullet in *. simpl in *. rewrite (proj2 (Z.leb_le 0 _)), Hp by apply Hh. done. }
    rewrite (bind_Ret _ _ _ _ _ Ep2). apply (loop_forever _ _ _ _ node n p l1); [apply Hseg1|apply lookup_insert_eq|done| |].
    + intros x Hx. apply Hcmp. set_solver.
    + apply Hcmp. set_solver.
Qed.

(** ** Examples: nodes 16, 32 and 48, the first two in one bucket *)
Definition ex_hash (a : Z) : Z := (a / 32) mod 128.
Definition ex_hm : hash_map := mkHm {[16 := 0; 24 := 0; 48 := 0]} (replicate 128 7).

Lemma ex_hash_ok a : 0 <= ex_hash a < HASHSIZE.
Proof. apply Z.mod_pos_bound. reflexivity. Qed.

Lemma hashmap_refines_set_witness :
  exists rs m' X, (_hashmap_init ;;; hm_run ex_hash 9 [HInsert 16; HInsert 48; HInsert 24; HErase 16; HLookup Z.eqb 24]) ex_hm = Ret (rs, m') /\
    hm_trace ex_hash [HInsert 16; HInsert 48; HInsert 24; HErase 16; HLookup Z.eqb 24] ∅ rs X.
Proof.
  apply (hashmap_refines_set ex_hash 9 _ ex_hm ex_hash_ok); [reflexivity|vm_compute; lia|].
  simpl. repeat (split; [first [lia|set_solver]|]). done.
Defined.

Lemma hashmap_reinsert_cycles_witness :
  exists m', _hashmap_insert ex_hash 9 16 (mkHm {[16 := 24; 24 := 0]} (16 :: replicate 127 0)) = Ret (0, m') /\
    next m' !! 16 = Some 16 /\ forall n, _hashmap_lookup ex_hash Z.eqb n 8 m' = Stop NoFuel.
Proof.
  assert (Hr : hm_rep ex_hash (mkHm {[16 := 24; 24 := 0]} (16 :: replicate 127 0)) ([16; 24] :: replicate 127 [])).
  { split; cbn [next bullet]; try done.
    - intros i p l. rewrite !lookup_cons. destruct i as [|i].
      + intros [= <-] [= <-]. simpl. split; [done|]. split; [done|]. exists 24. split; [done|]. split; [done|]. split; [done|].
        by exists 0.
      + intros [-> _]%lookup_replicate [-> _]%lookup_replicate. done.
    - intros i l a. rewrite lookup_cons. destruct i as [|i].
      + intros [= <-] [->|[->|Ha%elem_of_nil]%elem_of_cons]%elem_of_cons; done.
      + intros [-> _]%lookup_replicate Ha. by apply elem_of_nil in Ha.
    - intros i l. rewrite lookup_cons. destruct i as [|i]; [|intros [-> _]%lookup_replicate; constructor].
      intros [= <-]. apply (bool_decide_unpack _). by vm_compute. }
  apply (hashmap_reinsert_cycles ex_hash Z.eqb _ _ 16 8 9 ex_hash_ok Hr).
  - apply (bool_decide_unpack _). by vm_compute.
  - vm_compute. lia.
  - reflexivity.
  - intros a Ha. assert (Ha' : a ∈ ({[16; 24]} : gset Z)).
    { replace ({[16; 24]} : gset Z) with (members ([16; 24] :: replicate 127 [])) by (vm_compute; reflexivity). done. }
    rewrite elem_of_union, !elem_of_singleton in Ha'. destruct Ha' as [-> | ->]; reflexivity.
Defined.
