(* ===== verification/Pipe.v ===== *)
(** * Pipes (fs/pipe.c)

    Readers, writers and closers of a pipe run concurrently, so each call is
    a small-step program. Its steps are cut at the operations on the spin
    locks, [pi->lock] and the locks inside the semaphores [wlock] and [rlock],
    and at the accesses to the ring: the test of the counters, the load of
    the counter that is moved on, the transfer of the byte and the store of
    the counter are steps of their own, so that it takes [pi->lock] to keep
    two calls from using one place of the ring. A step that would have to spin
    or that needs a wake-up stops with [Sleep]. The wait record of thread [t]
    has address [t].

    [data] is the ring, [nread] and [nwrite] free-running 32-bit counters. *)
From stdpp Require Import base gmap list.
From Stdlib Require Import ZArith Lia.
From S2P Require Import Prelude Sem CString.

Definition PIPESIZE := 512.

Record Pipe := mkPipe {
  plock : option Z;                       (* who holds [lock] *)
  wlock : sem_st; wlock_held : option Z;  (* the semaphore and who holds its lock *)
  rlock : sem_st; rlock_held : option Z;
  data : list Z; nread : Z; nwrite : Z;
  readopen : bool; writeopen : bool;
  freed : bool
}.

Definition set_plock (v : option Z) (p : Pipe) : Pipe :=
  mkPipe v (wlock p) (wlock_held p) (rlock p) (rlock_held p) (data p) (nread p) (nwrite p) (readopen p) (writeopen p) (freed p).
Definition set_wlock (v : sem_st) (p : Pipe) : Pipe :=
  mkPipe (plock p) v (wlock_held p) (rlock p) (rlock_held p) (data p) (nread p) (nwrite p) (readopen p) (writeopen p) (freed p).
Definition set_wlock_held (v : option Z) (p : Pipe) : Pipe :=
  mkPipe (plock p) (wlock p) v (rlock p) (rlock_held p) (data p) (nread p) (nwrite p) (readopen p) (writeopen p) (freed p).
Definition set_rlock (v : sem_st) (p : Pipe) : Pipe :=
  mkPipe (plock p) (wlock p) (wlock_held p) v (rlock_held p) (data p) (nread p) (nwrite p) (readopen p) (writeopen p) (freed p).
Definition set_rlock_held (v : option Z) (p : Pipe) : Pipe :=
  mkPipe (plock p) (wlock p) (wlock_held p) (rlock p) v (data p) (nread p) (nwrite p) (readopen p) (writeopen p) (freed p).
Definition set_ring (d : list Z) (r w : Z) (p : Pipe) : Pipe :=
  mkPipe (plock p) (wlock p) (wlock_held p) (rlock p) (rlock_held p) d r w (readopen p) (writeopen p) (freed p).
Definition set_open (r w : bool) (p : Pipe) : Pipe :=
  mkPipe (plock p) (wlock p) (wlock_held p) (rlock p) (rlock_held p) (data p) (nread p) (nwrite p) r w (freed p).
Definition set_freed (p : Pipe) : Pipe :=
  mkPipe (plock p) (wlock p) (wlock_held p) (rlock p) (rlock_held p) (data p) (nread p) (nwrite p) (readopen p) (writeopen p) true.

(** What [pipeAlloc] makes of the memory [d] that [kalloc] returned. *)
Definition init_pipe (d : list Z) : Pipe :=
  mkPipe None (mkSemSt (init_sem 0) ∅ []) None (mkSemSt (init_sem 0) ∅ []) None d 0 0 true true false.

(** ** Locks *)
Definition pipe_get : M Pipe Pipe := fun p => if freed p then Stop Fault else Ret (p, p).

Definition acquire_pipe (t : Z) : M Pipe unit :=
  p <- pipe_get ;; if bool_decide (plock p = None) then modify (set_plock (Some t)) else stop Sleep.
Definition release_pipe : M Pipe unit := pipe_get ;;; modify (set_plock None).

Definition lock_wlock (t : Z) : M Pipe unit :=
  p <- pipe_get ;; if bool_decide (wlock_held p = None) then modify (set_wlock_held (Some t)) else stop Sleep.
Definition lock_rlock (t : Z) : M Pipe unit :=
  p <- pipe_get ;; if bool_decide (rlock_held p = None) then modify (set_rlock_held (Some t)) else stop Sleep.

Definition on_wlock {A} (m : M sem_st A) : M Pipe A := pipe_get ;;; zoom wlock set_wlock m.
Definition on_rlock {A} (m : M sem_st A) : M Pipe A := pipe_get ;;; zoom rlock set_rlock m.

(** [post_all_sem] on either semaphore: it needs the lock, which it gives
    back; it posts once per sleeper and once more. *)
Definition post_all_wlock (t : Z) : M Pipe unit :=
  lock_wlock t ;;; p <- pipe_get ;;
  on_wlock (post_all_sem (S (length (sleeplist (sem (wlock p)))))) ;;; modify (set_wlock_held None).
Definition post_all_rlock (t : Z) : M Pipe unit :=
  lock_rlock t ;;; p <- pipe_get ;;
  on_rlock (post_all_sem (S (length (sleeplist (sem (rlock p)))))) ;;; modify (set_rlock_held None).

(** ** The calls, step by step

    [A] is what the loop has done so far. *)
Inductive pc (A : Type) :=
| Enter              (* before the test of [readopen] or [writeopen] *)
| Acquire (a : A)    (* before [_acquire_spinlock(&pi->lock)] *)
| Loop (a : A)       (* in the loop, holding the lock: before its tests *)
| Slot (a : A)       (* they passed: before the load of [nwrite] or [nread] *)
| Byte (a : A) (k : Z)     (* before the access to [data[k % PIPESIZE]] *)
| Count (a : A) (k c : Z)  (* byte [c] was moved: before the store of [k + 1] *)
| LockSem (a : A)    (* nothing to do: before [_lock_sem] on the own semaphore *)
| Unlock (a : A)     (* before releasing [pi->lock] *)
| PostOther (a : A)  (* before [post_all_sem] on the other semaphore *)
| Wait (a : A)       (* before [_wait_sem] *)
| Asleep (a : A)     (* in [_wait_sem] *)
| Leave (a : A)      (* the loop is over: before releasing the lock *)
| PostLast (a : A)   (* before the final [post_all_sem] *)
| Return (a : A).
Arguments Enter {A}.
Arguments Acquire {A} a.
Arguments Loop {A} a.
Arguments Slot {A} a.
Arguments Byte {A} a k.
Arguments Count {A} a k c.
Arguments LockSem {A} a.
Arguments Unlock {A} a.
Arguments PostOther {A} a.
Arguments Wait {A} a.
Arguments Asleep {A} a.
Arguments Leave {A} a.
Arguments PostLast {A} a.
Arguments Return {A} a.

(** A sleeper goes on when it was posted to, or [killed]. *)
Definition woken (killed : bool) (t : Z) (s : sem_st) : bool :=
  match waits s !! t with Some d => up d || killed | None => false end.

Definition full (p : Pipe) : bool := u32 (nread p + PIPESIZE) =? nwrite p.
Definition empty (p : Pipe) : bool := nread p =? nwrite p.

(** One step of [pipeWrite]; the second result is the byte it has added to
    the ring, if any. *)
Definition pipeWrite_step (killed : bool) (t : Z) (src : list Z) (n : Z) (c : pc Z) : M Pipe (pc Z * option Z) :=
  match c with
  | Enter => p <- pipe_get ;; ret (if writeopen p then Acquire 0 else Return 0, None)
  | Acquire i => acquire_pipe t ;;; ret (Loop i, None)
  | Loop i =>
      if i <? n then
        p <- pipe_get ;;
        if full p then
          if negb (readopen p) then release_pipe ;;; ret (Return i, None) else ret (LockSem i, None)
        else ret (Slot i, None)
      else ret (Leave i, None)
  | Slot i => p <- pipe_get ;; ret (Byte i (nwrite p), None)
  | Byte i k =>
      p <- pipe_get ;;
      c <- rd src i ;;
      (if (length (data p) =? Z.to_nat PIPESIZE)%nat then
         modify (set_ring (<[Z.to_nat (k mod PIPESIZE) := c]> (data p)) (nread p) (nwrite p))
       else stop Fault) ;;;
      ret (Count i k c, None)
  | Count i k c => p <- pipe_get ;; modify (set_ring (data p) (nread p) (u32 (k + 1))) ;;; ret (Loop (i + 1), Some c)
  | LockSem i => lock_wlock t ;;; ret (Unlock i, None)
  | Unlock i => release_pipe ;;; ret (PostOther i, None)
  | PostOther i => post_all_rlock t ;;; ret (Wait i, None)
  | Wait i =>
      passed <- on_wlock (_wait_sem_enter t t) ;;
      modify (set_wlock_held None) ;;;
      ret (if passed : bool then Acquire i else Asleep i, None)
  | Asleep i =>
      p <- pipe_get ;;
      if negb (woken killed t (wlock p)) then stop Sleep
      else
        lock_wlock t ;;; b <- on_wlock (_wait_sem_leave t) ;; modify (set_wlock_held None) ;;;
        ret (if b : bool then Acquire i else Return i, None)
  | Leave i => release_pipe ;;; ret (PostLast i, None)
  | PostLast i => post_all_rlock t ;;; ret (Return i, None)
  | Return i => stop Sleep
  end.

(** One step of [pipeRead], which has read [dst] so far. *)
Definition pipeRead_step (killed : bool) (t n : Z) (c : pc (list Z)) : M Pipe (pc (list Z) * option Z) :=
  match c with
  | Enter => p <- pipe_get ;; ret (if readopen p then Acquire [] else Return [], None)
  | Acquire dst => acquire_pipe t ;;; ret (Loop dst, None)
  | Loop dst =>
      if Z.of_nat (length dst) <? n then
        p <- pipe_get ;;
        if empty p then
          if negb (writeopen p) then release_pipe ;;; ret (Return dst, None) else ret (LockSem dst, None)
        else ret (Slot dst, None)
      else ret (Leave dst, None)
  | Slot dst => p <- pipe_get ;; ret (Byte dst (nread p), None)
  | Byte dst k => p <- pipe_get ;; c <- rd (data p) (k mod PIPESIZE) ;; ret (Count dst k c, None)
  | Count dst k c =>
      p <- pipe_get ;; modify (set_ring (data p) (u32 (k + 1)) (nwrite p)) ;;;
      ret (if c =? 10 then Leave (dst ++ [c]) else Loop (dst ++ [c]), Some c)
  | LockSem dst => lock_rlock t ;;; ret (Unlock dst, None)
  | Unlock dst => release_pipe ;;; ret (PostOther dst, None)
  | PostOther dst => post_all_wlock t ;;; ret (Wait dst, None)
  | Wait dst =>
      passed <- on_rlock (_wait_sem_enter t t) ;;
      modify (set_rlock_held None) ;;;
      ret (if passed : bool then Acquire dst else Asleep dst, None)
  | Asleep dst =>
      p <- pipe_get ;;
      if negb (woken killed t (rlock p)) then stop Sleep
      else
        lock_rlock t ;;; b <- on_rlock (_wait_sem_leave t) ;; modify (set_rlock_held None) ;;;
        ret (if b : bool then Acquire dst else Return dst, None)
  | Leave dst => release_pipe ;;; ret (PostLast dst, None)
  | PostLast dst => post_all_wlock t ;;; ret (Return dst, None)
  | Return dst => stop Sleep
  end.

(** [pipeClose]. *)
Inductive close_pc := CEnter | CPost | CEnd | CReturn.

Definition pipeClose_step (t : Z) (writable : bool) (c : close_pc) : M Pipe close_pc :=
  match c with
  | CEnter =>
      acquire_pipe t ;;;
      modify (fun p => if writable then set_open (readopen p) false p else set_open false (writeopen p) p) ;;;
      ret CPost
  | CPost => (if writable then post_all_rlock t else post_all_wlock t) ;;; ret CEnd
  | CEnd =>
      p <- pipe_get ;;
      if negb (readopen p) && negb (writeopen p) then modify set_freed ;;; ret CReturn
      else release_pipe ;;; ret CReturn
  | CReturn => stop Sleep
  end.

(** A call that is not disturbed by others: it runs until it returns or has
    to wait. *)
Definition pipeWrite (fuel : nat) (t : Z) (src : list Z) (n : Z) : M Pipe Z :=
  while fuel (fun c => r <- pipeWrite_step false t src n c ;;
                       ret (match r.1 with Return i => inr i | c' => inl c' end)) Enter.
Definition pipeRead (fuel : nat) (t n : Z) : M Pipe (list Z) :=
  while fuel (fun c => r <- pipeRead_step false t n c ;;
                       ret (match r.1 with Return dst => inr dst | c' => inl c' end)) Enter.
Definition pipeClose (t : Z) (writable : bool) : M Pipe unit :=
  while 4 (fun c => c' <- pipeClose_step t writable c ;;
                    ret (match c' with CReturn => inr tt | _ => inl c' end)) CEnter.

(** ** Any number of threads *)
Inductive thread :=
| Writer (src : list Z) (n : Z) (c : pc Z)
| Reader (n : Z) (c : pc (list Z))
| Closer (writable : bool) (c : close_pc).

(** [wrote] and [got]: the bytes put into and taken from the ring so far,
    with the thread that did it. *)
Record psys := mkPsys { pipe : Pipe; threads : gmap Z thread; wrote : list (Z * Z); got : list (Z * Z) }.

Definition log (t : Z) (o : option Z) (l : list (Z * Z)) : list (Z * Z) := match o with Some c => l ++ [(t, c)] | None => l end.

Definition psys_step (killed : bool) (t : Z) : M psys unit :=
  fun s => match threads s !! t with
  | Some (Writer src n c) =>
      match pipeWrite_step killed t src n c (pipe s) with
      | Ret (c', o, p) => Ret (tt, mkPsys p (<[t := Writer src n c']> (threads s)) (log t o (wrote s)) (got s))
      | Stop r => Stop r
      end
  | Some (Reader n c) =>
      match pipeRead_step killed t n c (pipe s) with
      | Ret (c', o, p) => Ret (tt, mkPsys p (<[t := Reader n c']> (threads s)) (wrote s) (log t o (got s)))
      | Stop r => Stop r
      end
  | Some (Closer writable c) =>
      match pipeClose_step t writable c (pipe s) with
      | Ret (c', p) => Ret (tt, mkPsys p (<[t := Closer writable c']> (threads s)) (wrote s) (got s))
      | Stop r => Stop r
      end
  | None => Stop Fault
  end.

(** Calls, each with an identity of its own, are made at any time. *)
Definition starting (th : thread) : Prop :=
  match th with Writer _ _ c => c = Enter | Reader _ c => c = Enter | Closer _ c => c = CEnter end.

Inductive preach (d : list Z) : psys -> Prop :=
| preach_init : preach d (mkPsys (init_pipe d) ∅ [] [])
| preach_call s t th :
    preach d s -> threads s !! t = None -> starting th ->
    preach d (mkPsys (pipe s) (<[t := th]> (threads s)) (wrote s) (got s))
| preach_step s killed t s' : preach d s -> psys_step killed t s = Ret (tt, s') -> preach d s'.

(** ** What a step does to the ring and to the lock *)
Definition ring (p : Pipe) : list Z * Z * Z := (data p, nread p, nwrite p).
Definition core (p : Pipe) : option Z * (list Z * Z * Z) := (plock p, ring p).

Lemma core_ring {A} (m : M Pipe A) : keeps core m -> keeps ring m.
Proof. intros H p a p' E. specialize (H p a p' E). unfold core in H. congruence. Qed.
Lemma core_plock {A} (m : M Pipe A) : keeps core m -> keeps plock m.
Proof. intros H p a p' E. specialize (H p a p' E). unfold core in H. congruence. Qed.

Lemma core_pipe_get : keeps core pipe_get.
Proof. intros p a p' H. unfold pipe_get in H. destruct (freed p); by simplify_eq. Qed.
Lemma core_zoom_w {A} (m : M sem_st A) : keeps core (zoom wlock set_wlock m).
Proof. intros p a p' H. unfold zoom in H. destruct (m (wlock p)) as [[??]|]; by simplify_eq. Qed.
Lemma core_zoom_r {A} (m : M sem_st A) : keeps core (zoom rlock set_rlock m).
Proof. intros p a p' H. unfold zoom in H. destruct (m (rlock p)) as [[??]|]; by simplify_eq. Qed.
#[export] Hint Resolve core_pipe_get core_zoom_w core_zoom_r : keeps.
#[export] Hint Extern 3 (keeps core (modify _)) => (apply keeps_modify; by intros []) : keeps.
Lemma core_lock_wlock t : keeps core (lock_wlock t).
Proof. unfold lock_wlock. keeps_tac. Qed.
Lemma core_lock_rlock t : keeps core (lock_rlock t).
Proof. unfold lock_rlock. keeps_tac. Qed.
Lemma core_on_wlock {A} (m : M sem_st A) : keeps core (on_wlock m).
Proof. unfold on_wlock. keeps_tac. Qed.
Lemma core_on_rlock {A} (m : M sem_st A) : keeps core (on_rlock m).
Proof. unfold on_rlock. keeps_tac. Qed.
#[export] Hint Resolve core_lock_wlock core_lock_rlock core_on_wlock core_on_rlock : keeps.
Lemma core_post_all_wlock t : keeps core (post_all_wlock t).
Proof. unfold post_all_wlock. keeps_tac. Qed.
Lemma core_post_all_rlock t : keeps core (post_all_rlock t).
Proof. unfold post_all_rlock. keeps_tac. Qed.
#[export] Hint Resolve core_post_all_wlock core_post_all_rlock : keeps.
#[export] Hint Extern 4 (keeps ring _) => (apply core_ring; solve [auto 2 with keeps nocore]) : keeps.
#[export] Hint Extern 4 (keeps plock _) => (apply core_plock; solve [auto 2 with keeps nocore]) : keeps.

#[export] Hint Extern 3 (keeps ring (modify _)) => (apply keeps_modify; by intros []) : keeps.
#[export] Hint Extern 3 (keeps plock (modify _)) => (apply keeps_modify; by intros []) : keeps.
Lemma keeps_rd (l : list Z) i {B} (f : Pipe -> B) : keeps f (rd l i).
Proof. intros p a p' H. unfold rd in H. destruct (if 0 <=? i then l !! Z.to_nat i else None); [|done]. unfold ret in H. by simplify_eq. Qed.
#[export] Hint Resolve keeps_rd : keeps.
Lemma keeps_acquire_pipe t : keeps ring (acquire_pipe t).
Proof. unfold acquire_pipe. keeps_tac. Qed.
Lemma keeps_release_pipe : keeps ring release_pipe.
Proof. unfold release_pipe. keeps_tac. Qed.
#[export] Hint Resolve keeps_acquire_pipe keeps_release_pipe : keeps.

Lemma keeps_close t w c : keeps ring (pipeClose_step t w c).
Proof.
  destruct c; cbn [pipeClose_step]; keeps_tac; apply keeps_modify; intros p; by destruct w.
Qed.

(** What the loop has done at a program point. *)
Definition so_far {A} (a0 : A) (c : pc A) : A :=
  match c with
  | Enter => a0
  | Acquire a | Loop a | Slot a | Byte a _ | Count a _ _ | LockSem a | Unlock a | PostOther a | Wait a | Asleep a | Leave a | PostLast a | Return a => a
  end.

(** In the critical section of [pi->lock]. *)
Definition in_lock {A} (c : pc A) : bool :=
  match c with Loop _ | Slot _ | Byte _ _ | Count _ _ _ | LockSem _ | Unlock _ | Leave _ => true | _ => false end.
Definition in_close (c : close_pc) : bool := match c with CPost | CEnd => true | _ => false end.
Definition critical (th : thread) : bool :=
  match th with Writer _ _ c => in_lock c | Reader _ c => in_lock c | Closer _ c => in_close c end.

(** Not between the tests of the loop and the store of the counter. *)
Definition quiet {A} (c : pc A) : bool := match c with Slot _ | Byte _ _ | Count _ _ _ => false | _ => true end.

(** A step that does not touch the ring and hands on what has been done. *)
Definition idle_step {A} (a : A) (a0 : A) (m : M Pipe (pc A * option Z)) : Prop :=
  forall p c o p', m p = Ret (c, o, p') -> o = None /\ ring p' = ring p /\ so_far a0 c = a /\ quiet c = true.

Lemma idle_ret {A} (a a0 : A) c : so_far a0 c = a -> quiet c = true -> idle_step a a0 (ret (c, None)).
Proof. intros H Hq p c' o p' E. unfold ret in E. by simplify_eq. Qed.

Lemma idle_stop {A} (a a0 : A) r : idle_step a a0 (stop r).
Proof. by intros p c' o p' E. Qed.

Lemma idle_bind {A B} (a a0 : A) (m : M Pipe B) k :
  keeps ring m -> (forall b, idle_step a a0 (k b)) -> idle_step a a0 (bind m k).
Proof.
  intros Hm Hk p c o p' E. apply bind_inv in E as (b & p1 & E1 & E2).
  destruct (Hk b p1 c o p' E2) as (-> & Hr & Hs). split; [done|]. split; [|done]. by rewrite Hr, (Hm _ _ _ E1).
Qed.

Ltac idle_tac :=
  repeat first
    [ apply idle_stop
    | apply idle_bind; [solve [keeps_tac]|intros ?]
    | match goal with |- context [if ?b then _ else _] => destruct b end
    | apply idle_ret; done ].

Lemma pipe_get_inv p q p' : pipe_get p = Ret (q, p') -> q = p /\ p' = p.
Proof. unfold pipe_get. destruct (freed p); [done|]. by intros [= -> ->]. Qed.

(** The steps outside the loop proper. *)
Definition in_loop {A} (c : pc A) : bool := match c with Loop _ | Slot _ | Byte _ _ | Count _ _ _ => true | _ => false end.
Lemma write_idle killed t src n c : in_loop c = false -> idle_step (so_far 0 c) 0 (pipeWrite_step killed t src n c).
Proof. destruct c; try done; intros _; cbn [pipeWrite_step so_far]; idle_tac. Qed.
Lemma read_idle killed t n c : in_loop c = false -> idle_step (so_far [] c) [] (pipeRead_step killed t n c).
Proof. destruct c; try done; intros _; cbn [pipeRead_step so_far]; idle_tac. Qed.

(** A step of a writer leaves the ring alone, or stores a byte, or stores the
    counter. *)
Lemma write_step_cases killed t src n c p c' o p' :
  pipeWrite_step killed t src n c p = Ret (c', o, p') ->
  (o = None /\ ring p' = ring p /\ so_far 0 c' = so_far 0 c /\
     (quiet c' = true \/ (exists i, c' = Slot i /\ full p = false) \/ (exists i, c = Slot i /\ c' = Byte i (nwrite p)))) \/
  (exists i k b, c = Byte i k /\ c' = Count i k b /\ o = None /\ 0 <= i /\ src !! Z.to_nat i = Some b /\ length (data p) = Z.to_nat PIPESIZE /\
     ring p' = (<[Z.to_nat (k mod PIPESIZE) := b]> (data p), nread p, nwrite p)) \/
  (exists i k b, c = Count i k b /\ c' = Loop (i + 1) /\ o = Some b /\ ring p' = (data p, nread p, u32 (k + 1))).
Proof.
  intros E. destruct (in_loop c) eqn:Hl; [|left; destruct (write_idle killed t src n c Hl _ _ _ _ E) as (H1 & H2 & H3 & H4); by auto].
  destruct c as [|i|i|i|i k|i k b|i|i|i|i|i|i|i|i]; try done; clear Hl; cbn [pipeWrite_step so_far] in *.
  - destruct (Z.ltb_spec i n) as [Hi|Hi]; [|unfold ret in E; simplify_eq; left; by auto].
    apply bind_inv in E as (q & p1 & [-> ->]%pipe_get_inv & E). left. destruct (full p) eqn:Ef.
    + destruct (negb (readopen p)); [|unfold ret in E; simplify_eq; by auto].
      apply bind_inv in E as (x & p1 & E1 & E). pose proof (keeps_release_pipe _ _ _ E1) as Hr. unfold ret in E. injection E as <- <- <-. by auto.
    + unfold ret in E. simplify_eq. split; [done|]. split; [done|]. split; [done|]. right. left. by exists i.
  - apply bind_inv in E as (q & p1 & [-> ->]%pipe_get_inv & E). unfold ret in E. simplify_eq. left. split; [done|]. split; [done|]. split; [done|]. right. right. by exists i.
  - right. left. apply bind_inv in E as (q & p1 & [-> ->]%pipe_get_inv & E). apply bind_inv in E as (b & p2 & E2 & E). unfold rd in E2.
    destruct (Z.leb_spec 0 i) as [H0|]; [|done]. destruct (src !! Z.to_nat i) eqn:Eb; [|done]. unfold ret in E2. simplify_eq.
    apply bind_inv in E as ([] & p3 & E3 & E). destruct (Nat.eqb_spec (length (data p2)) (Z.to_nat PIPESIZE)) as [Hl|]; [|done].
    unfold modify in E3. unfold ret in E. simplify_eq. by exists i, k, b.
  - right. right. apply bind_inv in E as (q & p1 & [-> ->]%pipe_get_inv & E). apply bind_inv in E as ([] & p2 & E2 & E). unfold modify in E2. unfold ret in E. simplify_eq. by exists i, k, b.
Qed.

(** The same for a reader, which loads a byte. *)
Lemma read_step_cases killed t n c p c' o p' :
  pipeRead_step killed t n c p = Ret (c', o, p') ->
  (o = None /\ ring p' = ring p /\ so_far [] c' = so_far [] c /\
     (quiet c' = true \/ (exists a, c' = Slot a /\ empty p = false) \/ (exists a, c = Slot a /\ c' = Byte a (nread p)) \/
      (exists a k b, c = Byte a k /\ c' = Count a k b /\ data p !! Z.to_nat (k mod PIPESIZE) = Some b))) \/
  (exists a k b, c = Count a k b /\ quiet c' = true /\ so_far [] c' = a ++ [b] /\ o = Some b /\ ring p' = (data p, u32 (k + 1), nwrite p)).
Proof.
  intros E. destruct (in_loop c) eqn:Hl; [|left; destruct (read_idle killed t n c Hl _ _ _ _ E) as (H1 & H2 & H3 & H4); by auto].
  destruct c as [|i|i|i|i k|i k b|i|i|i|i|i|i|i|i]; try done; clear Hl; cbn [pipeRead_step so_far] in *.
  - destruct (Z.of_nat (length i) <? n); [|unfold ret in E; simplify_eq; left; by auto].
    apply bind_inv in E as (q & p1 & [-> ->]%pipe_get_inv & E). left. destruct (empty p) eqn:Ef.
    + destruct (negb (writeopen p)); [|unfold ret in E; simplify_eq; by auto].
      apply bind_inv in E as (x & p1 & E1 & E). pose proof (keeps_release_pipe _ _ _ E1) as Hr. unfold ret in E. injection E as <- <- <-. by auto.
    + unfold ret in E. simplify_eq. split; [done|]. split; [done|]. split; [done|]. right. left. by exists i.
  - apply bind_inv in E as (q & p1 & [-> ->]%pipe_get_inv & E). unfold ret in E. simplify_eq. left. split; [done|]. split; [done|]. split; [done|]. right. right. left. by exists i.
  - apply bind_inv in E as (q & p1 & [-> ->]%pipe_get_inv & E). apply bind_inv in E as (b & p2 & E2 & E). unfold rd in E2.
    destruct (Z.leb_spec 0 (k mod PIPESIZE)) as [H0|]; [|done]. destruct (data p !! _) as [b'|] eqn:Eb; [|done]. unfold ret in E2, E. simplify_eq.
    left. split; [done|]. split; [done|]. split; [done|]. right. right. right. by exists i, k, b.
  - right. apply bind_inv in E as (q & p1 & [-> ->]%pipe_get_inv & E). apply bind_inv in E as ([] & p2 & E2 & E). unfold modify in E2. unfold ret in E. simplify_eq. exists i, k, b.
    split; [done|]. split; [by destruct (b =? 10)|]. split; [by destruct (b =? 10)|]. done.
Qed.

(** What a step of thread [t] does to the lock, from where it stood and where
    it gets to: only the one in the critical section releases it. *)
Definition lock_step (b b' : bool) (t : Z) (p p' : Pipe) : Prop :=
  match b, b' with
  | false, true => plock p = None /\ plock p' = Some t
  | true, false => True
  | _, _ => plock p' = plock p
  end.
Definition lock_is {R} (crit : R -> bool) (b : bool) (t : Z) (m : M Pipe R) : Prop :=
  forall p r p', m p = Ret (r, p') -> lock_step b (crit r) t p p'.

Section lock_rules.
Context {R : Type} (crit : R -> bool) (t : Z).
Lemma lock_ret b r : b = true \/ crit r = false -> lock_is crit b t (ret r).
Proof. intros H p r' p' E. unfold ret in E. simplify_eq. destruct b, (crit r'); try done. by destruct H. Qed.
Lemma lock_stop b e : lock_is crit b t (stop e).
Proof. by intros p r p' E. Qed.
Lemma step_lock_bind {B} b (m : M Pipe B) k : keeps plock m -> (forall x, lock_is crit b t (k x)) -> lock_is crit b t (bind m k).
Proof.
  intros Hm Hk p r p' E. apply bind_inv in E as (x & p1 & E1 & E2). specialize (Hk x p1 r p' E2). pose proof (Hm _ _ _ E1) as Hp.
  unfold lock_step in *. destruct b, (crit r); congruence || done || (destruct Hk; split; congruence).
Qed.
Lemma lock_release {B} (m : M Pipe B) r : crit r = false -> lock_is crit true t (m ;;; ret r).
Proof. intros Hr p r' p' E. apply bind_inv in E as (x & p1 & _ & E2). unfold ret in E2. simplify_eq. by rewrite Hr. Qed.
Lemma lock_acquire k : keeps plock (k tt) -> (forall p r p', k tt p = Ret (r, p') -> crit r = true) -> lock_is crit false t (bind (acquire_pipe t) k).
Proof.
  intros Hk Hc p r p' E. apply bind_inv in E as ([] & p1 & E1 & E2). rewrite (Hc _ _ _ E2). pose proof (Hk _ _ _ E2) as Hp.
  unfold acquire_pipe in E1. apply bind_inv in E1 as (q & p2 & [-> ->]%pipe_get_inv & E1). case_bool_decide as Hn; [|done]. injection E1 as <-. by split.
Qed.
End lock_rules.

Ltac lock_tac :=
  repeat first
    [ apply lock_stop
    | apply lock_release; done
    | apply lock_acquire; [solve [keeps_tac]|intros ? ? ? Er; unfold bind, modify, ret in Er; by simplify_eq]
    | apply step_lock_bind; [solve [keeps_tac]|intros ?]
    | match goal with |- context [if ?b then _ else _] => destruct b end
    | apply lock_ret; by auto ].

Lemma write_lock killed t src n c : lock_is (fun r => in_lock r.1) (in_lock c) t (pipeWrite_step killed t src n c).
Proof. destruct c; cbn [pipeWrite_step in_lock]; lock_tac. Qed.
Lemma read_lock killed t n c : lock_is (fun r => in_lock r.1) (in_lock c) t (pipeRead_step killed t n c).
Proof. destruct c; cbn [pipeRead_step in_lock]; lock_tac. Qed.
Lemma close_lock t w c : lock_is in_close (in_close c) t (pipeClose_step t w c).
Proof. destruct c; cbn [pipeClose_step in_close]; lock_tac. Qed.

(** ** The ring is a bounded queue *)

(** The bytes in the ring, the oldest first. *)
Definition contents (p : Pipe) : list Z :=
  (fun j => data p !!! Z.to_nat ((nread p + Z.of_nat j) mod PIPESIZE)) <$> seq 0 (Z.to_nat (u32 (nwrite p - nread p))).

Definition of_thread (t : Z) (l : list (Z * Z)) : list Z := (filter (fun e => e.1 = t) l).*2.

Lemma of_thread_log t u o l :
  of_thread t (log u o l) = if decide (u = t) then of_thread t l ++ match o with Some c => [c] | None => [] end else of_thread t l.
Proof.
  unfold of_thread, log. destruct o as [c|]; [|case_decide; by rewrite ?app_nil_r].
  rewrite filter_app, fmap_app. case_decide as E.
  - by rewrite (filter_cons_True _ (u, c) []).
  - rewrite (filter_cons_False _ (u, c) []) by done. by rewrite filter_nil, app_nil_r.
Qed.

Lemma log_bytes t o l : (log t o l).*2 = l.*2 ++ match o with Some c => [c] | None => [] end.
Proof. destruct o; simpl; [by rewrite fmap_app|by rewrite app_nil_r]. Qed.

Record ring_inv (p : Pipe) (W R : list Z) : Prop := {
  ri_data : length (data p) = Z.to_nat PIPESIZE;
  ri_nwrite : nwrite p = u32 (Z.of_nat (length W));
  ri_nread : nread p = u32 (Z.of_nat (length R));
  ri_queue : W = R ++ contents p;
  ri_bound : (length (contents p) <= Z.to_nat PIPESIZE)%nat
}.

Lemma ring_inv_ext p p' W R : ring p' = ring p -> ring_inv p W R -> ring_inv p' W R.
Proof.
  unfold ring. intros E [H1 H2 H3 H4 H5]. injection E as E1 E2 E3.
  assert (Ec : contents p' = contents p) by (unfold contents; by rewrite E1, E2, E3).
  split; by rewrite ?Ec, ?E1, ?E2, ?E3.
Qed.

Lemma u32_cong a b : u32 a = u32 b <-> exists k, a = b + k * 2 ^ 32.
Proof.
  unfold u32, wrapu. change (2 ^ 32) with 4294967296. split.
  - intros H. exists (a / 4294967296 - b / 4294967296).
    pose proof (Z.div_mod a 4294967296 ltac:(lia)). pose proof (Z.div_mod b 4294967296 ltac:(lia)). lia.
  - intros [k ->]. by rewrite Z.mod_add by lia.
Qed.

Lemma u32_mod a : u32 a mod PIPESIZE = a mod PIPESIZE.
Proof. unfold u32, wrapu, PIPESIZE. apply Z.mod_mod_divide. by exists 8388608. Qed.

Lemma mod_shift a b c : a mod PIPESIZE = b mod PIPESIZE -> (a + c) mod PIPESIZE = (b + c) mod PIPESIZE.
Proof. intros H. rewrite <- Z.add_mod_idemp_l, H, Z.add_mod_idemp_l by done. done. Qed.

Lemma mod_near a c d : 0 <= c < PIPESIZE -> 0 <= d < PIPESIZE -> (a + c) mod PIPESIZE = (a + d) mod PIPESIZE -> c = d.
Proof.
  unfold PIPESIZE. intros Hc Hd H. pose proof (Z.div_mod (a + c) 512 ltac:(lia)). pose proof (Z.div_mod (a + d) 512 ltac:(lia)). lia.
Qed.

Lemma index_bound a : 0 <= a mod PIPESIZE < PIPESIZE.
Proof. by apply Z.mod_pos_bound. Qed.

(** How many bytes the ring holds, from the lengths of the logs. *)
Lemma ring_count p W R : ring_inv p W R -> length W = (length R + length (contents p))%nat.
Proof. intros H. rewrite (ri_queue _ _ _ H) at 1. by rewrite length_app. Qed.

Lemma count_eq w r : 0 <= w - r < 2 ^ 32 -> u32 (u32 w - u32 r) = w - r.
Proof.
  intros H. transitivity (u32 (w - r)); [|by apply u32_small]. unfold u32, wrapu. by rewrite <- Zminus_mod.
Qed.

Lemma contents_lookup p k j :
  length (data p) = Z.to_nat PIPESIZE -> Z.to_nat (u32 (nwrite p - nread p)) = k -> (j < k)%nat ->
  contents p !! j = data p !! Z.to_nat ((nread p + Z.of_nat j) mod PIPESIZE).
Proof.
  intros Hd Hk Hj. unfold contents. rewrite Hk, list_lookup_fmap, lookup_seq_lt by done. simpl.
  pose proof (index_bound (nread p + Z.of_nat j)).
  destruct (lookup_lt_is_Some_2 (data p) (Z.to_nat ((nread p + Z.of_nat j) mod PIPESIZE))) as [x Hx]; [rewrite Hd; lia|].
  by rewrite Hx, (list_lookup_total_correct _ _ _ Hx).
Qed.

Lemma ring_write p p' W R b :
  ring_inv p W R -> full p = false -> ring p' = (<[Z.to_nat (nwrite p mod PIPESIZE) := b]> (data p), nread p, u32 (nwrite p + 1)) ->
  ring_inv p' (W ++ [b]) R.
Proof.
  intros H Hf Hr. unfold ring in Hr. injection Hr as E1 E2 E3. pose proof (ring_count _ _ _ H) as Hn. pose proof (ri_bound _ _ _ H) as Hb.
  set (k := length (contents p)) in *. change (Z.to_nat PIPESIZE) with 512%nat in *.
  assert (Hcount : Z.to_nat (u32 (nwrite p - nread p)) = k) by (unfold k, contents; by rewrite length_fmap, length_seq).
  assert (Hk : (k < 512)%nat).
  { destruct (decide (k = 512%nat)) as [E|]; [|lia]. exfalso. unfold full in Hf. apply Z.eqb_neq in Hf. apply Hf.
    rewrite (ri_nwrite _ _ _ H), (ri_nread _ _ _ H). replace (Z.of_nat (length W)) with (Z.of_nat (length R) + PIPESIZE) by (unfold PIPESIZE; lia).
    unfold u32, wrapu. by rewrite Z.add_mod_idemp_l. }
  assert (Hd : length (data p') = 512%nat) by (rewrite E1, length_insert; apply (ri_data _ _ _ H)).
  assert (Hw : nwrite p mod PIPESIZE = (nread p + Z.of_nat k) mod PIPESIZE).
  { rewrite (ri_nwrite _ _ _ H), (ri_nread _ _ _ H), u32_mod, Hn, Nat2Z.inj_add. apply mod_shift. by rewrite u32_mod. }
  assert (Ew : nwrite p' = u32 (Z.of_nat (length (W ++ [b])))).
  { rewrite E3, length_app, (ri_nwrite _ _ _ H), Nat2Z.inj_add. unfold u32, wrapu. by rewrite Z.add_mod_idemp_l. }
  assert (Hcount' : Z.to_nat (u32 (nwrite p' - nread p')) = S k).
  { rewrite Ew, E2, (ri_nread _ _ _ H), length_app, count_eq; simpl; lia. }
  assert (Ec : contents p' = contents p ++ [b]).
  { apply list_eq. intros j. destruct (decide (j < S k)%nat) as [Hj|Hj].
    - rewrite (contents_lookup p' (S k)) by done. rewrite E1, E2. pose proof (index_bound (nread p + Z.of_nat j)).
      destruct (decide (j = k)) as [->|Hjk].
      + rewrite <- Hw, lookup_app_r, Nat.sub_diag by done. simpl. apply list_lookup_insert_eq.
        rewrite (ri_data _ _ _ H). change (Z.to_nat PIPESIZE) with 512%nat. pose proof (index_bound (nwrite p)). unfold PIPESIZE in *. lia.
      + rewrite lookup_app_l, (contents_lookup p k) by (done || (fold k; lia) || apply H || lia).
        apply list_lookup_insert_ne. intros E. apply Hjk.
        pose proof (index_bound (nwrite p)). assert (Em : (nread p + Z.of_nat j) mod PIPESIZE = (nread p + Z.of_nat k) mod PIPESIZE) by lia.
        apply mod_near in Em; unfold PIPESIZE in *; lia.
    - rewrite !lookup_ge_None_2; [done| |].
      + rewrite length_app. fold k. simpl. lia.
      + unfold contents. rewrite length_fmap, length_seq, Hcount'. lia. }
  split; [done|done|by rewrite E2, (ri_nread _ _ _ H)| |].
  - rewrite Ec, app_assoc. by rewrite <- (ri_queue _ _ _ H).
  - rewrite Ec, length_app. fold k. change (Z.to_nat PIPESIZE) with 512%nat. simpl. lia.
Qed.

(** A byte stored behind the last one of a ring that is not full changes
    nothing until the counter is stored. *)
Lemma ring_poke p p' W R b :
  ring_inv p W R -> full p = false -> ring p' = (<[Z.to_nat (nwrite p mod PIPESIZE) := b]> (data p), nread p, nwrite p) -> ring_inv p' W R.
Proof.
  intros H Hf Hr. assert (Hw : ring_inv (set_ring (<[Z.to_nat (nwrite p mod PIPESIZE) := b]> (data p)) (nread p) (u32 (nwrite p + 1)) p) (W ++ [b]) R) by by eapply ring_write.
  unfold ring in Hr. injection Hr as E1 E2 E3. pose proof (ri_queue _ _ _ Hw) as Hq. rewrite (ri_queue _ _ _ H), <- app_assoc in Hq. apply app_inv_head in Hq.
  assert (Hl : length (contents p') = length (contents p)) by (unfold contents; by rewrite !length_fmap, !length_seq, E2, E3).
  assert (Ec : contents p' = contents p).
  { apply list_eq. intros j. destruct (decide (j < length (contents p))%nat) as [Hj|Hj]; [|rewrite !lookup_ge_None_2 by lia; done].
    transitivity ((contents p ++ [b]) !! j); [|by rewrite lookup_app_l]. rewrite Hq.
    assert (Hd : length (data p') = Z.to_nat PIPESIZE) by (rewrite E1, length_insert; apply H).
    rewrite (contents_lookup p' (length (contents p))); [|done| |done].
    - assert (Hj' : (j < length (contents (set_ring (<[Z.to_nat (nwrite p mod PIPESIZE) := b]> (data p)) (nread p) (u32 (nwrite p + 1)) p)))%nat) by (rewrite <- Hq, length_app; simpl; lia).
      rewrite (contents_lookup _ _ j (ri_data _ _ _ Hw) eq_refl); [cbn [data nread set_ring]; by rewrite E1, E2|]. revert Hj'. unfold contents at 1. by rewrite length_fmap, length_seq.
    - rewrite <- Hl. unfold contents. by rewrite length_fmap, length_seq. }
  split; rewrite ?Ec, ?E2, ?E3; try apply H. rewrite E1, length_insert. apply H.
Qed.

Lemma ring_read p p' W R b :
  ring_inv p W R -> empty p = false -> data p !! Z.to_nat (nread p mod PIPESIZE) = Some b -> ring p' = (data p, u32 (nread p + 1), nwrite p) ->
  ring_inv p' W (R ++ [b]).
Proof.
  intros H He Hb Hr. unfold ring in Hr. injection Hr as E1 E2 E3. pose proof (ring_count _ _ _ H) as Hn. pose proof (ri_bound _ _ _ H) as Hbd.
  set (k := length (contents p)) in *. change (Z.to_nat PIPESIZE) with 512%nat in *.
  assert (Hcount : Z.to_nat (u32 (nwrite p - nread p)) = k) by (unfold k, contents; by rewrite length_fmap, length_seq).
  assert (Hk : (0 < k)%nat).
  { destruct (decide (k = 0%nat)) as [E|]; [|lia]. exfalso. unfold empty in He. apply Z.eqb_neq in He. apply He.
    rewrite (ri_nwrite _ _ _ H), (ri_nread _ _ _ H). f_equal. lia. }
  assert (Er : nread p' = u32 (Z.of_nat (length (R ++ [b])))).
  { rewrite E2, length_app, (ri_nread _ _ _ H), Nat2Z.inj_add. unfold u32, wrapu. by rewrite Z.add_mod_idemp_l. }
  assert (Hcount' : Z.to_nat (u32 (nwrite p' - nread p')) = pred k).
  { rewrite Er, E3, (ri_nwrite _ _ _ H), length_app, count_eq; simpl; lia. }
  assert (Hd : length (data p') = 512%nat) by (rewrite E1; apply (ri_data _ _ _ H)).
  assert (Ec : contents p = b :: contents p').
  { apply list_eq. intros j. destruct (decide (j < k)%nat) as [Hj|Hj].
    - rewrite (contents_lookup p k) by (done || apply H). destruct j as [|j]; [by rewrite Z.add_0_r|].
      rewrite lookup_cons. rewrite (contents_lookup p' (pred k)) by (done || lia). rewrite E1, E2. do 2 f_equal.
      replace (nread p + Z.of_nat (S j)) with (nread p + 1 + Z.of_nat j) by lia. symmetry. apply mod_shift, u32_mod.
    - rewrite !lookup_ge_None_2; [done| |fold k; lia].
      simpl. unfold contents. rewrite length_fmap, length_seq, Hcount'. lia. }
  split; [done|by rewrite E3, (ri_nwrite _ _ _ H)|done| |].
  - rewrite <- app_assoc. simpl. rewrite <- Ec. apply (ri_queue _ _ _ H).
  - assert (Hlk : length (contents p) = S (length (contents p'))) by by rewrite Ec.
    fold k in Hlk. change (Z.to_nat PIPESIZE) with 512%nat. lia.
Qed.

(** ** The invariant of the system *)

(** What a thread between the tests of the loop and the store of the counter
    relies on. *)
Definition mid (p : Pipe) (th : thread) : Prop :=
  match th with
  | Writer _ _ (Slot _) => full p = false
  | Writer _ _ (Byte _ k) => full p = false /\ k = nwrite p
  | Writer src _ (Count i k b) => full p = false /\ k = nwrite p /\ 0 <= i /\ src !! Z.to_nat i = Some b /\ data p !! Z.to_nat (k mod PIPESIZE) = Some b
  | Reader _ (Slot _) => empty p = false
  | Reader _ (Byte _ k) => empty p = false /\ k = nread p
  | Reader _ (Count _ k b) => empty p = false /\ k = nread p /\ data p !! Z.to_nat (k mod PIPESIZE) = Some b
  | _ => True
  end.

Lemma mid_ext p p' th : ring p' = ring p -> mid p th -> mid p' th.
Proof. unfold ring. intros E. injection E as E1 E2 E3. destruct th as [src n c|n c|w c]; [| |done]; destruct c; unfold mid, full, empty; by rewrite ?E1, ?E2, ?E3. Qed.
Lemma mid_out p th : critical th = false -> mid p th.
Proof. destruct th as [src n c|n c|w c]; [| |done]; by destruct c. Qed.
Lemma mid_writer p src n c : quiet c = true -> mid p (Writer src n c).
Proof. by destruct c. Qed.
Lemma mid_reader p n c : quiet c = true -> mid p (Reader n c).
Proof. by destruct c. Qed.

(** Who is in the critical section holds the lock. *)
Definition locked (p : Pipe) (T : gmap Z thread) : Prop := forall t th, T !! t = Some th -> critical th = true -> plock p = Some t.

Lemma locked_step p p' T t th th' :
  locked p T -> T !! t = Some th -> lock_step (critical th) (critical th') t p p' -> locked p' (<[t := th']> T).
Proof.
  intros H Ht Hs u x Hu Hx. apply lookup_insert_Some in Hu as [[<- <-]|[Hne Hu]].
  - unfold lock_step in Hs. rewrite Hx in Hs. destruct (critical th) eqn:Hc; [|apply Hs]. rewrite Hs. by apply (H t th).
  - pose proof (H u x Hu Hx) as Hp. unfold lock_step in Hs. destruct (critical th) eqn:Hc; [pose proof (H t th Ht Hc); congruence|].
    destruct (critical th'); [destruct Hs; congruence|congruence].
Qed.

Lemma mids_step p p' T t th th' :
  locked p T -> map_Forall (fun _ => mid p) T -> T !! t = Some th -> (critical th = false -> ring p' = ring p) -> mid p' th' -> map_Forall (fun _ => mid p') (<[t := th']> T).
Proof.
  intros Hl Hm Ht Hr Hth u x Hu. apply lookup_insert_Some in Hu as [[<- <-]|[Hne Hu]]; [done|].
  destruct (critical x) eqn:Hx; [|by apply mid_out]. eapply mid_ext; [|by apply (Hm u x)]. apply Hr.
  destruct (critical th) eqn:Hc; [|done]. pose proof (Hl t th Ht Hc). pose proof (Hl u x Hu Hx). congruence.
Qed.

Record psys_inv (s : psys) : Prop := {
  pi_ring : ring_inv (pipe s) (wrote s).*2 (got s).*2;
  pi_none : forall t, threads s !! t = None -> of_thread t (wrote s) = [] /\ of_thread t (got s) = [];
  pi_writer : forall t src n c, threads s !! t = Some (Writer src n c) ->
    0 <= so_far 0 c <= Z.of_nat (length src) /\ of_thread t (wrote s) = take (Z.to_nat (so_far 0 c)) src;
  pi_reader : forall t n c, threads s !! t = Some (Reader n c) -> of_thread t (got s) = so_far [] c;
  pi_lock : locked (pipe s) (threads s);
  pi_mid : map_Forall (fun _ => mid (pipe s)) (threads s)
}.

Lemma init_inv d : length d = Z.to_nat PIPESIZE -> psys_inv (mkPsys (init_pipe d) ∅ [] []).
Proof.
  intros Hd. split; [|by intros t|by intros t src n c [=]|by intros t n c [=]|by intros t th [=]|apply map_Forall_empty].
  constructor; [done|reflexivity|reflexivity|reflexivity|apply Nat.le_0_l].
Qed.

Lemma starting_out th : starting th -> critical th = false.
Proof. destruct th; simpl; by intros ->. Qed.

Lemma call_inv s t th :
  psys_inv s -> threads s !! t = None -> starting th -> psys_inv (mkPsys (pipe s) (<[t := th]> (threads s)) (wrote s) (got s)).
Proof.
  intros [H1 H2 H3 H4 H5 H6] Ht Hth. destruct (H2 t Ht) as [Ew Eg]. pose proof (starting_out th Hth) as Ho. split; cbn [pipe threads wrote got].
  - done.
  - intros u [Hu _]%lookup_insert_None. by apply H2.
  - intros u src n c [[<- ->]|[_ Hu]]%lookup_insert_Some; [|by eapply H3]. simpl in Hth. subst c. simpl. split; [lia|done].
  - intros u n c [[<- ->]|[_ Hu]]%lookup_insert_Some; [|by eapply H4]. simpl in Hth. by subst c.
  - intros u x [[<- <-]|[_ Hu]]%lookup_insert_Some; [congruence|by apply H5].
  - apply map_Forall_insert_2; [by apply mid_out|done].
Qed.

Lemma take_snoc (src : list Z) i b : 0 <= i -> src !! Z.to_nat i = Some b -> take (Z.to_nat (i + 1)) src = take (Z.to_nat i) src ++ [b].
Proof. intros Hi Hb. replace (Z.to_nat (i + 1)) with (S (Z.to_nat i)) by lia. by apply take_S_r. Qed.

(** One step of a writer: the ring with the log, what it has written, and
    what it relies on afterwards. *)
Lemma writer_inv killed t src n c p c' o p' W R :
  pipeWrite_step killed t src n c p = Ret (c', o, p') -> ring_inv p W R -> mid p (Writer src n c) -> 0 <= so_far 0 c <= Z.of_nat (length src) ->
  ring_inv p' (W ++ match o with Some b => [b] | None => [] end) R /\
  0 <= so_far 0 c' <= Z.of_nat (length src) /\
  take (Z.to_nat (so_far 0 c')) src = take (Z.to_nat (so_far 0 c)) src ++ match o with Some b => [b] | None => [] end /\
  mid p' (Writer src n c') /\ (in_lock c = false -> ring p' = ring p).
Proof.
  intros E H Hm Hb. destruct (write_step_cases _ _ _ _ _ _ _ _ _ E) as [(-> & Hr & Hs & Hc)|[(i & k & b & -> & -> & -> & Hi & Hsrc & Hl & Hr)|(i & k & b & -> & -> & -> & Hr)]].
  - rewrite !app_nil_r, Hs. split; [by eapply ring_inv_ext|]. split; [done|]. split; [done|]. split; [|done].
    eapply mid_ext; [exact Hr|]. destruct Hc as [Hq|[(i & -> & Hf)|(i & -> & ->)]]; [by apply mid_writer|done|by split].
  - simpl in Hm, Hb. destruct Hm as [Hf ->]. rewrite !app_nil_r. split; [by eapply ring_poke|]. split; [done|]. split; [done|]. split; [|done].
    unfold ring in Hr. injection Hr as E1 E2 E3. unfold mid. split; [unfold full; by rewrite E2, E3|]. split; [done|]. split; [done|]. split; [done|].
    rewrite E1. apply list_lookup_insert_eq. rewrite Hl. pose proof (index_bound (nwrite p)). lia.
  - simpl in Hm, Hb. destruct Hm as (Hf & -> & Hi & Hsrc & Hd). cbn [so_far]. split; [|split; [apply lookup_lt_Some in Hsrc; lia|split; [by apply take_snoc|done]]].
    eapply ring_write; [exact H|exact Hf|]. by rewrite (list_insert_id (data p) _ b).
Qed.

Lemma reader_inv killed t n c p c' o p' W R :
  pipeRead_step killed t n c p = Ret (c', o, p') -> ring_inv p W R -> mid p (Reader n c) ->
  ring_inv p' W (R ++ match o with Some b => [b] | None => [] end) /\
  so_far [] c' = so_far [] c ++ match o with Some b => [b] | None => [] end /\
  mid p' (Reader n c') /\ (in_lock c = false -> ring p' = ring p).
Proof.
  intros E H Hm. destruct (read_step_cases _ _ _ _ _ _ _ _ E) as [(-> & Hr & Hs & Hc)|(a & k & b & -> & Hq & Hs & -> & Hr)].
  - rewrite !app_nil_r, Hs. split; [by eapply ring_inv_ext|]. split; [done|]. split; [|done].
    eapply mid_ext; [exact Hr|]. destruct Hc as [Hq|[(i & -> & Hf)|[(i & -> & ->)|(i & k & b & -> & -> & Hb)]]]; [by apply mid_reader|done|by split|].
    simpl in Hm. by destruct Hm as [Hm ->].
  - simpl in Hm. destruct Hm as (He & -> & Hd). rewrite Hs. split; [by eapply ring_read|]. split; [done|]. split; [by apply mid_reader|done].
Qed.

Lemma step_inv s killed t s' : psys_inv s -> psys_step killed t s = Ret (tt, s') -> psys_inv s'.
Proof.
  intros [H1 H2 H3 H4 H5 H6] E. unfold psys_step in E. destruct (threads s !! t) as [[src n c|n c|w c]|] eqn:Et; [| | |done].
  - destruct (pipeWrite_step killed t src n c (pipe s)) as [[[c' o] p]|] eqn:Es; [|done]. injection E as <-.
    destruct (H3 _ _ _ _ Et) as [Hb Ho]. destruct (writer_inv _ _ _ _ _ _ _ _ _ _ _ Es H1 (H6 _ _ Et) Hb) as (Hr & Hb' & Ht & Hm & Hq).
    split; cbn [pipe threads wrote got].
    + by rewrite log_bytes.
    + intros u [Hu Hne]%lookup_insert_None. rewrite of_thread_log, decide_False by done. by apply H2.
    + intros u src' n' c2 Hu. rewrite of_thread_log. apply lookup_insert_Some in Hu as [[<- Ec]|[Hne Hu]].
      * injection Ec as <- <- <-. rewrite decide_True, Ht, Ho by done. done.
      * rewrite decide_False by done. by eapply H3.
    + intros u n' c2 [[_ Ec]|[_ Hu]]%lookup_insert_Some; [done|by eapply H4].
    + eapply locked_step; [exact H5|exact Et|apply (write_lock _ _ _ _ _ _ _ _ Es)].
    + by eapply mids_step.
  - destruct (pipeRead_step killed t n c (pipe s)) as [[[c' o] p]|] eqn:Es; [|done]. injection E as <-.
    destruct (reader_inv _ _ _ _ _ _ _ _ _ _ Es H1 (H6 _ _ Et)) as (Hr & Hs & Hm & Hq). pose proof (H4 _ _ _ Et) as Ho.
    split; cbn [pipe threads wrote got].
    + by rewrite log_bytes.
    + intros u [Hu Hne]%lookup_insert_None. rewrite of_thread_log, decide_False by done. by apply H2.
    + intros u src n' c2 [[_ Ec]|[_ Hu]]%lookup_insert_Some; [done|by eapply H3].
    + intros u n' c2 Hu. rewrite of_thread_log. apply lookup_insert_Some in Hu as [[<- Ec]|[Hne Hu]].
      * injection Ec as <- <-. by rewrite decide_True, Hs, Ho by done.
      * rewrite decide_False by done. by eapply H4.
    + eapply locked_step; [exact H5|exact Et|apply (read_lock _ _ _ _ _ _ _ Es)].
    + by eapply mids_step.
  - destruct (pipeClose_step t w c (pipe s)) as [[c' p]|] eqn:Es; [|done]. injection E as <-.
    pose proof (keeps_close t w c _ _ _ Es) as Hr. split; cbn [pipe threads wrote got].
    + by eapply ring_inv_ext.
    + intros u [Hu _]%lookup_insert_None. by apply H2.
    + intros u src n c2 [[_ Ec]|[_ Hu]]%lookup_insert_Some; [done|by eapply H3].
    + intros u n c2 [[_ Ec]|[_ Hu]]%lookup_insert_Some; [done|by eapply H4].
    + eapply locked_step; [exact H5|exact Et|apply (close_lock _ _ _ _ _ _ Es)].
    + by eapply mids_step.
Qed.

Lemma preach_inv d s : length d = Z.to_nat PIPESIZE -> preach d s -> psys_inv s.
Proof.
  intros Hd. induction 1 as [|s t th _ IH Ht Hth|s k t s' _ IH E]; [by apply init_inv|by apply call_inv|by eapply step_inv].
Qed.

(** C35: Whatever the interleaving of any number of reads, writes, closes and
    kills, at the operations on locks and at each load and store of the
    counters and of the bytes of the ring, a pipe is a queue of at most
    [PIPESIZE] bytes: what was put in is what was taken out followed by what
    the ring holds, also when the counters wrap around; each write call has
    put in exactly the first bytes of its buffer, as many as it counts, and
    each read call holds exactly the bytes it took out. At most one thread is
    in the critical section of [pi->lock], which is what keeps two calls from
    using one place of the ring or losing an update of a counter. *)
Theorem pipe_fifo d s :
  length d = Z.to_nat PIPESIZE -> preach d s ->
  (wrote s).*2 = (got s).*2 ++ contents (pipe s) /\ (length (contents (pipe s)) <= Z.to_nat PIPESIZE)%nat /\
  (forall t src n c, threads s !! t = Some (Writer src n c) -> of_thread t (wrote s) = take (Z.to_nat (so_far 0 c)) src) /\
  (forall t n c, threads s !! t = Some (Reader n c) -> of_thread t (got s) = so_far [] c) /\
  (forall t u a b, threads s !! t = Some a -> threads s !! u = Some b -> critical a = true -> critical b = true -> t = u).
Proof.
  intros Hd Hr. pose proof (preach_inv d s Hd Hr) as [H1 H2 H3 H4 H5 _].
  split; [apply (ri_queue _ _ _ H1)|]. split; [apply (ri_bound _ _ _ H1)|]. split; [|split; [done|]].
  - intros t src n c Ht. by destruct (H3 _ _ _ _ Ht).
  - intros t u a b Ha Hb Hca Hcb. pose proof (H5 t a Ha Hca). pose proof (H5 u b Hb Hcb). congruence.
Qed.

(** ** A deadlock *)
Fixpoint psys_run (sched : list (bool * Z)) : M psys unit :=
  match sched with [] => ret tt | (killed, t) :: l => psys_step killed t ;;; psys_run l end.

Lemma psys_run_reach d sched s s' : preach d s -> psys_run sched s = Ret (tt, s') -> preach d s'.
Proof.
  revert s. induction sched as [|[k t] l IH]; intros s Hr E; [by unfold psys_run, ret in E; simplify_eq|].
  apply bind_inv in E as ([] & s1 & E1 & E). eapply IH; [|exact E]. by eapply preach_step.
Qed.

Definition spins (s : psys) (t : Z) : Prop :=
  (exists r, threads s !! t = Some r /\ match r with Writer _ _ (PostOther _) => rlock_held (pipe s) <> None | Reader _ (PostOther _) => wlock_held (pipe s) <> None | _ => False end) /\
  psys_step false t s = Stop Sleep /\ psys_step true t s = Stop Sleep.

(** A reader and a writer of more than [PIPESIZE] bytes on an empty pipe: the
    reader is cut off after releasing [pi->lock] with the lock of [rlock] in
    its hand, the writer runs until the ring is full. *)
Definition ex_start (d : list Z) : psys :=
  mkPsys (init_pipe d) (<[1 := Reader 1 Enter]> (<[2 := Writer (replicate 600 7) 600 Enter]> ∅)) [] [].
Definition ex_sched : list (bool * Z) := replicate 5 (false, 1) ++ replicate (2 + 4 * 512 + 3) (false, 2).
Definition ex_stuck : psys :=
  match psys_run ex_sched (ex_start (replicate 512 0)) with Ret (_, s) => s | Stop _ => ex_start (replicate 512 0) end.

Lemma ex_start_reach d : preach d (ex_start d).
Proof.
  pose proof (preach_call d (mkPsys (init_pipe d) (<[2 := Writer (replicate 600 7) 600 Enter]> ∅) [] []) 1 (Reader 1 Enter)) as H1.
  pose proof (preach_call d (mkPsys (init_pipe d) ∅ [] []) 2 (Writer (replicate 600 7) 600 Enter)) as H2.
  cbn [pipe threads wrote got] in H1, H2. unfold ex_start. apply H1; [apply H2; [constructor|done|done]|done|done].
Qed.

Lemma ex_stuck_reach : preach (replicate 512 0) ex_stuck.
Proof. apply (psys_run_reach _ ex_sched (ex_start (replicate 512 0))); [apply ex_start_reach|by vm_compute]. Qed.

(** A pipe can deadlock: [pipeRead] on an empty ring and [pipeWrite] on a
    full one each hold the lock of their own semaphore while they call
    [post_all_sem] on the other's, so after some schedule of one read and one
    write of more than [PIPESIZE] bytes each spins on the lock the other
    holds, and neither can ever take a step again. *)
Theorem pipe_can_deadlock :
  exists d s, preach d s /\ spins s 1 /\ spins s 2 /\
    (forall t killed, t <> 1 -> t <> 2 -> psys_step killed t s = Stop Fault).
Proof.
  exists (replicate 512 0), ex_stuck. split; [|split; [|split]].
  - apply ex_stuck_reach.
  - split; [|by split; vm_compute]. eexists. split; [by vm_compute|]. by vm_compute.
  - split; [|by split; vm_compute]. eexists. split; [by vm_compute|]. by vm_compute.
  - intros t killed H1 H2. assert (Et : threads ex_stuck !! t = None); [|unfold psys_step; by rewrite Et].
    assert (Ed : dom (threads ex_stuck) = {[1; 2]}) by (vm_compute; reflexivity).
    apply not_elem_of_dom. rewrite Ed, elem_of_union, !elem_of_singleton. tauto.
Qed.

Lemma pipe_fifo_witness :
  (wrote ex_stuck).*2 = (got ex_stuck).*2 ++ contents (pipe ex_stuck) /\ length (contents (pipe ex_stuck)) = 512%nat /\
  (forall t src n c, threads ex_stuck !! t = Some (Writer src n c) -> of_thread t (wrote ex_stuck) = take (Z.to_nat (so_far 0 c)) src).
Proof.
  destruct (pipe_fifo (replicate 512 0) ex_stuck eq_refl ex_stuck_reach) as (H1 & _ & H2 & _).
  split; [exact H1|]. split; [vm_compute; reflexivity|exact H2].
Defined.
