(* ===== verification/File.v ===== *)
(** * Open files (fs/file.c, and pipeAlloc of fs/pipe.c)

    The file table is an array, a [File*] an index into it. [flock] tells
    whether the lock of the table is held: acquiring it then stops with
    [Sleep], for this thread would spin. Pipes live in a heap; calls on a
    pipe run until they return or have to wait. *)
From stdpp Require Import base gmap list.
From Stdlib Require Import ZArith Lia.
From S2P Require Import Prelude Bytes BCache BlockStore CString Console Inode Pipe.

Definition NFILE := 2048.
Definition NOFILE := 128.

Inductive ftype := FD_NONE | FD_PIPE | FD_INODE.
#[export] Instance ftype_eq_dec : EqDecision ftype.
Proof. solve_decision. Defined.

Record File := mkFile { fty : ftype; ref : Z; readable : bool; writable : bool; fpipe : Z; ip : Z; off : Z }.

Record fst_ (St : Type) := mkFst { inos : ist St; ftable : list File; flock : bool; pipes : gmap Z Pipe }.
Arguments mkFst {St} _ _ _ _.
Arguments inos {St} _.
Arguments ftable {St} _.
Arguments flock {St} _.
Arguments pipes {St} _.

Definition oftable := list (option Z).

(** [oftable->fp[i] = NULL] for every descriptor. *)
Definition init_oftable (o : oftable) : oftable := fmap (fun _ => None) o.

Section code.
Context {St : Type} {BC : BlockCache St} (sblock : SuperBlock) {KA : Kalloc} (kpage : list Z).
Abbreviation M := (M (fst_ St)).

Definition set_inos (i : ist St) (s : fst_ St) : fst_ St := mkFst i (ftable s) (flock s) (pipes s).
Definition set_ftable (f : list File -> list File) (s : fst_ St) : fst_ St := mkFst (inos s) (f (ftable s)) (flock s) (pipes s).
Definition set_flock (b : bool) (s : fst_ St) : fst_ St := mkFst (inos s) (ftable s) b (pipes s).
Definition set_pipes (f : gmap Z Pipe -> gmap Z Pipe) (s : fst_ St) : fst_ St := mkFst (inos s) (ftable s) (flock s) (f (pipes s)).

Definition on_inodes {A} (m : Prelude.M (ist St) A) : M A := zoom inos set_inos m.
Definition on_bcache {A} (m : Prelude.M St A) : M A := on_inodes (on_cache m).

Definition on_pipe {A} (p : Z) (m : Prelude.M Pipe A) : M A :=
  fun s => match pipes s !! p with
           | Some q => match m q with Ret (a, q') => Ret (a, set_pipes (insert p q') s) | Stop r => Stop r end
           | None => Stop Fault
           end.

Definition load_file (f : Z) : M File :=
  fun s => match ftable s !! Z.to_nat f with Some x => Ret (x, s) | None => Stop Fault end.
Definition update_file (f : Z) (g : File -> File) : M unit :=
  fun s => match ftable s !! Z.to_nat f with Some x => Ret (tt, set_ftable (insert (Z.to_nat f) (g x)) s) | None => Stop Fault end.

Definition set_ref (v : Z) (x : File) : File := mkFile (fty x) v (readable x) (writable x) (fpipe x) (ip x) (off x).
Definition set_fty (v : ftype) (x : File) : File := mkFile v (ref x) (readable x) (writable x) (fpipe x) (ip x) (off x).
Definition set_off (v : Z) (x : File) : File := mkFile (fty x) (ref x) (readable x) (writable x) (fpipe x) (ip x) v.
Definition set_rw (r w : bool) (x : File) : File := mkFile (fty x) (ref x) r w (fpipe x) (ip x) (off x).
Definition set_fpipe (p : Z) (x : File) : File := mkFile (fty x) (ref x) (readable x) (writable x) p (ip x) (off x).

Definition acquire_ftable : M unit := b <- gets flock ;; if b : bool then stop Sleep else modify (set_flock true).
Definition release_ftable : M unit := modify (set_flock false).

Definition init_ftable : M unit := modify (set_flock false).

Definition filealloc : M (option Z) :=
  acquire_ftable ;;;
  r <- for_upto (Z.to_nat NOFILE) 0 (fun i =>
    x <- load_file i ;;
    if ref x <=? 0 then update_file i (set_ref 1) ;;; release_ftable ;;; ret (Some i) else ret None) ;;
  match r with
  | Some i => ret (Some i)
  | None => release_ftable ;;; ret None
  end.

Definition filedup (f : Z) : M Z :=
  acquire_ftable ;;; update_file f (fun x => set_ref (i32 (ref x + 1)) x) ;;; release_ftable ;;; ret f.

(** [ctx] is the address of the operation context on the stack; [t] the
    calling thread. *)
Definition fileclose (ctx t f : Z) : M unit :=
  acquire_ftable ;;;
  update_file f (fun x => set_ref (i32 (ref x - 1)) x) ;;;
  x <- load_file f ;;
  if ref x =? 0 then
    match fty x with
    | FD_INODE =>
        update_file f (set_fty FD_NONE) ;;;
        release_ftable ;;;
        on_bcache (bc_begin_op ctx) ;;;
        on_inodes (inode_put sblock (Some ctx) (ip x)) ;;;
        on_bcache (bc_end_op ctx)
    | FD_PIPE => on_pipe (fpipe x) (pipeClose t (writable x)) ;;; release_ftable
    | FD_NONE => ret tt
    end
  else release_ftable.

(** The value returned and what is stored through [st]. *)
Definition filestat (f : Z) : M (Z * option stat) :=
  x <- load_file f ;;
  if bool_decide (fty x = FD_INODE) then
    on_inodes (inode_lock (ip x)) ;;;
    st <- on_inodes (stati (ip x)) ;;
    on_inodes (inode_unlock (ip x)) ;;;
    ret (0, Some st)
  else ret (-1, None).

(** Enough for a call on a pipe that does not wait: a few steps at each end and
    four per byte. *)
Definition pipe_fuel (n : Z) : nat := 4 * Z.to_nat n + 6.

(** The value returned and the bytes stored from [addr] on. *)
Definition fileread (t f n : Z) : M (Z * list Z) :=
  x <- load_file f ;;
  if bool_decide (fty x = FD_INODE) && readable x then
    on_inodes (inode_lock (ip x)) ;;;
    r <- on_inodes (inode_read (ip x) (off x) (u64 n)) ;;
    update_file f (set_off (u64 (off x + r.1))) ;;;
    on_inodes (inode_unlock (ip x)) ;;;
    ret r
  else if bool_decide (fty x = FD_PIPE) && readable x then
    dst <- on_pipe (fpipe x) (pipeRead (pipe_fuel n) t (i32 n)) ;;
    ret (Z.of_nat (length dst), dst)
  else ret (-1, []).

(** [mx] of [filewrite]. *)
Definition filewrite_max : Z := (OP_MAX_NUM_BLOCKS - 1 - 1 - 2) / 2 * BLOCK_SIZE.

Definition filewrite_turn (ctx f : Z) (src : list Z) (n t : Z) : M (Z + Z) :=
  if t <? n then
    let t := Z.min filewrite_max (u64 (n - t)) in
    on_bcache (bc_begin_op ctx) ;;;
    x <- load_file f ;;
    on_inodes (inode_lock (ip x)) ;;;
    t <- on_inodes (inode_write sblock (Some ctx) (ip x) src (off x) t) ;;
    update_file f (set_off (u64 (off x + t))) ;;;
    on_inodes (inode_unlock (ip x)) ;;;
    on_bcache (bc_end_op ctx) ;;;
    ret (inl t)
  else ret (inr t).

Definition filewrite (fuel : nat) (ctx t f : Z) (src : list Z) (n : Z) : M Z :=
  x <- load_file f ;;
  if bool_decide (fty x = FD_INODE) && writable x then while fuel (filewrite_turn ctx f src n) 0
  else if bool_decide (fty x = FD_PIPE) && writable x then on_pipe (fpipe x) (pipeWrite (pipe_fuel n) t src (i32 n))
  else ret (-1).

(** [f0] and [f1], or [None] for -1; [kpage] is what the new pipe's buffer
    holds. *)
Definition pipeAlloc (ctx t : Z) : M (option (Z * Z)) :=
  f0 <- filealloc ;;
  match f0 with
  | None => ret None
  | Some f0 =>
      f1 <- filealloc ;;
      match f1 with
      | None => fileclose ctx t f0 ;;; ret None
      | Some f1 =>
          p <- gets (fun s => kalloc (dom (pipes s))) ;;
          modify (set_pipes (insert p (init_pipe kpage))) ;;;
          update_file f0 (set_fty FD_PIPE) ;;; update_file f1 (set_fty FD_PIPE) ;;;
          update_file f0 (set_rw true false) ;;; update_file f1 (set_rw false true) ;;;
          update_file f0 (set_fpipe p) ;;; update_file f1 (set_fpipe p) ;;;
          ret (Some (f0, f1))
      end
  end.
End code.
