(* ===== verification/FileProps.v ===== *)
(** * What open files promise (fs/file.c) *)
From stdpp Require Import base gmap list.
From Stdlib Require Import ZArith Lia.
From S2P Require Import Prelude Bytes Bitmap BCache BlockStore BCacheProps BCacheStore CString Console Inode InodeFile InodeMap InodeWrite InodeProps Pipe File.

(** ** How many bytes [inode_write] says it wrote *)
Lemma for_acc_partial {S A} (P : Z -> A -> Prop) (body : Z -> A -> M S A) n i a s a' s' :
  P i a -> (forall j a s a' s', i <= j < i + Z.of_nat n -> P j a -> body j a s = Ret (a', s') -> P (j + 1) a') ->
  for_acc n i body a s = Ret (a', s') -> P (i + Z.of_nat n) a'.
Proof.
  revert i a s. induction n as [|n IH]; intros i a s Ha Hb E.
  - unfold for_acc, ret in E. simplify_eq. by replace (i + Z.of_nat 0) with i by lia.
  - cbn [for_acc] in E. apply bind_inv in E as (a1 & s1 & E1 & E).
    replace (i + Z.of_nat (Datatypes.S n)) with (i + 1 + Z.of_nat n) by lia.
    apply (IH (i + 1) a1 s1); [by eapply Hb; [lia|..]| |done]. intros j b t b' t' Hj. apply Hb. lia.
Qed.

Lemma assert_inv {S} b (s s' : S) u : assert b s = Ret (u, s') -> b = true /\ s' = s.
Proof. destruct b; intros E; [|done]. unfold assert, ret in E. by simplify_eq. Qed.

Section partial.
Context {St : Type} {BC : BlockCache St} (sblock : SuperBlock).

Lemma load_entry_inv p (s s' : ist St) e : load_entry p s = Ret (e, s') -> s' = s /\ exists i, iheap s !! p = Some i /\ e = entry i.
Proof.
  unfold load_entry, load_inode. intros E. apply bind_inv in E as (i & s1 & E1 & E).
  destruct (iheap s !! p) as [i'|]; [|done]. unfold ret in E. simplify_eq. eauto.
Qed.

Lemma write_turn_count ctx p src end_ off i st s st' s' :
  turn_ok off end_ i -> st = (pos off end_ i, pos off end_ i - off) -> write_turn ctx p src end_ i st s = Ret (st', s') ->
  st' = (pos off end_ (i + 1), pos off end_ (i + 1) - off).
Proof.
  intros Ht -> E. pose proof (turn_length _ _ _ Ht) as Hn. destruct (turn_bounds _ _ _ Ht) as (Hi & Hie & Hps & Hp1 & Hpo & Hpe & Hp2).
  destruct Ht as [Ho He _]. assert (end_ <= 71680) by apply He. unfold write_turn in E. rewrite Hn in E. cbv zeta in E.
  repeat (apply bind_inv in E as (? & ? & _ & E)). unfold ret in E. simplify_eq. rewrite !u64_small by lia. f_equal; lia.
Qed.

(** A call that returns has written all it was asked to. *)
Lemma inode_write_count ctx p src off count (s s' : ist St) r :
  0 <= off < 2 ^ 64 -> 0 < count < 2 ^ 64 -> inode_write sblock ctx p src off count s = Ret (r, s') -> r = count.
Proof.
  intros Ho Hc E. unfold inode_write in E. apply bind_inv in E as (e & s1 & (-> & i & Hp & ->)%load_entry_inv & E).
  cbv zeta in E. destruct (type (entry i) =? INODE_DEVICE).
  - apply bind_inv in E as ([] & s1 & _ & E). unfold console_write in E.
    repeat (apply bind_inv in E as (? & ? & _ & E)). unfold ret in E. by simplify_eq.
  - apply bind_inv in E as ([] & s1 & (_ & ->)%assert_inv & E). apply bind_inv in E as ([] & s1 & (Hm & ->)%assert_inv & E).
    apply bind_inv in E as ([] & s1 & (Hoe & ->)%assert_inv & E). apply Z.leb_le in Hm, Hoe.
    pose proof (wrapu_bound 64 (off + count) ltac:(lia)) as Hb. fold (u64 (off + count)) in Hb.
    assert (Hend : u64 (off + count) = off + count).
    { assert (Hmax : u64 (off + count) <= 71680) by exact Hm. unfold u64, wrapu in *.
      destruct (decide (off + count < 2 ^ 64)) as [Hs|Hs]; [by rewrite Z.mod_small by lia|exfalso].
      assert ((off + count) mod 2 ^ 64 = off + count - 2 ^ 64) by (symmetry; apply (Z.mod_unique _ _ 1); lia). lia. }
    rewrite Hend in *. assert (Hmax : off + count <= 71680) by exact Hm.
    apply bind_inv in E as (st & s1 & E1 & E).
    destruct (turns off (off + count)) as [Et Hturn]; [lia|change INODE_MAX_BYTES with 71680; lia|].
    apply (for_acc_partial (fun i st => st = (pos off (off + count) i, pos off (off + count) i - off))) in E1.
    + rewrite Et in E1. replace (off / BLOCK_SIZE + ((off + count - 1) / BLOCK_SIZE - off / BLOCK_SIZE + 1)) with ((off + count - 1) / BLOCK_SIZE + 1) in E1 by lia.
      rewrite pos_last in E1 by lia. subst st. apply bind_inv in E as (e2 & s2 & _ & E). apply bind_inv in E as ([] & s3 & _ & E).
      unfold ret in E. injection E as <- _. simpl. lia.
    + rewrite pos_first by lia. f_equal. lia.
    + intros j st1 t st2 t' Hj Hst Ew. eapply write_turn_count; [by apply Hturn|exact Hst|exact Ew].
Qed.
End partial.

(** ** Writes of more than three blocks never return *)
Section files.
Context {St : Type} {BC : BlockCache St} (sblock : SuperBlock).

Lemma filewrite_turn_stays ctx f src n t (s s' : fst_ St) r :
  filewrite_max < n < 2 ^ 63 -> 0 <= t <= filewrite_max ->
  (forall i x, ftable s !! i = Some x -> 0 <= off x < 2 ^ 64) ->
  filewrite_turn sblock ctx f src n t s = Ret (r, s') ->
  exists t', r = inl t' /\ 0 <= t' <= filewrite_max /\ (forall i x, ftable s' !! i = Some x -> 0 <= off x < 2 ^ 64).
Proof.
  intros Hn Ht Hoff E. change filewrite_max with 1536 in *. unfold filewrite_turn in E.
  rewrite (proj2 (Z.ltb_lt t n)) in E by lia. cbv zeta in E. change filewrite_max with 1536 in E.
  rewrite u64_small in E by lia. set (w := Z.min 1536 (n - t)) in *.
  apply bind_inv in E as ([] & s1 & E1 & E).
  assert (H1 : ftable s1 = ftable s).
  { unfold on_bcache, on_inodes, zoom in E1. destruct (on_cache _ _) as [[??]|]; [|done]. by simplify_eq. }
  apply bind_inv in E as (x & s2 & E2 & E). unfold load_file in E2. destruct (ftable s1 !! Z.to_nat f) as [x'|] eqn:Hx; [|done].
  injection E2 as -> <-. rewrite H1 in Hx.
  apply bind_inv in E as ([] & s3 & E3 & E).
  assert (H3 : ftable s3 = ftable s1).
  { unfold on_inodes, zoom in E3. destruct (inode_lock _ _) as [[??]|]; [|done]. by simplify_eq. }
  apply bind_inv in E as (t' & s4 & E4 & E). unfold on_inodes, zoom in E4.
  destruct (inode_write _ _ _ _ _ _ _) as [[w' i']|] eqn:Ew; [|done]. injection E4 as <- <-.
  apply inode_write_count in Ew; [|by eapply Hoff|unfold w; lia]. subst w'.
  apply bind_inv in E as ([] & s5 & E5 & E). unfold update_file in E5. cbn [ftable set_inos] in E5.
  rewrite H3, H1, Hx in E5. injection E5 as <-.
  apply bind_inv in E as ([] & s6 & E6 & E).
  apply bind_inv in E as ([] & s7 & E7 & E). unfold ret in E. injection E as <- <-.
  exists w. split; [done|]. split; [unfold w; lia|].
  assert (H7 : ftable s7 = <[Z.to_nat f := set_off (u64 (off x + w)) x]> (ftable s)).
  { unfold on_bcache, on_inodes, zoom in E7. destruct (on_cache _ _) as [[??]|]; [|done]. injection E7 as _ <-. simpl.
    unfold on_inodes, zoom in E6. destruct (inode_unlock _ _) as [[??]|]; [|done]. injection E6 as _ <-. simpl. by rewrite H3, H1. }
  rewrite H7. intros j y [(<- & <- & _)|(_ & Hy)]%list_lookup_insert_Some; [|by eapply Hoff].
  cbn [set_off off]. apply wrapu_bound. lia.
Qed.

(** [filewrite] of more than three blocks (1536 bytes) to a file never
    returns: the loop replaces [t] by the size of the last chunk instead of
    adding it up, so [t < n] stays true and the same bytes are written again
    and again, until something stops the kernel. *)
Theorem filewrite_large_never_returns ctx t f src n fuel (s s' : fst_ St) x r :
  ftable s !! Z.to_nat f = Some x -> fty x = FD_INODE -> writable x = true ->
  (forall i y, ftable s !! i = Some y -> 0 <= off y < 2 ^ 64) -> filewrite_max < n < 2 ^ 63 ->
  filewrite sblock fuel ctx t f src n s <> Ret (r, s').
Proof.
  intros Hx Hty Hw Hoff Hn E. unfold filewrite, load_file in E. unfold bind in E at 1. rewrite Hx, Hty, Hw in E. cbn [andb] in E.
  rewrite bool_decide_eq_true_2 in E by done. clear Hx Hty Hw. revert E.
  assert (Hall : forall t0 s, 0 <= t0 <= filewrite_max -> (forall i y, ftable s !! i = Some y -> 0 <= off y < 2 ^ 64) ->
    while fuel (filewrite_turn sblock ctx f src n) t0 s <> Ret (r, s')).
  { clear s Hoff. induction fuel as [|fuel IH]; intros t0 s H0 Hoff E; [done|].
    rewrite while_S in E. apply bind_inv in E as (r' & s1 & E1 & E).
    destruct (filewrite_turn_stays _ _ _ _ _ _ _ _ Hn H0 Hoff E1) as (t' & -> & Ht' & Hoff').
    by apply (IH t' s1 Ht' Hoff'). }
  apply Hall; [vm_compute; split; congruence|done].
Qed.
End files.

(** ** Smaller writes are one transaction *)
Section transaction.
Context {St : Type} {BC : BlockCache St} (sblock : SuperBlock) {BL : BlockCacheLaws St sblock}.

Lemma inode_lock_Ret p (s : ist St) i :
  iheap s !! p = Some i -> 0 < rc i -> ilock i = 1 -> inode_lock p s = Ret (tt, set_iheap (insert p (set_ilock 0 i)) s).
Proof.
  intros Hp Hr Hl. unfold inode_lock. erewrite bind_Ret by (unfold load_inode; by rewrite Hp).
  rewrite (proj2 (Z.gtb_lt _ _)) by done. erewrite bind_Ret by reflexivity. rewrite Hl. simpl.
  unfold update_inode. by rewrite Hp.
Qed.

Lemma inode_unlock_Ret p (s : ist St) i :
  iheap s !! p = Some i -> 0 < rc i -> ilock i = 0 -> inode_unlock p s = Ret (tt, set_iheap (insert p (set_ilock 1 i)) s).
Proof.
  intros Hp Hr Hl. unfold inode_unlock. erewrite bind_Ret by (unfold load_inode; by rewrite Hp).
  rewrite (proj2 (Z.gtb_lt _ _)) by done. erewrite bind_Ret by reflexivity. rewrite Hl. simpl.
  unfold update_inode. by rewrite Hp.
Qed.

(** A file open for writing between system calls. *)
Record writable_file (s : fst_ St) (v : gmap Z bytes) (f : Z) (x : File) (i : Inode) : Prop := {
  wf_idle : idle (cache (inos s)) v;
  wf_file : ftable s !! Z.to_nat f = Some x;
  wf_kind : fty x = FD_INODE /\ writable x = true;
  wf_inode : iheap (inos s) !! ip x = Some i;
  wf_lock : 0 < rc i /\ ilock i = 1 /\ ivalid i = true /\ 0 <= inode_no i < sb_num_inodes sblock;
  wf_fs : fs_ok sblock v;
  wf_data : file_wf sblock v (entry i);
  wf_off : 0 <= off x <= num_bytes (entry i)
}.

Lemma chunk_turns o n : 0 <= o -> 0 < n <= filewrite_max -> o + n <= INODE_MAX_BYTES -> Z.of_nat (block_turns o (o + n)) <= 4.
Proof.
  change filewrite_max with 1536. change INODE_MAX_BYTES with 71680. intros Ho Hn Hm.
  destruct (turns o (o + n)) as [-> _]; [lia|change INODE_MAX_BYTES with 71680; lia|]. unfold BLOCK_SIZE.
  pose proof (Z.div_mod (o + n - 1) 512 ltac:(lia)). pose proof (Z.mod_pos_bound (o + n - 1) 512 ltac:(lia)).
  pose proof (Z.div_mod o 512 ltac:(lia)). pose proof (Z.mod_pos_bound o 512 ltac:(lia)). lia.
Qed.

(** [filewrite] of at most three blocks to a file is one transaction that
    always fits its reservation of blocks: it begins and ends an operation,
    writes the bytes at the file's offset, advances the offset by [n] and
    returns [n]; the file can be written again, and no other file and no
    other inode changes. *)
Theorem filewrite_one_transaction ctx t f src n s v x i :
  writable_file s v f x i -> 0 < n <= filewrite_max -> off x + n <= INODE_MAX_BYTES ->
  n <= Z.of_nat (length src) -> Forall byte_ok src -> 5 <= free_count sblock v ->
  exists s' v' e',
    filewrite sblock 2 ctx t f src n s = Ret (n, s') /\
    writable_file s' v' f (set_off (off x + n) x) (set_entry e' i) /\
    file_data v' e' = splice (Z.to_nat (off x)) (take (Z.to_nat n) src) (file_data v (entry i)) /\
    others sblock v (entry i) v' e' (inode_no i).
Proof.
  intros [H1 H2 [Hty Hwr] H4 (Hrc & Hlk & Hval & Hno) H6 H7 H8] Hn Hm Hsrc Hb Hfree.
  pose proof (chunk_turns (off x) n ltac:(lia) Hn Hm) as Hturns.
  assert (Hmax : off x + n <= 71680) by exact Hm.
  destruct (begin_law ctx _ _ H1) as (c1 & E1 & A1).
  set (s1 := set_cache c1 (inos s)).
  set (s2 := set_iheap (insert (ip x) (set_ilock 0 i)) s1).
  destruct (inode_write_spec sblock ctx _ s2 (ip x) (set_ilock 0 i) src (off x) n A1) as
    (c2 & a' & e' & E2 & A2 & Hh2 & Hd2 & Hw2 & Hdata & Ho & Hty2 & Hnl2); try done; try lia.
  { simpl. apply lookup_insert_eq. }
  { change (st_budget _) with 10. lia. }
  { simpl st_view. lia. }
  simpl st_view in *. simpl entry in *. simpl inode_no in *.
  set (s3 := set_iheap (insert (ip x) (set_entry e' (set_ilock 0 i))) (set_cache c2 s2)) in *.
  set (s4 := set_iheap (insert (ip x) (set_ilock 1 (set_entry e' (set_ilock 0 i)))) s3).
  destruct (end_law ctx c2 a' A2 Hh2) as (c3 & E3 & A3).
  set (x' := set_off (off x + n) x).
  exists (set_ftable (insert (Z.to_nat f) x') (set_inos (set_cache c3 s4) s)), (st_view a'), e'.
  pose proof (lookup_lt_Some _ _ _ H2) as Hlt.
  split; [|split; [|done]].
  - unfold filewrite. erewrite bind_Ret by (unfold load_file; by rewrite H2). rewrite Hty, Hwr, bool_decide_eq_true_2 by done. cbn [andb].
    rewrite while_S. unfold filewrite_turn at 1. rewrite (proj2 (Z.ltb_lt 0 n)) by lia. cbv zeta.
    rewrite Z.sub_0_r, u64_small by lia. rewrite Z.min_r by lia.
    rewrite !bind_assoc. erewrite bind_Ret by (unfold on_bcache, on_inodes; apply zoom_Ret, on_cache_Ret; exact E1).
    rewrite bind_assoc. erewrite bind_Ret by (unfold load_file; cbn [ftable set_inos]; by rewrite H2).
    rewrite bind_assoc. erewrite bind_Ret by (unfold on_inodes; apply zoom_Ret; cbn [inos set_inos]; apply (inode_lock_Ret (ip x) s1 i); done).
    fold s2. rewrite bind_assoc.
    erewrite bind_Ret by (unfold on_inodes; apply zoom_Ret; cbn [inos set_inos]; exact E2).
    rewrite bind_assoc. erewrite bind_Ret by (unfold update_file; cbn [ftable set_inos]; by rewrite H2).
    rewrite (u64_small (off x + n)) by lia. fold x'. rewrite bind_assoc.
    erewrite bind_Ret by (unfold on_inodes; apply zoom_Ret; cbn [inos set_inos set_ftable];
      apply (inode_unlock_Ret (ip x) s3 (set_entry e' (set_ilock 0 i))); [simpl; apply lookup_insert_eq|done|done]).
    fold s4. rewrite bind_assoc.
    erewrite bind_Ret by (unfold on_bcache, on_inodes; apply zoom_Ret, on_cache_Ret; exact E3).
    rewrite (bind_Ret (ret (inl n)) _ _ _ _ eq_refl). rewrite while_S. unfold filewrite_turn at 1. rewrite Z.ltb_irrefl.
    reflexivity.
  - split; try done.
    + simpl. by apply list_lookup_insert_eq.
    + simpl. rewrite lookup_insert_eq. f_equal. destruct i. simpl in Hlk. by subst.
    + apply (ot_fs _ _ _ _ _ _ Ho).
    + unfold x'. cbn [off set_off entry set_entry].
      pose proof (file_data_length sblock _ _ (fw_maps _ _ _ Hw2)) as Hl'. pose proof (file_data_length sblock _ _ (fw_maps _ _ _ H7)) as Hl.
      rewrite <- Hl', Hdata. unfold splice. rewrite !length_app, !length_take, length_drop. lia.
Qed.
End transaction.

(** ** The table runs out *)
Lemma for_upto_skip {S B} (body : Z -> M S (option B)) k n i s :
  (forall j, i <= j < i + Z.of_nat k -> body j s = Ret (None, s)) -> for_upto (k + n) i body s = for_upto n (i + Z.of_nat k) body s.
Proof.
  revert i. induction k as [|k IH]; intros i Hb; [simpl; f_equal; lia|]. cbn [Nat.add for_upto].
  rewrite (bind_Ret _ _ _ _ _ (Hb i ltac:(lia))), IH by (intros j Hj; apply Hb; lia). f_equal. lia.
Qed.

Section table.
Context {St : Type} {BC : BlockCache St} (sblock : SuperBlock) {KA : Kalloc} (kpage : list Z).
Implicit Types (s : fst_ St).

Definition busy s (i : nat) : Prop := exists x, ftable s !! i = Some x /\ 0 < ref x.

Lemma acquire_Ret s : flock s = false -> acquire_ftable s = Ret (tt, set_flock true s).
Proof. intros Hl. unfold acquire_ftable. rewrite (bind_Ret (gets flock) _ s _ s eq_refl), Hl. done. Qed.

Lemma set_flock_back s : flock s = false -> set_flock false (set_flock true s) = s.
Proof. destruct s. simpl. by intros ->. Qed.

(** The test of a slot that is in use. *)
Lemma busy_turn s i (k : M (fst_ St) (option Z)) :
  busy s (Z.to_nat i) -> (x <- load_file i ;; if ref x <=? 0 then k else ret None) s = Ret (None, s).
Proof.
  intros (x & Hx & Hr). erewrite bind_Ret by (unfold load_file; by rewrite Hx). by rewrite (proj2 (Z.leb_gt _ _)).
Qed.

Lemma filealloc_none s :
  flock s = false -> (forall i, (i < Z.to_nat NOFILE)%nat -> busy s i) -> filealloc s = Ret (None, s).
Proof.
  intros Hl Hb. unfold filealloc. rewrite (bind_Ret _ _ _ _ _ (acquire_Ret s Hl)).
  match goal with |- context [for_upto ?n 0 ?b] => assert (E : for_upto n 0 b (set_flock true s) = Ret (None, set_flock true s)) end.
  - rewrite <- (Nat.add_0_r (Z.to_nat NOFILE)), for_upto_skip; [done|]. intros j Hj. apply busy_turn. apply Hb. lia.
  - rewrite (bind_Ret _ _ _ _ _ E). unfold release_ftable. rewrite (bind_Ret (modify _) _ _ _ _ eq_refl).
    by rewrite set_flock_back.
Qed.

Lemma filealloc_first s k x :
  flock s = false -> (k < Z.to_nat NOFILE)%nat -> (forall i, (i < k)%nat -> busy s i) -> ftable s !! k = Some x -> ref x <= 0 ->
  filealloc s = Ret (Some (Z.of_nat k), set_ftable (insert k (set_ref 1 x)) s).
Proof.
  intros Hl Hk Hb Hx Hr. unfold filealloc. rewrite (bind_Ret _ _ _ _ _ (acquire_Ret s Hl)).
  set (s1 := set_ftable (insert k (set_ref 1 x)) s).
  match goal with |- context [for_upto ?n 0 ?b] => assert (E : for_upto n 0 b (set_flock true s) = Ret (Some (Z.of_nat k), s1)) end.
  - replace (Z.to_nat NOFILE) with (k + S (Z.to_nat NOFILE - S k))%nat by lia.
    rewrite for_upto_skip by (intros j Hj; apply busy_turn; apply Hb; lia). cbn [for_upto]. rewrite Z.add_0_l.
    rewrite (bind_Ret _ _ _ (Some (Z.of_nat k)) s1); [done|].
    erewrite bind_Ret by (unfold load_file; rewrite Nat2Z.id; change (ftable (set_flock true s)) with (ftable s); by rewrite Hx).
    rewrite (proj2 (Z.leb_le _ _)) by done.
    erewrite bind_Ret by (unfold update_file; rewrite Nat2Z.id; change (ftable (set_flock true s)) with (ftable s); by rewrite Hx).
    unfold release_ftable. rewrite (bind_Ret (modify _) _ _ _ _ eq_refl). unfold s1. destruct s. simpl in Hl. by subst.
  - by rewrite (bind_Ret _ _ _ _ _ E).
Qed.

(** When [pipeAlloc] gets only one of its two files it returns -1 with
    the lock of the file table held: [fileclose] on the file it gives back,
    which has no type yet, leaves without releasing the lock, and from then
    on every call of [filealloc], [filedup] or [fileclose] spins for ever. *)
Theorem pipeAlloc_leaves_lock ctx t s k x :
  flock s = false -> (k < Z.to_nat NOFILE)%nat -> ftable s !! k = Some x -> ref x <= 0 -> fty x = FD_NONE ->
  (forall i, (i < Z.to_nat NOFILE)%nat -> i <> k -> busy s i) ->
  exists s', pipeAlloc sblock kpage ctx t s = Ret (None, s') /\
    filealloc s' = Stop Sleep /\ forall f, filedup f s' = Stop Sleep /\ fileclose sblock ctx t f s' = Stop Sleep.
Proof.
  intros Hl Hk Hx Hr Hty Hb. set (s1 := set_ftable (insert k (set_ref 1 x)) s).
  assert (H1 : ftable s1 !! k = Some (set_ref 1 x)) by (simpl; apply list_lookup_insert_eq; by eapply lookup_lt_Some).
  assert (E1 : filealloc s = Ret (Some (Z.of_nat k), s1)) by (apply filealloc_first; try done; intros i Hi; apply Hb; lia).
  assert (E2 : filealloc s1 = Ret (None, s1)).
  { apply filealloc_none; [done|]. intros i Hi. destruct (decide (i = k)) as [->|Hne]; [by exists (set_ref 1 x)|].
    destruct (Hb i Hi Hne) as (y & Hy & Hry). exists y. split; [|done]. simpl. by rewrite list_lookup_insert_ne. }
  set (s2 := set_ftable (insert k (set_ref 0 x)) (set_flock true s1)).
  exists s2. split; [|split; [|intros f; split]].
  - unfold pipeAlloc. rewrite (bind_Ret _ _ _ _ _ E1), (bind_Ret _ _ _ _ _ E2).
    assert (E3 : fileclose sblock ctx t (Z.of_nat k) s1 = Ret (tt, s2)); [|by rewrite (bind_Ret _ _ _ _ _ E3)].
    unfold fileclose. rewrite (bind_Ret _ _ _ _ _ (acquire_Ret s1 Hl)).
    erewrite bind_Ret by (unfold update_file; rewrite Nat2Z.id; change (ftable (set_flock true s1)) with (ftable s1); by rewrite H1).
    change (i32 (ref (set_ref 1 x) - 1)) with 0. change (set_ref 0 (set_ref 1 x)) with (set_ref 0 x).
    change (set_ftable <[k:=set_ref 0 x]> (set_flock true s1)) with s2.
    assert (H2 : ftable s2 !! k = Some (set_ref 0 x)) by (simpl; apply list_lookup_insert_eq; rewrite length_insert; by eapply lookup_lt_Some).
    erewrite bind_Ret by (unfold load_file; rewrite Nat2Z.id; by rewrite H2). cbn [ref set_ref fty]. rewrite Hty. done.
  - done.
  - done.
  - done.
Qed.
End table.

(** ** Examples *)
#[local] Existing Instance ex_kalloc.
#[local] Existing Instance ex_cache.
#[local] Existing Instance ex_laws.

Definition ex_file : File := mkFile FD_INODE 1 true true 0 8 32.
Definition ex_fst : fst_ bcst := mkFst (mkIst ex_fs_boot {[8 := ex_inode]} [8] ex_cons 8) [ex_file] false ∅.

Lemma ex_writable : writable_file ex_sb ex_fst ex_view 0 ex_file ex_inode.
Proof.
  constructor.
  - exact ex_idle.
  - reflexivity.
  - split; reflexivity.
  - reflexivity.
  - vm_compute. repeat split; congruence.
  - apply fs_okb_spec. vm_compute. reflexivity.
  - apply ex_dir_wf.
  - vm_compute. split; congruence.
Qed.

Lemma filewrite_one_transaction_witness :
  exists s' v' e', filewrite ex_sb 2 7 1 0 (replicate 1000 5) 1000 ex_fst = Ret (1000, s') /\
    writable_file ex_sb s' v' 0 (set_off (32 + 1000) ex_file) (set_entry e' ex_inode) /\
    file_data v' e' = splice 32 (take 1000 (replicate 1000 5)) (file_data ex_view ex_dir) /\
    others ex_sb ex_view ex_dir v' e' 1.
Proof.
  apply (filewrite_one_transaction ex_sb 7 1 0 (replicate 1000 5) 1000 ex_fst ex_view ex_file ex_inode ex_writable).
  - vm_compute. split; congruence.
  - vm_compute. congruence.
  - vm_compute. congruence.
  - apply Forall_replicate. vm_compute. split; congruence.
  - rewrite ex_free. vm_compute. congruence.
Defined.

Lemma filewrite_large_never_returns_witness :
  filewrite ex_sb 50 7 1 0 (replicate 2000 5) 2000 ex_fst <> Ret (2000, ex_fst).
Proof.
  apply (filewrite_large_never_returns ex_sb 7 1 0 (replicate 2000 5) 2000 50 ex_fst ex_fst ex_file 2000); [reflexivity|reflexivity|reflexivity| |vm_compute; split; congruence].
  intros [|i] y; simpl; [intros [= <-]; vm_compute; split; congruence|done].
Defined.

(** All but one of the files in use. *)
Definition ex_full : fst_ bcst :=
  mkFst (mkIst ex_fs_boot ∅ [] ex_cons 8) (replicate 127 ex_file ++ [mkFile FD_NONE 0 false false 0 0 0]) false ∅.

Lemma pipeAlloc_leaves_lock_witness :
  exists s', pipeAlloc ex_sb [] 7 1 ex_full = Ret (None, s') /\
    filealloc s' = Stop Sleep /\ forall f, filedup f s' = Stop Sleep /\ fileclose ex_sb 7 1 f s' = Stop Sleep.
Proof.
  apply (pipeAlloc_leaves_lock ex_sb [] 7 1 ex_full 127 (mkFile FD_NONE 0 false false 0 0 0)); try reflexivity.
  - vm_compute. lia.
  - intros i Hi Hne. exists ex_file. split; [|reflexivity]. unfold ex_full. cbn [ftable].
    rewrite lookup_app_l by (rewrite length_replicate; unfold NOFILE in *; lia). apply lookup_replicate_2. unfold NOFILE in *. lia.
Defined.
