(* ===== verification/Format.v ===== *)
(** * Formatted output (common/format.c)

    [put_char] appends to the output, which is the state. The arguments of a
    call are the list of the values [va_arg] gives, each as the machine word
    it is passed in or, for a string, the bytes it points to ([None] for
    NULL). *)
From stdpp Require Import base list sets.
From Stdlib Require Import ZArith Lia.
From S2P Require Import Prelude CString.

Abbreviation out := (list Z).

Inductive arg := AInt (z : Z) | AStr (s : option (list Z)).

Definition put_char (c : Z) : M out unit := modify (fun o => o ++ [u8 c]).

(** ** [_print_int] *)
Definition digit : list Z := [48; 49; 50; 51; 52; 53; 54; 55; 56; 57; 97; 98; 99; 100; 101; 102].
Definition BUF_SIZE := 64.

(** [do *pos++ = digit[v % base]; while (v /= base)]; [buf] is what has been
    stored so far. *)
Definition digits_turn (base : Z) (st : Z * list Z) : M out (Z * list Z + list Z) :=
  let '(v, buf) := st in
  if Z.of_nat (length buf) >=? BUF_SIZE then stop Fault
  else
    d <- rd digit (v mod base) ;;
    let v := v / base in
    ret (if v =? 0 then inr (buf ++ [d]) else inl (v, buf ++ [d])).

(** [do put_char(ctx, *(--pos)); while (pos != buf)] *)
Fixpoint put_all (cs : list Z) : M out unit :=
  match cs with [] => ret tt | c :: cs' => put_char c ;;; put_all cs' end.

Definition _print_int (u base : Z) (is_signed : bool) : M out unit :=
  let v := u64 u in
  v <- (if is_signed && (i64 u <? 0) then put_char 45 ;;; ret (u64 (- v)) else ret v) ;;
  buf <- while 65 (digits_turn base) (v, []) ;;
  put_all (reverse buf).

(** ** [vformat] *)
Definition va_int (args : list arg) : M out (Z * list arg) :=
  match args with AInt z :: args' => ret (z, args') | _ => stop Fault end.

(** [_INT_CASE]: the identifier, how the argument is read and the base; the
    tests in the order of the code. *)
Record int_case := mkCase { ident : list Z; as_type : Z -> Z; ibase : Z; isign : bool }.
Definition int_cases : list int_case :=
  [mkCase [117] u32 10 false; mkCase [108; 108; 117] u64 10 false;
   mkCase [100] i32 10 true; mkCase [108; 108; 100] i64 10 true;
   mkCase [120] u32 16 false; mkCase [108; 108; 120] u64 16 false;
   mkCase [112] u64 16 false; mkCase [122; 117] u64 10 false; mkCase [122; 100] i64 10 true].

Fixpoint try_cases (cases : list int_case) (pos : list Z) (args : list arg) : M out (option (list Z * list arg)) :=
  match cases with
  | [] => ret None
  | c :: cases' =>
      r <- strncmp pos (ident c) (Z.of_nat (length (ident c))) ;;
      if r =? 0 then
        a <- va_int args ;;
        _print_int (as_type c a.1) (ibase c) (isign c) ;;;
        ret (Some (drop (length (ident c)) pos, a.2))
      else try_cases cases' pos args
  end.

Fixpoint put_string (s : list Z) : M out unit :=
  match s with
  | [] => stop Fault
  | c :: s' => if c =? 0 then ret tt else put_char c ;;; put_string s'
  end.

Definition null_string : list Z := [40; 110; 117; 108; 108; 41; 0].

(** What follows a [%]: [None] when it is not special. *)
Definition special (pos : list Z) (args : list arg) : M out (option (list Z * list arg)) :=
  c <- rd pos 0 ;;
  if c =? 37 then put_char 37 ;;; ret (Some (drop 1 pos, args))
  else if c =? 99 then
    a <- va_int args ;; put_char a.1 ;;; ret (Some (drop 1 pos, a.2))
  else if c =? 115 then
    match args with
    | AStr s :: args' => put_string (default null_string s) ;;; ret (Some (drop 1 pos, args'))
    | _ => stop Fault
    end
  else try_cases int_cases pos args.

Definition vformat_turn (st : list Z * list arg) : M out (list Z * list arg + unit) :=
  let '(pos, args) := st in
  c <- rd pos 0 ;;
  let pos := drop 1 pos in
  if c =? 0 then ret (inr tt)
  else
    r <- (if c =? 37 then special pos args else ret None) ;;
    match r with
    | Some (pos, args) => ret (inl (pos, args))
    | None => put_char c ;;; ret (inl (pos, args))
    end.

Definition vformat (fmt : list Z) (args : list arg) : M out unit := while (S (length fmt)) vformat_turn (fmt, args).

(** ** Numbers *)

(** The reference: most significant digit first. *)
Fixpoint to_digits (fuel : nat) (base v : Z) : list Z :=
  match fuel with
  | O => []
  | S fuel' => (if v / base =? 0 then [] else to_digits fuel' base (v / base)) ++ [digit !!! Z.to_nat (v mod base)]
  end.

Definition num_text (u base : Z) (is_signed : bool) : list Z :=
  if is_signed && (i64 u <? 0) then 45 :: to_digits 64 base (u64 (- u64 u)) else to_digits 64 base (u64 u).

(** Reading a number back. *)
Definition digit_value (c : Z) : Z := if c <? 58 then c - 48 else c - 87.
Definition read_digits (base : Z) (s : list Z) : Z := foldl (fun v c => v * base + digit_value c) 0 s.
Definition read_number (base : Z) (s : list Z) : Z :=
  match s with 45 :: s' => - read_digits base s' | _ => read_digits base s end.

Lemma rd_digit (o : out) d : 0 <= d < 16 -> rd digit d o = Ret (digit !!! Z.to_nat d, o).
Proof.
  intros Hd. apply rd_Ret; [lia|]. apply list_lookup_lookup_total_lt. simpl. lia.
Qed.

Lemma put_all_spec cs (o : out) : Forall (fun c => 0 <= c < 256) cs -> put_all cs o = Ret (tt, o ++ cs).
Proof.
  intros H. revert o. induction H as [|c cs Hc _ IH]; intros o; cbn [put_all]; [by rewrite app_nil_r|].
  unfold put_char. rewrite (bind_Ret (modify _) _ _ _ _ eq_refl), IH, <- app_assoc. unfold u8. by rewrite wrapu_small.
Qed.

(** Fuel does not matter once the value is used up. *)
Lemma digits_loop base fuel k v buf (o : out) :
  2 <= base <= 16 -> 0 <= v < base ^ Z.of_nat (S fuel) -> (length buf + S fuel <= 64)%nat -> (S fuel <= k)%nat ->
  while k (digits_turn base) (v, buf) o = Ret (buf ++ reverse (to_digits (S fuel) base v), o) /\
  (length (to_digits (S fuel) base v) <= S fuel)%nat.
Proof.
  intros Hb. revert k v buf. induction fuel as [|fuel IH]; intros k v buf Hv Hl Hk; (destruct k as [|k]; [lia|]);
    rewrite while_S; unfold digits_turn at 1; rewrite Z.geb_leb, (proj2 (Z.leb_gt _ _)) by (unfold BUF_SIZE; lia);
    pose proof (Z.mod_pos_bound v base ltac:(lia)) as Hm; rewrite bind_assoc, (bind_Ret _ _ _ _ _ (rd_digit o (v mod base) ltac:(lia))).
  - rewrite Z.pow_1_r in Hv. rewrite (Z.div_small v base) by lia. simpl. rewrite (Z.div_small v base) by lia. done.
  - cbn [to_digits]. destruct (Z.eqb_spec (v / base) 0) as [E|E]; [simpl; split; [done|lia]|].
    rewrite (bind_Ret (ret _) _ _ _ _ eq_refl).
    assert (Hd : 0 <= v / base < base ^ Z.of_nat (S fuel)).
    { split; [apply Z.div_pos; lia|]. apply Z.div_lt_upper_bound; [lia|].
      rewrite Nat2Z.inj_succ, Z.pow_succ_r in Hv by lia. lia. }
    destruct (IH k (v / base) (buf ++ [digit !!! Z.to_nat (v mod base)])) as [E1 E2]; [done|rewrite length_app; simpl; lia|lia|].
    rewrite E1. rewrite reverse_app, <- app_assoc. split; [done|]. rewrite length_app. simpl in *. lia.
Qed.

Lemma digits_bound base v : 2 <= base -> 0 <= v < 2 ^ 64 -> 0 <= v < base ^ Z.of_nat 64.
Proof.
  intros Hb Hv. split; [lia|]. change (Z.of_nat 64) with 64. assert (2 ^ 64 <= base ^ 64); [|lia].
  apply Z.pow_le_mono_l. lia.
Qed.

Lemma digit_byte d : 0 <= d < 16 -> 0 <= digit !!! Z.to_nat d < 256 /\ digit_value (digit !!! Z.to_nat d) = d /\ digit !!! Z.to_nat d <> 45 /\
  (digit !!! Z.to_nat d = 48 -> d = 0).
Proof.
  intros Hd. assert (Hall : forallb (fun k => let c := digit !!! k in (0 <=? c) && (c <? 256) && (digit_value c =? Z.of_nat k) &&
    negb (c =? 45) && (negb (c =? 48) || (Z.of_nat k =? 0))) (seq 0 16) = true) by by vm_compute.
  rewrite forallb_forall in Hall. specialize (Hall (Z.to_nat d)). rewrite in_seq in Hall. specialize (Hall ltac:(lia)).
  cbv zeta in Hall. rewrite Z2Nat.id in Hall by lia. rewrite !andb_true_iff, orb_true_iff, !negb_true_iff in Hall.
  destruct Hall as ((((H1 & H2) & H3) & H4) & H5). lia.
Qed.

Lemma to_digits_bytes fuel base v : 2 <= base <= 16 -> 0 <= v -> Forall (fun c => 0 <= c < 256) (to_digits fuel base v).
Proof.
  intros Hb. revert v. induction fuel as [|fuel IH]; intros v Hv; cbn [to_digits]; [constructor|].
  apply Forall_app. split; [|apply Forall_singleton, digit_byte; pose proof (Z.mod_pos_bound v base); lia].
  destruct (v / base =? 0); [constructor|]. apply IH, Z.div_pos; lia.
Qed.

Lemma print_int_spec u base is_signed (o : out) :
  2 <= base <= 16 -> _print_int u base is_signed o = Ret (tt, o ++ num_text u base is_signed).
Proof.
  intros Hb. unfold _print_int, num_text. pose proof (wrapu_bound 64 u ltac:(lia)) as Hu. fold (u64 u) in Hu.
  destruct (is_signed && (i64 u <? 0)).
  - pose proof (wrapu_bound 64 (- u64 u) ltac:(lia)) as Hv. fold (u64 (- u64 u)) in Hv.
    rewrite !bind_assoc. unfold put_char. rewrite (bind_Ret (modify _) _ _ _ _ eq_refl), (bind_Ret (ret _) _ _ _ _ eq_refl).
    destruct (digits_loop base 63 65 (u64 (- u64 u)) [] (o ++ [u8 45]) Hb (digits_bound base _ ltac:(lia) Hv)) as [E _]; [simpl; lia|lia|].
    rewrite (bind_Ret _ _ _ _ _ E), app_nil_l, reverse_involutive, put_all_spec by (apply to_digits_bytes; lia).
    by rewrite <- app_assoc.
  - rewrite (bind_Ret (ret _) _ _ _ _ eq_refl).
    destruct (digits_loop base 63 65 (u64 u) [] o Hb (digits_bound base _ ltac:(lia) Hu)) as [E _]; [simpl; lia|lia|].
    by rewrite (bind_Ret _ _ _ _ _ E), app_nil_l, reverse_involutive, put_all_spec by (apply to_digits_bytes; lia).
Qed.

(** Reading gives the value back, and there are no leading zeros. *)
Lemma to_digits_read fuel base v :
  2 <= base <= 16 -> 0 <= v < base ^ Z.of_nat fuel -> read_digits base (to_digits fuel base v) = v.
Proof.
  intros Hb. revert v. induction fuel as [|fuel IH]; intros v Hv; cbn [to_digits]; [simpl in Hv; unfold read_digits; simpl; lia|].
  unfold read_digits in *. rewrite foldl_app. simpl foldl at 1. pose proof (Z.mod_pos_bound v base ltac:(lia)).
  destruct (digit_byte (v mod base)) as (_ & -> & _); [lia|]. pose proof (Z.div_mod v base ltac:(lia)).
  destruct (Z.eqb_spec (v / base) 0) as [E|E]; [simpl; lia|]. rewrite IH; [lia|].
  split; [apply Z.div_pos; lia|]. apply Z.div_lt_upper_bound; [lia|].
  rewrite Nat2Z.inj_succ, Z.pow_succ_r in Hv by lia. lia.
Qed.

Lemma to_digits_head fuel base v :
  2 <= base <= 16 -> 0 <= v < base ^ Z.of_nat (S fuel) ->
  exists c s, to_digits (S fuel) base v = c :: s /\ c <> 45 /\ (c = 48 -> v = 0).
Proof.
  intros Hb. revert v. induction fuel as [|fuel IH]; intros v Hv; cbn [to_digits];
    pose proof (Z.mod_pos_bound v base ltac:(lia)) as Hm; pose proof (Z.div_mod v base ltac:(lia)) as Hdm;
    destruct (digit_byte (v mod base)) as (_ & _ & Hn & Hz); try lia.
  - rewrite Z.pow_1_r in Hv. rewrite (Z.div_small v base) by lia. simpl. eexists _, []. split; [done|]. split; [done|].
    intros E%Hz. rewrite Z.mod_small in E; lia.
  - destruct (Z.eqb_spec (v / base) 0) as [E|E].
    + eexists _, []. split; [done|]. split; [done|]. intros E'%Hz. lia.
    + destruct (IH (v / base)) as (c & s & Es & Hc & Hcz).
      { split; [apply Z.div_pos; lia|]. apply Z.div_lt_upper_bound; [lia|].
        rewrite (Nat2Z.inj_succ (S fuel)), Z.pow_succ_r in Hv by lia. lia. }
      exists c, (s ++ [digit !!! Z.to_nat (v mod base)]). cbn [to_digits] in Es. rewrite Es. split; [done|]. split; [done|]. intros E'%Hcz. lia.
Qed.

Lemma read_negative base s : read_number base (45 :: s) = - read_digits base s.
Proof. done. Qed.

(** [_print_int] prints every 64-bit value so that it reads back as that
    value, with a sign exactly when it is read as signed and negative (the
    smallest value included) and without leading zeros; its buffer never
    overflows. *)
Theorem print_int_reads_back u base is_signed (o : out) :
  2 <= base <= 16 ->
  exists s, _print_int u base is_signed o = Ret (tt, o ++ s) /\
    read_number base s = (if is_signed then i64 u else u64 u) /\
    exists c s', s = (if is_signed && (i64 u <? 0) then [45] else []) ++ c :: s' /\ (c = 48 -> s' = []).
Proof.
  intros Hb. exists (num_text u base is_signed). split; [by apply print_int_spec|].
  pose proof (wrapu_bound 64 u ltac:(lia)) as Hu. fold (u64 u) in Hu.
  assert (Hi : i64 u = if u64 u <? 2 ^ 63 then u64 u else u64 u - 2 ^ 64).
  { unfold i64, wraps, u64, wrapu. change (64 - 1) with 63.
    pose proof (Z.div_mod u (2 ^ 64) ltac:(lia)). pose proof (Z.mod_pos_bound u (2 ^ 64) ltac:(lia)).
    destruct (Z.ltb_spec (u mod 2 ^ 64) (2 ^ 63)).
    - rewrite <- (Z.mod_unique (u + 2 ^ 63) (2 ^ 64) (u / 2 ^ 64) (u mod 2 ^ 64 + 2 ^ 63)); lia.
    - rewrite <- (Z.mod_unique (u + 2 ^ 63) (2 ^ 64) (u / 2 ^ 64 + 1) (u mod 2 ^ 64 - 2 ^ 63)); lia. }
  assert (Hz : forall v, v = 0 -> forall c s, to_digits 64 base v = c :: s -> s = []).
  { intros v -> c s. cbn [to_digits]. rewrite Z.div_0_l by lia. simpl. by intros [= _ <-]. }
  unfold num_text. destruct (is_signed && (i64 u <? 0)) eqn:Es.
  - apply andb_true_iff in Es as [-> Hneg%Z.ltb_lt].
    assert (Ev : u64 (- u64 u) = - i64 u).
    { destruct (Z.ltb_spec (u64 u) (2 ^ 63)); [lia|]. rewrite Hi. unfold u64 at 1, wrapu. symmetry. apply (Z.mod_unique _ _ (-1)); lia. }
    rewrite Ev. assert (Hr : 0 <= - i64 u < 2 ^ 64) by (destruct (u64 u <? 2 ^ 63) eqn:?; lia).
    pose proof (digits_bound base _ ltac:(lia) Hr) as Hbd. split.
    + rewrite read_negative, (to_digits_read 64 base) by done. lia.
    + destruct (to_digits_head 63 base _ Hb Hbd) as (c & s & E & _ & Hc). exists c, s. rewrite E. split; [done|].
      intros E0%Hc. exact (Hz _ E0 c s E).
  - pose proof (digits_bound base _ ltac:(lia) Hu) as Hbd.
    destruct (to_digits_head 63 base _ Hb Hbd) as (c & s & E & Hn & Hc). split.
    + assert (Er : read_number base (to_digits 64 base (u64 u)) = u64 u).
      { pose proof (to_digits_read 64 base _ Hb Hbd) as Hrd. rewrite E in *. unfold read_number.
        destruct c as [|c|c]; [done| |done]. do 6 (destruct c as [c|c|]; try done). }
      rewrite Er. destruct is_signed; [|done]. apply Z.ltb_ge in Es. destruct (Z.ltb_spec (u64 u) (2 ^ 63)); lia.
    + exists c, s. split; [by rewrite E|]. intros E0%Hc. exact (Hz _ E0 c s E).
Qed.

(** ** Format strings

    The reference reads neither [int_cases] nor [digit]: the text of each
    directive, the value it converts its argument to, its base and the numeral
    are written out here. *)
Inductive directive := D_u | D_llu | D_d | D_lld | D_x | D_llx | D_p | D_zu | D_zd.

Definition dir_text (k : directive) : list Z :=
  match k with
  | D_u => [117] | D_llu => [108; 108; 117] | D_d => [100] | D_lld => [108; 108; 100]
  | D_x => [120] | D_llx => [108; 108; 120] | D_p => [112] | D_zu => [122; 117] | D_zd => [122; 100]
  end.

(** A value of [w] bits read as a two's complement number. *)
Definition signed_value (w z : Z) : Z := let r := z mod 2 ^ w in if r <? 2 ^ (w - 1) then r else r - 2 ^ w.

Definition dir_value (k : directive) (z : Z) : Z :=
  match k with
  | D_u | D_x => z mod 2 ^ 32
  | D_llu | D_llx | D_p | D_zu => z mod 2 ^ 64
  | D_d => signed_value 32 z
  | D_lld | D_zd => signed_value 64 z
  end.
Definition dir_base (k : directive) : Z := match k with D_x | D_llx | D_p => 16 | _ => 10 end.

(** The numeral of a number: a minus sign for a negative one, then the digits
    of its absolute value, the most significant first; 64 digits are enough
    for 64 bits in any base. *)
Definition digit_char (d : Z) : Z := if d <? 10 then 48 + d else 87 + d.
Fixpoint digits_of (fuel : nat) (base v : Z) : list Z :=
  match fuel with
  | O => []
  | S fuel' => if v <? base then [digit_char v] else digits_of fuel' base (v / base) ++ [digit_char (v mod base)]
  end.
Definition numeral (base z : Z) : list Z := (if z <? 0 then [45] else []) ++ digits_of 64 base (Z.abs z).

Inductive tok := TLit (c : Z) | TPercent | TChar | TStr | TInt (k : directive).

Definition tok_text (t : tok) : list Z :=
  match t with
  | TLit c => [c] | TPercent => [37; 37] | TChar => [37; 99] | TStr => [37; 115]
  | TInt k => 37 :: dir_text k
  end.
Definition fmt_text (ts : list tok) : list Z := mjoin (tok_text <$> ts) ++ [0].

Definition tok_ok (t : tok) : Prop :=
  match t with TLit c => 0 < c < 256 /\ c <> 37 | _ => True end.

(** What a token prints and the arguments it leaves. *)
Definition tok_out (t : tok) (args : list arg) : option (list Z * list arg) :=
  match t, args with
  | TLit c, _ => Some ([c], args)
  | TPercent, _ => Some ([37], args)
  | TChar, AInt z :: args' => Some ([u8 z], args')
  | TStr, AStr None :: args' => Some ([40; 110; 117; 108; 108; 41], args')
  | TStr, AStr (Some s) :: args' => if bool_decide (0 ∈ s) then Some (u8 <$> cstr (length s) s, args') else None
  | TInt k, AInt z :: args' => Some (numeral (dir_base k) (dir_value k z), args')
  | _, _ => None
  end.

Fixpoint fmt_out (ts : list tok) (args : list arg) : option (list Z) :=
  match ts with
  | [] => Some []
  | t :: ts' => match tok_out t args with
                | Some (s, args') => match fmt_out ts' args' with Some s' => Some (s ++ s') | None => None end
                | None => None
                end
  end.

Lemma put_string_spec s (o : out) : 0 ∈ s -> put_string s o = Ret (tt, o ++ (u8 <$> cstr (length s) s)).
Proof.
  revert o. induction s as [|c s IH]; intros o H; [by apply elem_of_nil in H|]. cbn [put_string cstr length].
  destruct (Z.eqb_spec c 0) as [->|Hc]; [by rewrite app_nil_r|].
  apply elem_of_cons in H as [H|H]; [done|]. unfold put_char. rewrite (bind_Ret (modify _) _ _ _ _ eq_refl), IH by done.
  by rewrite <- app_assoc.
Qed.

(** The row of [int_cases] a directive selects. *)
Definition row_index (k : directive) : nat :=
  match k with
  | D_u => 0 | D_llu => 1 | D_d => 2 | D_lld => 3 | D_x => 4 | D_llx => 5 | D_p => 6 | D_zu => 7 | D_zd => 8
  end.
Definition row_of (k : directive) : int_case := nth (row_index k) int_cases (mkCase [] u64 10 false).

Lemma try_cases_hit k rest z args (o : out) :
  try_cases int_cases (dir_text k ++ rest) (AInt z :: args) o =
    (_print_int (as_type (row_of k) z) (ibase (row_of k)) (isign (row_of k)) ;;; ret (Some (rest, args))) o.
Proof. destruct k; reflexivity. Qed.

Lemma dir_head k rest : exists c s, dir_text k ++ rest = c :: s /\ c <> 37 /\ c <> 99 /\ c <> 115.
Proof. destruct k; (eexists _, _; split; [reflexivity|lia]). Qed.

Lemma digit_char_table d : 0 <= d < 16 -> digit !!! Z.to_nat d = digit_char d.
Proof.
  intros Hd. assert (Hall : forallb (fun k => digit !!! k =? digit_char (Z.of_nat k)) (seq 0 16) = true) by by vm_compute.
  rewrite forallb_forall in Hall. specialize (Hall (Z.to_nat d)). rewrite in_seq, Z2Nat.id in Hall by lia.
  apply Z.eqb_eq, Hall. lia.
Qed.

Lemma to_digits_of fuel base v : 2 <= base <= 16 -> 0 <= v -> to_digits fuel base v = digits_of fuel base v.
Proof.
  intros Hb. revert v. induction fuel as [|fuel IH]; intros v Hv; cbn [to_digits digits_of]; [done|].
  rewrite digit_char_table by (pose proof (Z.mod_pos_bound v base); lia).
  destruct (Z.ltb_spec v base).
  - by rewrite Z.div_small, Z.mod_small by lia.
  - rewrite IH by (apply Z.div_pos; lia). destruct (Z.eqb_spec (v / base) 0) as [E|_]; [|done].
    apply Z.div_small_iff in E; lia.
Qed.

Lemma i64_id u : - 2 ^ 63 <= u < 2 ^ 63 -> i64 u = u.
Proof. intros Hu. unfold i64, wraps. change (64 - 1) with 63. rewrite Z.mod_small; lia. Qed.

Lemma num_text_unsigned u base : 2 <= base <= 16 -> 0 <= u < 2 ^ 64 -> num_text u base false = numeral base u.
Proof.
  intros Hb Hu. unfold num_text, numeral, u64. simpl andb. cbv iota. rewrite wrapu_small by lia.
  rewrite (proj2 (Z.ltb_ge u 0)), Z.abs_eq, to_digits_of by lia. done.
Qed.

Lemma num_text_signed u base : 2 <= base <= 16 -> - 2 ^ 63 <= u < 2 ^ 63 -> num_text u base true = numeral base u.
Proof.
  intros Hb Hu. unfold num_text, numeral. rewrite i64_id by done. simpl andb.
  destruct (Z.ltb_spec u 0) as [Hn|Hn].
  - assert (Eu : u64 u = u + 2 ^ 64) by (unfold u64, wrapu; symmetry; apply (Z.mod_unique _ _ (-1)); lia).
    assert (Ev : u64 (- u64 u) = - u) by (rewrite Eu; unfold u64, wrapu; symmetry; apply (Z.mod_unique _ _ (-1)); lia).
    rewrite Ev, Z.abs_neq, to_digits_of by lia. done.
  - unfold u64. rewrite wrapu_small, Z.abs_eq, to_digits_of by lia. done.
Qed.

Lemma signed_value_wraps w z : 0 < w -> wraps w z = signed_value w z /\ - 2 ^ (w - 1) <= signed_value w z < 2 ^ (w - 1).
Proof.
  intros Hw. assert (E2 : 2 ^ w = 2 * 2 ^ (w - 1)) by (rewrite <- Z.pow_succ_r by lia; f_equal; lia).
  pose proof (Z.pow_pos_nonneg 2 (w - 1) ltac:(lia) ltac:(lia)) as Hp.
  pose proof (Z.div_mod z (2 ^ w) ltac:(lia)). pose proof (Z.mod_pos_bound z (2 ^ w) ltac:(lia)).
  unfold wraps, signed_value. cbv zeta. destruct (Z.ltb_spec (z mod 2 ^ w) (2 ^ (w - 1))).
  - split; [|lia]. rewrite <- (Z.mod_unique (z + 2 ^ (w - 1)) (2 ^ w) (z / 2 ^ w) (z mod 2 ^ w + 2 ^ (w - 1))); lia.
  - split; [|lia]. rewrite <- (Z.mod_unique (z + 2 ^ (w - 1)) (2 ^ w) (z / 2 ^ w + 1) (z mod 2 ^ w - 2 ^ (w - 1))); lia.
Qed.

Lemma row_numeral k z :
  num_text (as_type (row_of k) z) (ibase (row_of k)) (isign (row_of k)) = numeral (dir_base k) (dir_value k z).
Proof.
  pose proof (Z.mod_pos_bound z (2 ^ 32) ltac:(lia)). pose proof (Z.mod_pos_bound z (2 ^ 64) ltac:(lia)).
  destruct (signed_value_wraps 32 z ltac:(lia)) as [E3 H3]. destruct (signed_value_wraps 64 z ltac:(lia)) as [E6 H6].
  change (32 - 1) with 31 in H3. change (64 - 1) with 63 in H6.
  destruct k; cbn [row_of row_index nth int_cases as_type ibase isign dir_base dir_value]; unfold i32, i64; rewrite ?E3, ?E6;
    ((apply num_text_signed; lia) || (apply num_text_unsigned; unfold u32, u64, wrapu; lia)).
Qed.

Lemma row_base k : 2 <= ibase (row_of k) <= 16.
Proof. destruct k; simpl; lia. Qed.

Lemma rd_head c (l : list Z) (o : out) : rd (c :: l) 0 o = Ret (c, o).
Proof. done. Qed.

(** What one token needs: one turn of the loop. *)
Lemma tok_turn t rest args s args' (o : out) :
  tok_ok t -> tok_out t args = Some (s, args') ->
  vformat_turn (tok_text t ++ rest, args) o = Ret (inl (rest, args'), o ++ s).
Proof.
  intros Hok Ht. unfold vformat_turn. destruct t as [c| | | |k]; cbn [tok_text app]; rewrite (bind_Ret _ _ _ _ _ (rd_head _ _ o)); cbn [drop]; rewrite ?drop_0.
  - destruct Hok as [Hc Hn]. rewrite (proj2 (Z.eqb_neq c 0)), (proj2 (Z.eqb_neq c 37)) by lia.
    rewrite (bind_Ret (ret _) _ _ _ _ eq_refl). simpl in Ht. simplify_eq. unfold put_char.
    rewrite (bind_Ret (modify _) _ _ _ _ eq_refl). unfold u8. by rewrite wrapu_small by lia.
  - simpl in Ht. simplify_eq. reflexivity.
  - destruct args as [|[z|] args]; simpl in Ht; simplify_eq. reflexivity.
  - simpl. destruct args as [|[z|st] args]; simpl in Ht; try done.
    unfold special. rewrite bind_assoc, (bind_Ret _ _ _ _ _ (rd_head _ _ o)). simpl.
    rewrite bind_assoc. destruct st as [st|]; simpl in *.
    + case_bool_decide as H0; [|done]. simplify_eq. by rewrite (bind_Ret _ _ _ _ _ (put_string_spec st o H0)).
    + simplify_eq. erewrite bind_Ret by (apply (put_string_spec null_string); unfold null_string; set_solver). done.
  - destruct args as [|[z|] args]; simpl in Ht; simplify_eq. change (37 =? 0) with false. change (37 =? 37) with true. cbv iota.
    unfold special. destruct (dir_head k rest) as (c & s & E & H1 & H2 & H3).
    rewrite bind_assoc, E, (bind_Ret _ _ _ _ _ (rd_head _ _ o)), <- E.
    rewrite (proj2 (Z.eqb_neq c 37)), (proj2 (Z.eqb_neq c 99)), (proj2 (Z.eqb_neq c 115)) by done.
    unfold bind at 1. rewrite (try_cases_hit k rest z args' o).
    rewrite (bind_Ret _ _ _ _ _ (print_int_spec _ _ _ o (row_base k))), row_numeral. done.
Qed.

(** C36: A format string of literal characters and directives prints, for
    arguments of the right kinds, the text each directive stands for, in
    order and nothing else: [%u], [%llu], [%zu] the argument modulo 2^32 or
    2^64 in decimal, [%d], [%lld], [%zd] the two's complement number of 32 or
    64 bits in decimal with its sign, [%x], [%llx], [%p] the argument modulo
    2^32 or 2^64 in hexadecimal, [%c] a character, [%s] a string or [(null)],
    and [%%] a percent sign. The reference is written out independently of
    the table the code dispatches on. *)
Theorem vformat_correct ts args s (o : out) :
  Forall tok_ok ts -> fmt_out ts args = Some s -> vformat (fmt_text ts) args o = Ret (tt, o ++ s).
Proof.
  intros Hok Ho. unfold vformat.
  cut (forall fuel ts args s (o : out), (length ts < fuel)%nat -> Forall tok_ok ts -> fmt_out ts args = Some s ->
    while fuel vformat_turn (fmt_text ts, args) o = Ret (tt, o ++ s)).
  { intros Hall. apply Hall; [|done|done]. unfold fmt_text. rewrite length_app. simpl.
    assert (length ts <= length (mjoin (tok_text <$> ts)))%nat; [|lia]. clear.
    induction ts as [|t ts IH]; simpl; [lia|]. rewrite length_app.
    assert (1 <= length (tok_text t))%nat by (destruct t; simpl; lia). by apply (Nat.add_le_mono 1). }
  clear. induction fuel as [|fuel IH]; intros ts args s o Hf Hok Ho; [lia|]. rewrite while_S.
  destruct Hok as [|t ts Ht Hts]; simpl in Ho; [simplify_eq; by rewrite app_nil_r|].
  destruct (tok_out t args) as [[s1 args1]|] eqn:E1; [|done]. destruct (fmt_out ts args1) as [s2|] eqn:E2; [|done]. simplify_eq.
  assert (Ef : fmt_text (t :: ts) = tok_text t ++ fmt_text ts) by (unfold fmt_text; simpl; by rewrite <- app_assoc).
  rewrite Ef, (bind_Ret _ _ _ _ _ (tok_turn t _ args s1 args1 o Ht E1)).
  rewrite (IH ts args1 s2) by (done || simpl in Hf; lia). by rewrite app_assoc.
Qed.

Lemma print_int_reads_back_witness :
  exists s, _print_int (- 2 ^ 63) 10 true [] = Ret (tt, s) /\ read_number 10 s = - 2 ^ 63 /\
    exists c s', s = [45] ++ c :: s' /\ (c = 48 -> s' = []).
Proof.
  destruct (print_int_reads_back (- 2 ^ 63) 10 true []) as (s & E1 & E2 & E3); [lia|].
  exists s. split; [exact E1|]. split; [exact E2|exact E3].
Defined.

(** "n=%d,%s%%" and "%x %u" *)
Lemma vformat_correct_witness :
  vformat (fmt_text [TLit 110; TLit 61; TInt D_d; TLit 44; TStr; TPercent; TInt D_x; TLit 32; TInt D_u])
      [AInt (-12); AStr None; AInt 255; AInt (-1)] [] =
    Ret (tt, [110; 61; 45; 49; 50; 44; 40; 110; 117; 108; 108; 41; 37; 102; 102; 32; 52; 50; 57; 52; 57; 54; 55; 50; 57; 53]).
Proof.
  apply (vformat_correct [TLit 110; TLit 61; TInt D_d; TLit 44; TStr; TPercent; TInt D_x; TLit 32; TInt D_u]
    [AInt (-12); AStr None; AInt 255; AInt (-1)]
    [110; 61; 45; 49; 50; 44; 40; 110; 117; 108; 108; 41; 37; 102; 102; 32; 52; 50; 57; 52; 57; 54; 55; 50; 57; 53] []).
  - repeat constructor; simpl; lia.
  - vm_compute. reflexivity.
Defined.
