(* ===== verification/Mmu.v ===== *)
(** * Address arithmetic of the kernel (aarch64/mmu.h, driver/memlayout.h)

    Addresses and page-table entries are 64-bit words. *)
From stdpp Require Import base numbers.
From Stdlib Require Import ZArith Lia.
From S2P Require Import Prelude.

Definition PAGE_SIZE := 4096.
Definition PHYSTOP := 0x3f000000.
Definition KSPACE_MASK := 0xffff000000000000.
Definition K2P (a : Z) : Z := u64 (a - KSPACE_MASK).
Definition P2K (a : Z) : Z := u64 (a + KSPACE_MASK).
Definition PAGE_BASE (a : Z) : Z := Z.land a (Z.lnot (PAGE_SIZE - 1)).

Definition PTE_VALID := 1.
Definition PTE_TABLE := 3.
Definition PTE_PAGE := 3.
Definition PTE_USER := Z.shiftl 1 6.
Definition PTE_RO := Z.shiftl 1 7.
Definition MT_NORMAL := 1.
Definition SH_OUTER := Z.shiftl 2 8.
Definition AF_USED := Z.shiftl 1 10.
Definition PTE_NORMAL := Z.lor (Z.lor (Z.shiftl MT_NORMAL 2) AF_USED) SH_OUTER.
Definition PTE_USER_DATA := Z.lor (Z.lor PTE_USER PTE_NORMAL) PTE_PAGE.
Definition N_PTE_PER_TABLE := 512.
Definition PTE_ADDRESS (pte : Z) : Z := Z.land pte (u64 (Z.lnot 0xFFFF000000000FFF)).
Definition PTE_FLAGS (pte : Z) : Z := Z.land pte 0xFFFF000000000FFF.
Definition VA_PART0 (va : Z) : Z := Z.shiftr (Z.land va 0xFF8000000000) 39.
Definition VA_PART1 (va : Z) : Z := Z.shiftr (Z.land va 0x7FC0000000) 30.
Definition VA_PART2 (va : Z) : Z := Z.shiftr (Z.land va 0x3FE00000) 21.
Definition VA_PART3 (va : Z) : Z := Z.shiftr (Z.land va 0x1FF000) 12.

(** ** Bits and arithmetic *)

(** Masking a field of bits, as arithmetic. *)
Lemma land_field a lo n : 0 <= lo -> 0 <= n -> Z.land a (Z.shiftl (Z.ones n) lo) = ((a / 2 ^ lo) mod 2 ^ n) * 2 ^ lo.
Proof.
  intros Hl Hn. rewrite <- Z.land_ones, <- Z.shiftr_div_pow2, <- Z.shiftl_mul_pow2 by done.
  apply Z.bits_inj'. intros i Hi. rewrite Z.land_spec, !Z.shiftl_spec by done.
  destruct (Z.ltb_spec i lo).
  - rewrite !(Z.testbit_neg_r _ (i - lo)) by lia. by rewrite andb_false_r.
  - rewrite Z.land_spec, Z.shiftr_spec by lia. by replace (i - lo + lo) with i by lia.
Qed.

Lemma field_part a lo n : 0 <= lo -> 0 <= n -> Z.shiftr (Z.land a (Z.shiftl (Z.ones n) lo)) lo = (a / 2 ^ lo) mod 2 ^ n.
Proof.
  intros Hl Hn. rewrite land_field, Z.shiftr_div_pow2 by done. apply Z.div_mul. assert (0 < 2 ^ lo) by (apply Z.pow_pos_nonneg; lia). lia.
Qed.

Lemma land_align a n : 0 <= n -> Z.land a (Z.lnot (2 ^ n - 1)) = a - a mod 2 ^ n.
Proof.
  intros Hn. rewrite <- Z.ldiff_land. change (2 ^ n - 1) with (Z.pred (2 ^ n)).
  rewrite <- Z.ones_equiv, Z.ldiff_ones_r, Z.shiftl_mul_pow2, Z.shiftr_div_pow2 by done.
  pose proof (Z.div_mod a (2 ^ n)). assert (0 < 2 ^ n) by (apply Z.pow_pos_nonneg; lia). lia.
Qed.

Lemma PAGE_BASE_mod a : PAGE_BASE a = a - a mod 4096.
Proof. exact (land_align a 12 ltac:(lia)). Qed.

Lemma VA_PART0_mod va : VA_PART0 va = (va / 2 ^ 39) mod 512.
Proof. exact (field_part va 39 9 ltac:(lia) ltac:(lia)). Qed.
Lemma VA_PART1_mod va : VA_PART1 va = (va / 2 ^ 30) mod 512.
Proof. exact (field_part va 30 9 ltac:(lia) ltac:(lia)). Qed.
Lemma VA_PART2_mod va : VA_PART2 va = (va / 2 ^ 21) mod 512.
Proof. exact (field_part va 21 9 ltac:(lia) ltac:(lia)). Qed.
Lemma VA_PART3_mod va : VA_PART3 va = (va / 2 ^ 12) mod 512.
Proof. exact (field_part va 12 9 ltac:(lia) ltac:(lia)). Qed.

Lemma PTE_ADDRESS_mod pte : PTE_ADDRESS pte = ((pte / 2 ^ 12) mod 2 ^ 36) * 2 ^ 12.
Proof. exact (land_field pte 12 36 ltac:(lia) ltac:(lia)). Qed.

Lemma P2K_K2P a : 0 <= a < 2 ^ 64 -> P2K (K2P a) = a.
Proof.
  intros Ha. unfold P2K, K2P, u64, wrapu. rewrite Zplus_mod_idemp_l.
  replace (a - KSPACE_MASK + KSPACE_MASK) with a by lia. by apply Z.mod_small.
Qed.

Lemma K2P_range a : KSPACE_MASK <= a < 2 ^ 64 -> K2P a = a - KSPACE_MASK.
Proof. intros Ha. unfold K2P. apply u64_small. unfold KSPACE_MASK in *. lia. Qed.

Lemma wraps_add w a b : wraps w (wraps w a + b) = wraps w (a + b).
Proof.
  unfold wraps. f_equal. replace ((a + 2 ^ (w - 1)) mod 2 ^ w - 2 ^ (w - 1) + b + 2 ^ (w - 1)) with ((a + 2 ^ (w - 1)) mod 2 ^ w + b) by lia.
  rewrite Zplus_mod_idemp_l. f_equal. lia.
Qed.
