(* ===== verification/Mem.v ===== *)
(** * Page and slab allocator (kernel/mem.c)

    The memory is a map from addresses to the 64-bit words stored there (a
    word not written yet reads 0), in which the free lists and the size words
    of the slab pages live beside the clients' data. [page_ref] is indexed by
    page frame, with 0 for the entries not written yet. The free lists are
    the lock-free queues of common/list.c, whose calls run atomically here
    (LockFree.v is about their interleavings). *)
From stdpp Require Import base gmap list.
From Stdlib Require Import ZArith Lia.
From S2P Require Import Prelude LockFree Mmu.

Definition N := 16.
Definition NSLAB := PAGE_SIZE / N.
Definition NPAGE := PHYSTOP / PAGE_SIZE.

Record mem_st := mkMem {
  alloc_page_cnt : Z; pages : Z; slab : list Z; page_ref : gmap Z Z; zero_page : Z; words : gmap Z Z }.

Definition set_cnt (f : Z -> Z) (s : mem_st) := mkMem (f (alloc_page_cnt s)) (pages s) (slab s) (page_ref s) (zero_page s) (words s).
Definition set_pages (v : Z) (s : mem_st) := mkMem (alloc_page_cnt s) v (slab s) (page_ref s) (zero_page s) (words s).
Definition set_slab (f : list Z -> list Z) (s : mem_st) := mkMem (alloc_page_cnt s) (pages s) (f (slab s)) (page_ref s) (zero_page s) (words s).
Definition set_ref (f : gmap Z Z -> gmap Z Z) (s : mem_st) := mkMem (alloc_page_cnt s) (pages s) (slab s) (f (page_ref s)) (zero_page s) (words s).
Definition set_zero (v : Z) (s : mem_st) := mkMem (alloc_page_cnt s) (pages s) (slab s) (page_ref s) v (words s).
Definition set_words (f : gmap Z Z -> gmap Z Z) (s : mem_st) := mkMem (alloc_page_cnt s) (pages s) (slab s) (page_ref s) (zero_page s) (f (words s)).

(** ** Memory *)
Definition ram (a : Z) : bool := (KSPACE_MASK <=? a) && (a <? KSPACE_MASK + PHYSTOP) && (a mod 8 =? 0).
Definition rd_word (a : Z) : M mem_st Z := fun s => if ram a then Ret (default 0 (words s !! a), s) else Stop Fault.
Definition wr_word (a v : Z) : M mem_st unit := fun s => if ram a then Ret (tt, set_words (insert a v) s) else Stop Fault.

Fixpoint zero_words (n : nat) (a : Z) (w : gmap Z Z) : gmap Z Z :=
  match n with O => w | S n' => <[a := 0]> (zero_words n' (a + 8) w) end.
(** [memset(p, 0, PAGE_SIZE)] *)
Definition clear_page (p : Z) : M mem_st unit := if ram p then modify (set_words (zero_words 512 p)) else stop Fault.

(** ** The free lists *)
Inductive qhead := QPages | QSlab (i : Z).

Definition get_head (q : qhead) : M mem_st Z :=
  match q with
  | QPages => gets pages
  | QSlab i => fun s => if (0 <=? i) && (i <? NSLAB) then match slab s !! Z.to_nat i with Some h => Ret (h, s) | None => Stop Fault end else Stop Fault
  end.
Definition put_head (q : qhead) (v : Z) : M mem_st unit :=
  match q with
  | QPages => modify (set_pages v)
  | QSlab i => if (0 <=? i) && (i <? NSLAB) then modify (set_slab (insert (Z.to_nat i) v)) else stop Fault
  end.

Definition add_to_queue (head : qhead) (node : Z) : M mem_st unit :=
  h <- get_head head ;; wr_word node h ;;; put_head head node.

Definition fetch_from_queue (head : qhead) : M mem_st Z :=
  node <- get_head head ;;
  if node =? 0 then ret 0 else n <- rd_word node ;; put_head head n ;;; ret node.

(** ** Pages *)
Definition _increment_rc : M mem_st unit := modify (set_cnt (fun c => i64 (c + 1))).
Definition _decrement_rc : M mem_st bool := modify (set_cnt (fun c => i64 (c - 1))) ;;; c <- gets alloc_page_cnt ;; ret (c <=? 0).

Definition page_index (p : Z) : Z := K2P p / PAGE_SIZE.
Definition get_ref (i : Z) : M mem_st Z :=
  fun s => if (0 <=? i) && (i <? NPAGE) then Ret (default 0 (page_ref s !! i), s) else Stop Fault.
Definition put_ref (i v : Z) : M mem_st unit :=
  if (0 <=? i) && (i <? NPAGE) then modify (set_ref (insert i v)) else stop Fault.

Definition kalloc_page : M mem_st Z :=
  _decrement_rc ;;;
  p <- fetch_from_queue QPages ;;
  put_ref (page_index p) 0 ;;;
  ret p.

Definition increment_ref (ka : Z) : M mem_st unit :=
  r <- get_ref (page_index ka) ;; put_ref (page_index ka) (i8 (r + 1)).

(** ** Slabs *)
Definition add_turn (size _end it : Z) : M mem_st (Z + unit) :=
  if it + size <? _end then add_to_queue (QSlab (Z.quot size N)) it ;;; ret (inl (it + size)) else ret (inr tt).

Definition _add_page (fuel : nat) (size : Z) : M mem_st unit :=
  it <- kalloc_page ;;
  let _end := it + PAGE_SIZE in
  wr_word it size ;;;
  while fuel (add_turn size _end) (it + 8).

Definition kalloc_turn (fuel : nat) (size : Z) (_ : unit) : M mem_st (unit + Z) :=
  mem <- fetch_from_queue (QSlab (Z.quot size N)) ;;
  if mem =? 0 then _add_page fuel size ;;; ret (inl tt) else ret (inr mem).

Definition kalloc (fuel : nat) (size : Z) : M mem_st Z :=
  let size := Z.land (size + N - 1) (Z.lnot (N - 1)) in
  while fuel (kalloc_turn fuel size) tt.

Definition kfree (p : Z) : M mem_st unit :=
  if p =? 0 then ret tt
  else
    let head := Z.land p (Z.lnot (PAGE_SIZE - 1)) in
    size <- rd_word head ;;
    add_to_queue (QSlab (Z.quot size N)) p.

Definition left_page_cnt : M mem_st Z := c <- gets alloc_page_cnt ;; ret (u64 c).
Definition get_zero_page : M mem_st Z := gets zero_page.

Definition check_turn (i : Z) : M mem_st (option bool) :=
  z <- gets zero_page ;; v <- rd_word (z + 8 * i) ;; ret (if v =? 0 then None else Some false).
Definition check_zero_page : M mem_st bool := r <- for_upto (Z.to_nat (PAGE_SIZE / 64)) 0 check_turn ;; ret (default true r).

Section Mem.
(** [end], the first address after the kernel image. *)
Context (kend : Z).

Definition pages_turn (p : Z) : M mem_st (Z + unit) :=
  if p <? P2K PHYSTOP then add_to_queue QPages p ;;; _increment_rc ;;; ret (inl (u64 (p + PAGE_SIZE))) else ret (inr tt).
Definition init_pages : M mem_st unit :=
  modify (set_cnt (fun _ => 0)) ;;;
  while (S (Z.to_nat NPAGE)) pages_turn (PAGE_BASE kend + PAGE_SIZE).

Definition init_zero_page : M mem_st unit :=
  z <- kalloc_page ;; modify (set_zero z) ;;; clear_page z.

Definition kfree_page (p : Z) : M mem_st unit :=
  z <- gets zero_page ;;
  if (p =? z) || (p <? PAGE_BASE kend) then ret tt
  else
    r <- get_ref (page_index p) ;;
    put_ref (page_index p) (i8 (r - 1)) ;;;
    r <- get_ref (page_index p) ;;
    when (r <=? 0) (_increment_rc ;;; add_to_queue QPages p).
End Mem.

(** ** The invariant

    [lo] is the first allocatable page. The ghost state names the free pages,
    the slab pages with their object size, the free objects of each size, the
    objects handed out and the pages handed out with their reference count. *)
Record ghost := mkGhost {
  gfree : list Z; gslab : gmap Z Z; gslots : list (list Z); gobjs : gmap Z Z; gheld : gmap Z Z }.

Definition page_ok (lo p : Z) : Prop :=
  KSPACE_MASK <= lo /\ lo <= p /\ p + PAGE_SIZE <= KSPACE_MASK + PHYSTOP /\ p mod PAGE_SIZE = 0.

(** [a] is a place for an object of [sz] bytes in a slab page. *)
Definition slot (sl : gmap Z Z) (a sz : Z) : Prop :=
  exists b k, sl !! b = Some sz /\ 0 <= k /\ a = b + 8 + k * sz /\ 8 + k * sz + sz < PAGE_SIZE.

Record mem_inv (lo : Z) (s : mem_st) (g : ghost) : Prop := {
  i_pages : stk (words s) (pages s) (gfree g);
  i_len : length (slab s) = 256%nat /\ length (gslots g) = 256%nat;
  i_slabs : forall i l, gslots g !! i = Some l -> exists h, slab s !! i = Some h /\ stk (words s) h l;
  i_ok : forall p, p ∈ gfree g \/ is_Some (gslab g !! p) \/ is_Some (gheld g !! p) -> page_ok lo p;
  i_nodup : NoDup (gfree g);
  i_sep : forall p, p ∈ gfree g -> gslab g !! p = None /\ gheld g !! p = None;
  i_sep2 : forall p, is_Some (gslab g !! p) -> gheld g !! p = None;
  i_size : forall b sz, gslab g !! b = Some sz -> words s !! b = Some sz /\ 16 <= sz <= 4080 /\ sz mod 16 = 0;
  i_free : forall i l a, gslots g !! i = Some l -> a ∈ l -> slot (gslab g) a (16 * Z.of_nat i);
  i_slnd : forall i l, gslots g !! i = Some l -> NoDup l;
  i_objs : forall a sz, gobjs g !! a = Some sz -> slot (gslab g) a sz /\ forall i l, gslots g !! i = Some l -> a ∉ l;
  i_all : forall a sz, slot (gslab g) a sz -> gobjs g !! a = Some sz \/ exists i l, gslots g !! i = Some l /\ a ∈ l;
  i_ref : forall p n, gheld g !! p = Some n -> 0 <= n /\ default 0 (page_ref s !! page_index p) = i8 n;
  i_cnt : alloc_page_cnt s = Z.of_nat (length (gfree g))
}.

(** The words the allocator itself uses. *)
Definition ctl (g : ghost) (w : Z) : Prop :=
  w ∈ gfree g \/ is_Some (gslab g !! w) \/ exists i l, gslots g !! i = Some l /\ w ∈ l.

(** *** Geometry *)
Lemma page_ok_ram lo p d : page_ok lo p -> 0 <= d < PAGE_SIZE -> d mod 8 = 0 -> ram (p + d) = true.
Proof.
  unfold page_ok, ram, PAGE_SIZE. intros (H1 & H2 & H3 & H4) Hd Hd8.
  assert ((p + d) mod 8 = 0).
  { rewrite Z.add_mod, Hd8, Z.add_0_r, Z.mod_mod by lia. pose proof (Z.div_mod p 4096 ltac:(lia)).
    replace p with (512 * (p / 4096) * 8) by lia. by apply Z.mod_mul. }
  lia.
Qed.

Lemma page_ok_index lo p : page_ok lo p -> 0 <= page_index p < NPAGE /\ p <> 0 /\ page_index p * PAGE_SIZE + KSPACE_MASK = p.
Proof.
  unfold page_ok, page_index, NPAGE, PAGE_SIZE. intros (H1 & H2 & H3 & H4).
  rewrite K2P_range by (unfold KSPACE_MASK, PHYSTOP in *; lia).
  pose proof (Z.div_mod p 4096 ltac:(lia)) as Hp. unfold KSPACE_MASK, PHYSTOP in *.
  replace (p - 18446462598732840960) with ((p / 4096 - 4503530907893760) * 4096) by lia.
  rewrite Z.div_mul by lia. change (1056964608 / 4096) with 258048. lia.
Qed.

Lemma page_index_inj lo p q : page_ok lo p -> page_ok lo q -> page_index p = page_index q -> p = q.
Proof. intros (_ & _ & Hp)%page_ok_index (_ & _ & Hq)%page_ok_index E. rewrite E in Hp. congruence. Qed.

(** Different pages do not overlap. *)
Lemma pages_apart p q d : p mod PAGE_SIZE = 0 -> q mod PAGE_SIZE = 0 -> 0 <= d < PAGE_SIZE -> p <= q + d < p + PAGE_SIZE -> p = q.
Proof.
  unfold PAGE_SIZE. intros Hp Hq Hd H. pose proof (Z.div_mod p 4096 ltac:(lia)). pose proof (Z.div_mod q 4096 ltac:(lia)). lia.
Qed.

Section inv.
Context (lo : Z) (s : mem_st) (g : ghost) (H : mem_inv lo s g).

Lemma slab_page b sz : gslab g !! b = Some sz -> page_ok lo b.
Proof using H. intros Hb. apply (i_ok _ _ _ H). right. left. by exists sz. Qed.

Lemma slot_in a sz : slot (gslab g) a sz ->
  exists b k, gslab g !! b = Some sz /\ page_ok lo b /\ a = b + (8 + k * sz) /\ 0 <= k /\ 8 <= 8 + k * sz /\ 8 + k * sz + sz < PAGE_SIZE /\
    16 <= sz <= 4080 /\ sz mod 16 = 0.
Proof using H.
  intros (b & k & Hb & Hk & -> & Hlt). exists b, k. destruct (i_size _ _ _ H b sz Hb) as (_ & Hsz & Hm).
  split; [done|]. split; [by eapply slab_page|]. assert (0 <= k * sz) by (apply Z.mul_nonneg_nonneg; lia). lia.
Qed.

Lemma slot_ram a sz : slot (gslab g) a sz -> ram a = true /\ a <> 0.
Proof using H.
  intros (b & k & _ & Hok & -> & Hk & Hlo & Hlt & Hsz & Hm)%slot_in.
  assert (Hm8 : (8 + k * sz) mod 8 = 0).
  { pose proof (Z.div_mod sz 16 ltac:(lia)) as Hs. rewrite Hs, Hm. replace (8 + k * (16 * (sz / 16) + 0)) with ((1 + k * (2 * (sz / 16))) * 8) by lia.
    by apply Z.mod_mul. }
  split; [|apply page_ok_index in Hok as ?; destruct Hok as (? & ? & ?); unfold KSPACE_MASK in *; lia].
  eapply page_ok_ram; [done| |done]. unfold PAGE_SIZE in *. lia.
Qed.

(** Places of objects do not overlap. *)
Lemma slots_apart a sz a' sz' d : slot (gslab g) a sz -> slot (gslab g) a' sz' -> 0 <= d < sz' -> a <= a' + d < a + sz -> a = a' /\ sz = sz'.
Proof using H.
  intros (b & k & Hb & Hok & -> & Hk & Hlo & Hlt & Hsz & Hm)%slot_in (b' & k' & Hb' & Hok' & -> & Hk' & Hlo' & Hlt' & Hsz' & Hm')%slot_in Hd Ha.
  assert (b = b') as <-.
  { destruct Hok as (_ & _ & _ & Hb0), Hok' as (_ & _ & _ & Hb0'). apply (pages_apart b b' (8 + k' * sz' + d)); [done|done|lia|lia]. }
  rewrite Hb in Hb'. injection Hb' as <-. split; [|done]. assert (k = k') as ->; [|done].
  assert (k < k' + 1) by nia. assert (k' < k + 1) by nia. lia.
Qed.

Lemma slot_not_page a sz p d : slot (gslab g) a sz -> page_ok lo p -> 0 <= d < sz -> p <= a + d < p + PAGE_SIZE -> gslab g !! p = Some sz /\ p <> a + d.
Proof using H.
  intros (b & k & Hb & Hok & -> & Hk & Hlo & Hlt & Hsz & Hm)%slot_in Hp Hd Ha.
  assert (p = b) as ->; [|split; [done|lia]].
  destruct Hok as (_ & _ & _ & Hb0), Hp as (_ & _ & _ & Hb0'). apply (pages_apart p b (8 + k * sz + d)); [done|done|lia|lia].
Qed.

Lemma obj_not_ctl a sz w : gobjs g !! a = Some sz -> a <= w < a + sz -> ~ ctl g w.
Proof using H.
  intros Ha Hw. destruct (i_objs _ _ _ H a sz Ha) as [Hs Hn]. intros [Hf|[Hsl|(i & l & Hl & Hin)]].
  - pose proof (i_ok _ _ _ H w ltac:(by left)) as Hok. destruct (slot_not_page a sz w (w - a) Hs Hok) as [_ Hne]; [lia|unfold PAGE_SIZE; lia|lia].
  - pose proof (i_ok _ _ _ H w ltac:(by right; left)) as Hok. destruct (slot_not_page a sz w (w - a) Hs Hok) as [_ Hne]; [lia|unfold PAGE_SIZE; lia|lia].
  - pose proof (i_free _ _ _ H i l w Hl Hin) as Hs'. pose proof Hs' as (_ & _ & _ & _ & _ & _ & _ & _ & Hsz' & _)%slot_in.
    destruct (slots_apart a sz w (16 * Z.of_nat i) 0 Hs Hs') as [-> _]; [lia|lia|]. by eapply Hn.
Qed.

Lemma held_not_ctl p n w : gheld g !! p = Some n -> p <= w < p + PAGE_SIZE -> ~ ctl g w.
Proof using H.
  intros Hp Hw. pose proof (i_ok _ _ _ H p ltac:(right; right; by exists n)) as Hok.
  assert (Hpg : forall q, page_ok lo q -> p <= q < p + PAGE_SIZE -> q = p).
  { intros q (_ & _ & _ & Hq) Hr. symmetry. apply (pages_apart p q 0); [apply Hok|done|unfold PAGE_SIZE; lia|lia]. }
  intros [Hf|[Hsl|(i & l & Hl & Hin)]].
  - rewrite (Hpg w (i_ok _ _ _ H w (or_introl Hf)) Hw) in Hf. destruct (i_sep _ _ _ H p Hf). congruence.
  - rewrite (Hpg w (i_ok _ _ _ H w (or_intror (or_introl Hsl))) Hw) in Hsl. pose proof (i_sep2 _ _ _ H p Hsl). congruence.
  - pose proof (i_free _ _ _ H i l w Hl Hin) as Hs'. pose proof Hs' as (_ & _ & _ & _ & _ & _ & _ & _ & Hsz' & _)%slot_in.
    destruct (slot_not_page w (16 * Z.of_nat i) p 0 Hs' Hok) as [Hsl _]; [lia|lia|].
    pose proof (i_sep2 _ _ _ H p ltac:(by eexists)). congruence.
Qed.
End inv.

(** *** Writes to memory *)
Lemma write_inv lo s g w v : mem_inv lo s g -> ~ ctl g w -> mem_inv lo (set_words (insert w v) s) g.
Proof.
  intros H Hc. pose proof H as []. constructor; simpl; try done.
  - apply stk_insert_ne; [|done]. intros Hw. apply Hc. by left.
  - intros i l Hl. destruct (i_slabs0 i l Hl) as (h & Hh & Hs). exists h. split; [done|].
    apply stk_insert_ne; [|done]. intros Hw. apply Hc. right. right. eauto.
  - intros b sz Hb. rewrite lookup_insert_ne; [by apply i_size0|]. intros <-. apply Hc. right. left. eauto.
Qed.

Lemma clear_inv lo s g p n k :
  mem_inv lo s g -> gheld g !! p = Some n -> (k <= 512)%nat -> forall q, p <= q -> q + 8 * Z.of_nat k <= p + PAGE_SIZE ->
  mem_inv lo (set_words (zero_words k q) s) g.
Proof.
  intros H Hp. induction k as [|k IH]; intros Hk q Hq Hle; [by destruct s|]. cbn [zero_words].
  change (set_words (fun w => <[q := 0]> (zero_words k (q + 8) w)) s) with (set_words (insert q 0) (set_words (zero_words k (q + 8)) s)).
  apply write_inv; [apply IH; unfold PAGE_SIZE in *; lia|]. eapply held_not_ctl; [done|done|unfold PAGE_SIZE in *; lia].
Qed.

Lemma wr_word_Ret a v s : ram a = true -> wr_word a v s = Ret (tt, set_words (insert a v) s).
Proof. intros Ha. unfold wr_word. by rewrite Ha. Qed.
Lemma rd_word_Ret a v s : ram a = true -> words s !! a = Some v -> rd_word a s = Ret (v, s).
Proof. intros Ha Hv. unfold rd_word. by rewrite Ha, Hv. Qed.

Lemma slab_head s i h : (i < 256)%nat -> slab s !! i = Some h -> get_head (QSlab (Z.of_nat i)) s = Ret (h, s).
Proof.
  intros Hi Hh. simpl. change NSLAB with 256. rewrite (proj2 (Z.leb_le _ _)), (proj2 (Z.ltb_lt _ _)) by lia. simpl. by rewrite Nat2Z.id, Hh.
Qed.
Lemma put_slab_head s i h : (i < 256)%nat -> put_head (QSlab (Z.of_nat i)) h s = Ret (tt, set_slab (insert i h) s).
Proof.
  intros Hi. simpl. change NSLAB with 256. rewrite (proj2 (Z.leb_le _ _)), (proj2 (Z.ltb_lt _ _)) by lia. simpl. by rewrite Nat2Z.id.
Qed.

Definition class (sz : Z) : nat := Z.to_nat (sz / 16).
Lemma class_spec sz : 16 <= sz <= 4080 -> sz mod 16 = 0 -> (class sz < 256)%nat /\ 16 * Z.of_nat (class sz) = sz /\ Z.quot sz N = Z.of_nat (class sz).
Proof.
  intros Hsz Hm. unfold class, N. pose proof (Z.div_mod sz 16 ltac:(lia)). rewrite Z.quot_div_nonneg by lia. rewrite Z2Nat.id by lia. lia.
Qed.

(** *** Freeing and taking an object *)
Definition give_slot (a sz : Z) (l : list Z) (g : ghost) : ghost :=
  mkGhost (gfree g) (gslab g) (<[class sz := a :: l]> (gslots g)) (delete a (gobjs g)) (gheld g).
Definition take_slot (a sz : Z) (l : list Z) (g : ghost) : ghost :=
  mkGhost (gfree g) (gslab g) (<[class sz := l]> (gslots g)) (<[a := sz]> (gobjs g)) (gheld g).

Lemma push_slot lo s g a sz :
  mem_inv lo s g -> gobjs g !! a = Some sz ->
  exists l s', gslots g !! class sz = Some l /\ add_to_queue (QSlab (Z.quot sz N)) a s = Ret (tt, s') /\ mem_inv lo s' (give_slot a sz l g) /\ zero_page s' = zero_page s.
Proof.
  intros H Ha. destruct (i_objs _ _ _ H a sz Ha) as [Hs Hn]. pose proof (obj_not_ctl lo s g H a sz a Ha) as Hc.
  pose proof (slot_in lo s g H a sz Hs) as (_ & _ & _ & _ & _ & _ & _ & _ & Hsz & Hm).
  destruct (slot_ram lo s g H a sz Hs) as [Hram H0]. destruct (class_spec sz Hsz Hm) as (Hi & Hi2 & ->).
  destruct (i_len _ _ _ H) as [L1 L2]. destruct (lookup_lt_is_Some_2 (gslots g) (class sz)) as [l Hl]; [lia|].
  destruct (i_slabs _ _ _ H _ l Hl) as (h & Hh & Hst). exists l. eexists. split; [done|].
  split; [|split].
  - unfold add_to_queue. rewrite (bind_Ret _ _ _ _ _ (slab_head s _ h Hi Hh)), (bind_Ret _ _ _ _ _ (wr_word_Ret a h s Hram)). by apply put_slab_head.
  - apply (write_inv lo s g a h) in H; [|apply Hc; lia]. destruct H. constructor; simpl in *; try done.
    + by rewrite !length_insert.
    + intros i l' Hl'. apply list_lookup_insert_Some in Hl' as [(<- & <- & _)|(Hne & Hl')].
      * exists a. rewrite list_lookup_insert_eq by lia. split; [done|]. split; [done|]. split; [done|]. exists h. rewrite lookup_insert_eq. split; [done|].
        apply stk_insert_ne; [by eapply Hn|done].
      * rewrite list_lookup_insert_ne by done. by apply i_slabs0.
    + intros i l' b Hl' Hb. apply list_lookup_insert_Some in Hl' as [(<- & <- & _)|(Hne & Hl')]; [|by eapply i_free0].
      rewrite Hi2. apply elem_of_cons in Hb as [->|Hb]; [done|]. rewrite <- Hi2. by eapply i_free0.
    + intros i l' Hl'. apply list_lookup_insert_Some in Hl' as [(<- & <- & _)|(Hne & Hl')]; [|by eapply i_slnd0].
      constructor; [by eapply Hn|by eapply i_slnd0].
    + intros b z [Hne Hb]%lookup_delete_Some. destruct (i_objs0 b z Hb) as [Hsb Hnb]. split; [done|].
      intros i l' Hl'. apply list_lookup_insert_Some in Hl' as [(<- & <- & _)|(_ & Hl')]; [|by eapply Hnb].
      apply not_elem_of_cons. split; [done|by eapply Hnb].
    + intros b z Hb. destruct (decide (a = b)) as [<-|Hne].
      * right. exists (class sz), (a :: l). rewrite list_lookup_insert_eq by lia. split; [done|by left].
      * destruct (i_all0 b z Hb) as [Ho|(i & l' & Hl' & Hb')]; [left; by rewrite lookup_delete_ne|right].
        destruct (decide (i = class sz)) as [->|Hi'].
        -- exists (class sz), (a :: l). rewrite list_lookup_insert_eq by lia. split; [done|]. right. congruence.
        -- exists i, l'. by rewrite list_lookup_insert_ne.
  - done.
Qed.

Lemma pop_slot lo s g sz a l :
  mem_inv lo s g -> 16 <= sz <= 4080 -> sz mod 16 = 0 -> gslots g !! class sz = Some (a :: l) ->
  exists s', fetch_from_queue (QSlab (Z.quot sz N)) s = Ret (a, s') /\ a <> 0 /\ mem_inv lo s' (take_slot a sz l g) /\ zero_page s' = zero_page s.
Proof.
  intros H Hsz Hm Hl. destruct (class_spec sz Hsz Hm) as (Hi & Hi2 & ->).
  destruct (i_slabs _ _ _ H _ _ Hl) as (h & Hh & (-> & H0 & b & Hb & Hst)).
  pose proof (i_free _ _ _ H _ _ a Hl ltac:(by left)) as Hs. rewrite Hi2 in Hs. destruct (slot_ram lo s g H a sz Hs) as [Hram _].
  pose proof (i_slnd _ _ _ H _ _ Hl) as [Hal Hnd]%NoDup_cons. destruct (i_len _ _ _ H) as [L1 L2].
  eexists. split; [|split; [done|split]].
  - unfold fetch_from_queue. rewrite (bind_Ret _ _ _ _ _ (slab_head s _ a Hi Hh)), (proj2 (Z.eqb_neq a 0)) by done.
    rewrite (bind_Ret _ _ _ _ _ (rd_word_Ret a b s Hram Hb)), (bind_Ret _ _ _ _ _ (put_slab_head s _ b Hi)). done.
  - destruct H. constructor; simpl in *; try done.
    + by rewrite !length_insert.
    + intros i l' Hl'. apply list_lookup_insert_Some in Hl' as [(<- & <- & _)|(Hne & Hl')].
      * exists b. by rewrite list_lookup_insert_eq by lia.
      * rewrite list_lookup_insert_ne by done. by apply i_slabs0.
    + intros i l' c Hl' Hc. apply list_lookup_insert_Some in Hl' as [(<- & <- & _)|(Hne & Hl')]; [|by eapply i_free0].
      eapply i_free0; [done|by right].
    + intros i l' Hl'. apply list_lookup_insert_Some in Hl' as [(<- & <- & _)|(Hne & Hl')]; [done|by eapply i_slnd0].
    + intros c z Hc. apply lookup_insert_Some in Hc as [(<- & <-)|(Hne & Hc)].
      * split; [done|]. intros i l' Hl' Hin. apply list_lookup_insert_Some in Hl' as [(<- & <- & _)|(Hne & Hl')]; [done|].
        pose proof (i_free0 i l' a Hl' Hin) as Hs'. destruct (slots_apart lo s g ltac:(by constructor) a (16 * Z.of_nat i) a sz 0 Hs' Hs); [lia| |lia].
        pose proof Hs' as (b' & k' & Hb' & _). destruct (i_size0 b' _ Hb'). lia.
      * destruct (i_objs0 c z Hc) as [Hsc Hnc]. split; [done|].
        intros i l' Hl' Hin. apply list_lookup_insert_Some in Hl' as [(<- & <- & _)|(_ & Hl')]; [|by eapply Hnc].
        eapply Hnc; [done|by right].
    + intros c z Hc. destruct (decide (a = c)) as [<-|Hne].
      * left. rewrite lookup_insert_eq. f_equal.
        pose proof Hc as (b' & k' & Hb' & _). destruct (i_size0 b' _ Hb') as (_ & Hz & _).
        destruct (slots_apart lo s g ltac:(by constructor) a z a sz 0 Hc Hs); [lia|lia|done].
      * destruct (i_all0 c z Hc) as [Ho|(i & l' & Hl' & Hc')]; [left; by rewrite lookup_insert_ne|right].
        destruct (decide (i = class sz)) as [->|Hi'].
        -- exists (class sz), l. rewrite list_lookup_insert_eq by lia. split; [done|]. rewrite Hl in Hl'. injection Hl' as <-. by apply elem_of_cons in Hc' as [->|?].
        -- exists i, l'. by rewrite list_lookup_insert_ne.
  - done.
Qed.

(** *** Pages *)
Definition hold_page (p : Z) (l : list Z) (g : ghost) : ghost :=
  mkGhost l (gslab g) (gslots g) (gobjs g) (<[p := 0]> (gheld g)).
Definition drop_page (p : Z) (g : ghost) : ghost :=
  mkGhost (p :: gfree g) (gslab g) (gslots g) (gobjs g) (delete p (gheld g)).
Definition count_page (p n : Z) (g : ghost) : ghost :=
  mkGhost (gfree g) (gslab g) (gslots g) (gobjs g) (<[p := n]> (gheld g)).

Lemma get_ref_Ret s i : 0 <= i < NPAGE -> get_ref i s = Ret (default 0 (page_ref s !! i), s).
Proof. intros Hi. unfold get_ref. by rewrite (proj2 (Z.leb_le _ _)), (proj2 (Z.ltb_lt _ _)) by lia. Qed.
Lemma put_ref_Ret s i v : 0 <= i < NPAGE -> put_ref i v s = Ret (tt, set_ref (insert i v) s).
Proof. intros Hi. unfold put_ref. by rewrite (proj2 (Z.leb_le _ _)), (proj2 (Z.ltb_lt _ _)) by lia. Qed.

Lemma ref_held lo s g p n v q m :
  mem_inv lo s g -> page_ok lo p -> gheld g !! q = Some m -> p <> q \/ (m = n /\ v = i8 n) ->
  0 <= m /\ default 0 (<[page_index p := v]> (page_ref s) !! page_index q) = i8 m.
Proof.
  intros H Hp Hq Hor. destruct (i_ref _ _ _ H q m Hq) as [Hm Hr]. split; [done|].
  pose proof (i_ok _ _ _ H q ltac:(right; right; by exists m)) as Hqo. rewrite lookup_insert. case_decide as E; [|done].
  apply (page_index_inj lo) in E; [|done|done]. destruct Hor as [?|[-> ->]]; done.
Qed.

Lemma kalloc_page_spec lo s g p l :
  mem_inv lo s g -> gfree g = p :: l -> Z.of_nat (length (gfree g)) < 2 ^ 63 ->
  exists s', kalloc_page s = Ret (p, s') /\ mem_inv lo s' (hold_page p l g) /\ zero_page s' = zero_page s /\ p <> 0 /\ words s' = words s.
Proof.
  intros H Hf Hlen. pose proof (i_ok _ _ _ H p ltac:(left; rewrite Hf; by left)) as Hok.
  destruct (page_ok_index lo p Hok) as (Hi & H0 & _). pose proof (page_ok_ram lo p 0 Hok ltac:(unfold PAGE_SIZE; lia) eq_refl) as Hram. rewrite Z.add_0_r in Hram.
  pose proof (i_cnt _ _ _ H) as Hcnt. pose proof (i_pages _ _ _ H) as Hst. rewrite Hf in Hst, Hlen, Hcnt. destruct Hst as (Hp & _ & b & Hb & Hst).
  simpl in Hlen, Hcnt.
  eexists. split; [|split; [|split; [|split; [done|]]]].
  - unfold kalloc_page, _decrement_rc. rewrite bind_assoc, (bind_Ret (modify _) _ _ _ _ eq_refl), bind_assoc, (bind_Ret (gets _) _ _ _ _ eq_refl), (bind_Ret (ret _) _ _ _ _ eq_refl).
    unfold fetch_from_queue, get_head. rewrite bind_assoc, (bind_Ret (gets _) _ _ _ _ eq_refl). simpl pages. rewrite Hp, (proj2 (Z.eqb_neq p 0)) by done.
    rewrite bind_assoc. erewrite bind_Ret by (apply rd_word_Ret; [done|exact Hb]). rewrite bind_assoc, (bind_Ret (put_head QPages _) _ _ tt _ eq_refl), (bind_Ret (ret _) _ _ _ _ eq_refl).
    rewrite (bind_Ret _ _ _ _ _ (put_ref_Ret _ _ 0 Hi)). reflexivity.
  - assert (Hnew : forall q m, <[p := 0]> (gheld g) !! q = Some m -> 0 <= m /\ default 0 (<[page_index p := 0]> (page_ref s) !! page_index q) = i8 m).
    { intros q m [(<- & <-)|(Hne & Hq)]%lookup_insert_Some; [by rewrite lookup_insert_eq|]. apply (ref_held lo s g p m 0); auto. }
    destruct H. constructor; simpl; try done.
    + intros q [Hq|[Hq|[m [(<- & <-)|(Hne & Hq)]%lookup_insert_Some]]]; [|by auto|done|].
      * apply i_ok0. left. rewrite Hf. by right.
      * apply i_ok0. eauto.
    + rewrite Hf in i_nodup0. by apply NoDup_cons in i_nodup0 as [_ ?].
    + intros q Hq. rewrite Hf in i_nodup0. apply NoDup_cons in i_nodup0 as [Hn _].
      rewrite lookup_insert_ne by (intros ->; done). apply i_sep0. rewrite Hf. by right.
    + intros q Hq. rewrite lookup_insert_ne; [by apply i_sep3|]. intros <-.
      destruct (i_sep0 p) as [E _]; [rewrite Hf; by left|]. rewrite E in Hq. by destruct Hq.
    + rewrite Hcnt. unfold i64. rewrite wraps_small; lia.
  - done.
  - done.
Qed.

Lemma increment_ref_spec lo s g p n :
  mem_inv lo s g -> gheld g !! p = Some n ->
  exists s', increment_ref p s = Ret (tt, s') /\ mem_inv lo s' (count_page p (n + 1) g) /\ zero_page s' = zero_page s /\ words s' = words s.
Proof.
  intros H Hn. pose proof (i_ok _ _ _ H p ltac:(right; right; by exists n)) as Hok. destruct (page_ok_index lo p Hok) as (Hi & H0 & _).
  destruct (i_ref _ _ _ H p n Hn) as [Hn0 Hr]. eexists. split; [|split; [|split]].
  - unfold increment_ref. rewrite (bind_Ret _ _ _ _ _ (get_ref_Ret s _ Hi)), Hr. by apply put_ref_Ret.
  - pose proof (wraps_add 8 n 1) as Hi8. fold i8 in Hi8.
    assert (Hnew : forall q m, <[p := n + 1]> (gheld g) !! q = Some m -> 0 <= m /\ default 0 (<[page_index p := i8 (i8 n + 1)]> (page_ref s) !! page_index q) = i8 m).
    { intros q m [(<- & <-)|(Hne & Hq)]%lookup_insert_Some; [rewrite lookup_insert_eq; split; [lia|done]|]. apply (ref_held lo s g p m _); auto. }
    destruct H. constructor; simpl; try done.
    + intros q [Hq|[Hq|[m [(<- & <-)|(Hne & Hq)]%lookup_insert_Some]]]; eauto.
    + intros q Hq. rewrite lookup_insert_ne by (intros ->; destruct (i_sep0 _ Hq); congruence). by apply i_sep0.
    + intros q Hq. rewrite lookup_insert_ne by (intros ->; specialize (i_sep3 _ Hq); congruence). by apply i_sep3.
  - done.
  - done.
Qed.

Lemma wraps_neg_small n : 0 <= n <= 128 -> i8 (n - 1) = n - 1.
Proof. intros Hn. unfold i8. apply wraps_small; lia. Qed.

(** A page joins the free pages. *)
Lemma push_page lo s g p :
  mem_inv lo s g -> page_ok lo p -> ~ ctl g p -> gheld g !! p = None -> Z.of_nat (length (gfree g)) < 2 ^ 63 - 1 ->
  exists s', (_increment_rc ;;; add_to_queue QPages p) s = Ret (tt, s') /\
    (forall B (k : M mem_st B), (add_to_queue QPages p ;;; _increment_rc ;;; k) s = k s') /\
    (zero_page s' = zero_page s /\ words s' = <[p := pages s]> (words s)) /\
    mem_inv lo s' (mkGhost (p :: gfree g) (gslab g) (gslots g) (gobjs g) (gheld g)).
Proof.
  intros H Hok Hc Hh Hlen. destruct (page_ok_index lo p Hok) as (Hi & H0 & _).
  pose proof (page_ok_ram lo p 0 Hok ltac:(unfold PAGE_SIZE; lia) eq_refl) as Hram. rewrite Z.add_0_r in Hram.
  eexists. split; [|split; [|split]].
  - unfold _increment_rc. rewrite (bind_Ret (modify _) _ _ _ _ eq_refl). unfold add_to_queue, get_head. rewrite (bind_Ret (gets _) _ _ _ _ eq_refl).
    rewrite (bind_Ret _ _ _ _ _ (wr_word_Ret p _ _ Hram)). reflexivity.
  - intros B k. unfold add_to_queue, get_head. rewrite bind_assoc, (bind_Ret (gets _) _ _ _ _ eq_refl).
    rewrite bind_assoc, (bind_Ret _ _ _ _ _ (wr_word_Ret p _ _ Hram)). reflexivity.
  - done.
  - apply (write_inv lo s g p (pages s)) in H; [|done]. destruct H. constructor; simpl in *; try done.
    + split; [done|]. split; [done|]. exists (pages s). by rewrite lookup_insert_eq.
    + intros q [[->|Hq]%elem_of_cons|Hq]; eauto.
    + constructor; [|done]. intros Hp. apply Hc. by left.
    + intros q [->|Hq]%elem_of_cons; [|by apply i_sep0]. split; [|done]. destruct (gslab g !! p) as [z|] eqn:E; [|done].
      destruct Hc. right. left. by exists z.
    + rewrite i_cnt0. unfold i64. rewrite wraps_small; lia.
Qed.

Lemma release_inv lo s g p n v :
  mem_inv lo s g -> gheld g !! p = Some n ->
  mem_inv lo (set_ref (insert (page_index p) v) s) (mkGhost (gfree g) (gslab g) (gslots g) (gobjs g) (delete p (gheld g))).
Proof.
  intros H Hn. pose proof (i_ok _ _ _ H p ltac:(right; right; by exists n)) as Hok.
  assert (Hnew : forall q m, delete p (gheld g) !! q = Some m -> 0 <= m /\ default 0 (<[page_index p := v]> (page_ref s) !! page_index q) = i8 m).
  { intros q m [Hne Hq]%lookup_delete_Some. apply (ref_held lo s g p m v q m H Hok Hq). by left. }
  destruct H. constructor; simpl in *; try done.
  - intros q [Hq|[Hq|[m [Hne Hq]%lookup_delete_Some]]]; eauto 6.
  - intros q Hq. destruct (i_sep0 q Hq) as [? Hh]. split; [done|]. rewrite lookup_delete_ne; [done|]. intros ->. congruence.
  - intros q Hq. rewrite lookup_delete_ne; [by apply i_sep3|]. intros ->. specialize (i_sep3 _ Hq). congruence.
Qed.

(** The count drops by one, wrapping around at 8 bits. *)
Lemma kfree_page_run kend s g p n :
  let lo := PAGE_BASE kend + PAGE_SIZE in
  mem_inv lo s g -> gheld g !! p = Some n -> p <> zero_page s ->
  kfree_page kend p s = (when (i8 (n - 1) <=? 0) (_increment_rc ;;; add_to_queue QPages p)) (set_ref (insert (page_index p) (i8 (n - 1))) s).
Proof.
  intros lo H Hn Hz. pose proof (i_ok _ _ _ H p ltac:(right; right; by exists n)) as Hok. destruct (page_ok_index lo p Hok) as (Hi & H0 & _).
  destruct (i_ref _ _ _ H p n Hn) as [Hn0 Hr].
  assert (Hn8 : i8 (i8 n - 1) = i8 (n - 1)) by exact (wraps_add 8 n (-1)).
  unfold kfree_page. rewrite (bind_Ret (gets _) _ _ _ _ eq_refl), (proj2 (Z.eqb_neq p (zero_page s))) by done.
  rewrite (proj2 (Z.ltb_ge _ _)) by (destruct Hok; unfold lo, PAGE_SIZE in *; lia). change (false || false) with false. cbv iota.
  rewrite (bind_Ret _ _ _ _ _ (get_ref_Ret s _ Hi)), Hr, Hn8, (bind_Ret _ _ _ _ _ (put_ref_Ret s _ _ Hi)).
  rewrite (bind_Ret _ _ _ _ _ (get_ref_Ret (set_ref (insert (page_index p) (i8 (n - 1))) s) _ Hi)). simpl page_ref. by rewrite lookup_insert_eq.
Qed.

(** A page whose count is not positive any more is freed. *)
Lemma kfree_page_frees kend s g p n :
  let lo := PAGE_BASE kend + PAGE_SIZE in
  mem_inv lo s g -> gheld g !! p = Some n -> p <> zero_page s -> i8 (n - 1) <= 0 -> Z.of_nat (length (gfree g)) < 2 ^ 63 - 1 ->
  exists s', kfree_page kend p s = Ret (tt, s') /\ mem_inv lo s' (drop_page p g) /\ zero_page s' = zero_page s /\ words s' = <[p := pages s]> (words s).
Proof.
  intros lo H Hn Hz Hle Hlen. rewrite (kfree_page_run kend s g p n H Hn Hz), (proj2 (Z.leb_le _ _)) by done.
  destruct (push_page lo _ _ p (release_inv lo s g p n (i8 (n - 1)) H Hn)) as (s' & E & _ & [Hz' Hw'] & H'); [|eapply (held_not_ctl lo s g H p n); [done|unfold PAGE_SIZE; lia]| |done|exists s'; done].
  - apply (i_ok _ _ _ H). right. right. by exists n.
  - apply lookup_delete_eq.
Qed.

(** A page goes back when its last reference is dropped. *)
Lemma kfree_page_spec kend s g p n :
  let lo := PAGE_BASE kend + PAGE_SIZE in
  mem_inv lo s g -> gheld g !! p = Some n -> p <> zero_page s -> n <= 127 -> Z.of_nat (length (gfree g)) < 2 ^ 63 - 1 ->
  exists s', kfree_page kend p s = Ret (tt, s') /\ mem_inv lo s' (if n <=? 1 then drop_page p g else count_page p (n - 1) g) /\ zero_page s' = zero_page s.
Proof.
  intros lo H Hn Hz Hle Hlen. destruct (i_ref _ _ _ H p n Hn) as [Hn0 Hr]. pose proof (wraps_neg_small n ltac:(lia)) as Hn8.
  destruct (Z.leb_spec n 1) as [Hd|Hd].
  { destruct (kfree_page_frees kend s g p n H Hn Hz) as (s' & E & H' & Hz' & _); [lia|done|eauto]. }
  rewrite (kfree_page_run kend s g p n H Hn Hz), Hn8, (proj2 (Z.leb_gt _ _)) by lia.
  pose proof (i_ok _ _ _ H p ltac:(right; right; by exists n)) as Hok. eexists. split; [reflexivity|]. split; [|done].
  assert (Hnew : forall q m, <[p := n - 1]> (gheld g) !! q = Some m -> 0 <= m /\ default 0 (<[page_index p := n - 1]> (page_ref s) !! page_index q) = i8 m).
  { intros q m [(<- & <-)|(Hne & Hq)]%lookup_insert_Some; [rewrite lookup_insert_eq; split; [lia|by rewrite Hn8]|]. apply (ref_held lo s g p m _); auto. }
  destruct H. constructor; simpl; try done.
  - intros q [Hq|[Hq|[m [(<- & <-)|(Hne & Hq)]%lookup_insert_Some]]]; eauto.
  - intros q Hq. rewrite lookup_insert_ne by (intros ->; destruct (i_sep0 _ Hq); congruence). by apply i_sep0.
  - intros q Hq. rewrite lookup_insert_ne by (intros ->; specialize (i_sep3 _ Hq); congruence). by apply i_sep3.
Qed.

(** *** Turning a page into a slab

    The objects of the new page count as handed out until the loop of
    [_add_page] has freed them one after the other. *)
Fixpoint slots_from (n : nat) (a sz : Z) : gmap Z Z :=
  match n with O => ∅ | S n' => <[a := sz]> (slots_from n' (a + sz) sz) end.
Definition page_slots (p sz : Z) : gmap Z Z := slots_from (Z.to_nat (4087 / sz)) (p + 8) sz.

Lemma slots_from_Some n a sz x y :
  0 < sz -> slots_from n a sz !! x = Some y <-> y = sz /\ exists k, 0 <= k < Z.of_nat n /\ x = a + k * sz.
Proof.
  intros Hsz. revert a. induction n as [|n IH]; intros a; cbn [slots_from].
  - rewrite lookup_empty. split; [done|]. intros (_ & k & ? & _). lia.
  - rewrite lookup_insert_Some, IH. split.
    + intros [(<- & <-)|(Hne & -> & k & Hk & ->)]; (split; [done|]); [exists 0; lia|exists (k + 1); lia].
    + intros (-> & k & Hk & ->). destruct (decide (k = 0)) as [->|Hk0]; [left; lia|right].
      split; [nia|]. split; [done|]. exists (k - 1). lia.
Qed.

Lemma page_slots_Some p sz x y :
  16 <= sz <= 4080 -> page_slots p sz !! x = Some y <-> y = sz /\ exists k, 0 <= k /\ x = p + 8 + k * sz /\ 8 + k * sz + sz < PAGE_SIZE.
Proof.
  intros Hsz. unfold page_slots. rewrite slots_from_Some by lia. unfold PAGE_SIZE.
  assert (Hk : forall k, 0 <= k -> k < 4087 / sz <-> 8 + k * sz + sz < 4096).
  { intros k Hk. pose proof (Z.div_mod 4087 sz ltac:(lia)). pose proof (Z.mod_pos_bound 4087 sz ltac:(lia)). nia. }
  rewrite Z2Nat.id by (apply Z.div_pos; lia).
  split; (intros (-> & k & H1 & H2); split; [done|]; exists k).
  - split; [lia|]. split; [done|]. apply Hk; lia.
  - destruct H2 as [-> Hlt]. split; [|done]. split; [done|]. by apply Hk.
Qed.

Definition new_slab (p sz : Z) (g : ghost) : ghost :=
  mkGhost (gfree g) (<[p := sz]> (gslab g)) (gslots g) (page_slots p sz ∪ gobjs g) (delete p (gheld g)).

Lemma new_slab_inv lo s g p n sz :
  mem_inv lo s g -> gheld g !! p = Some n -> 16 <= sz <= 4080 -> sz mod 16 = 0 ->
  mem_inv lo (set_words (insert p sz) s) (new_slab p sz g) /\ gobjs g ##ₘ page_slots p sz.
Proof.
  intros H Hp Hsz Hm. pose proof (i_ok _ _ _ H p ltac:(right; right; by exists n)) as Hok.
  assert (Hsl : gslab g !! p = None).
  { destruct (gslab g !! p) as [z|] eqn:E; [|done]. pose proof (i_sep2 _ _ _ H p ltac:(eauto)). congruence. }
  assert (Hslot : forall a z, slot (<[p := sz]> (gslab g)) a z <-> slot (gslab g) a z \/ page_slots p sz !! a = Some z).
  { intros a z. rewrite page_slots_Some by done. split.
    - intros (b & k & [(<- & <-)|(Hne & Hb)]%lookup_insert_Some & Hk & Ha & Hlt); [right; eauto|left; by exists b, k].
    - intros [(b & k & Hb & Hk & Ha & Hlt)|(-> & k & Hk & Ha & Hlt)].
      + exists b, k. rewrite lookup_insert_ne; [done|]. intros ->. congruence.
      + exists p, k. by rewrite lookup_insert_eq. }
  assert (Hnew : forall a z, slot (gslab g) a z -> page_slots p sz !! a = None).
  { intros a z Ha. destruct (page_slots p sz !! a) as [z'|] eqn:E; [|done]. apply page_slots_Some in E as (-> & k & Hk & -> & Hlt); [|done].
    pose proof (slot_in lo s g H _ z Ha) as (_ & _ & _ & _ & _ & _ & _ & _ & Hz & _).
    destruct (slot_not_page lo s g H _ z p 0 Ha Hok) as [E _]; [lia|unfold PAGE_SIZE in *; nia|congruence]. }
  assert (Hdis : gobjs g ##ₘ page_slots p sz).
  { apply map_disjoint_spec. intros a z z' Ha E. destruct (i_objs _ _ _ H a z Ha) as [Hs _]. specialize (Hnew a z Hs). congruence. }
  split; [|done]. apply (write_inv lo s g p sz) in H as H'; [|eapply held_not_ctl; [done|done|unfold PAGE_SIZE; lia]].
  destruct H'. constructor; simpl in *; try done.
  - intros q [Hq|[[z [(<- & <-)|(Hne & Hq)]%lookup_insert_Some]|[m [Hne Hq]%lookup_delete_Some]]]; eauto 6.
  - intros q Hq. destruct (i_sep0 q Hq) as [? Hh]. split; [rewrite lookup_insert_ne; [done|]; intros ->; congruence|].
    rewrite lookup_delete_ne; [done|]. intros ->. congruence.
  - intros q [z [(<- & <-)|(Hne & Hq)]%lookup_insert_Some]; [apply lookup_delete_eq|]. rewrite lookup_delete_ne by done. eauto.
  - intros b z [(<- & <-)|(Hne & Hb)]%lookup_insert_Some; [by rewrite lookup_insert_eq|]. by apply i_size0.
  - intros i l a Hl Ha. apply Hslot. left. by eapply i_free0.
  - intros a z Ha. apply lookup_union_Some_raw in Ha as [Ha|[_ Ha]].
    + split; [apply Hslot; by right|]. intros i l Hl Hin. specialize (Hnew a _ (i_free0 i l a Hl Hin)). congruence.
    + destruct (i_objs0 a z Ha) as [Hs Hn]. split; [apply Hslot; by left|done].
  - intros a z [Ha|Ha]%Hslot.
    + destruct (i_all0 a z Ha) as [Ho|Hf]; [left|by right]. apply lookup_union_Some_raw. right. split; [by eapply Hnew|done].
    + left. by apply lookup_union_Some_l.
  - intros q m [Hne Hq]%lookup_delete_Some. by apply i_ref0.
Qed.

(** The loop frees what is left of the page. *)
Lemma fill_slab lo s g g0 sz n fuel it _end :
  mem_inv lo s g -> 16 <= sz <= 4080 -> sz mod 16 = 0 -> gobjs g = slots_from n it sz ∪ g0 -> g0 ##ₘ slots_from n it sz ->
  (forall k, 0 <= k -> k < Z.of_nat n <-> it + k * sz + sz < _end) -> (n < fuel)%nat ->
  exists s' sl, while fuel (add_turn sz _end) it s = Ret (tt, s') /\ zero_page s' = zero_page s /\
    mem_inv lo s' (mkGhost (gfree g) (gslab g) sl g0 (gheld g)) /\ (n <> O -> exists a l, sl !! class sz = Some (a :: l)) /\
    (n = O -> sl = gslots g).
Proof.
  intros H Hsz Hm. revert s g it n H. induction fuel as [|fuel IH]; intros s g it n H Hobj Hdis Hend Hf; [lia|].
  rewrite while_S. unfold add_turn at 1. destruct n as [|n].
  - rewrite (proj2 (Z.ltb_ge _ _)) by (pose proof (Hend 0 ltac:(lia)); lia). exists s, (gslots g). split; [done|]. split; [done|].
    split; [|done]. cbn [slots_from] in Hobj. rewrite (left_id_L ∅ (∪)) in Hobj. rewrite <- Hobj. by destruct g.
  - rewrite (proj2 (Z.ltb_lt _ _)) by (pose proof (Hend 0 ltac:(lia)); lia).
    cbn [slots_from] in Hobj, Hdis. assert (Hit : gobjs g !! it = Some sz) by (rewrite Hobj; apply lookup_union_Some_l, lookup_insert_eq).
    destruct (push_slot lo s g it sz H Hit) as (l & s1 & Hl & E & H1 & Hz). rewrite bind_assoc, (bind_Ret _ _ _ _ _ E), (bind_Ret (ret _) _ _ _ _ eq_refl).
    assert (Hg0 : g0 !! it = None) by (apply map_disjoint_insert_r in Hdis as [? _]; done).
    assert (Hrest : slots_from n (it + sz) sz !! it = None).
    { destruct (slots_from n (it + sz) sz !! it) eqn:E'; [|done]. apply slots_from_Some in E' as (_ & k & Hk & Heq); [nia|lia]. }
    destruct (IH s1 (give_slot it sz l g) (it + sz) n H1) as (s' & sl & E' & Hz' & H' & Hne & He).
    + simpl. rewrite Hobj, delete_union, delete_insert_id by done. f_equal. by apply delete_id.
    + by apply map_disjoint_insert_r in Hdis as [_ ?].
    + intros k Hk. specialize (Hend (k + 1) ltac:(lia)). replace (it + sz + k * sz + sz) with (it + (k + 1) * sz + sz) by lia. rewrite <- Hend. lia.
    + lia.
    + exists s', sl. split; [done|]. split; [congruence|]. split; [done|]. split; [|done]. intros _. destruct n; [|by apply Hne].
      rewrite He by done. exists it, l. simpl. apply list_lookup_insert_eq. by apply lookup_lt_Some in Hl.
Qed.

Lemma add_page_spec lo s g sz p l fuel :
  mem_inv lo s g -> gfree g = p :: l -> Z.of_nat (length (gfree g)) < 2 ^ 63 -> 16 <= sz <= 4080 -> sz mod 16 = 0 -> (257 <= fuel)%nat ->
  exists s' g', _add_page fuel sz s = Ret (tt, s') /\ zero_page s' = zero_page s /\ mem_inv lo s' g' /\
    gfree g' = l /\ gobjs g' = gobjs g /\ gheld g' = gheld g /\ exists a l', gslots g' !! class sz = Some (a :: l').
Proof.
  intros H Hf Hlen Hsz Hm Hfuel. pose proof (i_ok _ _ _ H p ltac:(left; rewrite Hf; by left)) as Hok.
  destruct (kalloc_page_spec lo s g p l H Hf Hlen) as (s1 & E1 & H1 & Hz1 & H0).
  destruct (i_sep _ _ _ H p ltac:(rewrite Hf; by left)) as [_ Hh].
  destruct (new_slab_inv lo s1 _ p 0 sz H1) as [H2 Hdis]; [apply lookup_insert_eq|done|done|].
  assert (Hd : 4087 / sz <= 255) by (apply Z.lt_succ_r, Z.div_lt_upper_bound; lia).
  assert (Hd0 : 0 < 4087 / sz) by (apply Z.div_str_pos; lia).
  destruct (fill_slab lo _ _ (gobjs g) sz (Z.to_nat (4087 / sz)) fuel (p + 8) (p + PAGE_SIZE) H2 Hsz Hm) as (s' & sl & E & Hz & H' & Hne & _).
  - done.
  - done.
  - intros k Hk. pose proof (Z.div_mod 4087 sz ltac:(lia)). pose proof (Z.mod_pos_bound 4087 sz ltac:(lia)). rewrite Z2Nat.id by lia. unfold PAGE_SIZE. nia.
  - lia.
  - exists s'. eexists. split; [|split; [|split; [exact H'|]]].
    + unfold _add_page. rewrite (bind_Ret _ _ _ _ _ E1).
      rewrite (bind_Ret _ _ _ _ _ (wr_word_Ret p sz s1 ltac:(rewrite <- (Z.add_0_r p); apply (page_ok_ram lo p 0 Hok); [unfold PAGE_SIZE; lia|done]))). exact E.
    + simpl in Hz. congruence.
    + simpl. split; [done|]. split; [done|]. split; [by apply delete_insert_id|]. apply Hne. lia.
Qed.

Definition round_size (size : Z) : Z := Z.land (size + N - 1) (Z.lnot (N - 1)).

Lemma round_size_spec size : round_size size mod 16 = 0 /\ size <= round_size size < size + 16.
Proof.
  unfold round_size. change (N - 1) with (2 ^ 4 - 1). rewrite land_align by lia. change (2 ^ 4) with 16. unfold N.
  pose proof (Z.div_mod (size + 16 - 1) 16 ltac:(lia)) as Hd. pose proof (Z.mod_pos_bound (size + 16 - 1) 16 ltac:(lia)).
  split; [|lia]. replace (size + 16 - 1 - (size + 16 - 1) mod 16) with ((size + 16 - 1) / 16 * 16) by lia. by apply Z.mod_mul.
Qed.

(** The sizes that fit in a page behind its first word. *)
Lemma round_size_ok size : 1 <= size <= 4080 -> 16 <= round_size size <= 4080 /\ round_size size mod 16 = 0.
Proof.
  intros Hs. destruct (round_size_spec size) as [Hm Hr]. split; [|done]. pose proof (Z.div_mod (round_size size) 16 ltac:(lia)). lia.
Qed.

Lemma fetch_empty lo s g sz :
  mem_inv lo s g -> 16 <= sz <= 4080 -> sz mod 16 = 0 -> gslots g !! class sz = Some [] -> fetch_from_queue (QSlab (Z.quot sz N)) s = Ret (0, s).
Proof.
  intros H Hsz Hm Hl. destruct (class_spec sz Hsz Hm) as (Hi & Hi2 & ->). destruct (i_slabs _ _ _ H _ _ Hl) as (h & Hh & Hst). simpl in Hst. subst h.
  unfold fetch_from_queue. by rewrite (bind_Ret _ _ _ _ _ (slab_head s _ 0 Hi Hh)).
Qed.

(** What [kalloc] does to the ghost state. *)
Definition alloc_effect (sz a : Z) (g g' : ghost) : Prop :=
  gobjs g !! a = None /\ gobjs g' = <[a := sz]> (gobjs g) /\ gheld g' = gheld g.

Lemma kalloc_take lo s g sz a l :
  mem_inv lo s g -> 16 <= sz <= 4080 -> sz mod 16 = 0 -> gslots g !! class sz = Some (a :: l) ->
  exists s' g', fetch_from_queue (QSlab (Z.quot sz N)) s = Ret (a, s') /\ a <> 0 /\ mem_inv lo s' g' /\ alloc_effect sz a g g' /\ zero_page s' = zero_page s.
Proof.
  intros H Hsz Hm Hl. destruct (pop_slot lo s g sz a l H Hsz Hm Hl) as (s' & E & H0 & H' & Hz). exists s'. eexists.
  split; [done|]. split; [done|]. split; [exact H'|]. split; [|done]. split; [|done].
  destruct (gobjs g !! a) as [z|] eqn:Ea; [|done]. destruct (i_objs _ _ _ H a z Ea) as [_ Hn]. destruct (Hn _ _ Hl). by left.
Qed.

Lemma kalloc_spec lo s g size fuel :
  mem_inv lo s g -> 1 <= size <= 4080 -> Z.of_nat (length (gfree g)) < 2 ^ 63 -> (257 <= fuel)%nat ->
  gfree g <> [] \/ (exists a l, gslots g !! class (round_size size) = Some (a :: l)) ->
  exists a s' g', kalloc fuel size s = Ret (a, s') /\ a <> 0 /\ mem_inv lo s' g' /\ alloc_effect (round_size size) a g g' /\ zero_page s' = zero_page s.
Proof.
  intros H Hs Hlen Hf Hav. destruct (round_size_ok size Hs) as [Hsz Hm]. unfold kalloc. fold (round_size size). set (sz := round_size size) in *.
  destruct fuel as [|fuel]; [lia|]. rewrite while_S. unfold kalloc_turn at 1. rewrite bind_assoc.
  destruct (class_spec sz Hsz Hm) as (Hi & _). destruct (i_len _ _ _ H) as [_ L2].
  destruct (lookup_lt_is_Some_2 (gslots g) (class sz)) as [[|a l] Hl]; [lia| |].
  - destruct Hav as [Hav|(a & l & Ha)]; [|congruence]. destruct (gfree g) as [|p l] eqn:Ef; [done|].
    rewrite (bind_Ret _ _ _ _ _ (fetch_empty lo s g sz H Hsz Hm Hl)). simpl (0 =? 0). cbv iota.
    destruct (add_page_spec lo s g sz p l (S fuel) H Ef) as (s1 & g1 & E1 & Hz1 & H1 & Hf1 & Ho1 & Hh1 & a & l' & Hl1); [by rewrite Ef|done|done|lia|].
    rewrite bind_assoc, (bind_Ret _ _ _ _ _ E1), (bind_Ret (ret _) _ _ _ _ eq_refl).
    destruct fuel as [|fuel]; [lia|]. rewrite while_S. unfold kalloc_turn at 1. rewrite bind_assoc.
    destruct (kalloc_take lo s1 g1 sz a l' H1 Hsz Hm Hl1) as (s' & g' & E & H0 & H' & (Ha & Hb & Hc) & Hz).
    rewrite (bind_Ret _ _ _ _ _ E), (proj2 (Z.eqb_neq a 0)) by done. exists a, s', g'.
    split; [done|]. split; [done|]. split; [done|]. split; [|congruence]. unfold alloc_effect. split; [congruence|]. split; congruence.
  - destruct (kalloc_take lo s g sz a l H Hsz Hm Hl) as (s' & g' & E & H0 & H' & He & Hz).
    rewrite (bind_Ret _ _ _ _ _ E), (proj2 (Z.eqb_neq a 0)) by done. by exists a, s', g'.
Qed.

Lemma kfree_full lo s g a sz :
  mem_inv lo s g -> gobjs g !! a = Some sz ->
  exists s' g', kfree a s = Ret (tt, s') /\ mem_inv lo s' g' /\ gobjs g' = delete a (gobjs g) /\ gheld g' = gheld g /\ zero_page s' = zero_page s /\
    gfree g' = gfree g.
Proof.
  intros H Ha. destruct (push_slot lo s g a sz H Ha) as (l & s' & Hl & E & H' & Hz). destruct (i_objs _ _ _ H a sz Ha) as [Hs _].
  destruct (slot_ram lo s g H a sz Hs) as [_ H0]. destruct (slot_in lo s g H a sz Hs) as (b & k & Hb & Hok & Hab & Hk & Hlo & Hlt & Hsz & Hm).
  exists s'. eexists. split; [|split; [exact H'|done]]. unfold kfree. rewrite (proj2 (Z.eqb_neq a 0)) by done. fold (PAGE_BASE a).
  assert (PAGE_BASE a = b) as ->.
  { rewrite PAGE_BASE_mod. destruct Hok as (_ & _ & _ & Hb0). unfold PAGE_SIZE in *. rewrite Hab at 2. rewrite Z.add_mod, Hb0, Z.add_0_l, Z.mod_mod by lia.
    rewrite Z.mod_small by lia. lia. }
  destruct (i_size _ _ _ H b sz Hb) as (Hw & _).
  rewrite (bind_Ret _ _ _ _ _ (rd_word_Ret b sz s ltac:(rewrite <- (Z.add_0_r b); apply (page_ok_ram lo b 0 Hok); [unfold PAGE_SIZE; lia|done]) Hw)). exact E.
Qed.

Lemma kfree_spec lo s g a sz :
  mem_inv lo s g -> gobjs g !! a = Some sz ->
  exists s' g', kfree a s = Ret (tt, s') /\ mem_inv lo s' g' /\ gobjs g' = delete a (gobjs g) /\ gheld g' = gheld g /\ zero_page s' = zero_page s.
Proof. intros H Ha. destruct (kfree_full lo s g a sz H Ha) as (s' & g' & E & H' & Ho & Hh & Hz & _). by exists s', g'. Qed.

Lemma free_bound lo s g : mem_inv lo s g -> Z.of_nat (length (gfree g)) <= NPAGE.
Proof.
  intros H. assert (Hnd : NoDup (page_index <$> gfree g)).
  { apply NoDup_fmap_2_strong; [|apply (i_nodup _ _ _ H)]. intros p q Hp Hq. apply (page_index_inj lo); apply (i_ok _ _ _ H); by left. }
  assert (Hsub : page_index <$> gfree g ⊆+ seqZ 0 NPAGE).
  { apply NoDup_submseteq; [done|]. intros i (p & -> & Hp)%list_elem_of_fmap. apply elem_of_seqZ.
    destruct (page_ok_index lo p) as [Hi _]; [|lia]. apply (i_ok _ _ _ H). by left. }
  apply submseteq_length in Hsub. rewrite length_fmap, length_seqZ in Hsub. change NPAGE with 258048 in *. lia.
Qed.

(** ** Initialisation *)
Lemma start_inv lo s :
  pages s = 0 -> slab s = replicate 256 0 -> page_ref s = ∅ -> alloc_page_cnt s = 0 ->
  mem_inv lo s (mkGhost [] ∅ (replicate 256 []) ∅ ∅).
Proof.
  intros Hp Hs Hr Hc. assert (Hrep : forall i (l : list Z), replicate 256 [] !! i = Some l -> (i < 256)%nat /\ l = []).
  { intros i l Hl. apply lookup_replicate in Hl as [-> Hi]. done. }
  constructor; simpl gfree; simpl gslab; simpl gslots; simpl gobjs; simpl gheld; rewrite ?Hs; try done.
  - intros i l [Hi ->]%Hrep. exists 0. split; [|done]. by apply lookup_replicate_2.
  - intros p [Hq|[[? Hq]|[? Hq]]]; [by apply elem_of_nil in Hq|by rewrite lookup_empty in Hq..].
  - constructor.
  - intros i l a [_ ->]%Hrep Ha. by apply elem_of_nil in Ha.
  - intros i l [_ ->]%Hrep. constructor.
  - intros a sz (b & k & Hb & _). by rewrite lookup_empty in Hb.
Qed.

Lemma init_loop kend n fuel p s g :
  let lo := PAGE_BASE kend + PAGE_SIZE in
  mem_inv lo s g -> KSPACE_MASK <= lo -> lo <= p -> p mod PAGE_SIZE = 0 -> p + PAGE_SIZE * Z.of_nat n = KSPACE_MASK + PHYSTOP ->
  (forall q, q ∈ gfree g -> q < p) -> gslab g = ∅ -> gheld g = ∅ -> (n < fuel)%nat ->
  exists s' l, while fuel pages_turn p s = Ret (tt, s') /\ mem_inv lo s' (mkGhost l ∅ (gslots g) (gobjs g) ∅) /\ (exists pre, l = pre ++ gfree g /\ length pre = n) /\ zero_page s' = zero_page s.
Proof.
  intros lo H Hlo0 Hlop Hpm Hn Hlt Hsl Hh Hf. revert fuel p s g H Hlop Hpm Hn Hlt Hsl Hh Hf. induction n as [|n IH]; intros fuel p s g H Hlop Hpm Hn Hlt Hsl Hh Hf;
    (destruct fuel as [|fuel]; [lia|]); rewrite while_S; unfold pages_turn at 1; change (P2K PHYSTOP) with (KSPACE_MASK + PHYSTOP).
  - rewrite (proj2 (Z.ltb_ge _ _)) by lia. exists s, (gfree g). split; [done|]. split; [destruct g; simpl in *; by subst|]. split; [by exists []|done].
  - rewrite (proj2 (Z.ltb_lt _ _)) by (unfold PAGE_SIZE in *; lia).
    assert (Hok : page_ok lo p) by (split; [done|]; split; [done|]; split; [unfold PAGE_SIZE in *; lia|done]).
    destruct (page_ok_index lo p Hok) as (_ & H0 & _). pose proof (free_bound lo s g H) as Hb. change NPAGE with 258048 in Hb.
    assert (Hc : ~ ctl g p).
    { intros [Hq|[[? Hq]|(i & l & Hl & Hq)]]; [specialize (Hlt p Hq); lia|by rewrite Hsl, lookup_empty in Hq|].
      destruct (i_free _ _ _ H i l p Hl Hq) as (b & k & Hbb & _). by rewrite Hsl, lookup_empty in Hbb. }
    destruct (push_page lo s g p H Hok Hc ltac:(by rewrite Hh, lookup_empty) ltac:(lia)) as (s1 & _ & E1 & [Hz1 _] & H1).
    rewrite (bind_Ret _ _ s _ s1 (E1 _ (ret (inl (u64 (p + PAGE_SIZE)))))), (u64_small (p + PAGE_SIZE)) by (unfold PAGE_SIZE, KSPACE_MASK, PHYSTOP in *; lia).
    destruct (IH fuel (p + PAGE_SIZE) s1 _ H1) as (s' & l & E & H' & (pre & -> & Hpre) & Hz); simpl; [unfold PAGE_SIZE in *; lia| |lia| |done|done|lia|].
    + unfold PAGE_SIZE in *. rewrite Z.add_mod, Hpm by lia. done.
    + intros q [->|Hq]%elem_of_cons; [unfold PAGE_SIZE; lia|]. specialize (Hlt q Hq). unfold PAGE_SIZE; lia.
    + exists s', (pre ++ p :: gfree g). split; [done|]. split; [done|]. split; [|congruence].
      exists (pre ++ [p]). rewrite length_app, <- app_assoc. split; [done|simpl; lia].
Qed.

(** The state the loader leaves: static data are zero, memory is arbitrary. *)
Definition boot (w : gmap Z Z) : mem_st := mkMem 0 0 (replicate 256 0) ∅ 0 w.
Definition mem_init (kend : Z) : M mem_st unit := init_pages kend ;;; init_zero_page.

Definition kend_ok (kend : Z) : Prop := KSPACE_MASK <= kend /\ kend + 3 * PAGE_SIZE <= KSPACE_MASK + PHYSTOP.

Lemma mem_init_spec kend w :
  kend_ok kend ->
  exists s g, mem_init kend (boot w) = Ret (tt, s) /\ mem_inv (PAGE_BASE kend + PAGE_SIZE) s g /\ gobjs g = ∅ /\ gheld g = {[zero_page s := 0]} /\ gfree g <> [].
Proof.
  intros [Hk1 Hk2]. set (lo := PAGE_BASE kend + PAGE_SIZE).
  pose proof (PAGE_BASE_mod kend) as Hpb. pose proof (Z.mod_pos_bound kend 4096 ltac:(lia)) as Hmb. pose proof (Z.div_mod kend 4096 ltac:(lia)) as Hdm.
  assert (Hlo : kend < lo <= kend + PAGE_SIZE) by (unfold lo, PAGE_SIZE; lia).
  assert (Hlm : lo = (kend / 4096 + 1) * 4096) by (unfold lo, PAGE_SIZE; lia).
  set (q := kend / 4096 + 1) in *. set (n := Z.to_nat (4503530908151808 - q)).
  assert (Hn : lo + PAGE_SIZE * Z.of_nat n = KSPACE_MASK + PHYSTOP) by (unfold n, PAGE_SIZE, KSPACE_MASK, PHYSTOP in *; lia).
  clearbody n. pose proof (start_inv lo (boot w) eq_refl eq_refl eq_refl eq_refl) as H0.
  destruct (init_loop kend n (S (Z.to_nat NPAGE)) lo (boot w) _ H0) as (s1 & l & E1 & H1 & (pre & -> & Hpre) & Hz1); [lia|lia| |done| |done|done| |].
  { rewrite Hlm. by apply Z.mod_mul. }
  { intros r Hr. by apply elem_of_nil in Hr. }
  { change NPAGE with 258048. unfold PAGE_SIZE, KSPACE_MASK, PHYSTOP in *. lia. }
  simpl gfree in *. rewrite app_nil_r in *. destruct pre as [|p [|p' l]]; [unfold PAGE_SIZE, KSPACE_MASK, PHYSTOP in *; simpl in Hpre; lia..|].
  pose proof (free_bound lo s1 _ H1) as Hfb. change NPAGE with 258048 in Hfb.
  destruct (kalloc_page_spec lo s1 _ p (p' :: l) H1 eq_refl ltac:(simpl in Hfb |- *; lia)) as (s2 & E2 & H2 & Hz2 & Hp).
  assert (H3 : mem_inv lo (set_zero p s2) (hold_page p (p' :: l) (mkGhost (p :: p' :: l) ∅ (replicate 256 []) ∅ ∅))) by (destruct H2; by constructor).
  eexists _, _. split; [|split; [apply (clear_inv lo _ _ p 0 512 H3 (lookup_insert_eq _ _ _) ltac:(lia) p); unfold PAGE_SIZE; lia|done]].
  unfold mem_init, init_pages. rewrite bind_assoc, (bind_Ret (modify _) _ _ _ _ eq_refl). change (set_cnt (fun _ => 0) (boot w)) with (boot w). fold lo.
  rewrite (bind_Ret _ _ _ _ _ E1). unfold init_zero_page. rewrite (bind_Ret _ _ _ _ _ E2), (bind_Ret (modify _) _ _ _ _ eq_refl).
  unfold clear_page. pose proof (i_ok _ _ _ H1 p ltac:(left; by left)) as Hok.
  pose proof (page_ok_ram lo p 0 Hok ltac:(unfold PAGE_SIZE; lia) eq_refl) as Hram. rewrite Z.add_0_r in Hram. rewrite Hram. reflexivity.
Qed.

(** ** Clients

    The objects handed out with their usable size, and the pages handed out
    with the number of times [increment_ref] was called for them. *)
Definition owned (objs held : gmap Z Z) (a n : Z) : Prop := objs !! a = Some n \/ (is_Some (held !! a) /\ n = PAGE_SIZE).

(** What [kfree_page] does to the reference counts. *)
Definition unref (z p n : Z) (held : gmap Z Z) : gmap Z Z :=
  if p =? z then held else if n <=? 1 then delete p held else <[p := n - 1]> held.

Inductive mem_reach (kend : Z) : mem_st -> gmap Z Z -> gmap Z Z -> Prop :=
| r_init w s : mem_init kend (boot w) = Ret (tt, s) -> mem_reach kend s ∅ {[zero_page s := 0]}
| r_kalloc s objs held size a s' :
    mem_reach kend s objs held -> 1 <= size <= 4080 -> kalloc 257 size s = Ret (a, s') ->
    mem_reach kend s' (<[a := round_size size]> objs) held
| r_kfree s objs held a n s' :
    mem_reach kend s objs held -> objs !! a = Some n -> kfree a s = Ret (tt, s') -> mem_reach kend s' (delete a objs) held
| r_kalloc_page s objs held p s' :
    mem_reach kend s objs held -> kalloc_page s = Ret (p, s') -> mem_reach kend s' objs (<[p := 0]> held)
| r_increment_ref s objs held p n s' :
    mem_reach kend s objs held -> held !! p = Some n -> increment_ref p s = Ret (tt, s') -> mem_reach kend s' objs (<[p := n + 1]> held)
| r_kfree_page s objs held p n s' :
    mem_reach kend s objs held -> held !! p = Some n -> n <= 127 -> kfree_page kend p s = Ret (tt, s') ->
    mem_reach kend s' objs (unref (zero_page s) p n held)
| r_write s objs held a n w v s' :
    mem_reach kend s objs held -> owned objs held a n -> a <= w < a + n -> wr_word w v s = Ret (tt, s') -> mem_reach kend s' objs held.

Lemma kalloc_page_empty lo s g : mem_inv lo s g -> gfree g = [] -> kalloc_page s = Stop Fault.
Proof.
  intros H Hf. pose proof (i_pages _ _ _ H) as Hst. rewrite Hf in Hst. simpl in Hst.
  unfold kalloc_page, _decrement_rc. rewrite bind_assoc, (bind_Ret (modify _) _ _ _ _ eq_refl), bind_assoc, (bind_Ret (gets _) _ _ _ _ eq_refl), (bind_Ret (ret _) _ _ _ _ eq_refl).
  unfold fetch_from_queue, get_head. rewrite bind_assoc, (bind_Ret (gets _) _ _ _ _ eq_refl). simpl pages. rewrite Hst. reflexivity.
Qed.

Lemma kalloc_returns_available lo s g size a s' :
  mem_inv lo s g -> 1 <= size <= 4080 -> kalloc 257 size s = Ret (a, s') ->
  gfree g <> [] \/ (exists a l, gslots g !! class (round_size size) = Some (a :: l)).
Proof.
  intros H Hs E. destruct (round_size_ok size Hs) as [Hsz Hm]. destruct (gfree g) eqn:Ef; [right|by left].
  destruct (class_spec _ Hsz Hm) as (Hi & _). destruct (i_len _ _ _ H) as [_ L2].
  destruct (lookup_lt_is_Some_2 (gslots g) (class (round_size size))) as [[|b l] Hl]; [lia| |eauto].
  unfold kalloc in E. fold (round_size size) in E. rewrite while_S in E. unfold kalloc_turn at 1 in E. rewrite bind_assoc in E.
  rewrite (bind_Ret _ _ _ _ _ (fetch_empty lo s g _ H Hsz Hm Hl)) in E. simpl (0 =? 0) in E. cbv iota in E.
  unfold _add_page in E. rewrite !bind_assoc, (bind_Stop _ _ _ _ (kalloc_page_empty lo s g H Ef)) in E. done.
Qed.

Lemma mem_reach_inv kend s objs held :
  kend_ok kend -> mem_reach kend s objs held ->
  exists g, mem_inv (PAGE_BASE kend + PAGE_SIZE) s g /\ gobjs g = objs /\ gheld g = held /\ is_Some (held !! zero_page s).
Proof.
  intros Hk Hr. set (lo := PAGE_BASE kend + PAGE_SIZE).
  induction Hr as [w s E|s objs held size a s' _ IH Hs E|s objs held a n s' _ IH Hn E|s objs held p s' _ IH E|s objs held p n s' _ IH Hn E|s objs held p n s' _ IH Hn Hle E|s objs held a n w v s' _ IH Ho Hw E];
    [|destruct IH as (g & H & <- & <- & Hz); pose proof (free_bound lo s g H) as Hb; change NPAGE with 258048 in Hb..].
  - destruct (mem_init_spec kend w Hk) as (s' & g & E' & H & Ho & Hh & _). rewrite E in E'. simplify_eq. exists g. split; [done|]. split; [done|]. split; [done|]. exists 0. apply lookup_singleton_eq.
  - pose proof (kalloc_returns_available lo s g size a s' H Hs E) as Hav.
    destruct (kalloc_spec lo s g size 257 H Hs ltac:(lia) ltac:(lia) Hav) as (a' & s1 & g1 & E1 & H0 & H1 & (He1 & He2 & He3) & Hz1).
    rewrite E in E1. simplify_eq. exists g1. rewrite Hz1, <- He3. split; [done|]. split; [done|]. split; [done|]. by rewrite He3.
  - destruct (kfree_spec lo s g a n H Hn) as (s1 & g1 & E1 & H1 & Ho1 & Hh1 & Hz1). rewrite E in E1. simplify_eq. exists g1. by rewrite Hz1.
  - destruct (gfree g) as [|q l] eqn:Ef; [by rewrite (kalloc_page_empty lo s g H Ef) in E|].
    destruct (kalloc_page_spec lo s g q l H Ef) as (s1 & E1 & H1 & Hz1 & H0); [rewrite Ef; lia|]. rewrite E in E1. simplify_eq.
    eexists. split; [exact H1|]. split; [done|]. split; [done|]. rewrite Hz1. apply lookup_insert_is_Some'. by right.
  - destruct (increment_ref_spec lo s g p n H Hn) as (s1 & E1 & H1 & Hz1 & _). rewrite E in E1. simplify_eq.
    eexists. split; [exact H1|]. split; [done|]. split; [done|]. rewrite Hz1. apply lookup_insert_is_Some'. by right.
  - unfold unref. destruct (Z.eqb_spec p (zero_page s)) as [->|Hne].
    + unfold kfree_page in E. rewrite (bind_Ret (gets _) _ _ _ _ eq_refl), Z.eqb_refl in E. simpl in E. unfold ret in E. simplify_eq. eauto.
    + destruct (kfree_page_spec kend s g p n H Hn Hne Hle ltac:(lia)) as (s1 & E1 & H1 & Hz1). rewrite E in E1. simplify_eq.
      eexists. split; [exact H1|]. rewrite Hz1. destruct (n <=? 1); (split; [done|]; split; [done|]).
      * by rewrite lookup_delete_ne.
      * apply lookup_insert_is_Some'. by right.
  - unfold wr_word in E. destruct (ram w); [|done]. simplify_eq. exists g. split; [|done]. apply write_inv; [done|].
    destruct Ho as [Ho|[[m Ho] ->]]; [by eapply obj_not_ctl|by eapply held_not_ctl].
Qed.

Lemma add_zero_forever fuel it _end s s' : it < _end -> while fuel (add_turn 0 _end) it s <> Ret (tt, s').
Proof.
  intros Hlt. revert s. induction fuel as [|fuel IH]; intros s E; [done|]. rewrite while_S in E. inv_bind E.
  unfold add_turn in E0. rewrite Z.add_0_r, (proj2 (Z.ltb_lt _ _)) in E0 by done. inv_bind E0. unfold ret in E3. simplify_eq. by apply IH in E1.
Qed.

Lemma kalloc_bad_size lo s g fuel size a s' :
  mem_inv lo s g -> size = 0 \/ 4080 < size < 2 ^ 62 -> kalloc fuel size s <> Ret (a, s').
Proof.
  intros H Hs E. destruct fuel as [|fuel]; [done|]. unfold kalloc in E. fold (round_size size) in E. rewrite while_S in E.
  unfold kalloc_turn at 1 in E. rewrite bind_assoc in E. destruct (i_len _ _ _ H) as [_ L2]. destruct Hs as [->|Hs].
  - change (round_size 0) with 0 in E. destruct (lookup_lt_is_Some_2 (gslots g) 0) as [[|b l] Hl]; [lia| |].
    + destruct (i_slabs _ _ _ H _ _ Hl) as (h & Hh & Hst). simpl in Hst. subst h.
      unfold fetch_from_queue in E. rewrite bind_assoc, (bind_Ret _ _ _ _ _ (slab_head s 0 0 ltac:(lia) Hh)) in E. simpl (0 =? 0) in E. cbv iota in E.
      rewrite (bind_Ret (ret _) _ _ _ _ eq_refl) in E. simpl (0 =? 0) in E. cbv iota in E. rewrite bind_assoc in E. inv_bind E.
      unfold _add_page in E0. inv_bind E0. inv_bind E3. destruct a0. apply add_zero_forever in E4; [done|unfold PAGE_SIZE; lia].
    + destruct (slot_in lo s g H b 0 (i_free _ _ _ H _ _ b Hl ltac:(by left))) as (_ & _ & _ & _ & _ & _ & _ & _ & Hz & _). lia.
  - destruct (round_size_spec size) as [Hm Hr]. pose proof (Z.div_mod (round_size size) 16 ltac:(lia)) as Hd.
    unfold fetch_from_queue, get_head in E. rewrite bind_assoc in E.
    assert (Hq : (Z.quot (round_size size) N <? NSLAB) = false).
    { unfold N. rewrite Z.quot_div_nonneg by lia. change NSLAB with 256. lia. }
    unfold bind at 1 in E. by rewrite Hq, andb_false_r in E.
Qed.

(** C15: The allocator keeps its clients apart. In every state reached from
    its initialisation by calls and by arbitrary writes of the clients into
    what they own, the objects and pages handed out lie in allocatable memory
    and do not overlap; while a page is free, [kalloc] of 1 to 4080 bytes and
    [kalloc_page] return something no client owns; what is owned can be
    freed; the page counter is the length of the list of free pages. [kalloc]
    of 0 or of more than 4080 bytes does not return, and [kalloc_page]
    without a free page faults. *)
Theorem allocator_safe kend s objs held :
  kend_ok kend -> mem_reach kend s objs held ->
  (forall a n b m, owned objs held a n -> owned objs held b m -> (a = b /\ n = m) \/ a + n <= b \/ b + m <= a) /\
  (forall a n, owned objs held a n -> kend < a /\ a + n <= KSPACE_MASK + PHYSTOP) /\
  (forall size, 1 <= size <= 4080 -> pages s <> 0 -> exists a s', kalloc 257 size s = Ret (a, s') /\ objs !! a = None /\ size <= round_size size) /\
  (forall fuel size a s', size = 0 \/ 4080 < size < 2 ^ 62 -> kalloc fuel size s <> Ret (a, s')) /\
  (if decide (pages s = 0) then kalloc_page s = Stop Fault else exists p s', kalloc_page s = Ret (p, s') /\ held !! p = None) /\
  (forall a n, objs !! a = Some n -> exists s', kfree a s = Ret (tt, s')) /\
  (forall p n, held !! p = Some n -> (exists s', increment_ref p s = Ret (tt, s')) /\ (n <= 127 -> exists s', kfree_page kend p s = Ret (tt, s'))) /\
  exists l, stk (words s) (pages s) l /\ NoDup l /\ alloc_page_cnt s = Z.of_nat (length l).
Proof.
  intros Hk Hr. destruct (mem_reach_inv kend s objs held Hk Hr) as (g & H & <- & <- & Hz). set (lo := PAGE_BASE kend + PAGE_SIZE) in *.
  pose proof (free_bound lo s g H) as Hb. change NPAGE with 258048 in Hb.
  assert (Hfree : pages s <> 0 <-> gfree g <> []).
  { pose proof (i_pages _ _ _ H) as Hst. destruct (gfree g); simpl in Hst; [by rewrite Hst|]. destruct Hst as (-> & ? & _). done. }
  assert (Hheld : forall p, is_Some (gheld g !! p) -> page_ok lo p) by (intros p Hp; apply (i_ok _ _ _ H); auto).
  split; [|split; [|split; [|split; [|split; [|split; [|split]]]]]].
  - assert (Hop : forall a n p, gobjs g !! a = Some n -> is_Some (gheld g !! p) -> a + n <= p \/ p + PAGE_SIZE <= a).
    { intros a n p Ha Hp. destruct (i_objs _ _ _ H a n Ha) as [Hs _]. pose proof (slot_in lo s g H a n Hs) as (b & k & Hbb & _ & _ & _ & _ & _ & Hn & _).
      destruct (decide (a + n <= p \/ p + PAGE_SIZE <= a)) as [|Hno]; [done|exfalso].
      destruct (slot_not_page lo s g H a n p (Z.max 0 (p - a)) Hs (Hheld p Hp)) as [E _]; [lia|unfold PAGE_SIZE in *; lia|].
      rewrite (i_sep2 _ _ _ H p ltac:(eauto)) in Hp. by destruct Hp. }
    intros a n b m [Ha|[Ha ->]] [Hbb|[Hbb ->]].
    + destruct (i_objs _ _ _ H a n Ha) as [Hs _]. destruct (i_objs _ _ _ H b m Hbb) as [Hs' _].
      pose proof (slot_in lo s g H a n Hs) as (_ & _ & _ & _ & _ & _ & _ & _ & Hn & _). pose proof (slot_in lo s g H b m Hs') as (_ & _ & _ & _ & _ & _ & _ & _ & Hm & _).
      destruct (decide (a + n <= b \/ b + m <= a)) as [|Hno]; [by right|left].
      destruct (decide (b <= a)); [destruct (slots_apart lo s g H a n b m (a - b) Hs Hs')|destruct (slots_apart lo s g H b m a n (b - a) Hs' Hs)]; auto; lia.
    + right. by apply Hop.
    + right. destruct (Hop b m a Hbb Ha); auto.
    + pose proof (Hheld a Ha) as (_ & _ & _ & Ham). pose proof (Hheld b Hbb) as (_ & _ & _ & Hbm).
      destruct (decide (a + PAGE_SIZE <= b \/ b + PAGE_SIZE <= a)) as [|Hno]; [by right|left]. split; [|done].
      destruct (decide (b <= a)); [symmetry; apply (pages_apart b a 0)|apply (pages_apart a b 0)]; auto; unfold PAGE_SIZE in *; lia.
  - pose proof (PAGE_BASE_mod kend). pose proof (Z.mod_pos_bound kend 4096 ltac:(lia)).
    intros a n [Ha|[Ha ->]].
    + destruct (i_objs _ _ _ H a n Ha) as [Hs _]. destruct (slot_in lo s g H a n Hs) as (b & k & _ & (_ & Hb1 & Hb2 & _) & -> & _ & Hd & Hlt & _).
      unfold lo, PAGE_SIZE in *. lia.
    + destruct (Hheld a Ha) as (_ & Hb1 & Hb2 & _). unfold lo, PAGE_SIZE in *. lia.
  - intros size Hs Hp. destruct (kalloc_spec lo s g size 257 H Hs ltac:(lia) ltac:(lia) (or_introl (proj1 Hfree Hp))) as (a & s' & g' & E & _ & _ & (He & _) & _).
    exists a, s'. split; [done|]. split; [done|]. apply round_size_spec.
  - intros fuel size a s'. by apply (kalloc_bad_size lo s g).
  - destruct (gfree g) as [|p l] eqn:Ef; case_decide as Hp.
    + by apply (kalloc_page_empty lo s g).
    + apply Hfree in Hp. done.
    + destruct (proj2 Hfree); done.
    + destruct (kalloc_page_spec lo s g p l H Ef) as (s' & E & _); [rewrite Ef; lia|]. exists p, s'. split; [done|].
      apply (i_sep _ _ _ H p). rewrite Ef. by left.
  - intros a n Ha. destruct (kfree_spec lo s g a n H Ha) as (s' & g' & E & _). eauto.
  - intros p n Hp. split; [destruct (increment_ref_spec lo s g p n H Hp) as (s' & E & _); eauto|].
    intros Hn. destruct (decide (p = zero_page s)) as [->|Hne].
    + exists s. unfold kfree_page. rewrite (bind_Ret (gets _) _ _ _ _ eq_refl), Z.eqb_refl. done.
    + destruct (kfree_page_spec kend s g p n H Hp Hne Hn ltac:(lia)) as (s' & E & _). eauto.
  - exists (gfree g). split; [apply (i_pages _ _ _ H)|]. split; [apply (i_nodup _ _ _ H)|apply (i_cnt _ _ _ H)].
Qed.

(** C37: The reference count of a page is an [i8]. With 129 to 257 references
    to a page it has wrapped around, and the first [kfree_page] puts the page
    on the list of free pages while at least 128 references remain. *)
Theorem page_ref_overflow kend s objs held p n :
  kend_ok kend -> mem_reach kend s objs held -> held !! p = Some n -> p <> zero_page s -> 129 <= n <= 257 ->
  exists s' l, kfree_page kend p s = Ret (tt, s') /\ stk (words s') (pages s') (p :: l).
Proof.
  intros Hk Hr Hp Hz Hn. destruct (mem_reach_inv kend s objs held Hk Hr) as (g & H & <- & <- & _).
  pose proof (free_bound _ s g H) as Hb. change NPAGE with 258048 in Hb.
  assert (Hi8 : i8 (n - 1) = n - 257).
  { unfold i8, wraps. change (2 ^ (8 - 1)) with 128. change (2 ^ 8) with 256. rewrite <- (Z.mod_unique (n - 1 + 128) 256 1 (n - 129)); lia. }
  destruct (kfree_page_frees kend s g p n H Hp Hz) as (s' & E & H' & _); [lia|lia|]. exists s', (gfree g). split; [done|].
  apply (i_pages _ _ _ H').
Qed.

(** ** Witnesses: six pages behind the kernel *)
Inductive mem_op := OKalloc (size : Z) | OKfree (a : Z) | OPage | OShare (p : Z) | OFreePage (p : Z) | OWrite (a w v : Z).

Definition client := (mem_st * gmap Z Z * gmap Z Z)%type.

Definition do_op (kend : Z) (op : mem_op) (c : client) : option client :=
  let '(s, objs, held) := c in
  match op with
  | OKalloc size => if (1 <=? size) && (size <=? 4080) then match kalloc 257 size s with Ret (a, s') => Some (s', <[a := round_size size]> objs, held) | _ => None end else None
  | OKfree a => match objs !! a, kfree a s with Some _, Ret (_, s') => Some (s', delete a objs, held) | _, _ => None end
  | OPage => match kalloc_page s with Ret (p, s') => Some (s', objs, <[p := 0]> held) | _ => None end
  | OShare p => match held !! p, increment_ref p s with Some n, Ret (_, s') => Some (s', objs, <[p := n + 1]> held) | _, _ => None end
  | OFreePage p => match held !! p, kfree_page kend p s with
                   | Some n, Ret (_, s') => if n <=? 127 then Some (s', objs, unref (zero_page s) p n held) else None
                   | _, _ => None end
  | OWrite a w v => match objs !! a, wr_word w v s with Some n, Ret (_, s') => if (a <=? w) && (w <? a + n) then Some (s', objs, held) else None | _, _ => None end
  end.

Fixpoint do_ops (kend : Z) (ops : list mem_op) (c : client) : option client :=
  match ops with [] => Some c | op :: ops' => match do_op kend op c with Some c' => do_ops kend ops' c' | None => None end end.

Lemma do_ops_reach kend ops s objs held s' objs' held' :
  mem_reach kend s objs held -> do_ops kend ops (s, objs, held) = Some (s', objs', held') -> mem_reach kend s' objs' held'.
Proof.
  revert s objs held. induction ops as [|op ops IH]; intros s objs held Hr E; cbn [do_ops] in E; [by simplify_eq|].
  destruct (do_op kend op (s, objs, held)) as [[[s1 objs1] held1]|] eqn:E1; [|done]. apply (IH s1 objs1 held1); [|done]. clear IH E.
  destruct op; simpl in E1; repeat case_match; simplify_eq.
  - eapply r_kalloc; [done| |done]. lia.
  - match goal with u : () |- _ => destruct u end. by eapply r_kfree.
  - by eapply r_kalloc_page.
  - match goal with u : () |- _ => destruct u end. by eapply r_increment_ref.
  - match goal with u : () |- _ => destruct u end. eapply r_kfree_page; [done|done|lia|done].
  - match goal with u : () |- _ => destruct u end. eapply r_write; [done|by left| |done]. lia.
Qed.

(** A client that runs from the start. *)
Definition run_client (kend : Z) (ops : list mem_op) : option client :=
  match mem_init kend (boot ∅) with Ret (_, s) => do_ops kend ops (s, ∅, {[zero_page s := 0]}) | _ => None end.

Definition after (kend : Z) (ops : list mem_op) : client := default (boot ∅, ∅, ∅) (run_client kend ops).

Lemma after_reach kend ops :
  (if run_client kend ops then true else false) = true -> mem_reach kend (after kend ops).1.1 (after kend ops).1.2 (after kend ops).2.
Proof.
  unfold after. destruct (run_client kend ops) as [[[s objs] held]|] eqn:E; [intros _|done]. simpl. unfold run_client in E.
  destruct (mem_init kend (boot ∅)) as [[[] s0]|] eqn:Ei; [|done].
  by eapply do_ops_reach; [by eapply r_init|].
Qed.

Definition ex_kend := 0xffff00003eff9123.
Definition ex_page := 18446462599789797376.
Definition ex_obj := 18446462599789797208.
Definition ex_ops : list mem_op :=
  [OPage; OKalloc 100; OKalloc 3000; OWrite ex_obj (ex_obj + 16) 7; OKalloc 100; OShare ex_page; OKfree ex_obj; OFreePage ex_page].

Lemma ex_kend_ok : kend_ok ex_kend.
Proof. split; vm_compute; discriminate. Qed.

Definition ex_shares : list mem_op := OPage :: replicate 129 (OShare ex_page).

Lemma ex_ops_run : (if run_client ex_kend ex_ops then true else false) = true.
Proof. vm_compute. reflexivity. Qed.
Lemma ex_shares_run : (if run_client ex_kend ex_shares then true else false) = true.
Proof. vm_compute. reflexivity. Qed.

Lemma allocator_safe_witness :
  exists a s', kalloc 257 2000 (after ex_kend ex_ops).1.1 = Ret (a, s') /\ (after ex_kend ex_ops).1.2 !! a = None /\ 2000 <= round_size 2000.
Proof.
  destruct (allocator_safe ex_kend _ _ _ ex_kend_ok (after_reach ex_kend ex_ops ex_ops_run)) as (_ & _ & Hk & _).
  apply Hk; [lia|]. vm_compute. discriminate.
Defined.

Lemma page_ref_overflow_witness :
  exists s' l, kfree_page ex_kend ex_page (after ex_kend ex_shares).1.1 = Ret (tt, s') /\ stk (words s') (pages s') (ex_page :: l).
Proof.
  apply (page_ref_overflow ex_kend _ _ _ ex_page 129 ex_kend_ok (after_reach ex_kend ex_shares ex_shares_run)).
  - vm_compute. reflexivity.
  - vm_compute. discriminate.
  - lia.
Defined.
