(* ===== verification/IPC.v ===== *)
(** * Message queues (common/ipc.c)

    The list nodes live in the heap of CList.v, in which the heads of a queue
    at address [q] are [q_message q], [q_sender q] and [q_receiver q] and the
    node of a message, a sender or a receiver is at its own address. Messages
    and their segments take a page each from [free_pages]. A thread that has
    to sleep stops there with its state kept: [sys_msgsnd] and [sys_msgrcv]
    are cut at [_sched(SLEEPING)], and [activated] records the calls of
    [activate_proc]. The spin lock makes each part a single transition. *)
From stdpp Require Import base gmap list.
From Stdlib Require Import ZArith Lia.
From S2P Require Import Prelude CList Bytes Mmu.

Definition ENOMEM := -1.
Definition ENOSEQ := -2.
Definition ENOENT := -3.
Definition EEXIST := -4.
Definition EINVAL := -5.
Definition EAGAIN := -6.
Definition EIDRM := -7.
Definition E2BIG := -8.
Definition ENOMSG := -9.
Definition IPC_RMID := 0.
Definition SEQ_MULTIPLIER := 16.
Definition IPC_PRIVATE := 0.
Definition IPC_CREATE := 2.
Definition IPC_EXCL := 1.
Definition IPC_NOWAIT := 1.
Definition MSG_MSGSZ := PAGE_SIZE - 32.
Definition MSG_MSGSEGSZ := PAGE_SIZE - 8.
Definition MAX_MSGNUM := 256.

Record msg_queue := mkQ { key : Z; seq : Z; max_msg : Z; sum_msg : Z }.
Definition q_message (q : Z) : Z := q + 16.
Definition q_sender (q : Z) : Z := q + 32.
Definition q_receiver (q : Z) : Z := q + 48.

Record ipc_ids := mkIds { size : Z; in_use : Z; ids_seq : Z; entries : list Z }.
Record msgbuf := mkBuf { b_mtype : Z; b_data : list Z }.
Record msg_msgseg := mkSeg { s_nxt : Z; s_data : list Z }.
(** [data] holds the bytes that have been copied into the page. *)
Record msg_msg := mkMsg { mtype : Z; m_size : Z; nxt : Z; data : list Z }.
Record msg_sender := mkSnd { snd_proc : Z }.
(** [r_msg] is [None] until it is written: the receiver is on a stack. *)
Record msg_receiver := mkRcv { rcv_proc : Z; rcv_mtype : Z; rcv_size : Z; r_msg : option Z }.

Record ipc_st := mkIpc {
  ids : ipc_ids; queues : gmap Z msg_queue; msgs : gmap Z msg_msg; segs : gmap Z msg_msgseg;
  senders : gmap Z msg_sender; receivers : gmap Z msg_receiver; nodes : lheap; free_pages : list Z; activated : list Z }.

Definition set_ids f (s : ipc_st) := mkIpc (f (ids s)) (queues s) (msgs s) (segs s) (senders s) (receivers s) (nodes s) (free_pages s) (activated s).
Definition set_queues f (s : ipc_st) := mkIpc (ids s) (f (queues s)) (msgs s) (segs s) (senders s) (receivers s) (nodes s) (free_pages s) (activated s).
Definition set_msgs f (s : ipc_st) := mkIpc (ids s) (queues s) (f (msgs s)) (segs s) (senders s) (receivers s) (nodes s) (free_pages s) (activated s).
Definition set_segs f (s : ipc_st) := mkIpc (ids s) (queues s) (msgs s) (f (segs s)) (senders s) (receivers s) (nodes s) (free_pages s) (activated s).
Definition set_senders f (s : ipc_st) := mkIpc (ids s) (queues s) (msgs s) (segs s) (f (senders s)) (receivers s) (nodes s) (free_pages s) (activated s).
Definition set_receivers f (s : ipc_st) := mkIpc (ids s) (queues s) (msgs s) (segs s) (senders s) (f (receivers s)) (nodes s) (free_pages s) (activated s).
Definition set_nodes f (s : ipc_st) := mkIpc (ids s) (queues s) (msgs s) (segs s) (senders s) (receivers s) (f (nodes s)) (free_pages s) (activated s).
Definition set_free_pages f (s : ipc_st) := mkIpc (ids s) (queues s) (msgs s) (segs s) (senders s) (receivers s) (nodes s) (f (free_pages s)) (activated s).
Definition set_activated f (s : ipc_st) := mkIpc (ids s) (queues s) (msgs s) (segs s) (senders s) (receivers s) (nodes s) (free_pages s) (f (activated s)).

Definition on_nodes {A} (m : M lheap A) : M ipc_st A := zoom nodes (fun h => set_nodes (fun _ => h)) m.
Definition ptr {T} (get : ipc_st -> gmap Z T) (p : Z) : M ipc_st T :=
  fun s => match get s !! p with Some v => Ret (v, s) | None => Stop Fault end.
(** [p->f = v] *)
Definition put {T} (get : ipc_st -> gmap Z T) (set : (gmap Z T -> gmap Z T) -> ipc_st -> ipc_st) (p : Z) (f : T -> T) : M ipc_st unit :=
  v <- ptr get p ;; modify (set (insert p (f v))).
Definition activate_proc (p : Z) : M ipc_st unit := modify (set_activated (fun l => l ++ [p])).

(** ** Pages

    A page taken for a message or a segment becomes that object; freeing it
    ends the object. Without a free page [kalloc_page] faults (Mem.v). *)
Definition kalloc_page : M ipc_st Z :=
  fun s => match free_pages s with p :: l => Ret (p, set_free_pages (fun _ => l) s) | [] => Stop Fault end.
Definition kfree_page (p : Z) : M ipc_st unit :=
  modify (fun s => set_free_pages (cons p) (set_msgs (delete p) (set_segs (delete p) (set_nodes (delete p) s)))).

(** ** Queues *)
Definition init_ipc : M ipc_st unit := modify (set_ids (fun _ => mkIds 16 0 0 (replicate 16 0))).

Definition entry (id : Z) : M ipc_st Z :=
  fun s => if (0 <=? id) && (id <? 16) then match entries (ids s) !! Z.to_nat id with Some e => Ret (e, s) | None => Stop Fault end else Stop Fault.
Definition set_entry (id v : Z) (i : ipc_ids) : ipc_ids := mkIds (size i) (in_use i) (ids_seq i) (<[Z.to_nat id := v]> (entries i)).

(** The first index with the given property of the entry, as the loops of
    [ipc_addid] and [ipc_findkey] search it; -1 when there is none. *)
Definition id_search (found : Z -> M ipc_st bool) : M ipc_st Z :=
  i <- gets ids ;;
  r <- for_upto (Z.to_nat (size i)) 0 (fun id => e <- entry id ;; b <- found e ;; ret (if b : bool then Some id else None)) ;;
  ret (default (-1) r).

Definition ipc_addid (que : Z) : M ipc_st Z :=
  id <- id_search (fun e => ret (e =? 0)) ;;
  if id =? -1 then ret (-1)
  else
    modify (set_ids (fun i => mkIds (size i) (i32 (in_use i + 1)) (ids_seq i) (entries i))) ;;;
    i <- gets ids ;;
    put queues set_queues que (fun q => mkQ (key q) (ids_seq i) (max_msg q) (sum_msg q)) ;;;
    modify (set_ids (fun i => mkIds (size i) (in_use i) (u16 (ids_seq i + 1)) (entries i))) ;;;
    modify (set_ids (set_entry id que)) ;;;
    ret id.

Definition ipc_buildin (id seq : Z) : Z := i32 (seq * SEQ_MULTIPLIER + id).

(** [que] is the address [kalloc] returns; the object starts with arbitrary
    contents. *)
Definition new_object (que : Z) : M ipc_st unit :=
  modify (fun s => set_queues (insert que (mkQ 0 0 0 0))
    (set_nodes (fun h => <[q_message que := mkNode 0 0]> (<[q_sender que := mkNode 0 0]> (<[q_receiver que := mkNode 0 0]> h))) s)).
Definition kfree (que : Z) : M ipc_st unit :=
  modify (fun s => set_queues (delete que)
    (set_nodes (fun h => delete (q_message que) (delete (q_sender que) (delete (q_receiver que) h))) s)).

Definition newque (kkey que : Z) : M ipc_st Z :=
  if que =? 0 then ret ENOMEM
  else
    new_object que ;;;
    id <- ipc_addid que ;;
    if id <? 0 then kfree que ;;; ret ENOSEQ
    else
      put queues set_queues que (fun q => mkQ kkey (seq q) (max_msg q) (sum_msg q)) ;;;
      put queues set_queues que (fun q => mkQ (key q) (seq q) MAX_MSGNUM (sum_msg q)) ;;;
      put queues set_queues que (fun q => mkQ (key q) (seq q) (max_msg q) 0) ;;;
      on_nodes (init_list_node (q_message que)) ;;;
      on_nodes (init_list_node (q_receiver que)) ;;;
      on_nodes (init_list_node (q_sender que)) ;;;
      q <- ptr queues que ;;
      ret (ipc_buildin id (seq q)).

Definition ipc_findkey (kkey : Z) : M ipc_st Z :=
  id_search (fun e => if e =? 0 then ret false else q <- ptr queues e ;; ret (key q =? kkey)).

Definition sys_msgget (kkey msgflg que : Z) : M ipc_st Z :=
  if kkey =? IPC_PRIVATE then newque kkey que
  else
    id <- ipc_findkey kkey ;;
    if id =? -1 then
      if negb (Z.land msgflg IPC_CREATE =? 0) then newque kkey que else ret ENOENT
    else if negb (Z.land msgflg IPC_EXCL =? 0) then ret EEXIST
    else e <- entry id ;; q <- ptr queues e ;; ret (ipc_buildin id (seq q)).

(** 0 stands for NULL. *)
Definition get_msgq (msgid : Z) : M ipc_st Z :=
  let id := Z.rem msgid SEQ_MULTIPLIER in
  i <- gets ids ;;
  if id >=? size i then ret 0
  else
    e <- entry id ;;
    if e =? 0 then ret 0
    else
      q <- ptr queues e ;;
      if negb (Z.quot msgid SEQ_MULTIPLIER =? seq q) then ret 0 else ret e.

Definition testmsg (rqtype type : Z) : bool :=
  if rqtype =? 0 then true
  else if rqtype <? 0 then i32 (rqtype + type) <=? 0
  else rqtype =? type.

(** ** Messages *)
Definition free_turn (mseg : Z) : M ipc_st (Z + unit) :=
  if mseg =? 0 then ret (inr tt)
  else g <- ptr segs mseg ;; kfree_page mseg ;;; ret (inl (s_nxt g)).
Definition free_msg (msg : Z) : M ipc_st unit :=
  m <- ptr msgs msg ;;
  g <- gets segs ;;
  while (S (length (map_to_list g))) free_turn (nxt m) ;;;
  kfree_page msg.

(** [memcpy(dst, src + off, n)] from the sender's buffer. *)
Definition copy_in (src : list Z) (off n : Z) : M ipc_st (list Z) :=
  if (0 <=? off) && (off + n <=? Z.of_nat (length src)) then ret (take (Z.to_nat n) (drop (Z.to_nat off) src)) else stop Fault.

(** [*lst = p] for [lst] the [nxt] field of the object at [owner]. *)
Definition set_nxt (owner p : Z) : M ipc_st unit :=
  fun s => match msgs s !! owner with
           | Some m => Ret (tt, set_msgs (insert owner (mkMsg (mtype m) (m_size m) p (data m))) s)
           | None => put segs set_segs owner (fun g => mkSeg p (s_data g)) s
           end.

Definition load_turn (src : list Z) (st : Z * Z * Z) : M ipc_st (Z * Z * Z + unit) :=
  let '(len, off, last) := st in
  if len >? 0 then
    mseg <- kalloc_page ;;
    bs <- copy_in src off (Z.min MSG_MSGSEGSZ len) ;;
    modify (set_segs (insert mseg (mkSeg 0 bs))) ;;;
    set_nxt last mseg ;;;
    put segs set_segs mseg (fun g => mkSeg 0 (s_data g)) ;;;
    let len := len - Z.min MSG_MSGSEGSZ len in
    ret (inl (len, off + Z.min MSG_MSGSEGSZ len, mseg))
  else ret (inr tt).

Definition load_msg (src : list Z) (len : Z) : M ipc_st Z :=
  msg <- kalloc_page ;;
  bs <- copy_in src 0 (Z.min MSG_MSGSZ len) ;;
  modify (fun s => set_msgs (insert msg (mkMsg 0 0 0 bs)) (set_nodes (insert msg (mkNode 0 0)) s)) ;;;
  let len := len - Z.min MSG_MSGSZ len in
  let off := Z.min MSG_MSGSZ len in
  set_nxt msg 0 ;;;
  while (S (Z.to_nat len)) (load_turn src) (len, off, msg) ;;;
  ret msg.

(** [memcpy(dst + off, bs, n)] into the receiver's buffer. *)
Definition copy_out (bs : list Z) (n off : Z) (dst : list Z) : M ipc_st (list Z) :=
  if (n <=? Z.of_nat (length bs)) && (off + n <=? Z.of_nat (length dst))
  then ret (splice (Z.to_nat off) (take (Z.to_nat n) bs) dst) else stop Fault.

Definition store_turn (st : Z * Z * Z * list Z) : M ipc_st (Z * Z * Z * list Z + list Z) :=
  let '(msgsz, off, sg, dst) := st in
  if msgsz >? 0 then
    g <- ptr segs sg ;;
    dst <- copy_out (s_data g) (Z.min msgsz MSG_MSGSEGSZ) off dst ;;
    let msgsz := msgsz - Z.min msgsz MSG_MSGSEGSZ in
    ret (inl (msgsz, off + Z.min msgsz MSG_MSGSEGSZ, s_nxt g, dst))
  else ret (inr dst).

Definition store_msg (dstg : msgbuf) (msg msgsz : Z) : M ipc_st msgbuf :=
  m <- ptr msgs msg ;;
  dst <- copy_out (data m) (Z.min msgsz MSG_MSGSZ) 0 (b_data dstg) ;;
  let msgsz := msgsz - Z.min MSG_MSGSZ msgsz in
  let off := Z.min MSG_MSGSZ msgsz in
  dst <- while (S (Z.to_nat msgsz)) store_turn (msgsz, off, nxt m, dst) ;;
  ret (mkBuf (mtype m) dst).

(** ** Sending *)
Definition pipeline_turn (msgq msg node : Z) : M ipc_st (Z + Z) :=
  if node =? q_receiver msgq then ret (inr 0)
  else
    rcver <- ptr receivers node ;;
    m <- ptr msgs msg ;;
    sent <- (if testmsg (rcv_mtype rcver) (mtype m) then
        on_nodes (_detach_from_list node) ;;;
        if m_size m >? rcv_size rcver then
          put receivers set_receivers node (fun r => mkRcv (rcv_proc r) (rcv_mtype r) (rcv_size r) (Some 0)) ;;;
          activate_proc (rcv_proc rcver) ;;;
          ret false
        else
          put receivers set_receivers node (fun r => mkRcv (rcv_proc r) (rcv_mtype r) (rcv_size r) (Some msg)) ;;;
          activate_proc (rcv_proc rcver) ;;;
          ret true
      else ret false) ;;
    if sent : bool then ret (inr 1) else n <- on_nodes (get_next node) ;; ret (inl n).

Definition pipeline_send (fuel : nat) (msgq msg : Z) : M ipc_st Z :=
  n <- on_nodes (get_next (q_receiver msgq)) ;; while fuel (pipeline_turn msgq msg) n.

(** [_insert_into_list(head->prev, node)] *)
Definition append_node (head node : Z) : M ipc_st unit :=
  p <- on_nodes (get_prev head) ;; on_nodes (_insert_into_list p node) ;;; ret tt.

(** From [retry] on. [None]: the thread sleeps as [sender], an object on its
    stack, and comes back here. *)
Definition msgsnd_try (fuel : nat) (msgid msg msgflg thisproc sender : Z) : M ipc_st (option Z) :=
  msgq <- get_msgq msgid ;;
  if msgq =? 0 then free_msg msg ;;; ret (Some EIDRM)
  else
    q <- ptr queues msgq ;;
    if i32 (sum_msg q + 1) >? max_msg q then
      if negb (Z.land msgflg IPC_NOWAIT =? 0) then free_msg msg ;;; ret (Some EAGAIN)
      else
        modify (fun s => set_senders (insert sender (mkSnd thisproc)) (set_nodes (insert sender (mkNode 0 0)) s)) ;;;
        append_node (q_sender msgq) sender ;;;
        ret None
    else
      sent <- pipeline_send fuel msgq msg ;;
      (if sent =? 0 then
         append_node (q_message msgq) msg ;;;
         put queues set_queues msgq (fun q => mkQ (key q) (seq q) (max_msg q) (i32 (sum_msg q + 1)))
       else ret tt) ;;;
      ret (Some 0).

Definition sys_msgsnd (fuel : nat) (msgid : Z) (msgp : option msgbuf) (msgsz msgflg thisproc sender : Z) : M ipc_st (option Z) :=
  match msgp with
  | None => ret (Some EINVAL)
  | Some buf =>
      if (msgsz <? 0) || (b_mtype buf <? 1) then ret (Some EINVAL)
      else
        msg <- load_msg (b_data buf) msgsz ;;
        if msg =? 0 then ret (Some ENOMEM)
        else
          put msgs set_msgs msg (fun m => mkMsg (b_mtype buf) (m_size m) (nxt m) (data m)) ;;;
          put msgs set_msgs msg (fun m => mkMsg (mtype m) msgsz (nxt m) (data m)) ;;;
          msgsnd_try fuel msgid msg msgflg thisproc sender
  end.

(** ** Receiving *)
Definition wakeup_turn (head : Z) (proc_of : Z -> M ipc_st Z) (_ : unit) : M ipc_st (unit + unit) :=
  e <- on_nodes (_empty_list head) ;;
  if e : bool then ret (inr tt)
  else
    node <- on_nodes (get_next head) ;;
    on_nodes (_detach_from_list node) ;;;
    p <- proc_of node ;; activate_proc p ;;;
    ret (inl tt).

(** A sender or a receiver has its [proc] at the same place. *)
Definition waiter_proc (node : Z) : M ipc_st Z :=
  fun s => match senders s !! node, receivers s !! node with
           | Some w, _ => Ret (snd_proc w, s)
           | None, Some r => Ret (rcv_proc r, s)
           | None, None => Stop Fault
           end.
Definition ss_wakeup (fuel : nat) (head : Z) : M ipc_st unit := while fuel (wakeup_turn head waiter_proc) tt.

(** The loop over the messages: the found message, and the type which a
    search for small types narrows. *)
Definition find_turn (head : Z) (st : Z * Z * Z) : M ipc_st (Z * Z * Z + Z) :=
  let '(node, found, mt) := st in
  if node =? head then ret (inr found)
  else
    m <- ptr msgs node ;;
    n <- on_nodes (get_next node) ;;
    if testmsg mt (mtype m) then
      if mt <? -1 then ret (inl (n, node, mt + 1)) else ret (inr node)
    else ret (inl (n, found, mt)).
Definition find_msg (fuel : nat) (head mt : Z) : M ipc_st Z :=
  n <- on_nodes (get_next head) ;; while fuel (find_turn head) (n, 0, mt).

(** What follows once a message is there. *)
Definition deliver (msgp : msgbuf) (found msgsz : Z) : M ipc_st (Z * msgbuf) :=
  m <- ptr msgs found ;;
  let msgsz := Z.min msgsz (m_size m) in
  buf <- store_msg msgp found msgsz ;;
  free_msg found ;;;
  ret (msgsz, buf).

(** [None]: the thread sleeps as [receiver], an object on its stack. *)
Definition sys_msgrcv (fuel : nat) (msgid : Z) (msgp : option msgbuf) (msgsz mt msgflg thisproc receiver : Z) : M ipc_st (option (Z * option msgbuf)) :=
  match msgp with
  | None => ret (Some (EINVAL, msgp))
  | Some buf =>
      if msgsz <? 0 then ret (Some (EINVAL, msgp))
      else
        msgq <- get_msgq msgid ;;
        if msgq =? 0 then ret (Some (EIDRM, msgp))
        else
          found <- find_msg fuel (q_message msgq) mt ;;
          if negb (found =? 0) then
            m <- ptr msgs found ;;
            if m_size m >? msgsz then ret (Some (E2BIG, msgp))
            else
              on_nodes (_detach_from_list found) ;;;
              put queues set_queues msgq (fun q => mkQ (key q) (seq q) (max_msg q) (i32 (sum_msg q - 1))) ;;;
              ss_wakeup fuel (q_sender msgq) ;;;
              r <- deliver buf found msgsz ;;
              ret (Some (r.1, Some r.2))
          else if negb (Z.land msgflg IPC_NOWAIT =? 0) then ret (Some (ENOMSG, msgp))
          else
            modify (fun s => set_receivers (insert receiver (mkRcv thisproc mt msgsz None)) (set_nodes (insert receiver (mkNode 0 0)) s)) ;;;
            append_node (q_receiver msgq) receiver ;;;
            ret None
  end.

(** After the sleep. An [r_msg] nobody has written faults. *)
Definition sys_msgrcv_wake (msgp : msgbuf) (msgsz receiver : Z) : M ipc_st (Z * msgbuf) :=
  r <- ptr receivers receiver ;;
  match r_msg r with
  | None => stop Fault
  | Some found => if found =? 0 then ret (E2BIG, msgp) else deliver msgp found msgsz
  end.

(** ** Removing a queue *)
Definition expunge_proc (node : Z) : M ipc_st Z :=
  put receivers set_receivers node (fun r => mkRcv (rcv_proc r) (rcv_mtype r) (rcv_size r) (Some 0)) ;;;
  r <- ptr receivers node ;; ret (rcv_proc r).
Definition expunge_all (fuel : nat) (que : Z) : M ipc_st unit := while fuel (wakeup_turn (q_receiver que) expunge_proc) tt.

Definition drain_turn (head : Z) (_ : unit) : M ipc_st (unit + unit) :=
  e <- on_nodes (_empty_list head) ;;
  if e : bool then ret (inr tt)
  else node <- on_nodes (get_next head) ;; on_nodes (_detach_from_list node) ;;; free_msg node ;;; ret (inl tt).

Definition freeque (fuel : nat) (id : Z) : M ipc_st unit :=
  msgq <- get_msgq id ;;
  if msgq =? 0 then ret tt
  else
    entry (Z.rem id SEQ_MULTIPLIER) ;;;
    modify (set_ids (set_entry (Z.rem id SEQ_MULTIPLIER) 0)) ;;;
    ss_wakeup fuel (q_receiver msgq) ;;;
    expunge_all fuel msgq ;;;
    while fuel (drain_turn (q_message msgq)) tt ;;;
    modify (set_ids (fun i => mkIds (size i) (i32 (in_use i - 1)) (ids_seq i) (entries i))) ;;;
    kfree msgq.

Definition sys_msgctl (fuel : nat) (msgid cmd : Z) : M ipc_st Z :=
  if cmd =? IPC_RMID then freeque fuel msgid ;;; ret 0 else ret EINVAL.

(** ** Copying messages *)
Lemma ptr_Ret {T} (get : ipc_st -> gmap Z T) p v s : get s !! p = Some v -> ptr get p s = Ret (v, s).
Proof. intros H. unfold ptr. by rewrite H. Qed.
Lemma put_Ret {T} (get : ipc_st -> gmap Z T) set p v f s : get s !! p = Some v -> put get set p f s = Ret (tt, set (insert p (f v)) s).
Proof. intros H. unfold put. by rewrite (bind_Ret _ _ _ _ _ (ptr_Ret get p v s H)). Qed.
Lemma on_nodes_Ret {A} (m : M lheap A) s a h : m (nodes s) = Ret (a, h) -> on_nodes m s = Ret (a, set_nodes (fun _ => h) s).
Proof. intros H. unfold on_nodes. by rewrite (zoom_Ret _ _ _ _ _ _ H). Qed.
Lemma on_nodes_id {A} (m : M lheap A) s a : m (nodes s) = Ret (a, nodes s) -> on_nodes m s = Ret (a, s).
Proof. intros H. rewrite (on_nodes_Ret _ _ _ _ H). by destruct s. Qed.

Lemma copy_in_Ret src off n s :
  0 <= off -> off + n <= Z.of_nat (length src) -> copy_in src off n s = Ret (take (Z.to_nat n) (drop (Z.to_nat off) src), s).
Proof. intros H1 H2. unfold copy_in. by rewrite (proj2 (Z.leb_le _ _)), (proj2 (Z.leb_le _ _)) by lia. Qed.
Lemma copy_out_Ret bs n off dst s :
  n <= Z.of_nat (length bs) -> off + n <= Z.of_nat (length dst) -> copy_out bs n off dst s = Ret (splice (Z.to_nat off) (take (Z.to_nat n) bs) dst, s).
Proof. intros H1 H2. unfold copy_out. by rewrite (proj2 (Z.leb_le _ _)), (proj2 (Z.leb_le _ _)) by lia. Qed.

(** A message of one page. *)
Definition one_page (p : Z) (m : msg_msg) (s : ipc_st) : ipc_st :=
  set_msgs (insert p m) (set_nodes (insert p (mkNode 0 0)) (set_free_pages (drop 1) s)).

Lemma load_first p fr src len s :
  free_pages s = p :: fr -> 0 <= len -> len <= Z.of_nat (length src) ->
  load_msg src len s = (while (S (Z.to_nat (len - Z.min MSG_MSGSZ len))) (load_turn src) (len - Z.min MSG_MSGSZ len, Z.min MSG_MSGSZ (len - Z.min MSG_MSGSZ len), p) ;;; ret p)
    (one_page p (mkMsg 0 0 0 (take (Z.to_nat (Z.min MSG_MSGSZ len)) src)) s).
Proof.
  intros Hf H0 Hl. unfold load_msg.
  assert (E : kalloc_page s = Ret (p, set_free_pages (drop 1) s)) by (unfold kalloc_page; rewrite Hf; destruct s; simpl in *; by subst).
  rewrite (bind_Ret _ _ _ _ _ E), (bind_Ret _ _ _ _ _ (copy_in_Ret src 0 (Z.min MSG_MSGSZ len) _ ltac:(lia) ltac:(lia))), (bind_Ret (modify _) _ _ _ _ eq_refl).
  cbv zeta. erewrite (bind_Ret (set_nxt p 0)); [reflexivity|]. unfold set_nxt. simpl. rewrite lookup_insert_eq. simpl. unfold one_page. f_equal. f_equal.
  unfold set_msgs. simpl. f_equal. apply insert_insert_eq.
Qed.

Lemma load_small p fr src len s :
  free_pages s = p :: fr -> 0 <= len <= MSG_MSGSZ -> len <= Z.of_nat (length src) ->
  load_msg src len s = Ret (p, one_page p (mkMsg 0 0 0 (take (Z.to_nat len) src)) s).
Proof.
  intros Hf H0 Hl. rewrite (load_first p fr) by (done || lia). replace (Z.min MSG_MSGSZ len) with len by lia.
  rewrite Z.sub_diag. reflexivity.
Qed.

Lemma free_small p m s :
  msgs s !! p = Some m -> nxt m = 0 -> free_msg p s = Ret (tt, set_free_pages (cons p) (set_msgs (delete p) (set_segs (delete p) (set_nodes (delete p) s)))).
Proof.
  intros Hp Hn. unfold free_msg. rewrite (bind_Ret _ _ _ _ _ (ptr_Ret msgs p m s Hp)), (bind_Ret (gets _) _ _ _ _ eq_refl), Hn.
  rewrite (bind_Ret _ _ _ tt s) by done. reflexivity.
Qed.

Lemma store_small p m dst n s :
  msgs s !! p = Some m -> 0 <= n <= MSG_MSGSZ -> n <= Z.of_nat (length (data m)) -> n <= Z.of_nat (length (b_data dst)) ->
  store_msg dst p n s = Ret (mkBuf (mtype m) (splice 0 (take (Z.to_nat n) (data m)) (b_data dst)), s).
Proof.
  intros Hp Hn Hd Hl. unfold store_msg. rewrite (bind_Ret _ _ _ _ _ (ptr_Ret msgs p m s Hp)).
  replace (Z.min n MSG_MSGSZ) with n by lia. replace (Z.min MSG_MSGSZ n) with n by lia.
  rewrite (bind_Ret _ _ _ _ _ (copy_out_Ret (data m) n 0 (b_data dst) s ltac:(lia) ltac:(lia))). rewrite Z.sub_diag. reflexivity.
Qed.

(** The message read back, and its page given back. *)
Lemma deliver_small p ty bs dst msgsz s :
  msgs s !! p = Some (mkMsg ty (Z.of_nat (length bs)) 0 bs) -> Z.of_nat (length bs) <= MSG_MSGSZ ->
  Z.of_nat (length bs) <= msgsz -> Z.of_nat (length bs) <= Z.of_nat (length (b_data dst)) ->
  deliver dst p msgsz s = Ret ((Z.of_nat (length bs), mkBuf ty (splice 0 bs (b_data dst))),
    set_free_pages (cons p) (set_msgs (delete p) (set_segs (delete p) (set_nodes (delete p) s)))).
Proof.
  intros Hp Hb Hm Hd. unfold deliver. rewrite (bind_Ret _ _ _ _ _ (ptr_Ret msgs p _ s Hp)). simpl m_size.
  replace (Z.min msgsz (Z.of_nat (length bs))) with (Z.of_nat (length bs)) by lia.
  rewrite (bind_Ret _ _ _ _ _ (store_small p _ dst (Z.of_nat (length bs)) s Hp ltac:(lia) ltac:(simpl; lia) ltac:(lia))). simpl.
  rewrite Nat2Z.id, firstn_all. by rewrite (bind_Ret _ _ _ _ _ (free_small p _ s Hp eq_refl)).
Qed.

(** ** Lists with a sentinel *)
Lemma ring_head_next h a l : ring h (a :: l) -> get_next a h = Ret (hd a l, h).
Proof. intros (_ & _ & Hp & Hl). apply get_next_Ret. destruct l; [apply Hl|apply Hp]. Qed.

Lemma ring_next h head l1 n l2 : ring h (head :: l1 ++ n :: l2) -> get_next n h = Ret (hd head l2, h).
Proof.
  intros Hr. change (head :: l1 ++ n :: l2) with ((head :: l1) ++ n :: l2) in Hr. apply ring_rotate in Hr. simpl in Hr.
  rewrite (ring_head_next h n _ Hr). by destruct l2.
Qed.

Lemma ring_detach h head l1 p l2 :
  ring h (head :: l1 ++ p :: l2) ->
  exists r h', _detach_from_list p h = Ret (r, h') /\ ring h' (head :: l1 ++ l2) /\ ring h' [p] /\
    forall c, c ∉ head :: l1 ++ p :: l2 -> h' !! c = h !! c.
Proof.
  intros Hr. change (head :: l1 ++ p :: l2) with ((head :: l1) ++ p :: l2) in Hr. apply ring_rotate in Hr. rewrite <- app_comm_cons in Hr.
  destruct (l2 ++ head :: l1) as [|b l] eqn:El; [by destruct l2|].
  destruct (detach_from_list_ring _ _ _ _ Hr) as (h' & E & Hr' & Hp & Hf). exists (lst b l), h'. split; [done|].
  split; [rewrite <- El in Hr'; by apply ring_rotate in Hr'|]. split; [done|]. intros c Hc. apply Hf. rewrite <- El. set_solver.
Qed.

Lemma append_ring s head l n :
  ring (nodes s) (head :: l) -> is_Some (nodes s !! n) -> n <> 0 -> n ∉ head :: l ->
  exists h', append_node head n s = Ret (tt, set_nodes (fun _ => h') s) /\ ring h' (head :: l ++ [n]) /\
    forall c, c ∉ n :: head :: l -> h' !! c = nodes s !! c.
Proof.
  intros Hr Hn H0 Hnl. unfold append_node. destruct (sentinel_ends _ _ _ Hr) as [_ Ep].
  rewrite (bind_Ret _ _ _ _ _ (on_nodes_id _ s _ Ep)). destruct (lst_snoc head l) as [l0 El].
  assert (Hr0 : ring (nodes s) (lst head l :: l0)) by (rewrite El in Hr; by apply ring_rotate in Hr).
  destruct (insert_into_list_ring _ _ _ n Hr0 Hn H0) as (h' & E & Hr' & Hf).
  { rewrite El in Hnl. set_solver. }
  exists h'. rewrite (bind_Ret _ _ _ _ _ (on_nodes_Ret _ s _ _ E)). split; [done|]. split.
  - change (lst head l :: n :: l0) with ([lst head l; n] ++ l0) in Hr'. apply ring_rotate in Hr'.
    change (l0 ++ [lst head l; n]) with (l0 ++ [lst head l] ++ [n]) in Hr'. by rewrite app_assoc, <- El in Hr'.
  - intros c Hc. apply Hf. rewrite El in Hc. set_solver.
Qed.

(** ** A queue as a list of messages *)
Definition valid_id (s : ipc_st) (msgid q : Z) : Prop :=
  size (ids s) = 16 /\ 0 <= msgid /\ q <> 0 /\ entries (ids s) !! Z.to_nat (Z.rem msgid SEQ_MULTIPLIER) = Some q /\
  exists mq, queues s !! q = Some mq /\ seq mq = Z.quot msgid SEQ_MULTIPLIER.

Lemma entry_Ret s id e : 0 <= id < 16 -> entries (ids s) !! Z.to_nat id = Some e -> entry id s = Ret (e, s).
Proof. intros Hid He. unfold entry. rewrite (proj2 (Z.leb_le _ _)), (proj2 (Z.ltb_lt _ _)) by lia. simpl. by rewrite He. Qed.

Lemma get_msgq_valid s msgid q : valid_id s msgid q -> get_msgq msgid s = Ret (q, s).
Proof.
  intros (Hs & H0 & Hq & He & mq & Hm & Hseq). unfold get_msgq, SEQ_MULTIPLIER in *. rewrite (bind_Ret (gets _) _ _ _ _ eq_refl), Hs.
  pose proof (Z.rem_bound_pos msgid 16 ltac:(lia) ltac:(lia)). rewrite Z.geb_leb, (proj2 (Z.leb_gt _ _)) by lia.
  rewrite (bind_Ret _ _ _ _ _ (entry_Ret s (Z.rem msgid 16) q ltac:(lia) He)).
  rewrite (proj2 (Z.eqb_neq q 0)) by done. rewrite (bind_Ret _ _ _ _ _ (ptr_Ret queues q mq s Hm)), Hseq, Z.eqb_refl. done.
Qed.

(** Queue [q] holds the messages of [L], the nodes of [l], and nobody waits. *)
Record queue_rep (s : ipc_st) (msgid q : Z) (l : list Z) (L : list (Z * list Z)) : Prop := {
  qr_id : valid_id s msgid q;
  qr_sum : exists k e, queues s !! q = Some (mkQ k e MAX_MSGNUM (Z.of_nat (length L)));
  qr_messages : ring (nodes s) (q_message q :: l);
  qr_receivers : ring (nodes s) [q_receiver q];
  qr_senders : ring (nodes s) [q_sender q];
  qr_msgs : Forall2 (fun p m => msgs s !! p = Some (mkMsg m.1 (Z.of_nat (length m.2)) 0 m.2) /\ Z.of_nat (length m.2) <= MSG_MSGSZ) l L;
  qr_apart : q_receiver q ∉ l /\ q_sender q ∉ l;
  qr_free : NoDup (free_pages s) /\ forall p, p ∈ free_pages s -> p <> 0 /\ p ∉ q_message q :: q_receiver q :: q_sender q :: l
}.

Lemma stored_frame (s s' : ipc_st) l L :
  Forall2 (fun p m => msgs s !! p = Some (mkMsg m.1 (Z.of_nat (length m.2)) 0 m.2) /\ Z.of_nat (length m.2) <= MSG_MSGSZ) l L ->
  (forall c, c ∈ l -> msgs s' !! c = msgs s !! c) ->
  Forall2 (fun p m => msgs s' !! p = Some (mkMsg m.1 (Z.of_nat (length m.2)) 0 m.2) /\ Z.of_nat (length m.2) <= MSG_MSGSZ) l L.
Proof.
  induction 1 as [|p m l L Hp HF IH]; intros Hs; constructor; [rewrite Hs by (by left); done|]. apply IH. intros c Hc. apply Hs. by right.
Qed.

(** A queue is not changed by what happens outside of its objects. *)
Lemma queue_rep_frame s s' msgid q l L :
  queue_rep s msgid q l L -> ids s' = ids s -> queues s' = queues s ->
  (forall c, c ∈ q_message q :: q_receiver q :: q_sender q :: l -> nodes s' !! c = nodes s !! c) ->
  (forall c, c ∈ l -> msgs s' !! c = msgs s !! c) ->
  (NoDup (free_pages s') /\ forall p, p ∈ free_pages s' -> p <> 0 /\ p ∉ q_message q :: q_receiver q :: q_sender q :: l) ->
  queue_rep s' msgid q l L.
Proof.
  intros [] Hi Hq Hn Hm Hf. constructor; try done.
  - unfold valid_id. by rewrite Hi, Hq.
  - by rewrite Hq.
  - eapply ring_frame; [done|]. intros c Hc. apply Hn. set_solver.
  - eapply ring_frame; [done|]. intros c Hc. apply Hn. set_solver.
  - eapply ring_frame; [done|]. intros c Hc. apply Hn. set_solver.
  - by eapply stored_frame.
Qed.

Lemma queue_rep_nodup s msgid q l L : queue_rep s msgid q l L -> NoDup l /\ q_message q ∉ l /\ length l = length L.
Proof.
  intros []. apply ring_NoDup in qr_messages0. apply NoDup_cons in qr_messages0 as [? ?]. split; [done|]. split; [done|]. by eapply Forall2_length.
Qed.

Lemma no_receivers s msgq msg fuel : ring (nodes s) [q_receiver msgq] -> (0 < fuel)%nat -> pipeline_send fuel msgq msg s = Ret (0, s).
Proof.
  intros Hr Hf. unfold pipeline_send. rewrite (bind_Ret _ _ _ _ _ (on_nodes_id _ s _ (ring_head_next _ _ _ Hr))).
  destruct fuel; [lia|]. rewrite while_S. unfold pipeline_turn at 1. simpl. by rewrite Z.eqb_refl.
Qed.

(** The message built by [sys_msgsnd], just before it looks for the queue. *)
Definition loaded (p ty : Z) (bs : list Z) (s : ipc_st) : ipc_st := one_page p (mkMsg ty (Z.of_nat (length bs)) 0 bs) s.

Lemma msgsnd_loads fuel msgid ty src flg th snd p fr sz s :
  free_pages s = p :: fr -> p <> 0 -> 1 <= ty -> 0 <= sz <= MSG_MSGSZ -> sz <= Z.of_nat (length src) ->
  sys_msgsnd fuel msgid (Some (mkBuf ty src)) sz flg th snd s = msgsnd_try fuel msgid p flg th snd (loaded p ty (take (Z.to_nat sz) src) s).
Proof.
  intros Hf Hp Hty Hsz Hl. unfold sys_msgsnd. rewrite (proj2 (Z.ltb_ge sz 0)) by lia. cbn [b_mtype b_data]. rewrite (proj2 (Z.ltb_ge ty 1)) by lia. change (false || false) with false. cbv iota.
  rewrite (bind_Ret _ _ _ _ _ (load_small p fr src sz s Hf Hsz Hl)), (proj2 (Z.eqb_neq p 0)) by done.
  erewrite (bind_Ret (put _ _ _ _)) by (apply put_Ret; simpl; apply lookup_insert_eq).
  erewrite (bind_Ret (put _ _ _ _)) by (apply put_Ret; simpl; apply lookup_insert_eq). f_equal.
  unfold loaded, one_page, set_msgs. simpl. rewrite !insert_insert_eq. do 3 f_equal. rewrite length_take. lia.
Qed.

Lemma msgsnd_appends fuel msgid q l L ty src flg th snd p fr sz s :
  queue_rep s msgid q l L -> free_pages s = p :: fr -> 1 <= ty -> 0 <= sz <= MSG_MSGSZ -> sz <= Z.of_nat (length src) ->
  Z.of_nat (length L) < MAX_MSGNUM -> (0 < fuel)%nat ->
  exists s', sys_msgsnd fuel msgid (Some (mkBuf ty src)) sz flg th snd s = Ret (Some 0, s') /\
    queue_rep s' msgid q (l ++ [p]) (L ++ [(ty, take (Z.to_nat sz) src)]) /\ free_pages s' = fr /\ activated s' = activated s.
Proof.
  intros H Hf Hty Hsz Hl Hlen Hfuel. pose proof (queue_rep_nodup _ _ _ _ _ H) as (Hnd & Hql & Hll).
  destruct (qr_free _ _ _ _ _ H) as [Hfnd Hfr]. rewrite Hf in Hfnd. destruct (Hfr p ltac:(rewrite Hf; by left)) as [Hp Hpn].
  rewrite (msgsnd_loads _ _ _ _ _ _ _ p fr) by done. set (bs := take (Z.to_nat sz) src).
  assert (Hbs : Z.of_nat (length bs) <= MSG_MSGSZ) by (unfold bs; rewrite length_take; lia).
  apply NoDup_cons in Hfnd as [Hpf Hfnd].
  assert (H1 : queue_rep (loaded p ty bs s) msgid q l L).
  { apply (queue_rep_frame s _ msgid q l L H); simpl; [done|done|intros c Hc; apply lookup_insert_ne; set_solver|intros c Hc; apply lookup_insert_ne; set_solver|].
    rewrite Hf. split; [done|]. intros p' Hp'. apply Hfr. rewrite Hf. by right. }
  destruct (append_ring (loaded p ty bs s) (q_message q) l p (qr_messages _ _ _ _ _ H1)) as (h' & E & Hr' & Hfn).
  { simpl. rewrite lookup_insert_eq. eauto. } { done. } { set_solver. }
  destruct (qr_sum _ _ _ _ _ H) as (k & e & Hq). unfold MAX_MSGNUM in *.
  eexists. split; [|split; [|split]].
  - unfold msgsnd_try. rewrite (bind_Ret _ _ _ _ _ (get_msgq_valid _ _ _ (qr_id _ _ _ _ _ H1))).
    destruct (qr_id _ _ _ _ _ H) as (_ & _ & Hq0 & _). rewrite (proj2 (Z.eqb_neq q 0)) by done.
    rewrite (bind_Ret _ _ _ _ _ (ptr_Ret queues q _ (loaded p ty bs s) Hq)). cbn [sum_msg max_msg].
    rewrite i32_small by lia. rewrite Z.gtb_ltb, (proj2 (Z.ltb_ge _ _)) by lia.
    rewrite (bind_Ret _ _ _ _ _ (no_receivers _ q p fuel (qr_receivers _ _ _ _ _ H1) Hfuel)). simpl (0 =? 0). cbv iota.
    rewrite bind_assoc, (bind_Ret _ _ _ _ _ E). rewrite (bind_Ret _ _ _ _ _ (put_Ret queues set_queues q _ _ (set_nodes (fun _ => h') (loaded p ty bs s)) Hq)). reflexivity.
  - apply not_elem_of_cons in Hpn as [Hp1 Hpn]. apply not_elem_of_cons in Hpn as [Hp2 Hpn]. apply not_elem_of_cons in Hpn as [Hp3 Hpl].
    destruct (qr_apart _ _ _ _ _ H) as [Ha1 Ha2]. unfold q_message, q_receiver, q_sender in *.
    destruct H1 as [Hid _ _ Hrr Hrs Hms _ _]. constructor.
    + destruct Hid as (I1 & I2 & I3 & I4 & mq & I5 & I6). split; [done|]. split; [done|]. split; [done|]. split; [done|].
      simpl in *. rewrite Hq in I5. simplify_eq. eexists. rewrite lookup_insert_eq. split; [done|]. done.
    + simpl. exists k, e. rewrite lookup_insert_eq. cbn [key seq max_msg sum_msg]. rewrite i32_small by lia. rewrite length_app. simpl. unfold MAX_MSGNUM. do 2 f_equal. lia.
    + exact Hr'.
    + eapply ring_frame; [exact Hrr|]. intros c ->%list_elem_of_singleton. apply Hfn. unfold q_receiver, q_sender. rewrite !not_elem_of_cons. split; [lia|]. split; [lia|done].
    + eapply ring_frame; [exact Hrs|]. intros c ->%list_elem_of_singleton. apply Hfn. unfold q_receiver, q_sender. rewrite !not_elem_of_cons. split; [lia|]. split; [lia|done].
    + apply Forall2_app; [exact Hms|]. constructor; [|done]. simpl. rewrite lookup_insert_eq. done.
    + unfold q_receiver, q_sender. split; set_solver.
    + simpl. rewrite Hf. split; [done|]. intros p' Hp'. destruct (Hfr p') as [? Hn]; [rewrite Hf; by right|]. split; [done|]. unfold q_message, q_receiver, q_sender. set_solver.
  - simpl. by rewrite Hf.
  - done.
Qed.

(** A message page that comes back leaves the queue as it was. *)
Lemma freed_back s msgid q l L p fr ty bs :
  queue_rep s msgid q l L -> free_pages s = p :: fr ->
  queue_rep (set_free_pages (cons p) (set_msgs (delete p) (set_segs (delete p) (set_nodes (delete p) (loaded p ty bs s))))) msgid q l L.
Proof.
  intros H Hf. destruct (qr_free _ _ _ _ _ H) as [Hfnd Hfr]. destruct (Hfr p ltac:(rewrite Hf; by left)) as [Hp Hpn].
  apply (queue_rep_frame s _ msgid q l L H); simpl; [done|done|intros c Hc; rewrite lookup_delete_ne, lookup_insert_ne; [done|set_solver..]|
    intros c Hc; rewrite lookup_delete_ne, lookup_insert_ne; [done|set_solver..]|]. rewrite Hf in *. done.
Qed.

Lemma msgsnd_full fuel msgid q l L ty src flg th snd p fr sz s :
  queue_rep s msgid q l L -> free_pages s = p :: fr -> 1 <= ty -> 0 <= sz <= MSG_MSGSZ -> sz <= Z.of_nat (length src) ->
  Z.of_nat (length L) = MAX_MSGNUM -> Z.land flg IPC_NOWAIT <> 0 ->
  exists s', sys_msgsnd fuel msgid (Some (mkBuf ty src)) sz flg th snd s = Ret (Some EAGAIN, s') /\
    queue_rep s' msgid q l L /\ free_pages s' = free_pages s /\ activated s' = activated s.
Proof.
  intros H Hf Hty Hsz Hl Hlen Hflg. destruct (qr_free _ _ _ _ _ H) as [Hfnd Hfr]. destruct (Hfr p ltac:(rewrite Hf; by left)) as [Hp Hpn].
  rewrite (msgsnd_loads _ _ _ _ _ _ _ p fr) by done. eexists. split; [|split; [exact (freed_back s msgid q l L p fr ty (take (Z.to_nat sz) src) H Hf)|split; [simpl; by rewrite Hf|done]]].
  destruct (qr_sum _ _ _ _ _ H) as (k & e & Hq). unfold MAX_MSGNUM in *. unfold msgsnd_try.
  assert (Hid : valid_id (loaded p ty (take (Z.to_nat sz) src) s) msgid q) by exact (qr_id _ _ _ _ _ H).
  rewrite (bind_Ret _ _ _ _ _ (get_msgq_valid _ _ _ Hid)). destruct Hid as (_ & _ & Hq0 & _). rewrite (proj2 (Z.eqb_neq q 0)) by done.
  rewrite (bind_Ret _ _ _ _ _ (ptr_Ret queues q _ (loaded p ty (take (Z.to_nat sz) src) s) Hq)). cbn [sum_msg max_msg]. rewrite Hlen. change (i32 (256 + 1) >? 256) with true. cbv iota.
  rewrite (proj2 (Z.eqb_neq _ 0)) by done. cbn [negb].
  rewrite (bind_Ret _ _ _ _ _ (free_small p _ (loaded p ty (take (Z.to_nat sz) src) s) (lookup_insert_eq _ _ _) eq_refl)). reflexivity.
Qed.

(** ** Receiving *)
(** *** Which message a type selects

    The reference: type 0 selects the first message, a positive type the first
    message of that type, and a negative type [-b] narrows down from [b] to
    small types: a message of type at most [b] is remembered and the bound
    goes down by one; with the bound at 1 the search ends, otherwise the last
    one remembered is selected. *)
Abbreviation typed := (Z * list Z)%type.
Fixpoint narrow (b : Z) (best : option nat) (k : nat) (L : list typed) : option nat :=
  match L with
  | [] => best
  | m :: L' => if m.1 <=? b then if b =? 1 then Some k else narrow (b - 1) (Some k) (S k) L' else narrow b best (S k) L'
  end.
Definition index_of (mt : Z) (L : list typed) : option nat :=
  if mt =? 0 then match L with [] => None | _ => Some 0%nat end
  else if 0 <? mt then fst <$> list_find (fun m : typed => m.1 = mt) L
  else narrow (- mt) None 0 L.
Definition select (mt : Z) (L : list typed) : option (nat * typed) :=
  i ← index_of mt L; m ← L !! i; Some (i, m).

(** Types are positive [int]s. *)
Definition type_ok (m : typed) : Prop := 1 <= m.1 < 2 ^ 31.

(** The search of the code, all types in one loop. *)
Fixpoint pick (mt : Z) (best : option nat) (k : nat) (L : list typed) : option nat :=
  match L with
  | [] => best
  | m :: L' =>
      if testmsg mt m.1 then if mt <? -1 then pick (mt + 1) (Some k) (S k) L' else Some k
      else pick mt best (S k) L'
  end.

Lemma pick_narrow b best k L : 1 <= b <= 2 ^ 31 -> Forall type_ok L -> pick (- b) best k L = narrow b best k L.
Proof.
  intros Hb HL. revert b best k Hb. induction HL as [|m L [Hm1 Hm2] _ IH]; intros b best k Hb; [done|]. cbn [pick narrow].
  unfold testmsg. rewrite (proj2 (Z.eqb_neq (- b) 0)), (proj2 (Z.ltb_lt (- b) 0)), i32_small by lia.
  destruct (Z.leb_spec m.1 b); [rewrite (proj2 (Z.leb_le _ 0)) by lia|rewrite (proj2 (Z.leb_gt _ 0)) by lia; by apply IH].
  destruct (Z.eqb_spec b 1) as [->|Hb1]; [done|]. rewrite (proj2 (Z.ltb_lt _ _)) by lia. replace (- b + 1) with (- (b - 1)) by lia. apply IH. lia.
Qed.

Lemma pick_index mt L : - 2 ^ 31 <= mt -> Forall type_ok L -> pick mt None 0 L = index_of mt L.
Proof.
  intros Hmt HL. unfold index_of. destruct (Z.eqb_spec mt 0) as [->|H0]; [by destruct L|].
  destruct (Z.ltb_spec 0 mt) as [Hp|Hn]; [|rewrite <- (pick_narrow (- mt)) by (done || lia); f_equal; lia].
  assert (E : forall k, pick mt None k L = (fun p => (k + p.1)%nat) <$> list_find (fun m : typed => m.1 = mt) L).
  { clear HL. induction L as [|m L IH]; intros k; [done|]. cbn [pick list_find]. unfold testmsg. rewrite (proj2 (Z.eqb_neq mt 0)), (proj2 (Z.ltb_ge mt 0)), (proj2 (Z.ltb_ge mt (-1))) by lia.
    destruct (Z.eqb_spec mt m.1) as [E|E]; [rewrite decide_True by done; simpl; f_equal; lia|]. rewrite decide_False by (by apply not_eq_sym).
    rewrite IH. destruct (list_find _ L) as [[i x]|]; simpl; [f_equal; lia|done]. }
  rewrite E. by destruct (list_find _ L) as [[i x]|].
Qed.

Lemma pick_bound mt best k L i : pick mt best k L = Some i -> best = Some i \/ (k <= i < k + length L)%nat.
Proof.
  revert mt best k. induction L as [|m L IH]; intros mt best k H; [by left|]. cbn [pick] in H. cbn [length].
  destruct (testmsg mt m.1); [destruct (mt <? -1); [|injection H as <-; right; lia]|]; apply IH in H as [H|H]; try (right; lia); [injection H as <-; right; lia|by left].
Qed.

Lemma select_index mt L : - 2 ^ 31 <= mt -> Forall type_ok L -> fst <$> select mt L = index_of mt L.
Proof.
  intros Hmt HL. unfold select. rewrite <- pick_index by done. destruct (pick mt None 0 L) as [i|] eqn:E; [|done].
  apply pick_bound in E as [E|E]; [done|]. destruct (lookup_lt_is_Some_2 L i) as [m Hm]; [lia|]. simpl. by rewrite Hm.
Qed.

Lemma select_lookup mt L i m : select mt L = Some (i, m) -> L !! i = Some m.
Proof. unfold select. intros (j & _ & H)%bind_Some. apply bind_Some in H as (x & Hx & [= <- <-]). done. Qed.

(** What is selected has a type that was asked for, and there is none only
    when nothing has. *)
Definition asked (mt : Z) (m : typed) : Prop := mt = 0 \/ 0 < mt /\ m.1 = mt \/ mt < 0 /\ m.1 <= - mt.

Lemma narrow_some b i k L : narrow b (Some i) k L <> None.
Proof. revert b i k. induction L as [|x L IH]; intros b i k; cbn [narrow]; [done|]. destruct (x.1 <=? b); [destruct (b =? 1); [done|]|]; apply IH. Qed.

Lemma narrow_asked b k best L : match narrow b best k L with Some i => best = Some i \/ exists m, L !! (i - k)%nat = Some m /\ (k <= i)%nat /\ m.1 <= b | None => Forall (fun m => b < m.1) L end.
Proof.
  revert b best k. induction L as [|m L IH]; intros b best k; cbn [narrow]; [destruct best; [by left|constructor]|].
  assert (Hup : forall b' best' , b' <= b -> match narrow b' best' (S k) L with Some i => best' = Some i \/ exists m', (m :: L) !! (i - k)%nat = Some m' /\ (k <= i)%nat /\ m'.1 <= b | None => Forall (fun m => b' < m.1) L end).
  { intros b' best' Hb. specialize (IH b' best' (S k)). destruct (narrow b' best' (S k) L) as [i|]; [|done]. destruct IH as [IH|(x & Hx & Hk & Hle)]; [by left|].
    right. exists x. replace (i - k)%nat with (S (i - S k)) by lia. split; [done|]. split; lia. }
  destruct (Z.leb_spec m.1 b) as [Hle|Hgt].
  - destruct (b =? 1); [right; exists m; rewrite Nat.sub_diag; done|]. specialize (Hup (b - 1) (Some k) ltac:(lia)).
    destruct (narrow (b - 1) (Some k) (S k) L) as [i|] eqn:E; [|exfalso].
    + destruct Hup as [[= <-]|Hup]; [right; exists m; rewrite Nat.sub_diag; done|by right].
    + by apply narrow_some in E.
  - specialize (Hup b best ltac:(lia)). destruct (narrow b best (S k) L) as [i|]; [done|]. by constructor.
Qed.

Lemma select_asked mt L : - 2 ^ 31 <= mt -> Forall type_ok L -> match select mt L with Some (i, m) => L !! i = Some m /\ asked mt m | None => Forall (fun m => ~ asked mt m) L end.
Proof.
  intros Hmt HL. pose proof (select_index mt L Hmt HL) as Hi. destruct (select mt L) as [[i m]|] eqn:E.
  - apply select_lookup in E as Hm. split; [done|]. simpl in Hi. symmetry in Hi. unfold index_of in Hi. unfold asked. destruct (Z.eqb_spec mt 0); [by left|right].
    destruct (Z.ltb_spec 0 mt); [left|right].
    + apply fmap_Some in Hi as ([j x] & (Hx & Ht & _)%list_find_Some & ->). simpl in *. split; congruence.
    + pose proof (narrow_asked (- mt) 0 None L) as Hn. rewrite Hi in Hn. destruct Hn as [Hn|(x & Hx & _ & Hle)]; [done|]. rewrite Nat.sub_0_r in Hx. split; [lia|congruence].
  - simpl in Hi. symmetry in Hi. unfold index_of in Hi. unfold asked. destruct (Z.eqb_spec mt 0); [by destruct L|]. destruct (Z.ltb_spec 0 mt).
    + apply fmap_None, list_find_None in Hi. eapply Forall_impl; [exact Hi|]. simpl. intros x Hx. lia.
    + pose proof (narrow_asked (- mt) 0 None L) as Hn. rewrite Hi in Hn. eapply Forall_impl; [exact Hn|]. simpl. intros x Hx. lia.
Qed.

Lemma find_loop s head l mt l1 l2 L2 best fuel :
  ring (nodes s) (head :: l) -> l = l1 ++ l2 -> head ∉ l2 ->
  Forall2 (fun p (m : typed) => exists n sz bs, msgs s !! p = Some (mkMsg m.1 sz n bs)) l2 L2 -> (length l2 < fuel)%nat ->
  while fuel (find_turn head) (hd head l2, match best with Some i => nth i l 0 | None => 0 end, mt) s =
    Ret (match pick mt best (length l1) L2 with Some i => nth i l 0 | None => 0 end, s).
Proof.
  intros Hr El Hh HF. revert mt best l1 fuel El Hh. induction HF as [|p m l2 L2 (n & sz & bs & Hp) HF IH]; intros mt best l1 fuel El Hh Hfuel;
    (destruct fuel as [|fuel]; [simpl in Hfuel; lia|]); rewrite while_S; unfold find_turn at 1; cbn [hd].
  - simpl. by rewrite Z.eqb_refl.
  - apply not_elem_of_cons in Hh as [Hhp Hh]. rewrite (proj2 (Z.eqb_neq p head)) by done. rewrite El in Hr.
    rewrite bind_assoc, (bind_Ret _ _ _ _ _ (ptr_Ret msgs p _ s Hp)), bind_assoc, (bind_Ret _ _ _ _ _ (on_nodes_id _ s _ (ring_next _ _ _ _ _ Hr))).
    assert (En : nth (length l1) l 0 = p) by (rewrite El, app_nth2, Nat.sub_diag by lia; done).
    assert (El' : l = (l1 ++ [p]) ++ l2) by (by rewrite <- app_assoc). assert (Ek : length (l1 ++ [p]) = S (length l1)) by (rewrite length_app; simpl; lia).
    cbn [mtype pick]. destruct (testmsg mt m.1).
    + destruct (mt <? -1); rewrite (bind_Ret (ret _) _ _ _ _ eq_refl); [|by rewrite En].
      rewrite <- En at 1. rewrite <- Ek. apply (IH (mt + 1) (Some (length l1)) (l1 ++ [p]) fuel El' Hh). simpl in Hfuel. lia.
    + rewrite (bind_Ret (ret _) _ _ _ _ eq_refl). rewrite <- Ek. apply (IH mt best (l1 ++ [p]) fuel El' Hh). simpl in Hfuel. lia.
Qed.

Lemma find_msg_spec s msgid q l L mt fuel :
  queue_rep s msgid q l L -> Forall type_ok L -> - 2 ^ 31 <= mt -> (length l < fuel)%nat ->
  find_msg fuel (q_message q) mt s = Ret (match select mt L with Some (i, _) => nth i l 0 | None => 0 end, s).
Proof.
  intros H HL Hmt Hf. pose proof (queue_rep_nodup _ _ _ _ _ H) as (_ & Hql & _). unfold find_msg.
  rewrite (bind_Ret _ _ _ _ _ (on_nodes_id _ s _ (ring_head_next _ _ _ (qr_messages _ _ _ _ _ H)))).
  pose proof (find_loop s (q_message q) l mt [] l L None fuel (qr_messages _ _ _ _ _ H) eq_refl Hql) as E. cbn [length] in E. rewrite E; [| |done].
  - rewrite pick_index, <- (select_index mt L Hmt HL) by done. by destruct (select mt L) as [[i m]|].
  - eapply Forall2_impl; [apply (qr_msgs _ _ _ _ _ H)|]. intros p m [E1 _]. eauto.
Qed.

Lemma empty_wakeup s head proc_of fuel : ring (nodes s) [head] -> (0 < fuel)%nat -> while fuel (wakeup_turn head proc_of) tt s = Ret (tt, s).
Proof.
  intros Hr Hf. destruct fuel; [lia|]. rewrite while_S. unfold wakeup_turn at 1.
  destruct (sentinel_ends _ _ _ Hr) as [Ee _]. rewrite bind_assoc, (bind_Ret _ _ _ _ _ (on_nodes_id _ s _ Ee)). done.
Qed.

Lemma msgrcv_takes fuel msgid q l L i ty bs buf msgsz mt flg th rcv s :
  queue_rep s msgid q l L -> Forall type_ok L -> - 2 ^ 31 <= mt -> 0 <= msgsz -> (length l < fuel)%nat ->
  select mt L = Some (i, (ty, bs)) -> Z.of_nat (length bs) <= msgsz -> msgsz <= Z.of_nat (length (b_data buf)) -> Z.of_nat (length L) <= MAX_MSGNUM ->
  exists s' p, sys_msgrcv fuel msgid (Some buf) msgsz mt flg th rcv s = Ret (Some (Z.of_nat (length bs), Some (mkBuf ty (splice 0 bs (b_data buf)))), s') /\
    queue_rep s' msgid q (delete i l) (delete i L) /\ l !! i = Some p /\ free_pages s' = p :: free_pages s /\ activated s' = activated s.
Proof.
  intros H HL Hmt Hsz Hf Hfind Hbs Hbuf HlenL. pose proof (queue_rep_nodup _ _ _ _ _ H) as (Hnd & Hql & Hlen).
  apply select_lookup in Hfind as HLi.
  destruct (lookup_lt_is_Some_2 l i) as [p Hp]; [rewrite Hlen; by eapply lookup_lt_Some|].
  pose proof (qr_msgs _ _ _ _ _ H) as HM. rewrite Forall2_lookup in HM. specialize (HM i). rewrite Hp, HLi in HM. inversion HM as [? ? [Hmp Hmsz]|]; subst. simpl in Hmp, Hmsz.
  assert (Hpl : p ∈ l) by (by eapply list_elem_of_lookup_2).
  assert (Hp0 : p <> 0) by (intros ->; pose proof (ring_nonnull _ _ (qr_messages _ _ _ _ _ H)); set_solver).
  apply take_drop_middle in Hp as Hsplit.
  pose proof (qr_messages _ _ _ _ _ H) as Hr. rewrite <- Hsplit in Hr. destruct (ring_detach _ _ _ _ _ Hr) as (r & h' & Ed & Hr' & Hrp & Hfr). rewrite Hsplit in Hfr.
  assert (Hdel : take i l ++ drop (S i) l = delete i l) by (by rewrite delete_take_drop). rewrite Hdel in Hr'.
  destruct (qr_sum _ _ _ _ _ H) as (k & e & Hq). destruct (qr_apart _ _ _ _ _ H) as [Ha1 Ha2]. destruct (qr_free _ _ _ _ _ H) as [Hfnd Hfree].
  set (s1 := set_queues (insert q (mkQ k e MAX_MSGNUM (Z.of_nat (length (delete i L))))) (set_nodes (fun _ => h') s)).
  assert (Hrs : ring (nodes s1) [q_sender q]).
  { eapply ring_frame; [apply (qr_senders _ _ _ _ _ H)|]. intros c ->%list_elem_of_singleton. apply Hfr. apply not_elem_of_cons. split; [unfold q_sender, q_message; lia|done]. }
  eexists. exists p. split; [|split; [|split; [done|split]]].
  - unfold sys_msgrcv. rewrite (proj2 (Z.ltb_ge msgsz 0)) by lia. rewrite (bind_Ret _ _ _ _ _ (get_msgq_valid _ _ _ (qr_id _ _ _ _ _ H))).
    destruct (qr_id _ _ _ _ _ H) as (_ & _ & Hq0 & _). rewrite (proj2 (Z.eqb_neq q 0)) by done.
    rewrite (bind_Ret _ _ _ _ _ (find_msg_spec s msgid q l L mt fuel H HL Hmt Hf)), Hfind, (nth_lookup_Some _ _ 0 _ Hp), (proj2 (Z.eqb_neq p 0)) by done. cbn [negb].
    rewrite (bind_Ret _ _ _ _ _ (ptr_Ret msgs p _ s Hmp)). cbn [m_size]. rewrite Z.gtb_ltb, (proj2 (Z.ltb_ge _ _)) by lia.
    rewrite (bind_Ret _ _ _ _ _ (on_nodes_Ret _ s _ _ Ed)), (bind_Ret _ _ _ _ _ (put_Ret queues set_queues q _ _ (set_nodes (fun _ => h') s) Hq)).
    cbn [sum_msg key seq max_msg].
    assert (Es : i32 (Z.of_nat (length L) - 1) = Z.of_nat (length (delete i L))).
    { rewrite length_delete by eauto. apply lookup_lt_Some in HLi. unfold MAX_MSGNUM in HlenL. rewrite i32_small; lia. }
    rewrite Es. fold s1. rewrite (bind_Ret (ss_wakeup fuel (q_sender q)) _ s1 tt s1 (empty_wakeup s1 (q_sender q) waiter_proc fuel Hrs ltac:(lia))).
    rewrite (bind_Ret _ _ _ _ _ (deliver_small p ty bs buf msgsz s1 Hmp Hmsz Hbs ltac:(lia))). reflexivity.
  - assert (Hpd : p ∉ delete i l).
    { rewrite <- Hdel. rewrite <- Hsplit in Hnd. apply NoDup_app in Hnd as (_ & Hd & [Hnp _]%NoDup_cons). intros [Hc|Hc]%elem_of_app; [|done]. apply (Hd p Hc). by left. }
    assert (Hsub : forall c, c ∈ delete i l -> c ∈ l).
    { intros c. rewrite <- Hdel. rewrite <- Hsplit at 3. set_solver. }
    unfold q_message, q_receiver, q_sender in *. constructor; simpl.
    + destruct (qr_id _ _ _ _ _ H) as (I1 & I2 & I3 & I4 & mq & I5 & I6). split; [done|]. split; [done|]. split; [done|]. split; [done|].
      rewrite Hq in I5. simplify_eq. eexists. simpl. rewrite lookup_insert_eq. split; [done|]. done.
    + exists k, e. by rewrite lookup_insert_eq.
    + change (ring (delete p h') (q + 16 :: delete i l)). eapply ring_frame; [exact Hr'|]. intros c Hc. apply lookup_delete_ne. intros ->. apply elem_of_cons in Hc as [->|Hc]; done.
    + change (ring (delete p h') [q + 48]). eapply ring_frame; [apply (qr_receivers _ _ _ _ _ H)|]. unfold q_receiver. intros c ->%list_elem_of_singleton.
      rewrite lookup_delete_ne by (intros ->; done). apply Hfr. rewrite not_elem_of_cons. split; [lia|done].
    + change (ring (delete p h') [q + 32]). eapply ring_frame; [exact Hrs|]. intros c ->%list_elem_of_singleton. apply lookup_delete_ne. intros ->; done.
    + refine (stored_frame s (set_msgs (delete p) s) _ _ (Forall2_delete _ _ _ i (qr_msgs _ _ _ _ _ H)) _). intros c Hc. apply lookup_delete_ne. intros ->. done.
    + unfold q_receiver, q_sender. split; intros Hc%Hsub; done.
    + split; [constructor; [intros Hpf; destruct (Hfree p Hpf) as [_ Hn]; set_solver|done]|].
      intros p' [->|Hp']%elem_of_cons.
      * split; [done|]. rewrite !not_elem_of_cons. unfold q_message, q_receiver, q_sender. split; [intros ->; done|]. split; [intros ->; done|]. split; [intros ->; done|done].
      * destruct (Hfree p' Hp') as [? Hn]. split; [done|]. unfold q_message, q_receiver, q_sender. rewrite !not_elem_of_cons in *. destruct Hn as (? & ? & ? & Hn).
        split; [done|]. split; [done|]. split; [done|]. intros Hc%Hsub. done.
  - done.
  - done.
Qed.

Lemma msgrcv_refuses fuel msgid q l L buf msgsz mt th rcv s :
  queue_rep s msgid q l L -> Forall type_ok L -> - 2 ^ 31 <= mt -> 0 <= msgsz -> (length l < fuel)%nat ->
  match select mt L with Some (_, m) => msgsz < Z.of_nat (length m.2) | None => True end ->
  sys_msgrcv fuel msgid (Some buf) msgsz mt IPC_NOWAIT th rcv s =
    Ret (Some (match select mt L with Some _ => E2BIG | None => ENOMSG end, Some buf), s).
Proof.
  intros H HL Hmt Hsz Hf Hm. pose proof (queue_rep_nodup _ _ _ _ _ H) as (Hnd & Hql & Hlen).
  unfold sys_msgrcv. rewrite (proj2 (Z.ltb_ge msgsz 0)) by lia. rewrite (bind_Ret _ _ _ _ _ (get_msgq_valid _ _ _ (qr_id _ _ _ _ _ H))).
  destruct (qr_id _ _ _ _ _ H) as (_ & _ & Hq0 & _). rewrite (proj2 (Z.eqb_neq q 0)) by done.
  rewrite (bind_Ret _ _ _ _ _ (find_msg_spec s msgid q l L mt fuel H HL Hmt Hf)). destruct (select mt L) as [[i m]|] eqn:E; [|done].
  apply select_lookup in E as HLi. destruct (lookup_lt_is_Some_2 l i) as [p Hp]; [rewrite Hlen; by eapply lookup_lt_Some|].
  pose proof (qr_msgs _ _ _ _ _ H) as HM. rewrite Forall2_lookup in HM. specialize (HM i). rewrite Hp, HLi in HM. inversion HM as [? ? [Hmp _]|]; subst.
  assert (Hp0 : p <> 0) by (intros ->; pose proof (ring_nonnull _ _ (qr_messages _ _ _ _ _ H)); apply list_elem_of_lookup_2 in Hp; set_solver).
  rewrite (nth_lookup_Some _ _ 0 _ Hp), (proj2 (Z.eqb_neq p 0)) by done. cbn [negb].
  rewrite (bind_Ret _ _ _ _ _ (ptr_Ret msgs p _ s Hmp)). cbn [m_size]. rewrite Z.gtb_ltb, (proj2 (Z.ltb_lt _ _)) by lia. done.
Qed.

(** *** Any sequence of sends and receives *)
Inductive msg_op := MSend (ty : Z) (src : list Z) (sz : Z) | MRecv (mt msgsz : Z) (buf : msgbuf).

Definition msg_op_ok (op : msg_op) : Prop :=
  match op with
  | MSend ty src sz => 1 <= ty < 2 ^ 31 /\ 0 <= sz <= MSG_MSGSZ /\ sz <= Z.of_nat (length src)
  | MRecv mt msgsz buf => - 2 ^ 31 <= mt < 2 ^ 31 /\ 0 <= msgsz <= Z.of_nat (length (b_data buf))
  end.

Definition msg_call (msgid : Z) (op : msg_op) : M ipc_st (option (Z * option msgbuf)) :=
  match op with
  | MSend ty src sz => r <- sys_msgsnd 300 msgid (Some (mkBuf ty src)) sz IPC_NOWAIT 0 0 ;; ret ((fun r => (r, None)) <$> r)
  | MRecv mt msgsz buf => sys_msgrcv 300 msgid (Some buf) msgsz mt IPC_NOWAIT 0 0
  end.

Fixpoint msg_run (msgid : Z) (ops : list msg_op) : M ipc_st (list (option (Z * option msgbuf))) :=
  match ops with
  | [] => ret []
  | op :: ops' => r <- msg_call msgid op ;; rs <- msg_run msgid ops' ;; ret (r :: rs)
  end.

(** The same on a bounded list of messages. *)
Definition msg_spec (op : msg_op) (L : list (Z * list Z)) : (Z * option msgbuf) * list (Z * list Z) :=
  match op with
  | MSend ty src sz => if Z.of_nat (length L) =? MAX_MSGNUM then ((EAGAIN, None), L) else ((0, None), L ++ [(ty, take (Z.to_nat sz) src)])
  | MRecv mt msgsz buf =>
      match select mt L with
      | Some (i, (ty, bs)) => if Z.of_nat (length bs) <=? msgsz then ((Z.of_nat (length bs), Some (mkBuf ty (splice 0 bs (b_data buf)))), delete i L)
                              else ((E2BIG, Some buf), L)
      | None => ((ENOMSG, Some buf), L)
      end
  end.

Fixpoint msg_spec_run (ops : list msg_op) (L : list (Z * list Z)) : list (option (Z * option msgbuf)) * list (Z * list Z) :=
  match ops with
  | [] => ([], L)
  | op :: ops' => let '(r, L1) := msg_spec op L in let '(rs, L2) := msg_spec_run ops' L1 in (Some r :: rs, L2)
  end.

(** Enough pages for a full queue and the message being built. *)
Definition pages_left (s : ipc_st) (L : list (Z * list Z)) : Prop := Z.of_nat (length L) <= MAX_MSGNUM < Z.of_nat (length (free_pages s) + length L).

Lemma msg_step op s msgid q l L :
  queue_rep s msgid q l L -> pages_left s L -> Forall type_ok L -> msg_op_ok op ->
  exists s' l', msg_call msgid op s = Ret (Some (msg_spec op L).1, s') /\ queue_rep s' msgid q l' (msg_spec op L).2 /\ pages_left s' (msg_spec op L).2 /\
    Forall type_ok (msg_spec op L).2 /\ activated s' = activated s.
Proof.
  intros H [HL HP] HT Hok. pose proof (queue_rep_nodup _ _ _ _ _ H) as (Hnd & Hql & Hlen). unfold pages_left, MAX_MSGNUM in *.
  destruct op as [ty src sz|mt msgsz buf]; cbn [msg_call msg_spec]; unfold MAX_MSGNUM.
  - destruct Hok as (Hty & Hsz & Hsrc). destruct (free_pages s) as [|p fr] eqn:Ef; [simpl in HP; lia|].
    destruct (Z.eqb_spec (Z.of_nat (length L)) 256) as [E|E].
    + destruct (msgsnd_full 300 msgid q l L ty src IPC_NOWAIT 0 0 p fr sz s H Ef (proj1 Hty) Hsz Hsrc E) as (s' & E1 & H' & Hf' & Ha); [done|].
      exists s', l. rewrite (bind_Ret _ _ _ _ _ E1), Hf', Ef. split; [done|]. split; [done|]. split; [simpl in *; lia|by split].
    + destruct (msgsnd_appends 300 msgid q l L ty src IPC_NOWAIT 0 0 p fr sz s H Ef (proj1 Hty) Hsz Hsrc) as (s' & E1 & H' & Hf' & Ha); [unfold MAX_MSGNUM; lia|lia|].
      exists s', (l ++ [p]). rewrite (bind_Ret _ _ _ _ _ E1), Hf'. split; [done|]. split; [done|]. split; [cbn [snd]; rewrite length_app; simpl in *; lia|]. split; [|done]. apply Forall_app. by split; [|constructor].
  - destruct Hok as (Hmt & Hsz). assert (Hfuel : (length l < 300)%nat) by lia.
    destruct (select mt L) as [[i [ty bs]]|] eqn:E.
    + destruct (Z.leb_spec (Z.of_nat (length bs)) msgsz) as [Hb|Hb].
      * destruct (msgrcv_takes 300 msgid q l L i ty bs buf msgsz mt IPC_NOWAIT 0 0 s H HT (proj1 Hmt) ltac:(lia) Hfuel E Hb ltac:(lia) HL) as (s' & p & E1 & H' & _ & Hf' & Ha).
        exists s', (delete i l). rewrite E1, Hf'. split; [done|]. split; [done|]. apply select_lookup in E as HLi. split; [cbn [snd]; rewrite length_delete by eauto; apply lookup_lt_Some in HLi; simpl; lia|].
        split; [|done]. cbn [snd]. by apply Forall_delete.
      * exists s, l. rewrite (msgrcv_refuses 300 msgid q l L buf msgsz mt 0 0 s H HT (proj1 Hmt) ltac:(lia) Hfuel) by (rewrite E; simpl; lia). rewrite E. cbn [fst snd]. auto.
    + exists s, l. rewrite (msgrcv_refuses 300 msgid q l L buf msgsz mt 0 0 s H HT (proj1 Hmt) ltac:(lia) Hfuel) by (by rewrite E). rewrite E. cbn [fst snd]. auto.
Qed.

(** C30: While nobody waits on a queue, any sequence of non-blocking
    [sys_msgsnd] and [sys_msgrcv] calls with messages of at most 4064 bytes
    and any request behaves as a list of at most 256 messages: a send appends
    or answers EAGAIN; a receive takes the message that [select] gives for the
    requested type, which reads none of the code's tests (the first message
    for 0, the first of that type for a positive one, the narrowing search for
    every negative one), with its bytes, or answers E2BIG or ENOMSG; no page
    is lost. *)
Theorem msg_queue_refines ops s msgid q l L :
  queue_rep s msgid q l L -> pages_left s L -> Forall type_ok L -> Forall msg_op_ok ops ->
  exists s' l', msg_run msgid ops s = Ret ((msg_spec_run ops L).1, s') /\ queue_rep s' msgid q l' (msg_spec_run ops L).2 /\
    pages_left s' (msg_spec_run ops L).2 /\ activated s' = activated s.
Proof.
  intros H HP HT Hok. revert s l L H HP HT. induction Hok as [|op ops Hop _ IH]; intros s l L H HP HT; [by exists s, l|].
  cbn [msg_run msg_spec_run]. destruct (msg_step op s msgid q l L H HP HT Hop) as (s1 & l1 & E1 & H1 & HP1 & HT1 & Ha1).
  destruct (msg_spec op L) as [r L1]. cbn [fst snd] in *. destruct (IH s1 l1 L1 H1 HP1 HT1) as (s' & l' & E' & H' & HP' & Ha').
  destruct (msg_spec_run ops L1) as [rs L2]. cbn [fst snd] in *. exists s', l'. rewrite (bind_Ret _ _ _ _ _ E1), (bind_Ret _ _ _ _ _ E').
  split; [done|]. split; [done|]. split; [done|]. congruence.
Qed.

(** ** Messages of two pages *)

(** How much of a message of [len] bytes arrives. *)
Definition delivered (len : Z) : Z := if len <=? MSG_MSGSZ then len else Z.max MSG_MSGSZ (2 * (len - MSG_MSGSZ)).

(** What a sender and a receiver do with a message, between them. *)
Definition send_deliver (ty : Z) (src : list Z) (len : Z) (dst : msgbuf) (msgsz : Z) : M ipc_st (Z * msgbuf) :=
  msg <- load_msg src len ;;
  put msgs set_msgs msg (fun m => mkMsg ty (m_size m) (nxt m) (data m)) ;;;
  put msgs set_msgs msg (fun m => mkMsg (mtype m) len (nxt m) (data m)) ;;;
  deliver dst msg msgsz.

Lemma splice_prefix src dst r :
  let a := Z.to_nat MSG_MSGSZ in
  (r < a)%nat -> (a + r <= length src)%nat -> (a + r <= length dst)%nat ->
  splice r (take r (drop r src)) (splice 0 (take a src) dst) = take (Nat.max a (2 * r)) src ++ drop (Nat.max a (2 * r)) dst.
Proof.
  intros a Hr Hs Hd. assert (Hla : length (take a src) = a) by (rewrite length_take; lia).
  assert (Hlr : length (take r (drop r src)) = r) by (rewrite length_take, length_drop; lia).
  assert (Hls : length (splice 0 (take a src) dst) = length dst) by (apply splice_length; rewrite Hla; lia).
  apply list_eq. intros i. rewrite splice_lookup by (rewrite Hlr, Hls; lia). rewrite splice_lookup by (rewrite Hla; lia). rewrite Hla, Hlr.
  assert (Hlm : length (take (Nat.max a (2 * r)) src) = Nat.max a (2 * r)) by (rewrite length_take; lia).
  assert (HR : (take (Nat.max a (2 * r)) src ++ drop (Nat.max a (2 * r)) dst) !! i = if decide (i < Nat.max a (2 * r))%nat then src !! i else dst !! i).
  { case_decide; [rewrite lookup_app_l by lia; by apply lookup_take_lt|rewrite lookup_app_r, Hlm, lookup_drop by lia; f_equal; lia]. }
  rewrite HR. destruct (decide (r <= i < r + r)%nat) as [E1|E1].
  - rewrite decide_True by lia. rewrite lookup_take_lt, lookup_drop by lia. f_equal. lia.
  - destruct (decide (0 <= i < 0 + a)%nat) as [E2|E2].
    + rewrite decide_True by lia. rewrite lookup_take_lt by lia. f_equal. lia.
    + rewrite decide_False by lia. done.
Qed.

Lemma bind_while_S {S A B C} n (body : A -> M S (A + B)) a (k : B -> M S C) s :
  bind (while (Datatypes.S n) body a) k s = bind (body a) (fun r => bind (match r with inl a' => while n body a' | inr b => ret b end) k) s.
Proof. cbn [while]. apply bind_assoc. Qed.

Lemma load_long src len s p p2 fr :
  free_pages s = p :: p2 :: fr -> p <> p2 -> msgs s !! p2 = None ->
  MSG_MSGSZ < len < 2 * MSG_MSGSZ -> len <= Z.of_nat (length src) ->
  let r := len - MSG_MSGSZ in
  exists s', load_msg src len s = Ret (p, s') /\ msgs s' !! p = Some (mkMsg 0 0 p2 (take (Z.to_nat MSG_MSGSZ) src)) /\
    segs s' !! p2 = Some (mkSeg 0 (take (Z.to_nat r) (drop (Z.to_nat r) src))) /\ free_pages s' = fr.
Proof.
  intros Hf Hne Hp2 Hlen Hl r. rewrite (load_first p (p2 :: fr)) by (done || lia). replace (Z.min MSG_MSGSZ len) with MSG_MSGSZ by lia.
  fold r. replace (Z.min MSG_MSGSZ r) with r by lia. set (s1 := one_page p _ s).
  assert (Hr : 0 < r < MSG_MSGSZ) by (unfold r; lia).
  assert (Hm : Z.min MSG_MSGSEGSZ r = r) by (unfold MSG_MSGSEGSZ, MSG_MSGSZ in *; lia).
  assert (E : kalloc_page s1 = Ret (p2, set_free_pages (fun _ => fr) s1)) by (unfold kalloc_page, s1; simpl; by rewrite Hf).
  assert (exists n, Z.to_nat r = S n) as [n En] by (exists (Z.to_nat r - 1)%nat; lia).
  eexists. rewrite bind_while_S. unfold load_turn at 1. rewrite Z.gtb_ltb, (proj2 (Z.ltb_lt 0 r)) by lia.
  rewrite !bind_assoc, (bind_Ret _ _ _ _ _ E), bind_assoc, Hm, (bind_Ret _ _ _ _ _ (copy_in_Ret src r r _ ltac:(lia) ltac:(unfold r in *; lia))), bind_assoc, (bind_Ret (modify _) _ _ _ _ eq_refl).
  erewrite bind_assoc, (bind_Ret (set_nxt p p2)) by (unfold set_nxt; simpl; rewrite lookup_insert_eq; reflexivity).
  rewrite bind_assoc. erewrite (bind_Ret (put _ _ _ _)) by (apply put_Ret; simpl; apply lookup_insert_eq).
  rewrite (bind_Ret (ret _) _ _ _ _ eq_refl). cbv beta iota. rewrite En, bind_while_S. unfold load_turn at 1. rewrite Z.sub_diag. split; [reflexivity|].
  simpl. rewrite !lookup_insert_eq. done.
Qed.

Lemma deliver_long ty src len dst msgsz s p p2 :
  MSG_MSGSZ < len < 2 * MSG_MSGSZ -> len <= msgsz -> len <= Z.of_nat (length src) -> len <= Z.of_nat (length (b_data dst)) -> p <> p2 -> p2 <> 0 ->
  let r := len - MSG_MSGSZ in
  msgs s !! p = Some (mkMsg ty len p2 (take (Z.to_nat MSG_MSGSZ) src)) -> segs s !! p2 = Some (mkSeg 0 (take (Z.to_nat r) (drop (Z.to_nat r) src))) ->
  exists s', deliver dst p msgsz s = Ret ((len, mkBuf ty (take (Z.to_nat (delivered len)) src ++ drop (Z.to_nat (delivered len)) (b_data dst))), s') /\
    free_pages s' = p :: p2 :: free_pages s.
Proof.
  intros Hlen Hms Hsrc Hdst Hne Hp20 r Hp Hp2. unfold deliver. rewrite (bind_Ret _ _ _ _ _ (ptr_Ret msgs p _ s Hp)). cbn [m_size].
  replace (Z.min msgsz len) with len by lia. assert (Hr : 0 < r < MSG_MSGSZ) by (unfold r; lia).
  assert (Hm : Z.min r MSG_MSGSEGSZ = r) by (unfold MSG_MSGSEGSZ, MSG_MSGSZ in *; lia).
  set (dst1 := splice 0 (take (Z.to_nat MSG_MSGSZ) (take (Z.to_nat MSG_MSGSZ) src)) (b_data dst)).
  set (seg := take (Z.to_nat r) (drop (Z.to_nat r) src)) in *.
  assert (Hseg : Z.of_nat (length seg) = r) by (unfold seg; rewrite length_take, length_drop; unfold r in *; lia).
  assert (Hd1 : length dst1 = length (b_data dst)) by (apply splice_length; rewrite !length_take; lia).
  assert (Est : store_msg dst p len s = Ret (mkBuf ty (splice (Z.to_nat r) (take (Z.to_nat r) seg) dst1), s)).
  { unfold store_msg. rewrite (bind_Ret _ _ _ _ _ (ptr_Ret msgs p _ s Hp)). cbn [data nxt mtype].
    replace (Z.min len MSG_MSGSZ) with MSG_MSGSZ by lia. replace (Z.min MSG_MSGSZ len) with MSG_MSGSZ by lia. fold r. replace (Z.min MSG_MSGSZ r) with r by lia.
    rewrite (bind_Ret _ _ _ _ _ (copy_out_Ret (take (Z.to_nat MSG_MSGSZ) src) MSG_MSGSZ 0 (b_data dst) s ltac:(rewrite length_take; lia) ltac:(lia))).
    change (Z.to_nat 0) with 0%nat. fold dst1. assert (exists n, Z.to_nat r = S n) as [n En] by (exists (Z.to_nat r - 1)%nat; lia). rewrite bind_while_S. unfold store_turn at 1.
    rewrite Z.gtb_ltb, (proj2 (Z.ltb_lt 0 r)), Hm by lia. rewrite !bind_assoc, (bind_Ret _ _ _ _ _ (ptr_Ret segs p2 _ s Hp2)). cbn [s_data s_nxt].
    rewrite bind_assoc, (bind_Ret _ _ _ _ _ (copy_out_Ret seg r r dst1 s ltac:(lia) ltac:(rewrite Hd1; unfold r in *; lia))), (bind_Ret (ret _) _ _ _ _ eq_refl).
    cbv beta iota. rewrite En, bind_while_S. unfold store_turn at 1. rewrite Z.sub_diag. reflexivity. }
  rewrite (bind_Ret _ _ _ _ _ Est). eexists. split.
  - unfold free_msg. rewrite bind_assoc, (bind_Ret _ _ _ _ _ (ptr_Ret msgs p _ s Hp)), bind_assoc, (bind_Ret (gets _) _ _ _ _ eq_refl). cbn [nxt].
    destruct (length (map_to_list (segs s))) as [|n] eqn:En.
    { apply nil_length_inv, map_to_list_empty_iff in En. rewrite En, lookup_empty in Hp2. done. }
    rewrite bind_assoc, bind_while_S. unfold free_turn at 1. rewrite (proj2 (Z.eqb_neq p2 0)) by done.
    rewrite ?bind_assoc, (bind_Ret _ _ _ _ _ (ptr_Ret segs p2 _ s Hp2)), ?bind_assoc, (bind_Ret (kfree_page p2) _ _ tt _ eq_refl), (bind_Ret (ret _) _ _ _ _ eq_refl).
    cbn [s_nxt]. cbv beta iota. rewrite bind_while_S. unfold free_turn at 1. rewrite Z.eqb_refl, ?bind_assoc, (bind_Ret (ret _) _ _ _ _ eq_refl), ?bind_assoc, (bind_Ret (ret _) _ _ _ _ eq_refl).
    erewrite (bind_Ret (kfree_page p)) by reflexivity. unfold ret. do 4 f_equal.
    unfold dst1, seg. rewrite !take_take, !Nat.min_id.
    rewrite splice_prefix by (unfold r in *; lia). unfold delivered. rewrite (proj2 (Z.leb_gt _ _)) by lia. fold r.
    replace (Z.to_nat (Z.max MSG_MSGSZ (2 * r))) with (Nat.max (Z.to_nat MSG_MSGSZ) (2 * Z.to_nat r)) by lia. done.
  - done.
Qed.

(** A message of up to 4064 bytes arrives with all its bytes. Of a longer
    message (of less than 8128 bytes) only the first
    [max 4064 (2 * (len - 4064))] bytes arrive, in spite of the size the
    receiver is told: the copy loops advance their pointer by the length that
    remains instead of the length just copied. The pages come back. *)
Theorem message_round_trip ty src len dst msgsz s p p2 fr :
  free_pages s = p :: p2 :: fr -> p <> p2 -> p2 <> 0 -> msgs s !! p2 = None ->
  0 <= len < 2 * MSG_MSGSZ -> len <= msgsz -> len <= Z.of_nat (length src) -> len <= Z.of_nat (length (b_data dst)) ->
  (exists s', send_deliver ty src len dst msgsz s =
    Ret ((len, mkBuf ty (take (Z.to_nat (delivered len)) src ++ drop (Z.to_nat (delivered len)) (b_data dst))), s') /\ free_pages s' = free_pages s) /\
  (len <= MSG_MSGSZ -> delivered len = len) /\ (MSG_MSGSZ < len -> MSG_MSGSZ <= delivered len < len).
Proof.
  intros Hf Hne Hp20 Hmp2 Hlen Hms Hsrc Hdst. split; [|unfold delivered; destruct (Z.leb_spec len MSG_MSGSZ); lia]. unfold send_deliver. destruct (Z.leb_spec len MSG_MSGSZ) as [Hs|Hs].
  - rewrite (bind_Ret _ _ _ _ _ (load_small p (p2 :: fr) src len s Hf ltac:(lia) Hsrc)).
    erewrite (bind_Ret (put _ _ _ _)) by (apply put_Ret; simpl; apply lookup_insert_eq).
    erewrite (bind_Ret (put _ _ _ _)) by (apply put_Ret; simpl; apply lookup_insert_eq). cbn [mtype m_size nxt data].
    assert (Hlb : Z.of_nat (length (take (Z.to_nat len) src)) = len) by (rewrite length_take; lia).
    erewrite (deliver_small p ty (take (Z.to_nat len) src)); [|simpl; rewrite !insert_insert_eq, lookup_insert_eq; by rewrite Hlb|lia..].
    rewrite Hlb. eexists. split; [|shelve]. unfold splice, delivered. rewrite (proj2 (Z.leb_le _ _)) by lia. rewrite take_0, Nat.add_0_l, app_nil_l.
    replace (length (take (Z.to_nat len) src)) with (Z.to_nat len) by lia. reflexivity.
    Unshelve. simpl. by rewrite Hf.
  - destruct (load_long src len s p p2 fr Hf Hne Hmp2 ltac:(lia) Hsrc) as (s1 & E1 & Hm1 & Hs1 & Hf1). rewrite (bind_Ret _ _ _ _ _ E1).
    rewrite (bind_Ret _ _ _ _ _ (put_Ret msgs set_msgs p _ _ s1 Hm1)).
    erewrite (bind_Ret (put _ _ _ _)) by (apply put_Ret; simpl; apply lookup_insert_eq). cbn [mtype m_size nxt data].
    match goal with |- exists s', deliver dst p msgsz ?st = _ /\ _ =>
      destruct (deliver_long ty src len dst msgsz st p p2) as (s' & E' & Hf'); [lia|done|done|done|exact Hne|done|simpl; apply lookup_insert_eq|exact Hs1|] end.
    exists s'. split; [exact E'|]. rewrite Hf'. simpl. by rewrite Hf1, Hf.
Qed.

(** ** A receiver whose buffer is too small *)
Lemma detached_forever fuel msgq msg r m s :
  ring (nodes s) [r] -> r <> q_receiver msgq -> msgs s !! msg = Some m ->
  (exists rc, receivers s !! r = Some rc /\ testmsg (rcv_mtype rc) (mtype m) = true /\ rcv_size rc < m_size m) ->
  while fuel (pipeline_turn msgq msg) r s = Stop NoFuel.
Proof.
  intros Hr Hne Hm (rc & Hrc & Ht & Hsz). revert s rc Hr Hm Hrc Ht Hsz. induction fuel as [|fuel IH]; intros s rc Hr Hm Hrc Ht Hsz; [done|].
  rewrite while_S. unfold pipeline_turn at 1. rewrite (proj2 (Z.eqb_neq _ _)) by done.
  rewrite bind_assoc, (bind_Ret _ _ _ _ _ (ptr_Ret receivers r rc s Hrc)), bind_assoc, (bind_Ret _ _ _ _ _ (ptr_Ret msgs msg m s Hm)), Ht.
  rewrite !bind_assoc, (bind_Ret _ _ _ _ _ (on_nodes_id _ s _ (detach_from_list_single _ _ Hr))).
  rewrite Z.gtb_ltb, (proj2 (Z.ltb_lt _ _)) by lia. rewrite !bind_assoc, (bind_Ret _ _ _ _ _ (put_Ret receivers set_receivers r rc _ s Hrc)).
  rewrite bind_assoc, (bind_Ret (activate_proc _) _ _ tt _ eq_refl), (bind_Ret (ret _) _ _ _ _ eq_refl). cbv beta iota.
  rewrite bind_assoc. erewrite bind_Ret by (apply on_nodes_id; simpl; apply (ring_head_next _ _ _ Hr)). rewrite (bind_Ret (ret _) _ _ _ _ eq_refl). cbn [hd].
  eapply IH; simpl; [done|done|apply lookup_insert_eq|done|done].
Qed.

(** When the first waiting receiver wants a message but has too small a
    buffer for it, [sys_msgsnd] of that message never returns, with the lock
    held: [_detach_from_list] links the receiver's node to itself, and the
    loop of [pipeline_send] goes on from there. *)
Theorem msgsnd_small_receiver_stuck fuel msgid q r rl rc ty src sz flg th snd p fr mq s :
  valid_id s msgid q -> queues s !! q = Some mq -> 0 <= sum_msg mq < max_msg mq -> max_msg mq = MAX_MSGNUM ->
  ring (nodes s) (q_receiver q :: r :: rl) -> receivers s !! r = Some rc -> testmsg (rcv_mtype rc) ty = true -> rcv_size rc < sz ->
  free_pages s = p :: fr -> p <> 0 -> p ∉ q_receiver q :: r :: rl ->
  1 <= ty -> sz <= MSG_MSGSZ -> 0 <= sz <= Z.of_nat (length src) ->
  sys_msgsnd fuel msgid (Some (mkBuf ty src)) sz flg th snd s = Stop NoFuel.
Proof.
  intros Hid Hq Hsum Hmax Hr Hrc Ht Hsz Hf Hp Hpn Hty Hsz2 Hsrc.
  rewrite (msgsnd_loads _ _ _ _ _ _ _ p fr) by (done || lia). set (bs := take (Z.to_nat sz) src).
  assert (Hbs : Z.of_nat (length bs) = sz) by (unfold bs; rewrite length_take; lia).
  assert (Hr1 : ring (nodes (loaded p ty bs s)) (q_receiver q :: r :: rl)).
  { eapply ring_frame; [exact Hr|]. intros c Hc. simpl. apply lookup_insert_ne. intros ->. done. }
  unfold msgsnd_try. assert (Hid1 : valid_id (loaded p ty bs s) msgid q) by exact Hid.
  rewrite (bind_Ret _ _ _ _ _ (get_msgq_valid _ _ _ Hid1)). destruct Hid as (_ & _ & Hq0 & _). rewrite (proj2 (Z.eqb_neq q 0)) by done.
  rewrite (bind_Ret _ _ _ _ _ (ptr_Ret queues q _ (loaded p ty bs s) Hq)). unfold MAX_MSGNUM in *.
  rewrite i32_small, Z.gtb_ltb, (proj2 (Z.ltb_ge _ _)) by lia. apply bind_Stop. unfold pipeline_send.
  rewrite (bind_Ret _ _ _ _ _ (on_nodes_id _ (loaded p ty bs s) _ (ring_head_next _ _ _ Hr1))). cbn [hd].
  assert (Hrq : r <> q_receiver q) by (intros ->; apply ring_NoDup in Hr; apply NoDup_cons in Hr as [Hn _]; apply Hn; by left).
  destruct fuel as [|fuel]; [done|]. rewrite while_S. unfold pipeline_turn at 1. rewrite (proj2 (Z.eqb_neq _ _)) by done.
  assert (Hm : msgs (loaded p ty bs s) !! p = Some (mkMsg ty (Z.of_nat (length bs)) 0 bs)) by apply lookup_insert_eq.
  rewrite bind_assoc, (bind_Ret _ _ _ _ _ (ptr_Ret receivers r rc (loaded p ty bs s) Hrc)), bind_assoc, (bind_Ret _ _ _ _ _ (ptr_Ret msgs p _ _ Hm)). cbn [mtype m_size]. rewrite Ht.
  destruct (ring_detach _ (q_receiver q) [] r rl Hr1) as (v & h' & Ed & _ & Hsingle & _).
  rewrite !bind_assoc, (bind_Ret _ _ _ _ _ (on_nodes_Ret _ (loaded p ty bs s) _ _ Ed)).
  rewrite Z.gtb_ltb, (proj2 (Z.ltb_lt _ _)) by lia. rewrite !bind_assoc, (bind_Ret _ _ _ _ _ (put_Ret receivers set_receivers r rc _ (set_nodes (fun _ => h') (loaded p ty bs s)) Hrc)).
  rewrite bind_assoc, (bind_Ret (activate_proc _) _ _ tt _ eq_refl), (bind_Ret (ret _) _ _ _ _ eq_refl). cbv beta iota.
  rewrite bind_assoc. erewrite bind_Ret by (apply on_nodes_id; simpl; apply (ring_head_next _ _ _ Hsingle)). rewrite (bind_Ret (ret _) _ _ _ _ eq_refl). cbn [hd].
  eapply detached_forever; [exact Hsingle|done|exact Hm|]. eexists. simpl. rewrite lookup_insert_eq. split; [done|]. simpl. split; [done|lia].
Qed.

(** ** Removing a queue with waiting threads *)
Lemma wakeup_receivers s head rl fuel :
  ring (nodes s) (head :: rl) -> (forall r, r ∈ rl -> senders s !! r = None /\ is_Some (receivers s !! r)) -> (length rl < fuel)%nat ->
  exists h', ss_wakeup fuel head s = Ret (tt, set_activated (fun a => a ++ (omap (fun r => rcv_proc <$> receivers s !! r) rl)) (set_nodes (fun _ => h') s)) /\
    ring h' [head] /\ (forall c, c ∉ head :: rl -> h' !! c = nodes s !! c).
Proof.
  revert s fuel. induction rl as [|r rl IH]; intros s fuel Hr Hrl Hf; (destruct fuel as [|fuel]; [simpl in Hf; lia|]).
  - exists (nodes s). split; [|done]. unfold ss_wakeup. rewrite (empty_wakeup s head waiter_proc (S fuel) Hr ltac:(lia)). simpl. unfold set_activated. simpl. rewrite app_nil_r. by destruct s.
  - unfold ss_wakeup. rewrite while_S. unfold wakeup_turn at 1. destruct (sentinel_ends _ _ _ Hr) as [Ee _].
    rewrite bind_assoc, (bind_Ret _ _ _ _ _ (on_nodes_id _ s _ Ee)). rewrite bool_decide_eq_false_2 by done.
    rewrite bind_assoc, (bind_Ret _ _ _ _ _ (on_nodes_id _ s _ (ring_head_next _ _ _ Hr))). cbn [hd].
    destruct (ring_detach _ head [] r rl Hr) as (v & h1 & Ed & Hr1 & _ & Hfr). rewrite bind_assoc, (bind_Ret _ _ _ _ _ (on_nodes_Ret _ s _ _ Ed)).
    destruct (Hrl r ltac:(by left)) as [Hs [rc Hrc]].
    assert (Ew : waiter_proc r (set_nodes (fun _ => h1) s) = Ret (rcv_proc rc, set_nodes (fun _ => h1) s)) by (unfold waiter_proc; simpl; by rewrite Hs, Hrc).
    rewrite bind_assoc, (bind_Ret _ _ _ _ _ Ew), bind_assoc, (bind_Ret (activate_proc _) _ _ tt _ eq_refl), (bind_Ret (ret _) _ _ _ _ eq_refl).
    destruct (IH (set_activated (fun a => a ++ [rcv_proc rc]) (set_nodes (fun _ => h1) s)) fuel Hr1) as (h' & E & Hr' & Hfr').
    { intros r' Hr'. apply Hrl. by right. } { simpl in Hf; lia. }
    exists h'. unfold ss_wakeup in E. rewrite E. split; [|split; [done|]].
    + unfold set_activated. simpl. rewrite Hrc. simpl. by rewrite <- app_assoc.
    + intros c Hc. rewrite Hfr' by set_solver. simpl. apply Hfr. set_solver.
Qed.

Lemma drain_messages s head l fuel :
  ring (nodes s) (head :: l) -> (forall p, p ∈ l -> exists m, msgs s !! p = Some m /\ nxt m = 0) -> (length l < fuel)%nat ->
  exists s', while fuel (drain_turn head) tt s = Ret (tt, s') /\ receivers s' = receivers s /\ senders s' = senders s /\ activated s' = activated s /\
    queues s' = queues s /\ ids s' = ids s /\ free_pages s' = reverse l ++ free_pages s.
Proof.
  revert s fuel. induction l as [|p l IH]; intros s fuel Hr Hl Hf; (destruct fuel as [|fuel]; [simpl in Hf; lia|]); rewrite while_S; unfold drain_turn at 1;
    destruct (sentinel_ends _ _ _ Hr) as [Ee _]; rewrite bind_assoc, (bind_Ret _ _ _ _ _ (on_nodes_id _ s _ Ee)).
  - rewrite bool_decide_eq_true_2 by done. by exists s.
  - rewrite bool_decide_eq_false_2 by done.
    rewrite bind_assoc, (bind_Ret _ _ _ _ _ (on_nodes_id _ s _ (ring_head_next _ _ _ Hr))). cbn [hd].
    destruct (ring_detach _ head [] p l Hr) as (v & h1 & Ed & Hr1 & _ & Hfr). rewrite bind_assoc, (bind_Ret _ _ _ _ _ (on_nodes_Ret _ s _ _ Ed)).
    destruct (Hl p ltac:(by left)) as (m & Hm & Hn).
    rewrite bind_assoc, (bind_Ret _ _ _ _ _ (free_small p m (set_nodes (fun _ => h1) s) Hm Hn)), (bind_Ret (ret _) _ _ _ _ eq_refl).
    apply ring_NoDup in Hr as Hnd. apply NoDup_cons in Hnd as [Hhp Hnd]. apply NoDup_cons in Hnd as [Hpl _].
    match goal with |- exists s', while fuel _ tt ?st = _ /\ _ => destruct (IH st fuel) as (s' & E & H1 & H2 & H3 & H4 & H5 & H6) end.
    + change (ring (delete p h1) (head :: l)). eapply ring_frame; [exact Hr1|]. intros c Hc. apply lookup_delete_ne. intros ->.
      apply elem_of_cons in Hc as [->|Hc]; [apply Hhp; by left|done].
    + intros p' Hp'. simpl. destruct (Hl p' ltac:(by right)) as (m' & Hm' & Hn'). exists m'. split; [|done]. rewrite lookup_delete_ne; [done|]. intros ->. done.
    + simpl in Hf; lia.
    + exists s'. split; [done|]. split; [done|]. split; [done|]. split; [done|]. split; [done|]. split; [done|]. rewrite H6. simpl. by rewrite reverse_cons, <- app_assoc.
Qed.

(** [sys_msgctl(IPC_RMID)] on a queue with waiting threads wakes the
    receivers in order but writes none of their [r_msg], which they then read
    uninitialised, since [ss_wakeup] is called on the receivers; the senders
    are never woken although the queue is gone. *)
Theorem msgctl_rmid_waiters fuel msgid q l rl sl s :
  valid_id s msgid q -> ring (nodes s) (q_message q :: l) -> ring (nodes s) (q_receiver q :: rl) -> ring (nodes s) (q_sender q :: sl) ->
  (q_message q :: l) ## (q_receiver q :: rl) ->
  (forall p, p ∈ l -> exists m, msgs s !! p = Some m /\ nxt m = 0) ->
  (forall r, r ∈ rl -> senders s !! r = None /\ exists p mt sz, receivers s !! r = Some (mkRcv p mt sz None)) ->
  (length l + length rl < fuel)%nat ->
  exists s', sys_msgctl fuel msgid IPC_RMID s = Ret (0, s') /\
    activated s' = activated s ++ omap (fun r => rcv_proc <$> receivers s !! r) rl /\
    senders s' = senders s /\ get_msgq msgid s' = Ret (0, s') /\ queues s' = delete q (queues s) /\
    (forall r buf msgsz, r ∈ rl -> sys_msgrcv_wake buf msgsz r s' = Stop Fault).
Proof.
  intros Hid Hm Hr Hs Hd Hl Hrl Hf. unfold sys_msgctl. cbn [Z.eqb IPC_RMID]. unfold freeque.
  rewrite bind_assoc, (bind_Ret _ _ _ _ _ (get_msgq_valid _ _ _ Hid)). destruct Hid as (Hsz & H0 & Hq0 & He & mq & Hq & Hseq).
  rewrite (proj2 (Z.eqb_neq q 0)) by done. pose proof (Z.rem_bound_pos msgid 16 ltac:(lia) ltac:(lia)) as Hb. unfold SEQ_MULTIPLIER in *.
  rewrite bind_assoc, (bind_Ret _ _ _ _ _ (entry_Ret s _ q Hb He)), bind_assoc, (bind_Ret (modify _) _ _ _ _ eq_refl).
  set (s1 := set_ids (set_entry (Z.rem msgid 16) 0) s).
  destruct (wakeup_receivers s1 (q_receiver q) rl fuel Hr) as (h' & Ew & Hr' & Hfr).
  { intros r Hin. destruct (Hrl r Hin) as (Hsn & p & mt & sz & Hrc). split; [done|]. eexists. exact Hrc. } { lia. }
  rewrite bind_assoc, (bind_Ret _ _ _ _ _ Ew). set (s2 := set_activated _ _). unfold expunge_all.
  rewrite bind_assoc, (bind_Ret (while fuel _ tt) _ s2 tt s2 (empty_wakeup s2 (q_receiver q) expunge_proc fuel Hr' ltac:(lia))).
  destruct (drain_messages s2 (q_message q) l fuel) as (s3 & E3 & H1 & H2 & H3 & H4 & H5 & _).
  { eapply ring_frame; [exact Hm|]. intros c Hc. apply Hfr. intros Hc'. by apply (Hd c). } { done. } { lia. }
  rewrite bind_assoc, (bind_Ret _ _ _ _ _ E3), bind_assoc, (bind_Ret (modify _) _ _ _ _ eq_refl), (bind_Ret (kfree q) _ _ tt _ eq_refl).
  eexists. split; [reflexivity|]. cbn [activated senders queues receivers set_queues set_nodes set_ids]. rewrite H3, H2, H4. split; [done|]. split; [done|]. split; [|split; [done|]].
  - unfold get_msgq, SEQ_MULTIPLIER. rewrite (bind_Ret (gets _) _ _ _ _ eq_refl). cbn [ids size set_queues set_nodes set_ids]. rewrite H5. cbn [ids size set_activated set_nodes set_ids s1 s2 set_entry].
    rewrite Hsz, Z.geb_leb, (proj2 (Z.leb_gt _ _)) by lia. 
    match goal with |- bind (entry _) _ ?st = _ => rewrite (bind_Ret _ _ _ _ _ (entry_Ret st _ 0 Hb ltac:(simpl; rewrite H5; simpl; by rewrite list_lookup_insert_eq by (by eapply lookup_lt_Some)))) end.
    done.
  - intros r buf msgsz Hin. destruct (Hrl r Hin) as (_ & p & mt & sz & Hrc). unfold sys_msgrcv_wake.
    erewrite (bind_Ret (ptr _ _)); [|apply ptr_Ret; simpl; rewrite H1; exact Hrc]. done.
Qed.

(** ** Witnesses *)
Definition ex_queue : Z := 5000000.
Definition ex_pages : list Z := (fun k => 4096 * Z.of_nat k) <$> List.seq 1 300.
Definition ex_boot : ipc_st := mkIpc (mkIds 16 0 0 (replicate 16 0)) ∅ ∅ ∅ ∅ ∅ ∅ ex_pages [].
Definition run_of {A} (m : M ipc_st A) (s : ipc_st) : ipc_st := match m s with Ret (_, s') => s' | Stop _ => s end.
Definition ex_ipc : ipc_st := Eval vm_compute in run_of (sys_msgget 5 IPC_CREATE ex_queue) ex_boot.

Ltac vm_ring := split; [apply (bool_decide_unpack _); by vm_compute|]; split; [apply (bool_decide_unpack _); by vm_compute|]; vm_compute; repeat split.

Lemma ex_valid : valid_id ex_ipc 0 ex_queue.
Proof. split; [done|]. split; [lia|]. split; [done|]. split; [done|]. eexists. split; [by vm_compute|]. done. Qed.

Lemma ex_queue_rep : queue_rep ex_ipc 0 ex_queue [] [].
Proof.
  constructor.
  - exact ex_valid.
  - eexists _, _. by vm_compute.
  - vm_ring.
  - vm_ring.
  - vm_ring.
  - constructor.
  - split; apply not_elem_of_nil.
  - split; [apply (bool_decide_unpack _); by vm_compute|]. apply Forall_forall. apply (bool_decide_unpack _). by vm_compute.
Qed.

(** The type -5 takes the last of the messages of types 3 and 4, not the one
    of the lowest type. *)
Lemma msg_queue_refines_witness :
  exists s' l', msg_run 0 [MSend 1 [10; 11; 12] 3; MSend 2 [20; 21] 2; MRecv 2 4 (mkBuf 0 [0; 0; 0; 0]); MRecv 7 0 (mkBuf 0 []);
      MRecv 0 3 (mkBuf 0 [0; 0; 0]); MSend 3 [30] 1; MSend 4 [40] 1; MRecv (-2) 1 (mkBuf 0 [0]); MRecv (-5) 1 (mkBuf 0 [0])] ex_ipc =
    Ret ([Some (0, None); Some (0, None); Some (2, Some (mkBuf 2 [20; 21; 0; 0])); Some (ENOMSG, Some (mkBuf 0 []));
      Some (3, Some (mkBuf 1 [10; 11; 12])); Some (0, None); Some (0, None); Some (ENOMSG, Some (mkBuf 0 [0])); Some (1, Some (mkBuf 4 [40]))], s') /\
    queue_rep s' 0 ex_queue l' [(3, [30])].
Proof.
  destruct (msg_queue_refines [MSend 1 [10; 11; 12] 3; MSend 2 [20; 21] 2; MRecv 2 4 (mkBuf 0 [0; 0; 0; 0]); MRecv 7 0 (mkBuf 0 []);
      MRecv 0 3 (mkBuf 0 [0; 0; 0]); MSend 3 [30] 1; MSend 4 [40] 1; MRecv (-2) 1 (mkBuf 0 [0]); MRecv (-5) 1 (mkBuf 0 [0])] ex_ipc 0 ex_queue [] [] ex_queue_rep)
    as (s' & l' & E & H & _).
  - vm_compute. split; [discriminate|reflexivity].
  - constructor.
  - repeat constructor; vm_compute; congruence.
  - exists s', l'. split; [exact E|exact H].
Defined.

Definition ex_bytes (n : nat) : list Z := (fun k => Z.of_nat k mod 251) <$> List.seq 0 n.

(** 5000 bytes are sent: 4064 arrive. *)
Lemma message_round_trip_witness :
  exists s', send_deliver 3 (ex_bytes 5000) 5000 (mkBuf 0 (replicate 5000 0)) 5000 ex_ipc =
    Ret ((5000, mkBuf 3 (take 4064 (ex_bytes 5000) ++ drop 4064 (replicate 5000 0))), s') /\ free_pages s' = free_pages ex_ipc.
Proof.
  destruct (message_round_trip 3 (ex_bytes 5000) 5000 (mkBuf 0 (replicate 5000 0)) 5000 ex_ipc 4096 8192 (drop 2 ex_pages)) as [(s' & E & Hf) _];
    [reflexivity|lia|lia|reflexivity|vm_compute; split; [discriminate|reflexivity]|lia|vm_compute; discriminate|vm_compute; discriminate|].
  exists s'. split; [exact E|exact Hf].
Defined.

(** A receiver that waits with a buffer of 2 bytes, and a sleeping sender. *)
Definition ex_waiting : ipc_st := Eval vm_compute in
  run_of (sys_msgrcv 10 0 (Some (mkBuf 0 [0; 0])) 2 0 0 77 7000000 ;;;
          modify (fun s => set_senders (insert 7100000 (mkSnd 88)) (set_nodes (insert 7100000 (mkNode 0 0)) s)) ;;;
          append_node (q_sender ex_queue) 7100000) ex_ipc.

Lemma ex_waiting_valid : valid_id ex_waiting 0 ex_queue.
Proof. split; [done|]. split; [lia|]. split; [done|]. split; [done|]. eexists. split; [by vm_compute|]. done. Qed.

Lemma ex_waiting_ring : ring (nodes ex_waiting) [q_receiver ex_queue; 7000000].
Proof. vm_ring. Qed.

Lemma msgsnd_small_receiver_stuck_witness : sys_msgsnd 1000 0 (Some (mkBuf 1 [1; 2; 3])) 3 0 99 7200000 ex_waiting = Stop NoFuel.
Proof.
  eapply (msgsnd_small_receiver_stuck 1000 0 ex_queue 7000000 [] (mkRcv 77 0 2 None) 1 [1; 2; 3] 3 0 99 7200000 4096 (drop 1 ex_pages) _ ex_waiting ex_waiting_valid).
  - vm_compute. reflexivity.
  - vm_compute. split; [discriminate|reflexivity].
  - reflexivity.
  - exact ex_waiting_ring.
  - vm_compute. reflexivity.
  - reflexivity.
  - reflexivity.
  - reflexivity.
  - discriminate.
  - apply (bool_decide_unpack _). by vm_compute.
  - lia.
  - vm_compute. discriminate.
  - vm_compute. split; discriminate.
Defined.

Lemma msgctl_rmid_waiters_witness :
  exists s', sys_msgctl 10 0 IPC_RMID ex_waiting = Ret (0, s') /\ activated s' = [77] /\ senders s' = senders ex_waiting /\ get_msgq 0 s' = Ret (0, s').
Proof.
  destruct (msgctl_rmid_waiters 10 0 ex_queue [] [7000000] [7100000] ex_waiting ex_waiting_valid) as (s' & E & Ha & Hs & Hg & _).
  - vm_ring.
  - exact ex_waiting_ring.
  - vm_ring.
  - intros x ->%list_elem_of_singleton. apply (bool_decide_unpack _). by vm_compute.
  - intros p Hp. by apply elem_of_nil in Hp.
  - intros r ->%list_elem_of_singleton. split; [by vm_compute|]. eexists _, _, _. by vm_compute.
  - simpl. lia.
  - exists s'. split; [exact E|]. split; [rewrite Ha; vm_compute; reflexivity|]. split; [exact Hs|exact Hg].
Defined.
