(* ===== verification/PT.v ===== *)
(** * Page tables (kernel/pt.c)

    The tables are pages of the allocator's memory (Mem.v). [get_pte] also
    gives the new [pgdir->pt], which it sets when the first table is
    allocated. [free_pgdir] is completed in Paging.v, where the sections of
    an address space are; here is its walk over the tables. *)
From stdpp Require Import base gmap list.
From Stdlib Require Import ZArith Lia.
From S2P Require Import Prelude LockFree Mmu Mem.

Definition valid (pte : Z) : bool := negb (Z.land pte PTE_VALID =? 0).

(** [&pt[i]] and the table an entry points to. *)
Definition pte_ptr (pt i : Z) : Z := pt + 8 * i.
Definition table_of (pte : Z) : Z := P2K (PTE_ADDRESS pte).

(** [kalloc_page] and [memset]. *)
Definition new_table : M mem_st Z := p <- kalloc_page ;; clear_page p ;;; ret p.

(** A new table, linked from entry [i] of [q]. *)
Definition link_table (q i : Z) : M mem_st Z := p <- new_table ;; wr_word (pte_ptr q i) (Z.lor (K2P p) PTE_TABLE) ;;; ret p.

(** The walk: the tables it finds, 0 where it stops. *)
Definition walk (pt va : Z) : M mem_st (Z * Z * Z) :=
  if pt =? 0 then ret (0, 0, 0)
  else
    e0 <- rd_word (pte_ptr pt (VA_PART0 va)) ;;
    if valid e0 then
      let pt1 := table_of e0 in
      e1 <- rd_word (pte_ptr pt1 (VA_PART1 va)) ;;
      if valid e1 then
        let pt2 := table_of e1 in
        e2 <- rd_word (pte_ptr pt2 (VA_PART2 va)) ;;
        if valid e2 then ret (pt1, pt2, table_of e2) else ret (pt1, pt2, 0)
      else ret (pt1, 0, 0)
    else ret (0, 0, 0).

(** The new [pgdir->pt] and the address of the entry, 0 for NULL. *)
Definition get_pte (pt0 va : Z) (alloc : bool) : M mem_st (Z * Z) :=
  w <- walk pt0 va ;;
  let '(pt1, pt2, pt3) := w in
  if negb (pt3 =? 0) then ret (pt0, pte_ptr pt3 (VA_PART3 va))
  else if alloc then
    pt0 <- (if pt0 =? 0 then new_table else ret pt0) ;;
    pt1 <- (if pt1 =? 0 then link_table pt0 (VA_PART0 va) else ret pt1) ;;
    pt2 <- (if pt2 =? 0 then link_table pt1 (VA_PART1 va) else ret pt2) ;;
    pt3 <- (if pt3 =? 0 then link_table pt2 (VA_PART2 va) else ret pt3) ;;
    ret (pt0, pte_ptr pt3 (VA_PART3 va))
  else ret (pt0, 0).

Definition vmmap (pt va ka flags : Z) : M mem_st Z :=
  r <- get_pte pt va true ;;
  wr_word r.2 (K2P (Z.lor ka flags)) ;;;
  increment_ref ka ;;;
  ret r.1.

Section free.
Context (kend : Z).

Definition free_turn2 (pt2 k : Z) : M mem_st (option unit) :=
  e <- rd_word (pte_ptr pt2 k) ;; when (valid e) (kfree_page kend (table_of e)) ;;; ret None.
Definition free_turn1 (pt1 j : Z) : M mem_st (option unit) :=
  e <- rd_word (pte_ptr pt1 j) ;;
  when (valid e) (for_upto (Z.to_nat N_PTE_PER_TABLE) 0 (free_turn2 (table_of e)) ;;; kfree_page kend (table_of e)) ;;; ret None.
Definition free_turn0 (pt0 i : Z) : M mem_st (option unit) :=
  e <- rd_word (pte_ptr pt0 i) ;;
  when (valid e) (for_upto (Z.to_nat N_PTE_PER_TABLE) 0 (free_turn1 (table_of e)) ;;; kfree_page kend (table_of e)) ;;; ret None.

(** The part of [free_pgdir] after [free_sections]. *)
Definition free_tables (pt : Z) : M mem_st unit :=
  for_upto (Z.to_nat N_PTE_PER_TABLE) 0 (free_turn0 pt) ;;; kfree_page kend pt.
End free.

(** ** The tree of tables

    A table is named by the indices on the way to it from the root: [[]] is
    the root and the path of a last-level table has three indices. *)
Abbreviation tables := (gmap (list Z) Z).

Record pt_inv (lo : Z) (s : mem_st) (g : ghost) (pt : Z) (T : tables) : Prop := {
  p_mem : mem_inv lo s g;
  p_root : (pt = 0 /\ T = ∅) \/ T !! [] = Some pt;
  p_zero : exists z, zero_page s = z /\ is_Some (gheld g !! z) /\ forall a, T !! a <> Some z;
  p_held : forall a p, T !! a = Some p -> gheld g !! p = Some 0;
  p_inj : forall a b p, T !! a = Some p -> T !! b = Some p -> a = b;
  p_path : forall a i p, T !! (a ++ [i]) = Some p -> is_Some (T !! a) /\ 0 <= i < 512 /\ (length a < 3)%nat;
  p_entry : forall a p i, T !! a = Some p -> (length a < 3)%nat -> 0 <= i < 512 ->
    exists e, words s !! pte_ptr p i = Some e /\
      (if valid e then T !! (a ++ [i]) = Some (table_of e) else T !! (a ++ [i]) = None);
  p_leaf : forall a p i, T !! a = Some p -> length a = 3%nat -> 0 <= i < 512 -> is_Some (words s !! pte_ptr p i)
}.

(** The path and the entry of an address. *)
Definition path (va : Z) : list Z := [VA_PART0 va; VA_PART1 va; VA_PART2 va].
Definition pte_of (s : mem_st) (T : tables) (va : Z) : Z :=
  match T !! path va with Some q => default 0 (words s !! pte_ptr q (VA_PART3 va)) | None => 0 end.

(** ** Entries *)
Lemma part_bounds va : 0 <= VA_PART0 va < 512 /\ 0 <= VA_PART1 va < 512 /\ 0 <= VA_PART2 va < 512 /\ 0 <= VA_PART3 va < 512.
Proof. rewrite VA_PART0_mod, VA_PART1_mod, VA_PART2_mod, VA_PART3_mod. repeat split; apply Z.mod_pos_bound; lia. Qed.

(** Addresses of different pages have different entries. *)
Lemma parts_inj va va' : path va = path va' -> VA_PART3 va = VA_PART3 va' -> (va / 4096) mod 2 ^ 36 = (va' / 4096) mod 2 ^ 36.
Proof.
  unfold path. intros [= H0 H1 H2] H3. rewrite !VA_PART0_mod in H0. rewrite !VA_PART1_mod in H1. rewrite !VA_PART2_mod in H2. rewrite !VA_PART3_mod in H3.
  assert (Hd : forall a, (a / 4096) mod 2 ^ 36 = (a / 2 ^ 12) mod 512 + 512 * ((a / 2 ^ 21) mod 512 + 512 * ((a / 2 ^ 30) mod 512 + 512 * ((a / 2 ^ 39) mod 512)))).
  { intros a. change (2 ^ 36) with (512 * (512 * (512 * 512))). change 4096 with (2 ^ 12). rewrite !Z.rem_mul_r by lia.
    rewrite !Z.div_div by lia. reflexivity. }
  rewrite !Hd. congruence.
Qed.

Lemma land_low a b n : 0 <= n -> a mod 2 ^ n = 0 -> 0 <= b < 2 ^ n -> Z.land a b = 0.
Proof.
  intros Hn Ha Hb. apply Z.bits_inj'. intros i Hi. rewrite Z.land_spec, Z.bits_0. destruct (Z.ltb_spec i n).
  - rewrite <- (Z.mod_pow2_bits_low a n i) by lia. by rewrite Ha, Z.bits_0.
  - rewrite <- (Z.mod_small b (2 ^ n)) by done. rewrite Z.mod_pow2_bits_high by lia. apply andb_false_r.
Qed.

Lemma lor_low a b n : 0 <= n -> a mod 2 ^ n = 0 -> 0 <= b < 2 ^ n -> Z.lor a b = a + b.
Proof. intros Hn Ha Hb. pose proof (Z.add_lor_land a b) as E. rewrite (land_low a b n Hn Ha Hb) in E. lia. Qed.

Lemma mod_low a b n : 0 <= n -> a mod 2 ^ n = 0 -> 0 <= b < 2 ^ n -> (a + b) mod 2 ^ n = b /\ (a + b) / 2 ^ n = a / 2 ^ n.
Proof.
  intros Hn Ha Hb. assert (0 < 2 ^ n) by (apply Z.pow_pos_nonneg; lia). pose proof (Z.div_mod a (2 ^ n) ltac:(lia)) as Hd. rewrite Ha in Hd.
  replace (a + b) with (b + (a / 2 ^ n) * 2 ^ n) by lia. rewrite Z.mod_add, Z.div_add, Z.mod_small, Z.div_small by lia. lia.
Qed.

(** An entry for a page. *)
Lemma entry_of lo p flags :
  page_ok lo p -> 0 <= flags < 4096 ->
  K2P (Z.lor p flags) = K2P p + flags /\ Z.lor (K2P p) flags = K2P p + flags /\ PTE_ADDRESS (K2P p + flags) = K2P p /\ table_of (K2P p + flags) = p.
Proof.
  intros (H1 & H2 & H3 & H4) Hf. unfold PAGE_SIZE in *. unfold KSPACE_MASK, PHYSTOP in *.
  rewrite (lor_low p flags 12) by (done || lia). rewrite !K2P_range by (unfold KSPACE_MASK; lia). unfold KSPACE_MASK.
  assert (Hm : (p - 18446462598732840960) mod 2 ^ 12 = 0).
  { replace (p - 18446462598732840960) with (p + (- 4503530907893760) * 2 ^ 12) by lia. by rewrite Z.mod_add. }
  split; [lia|]. split; [by apply (lor_low _ _ 12)|].
  assert (HA : PTE_ADDRESS (p - 18446462598732840960 + flags) = p - 18446462598732840960).
  { rewrite PTE_ADDRESS_mod. destruct (mod_low (p - 18446462598732840960) flags 12 ltac:(lia) Hm Hf) as [_ ->].
    pose proof (Z.div_mod (p - 18446462598732840960) (2 ^ 12) ltac:(lia)) as Hd. rewrite Hm in Hd.
    rewrite Z.mod_small; [lia|]. lia. }
  split; [done|]. unfold table_of. rewrite HA. unfold P2K. rewrite u64_small; unfold KSPACE_MASK; lia.
Qed.

Lemma valid_low a flags n : 1 <= n -> a mod 2 ^ n = 0 -> 0 <= flags < 2 ^ n -> valid (a + flags) = Z.odd flags.
Proof.
  intros Hn Ha Hf. unfold valid, PTE_VALID. change 1 with (Z.ones 1). rewrite Z.land_ones by lia. change (2 ^ 1) with 2.
  rewrite Zmod_odd. assert (Z.even a = true).
  { apply Z.even_spec. exists (2 ^ (n - 1) * (a / 2 ^ n)). assert (0 < 2 ^ n) by (apply Z.pow_pos_nonneg; lia). pose proof (Z.div_mod a (2 ^ n) ltac:(lia)).
    replace (2 ^ n) with (2 * 2 ^ (n - 1)) in * by (rewrite <- Z.pow_succ_r by lia; f_equal; lia). lia. }
  rewrite Z.odd_add, <- Z.negb_even, H. simpl. by destruct (Z.odd flags).
Qed.

(** ** Memory of the tables *)
Lemma zero_words_in n p w i : 0 <= i < Z.of_nat n -> zero_words n p w !! pte_ptr p i = Some 0.
Proof.
  unfold pte_ptr. revert p i. induction n as [|n IH]; intros p i Hi; [lia|]. cbn [zero_words]. destruct (decide (i = 0)) as [->|Hn].
  - rewrite Z.mul_0_r, Z.add_0_r. apply lookup_insert_eq.
  - rewrite lookup_insert_ne by lia. replace (p + 8 * i) with (p + 8 + 8 * (i - 1)) by lia. apply IH. lia.
Qed.

Lemma zero_words_out n p w a : a < p \/ p + 8 * Z.of_nat n <= a -> zero_words n p w !! a = w !! a.
Proof.
  revert p. induction n as [|n IH]; intros p Ha; [done|]. cbn [zero_words]. rewrite lookup_insert_ne by lia. apply IH. lia.
Qed.

Lemma held_page lo s g p n : mem_inv lo s g -> gheld g !! p = Some n -> page_ok lo p.
Proof. intros H Hp. apply (i_ok _ _ _ H). right. right. by exists n. Qed.

Lemma pte_ram lo p i : page_ok lo p -> 0 <= i < 512 -> ram (pte_ptr p i) = true.
Proof. intros Hp Hi. unfold pte_ptr. apply (page_ok_ram lo p (8 * i) Hp); [unfold PAGE_SIZE; lia|]. rewrite Z.mul_comm. by apply Z.mod_mul. Qed.

Lemma pte_ptr_inj lo p q i j : page_ok lo p -> page_ok lo q -> 0 <= i < 512 -> 0 <= j < 512 -> pte_ptr p i = pte_ptr q j -> p = q /\ i = j.
Proof.
  intros (_ & _ & _ & Hp) (_ & _ & _ & Hq) Hi Hj E. unfold pte_ptr in E.
  assert (p = q) as ->; [|lia]. apply (pages_apart p q (8 * j)); [done|done|unfold PAGE_SIZE; lia|unfold PAGE_SIZE; lia].
Qed.

Lemma new_table_spec lo s g p l :
  mem_inv lo s g -> gfree g = p :: l ->
  exists s', new_table s = Ret (p, s') /\ mem_inv lo s' (hold_page p l g) /\ zero_page s' = zero_page s /\ words s' = zero_words 512 p (words s).
Proof.
  intros H Hf. pose proof (free_bound lo s g H) as Hb. change NPAGE with 258048 in Hb.
  destruct (kalloc_page_spec lo s g p l H Hf ltac:(lia)) as (s1 & E1 & H1 & Hz1 & H0 & Hw).
  pose proof (i_ok _ _ _ H p ltac:(left; rewrite Hf; by left)) as Hok.
  exists (set_words (zero_words 512 p) s1). split; [|split; [|split; [done|by rewrite <- Hw]]].
  - unfold new_table. rewrite (bind_Ret _ _ _ _ _ E1). unfold clear_page.
    pose proof (page_ok_ram lo p 0 Hok ltac:(unfold PAGE_SIZE; lia) eq_refl) as Hram. rewrite Z.add_0_r in Hram. rewrite Hram. reflexivity.
  - apply (clear_inv lo s1 _ p 0 512 H1 (lookup_insert_eq _ _ _) ltac:(lia) p); unfold PAGE_SIZE; lia.
Qed.

(** ** Walking *)
Lemma walk_spec lo s g pt T va :
  pt_inv lo s g pt T ->
  walk pt va s = Ret ((default 0 (T !! [VA_PART0 va]), default 0 (T !! [VA_PART0 va; VA_PART1 va]), default 0 (T !! path va)), s).
Proof.
  intros H. destruct (part_bounds va) as (B0 & B1 & B2 & _).
  assert (Hup : forall a i, T !! a = None -> T !! (a ++ [i]) = None).
  { intros a i Ha. destruct (T !! (a ++ [i])) eqn:E; [|done]. destruct (p_path _ _ _ _ _ H a i _ E) as [[? ?] _]. congruence. }
  assert (Hrd : forall a p i, T !! a = Some p -> (length a < 3)%nat -> 0 <= i < 512 -> exists e, rd_word (pte_ptr p i) s = Ret (e, s) /\
    (if valid e then T !! (a ++ [i]) = Some (table_of e) else T !! (a ++ [i]) = None)).
  { intros a p i Ha Hl Hi. destruct (p_entry _ _ _ _ _ H a p i Ha Hl Hi) as (e & He & Hv). exists e. split; [|done].
    apply rd_word_Ret; [|done]. eapply pte_ram; [|done]. eapply held_page; [apply (p_mem _ _ _ _ _ H)|by eapply (p_held _ _ _ _ _ H)]. }
  unfold walk, path. destruct (p_root _ _ _ _ _ H) as [[-> ->]|Hr]; [by rewrite !lookup_empty|].
  assert (Hp0 : pt <> 0).
  { destruct (page_ok_index lo pt) as (_ & ? & _); [|done]. eapply held_page; [apply (p_mem _ _ _ _ _ H)|by eapply (p_held _ _ _ _ _ H)]. }
  rewrite (proj2 (Z.eqb_neq pt 0)) by done.
  destruct (Hrd [] pt _ Hr ltac:(simpl; lia) B0) as (e0 & E0 & V0). rewrite (bind_Ret _ _ _ _ _ E0). simpl in V0.
  destruct (valid e0).
  2:{ pose proof (Hup [VA_PART0 va] (VA_PART1 va) V0) as V1. pose proof (Hup _ (VA_PART2 va) V1) as V2. simpl in V1, V2. by rewrite V0, V1, V2. }
  destruct (Hrd _ _ _ V0 ltac:(simpl; lia) B1) as (e1 & E1 & V1). rewrite (bind_Ret _ _ _ _ _ E1). simpl in V1.
  destruct (valid e1).
  2:{ pose proof (Hup _ (VA_PART2 va) V1) as V2. simpl in V2. by rewrite V0, V1, V2. }
  destruct (Hrd _ _ _ V1 ltac:(simpl; lia) B2) as (e2 & E2 & V2). rewrite (bind_Ret _ _ _ _ _ E2). simpl in V2.
  destruct (valid e2); by rewrite V0, V1, V2.
Qed.

(** ** A new table *)
Lemma pages_disjoint lo p q : page_ok lo p -> page_ok lo q -> p <> q -> p + PAGE_SIZE <= q \/ q + PAGE_SIZE <= p.
Proof.
  intros (_ & _ & _ & Hp) (_ & _ & _ & Hq) Hne. destruct (decide (p + PAGE_SIZE <= q \/ q + PAGE_SIZE <= p)) as [|Hn]; [done|]. destruct Hne.
  destruct (decide (p <= q)); [apply (pages_apart p q 0)|symmetry; apply (pages_apart q p 0)]; auto; unfold PAGE_SIZE in *; lia.
Qed.

Lemma zero_words_other lo p r j w : page_ok lo p -> page_ok lo r -> p <> r -> 0 <= j < 512 -> zero_words 512 p w !! pte_ptr r j = w !! pte_ptr r j.
Proof.
  intros Hp Hr Hne Hj. apply zero_words_out. unfold pte_ptr. destruct (pages_disjoint lo p r Hp Hr Hne); unfold PAGE_SIZE in *; lia.
Qed.

(** What happens to the entries of the last level. *)
Definition leaves_kept (s s' : mem_st) (T T' : tables) : Prop :=
  forall a r j, length a = 3%nat -> T' !! a = Some r -> 0 <= j < 512 ->
    words s' !! pte_ptr r j = if T !! a then words s !! pte_ptr r j else Some 0.

(** The other pages in use keep their content. *)
Definition pages_kept (s : mem_st) (g : ghost) (T : tables) (s' : mem_st) : Prop :=
  zero_page s' = zero_page s /\ (forall p n w, gheld g !! p = Some n -> (forall a, T !! a <> Some p) -> p <= w < p + PAGE_SIZE -> words s' !! w = words s !! w).

Lemma table_page lo s g pt T a q : pt_inv lo s g pt T -> T !! a = Some q -> page_ok lo q.
Proof. intros H Ha. eapply held_page; [apply (p_mem _ _ _ _ _ H)|by eapply (p_held _ _ _ _ _ H)]. Qed.

Lemma add_table lo s g pt T a i q p l :
  pt_inv lo s g pt T -> T !! a = Some q -> (length a < 3)%nat -> 0 <= i < 512 -> T !! (a ++ [i]) = None -> gfree g = p :: l ->
  exists s', link_table q i s = Ret (p, s') /\ pt_inv lo s' (hold_page p l g) pt (<[a ++ [i] := p]> T) /\
    pages_kept s g T s' /\ leaves_kept s s' T (<[a ++ [i] := p]> T).
Proof.
  intros H Ha Hla Hi Hnone Hf. pose proof (p_mem _ _ _ _ _ H) as HM. pose proof (table_page _ _ _ _ _ _ _ H Ha) as Hqo.
  destruct (new_table_spec lo s g p l HM Hf) as (s1 & E1 & H1 & Hz1 & Hw1).
  destruct (i_sep _ _ _ HM p ltac:(rewrite Hf; by left)) as [_ Hph]. pose proof (i_ok _ _ _ HM p ltac:(left; rewrite Hf; by left)) as Hpo.
  assert (Hne : forall b r, T !! b = Some r -> p <> r) by (intros b r Hb ->; pose proof (p_held _ _ _ _ _ H b r Hb); congruence).
  destruct (entry_of lo p PTE_TABLE Hpo ltac:(unfold PTE_TABLE; lia)) as (_ & El & _ & Et).
  set (v := Z.lor (K2P p) PTE_TABLE) in *.
  assert (Hv : valid v = true).
  { rewrite El. apply (valid_low (K2P p) 3 12); [lia| |lia]. unfold page_ok, PAGE_SIZE, PHYSTOP in Hpo. destruct Hpo as (P1 & P2 & P3 & P4).
    rewrite K2P_range by (unfold KSPACE_MASK in *; lia). unfold KSPACE_MASK. replace (p - 18446462598732840960) with (p + (- 4503530907893760) * 2 ^ 12) by lia. by rewrite Z.mod_add. }
  rewrite <- El in Et.
  exists (set_words (insert (pte_ptr q i) v) s1).
  assert (Hword : forall b r j, T !! b = Some r -> 0 <= j < 512 -> pte_ptr r j <> pte_ptr q i -> <[pte_ptr q i := v]> (words s1) !! pte_ptr r j = words s !! pte_ptr r j).
  { intros b r j Hb Hj Hn. rewrite lookup_insert_ne by done. rewrite Hw1. apply (zero_words_other lo); [done|by eapply table_page|by eapply Hne|done]. }
  assert (Hzero : forall j, 0 <= j < 512 -> <[pte_ptr q i := v]> (words s1) !! pte_ptr p j = Some 0).
  { intros j Hj. rewrite lookup_insert_ne; [rewrite Hw1; apply zero_words_in; lia|]. intros E. apply (pte_ptr_inj lo) in E as [E _]; [|done..]. by apply (Hne a q). }
  assert (Hpk : pages_kept s g T (set_words (insert (pte_ptr q i) v) s1)).
  { split; [done|]. intros r n w Hr Hrt Hw. pose proof (held_page _ _ _ _ _ HM Hr) as Hro. cbn [words set_words].
    destruct (pages_disjoint lo p r Hpo Hro) as [Hd|Hd]; [congruence|..]; destruct (pages_disjoint lo q r Hqo Hro) as [Hd'|Hd']; (try (intros ->; by apply (Hrt a)));
      (rewrite lookup_insert_ne by (unfold pte_ptr, PAGE_SIZE in *; lia)); rewrite Hw1; apply zero_words_out; unfold PAGE_SIZE in *; lia. }
  split; [|split; [|split; [done|]]].
  - unfold link_table. rewrite (bind_Ret _ _ _ _ _ E1). fold v. rewrite (bind_Ret _ _ _ _ _ (wr_word_Ret (pte_ptr q i) v s1 (pte_ram lo q i Hqo Hi))). done.
  - constructor.
    + apply write_inv; [done|]. eapply (held_not_ctl lo s1 _ H1 q 0); [|unfold pte_ptr, PAGE_SIZE; lia].
      simpl. rewrite lookup_insert_ne by (by eapply Hne). by eapply (p_held _ _ _ _ _ H).
    + right. rewrite lookup_insert_ne by (by destruct a). destruct (p_root _ _ _ _ _ H) as [[_ ->]|?]; [by rewrite lookup_empty in Ha|done].
    + simpl. destruct (p_zero _ _ _ _ _ H) as (z & Hz & [n Hzn] & Hzt). exists z. split; [congruence|]. split; [rewrite lookup_insert_ne by congruence; eauto|].
      intros b [(<- & ?)|(Hb & Hbz)]%lookup_insert_Some; [congruence|by apply (Hzt b)].
    + simpl. intros b r [(<- & <-)|(Hb & Hbr)]%lookup_insert_Some; [apply lookup_insert_eq|]. rewrite lookup_insert_ne by (by eapply Hne). by eapply (p_held _ _ _ _ _ H).
    + intros b c r [(<- & <-)|(Hb & Hbr)]%lookup_insert_Some [(<- & Hr)|(Hc & Hcr)]%lookup_insert_Some; [done|by destruct (Hne _ _ Hcr)|subst r; by destruct (Hne _ _ Hbr)|by eapply (p_inj _ _ _ _ _ H)].
    + intros b j r [(E & <-)|(Hb & Hbr)]%lookup_insert_Some.
      * apply app_inj_tail in E as [<- <-]. rewrite lookup_insert_ne by (intros E; apply (f_equal length) in E; rewrite length_app in E; simpl in E; lia). rewrite Ha. eauto.
      * destruct (p_path _ _ _ _ _ H b j r Hbr) as (Hs & Hj & Hl). split; [|done]. apply lookup_insert_is_Some'. by right.
    + simpl. intros b r j [(<- & <-)|(Hb & Hbr)]%lookup_insert_Some Hl Hj.
      * exists 0. split; [by apply Hzero|]. change (valid 0) with false. cbv iota. rewrite lookup_insert_ne.
        -- destruct (T !! ((a ++ [i]) ++ [j])) eqn:E; [|done]. destruct (p_path _ _ _ _ _ H (a ++ [i]) j _ E) as [[? ?] _]. congruence.
        -- intros E. apply (f_equal length) in E. rewrite !length_app in E. simpl in E. lia.
      * destruct (decide (pte_ptr r j = pte_ptr q i)) as [E|E].
        -- apply (pte_ptr_inj lo) in E as [-> ->]; [|by eapply table_page|done..]. assert (b = a) as -> by (by eapply (p_inj _ _ _ _ _ H)).
           exists v. rewrite lookup_insert_eq, Hv, Et, lookup_insert_eq. done.
        -- destruct (p_entry _ _ _ _ _ H b r j Hbr Hl Hj) as (e & He & Hve). exists e. rewrite (Hword b r j) by done. split; [done|].
           rewrite lookup_insert_ne; [done|]. intros E'. apply app_inj_tail in E' as [-> ->]. apply E. congruence.
    + simpl. intros b r j [(<- & <-)|(Hb & Hbr)]%lookup_insert_Some Hl Hj; [by rewrite Hzero|].
      rewrite (Hword b r j Hbr Hj); [by eapply (p_leaf _ _ _ _ _ H)|]. intros E. apply (pte_ptr_inj lo) in E as [-> ->]; [|by eapply table_page|done..].
      assert (b = a) as -> by (by eapply (p_inj _ _ _ _ _ H)). lia.
  - intros b r j Hl [(<- & <-)|(Hb & Hbr)]%lookup_insert_Some Hj; simpl; [rewrite Hnone; by apply Hzero|]. rewrite Hbr.
    apply (Hword b r j Hbr Hj). intros E. apply (pte_ptr_inj lo) in E as [-> ->]; [|by eapply table_page|done..].
    assert (b = a) as -> by (by eapply (p_inj _ _ _ _ _ H)). lia.
Qed.

Lemma add_root lo s g p l :
  pt_inv lo s g 0 ∅ -> gfree g = p :: l ->
  exists s', new_table s = Ret (p, s') /\ pt_inv lo s' (hold_page p l g) p {[ [] := p ]} /\ pages_kept s g ∅ s' /\ leaves_kept s s' ∅ {[ [] := p ]}.
Proof.
  intros H Hf. pose proof (p_mem _ _ _ _ _ H) as HM. destruct (new_table_spec lo s g p l HM Hf) as (s1 & E1 & H1 & Hz1 & Hw1).
  destruct (i_sep _ _ _ HM p ltac:(rewrite Hf; by left)) as [_ Hph].
  assert (Hpk : pages_kept s g ∅ s1).
  { split; [done|]. intros r n w Hr _ Hw. pose proof (held_page _ _ _ _ _ HM Hr) as Hro. pose proof (i_ok _ _ _ HM p ltac:(left; rewrite Hf; by left)) as Hpo.
    rewrite Hw1. apply zero_words_out. destruct (pages_disjoint lo p r Hpo Hro) as [Hd|Hd]; [congruence|unfold PAGE_SIZE in *; lia..]. }
  exists s1. split; [done|]. split; [|split; [done|]].
  - constructor.
    + done.
    + right. apply lookup_singleton_eq.
    + destruct (p_zero _ _ _ _ _ H) as (z & Hz & [n Hzn] & _). exists z. split; [congruence|]. simpl. split; [rewrite lookup_insert_ne by congruence; eauto|].
      intros a [_ ?]%lookup_singleton_Some. congruence.
    + simpl. intros a r [_ <-]%lookup_singleton_Some. apply lookup_insert_eq.
    + intros a b r [<- _]%lookup_singleton_Some [<- _]%lookup_singleton_Some. done.
    + intros a i r [E _]%lookup_singleton_Some. by destruct a.
    + intros a r i [<- <-]%lookup_singleton_Some _ Hi. exists 0. rewrite Hw1, zero_words_in by lia. split; [done|]. change (valid 0) with false. cbv iota. by apply lookup_singleton_ne.
    + intros a r i [<- _]%lookup_singleton_Some Hl. done.
  - intros a r j Hl [<- _]%lookup_singleton_Some. done.
Qed.

(** ** [get_pte] *)
Lemma get_pte_lookup lo s g pt T va :
  pt_inv lo s g pt T ->
  get_pte pt va false s = Ret ((pt, match T !! path va with Some q => pte_ptr q (VA_PART3 va) | None => 0 end), s).
Proof.
  intros H. unfold get_pte. rewrite (bind_Ret _ _ _ _ _ (walk_spec lo s g pt T va H)). cbv beta iota. destruct (T !! path va) as [q|] eqn:E; [|done]. cbn [default from_option id].
  destruct (page_ok_index lo q) as (_ & H0 & _); [by eapply table_page|]. by rewrite (proj2 (Z.eqb_neq q 0)).
Qed.

(** [T'] and [g'] are [T] and [g] with at most [n] new tables. *)
Record grown (n : nat) (s : mem_st) (g : ghost) (T : tables) (s' : mem_st) (g' : ghost) (T' : tables) : Prop := {
  gr_tables : T ⊆ T';
  gr_held : gheld g ⊆ gheld g';
  gr_new : forall a p, T' !! a = Some p -> T !! a = None -> gheld g !! p = None;
  gr_objs : gobjs g' = gobjs g;
  gr_free : (length (gfree g) <= n + length (gfree g'))%nat;
  gr_leaves : leaves_kept s s' T T';
  gr_pages : pages_kept s g T s';
  gr_sub : forall p, p ∈ gfree g' -> p ∈ gfree g
}.

Lemma grown_refl s g T : grown 0 s g T s g T.
Proof. constructor; [done|done|congruence|done|lia| |done|done]. intros a r j _ Ha _. by rewrite Ha. Qed.

Lemma grown_trans n m s g T s1 g1 T1 s2 g2 T2 : grown n s g T s1 g1 T1 -> grown m s1 g1 T1 s2 g2 T2 -> grown (n + m) s g T s2 g2 T2.
Proof.
  intros [] []. constructor; [by etrans|by etrans| |congruence|lia| | |by auto].
  - intros a p Ha Hn. destruct (T1 !! a) as [p'|] eqn:E.
    + pose proof (lookup_weaken _ _ _ _ E gr_tables1) as E2. rewrite Ha in E2. simplify_eq. by apply (gr_new0 a).
    + pose proof (gr_new1 a p Ha E) as Hp. destruct (gheld g !! p) eqn:Ep; [|done]. by rewrite (lookup_weaken _ _ _ _ Ep gr_held0) in Hp.
  - intros a r j Hl Ha Hj. rewrite (gr_leaves1 a r j Hl Ha Hj). destruct (T1 !! a) as [r'|] eqn:E.
    + pose proof (lookup_weaken _ _ _ _ E gr_tables1) as E2. rewrite Ha in E2. simplify_eq. by apply gr_leaves0.
    + destruct (T !! a) eqn:E'; [|done]. by rewrite (lookup_weaken _ _ _ _ E' gr_tables0) in E.
  - destruct gr_pages0 as [Z0 P0], gr_pages1 as [Z1 P1]. split; [congruence|]. intros p k w Hp Ht Hw.
    rewrite (P1 p k w (lookup_weaken _ _ _ _ Hp gr_held0)); [by apply (P0 p k w)| |done]. intros a Ha. destruct (T !! a) as [p'|] eqn:E.
    + pose proof (lookup_weaken _ _ _ _ E gr_tables0) as E2. rewrite Ha in E2. simplify_eq. by apply (Ht a).
    + pose proof (gr_new0 a p Ha E). congruence.
Qed.

(** The table below entry [i] of the table at [a], made when it is missing. *)
Lemma ensure_table lo s g pt T a i q :
  pt_inv lo s g pt T -> T !! a = Some q -> (length a < 3)%nat -> 0 <= i < 512 -> (1 <= length (gfree g))%nat ->
  exists r s' g' T', (if default 0 (T !! (a ++ [i])) =? 0 then link_table q i else ret (default 0 (T !! (a ++ [i])))) s = Ret (r, s') /\
    pt_inv lo s' g' pt T' /\ T' !! (a ++ [i]) = Some r /\ (forall b, (S (length a) < length b)%nat -> T' !! b = T !! b) /\ grown 1 s g T s' g' T'.
Proof.
  intros H Ha Hl Hi Hf. destruct (T !! (a ++ [i])) as [r|] eqn:E; simpl.
  - destruct (page_ok_index lo r) as (_ & H0 & _); [by eapply table_page|]. rewrite (proj2 (Z.eqb_neq r 0)) by done.
    exists r, s, g, T. split; [done|]. split; [done|]. split; [done|]. split; [done|]. destruct (grown_refl s g T). by constructor; auto; lia.
  - destruct (gfree g) as [|p l] eqn:Ef; [simpl in Hf; lia|]. destruct (add_table lo s g pt T a i q p l H Ha Hl Hi E Ef) as (s' & E1 & H' & Hpk & Hk).
    exists p, s', (hold_page p l g), (<[a ++ [i] := p]> T). split; [done|]. split; [done|]. split; [apply lookup_insert_eq|].
    split; [intros b Hb; apply lookup_insert_ne; intros <-; rewrite length_app in Hb; simpl in Hb; lia|].
    destruct (i_sep _ _ _ (p_mem _ _ _ _ _ H) p ltac:(rewrite Ef; by left)) as [_ Hph].
    constructor; simpl; [by apply insert_subseteq|by apply insert_subseteq| |done|rewrite Ef; simpl; lia|done|done|rewrite Ef; by right].
    intros b r [(<- & <-)|(? & ?)]%lookup_insert_Some; [done|congruence].
Qed.

Lemma ensure_root lo s g pt T :
  pt_inv lo s g pt T -> (1 <= length (gfree g))%nat ->
  exists r s' g' T', (if pt =? 0 then new_table else ret pt) s = Ret (r, s') /\
    pt_inv lo s' g' r T' /\ T' !! [] = Some r /\ (forall b, (0 < length b)%nat -> T' !! b = T !! b) /\ grown 1 s g T s' g' T'.
Proof.
  intros H Hf. destruct (p_root _ _ _ _ _ H) as [[-> ->]|Hr].
  - destruct (gfree g) as [|p l] eqn:Ef; [simpl in Hf; lia|]. destruct (add_root lo s g p l H Ef) as (s' & E1 & H' & Hpk & Hk).
    exists p, s', (hold_page p l g), {[ [] := p ]}. split; [done|]. split; [done|]. split; [apply lookup_singleton_eq|].
    split; [intros b Hb; rewrite lookup_singleton_ne by (intros <-; simpl in Hb; lia); by rewrite lookup_empty|].
    destruct (i_sep _ _ _ (p_mem _ _ _ _ _ H) p ltac:(rewrite Ef; by left)) as [_ Hph].
    constructor; simpl; [apply map_empty_subseteq|by apply insert_subseteq| |done|rewrite Ef; simpl; lia|done|done|rewrite Ef; by right].
    intros b r [_ <-]%lookup_singleton_Some. done.
  - destruct (page_ok_index lo pt) as (_ & H0 & _); [by eapply table_page|]. rewrite (proj2 (Z.eqb_neq pt 0)) by done.
    exists pt, s, g, T. split; [done|]. split; [done|]. split; [done|]. split; [done|]. destruct (grown_refl s g T). by constructor; auto; lia.
Qed.

Lemma get_pte_alloc lo s g pt T va :
  pt_inv lo s g pt T -> (4 <= length (gfree g))%nat ->
  exists s' g' pt' T' q, get_pte pt va true s = Ret ((pt', pte_ptr q (VA_PART3 va)), s') /\
    pt_inv lo s' g' pt' T' /\ T' !! path va = Some q /\ grown 4 s g T s' g' T'.
Proof.
  intros H Hf. destruct (part_bounds va) as (B0 & B1 & B2 & _). unfold get_pte. rewrite (bind_Ret _ _ _ _ _ (walk_spec lo s g pt T va H)). cbv beta iota.
  destruct (T !! path va) as [q|] eqn:Eq; cbn [default from_option id].
  { destruct (page_ok_index lo q) as (_ & H0 & _); [by eapply table_page|]. rewrite (proj2 (Z.eqb_neq q 0)) by done.
    exists s, g, pt, T, q. split; [done|]. split; [done|]. split; [done|]. destruct (grown_refl s g T). by constructor; auto; lia. }
  change (negb (0 =? 0)) with false. cbv iota.
  destruct (ensure_root lo s g pt T H ltac:(lia)) as (r0 & s1 & g1 & T1 & E1 & H1 & R0 & K1 & G1). rewrite (bind_Ret _ _ _ _ _ E1).
  pose proof (gr_free _ _ _ _ _ _ _ G1) as F1. rewrite <- (K1 [VA_PART0 va]), <- (K1 [VA_PART0 va; VA_PART1 va]) by (simpl; lia).
  destruct (ensure_table lo s1 g1 r0 T1 [] (VA_PART0 va) r0 H1 R0 ltac:(simpl; lia) B0 ltac:(lia)) as (r1 & s2 & g2 & T2 & E2 & H2 & R1 & K2 & G2).
  simpl app in *. rewrite (bind_Ret _ _ _ _ _ E2). pose proof (gr_free _ _ _ _ _ _ _ G2) as F2. rewrite <- (K2 [VA_PART0 va; VA_PART1 va]) by (simpl; lia).
  destruct (ensure_table lo s2 g2 r0 T2 _ (VA_PART1 va) r1 H2 R1 ltac:(simpl; lia) B1 ltac:(lia)) as (r2 & s3 & g3 & T3 & E3 & H3 & R2 & K3 & G3).
  simpl app in *. rewrite (bind_Ret _ _ _ _ _ E3). pose proof (gr_free _ _ _ _ _ _ _ G3) as F3.
  assert (E0 : default 0 (T3 !! path va) = 0) by (rewrite (K3 (path va)), (K2 (path va)), (K1 (path va)), Eq by (simpl; lia); done).
  destruct (ensure_table lo s3 g3 r0 T3 _ (VA_PART2 va) r2 H3 R2 ltac:(simpl; lia) B2 ltac:(lia)) as (r3 & s4 & g4 & T4 & E4 & H4 & R3 & K4 & G4).
  cbn [app] in E4, R3. fold (path va) in E4, R3. rewrite E0 in E4. rewrite (bind_Ret _ _ _ _ _ E4). exists s4, g4, r0, T4, r3. split; [done|]. split; [done|]. split; [done|].
  exact (grown_trans 1 3 _ _ _ _ _ _ _ _ _ G1 (grown_trans 1 2 _ _ _ _ _ _ _ _ _ G2 (grown_trans 1 1 _ _ _ _ _ _ _ _ _ G3 G4))).
Qed.

(** ** Writing an entry *)
Lemma leaf_write lo s g pt T a q j v :
  pt_inv lo s g pt T -> T !! a = Some q -> length a = 3%nat -> 0 <= j < 512 ->
  pt_inv lo (set_words (insert (pte_ptr q j) v) s) g pt T.
Proof.
  intros H Ha Hl Hj. pose proof (p_mem _ _ _ _ _ H) as HM. pose proof (table_page _ _ _ _ _ _ _ H Ha) as Hqo.
  assert (Hne : forall b r i, T !! b = Some r -> (length b < 3)%nat -> 0 <= i < 512 -> pte_ptr q j <> pte_ptr r i).
  { intros b r i Hb Hlb Hi E. apply (pte_ptr_inj lo) in E as [<- _]; [|done|by eapply table_page|done..].
    assert (a = b) as -> by (by eapply (p_inj _ _ _ _ _ H)). lia. }
  constructor; simpl; try apply H.
  - apply write_inv; [done|]. eapply (held_not_ctl lo s _ HM q 0); [by eapply (p_held _ _ _ _ _ H)|unfold pte_ptr, PAGE_SIZE; lia].
  - intros b r i Hb Hlb Hi. rewrite lookup_insert_ne by (by eapply Hne). by apply (p_entry _ _ _ _ _ H).
  - intros b r i Hb Hlb Hi. rewrite lookup_insert. case_decide; [done|]. by eapply (p_leaf _ _ _ _ _ H).
Qed.

Lemma increment_inv lo s g pt T ka n :
  pt_inv lo s g pt T -> gheld g !! ka = Some n -> (forall a, T !! a <> Some ka) ->
  exists s', increment_ref ka s = Ret (tt, s') /\ pt_inv lo s' (count_page ka (n + 1) g) pt T /\ words s' = words s.
Proof.
  intros H Hn Hka. destruct (increment_ref_spec lo s g ka n (p_mem _ _ _ _ _ H) Hn) as (s' & E & H' & Hz & Hw). exists s'. split; [done|]. split; [|done].
  constructor; simpl; try apply H.
  - done.
  - destruct (p_zero _ _ _ _ _ H) as (z & Hzz & Hh & Hzt). exists z. split; [congruence|]. split; [|done]. apply lookup_insert_is_Some'. by right.
  - intros a p Ha. rewrite lookup_insert_ne by (intros ->; by apply (Hka a)). by eapply (p_held _ _ _ _ _ H).
  - intros a p i Ha Hl Hi. rewrite Hw. by apply (p_entry _ _ _ _ _ H).
  - intros a p i Ha Hl Hi. rewrite Hw. by eapply (p_leaf _ _ _ _ _ H).
Qed.

Lemma pte_of_grown n s g T s' g' T' va : grown n s g T s' g' T' -> pte_of s' T' va = pte_of s T va.
Proof.
  intros []. unfold pte_of. destruct (T' !! path va) as [q|] eqn:E.
  - rewrite (gr_leaves0 (path va) q (VA_PART3 va) eq_refl E (proj2 (proj2 (proj2 (part_bounds va))))).
    destruct (T !! path va) as [q'|] eqn:E'; [|done]. pose proof (lookup_weaken _ _ _ _ E' gr_tables0). by simplify_eq.
  - destruct (T !! path va) as [q'|] eqn:E'; [|done]. pose proof (lookup_weaken _ _ _ _ E' gr_tables0). by simplify_eq.
Qed.

(** A page table is a map from virtual page numbers to entries, and
    [vmmap] an update of that map: [get_pte] then finds the entry of the
    address, which holds the frame and the flags, the entries of all other
    pages are what they were (missing tables are made, filled with zeros),
    the tables stay a tree of pages of their own, and the page counts one
    reference more. *)
Theorem vmmap_correct lo s g pt T va ka flags n :
  pt_inv lo s g pt T -> (4 <= length (gfree g))%nat -> gheld g !! ka = Some n -> (forall a, T !! a <> Some ka) -> 0 <= flags < 4096 ->
  exists s' g' pt' T' a, vmmap pt va ka flags s = Ret (pt', s') /\ pt_inv lo s' g' pt' T' /\
    get_pte pt' va false s' = Ret ((pt', a), s') /\ a <> 0 /\ words s' !! a = Some (K2P ka + flags) /\
    PTE_ADDRESS (K2P ka + flags) = K2P ka /\ table_of (K2P ka + flags) = ka /\
    (forall va', (va' / 4096) mod 2 ^ 36 <> (va / 4096) mod 2 ^ 36 -> pte_of s' T' va' = pte_of s T va') /\
    gheld g' !! ka = Some (n + 1) /\ gobjs g' = gobjs g.
Proof.
  intros H Hf Hka Hkt Hflags. destruct (get_pte_alloc lo s g pt T va H Hf) as (s1 & g1 & pt' & T' & q & E1 & H1 & Hq & G).
  destruct (part_bounds va) as (_ & _ & _ & B3). pose proof (table_page _ _ _ _ _ _ _ H1 Hq) as Hqo.
  pose proof (held_page lo s g ka n (p_mem _ _ _ _ _ H) Hka) as Hko.
  destruct (entry_of lo ka flags Hko Hflags) as (Ev & _ & Ea & Et).
  pose proof (leaf_write lo s1 g1 pt' T' (path va) q (VA_PART3 va) (K2P ka + flags) H1 Hq eq_refl B3) as H2.
  pose proof (lookup_weaken _ _ _ _ Hka (gr_held _ _ _ _ _ _ _ G)) as Hka1.
  assert (Hkt1 : forall a, T' !! a <> Some ka).
  { intros a Ha. destruct (T !! a) as [p|] eqn:E.
    - pose proof (lookup_weaken _ _ _ _ E (gr_tables _ _ _ _ _ _ _ G)). simplify_eq. by apply (Hkt a).
    - pose proof (gr_new _ _ _ _ _ _ _ G a ka Ha E). congruence. }
  destruct (increment_inv lo _ g1 pt' T' ka n H2 Hka1 Hkt1) as (s3 & E3 & H3 & Hw3).
  exists s3, (count_page ka (n + 1) g1), pt', T', (pte_ptr q (VA_PART3 va)).
  split; [|split; [done|split; [|split; [|split; [|split; [done|split; [done|split; [|split]]]]]]]].
  - unfold vmmap. rewrite (bind_Ret _ _ _ _ _ E1). cbn [fst snd]. rewrite Ev.
    rewrite (bind_Ret _ _ _ _ _ (wr_word_Ret _ _ s1 (pte_ram lo q _ Hqo B3))), (bind_Ret _ _ _ _ _ E3). done.
  - by rewrite (get_pte_lookup lo _ _ _ _ va H3), Hq.
  - destruct Hqo as (Q1 & Q2 & _). unfold pte_ptr, KSPACE_MASK in *. lia.
  - rewrite Hw3. apply lookup_insert_eq.
  - intros va' Hne. rewrite <- (pte_of_grown _ _ _ _ _ _ _ va' G). unfold pte_of. destruct (T' !! path va') as [q'|] eqn:E'; [|done].
    rewrite Hw3. simpl. rewrite lookup_insert_ne; [done|]. intros E.
    apply (pte_ptr_inj lo) in E as [<- E3']; [|done|by eapply table_page|done|apply part_bounds].
    apply Hne. symmetry. apply parts_inj; [|done]. by eapply (p_inj _ _ _ _ _ H1).
  - simpl. apply lookup_insert_eq.
  - simpl. apply (gr_objs _ _ _ _ _ _ _ G).
Qed.

(** ** Freeing the tables *)
Fixpoint below (pre : list Z) (k : Z) (a : list Z) : bool :=
  match pre, a with
  | [], x :: _ => x <? k
  | x :: pre', y :: a' => (x =? y) && below pre' k a'
  | _, [] => false
  end.

Lemma below_spec pre k a : below pre k a = true <-> exists x r, a = pre ++ x :: r /\ x < k.
Proof.
  revert a. induction pre as [|y pre IH]; intros [|x a]; simpl.
  - split; [done|]. by intros (x & r & ? & _).
  - rewrite Z.ltb_lt. split; [eauto|]. by intros (x' & r & [= -> ->] & ?).
  - split; [done|]. by intros (x & r & ? & _).
  - rewrite andb_true_iff, Z.eqb_eq, IH. split.
    + intros (-> & z & r & -> & ?). eauto.
    + intros (z & r & [= -> ->] & ?). split; [done|]. eauto.
Qed.

(** [R] without what lies below [pre] with a first index under [k]. *)
Definition cut (pre : list Z) (k : Z) (R : tables) : tables := filter (fun x => below pre k x.1 = false) R.

Lemma cut_lookup pre k R a : cut pre k R !! a = if below pre k a then None else R !! a.
Proof.
  unfold cut. destruct (below pre k a) eqn:E.
  - apply map_lookup_filter_None. right. intros p _ ?. simpl in *. congruence.
  - destruct (R !! a) eqn:ER; [by apply map_lookup_filter_Some|]. apply map_lookup_filter_None. by left.
Qed.

(** What is left of the tree while [free_tables] runs: the tables in [R] are
    as they were, the others are free. *)
Record freeing (lo : Z) (s : mem_st) (g : ghost) (T : tables) (R : tables) (s1 : mem_st) (g1 : ghost) : Prop := {
  f_mem : mem_inv lo s1 g1;
  f_zero : zero_page s1 = zero_page s;
  f_sub : R ⊆ T;
  f_words : forall a p j, R !! a = Some p -> 0 <= j < 512 -> words s1 !! pte_ptr p j = words s !! pte_ptr p j;
  f_rest : forall a p, R !! a = Some p -> gheld g1 !! p = Some 0;
  f_held : forall p, (forall a, T !! a = Some p -> R !! a <> None) -> gheld g1 !! p = gheld g !! p;
  f_gone : forall a p, T !! a = Some p -> R !! a = None -> p ∈ gfree g1;
  f_free : length (gfree g1) = (length (gfree g) + (size T - size R))%nat /\ forall p, p ∈ gfree g -> p ∈ gfree g1;
  f_objs : gobjs g1 = gobjs g;
  f_out : forall w, (forall a p, T !! a = Some p -> ~ p <= w < p + PAGE_SIZE) -> words s1 !! w = words s !! w
}.

Lemma free_one kend s g pt T R s1 g1 a p :
  let lo := PAGE_BASE kend + PAGE_SIZE in
  pt_inv lo s g pt T -> freeing lo s g T R s1 g1 -> R !! a = Some p ->
  exists s2 g2, kfree_page kend p s1 = Ret (tt, s2) /\ freeing lo s g T (delete a R) s2 g2.
Proof.
  intros lo H HF Ha. destruct HF as [HM Hz Hsub Hw Hrest Hheld Hgone [Hlen Hfree] Hobjs Hout].
  pose proof (lookup_weaken _ _ _ _ Ha Hsub) as HTa. destruct (p_zero _ _ _ _ _ H) as (z & Hzz & _ & Hzt).
  pose proof (free_bound lo s1 g1 HM) as Hb. change NPAGE with 258048 in Hb.
  destruct (kfree_page_frees kend s1 g1 p 0 HM (Hrest a p Ha)) as (s2 & E & HM2 & Hz2 & Hw2); [intros ->; apply (Hzt a); congruence|by vm_compute|lia|].
  pose proof (table_page _ _ _ _ _ _ _ H HTa) as Hpo.
  assert (Hne : forall b r, delete a R !! b = Some r -> r <> p).
  { intros b r [Hab Hbr]%lookup_delete_Some ->. apply Hab. eapply (p_inj _ _ _ _ _ H); [done|by eapply lookup_weaken]. }
  exists s2, (drop_page p g1). split; [done|]. constructor; simpl.
  - done.
  - congruence.
  - etrans; [apply delete_subseteq|done].
  - intros b r j Hbr Hj. pose proof (Hne b r Hbr) as Hrp. apply lookup_delete_Some in Hbr as [Hab Hbr]. rewrite Hw2, lookup_insert_ne; [by eapply Hw|].
    intros E'. apply Hrp. assert (E2 : pte_ptr r j = pte_ptr p 0) by (rewrite <- E'; unfold pte_ptr; lia).
    apply (pte_ptr_inj lo) in E2 as [? _]; [done|eapply table_page; [done|by eapply lookup_weaken]|done|done|lia].
  - intros b r Hbr. rewrite lookup_delete_ne by (intros ->; by eapply Hne). apply lookup_delete_Some in Hbr as [_ Hbr]. by eapply Hrest.
  - intros r Hr. rewrite lookup_delete_ne; [apply Hheld; intros b Hbr Hn; apply (Hr b Hbr), lookup_delete_None; by right|].
    intros ->. apply (Hr a HTa). apply lookup_delete_eq.
  - intros b r Hbr [<-|Hn]%lookup_delete_None; [rewrite HTa in Hbr; simplify_eq; by left|right; by eapply Hgone].
  - split; [|intros r Hr; right; by apply Hfree]. rewrite map_size_delete, Ha. apply map_subseteq_size in Hsub as Hs.
    assert (size R <> 0%nat) by (intros E0; apply map_size_empty_iff in E0; by rewrite E0, lookup_empty in Ha). lia.
  - done.
  - intros w Hnw. rewrite Hw2, lookup_insert_ne; [by apply Hout|]. intros <-. apply (Hnw a p HTa). unfold PAGE_SIZE. lia.
Qed.

Lemma prefix_closed lo s g pt T a r : pt_inv lo s g pt T -> is_Some (T !! (a ++ r)) -> is_Some (T !! a).
Proof.
  intros H. induction r as [|x r IH] using rev_ind; [by rewrite app_nil_r|]. rewrite app_assoc. intros [p Hp]. apply IH.
  by destruct (p_path _ _ _ _ _ H (a ++ r) x p Hp).
Qed.

Lemma pte_index_bound lo s g pt T a x r : pt_inv lo s g pt T -> is_Some (T !! (a ++ x :: r)) -> 0 <= x < 512 /\ (length a < 3)%nat.
Proof.
  intros H Hs. replace (a ++ x :: r) with ((a ++ [x]) ++ r) in Hs by (by rewrite <- app_assoc).
  apply (prefix_closed _ _ _ _ _ _ _ H) in Hs as [p Hp]. by destruct (p_path _ _ _ _ _ H a x p Hp) as (_ & ? & ?).
Qed.

Section cut.
Context (lo : Z) (s : mem_st) (g : ghost) (pt : Z) (T R : tables) (H : pt_inv lo s g pt T) (HR : R ⊆ T).

Lemma cut_start pre : cut pre 0 R = R.
Proof using H HR.
  apply map_eq. intros a. rewrite cut_lookup. destruct (below pre 0 a) eqn:E; [|done]. apply below_spec in E as (x & r & -> & Hx).
  destruct (R !! (pre ++ x :: r)) as [p|] eqn:Ep; [|done]. destruct (pte_index_bound lo s g pt T pre x r H) as [? _]; [|lia].
  exists p. by eapply lookup_weaken.
Qed.

Lemma cut_absent pre k : T !! (pre ++ [k]) = None -> cut pre (k + 1) R = cut pre k R.
Proof using H HR.
  intros Hn. apply map_eq. intros a. rewrite !cut_lookup. destruct (R !! a) as [p|] eqn:Ep; [|by repeat case_match].
  destruct (below pre (k + 1) a) eqn:E, (below pre k a) eqn:E'; try done.
  - apply below_spec in E as (x & r & -> & Hx). destruct (decide (x = k)) as [->|].
    + replace (pre ++ k :: r) with ((pre ++ [k]) ++ r) in Ep by (by rewrite <- app_assoc).
      destruct (prefix_closed lo s g pt T (pre ++ [k]) r H) as [? ?]; [exists p; by eapply lookup_weaken|congruence].
    + assert (below pre k (pre ++ x :: r) = true); [|congruence]. apply below_spec. exists x, r. split; [done|lia].
  - apply below_spec in E' as (x & r & -> & Hx). assert (below pre (k + 1) (pre ++ x :: r) = true); [|congruence]. apply below_spec. exists x, r. split; [done|lia].
Qed.

Lemma cut_leaf pre k : length pre = 2%nat -> cut (pre ++ [k]) 512 R = R.
Proof using H HR.
  intros Hl. apply map_eq. intros a. rewrite cut_lookup. destruct (below (pre ++ [k]) 512 a) eqn:E; [|done]. apply below_spec in E as (x & r & -> & Hx).
  destruct (R !! _) as [p|] eqn:Ep; [|done]. destruct (pte_index_bound lo s g pt T (pre ++ [k]) x r H) as [_ Hlen]; [exists p; by eapply lookup_weaken|].
  rewrite length_app in Hlen. simpl in Hlen. lia.
Qed.

Lemma cut_step pre k : delete (pre ++ [k]) (cut (pre ++ [k]) 512 (cut pre k R)) = cut pre (k + 1) R.
Proof using H HR.
  apply map_eq. intros a. rewrite lookup_delete, !cut_lookup. destruct (R !! a) as [p|] eqn:Ep; [|by repeat case_match].
  destruct (below pre (k + 1) a) eqn:E.
  - apply below_spec in E as (x & r & -> & Hx). destruct (decide (x = k)) as [->|].
    + destruct r as [|y r]; [by rewrite decide_True|]. rewrite decide_False by (intros E; apply app_inv_head in E; done).
      assert (Hy : below (pre ++ [k]) 512 (pre ++ k :: y :: r) = true); [|by rewrite Hy].
      apply below_spec. exists y, r. rewrite <- app_assoc. split; [done|].
      destruct (pte_index_bound lo s g pt T (pre ++ [k]) y r H); [|lia]. exists p. rewrite <- app_assoc. by eapply lookup_weaken.
    + assert (Hx' : below pre k (pre ++ x :: r) = true) by (apply below_spec; exists x, r; split; [done|lia]). rewrite Hx'. by repeat case_match.
  - assert (Hn : forall x r, a = pre ++ x :: r -> k + 1 <= x).
    { intros x r Ea. destruct (Z.le_gt_cases (k + 1) x); [done|]. assert (below pre (k + 1) a = true); [|congruence]. apply below_spec. eauto. }
    rewrite decide_False by (intros <-; specialize (Hn k [] eq_refl); lia).
    destruct (below (pre ++ [k]) 512 a) eqn:E1.
    { apply below_spec in E1 as (x & r & -> & _). specialize (Hn k (x :: r)). rewrite <- app_assoc in Hn. specialize (Hn eq_refl). lia. }
    destruct (below pre k a) eqn:E2; [|done]. apply below_spec in E2 as (x & r & -> & ?). specialize (Hn x r eq_refl). lia.
Qed.
End cut.

Section levels.
Context (kend : Z) (s : mem_st) (g : ghost) (pt : Z) (T : tables).
Abbreviation lo := (PAGE_BASE kend + PAGE_SIZE).
Context (H : pt_inv lo s g pt T).

(** One turn of a loop over a table, [sub] being what it does to the table
    below before it frees it. *)
Definition free_level {A} (sub : Z -> M mem_st A) (q k : Z) : M mem_st (option unit) :=
  e <- rd_word (pte_ptr q k) ;; when (valid e) (sub (table_of e) ;;; kfree_page kend (table_of e)) ;;; ret None.

Definition clears {A} (sub : Z -> M mem_st A) (pre : list Z) : Prop :=
  forall R q s1 g1, freeing lo s g T R s1 g1 -> R !! pre = Some q -> (forall x r, R !! (pre ++ x :: r) = T !! (pre ++ x :: r)) ->
  exists v s2 g2, sub q s1 = Ret (v, s2) /\ freeing lo s g T (cut pre 512 R) s2 g2.

Lemma level_clears {A} (sub : Z -> M mem_st A) pre :
  (length pre < 3)%nat -> (forall k, clears sub (pre ++ [k])) -> clears (fun q => for_upto (Z.to_nat N_PTE_PER_TABLE) 0 (free_level sub q)) pre.
Proof using H.
  intros Hl Hsub R q s1 g1 HF Hq Hfull. pose proof (f_sub _ _ _ _ _ _ _ HF) as HRT. pose proof (lookup_weaken _ _ _ _ Hq HRT) as HqT.
  destruct (for_upto_inv (fun k s' => exists g', freeing lo s g T (cut pre k R) s' g') (free_level sub q) (Z.to_nat N_PTE_PER_TABLE) 0 s1) as (s2 & E & g2 & HF2).
  - exists g1. by rewrite (cut_start lo s g pt T R H HRT).
  - intros k s' Hk [g' HF']. change (0 + Z.of_nat (Z.to_nat N_PTE_PER_TABLE)) with 512 in Hk.
    assert (Hqk : cut pre k R !! pre = Some q).
    { rewrite cut_lookup. destruct (below pre k pre) eqn:Eb; [|done]. apply below_spec in Eb as (x & r & Ea & _). rewrite <- (app_nil_r pre) in Ea at 1. by apply app_inv_head in Ea. }
    destruct (p_entry _ _ _ _ _ H pre q k HqT Hl Hk) as (e & He & Hv).
    assert (Erd : rd_word (pte_ptr q k) s' = Ret (e, s')).
    { apply rd_word_Ret; [eapply pte_ram; [by eapply table_page|done]|]. by rewrite (f_words _ _ _ _ _ _ _ HF' pre q k Hqk Hk). }
    unfold free_level at 1. rewrite (bind_Ret _ _ _ _ _ Erd). destruct (valid e); simpl when.
    + set (r := table_of e) in *.
      assert (Hr : cut pre k R !! (pre ++ [k]) = Some r).
      { rewrite cut_lookup. destruct (below pre k (pre ++ [k])) eqn:Eb; [|by rewrite Hfull]. apply below_spec in Eb as (x & r' & Ea & ?). apply app_inv_head in Ea as [= <- _]. lia. }
      destruct (Hsub k (cut pre k R) r s' g' HF' Hr) as (v & s3 & g3 & E3 & HF3).
      { intros x rr. rewrite cut_lookup. rewrite <- app_assoc. simpl. destruct (below pre k (pre ++ k :: x :: rr)) eqn:Eb; [|apply Hfull].
        apply below_spec in Eb as (y & r' & Ea & ?). apply app_inv_head in Ea as [= <- _]. lia. }
      assert (Hr3 : cut (pre ++ [k]) 512 (cut pre k R) !! (pre ++ [k]) = Some r).
      { rewrite cut_lookup. destruct (below (pre ++ [k]) 512 (pre ++ [k])) eqn:Eb; [|done]. apply below_spec in Eb as (x & r' & Ea & _). rewrite <- (app_nil_r (pre ++ [k])) in Ea at 1. by apply app_inv_head in Ea. }
      destruct (free_one kend s g pt T _ s3 g3 _ r H HF3 Hr3) as (s4 & g4 & E4 & HF4). rewrite (cut_step lo s g pt T R H HRT) in HF4.
      exists s4. split; [|by exists g4]. rewrite bind_assoc, (bind_Ret _ _ _ _ _ E3), (bind_Ret _ _ _ _ _ E4). done.
    + exists s'. split; [done|]. exists g'. by rewrite (cut_absent lo s g pt T R H HRT).
  - exists None, s2, g2. split; [done|]. exact HF2.
Qed.

Lemma leaf_clears pre k : length pre = 2%nat -> clears (fun _ => ret tt) (pre ++ [k]).
Proof using H.
  intros Hl R q s1 g1 HF Hq _. exists tt, s1, g1. split; [done|]. by rewrite (cut_leaf lo s g pt T R H (f_sub _ _ _ _ _ _ _ HF)).
Qed.
End levels.

(** Freeing the tables returns, and exactly their pages go to the list of
    free pages. *)
Lemma free_tables_spec kend s g pt T :
  pt_inv (PAGE_BASE kend + PAGE_SIZE) s g pt T -> pt <> 0 ->
  exists s' g', free_tables kend pt s = Ret (tt, s') /\ mem_inv (PAGE_BASE kend + PAGE_SIZE) s' g' /\
    length (gfree g') = (length (gfree g) + size T)%nat /\ (forall a p, T !! a = Some p -> p ∈ gfree g') /\ (forall p, p ∈ gfree g -> p ∈ gfree g') /\
    (forall p, (forall a, T !! a <> Some p) -> gheld g' !! p = gheld g !! p) /\ gobjs g' = gobjs g /\
    (forall w, (forall a p, T !! a = Some p -> ~ p <= w < p + PAGE_SIZE) -> words s' !! w = words s !! w).
Proof.
  intros H Hpt. destruct (p_root _ _ _ _ _ H) as [[? _]|Hroot]; [done|].
  assert (HF : freeing (PAGE_BASE kend + PAGE_SIZE) s g T T s g).
  { constructor; try done; [apply H|by intros; eapply (p_held _ _ _ _ _ H)|intros; congruence|split; [lia|done]]. }
  assert (Hc : clears kend s g T (fun q => for_upto (Z.to_nat N_PTE_PER_TABLE) 0 (free_turn0 kend q)) []).
  { apply (level_clears kend s g pt T H (fun q => for_upto (Z.to_nat N_PTE_PER_TABLE) 0 (free_turn1 kend q))); [simpl; lia|intros i].
    apply (level_clears kend s g pt T H (fun q => for_upto (Z.to_nat N_PTE_PER_TABLE) 0 (free_turn2 kend q))); [simpl; lia|intros j].
    apply (level_clears kend s g pt T H (fun _ => ret tt)); [simpl; lia|intros k]. by apply (leaf_clears kend s g pt T H). }
  destruct (Hc T pt s g HF Hroot) as (v & s1 & g1 & E1 & HF1); [done|].
  assert (Hr1 : cut [] 512 T !! [] = Some pt) by (by rewrite cut_lookup).
  destruct (free_one kend s g pt T _ s1 g1 [] pt H HF1 Hr1) as (s2 & g2 & E2 & HF2).
  assert (Hempty : delete [] (cut [] 512 T) = ∅).
  { apply map_empty. intros a. rewrite lookup_delete, cut_lookup. case_decide as Ea; [done|]. destruct a as [|x a]; [done|]. simpl.
    destruct (Z.ltb_spec x 512) as [|Hx]; [done|]. destruct (T !! (x :: a)) as [p|] eqn:E; [|done].
    destruct (pte_index_bound _ _ _ _ _ [] x a H) as [? _]; [by exists p|lia]. }
  rewrite Hempty in HF2. destruct HF2 as [HM Hz _ _ _ Hheld Hgone [Hlen Hfree] Hobjs Hout].
  exists s2, g2. split; [|split; [done|split; [|split; [|split; [done|split; [|done]]]]]].
  - unfold free_tables. rewrite (bind_Ret _ _ _ _ _ E1). exact E2.
  - rewrite map_size_empty in Hlen. lia.
  - intros a p Ha. by apply (Hgone a p Ha).
  - intros p Hp. apply Hheld. intros a Ha. by destruct (Hp a).
Qed.

(** ** Witnesses: an address space on fifteen pages *)
Lemma no_tables lo s g : mem_inv lo s g -> is_Some (gheld g !! zero_page s) -> pt_inv lo s g 0 ∅.
Proof.
  intros H Hz. constructor; try (intros *; by rewrite lookup_empty); [done|by left|].
  exists (zero_page s). split; [done|]. split; [done|]. intros a. by rewrite lookup_empty.
Qed.

Definition pt_kend := 0xffff00003eff0123.
Definition pt_client : client := after pt_kend [OPage].
Definition pt_page := 18446462599789797376.

Lemma pt_client_run : (if run_client pt_kend [OPage] then true else false) = true.
Proof. vm_compute. reflexivity. Qed.

Lemma pt_start : exists g, pt_inv (PAGE_BASE pt_kend + PAGE_SIZE) pt_client.1.1 g 0 ∅ /\ gheld g !! pt_page = Some 0 /\ length (gfree g) = 13%nat.
Proof.
  destruct (mem_reach_inv pt_kend pt_client.1.1 pt_client.1.2 pt_client.2) as (g & H & Ho & Hh & Hz).
  - split; vm_compute; discriminate.
  - exact (after_reach pt_kend [OPage] pt_client_run).
  - exists g. split; [apply no_tables; [done|by rewrite Hh]|]. split; [rewrite Hh; vm_compute; reflexivity|].
    pose proof (i_cnt _ _ _ H) as Hc. assert (Hn : alloc_page_cnt pt_client.1.1 = 13) by (vm_compute; reflexivity). rewrite Hn in Hc. lia.
Qed.

Lemma vmmap_correct_witness :
  exists s' pt' a, vmmap 0 0x400123 pt_page PTE_USER_DATA pt_client.1.1 = Ret (pt', s') /\ get_pte pt' 0x400123 false s' = Ret ((pt', a), s') /\
    words s' !! a = Some (K2P pt_page + PTE_USER_DATA).
Proof.
  destruct pt_start as (g & H & Hp & Hl).
  destruct (vmmap_correct _ _ g 0 ∅ 0x400123 pt_page PTE_USER_DATA 0 H) as (s' & g' & pt' & T' & a & E1 & _ & E2 & _ & E3 & _).
  - lia.
  - exact Hp.
  - intros b. by rewrite lookup_empty.
  - vm_compute. split; [discriminate|reflexivity].
  - exists s', pt', a. split; [exact E1|]. split; [exact E2|exact E3].
Defined.
