(* ===== verification/Shell.v ===== *)
(** * The shell's parser (user/sh/main.c)

    The line is an array of bytes at the address [buf]; commands are objects
    that [malloc1] cuts from the array [mem]. A message on stderr followed
    by [exit(1)] is a [Stop Panic]. [*ps] is passed and returned. The
    commands the parser builds are run in ShellRun.v. *)
From stdpp Require Import base gmap list strings.
From Stdlib Require Import ZArith Lia Ascii.
From S2P Require Import Prelude Bytes CString.

(** Characters and string literals. *)
Definition chr (c : ascii) : Z := Z.of_N (N_of_ascii c).
Definition str (s : string) : list Z := map chr (String.list_ascii_of_string s).

Arguments str s%_string_scope.

Definition MAXARGS : Z := 10.
Definition MAXN : Z := 10000.
Definition O_RDONLY : Z := 0.
Definition O_WRONLY : Z := 1.
Definition O_RDWR : Z := 2.
Definition O_CREAT : Z := 64.

(** The structs, told apart by their [type]. *)
Inductive cmd :=
| EXEC (argv eargv : list Z)
| REDIR (sub file efile mode fd : Z)
| PIPE (left right : Z)
| LIST (left right : Z)
| BACK (sub : Z).

Definition sizeof (c : cmd) : Z :=
  match c with EXEC _ _ => 168 | REDIR _ _ _ _ _ => 40 | PIPE _ _ => 24 | LIST _ _ => 24 | BACK _ => 16 end.

(** The line, [malloc1]'s [i] and the commands at their addresses. *)
Record sh := mkSh { line : list Z; brk : Z; cmds : gmap Z cmd }.

(** [strchr] also finds the terminating NUL of its string. *)
Definition strchr (s : list Z) (c : Z) : bool := (c =? 0) || existsb (Z.eqb c) s.
Definition is_one_of (s : list Z) (c : Z) : bool := existsb (Z.eqb c) s.

Definition whitespace : list Z := [32; 9; 13; 10; 11].
Definition symbols : list Z := str "<|>&;()".

Section sh.
Context (mem buf : Z).

Definition malloc1 (sz : Z) : M sh Z :=
  fun st => if brk st + sz >? MAXN then Stop Panic
            else Ret (mem + brk st, mkSh (line st) (brk st + sz) (cmds st)).

(** The constructors [execcmd], [redircmd], [pipecmd], [listcmd] and [backcmd]. *)
Definition new_cmd (c : cmd) : M sh Z :=
  p <- malloc1 (sizeof c) ;; modify (fun st => mkSh (line st) (brk st) (<[p := c]> (cmds st))) ;;; ret p.
Definition execcmd : M sh Z := new_cmd (EXEC (replicate 10 0) (replicate 10 0)).
Definition redircmd (subcmd file efile mode fd : Z) : M sh Z := new_cmd (REDIR subcmd file efile mode fd).
Definition pipecmd (left right : Z) : M sh Z := new_cmd (PIPE left right).
Definition listcmd (left right : Z) : M sh Z := new_cmd (LIST left right).
Definition backcmd (subcmd : Z) : M sh Z := new_cmd (BACK subcmd).

(** [*s] *)
Definition getc (s : Z) : M sh Z := fun st => rd (line st) (s - buf) st.

Section parse.
Context (es : Z).

(** [while (s < es && strchr(whitespace, *s)) s++] *)
Definition skip_space (s : Z) : M sh Z :=
  while (S (Z.to_nat (es - s))) (fun s =>
    if s <? es then c <- getc s ;; ret (if strchr whitespace c then inl (s + 1) else inr s) else ret (inr s)) s.
Definition skip_word (s : Z) : M sh Z :=
  while (S (Z.to_nat (es - s))) (fun s =>
    if s <? es then
      c <- getc s ;; ret (if negb (strchr whitespace c) && negb (strchr symbols c) then inl (s + 1) else inr s)
    else ret (inr s)) s.

(** The token, the [switch] at its first character, and where it ends. *)
Definition token_end (q : Z) : M sh (Z * Z) :=
  c <- getc q ;;
  if c =? 0 then ret (c, q)
  else if is_one_of (str "|();&<") c then ret (c, q + 1)
  else if c =? chr ">" then
    c2 <- getc (q + 1) ;;
    if c2 =? chr ">" then ret (chr "+", q + 2) else ret (c, q + 1)
  else e <- skip_word q ;; ret (chr "a", e).

(** The token's kind, [q], [eq] and the new [*ps]. *)
Definition gettoken (s : Z) : M sh (Z * Z * Z * Z) :=
  q <- skip_space s ;;
  r <- token_end q ;;
  s' <- skip_space r.2 ;;
  ret (r.1, q, r.2, s').

Definition peek (s : Z) (toks : list Z) : M sh (bool * Z) :=
  s <- skip_space s ;; c <- getc s ;; ret (negb (c =? 0) && strchr toks c, s).

Definition redirs_turn (st : Z * Z) : M sh (Z * Z + Z * Z) :=
  let '(cmd, s) := st in
  p <- peek s (str "<>") ;;
  if p.1 : bool then
    t <- gettoken p.2 ;;
    f <- gettoken t.2 ;;
    let '(tok, _, _, _) := t in let '(kind, q, eq, s) := f in
    if negb (kind =? chr "a") then stop Panic
    else
      cmd <- (if tok =? chr "<" then redircmd cmd q eq O_RDONLY 0
              else if tok =? chr ">" then redircmd cmd q eq (Z.lor O_WRONLY O_CREAT) 1
              else if tok =? chr "+" then redircmd cmd q eq (Z.lor O_WRONLY O_CREAT) 1
              else ret cmd) ;;
      ret (inl (cmd, s))
  else ret (inr (cmd, p.2)).
Definition parseredirs (cmd s : Z) : M sh (Z * Z) := while (S (Z.to_nat (es - s))) redirs_turn (cmd, s).

(** [cmd->argv[i] = q; cmd->eargv[i] = eq] *)
Definition set_arg (cmd i q eq : Z) : M sh unit :=
  fun st => match cmds st !! cmd with
            | Some (EXEC argv eargv) =>
                if (0 <=? i) && (i <? MAXARGS)
                then Ret (tt, mkSh (line st) (brk st) (<[cmd := EXEC (<[Z.to_nat i := q]> argv) (<[Z.to_nat i := eq]> eargv)]> (cmds st)))
                else Stop Fault
            | _ => Stop Fault
            end.

Section block.
(** [parseline], for the recursion through parentheses. *)
Context (parseline : Z -> M sh (Z * Z)).

Definition parseblock (s : Z) : M sh (Z * Z) :=
  p <- peek s (str "(") ;;
  if negb p.1 then stop Panic
  else
    t <- gettoken p.2 ;;
    r <- parseline t.2 ;;
    p <- peek r.2 (str ")") ;;
    if negb p.1 then stop Panic
    else t <- gettoken p.2 ;; parseredirs r.1 t.2.

(** The loop over the arguments of [cmd]; its variables are [ret], [argc] and [*ps]. *)
Definition args_turn (cmd : Z) (st : Z * Z * Z) : M sh (Z * Z * Z + Z * Z * Z) :=
  let '(r, argc, s) := st in
  p <- peek s (str "|)&;") ;;
  if p.1 : bool then ret (inr (r, argc, p.2))
  else
    t <- gettoken p.2 ;;
    let '(tok, q, eq, s) := t in
    if tok =? 0 then ret (inr (r, argc, s))
    else if negb (tok =? chr "a") then stop Panic
    else
      set_arg cmd argc q eq ;;;
      if argc + 1 >=? MAXARGS then stop Panic
      else r <- parseredirs r s ;; ret (inl (r.1, argc + 1, r.2)).

Definition parseexec (s : Z) : M sh (Z * Z) :=
  p <- peek s (str "(") ;;
  if p.1 : bool then parseblock p.2
  else
    cmd <- execcmd ;;
    r <- parseredirs cmd p.2 ;;
    st <- while (S (Z.to_nat (es - r.2))) (args_turn cmd) (r.1, 0, r.2) ;;
    let '(r, argc, s) := st in
    set_arg cmd argc 0 0 ;;;
    ret (r, s).

Fixpoint parsepipe (fuel : nat) (s : Z) : M sh (Z * Z) :=
  match fuel with
  | O => stop NoFuel
  | S fuel =>
      r <- parseexec s ;;
      p <- peek r.2 (str "|") ;;
      if p.1 : bool then
        t <- gettoken p.2 ;;
        r2 <- parsepipe fuel t.2 ;;
        c <- pipecmd r.1 r2.1 ;; ret (c, r2.2)
      else ret (r.1, p.2)
  end.
End block.

Definition back_turn (st : Z * Z) : M sh (Z * Z + Z * Z) :=
  let '(cmd, s) := st in
  p <- peek s (str "&") ;;
  if p.1 : bool then t <- gettoken p.2 ;; c <- backcmd cmd ;; ret (inl (c, t.2))
  else ret (inr (cmd, p.2)).

Fixpoint parseline (fuel : nat) (s : Z) : M sh (Z * Z) :=
  match fuel with
  | O => stop NoFuel
  | S fuel =>
      r <- parsepipe (parseline fuel) (S fuel) s ;;
      r <- while (S (Z.to_nat (es - r.2))) back_turn r ;;
      p <- peek r.2 (str ";") ;;
      if p.1 : bool then
        t <- gettoken p.2 ;;
        r2 <- parseline fuel t.2 ;;
        c <- listcmd r.1 r2.1 ;; ret (c, r2.2)
      else ret (r.1, p.2)
  end.
End parse.

(** [*p = 0] in the line. *)
Definition put_nul (p : Z) : M sh unit :=
  fun st => match wr (p - buf) 0 (line st) with
            | Ret (_, l) => Ret (tt, mkSh l (brk st) (cmds st))
            | Stop r => Stop r
            end.

(** The loop over the arguments; reading past [argv] is a fault. *)
Definition nul_turn (argv eargv : list Z) (i : Z) : M sh (Z + unit) :=
  a <- rd argv i ;; if a =? 0 then ret (inr tt) else e <- rd eargv i ;; put_nul e ;;; ret (inl (i + 1)).

Fixpoint nulterminate (fuel : nat) (cmd : Z) : M sh unit :=
  match fuel with
  | O => stop NoFuel
  | S fuel =>
      if cmd =? 0 then ret tt
      else
        h <- gets cmds ;;
        match h !! cmd with
        | None => stop Fault
        | Some (EXEC argv eargv) => while (S (Z.to_nat MAXARGS)) (nul_turn argv eargv) 0
        | Some (REDIR sub file efile mode fd) => nulterminate fuel sub ;;; put_nul efile
        | Some (PIPE l r) => nulterminate fuel l ;;; nulterminate fuel r
        | Some (LIST l r) => nulterminate fuel l ;;; nulterminate fuel r
        | Some (BACK sub) => nulterminate fuel sub
        end
  end.

(** Every level of the recursion of [parseline] but the innermost consumes a
    character of the line, and every command takes some of the [brk] bytes. *)
Definition parsecmd (s : Z) : M sh Z :=
  n <- (fun st => strlen (drop (Z.to_nat (s - buf)) (line st)) st) ;;
  let es := s + n in
  r <- parseline es (S (Z.to_nat n)) s ;;
  p <- peek es r.2 [] ;;
  if negb (p.2 =? es) then stop Panic
  else
    b <- gets brk ;;
    nulterminate (S (Z.to_nat b)) r.1 ;;; ret r.1.
End sh.

(** [echo  hi>f|(cat; ls)&] *)
Example parse_example :
  (if parsecmd 70000 80000 80000 (mkSh (str "echo  hi>f|(cat; ls)&" ++ [0; 7]) 0 ∅) is Ret (p, st)
   then Some (p, line st, cmds st !! p) else None) =
  Some (70592, [101; 99; 104; 111; 0; 32; 104; 105; 0; 102; 0; 40; 99; 97; 116; 0; 32; 108; 115; 0; 38; 0; 7], Some (BACK 70568)).
Proof. vm_compute. reflexivity. Qed.
