(* ===== verification/ShellSpec.v ===== *)
(** * What the shell's command language is (user/sh/main.c)

    Tokens, commands as trees, a reference parser on tokens and a printer.
    The parser of Shell.v is proved against the reference in ShellParse.v;
    here: every printed command is read back. *)
From stdpp Require Import base gmap list strings.
From Stdlib Require Import ZArith Lia Ascii.
From S2P Require Import Prelude Shell.

(** ** Tokens *)
Inductive token := Word (w : list Z) | Sym (c : Z) | Append.
#[global] Instance token_eq_dec : EqDecision token.
Proof. solve_decision. Defined.

Definition delim (c : Z) : bool := is_one_of whitespace c || is_one_of symbols c.

Fixpoint skip (x : list Z) : list Z :=
  match x with c :: y => if is_one_of whitespace c then skip y else x | [] => [] end.
Fixpoint word (x : list Z) : list Z :=
  match x with c :: y => if delim c then [] else c :: word y | [] => [] end.

(** The first token of a text without leading white space, and the rest. *)
Definition first_token (x : list Z) : option (token * list Z) :=
  match x with
  | [] => None
  | c :: y =>
      if c =? chr ">" then
        match y with d :: z => if d =? chr ">" then Some (Append, z) else Some (Sym c, y) | [] => Some (Sym c, y) end
      else if is_one_of symbols c then Some (Sym c, y)
      else Some (Word (word x), drop (length (word x)) x)
  end.

Fixpoint tokens_upto (n : nat) (x : list Z) : list token :=
  match n with
  | O => []
  | S n => match first_token (skip x) with None => [] | Some (t, y) => t :: tokens_upto n y end
  end.
Definition tokens (x : list Z) : list token := tokens_upto (S (length x)) x.

(** ** Commands *)
Inductive ast :=
| Exec (args : list (list Z))
| Redir (c : ast) (file : list Z) (mode fd : Z)
| Pipe (l r : ast)
| Seq (l r : ast)
| Back (c : ast).

Definition redirection : Type := list Z * Z * Z.
Definition wrap (c : ast) (rs : list redirection) : ast :=
  fold_left (fun c '(file, mode, fd) => Redir c file mode fd) rs c.

(** ** The reference parser: the rest of the tokens is returned *)
Fixpoint redirs (ts : list token) : option (list redirection * list token) :=
  match ts with
  | t :: ts' =>
      match (if bool_decide (t = Sym (chr "<")) then Some (O_RDONLY, 0)
             else if bool_decide (t = Sym (chr ">")) || bool_decide (t = Append) then Some (Z.lor O_WRONLY O_CREAT, 1)
             else None) with
      | None => Some ([], ts)
      | Some (mode, fd) =>
          match ts' with
          | Word w :: ts'' => match redirs ts'' with Some (rs, r) => Some ((w, mode, fd) :: rs, r) | None => None end
          | _ => None
          end
      end
  | [] => Some ([], [])
  end.

Definition starts (s : list Z) (ts : list token) : bool :=
  match ts with Sym c :: _ => is_one_of s c | Append :: _ => is_one_of s (chr ">") | _ => false end.

Fixpoint args (n : nat) (k : Z) (ts : list token) : option (list (list Z) * list redirection * list token) :=
  match n with
  | O => None
  | S n =>
      if starts (str "|)&;") ts then Some ([], [], ts)
      else
        match ts with
        | [] => Some ([], [], [])
        | Word w :: ts' =>
            if k + 1 >=? MAXARGS then None
            else
              match redirs ts' with
              | Some (rs, ts'') =>
                  match args n (k + 1) ts'' with Some (ws, rs', r) => Some (w :: ws, rs ++ rs', r) | None => None end
              | None => None
              end
        | _ => None
        end
  end.

Section ref.
Context (pl : list token -> option (ast * list token)).

Definition block (ts : list token) : option (ast * list token) :=
  match pl (tail ts) with
  | Some (c, ts) =>
      if starts (str ")") ts
      then match redirs (tail ts) with Some (rs, r) => Some (wrap c rs, r) | None => None end
      else None
  | None => None
  end.

Definition exec (ts : list token) : option (ast * list token) :=
  if starts (str "(") ts then block ts
  else
    match redirs ts with
    | Some (rs, ts) =>
        match args (S (length ts)) 0 ts with Some (ws, rs', r) => Some (wrap (Exec ws) (rs ++ rs'), r) | None => None end
    | None => None
    end.

Fixpoint pipe (n : nat) (ts : list token) : option (ast * list token) :=
  match n with
  | O => None
  | S n =>
      match exec ts with
      | Some (l, ts) =>
          if starts (str "|") ts
          then match pipe n (tail ts) with Some (r, ts) => Some (Pipe l r, ts) | None => None end
          else Some (l, ts)
      | None => None
      end
  end.
End ref.

Fixpoint backs (c : ast) (ts : list token) : ast * list token :=
  match ts with
  | t :: ts' => if bool_decide (t = Sym (chr "&")) then backs (Back c) ts' else (c, ts)
  | [] => (c, [])
  end.

Fixpoint commands (n : nat) (ts : list token) : option (ast * list token) :=
  match n with
  | O => None
  | S n' =>
      match pipe (commands n') n ts with
      | Some (c, ts) =>
          let '(c, ts) := backs c ts in
          if starts (str ";") ts
          then match commands n' (tail ts) with Some (r, ts) => Some (Seq c r, ts) | None => None end
          else Some (c, ts)
      | None => None
      end
  end.

(** A whole line. *)
Definition parse (ts : list token) : option ast :=
  match commands (S (length ts)) ts with Some (c, []) => Some c | _ => None end.

(** The memory a command takes. *)
Fixpoint cost (c : ast) : Z :=
  match c with
  | Exec _ => 168
  | Redir c _ _ _ => cost c + 40
  | Pipe l r => cost l + cost r + 24
  | Seq l r => cost l + cost r + 24
  | Back c => cost c + 16
  end.

(** ** Printing *)
Definition redir_token (mode : Z) : token := if mode =? O_RDONLY then Sym (chr "<") else Sym (chr ">").

(** The tokens of a command at the level of lines (0), of lines without
    [;] (1), of pipes (2) and of pipes' members (3). *)
Fixpoint print (level : nat) (c : ast) : list token :=
  let at_level n ts := if (n <? level)%nat then Sym (chr "(") :: ts ++ [Sym (chr ")")] else ts in
  match c with
  | Exec ws => Word <$> ws
  | Redir c file mode fd => Sym (chr "(") :: print 0 c ++ [Sym (chr ")"); redir_token mode; Word file]
  | Pipe l r => at_level 2%nat (print 3 l ++ Sym (chr "|") :: print 2 r)
  | Seq l r => at_level 0%nat (print 1 l ++ Sym (chr ";") :: print 0 r)
  | Back c => at_level 1%nat (print 1 c ++ [Sym (chr "&")])
  end.

Definition show_token (t : token) : list Z :=
  match t with Word w => w | Sym c => [c] | Append => str ">>" end.
Definition show (ts : list token) : list Z := concat (map (fun t => show_token t ++ [32]) ts).

(** The commands the language has: words without delimiters, the two kinds
    of redirection, fewer than [MAXARGS] arguments. *)
Definition word_ok (w : list Z) : Prop := w <> [] /\ Forall (fun c => delim c = false /\ 0 < c < 256) w.
Fixpoint ast_ok (c : ast) : Prop :=
  match c with
  | Exec ws => Forall word_ok ws /\ Z.of_nat (length ws) < MAXARGS
  | Redir c file mode fd => ast_ok c /\ word_ok file /\ ((mode = O_RDONLY /\ fd = 0) \/ (mode = Z.lor O_WRONLY O_CREAT /\ fd = 1))
  | Pipe l r | Seq l r => ast_ok l /\ ast_ok r
  | Back c => ast_ok c
  end.

Example print_parse_example :
  let c := Seq (Back (Pipe (Exec [str "a"; str "b"]) (Redir (Seq (Exec []) (Exec [str "c"])) (str "f") 0 0))) (Back (Exec [])) in
  parse (tokens (show (print 0 c))) = Some c.
Proof. vm_compute. reflexivity. Qed.

(** ** Tokens of a text *)
Lemma word_drop_length x c y : x = c :: y -> delim c = false -> (length (drop (length (word x)) x) < length x)%nat.
Proof. intros -> Hd. cbn [word]. rewrite Hd, length_drop. cbn [length]. lia. Qed.

Lemma skip_head x : match skip x with c :: _ => is_one_of whitespace c = false | [] => True end.
Proof. induction x as [|c x IH]; [done|]. cbn [skip]. destruct (is_one_of whitespace c) eqn:E; [done|]. by rewrite E. Qed.

Lemma skip_length x : (length (skip x) <= length x)%nat.
Proof. induction x as [|c x IH]; [done|]. cbn [skip]. destruct (is_one_of whitespace c); simpl; lia. Qed.

Lemma first_token_shorter x t y : first_token (skip x) = Some (t, y) -> (length y < length x)%nat.
Proof.
  pose proof (skip_head x) as Hw. pose proof (skip_length x) as Hl. destruct (skip x) as [|c z]; [done|].
  unfold first_token. destruct (c =? chr ">").
  - destruct z as [|d z']; [intros [= <- <-]; cbn [length] in Hl |- *; lia|].
    destruct (d =? chr ">"); intros [= <- <-]; cbn [length] in Hl |- *; lia.
  - destruct (is_one_of symbols c) eqn:Es; [intros [= <- <-]; cbn [length] in Hl; lia|]. intros [= <- <-].
    pose proof (word_drop_length (c :: z) c z eq_refl) as H. unfold delim in H. rewrite Hw, Es in H. specialize (H eq_refl).
    eapply Nat.lt_le_trans; [exact H|exact Hl].
Qed.

Lemma tokens_upto_enough n m x : (length x < n)%nat -> (length x < m)%nat -> tokens_upto n x = tokens_upto m x.
Proof.
  revert m x. induction n as [|n IH]; intros m x Hn Hm; [lia|]. destruct m as [|m]; [lia|]. cbn [tokens_upto].
  destruct (first_token (skip x)) as [[t y]|] eqn:E; [|done]. apply first_token_shorter in E. f_equal. apply IH; lia.
Qed.

Lemma tokens_eq x : tokens x = match first_token (skip x) with None => [] | Some (t, y) => t :: tokens y end.
Proof.
  unfold tokens at 1. cbn [tokens_upto]. destruct (first_token (skip x)) as [[t y]|] eqn:E; [|done].
  apply first_token_shorter in E. f_equal. unfold tokens. apply tokens_upto_enough; lia.
Qed.

Lemma tokens_skip x : tokens (skip x) = tokens x.
Proof. rewrite (tokens_eq x), (tokens_eq (skip x)). f_equal. f_equal.
  induction x as [|c x IH]; [done|]. cbn [skip]. destruct (is_one_of whitespace c) eqn:E; [done|]. cbn [skip]. by rewrite E. Qed.

Definition token_ok (t : token) : Prop :=
  match t with Word w => word_ok w | Sym c => is_one_of symbols c = true | Append => True end.

Lemma word_app w x : Forall (fun c => delim c = false /\ 0 < c < 256) w -> word (w ++ 32 :: x) = w.
Proof. induction 1 as [|c w [Hc _] _ IH]; [done|]. cbn [word app]. rewrite Hc. by f_equal. Qed.

Lemma is_one_of_In s c : is_one_of s c = true -> In c s.
Proof. unfold is_one_of. rewrite existsb_exists. intros (d & Hd & E). apply Z.eqb_eq in E as <-. done. Qed.

Lemma tokens_show ts : Forall token_ok ts -> tokens (show ts) = ts.
Proof.
  induction 1 as [|t ts Ht _ IH]; [done|].
  change (show (t :: ts)) with ((show_token t ++ [32]) ++ show ts). rewrite <- app_assoc. change ([32] ++ show ts) with (32 :: show ts).
  assert (H32 : tokens (32 :: show ts) = ts) by (rewrite <- tokens_skip; cbn [skip]; change (is_one_of whitespace 32) with true; cbn iota; by rewrite tokens_skip).
  rewrite tokens_eq. destruct t as [w|c|]; cbn [show_token].
  - destruct Ht as [Hne Hw]. destruct w as [|c w]; [done|]. pose proof (Forall_inv Hw) as [Hc _].
    assert (is_one_of whitespace c = false /\ is_one_of symbols c = false) as [Hc1 Hc2] by (unfold delim in Hc; by apply orb_false_iff in Hc).
    cbn [app skip]. rewrite Hc1. unfold first_token.
    assert (c =? chr ">" = false) as ->.
    { apply Z.eqb_neq. intros ->. discriminate Hc2. }
    rewrite Hc2. change (c :: w ++ 32 :: show ts) with ((c :: w) ++ 32 :: show ts). rewrite (word_app (c :: w)) by done.
    rewrite drop_app_length. by rewrite H32.
  - pose proof (is_one_of_In _ _ Ht) as Hin. cbn [app].
    assert (skip (c :: 32 :: show ts) = c :: 32 :: show ts /\ first_token (c :: 32 :: show ts) = Some (Sym c, 32 :: show ts)) as [-> ->]; [|by rewrite H32].
    simpl in Hin. repeat (destruct Hin as [<-|Hin]; [done|]). done.
  - change (str ">>" ++ 32 :: show ts) with (62 :: 62 :: 32 :: show ts). change (skip _) with (62 :: 62 :: 32 :: show ts).
    change (first_token _) with (Some (Append, 32 :: show ts)). cbn iota beta. by rewrite H32.
Qed.

(** ** Reading what was printed *)

(** The tokens that may follow. *)
Definition follow (s : list Z) (ts : list token) : Prop := ts = [] \/ exists c r, ts = Sym c :: r /\ In c s.

Lemma redirs_follow ts : follow (str "|)&;") ts -> redirs ts = Some ([], ts).
Proof. intros [->|(c & r & -> & Hin)]; [done|]. simpl in Hin. repeat (destruct Hin as [<-|Hin]; [done|]). done. Qed.

Lemma starts_follow s ts c : follow s ts -> (forall d, In d s -> is_one_of c d = false) -> starts c ts = false.
Proof. intros [->|(d & r & -> & Hin)] H; [done|]. cbn. by apply H. Qed.

Lemma follow_weaken s s' ts : follow s ts -> (forall d, In d s -> In d s') -> follow s' ts.
Proof. intros [->|(d & r & -> & Hin)] H; [by left|]. right. exists d, r. auto. Qed.

(** [reads_n X c]: at that level the tokens [X] are read as [c]. *)
Definition reads3 (X : list token) (c : ast) : Prop :=
  forall n ts, follow (str "|)&;") ts -> (length X <= n)%nat -> exec (commands n) (X ++ ts) = Some (c, ts).
Definition reads2 (X : list token) (c : ast) : Prop :=
  forall n m ts, follow (str ")&;") ts -> (length X <= n)%nat -> (length X < m)%nat -> pipe (commands n) m (X ++ ts) = Some (c, ts).
Definition reads1 (X : list token) (c : ast) : Prop :=
  forall n m ts, follow (str ")&;") ts -> (length X <= n)%nat -> (length X < m)%nat ->
    exists c0 ts0, pipe (commands n) m (X ++ ts) = Some (c0, ts0) /\ backs c0 ts0 = backs c ts.
Definition reads0 (X : list token) (c : ast) : Prop :=
  forall n ts, follow (str ")") ts -> (length X < n)%nat -> commands n (X ++ ts) = Some (c, ts).

Ltac in_str := let d := fresh "d" in let H := fresh in intros d H; simpl in H |- *; repeat (destruct H as [<-|H]; [first [done | auto 6]|]); done.

Lemma reads3_2 X c : reads3 X c -> reads2 X c.
Proof.
  intros H n m ts Hf Hn Hm. destruct m as [|m]; [lia|]. cbn [pipe].
  rewrite H; [|eapply follow_weaken; [done|in_str]|done]. by rewrite (starts_follow _ _ _ Hf) by in_str.
Qed.

Lemma reads2_1 X c : reads2 X c -> reads1 X c.
Proof. intros H n m ts Hf Hn Hm. exists c, ts. split; [by apply H|done]. Qed.

Lemma backs_follow c ts s : follow s ts -> ~ In (chr "&") s -> backs c ts = (c, ts).
Proof. intros [->|(d & r & -> & Hin)] H; [done|]. cbn [backs]. rewrite bool_decide_eq_false_2; [done|]. intros [= ->]. done. Qed.

Lemma reads1_0 X c : reads1 X c -> reads0 X c.
Proof.
  intros H n ts Hf Hn. destruct n as [|n]; [lia|]. cbn [commands].
  destruct (H n (S n) ts) as (c0 & ts0 & -> & ->); [eapply follow_weaken; [done|in_str]|lia|lia|].
  rewrite (backs_follow _ _ _ Hf) by (simpl; intros [?|?]; done). by rewrite (starts_follow _ _ _ Hf) by in_str.
Qed.

Lemma reads0_block X c rs R :
  reads0 X c -> (forall ts, follow (str "|)&;") ts -> redirs (R ++ ts) = Some (rs, ts)) -> reads3 (Sym (chr "(") :: X ++ Sym (chr ")") :: R) (wrap c rs).
Proof.
  intros H HR n ts Hf Hn. unfold exec. change (starts (str "(") _) with true. cbn iota. unfold block. cbn [tail app].
  rewrite <- app_assoc. cbn [length] in Hn. rewrite length_app in Hn. cbn [length] in Hn. rewrite H; [|right; eexists _, _; split; [done|by left]|lia].
  change (starts (str ")") _) with true. cbn iota. cbn [tail app]. by rewrite HR.
Qed.

Lemma reads0_3 X c : reads0 X c -> reads3 (Sym (chr "(") :: X ++ [Sym (chr ")")]) c.
Proof. intros H. apply (reads0_block X c [] []); [done|]. apply redirs_follow. Qed.

Lemma args_words n k ws ts :
  follow (str "|)&;") ts -> k + Z.of_nat (length ws) < MAXARGS -> (length ws < n)%nat ->
  args n k ((Word <$> ws) ++ ts) = Some (ws, [], ts).
Proof.
  intros Hf. revert n k. induction ws as [|w ws IH]; intros n k Hk Hn; (destruct n as [|n]; [lia|]).
  - cbn [args fmap list_fmap app]. destruct Hf as [->|(c & r & -> & Hin)]; [done|]. simpl in Hin. repeat (destruct Hin as [<-|Hin]; [done|]). done.
  - rewrite fmap_cons. cbn [args app starts]. cbn [length] in Hk, Hn.
    destruct (k + 1 >=? MAXARGS) eqn:E; [lia|].
    assert (redirs ((Word <$> ws) ++ ts) = Some ([], (Word <$> ws) ++ ts)) as ->.
    { destruct ws as [|w' ws]; [by apply redirs_follow|done]. }
    rewrite IH by lia. done.
Qed.

Lemma reads3_words ws : Z.of_nat (length ws) < MAXARGS -> reads3 (Word <$> ws) (Exec ws).
Proof.
  intros Hk n ts Hf Hn. unfold exec.
  assert (starts (str "(") ((Word <$> ws) ++ ts) = false) as ->.
  { destruct ws as [|w ws]; [|done]. by rewrite (starts_follow _ _ _ Hf) by in_str. }
  assert (redirs ((Word <$> ws) ++ ts) = Some ([], (Word <$> ws) ++ ts)) as ->.
  { destruct ws as [|w' ws]; [by apply redirs_follow|done]. }
  rewrite args_words; [done|done|lia|]. rewrite length_app, length_fmap. lia.
Qed.

Lemma reads_pipe X Y l r : reads3 X l -> reads2 Y r -> reads2 (X ++ Sym (chr "|") :: Y) (Pipe l r).
Proof.
  intros HX HY n m ts Hf Hn Hm. rewrite length_app in Hn, Hm. cbn [length] in Hn, Hm. destruct m as [|m]; [lia|]. cbn [pipe].
  rewrite <- app_assoc. cbn [app]. rewrite HX; [|right; eexists _, _; split; [done|by left]|lia].
  change (starts (str "|") _) with true. cbn iota. cbn [tail]. rewrite HY; [done|done|lia|lia].
Qed.

Lemma reads_back X c : reads1 X c -> reads1 (X ++ [Sym (chr "&")]) (Back c).
Proof.
  intros HX n m ts Hf Hn Hm. rewrite length_app in Hn, Hm. cbn [length] in Hn, Hm. rewrite <- app_assoc. cbn [app].
  destruct (HX n m (Sym (chr "&") :: ts)) as (c0 & ts0 & E & Eb); [right; eexists _, _; split; [done|]; simpl; auto|lia|lia|].
  exists c0, ts0. split; [done|]. rewrite Eb. cbn [backs]. by rewrite bool_decide_eq_true_2.
Qed.

Lemma reads_seq X Y l r : reads1 X l -> reads0 Y r -> reads0 (X ++ Sym (chr ";") :: Y) (Seq l r).
Proof.
  intros HX HY n ts Hf Hn. rewrite length_app in Hn. cbn [length] in Hn. destruct n as [|n]; [lia|]. cbn [commands].
  rewrite <- app_assoc. cbn [app].
  destruct (HX n (S n) (Sym (chr ";") :: Y ++ ts)) as (c0 & ts0 & -> & ->); [right; eexists _, _; split; [done|]; simpl; auto|lia|lia|].
  cbn [backs]. rewrite bool_decide_eq_false_2 by done. change (starts (str ";") _) with true. cbn iota. cbn [tail].
  rewrite HY; [done|done|lia].
Qed.

Lemma reads_redir X c file mode fd :
  reads0 X c -> (mode = O_RDONLY /\ fd = 0) \/ (mode = Z.lor O_WRONLY O_CREAT /\ fd = 1) ->
  reads3 (Sym (chr "(") :: X ++ [Sym (chr ")"); redir_token mode; Word file]) (Redir c file mode fd).
Proof.
  intros HX Hm. apply (reads0_block X c [(file, mode, fd)]); [done|]. intros ts Hf.
  destruct Hm as [[-> ->]|[-> ->]]; cbn [app]; cbn [redirs].
  - rewrite bool_decide_eq_true_2 by done. by rewrite redirs_follow.
  - rewrite bool_decide_eq_false_2 by done. rewrite bool_decide_eq_true_2 by done. cbn [orb]. by rewrite redirs_follow.
Qed.

(** A command in parentheses can stand at every level. *)
Lemma reads_levels X0 X1 X2 X3 c :
  reads0 X0 c -> (X1 = Sym (chr "(") :: X0 ++ [Sym (chr ")")] \/ reads1 X1 c) ->
  (X2 = Sym (chr "(") :: X0 ++ [Sym (chr ")")] \/ reads2 X2 c) -> (X3 = Sym (chr "(") :: X0 ++ [Sym (chr ")")] \/ reads3 X3 c) ->
  reads0 X0 c /\ reads1 X1 c /\ reads2 X2 c /\ reads3 X3 c.
Proof.
  intros H0 H1 H2 H3. pose proof (reads0_3 _ _ H0) as Hp. pose proof (reads3_2 _ _ Hp) as Hp2. pose proof (reads2_1 _ _ Hp2) as Hp1.
  repeat split; [done|by destruct H1 as [->|]|by destruct H2 as [->|]|by destruct H3 as [->|]].
Qed.

Lemma reads_print c :
  ast_ok c -> reads0 (print 0 c) c /\ reads1 (print 1 c) c /\ reads2 (print 2 c) c /\ reads3 (print 3 c) c.
Proof.
  induction c as [ws|c IH file mode fd|l IHl r IHr|l IHl r IHr|c IH]; cbn [ast_ok].
  - intros [_ Hk]. pose proof (reads3_words ws Hk) as H3. pose proof (reads3_2 _ _ H3) as H2. pose proof (reads2_1 _ _ H2) as H1.
    apply reads_levels; auto using reads1_0.
  - intros (Hc & _ & Hm). destruct (IH Hc) as (H0 & _). pose proof (reads_redir _ c file mode fd H0 Hm) as H3.
    pose proof (reads3_2 _ _ H3) as H2. pose proof (reads2_1 _ _ H2) as H1. apply reads_levels; auto using reads1_0.
  - intros [Hl Hr]. destruct (IHl Hl) as (_ & _ & _ & L3). destruct (IHr Hr) as (_ & _ & R2 & _).
    pose proof (reads_pipe _ _ _ _ L3 R2) as H2. pose proof (reads2_1 _ _ H2) as H1. apply reads_levels; auto using reads1_0.
  - intros [Hl Hr]. destruct (IHl Hl) as (_ & L1 & _). destruct (IHr Hr) as (R0 & _).
    pose proof (reads_seq _ _ _ _ L1 R0) as H0. apply reads_levels; auto.
  - intros Hc. destruct (IH Hc) as (_ & C1 & _). pose proof (reads_back _ _ C1) as H1. apply reads_levels; auto using reads1_0.
Qed.

Lemma print_tokens_ok c n : ast_ok c -> Forall token_ok (print n c).
Proof.
  assert (Hp : forall b X, Forall token_ok X -> Forall token_ok (if b : bool then Sym (chr "(") :: X ++ [Sym (chr ")")] else X)).
  { intros b X HX. destruct b; [|done]. constructor; [done|]. apply Forall_app. split; [done|]. by repeat constructor. }
  revert n. induction c as [ws|c IH file mode fd|l IHl r IHr|l IHl r IHr|c IH]; intros n; cbn [ast_ok print].
  - intros [Hw _]. by apply Forall_fmap.
  - intros (Hc & Hf & Hm). constructor; [done|]. apply Forall_app. split; [by apply IH|].
    constructor; [done|]. constructor; [by destruct Hm as [[-> _]|[-> _]]|].
    constructor; [done|constructor].
  - intros [Hl Hr]. apply Hp, Forall_app. split; [by apply IHl|]. constructor; [done|by apply IHr].
  - intros [Hl Hr]. apply Hp, Forall_app. split; [by apply IHl|]. constructor; [done|by apply IHr].
  - intros Hc. apply Hp, Forall_app. split; [by apply IH|]. by repeat constructor.
Qed.

Lemma show_pos ts : Forall token_ok ts -> Forall (fun c => 0 < c) (show ts).
Proof.
  induction 1 as [|t ts Ht _ IH]; [done|]. change (show (t :: ts)) with ((show_token t ++ [32]) ++ show ts).
  apply Forall_app. split; [|done]. apply Forall_app. split; [|by repeat constructor]. destruct t as [w|c|]; cbn [show_token].
  - destruct Ht as [_ Ht]. eapply Forall_impl; [exact Ht|]. cbn. lia.
  - constructor; [|done]. apply is_one_of_In in Ht. simpl in Ht. repeat (destruct Ht as [<-|Ht]; [done|]). done.
  - by repeat constructor.
Qed.

Lemma parse_print c : ast_ok c -> parse (tokens (show (print 0 c))) = Some c.
Proof.
  intros Hc. rewrite tokens_show by by apply print_tokens_ok. destruct (reads_print c Hc) as (H0 & _).
  unfold parse. specialize (H0 (S (length (print 0 c))) [] ltac:(by left) ltac:(lia)). rewrite app_nil_r in H0. by rewrite H0.
Qed.

(** ** What is left of the tokens *)
Definition redir_kind (t : token) : option (Z * Z) :=
  if bool_decide (t = Sym (chr "<")) then Some (O_RDONLY, 0)
  else if bool_decide (t = Sym (chr ">")) || bool_decide (t = Append) then Some (Z.lor O_WRONLY O_CREAT, 1) else None.

Lemma redirs_cons t ts :
  redirs (t :: ts) =
    match redir_kind t with
    | None => Some ([], t :: ts)
    | Some (mode, fd) =>
        match ts with
        | Word w :: ts' => match redirs ts' with Some (rs, r) => Some ((w, mode, fd) :: rs, r) | None => None end
        | _ => None
        end
    end.
Proof. done. Qed.

Lemma redirs_length ts rs r : redirs ts = Some (rs, r) -> (length r <= length ts)%nat.
Proof.
  revert rs r. induction ts as [ts IH] using (induction_ltof1 _ (@length token)). intros rs r. destruct ts as [|t ts]; [by intros [= <- <-]|].
  rewrite redirs_cons. destruct (redir_kind t) as [[mode fd]|]; [|by intros [= <- <-]].
  destruct ts as [|[w| |] ts]; [done| |done|done]. destruct (redirs ts) as [[rs' r']|] eqn:E; [|done]. intros [= <- <-].
  specialize (IH ts ltac:(unfold ltof; simpl; lia) _ _ E). simpl. lia.
Qed.

Lemma args_length n k0 ts ws rs r : args n k0 ts = Some (ws, rs, r) -> (length r <= length ts)%nat.
Proof.
  revert k0 ts ws rs. induction n as [|n IH]; intros k0 ts ws rs; [done|]. cbn [args]. destruct (starts _ ts); [by intros [= <- <- <-]|].
  destruct ts as [|[w| |] ts]; [by intros [= <- <- <-]| |done|done]. destruct (_ >=? _); [done|].
  destruct (redirs ts) as [[rs' ts']|] eqn:Er; [|done]. destruct (args n (k0 + 1) ts') as [[[ws'' rs''] r']|] eqn:E; [|done]. intros [= <- <- <-].
  apply redirs_length in Er. apply IH in E. simpl. lia.
Qed.

Lemma starts_tail s ts : starts s ts = true -> exists t ts', ts = t :: ts'.
Proof. destruct ts as [|t ts]; [done|eauto]. Qed.

Section lengths.
Context (pl : list token -> option (ast * list token)).
Hypothesis Hpl : forall ts t r, pl ts = Some (t, r) -> (length r <= length ts)%nat.

Lemma exec_length ts t r : exec pl ts = Some (t, r) -> (length r <= length ts)%nat.
Proof.
  unfold exec, block. destruct (starts _ ts) eqn:E.
  - destruct (starts_tail _ _ E) as (t0 & ts0 & ->). cbn [tail]. destruct (pl ts0) as [[c ts1]|] eqn:E1; [|done]. apply Hpl in E1.
    destruct (starts _ ts1) eqn:E2; [|done]. destruct (starts_tail _ _ E2) as (t2 & ts2 & ->). cbn [tail].
    destruct (redirs ts2) as [[rs r']|] eqn:Er; [|done]. intros [= <- <-]. apply redirs_length in Er. simpl in *. lia.
  - destruct (redirs ts) as [[rs ts']|] eqn:Er; [|done]. destruct (args _ _ ts') as [[[ws rs'] r']|] eqn:Ea; [|done]. intros [= <- <-].
    apply redirs_length in Er. apply args_length in Ea. lia.
Qed.

Lemma pipe_length n ts t r : pipe pl n ts = Some (t, r) -> (length r <= length ts)%nat.
Proof.
  revert ts t. induction n as [|n IH]; intros ts t; [done|]. cbn [pipe]. destruct (exec pl ts) as [[l ts1]|] eqn:E; [|done]. apply exec_length in E.
  destruct (starts _ ts1) eqn:E2; [|by intros [= <- <-]]. destruct (starts_tail _ _ E2) as (t2 & ts2 & ->). cbn [tail].
  destruct (pipe pl n ts2) as [[t' r']|] eqn:E3; [|done]. intros [= <- <-]. apply IH in E3. simpl in *. lia.
Qed.
End lengths.

Lemma backs_length c ts : (length (backs c ts).2 <= length ts)%nat.
Proof. revert c. induction ts as [|t ts IH]; intros c; [done|]. cbn [backs]. destruct (bool_decide _); [|done]. specialize (IH (Back c)). simpl. lia. Qed.

Lemma backs_cost c ts : cost c <= cost (backs c ts).1.
Proof. revert c. induction ts as [|t ts IH]; intros c; [done|]. cbn [backs]. destruct (bool_decide _); [|done]. specialize (IH (Back c)). cbn [cost] in IH. lia. Qed.

Lemma commands_length n ts t r : commands n ts = Some (t, r) -> (length r <= length ts)%nat.
Proof.
  revert ts t r. induction n as [|n IH]; intros ts t r; [done|]. cbn [commands].
  destruct (pipe _ _ ts) as [[c ts1]|] eqn:E; [|done]. apply (pipe_length _ IH) in E. pose proof (backs_length c ts1) as Hb.
  destruct (backs c ts1) as [c' ts2]. cbn [snd] in Hb. destruct (starts _ ts2) eqn:E2; [|intros [= <- <-]; lia].
  destruct (starts_tail _ _ E2) as (t2 & ts3 & ->). cbn [tail]. destruct (commands n ts3) as [[t' r']|] eqn:E3; [|done]. intros [= <- <-].
  apply IH in E3. simpl in *. lia.
Qed.

(** Enough fuel is enough. *)
Section fuel.
Context (pl pl' : list token -> option (ast * list token)).
Hypothesis Hlen : forall ts t r, pl ts = Some (t, r) -> (length r <= length ts)%nat.

Lemma exec_enough ts : (forall ts', (length ts' < length ts)%nat -> pl ts' = pl' ts') -> exec pl ts = exec pl' ts.
Proof.
  intros H. unfold exec, block. destruct (starts _ ts) eqn:E; [|done]. destruct (starts_tail _ _ E) as (t0 & ts0 & ->). cbn [tail].
  by rewrite H by (simpl; lia).
Qed.

Lemma pipe_enough n m ts :
  (forall ts', (length ts' < length ts)%nat -> pl ts' = pl' ts') -> (length ts < n)%nat -> (length ts < m)%nat -> pipe pl n ts = pipe pl' m ts.
Proof.
  revert m ts. induction n as [|n IH]; intros m ts H Hn Hm; [lia|]. destruct m as [|m]; [lia|]. cbn [pipe]. rewrite <- (exec_enough ts H).
  destruct (exec pl ts) as [[l ts1]|] eqn:E; [|done]. apply (exec_length _ Hlen) in E. destruct (starts _ ts1) eqn:E2; [|done].
  destruct (starts_tail _ _ E2) as (t2 & ts2 & ->). cbn [tail length] in *. rewrite (IH m ts2); [done| |lia|lia]. intros ts' Hl. apply H. lia.
Qed.
End fuel.

Lemma commands_enough n m ts : (length ts < n)%nat -> (length ts < m)%nat -> commands n ts = commands m ts.
Proof.
  revert m ts. induction n as [|n IH]; intros m ts Hn Hm; [lia|]. destruct m as [|m]; [lia|]. cbn [commands].
  rewrite (pipe_enough (commands n) (commands m) (commands_length n) (S n) (S m) ts); [|intros ts' Hl; apply IH; lia|lia|lia].
  destruct (pipe (commands m) (S m) ts) as [[c ts1]|] eqn:E; [|done]. apply (pipe_length _ (commands_length m)) in E.
  pose proof (backs_length c ts1) as Hb. destruct (backs c ts1) as [c' ts2]. cbn [snd] in Hb. destruct (starts _ ts2) eqn:E2; [|done].
  destruct (starts_tail _ _ E2) as (t2 & ts3 & ->). cbn [tail length] in *. rewrite (IH m ts3) by lia. done.
Qed.

(** Redirections only concern the standard descriptors 0 and 1. *)
Fixpoint fds_ok (c : ast) : Prop :=
  match c with
  | Exec _ => True
  | Redir c _ _ fd => (fd = 0 \/ fd = 1) /\ fds_ok c
  | Pipe l r | Seq l r => fds_ok l /\ fds_ok r
  | Back c => fds_ok c
  end.

Definition redir_ok (r : redirection) : Prop := r.2 = 0 \/ r.2 = 1.

Lemma wrap_fds c rs : fds_ok c -> Forall redir_ok rs -> fds_ok (wrap c rs).
Proof. unfold wrap. intros Hc Hrs. revert c Hc. induction Hrs as [|[[file mode] fd] rs Hr _ IH]; intros c Hc; [done|]. cbn [fold_left]. by apply IH. Qed.

Lemma redirs_fds ts rs r : redirs ts = Some (rs, r) -> Forall redir_ok rs.
Proof.
  revert rs r. induction ts as [ts IH] using (induction_ltof1 _ (@length token)). intros rs r. destruct ts as [|t ts]; [intros [= <- <-]; constructor|].
  rewrite redirs_cons. destruct (redir_kind t) as [[mode fd]|] eqn:Ek; [|intros [= <- <-]; constructor].
  destruct ts as [|[w| |] ts]; [done| |done|done]. destruct (redirs ts) as [[rs' r']|] eqn:E; [|done]. intros [= <- <-].
  constructor; [|by apply (IH ts ltac:(unfold ltof; simpl; lia) _ _ E)]. unfold redir_kind in Ek. unfold redir_ok. cbn [snd].
  destruct (bool_decide _); [injection Ek as <- <-; by left|]. destruct (_ || _); [injection Ek as <- <-; by right|done].
Qed.

Lemma args_fds n k ts ws rs r : args n k ts = Some (ws, rs, r) -> Forall redir_ok rs.
Proof.
  revert k ts ws rs. induction n as [|n IH]; intros k ts ws rs; [done|]. cbn [args]. destruct (starts _ ts); [intros [= <- <- <-]; constructor|].
  destruct ts as [|[w| |] ts]; [intros [= <- <- <-]; constructor| |done|done]. destruct (_ >=? _); [done|].
  destruct (redirs ts) as [[rs' ts']|] eqn:Er; [|done]. destruct (args n (k + 1) ts') as [[[ws'' rs''] r']|] eqn:E; [|done]. intros [= <- <- <-].
  apply Forall_app. split; [by eapply redirs_fds|by eapply IH].
Qed.

Lemma commands_fds n ts c r : commands n ts = Some (c, r) -> fds_ok c.
Proof.
  revert ts c r. induction n as [|n IH]; intros ts c r; [done|]. cbn [commands].
  assert (Hexec : forall ts c r, exec (commands n) ts = Some (c, r) -> fds_ok c).
  { clear ts c r. intros ts c r. unfold exec, block. destruct (starts _ ts).
    - destruct (commands n (tail ts)) as [[c1 ts1]|] eqn:E1; [|done]. destruct (starts _ ts1); [|done].
      destruct (redirs (tail ts1)) as [[rs r']|] eqn:Er; [|done]. intros [= <- <-]. apply wrap_fds; [by eapply IH|by eapply redirs_fds].
    - destruct (redirs ts) as [[rs ts']|] eqn:Er; [|done]. destruct (args _ _ ts') as [[[ws rs'] r']|] eqn:Ea; [|done]. intros [= <- <-].
      apply wrap_fds; [done|]. apply Forall_app. split; [by eapply redirs_fds|by eapply args_fds]. }
  assert (Hpipe : forall m ts c r, pipe (commands n) m ts = Some (c, r) -> fds_ok c).
  { clear ts c r. induction m as [|m IHm]; intros ts c r; [done|]. cbn [pipe]. destruct (exec _ ts) as [[l ts1]|] eqn:E; [|done]. apply Hexec in E.
    destruct (starts _ ts1); [|by intros [= <- <-]]. destruct (pipe _ m (tail ts1)) as [[t' r']|] eqn:E3; [|done]. intros [= <- <-]. split; [done|by eapply IHm]. }
  destruct (pipe _ _ ts) as [[c1 ts1]|] eqn:E; [|done]. apply Hpipe in E.
  assert (Hb : fds_ok (backs c1 ts1).1).
  { clear -E. revert c1 E. induction ts1 as [|t ts IH]; intros c E; [done|]. cbn [backs]. destruct (bool_decide _); [|done]. by apply IH. }
  destruct (backs c1 ts1) as [c' ts2]. cbn [fst] in Hb. destruct (starts _ ts2); [|by intros [= <- <-]].
  destruct (commands n (tail ts2)) as [[t' r']|] eqn:E3; [|done]. intros [= <- <-]. split; [done|by eapply IH].
Qed.

Lemma parse_fds ts c : parse ts = Some c -> fds_ok c.
Proof. unfold parse. destruct (commands _ _) as [[c' [|]]|] eqn:E; [|done|done]. intros [= <-]. by eapply commands_fds. Qed.
