(* ===== verification/ShellParse.v ===== *)
(** * The shell's parser against its reference (user/sh/main.c)

    What [parsecmd] of Shell.v builds for a line, in terms of the tokens and
    the reference parser of ShellSpec.v, and what [nulterminate] leaves of
    the line: every word is a string of its own. *)
From stdpp Require Import base gmap list strings.
From Stdlib Require Import ZArith Lia Ascii.
From S2P Require Import Prelude Bytes CString Shell ShellSpec.

(** ** Commands in memory *)

(** [repr W h lo hi p t]: the objects of [h] at [lo..hi) that [p] leads to
    are the tree [t]; [W q eq w] says that [q] and [eq] stand for the word [w]. *)
Section repr.
Context (W : Z -> Z -> list Z -> Prop) (h : gmap Z cmd) (lo hi : Z).

Definition argv_of (qes : list (Z * Z)) : cmd :=
  EXEC (qes.*1 ++ replicate (10 - length qes) 0) (qes.*2 ++ replicate (10 - length qes) 0).

Fixpoint repr (p : Z) (t : ast) : Prop :=
  lo <= p < hi /\
  match t with
  | Exec ws => exists qes, h !! p = Some (argv_of qes) /\ Forall2 (fun qe w => W qe.1 qe.2 w) qes ws /\ (length qes < 10)%nat
  | Redir c file mode fd => exists p' q e, h !! p = Some (REDIR p' q e mode fd) /\ W q e file /\ repr p' c
  | Pipe l r => exists pl pr, h !! p = Some (PIPE pl pr) /\ repr pl l /\ repr pr r
  | Seq l r => exists pl pr, h !! p = Some (LIST pl pr) /\ repr pl l /\ repr pr r
  | Back c => exists p', h !! p = Some (BACK p') /\ repr p' c
  end.

(** Redirections put around [p0], the innermost first. *)
Fixpoint chain (p0 : Z) (rs : list redirection) (r : Z) : Prop :=
  match rs with
  | [] => r = p0
  | (file, mode, fd) :: rs => exists p1 q e, lo <= p1 < hi /\ h !! p1 = Some (REDIR p0 q e mode fd) /\ W q e file /\ chain p1 rs r
  end.

Lemma redirs_chain_app p0 rs rs' r : chain p0 (rs ++ rs') r <-> exists p, chain p0 rs p /\ chain p rs' r.
Proof.
  revert p0. induction rs as [|[[file mode] fd] rs IH]; intros p0; cbn [chain app].
  - split; [intros H; by exists p0|by intros (p & -> & H)].
  - setoid_rewrite IH. split; [intros (p1 & q & e & H1 & H2 & H3 & p & H4 & H5)|intros (p & (p1 & q & e & H1 & H2 & H3 & H4) & H5)]; eauto 10.
Qed.

Lemma chain_repr p0 t rs r : repr p0 t -> chain p0 rs r -> repr r (wrap t rs).
Proof.
  unfold wrap. revert p0 t. induction rs as [|[[file mode] fd] rs IH]; intros p0 t Hp; cbn [chain fold_left].
  - by intros ->.
  - intros (p1 & q & e & Hb & H1 & H2 & H3). eapply IH; [|done]. cbn [repr]. eauto 10.
Qed.
End repr.

Lemma repr_frame W h h' lo hi lo' hi' p t :
  (forall q, lo <= q < hi -> h' !! q = h !! q) -> lo' <= lo -> hi <= hi' -> repr W h lo hi p t -> repr W h' lo' hi' p t.
Proof.
  intros Hh Hlo Hhi. revert p.
  induction t as [ws|c IH file mode fd|l IHl r IHr|l IHl r IHr|c IH]; intros p; cbn [repr]; intros [Hp H]; rewrite Hh by done.
  - split; [lia|done].
  - destruct H as (p' & q & e & H1 & H2 & H3). split; [lia|]. eauto 10.
  - destruct H as (pl & pr & H1 & H2 & H3). split; [lia|]. eauto 10.
  - destruct H as (pl & pr & H1 & H2 & H3). split; [lia|]. eauto 10.
  - destruct H as (p' & H1 & H2). split; [lia|]. eauto 10.
Qed.

Lemma chain_frame W h h' lo hi lo' hi' p rs r :
  (forall q, lo <= q < hi -> h' !! q = h !! q) -> lo' <= lo -> hi <= hi' -> chain W h lo hi p rs r -> chain W h' lo' hi' p rs r.
Proof.
  intros Hh Hlo Hhi. revert p. induction rs as [|[[file mode] fd] rs IH]; intros p; cbn [chain]; [done|].
  intros (p1 & q & e & Hb & H1 & H2 & H3). exists p1, q, e. rewrite Hh by done. repeat split; try lia; auto.
Qed.

Lemma repr_words (W W' : Z -> Z -> list Z -> Prop) h lo hi p t : (forall q e w, W q e w -> W' q e w) -> repr W h lo hi p t -> repr W' h lo hi p t.
Proof.
  intros HW. revert p. induction t as [ws|c IH file mode fd|l IHl r IHr|l IHl r IHr|c IH]; intros p; cbn [repr]; intros [Hp H]; (split; [done|]).
  - destruct H as (qes & H1 & H2 & H3). exists qes. split; [done|]. split; [|done]. eapply Forall2_impl; [done|]. auto.
  - destruct H as (p' & q & e & H1 & H2 & H3). eauto 10.
  - destruct H as (pl & pr & H1 & H2 & H3). eauto 10.
  - destruct H as (pl & pr & H1 & H2 & H3). eauto 10.
  - destruct H as (p' & H1 & H2). eauto 10.
Qed.

(** ** The text *)
Section text.
Context (mem buf : Z) (X J : list Z).
Hypothesis HX : Forall (fun c => 0 < c) X.
Hypothesis Hmem : 0 < mem.
Hypothesis Hbuf : 0 < buf.
Local Notation L := (X ++ 0 :: J).
Local Notation es := (buf + Z.of_nat (length X)).

Definition rest_at (s : Z) (x : list Z) : Prop := exists pre, X = pre ++ x /\ s = buf + Z.of_nat (length pre).
Definition at_tok (s : Z) (ts : list token) : Prop := exists x, rest_at s x /\ tokens x = ts.

(** The word [w] stands at [q..e) and a delimiter or the end follows. *)
Definition tok_in (q e : Z) (w : list Z) : Prop :=
  exists pre y, X = pre ++ w ++ y /\ q = buf + Z.of_nat (length pre) /\ e = q + Z.of_nat (length w) /\
    Forall (fun c => delim c = false) w /\ match y with c :: _ => delim c = true | [] => True end.

Lemma rest_end s x : rest_at s x -> es - s = Z.of_nat (length x).
Proof. intros (pre & E & ->). rewrite E, length_app. lia. Qed.

Lemma rest_cons s c x : rest_at s (c :: x) -> rest_at (s + 1) x.
Proof. intros (pre & E & ->). exists (pre ++ [c]). rewrite length_app, <- app_assoc. split; [done|simpl; lia]. Qed.

Lemma rest_app s x y : rest_at s (x ++ y) -> rest_at (s + Z.of_nat (length x)) y.
Proof. intros (pre & E & ->). exists (pre ++ x). rewrite length_app, <- app_assoc. split; [done|lia]. Qed.

Lemma rest_pos s c x : rest_at s (c :: x) -> 0 < c.
Proof. intros (pre & E & _). rewrite E in HX. apply Forall_app in HX as [_ H]. by apply Forall_inv in H. Qed.

Lemma getc_at s x st : line st = L -> rest_at s x -> getc buf s st = Ret (hd 0 x, st).
Proof.
  intros HL (pre & E & ->). unfold getc, rd. rewrite HL, E. replace (buf + _ - buf) with (Z.of_nat (length pre)) by lia.
  rewrite (proj2 (Z.leb_le 0 _)) by lia. rewrite Nat2Z.id, <- app_assoc, lookup_app_r, Nat.sub_diag by lia. by destruct x.
Qed.

Lemma strchr_nonzero l c : 0 < c -> strchr l c = is_one_of l c.
Proof. intros Hc. unfold strchr. by rewrite (proj2 (Z.eqb_neq c 0)) by lia. Qed.

Lemma skip_space_at s x st : line st = L -> rest_at s x -> exists s', skip_space buf es s st = Ret (s', st) /\ rest_at s' (skip x).
Proof.
  intros HL Hs. unfold skip_space. rewrite (rest_end _ _ Hs), Nat2Z.id. generalize (Nat.lt_succ_diag_r (length x)). generalize (S (length x)) as fuel.
  intros fuel. revert s x Hs. induction fuel as [|fuel IH]; intros s x Hs Hf; [lia|]. rewrite while_S.
  pose proof (rest_end _ _ Hs) as He. destruct x as [|c x]; cbn [length] in He, Hf.
  - rewrite (proj2 (Z.ltb_ge _ _)) by lia. exists s. split; [done|done].
  - rewrite (proj2 (Z.ltb_lt _ _)) by lia. rewrite bind_assoc, (bind_Ret _ _ _ _ _ (getc_at _ _ _ HL Hs)). cbn [hd skip].
    rewrite (strchr_nonzero _ _ (rest_pos _ _ _ Hs)). destruct (is_one_of whitespace c).
    + rewrite (bind_Ret _ _ _ _ _ eq_refl). apply IH; [by apply rest_cons in Hs|lia].
    + exists s. split; [done|done].
Qed.

Lemma skip_word_at s x st : line st = L -> rest_at s x -> skip_word buf es s st = Ret (s + Z.of_nat (length (word x)), st).
Proof.
  intros HL Hs. unfold skip_word. rewrite (rest_end _ _ Hs), Nat2Z.id. generalize (Nat.lt_succ_diag_r (length x)). generalize (S (length x)) as fuel.
  intros fuel. revert s x Hs. induction fuel as [|fuel IH]; intros s x Hs Hf; [lia|]. rewrite while_S.
  pose proof (rest_end _ _ Hs) as He. destruct x as [|c x]; cbn [length] in He, Hf.
  - rewrite (proj2 (Z.ltb_ge _ _)) by lia. cbn [word length]. by rewrite Z.add_0_r.
  - rewrite (proj2 (Z.ltb_lt _ _)) by lia. rewrite bind_assoc, (bind_Ret _ _ _ _ _ (getc_at _ _ _ HL Hs)). cbn [hd word].
    rewrite !(strchr_nonzero _ _ (rest_pos _ _ _ Hs)), <- negb_orb. fold (delim c). destruct (delim c).
    + cbn [length negb]. by rewrite Z.add_0_r.
    + cbn [negb]. rewrite (bind_Ret _ _ _ _ _ eq_refl), (IH (s + 1) x); [|by apply rest_cons in Hs|lia]. cbn [length]. f_equal. f_equal. lia.
Qed.

Definition code (t : token) : Z := match t with Word _ => chr "a" | Sym c => c | Append => chr "+" end.

Lemma word_prefix x : exists y, x = word x ++ y /\ Forall (fun c => delim c = false) (word x) /\ match y with c :: _ => delim c = true | [] => True end.
Proof.
  induction x as [|c x (y & E & Hw & Hy)]; [by exists []|]. cbn [word]. destruct (delim c) eqn:Hc.
  - exists (c :: x). split; [done|]. split; [constructor|done].
  - exists y. split; [by rewrite E at 1|]. split; [by constructor|done].
Qed.

Lemma token_end_at q x st :
  line st = L -> rest_at q x ->
  match first_token x with
  | None => token_end buf es q st = Ret ((0, q), st)
  | Some (t, y) => exists e, token_end buf es q st = Ret ((code t, e), st) /\ rest_at e y /\ (forall w, t = Word w -> tok_in q e w)
  end.
Proof.
  intros HL Hq. unfold token_end. rewrite (bind_Ret _ _ _ _ _ (getc_at _ _ _ HL Hq)). destruct x as [|c x]; [done|]. cbn [hd].
  pose proof (rest_pos _ _ _ Hq) as Hc. rewrite (proj2 (Z.eqb_neq c 0)) by lia. unfold first_token.
  pose proof (rest_cons _ _ _ Hq) as Hq1.
  destruct (c =? chr ">") eqn:Eg.
  - apply Z.eqb_eq in Eg as ->. change (is_one_of (str "|();&<") (chr ">")) with false. cbn iota.
    rewrite (bind_Ret _ _ _ _ _ (getc_at _ _ _ HL Hq1)). destruct x as [|d x]; cbn [hd].
    + exists (q + 1). done.
    + destruct (d =? chr ">"); [exists (q + 2)|exists (q + 1); done]. split; [done|]. split; [|done].
      apply rest_cons in Hq1. by replace (q + 2) with (q + 1 + 1) by lia.
  - assert (is_one_of (str "|();&<") c = is_one_of symbols c) as ->.
    { unfold is_one_of. change (str "|();&<") with [124; 40; 41; 59; 38; 60]. change symbols with [60; 124; 62; 38; 59; 40; 41].
      change (chr ">") with 62 in Eg. cbn [existsb]. rewrite Eg. destruct (c =? 124), (c =? 40), (c =? 41), (c =? 59), (c =? 38), (c =? 60); done. }
    destruct (is_one_of symbols c) eqn:Es; [exists (q + 1); done|].
    rewrite (bind_Ret _ _ _ _ _ (skip_word_at _ _ _ HL Hq)). eexists. split; [done|].
    destruct (word_prefix (c :: x)) as (y & E & Hw & Hy). set (w := word (c :: x)) in *. clearbody w. rewrite E in *. split.
    + rewrite drop_app_length. by apply rest_app in Hq.
    + intros w' [= <-]. destruct Hq as (pre & EX & ->). exists pre, y. done.
Qed.

Lemma gettoken_at s ts st :
  line st = L -> at_tok s ts ->
  match ts with
  | [] => exists q s', gettoken buf es s st = Ret ((0, q, q, s'), st) /\ at_tok s' []
  | t :: ts => exists q e s', gettoken buf es s st = Ret ((code t, q, e, s'), st) /\ at_tok s' ts /\ (forall w, t = Word w -> tok_in q e w)
  end.
Proof.
  intros HL (x & Hs & <-). destruct (skip_space_at _ _ _ HL Hs) as (q & E & Hq). rewrite tokens_eq.
  unfold gettoken. rewrite (bind_Ret _ _ _ _ _ E). pose proof (token_end_at _ _ _ HL Hq) as Ht.
  destruct (first_token (skip x)) as [[t y]|] eqn:Ef.
  - destruct Ht as (e & Et & He & Hw). rewrite (bind_Ret _ _ _ _ _ Et). cbn [fst snd].
    destruct (skip_space_at _ _ _ HL He) as (s' & Es & Hs'). rewrite (bind_Ret _ _ _ _ _ Es).
    exists q, e, s'. split; [done|]. split; [|done]. exists (skip y). split; [done|apply tokens_skip].
  - rewrite (bind_Ret _ _ _ _ _ Ht). cbn [fst snd]. destruct (skip_space_at _ _ _ HL Hq) as (s' & Es & Hs'). rewrite (bind_Ret _ _ _ _ _ Es).
    exists q, s'. split; [done|]. exists (skip (skip x)). split; [done|]. rewrite !tokens_skip, tokens_eq. by rewrite Ef.
Qed.

Lemma starts_first toks x c y :
  skip x = c :: y -> (forall c, is_one_of toks c = true -> is_one_of symbols c = true) ->
  starts toks (tokens x) = is_one_of toks c /\ tokens x <> [].
Proof.
  intros E Hsub. rewrite tokens_eq, E. unfold first_token. destruct (c =? chr ">") eqn:Eg.
  - apply Z.eqb_eq in Eg as ->. destruct y as [|d y]; [done|]. by destruct (d =? chr ">").
  - destruct (is_one_of symbols c) eqn:Es; [done|]. split; [|done]. cbn [starts]. specialize (Hsub c).
    destruct (is_one_of toks c); [|done]. by rewrite Hsub in Es.
Qed.

Lemma peek_at s ts st toks :
  line st = L -> at_tok s ts -> (forall c, is_one_of toks c = true -> is_one_of symbols c = true) ->
  exists s', peek buf es s toks st = Ret ((starts toks ts, s'), st) /\ at_tok s' ts /\ (s' = es <-> ts = []).
Proof.
  intros HL (x & Hs & <-) Hsub. destruct (skip_space_at _ _ _ HL Hs) as (s' & E & Hs'). exists s'.
  unfold peek. rewrite (bind_Ret _ _ _ _ _ E), (bind_Ret _ _ _ _ _ (getc_at _ _ _ HL Hs')). pose proof (rest_end _ _ Hs') as He.
  assert (Ha : at_tok s' (tokens x)) by (exists (skip x); split; [done|apply tokens_skip]).
  destruct (skip x) as [|c y] eqn:Ex; cbn [hd length] in *.
  - assert (tokens x = []) as E0 by (rewrite tokens_eq; by rewrite Ex). rewrite E0 in *. split; [done|]. split; [done|].
    split; intros ?; [done|lia].
  - pose proof (rest_pos _ _ _ Hs') as Hc. rewrite (proj2 (Z.eqb_neq c 0)), strchr_nonzero by lia. cbn [negb andb].
    destruct (starts_first toks x c y Ex Hsub) as [-> Hne]. split; [done|]. split; [done|]. split; intros ?; [lia|done].
Qed.

Lemma at_tok_length s ts : at_tok s ts -> Z.of_nat (length ts) <= es - s.
Proof.
  intros (x & Hs & <-). rewrite (rest_end _ _ Hs). apply Nat2Z.inj_le. clear Hs.
  induction x as [x IH] using (induction_ltof1 _ (@length Z)). rewrite tokens_eq.
  destruct (first_token (skip x)) as [[t y]|] eqn:E; [|simpl; lia]. apply first_token_shorter in E.
  specialize (IH y E). cbn [length]. lia.
Qed.

(** ** Outcomes

    [n] bytes are taken from [mem] and only the object [x] of the older ones
    may change; when they do not fit, the shell gives up. *)
Definition ext (x n : Z) (st st' : sh) : Prop :=
  brk st' = brk st + n /\ line st' = line st /\ forall q, mem <= q < mem + brk st -> q <> x -> cmds st' !! q = cmds st !! q.

Definition out {A} (x n : Z) (st : sh) (r : outcome (A * sh)) (P : A -> sh -> Prop) : Prop :=
  if brk st + n <=? MAXN then exists a st', r = Ret (a, st') /\ ext x n st st' /\ P a st' else r = Stop Panic.

Lemma ext_refl x st : ext x 0 st st.
Proof. split; [lia|done]. Qed.

Lemma ext_trans x n1 n2 st1 st2 st3 : 0 <= n1 -> ext x n1 st1 st2 -> ext x n2 st2 st3 -> ext x (n1 + n2) st1 st3.
Proof. intros Hn (B1 & L1 & C1) (B2 & L2 & C2). split; [lia|]. split; [congruence|]. intros q Hq Hx. rewrite C2, C1 by (done || lia). done. Qed.


Lemma out_ret {A} x st (a : A) (P : A -> sh -> Prop) : brk st <= MAXN -> P a st -> out x 0 st (ret a st) P.
Proof. intros Hb HP. unfold out. rewrite (proj2 (Z.leb_le _ _)) by lia. exists a, st. auto using ext_refl. Qed.

Lemma out_impl {A} x n st (r : outcome (A * sh)) (P Q : A -> sh -> Prop) :
  out x n st r P -> (forall a st', ext x n st st' -> P a st' -> Q a st') -> out x n st r Q.
Proof. unfold out. destruct (_ <=? _); [|done]. intros (a & st' & E & He & HP) H. eauto 10. Qed.

Lemma out_bind {A B} x n1 n2 st (m : M sh A) (k : A -> M sh B) (P : A -> sh -> Prop) (Q : B -> sh -> Prop) :
  0 <= n1 -> 0 <= n2 -> out x n1 st (m st) P ->
  (forall a st1, ext x n1 st st1 -> brk st1 <= MAXN -> P a st1 -> out x n2 st1 (k a st1) Q) -> out x (n1 + n2) st (bind m k st) Q.
Proof.
  unfold out. intros H1 H2 Hm Hk. destruct (Z.leb_spec (brk st + n1) MAXN).
  - destruct Hm as (a & st1 & E & He & HP). rewrite (bind_Ret _ _ _ _ _ E). pose proof He as (Hb & _).
    specialize (Hk a st1 He ltac:(lia) HP). rewrite Hb in Hk. replace (brk st + n1 + n2) with (brk st + (n1 + n2)) in Hk by lia.
    destruct (_ <=? _); [|done]. destruct Hk as (b & st2 & E2 & He2 & HQ). exists b, st2. split; [done|]. split; [by eapply ext_trans|done].
  - rewrite (proj2 (Z.leb_gt _ _)) by lia. by apply bind_Stop.
Qed.

Lemma out_bind_stop {A B} x n st (m : M sh A) (k : A -> M sh B) (P : A -> sh -> Prop) :
  out x n st (m st) P -> (forall a st1, ext x n st st1 -> brk st1 <= MAXN -> P a st1 -> k a st1 = Stop Panic) -> bind m k st = Stop Panic.
Proof.
  unfold out. intros Hm Hk. destruct (Z.leb_spec (brk st + n) MAXN); [|by apply bind_Stop].
  destruct Hm as (a & st1 & E & He & HP). rewrite (bind_Ret _ _ _ _ _ E). apply Hk; [done|destruct He; lia|done].
Qed.

Lemma new_cmd_out x c st :
  out x (sizeof c) st (new_cmd mem c st) (fun p st' => p = mem + brk st /\ cmds st' !! p = Some c).
Proof.
  unfold out, new_cmd, malloc1. destruct (Z.leb_spec (brk st + sizeof c) MAXN).
  - unfold bind at 1. rewrite Z.gtb_ltb, (proj2 (Z.ltb_ge _ _)) by lia. eexists _, _. split; [done|]. cbn [cmds].
    split; [|split; [done|apply lookup_insert_eq]]. split; [done|]. split; [done|]. intros q Hq _. cbn [cmds]. by rewrite lookup_insert_ne by lia.
  - unfold bind at 1. rewrite Z.gtb_ltb, (proj2 (Z.ltb_lt _ _)) by lia. done.
Qed.

(** ** Redirections *)
Local Notation rp st st' := (repr tok_in (cmds st') (mem + brk st) (mem + brk st')).
Local Notation ch st st' := (chain tok_in (cmds st') (mem + brk st) (mem + brk st')).

Lemma symbols_sub s : (forall c, In c s -> is_one_of symbols c = true) -> forall c, is_one_of s c = true -> is_one_of symbols c = true.
Proof. intros H c Hc. by apply H, is_one_of_In. Qed.

Ltac sub_symbols := apply symbols_sub; let d := fresh "d" in let H := fresh in intros d H; simpl in H; repeat (destruct H as [<-|H]; [done|]); done.

Lemma redir_kind_starts t ts : starts (str "<>") (t :: ts) = match redir_kind t with Some _ => true | None => false end.
Proof.
  unfold redir_kind. destruct t as [w|c|]; [done| |done]. cbn [starts]. unfold is_one_of. change (str "<>") with [60; 62]. cbn [existsb].
  change (chr "<") with 60. change (chr ">") with 62.
  destruct (Z.eqb_spec c 60) as [->|H1]; [done|]. destruct (Z.eqb_spec c 62) as [->|H2]; [done|].
  rewrite !bool_decide_eq_false_2 by congruence. done.
Qed.

(** What the [switch] of [parseredirs] does with a redirection's token. *)
Lemma redir_switch t mode fd c q e :
  redir_kind t = Some (mode, fd) ->
  (if code t =? chr "<" then redircmd mem c q e O_RDONLY 0
   else if code t =? chr ">" then redircmd mem c q e (Z.lor O_WRONLY O_CREAT) 1
   else if code t =? chr "+" then redircmd mem c q e (Z.lor O_WRONLY O_CREAT) 1 else ret c) = redircmd mem c q e mode fd.
Proof.
  unfold redir_kind. destruct (bool_decide_reflect (t = Sym (chr "<"))) as [->|H1]; [by intros [= <- <-]|].
  destruct (bool_decide_reflect (t = Sym (chr ">"))) as [->|H2]; [by intros [= <- <-]|].
  destruct (bool_decide_reflect (t = Append)) as [->|H3]; [by intros [= <- <-]|done].
Qed.

Definition kind_ok (t : token) : Prop := match t with Sym c => is_one_of symbols c = true | _ => True end.
Definition is_word (t : token) : bool := match t with Word _ => true | _ => false end.

Lemma at_tok_kinds s ts : at_tok s ts -> Forall kind_ok ts.
Proof.
  intros (x & _ & <-). induction x as [x IH] using (induction_ltof1 _ (@length Z)). rewrite tokens_eq.
  destruct (first_token (skip x)) as [[t y]|] eqn:E; [|done]. pose proof (first_token_shorter _ _ _ E) as Hl. constructor; [|by apply IH].
  unfold first_token in E. destruct (skip x) as [|c z]; [done|]. destruct (c =? chr ">") eqn:Eg.
  - apply Z.eqb_eq in Eg as ->. destruct z as [|d z]; [by simplify_eq|]. destruct (d =? chr ">"); by simplify_eq.
  - destruct (is_one_of symbols c) eqn:Es; by simplify_eq.
Qed.

Lemma kind_code t : kind_ok t -> (code t =? chr "a") = is_word t /\ (code t =? 0) = false.
Proof.
  destruct t as [w|c|]; [done| |done]. cbn [kind_ok code is_word]. intros Hin%is_one_of_In. simpl in Hin.
  repeat (destruct Hin as [<-|Hin]; [done|]). done.
Qed.

Lemma parseredirs_out fuel c s ts st :
  line st = L -> 0 <= brk st <= MAXN -> at_tok s ts -> (length ts < fuel)%nat ->
  match redirs ts with
  | None => while fuel (redirs_turn mem buf es) (c, s) st = Stop Panic
  | Some (rs, r) => out 0 (40 * Z.of_nat (length rs)) st (while fuel (redirs_turn mem buf es) (c, s) st)
                      (fun a st' => at_tok a.2 r /\ ch st st' c rs a.1)
  end.
Proof.
  revert c s ts st. induction fuel as [|fuel IH]; intros c s ts st HL Hb Hs Hf; [lia|]. rewrite while_S.
  destruct (peek_at s ts st (str "<>") HL Hs ltac:(sub_symbols)) as (s1 & E1 & Hs1 & _).
  destruct ts as [|t ts].
  { unfold redirs_turn at 1. rewrite bind_assoc, (bind_Ret _ _ _ _ _ E1). apply out_ret; [lia|done]. }
  rewrite redir_kind_starts in E1. rewrite redirs_cons. destruct (redir_kind t) as [[mode fd]|] eqn:Ek.
  2: { unfold redirs_turn at 1. rewrite bind_assoc, (bind_Ret _ _ _ _ _ E1). apply out_ret; [lia|done]. }
  destruct (gettoken_at s1 (t :: ts) st HL Hs1) as (q1 & e1 & s2 & E2 & Hs2 & _).
  pose proof (gettoken_at s2 ts st HL Hs2) as H3. pose proof (at_tok_kinds _ _ Hs2) as Hk. cbn [length] in Hf.
  assert (Estep : forall kind q e s3, gettoken buf es s2 st = Ret ((kind, q, e, s3), st) ->
    while (S fuel) (redirs_turn mem buf es) (c, s) st =
      (c' <- (if negb (kind =? chr "a") then stop Panic else redircmd mem c q e mode fd) ;; while fuel (redirs_turn mem buf es) (c', s3)) st).
  { intros kind q e s3 E3. rewrite while_S. unfold redirs_turn at 1. rewrite bind_assoc, (bind_Ret _ _ _ _ _ E1). cbn [fst snd].
    rewrite bind_assoc, (bind_Ret _ _ _ _ _ E2), bind_assoc. cbn [snd]. rewrite (bind_Ret _ _ _ _ _ E3). rewrite (redir_switch t mode fd) by done.
    destruct (negb _); [done|]. by rewrite bind_assoc. }
  rewrite while_S in Estep.
  destruct ts as [|t2 ts].
  { destruct H3 as (q & s3 & E3 & _). by rewrite (Estep _ _ _ _ E3). }
  destruct H3 as (q & e & s3 & E3 & Hs3 & Hw). rewrite (Estep _ _ _ _ E3).
  rewrite (proj1 (kind_code t2 (Forall_inv Hk))). destruct t2 as [w| |]; [|done|done]. cbn [negb is_word].
  pose proof (new_cmd_out 0 (REDIR c q e mode fd) st) as Hn. cbn [length] in Hf.
  pose proof (fun p st1 HL1 Hb1 => IH p s3 ts st1 HL1 Hb1 Hs3 ltac:(lia)) as IH'. destruct (redirs ts) as [[rs r]|].
  - replace (40 * Z.of_nat (length _)) with (40 + 40 * Z.of_nat (length rs)) by (cbn [length]; lia).
    eapply out_bind; [lia|lia|exact Hn|]. intros p st1 He Hb1 [-> Hp]. pose proof He as (Hb2 & HL1 & _). cbn [sizeof] in Hb2.
    eapply out_impl; [apply IH'; [congruence|lia]|]. intros a st2 (Hb3 & _ & Hc) [Ha Hch]. split; [done|].
    exists (mem + brk st), q, e. split; [lia|]. split; [rewrite Hc by lia; done|]. split; [by apply Hw|].
    eapply chain_frame; [| | |exact Hch]; [done|lia|lia].
  - eapply out_bind_stop; [exact Hn|]. intros p st1 (Hb2 & HL1 & _) Hb1 _. cbn [sizeof] in Hb2. apply IH'; [congruence|lia].
Qed.

(** ** The words of a command *)
Definition with_cmds (f : gmap Z cmd -> gmap Z cmd) (st : sh) : sh := mkSh (line st) (brk st) (f (cmds st)).

Lemma set_arg_Ret p qes q e st :
  cmds st !! p = Some (argv_of qes) -> (length qes < 10)%nat ->
  set_arg p (Z.of_nat (length qes)) q e st = Ret (tt, with_cmds <[p := argv_of (qes ++ [(q, e)])]> st).
Proof.
  intros Hp Hl. unfold set_arg. rewrite Hp. unfold argv_of at 1. rewrite (proj2 (Z.leb_le _ _)), (proj2 (Z.ltb_lt _ _)) by (unfold MAXARGS; lia).
  cbn [andb]. unfold argv_of, with_cmds. rewrite Nat2Z.id, length_app. cbn [length].
  replace (10 - length qes)%nat with (S (10 - (length qes + 1)))%nat by lia. cbn [replicate]. rewrite !fmap_app, <- !app_assoc. cbn [fmap list_fmap app].
  rewrite <- (length_fmap fst qes) at 1. rewrite <- (length_fmap snd qes) at 2. by rewrite !insert_app_r_alt, !length_fmap, !Nat.sub_diag by (rewrite ?length_fmap; lia).
Qed.

Lemma set_arg_end p qes st :
  cmds st !! p = Some (argv_of qes) -> (length qes < 10)%nat ->
  exists st', set_arg p (Z.of_nat (length qes)) 0 0 st = Ret (tt, st') /\ ext p 0 st st' /\ cmds st' !! p = Some (argv_of qes).
Proof.
  intros Hp Hl. rewrite (set_arg_Ret _ _ _ _ _ Hp Hl). eexists. split; [done|]. split.
  - split; [simpl; lia|]. split; [done|]. intros q _ Hq. apply lookup_insert_ne. congruence.
  - cbn [cmds with_cmds]. rewrite lookup_insert_eq. f_equal. unfold argv_of. rewrite length_app. cbn [length].
    replace (10 - length qes)%nat with (S (10 - (length qes + 1)))%nat by lia. cbn [replicate]. by rewrite !fmap_app, <- !app_assoc.
Qed.

Lemma out_weaken {A} x n st (r : outcome (A * sh)) (P : A -> sh -> Prop) : x < mem -> forall y, out x n st r P -> out y n st r (fun a st' => ext x n st st' /\ P a st').
Proof.
  unfold out. intros Hx y. destruct (_ <=? _); [|done]. intros (a & st' & E & He & HP). pose proof He as (H1 & H2 & H3). exists a, st'. split; [done|]. split; [|done].
  split; [done|]. split; [done|]. intros q Hq _. apply H3; lia.
Qed.

Lemma out_shift {A} x n st st1 (r : outcome (A * sh)) (P : A -> sh -> Prop) : ext x 0 st st1 -> out x n st1 r P -> out x n st r P.
Proof.
  unfold out. intros He H. pose proof He as (Hb & _). replace (brk st1 + n) with (brk st + n) in H by lia. destruct (_ <=? _); [|done].
  destruct H as (a & st' & E & He' & HP). exists a, st'. split; [done|]. split; [|done]. by apply (ext_trans x 0 n st st1 st').
Qed.

Lemma args_out n fuel p0 r s ts qes st :
  line st = L -> 0 <= brk st <= MAXN -> at_tok s ts -> (length ts < n)%nat -> (length ts < fuel)%nat -> (length qes < 10)%nat ->
  cmds st !! p0 = Some (argv_of qes) -> mem <= p0 < mem + brk st ->
  match args n (Z.of_nat (length qes)) ts with
  | None => while fuel (args_turn mem buf es p0) (r, Z.of_nat (length qes), s) st = Stop Panic
  | Some (ws, rs, rest) =>
      out p0 (40 * Z.of_nat (length rs)) st (while fuel (args_turn mem buf es p0) (r, Z.of_nat (length qes), s) st)
        (fun a st' => at_tok a.2 rest /\ ch st st' r rs a.1.1 /\
           exists qes', Forall2 (fun qe w => tok_in qe.1 qe.2 w) qes' ws /\ cmds st' !! p0 = Some (argv_of (qes ++ qes')) /\
             a.1.2 = Z.of_nat (length (qes ++ qes')) /\ (length (qes ++ qes') < 10)%nat)
  end.
Proof.
  revert fuel r s ts qes st. induction n as [|n IH]; intros fuel r s ts qes st HL Hb Hs Hn Hf Hq Hp Hp0; [lia|].
  destruct fuel as [|fuel]; [lia|].
  match goal with |- match _ with Some _ => _ | None => ?r = _ end => remember r as run eqn:Erun end.
  rewrite while_S in Erun. unfold args_turn at 1 in Erun. cbn [args].
  destruct (peek_at s ts st (str "|)&;") HL Hs ltac:(sub_symbols)) as (s1 & E1 & Hs1 & _). rewrite bind_assoc, (bind_Ret _ _ _ _ _ E1) in Erun.
  assert (Hnone : ch st st r [] r /\ exists qes' : list (Z * Z), Forall2 (fun qe w => tok_in qe.1 qe.2 w) qes' [] /\ cmds st !! p0 = Some (argv_of (qes ++ qes')) /\
      Z.of_nat (length qes) = Z.of_nat (length (qes ++ qes')) /\ (length (qes ++ qes') < 10)%nat).
  { split; [done|]. exists []. rewrite app_nil_r. done. }
  cbn [fst snd] in Erun. destruct (starts (str "|)&;") ts) eqn:Es.
  { subst run. apply out_ret; [lia|]. split; [done|exact Hnone]. }
  pose proof (gettoken_at s1 ts st HL Hs1) as H2. pose proof (at_tok_kinds _ _ Hs1) as Hk.
  destruct ts as [|t ts].
  { destruct H2 as (q & s2 & E2 & Hs2). rewrite bind_assoc, (bind_Ret _ _ _ _ _ E2) in Erun. subst run. apply out_ret; [lia|].
    split; [done|exact Hnone]. }
  destruct H2 as (q & e & s2 & E2 & Hs2 & Hw). rewrite bind_assoc, (bind_Ret _ _ _ _ _ E2) in Erun.
  destruct (kind_code t (Forall_inv Hk)) as [Ek1 Ek2]. rewrite Ek1, Ek2 in Erun. destruct t as [w|c|]; [|done|done]. cbn [is_word negb] in Erun.
  rewrite bind_assoc, (bind_Ret _ _ _ _ _ (set_arg_Ret _ _ _ _ _ Hp Hq)) in Erun.
  destruct (Z.of_nat (length qes) + 1 >=? MAXARGS) eqn:Ek; [done|]. unfold MAXARGS in Ek. rewrite Z.geb_leb in Ek. apply Z.leb_gt in Ek.
  set (st1 := with_cmds _ st) in *. assert (HL1 : line st1 = L) by done. assert (Hb1 : brk st1 = brk st) by done.
  assert (He1 : ext p0 0 st st1).
  { split; [lia|]. split; [done|]. intros q' _ Hq'. apply lookup_insert_ne. congruence. }
  assert (Hp1 : cmds st1 !! p0 = Some (argv_of (qes ++ [(q, e)]))) by apply lookup_insert_eq. clearbody st1.
  cbn [length] in Hn, Hf. unfold parseredirs in Erun. rewrite bind_assoc in Erun.
  pose proof (parseredirs_out (S (Z.to_nat (es - s2))) r s2 ts st1 HL1 ltac:(lia) Hs2 ltac:(pose proof (at_tok_length _ _ Hs2); lia)) as Hr.
  destruct (redirs ts) as [[rs ts']|] eqn:Er.
  2: { rewrite Erun. eapply bind_Stop, Hr. }
  pose proof (redirs_length _ _ _ Er) as Hlen.
  assert (Hloop : forall a st2, ext 0 (40 * Z.of_nat (length rs)) st1 st2 -> brk st2 <= MAXN -> at_tok a.2 ts' /\ ch st1 st2 r rs a.1 ->
     line st2 = L /\ 0 <= brk st2 <= MAXN /\ cmds st2 !! p0 = Some (argv_of (qes ++ [(q, e)])) /\ mem <= p0 < mem + brk st2).
  { intros a st2 (B2 & L2 & C2) B2' _. split; [congruence|]. split; [lia|]. split; [|lia]. rewrite C2; [done|lia|lia]. }
  apply out_weaken with (y := p0) in Hr as Hr'; [|done].
  pose proof (fun a st2 L2 B2 H2 P2 M2 => IH fuel a.1 a.2 ts' (qes ++ [(q, e)]) st2 L2 B2 H2 ltac:(lia) ltac:(lia) ltac:(rewrite length_app; simpl; lia) P2 M2) as IH'.
  rewrite length_app in IH'. cbn [length] in IH'. replace (Z.of_nat (length qes + 1)) with (Z.of_nat (length qes) + 1) in IH' by lia.
  destruct (args n (Z.of_nat (length qes) + 1) ts') as [[[ws rs'] rest]|].
  - rewrite Erun, length_app. replace (40 * Z.of_nat (length rs + length rs')) with (40 * Z.of_nat (length rs) + 40 * Z.of_nat (length rs')) by lia.
    eapply out_shift; [exact He1|]. eapply out_bind; [lia|lia|exact Hr'|]. intros a st2 He2 B2 [Hx HP]. rewrite (bind_Ret (ret _) _ _ _ _ eq_refl).
    destruct (Hloop a st2 Hx B2 HP) as (L2 & B2' & P2 & M2). destruct HP as [Hs3 Hc].
    eapply out_impl; [apply IH'; done|]. intros b st3 (B3 & _ & C3) (Hs4 & Hc' & qes' & Hq' & P3 & K3 & N3). destruct He2 as (B2'' & _ & _).
    split; [done|]. split.
    + apply redirs_chain_app. exists a.1. split.
      * eapply chain_frame; [| | |exact Hc]; [|lia|lia]. intros p' Hp'. apply C3; lia.
      * eapply chain_frame; [| | |exact Hc']; [done|lia|lia].
    + exists ((q, e) :: qes'). rewrite <- app_assoc in P3, K3, N3. split; [|done]. constructor; [by apply Hw|done].
  - rewrite Erun. eapply out_bind_stop; [exact Hr'|]. intros a st2 _ B2 [Hx HP]. rewrite (bind_Ret (ret _) _ _ _ _ eq_refl).
    destruct (Hloop a st2 Hx B2 HP) as (L2 & B2' & P2 & M2). destruct HP as [Hs3 _]. by apply IH'.
Qed.

(** ** Commands *)
Definition good (st : sh) : Prop := line st = L /\ 0 <= brk st <= MAXN.

(** A run from [st] against the reference's result. *)
Definition parsed (st : sh) (run : outcome (Z * Z * sh)) (res : option (ast * list token)) : Prop :=
  match res with
  | None => run = Stop Panic
  | Some (t, r) => out 0 (cost t) st run (fun a st' => at_tok a.2 r /\ rp st st' a.1 t)
  end.

Definition parser_ok (k : nat) (plc : Z -> M sh (Z * Z)) (plr : list token -> option (ast * list token)) : Prop :=
  forall s ts st, good st -> at_tok s ts -> (length ts < k)%nat -> parsed st (plc s st) (plr ts).

Lemma cost_pos t : 0 < cost t.
Proof. induction t; simpl; lia. Qed.

Lemma cost_wrap rs t : cost (wrap t rs) = cost t + 40 * Z.of_nat (length rs).
Proof. unfold wrap. revert t. induction rs as [|[[file mode] fd] rs IH]; intros t; cbn [fold_left length]; [lia|]. rewrite IH. simpl. lia. Qed.

Lemma ext_good x n st st' : 0 <= n -> ext x n st st' -> brk st' <= MAXN -> good st -> good st'.
Proof. intros Hn (H1 & H2 & _) Hb [H3 H4]. split; [congruence|lia]. Qed.

(** Moving past a token that was peeked at. *)
Lemma skip_token s ts toks st :
  good st -> at_tok s ts -> starts toks ts = true -> exists t s', gettoken buf es s st = Ret (t, s', st) /\ at_tok s' (tail ts) /\ (length (tail ts) < length ts)%nat.
Proof.
  intros [HL _] Hs Ht. destruct (starts_tail _ _ Ht) as (t & ts' & ->). destruct (gettoken_at s (t :: ts') st HL Hs) as (q & e & s' & E & Hs' & _).
  exists (code t, q, e), s'. split; [done|]. split; [done|simpl; lia].
Qed.

(** Redirections around a command that has been parsed. *)
Lemma redirs_parsed st0 st t n p s ts :
  good st -> ext 0 n st0 st -> n = cost t -> 0 <= brk st0 -> rp st0 st p t -> at_tok s ts ->
  parsed st0 (parseredirs mem buf es p s st) (match redirs ts with Some (rs, r) => Some (wrap t rs, r) | None => None end).
Proof.
  intros [HL Hb] He -> Hb0 Hp Hs. unfold parseredirs. pose proof (at_tok_length _ _ Hs) as Hl. pose proof (cost_pos t) as Hc.
  pose proof (parseredirs_out (S (Z.to_nat (es - s))) p s ts st HL Hb Hs ltac:(lia)) as Hr. destruct (redirs ts) as [[rs r]|]; [|done].
  unfold parsed. rewrite cost_wrap. destruct He as (B & EL & C). unfold out in Hr |- *. rewrite B, <- Z.add_assoc in Hr. destruct (_ <=? _); [|done].
  destruct Hr as (a & st' & E & He' & Ha & Hch). exists a, st'. split; [done|]. split; [apply (ext_trans 0 _ _ st0 st st'); [lia|done|done]|].
  split; [done|]. destruct He' as (B' & _ & C'). eapply chain_repr.
  - eapply repr_frame; [| | |exact Hp]; [|lia|lia]. intros q Hq. apply C'; lia.
  - eapply chain_frame; [| | |exact Hch]; [done|lia|lia].
Qed.

(** One more step of a run that started in [st0]; [x] is NULL or an object
    that was made since. *)
Lemma parsed_step {A} st0 st n0 x n (m : M sh A) (P : A -> sh -> Prop) (k : A -> M sh (Z * Z)) res :
  ext 0 n0 st0 st -> 0 <= n0 -> 0 <= n -> (x < mem \/ mem + brk st0 <= x) -> out x n st (m st) P ->
  (forall t r, res = Some (t, r) -> n0 + n <= cost t) ->
  (forall a st1, ext 0 (n0 + n) st0 st1 -> ext x n st st1 -> brk st1 <= MAXN -> P a st1 -> parsed st0 (k a st1) res) -> parsed st0 (bind m k st) res.
Proof.
  unfold out. intros He0 Hn0 Hn Hx Hm Hc Hk. pose proof He0 as (B0 & L0 & C0). destruct (Z.leb_spec (brk st + n) MAXN).
  - destruct Hm as (a & st1 & E & He & HP). pose proof He as (B1 & L1 & C1). rewrite (bind_Ret _ _ _ _ _ E). apply Hk; [|done|lia|done].
    split; [lia|]. split; [congruence|]. intros q Hq Hq0. rewrite C1 by lia. by apply C0.
  - rewrite (bind_Stop _ _ _ _ Hm). unfold parsed. destruct res as [[t r]|]; [|done]. unfold out. specialize (Hc t r eq_refl).
    by rewrite (proj2 (Z.leb_gt _ _)) by lia.
Qed.

Lemma parsed_bind {A} st n (m : M sh A) (P : A -> sh -> Prop) (k : A -> M sh (Z * Z)) res :
  0 <= n -> out 0 n st (m st) P -> (forall t r, res = Some (t, r) -> n <= cost t) ->
  (forall a st1, ext 0 n st st1 -> brk st1 <= MAXN -> P a st1 -> parsed st (k a st1) res) -> parsed st (bind m k st) res.
Proof.
  intros Hn Hm Hc Hk. eapply (parsed_step st st 0 0 n); [apply ext_refl|lia|done|left; lia|exact Hm|exact Hc|]. auto.
Qed.

Lemma parsed_then st0 st (m : M sh (Z * Z)) (k : Z * Z -> M sh (Z * Z)) t r res :
  parsed st0 (m st) (Some (t, r)) -> (forall t' r', res = Some (t', r') -> cost t <= cost t') ->
  (forall a st1, ext 0 (cost t) st0 st1 -> brk st1 <= MAXN -> at_tok a.2 r -> rp st0 st1 a.1 t -> parsed st0 (k a st1) res) ->
  parsed st0 (bind m k st) res.
Proof.
  unfold parsed at 1, out. intros Hm Hc Hk. destruct (Z.leb_spec (brk st0 + cost t) MAXN).
  - destruct Hm as (a & st1 & E & He & Ha & Hr). rewrite (bind_Ret _ _ _ _ _ E). apply Hk; [done|destruct He; lia|done|done].
  - rewrite (bind_Stop _ _ _ _ Hm). unfold parsed, out. destruct res as [[t' r']|]; [|done]. specialize (Hc t' r' eq_refl).
    by rewrite (proj2 (Z.leb_gt _ _)) by lia.
Qed.

Lemma parsed_ret st0 st a t r :
  ext 0 (cost t) st0 st -> brk st <= MAXN -> at_tok a.2 r -> rp st0 st a.1 t -> parsed st0 (ret a st) (Some (t, r)).
Proof. intros He Hb Ha Hr. unfold parsed, out. rewrite (proj2 (Z.leb_le _ _)) by (destruct He; lia). by exists a, st. Qed.

(** The last step: the object of the command is made. *)
Lemma new_cmd_parsed st st1 c t n s r :
  good st -> ext 0 n st st1 -> 0 <= n -> brk st1 <= MAXN -> cost t = n + sizeof c -> at_tok s r ->
  (forall p st2, ext 0 (n + sizeof c) st st2 -> (forall q, mem + brk st <= q < mem + brk st1 -> cmds st2 !! q = cmds st1 !! q) ->
     mem + brk st <= p < mem + brk st2 -> cmds st2 !! p = Some c -> rp st st2 p t) ->
  parsed st ((p <- new_cmd mem c ;; ret (p, s)) st1) (Some (t, r)).
Proof.
  intros [HL Hb] He Hn Hb1 Hc Hs Hrp. pose proof He as (B & _). pose proof (new_cmd_out 0 c st1) as Hnew. unfold parsed, out in *.
  assert (0 < sizeof c) by (destruct c; simpl; lia).
  rewrite Hc, Z.add_assoc, <- B. destruct (_ <=? _).
  - destruct Hnew as (p & st2 & E & He2 & -> & Hp). rewrite (bind_Ret _ _ _ _ _ E). eexists _, _. split; [done|].
    assert (He3 : ext 0 (n + sizeof c) st st2) by by apply (ext_trans 0 _ _ st st1 st2). split; [done|]. split; [done|]. cbn [fst].
    destruct He2 as (B2 & _ & C2). apply Hrp; [done| |lia|done]. intros q Hq. apply C2; lia.
  - by apply bind_Stop.
Qed.

Section block.
Context (k : nat) (plc : Z -> M sh (Z * Z)) (plr : list token -> option (ast * list token)).
Hypothesis Hpl : parser_ok k plc plr.

Lemma parseblock_out s ts st :
  good st -> at_tok s ts -> starts (str "(") ts = true -> (length ts <= k)%nat -> parsed st (parseblock mem buf es plc s st) (block plr ts).
Proof.
  intros Hg Hs Hst Hk. destruct (peek_at s ts st (str "(") (proj1 Hg) Hs ltac:(sub_symbols)) as (s1 & E1 & Hs1 & _).
  remember (parseblock mem buf es plc s st) as run eqn:Erun. unfold parseblock in Erun. rewrite (bind_Ret _ _ _ _ _ E1), Hst in Erun. cbn [fst snd negb] in Erun.
  destruct (skip_token s1 ts _ st Hg Hs1 Hst) as (t & s2 & E2 & Hs2 & Hl2). rewrite (bind_Ret _ _ _ _ _ E2) in Erun.
  pose proof (Hpl s2 (tail ts) st Hg Hs2 ltac:(lia)) as Hp. unfold block. destruct (plr (tail ts)) as [[c ts3]|]; [|by rewrite Erun; apply bind_Stop].
  rewrite Erun. eapply parsed_bind; [apply Z.lt_le_incl, cost_pos|exact Hp| |].
  { intros t' r. destruct (starts _ ts3); [|done]. destruct (redirs _) as [[rs r']|]; [|done]. intros [= <- <-]. rewrite cost_wrap. lia. }
  intros a st1 He Hb [Ha Hc]. pose proof (ext_good _ _ _ _ (Z.lt_le_incl _ _ (cost_pos c)) He Hb Hg) as Hg1.
  destruct (peek_at a.2 ts3 st1 (str ")") (proj1 Hg1) Ha ltac:(sub_symbols)) as (s4 & E4 & Hs4 & _). rewrite (bind_Ret _ _ _ _ _ E4). cbn [fst snd].
  destruct (starts (str ")") ts3) eqn:E; [|done]. destruct (skip_token s4 ts3 _ st1 Hg1 Hs4 E) as (t5 & s5 & E5 & Hs5 & _). cbn [negb].
  rewrite (bind_Ret _ _ _ _ _ E5). eapply redirs_parsed; [done|exact He|done|destruct Hg; lia|done|done].
Qed.

Lemma parseexec_out : parser_ok (S k) (parseexec mem buf es plc) (exec plr).
Proof.
  intros s ts st Hg Hs Hk. unfold exec.
  remember (parseexec mem buf es plc s st) as run eqn:Erun. unfold parseexec in Erun.
  destruct (peek_at s ts st (str "(") (proj1 Hg) Hs ltac:(sub_symbols)) as (s1 & E1 & Hs1 & _). rewrite (bind_Ret _ _ _ _ _ E1) in Erun. cbn [fst snd] in Erun.
  destruct (starts (str "(") ts) eqn:Est. { rewrite Erun. apply parseblock_out; [done|done|done|lia]. }
  set (res := match redirs ts with Some _ => _ | None => _ end).
  assert (Hres : forall t r, res = Some (t, r) -> 168 <= cost t).
  { unfold res. intros t r. destruct (redirs ts) as [[rs ts']|]; [|done]. destruct (args _ _ _) as [[[ws rs'] r']|]; [|done]. intros [= <- <-].
    rewrite cost_wrap. cbn [cost]. lia. }
  rewrite Erun. eapply (parsed_bind st 168); [lia|apply (new_cmd_out 0 (argv_of []))|exact Hres|]. intros p0 st1 He1 Hb1 [-> Hp0].
  assert (Hg1 : good st1) by (eapply ext_good; [|done..]; lia).
  destruct Hg as [HL Hb]. destruct Hg1 as [HL1 Hb1']. pose proof He1 as (B1 & _). pose proof (at_tok_length _ _ Hs1) as Hl1.
  pose proof (parseredirs_out (S (Z.to_nat (es - s1))) (mem + brk st) s1 ts st1 HL1 Hb1' Hs1 ltac:(lia)) as Hr. unfold parseredirs.
  unfold res in *. destruct (redirs ts) as [[rs ts2]|] eqn:Er; [|by eapply bind_Stop in Hr as ->].
  eapply (parsed_step st st1 168 0); [exact He1|done| |left; lia|exact Hr| |]; [lia| |].
  { intros t r H. destruct (args _ _ _) as [[[ws rs'] r']|]; [|done]. injection H as <- <-. rewrite cost_wrap, length_app. cbn [cost]. lia. }
  intros a st2 He2 Hx2 Hb2 [Hs2 Hc2]. destruct Hx2 as (B2 & EL2 & C2). assert (Hp2 : cmds st2 !! (mem + brk st) = Some (argv_of [])) by (rewrite C2; [done|lia|lia]).
  pose proof (at_tok_length _ _ Hs2) as Hl2.
  pose proof (args_out (S (length ts2)) (S (Z.to_nat (es - a.2))) (mem + brk st) a.1 a.2 ts2 [] st2 ltac:(congruence) ltac:(lia) Hs2 ltac:(lia) ltac:(lia) ltac:(simpl; lia) Hp2 ltac:(lia)) as Ha.
  cbn [length] in Ha. change (Z.of_nat 0) with 0 in Ha. destruct (args (S (length ts2)) 0 ts2) as [[[ws rs'] r]|]; [|by eapply bind_Stop in Ha as ->].
  eapply (parsed_step st st2 _ (mem + brk st)); [exact He2|lia| |right; lia|exact Ha| |]; [lia| |].
  { intros t r0 [= <- <-]. rewrite cost_wrap, length_app. cbn [cost]. lia. }
  intros [[r1 k1] s3] st3 He3 Hx3 Hb3 (Hs3 & Hc3 & qes & Hq & Hp3 & Hk3 & Hn3). cbn [fst snd app] in *. subst k1.
  destruct (set_arg_end _ _ _ Hp3 Hn3) as (st4 & E4 & He4 & Hp4). rewrite (bind_Ret _ _ _ _ _ E4). destruct He4 as (B4 & L4 & C4).
  destruct Hx3 as (B3 & _ & C3). apply parsed_ret; cbn [fst snd].
  - rewrite cost_wrap, length_app. cbn [cost]. destruct He3 as (B3' & L3 & C3'). split; [lia|]. split; [congruence|].
    intros q Hq1 Hq2. rewrite C4, C3' by lia. done.
  - lia.
  - done.
  - eapply (chain_repr _ _ _ _ (mem + brk st)); [|apply redirs_chain_app; exists a.1; split].
    + cbn [repr]. split; [lia|]. by exists qes.
    + eapply chain_frame; [| | |exact Hc2]; [|lia|lia]. intros q Hq'. rewrite C4, C3 by lia. done.
    + eapply chain_frame; [| | |exact Hc3]; [|lia|lia]. intros q Hq'. rewrite C4 by lia. done.
Qed.

Hypothesis Hshort : forall ts t r, plr ts = Some (t, r) -> (length r <= length ts)%nat.

Lemma parsepipe_out m s ts st :
  good st -> at_tok s ts -> (length ts < S k)%nat -> (length ts < m)%nat -> parsed st (parsepipe mem buf es plc m s st) (pipe plr m ts).
Proof.
  revert s ts st. induction m as [|m IH]; intros s ts st Hg Hs Hk Hm; [lia|]. cbn [parsepipe pipe].
  pose proof (parseexec_out s ts st Hg Hs Hk) as Hex. destruct (exec plr ts) as [[l ts1]|] eqn:Ex; [|by apply bind_Stop].
  apply (exec_length _ Hshort) in Ex. eapply (parsed_bind st (cost l)); [apply Z.lt_le_incl, cost_pos|exact Hex| |].
  { intros t r H. pose proof cost_pos. destruct (starts _ ts1); [|by injection H as <- <-]. destruct (pipe _ _ _) as [[t' r']|]; [|done].
    injection H as <- <-. cbn [cost]. specialize (H0 t'). lia. }
  intros a st1 He Hb [Ha Hl]. pose proof (cost_pos l) as Hcl. pose proof (ext_good _ _ _ _ (Z.lt_le_incl _ _ Hcl) He Hb Hg) as Hg1.
  destruct (peek_at a.2 ts1 st1 (str "|") (proj1 Hg1) Ha ltac:(sub_symbols)) as (s2 & E2 & Hs2 & _). rewrite (bind_Ret _ _ _ _ _ E2). cbn [fst snd].
  destruct (starts (str "|") ts1) eqn:E; [|by apply parsed_ret].
  destruct (skip_token s2 ts1 _ st1 Hg1 Hs2 E) as (t3 & s3 & E3 & Hs3 & Hl3). rewrite (bind_Ret _ _ _ _ _ E3). cbn [snd].
  specialize (IH s3 (tail ts1) st1 Hg1 Hs3 ltac:(lia) ltac:(lia)). destruct (pipe plr m (tail ts1)) as [[r ts4]|]; [|by apply bind_Stop].
  pose proof (cost_pos r) as Hcr. eapply (parsed_step st st1 (cost l) 0 (cost r)); [done|lia|lia|left; lia|exact IH| |].
  { intros t r' [= <- <-]. cbn [cost]. lia. }
  intros b st2 He2 Hx2 Hb2 [Hs4 Hr]. pose proof He as (B1 & _). pose proof Hx2 as (B2 & _ & C2).
  eapply (new_cmd_parsed st st2 (PIPE a.1 b.1) _ (cost l + cost r)); [done|done|lia|done|done|done|].
  intros p st3 (B3 & _) Hsame Hp Hlook. cbn [repr]. split; [lia|]. exists a.1, b.1. split; [done|].
  destruct Hg as [_ Hb0]. cbn [sizeof] in B3. split.
  - eapply repr_frame; [| | |exact Hl]; [|lia|lia]. intros q Hq. rewrite Hsame, C2 by lia. done.
  - eapply repr_frame; [| | |exact Hr]; [|lia|lia]. intros q Hq. apply Hsame. lia.
Qed.
End block.

Lemma back_cons c t ts : starts (str "&") (t :: ts) = true -> backs c (t :: ts) = backs (Back c) ts.
Proof.
  intros H. cbn [backs]. rewrite bool_decide_eq_true_2; [done|]. destruct t as [w|d|]; [done| |done]. cbn [starts] in H.
  apply is_one_of_In in H. simpl in H. destruct H as [<-|[]]. done.
Qed.

Lemma back_stop c ts : starts (str "&") ts = false -> backs c ts = (c, ts).
Proof. destruct ts as [|t ts]; [done|]. intros H. cbn [backs]. rewrite bool_decide_eq_false_2; [done|]. by intros ->. Qed.

(** The loop over [&]; [c] has been parsed since [st0]. *)
Lemma backs_out fuel st0 st c p s ts :
  good st0 -> ext 0 (cost c) st0 st -> brk st <= MAXN -> rp st0 st p c -> at_tok s ts -> (length ts < fuel)%nat ->
  parsed st0 (while fuel (back_turn mem buf es) (p, s) st) (Some (backs c ts)).
Proof.
  revert st c p s ts. induction fuel as [|fuel IH]; intros st c p s ts Hg He Hb Hp Hs Hf; [lia|].
  pose proof (ext_good _ _ _ _ (Z.lt_le_incl _ _ (cost_pos c)) He Hb Hg) as Hg1. pose proof (cost_pos c) as Hpos.
  destruct (peek_at s ts st (str "&") (proj1 Hg1) Hs ltac:(sub_symbols)) as (s1 & E1 & Hs1 & _).
  rewrite while_S. unfold back_turn at 1. rewrite bind_assoc, (bind_Ret _ _ _ _ _ E1). cbn [fst snd].
  destruct (starts (str "&") ts) eqn:E.
  2: { rewrite (back_stop _ _ E). by apply parsed_ret. }
  destruct (skip_token s1 ts _ st Hg1 Hs1 E) as (t2 & s2 & E2 & Hs2 & Hl2). destruct (starts_tail _ _ E) as (t & ts' & ->). cbn [tail length] in *.
  rewrite (back_cons _ _ _ E), bind_assoc, (bind_Ret _ _ _ _ _ E2), bind_assoc.
  eapply (parsed_step st0 st (cost c) 0 16); [done|lia|lia|left; lia|apply (new_cmd_out 0 (BACK p))| |].
  { intros t0 r H. pose proof (backs_cost (Back c) ts') as Hbc. injection H as H. rewrite H in Hbc. cbn [fst cost] in Hbc. done. }
  intros q st1 He1 (B1 & _ & C1) Hb1 [-> Hq]. rewrite (bind_Ret (ret _) _ _ _ _ eq_refl). apply IH; [done|done|done| |done|lia].
  destruct Hg as [_ Hb0]. pose proof He as (B0 & _). cbn [repr]. split; [lia|]. exists p. split; [done|].
  eapply repr_frame; [| | |exact Hp]; [|lia|lia]. intros q Hq'. apply C1; lia.
Qed.

Lemma parseline_out n : parser_ok n (parseline mem buf es n) (commands n).
Proof.
  induction n as [|n IH]; intros s ts st Hg Hs Hk; [lia|]. cbn [parseline commands].
  pose proof (parsepipe_out n _ _ IH (commands_length n) (S n) s ts st Hg Hs Hk Hk) as Hp.
  destruct (pipe (commands n) (S n) ts) as [[c ts1]|] eqn:Ep; [|by apply bind_Stop]. apply (pipe_length _ (commands_length n)) in Ep.
  set (res := let '(c, ts) := backs c ts1 in _). 
  assert (Hres : forall t r, res = Some (t, r) -> cost (backs c ts1).1 <= cost t).
  { intros t r. unfold res. destruct (backs c ts1) as [c2 ts2]. destruct (starts _ ts2); [|by intros [= <- <-]].
    destruct (commands n (tail ts2)) as [[r' ts3]|]; [|done]. intros [= <- <-]. pose proof (cost_pos r'). cbn [cost fst]. lia. }
  pose proof (backs_cost c ts1) as Hbc. pose proof (backs_length c ts1) as Hbl.
  eapply (parsed_bind st (cost c)); [apply Z.lt_le_incl, cost_pos|exact Hp| |].
  { intros t r H. specialize (Hres t r H). lia. }
  intros a st1 He1 Hb1 [Ha Hc]. pose proof (at_tok_length _ _ Ha) as Hla. destruct a as [pa sa]. cbn [fst snd] in *.
  pose proof (backs_out (S (Z.to_nat (es - sa))) st st1 c pa sa ts1 Hg He1 Hb1 Hc Ha ltac:(lia)) as Hbk. unfold res in *. clear res.
  destruct (backs c ts1) as [c2 ts2]. cbn [fst snd] in *.
  eapply parsed_then; [exact Hbk|exact Hres|]. intros [pb sb] st2 He2 Hb2 Hs2 Hr2. cbn [fst snd] in *. pose proof (cost_pos c2) as Hpos.
  pose proof (ext_good _ _ _ _ (Z.lt_le_incl _ _ Hpos) He2 Hb2 Hg) as Hg2.
  destruct (peek_at sb ts2 st2 (str ";") (proj1 Hg2) Hs2 ltac:(sub_symbols)) as (s3 & E3 & Hs3 & _). rewrite (bind_Ret _ _ _ _ _ E3). cbn [fst snd].
  destruct (starts (str ";") ts2) eqn:E; [|by apply parsed_ret].
  destruct (skip_token s3 ts2 _ st2 Hg2 Hs3 E) as (t4 & s4 & E4 & Hs4 & Hl4). rewrite (bind_Ret _ _ _ _ _ E4). cbn [snd].
  specialize (IH s4 (tail ts2) st2 Hg2 Hs4 ltac:(lia)). destruct (commands n (tail ts2)) as [[r ts5]|]; [|by apply bind_Stop].
  pose proof (cost_pos r) as Hcr. eapply (parsed_step st st2 (cost c2) 0 (cost r)); [done|lia|lia|left; lia|exact IH| |].
  { intros t r' [= <- <-]. cbn [cost]. lia. }
  intros b st3 He3 Hx3 Hb3 [Hs5 Hr3]. pose proof He2 as (B2 & _). pose proof Hx3 as (B3 & _ & C3).
  eapply (new_cmd_parsed st st3 (LIST pb b.1) _ (cost c2 + cost r)); [done|done|lia|done|done|done|].
  intros p st4 (B4 & _) Hsame Hp4 Hlook. cbn [repr]. split; [lia|]. exists pb, b.1. split; [done|].
  destruct Hg as [_ Hb0]. cbn [sizeof] in B4. split.
  - eapply repr_frame; [| | |exact Hr2]; [|lia|lia]. intros q Hq. rewrite Hsame, C3 by lia. done.
  - eapply repr_frame; [| | |exact Hr3]; [|lia|lia]. intros q Hq. apply Hsame. lia.
Qed.

(** ** Cutting the words *)

(** A line whose delimiters may have been overwritten with NUL. *)
Definition nulled (l : list Z) : Prop :=
  length l = length L /\ forall i, l !! i = L !! i \/ (l !! i = Some 0 /\ exists c, X !! i = Some c /\ delim c = true).
Definition nul_at (l : list Z) (e : Z) : Prop := l !! Z.to_nat (e - buf) = Some 0.
Definition cut_in (l : list Z) (q e : Z) (w : list Z) : Prop := tok_in q e w /\ nul_at l e.

(** The string at [q] is [w]. *)
Definition string_at (l : list Z) (q : Z) (w : list Z) : Prop := exists pre y, l = pre ++ w ++ 0 :: y /\ q = buf + Z.of_nat (length pre) /\ Forall (fun c => 0 < c) w.

Lemma tok_in_end q e w : tok_in q e w -> exists i, e - buf = Z.of_nat i /\ (i = length X \/ exists c, X !! i = Some c /\ delim c = true) /\ buf <= q.
Proof.
  intros (pre & y & EX & -> & -> & Hw & Hy). exists (length pre + length w)%nat. split; [lia|]. split; [|lia]. destruct y as [|c y].
  - left. rewrite EX, !length_app. simpl. lia.
  - right. exists c. split; [|done]. rewrite EX, app_assoc, lookup_app_r, length_app by (rewrite length_app; lia).
    by replace (_ - _)%nat with O by lia.
Qed.

Lemma put_nul_Ret q e w st :
  tok_in q e w -> nulled (line st) ->
  exists st', put_nul buf e st = Ret (tt, st') /\ cmds st' = cmds st /\ brk st' = brk st /\ nulled (line st') /\ nul_at (line st') e /\
    forall i, line st !! i = Some 0 -> line st' !! i = Some 0.
Proof.
  intros (i & Ei & Hi & _)%tok_in_end [Hlen Hn]. unfold put_nul, wr. rewrite Ei. rewrite length_app in Hlen. simpl in Hlen.
  assert (Hb : (i < length (line st))%nat).
  { destruct Hi as [->|(c & Hc%lookup_lt_Some & _)]; lia. }
  rewrite (proj2 (Z.leb_le _ _)), (proj2 (Z.ltb_lt _ _)) by lia. cbn [andb]. rewrite Nat2Z.id. eexists. split; [done|]. cbn [cmds brk line].
  split; [done|]. split; [done|]. split; [split|split].
  - rewrite length_insert, length_app. simpl. lia.
  - intros j. destruct (decide (j = i)) as [->|Hj].
    + destruct Hi as [->|Hi]; [left|right; split; [by apply list_lookup_insert_eq|done]].
      rewrite list_lookup_insert_eq by done. by rewrite lookup_app_r, Nat.sub_diag by lia.
    + rewrite list_lookup_insert_ne by done. apply Hn.
  - unfold nul_at. rewrite Ei, Nat2Z.id. by apply list_lookup_insert_eq.
  - intros j Hj. destruct (decide (j = i)) as [->|Hne]; [by apply list_lookup_insert_eq|by rewrite list_lookup_insert_ne].
Qed.

Lemma cut_string q e w l : nulled l -> cut_in l q e w -> string_at l q w.
Proof.
  intros [Hlen Hn] [(pre & y & EX & -> & -> & Hw & _) He]. unfold nul_at in He.
  replace (Z.to_nat _) with (length pre + length w)%nat in He by lia.
  exists (take (length pre) l), (drop (S (length pre + length w)) l). rewrite length_app in Hlen. cbn [length] in Hlen. rewrite EX, !length_app in Hlen.
  split; [|split; [rewrite length_take; lia|]].
  2: { rewrite EX in HX. apply Forall_app in HX as [_ HX2]. by apply Forall_app in HX2 as [? _]. }
  assert (E : take (length w) (drop (length pre) l) = w).
  { apply list_eq. intros i. destruct (decide (i < length w)%nat) as [Hi|Hi].
    - rewrite lookup_take_lt, lookup_drop by lia. destruct (lookup_lt_is_Some_2 w i Hi) as [c Hc]. rewrite Hc.
      assert (HL : L !! (length pre + i)%nat = Some c).
      { rewrite EX. rewrite <- !app_assoc, lookup_app_r, lookup_app_l by lia. by replace (length pre + i - length pre)%nat with i by lia. }
      destruct (Hn (length pre + i)%nat) as [->|(_ & d & Hd & Hdel)]; [done|]. rewrite lookup_app_l in HL by by apply lookup_lt_Some in Hd.
      rewrite Hd in HL. injection HL as ->. rewrite Forall_lookup in Hw. by rewrite (Hw i c Hc) in Hdel.
    - rewrite !lookup_ge_None_2; [done|lia|]. rewrite length_take. lia. }
  rewrite <- E at 1. rewrite <- (drop_S l 0 (length pre + length w)) by done. rewrite <- drop_drop, (take_drop (length w)). by rewrite take_drop.
Qed.

Definition same_heap (st st' : sh) : Prop :=
  cmds st' = cmds st /\ brk st' = brk st /\ nulled (line st') /\ forall i, line st !! i = Some 0 -> line st' !! i = Some 0.

Lemma same_heap_trans st1 st2 st3 : same_heap st1 st2 -> same_heap st2 st3 -> same_heap st1 st3.
Proof. intros (H1 & H2 & H3 & H4) (K1 & K2 & K3 & K4). repeat split; try congruence; [apply K3|apply K3|auto]. Qed.

Lemma cut_mono st st' q e w : same_heap st st' -> cut_in (line st) q e w -> cut_in (line st') q e w.
Proof. intros (_ & _ & _ & H) [H1 H2]. split; [done|]. by apply H. Qed.

Lemma nul_args_out k qes ws st :
  Forall2 (fun qe w => tok_in qe.1 qe.2 w) qes ws -> nulled (line st) -> (length qes < 10)%nat -> forall fuel, (length qes - k < fuel)%nat -> (k <= length qes)%nat ->
  Forall2 (fun qe w => cut_in (line st) qe.1 qe.2 w) (take k qes) (take k ws) ->
  exists st', while fuel (nul_turn buf (qes.*1 ++ replicate (10 - length qes) 0) (qes.*2 ++ replicate (10 - length qes) 0)) (Z.of_nat k) st = Ret (tt, st') /\
    same_heap st st' /\ Forall2 (fun qe w => cut_in (line st') qe.1 qe.2 w) qes ws.
Proof.
  intros Hqe Hn Hl fuel. revert k st Hn. induction fuel as [|fuel IH]; intros k st Hn Hf Hk Hcut; [lia|]. rewrite while_S. unfold nul_turn at 1.
  pose proof (Forall2_length _ _ _ Hqe) as Hlw. unfold rd. rewrite (proj2 (Z.leb_le _ _)) by lia. rewrite Nat2Z.id.
  destruct (decide (k = length qes)) as [->|Hne].
  - rewrite lookup_app_r, length_fmap, Nat.sub_diag by (rewrite length_fmap; lia).
    replace (10 - length qes)%nat with (S (9 - length qes)) by lia. cbn [replicate lookup list_lookup]. exists st. split; [done|]. split; [done|].
    by rewrite !take_ge in Hcut by lia.
  - destruct (lookup_lt_is_Some_2 qes k ltac:(lia)) as [[q e] Hq]. destruct (lookup_lt_is_Some_2 ws k ltac:(lia)) as [w Hw].
    pose proof (Forall2_lookup_lr _ _ _ _ _ _ Hqe Hq Hw) as Ht. cbn [fst snd] in Ht.
    rewrite !lookup_app_l by (rewrite length_fmap; lia). rewrite !list_lookup_fmap, Hq. cbn [fmap option_fmap option_map fst snd].
    destruct (tok_in_end _ _ _ Ht) as (i & _ & _ & Hqb). rewrite bind_assoc. rewrite (bind_Ret (ret q) _ _ _ _ eq_refl), (proj2 (Z.eqb_neq q 0)) by lia.
    rewrite bind_assoc, (bind_Ret (ret e) _ _ _ _ eq_refl).
    destruct (put_nul_Ret q e w st Ht Hn) as (st1 & E & H1 & H2 & H3 & H4 & H5). rewrite bind_assoc, (bind_Ret _ _ _ _ _ E), (bind_Ret (ret _) _ _ _ _ eq_refl).
    assert (Hs : same_heap st st1) by done.
    destruct (IH (S k) st1 H3 ltac:(lia) ltac:(lia)) as (st2 & E2 & Hs2 & Hc2).
    { rewrite (take_S_r _ _ _ Hq), (take_S_r _ _ _ Hw). apply Forall2_app; [|by repeat constructor].
      eapply Forall2_impl; [exact Hcut|]. intros qe w'. by apply cut_mono. }
    exists st2. replace (Z.of_nat k + 1) with (Z.of_nat (S k)) by lia. split; [done|]. split; [by eapply same_heap_trans|done].
Qed.

Lemma nulterminate_out lo hi p t : 0 < lo -> forall fuel st,
  repr tok_in (cmds st) lo hi p t -> nulled (line st) -> cost t < Z.of_nat fuel ->
  exists st', nulterminate buf fuel p st = Ret (tt, st') /\ same_heap st st' /\ repr (cut_in (line st')) (cmds st') lo hi p t.
Proof.
  intros Hlo. revert p. induction t as [ws|c IH file mode fd|l IHl r IHr|l IHl r IHr|c IH]; intros p fuel st Hp Hn Hf; pose proof cost_pos as Hcp;
    match type of Hf with cost ?t < _ => pose proof (cost_pos t) end; (destruct fuel as [|fuel]; [lia|]); cbn [cost] in Hf; cbn [repr] in Hp; destruct Hp as [Hb Hp];
    cbn [nulterminate]; rewrite (proj2 (Z.eqb_neq p 0)) by lia; rewrite (bind_Ret (gets cmds) _ _ _ _ eq_refl).
  - destruct Hp as (qes & Hp & Hq & Hl). rewrite Hp. unfold argv_of.
    destruct (nul_args_out 0 qes ws st Hq Hn Hl (S (Z.to_nat MAXARGS)) ltac:(unfold MAXARGS; lia) ltac:(lia) ltac:(constructor)) as (st' & E & Hs & Hc).
    exists st'. split; [exact E|]. split; [done|]. cbn [repr]. split; [done|]. exists qes. by rewrite (proj1 Hs).
  - destruct Hp as (p' & q & e & Hp & Hw & Hr). rewrite Hp. destruct (IH p' fuel st Hr Hn ltac:(lia)) as (st1 & E1 & Hs1 & Hr1).
    rewrite (bind_Ret _ _ _ _ _ E1). destruct (put_nul_Ret q e file st1 Hw (proj1 (proj2 (proj2 Hs1)))) as (st2 & E2 & H1 & H2 & H3 & H4 & H5).
    assert (Hs2 : same_heap st1 st2) by done. exists st2. split; [done|]. split; [by eapply same_heap_trans|]. cbn [repr]. split; [done|].
    exists p', q, e. rewrite H1, (proj1 Hs1). split; [done|]. split; [done|]. rewrite (proj1 Hs1) in Hr1. eapply repr_words; [|exact Hr1]. intros *. by apply cut_mono.
  - destruct Hp as (pl & pr & Hp & Hl & Hr). rewrite Hp. pose proof (Hcp l). pose proof (Hcp r).
    destruct (IHl pl fuel st Hl Hn ltac:(lia)) as (st1 & E1 & Hs1 & Hl1). rewrite (bind_Ret _ _ _ _ _ E1).
    destruct (IHr pr fuel st1 ltac:(by rewrite (proj1 Hs1)) (proj1 (proj2 (proj2 Hs1))) ltac:(lia)) as (st2 & E2 & Hs2 & Hr2).
    exists st2. split; [done|]. split; [by eapply same_heap_trans|]. cbn [repr]. split; [done|]. exists pl, pr. split; [by rewrite (proj1 Hs2), (proj1 Hs1)|].
    split; [|done]. rewrite (proj1 Hs2). eapply repr_words; [|exact Hl1]. intros *. by apply cut_mono.
  - destruct Hp as (pl & pr & Hp & Hl & Hr). rewrite Hp. pose proof (Hcp l). pose proof (Hcp r).
    destruct (IHl pl fuel st Hl Hn ltac:(lia)) as (st1 & E1 & Hs1 & Hl1). rewrite (bind_Ret _ _ _ _ _ E1).
    destruct (IHr pr fuel st1 ltac:(by rewrite (proj1 Hs1)) (proj1 (proj2 (proj2 Hs1))) ltac:(lia)) as (st2 & E2 & Hs2 & Hr2).
    exists st2. split; [done|]. split; [by eapply same_heap_trans|]. cbn [repr]. split; [done|]. exists pl, pr. split; [by rewrite (proj1 Hs2), (proj1 Hs1)|].
    split; [|done]. rewrite (proj1 Hs2). eapply repr_words; [|exact Hl1]. intros *. by apply cut_mono.
  - destruct Hp as (p' & Hp & Hr). rewrite Hp. destruct (IH p' fuel st Hr Hn ltac:(lia)) as (st1 & E1 & Hs1 & Hr1).
    exists st1. split; [done|]. split; [done|]. cbn [repr]. split; [done|]. exists p'. by rewrite (proj1 Hs1) in *.
Qed.

(** ** A whole line *)
Lemma strlen_line st : line st = L -> strlen (drop (Z.to_nat (buf - buf)) (line st)) st = Ret (Z.of_nat (length X), st).
Proof.
  intros ->. rewrite Z.sub_diag, drop_0. unfold strlen. rewrite length_app.
  assert (H : forall fuel k, (k <= length X)%nat -> (length X - k < fuel)%nat ->
    while fuel (fun i => c <- rd L i ;; ret (if c =? 0 then inr i else inl (i + 1))) (Z.of_nat k) st = Ret (Z.of_nat (length X), st)).
  { induction fuel as [|fuel IH]; intros k Hk Hf; [lia|]. rewrite while_S. unfold rd. rewrite (proj2 (Z.leb_le _ _)) by lia. rewrite Nat2Z.id.
    destruct (decide (k = length X)) as [->|Hne].
    - rewrite lookup_app_r, Nat.sub_diag by lia. done.
    - destruct (lookup_lt_is_Some_2 X k ltac:(lia)) as [c Hc]. rewrite lookup_app_l, Hc by lia. rewrite bind_assoc, (bind_Ret (ret c) _ _ _ _ eq_refl).
      pose proof (proj1 (Forall_lookup _ _) HX k c Hc) as Hpos. cbn beta in Hpos. rewrite (proj2 (Z.eqb_neq c 0)) by lia.
      rewrite (bind_Ret (ret _) _ _ _ _ eq_refl). replace (Z.of_nat k + 1) with (Z.of_nat (S k)) by lia. apply IH; lia. }
  apply (H _ 0%nat); lia.
Qed.

Lemma parsecmd_out :
  match parse (tokens X) with
  | Some t =>
      if cost t <=? MAXN then
        exists p st', parsecmd mem buf buf (mkSh L 0 ∅) = Ret (p, st') /\
          repr (fun q _ w => string_at (line st') q w) (cmds st') mem (mem + cost t) p t /\ brk st' = cost t /\ length (line st') = length L
      else parsecmd mem buf buf (mkSh L 0 ∅) = Stop Panic
  | None => parsecmd mem buf buf (mkSh L 0 ∅) = Stop Panic
  end.
Proof.
  set (st := mkSh L 0 ∅). remember (parsecmd mem buf buf st) as run eqn:Erun. unfold parsecmd in Erun.
  unfold bind at 1 in Erun. rewrite (strlen_line st eq_refl), Nat2Z.id in Erun. cbv zeta in Erun.
  assert (Ha : at_tok buf (tokens X)) by (exists X; split; [|done]; exists []; simpl; split; [done|lia]).
  assert (Hg : good st) by (split; [done|unfold MAXN; simpl; lia]). pose proof (at_tok_length _ _ Ha) as Hl.
  pose proof (parseline_out (S (length X)) buf (tokens X) st Hg Ha ltac:(lia)) as Hp.
  unfold parse. rewrite (commands_enough (S (length (tokens X))) (S (length X))) by lia.
  destruct (commands (S (length X)) (tokens X)) as [[t r]|]; [|rewrite Erun; by apply bind_Stop].
  unfold parsed, out in Hp. cbn [brk st] in Hp. rewrite Z.add_0_l in Hp. destruct (cost t <=? MAXN) eqn:Ec; [|rewrite Erun, (bind_Stop _ _ _ _ Hp); destruct r; [by rewrite Ec|done]].
  destruct Hp as (a & st1 & E1 & He & Ha1 & Hr). rewrite (bind_Ret _ _ _ _ _ E1) in Erun. destruct He as (B1 & L1 & _).
  destruct (peek_at a.2 r st1 [] L1 Ha1 ltac:(sub_symbols)) as (s2 & E2 & _ & He2). rewrite (bind_Ret _ _ _ _ _ E2) in Erun. cbn [fst snd] in Erun.
  destruct r as [|t0 r].
  2: { rewrite (proj2 (Z.eqb_neq s2 es)) in Erun by (intros H; by apply He2 in H). done. }
  rewrite Ec, (proj2 He2 eq_refl), Z.eqb_refl in *. cbn [negb] in Erun. rewrite (bind_Ret (gets brk) _ _ _ _ eq_refl) in Erun.
  cbn [brk st] in B1, Hr. rewrite B1, !Z.add_0_l, ?Z.add_0_r in *. pose proof (cost_pos t) as Hc.
  destruct (nulterminate_out mem (mem + cost t) a.1 t Hmem (S (Z.to_nat (cost t))) st1 Hr) as (st2 & E3 & Hs2 & Hr2); [|lia|].
  { rewrite L1. split; [done|auto]. }
  rewrite (bind_Ret _ _ _ _ _ E3) in Erun. destruct Hs2 as (_ & Hbrk & Hn & _). exists a.1, st2. split; [done|]. split; [|split; [congruence|apply Hn]].
  eapply repr_words; [|exact Hr2]. intros q e w. by apply cut_string.
Qed.
End text.

(** C26: on any line [parsecmd] always ends, without a fault: it builds in
    memory the tree the reference parser finds for the line's tokens, every
    word of which is left as a NUL-terminated string of the line, and gives up
    with a message when the reference parser finds none or when the commands
    do not fit into [malloc1]'s array. *)
Theorem parsecmd_correct (mem buf : Z) (X J : list Z) :
  Forall (fun c => 0 < c) X -> 0 < mem -> 0 < buf ->
  let st := mkSh (X ++ 0 :: J) 0 ∅ in
  match parse (tokens X) with
  | Some t =>
      if cost t <=? MAXN then
        exists p st', parsecmd mem buf buf st = Ret (p, st') /\
          repr (fun q _ w => string_at buf (line st') q w) (cmds st') mem (mem + cost t) p t /\ brk st' = cost t /\ length (line st') = length (line st)
      else parsecmd mem buf buf st = Stop Panic
  | None => parsecmd mem buf buf st = Stop Panic
  end.
Proof. intros HX Hmem Hbuf. by apply parsecmd_out. Qed.

Lemma parsecmd_correct_witness :
  let X := str "echo  hi>f|(cat; ls)&" in
  let st := mkSh (X ++ [0; 7]) 0 ∅ in
  let t := Back (Pipe (Redir (Exec [str "echo"; str "hi"]) (str "f") 65 1) (Seq (Exec [str "cat"]) (Exec [str "ls"]))) in
  parse (tokens X) = Some t /\
  exists p st', parsecmd 70000 80000 80000 st = Ret (p, st') /\
    repr (fun q _ w => string_at 80000 (line st') q w) (cmds st') 70000 (70000 + cost t) p t /\ brk st' = cost t /\ length (line st') = length (line st).
Proof.
  intros X st t. assert (E : parse (tokens X) = Some t) by (vm_compute; reflexivity). split; [exact E|].
  pose proof (parsecmd_correct 70000 80000 X [7]) as H. cbv zeta in H. rewrite E in H.
  apply H; [|lia|lia]. unfold X. repeat (constructor; [vm_compute; reflexivity|]). constructor.
Defined.

(** Every command of the language that fits is read back from its
    printed line, whatever follows the line in the buffer. *)
Theorem shell_round_trip (mem buf : Z) (c : ast) (J : list Z) :
  ast_ok c -> cost c <= MAXN -> 0 < mem -> 0 < buf ->
  exists p st', parsecmd mem buf buf (mkSh (show (print 0 c) ++ 0 :: J) 0 ∅) = Ret (p, st') /\
    repr (fun q _ w => string_at buf (line st') q w) (cmds st') mem (mem + cost c) p c.
Proof.
  intros Hc Hcost Hmem Hbuf. pose proof (parsecmd_out mem buf (show (print 0 c)) J) as H.
  rewrite (parse_print c Hc), (proj2 (Z.leb_le _ _) Hcost) in H. destruct H as (p & st' & E & Hr & _); [|done|done|by exists p, st'].
  apply show_pos, print_tokens_ok, Hc.
Qed.

Lemma shell_round_trip_witness :
  let c := Seq (Back (Pipe (Exec [str "a"; str "b"]) (Redir (Exec [str "c"]) (str "f") 0 0))) (Exec []) in
  ast_ok c /\ exists p st', parsecmd 70000 80000 80000 (mkSh (show (print 0 c) ++ [0]) 0 ∅) = Ret (p, st') /\
    repr (fun q _ w => string_at 80000 (line st') q w) (cmds st') 70000 (70000 + cost c) p c.
Proof.
  intros c. assert (Hc : ast_ok c).
  { unfold c. cbn [ast_ok]. repeat (first [split | constructor | done | left]). }
  split; [exact Hc|]. apply (shell_round_trip 70000 80000 c []); [exact Hc|vm_compute; discriminate|lia|lia].
Defined.
