(* ===== verification/ShellRun.v ===== *)
(** * Running commands (user/sh/main.c)

    The shell's processes as interaction trees over the calls they make to
    the C library and the kernel; [runcmd] walks over the commands the parser
    (Shell.v) left in memory. The calls are given their meaning by [run], an
    environment with file descriptors, in which a fork runs both processes
    and a successful [execv] starts a program. *)
From ITree Require Import ITree.
From stdpp Require Import base gmap list strings.
From Stdlib Require Import ZArith Lia Ascii.
From S2P Require Import Prelude Bytes CString Shell ShellSpec ShellParse.

Variant sysE : Type -> Type :=
| Close (fd : Z) : sysE Z
| Open (path : list Z) (mode : Z) : sysE Z
| Dup (fd : Z) : sysE Z
| PipeOf : sysE (Z * Z * Z)
| Fork : sysE Z
| Wait : sysE Z
| Execv (path : list Z) (argv : list (list Z)) : sysE Z
| Chdir (path : list Z) : sysE Z
| Gets (n : Z) : sysE (list Z)
| Getenv (name : list Z) : sysE (option (list Z))
| Print (fd : Z) (text : list (list Z)) : sysE unit
| Exit (code : Z) : sysE void
| Crash : sysE void.

Declare Scope sys_scope.
Delimit Scope sys_scope with sys.
Notation "x <~ e ;; k" := (Vis e (fun x => k)) (at level 100, e at next level, k at level 200, right associativity) : sys_scope.
Notation "'call' e ;; k" := (Vis e (fun _ => k)) (at level 100, e at next level, k at level 200, right associativity) : sys_scope.
Open Scope sys_scope.

Abbreviation process := (itree sysE void).

Definition exit (code : Z) : process := ITree.trigger (Exit code).
Definition crash : process := ITree.trigger Crash.
Definition PANIC (s : list Z) : process := call Print 2 [s] ;; exit 1.

(** A call that does not return. *)
Definition never {R} (p : process) : itree sysE R := ITree.bind p (fun v => match v : void with end).

(** [fork1], for a process that goes on with [k]. *)
Definition fork1 {R} (k : Z -> itree sysE R) : itree sysE R :=
  pid <~ Fork ;; if pid =? -1 then never (PANIC (str "fork")) else k pid.

(** The string at the head of some memory. *)
Fixpoint cstr (l : list Z) : list Z :=
  match l with c :: l => if c =? 0 then [] else c :: cstr l | [] => [] end.

Section run.
Context (mem buf : Z).

Section runcmd.
Context (st : sh).

Definition string_of (p : Z) : list Z := cstr (drop (Z.to_nat (p - buf)) (line st)).
(** The strings up to the NULL in [argv]. *)
Fixpoint argv_strings (argv : list Z) : list (list Z) :=
  match argv with a :: argv => if a =? 0 then [] else string_of a :: argv_strings argv | [] => [] end.

(** The statements after a call of [runcmd] are never reached. *)
Fixpoint runcmd (fuel : nat) (cmd : Z) : process :=
  match fuel with
  | O => crash
  | S fuel =>
      if cmd =? 0 then exit 0
      else
        match cmds st !! cmd with
        | None => crash
        | Some (EXEC argv _) =>
            match argv with
            | [] => crash
            | a0 :: _ =>
                if a0 =? 0 then exit 0
                else
                  call Execv (string_of a0) (argv_strings argv) ;;
                  call Print 2 [str "exec "; string_of a0; str " failed"] ;;
                  exit 0
            end
        | Some (REDIR sub file _ mode fd) =>
            call Close fd ;;
            r <~ Open (string_of file) mode ;;
            if r <? 0 then call Print 2 [str "open "; string_of file; str " failed"] ;; exit 1
            else runcmd fuel sub
        | Some (LIST l r) =>
            fork1 (fun pid =>
              if pid =? 0 then runcmd fuel l
              else call Wait ;; runcmd fuel r)
        | Some (PIPE l r) =>
            p <~ PipeOf ;;
            let '(ret, p0, p1) := p in
            if ret <? 0 then PANIC (str "pipe")
            else
              fork1 (fun pid =>
                if pid =? 0 then
                  call Close 1 ;; call Dup p1 ;; call Close p0 ;; call Close p1 ;; runcmd fuel l
                else
                  fork1 (fun pid =>
                    if pid =? 0 then
                      call Close 0 ;; call Dup p0 ;; call Close p0 ;; call Close p1 ;; runcmd fuel r
                    else
                      call Close p0 ;; call Close p1 ;; call Wait ;; call Wait ;; exit 0))
        | Some (BACK sub) =>
            fork1 (fun pid => if pid =? 0 then runcmd fuel sub else exit 0)
        end
  end.
End runcmd.

(** The child of the shell's main loop: [runcmd(parsecmd(buf))]. *)
Definition child (line : list Z) : process :=
  match parsecmd mem buf buf (mkSh line 0 ∅) with
  | Ret (p, st) => runcmd st (S (Z.to_nat (brk st))) p
  | Stop Panic => call Print 2 [] ;; exit 1
  | Stop _ => crash
  end.

(** [getcmd] and the buffer it fills, unless the input has ended. *)
Definition getcmd {R} (nbuf : nat) (k : option (list Z) -> itree sysE R) : itree sysE R :=
  call Print 2 [str "$ "] ;;
  l <~ Gets (Z.of_nat nbuf) ;;
  let line := l ++ replicate (nbuf - length l) 0 in
  k (match line with c :: _ => if c =? 0 then None else Some line | [] => None end).

Definition is_cd (line : list Z) : bool :=
  match line with
  | c :: d :: e :: _ => (c =? chr "c") && (d =? chr "d") && (e =? 32)
  | _ => false
  end.

(** One turn of the loop over the input; [inr] when it ends. *)
Definition main_turn (_ : unit) : itree sysE (unit + unit) :=
  getcmd 100 (fun cmd =>
    match cmd with
    | None => ITreeDefinition.Ret (inr tt)
    | Some line =>
        if is_cd line then
          let line := <[(length (cstr line) - 1)%nat := 0]> line in
          r <~ Chdir (cstr (drop 3 line)) ;;
          if r <? 0 then call Print 2 [str "cannot cd "; cstr (drop 3 line)] ;; ITreeDefinition.Ret (inl tt)
          else ITreeDefinition.Ret (inl tt)
        else
          fork1 (fun pid =>
            if pid =? 0 then never (child line)
            else call Wait ;; ITreeDefinition.Ret (inl tt))
    end).

(** Three descriptors for the console. *)
Definition console_turn (_ : unit) : itree sysE (unit + unit) :=
  fd <~ Open (str "console") O_RDWR ;;
  if 0 <=? fd then
    if 3 <=? fd then call Close fd ;; ITreeDefinition.Ret (inr tt) else ITreeDefinition.Ret (inl tt)
  else ITreeDefinition.Ret (inr tt).

Fixpoint print_args (i : Z) (argv : list (list Z)) (k : itree sysE unit) : itree sysE unit :=
  match argv with
  | [] => k
  | a :: argv => call Print 1 [str "sh: argv["; [i]; str "] = '"; a; str "'"] ;; print_args (i + 1) argv k
  end.

Definition main (argv : list (list Z)) : itree sysE unit :=
  print_args 0 argv
    (env <~ Getenv (str "TEST_ENV") ;;
     call Print 1 (match env with Some v => [str "sh: testenv = '"; v; str "'"] | None => [str "sh: testenv not found!"] end) ;;
     ITree.bind (ITree.iter console_turn tt) (fun _ => ITree.iter main_turn tt)).
End run.

(** ** An environment

    Calls succeed except [open] and [execv] of what is not there; [n] numbers
    the pipes. What happens is recorded with the descriptors the process has
    at that moment: the program it becomes and its arguments, that it waits
    for a child, that it exits. Both processes of a fork run, the child first,
    with [pid] the number of every child; the descriptors never run out. *)
Inductive file := FPath (path : list Z) (mode : Z) | FEnd (pipe : nat) (write : bool) | FOther (n : Z).
Abbreviation fds := (gmap Z file).
Inductive event := Started (path : list Z) (argv : list (list Z)) (d : fds) | Waits (d : fds) | Ended (code : Z) (d : fds).
Abbreviation events := (list event).

(** The lowest free descriptor. *)
Definition lowest (d : fds) : Z := match list_find (fun i => d !! i = None) (Z.of_nat <$> seq 0 (S (size d))) with Some (_, i) => i | None => 0 end.

Section env.
Context (can_open : list Z -> Z -> bool) (can_exec : list Z -> bool) (pid : Z).

Fixpoint run (fuel n : nat) (d : fds) (t : process) : option (nat * events) :=
  match fuel with
  | O => None
  | S f =>
      match observe t with
      | RetF v => match v : void with end
      | TauF t => run f n d t
      | VisF e k =>
          match e in sysE T return (T -> process) -> option (nat * events) with
          | Close fd => fun k => run f n (delete fd d) (k (if d !! fd then 0 else -1))
          | Open path mode => fun k =>
              if can_open path mode then run f n (<[lowest d := FPath path mode]> d) (k (lowest d)) else run f n d (k (-1))
          | Dup fd => fun k =>
              match d !! fd with Some x => run f n (<[lowest d := x]> d) (k (lowest d)) | None => run f n d (k (-1)) end
          | PipeOf => fun k =>
              let p0 := lowest d in let d1 := <[p0 := FEnd n false]> d in let p1 := lowest d1 in
              run f (S n) (<[p1 := FEnd n true]> d1) (k (0, p0, p1))
          | Fork => fun k =>
              match run f n d (k 0) with
              | Some (n1, s1) => match run f n1 d (k pid) with Some (n2, s2) => Some (n2, s1 ++ s2) | None => None end
              | None => None
              end
          | Wait => fun k => match run f n d (k (-1)) with Some (n1, s1) => Some (n1, Waits d :: s1) | None => None end
          | Execv path argv => fun k => if can_exec path then Some (n, [Started path argv d]) else run f n d (k (-1))
          | Chdir _ => fun k => run f n d (k 0)
          | Gets _ => fun k => run f n d (k [])
          | Getenv _ => fun k => run f n d (k None)
          | Print _ _ => fun k => run f n d (k tt)
          | Exit c => fun _ => Some (n, [Ended c d])
          | Crash => fun _ => None
          end k
      end
  end.

(** What a command stands for: a process that starts a program has the
    descriptors the redirections and pipes around it give it; the one that
    waits for the two sides of a pipe, or for the left of a list, has those
    the command was given, and so has the one that goes on or exits. *)
Fixpoint meaning (n : nat) (d : fds) (t : ast) : nat * events :=
  match t with
  | Exec [] => (n, [Ended 0 d])
  | Exec (w :: ws) => (n, if can_exec w then [Started w (w :: ws) d] else [Ended 0 d])
  | Redir c file mode fd => if can_open file mode then meaning n (<[fd := FPath file mode]> d) c else (n, [Ended 1 (delete fd d)])
  | Pipe l r =>
      let '(n1, s1) := meaning (S n) (<[1 := FEnd n true]> d) l in
      let '(n2, s2) := meaning n1 (<[0 := FEnd n false]> d) r in (n2, s1 ++ s2 ++ [Waits d; Waits d; Ended 0 d])
  | Seq l r => let '(n1, s1) := meaning n d l in let '(n2, s2) := meaning n1 d r in (n2, s1 ++ Waits d :: s2)
  | Back c => let '(n1, s1) := meaning n d c in (n1, s1 ++ [Ended 0 d])
  end.
End env.

(** ** Descriptors *)
Lemma lowest_free d : d !! lowest d = None.
Proof.
  unfold lowest. destruct (list_find _ _) as [[j i]|] eqn:E; [by apply list_find_Some in E as (_ & ? & _)|]. exfalso.
  pose proof (proj1 (list_find_None _ _) E) as Hall. set (l := Z.of_nat <$> seq 0 (S (size d))) in *.
  assert (Hsub : (list_to_set l : gset Z) ⊆ dom d).
  { intros i Hi. apply elem_of_list_to_set in Hi. rewrite Forall_forall in Hall. specialize (Hall i Hi). apply elem_of_dom. by apply not_eq_None_Some. }
  apply subseteq_size in Hsub. rewrite size_list_to_set, size_dom in Hsub by (apply NoDup_fmap_2; [intros ??; lia|apply NoDup_seq]).
  unfold l in Hsub. rewrite length_fmap, length_seq in Hsub. lia.
Qed.

Lemma lowest_fd d (fd : nat) : (fd < S (size d))%nat -> d !! Z.of_nat fd = None -> (forall i, (i < fd)%nat -> d !! Z.of_nat i <> None) -> lowest d = Z.of_nat fd.
Proof.
  intros Hs Hn Hb. unfold lowest.
  assert (list_find (fun i => d !! i = None) (Z.of_nat <$> seq 0 (S (size d))) = Some (fd, Z.of_nat fd)) as ->; [|done].
  apply list_find_Some. split; [|split; [done|]].
  - rewrite list_lookup_fmap, lookup_seq_lt by done. done.
  - intros j y Hj Hlt. rewrite list_lookup_fmap in Hj. destruct (seq 0 (S (size d)) !! j) eqn:E; [|done]. apply lookup_seq in E as [-> _].
    injection Hj as <-. by apply Hb.
Qed.

Lemma lowest_0 d : d !! 0 = None -> lowest d = 0.
Proof. intros H. apply (lowest_fd d 0); [lia|done|lia]. Qed.

Lemma lowest_1 d x : d !! 0 = Some x -> d !! 1 = None -> lowest d = 1.
Proof.
  intros H0 H1. apply (lowest_fd d 1); [|done|].
  - assert (size d <> 0)%nat; [|lia]. intros E%map_size_empty_inv. subst d. done.
  - intros i Hi. replace i with O by lia. change (Z.of_nat 0) with 0. by rewrite H0.
Qed.

(** ** Runs *)
Section runs.
Context (can_open : list Z -> Z -> bool) (can_exec : list Z -> bool) (pid : Z).
Hypothesis Hpid : 0 < pid.

(** Enough fuel gives the result. *)
Definition runs (n : nat) (d : fds) (t : process) (r : nat * events) : Prop :=
  exists F, forall f, (F <= f)%nat -> run can_open can_exec pid f n d t = Some r.

Ltac run_step H := destruct H as [F HF]; exists (S F); intros [|f] Hf; [lia|]; cbn; apply HF; lia.

Lemma runs_exit n d c : runs n d (exit c) (n, [Ended c d]).
Proof. exists 1%nat. intros [|f] Hf; [lia|done]. Qed.

Lemma runs_print n d fd msg k r : runs n d (k tt) r -> runs n d (Vis (Print fd msg) k) r.
Proof. intros H. run_step H. Qed.

Lemma runs_wait n d k n1 s1 : runs n d (k (-1)) (n1, s1) -> runs n d (Vis Wait k) (n1, Waits d :: s1).
Proof. intros [F HF]. exists (S F). intros [|f] Hf; [lia|]. cbn. by rewrite HF by lia. Qed.

Lemma runs_close n d fd k r : runs n (delete fd d) (k (if d !! fd then 0 else -1)) r -> runs n d (Vis (Close fd) k) r.
Proof. intros H. run_step H. Qed.

Lemma runs_open n d path mode k r :
  (if can_open path mode then runs n (<[lowest d := FPath path mode]> d) (k (lowest d)) r else runs n d (k (-1)) r) -> runs n d (Vis (Open path mode) k) r.
Proof. intros H. destruct (can_open path mode) eqn:E; destruct H as [F HF]; exists (S F); intros [|f] Hf; try lia; cbn; rewrite E; apply HF; lia. Qed.

Lemma runs_dup n d fd x k r : d !! fd = Some x -> runs n (<[lowest d := x]> d) (k (lowest d)) r -> runs n d (Vis (Dup fd) k) r.
Proof. intros E [F HF]. exists (S F). intros [|f] Hf; [lia|]. cbn. rewrite E. apply HF. lia. Qed.

Lemma runs_pipe n d k r :
  (let p0 := lowest d in let d1 := <[p0 := FEnd n false]> d in let p1 := lowest d1 in runs (S n) (<[p1 := FEnd n true]> d1) (k (0, p0, p1)) r) ->
  runs n d (Vis PipeOf k) r.
Proof. cbv zeta. intros H. run_step H. Qed.

Lemma runs_exec n d path argv k r :
  (if can_exec path then r = (n, [Started path argv d]) else runs n d (k (-1)) r) -> runs n d (Vis (Execv path argv) k) r.
Proof.
  destruct (can_exec path) eqn:E.
  - intros ->. exists 1%nat. intros [|f] Hf; [lia|]. cbn. by rewrite E.
  - intros [F HF]. exists (S F). intros [|f] Hf; [lia|]. cbn. rewrite E. apply HF. lia.
Qed.

Lemma runs_fork n d k n1 s1 n2 s2 : runs n d (k 0) (n1, s1) -> runs n1 d (k pid) (n2, s2) -> runs n d (fork1 k) (n2, s1 ++ s2).
Proof.
  intros [F1 H1] [F2 H2]. exists (S (F1 + F2)). intros [|f] Hf; [lia|]. cbn. rewrite H1 by lia.
  destruct (Z.eqb_spec pid (-1)); [lia|]. by rewrite H2 by lia.
Qed.
End runs.

(** ** Strings *)
Lemma cstr_app w y : Forall (fun c => 0 < c) w -> cstr (w ++ 0 :: y) = w.
Proof. induction 1 as [|c w Hc _ IH]; [done|]. cbn [cstr app]. rewrite (proj2 (Z.eqb_neq c 0)) by lia. by rewrite IH. Qed.

Section commands.
Context (buf : Z) (st : sh).
Hypothesis Hbuf : 0 < buf.
Local Notation W := (fun q _ w => string_at buf (line st) q w).

Lemma string_of_at q w : string_at buf (line st) q w -> string_of buf st q = w.
Proof.
  intros (pre & y & E & -> & Hw). unfold string_of. rewrite E. replace (Z.to_nat _) with (length pre) by lia.
  by rewrite drop_app_length, cstr_app.
Qed.

Lemma argv_strings_at qes ws m :
  Forall2 (fun (qe : Z * Z) w => string_at buf (line st) qe.1 w) qes ws -> argv_strings buf st (qes.*1 ++ replicate (S m) 0) = ws.
Proof.
  induction 1 as [|[q e] w qes ws Hq _ IH]; [done|]. cbn [fmap list_fmap app argv_strings fst].
  pose proof Hq as (pre & y & _ & Eq & _). cbn [fst] in Eq, Hq. rewrite (proj2 (Z.eqb_neq q 0)) by lia. rewrite (string_of_at _ _ Hq). by f_equal.
Qed.

(** What both ends of a new pipe leave in a child that has moved one of
    them to [fd] and closed them. *)
Lemma child_fds d p0 p1 fd x f0 f1 :
  d !! p0 = None -> d !! p1 = None -> fd <> p0 -> fd <> p1 ->
  delete p1 (delete p0 (<[fd := x]> (delete fd (<[p1 := f1]> (<[p0 := f0]> d))))) = <[fd := x]> (d : fds).
Proof.
  intros H0 H1 Hf0 Hf1. apply map_eq. intros i. destruct (decide (i = p1)) as [->|Hi1].
  - by rewrite lookup_delete_eq, lookup_insert_ne, H1.
  - rewrite lookup_delete_ne by done. destruct (decide (i = p0)) as [->|Hi0].
    + by rewrite lookup_delete_eq, lookup_insert_ne, H0.
    + rewrite lookup_delete_ne by done. destruct (decide (i = fd)) as [->|Hi]; [by rewrite !lookup_insert_eq|].
      by rewrite !(lookup_insert_ne _ fd), lookup_delete_ne, !lookup_insert_ne by done.
Qed.

(** The parent that has closed both ends has what it had before. *)
Lemma parent_fds d p0 p1 f0 f1 : d !! p0 = None -> d !! p1 = None -> delete p1 (delete p0 (<[p1 := f1]> (<[p0 := f0]> d))) = (d : fds).
Proof.
  intros H0 H1. apply map_eq. intros i. destruct (decide (i = p1)) as [->|Hi1]; [by rewrite lookup_delete_eq, H1|].
  rewrite lookup_delete_ne by done. destruct (decide (i = p0)) as [->|Hi0]; [by rewrite lookup_delete_eq, H0|].
  by rewrite lookup_delete_ne, !lookup_insert_ne by done.
Qed.

Context (can_open : list Z -> Z -> bool) (can_exec : list Z -> bool) (pid : Z).
Hypothesis Hpid : 0 < pid.
Local Notation runs := (runs can_open can_exec pid).
Local Notation meaning := (meaning can_open can_exec).

Lemma runcmd_pipe l r pl pr fuel n d x0 x1 p :
  cmds st !! p = Some (PIPE pl pr) -> 0 < p -> d !! 0 = Some x0 -> d !! 1 = Some x1 ->
  (forall n x, runs n (<[1 := x]> d) (runcmd buf st fuel pl) (meaning n (<[1 := x]> d) l)) ->
  (forall n x, runs n (<[0 := x]> d) (runcmd buf st fuel pr) (meaning n (<[0 := x]> d) r)) ->
  runs n d (runcmd buf st (S fuel) p) (meaning n d (Pipe l r)).
Proof.
  intros Hp Hpos H0 H1 Hl Hr. cbn [runcmd ShellRun.meaning]. rewrite (proj2 (Z.eqb_neq p 0)) by lia. rewrite Hp. apply runs_pipe. cbv zeta.
  set (p0 := lowest d). pose proof (lowest_free d) as Hf0. fold p0 in Hf0. set (d1 := <[p0 := FEnd n false]> d).
  set (p1 := lowest d1). pose proof (lowest_free d1) as Hf1. fold p1 in Hf1. unfold d1 in Hf1.
  apply lookup_insert_None in Hf1 as [Hf1 H01]. assert (p0 <> 0 /\ p0 <> 1 /\ p1 <> 0 /\ p1 <> 1) as (N1 & N2 & N3 & N4) by (repeat split; congruence).
  set (d2 := <[p1 := FEnd n true]> d1). change (0 <? 0) with false. cbn iota.
  assert (E0 : d2 !! 0 = Some x0) by (unfold d2, d1; by rewrite !lookup_insert_ne).
  destruct (meaning (S n) (<[1 := FEnd n true]> d) l) as [n1 s1] eqn:El. destruct (meaning n1 (<[0 := FEnd n false]> d) r) as [n2 s2] eqn:Er.
  eapply runs_fork; [done| |].
  - cbn. apply runs_close. eapply (runs_dup _ _ _ _ _ _ (FEnd n true)).
    { rewrite lookup_delete_ne by done. apply lookup_insert_eq. }
    assert (lowest (delete 1 d2) = 1) as -> by (eapply lowest_1; [rewrite lookup_delete_ne by done; exact E0|apply lookup_delete_eq]).
    apply runs_close, runs_close.
    unfold d2, d1. rewrite child_fds by done. rewrite <- El. apply Hl.
  - rewrite (proj2 (Z.eqb_neq pid 0)) by lia. eapply runs_fork; [done| |].
    + cbn. apply runs_close. eapply (runs_dup _ _ _ _ _ _ (FEnd n false)).
      { rewrite lookup_delete_ne by done. unfold d2. rewrite lookup_insert_ne by done. apply lookup_insert_eq. }
      rewrite lowest_0 by apply lookup_delete_eq. apply runs_close, runs_close.
      unfold d2, d1. rewrite child_fds by done. rewrite <- Er. apply Hr.
    + rewrite (proj2 (Z.eqb_neq pid 0)) by lia. apply runs_close, runs_close. unfold d2, d1. rewrite parent_fds by done. apply runs_wait, runs_wait, runs_exit.
Qed.

Lemma runcmd_meaning lo hi t :
  0 < lo -> fds_ok t -> forall fuel p n d x0 x1,
  repr W (cmds st) lo hi p t -> cost t < Z.of_nat fuel -> d !! 0 = Some x0 -> d !! 1 = Some x1 ->
  runs n d (runcmd buf st fuel p) (meaning n d t).
Proof.
  intros Hlo. induction t as [ws|c IH fl mode fd|l IHl r IHr|l IHl r IHr|c IH]; cbn [fds_ok]; intros Hok fuel p n d x0 x1 Hp Hf H0 H1; pose proof cost_pos as Hcp;
    match type of Hf with cost ?t < _ => pose proof (cost_pos t) end; (destruct fuel as [|fuel]; [lia|]); cbn [cost] in Hf;
    cbn [repr] in Hp; destruct Hp as [Hb Hp].
  - cbn [runcmd]. rewrite (proj2 (Z.eqb_neq p 0)) by lia. destruct Hp as (qes & Hp & Hq & Hl). rewrite Hp. unfold argv_of.
    replace (10 - length qes)%nat with (S (9 - length qes)) by lia. pose proof (argv_strings_at _ _ (9 - length qes) Hq) as Ha.
    destruct Hq as [|[q e] w qes ws Hq Hqs]; cbn [fmap list_fmap app fst replicate] in *; [apply runs_exit|].
    pose proof Hq as (pre & y & _ & Eq & _). cbn [fst] in Eq, Hq. rewrite (proj2 (Z.eqb_neq q 0)) by lia.
    apply runs_exec. rewrite (string_of_at _ _ Hq). cbn [ShellRun.meaning]. rewrite Ha.
    destruct (can_exec w); [done|]. apply runs_print, runs_exit.
  - cbn [runcmd]. rewrite (proj2 (Z.eqb_neq p 0)) by lia. destruct Hp as (p' & q & e & Hp & Hw & Hr). rewrite Hp. destruct Hok as [Hfd Hok].
    apply runs_close, runs_open. rewrite (string_of_at _ _ Hw). cbn [ShellRun.meaning]. destruct (can_open fl mode).
    + assert (lowest (delete fd d) = fd) as ->.
      { destruct Hfd as [->| ->]; [apply lowest_0, lookup_delete_eq|]. eapply lowest_1; [rewrite lookup_delete_ne by done; exact H0|apply lookup_delete_eq]. }
      rewrite insert_delete_eq. destruct Hfd as [->| ->]; cbn;
        (eapply IH; [done|exact Hr|lia|..]; first [apply lookup_insert_eq | rewrite lookup_insert_ne by done; eassumption]).
    + cbn. apply runs_print, runs_exit.
  - destruct Hp as (pl & pr & Hp & Hl & Hr), Hok as [Hok1 Hok2]. pose proof (Hcp l). pose proof (Hcp r). eapply runcmd_pipe; [exact Hp|lia|exact H0|exact H1| |].
    + intros n' x. eapply IHl; [done|exact Hl|lia|rewrite lookup_insert_ne by done; exact H0|apply lookup_insert_eq].
    + intros n' x. eapply IHr; [done|exact Hr|lia|apply lookup_insert_eq|rewrite lookup_insert_ne by done; exact H1].
  - cbn [runcmd ShellRun.meaning]. rewrite (proj2 (Z.eqb_neq p 0)) by lia. destruct Hp as (pl & pr & Hp & Hl & Hr), Hok as [Hok1 Hok2]. rewrite Hp.
    pose proof (Hcp l). pose proof (Hcp r). destruct (meaning n d l) as [n1 s1] eqn:El. destruct (meaning n1 d r) as [n2 s2] eqn:Er.
    eapply runs_fork; [done| |].
    + cbn. rewrite <- El. eapply IHl; [done|exact Hl|lia|done|done].
    + rewrite (proj2 (Z.eqb_neq pid 0)) by lia. apply runs_wait. rewrite <- Er. eapply IHr; [done|exact Hr|lia|done|done].
  - cbn [runcmd ShellRun.meaning]. rewrite (proj2 (Z.eqb_neq p 0)) by lia. destruct Hp as (p' & Hp & Hr). rewrite Hp.
    destruct (meaning n d c) as [n1 s1] eqn:Ec. eapply runs_fork; [done| |].
    + cbn. rewrite <- Ec. eapply IH; [done|exact Hr|lia|done|done].
    + rewrite (proj2 (Z.eqb_neq pid 0)) by lia. apply runs_exit.
Qed.
End commands.

(** C25: what a line of input starts. The child of the shell's main loop
    runs the commands that the line's tokens stand for: each program with its
    own words, with exactly the descriptors that its redirections and pipes
    give it and no others. No process keeps an end of a pipe that is not its
    standard input or output: the processes that wait for the sides of a pipe
    or of a list, and those that exit, have exactly the descriptors their
    command was given, so that a reader of a pipe sees its end once the
    writers are gone. A line that is no command, or is too big, starts
    nothing and exits with 1. *)
Theorem shell_line_spawns (mem buf : Z) (can_open : list Z -> Z -> bool) (can_exec : list Z -> bool) (pid : Z) (X J : list Z) n d x0 x1 :
  0 < mem -> 0 < buf -> 0 < pid -> Forall (fun c => 0 < c) X -> d !! 0 = Some x0 -> d !! 1 = Some x1 ->
  exists F, forall f, (F <= f)%nat ->
    run can_open can_exec pid f n d (child mem buf (X ++ 0 :: J)) =
      Some (match parse (tokens X) with
            | Some t => if cost t <=? MAXN then meaning can_open can_exec n d t else (n, [Ended 1 d])
            | None => (n, [Ended 1 d])
            end).
Proof.
  intros Hmem Hbuf Hpid HX H0 H1. pose proof (parsecmd_out mem buf X J HX Hmem Hbuf) as Hp. unfold child.
  assert (Hfail : runs can_open can_exec pid n d (call Print 2 [] ;; exit 1) (n, [Ended 1 d])) by apply runs_print, runs_exit.
  destruct (parse (tokens X)) as [t|] eqn:Et; [|by rewrite Hp]. destruct (cost t <=? MAXN); [|by rewrite Hp].
  destruct Hp as (p & st & -> & Hr & Hbrk & _). eapply runcmd_meaning; [done|done|exact Hmem|by eapply parse_fds|exact Hr| |done|done].
  pose proof (cost_pos t). lia.
Qed.

Lemma shell_line_spawns_witness :
  let d := <[2 := FOther 2]> (<[1 := FOther 1]> (<[0 := FOther 0]> ∅)) in
  let X := str "ls -l <d | wc >f; (no; id)&" in
  exists F, forall f, (F <= f)%nat ->
    run (fun _ _ => true) (fun w => negb (bool_decide (w = str "no"))) 7 f 0 d (child 70000 80000 (X ++ [0])) =
      Some (1%nat, [Started (str "ls") [str "ls"; str "-l"] (<[0 := FPath (str "d") 0]> (<[1 := FEnd 0 true]> d));
                    Started (str "wc") [str "wc"] (<[1 := FPath (str "f") 65]> (<[0 := FEnd 0 false]> d));
                    Waits d; Waits d; Ended 0 d;
                    Waits d;
                    Ended 0 d; Waits d; Started (str "id") [str "id"] d; Ended 0 d]).
Proof.
  intros d X. pose proof (shell_line_spawns 70000 80000 (fun _ _ => true) (fun w => negb (bool_decide (w = str "no"))) 7 X [] 0 d (FOther 0) (FOther 1)
    ltac:(lia) ltac:(lia) ltac:(lia)) as H.
  assert (E : parse (tokens X) = Some (Seq (Pipe (Redir (Exec [str "ls"; str "-l"]) (str "d") 0 0) (Redir (Exec [str "wc"]) (str "f") 65 1)) (Back (Seq (Exec [str "no"]) (Exec [str "id"])))))
    by (vm_compute; reflexivity).
  rewrite E in H. apply H; [|reflexivity|reflexivity]. unfold X. repeat (constructor; [vm_compute; reflexivity|]). constructor.
Defined.
