(* ===== verification/RBFrame.v ===== *)
(** * Several trees in one memory (common/rbtree.c)

    The nodes of the kernel's red-black trees are parts of other structs and
    lie in one memory. Here it is shown that a call on one tree neither reads
    nor writes any other node ([local]), so that a sorted queue keeps its
    members whatever is done to the others; [queue_is] and the three calls on
    it are what Timer.v and Sched.v use of the trees. *)
From stdpp Require Import base gmap list sorting.
From Stdlib Require Import ZArith Lia.
From S2P Require Import Prelude RBTree RBSpec RBRefine RBOps RBErase RBMap.

(** [m] has the same run, and touches nothing else, in a bigger memory. *)
Definition local {A} (m : M rbst A) : Prop :=
  forall h r g a h' r', m (mkRb h r) = Ret (a, mkRb h' r') -> h ##ₘ g ->
    dom h' = dom h /\ m (mkRb (h ∪ g) r) = Ret (a, mkRb (h' ∪ g) r').

(** [f] keeps its results when it is given more fuel. *)
Definition fuel_mono {A} (f : nat -> M rbst A) : Prop :=
  forall n n' s r, (n <= n')%nat -> f n s = Ret r -> f n' s = Ret r.

Lemma dom_disjoint (h h' g : heap) : dom h' = dom h -> h ##ₘ g -> h' ##ₘ g.
Proof. intros E H. apply map_disjoint_dom. rewrite E. by apply map_disjoint_dom. Qed.

Lemma local_ret {A} (a : A) : local (ret a).
Proof. intros h r g b h' r' E _. unfold ret in *. by simplify_eq. Qed.

Lemma local_stop {A} x : local (stop x : M rbst A).
Proof. by intros h r g b h' r' E _. Qed.

Lemma local_bind {A B} (m : M rbst A) (k : A -> M rbst B) : local m -> (forall a, local (k a)) -> local (bind m k).
Proof.
  intros Hm Hk h r g b h' r' E Hd. apply bind_inv in E as (a & [h1 r1] & E1 & E2).
  destruct (Hm _ _ _ _ _ _ E1 Hd) as [D1 E1']. destruct (Hk _ _ _ _ _ _ _ E2 (dom_disjoint _ _ _ D1 Hd)) as [D2 E2'].
  split; [congruence|]. by rewrite (bind_Ret _ _ _ _ _ E1').
Qed.

Lemma local_when b m : local m -> local (when b m).
Proof. destruct b; [done|intros _; apply local_ret]. Qed.

Lemma local_while {A B} n (body : A -> M rbst (A + B)) a : (forall a, local (body a)) -> local (while n body a).
Proof.
  intros Hb. revert a. induction n as [|n IH]; intros a; cbn [while]; [apply local_stop|].
  apply local_bind; [done|]. intros [a'|b]; [done|apply local_ret].
Qed.

Lemma local_load p : local (on_nodes (load p)).
Proof.
  intros h r g a h' r' E _. unfold on_nodes, zoom, load in *. cbn [nodes] in *. destruct (h !! p) as [v|] eqn:Ep; [|done]. cbn [root] in *. simplify_eq.
  split; [done|]. by rewrite (lookup_union_Some_l _ _ _ _ Ep).
Qed.

Lemma local_update p f : local (on_nodes (update p f)).
Proof.
  intros h r g a h' r' E _. unfold on_nodes, zoom, update in *. cbn [nodes] in *. destruct (h !! p) as [v|] eqn:Ep; [|done]. cbn [root] in *. simplify_eq.
  split; [rewrite dom_insert_L; apply elem_of_dom_2 in Ep; set_solver|]. rewrite (lookup_union_Some_l _ _ _ _ Ep). by rewrite insert_union_l.
Qed.

Lemma local_root : local (gets root).
Proof. intros h r g a h' r' E _. unfold gets in *. cbn [root] in *. by simplify_eq. Qed.

Lemma local_set_root v : local (set_root v).
Proof. intros h r g a h' r' E _. unfold set_root, modify in *. cbn [nodes] in *. by simplify_eq. Qed.

(** The fuel is the number of all nodes: with more nodes there is more. *)
Lemma local_fuel {A} (f : nat -> M rbst A) : fuel_mono f -> (forall n, local (f n)) -> local (bind rb_fuel f).
Proof.
  intros Hmono Hf h r g a h' r' E Hd. unfold rb_fuel, gets, bind in *. cbn [nodes] in *.
  destruct (Hf _ _ _ _ _ _ _ E Hd) as [D E']. split; [done|]. eapply Hmono; [|exact E'].
  rewrite map_size_disj_union by done. lia.
Qed.

Lemma mono_const {A} (m : M rbst A) : fuel_mono (fun _ => m).
Proof. by intros n n' s r _ E. Qed.

Lemma mono_bind {A B} (m : nat -> M rbst A) (k : nat -> A -> M rbst B) :
  fuel_mono m -> (forall a, fuel_mono (fun n => k n a)) -> fuel_mono (fun n => bind (m n) (k n)).
Proof.
  intros Hm Hk n n' s [b s'] Hn E. apply bind_inv in E as (a & s1 & E1 & E2).
  rewrite (bind_Ret _ _ _ _ _ (Hm _ _ _ _ Hn E1)). by apply (Hk a n n').
Qed.

Lemma mono_while {A B} (body : A -> M rbst (A + B)) a : fuel_mono (fun n => while n body a).
Proof. intros n n' s [b s'] Hn E. by eapply while_more. Qed.

Ltac local_step :=
  first
    [ apply local_ret | apply local_stop | apply local_load | apply local_update | apply local_root | apply local_set_root
    | apply local_bind; [|intros ?] | apply local_while; intros ? | apply local_when
    | match goal with
      | |- local (if ?b then _ else _) => destruct b
      | |- local (match ?x with _ => _ end) => destruct x
      end
    | progress unfold pc_of, right_of, left_of, set_pc, set_right, set_left, rb_set_parent_color, rb_set_parent, rb_set_black, rb_red_parent,
        rb_is_red, rb_is_black, rb_parent, and_is_red, or_is_black, set_parent_color_if, __rb_change_child, __rb_rotate_set_parents, rb_successor,
        __rb_insert_fix, rb_insert_descend, rb_insert_fix_body, __rb_erase, __rb_erase_fix, rb_erase_fix_body ].

Ltac mono_step :=
  first
    [ apply mono_const | apply mono_while | apply mono_bind; [|intros ?]
    | match goal with
      | |- fuel_mono (fun _ => if ?b then _ else _) => destruct b
      | |- fuel_mono (fun _ => match ?x with _ => _ end) => destruct x
      end
    | progress unfold rb_successor, __rb_insert_fix, __rb_erase_fix, __rb_erase ].

Ltac local_tac := repeat first [ apply local_fuel; [solve [repeat mono_step]|intros ?] | local_step ].

Lemma local_insert cmp x : local (_rb_insert cmp x).
Proof. unfold _rb_insert. local_tac. Qed.

Lemma local_erase x : local (_rb_erase x).
Proof. unfold _rb_erase. local_tac. Qed.

Lemma local_first : local _rb_first.
Proof. unfold _rb_first. local_tac. Qed.

Lemma local_lookup cmp x : local (_rb_lookup cmp x).
Proof. unfold _rb_lookup, rb_lookup_body. local_tac. Qed.

(** ** Queues *)
Definition queue_is (cmp : Z -> Z -> bool) (h : heap) (r : Z) (l : list Z) : Prop := is_set cmp (mkRb h r) l.

Lemma queue_members cmp h r l x : queue_is cmp h r l -> x ∈ l -> is_Some (h !! x).
Proof.
  intros (t & (Ht & _ & _) & _ & <- & _). cbn [nodes] in Ht. generalize dependent (cpar []). induction t as [|c tl IHl a tr IHr]; intros par; cbn [rep inorder]; [set_solver|].
  intros (Ha & Hl & Hr) [H|[->|H]%elem_of_cons]%elem_of_app; [by eapply IHl|by eexists|by eapply IHr].
Qed.

(** A queue depends on its members' nodes and on their order only. *)
Lemma queue_frame cmp cmp' h h' r l :
  (forall x, x ∈ l -> h' !! x = h !! x) -> (forall a b, a ∈ l -> b ∈ l -> cmp' a b = cmp a b) -> queue_is cmp h r l -> queue_is cmp' h' r l.
Proof.
  intros Hh Hc (t & (Ht & Hr & Ha) & Hrb & Hin & Hs). exists t. cbn [nodes root] in *. rewrite <- Hin in Hh.
  split; [split; [by eapply rep_frame|done]|]. split; [done|]. split; [done|]. clear -Hc Hs.
  induction Hs as [|x l Hs IH Hx]; [constructor|]. constructor.
  - apply IH. intros a b Ha Hb. apply Hc; set_solver.
  - rewrite Forall_forall in Hx |- *. intros y Hy. rewrite Hc; [by apply Hx|set_solver|set_solver].
Qed.

Lemma queue_NoDup cmp h r l : queue_is cmp h r l -> NoDup l /\ 0 ∉ l.
Proof. apply set_NoDup. Qed.

Lemma queue_empty cmp h : queue_is cmp h 0 [].
Proof.
  exists E. split; [|split; [|split; [done|constructor]]].
  - split; [done|]. split; [done|]. split; [apply NoDup_singleton|constructor].
  - split; [done|]. split; [done|]. by exists 0%nat.
Qed.

(** Splitting the memory at the nodes that a call works on. *)
Section split.
Context (d : list Z) (h : heap).
Definition inner : heap := filter (fun kv => kv.1 ∈ d) h.
Definition outer : heap := filter (fun kv => kv.1 ∉ d) h.

Lemma split_union : inner ∪ outer = h.
Proof. apply map_filter_union_complement. Qed.
Lemma split_disjoint : inner ##ₘ outer.
Proof. apply map_disjoint_filter_complement. Qed.
Lemma inner_lookup x : x ∈ d -> inner !! x = h !! x.
Proof. intros Hx. unfold inner. destruct (h !! x) as [v|] eqn:E; [by apply map_lookup_filter_Some|]. apply map_lookup_filter_None. by left. Qed.

(** A local call that succeeds on the inner nodes. *)
Lemma local_call {A} (m : M rbst A) r a s1 :
  local m -> m (mkRb inner r) = Ret (a, s1) ->
  exists h', m (mkRb h r) = Ret (a, mkRb h' (root s1)) /\ dom h' = dom h /\
    (forall x, x ∉ d -> h' !! x = h !! x) /\ (forall x, x ∈ d -> h' !! x = nodes s1 !! x).
Proof.
  intros Hm E. destruct s1 as [h1 r1]. destruct (Hm _ _ _ _ _ _ E split_disjoint) as [D E']. rewrite split_union in E'. exists (h1 ∪ outer).
  cbn [root nodes]. split; [done|]. split; [|split].
  - rewrite dom_union_L, D, <- dom_union_L. f_equal. apply split_union.
  - intros x Hx. rewrite <- split_union. rewrite !lookup_union_r; [done| |].
    + unfold inner. apply map_lookup_filter_None. right. by intros v _.
    + apply not_elem_of_dom. rewrite D. apply not_elem_of_dom. unfold inner. apply map_lookup_filter_None. right. by intros v _.
  - intros x Hx. destruct (h1 !! x) as [v|] eqn:Ex; [by apply lookup_union_Some_l|]. rewrite lookup_union_r by done.
    unfold outer. apply map_lookup_filter_None. right. intros v _ H. by apply H.
Qed.
End split.

Lemma elem_of_insert_key cmp x l y : y ∈ insert_key cmp x l <-> y = x \/ y ∈ l.
Proof. induction l as [|a l IH]; cbn [insert_key]; [set_solver|]. destruct (cmp x a); set_solver. Qed.

Section queue.
Context (cmp : Z -> Z -> bool) `{!KeyOrder cmp}.

Lemma queue_inner d h r l : queue_is cmp h r l -> (forall x, x ∈ l -> x ∈ d) -> is_set cmp (mkRb (inner d h) r) l.
Proof. intros Hq Hd. eapply queue_frame; [|done|exact Hq]. intros x Hx. apply inner_lookup. by apply Hd. Qed.

(** One call on a queue: the result, the queue after it, and that the nodes
    of no other struct have changed. *)
Definition queue_call {A} (m : M rbst A) (d : list Z) (h : heap) (r : Z) (a : A) (l' : list Z) : Prop :=
  exists h' r', m (mkRb h r) = Ret (a, mkRb h' r') /\ queue_is cmp h' r' l' /\ dom h' = dom h /\ forall x, x ∉ d -> h' !! x = h !! x.

Lemma queue_call_intro {A} (m : M rbst A) d h r a l' s1 :
  local m -> m (mkRb (inner d h) r) = Ret (a, s1) -> is_set cmp s1 l' -> (forall x, x ∈ l' -> x ∈ d) -> queue_call m d h r a l'.
Proof.
  intros Hm E Hs Hd. destruct (local_call _ _ _ _ _ _ Hm E) as (h' & E' & D & Hout & Hin). exists h', (root s1). split; [done|]. split; [|done].
  destruct s1 as [h1 r1]. cbn [nodes root] in *. eapply (queue_frame _ _ h1); [|done|exact Hs]. intros x Hx. apply Hin. by apply Hd.
Qed.

Lemma queue_insert h r l x :
  queue_is cmp h r l -> is_Some (h !! x) -> x <> 0 -> x mod 4 = 0 -> x ∉ l -> (forall a, a ∈ l -> cmp x a = true \/ cmp a x = true) ->
  queue_call (_rb_insert cmp x) (x :: l) h r 0 (insert_key cmp x l).
Proof.
  intros Hq [n0 Hx] Hx0 Hx4 Hl Hfr. pose proof (queue_inner (x :: l) _ _ _ Hq ltac:(set_solver)) as Hi.
  destruct (set_insert cmp ko_trans ko_irrefl ko_weak _ l x n0 Hi) as (s1 & E & Hs); [cbn [nodes]; rewrite inner_lookup by set_solver; done|done|done|done|].
  rewrite (proj2 (fresh_key_spec cmp x l) Hfr) in E, Hs.
  eapply queue_call_intro; [apply local_insert|exact E|exact Hs|]. intros y. rewrite elem_of_insert_key. set_solver.
Qed.

Lemma queue_erase h r l x : queue_is cmp h r l -> x ∈ l -> queue_call (_rb_erase x) l h r tt (filter (fun b => b <> x) l).
Proof.
  intros Hq Hx. pose proof (queue_inner l _ _ _ Hq ltac:(done)) as Hi.
  destruct (set_erase cmp _ l x Hi Hx) as (s1 & E & Hs).
  eapply queue_call_intro; [apply local_erase|exact E|exact Hs|]. intros y. rewrite list_elem_of_filter. tauto.
Qed.

Lemma queue_first h r l : queue_is cmp h r l -> _rb_first (mkRb h r) = Ret (hd 0 l, mkRb h r).
Proof. apply set_first. Qed.

Lemma queue_lookup h r l x : queue_is cmp h r l -> _rb_lookup cmp x (mkRb h r) = Ret (find_key cmp x l, mkRb h r).
Proof. apply (set_lookup cmp ko_trans ko_irrefl ko_weak). Qed.
End queue.
