(* ===== verification/Timer.v ===== *)
(** * Timers of a CPU (kernel/cpu.c)

    Every CPU keeps its timers in a tree ordered by their deadlines and has
    the clock interrupt it for the first of them. A timer is named by the
    address of its [_node]; [tick n] is the [n]th reading of the clock and
    [one_ms] the number of clock cycles in a millisecond. *)
From stdpp Require Import base gmap list sorting.
From Stdlib Require Import ZArith Lia.
From S2P Require Import Prelude RBTree RBMap RBRefine RBFrame.

Record timer := mkTimer { triggered : bool; elapse : Z; _key : Z; handler : Z; data : Z }.

(** The timers and their nodes, each CPU's tree, the cycles each CPU's clock
    was last set to and the number of readings so far. *)
Record timer_st := mkTimers {
  tnodes : heap; tms : gmap Z timer; troots : gmap Z Z; countdown : gmap Z Z; readings : nat }.

Definition set_tms (f : gmap Z timer -> gmap Z timer) (s : timer_st) := mkTimers (tnodes s) (f (tms s)) (troots s) (countdown s) (readings s).
Definition get_timer (t : Z) : M timer_st timer := fun s => match tms s !! t with Some x => Ret (x, s) | None => Stop Fault end.
Definition put_timer (t : Z) (f : timer -> timer) : M timer_st unit := x <- get_timer t ;; modify (set_tms (insert t (f x))).

Definition with_triggered (b : bool) (t : timer) := mkTimer b (elapse t) (_key t) (handler t) (data t).
Definition with_elapse (e : Z) (t : timer) := mkTimer (triggered t) e (_key t) (handler t) (data t).
Definition with_key (k : Z) (t : timer) := mkTimer (triggered t) (elapse t) k (handler t) (data t).
Definition with_handler (h : Z) (t : timer) := mkTimer (triggered t) (elapse t) (_key t) h (data t).
Definition with_data (d : Z) (t : timer) := mkTimer (triggered t) (elapse t) (_key t) (handler t) d.

(** [__timer_cmp] *)
Definition key_of (s : timer_st) (t : Z) : Z := match tms s !! t with Some x => _key x | None => 0 end.
Definition __timer_cmp (s : timer_st) (l r : Z) : bool :=
  let d := i64 (key_of s l - key_of s r) in
  if d <? 0 then true else if d =? 0 then l <? r else false.

(** A call on the tree of [cpu]. *)
Definition on_tree {A} (cpu : Z) (m : M rbst A) : M timer_st A :=
  fun s => match troots s !! cpu with
           | None => Stop Fault
           | Some r =>
               match m (mkRb (tnodes s) r) with
               | Ret (a, q) => Ret (a, mkTimers (nodes q) (tms s) (<[cpu := root q]> (troots s)) (countdown s) (readings s))
               | Stop x => Stop x
               end
           end.

Section timers.
Context (tick : nat -> Z) (one_ms : Z).

Definition get_timestamp_ms : M timer_st Z :=
  fun s => Ret (tick (readings s), mkTimers (tnodes s) (tms s) (troots s) (countdown s) (S (readings s))).

Section cpu.
Context (cpu : Z).

Definition reset_clock (countdown_ms : Z) : M timer_st unit :=
  let t := u64 (countdown_ms * one_ms) in
  assert (t <=? 0x7fffffff) ;;;
  modify (fun s => mkTimers (tnodes s) (tms s) (troots s) (<[cpu := t]> (countdown s)) (readings s)).

Definition __timer_set_clock : M timer_st unit :=
  node <- on_tree cpu _rb_first ;;
  if node =? 0 then reset_clock 1000
  else
    t <- get_timer node ;;
    let t1 := _key t in
    t0 <- get_timestamp_ms ;;
    if t1 <=? t0 then reset_clock 0 else reset_clock (t1 - t0).

Definition set_cpu_timer (timer : Z) : M timer_st unit :=
  put_timer timer (with_triggered false) ;;;
  now <- get_timestamp_ms ;;
  put_timer timer (fun t => with_key (u64 (now + elapse t)) t) ;;;
  r <- (fun s => on_tree cpu (_rb_insert (__timer_cmp s) timer) s) ;;
  assert (0 =? r) ;;;
  __timer_set_clock.

Definition cancel_cpu_timer (timer : Z) : M timer_st unit :=
  t <- get_timer timer ;;
  assert (negb (triggered t)) ;;;
  on_tree cpu (_rb_erase timer) ;;;
  __timer_set_clock.

(** One turn of [timer_clock_handler]: the timer whose handler is called
    next, if there is one. *)
Definition next_timer : M timer_st (option Z) :=
  node <- on_tree cpu _rb_first ;;
  if node =? 0 then ret None
  else
    now <- get_timestamp_ms ;;
    t <- get_timer node ;;
    if now <? _key t then ret None
    else
      cancel_cpu_timer node ;;;
      put_timer node (with_triggered true) ;;;
      ret (Some node).

(** [timer->handler(timer)] is the handlers' code on a state of theirs. *)
Definition timer_clock_handler {T} (get : T -> timer_st) (set : timer_st -> T -> T) (call : Z -> M T unit) (fuel : nat) : M T unit :=
  zoom get set (reset_clock 1000) ;;;
  while fuel (fun _ : unit =>
    t <- zoom get set next_timer ;;
    match t with
    | None => ret (inr tt)
    | Some t => call t ;;; ret (inl tt)
    end) tt.

(** [hello], the handler of [hello_timer[cpu]]. *)
Definition hello (hello_timer t : Z) : M timer_st unit :=
  put_timer t (fun t => with_data (u64 (data t + 1)) t) ;;; set_cpu_timer hello_timer.
End cpu.
End timers.

Lemma get_timer_Ret t s x : tms s !! t = Some x -> get_timer t s = Ret (x, s).
Proof. intros E. unfold get_timer. by rewrite E. Qed.

Lemma put_timer_Ret t f s x : tms s !! t = Some x -> put_timer t f s = Ret (tt, set_tms <[t := f x]> s).
Proof. intros E. unfold put_timer. by rewrite (bind_Ret _ _ _ _ _ (get_timer_Ret _ _ _ E)). Qed.

(** ** Order *)
Definition keys_ok (s : timer_st) : Prop := forall t x, tms s !! t = Some x -> 0 <= _key x < 2 ^ 62.

Lemma timer_cmp_lex s l r : keys_ok s -> __timer_cmp s l r = if key_of s l =? key_of s r then l <? r else key_of s l <? key_of s r.
Proof.
  intros Hk. assert (H : forall t, 0 <= key_of s t < 2 ^ 62).
  { intros t. unfold key_of. destruct (tms s !! t) eqn:E; [by eapply Hk|lia]. }
  pose proof (H l). pose proof (H r). unfold __timer_cmp, i64. rewrite wraps_small by lia.
  destruct (Z.ltb_spec (key_of s l - key_of s r) 0), (Z.eqb_spec (key_of s l - key_of s r) 0), (Z.eqb_spec (key_of s l) (key_of s r)), (Z.ltb_spec (key_of s l) (key_of s r)); try lia; done.
Qed.

#[export] Instance lex_order (key : Z -> Z) : KeyOrder (fun l r => if key l =? key r then l <? r else key l <? key r).
Proof.
  split.
  - intros a. rewrite Z.eqb_refl. apply Z.ltb_irrefl.
  - intros a b c. destruct (Z.eqb_spec (key a) (key b)), (Z.eqb_spec (key b) (key c)), (Z.eqb_spec (key a) (key c)); rewrite ?Z.ltb_lt; lia.
  - intros a b c. destruct (Z.eqb_spec (key a) (key b)), (Z.eqb_spec (key a) (key c)), (Z.eqb_spec (key c) (key b)); rewrite ?Z.ltb_lt; lia.
Qed.

Lemma lex_total (key : Z -> Z) a b : a <> b -> (if key a =? key b then a <? b else key a <? key b) = true \/ (if key b =? key a then b <? a else key b <? key a) = true.
Proof. intros H. destruct (Z.eqb_spec (key a) (key b)), (Z.eqb_spec (key b) (key a)); rewrite ?Z.ltb_lt; lia. Qed.

Lemma order_ext (cmp cmp' : Z -> Z -> bool) : (forall a b, cmp a b = cmp' a b) -> KeyOrder cmp' -> KeyOrder cmp.
Proof.
  intros E [H1 H2 H3]. split.
  - intros a. by rewrite E.
  - intros a b c. rewrite !E. apply H2.
  - intros a b c. rewrite !E. apply H3.
Qed.

(** ** The invariant: [q cpu] are the armed timers of [cpu] in order *)
Section spec.
Context (tick : nat -> Z) (one_ms max_elapse : Z).
Hypothesis tick_bound : forall n, 0 <= tick n < 2 ^ 61.
Hypothesis tick_mono : forall n m, (n <= m)%nat -> tick n <= tick m.
Hypothesis ms_bound : 0 < one_ms /\ 1000 <= max_elapse < 2 ^ 31 /\ max_elapse * one_ms <= 0x7fffffff.

Record timers_ok (s : timer_st) (q : Z -> list Z) : Prop := {
  to_queue : forall k r, troots s !! k = Some r -> queue_is (__timer_cmp s) (tnodes s) r (q k);
  to_member : forall k t, t ∈ q k -> exists x, tms s !! t = Some x /\ triggered x = false /\ _key x <= tick (readings s) + max_elapse;
  to_apart : forall k k' t, t ∈ q k -> t ∈ q k' -> k = k';
  to_keys : keys_ok s;
  to_timer : forall t x, tms s !! t = Some x -> is_Some (tnodes s !! t) /\ t <> 0 /\ t mod 4 = 0 /\ 0 <= elapse x <= max_elapse
}.

Lemma cmp_order s : keys_ok s -> KeyOrder (__timer_cmp s).
Proof. intros H. eapply order_ext; [|apply (lex_order (key_of s))]. intros a b. by apply timer_cmp_lex. Qed.

Lemma cmp_total s a b : keys_ok s -> a <> b -> __timer_cmp s a b = true \/ __timer_cmp s b a = true.
Proof. intros H Hab. rewrite !timer_cmp_lex by done. by apply lex_total. Qed.

Lemma cmp_same s s' a b : key_of s' a = key_of s a -> key_of s' b = key_of s b -> __timer_cmp s' a b = __timer_cmp s a b.
Proof. intros Ha Hb. unfold __timer_cmp. by rewrite Ha, Hb. Qed.

Lemma key_of_Some s t x : tms s !! t = Some x -> key_of s t = _key x.
Proof. intros E. unfold key_of. by rewrite E. Qed.

(** The clock is set for the first of [l] as seen at [now]. *)
Definition clock_set (s s' : timer_st) (k : Z) (l : list Z) : Prop :=
  match l with
  | [] => countdown s' !! k = Some (1000 * one_ms) /\ readings s' = readings s
  | t :: _ => countdown s' !! k = Some (Z.max 0 (key_of s t - tick (readings s)) * one_ms) /\ readings s' = S (readings s)
  end.

Definition same_timers (s s' : timer_st) : Prop := tnodes s' = tnodes s /\ tms s' = tms s /\ troots s' = troots s /\ (readings s <= readings s')%nat.

Lemma reset_clock_Ret k d s :
  0 <= d <= max_elapse -> reset_clock one_ms k d s = Ret (tt, mkTimers (tnodes s) (tms s) (troots s) (<[k := d * one_ms]> (countdown s)) (readings s)).
Proof.
  intros Hd. unfold reset_clock. cbv zeta. assert (0 <= d * one_ms <= 0x7fffffff) by nia. rewrite u64_small by lia.
  unfold bind, assert. by rewrite (proj2 (Z.leb_le _ _)) by lia.
Qed.

Lemma set_clock_spec s q k r :
  timers_ok s q -> troots s !! k = Some r ->
  exists s', __timer_set_clock tick one_ms k s = Ret (tt, s') /\ same_timers s s' /\ clock_set s s' k (q k).
Proof.
  intros H Hr. unfold __timer_set_clock.
  assert (E1 : on_tree k _rb_first s = Ret (hd 0 (q k), s)).
  { unfold on_tree. rewrite Hr, (queue_first _ _ _ _ (to_queue _ _ H k r Hr)). cbn [nodes root]. by rewrite insert_id; [destruct s|]. }
  rewrite (bind_Ret _ _ _ _ _ E1). destruct (q k) as [|t l] eqn:Eq; cbn [hd].
  - rewrite Z.eqb_refl, reset_clock_Ret by lia. eexists. split; [done|]. split; [repeat split; cbn; lia|]. split; [apply lookup_insert_eq|done].
  - destruct (to_member _ _ H k t ltac:(rewrite Eq; by left)) as (x & Hx & _ & Hdue). destruct (to_timer _ _ H t x Hx) as (_ & Ht0 & _).
    rewrite (proj2 (Z.eqb_neq t 0)) by done. unfold bind, get_timer. rewrite Hx. unfold get_timestamp_ms.
    pose proof (key_of_Some _ _ _ Hx) as Ek. pose proof (to_keys _ _ H t x Hx).
    destruct (Z.leb_spec (_key x) (tick (readings s))); rewrite reset_clock_Ret by (cbn; lia); eexists; (split; [done|]); (split; [repeat split; cbn; lia|]);
      (split; [|done]); cbn [countdown]; rewrite lookup_insert_eq, Ek; f_equal; lia.
Qed.

(** Changes that leave the members' keys and nodes alone. *)
Lemma timers_ok_reading s s' q : timers_ok s q -> same_timers s s' -> timers_ok s' q.
Proof.
  intros [H1 H2 H3 H4 H5] (E1 & E2 & E3 & E4).
  assert (Hk : forall a b, __timer_cmp s' a b = __timer_cmp s a b) by (intros; apply cmp_same; unfold key_of; by rewrite E2).
  split.
  - intros k r Hr. rewrite E3 in Hr. eapply queue_frame; [| |by apply H1]; [by rewrite E1|intros; apply Hk].
  - intros k t Ht. destruct (H2 k t Ht) as (x & Hx & Hx2 & Hx3). exists x. rewrite E2. pose proof (tick_mono _ _ E4). split; [done|]. split; [done|lia].
  - done.
  - intros t x. rewrite E2. apply H4.
  - intros t x. rewrite E2, E1. apply H5.
Qed.

Definition add_timer (s : timer_st) (k t : Z) (q : Z -> list Z) : Z -> list Z := fun j => if decide (j = k) then insert_key (__timer_cmp s) t (q k) else q j.
Definition drop_timer (k t : Z) (q : Z -> list Z) : Z -> list Z := fun j => if decide (j = k) then filter (fun u => u <> t) (q k) else q j.

Lemma cancel_spec s q k t r x :
  timers_ok s q -> troots s !! k = Some r -> t ∈ q k -> tms s !! t = Some x ->
  exists s', cancel_cpu_timer tick one_ms k t s = Ret (tt, s') /\ timers_ok s' (drop_timer k t q) /\ tms s' = tms s /\ dom (troots s') = dom (troots s) /\
    (readings s <= readings s')%nat /\ clock_set s s' k (drop_timer k t q k).
Proof.
  intros H Hr Ht Hx. pose proof (cmp_order s (to_keys _ _ H)) as Hord. unfold cancel_cpu_timer. rewrite (bind_Ret _ _ _ _ _ (get_timer_Ret _ _ _ Hx)).
  destruct (to_member _ _ H k t Ht) as (x' & Hx' & Htr & _). rewrite Hx in Hx'. injection Hx' as <-. rewrite Htr. rewrite (bind_Ret (assert (negb false)) _ s tt s eq_refl).
  destruct (queue_erase (__timer_cmp s) _ _ _ t (to_queue _ _ H k r Hr) Ht) as (h' & r' & E & Hq & Hd & Hout).
  set (s1 := mkTimers h' (tms s) (<[k := r']> (troots s)) (countdown s) (readings s)).
  assert (E1 : on_tree k (_rb_erase t) s = Ret (tt, s1)) by (unfold on_tree; by rewrite Hr, E).
  rewrite (bind_Ret _ _ _ _ _ E1).
  assert (H1 : timers_ok s1 (drop_timer k t q)).
  { assert (Hsub : forall j u, u ∈ drop_timer k t q j -> u ∈ q j).
    { intros j u. unfold drop_timer. destruct (decide (j = k)) as [->|]; [|done]. by intros [_ ?]%list_elem_of_filter. }
    split.
    - intros j rj. cbn [troots s1]. unfold drop_timer. destruct (decide (j = k)) as [->|Hj].
      + rewrite lookup_insert_eq. intros [= <-]. exact Hq.
      + rewrite lookup_insert_ne by done. intros Hrj. eapply queue_frame; [|done|by apply (to_queue _ _ H)]. cbn [tnodes s1].
        intros u Hu. apply Hout. intros Hu'. apply Hj. by eapply (to_apart _ _ H).
    - intros j u Hu. by apply (to_member _ _ H j u), Hsub.
    - intros j j' u Hu Hu'. eapply (to_apart _ _ H); by apply Hsub.
    - apply (to_keys _ _ H).
    - intros u y Hy. cbn [tnodes s1]. destruct (to_timer _ _ H u y Hy) as (Hn & ?). split; [|done]. by rewrite <- elem_of_dom, Hd, elem_of_dom. }
  destruct (set_clock_spec s1 _ k r' H1 ltac:(apply lookup_insert_eq)) as (s2 & E2 & Hs2 & Hc2). exists s2. split; [done|].
  split; [by eapply timers_ok_reading|]. destruct Hs2 as (_ & -> & -> & Hrd). split; [done|]. split; [|split; [done|exact Hc2]].
  cbn [troots s1]. rewrite dom_insert_L. apply elem_of_dom_2 in Hr. set_solver.
Qed.

(** The timer [t], armed at [now]. *)
Definition arm (now : Z) (x : timer) : timer := with_key (now + elapse x) (with_triggered false x).

(** Changing a timer that is in no queue. *)
Lemma timers_ok_put s q t x y (n : nat) :
  timers_ok s q -> tms s !! t = Some x -> (forall k, t ∉ q k) -> 0 <= _key y < 2 ^ 62 -> 0 <= elapse y <= max_elapse -> (readings s <= n)%nat ->
  timers_ok (mkTimers (tnodes s) (<[t := y]> (tms s)) (troots s) (countdown s) n) q.
Proof.
  intros H Hx Ht Hk He Hn. pose proof (tick_mono _ _ Hn) as Hm. split.
  - intros k r Hr. eapply queue_frame; [done| |by apply (to_queue _ _ H)]. intros a b Ha Hb. apply cmp_same; unfold key_of; cbn [tms];
      rewrite lookup_insert_ne; try done; intros ->; by eapply Ht.
  - intros k u Hu. destruct (to_member _ _ H k u Hu) as (z & Hz & Hz2 & Hz3). exists z. cbn [tms readings].
    rewrite lookup_insert_ne by (intros ->; by eapply Ht). split; [done|]. split; [done|lia].
  - apply (to_apart _ _ H).
  - intros u z. cbn [tms]. intros [[<- <-]|[_ Hz]]%lookup_insert_Some; [done|by apply (to_keys _ _ H u)].
  - intros u z. cbn [tms tnodes]. intros [[<- <-]|[_ Hz]]%lookup_insert_Some; [|by apply (to_timer _ _ H)].
    destruct (to_timer _ _ H t x Hx) as (? & ? & ? & _). done.
Qed.

Lemma set_spec s q k t r x :
  timers_ok s q -> troots s !! k = Some r -> tms s !! t = Some x -> (forall k, t ∉ q k) ->
  exists s' s1, set_cpu_timer tick one_ms k t s = Ret (tt, s') /\ tms s1 = <[t := arm (tick (readings s)) x]> (tms s) /\ readings s1 = S (readings s) /\
    timers_ok s' (add_timer s1 k t q) /\ tms s' = tms s1 /\ dom (troots s') = dom (troots s) /\ (readings s1 <= readings s')%nat /\
    clock_set s1 s' k (add_timer s1 k t q k).
Proof.
  intros H Hr Hx Ht. destruct (to_timer _ _ H t x Hx) as (Hn & Ht0 & Ht4 & He). unfold set_cpu_timer.
  rewrite (bind_Ret _ _ _ _ _ (put_timer_Ret _ _ _ _ Hx)). rewrite (bind_Ret (get_timestamp_ms tick) _ _ _ _ eq_refl).
  set (now := tick _). assert (Hnow : now = tick (readings s)) by done. clearbody now.
  pose proof (tick_bound (readings s)) as Hb. rewrite <- Hnow in Hb.
  set (s1 := mkTimers (tnodes s) (<[t := arm now x]> (tms s)) (troots s) (countdown s) (S (readings s))). 
  assert (E2 : put_timer t (fun t => with_key (u64 (now + elapse t)) t)
      (mkTimers (tnodes (set_tms <[t := with_triggered false x]> s)) (tms (set_tms <[t := with_triggered false x]> s)) (troots (set_tms <[t := with_triggered false x]> s))
        (countdown (set_tms <[t := with_triggered false x]> s)) (S (readings (set_tms <[t := with_triggered false x]> s)))) = Ret (tt, s1)).
  { rewrite (put_timer_Ret _ _ _ (with_triggered false x)) by apply lookup_insert_eq. unfold set_tms, s1, arm. cbn. rewrite insert_insert_eq. by rewrite u64_small by lia. }
  rewrite (bind_Ret _ _ _ _ _ E2).
  assert (H1 : timers_ok s1 q) by (apply (timers_ok_put _ _ _ x); cbn; try done; lia).
  pose proof (cmp_order s1 (to_keys _ _ H1)) as Hord.
  destruct (queue_insert (__timer_cmp s1) _ _ _ t (to_queue _ _ H1 k r Hr) Hn Ht0 Ht4 (Ht k)) as (h' & r' & E & Hq & Hd & Hout).
  { intros a Ha. apply cmp_total; [apply (to_keys _ _ H1)|]. intros ->. by eapply Ht. }
  set (s2 := mkTimers h' (tms s1) (<[k := r']> (troots s1)) (countdown s1) (readings s1)).
  assert (E3 : on_tree k (_rb_insert (__timer_cmp s1) t) s1 = Ret (0, s2)) by (unfold on_tree; change (troots s1) with (troots s); by rewrite Hr, E).
  unfold bind at 1. rewrite E3. rewrite (bind_Ret (assert (0 =? 0)) _ s2 tt s2 eq_refl).
  assert (H2 : timers_ok s2 (add_timer s1 k t q)).
  { assert (Hmem : forall j u, u ∈ add_timer s1 k t q j -> (j = k /\ u = t) \/ u ∈ q j).
    { intros j u. unfold add_timer. destruct (decide (j = k)) as [->|]; [|by right]. rewrite elem_of_insert_key. intros [Hu|Hu]; [by left|by right]. }
    split.
    - intros j rj. cbn [troots s2]. unfold add_timer. destruct (decide (j = k)) as [->|Hj].
      + rewrite lookup_insert_eq. intros [= <-]. exact Hq.
      + rewrite lookup_insert_ne by done. intros Hrj. eapply queue_frame; [|done|by apply (to_queue _ _ H1)]. cbn [tnodes s2].
        intros u Hu. apply Hout. intros [->|Hu']%elem_of_cons; [by eapply Ht|]. apply Hj. by eapply (to_apart _ _ H).
    - intros j u [[-> ->]|Hu]%Hmem; [|by apply (to_member _ _ H1 j)]. exists (arm now x). cbn [tms s2 s1 readings]. rewrite lookup_insert_eq.
      split; [done|]. split; [done|]. cbn. pose proof (tick_mono (readings s) (S (readings s)) ltac:(lia)). lia.
    - intros j j' u Hj Hj'. apply Hmem in Hj as [[-> ->]|Hj], Hj' as [[-> Eu]|Hj'].
      + done.
      + by destruct (Ht j').
      + subst u. by destruct (Ht j).
      + by eapply (to_apart _ _ H).
    - apply (to_keys _ _ H1).
    - intros u y Hy. cbn [tnodes s2]. destruct (to_timer _ _ H1 u y Hy) as (Hnu & ?). split; [|done]. by rewrite <- elem_of_dom, Hd, elem_of_dom. }
  destruct (set_clock_spec s2 _ k r' H2 ltac:(apply lookup_insert_eq)) as (s3 & E4 & Hs3 & Hc3). exists s3, s1.
  split; [done|]. split; [done|]. split; [done|]. split; [by eapply timers_ok_reading|]. destruct Hs3 as (_ & -> & -> & Hrd).
  split; [done|]. split; [|split; [done|]].
  - cbn [troots s2]. rewrite dom_insert_L. apply elem_of_dom_2 in Hr. set_solver.
  - unfold clock_set in *. destruct (add_timer s1 k t q k); exact Hc3.
Qed.

(** What [next_timer] returns and leaves armed. *)
Definition next_of (s : timer_st) (l : list Z) : option Z :=
  match l with [] => None | t :: _ => if tick (readings s) <? key_of s t then None else Some t end.

Lemma next_spec s q k r :
  timers_ok s q -> troots s !! k = Some r ->
  exists s', next_timer tick one_ms k s = Ret (next_of s (q k), s') /\ dom (troots s') = dom (troots s) /\
    match next_of s (q k) with
    | None => timers_ok s' q
    | Some t => timers_ok s' (drop_timer k t q) /\ tms s' = alter (with_triggered true) t (tms s) /\ exists c, countdown s' !! k = Some c
    end.
Proof.
  intros H Hr. unfold next_timer.
  assert (E1 : on_tree k _rb_first s = Ret (hd 0 (q k), s)).
  { unfold on_tree. rewrite Hr, (queue_first _ _ _ _ (to_queue _ _ H k r Hr)). cbn [nodes root]. by rewrite insert_id; [destruct s|]. }
  rewrite (bind_Ret _ _ _ _ _ E1). unfold next_of. destruct (q k) as [|t l] eqn:Eq; cbn [hd].
  { rewrite Z.eqb_refl. exists s. done. }
  assert (Htq : t ∈ q k) by (rewrite Eq; by left). destruct (to_member _ _ H k t Htq) as (x & Hx & Htr & _).
  destruct (to_timer _ _ H t x Hx) as (_ & Ht0 & _). rewrite (proj2 (Z.eqb_neq t 0)) by done.
  rewrite (bind_Ret (get_timestamp_ms tick) _ _ _ _ eq_refl). set (s1 := mkTimers _ _ _ _ _).
  assert (Hs1 : same_timers s s1) by (repeat split; cbn; lia). pose proof (timers_ok_reading _ _ _ H Hs1) as H1.
  rewrite (bind_Ret _ _ s1 _ _ (get_timer_Ret t s1 x Hx)). rewrite (key_of_Some _ _ _ Hx). destruct (tick (readings s) <? _key x); [by exists s1|].
  destruct (cancel_spec s1 q k t r x H1 Hr Htq Hx) as (s2 & E2 & H2 & Et2 & Ed2 & _ & Hc2). rewrite (bind_Ret _ _ _ _ _ E2).
  assert (Hx2 : tms s2 !! t = Some x) by (rewrite Et2; done). rewrite (bind_Ret _ _ _ _ _ (put_timer_Ret _ _ _ _ Hx2)). eexists. split; [done|].
  split; [exact Ed2|]. split; [|split].
  - apply (timers_ok_put _ _ _ x); [exact H2|exact Hx2| |apply (to_keys _ _ H2 t x Hx2)|apply (to_timer _ _ H2 t x Hx2)|done].
    intros j. unfold drop_timer. destruct (decide (j = k)) as [->|Hj]; [intros [? _]%list_elem_of_filter; done|].
    intros Hu. apply Hj. by eapply (to_apart _ _ H).
  - cbn [tms set_tms]. rewrite Et2. apply map_eq. intros j. destruct (decide (j = t)) as [->|Hj].
    + rewrite lookup_insert_eq, lookup_alter_eq, Hx. done.
    + by rewrite lookup_insert_ne, lookup_alter_ne.
  - unfold clock_set in Hc2. destruct (drop_timer k t q k); destruct Hc2 as [? _]; by eexists.
Qed.
End spec.

(** C29: on a CPU whose armed timers are [q k], [set_cpu_timer] arms a timer
    at its place in the order of deadlines and [cancel_cpu_timer] removes one;
    neither fails an assertion, both leave the other CPUs' timers alone and
    set the clock for exactly the time to the CPU's first deadline. The clock
    handler takes the first timer, disarmed, if and only if it is due. *)
Theorem cpu_timers_correct (tick : nat -> Z) (one_ms max_elapse : Z) (s : timer_st) (q : Z -> list Z) (k r : Z) :
  (forall n, 0 <= tick n < 2 ^ 61) -> (forall n m, (n <= m)%nat -> tick n <= tick m) ->
  0 < one_ms /\ 1000 <= max_elapse < 2 ^ 31 /\ max_elapse * one_ms <= 0x7fffffff ->
  timers_ok tick max_elapse s q -> troots s !! k = Some r ->
  (forall t x, tms s !! t = Some x -> (forall j, t ∉ q j) ->
     exists s' s1, set_cpu_timer tick one_ms k t s = Ret (tt, s') /\ tms s1 = <[t := arm (tick (readings s)) x]> (tms s) /\
       timers_ok tick max_elapse s' (add_timer s1 k t q) /\ tms s' = tms s1 /\ clock_set tick one_ms s1 s' k (add_timer s1 k t q k)) /\
  (forall t, t ∈ q k ->
     exists s', cancel_cpu_timer tick one_ms k t s = Ret (tt, s') /\ timers_ok tick max_elapse s' (drop_timer k t q) /\ tms s' = tms s /\
       clock_set tick one_ms s s' k (drop_timer k t q k)) /\
  (exists s', next_timer tick one_ms k s = Ret (next_of tick s (q k), s') /\
     match next_of tick s (q k) with
     | None => timers_ok tick max_elapse s' q
     | Some t => timers_ok tick max_elapse s' (drop_timer k t q) /\ tms s' = alter (with_triggered true) t (tms s)
     end).
Proof.
  intros Hb Hm Hms H Hr. split; [|split].
  - intros t x Hx Ht. destruct (set_spec tick one_ms max_elapse Hb Hm Hms s q k t r x H Hr Hx Ht) as (s' & s1 & E & E1 & _ & H1 & E2 & _ & _ & Hc).
    by exists s', s1.
  - intros t Ht. destruct (to_member _ _ _ _ H k t Ht) as (x & Hx & _).
    destruct (cancel_spec tick one_ms max_elapse Hb Hm Hms s q k t r x H Hr Ht Hx) as (s' & E & H1 & E1 & _ & _ & Hc). exists s'. split; [done|].
    split; [done|]. split; [done|]. unfold clock_set in *. by destruct (drop_timer k t q k).
  - destruct (next_spec tick one_ms max_elapse Hb Hm Hms s q k r H Hr) as (s' & E & _ & H1). exists s'. split; [done|].
    destruct (next_of tick s (q k)); [|done]. destruct H1 as (? & ? & _). done.
Qed.

Definition ex_timers : timer_st :=
  mkTimers (<[16 := mkRbNode 0 0 0]> (<[32 := mkRbNode 0 0 0]> ∅))
    (<[16 := mkTimer true 5000 0 0 0]> (<[32 := mkTimer true 5 0 0 0]> ∅)) (<[0 := 0]> (<[1 := 0]> ∅)) ∅ 3.

Lemma ex_timers_ok tick : timers_ok tick 5000 ex_timers (fun _ => []).
Proof.
  split.
  - intros k r. unfold ex_timers. cbn [troots tnodes]. intros [[_ <-]|[_ [[_ <-]|[_ [=]]]%lookup_insert_Some]]%lookup_insert_Some; apply queue_empty.
  - intros k t Ht. inversion Ht.
  - intros k k' t Ht. inversion Ht.
  - intros t x. unfold ex_timers. cbn [tms]. intros [[_ <-]|[_ [[_ <-]|[_ [=]]]%lookup_insert_Some]]%lookup_insert_Some; cbn; lia.
  - intros t x. unfold ex_timers. cbn [tms tnodes].
    intros [[<- <-]|[_ [[<- <-]|[_ [=]]]%lookup_insert_Some]]%lookup_insert_Some; repeat split; try done; try (by eexists); cbn; lia.
Qed.

Lemma cpu_timers_correct_witness :
  let tick n := Z.of_nat (Nat.min n 1000) in
  exists s' s1, set_cpu_timer tick 54000 0 16 ex_timers = Ret (tt, s') /\
    timers_ok tick 5000 s' (add_timer s1 0 16 (fun _ => [])) /\ clock_set tick 54000 s1 s' 0 (add_timer s1 0 16 (fun _ => []) 0).
Proof.
  intros tick. destruct (cpu_timers_correct tick 54000 5000 ex_timers (fun _ => []) 0 0) as (H & _ & _).
  - intros n. unfold tick. lia.
  - intros n m Hn. unfold tick. lia.
  - lia.
  - apply ex_timers_ok.
  - reflexivity.
  - destruct (H 16 (mkTimer true 5000 0 0 0) eq_refl) as (s' & s1 & E & _ & H1 & _ & Hc); [intros j Hj; inversion Hj|]. exists s', s1. auto.
Defined.
