(* ===== verification/Sched.v ===== *)
(** * The scheduler (kernel/sched.c, kernel/container.c)

    Processes and containers are scheduled through the [schinfo] they hold,
    named here by the address of its tree node: [sch_p p] for the process at
    [p] and [sch_c c] for the container at [c]. Every container has a tree of
    runnable members, ordered by virtual run time; all the nodes are in one
    memory (RBFrame.v). The calls run one at a time: [schelock] is held from
    their beginning to their end, and from there on to the next process when
    the processor is given up, so [_sched] ends with the release of the lock
    by the process that was chosen ([swtch] is not modelled further). *)
From stdpp Require Import base gmap list sorting.
From Stdlib Require Import ZArith Lia.
From S2P Require Import Prelude Mmu RBTree RBMap RBRefine RBFrame Timer.

Inductive procstate := UNUSED | RUNNABLE | RUNNING | SLEEPING | DEEPSLEEPING | ZOMBIE.
#[global] Instance procstate_eq_dec : EqDecision procstate.
Proof. solve_decision. Defined.

Record schinfo := mkSchinfo { vruntime : Z; prio : Z; weight : Z; iscontainer : bool }.
Record schqueue := mkQueue { root_ : Z; weight_sum : Z; sched_latency : Z; Running : bool }.
Record pgdir := mkPgdir { pt : Z; online : bool }.
Record proc := mkProc { killed : bool; idle : bool; state : procstate; p_container : Z; p_pgdir : pgdir }.
Record container := mkContainer { c_parent : Z; rootproc : Z; c_queue : schqueue }.
Record cpu := mkCpu { thisproc_ : Z; idle_ : Z; starttime : Z; ttbr0 : Z }.

Record sched_st := mkSched {
  rbnodes : heap; schinfos : gmap Z schinfo; procs : gmap Z proc; conts : gmap Z container;
  cpus : gmap Z cpu; timers : timer_st; schelock : bool }.

Definition set_rbnodes f s := mkSched (f (rbnodes s)) (schinfos s) (procs s) (conts s) (cpus s) (timers s) (schelock s).
Definition set_schinfos f s := mkSched (rbnodes s) (f (schinfos s)) (procs s) (conts s) (cpus s) (timers s) (schelock s).
Definition set_procs f s := mkSched (rbnodes s) (schinfos s) (f (procs s)) (conts s) (cpus s) (timers s) (schelock s).
Definition set_conts f s := mkSched (rbnodes s) (schinfos s) (procs s) (f (conts s)) (cpus s) (timers s) (schelock s).
Definition set_cpus f s := mkSched (rbnodes s) (schinfos s) (procs s) (conts s) (f (cpus s)) (timers s) (schelock s).
Definition set_timers t s := mkSched (rbnodes s) (schinfos s) (procs s) (conts s) (cpus s) t (schelock s).
Definition set_lock b s := mkSched (rbnodes s) (schinfos s) (procs s) (conts s) (cpus s) (timers s) b.

(** ** Fields of the objects *)
Definition get_proc (p : Z) : M sched_st proc := fun s => match procs s !! p with Some x => Ret (x, s) | None => Stop Fault end.
Definition get_cont (c : Z) : M sched_st container := fun s => match conts s !! c with Some x => Ret (x, s) | None => Stop Fault end.
Definition get_info (x : Z) : M sched_st schinfo := fun s => match schinfos s !! x with Some i => Ret (i, s) | None => Stop Fault end.
Definition put_proc (p : Z) (f : proc -> proc) : M sched_st unit := x <- get_proc p ;; modify (set_procs (insert p (f x))).
Definition put_cont (c : Z) (f : container -> container) : M sched_st unit := x <- get_cont c ;; modify (set_conts (insert c (f x))).
Definition put_info (x : Z) (f : schinfo -> schinfo) : M sched_st unit := i <- get_info x ;; modify (set_schinfos (insert x (f i))).

Definition with_state (st : procstate) (p : proc) := mkProc (killed p) (idle p) st (p_container p) (p_pgdir p).
Definition with_pgdir (f : pgdir -> pgdir) (p : proc) := mkProc (killed p) (idle p) (state p) (p_container p) (f (p_pgdir p)).
Definition with_online (b : bool) (d : pgdir) := mkPgdir (pt d) b.
Definition with_queue (f : schqueue -> schqueue) (c : container) := mkContainer (c_parent c) (rootproc c) (f (c_queue c)).
Definition with_root (r : Z) (q : schqueue) := mkQueue r (weight_sum q) (sched_latency q) (Running q).
Definition with_sum (f : Z -> Z) (q : schqueue) := mkQueue (root_ q) (i32 (f (weight_sum q))) (sched_latency q) (Running q).
Definition with_latency (l : Z) (q : schqueue) := mkQueue (root_ q) (weight_sum q) (i32 l) (Running q).
Definition with_running (b : bool) (q : schqueue) := mkQueue (root_ q) (weight_sum q) (sched_latency q) b.
Definition with_vruntime (v : Z) (i : schinfo) := mkSchinfo v (prio i) (weight i) (iscontainer i).

(** [prio_to_weight] of kernel/schinfo.h, from priority -20 on. *)
Definition prio_to_weight : list Z :=
  [88761; 71755; 56483; 46273; 36291; 29154; 23254; 18705; 14949; 11916; 9548; 7620; 6100; 4904; 3906; 3121; 2501; 1991; 1586; 1277;
   1024; 820; 655; 526; 423; 335; 272; 215; 172; 137; 110; 87; 70; 56; 45; 36; 29; 23; 18; 15].
Definition min_lantency : Z := 1.

Definition init_schinfo (group : bool) : schinfo := mkSchinfo 0 21 (nth 21 prio_to_weight 0) group.
Definition init_schqueue : schqueue := mkQueue 0 0 6 false.
(** [init_container] *)
Definition init_container : container := mkContainer 0 0 init_schqueue.

(** [cmp] *)
Definition vr (s : sched_st) (x : Z) : Z := match schinfos s !! x with Some i => vruntime i | None => 0 end.
Definition cmp (s : sched_st) (l r : Z) : bool := if vr s l =? vr s r then l <? r else vr s l <? vr s r.

(** A call on the tree of the container [c]. *)
Definition on_queue {A} (c : Z) (m : M rbst A) : M sched_st A :=
  fun s => match conts s !! c with
           | None => Stop Fault
           | Some ct =>
               match m (mkRb (rbnodes s) (root_ (c_queue ct))) with
               | Ret (a, q) => Ret (a, set_conts (insert c (with_queue (with_root (root q)) ct)) (set_rbnodes (fun _ => nodes q) s))
               | Stop x => Stop x
               end
           end.

(** [ASSERT(!_rb_insert(node, &c->schqueue.root, cmp))] *)
Definition enqueue (c x : Z) : M sched_st unit := r <- (fun s => on_queue c (_rb_insert (cmp s) x) s) ;; assert (r =? 0).
Definition first (c : Z) : M sched_st Z := on_queue c _rb_first.
Definition erase (c x : Z) : M sched_st unit := on_queue c (_rb_erase x).

Definition _acquire_sched_lock : M sched_st unit := l <- gets schelock ;; if l : bool then stop Sleep else modify (set_lock true).
Definition _release_sched_lock : M sched_st unit := modify (set_lock false).

Section sched.
(** The offsets of [schinfo.node] in the structs, the root container, the
    timers [clock_interupt], the invalid page table, the clock, and the CPU
    that runs the code. *)
Context (proc_off cont_off root_container : Z) (clock_interupt : Z -> Z) (invalid_pt : Z).
Context (tick : nat -> Z) (one_ms : Z) (cpuid : Z).

Definition sch_p (p : Z) : Z := p + proc_off.
Definition sch_c (c : Z) : Z := c + cont_off.

Definition get_cpu : M sched_st cpu := fun s => match cpus s !! cpuid with Some c => Ret (c, s) | None => Stop Fault end.
Definition put_cpu (f : cpu -> cpu) : M sched_st unit := c <- get_cpu ;; modify (set_cpus (insert cpuid (f c))).
Definition thisproc : M sched_st Z := c <- get_cpu ;; ret (thisproc_ c).
Definition timestamp : M sched_st Z := zoom timers set_timers (get_timestamp_ms tick).

Definition min_vruntime (c : Z) : M sched_st Z :=
  t <- first c ;;
  if t =? 0 then this <- thisproc ;; i <- get_info (sch_p this) ;; ret (vruntime i)
  else i <- get_info t ;; ret (vruntime i).

Definition is_zombie (p : Z) : M sched_st bool :=
  _acquire_sched_lock ;;; x <- get_proc p ;; _release_sched_lock ;;; ret (bool_decide (state x = ZOMBIE)).
Definition is_unused (p : Z) : M sched_st bool :=
  _acquire_sched_lock ;;; x <- get_proc p ;; _release_sched_lock ;;; ret (bool_decide (state x = UNUSED)).

(** Putting a container into its parent's queue, at the queue's least time. *)
Definition requeue (c : Z) : M sched_st unit :=
  ct <- get_cont c ;;
  let parent := c_parent ct in
  v <- min_vruntime parent ;;
  put_info (sch_c c) (with_vruntime v) ;;;
  i <- get_info (sch_c c) ;;
  put_cont parent (with_queue (with_sum (fun w => w + weight i))) ;;;
  enqueue parent (sch_c c).

Definition activate_turn (c : Z) : M sched_st (Z + unit) :=
  ct <- get_cont c ;;
  if negb (Running (c_queue ct)) && negb (c =? root_container) then
    l <- (fun s => on_queue (c_parent ct) (_rb_lookup (cmp s) (sch_c c)) s) ;;
    if l =? 0 then requeue c ;;; ret (inl (c_parent ct)) else ret (inr tt)
  else ret (inr tt).

Definition cont_fuel : M sched_st nat := gets (fun s => S (size (conts s))).

Definition _activate_proc (p : Z) (onalert : bool) : M sched_st bool :=
  _acquire_sched_lock ;;;
  x <- get_proc p ;;
  if bool_decide (state x = RUNNING) || bool_decide (state x = RUNNABLE) || bool_decide (state x = ZOMBIE) || (bool_decide (state x = DEEPSLEEPING) && onalert)
  then _release_sched_lock ;;; ret false
  else
    put_proc p (with_state RUNNABLE) ;;;
    v <- min_vruntime (p_container x) ;;
    put_info (sch_p p) (with_vruntime v) ;;;
    i <- get_info (sch_p p) ;;
    put_cont (p_container x) (with_queue (with_sum (fun w => w + weight i))) ;;;
    enqueue (p_container x) (sch_p p) ;;;
    x <- get_proc p ;;
    when (bool_decide (state x = SLEEPING)) (n <- cont_fuel ;; while n activate_turn (p_container x)) ;;;
    _release_sched_lock ;;; ret true.

Definition activate_group (group : Z) : M sched_st unit := _acquire_sched_lock ;;; requeue group ;;; _release_sched_lock.

(** The two loops of [update_this_state] over the containers. *)
Definition runnable_turn (v : Z) (c : Z) : M sched_st (Z + unit) :=
  if c =? root_container then ret (inr tt)
  else
    put_info (sch_c c) (fun i => with_vruntime (u64 (vruntime i + v)) i) ;;;
    put_cont c (with_queue (with_running false)) ;;;
    ct <- get_cont c ;;
    enqueue (c_parent ct) (sch_c c) ;;;
    ret (inl (c_parent ct)).
Definition stopped_turn (v : Z) (c : Z) : M sched_st (Z + unit) :=
  if c =? root_container then ret (inr tt)
  else
    put_info (sch_c c) (fun i => with_vruntime (u64 (vruntime i + v)) i) ;;;
    put_cont c (with_queue (with_running false)) ;;;
    ct <- get_cont c ;;
    n <- first c ;;
    when (negb (n =? 0)) (enqueue (c_parent ct) (sch_c c)) ;;;
    i <- get_info (sch_c c) ;;
    put_cont (c_parent ct) (with_queue (with_sum (fun w => w - weight i))) ;;;
    ret (inl (c_parent ct)).

Definition update_this_state (new_state : procstate) : M sched_st unit :=
  p <- thisproc ;;
  put_proc p (with_state new_state) ;;;
  x <- get_proc p ;;
  if idle x then ret tt
  else
    now <- timestamp ;;
    k <- get_cpu ;;
    i <- get_info (sch_p p) ;;
    let v := u64 (u64 (now - starttime k) * nth 21 prio_to_weight 0) / weight i in
    put_info (sch_p p) (fun i => with_vruntime (u64 (vruntime i + v)) i) ;;;
    n <- cont_fuel ;;
    if bool_decide (new_state = RUNNABLE) then
      enqueue (p_container x) (sch_p p) ;;;
      while n (runnable_turn v) (p_container x)
    else
      put_cont (p_container x) (with_queue (with_sum (fun w => w - weight i))) ;;;
      while n (stopped_turn v) (p_container x).

(** [pick_next]: down to a process. A division by zero gives 0 on this
    machine. *)
Definition pick_turn (x : Z) : M sched_st (Z + Z) :=
  i <- get_info x ;;
  if iscontainer i then
    let c := x - cont_off in
    put_cont c (with_queue (with_running true)) ;;;
    ct <- get_cont c ;;
    parent <- get_cont (c_parent ct) ;;
    put_cont c (with_queue (with_latency (Z.quot (i32 (sched_latency (c_queue parent) * weight i)) (weight_sum (c_queue parent))))) ;;;
    erase (c_parent ct) x ;;;
    node <- first c ;;
    ret (inl node)
  else ret (inr x).
Definition pick_next : M sched_st Z :=
  node <- first root_container ;;
  if node =? 0 then k <- get_cpu ;; ret (idle_ k)
  else
    n <- cont_fuel ;;
    x <- while n pick_turn node ;;
    let p := x - proc_off in
    pr <- get_proc p ;;
    erase (p_container pr) x ;;;
    ret p.

Definition on_timer {A} (m : M timer_st A) : M sched_st A := zoom timers set_timers m.

(** [update_this_proc]; the handler of the timer is [HandleClock]. *)
Definition cancel_turn (t : Z) (_ : unit) : M sched_st (unit + unit) :=
  tm <- on_timer (get_timer t) ;;
  if data tm =? 0 then ret (inr tt)
  else on_timer (put_timer t (with_data (u64 (data tm - 1)))) ;;; on_timer (cancel_cpu_timer tick one_ms cpuid t) ;;; ret (inl tt).
Definition update_this_proc (p : Z) : M sched_st unit :=
  let t := clock_interupt cpuid in
  tm <- on_timer (get_timer t) ;;
  while (S (Z.to_nat (data tm))) (cancel_turn t) tt ;;;
  on_timer (put_timer t (fun tm => with_data (u64 (data tm + 1)) tm)) ;;;
  x <- get_proc p ;;
  e <- (if idle x then ret 1
        else
          ct <- get_cont (p_container x) ;;
          i <- get_info (sch_p p) ;;
          ret (Z.max (Z.quot (i32 (sched_latency (c_queue ct) * weight i)) (weight_sum (c_queue ct))) min_lantency)) ;;
  on_timer (put_timer t (with_elapse e)) ;;;
  now <- timestamp ;;
  put_cpu (fun k => mkCpu (thisproc_ k) (idle_ k) now (ttbr0 k)) ;;;
  on_timer (set_cpu_timer tick one_ms cpuid t) ;;;
  put_cpu (fun k => mkCpu p (idle_ k) (starttime k) (ttbr0 k)).

(** kernel/pt.c; the TLB is not modelled. *)
Definition set_ttbr0 (v : Z) : M sched_st unit := put_cpu (fun k => mkCpu (thisproc_ k) (idle_ k) (starttime k) v).
Definition attach_pgdir (pd : Z) : M sched_st unit :=
  this <- thisproc ;;
  put_proc this (with_pgdir (with_online false)) ;;;
  x <- get_proc pd ;;
  if negb (pt (p_pgdir x) =? 0) then
    set_ttbr0 (K2P (pt (p_pgdir x))) ;;; put_proc pd (with_pgdir (with_online true))
  else set_ttbr0 (K2P invalid_pt).

(** [_sched], from its caller's call to the release of the lock by the
    process that runs next. *)
Definition simple_sched (new_state : procstate) : M sched_st unit :=
  this <- thisproc ;;
  x <- get_proc this ;;
  assert (bool_decide (state x = RUNNING)) ;;;
  if killed x && negb (bool_decide (new_state = ZOMBIE)) then _release_sched_lock
  else
    update_this_state new_state ;;;
    next <- pick_next ;;
    update_this_proc next ;;;
    y <- get_proc next ;;
    assert (bool_decide (state y = RUNNABLE)) ;;;
    put_proc next (with_state RUNNING) ;;;
    when (negb (next =? this)) (attach_pgdir next) ;;;
    _release_sched_lock.

Definition yield : M sched_st unit := _acquire_sched_lock ;;; simple_sched RUNNABLE.

Definition HandleClock : M sched_st unit :=
  on_timer (put_timer (clock_interupt cpuid) (fun tm => with_data (u64 (data tm - 1)) tm)) ;;;
  _acquire_sched_lock ;;; simple_sched RUNNABLE.

(** kernel/container.c *)
Definition set_container_to_this (p : Z) : M sched_st unit :=
  this <- thisproc ;; x <- get_proc this ;;
  put_proc p (fun y => mkProc (killed y) (idle y) (state y) (p_container x) (p_pgdir y)).
End sched.

(** * The scheduler's queues and chains of containers (kernel/sched.c)

    [queues s q]: the tree of every container of [s] is a sorted queue, [q]
    gives its members. The lemmas run the pieces of Sched.v on such states;
    the state after a piece is given in full. *)

(** ** Steps on the fields *)
Lemma get_proc_Ret p s x : procs s !! p = Some x -> get_proc p s = Ret (x, s).
Proof. intros E. unfold get_proc. by rewrite E. Qed.
Lemma get_cont_Ret c s x : conts s !! c = Some x -> get_cont c s = Ret (x, s).
Proof. intros E. unfold get_cont. by rewrite E. Qed.
Lemma get_info_Ret x s i : schinfos s !! x = Some i -> get_info x s = Ret (i, s).
Proof. intros E. unfold get_info. by rewrite E. Qed.
Lemma get_cpu_Ret k s c : cpus s !! k = Some c -> get_cpu k s = Ret (c, s).
Proof. intros E. unfold get_cpu. by rewrite E. Qed.
Lemma thisproc_Ret k s c : cpus s !! k = Some c -> thisproc k s = Ret (thisproc_ c, s).
Proof. intros E. unfold thisproc. by rewrite (bind_Ret _ _ _ _ _ (get_cpu_Ret _ _ _ E)). Qed.
Lemma put_proc_Ret p f s x : procs s !! p = Some x -> put_proc p f s = Ret (tt, set_procs <[p := f x]> s).
Proof. intros E. unfold put_proc. by rewrite (bind_Ret _ _ _ _ _ (get_proc_Ret _ _ _ E)). Qed.
Lemma put_cont_Ret c f s x : conts s !! c = Some x -> put_cont c f s = Ret (tt, set_conts <[c := f x]> s).
Proof. intros E. unfold put_cont. by rewrite (bind_Ret _ _ _ _ _ (get_cont_Ret _ _ _ E)). Qed.
Lemma put_info_Ret x f s i : schinfos s !! x = Some i -> put_info x f s = Ret (tt, set_schinfos <[x := f i]> s).
Proof. intros E. unfold put_info. by rewrite (bind_Ret _ _ _ _ _ (get_info_Ret _ _ _ E)). Qed.
Lemma put_cpu_Ret k f s c : cpus s !! k = Some c -> put_cpu k f s = Ret (tt, set_cpus <[k := f c]> s).
Proof. intros E. unfold put_cpu. by rewrite (bind_Ret _ _ _ _ _ (get_cpu_Ret _ _ _ E)). Qed.

(** ** Order *)
#[export] Instance cmp_key_order s : KeyOrder (cmp s).
Proof. apply lex_order. Qed.

Lemma cmp_vr s s' a b : vr s' a = vr s a -> vr s' b = vr s b -> cmp s' a b = cmp s a b.
Proof. intros Ha Hb. unfold cmp. by rewrite Ha, Hb. Qed.

(** ** Queues *)
Record queues (s : sched_st) (q : Z -> list Z) : Prop := {
  qs_is : forall c ct, conts s !! c = Some ct -> queue_is (cmp s) (rbnodes s) (root_ (c_queue ct)) (q c);
  qs_apart : forall c c' x, x ∈ q c -> x ∈ q c' -> c = c';
  qs_info : forall c x, x ∈ q c -> is_Some (schinfos s !! x);
  qs_node : forall x, is_Some (schinfos s !! x) -> is_Some (rbnodes s !! x) /\ x <> 0 /\ x mod 4 = 0
}.

Definition upd (q : Z -> list Z) (c : Z) (l : list Z) : Z -> list Z := fun d => if decide (d = c) then l else q d.

Lemma upd_eq q c l : upd q c l c = l.
Proof. unfold upd. by rewrite decide_True. Qed.
Lemma upd_ne q c l d : d <> c -> upd q c l d = q d.
Proof. intros H. unfold upd. by rewrite decide_False. Qed.

(** The state after a call on the tree of [c]. *)
Definition requeued (s : sched_st) (c : Z) (ct : container) (h : heap) (r : Z) : sched_st :=
  set_conts (insert c (with_queue (with_root r) ct)) (set_rbnodes (fun _ => h) s).

Lemma first_Ret s q c ct : queues s q -> conts s !! c = Some ct -> first c s = Ret (hd 0 (q c), s).
Proof.
  intros H Hc. unfold first, on_queue. rewrite Hc, (queue_first _ _ _ _ (qs_is _ _ H c ct Hc)). cbn [nodes root].
  f_equal. f_equal. unfold set_conts, set_rbnodes. cbn. rewrite insert_id; [by destruct s|]. rewrite Hc. f_equal. destruct ct as [? ? []]. done.
Qed.

Lemma queues_upd s q c ct h r l (d : list Z) :
  queues s q -> conts s !! c = Some ct -> queue_is (cmp s) h r l -> dom h = dom (rbnodes s) -> (forall x, x ∉ d -> h !! x = rbnodes s !! x) ->
  (forall x, x ∈ d -> forall c', c' <> c -> x ∉ q c') -> (forall x, x ∈ l -> x ∈ d /\ is_Some (schinfos s !! x)) -> queues (requeued s c ct h r) (upd q c l).
Proof.
  intros H Hc Hq Hd Hout Hap Hl. split.
  - intros c' ct'. cbn [conts requeued set_conts set_rbnodes rbnodes]. destruct (decide (c' = c)) as [->|Hn].
    + rewrite lookup_insert_eq, upd_eq. intros [= <-]. exact Hq.
    + rewrite lookup_insert_ne, upd_ne by done. intros Hc'. eapply queue_frame; [|done|by apply (qs_is _ _ H)].
      intros x Hx. apply Hout. intros Hxd. by apply (Hap x Hxd c').
  - intros c1 c2 x. destruct (decide (c1 = c)) as [->|H1], (decide (c2 = c)) as [->|H2]; rewrite ?upd_eq, ?upd_ne by done; [done| | |apply (qs_apart _ _ H)].
    + intros [Hx _]%Hl Hx2. by destruct (Hap x Hx c2 H2).
    + intros Hx2 [Hx _]%Hl. by destruct (Hap x Hx c1 H1).
  - intros c' x. destruct (decide (c' = c)) as [->|Hn]; rewrite ?upd_eq, ?upd_ne by done; [by intros [_ ?]%Hl|apply (qs_info _ _ H)].
  - intros x Hx. destruct (qs_node _ _ H x Hx) as (Hn & ? & ?). split; [|done]. cbn. by rewrite <- elem_of_dom, Hd, elem_of_dom.
Qed.

Lemma enqueue_Ret s q c ct x :
  queues s q -> conts s !! c = Some ct -> is_Some (schinfos s !! x) -> (forall c', x ∉ q c') ->
  exists h r, enqueue c x s = Ret (tt, requeued s c ct h r) /\ queues (requeued s c ct h r) (upd q c (insert_key (cmp s) x (q c))).
Proof.
  intros H Hc Hi Hx. destruct (qs_node _ _ H x Hi) as (Hn & Hx0 & Hx4).
  destruct (queue_insert (cmp s) _ _ _ x (qs_is _ _ H c ct Hc) Hn Hx0 Hx4 (Hx c)) as (h & r & E & Hq & Hd & Hout).
  { intros a Ha. apply lex_total. intros ->. by eapply Hx. }
  exists h, r. split.
  - unfold enqueue. unfold bind at 1, on_queue. by rewrite Hc, E.
  - eapply queues_upd; [done|done|done|done|exact Hout| |].
    + intros y [->|Hy]%elem_of_cons c' Hc'; [done|]. intros Hy'. apply Hc'. by eapply (qs_apart _ _ H).
    + intros y. rewrite elem_of_insert_key. intros [->|Hy]; [split; [by left|done]|]. split; [by right|by eapply (qs_info _ _ H)].
Qed.

Lemma erase_queue s q c ct x :
  queues s q -> conts s !! c = Some ct -> x ∈ q c ->
  exists h r, _rb_erase x (mkRb (rbnodes s) (root_ (c_queue ct))) = Ret (tt, mkRb h r) /\
    queues (requeued s c ct h r) (upd q c (filter (fun y => y <> x) (q c))).
Proof.
  intros H Hc Hx. destruct (queue_erase (cmp s) _ _ _ x (qs_is _ _ H c ct Hc) Hx) as (h & r & E & Hq & Hd & Hout).
  exists h, r. split; [exact E|]. eapply queues_upd; [done|done|done|done|exact Hout| |].
  - intros y Hy c' Hc' Hy'. apply Hc'. by eapply (qs_apart _ _ H).
  - intros y [_ Hy]%list_elem_of_filter. split; [done|by eapply (qs_info _ _ H)].
Qed.

Lemma erase_Ret s c ct x h r :
  conts s !! c = Some ct -> _rb_erase x (mkRb (rbnodes s) (root_ (c_queue ct))) = Ret (tt, mkRb h r) -> erase c x s = Ret (tt, requeued s c ct h r).
Proof. intros Hc E. unfold erase, on_queue. by rewrite Hc, E. Qed.

(** Changes that the queues do not see: a container's other fields, and the
    time of something that is in no queue. *)
Lemma queues_put_cont s q c ct f :
  queues s q -> conts s !! c = Some ct -> root_ (c_queue (f ct)) = root_ (c_queue ct) -> queues (set_conts <[c := f ct]> s) q.
Proof.
  intros H Hc Hf. split; [|apply (qs_apart _ _ H)|apply (qs_info _ _ H)|apply (qs_node _ _ H)].
  intros c' ct'. cbn [conts set_conts]. intros [[<- <-]|[_ Hc']]%lookup_insert_Some; [|by apply (qs_is _ _ H)].
  rewrite Hf. by apply (qs_is _ _ H).
Qed.

Lemma queues_put_info s q x i f :
  queues s q -> schinfos s !! x = Some i -> (forall c, x ∉ q c) -> queues (set_schinfos <[x := f i]> s) q.
Proof.
  intros H Hx Hq. assert (Hd : forall y, is_Some (<[x := f i]> (schinfos s) !! y) <-> is_Some (schinfos s !! y)).
  { intros y. rewrite <- !elem_of_dom, dom_insert_L. apply elem_of_dom_2 in Hx. set_solver. }
  split.
  - intros c ct Hc. eapply queue_frame; [done| |by apply (qs_is _ _ H)]. intros a b Ha Hb. apply cmp_vr; unfold vr; cbn [schinfos set_schinfos];
      rewrite lookup_insert_ne; try done; intros ->; by eapply Hq.
  - apply (qs_apart _ _ H).
  - intros c y Hy. cbn [schinfos set_schinfos]. apply Hd. by eapply (qs_info _ _ H).
  - intros y Hy. cbn [schinfos set_schinfos] in Hy. apply Hd in Hy. by apply (qs_node _ _ H).
Qed.

(** The other parts of the state. *)
Lemma queues_same s s' q :
  rbnodes s' = rbnodes s -> schinfos s' = schinfos s -> conts s' = conts s -> queues s q -> queues s' q.
Proof.
  intros E1 E2 E3 H. assert (Hc : forall a b, cmp s' a b = cmp s a b) by (intros; apply cmp_vr; unfold vr; by rewrite E2). split.
  - intros c ct. rewrite E3. intros Hct. eapply queue_frame; [| |by apply (qs_is _ _ H)]; [by rewrite E1|auto].
  - apply (qs_apart _ _ H).
  - intros c x Hx. rewrite E2. by eapply (qs_info _ _ H).
  - intros x. rewrite E1, E2. apply (qs_node _ _ H).
Qed.

(** ** Chains of containers *)
Section chain.
Context (root_container : Z).

(** [l] are the containers from [c] up to the root, without the root. *)
Fixpoint chain (cs : gmap Z container) (c : Z) (l : list Z) : Prop :=
  match l with
  | [] => c = root_container
  | a :: l => a = c /\ c <> root_container /\ exists ct, cs !! c = Some ct /\ chain cs (c_parent ct) l
  end.

Lemma chain_functional cs c l l' : chain cs c l -> chain cs c l' -> l = l'.
Proof.
  revert c l'. induction l as [|a l IH]; intros c l'; destruct l' as [|a' l']; cbn [chain]; [done|by intros -> (_ & ? & _)|by intros (_ & ? & _) ->|].
  intros (-> & _ & ct & Hc & Hl) (-> & _ & ct' & Hc' & Hl'). rewrite Hc in Hc'. injection Hc' as <-. f_equal. by eapply IH.
Qed.

Lemma chain_suffix cs c l a : chain cs c l -> a ∈ l -> exists l1 l2, l = l1 ++ a :: l2 /\ chain cs a (a :: l2).
Proof.
  revert c. induction l as [|b l IH]; intros c; [intros _ H; inversion H|]. intros H [->|Ha]%elem_of_cons.
  - exists [], l. split; [done|]. destruct H as (-> & ?). done.
  - destruct H as (_ & _ & ct & _ & Hl). destruct (IH _ Hl Ha) as (l1 & l2 & -> & H2). by exists (b :: l1), l2.
Qed.

Lemma chain_NoDup cs c l : chain cs c l -> NoDup l.
Proof.
  revert c. induction l as [|a l IH]; intros c H; [constructor|]. pose proof H as (-> & _ & ct & _ & Hl). constructor; [|by eapply IH].
  intros Ha. destruct (chain_suffix _ _ _ _ Hl Ha) as (l1 & l2 & -> & H2). pose proof (chain_functional _ _ _ _ H H2) as E.
  apply (f_equal length) in E. simpl in E. rewrite length_app in E. simpl in E. lia.
Qed.

Lemma chain_length cs c l : chain cs c l -> (length l <= size cs)%nat.
Proof.
  intros H. pose proof (chain_NoDup _ _ _ H) as Hnd. rewrite <- size_dom.
  assert (Hsub : (list_to_set l : gset Z) ⊆ dom cs).
  { intros a Ha. apply elem_of_list_to_set in Ha. destruct (chain_suffix _ _ _ _ H Ha) as (_ & l2 & _ & _ & _ & ct & Hc & _). by eapply elem_of_dom_2. }
  apply subseteq_size in Hsub. by rewrite size_list_to_set in Hsub.
Qed.

Lemma chain_parents cs cs' c l :
  (forall a ct, cs !! a = Some ct -> exists ct', cs' !! a = Some ct' /\ c_parent ct' = c_parent ct) -> chain cs c l -> chain cs' c l.
Proof.
  intros H. revert c. induction l as [|a l IH]; intros c; [done|]. intros (-> & Hr & ct & Hc & Hl). split; [done|]. split; [done|].
  destruct (H _ _ Hc) as (ct' & Hc' & E). exists ct'. split; [done|]. rewrite E. by apply IH.
Qed.

Lemma chain_not_root cs c l a : chain cs c l -> a ∈ l -> a <> root_container.
Proof. intros H Ha. destruct (chain_suffix _ _ _ _ H Ha) as (_ & l2 & _ & _ & ? & _). done. Qed.
End chain.
