(* ===== verification/SchedSteps.v ===== *)
(** * The scheduler's invariant (kernel/sched.c)

    [sched_inv cur exc n s q held]: what holds of the processes, containers,
    queues and CPUs between the calls ([cur] and [exc] are [None]) and, on
    the CPU [cur], inside of one, while the process [exc] is neither running
    nor queued. [held k] are the containers that the process on the CPU [k]
    is in, which are out of their parents' queues. *)
From stdpp Require Import base gmap list sorting.
From Stdlib Require Import ZArith Lia.
From S2P Require Import Prelude Mmu RBTree RBMap RBRefine RBFrame Timer Sched.

Section inv.
Context (proc_off cont_off root_container : Z).
Local Notation sch_p := (sch_p proc_off).
Local Notation sch_c := (sch_c cont_off).
Local Notation chain := (chain root_container).

(** What never changes, and the bounds of the queues' numbers: [n] bounds
    the additions to and subtractions from a queue's weight. *)
Record static_inv (n : Z) (s : sched_st) : Prop := {
  st_root : is_Some (conts s !! root_container);
  st_proc : forall p x, procs s !! p = Some x ->
    (exists i, schinfos s !! sch_p p = Some i /\ iscontainer i = false /\ (idle x = false -> weight i = 820)) /\ is_Some (conts s !! p_container x);
  st_cont : forall c ct, conts s !! c = Some ct -> c <> root_container ->
    (exists i, schinfos s !! sch_c c = Some i /\ iscontainer i = true /\ weight i = 820) /\ is_Some (conts s !! c_parent ct) /\ exists l, chain (conts s) c l;
  st_sep : forall p c, is_Some (procs s !! p) -> is_Some (conts s !! c) -> sch_p p <> sch_c c;
  st_latency : forall c ct, conts s !! c = Some ct -> -6 <= sched_latency (c_queue ct) <= 6 /\ (820 | weight_sum (c_queue ct)) /\ Z.abs (weight_sum (c_queue ct)) <= 820 * n
}.

(** What a member of the queue of [c] is. *)
Definition member_ok (s : sched_st) (q : Z -> list Z) (c x : Z) : Prop :=
  (exists p y, x = sch_p p /\ procs s !! p = Some y /\ idle y = false /\ p_container y = c /\ state y = RUNNABLE) \/
  (exists a ct, x = sch_c a /\ conts s !! a = Some ct /\ a <> root_container /\ c_parent ct = c /\ Running (c_queue ct) = false /\ q a <> []).

(** The process a CPU runs. *)
Definition cpu_ok (s : sched_st) (held : Z -> list Z) (k : Z) (cp : cpu) : Prop :=
  exists x, procs s !! thisproc_ cp = Some x /\ state x = RUNNING /\
    if idle x then thisproc_ cp = idle_ cp /\ held k = [] else chain (conts s) (p_container x) (held k).

Record cpu_part (cur : option Z) (s : sched_st) (held : Z -> list Z) : Prop := {
  si_cpu : forall k cp, cpus s !! k = Some cp -> Some k <> cur -> cpu_ok s held k cp;
  si_idle : forall k cp, cpus s !! k = Some cp -> exists y, procs s !! idle_ cp = Some y /\ idle y = true /\ (Some k = cur \/ thisproc_ cp <> idle_ cp -> state y = RUNNABLE);
  si_apart : forall k k' cp cp', cpus s !! k = Some cp -> cpus s !! k' = Some cp' -> k <> k' ->
    idle_ cp <> idle_ cp' /\ (Some k <> cur -> Some k' <> cur -> thisproc_ cp <> thisproc_ cp');
  si_running : forall p y, procs s !! p = Some y -> state y = RUNNING -> exists k cp, cpus s !! k = Some cp /\ Some k <> cur /\ thisproc_ cp = p
}.

Record sched_inv (cur exc : option Z) (n : Z) (s : sched_st) (q held : Z -> list Z) : Prop := {
  si_queues : queues s q;
  si_static : static_inv n s;
  si_member : forall c x, x ∈ q c -> member_ok s q c x;
  si_runnable : forall p y, procs s !! p = Some y -> idle y = false -> state y = RUNNABLE -> Some p <> exc -> sch_p p ∈ q (p_container y);
  si_held : forall k a, a ∈ held k -> exists ct, conts s !! a = Some ct /\ Running (c_queue ct) = true;
  si_disjoint : forall k k' a, a ∈ held k -> a ∈ held k' -> k = k';
  si_cpus : cpu_part cur s held
}.

(** ** Updates that keep the static part *)
Definition conts_like (cs cs' : gmap Z container) : Prop :=
  forall c, match cs !! c with
            | Some ct => exists ct', cs' !! c = Some ct' /\ c_parent ct' = c_parent ct
            | None => cs' !! c = None
            end.

Lemma conts_like_refl cs : conts_like cs cs.
Proof. intros c. destruct (cs !! c); [eauto|done]. Qed.

Lemma conts_like_trans cs cs' cs'' : conts_like cs cs' -> conts_like cs' cs'' -> conts_like cs cs''.
Proof.
  intros H1 H2 c. specialize (H1 c). specialize (H2 c). destruct (cs !! c); [|by rewrite H1 in H2].
  destruct H1 as (ct' & E1 & P1). rewrite E1 in H2. destruct H2 as (ct'' & E2 & P2). exists ct''. by rewrite P2.
Qed.

Lemma conts_like_insert cs c ct ct' : cs !! c = Some ct -> c_parent ct' = c_parent ct -> conts_like cs (<[c := ct']> cs).
Proof.
  intros Hc Hp d. destruct (decide (d = c)) as [->|Hd].
  - rewrite Hc, lookup_insert_eq. eauto.
  - rewrite lookup_insert_ne by done. apply conts_like_refl.
Qed.

Lemma conts_like_chain cs cs' c l : conts_like cs cs' -> chain cs c l -> chain cs' c l.
Proof. intros H. apply chain_parents. intros a ct Ha. specialize (H a). by rewrite Ha in H. Qed.

Lemma conts_like_Some cs cs' c : conts_like cs cs' -> is_Some (cs !! c) <-> is_Some (cs' !! c).
Proof.
  intros H. specialize (H c). destruct (cs !! c); [destruct H as (ct' & -> & _); split; eauto|]. rewrite H. split; intros [? ?]; done.
Qed.

(** The static part depends on parents, kinds, weights and on what it says
    of the queues' numbers. *)
Lemma static_keep n n' s s' :
  static_inv n s -> conts_like (conts s) (conts s') ->
  (forall c ct, conts s' !! c = Some ct -> -6 <= sched_latency (c_queue ct) <= 6 /\ (820 | weight_sum (c_queue ct)) /\ Z.abs (weight_sum (c_queue ct)) <= 820 * n') ->
  (forall x i, schinfos s !! x = Some i -> exists i', schinfos s' !! x = Some i' /\ iscontainer i' = iscontainer i /\ weight i' = weight i) ->
  (forall p x', procs s' !! p = Some x' -> exists x, procs s !! p = Some x /\ idle x' = idle x /\ p_container x' = p_container x) ->
  static_inv n' s'.
Proof.
  intros [H1 H2 H3 H4 H5] Hc Hl Hi Hp. split.
  - by apply (conts_like_Some _ _ _ Hc).
  - intros p x' Hx'. destruct (Hp p x' Hx') as (x & Hx & -> & ->). destruct (H2 p x Hx) as [(i & Hi1 & Hi2 & Hi3) Hco].
    destruct (Hi _ _ Hi1) as (i' & Hi' & E1 & E2). split; [|by apply (conts_like_Some _ _ _ Hc)]. exists i'. rewrite E1, E2. auto.
  - intros c ct' Hct' Hr. pose proof (Hc c) as Hc0. destruct (conts s !! c) as [ct|] eqn:Ec; [|congruence]. destruct Hc0 as (ct'' & E & Ep).
    rewrite Hct' in E. injection E as <-. destruct (H3 c ct Ec Hr) as ((i & Hi1 & Hi2 & Hi3) & Hpar & l & Hch).
    destruct (Hi _ _ Hi1) as (i' & Hi' & E1 & E2). split; [exists i'; rewrite E1, E2; auto|]. rewrite Ep. split; [by apply (conts_like_Some _ _ _ Hc)|].
    exists l. by eapply conts_like_chain.
  - intros p c [x' Hx'] Hco. destruct (Hp p x' Hx') as (x & Hx & _ & _). apply H4; [by eexists|]. by apply (conts_like_Some _ _ _ Hc).
  - done.
Qed.

Lemma sch_p_inj p p' : sch_p p = sch_p p' -> p = p'.
Proof. unfold Sched.sch_p. lia. Qed.
Lemma sch_c_inj c c' : sch_c c = sch_c c' -> c = c'.
Proof. unfold Sched.sch_c. lia. Qed.

(** ** Who is in no queue *)
Lemma proc_not_queued cur exc n s q held p y :
  sched_inv cur exc n s q held -> procs s !! p = Some y -> state y <> RUNNABLE -> forall c, sch_p p ∉ q c.
Proof.
  intros H Hp Hs c Hx. destruct (si_member _ _ _ _ _ _ H c _ Hx) as [(p' & y' & E & Hp' & _ & _ & Hr)|(a & ct & E & Ha & _)].
  - apply sch_p_inj in E as <-. congruence.
  - by apply (st_sep _ _ (si_static _ _ _ _ _ _ H) p a).
Qed.

Lemma cont_not_queued cur exc n s q held a ct :
  sched_inv cur exc n s q held -> conts s !! a = Some ct -> Running (c_queue ct) = true -> forall c, sch_c a ∉ q c.
Proof.
  intros H Ha Hr c Hx. destruct (si_member _ _ _ _ _ _ H c _ Hx) as [(p' & y' & E & Hp' & _)|(a' & ct' & E & Ha' & _ & _ & Hr' & _)].
  - symmetry in E. by apply (st_sep _ _ (si_static _ _ _ _ _ _ H) p' a) in E.
  - apply sch_c_inj in E as <-. congruence.
Qed.

(** A member of the queue of [c] is in no other. *)
Lemma member_mono s s' q q' c x :
  member_ok s q c x -> (forall p y, procs s !! p = Some y -> state y = RUNNABLE -> idle y = false -> x = sch_p p -> procs s' !! p = Some y) ->
  (forall a ct, conts s !! a = Some ct -> x = sch_c a -> exists ct', conts s' !! a = Some ct' /\ c_parent ct' = c_parent ct /\ Running (c_queue ct') = Running (c_queue ct)) ->
  (forall a, x = sch_c a -> q a <> [] -> q' a <> []) -> member_ok s' q' c x.
Proof.
  intros [(p & y & -> & Hp & Hi & Hc & Hr)|(a & ct & -> & Ha & Hr & Hc & Hrun & Hq)] H1 H2 H3.
  - left. exists p, y. auto.
  - right. destruct (H2 a ct Ha eq_refl) as (ct' & Ha' & Ep & Er). exists a, ct'. rewrite Ep, Er. auto 8.
Qed.

(** What a step on the queues, on the CPU [cur], leaves of the CPUs' part. *)
Lemma cpu_part_frame cur s s' held held' :
  cpu_part cur s held -> procs s' = procs s -> cpus s' = cpus s -> conts_like (conts s) (conts s') ->
  (forall j, Some j <> cur -> held' j = held j) -> cpu_part cur s' held'.
Proof.
  intros [H1 H2 H3 H4] Ep Ec Hl Hh. split; rewrite ?Ec, ?Ep; try done.
  intros k cp Hk Hn. destruct (H1 k cp Hk Hn) as (x & Hx & Hr & Hch). exists x. rewrite Ep, Hh by done. split; [done|]. split; [done|].
  destruct (idle x); [done|]. by eapply conts_like_chain.
Qed.

(** Building the invariant after a step on the queues. *)
Lemma queue_step cur exc exc' n n' s s' q q' held held' :
  sched_inv cur exc n s q held -> procs s' = procs s -> cpus s' = cpus s -> conts_like (conts s) (conts s') -> queues s' q' ->
  (forall c ct, conts s' !! c = Some ct -> -6 <= sched_latency (c_queue ct) <= 6 /\ (820 | weight_sum (c_queue ct)) /\ Z.abs (weight_sum (c_queue ct)) <= 820 * n') ->
  (forall x i, schinfos s !! x = Some i -> exists i', schinfos s' !! x = Some i' /\ iscontainer i' = iscontainer i /\ weight i' = weight i) ->
  (forall c x, x ∈ q' c -> member_ok s' q' c x) ->
  (forall p y, procs s !! p = Some y -> idle y = false -> state y = RUNNABLE -> Some p <> exc' -> sch_p p ∈ q' (p_container y)) ->
  (forall j a, a ∈ held' j -> exists ct, conts s' !! a = Some ct /\ Running (c_queue ct) = true) ->
  (forall j j' a, a ∈ held' j -> a ∈ held' j' -> j = j') -> (forall j, Some j <> cur -> held' j = held j) ->
  sched_inv cur exc' n' s' q' held'.
Proof.
  intros H Ep Ec Hl Hq Hb Hi Hm Hr Hh Hd Hsame. split; try done.
  - eapply static_keep; [by apply (si_static _ _ _ _ _ _ H)|done|done|done|]. intros p x'. rewrite Ep. eauto.
  - rewrite Ep. exact Hr.
  - eapply cpu_part_frame; [by apply (si_cpus _ _ _ _ _ _ H)|done|done|done|done].
Qed.

Lemma held_ext cur exc n s q held held' : (forall j, held' j = held j) -> sched_inv cur exc n s q held -> sched_inv cur exc n s q held'.
Proof.
  intros E H. eapply queue_step; [exact H|done|done|apply conts_like_refl|apply (si_queues _ _ _ _ _ _ H)
    |apply (st_latency _ _ (si_static _ _ _ _ _ _ H))|intros x i Hi; by exists i|apply (si_member _ _ _ _ _ _ H)|apply (si_runnable _ _ _ _ _ _ H)| | |].
  - intros j a. rewrite E. apply (si_held _ _ _ _ _ _ H).
  - intros j j' a. rewrite !E. apply (si_disjoint _ _ _ _ _ _ H).
  - intros j _. apply E.
Qed.

(** After a call on the tree of [c]. *)
Lemma requeued_cont s c ct h r a ca :
  conts s !! c = Some ct -> conts s !! a = Some ca ->
  exists ca', conts (requeued s c ct h r) !! a = Some ca' /\ c_parent ca' = c_parent ca /\ Running (c_queue ca') = Running (c_queue ca) /\
    sched_latency (c_queue ca') = sched_latency (c_queue ca) /\ weight_sum (c_queue ca') = weight_sum (c_queue ca).
Proof.
  intros Hc Ha. cbn [conts requeued set_conts set_rbnodes]. destruct (decide (a = c)) as [->|Hn].
  - rewrite Hc in Ha. injection Ha as <-. rewrite lookup_insert_eq. by eexists.
  - rewrite lookup_insert_ne by done. by eexists.
Qed.

Lemma requeued_like s c ct h r : conts s !! c = Some ct -> conts_like (conts s) (conts (requeued s c ct h r)).
Proof. intros Hc. cbn [conts requeued set_conts set_rbnodes]. by apply (conts_like_insert _ _ ct). Qed.

Lemma requeue_step cur exc exc' n s q q' held c ct h r :
  sched_inv cur exc n s q held -> conts s !! c = Some ct -> queues (requeued s c ct h r) q' ->
  (forall c' x, x ∈ q' c' -> member_ok s q' c' x) ->
  (forall p y, procs s !! p = Some y -> idle y = false -> state y = RUNNABLE -> Some p <> exc' -> sch_p p ∈ q' (p_container y)) ->
  sched_inv cur exc' n (requeued s c ct h r) q' held.
Proof.
  intros H Hc Hq Hm Hr. eapply queue_step; try done.
  - by apply requeued_like.
  - intros a ca'. cbn [conts requeued set_conts set_rbnodes]. intros [[<- <-]|[_ Ha]]%lookup_insert_Some; [|by eapply (st_latency _ _ (si_static _ _ _ _ _ _ H) a)].
    cbn. by eapply (st_latency _ _ (si_static _ _ _ _ _ _ H) c ct).
  - intros x i Hx. by exists i.
  - intros c' x Hx. eapply member_mono; [by apply Hm|by auto| |done]. intros a ca Ha _.
    destruct (requeued_cont s c ct h r a ca Hc Ha) as (ca' & Ha' & Ep & Er & _). by exists ca'.
  - intros j a Ha. destruct (si_held _ _ _ _ _ _ H j a Ha) as (ca & Hca & Hrun). destruct (requeued_cont s c ct h r a ca Hc Hca) as (ca' & Ha' & _ & Er & _).
    exists ca'. by rewrite Er.
  - apply (si_disjoint _ _ _ _ _ _ H).
Qed.

Lemma upd_insert_ne (P : Z -> Z -> bool) q c x d : q d <> [] -> upd q c (insert_key P x (q c)) d <> [].
Proof.
  unfold upd. destruct (decide (d = c)) as [->|]; [|done]. intros _ E. assert (Hx : x ∈ insert_key P x (q c)) by (apply elem_of_insert_key; by left).
  rewrite E in Hx. inversion Hx.
Qed.

Lemma elem_upd_insert (P : Z -> Z -> bool) q c x d y : y ∈ upd q c (insert_key P x (q c)) d <-> y ∈ q d \/ (y = x /\ d = c).
Proof. unfold upd. destruct (decide (d = c)) as [->|]; [rewrite elem_of_insert_key; tauto|tauto]. Qed.

(** ** The steps *)
(** A process enters its queue. *)
Lemma enqueue_proc cur n s q held p y :
  sched_inv cur (Some p) n s q held -> procs s !! p = Some y -> idle y = false -> state y = RUNNABLE -> (forall c, sch_p p ∉ q c) ->
  exists s' q', enqueue (p_container y) (sch_p p) s = Ret (tt, s') /\ sched_inv cur None n s' q' held /\ q' (p_container y) <> [] /\
    timers s' = timers s /\ schelock s' = schelock s /\ procs s' = procs s /\ cpus s' = cpus s /\ (schinfos s' = schinfos s /\ (forall d, d <> p_container y -> q' d = q d) /\ sch_p p ∈ q' (p_container y) /\ forall c x, x ∈ q' c -> x ∈ q c \/ x = sch_p p) /\ conts_like (conts s) (conts s').
Proof.
  intros H Hp Hi Hr Hq. pose proof (si_static _ _ _ _ _ _ H) as Hst. destruct (st_proc _ _ Hst p y Hp) as [(i & Hinfo & _) [ct Hc]].
  destruct (enqueue_Ret s q _ ct (sch_p p) (si_queues _ _ _ _ _ _ H) Hc ltac:(by eexists) Hq) as (h & r & E & Hq').
  exists (requeued s (p_container y) ct h r), (upd q (p_container y) (insert_key (cmp s) (sch_p p) (q (p_container y)))). split; [exact E|]. split; [|split; [|repeat split; try done; [intros d Hd; by apply upd_ne|rewrite upd_eq; apply elem_of_insert_key; by left|intros d x; rewrite elem_upd_insert; tauto|by apply requeued_like]]].
  - eapply requeue_step; try done.
    + intros c x. rewrite elem_upd_insert. intros [Hx|[-> ->]]; [|left; by exists p, y].
      eapply member_mono; [by apply (si_member _ _ _ _ _ _ H)|by auto|intros a ca Ha _; by exists ca|intros a _; apply upd_insert_ne].
    + intros p' y' Hp' Hi' Hr' _. rewrite elem_upd_insert. destruct (decide (p' = p)) as [->|Hn]; [right; by rewrite Hp in Hp'; injection Hp' as <-|].
      left. eapply (si_runnable _ _ _ _ _ _ H); try done. by intros [= ->].
  - rewrite upd_eq. intros E'. assert (Hx : sch_p p ∈ insert_key (cmp s) (sch_p p) (q (p_container y))) by (apply elem_of_insert_key; by left).
    rewrite E' in Hx. inversion Hx.
Qed.

(** A container enters its parent's queue. *)
Lemma enqueue_cont cur n s q held a ca :
  sched_inv cur None n s q held -> conts s !! a = Some ca -> a <> root_container -> Running (c_queue ca) = false -> q a <> [] -> (forall c, sch_c a ∉ q c) ->
  exists s' q', enqueue (c_parent ca) (sch_c a) s = Ret (tt, s') /\ sched_inv cur None n s' q' held /\ q' (c_parent ca) <> [] /\ (forall c x, x ∈ q' c -> x ∈ q c \/ x = sch_c a) /\
    timers s' = timers s /\ schelock s' = schelock s /\ procs s' = procs s /\ cpus s' = cpus s /\ schinfos s' = schinfos s /\ conts_like (conts s) (conts s').
Proof.
  intros H Ha Hroot Hrun Hne Hq. pose proof (si_static _ _ _ _ _ _ H) as Hst. destruct (st_cont _ _ Hst a ca Ha Hroot) as ((i & Hinfo & _) & [ct Hc] & _).
  destruct (enqueue_Ret s q _ ct (sch_c a) (si_queues _ _ _ _ _ _ H) Hc ltac:(by eexists) Hq) as (h & r & E & Hq').
  eexists _, (upd q (c_parent ca) (insert_key (cmp s) (sch_c a) (q (c_parent ca)))). split; [exact E|]. split; [|split; [|split; [intros c x; rewrite elem_upd_insert; tauto|repeat split; try done; by apply requeued_like]]].
  - eapply requeue_step; try done.
    + intros c x. rewrite elem_upd_insert. intros [Hx|[-> ->]].
      * eapply member_mono; [by apply (si_member _ _ _ _ _ _ H)|by auto|intros b cb Hb _; by exists cb|intros b _; apply upd_insert_ne].
      * right. exists a, ca. repeat split; try done. by apply upd_insert_ne.
    + intros p y Hp Hi Hr Hexc. rewrite elem_upd_insert. left. by eapply (si_runnable _ _ _ _ _ _ H).
  - rewrite upd_eq. intros E'. assert (Hx : sch_c a ∈ insert_key (cmp s) (sch_c a) (q (c_parent ca))) by (apply elem_of_insert_key; by left).
    rewrite E' in Hx. inversion Hx.
Qed.

(** The time of something that is in no queue. *)
Lemma put_vruntime cur exc n s q held x i v :
  sched_inv cur exc n s q held -> schinfos s !! x = Some i -> (forall c, x ∉ q c) ->
  sched_inv cur exc n (set_schinfos <[x := with_vruntime v i]> s) q held.
Proof.
  intros H Hx Hq. eapply queue_step; try done.
  - apply conts_like_refl.
  - apply (queues_put_info s q x i); [by apply (si_queues _ _ _ _ _ _ H)|done|done].
  - apply (st_latency _ _ (si_static _ _ _ _ _ _ H)).
  - intros y j Hy. cbn [schinfos set_schinfos]. destruct (decide (y = x)) as [->|Hn].
    + rewrite lookup_insert_eq. rewrite Hx in Hy. injection Hy as <-. by eexists.
    + rewrite lookup_insert_ne by done. by eexists.
  - intros c y Hy. eapply member_mono; [by apply (si_member _ _ _ _ _ _ H)|by auto|intros b cb Hb _; by exists cb|done].
  - apply (si_runnable _ _ _ _ _ _ H).
  - apply (si_held _ _ _ _ _ _ H).
  - apply (si_disjoint _ _ _ _ _ _ H).
Qed.

(** The numbers of a queue, and the flag of a container that leaves or joins
    those of the process on the CPU. *)
Lemma put_queue cur exc n n' s q held held' c ct ct' :
  sched_inv cur exc n s q held -> n <= n' -> conts s !! c = Some ct -> c_parent ct' = c_parent ct -> root_ (c_queue ct') = root_ (c_queue ct) ->
  -6 <= sched_latency (c_queue ct') <= 6 /\ (820 | weight_sum (c_queue ct')) /\ Z.abs (weight_sum (c_queue ct')) <= 820 * n' ->
  (Running (c_queue ct') = Running (c_queue ct) \/ (Running (c_queue ct') = true /\ forall d, sch_c c ∉ q d) \/ (Running (c_queue ct') = false /\ forall j, c ∉ held' j)) ->
  (forall j a, a ∈ held' j -> a ∈ held j \/ (a = c /\ Running (c_queue ct') = true)) -> (forall j j' a, a ∈ held' j -> a ∈ held' j' -> j = j') ->
  (forall j, Some j <> cur -> held' j = held j) ->
  sched_inv cur exc n' (set_conts <[c := ct']> s) q held'.
Proof.
  intros H Hn Hc Ep Er Hb Hrun Hsub Hdis Hsame. eapply queue_step; try done.
  - by apply (conts_like_insert _ _ ct).
  - apply (queues_put_cont s q c ct (fun _ => ct')); [by apply (si_queues _ _ _ _ _ _ H)|done|done].
  - intros a ca. cbn [conts set_conts]. intros [[<- <-]|[_ Ha]]%lookup_insert_Some; [done|]. destruct (st_latency _ _ (si_static _ _ _ _ _ _ H) a ca Ha) as (? & ? & ?).
    repeat split; try lia. done.
  - intros x i Hx. by exists i.
  - intros d x Hx. destruct Hrun as [Hrun|[[Hrun Hnq]|[Hrun Hnh]]].
    + eapply member_mono; [by apply (si_member _ _ _ _ _ _ H)|by auto| |done]. intros b cb Hb' _. cbn [conts set_conts].
      destruct (decide (b = c)) as [->|Hbc]; [|rewrite lookup_insert_ne by done; by exists cb]. rewrite lookup_insert_eq. rewrite Hc in Hb'. injection Hb' as <-. by exists ct'.
    + eapply member_mono; [by apply (si_member _ _ _ _ _ _ H)|by auto| |done]. intros b cb Hb' ->. cbn [conts set_conts].
      destruct (decide (b = c)) as [->|Hbc]; [by destruct (Hnq d)|rewrite lookup_insert_ne by done; by exists cb].
    + destruct (si_member _ _ _ _ _ _ H d x Hx) as [?|(a & ca & -> & Ha & Hr & Hpa & Hra & Hne)]; [by left|]. right. cbn [conts set_conts].
      destruct (decide (a = c)) as [->|Hac]; [|exists a, ca; by rewrite lookup_insert_ne]. exists c, ct'. rewrite lookup_insert_eq, Ep.
      rewrite Hc in Ha. injection Ha as <-. done.
  - apply (si_runnable _ _ _ _ _ _ H).
  - intros j a Ha. cbn [conts set_conts]. destruct (Hsub _ _ Ha) as [Ha'|[-> Hr]]; [|exists ct'; by rewrite lookup_insert_eq].
    destruct (si_held _ _ _ _ _ _ H j a Ha') as (ca & Hca & Hra).
    destruct (decide (a = c)) as [->|Hac]; [|exists ca; by rewrite lookup_insert_ne]. exists ct'. rewrite lookup_insert_eq. split; [done|].
    rewrite Hc in Hca. injection Hca as <-. destruct Hrun as [Hrun|[[Hrun _]|[_ Hnh]]]; [by rewrite Hrun|done|by destruct (Hnh j)].
Qed.

Lemma filter_not_nil (x y : Z) (l : list Z) : y ∈ l -> y <> x -> filter (fun z => z <> x) l <> [].
Proof. intros Hy Hn E. assert (Hf : y ∈ filter (fun z => z <> x) l) by (by apply list_elem_of_filter). rewrite E in Hf. inversion Hf. Qed.

Lemma elem_upd_filter q c x d y : y ∈ upd q c (filter (fun z => z <> x) (q c)) d <-> y ∈ q d /\ (d = c -> y <> x).
Proof.
  unfold upd. destruct (decide (d = c)) as [->|]; [|tauto]. rewrite list_elem_of_filter. split; [intros [? ?]; by split|intros [? H]; split; [by apply H|done]].
Qed.

(** The parent of a member that is a container is not the queue it is in. *)
Lemma member_kept cur exc n s q held c x d y :
  sched_inv cur exc n s q held -> (c = root_container \/ exists j, c ∈ held j) -> y ∈ upd q c (filter (fun z => z <> x) (q c)) d ->
  member_ok s (upd q c (filter (fun z => z <> x) (q c))) d y.
Proof.
  intros H Hc [Hy _]%elem_upd_filter. pose proof (si_member _ _ _ _ _ _ H d y Hy) as Hm. destruct Hm as [Hm|(a & ca & -> & Ha & Hr & Hpa & Hra & Hne)]; [by left|].
  right. exists a, ca. repeat split; try done. rewrite upd_ne; [done|]. intros ->. destruct Hc as [->|[j Hj]]; [done|].
  destruct (si_held _ _ _ _ _ _ H j c Hj) as (cb & Hcb & Hrb). congruence.
Qed.

(** A process leaves the queue of the root or of a container of this CPU. *)
Lemma erase_proc cur n s q held p y :
  sched_inv cur None n s q held -> procs s !! p = Some y -> sch_p p ∈ q (p_container y) -> (p_container y = root_container \/ exists j, p_container y ∈ held j) ->
  exists s' q', erase (p_container y) (sch_p p) s = Ret (tt, s') /\ sched_inv cur (Some p) n s' q' held /\ ((forall c, sch_p p ∉ q' c) /\ forall c x, x ∈ q' c -> x ∈ q c) /\
    timers s' = timers s /\ schelock s' = schelock s /\ procs s' = procs s /\ cpus s' = cpus s /\ conts_like (conts s) (conts s').
Proof.
  intros H Hp Hx Hh. destruct (st_proc _ _ (si_static _ _ _ _ _ _ H) p y Hp) as [_ [ct Hc]].
  destruct (erase_queue s q _ ct (sch_p p) (si_queues _ _ _ _ _ _ H) Hc Hx) as (h & r & E & Hq').
  eexists _, (upd q (p_container y) (filter (fun z => z <> sch_p p) (q (p_container y)))). split; [by apply erase_Ret|]. split; [|split; [|repeat split; try done; by apply requeued_like]].
  - eapply requeue_step; try done.
    + intros c x. by apply (member_kept _ _ _ _ _ _ _ _ _ _ H).
    + intros p' y' Hp' Hi' Hr' Hexc. rewrite elem_upd_filter. split; [by eapply (si_runnable _ _ _ _ _ _ H)|]. intros _ ->%sch_p_inj. by apply Hexc.
  - split; [|intros d x; rewrite elem_upd_filter; tauto]. intros c. rewrite elem_upd_filter. intros [Hc' Hn]. apply Hn; [|done]. by eapply (qs_apart _ _ (si_queues _ _ _ _ _ _ H)).
Qed.

Lemma quot_latency l w : -6 <= l <= 6 -> (820 | w) -> -6 <= Z.quot (l * 820) w <= 6.
Proof.
  intros Hl [m ->]. destruct (decide (m = 0)) as [->|Hm]; [rewrite Z.quot_0_r_ext; lia|].
  rewrite Z.quot_mul_cancel_r by lia. pose proof (Z.quot_abs l m Hm) as Ha. pose proof (Z.quot_pos (Z.abs l) (Z.abs m) ltac:(lia) ltac:(lia)).
  assert (Z.abs l ÷ Z.abs m <= Z.abs l) by (apply Z.quot_le_upper_bound; nia). lia.
Qed.

(** A container leaves its parent's queue for the process on this CPU. *)
Definition held_push (held : Z -> list Z) (k a : Z) : Z -> list Z := fun j => if decide (j = k) then a :: held k else held j.

Lemma pick_cont_step k n s q held a ca :
  sched_inv (Some k) None n s q held -> conts s !! a = Some ca -> a <> root_container -> Running (c_queue ca) = false -> q a <> [] ->
  sch_c a ∈ q (c_parent ca) -> (c_parent ca = root_container \/ exists j, c_parent ca ∈ held j) ->
  exists s' q', pick_turn cont_off (sch_c a) s = Ret (inl (hd 0 (q a)), s') /\ sched_inv (Some k) None n s' q' (held_push held k a) /\ q' a = q a /\
    ((forall c, c <> c_parent ca -> q' c = q c) /\ forall c x, x ∈ q' c -> x ∈ q c) /\
    timers s' = timers s /\ schelock s' = schelock s /\ procs s' = procs s /\ cpus s' = cpus s /\ schinfos s' = schinfos s /\ conts_like (conts s) (conts s').
Proof.
  intros H Ha Hroot Hrun Hne Hx Hpar. pose proof (si_static _ _ _ _ _ _ H) as Hst.
  destruct (st_cont _ _ Hst a ca Ha Hroot) as ((i & Hi & Hic & Hiw) & [ct Hc] & _). set (c := c_parent ca) in *.
  assert (Hac : a <> c).
  { intros ->. destruct Hpar as [?|[j Hj]]; [done|]. destruct (si_held _ _ _ _ _ _ H j c Hj) as (cb & Hcb & Hrb). congruence. }
  assert (Hnh : forall j, a ∉ held j). { intros j Hj. destruct (si_held _ _ _ _ _ _ H j a Hj) as (cb & Hcb & Hrb). congruence. }
  destruct (st_latency _ _ Hst a ca Ha) as (_ & Hsum & Hsumb). destruct (st_latency _ _ Hst c ct Hc) as (Hlat & Hdiv & _).
  destruct (erase_queue s q c ct (sch_c a) (si_queues _ _ _ _ _ _ H) Hc Hx) as (h & r & E & Hq').
  set (q' := upd q c (filter (fun y => y <> sch_c a) (q c))) in *.
  assert (H1 : sched_inv (Some k) None n (requeued s c ct h r) q' held).
  { eapply requeue_step; try done.
    - intros d y. by apply (member_kept _ _ _ _ _ _ _ _ _ _ H).
    - intros p y Hp Hpi Hr Hexc. apply elem_upd_filter. split; [by eapply (si_runnable _ _ _ _ _ _ H)|]. intros _. by apply (st_sep _ _ Hst). }
  set (l := Z.quot (i32 (sched_latency (c_queue ct) * weight i)) (weight_sum (c_queue ct))).
  assert (Hl : -6 <= l <= 6) by (unfold l, i32; rewrite Hiw, wraps_small by lia; by apply quot_latency).
  set (ca1 := with_queue (with_running true) ca). set (ca2 := with_queue (with_latency l) ca1).
  set (s2 := set_conts <[a := ca2]> (set_conts <[a := ca1]> s)).
  assert (Hc2 : conts s2 !! c = Some ct) by (cbn [s2 conts set_conts]; by rewrite !lookup_insert_ne).
  assert (E2 : requeued s2 c ct h r = set_conts <[a := ca2]> (requeued s c ct h r)).
  { unfold requeued, s2, set_conts, set_rbnodes. cbn. f_equal. rewrite insert_insert_eq. by apply insert_insert_ne. }
  assert (H2 : sched_inv (Some k) None n (requeued s2 c ct h r) q' (held_push held k a)).
  { rewrite E2. eapply (put_queue (Some k) None n n _ q' held _ a ca ca2); try done.
    - cbn [conts requeued set_conts set_rbnodes]. by rewrite lookup_insert_ne.
    - cbn. unfold i32. rewrite wraps_small by lia. done.
    - right. left. split; [done|]. intros d Hd. apply elem_upd_filter in Hd as [Hd Hd']. apply Hd'; [|done]. by eapply (qs_apart _ _ (si_queues _ _ _ _ _ _ H)).
    - intros j b. unfold held_push. destruct (decide (j = k)) as [->|]; [|by left]. intros [->|Hb]%elem_of_cons; [by right|by left].
    - intros j j' b. unfold held_push. pose proof (si_disjoint _ _ _ _ _ _ H) as Hd. destruct (decide (j = k)) as [->|], (decide (j' = k)) as [->|];
        rewrite ?elem_of_cons; [done| | |apply Hd]; [intros [->|Hb] Hb'|intros Hb [->|Hb']]; try (by destruct (Hnh j')); try (by destruct (Hnh j)); by eapply Hd.
    - intros j Hj. unfold held_push. rewrite decide_False; [done|]. congruence. }
  assert (Hqa : q' a = q a) by (by apply upd_ne).
  assert (Ha2 : conts (requeued s2 c ct h r) !! a = Some ca2).
  { rewrite E2. apply lookup_insert_eq. }
  exists (requeued s2 c ct h r), q'. split; [|split; [exact H2|split; [done|split; [split; [intros d Hd; by apply upd_ne|intros d x; unfold q'; rewrite elem_upd_filter; tauto]|repeat split; try done]]]].
  - unfold pick_turn. rewrite (bind_Ret _ _ _ _ _ (get_info_Ret _ _ _ Hi)). rewrite Hic. cbv zeta.
    replace (sch_c a - cont_off) with a by (unfold Sched.sch_c; lia).
    rewrite (bind_Ret _ _ _ _ _ (put_cont_Ret a _ s ca Ha)). rewrite (bind_Ret _ _ _ _ _ (get_cont_Ret a (set_conts <[a := ca1]> s) ca1 ltac:(cbn [conts set_conts]; apply lookup_insert_eq))).
    change (c_parent ca1) with c. rewrite (bind_Ret _ _ _ _ _ (get_cont_Ret c (set_conts <[a := ca1]> s) ct ltac:(cbn [conts set_conts]; by rewrite lookup_insert_ne))).
    rewrite (bind_Ret _ _ _ _ _ (put_cont_Ret a _ (set_conts <[a := ca1]> s) ca1 ltac:(cbn [conts set_conts]; apply lookup_insert_eq))). fold l. fold ca2. fold s2.
    rewrite (bind_Ret _ _ _ _ _ (erase_Ret s2 c ct (sch_c a) h r Hc2 E)).
    rewrite (bind_Ret _ _ _ _ _ (first_Ret _ q' a ca2 (si_queues _ _ _ _ _ _ H2) Ha2)). by rewrite Hqa.
  - rewrite E2. eapply (conts_like_trans _ (conts (requeued s c ct h r))); [by apply requeued_like|].
    apply (conts_like_insert _ _ ca); [|done]. cbn [conts requeued set_conts set_rbnodes]. by rewrite lookup_insert_ne.
Qed.

(** The state of a process that is in no queue. *)
Lemma put_state cur cur' exc exc' n s q held p x st :
  sched_inv cur exc n s q held -> procs s !! p = Some x -> (forall c, sch_p p ∉ q c) -> exc = None \/ exc = Some p ->
  exc' = Some p \/ (exc' = None /\ (st <> RUNNABLE \/ idle x = true)) ->
  cpu_part cur' (set_procs <[p := with_state st x]> s) held -> sched_inv cur' exc' n (set_procs <[p := with_state st x]> s) q held.
Proof.
  intros H Hp Hq He He' Hcpu. split.
  - by eapply queues_same; [| | |apply (si_queues _ _ _ _ _ _ H)].
  - eapply static_keep; [by apply (si_static _ _ _ _ _ _ H)|apply conts_like_refl|apply (st_latency _ _ (si_static _ _ _ _ _ _ H))| |].
    + intros y i Hy. by exists i.
    + intros p' x'. cbn [procs set_procs]. intros [[<- <-]|[_ Hx']]%lookup_insert_Some; eauto.
  - intros c y Hy. eapply member_mono; [by apply (si_member _ _ _ _ _ _ H)| |intros b cb Hb _; by exists cb|done].
    intros p' y' Hp' _ _ ->. cbn [procs set_procs]. rewrite lookup_insert_ne; [done|]. intros <-. by destruct (Hq c).
  - intros p' y'. cbn [procs set_procs]. intros [[<- <-]|[Hn Hp']]%lookup_insert_Some.
    + cbn. intros Hi Hr Hexc. destruct He' as [->|[-> [?|?]]]; congruence.
    + intros Hi Hr _. apply (si_runnable _ _ _ _ _ _ H); try done. destruct He as [->| ->]; congruence.
  - apply (si_held _ _ _ _ _ _ H).
  - apply (si_disjoint _ _ _ _ _ _ H).
  - done.
Qed.
End inv.

(** * The loops of the scheduler (kernel/sched.c)

    [update_this_state] and [pick_next] on states that satisfy [sched_inv]:
    the process that stops leaves its chain of containers and they go back to
    their parents' queues; the process that is chosen is the one that
    following the first members from the root's queue leads to. *)

(** What the steps on the queues leave alone. *)
Definition kept (s s' : sched_st) : Prop :=
  timers s' = timers s /\ schelock s' = schelock s /\ procs s' = procs s /\ cpus s' = cpus s /\ conts_like (conts s) (conts s').

Lemma kept_refl s : kept s s.
Proof. repeat split; try done. apply conts_like_refl. Qed.
Lemma kept_trans s s' s'' : kept s s' -> kept s' s'' -> kept s s''.
Proof. intros (? & ? & ? & ? & ?) (? & ? & ? & ? & ?). repeat split; try congruence. by eapply conts_like_trans. Qed.

Lemma conts_like_size cs cs' : conts_like cs cs' -> size cs' = size cs.
Proof.
  intros H. rewrite <- !size_dom. f_equal. apply set_eq. intros a. rewrite !elem_of_dom. symmetry. by apply conts_like_Some.
Qed.

Definition set_held (held : Z -> list Z) (k : Z) (l : list Z) : Z -> list Z := fun j => if decide (j = k) then l else held j.
Lemma set_held_eq held k l : set_held held k l k = l.
Proof. unfold set_held. by rewrite decide_True. Qed.
Lemma set_held_ne held k l j : j <> k -> set_held held k l j = held j.
Proof. intros. unfold set_held. by rewrite decide_False. Qed.

Lemma hd_elem (l : list Z) : l <> [] -> hd 0 l ∈ l.
Proof. destruct l; [done|]. intros _. by left. Qed.

Section loops.
Context (proc_off cont_off root_container : Z) (k : Z).
Local Notation sch_p := (sch_p proc_off).
Local Notation sch_c := (sch_c cont_off).
Local Notation chain := (chain root_container).
Local Notation sched_inv := (sched_inv proc_off cont_off root_container).
Local Notation inv := (sched_inv (Some k) None).

(** ** A container is left *)
Lemma leave_cont n s q held a l ca v :
  inv n s q held -> held k = a :: l -> chain (conts s) a (a :: l) -> conts s !! a = Some ca ->
  exists s1 s2, put_info (sch_c a) (fun i => with_vruntime (u64 (vruntime i + v)) i) s = Ret (tt, s1) /\
    put_cont a (with_queue (with_running false)) s1 = Ret (tt, s2) /\ inv n s2 q (set_held held k l) /\ kept s s2 /\
    conts s2 !! a = Some (with_queue (with_running false) ca) /\ (forall c, sch_c a ∉ q c).
Proof.
  intros H Hk Hch Ha. assert (Hin : a ∈ held k) by (rewrite Hk; by left).
  destruct (si_held _ _ _ _ _ _ _ _ _ H k a Hin) as (ca' & Hca' & Hrun). rewrite Ha in Hca'. injection Hca' as <-.
  pose proof (si_static _ _ _ _ _ _ _ _ _ H) as Hst. assert (Hr : a <> root_container) by (eapply chain_not_root; [exact Hch|by left]).
  destruct (st_cont _ _ _ _ _ Hst a ca Ha Hr) as ((i & Hi & _) & _). pose proof (cont_not_queued _ _ _ _ _ _ _ _ _ a ca H Ha Hrun) as Hq.
  eexists _, _. split; [by apply (put_info_Ret _ _ _ i)|]. split; [by apply (put_cont_Ret _ _ _ ca)|]. split; [|split; [|split; [apply lookup_insert_eq|done]]].
  - eapply put_queue; [by apply put_vruntime|done|exact Ha|done|done| | | | |].
    + apply (st_latency _ _ _ _ _ Hst a ca Ha).
    + right. right. split; [done|]. intros j Hj. pose proof (chain_NoDup _ _ _ _ Hch) as Hnd. apply NoDup_cons in Hnd as [Hnd _].
      destruct (decide (j = k)) as [->|Hjk]; [by rewrite set_held_eq in Hj|]. rewrite set_held_ne in Hj by done. apply Hjk. by eapply (si_disjoint _ _ _ _ _ _ _ _ _ H).
    + intros j b. unfold set_held. destruct (decide (j = k)) as [->|]; [|by left]. intros Hb. left. rewrite Hk. by right.
    + intros j j' b Hb Hb'. apply (si_disjoint _ _ _ _ _ _ _ _ _ H j j' b).
      * unfold set_held in Hb. destruct (decide (j = k)) as [->|]; [rewrite Hk; by right|done].
      * unfold set_held in Hb'. destruct (decide (j' = k)) as [->|]; [rewrite Hk; by right|done].
    + intros j Hj. apply set_held_ne. congruence.
  - repeat split; try done. by apply (conts_like_insert _ _ ca).
Qed.

Lemma chain_like s s' c l : kept s s' -> chain (conts s) c l -> chain (conts s') c l.
Proof. intros (_ & _ & _ & _ & Hl). by apply conts_like_chain. Qed.

(** What the containers that are left add to the queues. *)
Lemma grown_step a l (q q3 q4 : Z -> list Z) : (forall c x, x ∈ q3 c -> x ∈ q c \/ x = sch_c a) -> (forall c x, x ∈ q4 c -> x ∈ q3 c \/ exists b, b ∈ l /\ x = sch_c b) ->
  forall c x, x ∈ q4 c -> x ∈ q c \/ exists b, b ∈ a :: l /\ x = sch_c b.
Proof.
  intros H3 H4 c x Hx. destruct (H4 c x Hx) as [Hx3|(b & Hb & ->)]; [|right; exists b; split; [by right|done]].
  destruct (H3 c x Hx3) as [?| ->]; [by left|right; exists a; split; [by left|done]].
Qed.

(** ** The loop of a process that stays runnable *)
Lemma runnable_loop v n l : forall m c s q held,
  inv n s q held -> held k = l -> chain (conts s) c l -> q c <> [] -> (length l < m)%nat ->
  exists s' q', while m (runnable_turn cont_off root_container v) c s = Ret (tt, s') /\ inv n s' q' (set_held held k []) /\ kept s s' /\
    forall d x, x ∈ q' d -> x ∈ q d \/ exists a, a ∈ l /\ x = sch_c a.
Proof.
  induction l as [|a l IH]; intros m c s q held H Hk Hch Hq Hm; (destruct m as [|m]; [simpl in Hm; lia|]); rewrite while_S; unfold runnable_turn at 1.
  - rewrite Hch, Z.eqb_refl. exists s, q. split; [done|]. split; [|split; [apply kept_refl|by left]].
    eapply held_ext; [|exact H]. intros j. unfold set_held. by destruct (decide (j = k)) as [->|].
  - pose proof Hch as (-> & Hr & ca & Ha & Hch').
    destruct (leave_cont n s q held c l ca v H Hk Hch Ha) as (s1 & s2 & E1 & E2 & H2 & K2 & Hc2 & Hnq).
    destruct (enqueue_cont _ _ _ _ _ _ _ _ _ _ H2 Hc2 Hr eq_refl Hq Hnq) as (s3 & q3 & E3 & H3 & Hne3 & Hn3 & K3).
    change (c_parent (with_queue (with_running false) ca)) with (c_parent ca) in *.
    assert (K : kept s s3). { eapply kept_trans; [exact K2|]. destruct K3 as (? & ? & ? & ? & ? & ?). by repeat split. }
    destruct (IH m (c_parent ca) s3 q3 (set_held held k l) H3 (set_held_eq _ _ _) ltac:(by eapply chain_like) Hne3 ltac:(simpl in Hm; lia)) as (s4 & q4 & E4 & H4 & K4 & Hn4).
    exists s4, q4. split; [|split; [|split; [by eapply kept_trans|]]].
    + rewrite (proj2 (Z.eqb_neq c root_container)) by done. rewrite !bind_assoc.
      rewrite (bind_Ret _ _ _ _ _ E1), !bind_assoc, (bind_Ret _ _ _ _ _ E2), !bind_assoc, (bind_Ret _ _ _ _ _ (get_cont_Ret c s2 _ Hc2)), !bind_assoc.
      change (c_parent (with_queue (with_running false) ca)) with (c_parent ca). rewrite (bind_Ret _ _ _ _ _ E3). exact E4.
    + eapply held_ext; [|exact H4]. intros j. unfold set_held. by destruct (decide (j = k)).
    + by apply (grown_step c l q q3).
Qed.

(** ** The loop of a process that stops *)
(** A weight leaves a queue. *)
Lemma sum_step cur exc n s q held c ct d :
  sched_inv cur exc n s q held -> conts s !! c = Some ct -> d = 820 \/ d = -820 -> 0 <= n -> 820 * (n + 1) < 2 ^ 31 ->
  exists s', put_cont c (with_queue (with_sum (fun w => w + d))) s = Ret (tt, s') /\ sched_inv cur exc (n + 1) s' q held /\ kept s s' /\ schinfos s' = schinfos s /\
    conts s' !! c = Some (with_queue (with_sum (fun w => w + d)) ct).
Proof.
  intros H Hc Hd Hn Hb. destruct (st_latency _ _ _ _ _ (si_static _ _ _ _ _ _ _ _ _ H) c ct Hc) as (Hl & Hdiv & Hs).
  eexists. split; [by apply (put_cont_Ret _ _ _ ct)|]. split; [|split; [repeat split; try done; by apply (conts_like_insert _ _ ct)|split; [done|apply lookup_insert_eq]]].
  eapply put_queue; [exact H|lia|exact Hc|done|done| |by left|by intros; left|apply (si_disjoint _ _ _ _ _ _ _ _ _ H)|done].
  cbn. split; [done|]. unfold i32. rewrite wraps_small by lia. split; [|lia]. apply Z.divide_add_r; [done|]. destruct Hd as [-> | ->]; [by exists 1|by exists (-1)].
Qed.

Lemma with_sum_sub w : with_queue (with_sum (fun x => x - w)) = with_queue (with_sum (fun x => x + - w)).
Proof. done. Qed.

Lemma stopped_loop v l : forall m n c s q held,
  inv n s q held -> held k = l -> chain (conts s) c l -> 0 <= n -> 820 * (n + Z.of_nat (length l)) < 2 ^ 31 -> (length l < m)%nat ->
  exists s' q', while m (stopped_turn cont_off root_container v) c s = Ret (tt, s') /\ inv (n + Z.of_nat (length l)) s' q' (set_held held k []) /\ kept s s' /\
    forall d x, x ∈ q' d -> x ∈ q d \/ exists a, a ∈ l /\ x = sch_c a.
Proof.
  induction l as [|a l IH]; intros m n c s q held H Hk Hch Hn0 Hn Hm; (destruct m as [|m]; [simpl in Hm; lia|]); rewrite while_S; unfold stopped_turn at 1.
  - rewrite Hch, Z.eqb_refl. exists s, q. split; [done|]. split; [|split; [apply kept_refl|by left]]. rewrite Z.add_0_r.
    eapply held_ext; [|exact H]. intros j. unfold set_held. by destruct (decide (j = k)) as [->|].
  - pose proof Hch as (-> & Hr & ca & Ha & Hch').
    destruct (leave_cont n s q held c l ca v H Hk Hch Ha) as (s1 & s2 & E1 & E2 & H2 & K2 & Hc2 & Hnq).
    set (ca2 := with_queue (with_running false) ca) in *.
    assert (H3 : exists s3 q3, when (negb (hd 0 (q c) =? 0)) (enqueue (c_parent ca) (sch_c c)) s2 = Ret (tt, s3) /\ inv n s3 q3 (set_held held k l) /\ kept s2 s3 /\ forall d x, x ∈ q3 d -> x ∈ q d \/ x = sch_c c).
    { destruct (Z.eqb_spec (hd 0 (q c)) 0) as [E|E]; cbn [when negb].
      - exists s2, q. split; [done|]. split; [done|]. split; [apply kept_refl|by left].
      - assert (Hq : q c <> []) by (by intros Eq; rewrite Eq in E).
        destruct (enqueue_cont _ _ _ _ _ _ _ _ _ _ H2 Hc2 Hr eq_refl Hq Hnq) as (s3 & q3 & E3 & H3 & _ & Hn3 & ? & ? & ? & ? & ? & ?).
        exists s3, q3. split; [exact E3|]. split; [exact H3|]. split; [by repeat split|exact Hn3]. }
    destruct H3 as (s3 & q3 & E3 & H3 & K3 & Hn3). pose proof (kept_trans _ _ _ K2 K3) as K.
    pose proof (si_static _ _ _ _ _ _ _ _ _ H3) as Hst3. pose proof (proj2 (proj2 (proj2 (proj2 K)))) as HK. pose proof (HK c) as Hkc. rewrite Ha in Hkc. destruct Hkc as (ca3 & Hc3 & Ep).
    destruct (st_cont _ _ _ _ _ Hst3 c ca3 Hc3 Hr) as ((i & Hi & _ & Hw) & [cp Hcp] & _). rewrite Ep in Hcp.
    destruct (sum_step _ _ _ _ _ _ _ _ (-820) H3 Hcp ltac:(by right) Hn0 ltac:(simpl in Hn; lia)) as (s4 & E4 & H4 & K4 & _ & _).
    assert (K' : kept s s4) by (eapply kept_trans; [|exact K4]; exact K).
    destruct (IH m (n + 1) (c_parent ca) s4 q3 (set_held held k l) H4 (set_held_eq _ _ _) ltac:(by eapply chain_like) ltac:(lia) ltac:(simpl in Hn; lia) ltac:(simpl in Hm; lia))
      as (s5 & q5 & E5 & H5 & K5 & Hn5).
    exists s5, q5. split; [|split; [|split; [by eapply kept_trans|]]].
    + rewrite (proj2 (Z.eqb_neq c root_container)) by done. rewrite !bind_assoc.
      rewrite (bind_Ret _ _ _ _ _ E1), !bind_assoc, (bind_Ret _ _ _ _ _ E2), !bind_assoc, (bind_Ret _ _ _ _ _ (get_cont_Ret c s2 _ Hc2)), !bind_assoc.
      rewrite (bind_Ret _ _ _ _ _ (first_Ret s2 q c ca2 (si_queues _ _ _ _ _ _ _ _ _ H2) Hc2)), !bind_assoc.
      change (c_parent ca2) with (c_parent ca). rewrite (bind_Ret _ _ _ _ _ E3), !bind_assoc, (bind_Ret _ _ _ _ _ (get_info_Ret _ _ _ Hi)), !bind_assoc.
      rewrite with_sum_sub, Hw. rewrite (bind_Ret _ _ _ _ _ E4). exact E5.
    + replace (n + Z.of_nat (length (c :: l))) with (n + 1 + Z.of_nat (length l)) by (simpl length; lia).
      eapply held_ext; [|exact H5]. intros j. unfold set_held. by destruct (decide (j = k)).
    + by apply (grown_step c l q q3).
Qed.

(** ** The loop of [pick_next] *)
(** Following the first members from the queue of [c] leads to [p]. *)
Inductive leads (ps : gmap Z proc) (q : Z -> list Z) : Z -> Z -> Prop :=
| leads_proc c p : is_Some (ps !! p) -> q c <> [] -> hd 0 (q c) = sch_p p -> leads ps q c p
| leads_cont c a p : q c <> [] -> hd 0 (q c) = sch_c a -> leads ps q a p -> leads ps q c p.

Lemma pick_loop n q0 m : forall c s q held,
  inv n s q held -> chain (conts s) c (held k) -> q c <> [] -> (size (conts s) < m + length (held k))%nat ->
  (forall d, d = c \/ (d <> root_container /\ d ∉ held k) -> q d = q0 d) ->
  exists p y s' q' l', while m (pick_turn cont_off) (hd 0 (q c)) s = Ret (sch_p p, s') /\ inv n s' q' (set_held held k l') /\ kept s s' /\
    procs s' !! p = Some y /\ idle y = false /\ state y = RUNNABLE /\ sch_p p ∈ q' (p_container y) /\ chain (conts s') (p_container y) l' /\ leads (procs s) q0 c p /\
    (forall d x, x ∈ q' d -> x ∈ q d) /\ forall a, a ∈ l' -> a ∈ held k \/ exists d, sch_c a ∈ q d.
Proof.
  induction m as [|m IH]; intros c s q held H Hch Hq Hm H0; [pose proof (chain_length _ _ _ _ Hch); lia|]. rewrite while_S.
  pose proof (hd_elem _ Hq) as Hx. pose proof (si_static _ _ _ _ _ _ _ _ _ H) as Hst. assert (Hq0 : q0 c = q c) by (symmetry; apply H0; by left).
  assert (Hheld : c = root_container \/ exists j, c ∈ held j).
  { destruct (held k) as [|a l] eqn:E; [by left|]. right. destruct Hch as (-> & _). exists k. rewrite E. by left. }
  destruct (si_member _ _ _ _ _ _ _ _ _ H c _ Hx) as [(p & y & E & Hp & Hi & Hc & Hr)|(a & ca & E & Ha & Hr & Hpa & Hrun & Hne)].
  - destruct (st_proc _ _ _ _ _ Hst p y Hp) as [(i & Hinfo & Hic & _) _]. exists p, y, s, q, (held k). split; [|split; [|split; [apply kept_refl|]]].
    + rewrite E. unfold pick_turn. rewrite bind_assoc, (bind_Ret _ _ _ _ _ (get_info_Ret _ _ _ Hinfo)). by rewrite Hic.
    + eapply held_ext; [|exact H]. intros j. unfold set_held. by destruct (decide (j = k)) as [->|].
    + rewrite Hc. repeat split; try done; [by rewrite <- E| |by left]. apply leads_proc; [by eexists|by rewrite Hq0|by rewrite Hq0].
  - subst c. rewrite E in Hx. destruct (pick_cont_step _ _ _ k n s q held a ca H Ha Hr Hrun Hne Hx Hheld) as (s1 & q1 & E1 & H1 & Hqa & [Hqd Hsub1] & K1 & K2 & K3 & K4 & K5 & K6).
    assert (K : kept s s1) by (by repeat split).
    assert (Hch1 : chain (conts s1) a (held_push held k a k)).
    { unfold held_push. rewrite decide_True by done. eapply chain_like; [exact K|]. split; [done|]. split; [done|]. by exists ca. }
    destruct (IH a s1 q1 (held_push held k a) H1 Hch1 ltac:(by rewrite Hqa)) as (p & y & s2 & q2 & l2 & E2 & H2 & Kk & Hp & Hi & Hs & Hin & Hch2 & Hl & Hsub2 & Hfrom).
    { rewrite (conts_like_size _ _ K6). unfold held_push. rewrite decide_True by done. simpl length. lia. }
    { intros d Hd. assert (Hda : d = a \/ (d <> root_container /\ d ∉ held k)).
      { destruct Hd as [->|[Hdr Hd]]; [by left|]. right. split; [done|]. intros Hdk. apply Hd. unfold held_push. rewrite decide_True by done. by right. }
      rewrite Hqd; [apply H0; right|].
      - destruct Hda as [->|?]; [|done]. split; [done|]. intros Hak. destruct (si_held _ _ _ _ _ _ _ _ _ H k a Hak) as (? & ? & ?). congruence.
      - intros ->. destruct Hda as [<-|[Hdr Hdk]].
        + destruct Hheld as [?|[j Hj]]; [done|]. destruct (si_held _ _ _ _ _ _ _ _ _ H j _ Hj) as (? & ? & ?). congruence.
        + destruct (held k) as [|b l] eqn:Ek; [by simpl in Hch|]. destruct Hch as (-> & _). apply Hdk. by left. }
    exists p, y, s2, q2, l2. rewrite E, (bind_Ret _ _ _ _ _ E1), <- Hqa. split; [exact E2|]. split; [|split; [by eapply kept_trans|]].
    + eapply held_ext; [|exact H2]. intros j. unfold set_held, held_push. by destruct (decide (j = k)).
    + do 5 (split; [done|]). split; [apply (leads_cont _ _ _ a); [by rewrite Hq0|by rewrite Hq0|]; by rewrite <- K3|]. split; [intros d x Hdx; by apply Hsub1, Hsub2|].
      intros b Hb. destruct (Hfrom b Hb) as [Hbk|[d Hd]]; [|right; exists d; by apply Hsub1]. unfold held_push in Hbk. rewrite decide_True in Hbk by done.
      apply elem_of_cons in Hbk as [->|?]; [right; by eexists|by left].
Qed.
End loops.
