(* ===== verification/SchedCalls.v ===== *)
(** * The calls of the scheduler (kernel/sched.c)

    A state between two calls satisfies [sched_ok]; a call on such a state
    returns, and leads to such a state. *)
From stdpp Require Import base gmap list sorting.
From Stdlib Require Import ZArith Lia.
From S2P Require Import Prelude Mmu RBTree RBMap RBRefine RBFrame Timer Sched SchedSteps.

(** ** Processes *)
Lemma procs_insert s p f x p' : procs s !! p = Some x -> procs (set_procs <[p := f]> s) !! p' = if decide (p' = p) then Some f else procs s !! p'.
Proof. intros _. cbn [procs set_procs]. destruct (decide (p' = p)) as [->|]; [apply lookup_insert_eq|by rewrite lookup_insert_ne]. Qed.

(** The processes keep their places; one that is runnable stays so until it runs. *)
Definition procs_like (s s' : sched_st) : Prop := forall p y, procs s !! p = Some y ->
  exists y', procs s' !! p = Some y' /\ idle y' = idle y /\ p_container y' = p_container y /\ (state y = RUNNABLE -> state y' = RUNNABLE \/ state y' = RUNNING).

Definition procs_keep (s s' : sched_st) : Prop := forall p y, procs s !! p = Some y ->
  exists y', procs s' !! p = Some y' /\ state y' = state y /\ idle y' = idle y /\ p_container y' = p_container y.

Lemma procs_like_refl s s' : procs s' = procs s -> procs_like s s'.
Proof using. intros E p y Hy. exists y. rewrite E. auto. Qed.
Lemma procs_like_keep s s1 s2 : procs_like s s1 -> procs_keep s1 s2 -> procs_like s s2.
Proof using.
  intros H1 H2 p y Hy. destruct (H1 p y Hy) as (y1 & Hy1 & E1 & E2 & E3). destruct (H2 p y1 Hy1) as (y2 & Hy2 & F1 & F2 & F3).
  exists y2. rewrite F1, F2, F3. auto.
Qed.
Lemma procs_keep_pgdir s p x f : procs s !! p = Some x -> procs_keep s (set_procs <[p := with_pgdir f x]> s).
Proof using.
  intros Hx p' y Hy. rewrite (procs_insert _ _ _ x) by done. destruct (decide (p' = p)) as [->|]; [|by exists y].
  rewrite Hx in Hy. injection Hy as <-. by eexists.
Qed.

Lemma procs_like_wake s s' p x : procs s !! p = Some x -> procs s' = <[p := with_state RUNNABLE x]> (procs s) -> procs_like s s'.
Proof.
  intros Hx E j y Hy. rewrite E. destruct (decide (j = p)) as [->|]; [|rewrite lookup_insert_ne by done; exists y; auto].
  rewrite lookup_insert_eq. rewrite Hx in Hy. injection Hy as <-. eexists. split; [done|]. repeat split. by left.
Qed.

(** The state of a process in no queue, recorded, and the start of [next]. *)
Lemma procs_like_switch s s' p x st next y :
  procs s !! p = Some x -> state x = RUNNING -> procs s' = <[p := with_state st x]> (procs s) -> procs s' !! next = Some y ->
  procs_like s (set_procs <[next := with_state RUNNING y]> s').
Proof using.
  intros Hx Hr E Hy j z Hz. rewrite (procs_insert _ _ _ y) by done. destruct (decide (j = next)) as [->|Hj].
  - rewrite E in Hy. apply lookup_insert_Some in Hy as [[<- <-]|[_ Hy]].
    + rewrite Hx in Hz. injection Hz as <-. eexists. split; [done|]. repeat split. by right.
    + rewrite Hz in Hy. injection Hy as <-. eexists. split; [done|]. repeat split. by right.
  - rewrite E. destruct (decide (j = p)) as [->|Hjp]; [|rewrite lookup_insert_ne by done; exists z; auto].
    rewrite lookup_insert_eq. rewrite Hx in Hz. injection Hz as <-. eexists. split; [done|]. repeat split. congruence.
Qed.

Section calls.
Context (proc_off cont_off root_container : Z) (clock_interupt : Z -> Z) (invalid_pt : Z).
Context (tick : nat -> Z) (one_ms max_elapse : Z).
Hypothesis tick_bound : forall n, 0 <= tick n < 2 ^ 61.
Hypothesis tick_mono : forall n m, (n <= m)%nat -> tick n <= tick m.
Hypothesis ms_bound : 0 < one_ms /\ 1000 <= max_elapse < 2 ^ 31 /\ max_elapse * one_ms <= 0x7fffffff.
Hypothesis clock_inj : forall k k', clock_interupt k = clock_interupt k' -> k = k'.
Local Notation sch_p := (sch_p proc_off).
Local Notation sch_c := (sch_c cont_off).
Local Notation chain := (chain root_container).
Local Notation sched_inv := (sched_inv proc_off cont_off root_container).
Local Notation cpu_part := (cpu_part root_container).
Local Notation timers_ok := (timers_ok tick max_elapse).

(** ** The clock of every CPU *)
(** The timer of the CPU [k] is armed or not, as its [data] says. *)
Definition clock_of (k : Z) (tm : timer_st) (tq : Z -> list Z) : Prop :=
  exists r x, troots tm !! k = Some r /\ tms tm !! clock_interupt k = Some x /\
    ((data x = 0 /\ forall j, clock_interupt k ∉ tq j) \/ (data x = 1 /\ clock_interupt k ∈ tq k)).
Definition clocks_ok (s : sched_st) : Prop :=
  exists tq, timers_ok (timers s) tq /\ forall k cp, cpus s !! k = Some cp -> clock_of k (timers s) tq.

(** Changing only the [data] of a timer. *)
Lemma timers_ok_data s tq t x d : timers_ok s tq -> tms s !! t = Some x -> timers_ok (set_tms <[t := with_data d x]> s) tq.
Proof.
  intros H Hx. assert (Hk : forall a, key_of (set_tms <[t := with_data d x]> s) a = key_of s a).
  { intros a. unfold key_of. cbn [tms set_tms]. destruct (decide (a = t)) as [->|Hn]; [by rewrite lookup_insert_eq, Hx|by rewrite lookup_insert_ne]. }
  split.
  - intros k r Hr. eapply queue_frame; [done| |by apply (to_queue _ _ _ _ H)]. intros a b _ _. by apply cmp_same.
  - intros k u Hu. destruct (to_member _ _ _ _ H k u Hu) as (y & Hy & Hy2 & Hy3). cbn [tms set_tms readings]. destruct (decide (u = t)) as [->|Hn].
    + rewrite lookup_insert_eq. rewrite Hx in Hy. injection Hy as <-. by eexists.
    + rewrite lookup_insert_ne by done. by eexists.
  - apply (to_apart _ _ _ _ H).
  - intros u y. cbn [tms set_tms]. intros [[<- <-]|[_ Hy]]%lookup_insert_Some; [exact (to_keys _ _ _ _ H t x Hx)|by apply (to_keys _ _ _ _ H u)].
  - intros u y. cbn [tms set_tms tnodes]. intros [[<- <-]|[_ Hy]]%lookup_insert_Some; [exact (to_timer _ _ _ _ H t x Hx)|by apply (to_timer _ _ _ _ H u)].
Qed.

(** Running the clock's steps in the scheduler's state. *)
Lemma on_timer_Ret {A} (m : M timer_st A) s (a : A) t : m (timers s) = Ret (a, t) -> on_timer m s = Ret (a, set_timers t s).
Proof. apply zoom_Ret. Qed.

Lemma set_timers_same s : set_timers (timers s) s = s.
Proof. by destruct s. Qed.
Lemma set_timers_twice t t' s : set_timers t (set_timers t' s) = set_timers t s.
Proof. done. Qed.

(** The clock's timer is disarmed. *)
Lemma cancel_loop k s tq :
  timers_ok (timers s) tq -> (forall j cp, cpus s !! j = Some cp -> clock_of j (timers s) tq) -> clock_of k (timers s) tq ->
  forall x, tms (timers s) !! clock_interupt k = Some x ->
  exists tm' tq' r' x', while (S (Z.to_nat (data x))) (cancel_turn tick one_ms k (clock_interupt k)) tt s = Ret (tt, set_timers tm' s) /\ timers_ok tm' tq' /\
    troots tm' !! k = Some r' /\ tms tm' !! clock_interupt k = Some x' /\ data x' = 0 /\ (forall j, clock_interupt k ∉ tq' j) /\
    (forall j cp, j <> k -> cpus s !! j = Some cp -> clock_of j tm' tq').
Proof.
  intros H Hall (r & y & Hr & Hy & Hcase) x Hx. rewrite Hx in Hy. injection Hy as <-.
  destruct Hcase as [[Hd Hnq]|[Hd Hin]].
  - exists (timers s), tq, r, x. rewrite set_timers_same. split; [|split; [done|repeat split; try done; by intros j cp _; apply Hall]].
    rewrite Hd. change (S (Z.to_nat 0)) with 1%nat. rewrite while_S. unfold cancel_turn. rewrite bind_assoc.
    rewrite (bind_Ret _ _ _ _ _ (on_timer_Ret _ s x (timers s) (get_timer_Ret _ _ _ Hx))), set_timers_same. by rewrite Hd.
  - set (x0 := with_data 0 x). set (tm1 := set_tms <[clock_interupt k := x0]> (timers s)).
    assert (H1 : timers_ok tm1 tq) by (by apply timers_ok_data).
    assert (Hx1 : tms tm1 !! clock_interupt k = Some x0) by (apply lookup_insert_eq).
    destruct (cancel_spec tick one_ms max_elapse tick_bound tick_mono ms_bound tm1 tq k (clock_interupt k) r x0 H1 Hr Hin Hx1) as (tm2 & E2 & H2 & Et2 & Ed2 & _ & _).
    assert (Hr2 : is_Some (troots tm2 !! k)) by (apply elem_of_dom; rewrite Ed2; apply elem_of_dom; by eexists). destruct Hr2 as [r2 Hr2].
    assert (Hx2 : tms tm2 !! clock_interupt k = Some x0) by (by rewrite Et2).
    exists tm2, (drop_timer k (clock_interupt k) tq), r2, x0. split; [|split; [done|repeat split; try done]].
    + rewrite Hd. change (S (Z.to_nat 1)) with 2%nat. rewrite while_S. unfold cancel_turn at 1. rewrite bind_assoc.
      rewrite (bind_Ret _ _ _ _ _ (on_timer_Ret _ s x (timers s) (get_timer_Ret _ _ _ Hx))), set_timers_same. rewrite Hd. cbn [Z.eqb]. rewrite bind_assoc.
      change (u64 (1 - 1)) with 0.
      rewrite (bind_Ret _ _ _ _ _ (on_timer_Ret _ s tt tm1 (put_timer_Ret _ (with_data 0) _ _ Hx))). rewrite bind_assoc.
      rewrite (bind_Ret _ _ _ _ _ (on_timer_Ret _ (set_timers tm1 s) tt tm2 E2)), set_timers_twice. rewrite (bind_Ret (ret _) _ _ _ _ eq_refl).
      rewrite while_S. unfold cancel_turn. rewrite bind_assoc.
      rewrite (bind_Ret _ _ _ _ _ (on_timer_Ret _ (set_timers tm2 s) x0 tm2 (get_timer_Ret _ _ _ Hx2))). done.
    + intros j. unfold drop_timer. destruct (decide (j = k)) as [->|Hj]; [by intros [? _]%list_elem_of_filter|].
      intros Hj'. apply Hj. by eapply (to_apart _ _ _ _ H).
    + intros j cp Hj Hcp. destruct (Hall j cp Hcp) as (rj & xj & Hrj & Hxj & Hcj).
      assert (Hr2' : is_Some (troots tm2 !! j)) by (apply elem_of_dom; rewrite Ed2; apply elem_of_dom; by eexists). destruct Hr2' as [rj2 Hrj2].
      exists rj2, xj. split; [done|]. split; [rewrite Et2; cbn [tm1 tms set_tms]; rewrite lookup_insert_ne; [done|]; intros E; by apply clock_inj in E|].
      destruct Hcj as [[Hd0 Hn]|[Hd1 Hi]]; [left|right]; (split; [done|]).
      * intros j'. unfold drop_timer. destruct (decide (j' = k)) as [->|]; [|done]. intros [_ ?]%list_elem_of_filter. by apply (Hn k).
      * unfold drop_timer. by rewrite decide_False.
Qed.

(** The time the chosen process gets. *)
Definition slice (s : sched_st) (p : Z) (e : Z) : Prop :=
  exists y, procs s !! p = Some y /\
    if idle y then e = 1
    else exists ct i, conts s !! p_container y = Some ct /\ schinfos s !! sch_p p = Some i /\
      e = Z.max (Z.quot (i32 (sched_latency (c_queue ct) * weight i)) (weight_sum (c_queue ct))) min_lantency.

Lemma slice_bound cur exc n s q held p e : sched_inv cur exc n s q held -> slice s p e -> 1 <= e <= 6.
Proof.
  intros H (y & Hp & He). pose proof (si_static _ _ _ _ _ _ _ _ _ H) as Hst. destruct (idle y) eqn:Hi; [lia|]. destruct He as (ct & i & Hc & Hinfo & ->).
  destruct (st_proc _ _ _ _ _ Hst p y Hp) as [(i' & Hi' & _ & Hw) _]. rewrite Hinfo in Hi'. injection Hi' as <-. rewrite Hw by done.
  destruct (st_latency _ _ _ _ _ Hst _ _ Hc) as (Hl & Hd & _). unfold i32, min_lantency. rewrite wraps_small by lia. pose proof (quot_latency _ _ Hl Hd). lia.
Qed.

Lemma slice_ex cur exc n s q held p y : sched_inv cur exc n s q held -> procs s !! p = Some y -> exists e, slice s p e.
Proof.
  intros H Hp. destruct (st_proc _ _ _ _ _ (si_static _ _ _ _ _ _ _ _ _ H) p y Hp) as [(i & Hi & _) [ct Hc]].
  destruct (idle y) eqn:Hy; eexists; exists y; rewrite Hy; eauto 8.
Qed.

Lemma slice_eval s p e A (f : Z -> M sched_st A) :
  slice s p e ->
  (x <- get_proc p ;;
   e <- (if idle x then ret 1 else ct <- get_cont (p_container x) ;; i <- get_info (sch_p p) ;;
     ret (Z.max (Z.quot (i32 (sched_latency (c_queue ct) * weight i)) (weight_sum (c_queue ct))) min_lantency)) ;; f e) s = f e s.
Proof.
  intros (y & Hp & He). rewrite (bind_Ret _ _ _ _ _ (get_proc_Ret _ _ _ Hp)). destruct (idle y).
  - by subst e.
  - destruct He as (ct & i & Hc & Hi & ->). rewrite bind_assoc, (bind_Ret _ _ _ _ _ (get_cont_Ret _ _ _ Hc)), bind_assoc. by rewrite (bind_Ret _ _ _ _ _ (get_info_Ret _ _ _ Hi)).
Qed.

(** [thisproc] and the clock after [update_this_proc]. *)
Definition switched (s : sched_st) (k p st : Z) (cp : cpu) (tm : timer_st) : sched_st :=
  set_cpus <[k := mkCpu p (idle_ cp) st (ttbr0 cp)]> (set_timers tm s).

Lemma update_this_proc_Ret k s cp p e :
  clocks_ok s -> cpus s !! k = Some cp -> slice s p e -> 1 <= e <= 6 ->
  exists st tm, update_this_proc proc_off clock_interupt tick one_ms k p s = Ret (tt, switched s k p st cp tm) /\ clocks_ok (switched s k p st cp tm).
Proof.
  intros (tq & H & Hall) Hcp Hsl He. pose proof (Hall k cp Hcp) as Hk. pose proof Hk as (r & x & Hr & Hx & _).
  destruct (cancel_loop k s tq H Hall Hk x Hx) as (tm1 & tq1 & r1 & x1 & E1 & H1 & Hr1 & Hx1 & Hd1 & Hnq & Hoth).
  set (x2 := with_data 1 x1). set (x3 := with_elapse e x2).
  set (tm3 := mkTimers (tnodes tm1) (<[clock_interupt k := x3]> (tms tm1)) (troots tm1) (countdown tm1) (S (readings tm1))).
  assert (H3 : timers_ok tm3 tq1).
  { apply (timers_ok_put tick max_elapse tick_mono tm1 tq1 _ x1); try done; [apply (to_keys _ _ _ _ H1 _ _ Hx1)|cbn; lia|lia]. }
  destruct (set_spec tick one_ms max_elapse tick_bound tick_mono ms_bound tm3 tq1 k (clock_interupt k) r1 x3 H3 Hr1 (lookup_insert_eq _ _ _) Hnq)
    as (tm4 & tm4' & E4 & Et4' & _ & H4 & Et4 & Ed4 & _ & _).
  exists (tick (readings tm1)), tm4. split.
  - unfold update_this_proc. cbv zeta. rewrite (bind_Ret _ _ _ _ _ (on_timer_Ret _ s x (timers s) (get_timer_Ret _ _ _ Hx))), set_timers_same.
    rewrite (bind_Ret _ _ _ _ _ E1). set (s1 := set_timers tm1 s).
    rewrite (bind_Ret _ _ _ _ _ (on_timer_Ret _ s1 tt _ (put_timer_Ret _ (fun tm => with_data (u64 (data tm + 1)) tm) _ _ Hx1))).
    rewrite Hd1. change (u64 (0 + 1)) with 1. fold x2. unfold s1. rewrite set_timers_twice.
    rewrite slice_eval with (e := e) by exact Hsl.
    rewrite (bind_Ret _ _ _ _ _ (on_timer_Ret _ (set_timers (set_tms <[clock_interupt k := x2]> tm1) s) tt _ (put_timer_Ret _ (with_elapse e) (set_tms <[clock_interupt k := x2]> tm1) x2 (lookup_insert_eq _ _ _)))).
    fold x3. rewrite set_timers_twice. set (tm2 := set_tms <[clock_interupt k := x3]> _).
    assert (E2 : tm2 = set_tms <[clock_interupt k := x3]> tm1) by (unfold tm2, set_tms; cbn; by rewrite insert_insert_eq).
    rewrite (bind_Ret (timestamp tick) _ _ (tick (readings tm1)) (set_timers tm3 s)) by (rewrite E2; done).
    rewrite (bind_Ret _ _ _ _ _ (put_cpu_Ret k _ (set_timers tm3 s) cp Hcp)). set (s4 := set_cpus _ (set_timers tm3 s)).
    rewrite (bind_Ret _ _ _ _ _ (on_timer_Ret _ s4 tt tm4 E4)).
    rewrite (put_cpu_Ret k _ _ (mkCpu (thisproc_ cp) (idle_ cp) (tick (readings tm1)) (ttbr0 cp))) by apply lookup_insert_eq.
    unfold switched, s4, set_cpus, set_timers. cbn. by rewrite insert_insert_eq.
  - exists (add_timer tm4' k (clock_interupt k) tq1). split; [exact H4|]. change (timers (switched s k p _ cp tm4)) with tm4.
    intros j cpj. cbn [cpus switched set_cpus set_timers]. intros Hj.
    assert (Hmono : forall i ri, troots tm1 !! i = Some ri -> exists rj, troots tm4 !! i = Some rj).
    { intros i ri Hi. assert (is_Some (troots tm4 !! i)) as [? ?]; [|by eexists]. apply elem_of_dom. rewrite Ed4. apply elem_of_dom. by eexists. }
    destruct (decide (j = k)) as [->|Hjk].
    + destruct (Hmono k r1 Hr1) as [r4 Hr4]. exists r4, (arm (tick (readings tm3)) x3). split; [done|]. split; [rewrite Et4, Et4'; apply lookup_insert_eq|].
      right. split; [done|]. unfold add_timer. rewrite decide_True by done. apply elem_of_insert_key. by left.
    + apply lookup_insert_Some in Hj as [[<- _]|[_ Hj]]; [done|]. destruct (Hoth j cpj Hjk Hj) as (rj & xj & Hrj & Hxj & Hcj). destruct (Hmono j rj Hrj) as [rj' Hrj'].
      assert (Hne : clock_interupt k <> clock_interupt j) by (intros E; by apply clock_inj in E).
      exists rj', xj. split; [done|]. split; [rewrite Et4, Et4', lookup_insert_ne by done; cbn [tms tm3]; by rewrite lookup_insert_ne|].
      destruct Hcj as [[Hd Hn]|[Hd Hin]]; [left|right]; (split; [done|]).
      * intros j'. unfold add_timer. destruct (decide (j' = k)) as [->|]; [|done]. rewrite elem_of_insert_key. intros [?|?]; [done|by apply (Hn k)].
      * unfold add_timer. by rewrite decide_False.
Qed.

(** ** The CPUs' part of the invariant *)
(** The process on the CPU [k] stops running. *)
Lemma cpu_stop k s held cp x st :
  cpu_part None s held -> cpus s !! k = Some cp -> procs s !! thisproc_ cp = Some x -> st <> RUNNING -> (idle x = true -> st = RUNNABLE) ->
  cpu_part (Some k) (set_procs <[thisproc_ cp := with_state st x]> s) held.
Proof.
  intros H Hk Hx Hst Hidle. destruct (si_cpu _ _ _ _ H k cp Hk ltac:(done)) as (x' & Hx' & Hrun & Hown). rewrite Hx in Hx'. injection Hx' as <-. split.
  - intros j cj Hj Hjk. destruct (si_cpu _ _ _ _ H j cj Hj ltac:(done)) as (y & Hy & ?). exists y. split; [|done]. rewrite (procs_insert _ _ _ x) by done.
    rewrite decide_False; [done|]. by eapply (proj2 (si_apart _ _ _ _ H j k cj cp Hj Hk ltac:(congruence))).
  - intros j cj Hj. destruct (si_idle _ _ _ _ H j cj Hj) as (y & Hy & Hi & Hr). rewrite (procs_insert _ _ _ x) by done.
    destruct (decide (idle_ cj = thisproc_ cp)) as [E|E]; [|exists y; repeat split; try done].
    + rewrite E, Hx in Hy. injection Hy as <-. exists (with_state st x). split; [done|]. split; [done|]. intros _. by apply Hidle.
    + intros [[= ->]|Hn]; apply Hr; right; [|done]. cbn [cpus set_procs] in Hj. rewrite Hk in Hj. injection Hj as <-. intros E2. by apply E.
  - intros i j ci cj Hi Hj Hij. destruct (si_apart _ _ _ _ H i j ci cj Hi Hj Hij) as [? Hap]. split; [done|]. intros _ _. by apply Hap.
  - intros p y. rewrite (procs_insert _ _ _ x) by done. destruct (decide (p = thisproc_ cp)) as [->|Hn]; [by intros [= <-]|]. intros Hy Hr.
    destruct (si_running _ _ _ _ H p y Hy Hr) as (j & cj & Hj & _ & Hp). exists j, cj. repeat split; try done. intros [= ->]. congruence.
Qed.

(** The chosen process starts running. *)
Lemma cpu_start k s held cp y :
  cpu_part (Some k) s held -> cpus s !! k = Some cp -> procs s !! thisproc_ cp = Some y -> state y = RUNNABLE ->
  (if idle y then thisproc_ cp = idle_ cp /\ held k = [] else chain (conts s) (p_container y) (held k)) ->
  cpu_part None (set_procs <[thisproc_ cp := with_state RUNNING y]> s) held.
Proof.
  intros H Hk Hy Hr Hown.
  assert (Hother : forall j cj, cpus s !! j = Some cj -> j <> k -> thisproc_ cj <> thisproc_ cp).
  { intros j cj Hj Hjk E. destruct (si_cpu _ _ _ _ H j cj Hj ltac:(congruence)) as (z & Hz & Hzr & _). rewrite E, Hy in Hz. congruence. }
  split.
  - intros j cj Hj _. cbn [cpus set_procs] in Hj. destruct (decide (j = k)) as [->|Hjk].
    + rewrite Hk in Hj. injection Hj as <-. exists (with_state RUNNING y). rewrite (procs_insert _ _ _ y) by done. by rewrite decide_True.
    + destruct (si_cpu _ _ _ _ H j cj Hj ltac:(congruence)) as (z & Hz & ?). exists z. split; [|done]. rewrite (procs_insert _ _ _ y) by done.
      rewrite decide_False; [done|by apply (Hother j)].
  - intros j cj Hj. cbn [cpus set_procs] in Hj. destruct (si_idle _ _ _ _ H j cj Hj) as (z & Hz & Hi & Hzr). rewrite (procs_insert _ _ _ y) by done.
    destruct (decide (idle_ cj = thisproc_ cp)) as [E|E].
    + rewrite E, Hy in Hz. injection Hz as <-. exists (with_state RUNNING y). split; [done|]. split; [done|]. intros [?|Hn]; [done|].
      exfalso. rewrite Hi in Hown. destruct Hown as [Ht _]. destruct (decide (j = k)) as [->|Hjk]; [congruence|].
      apply (proj1 (si_apart _ _ _ _ H j k cj cp Hj Hk Hjk)). congruence.
    + exists z. repeat split; try done. intros [?|Hn]; [done|]. apply Hzr. by right.
  - intros i j ci cj Hi Hj Hij. cbn [cpus set_procs] in Hi, Hj. destruct (si_apart _ _ _ _ H i j ci cj Hi Hj Hij) as [? Hap]. split; [done|]. intros _ _.
    destruct (decide (i = k)) as [->|Hik], (decide (j = k)) as [->|Hjk]; [done| | |].
    + rewrite Hk in Hi. injection Hi as <-. intros E. by apply (Hother j cj Hj Hjk).
    + rewrite Hk in Hj. injection Hj as <-. by apply (Hother i ci Hi Hik).
    + apply Hap; congruence.
  - intros p z. rewrite (procs_insert _ _ _ y) by done. destruct (decide (p = thisproc_ cp)) as [->|Hn]; [intros _ _; by exists k, cp|]. intros Hz Hzr.
    destruct (si_running _ _ _ _ H p z Hz Hzr) as (j & cj & Hj & _ & Hp). by exists j, cj.
Qed.

(** Other fields of a CPU and of a process. *)
Lemma cpu_put cur k s held cp cp' :
  cpu_part cur s held -> cpus s !! k = Some cp -> idle_ cp' = idle_ cp -> (cur = Some k \/ thisproc_ cp' = thisproc_ cp) -> cpu_part cur (set_cpus <[k := cp']> s) held.
Proof.
  intros H Hk Ei Et.
  assert (Hlook : forall j cj, cpus (set_cpus <[k := cp']> s) !! j = Some cj -> exists cj0, cpus s !! j = Some cj0 /\ idle_ cj = idle_ cj0 /\ (cur = Some j \/ thisproc_ cj = thisproc_ cj0)).
  { intros j cj. cbn [cpus set_cpus]. intros [[<- <-]|[_ Hj]]%lookup_insert_Some; [by exists cp|]. exists cj. auto. }
  split.
  - intros j cj (cj0 & Hj & Ei' & Et')%Hlook Hjc. destruct (si_cpu _ _ _ _ H j cj0 Hj Hjc) as (z & Hz & Hr & Ho). destruct Et' as [?|Et']; [congruence|].
    exists z. by rewrite Et', Ei'.
  - intros j cj (cj0 & Hj & Ei' & Et')%Hlook. destruct (si_idle _ _ _ _ H j cj0 Hj) as (z & Hz & Hi & Hr). exists z. rewrite Ei'. repeat split; try done.
    intros [?|Hn]; apply Hr; [by left|]. destruct Et' as [Et'|Et']; [by left|]. right. by rewrite <- Et'.
  - intros i j ci cj (ci0 & Hi & Ei' & Et')%Hlook (cj0 & Hj & Ej' & Etj)%Hlook Hij. destruct (si_apart _ _ _ _ H i j ci0 cj0 Hi Hj Hij) as [Ha Hb].
    rewrite Ei', Ej'. split; [done|]. intros Hic Hjc. destruct Et' as [?|Et']; [congruence|]. destruct Etj as [?|Etj]; [congruence|]. rewrite Et', Etj. by apply Hb.
  - intros p y Hp Hr. destruct (si_running _ _ _ _ H p y Hp Hr) as (j & cj & Hj & Hjc & Hthis). destruct (decide (j = k)) as [->|Hjk].
    + rewrite Hk in Hj. injection Hj as <-. exists k, cp'. cbn [cpus set_cpus]. rewrite lookup_insert_eq. destruct Et as [?|Et]; [congruence|]. by rewrite Et.
    + exists j, cj. cbn [cpus set_cpus]. by rewrite lookup_insert_ne.
Qed.

Lemma inv_cpus cur exc n s q held f :
  sched_inv cur exc n s q held -> cpu_part cur (set_cpus f s) held -> sched_inv cur exc n (set_cpus f s) q held.
Proof. intros [H1 [] H3 H4 H5 H6 H7] H. split; try done. by eapply queues_same; [| | |exact H1]. Qed.

Lemma inv_timers cur exc n s q held t : sched_inv cur exc n s q held -> sched_inv cur exc n (set_timers t s) q held.
Proof. intros [H1 [] H3 H4 H5 H6 []]. split; try done. by eapply queues_same; [| | |exact H1]. Qed.

Lemma inv_lock cur exc n s q held b : sched_inv cur exc n s q held -> sched_inv cur exc n (set_lock b s) q held.
Proof. intros [H1 [] H3 H4 H5 H6 []]. split; try done. by eapply queues_same; [| | |exact H1]. Qed.

Lemma inv_pgdir cur exc n s q held p x f :
  sched_inv cur exc n s q held -> procs s !! p = Some x -> sched_inv cur exc n (set_procs <[p := with_pgdir f x]> s) q held.
Proof.
  intros H Hp. set (s' := set_procs _ s).
  assert (Hl : forall p' y, procs s !! p' = Some y -> exists y', procs s' !! p' = Some y' /\ state y' = state y /\ idle y' = idle y /\ p_container y' = p_container y).
  { intros p' y Hy. unfold s'. rewrite (procs_insert _ _ _ x) by done. destruct (decide (p' = p)) as [->|]; [|by eexists]. rewrite Hp in Hy. injection Hy as <-. by eexists. }
  assert (Hl' : forall p' y', procs s' !! p' = Some y' -> exists y, procs s !! p' = Some y /\ state y' = state y /\ idle y' = idle y /\ p_container y' = p_container y).
  { intros p' y'. unfold s'. rewrite (procs_insert _ _ _ x) by done. destruct (decide (p' = p)) as [->|]; [intros [= <-]; by exists x|intros Hy; by exists y']. }
  destruct H as [H1 H2 H3 H4 H5 H6 H7]. split; try done.
  - by eapply queues_same; [| | |exact H1].
  - eapply static_keep; [exact H2|apply conts_like_refl|apply (st_latency _ _ _ _ _ H2)|intros y i Hy; by exists i|].
    intros p' y' Hy'. destruct (Hl' p' y' Hy') as (y & Hy & _ & Ei & Ec). by exists y.
  - intros c z Hz. destruct (H3 c z Hz) as [(p' & y & -> & Hy & Hi & Hc & Hr)|?]; [|by right]. left. destruct (Hl p' y Hy) as (y' & Hy' & Es & Ei & Ec).
    exists p', y'. by rewrite Es, Ei, Ec.
  - intros p' y' Hy'. destruct (Hl' p' y' Hy') as (y & Hy & -> & -> & ->). by apply H4.
  - destruct H7 as [A1 A2 A3 A4]. split; try done.
    + intros k cp Hk Hn. destruct (A1 k cp Hk Hn) as (y & Hy & Hr & Ho). destruct (Hl _ _ Hy) as (y' & Hy' & Es & Ei & Ec). exists y'. by rewrite Es, Ei, Ec.
    + intros k cp Hk. destruct (A2 k cp Hk) as (y & Hy & Hi & Hr). destruct (Hl _ _ Hy) as (y' & Hy' & Es & Ei & Ec). exists y'. by rewrite Es, Ei.
    + intros p' y' Hy' Hr. destruct (Hl' p' y' Hy') as (y & Hy & Es & _). apply (A4 p' y Hy). by rewrite <- Es.
Qed.

(** ** Stopping and choosing *)
Lemma inv_more cur exc n n' s q held : n <= n' -> sched_inv cur exc n s q held -> sched_inv cur exc n' s q held.
Proof.
  intros Hn [H1 [A1 A2 A3 A4 A5] H3 H4 H5 H6 H7]. split; try done. split; try done. intros c ct Hc. destruct (A5 c ct Hc) as (? & ? & ?). repeat split; try done; lia.
Qed.

Lemma timestamp_ok s : clocks_ok s -> exists now tm, timestamp tick s = Ret (now, set_timers tm s) /\ clocks_ok (set_timers tm s).
Proof.
  intros (tq & H & Hall). eexists _, _. split; [by apply on_timer_Ret|]. exists tq. split; [|done].
  eapply timers_ok_reading; [exact tick_mono|exact H|]. repeat split; try done. cbn. lia.
Qed.

(** Clocks depend on the timers and the CPUs. *)
Lemma clocks_same s s' : timers s' = timers s -> cpus s' = cpus s -> clocks_ok s -> clocks_ok s'.
Proof. intros E1 E2 (tq & H & Hall). exists tq. by rewrite E1, E2. Qed.

Lemma idle_not_queued cur exc n s q held p y : sched_inv cur exc n s q held -> procs s !! p = Some y -> idle y = true -> forall c, sch_p p ∉ q c.
Proof.
  intros H Hp Hi c Hx. destruct (si_member _ _ _ _ _ _ _ _ _ H c _ Hx) as [(p' & y' & E & Hp' & Hi' & _)|(a & ct & E & Ha & _)].
  - apply sch_p_inj in E as <-. congruence.
  - by apply (st_sep _ _ _ _ _ (si_static _ _ _ _ _ _ _ _ _ H) p a).
Qed.

Definition after_stop (s s' : sched_st) (p : Z) (x : proc) (st : procstate) : Prop :=
  clocks_ok s' /\ schelock s' = schelock s /\ procs s' = <[p := with_state st x]> (procs s) /\ cpus s' = cpus s /\ conts_like (conts s) (conts s').

Lemma after_stop_kept s s1 s' p x st : after_stop s s1 p x st -> kept s1 s' -> after_stop s s' p x st.
Proof.
  intros (H1 & H2 & H3 & H4 & H5) (K1 & K2 & K3 & K4 & K5). split; [by eapply clocks_same; [| |exact H1]|]. repeat split; try congruence. by eapply conts_like_trans.
Qed.

(** A container that is in no queue and in which no CPU's process is stays
    so: no step from [q] and [held] to [q'] and [held'] brings it back. *)
Definition absent (a : Z) (q held : Z -> list Z) : Prop := (forall d, sch_c a ∉ q d) /\ forall j, a ∉ held j.
Definition no_return (s : sched_st) (q held q' held' : Z -> list Z) : Prop := forall a, is_Some (conts s !! a) -> absent a q held -> absent a q' held'.

Lemma no_return_refl s q held : no_return s q held q held.
Proof using. by intros a _. Qed.
Lemma no_return_trans s s1 q held q1 held1 q2 held2 :
  conts_like (conts s) (conts s1) -> no_return s q held q1 held1 -> no_return s1 q1 held1 q2 held2 -> no_return s q held q2 held2.
Proof using. intros Hc H1 H2 a Ha Hab. apply H2; [by apply (conts_like_Some _ _ _ Hc)|by apply H1]. Qed.

Definition grow (n : Z) (s : sched_st) : Z := n + 1 + Z.of_nat (size (conts s)).

Lemma update_this_state_Ret k n s q held cp x st :
  sched_inv None None n s q held -> clocks_ok s -> cpus s !! k = Some cp -> procs s !! thisproc_ cp = Some x -> st <> RUNNING -> (idle x = true -> st = RUNNABLE) ->
  0 <= n -> 820 * grow n s < 2 ^ 31 ->
  exists s' q', update_this_state proc_off cont_off root_container tick k st s = Ret (tt, s') /\ sched_inv (Some k) None (grow n s) s' q' (set_held held k []) /\
    no_return s q held q' (set_held held k []) /\ after_stop s s' (thisproc_ cp) x st.
Proof.
  intros H Hck Hk Hx Hst Hidle Hn0 Hn. set (p := thisproc_ cp) in *. unfold grow in *. set (x' := with_state st x).
  assert (Hback : forall q', (forall d z, z ∈ q' d -> z ∈ q d \/ z = sch_p p \/ exists a, a ∈ held k /\ z = sch_c a) -> no_return s q held q' (set_held held k [])).
  { intros q' Hq' a Ha [A1 A2]. split.
    - intros d Hd. destruct (Hq' d _ Hd) as [Hin|[E|(b & Hb & E)]]; [by apply (A1 d)| |apply sch_c_inj in E as ->; by apply (A2 k)].
      apply (st_sep _ _ _ _ _ (si_static _ _ _ _ _ _ _ _ _ H) p a); [by eexists|done|done].
    - intros j. unfold set_held. destruct (decide (j = k)); [by intros ?%elem_of_nil|apply A2]. }
  destruct (si_cpu _ _ _ _ (si_cpus _ _ _ _ _ _ _ _ _ H) k cp Hk ltac:(done)) as (x0 & Hx0 & Hrun & Hown). fold p in Hx0. rewrite Hx in Hx0. injection Hx0 as <-.
  pose proof (proc_not_queued _ _ _ _ _ _ _ _ _ p x H Hx ltac:(congruence)) as Hnq. pose proof (si_static _ _ _ _ _ _ _ _ _ H) as Hst0.
  pose proof (cpu_stop k s held cp x st (si_cpus _ _ _ _ _ _ _ _ _ H) Hk Hx Hst Hidle) as Hcpu. fold p x' in Hcpu.
  set (s1 := set_procs <[p := x']> s) in *. assert (Hx1 : procs s1 !! p = Some x') by apply lookup_insert_eq.
  unfold update_this_state. rewrite (bind_Ret _ _ _ _ _ (thisproc_Ret _ _ _ Hk)). fold p. rewrite (bind_Ret _ _ _ _ _ (put_proc_Ret p _ s x Hx)). fold x' s1.
  rewrite (bind_Ret _ _ _ _ _ (get_proc_Ret _ _ _ Hx1)). change (idle x') with (idle x).
  destruct (idle x) eqn:Hi.
  - exists s1, q. split; [done|]. split; [|split; [apply Hback; by left|split; [by eapply clocks_same; [| |exact Hck]|repeat split; try done; apply conts_like_refl]]].
    apply (inv_more _ _ n); [lia|]. eapply held_ext; [|eapply (put_state _ _ _ None _ None None); try done; [by left|right; split; [done|by right]]].
    intros j. unfold set_held. destruct (decide (j = k)) as [->|]; [|done]. by destruct Hown as [_ ->].
  - destruct (st_proc _ _ _ _ _ Hst0 p x Hx) as [(i & Hinfo & _ & Hw) [ct Hct]]. specialize (Hw Hi).
    destruct (timestamp_ok s1) as (now & tm & Ets & Hck1); [by eapply clocks_same; [| |exact Hck]|]. rewrite (bind_Ret _ _ _ _ _ Ets). set (s2 := set_timers tm s1) in *.
    rewrite (bind_Ret _ _ _ _ _ (get_cpu_Ret k s2 cp Hk)), (bind_Ret _ _ _ _ _ (get_info_Ret _ s2 i Hinfo)). cbv zeta. set (v := u64 (u64 (now - starttime cp) * nth 21 prio_to_weight 0) / weight i).
    rewrite (bind_Ret _ _ _ _ _ (put_info_Ret _ _ s2 i Hinfo)). set (s3 := set_schinfos _ s2). rewrite (bind_Ret cont_fuel _ s3 (S (size (conts s))) s3 eq_refl).
    change (p_container x') with (p_container x).
    assert (Hmk : forall exc, (exc = Some p \/ (exc = None /\ st <> RUNNABLE)) -> sched_inv (Some k) exc n s3 q held).
    { intros exc He. apply put_vruntime; [|done|done]. apply inv_timers. eapply (put_state _ _ _ None _ None); try done; [by left|]. destruct He as [?|[? ?]]; [by left|right; split; [done|by left]]. }
    assert (Has : after_stop s s3 p x st) by (split; [done|repeat split; try done; apply conts_like_refl]).
    pose proof (chain_length _ _ _ _ Hown) as Hlen.
    case_bool_decide as Hr.
    + subst st. destruct (enqueue_proc _ _ _ (Some k) n s3 q held p x' (Hmk _ ltac:(by left)) Hx1 Hi eq_refl Hnq) as (s4 & q4 & E4 & H4 & Hne4 & K4a & K4b & K4c & K4d & (_ & _ & _ & Hn4) & K4e).
      change (p_container x') with (p_container x) in *. assert (K4 : kept s3 s4) by (by repeat split). rewrite (bind_Ret _ _ _ _ _ E4).
      destruct (runnable_loop proc_off cont_off root_container k v n (held k) (S (size (conts s))) (p_container x) s4 q4 held H4 eq_refl ltac:(by eapply chain_like) Hne4 ltac:(lia)) as (s5 & q5 & E5 & H5 & K5 & Hn5).
      exists s5, q5. split; [exact E5|]. split; [eapply inv_more; [|exact H5]; lia|]. split; [apply Hback; intros d z Hz; destruct (Hn5 d z Hz) as [Hz4|?]; [destruct (Hn4 d z Hz4); auto|auto]|]. eapply after_stop_kept; [exact Has|by eapply kept_trans].
    + rewrite with_sum_sub, Hw. destruct (sum_step proc_off cont_off root_container (Some k) None n s3 q held (p_container x) ct (-820) (Hmk _ ltac:(by right)) Hct ltac:(by right) Hn0 ltac:(lia)) as (s4 & E4 & H4 & K4 & _).
      rewrite (bind_Ret _ _ _ _ _ E4).
      destruct (stopped_loop proc_off cont_off root_container k v (held k) (S (size (conts s))) (n + 1) (p_container x) s4 q held H4 eq_refl ltac:(by eapply chain_like) ltac:(lia) ltac:(lia) ltac:(lia)) as (s5 & q5 & E5 & H5 & K5 & Hn5).
      exists s5, q5. split; [exact E5|]. split; [eapply inv_more; [|exact H5]; lia|]. split; [apply Hback; intros d z Hz; destruct (Hn5 d z Hz); auto|]. eapply after_stop_kept; [exact Has|by eapply kept_trans].
Qed.

(** What [pick_next] finds: the first process, or the idle one. *)
Definition picked (s : sched_st) (q : Z -> list Z) (cp : cpu) (next : Z) : Prop :=
  (q root_container = [] /\ next = idle_ cp) \/ leads proc_off cont_off (procs s) q root_container next.

Lemma pick_next_Ret k n s q held cp :
  sched_inv (Some k) None n s q held -> held k = [] -> cpus s !! k = Some cp ->
  exists next y s' q' held' exc, pick_next proc_off cont_off root_container k s = Ret (next, s') /\ picked s q cp next /\ kept s s' /\
    sched_inv (Some k) exc n s' q' held' /\ (exc = None \/ exc = Some next) /\ (forall c, sch_p next ∉ q' c) /\ procs s' !! next = Some y /\ state y = RUNNABLE /\
    (if idle y then next = idle_ cp /\ held' k = [] else chain (conts s') (p_container y) (held' k)) /\ no_return s q held q' held'.
Proof.
  intros H Hheld Hk. destruct (st_root _ _ _ _ _ (si_static _ _ _ _ _ _ _ _ _ H)) as [rt Hrt]. unfold pick_next.
  rewrite (bind_Ret _ _ _ _ _ (first_Ret s q root_container rt (si_queues _ _ _ _ _ _ _ _ _ H) Hrt)).
  destruct (decide (q root_container = [])) as [Hq|Hq].
  - rewrite Hq. cbn [hd Z.eqb]. rewrite (bind_Ret _ _ _ _ _ (get_cpu_Ret _ _ _ Hk)).
    destruct (si_idle _ _ _ _ (si_cpus _ _ _ _ _ _ _ _ _ H) k cp Hk) as (y & Hy & Hi & Hr).
    exists (idle_ cp), y, s, q, held, None. split; [done|]. split; [by left|]. split; [apply kept_refl|]. split; [done|]. split; [by left|].
    split; [by eapply idle_not_queued|]. split; [done|]. split; [apply Hr; by left|]. split; [by rewrite Hi|apply no_return_refl].
  - pose proof (hd_elem _ Hq) as Hx. assert (Hx0 : hd 0 (q root_container) <> 0).
    { apply (qs_node _ _ (si_queues _ _ _ _ _ _ _ _ _ H)). by eapply (qs_info _ _ (si_queues _ _ _ _ _ _ _ _ _ H)). }
    rewrite (proj2 (Z.eqb_neq _ 0) Hx0). rewrite (bind_Ret cont_fuel _ s (S (size (conts s))) s eq_refl).
    destruct (pick_loop proc_off cont_off root_container k n q (S (size (conts s))) root_container s q held H) as (p & y & s1 & q1 & l1 & E1 & H1 & K1 & Hp & Hi & Hs & Hin & Hch & Hl & Hsub1 & Hfrom).
    { by rewrite Hheld. } { done. } { rewrite Hheld. simpl. lia. } { done. }
    rewrite (bind_Ret _ _ _ _ _ E1). cbv zeta. replace (sch_p p - proc_off) with p by (unfold Sched.sch_p; lia).
    rewrite (bind_Ret _ _ _ _ _ (get_proc_Ret _ _ _ Hp)).
    destruct (erase_proc _ _ _ _ _ _ _ _ _ _ H1 Hp Hin) as (s2 & q2 & E2 & H2 & [Hnq Hsub2] & K2).
    { destruct l1 as [|a l1]; [left; exact Hch|]. right. exists k. rewrite set_held_eq. destruct Hch as (-> & _). by left. }
    assert (K2' : kept s1 s2) by (destruct K2 as (? & ? & ? & ? & ?); by repeat split).
    exists p, y, s2, q2, (set_held held k l1), (Some p). rewrite (bind_Ret _ _ _ _ _ E2). split; [done|]. split; [by right|]. split; [by eapply kept_trans|].
    split; [done|]. split; [by right|]. split; [done|]. destruct K2' as (_ & _ & Ep & _ & Hlk). rewrite Ep. split; [done|]. split; [done|]. split; [rewrite Hi, set_held_eq; by eapply conts_like_chain|].
    intros a _ [A1 A2]. split; [intros d Hd; by eapply A1, Hsub1, Hsub2|]. intros j. unfold set_held. destruct (decide (j = k)); [|apply A2].
    intros Ha. destruct (Hfrom a Ha) as [?|[d Hd]]; [by eapply A2|by eapply A1].
Qed.

(** ** Whole calls *)
Definition sched_ok (n : Z) (s : sched_st) : Prop :=
  exists q held, sched_inv None None n s q held /\ clocks_ok s /\ schelock s = false.

(** [sched_ok], with what the calls since [s], with [q] and [held], kept. *)
Definition follows (n : Z) (s : sched_st) (q held : Z -> list Z) (s' : sched_st) : Prop :=
  exists q' held', sched_inv None None n s' q' held' /\ clocks_ok s' /\ schelock s' = false /\ no_return s q held q' held' /\ procs_like s s' /\ conts_like (conts s) (conts s').

Lemma follows_ok n s q held s' : follows n s q held s' -> sched_ok n s'.
Proof. intros (q' & held' & ? & ? & ? & _). by exists q', held'. Qed.

Lemma clocks_cpus s s' : timers s' = timers s -> (forall j, is_Some (cpus s' !! j) -> is_Some (cpus s !! j)) -> clocks_ok s -> clocks_ok s'.
Proof.
  intros E1 E2 (tq & H & Hall). exists tq. rewrite E1. split; [done|]. intros j cj Hj. destruct (E2 j ltac:(by eexists)) as [c Hc]. by eapply Hall.
Qed.

(** [attach_pgdir] after [thisproc] has been set. *)
Lemma attach_pgdir_Ret k n s q held cp p x :
  sched_inv None None n s q held -> clocks_ok s -> cpus s !! k = Some cp -> thisproc_ cp = p -> procs s !! p = Some x ->
  exists s' cp', attach_pgdir invalid_pt k p s = Ret (tt, s') /\ sched_inv None None n s' q held /\ clocks_ok s' /\ cpus s' !! k = Some cp' /\
    thisproc_ cp' = p /\ conts s' = conts s /\ (forall j y, j <> p -> procs s !! j = Some y -> procs s' !! j = Some y) /\ procs_keep s s'.
Proof.
  intros H Hck Hk Hp Hx. unfold attach_pgdir. rewrite (bind_Ret _ _ _ _ _ (thisproc_Ret _ _ _ Hk)), Hp, (bind_Ret _ _ _ _ _ (put_proc_Ret p _ s x Hx)).
  set (x1 := with_pgdir (with_online false) x). set (s1 := set_procs _ s). assert (Hx1 : procs s1 !! p = Some x1) by apply lookup_insert_eq.
  rewrite (bind_Ret _ _ _ _ _ (get_proc_Ret _ _ _ Hx1)). pose proof (inv_pgdir _ _ _ _ _ _ _ _ (with_online false) H Hx) as H1. fold x1 s1 in H1.
  pose proof (procs_keep_pgdir s p x (with_online false) Hx) as PL. fold x1 s1 in PL.
  set (v := if negb (pt (p_pgdir x1) =? 0) then K2P (pt (p_pgdir x1)) else K2P invalid_pt). set (cp' := mkCpu (thisproc_ cp) (idle_ cp) (starttime cp) v).
  set (s2 := set_cpus <[k := cp']> s1).
  assert (E2 : set_ttbr0 k v s1 = Ret (tt, s2)) by (unfold set_ttbr0; by rewrite (put_cpu_Ret k _ s1 cp Hk)).
  assert (H2 : sched_inv None None n s2 q held) by (apply inv_cpus; [done|]; by eapply cpu_put; [apply (si_cpus _ _ _ _ _ _ _ _ _ H1)|exact Hk|done|right]).
  assert (Hck2 : clocks_ok s2).
  { eapply clocks_cpus; [| |exact Hck]; [done|]. intros j. cbn [cpus s2 s1 set_cpus set_procs]. destruct (decide (j = k)) as [->|]; [by eexists|by rewrite lookup_insert_ne]. }
  assert (Hk2 : cpus s2 !! k = Some cp') by apply lookup_insert_eq.
  unfold v in E2. destruct (negb (pt (p_pgdir x1) =? 0)).
  - rewrite (bind_Ret _ _ _ _ _ E2), (put_proc_Ret p _ s2 x1 Hx1). eexists _, cp'. split; [done|]. split; [by apply inv_pgdir|]. split; [exact Hck2|].
    split; [done|]. split; [done|]. split; [done|]. split; [intros j y Hj Hy; cbn [procs set_procs s2 s1 set_cpus]; by rewrite !lookup_insert_ne|]. intros j y Hy. destruct (PL j y Hy) as (y1 & Hy1 & <- & <- & <-). by apply (procs_keep_pgdir s2 p x1).
  - rewrite E2. eexists _, cp'. split; [done|]. split; [done|]. split; [done|].
    split; [done|]. split; [done|]. split; [done|]. split; [intros j y Hj Hy; cbn [procs set_procs s2 s1 set_cpus]; by rewrite !lookup_insert_ne|exact PL].
Qed.

(** The call with which the process on the CPU [k] gives it up. *)
Definition resched (k : Z) (st : procstate) : M sched_st unit :=
  _acquire_sched_lock ;;; simple_sched proc_off cont_off root_container clock_interupt invalid_pt tick one_ms k st.

(** What the call does for a process that may give the CPU up: its state is
    recorded, and the process that the queues then lead to runs next. *)
Definition rescheduled (k : Z) (st : procstate) (cp : cpu) (s s' : sched_st) : Prop :=
  exists s1 q1 next cp', update_this_state proc_off cont_off root_container tick k st (set_lock true s) = Ret (tt, s1) /\ queues s1 q1 /\ picked s1 q1 cp next /\
    cpus s' !! k = Some cp' /\ thisproc_ cp' = next /\
    (next <> thisproc_ cp -> forall x, procs s !! thisproc_ cp = Some x -> procs s' !! thisproc_ cp = Some (with_state st x)).

Lemma resched_Ret k n s q held cp x st :
  sched_inv None None n s q held -> clocks_ok s -> schelock s = false -> cpus s !! k = Some cp -> procs s !! thisproc_ cp = Some x -> st <> RUNNING -> (idle x = true -> st = RUNNABLE) ->
  0 <= n -> 820 * grow n s < 2 ^ 31 ->
  exists s', resched k st s = Ret (tt, s') /\ follows (grow n s) s q held s' /\ size (conts s') = size (conts s) /\
    if killed x && negb (bool_decide (st = ZOMBIE)) then s' = s else rescheduled k st cp s s'.
Proof.
  intros H Hck Hlk Hk Hx Hst Hidle Hn0 Hn. set (p := thisproc_ cp) in *.
  destruct (si_cpu _ _ _ _ (si_cpus _ _ _ _ _ _ _ _ _ H) k cp Hk ltac:(done)) as (x0 & Hx0 & Hrun & _). fold p in Hx0. rewrite Hx in Hx0. injection Hx0 as <-.
  unfold resched. set (sl := set_lock true s).
  rewrite (bind_Ret _acquire_sched_lock _ s tt sl) by (unfold _acquire_sched_lock, bind, gets, modify; by rewrite Hlk).
  unfold simple_sched. rewrite (bind_Ret _ _ _ _ _ (thisproc_Ret k sl cp Hk)). fold p. rewrite (bind_Ret _ _ _ _ _ (get_proc_Ret p sl x Hx)).
  rewrite (bind_Ret (assert (bool_decide (state x = RUNNING))) _ sl tt sl) by (by rewrite bool_decide_true).
  destruct (killed x && negb (bool_decide (st = ZOMBIE))) eqn:Ekill.
  { exists s. split; [|split; [|split; [done|done]]].
    - unfold _release_sched_lock, modify, sl. destruct s. cbn in *. by rewrite Hlk.
    - exists q, held. split; [apply (inv_more _ _ n); [unfold grow; lia|done]|]. split; [done|]. split; [done|]. split; [apply no_return_refl|]. split; [by apply procs_like_refl|apply conts_like_refl]. }
  pose proof (inv_lock _ _ _ _ _ _ true H) as Hl. fold sl in Hl.
  destruct (update_this_state_Ret k n sl q held cp x st Hl Hck Hk Hx Hst Hidle Hn0 Hn) as (s1 & q1 & E1 & H1 & Hno1 & Hck1 & Elk1 & Ep1 & Ec1 & Hlike1).
  change (grow n sl) with (grow n s) in H1. rewrite (bind_Ret _ _ _ _ _ E1).
  destruct (pick_next_Ret k (grow n s) s1 q1 _ cp H1 (set_held_eq _ _ _) ltac:(by rewrite Ec1)) as (next & y & s2 & q2 & held2 & exc & E2 & Hpick & (Kt & Kl & Kp & Kc & Klike) & H2 & Hexc & Hnq & Hy & Hyr & Hown & Hno2).
  rewrite (bind_Ret _ _ _ _ _ E2). assert (Hk2 : cpus s2 !! k = Some cp) by (by rewrite Kc, Ec1).
  destruct (slice_ex _ _ _ _ _ _ _ _ H2 Hy) as [e He]. pose proof (slice_bound _ _ _ _ _ _ _ _ H2 He) as Heb.
  destruct (update_this_proc_Ret k s2 cp next e ltac:(by eapply clocks_same; [| |exact Hck1]) Hk2 He Heb) as (tst & tm & E3 & Hck3).
  set (s3 := switched s2 k next tst cp tm) in *. rewrite (bind_Ret _ _ _ _ _ E3). assert (Hy3 : procs s3 !! next = Some y) by exact Hy.
  rewrite (bind_Ret _ _ _ _ _ (get_proc_Ret next s3 y Hy3)). rewrite (bind_Ret (assert (bool_decide (state y = RUNNABLE))) _ s3 tt s3) by (by rewrite bool_decide_true).
  set (cp3 := mkCpu next (idle_ cp) tst (ttbr0 cp)). assert (Hk3 : cpus s3 !! k = Some cp3) by apply lookup_insert_eq.
  assert (H3 : sched_inv (Some k) exc (grow n s) s3 q2 held2).
  { apply inv_cpus; [by apply inv_timers|]. eapply cpu_put; [apply (si_cpus _ _ _ _ _ _ _ _ _ (inv_timers _ _ _ _ _ _ tm H2))|exact Hk2|done|by left]. }
  rewrite (bind_Ret _ _ _ _ _ (put_proc_Ret next _ s3 y Hy3)). set (y4 := with_state RUNNING y). set (s4 := set_procs <[next := y4]> s3).
  assert (H4 : sched_inv None None (grow n s) s4 q2 held2).
  { eapply put_state; [exact H3|exact Hy3|exact Hnq|done|by right; split; [done|left]|]. by apply (cpu_start k s3 held2 cp3 y (si_cpus _ _ _ _ _ _ _ _ _ H3) Hk3). }
  assert (Hsz : size (conts s4) = size (conts s)). { change (conts s4) with (conts s2). rewrite (conts_like_size _ _ Klike). by rewrite (conts_like_size _ _ Hlike1). }
  assert (Hthis : next <> p -> procs s4 !! p = Some (with_state st x)).
  { intros Hne. cbn [procs s4 set_procs]. rewrite lookup_insert_ne by done. change (procs s3) with (procs s2). rewrite Kp, Ep1. apply lookup_insert_eq. }
  assert (Hno : no_return s q held q2 held2) by (eapply (no_return_trans s s1); [exact Hlike1|exact Hno1|exact Hno2]).
  assert (Hpl : procs_like s s4) by (apply (procs_like_switch s s3 p x st next y Hx Hrun); [change (procs s3) with (procs s2); by rewrite Kp|done]).
  assert (Hend : forall s5 cp5, sched_inv None None (grow n s) s5 q2 held2 -> clocks_ok s5 -> cpus s5 !! k = Some cp5 -> thisproc_ cp5 = next -> conts s5 = conts s4 -> procs_keep s4 s5 ->
      (forall j z, j <> next -> procs s4 !! j = Some z -> procs s5 !! j = Some z) ->
      exists s', _release_sched_lock s5 = Ret (tt, s') /\ follows (grow n s) s q held s' /\ size (conts s') = size (conts s) /\ rescheduled k st cp s s').
  { intros s5 cp5 H5 Hck5 Hk5 Hn5 Ec5 Hkeep Hp5. exists (set_lock false s5). split; [done|]. split.
    { exists q2, held2. split; [by apply inv_lock|]. split; [done|]. split; [done|]. split; [done|]. split; [by apply (procs_like_keep s s4)|].
      cbn [conts set_lock]. rewrite Ec5. by eapply conts_like_trans. }
    split; [cbn [conts set_lock]; by rewrite Ec5|]. exists s1, q1, next, cp5. split; [done|]. split; [by apply (si_queues _ _ _ _ _ _ _ _ _ H1)|]. split; [done|]. split; [done|].
    split; [done|]. intros Hne x0 Hx0. fold p in Hx0 |- *. rewrite Hx in Hx0. injection Hx0 as <-. apply Hp5; [by apply not_eq_sym|by apply Hthis]. }
  destruct (Z.eqb_spec next p) as [En|En]; cbn [when negb].
  - rewrite (bind_Ret (ret tt) _ s4 tt s4 eq_refl). apply (Hend s4 cp3); try done. by intros j z Hz; exists z.
  - destruct (attach_pgdir_Ret k (grow n s) s4 q2 held2 cp3 next y4 H4 Hck3 Hk3 eq_refl ltac:(apply lookup_insert_eq)) as (s5 & cp5 & E5 & H5 & Hck5 & Hk5 & Hn5 & Ec5 & Hp5 & Hkeep).
    rewrite (bind_Ret _ _ _ _ _ E5). by apply (Hend s5 cp5).
Qed.
End calls.
