(* ===== verification/SchedProps.v ===== *)
(** * What the scheduler guarantees (kernel/sched.c)

    Runs of the scheduler's calls on any number of CPUs, and the two ways in
    which the code differs from what it means to do: a wake-up does not put
    the process's container back, and the address space of a process that
    leaves the CPU stays marked as online. *)
From stdpp Require Import base gmap list sorting.
From Stdlib Require Import ZArith Lia.
From S2P Require Import Prelude Mmu RBTree RBMap RBRefine RBFrame Timer Sched SchedSteps SchedCalls.

Section props.
Context (proc_off cont_off root_container : Z) (clock_interupt : Z -> Z) (invalid_pt : Z).
Context (tick : nat -> Z) (one_ms max_elapse : Z).
Hypothesis tick_bound : forall n, 0 <= tick n < 2 ^ 61.
Hypothesis tick_mono : forall n m, (n <= m)%nat -> tick n <= tick m.
Hypothesis ms_bound : 0 < one_ms /\ 1000 <= max_elapse < 2 ^ 31 /\ max_elapse * one_ms <= 0x7fffffff.
Hypothesis clock_inj : forall k k', clock_interupt k = clock_interupt k' -> k = k'.
Local Notation sch_p := (sch_p proc_off).
Local Notation sch_c := (sch_c cont_off).
Local Notation sched_inv := (sched_inv proc_off cont_off root_container).
Local Notation cpu_part := (cpu_part root_container).
Local Notation sched_ok := (sched_ok proc_off cont_off root_container clock_interupt tick max_elapse).
Local Notation clocks_ok := (clocks_ok clock_interupt tick max_elapse).
Local Notation clock_of := (clock_of clock_interupt).
Local Notation timers_ok := (timers_ok tick max_elapse).
Local Notation resched := (resched proc_off cont_off root_container clock_interupt invalid_pt tick one_ms).
Local Notation absent := (absent cont_off).
Local Notation no_return := (no_return cont_off).
Local Notation follows := (follows proc_off cont_off root_container clock_interupt tick max_elapse).
Local Notation rescheduled := (rescheduled proc_off cont_off root_container tick).

(** ** Waking a process *)
Definition wakes (x : proc) (onalert : bool) : bool :=
  negb (bool_decide (state x = RUNNING) || bool_decide (state x = RUNNABLE) || bool_decide (state x = ZOMBIE) || (bool_decide (state x = DEEPSLEEPING) && onalert)).

Lemma cpu_wake s held p x :
  cpu_part None s held -> procs s !! p = Some x -> idle x = false -> state x <> RUNNING -> cpu_part None (set_procs <[p := with_state RUNNABLE x]> s) held.
Proof.
  intros H Hp Hi Hr. split.
  - intros j cj Hj Hn. destruct (si_cpu _ _ _ _ H j cj Hj Hn) as (y & Hy & Hyr & Ho). exists y. split; [|done]. rewrite (procs_insert _ _ _ x) by done.
    rewrite decide_False; [done|]. intros E. rewrite E, Hp in Hy. congruence.
  - intros j cj Hj. destruct (si_idle _ _ _ _ H j cj Hj) as (y & Hy & Hyi & Hyr). exists y. split; [|done]. rewrite (procs_insert _ _ _ x) by done.
    rewrite decide_False; [done|]. intros E. rewrite E, Hp in Hy. congruence.
  - apply (si_apart _ _ _ _ H).
  - intros q y. rewrite (procs_insert _ _ _ x) by done. destruct (decide (q = p)) as [->|]; [by intros [= <-]|]. apply (si_running _ _ _ _ H).
Qed.

Lemma min_vruntime_Ret cur exc n s q held c k cp :
  sched_inv cur exc n s q held -> is_Some (conts s !! c) -> cpus s !! k = Some cp -> is_Some (procs s !! thisproc_ cp) -> exists v, min_vruntime proc_off k c s = Ret (v, s).
Proof.
  intros H [ct Hc] Hk [x Hx]. unfold min_vruntime. rewrite (bind_Ret _ _ _ _ _ (first_Ret s q c ct (si_queues _ _ _ _ _ _ _ _ _ H) Hc)).
  destruct (Z.eqb_spec (hd 0 (q c)) 0) as [E|E].
  - destruct (st_proc _ _ _ _ _ (si_static _ _ _ _ _ _ _ _ _ H) _ x Hx) as [(i & Hi & _) _]. exists (vruntime i).
    rewrite (bind_Ret _ _ _ _ _ (thisproc_Ret _ _ _ Hk)). by rewrite (bind_Ret _ _ _ _ _ (get_info_Ret _ _ _ Hi)).
  - assert (Hin : hd 0 (q c) ∈ q c) by (apply hd_elem; by intros Eq; rewrite Eq in E).
    destruct (qs_info _ _ (si_queues _ _ _ _ _ _ _ _ _ H) c _ Hin) as [i Hi]. exists (vruntime i). by rewrite (bind_Ret _ _ _ _ _ (get_info_Ret _ _ _ Hi)).
Qed.

Lemma this_Some s held k cp : cpu_part None s held -> cpus s !! k = Some cp -> is_Some (procs s !! thisproc_ cp).
Proof. intros H Hk. destruct (si_cpu _ _ _ _ H k cp Hk ltac:(done)) as (x & -> & _). by eexists. Qed.

Lemma lock_Ret {A} (m : M sched_st A) s : schelock s = false -> (_acquire_sched_lock ;;; m) s = m (set_lock true s).
Proof. intros E. rewrite (bind_Ret _acquire_sched_lock _ s tt (set_lock true s)); [done|]. unfold _acquire_sched_lock, bind, gets, modify. by rewrite E. Qed.

Lemma activate_Ret k n s q held cp p x onalert :
  sched_inv None None n s q held -> clocks_ok s -> schelock s = false -> cpus s !! k = Some cp -> procs s !! p = Some x -> idle x = false -> 0 <= n -> 820 * (n + 1) < 2 ^ 31 ->
  exists s' q', _activate_proc proc_off cont_off root_container k p onalert s = Ret (wakes x onalert, s') /\ sched_inv None None (n + 1) s' q' held /\ clocks_ok s' /\ schelock s' = false /\
    size (conts s') = size (conts s) /\ conts_like (conts s) (conts s') /\ (no_return s q held q' held /\ procs_like s s') /\
    if wakes x onalert then procs s' = <[p := with_state RUNNABLE x]> (procs s) /\ sch_p p ∈ q' (p_container x) /\ (forall d, d <> p_container x -> q' d = q d) else s' = s /\ q' = q.
Proof.
  intros H Hck Hlk Hk Hp Hi Hn0 Hn. unfold _activate_proc. rewrite lock_Ret by done. set (sl := set_lock true s).
  rewrite (bind_Ret _ _ _ _ _ (get_proc_Ret p sl x Hp)). unfold wakes. match goal with |- context [if ?b then _ else _] => destruct b eqn:Eb end; cbn [negb].
  { exists s, q. split; [unfold _release_sched_lock, modify, bind, sl; destruct s; cbn in *; by rewrite Hlk|]. split; [by apply (inv_more _ _ _ _ _ n); [lia|]|].
    split; [done|]. split; [done|]. split; [done|]. split; [apply conts_like_refl|]. split; [|done]. split; [apply no_return_refl|by apply procs_like_refl]. }
  apply orb_false_iff in Eb as [[[Er Err]%orb_false_iff _]%orb_false_iff _]. apply bool_decide_eq_false in Er, Err.
  pose proof (si_static _ _ _ _ _ _ _ _ _ H) as Hst. pose proof (proc_not_queued _ _ _ _ _ _ _ _ _ p x H Hp Err) as Hnq.
  destruct (st_proc _ _ _ _ _ Hst p x Hp) as [(i & Hinfo & _ & Hw) [ct Hct]]. specialize (Hw Hi). set (c := p_container x) in *.
  rewrite (bind_Ret _ _ _ _ _ (put_proc_Ret p _ sl x Hp)). set (x1 := with_state RUNNABLE x). set (s1 := set_procs _ sl).
  pose proof (inv_lock _ _ _ _ _ _ _ _ _ true H) as Hl. fold sl in Hl.
  assert (H1 : sched_inv None (Some p) n s1 q held).
  { eapply (put_state _ _ _ None None None); [exact Hl|exact Hp|done|by left|by left|]. by apply cpu_wake; [apply (si_cpus _ _ _ _ _ _ _ _ _ Hl)| | |]. }
  destruct (min_vruntime_Ret _ _ _ _ _ _ c k cp H1 ltac:(by eexists) Hk) as [v Ev]; [by eapply this_Some; [apply (si_cpus _ _ _ _ _ _ _ _ _ H1)|]|].
  rewrite (bind_Ret _ _ _ _ _ Ev), (bind_Ret _ _ _ _ _ (put_info_Ret (sch_p p) _ s1 i Hinfo)). set (s2 := set_schinfos _ s1).
  assert (Hi2 : schinfos s2 !! sch_p p = Some (with_vruntime v i)) by apply lookup_insert_eq. rewrite (bind_Ret _ _ _ _ _ (get_info_Ret _ s2 _ Hi2)).
  change (weight (with_vruntime v i)) with (weight i). rewrite Hw.
  pose proof (put_vruntime _ _ _ _ _ _ _ _ _ (sch_p p) i v H1 Hinfo Hnq) as H2. fold s2 in H2.
  destruct (sum_step _ _ _ None (Some p) n s2 q held c ct 820 H2 Hct ltac:(by left) Hn0 Hn) as (s3 & E3 & H3 & (K3 & K3l & K3p & K3c & K3k) & _).
  rewrite (bind_Ret _ _ _ _ _ E3). assert (Hx3 : procs s3 !! p = Some x1) by (rewrite K3p; apply lookup_insert_eq).
  destruct (enqueue_proc _ _ _ None (n + 1) s3 q held p x1 H3 Hx3 Hi eq_refl Hnq) as (s4 & q4 & E4 & H4 & _ & K4 & K4l & K4p & K4c & (_ & Hq4 & Hin4 & Hno4) & K4k).
  change (p_container x1) with c in *. rewrite (bind_Ret _ _ _ _ _ E4). assert (Hx4 : procs s4 !! p = Some x1) by (by rewrite K4p).
  rewrite (bind_Ret _ _ _ _ _ (get_proc_Ret p s4 x1 Hx4)). rewrite (bool_decide_false (state x1 = SLEEPING)) by done. cbn [when].
  rewrite (bind_Ret (ret tt) _ s4 tt s4 eq_refl). exists (set_lock false s4), q4. split; [done|]. split; [by apply inv_lock|].
  assert (Hlike : conts_like (conts s) (conts s4)) by (by eapply conts_like_trans).
  split; [|split; [done|split; [by apply conts_like_size|split; [done|split]]]].
  - eapply (clocks_same _ _ _ s); [cbn; by rewrite K4, K3|cbn; by rewrite K4c, K3c|done].
  - split.
    + intros a Ha [A1 A2]. split; [|done]. intros d Hd. destruct (Hno4 d _ Hd) as [?|E]; [by apply (A1 d)|].
      apply (st_sep _ _ _ _ _ Hst p a); [by eexists|done|done].
    + apply (procs_like_wake _ _ p x Hp). cbn [procs set_lock]. by rewrite K4p, K3p.
  - split; [cbn [procs set_lock]; by rewrite K4p, K3p|]. done.
Qed.

(** ** Adding a container's group *)
Lemma find_key_none s x l : x <> 0 -> find_key (cmp s) x l = 0 -> x ∉ l.
Proof.
  intros Hx E Hin. unfold find_key in E.
  destruct (list_find (fun a => cmp s x a = false /\ cmp s a x = false) l) as [[i a]|] eqn:El.
  - subst a. apply list_find_Some in El as (_ & [H1 H2] & _). destruct (lex_total (vr s) x 0 Hx) as [H|H]; unfold cmp in *; congruence.
  - apply list_find_None in El. rewrite Forall_forall in El. apply (El x Hin). split; apply ko_irrefl.
Qed.

(** A container with a runnable process that is not in its parent's queue. *)
Definition fresh_group (s : sched_st) (a : Z) : Prop :=
  exists ca x s1, conts s !! a = Some ca /\ a <> root_container /\ Running (c_queue ca) = false /\ first a s = Ret (x, s) /\ x <> 0 /\
    on_queue (c_parent ca) (_rb_lookup (cmp s) (sch_c a)) s = Ret (0, s1).

Lemma fresh_not_queued cur n s q held a :
  sched_inv cur None n s q held -> fresh_group s a -> exists ca, conts s !! a = Some ca /\ a <> root_container /\ Running (c_queue ca) = false /\ q a <> [] /\ (forall c, sch_c a ∉ q c).
Proof.
  intros H (ca & x & s1 & Ha & Hr & Hrun & Ef & Hx & El). exists ca. pose proof (si_queues _ _ _ _ _ _ _ _ _ H) as Hq. pose proof (si_static _ _ _ _ _ _ _ _ _ H) as Hst.
  split; [done|]. split; [done|]. split; [done|]. split.
  - intros Eq. rewrite (first_Ret s q a ca Hq Ha), Eq in Ef. by injection Ef as <-.
  - destruct (st_cont _ _ _ _ _ Hst a ca Ha Hr) as ((i & Hi & _) & [cp Hcp] & _).
    assert (Hpar : sch_c a ∉ q (c_parent ca)).
    { unfold on_queue in El. rewrite Hcp, (queue_lookup (cmp s) _ _ _ _ (qs_is _ _ Hq _ _ Hcp)) in El. injection El as E _.
      eapply find_key_none; [|exact E]. apply (qs_node _ _ Hq). by eexists. }
    intros c Hc. destruct (si_member _ _ _ _ _ _ _ _ _ H c _ Hc) as [(p & y & E & Hp & _)|(b & cb & E & Hb & _ & Hpb & _)].
    + symmetry in E. by eapply (st_sep _ _ _ _ _ Hst p a).
    + apply sch_c_inj in E as <-. rewrite Ha in Hb. injection Hb as <-. by subst c.
Qed.

Lemma group_Ret k n s q held cp a :
  sched_inv None None n s q held -> clocks_ok s -> schelock s = false -> cpus s !! k = Some cp -> fresh_group s a -> 0 <= n -> 820 * (n + 1) < 2 ^ 31 ->
  exists s' q', activate_group proc_off cont_off k a s = Ret (tt, s') /\ sched_inv None None (n + 1) s' q' held /\ clocks_ok s' /\ schelock s' = false /\
    (forall d x, x ∈ q' d -> x ∈ q d \/ x = sch_c a) /\ procs s' = procs s /\ conts_like (conts s) (conts s').
Proof.
  intros H Hck Hlk Hk Hf Hn0 Hn. destruct (fresh_not_queued _ _ _ _ _ _ H Hf) as (ca & Ha & Hr & Hrun & Hne & Hnq).
  pose proof (si_static _ _ _ _ _ _ _ _ _ H) as Hst. destruct (st_cont _ _ _ _ _ Hst a ca Ha Hr) as ((i & Hi & _ & Hw) & [ct Hct] & _).
  unfold activate_group. rewrite lock_Ret by done. set (sl := set_lock true s). pose proof (inv_lock _ _ _ _ _ _ _ _ _ true H) as Hl. fold sl in Hl.
  unfold requeue. rewrite bind_assoc, (bind_Ret _ _ _ _ _ (get_cont_Ret a sl ca Ha)). cbv zeta.
  destruct (min_vruntime_Ret _ _ _ _ _ _ (c_parent ca) k cp Hl ltac:(by eexists) Hk) as [v Ev]; [by eapply this_Some; [apply (si_cpus _ _ _ _ _ _ _ _ _ Hl)|]|].
  rewrite bind_assoc, (bind_Ret _ _ _ _ _ Ev), bind_assoc, (bind_Ret _ _ _ _ _ (put_info_Ret (sch_c a) _ sl i Hi)). set (s2 := set_schinfos _ sl).
  assert (Hi2 : schinfos s2 !! sch_c a = Some (with_vruntime v i)) by apply lookup_insert_eq. rewrite bind_assoc, (bind_Ret _ _ _ _ _ (get_info_Ret _ s2 _ Hi2)).
  change (weight (with_vruntime v i)) with (weight i). rewrite Hw.
  pose proof (put_vruntime _ _ _ _ _ _ _ _ _ (sch_c a) i v Hl Hi Hnq) as H2. fold s2 in H2.
  destruct (sum_step _ _ _ None None n s2 q held (c_parent ca) ct 820 H2 Hct ltac:(by left) Hn0 Hn) as (s3 & E3 & H3 & (K3 & K3l & K3p & K3c & K3k) & _ & Hct3).
  rewrite bind_assoc, (bind_Ret _ _ _ _ _ E3). pose proof (K3k a) as Ha3. change (conts s2) with (conts s) in Ha3. rewrite Ha in Ha3. destruct Ha3 as (ca3 & Ha3 & Ep3).
  assert (Hrun3 : Running (c_queue ca3) = false).
  { revert Ha3. unfold put_cont in E3. rewrite (bind_Ret _ _ _ _ _ (get_cont_Ret _ s2 ct Hct)) in E3. injection E3 as <-. cbn [conts set_conts s2 set_schinfos sl set_lock].
    intros [[E <-]|[_ Ha3]]%lookup_insert_Some; [|congruence]. rewrite E in Hct. cbn. congruence. }
  destruct (enqueue_cont _ _ _ None (n + 1) s3 q held a ca3 H3 Ha3 Hr Hrun3 Hne Hnq) as (s4 & q4 & E4 & H4 & _ & Hno4 & K4 & K4l & K4p & K4c & _ & K4k).
  rewrite Ep3 in E4. rewrite (bind_Ret _ _ _ _ _ E4). exists (set_lock false s4), q4. split; [done|]. split; [by apply inv_lock|].
  split; [eapply (clocks_same _ _ _ s); [cbn; by rewrite K4, K3|cbn; by rewrite K4c, K3c|done]|].
  split; [done|]. split; [exact Hno4|]. split; [cbn [procs set_lock]; by rewrite K4p, K3p|]. cbn [conts set_lock]. by eapply conts_like_trans.
Qed.

(** ** The clock's interrupt *)
(** The turn of [timer_clock_handler] that calls [HandleClock]. *)
Definition clock_turn (k : Z) : M sched_st unit :=
  t <- on_timer (next_timer tick one_ms k) ;;
  match t with
  | Some t => if t =? clock_interupt k then HandleClock proc_off cont_off root_container clock_interupt invalid_pt tick one_ms k else stop Fault
  | None => ret tt
  end.
Definition clock_due (s : sched_st) (k : Z) : Prop := exists t, next_timer tick one_ms k (timers s) = Ret (Some (clock_interupt k), t).

Lemma clock_turn_Ret k n s q held cp x :
  sched_inv None None n s q held -> clocks_ok s -> schelock s = false -> cpus s !! k = Some cp -> procs s !! thisproc_ cp = Some x -> clock_due s k ->
  0 <= n -> 820 * grow n s < 2 ^ 31 -> exists s', clock_turn k s = Ret (tt, s') /\ follows (grow n s) s q held s'.
Proof.
  intros H (tq & Htq & Hall) Hlk Hk Hx [t Et] Hn0 Hn. unfold clock_turn. rewrite (bind_Ret _ _ _ _ _ (on_timer_Ret _ s _ t Et)), Z.eqb_refl.
  destruct (Hall k cp Hk) as (r & y & Hr & Hy & Hcase). set (ck := clock_interupt k) in *.
  destruct (next_spec tick one_ms max_elapse tick_bound tick_mono ms_bound (timers s) tq k r Htq Hr) as (t' & Et' & Hdom & Hnext). rewrite Et in Et'. injection Et' as Eo <-. rewrite <- Eo in Hnext.
  destruct Hnext as (Ht & Etms & _).
  assert (Hin : ck ∈ tq k). { unfold next_of in Eo. destruct (tq k) as [|t0 l]; [done|]. destruct (tick _ <? _); [done|]. injection Eo as ->. by left. }
  destruct Hcase as [[_ Hno]|[Hd _]]; [by destruct (Hno k)|]. set (y1 := with_triggered true y).
  assert (Hy1 : tms t !! ck = Some y1) by (rewrite Etms, lookup_alter_eq, Hy; done).
  assert (Hnq : forall j, ck ∉ drop_timer k ck tq j).
  { intros j. unfold drop_timer. destruct (decide (j = k)) as [->|Hj]; [by intros [? _]%list_elem_of_filter|]. intros Hj'. apply Hj. by eapply (to_apart _ _ _ _ Htq). }
  set (s1 := set_timers (set_tms <[ck := with_data 0 y1]> t) s).
  assert (E1 : on_timer (put_timer ck (fun tm => with_data (u64 (data tm - 1)) tm)) (set_timers t s) = Ret (tt, s1)).
  { rewrite (on_timer_Ret _ (set_timers t s) tt _ (put_timer_Ret _ (fun tm => with_data (u64 (data tm - 1)) tm) t _ Hy1)). cbv beta. change (data y1) with (data y). by rewrite Hd. }
  unfold HandleClock. fold ck. rewrite (bind_Ret _ _ _ _ _ E1).
  assert (Hck1 : clocks_ok s1).
  { exists (drop_timer k ck tq). split; [by apply timers_ok_data|]. intros j cj Hj. change (cpus s1) with (cpus s) in Hj. destruct (Hall j cj Hj) as (rj & yj & Hrj & Hyj & Hcj).
    assert (Hrj' : is_Some (troots t !! j)) by (apply elem_of_dom; rewrite Hdom; apply elem_of_dom; by eexists). destruct Hrj' as [rj' Hrj'].
    destruct (decide (j = k)) as [->|Hjk].
    - exists rj', (with_data 0 y1). split; [done|]. split; [apply lookup_insert_eq|]. left. by split.
    - assert (Hne : ck <> clock_interupt j) by (intros E; by apply clock_inj in E). exists rj', yj. split; [done|].
      split; [cbn [timers s1 set_timers tms set_tms]; rewrite lookup_insert_ne by done; by rewrite Etms, lookup_alter_ne|].
      destruct Hcj as [[Hd0 Hn1]|[Hd1 Hi]]; [left|right]; (split; [done|]).
      + intros j'. unfold drop_timer. destruct (decide (j' = k)) as [->|]; [|done]. intros [_ ?]%list_elem_of_filter. by apply (Hn1 k).
      + unfold drop_timer. by rewrite decide_False. }
  destruct (resched_Ret proc_off cont_off root_container clock_interupt invalid_pt tick one_ms max_elapse tick_bound tick_mono ms_bound clock_inj k n s1 q held cp x RUNNABLE
    (inv_timers _ _ _ _ _ _ _ _ _ _ H) Hck1 Hlk Hk Hx ltac:(done) ltac:(done) Hn0 Hn) as (s' & E & Hok & _).
  exists s'. by split.
Qed.

(** ** Runs *)
Inductive sched_op := Resched (k : Z) (st : procstate) | Tick (k : Z) | Wake (k p : Z) (onalert : bool) | Group (k a : Z).

Definition run_op (op : sched_op) : M sched_st unit :=
  match op with
  | Resched k st => resched k st
  | Tick k => clock_turn k
  | Wake k p onalert => _activate_proc proc_off cont_off root_container k p onalert ;;; ret tt
  | Group k a => activate_group proc_off cont_off k a
  end.

(** What the callers keep to: an idle process only yields, nobody wakes one,
    the handler of a clock runs when it is due, and a group is added when it
    has a process and is not in its queue. *)
Definition allowed (op : sched_op) (s : sched_st) : Prop :=
  match op with
  | Resched k st => exists cp x, cpus s !! k = Some cp /\ procs s !! thisproc_ cp = Some x /\ st <> RUNNING /\ (idle x = true -> st = RUNNABLE)
  | Tick k => is_Some (cpus s !! k) /\ clock_due s k
  | Wake k p _ => is_Some (cpus s !! k) /\ exists x, procs s !! p = Some x /\ idle x = false
  | Group k a => is_Some (cpus s !! k) /\ fresh_group s a
  end.

Inductive reach (s0 : sched_st) : nat -> sched_st -> Prop :=
| reach_start : reach s0 0 s0
| reach_step m s op s' : reach s0 m s -> allowed op s -> run_op op s = Ret (tt, s') -> reach s0 (S m) s'.

(** What a call leads to: only [Group] puts a container back. *)
Lemma run_op_Ret n s q held op :
  sched_inv None None n s q held -> clocks_ok s -> schelock s = false -> allowed op s -> 0 <= n -> 820 * grow n s < 2 ^ 31 ->
  exists s' q' held', run_op op s = Ret (tt, s') /\ sched_inv None None (grow n s) s' q' held' /\ clocks_ok s' /\ schelock s' = false /\
    (forall a, (forall k, op <> Group k a) -> is_Some (conts s !! a) -> absent a q held -> absent a q' held') /\ procs_like s s' /\ conts_like (conts s) (conts s').
Proof.
  intros H Hck Hlk Ha Hn0 Hn.
  assert (Hfollow : forall s', run_op op s = Ret (tt, s') -> follows (grow n s) s q held s' -> exists s' q' held', run_op op s = Ret (tt, s') /\ sched_inv None None (grow n s) s' q' held' /\ clocks_ok s' /\ schelock s' = false /\
    (forall a, (forall k, op <> Group k a) -> is_Some (conts s !! a) -> absent a q held -> absent a q' held') /\ procs_like s s' /\ conts_like (conts s) (conts s')).
  { intros s' E (q' & held' & H' & Hck' & Hlk' & Hno & Hpl & Hcl). exists s', q', held'. do 4 (split; [done|]). split; [by intros a _; apply Hno|done]. }
  unfold grow in *. destruct op as [k st|k|k p onalert|k a]; cbn [run_op allowed] in *.
  - destruct Ha as (cp & x & Hk & Hx & Hst & Hi).
    destruct (resched_Ret proc_off cont_off root_container clock_interupt invalid_pt tick one_ms max_elapse tick_bound tick_mono ms_bound clock_inj k n s q held cp x st
      H Hck Hlk Hk Hx Hst Hi Hn0 Hn) as (s' & E & Hok & _). by apply (Hfollow s').
  - destruct Ha as [[cp Hk] Hdue]. destruct (this_Some s held k cp (si_cpus _ _ _ _ _ _ _ _ _ H) Hk) as [x Hx].
    destruct (clock_turn_Ret k n s q held cp x H Hck Hlk Hk Hx Hdue Hn0 Hn) as (s' & E & Hok). by apply (Hfollow s').
  - destruct Ha as [[cp Hk] (x & Hx & Hi)].
    destruct (activate_Ret k n s q held cp p x onalert H Hck Hlk Hk Hx Hi Hn0 ltac:(lia)) as (s' & q' & E & H' & Hck' & Hlk' & _ & Hcl & [Hno Hpl] & _).
    exists s', q', held. rewrite (bind_Ret _ _ _ _ _ E). split; [done|]. split; [by apply (inv_more _ _ _ _ _ (n + 1)); [lia|]|]. do 2 (split; [done|]). split; [by intros a _; apply Hno|done].
  - destruct Ha as [[cp Hk] Hf]. destruct (group_Ret k n s q held cp a H Hck Hlk Hk Hf Hn0 ltac:(lia)) as (s' & q' & E & H' & Hck' & Hlk' & Hno & Ep & Hcl).
    exists s', q', held. split; [done|]. split; [by apply (inv_more _ _ _ _ _ (n + 1)); [lia|]|]. do 2 (split; [done|]). split; [|by split; [apply procs_like_refl|]].
    intros b Hb _ [A1 A2]. split; [|done]. intros d Hd. destruct (Hno d _ Hd) as [?|E']; [by apply (A1 d)|]. apply sch_c_inj in E' as ->. by apply (Hb k).
Qed.

Lemma run_op_ok n s op :
  sched_ok n s -> allowed op s -> 0 <= n -> 820 * grow n s < 2 ^ 31 -> exists s', run_op op s = Ret (tt, s') /\ sched_ok (grow n s) s' /\ size (conts s') = size (conts s).
Proof.
  intros (q & held & H & Hck & Hlk) Ha Hn0 Hn. destruct (run_op_Ret n s q held op H Hck Hlk Ha Hn0 Hn) as (s' & q' & held' & E & H' & Hck' & Hlk' & _ & _ & Hcl).
  exists s'. split; [done|]. split; [by exists q', held'|by apply conts_like_size].
Qed.

Lemma reach_ok n s0 m s :
  sched_ok n s0 -> reach s0 m s -> 0 <= n -> 820 * (n + Z.of_nat m * (1 + Z.of_nat (size (conts s0)))) < 2 ^ 31 ->
  sched_ok (n + Z.of_nat m * (1 + Z.of_nat (size (conts s0)))) s /\ size (conts s) = size (conts s0).
Proof.
  intros H0 Hr Hn0. induction Hr as [|m s op s' Hr IH Ha E]; intros Hn; [by rewrite Z.add_0_r|].
  destruct IH as [Hok Hsz]; [nia|]. destruct (run_op_ok _ s op Hok Ha) as (s2 & E2 & Hok2 & Hsz2); [nia|unfold grow; rewrite Hsz; nia|].
  rewrite E in E2. injection E2 as <-. rewrite Hsz2, Hsz. split; [|done]. unfold grow in Hok2. rewrite Hsz in Hok2.
  replace (n + Z.of_nat (S m) * (1 + Z.of_nat (size (conts s0)))) with (n + Z.of_nat m * (1 + Z.of_nat (size (conts s0))) + 1 + Z.of_nat (size (conts s0))) by nia. exact Hok2.
Qed.
(** Runs in which no call puts the container [a] back into its parent's queue. *)
Inductive reach_but (a : Z) (s0 : sched_st) : nat -> sched_st -> Prop :=
| but_start : reach_but a s0 0 s0
| but_step m s op s' : reach_but a s0 m s -> allowed op s -> (forall k, op <> Group k a) -> run_op op s = Ret (tt, s') -> reach_but a s0 (S m) s'.

(** No process of a container that is absent runs. *)
Lemma absent_not_running n s q held p y :
  sched_inv None None n s q held -> procs s !! p = Some y -> idle y = false -> p_container y <> root_container -> (forall j, p_container y ∉ held j) -> state y <> RUNNING.
Proof.
  intros H Hp Hi Hr Ha Hrun. destruct (si_running _ _ _ _ (si_cpus _ _ _ _ _ _ _ _ _ H) p y Hp Hrun) as (k & cp & Hk & _ & Ht).
  destruct (si_cpu _ _ _ _ (si_cpus _ _ _ _ _ _ _ _ _ H) k cp Hk ltac:(done)) as (z & Hz & _ & Hch). rewrite Ht, Hp in Hz. injection Hz as <-. rewrite Hi in Hch.
  apply (Ha k). destruct (held k) as [|b l]; [done|]. destruct Hch as (-> & _). by left.
Qed.

Lemma reach_but_waits n s0 q0 held0 a p y m s :
  sched_inv None None n s0 q0 held0 -> clocks_ok s0 -> schelock s0 = false -> absent a q0 held0 -> a <> root_container ->
  procs s0 !! p = Some y -> idle y = false -> p_container y = a -> state y = RUNNABLE -> reach_but a s0 m s ->
  0 <= n -> 820 * (n + Z.of_nat m * (1 + Z.of_nat (size (conts s0)))) < 2 ^ 31 ->
  exists q held z, sched_inv None None (n + Z.of_nat m * (1 + Z.of_nat (size (conts s0)))) s q held /\ clocks_ok s /\ schelock s = false /\ absent a q held /\
    size (conts s) = size (conts s0) /\ procs s !! p = Some z /\ idle z = false /\ p_container z = a /\ state z = RUNNABLE.
Proof.
  intros H0 Hck0 Hlk0 Ha0 Har Hp0 Hi0 Hc0 Hs0 Hr Hn0. induction Hr as [|m s op s' Hr IH Ha Hng E]; intros Hn.
  { exists q0, held0, y. by rewrite Z.add_0_r. }
  destruct IH as (q & held & z & H & Hck & Hlk & Hab & Hsz & Hp & Hi & Hc & Hs); [nia|]. subst a.
  destruct (run_op_Ret _ s q held op H Hck Hlk Ha) as (s2 & q2 & held2 & E2 & H2 & Hck2 & Hlk2 & Hno & Hpl & Hcl); [nia|unfold grow; rewrite Hsz; nia|].
  rewrite E in E2. injection E2 as <-. destruct (st_proc _ _ _ _ _ (si_static _ _ _ _ _ _ _ _ _ H) p z Hp) as [_ Hcz]. rewrite Hc in Hcz.
  pose proof (Hno _ Hng Hcz Hab) as Hab2. destruct (Hpl p z Hp) as (z2 & Hp2 & Ei & Ec & Es). exists q2, held2, z2.
  assert (Hc2 : p_container z2 = p_container y) by congruence. assert (Hi2 : idle z2 = false) by congruence.
  split; [unfold grow in H2; rewrite Hsz in H2; replace (n + Z.of_nat (S m) * (1 + Z.of_nat (size (conts s0)))) with (n + Z.of_nat m * (1 + Z.of_nat (size (conts s0))) + 1 + Z.of_nat (size (conts s0))) by nia; exact H2|].
  do 3 (split; [done|]). split; [by rewrite (conts_like_size _ _ Hcl)|]. do 3 (split; [done|]). destruct (Es Hs) as [?|Hrun]; [done|].
  exfalso. eapply (absent_not_running _ s' q2 held2 p z2); try done; rewrite Hc2; [done|apply Hab2].
Qed.
End props.

(** What the clock, the timers' addresses and the constants satisfy. *)
Record env_ok (clock_interupt : Z -> Z) (tick : nat -> Z) (one_ms max_elapse : Z) : Prop := {
  env_bound : forall n, 0 <= tick n < 2 ^ 61;
  env_mono : forall n m, (n <= m)%nat -> tick n <= tick m;
  env_ms : 0 < one_ms /\ 1000 <= max_elapse < 2 ^ 31 /\ max_elapse * one_ms <= 0x7fffffff;
  env_inj : forall k k', clock_interupt k = clock_interupt k' -> k = k'
}.

(** C4: however the CPUs' calls follow each other (processes that yield, sleep
    or exit, clock interrupts, wake-ups, new groups), the next call returns:
    no [ASSERT] of the scheduler, the trees and the timers fails, no loop runs
    on, and the scheduler's lock is free again. Every CPU runs a process that
    is [RUNNING], no two CPUs run the same one, nothing else is [RUNNING], and
    every runnable process that is not idle is in its container's queue. The
    bound is that of the queues' weights, which are [int]s. *)
Theorem scheduler_runs_safe (proc_off cont_off root_container : Z) (clock_interupt : Z -> Z) (invalid_pt : Z) (tick : nat -> Z) (one_ms max_elapse : Z)
    (s0 s : sched_st) (m : nat) (n : Z) (op : sched_op) :
  env_ok clock_interupt tick one_ms max_elapse ->
  sched_ok proc_off cont_off root_container clock_interupt tick max_elapse n s0 ->
  reach proc_off cont_off root_container clock_interupt invalid_pt tick one_ms s0 m s ->
  0 <= n -> 820 * (n + (Z.of_nat m + 1) * (1 + Z.of_nat (size (conts s0)))) < 2 ^ 31 ->
  (allowed cont_off root_container clock_interupt tick one_ms op s ->
     exists s', run_op proc_off cont_off root_container clock_interupt invalid_pt tick one_ms op s = Ret (tt, s') /\ schelock s' = false) /\
  (forall k cp, cpus s !! k = Some cp -> exists x, procs s !! thisproc_ cp = Some x /\ state x = RUNNING) /\
  (forall k k' cp cp', cpus s !! k = Some cp -> cpus s !! k' = Some cp' -> k <> k' -> thisproc_ cp <> thisproc_ cp') /\
  (forall p x, procs s !! p = Some x -> state x = RUNNING -> exists k cp, cpus s !! k = Some cp /\ thisproc_ cp = p) /\
  (exists q, queues s q /\ forall p x, procs s !! p = Some x -> idle x = false -> state x = RUNNABLE -> sch_p proc_off p ∈ q (p_container x)).
Proof.
  intros [E1 E2 E3 E4] H0 Hr Hn0 Hn.
  destruct (reach_ok _ _ _ _ _ _ _ _ E1 E2 E3 E4 n s0 m s H0 Hr Hn0 ltac:(nia)) as [Hok Hsz]. split; [|split; [|split; [|split]]].
  - intros Ha. edestruct (run_op_ok _ _ _ _ invalid_pt _ _ _ E1 E2 E3 E4 _ s op Hok Ha) as (s' & E & (q & held & _ & _ & Hlk) & _); [nia|unfold grow; rewrite Hsz; nia|]. by exists s'.
  - destruct Hok as (q & held & H & _). intros k cp Hk. destruct (si_cpu _ _ _ _ (si_cpus _ _ _ _ _ _ _ _ _ H) k cp Hk ltac:(done)) as (x & Hx & Hrun & _). by exists x.
  - destruct Hok as (q & held & H & _). intros k k' cp cp' Hk Hk' Hkk. by apply (proj2 (si_apart _ _ _ _ (si_cpus _ _ _ _ _ _ _ _ _ H) k k' cp cp' Hk Hk' Hkk)).
  - destruct Hok as (q & held & H & _). intros p x Hx Hrun. destruct (si_running _ _ _ _ (si_cpus _ _ _ _ _ _ _ _ _ H) p x Hx Hrun) as (k & cp & Hk & _ & Hp). by exists k, cp.
  - destruct Hok as (q & held & H & _). exists q. split; [apply (si_queues _ _ _ _ _ _ _ _ _ H)|]. intros p x Hx Hi Hr'. by apply (si_runnable _ _ _ _ _ _ _ _ _ H).
Qed.

Lemma queue_head_least s q c x : queues s q -> is_Some (conts s !! c) -> x ∈ q c -> vr s (hd 0 (q c)) <= vr s x.
Proof.
  intros Hq [ct Hc] Hx. destruct (qs_is _ _ Hq c ct Hc) as (t & _ & _ & _ & Hs). destruct (q c) as [|a l]; [inversion Hx|]. cbn [hd].
  apply elem_of_cons in Hx as [->|Hx]; [lia|]. apply StronglySorted_inv in Hs as [_ Hs]. rewrite Forall_forall in Hs. specialize (Hs x Hx). cbv beta in Hs.
  unfold cmp in Hs. destruct (Z.eqb_spec (vr s a) (vr s x)); [lia|]. apply Z.ltb_lt in Hs. lia.
Qed.

(** C11: a process that gives up its CPU for [st] is recorded as [st], and the
    process that runs next is the one that following, from the root container
    on, the member of least virtual run time of each container's queue leads
    to, or the idle process when the root's queue is empty. A killed process
    that is not exiting goes on running. The process that gives up the CPU
    keeps its address space's [online] flag. *)
Theorem resched_runs_least (proc_off cont_off root_container : Z) (clock_interupt : Z -> Z) (invalid_pt : Z) (tick : nat -> Z) (one_ms max_elapse : Z)
    (s : sched_st) (n k : Z) (cp : cpu) (x : proc) (st : procstate) :
  env_ok clock_interupt tick one_ms max_elapse ->
  sched_ok proc_off cont_off root_container clock_interupt tick max_elapse n s ->
  cpus s !! k = Some cp -> procs s !! thisproc_ cp = Some x -> st <> RUNNING -> (idle x = true -> st = RUNNABLE) ->
  0 <= n -> 820 * grow n s < 2 ^ 31 ->
  exists s', resched proc_off cont_off root_container clock_interupt invalid_pt tick one_ms k st s = Ret (tt, s') /\
    sched_ok proc_off cont_off root_container clock_interupt tick max_elapse (grow n s) s' /\
    if killed x && negb (bool_decide (st = ZOMBIE)) then s' = s
    else exists s1 q1 next cp', update_this_state proc_off cont_off root_container tick k st (set_lock true s) = Ret (tt, s1) /\
      queues s1 q1 /\ (forall c y, is_Some (conts s1 !! c) -> y ∈ q1 c -> vr s1 (hd 0 (q1 c)) <= vr s1 y) /\
      picked proc_off cont_off root_container s1 q1 cp next /\ cpus s' !! k = Some cp' /\ thisproc_ cp' = next /\
      (next <> thisproc_ cp -> procs s' !! thisproc_ cp = Some (with_state st x)).
Proof.
  intros [E1 E2 E3 E4] (q & held & H & Hck & Hlk) Hk Hx Hst Hi Hn0 Hn.
  destruct (resched_Ret _ _ _ _ invalid_pt _ _ _ E1 E2 E3 E4 k n s q held cp x st H Hck Hlk Hk Hx Hst Hi Hn0 Hn) as (s' & E & Hok & _ & Hres).
  exists s'. split; [done|]. split; [by eapply follows_ok|]. destruct (killed x && _); [done|]. destruct Hres as (s1 & q1 & next & cp' & Hu & Hq & Hp & Hk' & Hthis & Hnext).
  exists s1, q1, next, cp'. split; [done|]. split; [done|]. split; [intros c y; by apply queue_head_least|]. split; [done|]. split; [done|]. split; [done|]. intros Hne. by apply Hnext.
Qed.

Lemma chain_no_loop r cs c l ct : chain r cs c l -> cs !! c = Some ct -> c <> r -> c_parent ct <> c.
Proof.
  intros H Hc Hr E. pose proof H as Hch. destruct l as [|a l]; [done|]. destruct H as (-> & _ & ct' & Hc' & Hl). rewrite Hc in Hc'. injection Hc' as <-. rewrite E in Hl.
  pose proof (chain_functional _ _ _ _ _ Hch Hl) as Ef. apply (f_equal length) in Ef. simpl in Ef. lia.
Qed.

(** A process is reached only through its container. *)
Lemma leads_inside po co r cur n s q held d p y :
  sched_inv po co r cur None n s q held -> procs s !! p = Some y -> (forall d, sch_c co (p_container y) ∉ q d) -> leads po co (procs s) q d p -> d = p_container y.
Proof.
  intros H Hp Hno Hl. induction Hl as [d p' Hp' Hne Hhd|d a p' Hne Hhd _ IH].
  - pose proof (hd_elem _ Hne) as Hin. rewrite Hhd in Hin. destruct (si_member _ _ _ _ _ _ _ _ _ H d _ Hin) as [(p2 & y2 & E & Hp2 & _ & Hc & _)|(a & ca & E & Ha & _)].
    + apply sch_p_inj in E as <-. rewrite Hp in Hp2. by injection Hp2 as <-.
    + by destruct (st_sep _ _ _ _ _ (si_static _ _ _ _ _ _ _ _ _ H) p' a Hp' ltac:(by eexists)).
  - destruct (Hno d). rewrite <- (IH Hp), <- Hhd. by apply hd_elem.
Qed.

(** C38: waking a sleeping process records it as runnable and puts it into its
    container's queue, but never puts the container back into its parent's:
    the loop that would do it is guarded by [p->state == SLEEPING], after
    [p->state] has been set to [RUNNABLE]. If the container left that queue
    when its last process fell asleep, following the first members from the
    root does not lead to the process, and it is never chosen: after any
    number of further calls on any CPUs (processes that yield, sleep or exit,
    clock interrupts, wake-ups of this and other processes, new groups) other
    than adding this container's group again, it is still runnable, its
    container is still in no queue, and no CPU runs it. *)
Theorem woken_process_unreachable (proc_off cont_off root_container : Z) (clock_interupt : Z -> Z) (invalid_pt : Z) (tick : nat -> Z) (one_ms max_elapse : Z)
    (s : sched_st) (q held : Z -> list Z) (n k p : Z) (cp : cpu) (x : proc) (onalert : bool) :
  env_ok clock_interupt tick one_ms max_elapse ->
  sched_inv proc_off cont_off root_container None None n s q held -> clocks_ok clock_interupt tick max_elapse s -> schelock s = false ->
  cpus s !! k = Some cp -> procs s !! p = Some x -> idle x = false -> state x = SLEEPING ->
  p_container x <> root_container -> absent cont_off (p_container x) q held -> 0 <= n -> 820 * (n + 1) < 2 ^ 31 ->
  exists s' q', _activate_proc proc_off cont_off root_container k p onalert s = Ret (true, s') /\
    sched_inv proc_off cont_off root_container None None (n + 1) s' q' held /\
    procs s' !! p = Some (with_state RUNNABLE x) /\ sch_p proc_off p ∈ q' (p_container x) /\
    ~ leads proc_off cont_off (procs s') q' root_container p /\
    forall m s2, reach_but proc_off cont_off root_container clock_interupt invalid_pt tick one_ms (p_container x) s' m s2 ->
      820 * (n + 1 + Z.of_nat m * (1 + Z.of_nat (size (conts s')))) < 2 ^ 31 ->
      (exists z, procs s2 !! p = Some z /\ state z = RUNNABLE) /\ (exists q2, queues s2 q2 /\ forall d, sch_c cont_off (p_container x) ∉ q2 d) /\
      forall j cj, cpus s2 !! j = Some cj -> thisproc_ cj <> p.
Proof.
  intros [E1 E2 E3 E4] H Hck Hlk Hk Hx Hi Hs Hroot Hab Hn0 Hn.
  destruct (activate_Ret _ _ _ clock_interupt tick max_elapse k n s q held cp p x onalert H Hck Hlk Hk Hx Hi Hn0 Hn) as (s' & q' & E & H' & Hck' & Hlk' & _ & _ & [Hno _] & Hres).
  assert (Hw : wakes x onalert = true) by (unfold wakes; rewrite Hs; reflexivity). rewrite Hw in *. destruct Hres as (Ep & Hin & _).
  pose proof (st_proc _ _ _ _ _ (si_static _ _ _ _ _ _ _ _ _ H) p x Hx) as [_ Hcx]. pose proof (Hno _ Hcx Hab) as Hab'.
  assert (Hx' : procs s' !! p = Some (with_state RUNNABLE x)) by (rewrite Ep; apply lookup_insert_eq).
  exists s', q'. do 4 (split; [done|]). split.
  - intros Hl. apply Hroot. symmetry. exact (leads_inside _ _ _ _ _ _ _ _ _ p _ H' Hx' (proj1 Hab') Hl).
  - intros m s2 Hr Hb. destruct (reach_but_waits _ _ _ _ invalid_pt _ _ _ E1 E2 E3 E4 (n + 1) s' q' held (p_container x) p _ m s2 H' Hck' Hlk' Hab' Hroot Hx' Hi eq_refl eq_refl Hr ltac:(lia) Hb)
      as (q2 & held2 & z & H2 & _ & _ & Hab2 & _ & Hz & _ & _ & Hzr).
    split; [by exists z|]. split; [exists q2; split; [apply (si_queues _ _ _ _ _ _ _ _ _ H2)|apply Hab2]|]. intros j cj Hj Et.
    destruct (si_cpu _ _ _ _ (si_cpus _ _ _ _ _ _ _ _ _ H2) j cj Hj ltac:(done)) as (y & Hy & Hyr & _). congruence.
Qed.

(** ** An example *)
(** Two CPUs run their idle processes (at 1024 and 2048); the process at 4096
    sleeps in the container at 16384, whose parent is the root at 32768. *)
Definition ex_info (w : Z) (group : bool) : schinfo := mkSchinfo 0 21 w group.
Definition ex_sched : sched_st :=
  mkSched (<[4160 := mkRbNode 0 0 0]> (<[1088 := mkRbNode 0 0 0]> (<[2112 := mkRbNode 0 0 0]> (<[16448 := mkRbNode 0 0 0]> ∅))))
    (<[4160 := ex_info 820 false]> (<[1088 := ex_info 15 false]> (<[2112 := ex_info 15 false]> (<[16448 := ex_info 820 true]> ∅))))
    (<[1024 := mkProc false true RUNNING 32768 (mkPgdir 1 true)]> (<[2048 := mkProc false true RUNNING 32768 (mkPgdir 1 true)]>
      (<[4096 := mkProc false false SLEEPING 16384 (mkPgdir 2 false)]> ∅)))
    (<[16384 := mkContainer 32768 4096 (mkQueue 0 0 6 false)]> (<[32768 := mkContainer 0 0 (mkQueue 0 0 6 false)]> ∅))
    (<[0 := mkCpu 1024 1024 0 0]> (<[1 := mkCpu 2048 2048 0 0]> ∅))
    (mkTimers (<[16 := mkRbNode 0 0 0]> (<[32 := mkRbNode 0 0 0]> ∅)) (<[16 := mkTimer true 1 0 0 0]> (<[32 := mkTimer true 1 0 0 0]> ∅))
      (<[0 := 0]> (<[1 := 0]> ∅)) ∅ 0) false.
Definition ex_clock (k : Z) : Z := 16 * (k + 1).
Definition ex_tick (n : nat) : Z := Z.of_nat (Nat.min n 1000).

Lemma ex_env : env_ok ex_clock ex_tick 54000 5000.
Proof. split; unfold ex_tick, ex_clock; intros; lia. Qed.

Ltac map_cases :=
  repeat match goal with
  | H : _ !! _ = Some _ |- _ => apply lookup_insert_Some in H as [[<- <-]|[_ H]]
  | H : ∅ !! _ = Some _ |- _ => by rewrite lookup_empty in H
  end.

Lemma ex_static : static_inv 64 64 32768 0 ex_sched.
Proof.
  split.
  - by eexists.
  - intros p x H. unfold ex_sched in H. cbn [procs] in H. map_cases; (split; [eexists; split; [reflexivity|by split]|by eexists]).
  - intros c ct H Hr. unfold ex_sched in H. cbn [conts] in H. map_cases; [|done]. split; [by eexists|]. split; [by eexists|]. exists [16384].
    split; [done|]. split; [done|]. by eexists.
  - intros p c [x Hp] [ct Hc]. unfold ex_sched in Hp, Hc. cbn [procs conts] in Hp, Hc. map_cases; unfold sch_p, sch_c; lia.
  - intros c ct H. unfold ex_sched in H. cbn [conts] in H. map_cases; cbn; (split; [lia|]); (split; [by exists 0|lia]).
Qed.

Lemma ex_cpus : cpu_part 32768 None ex_sched (fun _ => []).
Proof.
  split.
  - intros k cp H _. unfold ex_sched in H. cbn [cpus] in H. map_cases; eexists; (split; [reflexivity|]); by repeat split.
  - intros k cp H. unfold ex_sched in H. cbn [cpus] in H. map_cases; eexists; (split; [reflexivity|]); (split; [done|]); by intros [?|?].
  - intros k k' cp cp' H H' Hkk. unfold ex_sched in H, H'. cbn [cpus] in H, H'. map_cases; done.
  - intros p x H Hr. unfold ex_sched in H. cbn [procs] in H. map_cases; [exists 0|exists 1|done]; eexists; (split; [reflexivity|]); by split.
Qed.

Lemma ex_inv : sched_inv 64 64 32768 None None 0 ex_sched (fun _ => []) (fun _ => []).
Proof.
  split.
  - split.
    + intros c ct H. unfold ex_sched in H. cbn [conts] in H. map_cases; apply queue_empty.
    + intros c c' x Hx. inversion Hx.
    + intros c x Hx. inversion Hx.
    + intros x [i H]. unfold ex_sched in H. cbn [schinfos] in H. map_cases; (split; [by eexists|done]).
  - apply ex_static.
  - intros c x Hx. inversion Hx.
  - intros p x H Hi Hr. unfold ex_sched in H. cbn [procs] in H. map_cases; done.
  - intros k a Ha. inversion Ha.
  - intros k k' a Ha. inversion Ha.
  - apply ex_cpus.
Qed.

Lemma ex_clocks : clocks_ok ex_clock ex_tick 5000 ex_sched.
Proof.
  exists (fun _ => []). split.
  - split.
    + intros k r H. unfold ex_sched in H. cbn [timers troots] in H. map_cases; apply queue_empty.
    + intros k t Ht. inversion Ht.
    + intros k k' t Ht. inversion Ht.
    + intros t x H. unfold ex_sched in H. cbn [timers tms] in H. map_cases; cbn; lia.
    + intros t x H. unfold ex_sched in H. cbn [timers tms] in H. map_cases; (split; [by eexists|]); (split; [done|]); (split; [done|cbn; lia]).
  - intros k cp H. unfold ex_sched in H. cbn [cpus] in H. map_cases; eexists _, _; (split; [reflexivity|]); (split; [reflexivity|]); left; (split; [done|]); intros j Hj; inversion Hj.
Qed.

Lemma ex_ok : sched_ok 64 64 32768 ex_clock ex_tick 5000 0 ex_sched.
Proof. exists (fun _ => []), (fun _ => []). split; [apply ex_inv|]. split; [apply ex_clocks|done]. Qed.

(** The next call after a first one. *)
Lemma scheduler_runs_safe_witness :
  exists s1, run_op 64 64 32768 ex_clock 0 ex_tick 54000 (Wake 0 4096 true) ex_sched = Ret (tt, s1) /\
    exists s2, run_op 64 64 32768 ex_clock 0 ex_tick 54000 (Resched 1 RUNNABLE) s1 = Ret (tt, s2) /\ schelock s2 = false.
Proof.
  assert (E : exists s1, run_op 64 64 32768 ex_clock 0 ex_tick 54000 (Wake 0 4096 true) ex_sched = Ret (tt, s1)
    /\ cpus s1 !! 1 = Some (mkCpu 2048 2048 0 0) /\ procs s1 !! 2048 = Some (mkProc false true RUNNING 32768 (mkPgdir 1 true))) by (eexists; vm_compute; done).
  destruct E as (s1 & E & Hk & Hp). exists s1. split; [exact E|].
  assert (Hr : reach 64 64 32768 ex_clock 0 ex_tick 54000 ex_sched 1 s1).
  { eapply reach_step; [apply reach_start| |exact E]. split; [by eexists|]. eexists. split; [reflexivity|done]. }
  apply (scheduler_runs_safe 64 64 32768 ex_clock 0 ex_tick 54000 5000 ex_sched s1 1 0 (Resched 1 RUNNABLE) ex_env ex_ok Hr).
  - lia.
  - vm_compute. done.
  - eexists _, _. split; [exact Hk|]. split; [exact Hp|]. by split.
Defined.

Lemma resched_runs_least_witness :
  exists s', resched 64 64 32768 ex_clock 0 ex_tick 54000 0 RUNNABLE ex_sched = Ret (tt, s') /\ sched_ok 64 64 32768 ex_clock ex_tick 5000 (grow 0 ex_sched) s'.
Proof.
  destruct (resched_runs_least 64 64 32768 ex_clock 0 ex_tick 54000 5000 ex_sched 0 0 (mkCpu 1024 1024 0 0) (mkProc false true RUNNING 32768 (mkPgdir 1 true)) RUNNABLE
    ex_env ex_ok eq_refl eq_refl ltac:(done) ltac:(done) ltac:(lia) ltac:(by vm_compute)) as (s' & E & Hok & _). by exists s'.
Defined.

(** The example after the sleeping process has been woken. *)
Definition ex_woken : sched_st := match _activate_proc 64 64 32768 0 4096 true ex_sched with Ret (_, s) => s | Stop _ => ex_sched end.

Lemma woken_process_unreachable_witness :
  exists s', _activate_proc 64 64 32768 0 4096 true ex_sched = Ret (true, s') /\
    exists s2, run_op 64 64 32768 ex_clock 0 ex_tick 54000 (Resched 1 RUNNABLE) s' = Ret (tt, s2) /\ forall j cj, cpus s2 !! j = Some cj -> thisproc_ cj <> 4096.
Proof.
  destruct (woken_process_unreachable 64 64 32768 ex_clock 0 ex_tick 54000 5000 ex_sched (fun _ => []) (fun _ => []) 0 0 4096 (mkCpu 1024 1024 0 0)
    (mkProc false false SLEEPING 16384 (mkPgdir 2 false)) true ex_env ex_inv ex_clocks eq_refl eq_refl eq_refl eq_refl eq_refl ltac:(done)) as (s' & q' & E & _ & _ & _ & _ & Hrun).
  - by split; intros d Hd; inversion Hd.
  - lia.
  - lia.
  - exists s'. split; [exact E|].
    assert (Es : s' = ex_woken) by (unfold ex_woken; by rewrite E). subst s'.
    assert (Er : match run_op 64 64 32768 ex_clock 0 ex_tick 54000 (Resched 1 RUNNABLE) ex_woken with Ret _ => true | Stop _ => false end = true) by (vm_compute; reflexivity).
    destruct (run_op 64 64 32768 ex_clock 0 ex_tick 54000 (Resched 1 RUNNABLE) ex_woken) as [[[] s2]|] eqn:E2; [|done]. exists s2. split; [done|].
    apply (Hrun 1%nat s2); [|vm_compute; reflexivity]. eapply but_step with (s := ex_woken) (op := Resched 1 RUNNABLE); [apply but_start| |by intros ?|exact E2].
    exists (mkCpu 2048 2048 0 0), (mkProc false true RUNNING 32768 (mkPgdir 1 true)). split; [vm_compute; reflexivity|]. split; [vm_compute; reflexivity|]. by split.
Defined.
