(* ===== verification/Sections.v ===== *)
(** * Sections of an address space and checks of user addresses
    (kernel/paging.h, kernel/syscall.c)

    An address space is a list of sections, in the order of the ring at
    [pgdir.section_head]; the loops over the ring skip its head. [mem a] is
    the byte at the user address [a] as the kernel reads it. *)
From stdpp Require Import base list.
From Stdlib Require Import ZArith Lia.
From S2P Require Import Prelude.

Definition ST_FILE : Z := 1.
Definition ST_SWAP : Z := Z.shiftl 1 1.
Definition ST_RO : Z := Z.shiftl 1 2.
Definition ST_HEAP : Z := Z.shiftl 1 3.
Definition ST_STACK : Z := Z.shiftl 1 4.
Definition ST_TEXT : Z := Z.lor ST_FILE ST_RO.

Record section := mkSection { flags : Z; begin : Z; end_ : Z; fp : Z; offset : Z; length_ : Z }.

Definition has (s : section) (f : Z) : bool := negb (Z.land (flags s) f =? 0).

(** The test of a range against a section. *)
Definition covers (addr size : Z) (st : section) : bool := (begin st <=? addr) && (u64 (addr + size - 1) <? end_ st).

(** The search loops: the first section that covers the range. *)
Fixpoint find_section (f : section -> bool) (l : list section) : option section :=
  match l with
  | [] => None
  | st :: l => if f st then Some st else find_section f l
  end.

Definition user_readable (l : list section) (start size : Z) : bool :=
  match find_section (covers start size) l with None => false | Some _ => true end.

Definition user_writeable (l : list section) (start size : Z) : bool :=
  match find_section (covers start size) l with None => false | Some s => negb (has s ST_RO) end.

(** The loop of [user_strlen] from [i] on. *)
Fixpoint strlen_from (n : nat) (l : list section) (mem : Z -> Z) (str i : Z) : Z :=
  match n with
  | O => 0
  | S n => if user_readable l (u64 (str + i)) 1 then if mem (u64 (str + i)) =? 0 then i + 1 else strlen_from n l mem str (i + 1) else 0
  end.
Definition user_strlen (l : list section) (mem : Z -> Z) (str maxlen : Z) : Z := strlen_from (Z.to_nat maxlen) l mem str 0.

(** [syscall_entry] on the registers [x] of the context. *)
Definition NR_SYSCALL : Z := 512.
Definition syscall_entry {S} (syscall_table : Z -> option (Z -> Z -> Z -> Z -> Z -> Z -> M S Z)) (x : list Z) : M S (list Z) :=
  let id := nth 8 x 0 in
  if id <? NR_SYSCALL then
    match syscall_table id with
    | None => stop Panic
    | Some p => r <- p (nth 0 x 0) (nth 1 x 0) (nth 2 x 0) (nth 3 x 0) (nth 4 x 0) (nth 5 x 0) ;; ret (<[0%nat := r]> x)
    end
  else ret x.

(** ** What the checks show *)
Definition section_ok (st : section) : Prop := 0 <= begin st <= end_ st /\ end_ st < 2 ^ 64.
Definition inside (st : section) (a : Z) : Prop := begin st <= a < end_ st.

Lemma find_section_Some f l st : find_section f l = Some st -> st ∈ l /\ f st = true.
Proof.
  induction l as [|a l IH]; cbn [find_section]; [done|]. destruct (f a) eqn:E; [intros [= <-]; split; [by left|done]|].
  intros [H1 H2]%IH. split; [by right|done].
Qed.

Lemma find_section_None f l : find_section f l = None -> forall st, st ∈ l -> f st = false.
Proof.
  induction l as [|a l IH]; cbn [find_section]; [intros _ st Hst; inversion Hst|]. destruct (f a) eqn:E; [done|].
  intros H st [->|Hst]%elem_of_cons; [done|by apply IH].
Qed.

Lemma covers_spec addr size st :
  section_ok st -> 0 <= addr -> 0 < size -> addr + size <= 2 ^ 64 -> covers addr size st = true <-> (forall a, addr <= a < addr + size -> inside st a).
Proof.
  intros [H1 H2] Ha Hs Hb. unfold covers, inside. rewrite u64_small by lia. rewrite andb_true_iff, Z.leb_le, Z.ltb_lt. split.
  - intros [? ?] a Hr. lia.
  - intros H. pose proof (H addr ltac:(lia)). pose proof (H (addr + size - 1) ltac:(lia)). lia.
Qed.

Lemma readable_spec l addr size :
  Forall section_ok l -> 0 <= addr -> 0 < size -> addr + size <= 2 ^ 64 ->
  user_readable l addr size = true <-> exists st, st ∈ l /\ forall a, addr <= a < addr + size -> inside st a.
Proof.
  intros Hl Ha Hs Hb. rewrite Forall_forall in Hl. unfold user_readable. destruct (find_section _ _) as [st|] eqn:E; split; try done.
  - intros _. apply find_section_Some in E as [Hst Hc]. exists st. split; [done|]. by apply (covers_spec addr size st (Hl _ Hst) Ha Hs Hb).
  - intros (st & Hst & Hin). pose proof (find_section_None _ _ E st Hst) as Hf. apply (covers_spec addr size st (Hl _ Hst) Ha Hs Hb) in Hin. congruence.
Qed.

Lemma writeable_spec l addr size :
  Forall section_ok l -> 0 <= addr -> 0 < size -> addr + size <= 2 ^ 64 ->
  user_writeable l addr size = true -> exists st, st ∈ l /\ has st ST_RO = false /\ forall a, addr <= a < addr + size -> inside st a.
Proof.
  intros Hl Ha Hs Hb. rewrite Forall_forall in Hl. unfold user_writeable. destruct (find_section _ _) as [st|] eqn:E; [|done].
  intros Hr%negb_true_iff. apply find_section_Some in E as [Hst Hc]. exists st. split; [done|]. split; [done|]. by apply (covers_spec addr size st (Hl _ Hst) Ha Hs Hb).
Qed.

(** The strings of a length less than [maxlen]. *)
Definition string_at (l : list section) (mem : Z -> Z) (str n : Z) : Prop :=
  mem (u64 (str + n)) = 0 /\ (forall i, 0 <= i < n -> mem (u64 (str + i)) <> 0) /\ (forall i, 0 <= i <= n -> exists st, st ∈ l /\ inside st (u64 (str + i))).

Lemma readable_byte l a : Forall section_ok l -> 0 <= a < 2 ^ 64 -> user_readable l a 1 = true <-> exists st, st ∈ l /\ inside st a.
Proof.
  intros Hl Ha. rewrite readable_spec by (done || lia). split; intros (st & Hst & H); exists st; (split; [done|]); [by apply H; lia|].
  intros b Hb. by replace b with a by lia.
Qed.

Lemma u64_range x : 0 <= u64 x < 2 ^ 64.
Proof. apply Z.mod_pos_bound. lia. Qed.

Lemma strlen_from_spec l mem str n i :
  Forall section_ok l -> 0 <= i ->
  (strlen_from n l mem str i = 0 /\ forall k, i <= k < i + Z.of_nat n -> ~ ((mem (u64 (str + k)) = 0 /\ (forall j, i <= j < k -> mem (u64 (str + j)) <> 0) /\
     (forall j, i <= j <= k -> exists st, st ∈ l /\ inside st (u64 (str + j)))))) \/
  (exists k, i <= k < i + Z.of_nat n /\ strlen_from n l mem str i = k + 1 /\ mem (u64 (str + k)) = 0 /\ (forall j, i <= j < k -> mem (u64 (str + j)) <> 0) /\
     (forall j, i <= j <= k -> exists st, st ∈ l /\ inside st (u64 (str + j)))).
Proof.
  intros Hl. revert i. induction n as [|n IH]; intros i Hi; cbn [strlen_from].
  { left. split; [done|]. intros k Hk. lia. }
  pose proof (readable_byte l (u64 (str + i)) Hl (u64_range _)) as Hr.
  destruct (user_readable l (u64 (str + i)) 1).
  2:{ left. split; [done|]. intros k Hk (_ & _ & Hin). by apply Hr in Hin; [|lia..]. }
  apply proj1 in Hr. specialize (Hr eq_refl). destruct (Z.eqb_spec (mem (u64 (str + i))) 0) as [E|E].
  { right. exists i. split; [lia|]. split; [done|]. split; [done|]. split; [intros j Hj; lia|]. intros j Hj. by replace j with i by lia. }
  destruct (IH (i + 1) ltac:(lia)) as [[-> Hno]|(k & Hk & -> & E0 & Hnz & Hin)].
  - left. split; [done|]. intros k Hk (E0 & Hnz & Hin). destruct (decide (k = i)) as [->|Hki]; [done|]. apply (Hno k); [lia|].
    split; [done|]. split; intros j Hj; [apply Hnz; lia|apply Hin; lia].
  - right. exists k. split; [lia|]. split; [done|]. split; [done|]. split; intros j Hj; (destruct (decide (j = i)) as [->|Hji]; [done|]); [apply Hnz; lia|apply Hin; lia].
Qed.

(** For a range of at least one byte that does not wrap around, the
    checks of the system calls are exact: [user_readable] accepts it exactly
    when one section contains it, [user_writeable] only if that section is not
    read-only; [user_strlen] returns the length with the final zero exactly
    for a string that ends before [maxlen] and whose bytes are all the
    process's, and 0 otherwise. *)
Theorem user_checks_exact (l : list section) (mem : Z -> Z) :
  Forall section_ok l ->
  (forall addr size, 0 <= addr -> 0 < size -> addr + size <= 2 ^ 64 ->
     (user_readable l addr size = true <-> exists st, st ∈ l /\ forall a, addr <= a < addr + size -> inside st a) /\
     (user_writeable l addr size = true -> exists st, st ∈ l /\ has st ST_RO = false /\ forall a, addr <= a < addr + size -> inside st a)) /\
  (forall str maxlen n, 0 <= maxlen -> 0 < n ->
     user_strlen l mem str maxlen = n <-> n <= maxlen /\ string_at l mem str (n - 1)).
Proof.
  intros Hl. split; [intros addr size H1 H2 H3; split; [by apply readable_spec|by apply writeable_spec]|].
  intros str maxlen n Hm Hn. unfold user_strlen, string_at. destruct (strlen_from_spec l mem str (Z.to_nat maxlen) 0 Hl ltac:(lia)) as [[-> Hno]|(k & Hk & -> & E0 & Hnz & Hin)]; rewrite Z.add_0_l, Z2Nat.id in * by lia.
  - split; [lia|]. intros [Hle Hs]. by destruct (Hno (n - 1) ltac:(lia)).
  - split; [intros <-; replace (k + 1 - 1) with k by lia; split; [lia|done]|]. intros (Hle & E1 & Hnz1 & Hin1).
    destruct (decide (k < n - 1)); [by destruct (Hnz1 k ltac:(lia))|]. destruct (decide (n - 1 < k)); [by destruct (Hnz (n - 1) ltac:(lia))|lia].
Qed.

(** The sum in the checks wraps around: from an address of a section whose
    first address is not 0, they accept a size that reaches past the end of
    the address space, so that the range contains addresses of no section and
    of the kernel. *)
Theorem user_range_wraps (l1 l2 : list section) (st : section) (addr : Z) :
  section_ok st -> 0 < begin st -> inside st addr -> has st ST_RO = false -> (forall s, s ∈ l1 -> covers addr (2 ^ 64 - (addr - begin st)) s = false) ->
  let size := 2 ^ 64 - (addr - begin st) in
  0 < size < 2 ^ 64 + 1 /\ user_readable (l1 ++ st :: l2) addr size = true /\ user_writeable (l1 ++ st :: l2) addr size = true /\
  forall a, end_ st <= a < 2 ^ 64 -> addr <= a < addr + size.
Proof.
  intros [H1 H2] H0 Hin Hro Hl1 size. unfold inside in Hin.
  assert (Hc : covers addr size st = true).
  { unfold covers, size. replace (addr + (2 ^ 64 - (addr - begin st)) - 1) with (begin st - 1 + 1 * 2 ^ 64) by lia. unfold u64, wrapu. rewrite Z.mod_add, Z.mod_small by lia.
    rewrite (proj2 (Z.leb_le _ _)), (proj2 (Z.ltb_lt _ _)); [done|lia|lia]. }
  assert (Hf : find_section (covers addr size) (l1 ++ st :: l2) = Some st).
  { clear -Hl1 Hc. induction l1 as [|a l1 IH]; cbn [find_section app]; [by rewrite Hc|]. assert (E : covers addr size a = false) by (apply Hl1; by left). rewrite E. apply IH. intros s Hs. apply Hl1. by right. }
  split; [unfold size; lia|]. unfold user_readable, user_writeable. rewrite Hf, Hro. split; [done|]. split; [done|]. intros a Ha. unfold size. lia.
Qed.

Definition ex_sections : list section := [mkSection ST_HEAP 0x1000 0x3000 0 0 0; mkSection ST_TEXT 0x5000 0x6000 0 0 0].

Lemma user_checks_exact_witness :
  (user_readable ex_sections 0x2ff0 16 = true <-> exists st, st ∈ ex_sections /\ forall a, 0x2ff0 <= a < 0x3000 -> inside st a) /\
  (user_strlen ex_sections (fun a => if a =? 0x5003 then 0 else 65) 0x5000 256 = 4 <-> 4 <= 256 /\ string_at ex_sections (fun a => if a =? 0x5003 then 0 else 65) 0x5000 3).
Proof.
  destruct (user_checks_exact ex_sections (fun a => if a =? 0x5003 then 0 else 65)) as [H1 H2].
  - unfold ex_sections. repeat constructor; cbn; lia.
  - split; [apply (H1 0x2ff0 16); lia|apply (H2 0x5000 256 4); lia].
Defined.

Lemma user_range_wraps_witness : user_writeable ex_sections 0x2000 (2 ^ 64 - 0x1000) = true.
Proof.
  destruct (user_range_wraps [] [mkSection ST_TEXT 0x5000 0x6000 0 0 0] (mkSection ST_HEAP 0x1000 0x3000 0 0 0) 0x2000) as (_ & _ & H & _).
  - split; cbn; lia.
  - cbn. lia.
  - split; cbn; lia.
  - reflexivity.
  - intros s Hs. inversion Hs.
  - exact H.
Defined.
