(* ===== verification/ProcTree.v ===== *)
(** * Processes: the tree, exit and wait, pids (kernel/proc.c)

    A process is named by its address; its nodes are in the heap of list
    nodes of CList.v, at [ch p] (the head of its children) and [ptn p] (its
    place among its siblings). The pids are in the map of the whole system and
    in those of the containers (Bitmap.v); [h] finds a process by its pid
    (HashMap.v). The calls run one at a time, as [tree_lock] makes them:
    [wait] is cut where it may sleep, and [exit] ends where the lock is
    released, with the process recorded as a zombie by [sched(ZOMBIE)], which
    [schelock] makes one step with it. Addresses [kalloc] returns are
    arguments. *)
From stdpp Require Import base gmap list.
From Stdlib Require Import ZArith Lia.
From S2P Require Import Prelude HashMap CList Bitmap Sem Sched.

Record hashpid_t := mkHashpid { h_pid : Z; h_proc : Z }.

Record tproc := mkTproc {
  t_killed : bool; t_idle : bool; t_pid : Z; t_localpid : Z; exitcode : Z; t_state : procstate;
  childexit : sem_st; parent : Z; t_container : Z }.

Record tree_st := mkTree {
  links : lheap; tprocs : gmap Z tproc; tree_lock : bool; rootprocs : gmap Z Z;
  globalpidmap : pidmap_t; pidmaps : gmap Z pidmap_t; h : hash_map; hashpids : gmap Z hashpid_t }.

Definition set_links f s := mkTree (f (links s)) (tprocs s) (tree_lock s) (rootprocs s) (globalpidmap s) (pidmaps s) (h s) (hashpids s).
Definition set_tprocs f s := mkTree (links s) (f (tprocs s)) (tree_lock s) (rootprocs s) (globalpidmap s) (pidmaps s) (h s) (hashpids s).
Definition set_tree_lock b s := mkTree (links s) (tprocs s) b (rootprocs s) (globalpidmap s) (pidmaps s) (h s) (hashpids s).
Definition set_global m s := mkTree (links s) (tprocs s) (tree_lock s) (rootprocs s) m (pidmaps s) (h s) (hashpids s).
Definition set_pidmaps f s := mkTree (links s) (tprocs s) (tree_lock s) (rootprocs s) (globalpidmap s) (f (pidmaps s)) (h s) (hashpids s).
Definition set_h m s := mkTree (links s) (tprocs s) (tree_lock s) (rootprocs s) (globalpidmap s) (pidmaps s) m (hashpids s).
Definition set_hashpids f s := mkTree (links s) (tprocs s) (tree_lock s) (rootprocs s) (globalpidmap s) (pidmaps s) (h s) (f (hashpids s)).

Definition get_tp (p : Z) : M tree_st tproc := fun s => match tprocs s !! p with Some x => Ret (x, s) | None => Stop Fault end.
Definition put_tp (p : Z) (f : tproc -> tproc) : M tree_st unit := x <- get_tp p ;; modify (set_tprocs (insert p (f x))).

Definition t_with_killed b x := mkTproc b (t_idle x) (t_pid x) (t_localpid x) (exitcode x) (t_state x) (childexit x) (parent x) (t_container x).
Definition t_with_pid v x := mkTproc (t_killed x) (t_idle x) v (t_localpid x) (exitcode x) (t_state x) (childexit x) (parent x) (t_container x).
Definition t_with_localpid v x := mkTproc (t_killed x) (t_idle x) (t_pid x) v (exitcode x) (t_state x) (childexit x) (parent x) (t_container x).
Definition with_exitcode v x := mkTproc (t_killed x) (t_idle x) (t_pid x) (t_localpid x) v (t_state x) (childexit x) (parent x) (t_container x).
Definition t_with_state st x := mkTproc (t_killed x) (t_idle x) (t_pid x) (t_localpid x) (exitcode x) st (childexit x) (parent x) (t_container x).
Definition with_childexit m x := mkTproc (t_killed x) (t_idle x) (t_pid x) (t_localpid x) (exitcode x) (t_state x) m (parent x) (t_container x).
Definition with_parent q x := mkTproc (t_killed x) (t_idle x) (t_pid x) (t_localpid x) (exitcode x) (t_state x) (childexit x) q (t_container x).

Definition on_links {A} (m : M lheap A) : M tree_st A := zoom links (fun l => set_links (fun _ => l)) m.
Definition on_global {A} (m : M pidmap_t A) : M tree_st A := zoom globalpidmap set_global m.
Definition on_h {A} (m : M hash_map A) : M tree_st A := zoom h set_h m.
Definition on_pidmap {A} (c : Z) (m : M pidmap_t A) : M tree_st A :=
  fun s => match pidmaps s !! c with
           | None => Stop Fault
           | Some pm => match m pm with Ret (a, pm') => Ret (a, set_pidmaps (insert c pm') s) | Stop x => Stop x end
           end.
Definition on_sem {A} (p : Z) (m : M sem_st A) : M tree_st A :=
  fun s => match tprocs s !! p with
           | None => Stop Fault
           | Some x => match m (childexit x) with Ret (a, sm) => Ret (a, set_tprocs (insert p (with_childexit sm x)) s) | Stop r => Stop r end
           end.

Definition acquire_tree : M tree_st unit := l <- gets tree_lock ;; if l : bool then stop Sleep else modify (set_tree_lock true).
Definition release_tree : M tree_st unit := modify (set_tree_lock false).

(** ** Pids *)
(** The [hashpid_t] of a search, on the stack. *)
Definition stack_node : Z := -1.
Definition pid_at (s : tree_st) (pid node : Z) : Z :=
  if node =? stack_node then pid else match hashpids s !! node with Some x => h_pid x | None => 0 end.
Definition hash (s : tree_st) (pid node : Z) : Z := Z.rem (pid_at s pid node) HASHSIZE.
Definition hashcmp (s : tree_st) (pid node1 node2 : Z) : bool := pid_at s pid node1 =? pid_at s pid node2.

Definition map_fuel : M tree_st nat := gets (fun s => S (size (dom (HashMap.next (h s))))).

Definition alloc_hashpid (p hp : Z) : M tree_st unit :=
  x <- get_tp p ;;
  modify (set_hashpids (insert hp (mkHashpid (t_pid x) p))) ;;;
  modify (fun s => set_h (mkHm (<[hp := 0]> (HashMap.next (h s))) (bullet (h s))) s) ;;;
  n <- map_fuel ;;
  (fun s => on_h (_hashmap_insert (hash s 0) n hp) s) ;;;
  ret tt.

Definition lookup_pid (pid : Z) : M tree_st Z :=
  n <- map_fuel ;;
  fun s => on_h (_hashmap_lookup (hash s pid) (hashcmp s pid) n stack_node) s.

Definition free_hashpid (pid : Z) : M tree_st unit :=
  hashnode <- lookup_pid pid ;;
  if hashnode =? 0 then stop Fault
  else
    n <- map_fuel ;;
    (fun s => on_h (_hashmap_erase (hash s pid) n hashnode) s) ;;;
    modify (set_hashpids (delete hashnode)).

Section proc.
(** The offsets of [children] and [ptnode], the first process and the
    container it is in. *)
Context (ch_off pt_off root_proc root_container : Z).
Definition ch (p : Z) : Z := p + ch_off.
Definition ptn (p : Z) : Z := p + pt_off.

(** [init_proc] on the memory [kalloc] returned for the process; the page
    table and the stack are not modelled here. Nothing reads [localpid] and
    [exitcode] before [start_proc] and [exit] write them. *)
Definition new_tproc : tproc := mkTproc false false 0 0 0 UNUSED (mkSemSt (init_sem 0) ∅ []) 0 0.
Definition init_proc (p hp : Z) : M tree_st unit :=
  modify (set_tprocs (insert p new_tproc)) ;;;
  modify (set_links (fun l => <[ch p := mkNode 0 0]> (<[ptn p := mkNode 0 0]> l))) ;;;
  acquire_tree ;;;
  pid <- on_global alloc_pid ;;
  put_tp p (t_with_pid pid) ;;;
  alloc_hashpid p hp ;;;
  release_tree ;;;
  put_tp p (t_with_state UNUSED) ;;;
  put_tp p (with_childexit (mkSemSt (init_sem 0) ∅ [])) ;;;
  on_links (init_list_node (ch p)) ;;;
  on_links (init_list_node (ptn p)) ;;;
  put_tp p (with_parent 0) ;;;
  put_tp p (fun x => mkTproc (t_killed x) (t_idle x) (t_pid x) (t_localpid x) (exitcode x) (t_state x) (childexit x) (parent x) root_container).

Definition set_parent_to_this (this p : Z) : M tree_st unit :=
  acquire_tree ;;;
  put_tp p (with_parent this) ;;;
  on_links (_insert_into_list (ch this) (ptn p)) ;;;
  release_tree.

(** [activate_proc] makes the process runnable. *)
Definition start_proc (p : Z) : M tree_st Z :=
  x <- get_tp p ;;
  when (parent x =? 0) (acquire_tree ;;; put_tp p (with_parent root_proc) ;;; on_links (_insert_into_list (ch root_proc) (ptn p)) ;;; release_tree) ;;;
  lp <- on_pidmap (t_container x) alloc_pid ;;
  put_tp p (t_with_localpid lp) ;;;
  put_tp p (t_with_state RUNNABLE) ;;;
  ret lp.

(** ** exit
    The calls that let the page table and the files of the process go before
    ([free_pgdir], [fileclose]) do not concern this state. *)
Definition is_zombie (p : Z) : M tree_st bool := x <- get_tp p ;; ret (bool_decide (t_state x = ZOMBIE)).

(** The four assignments that put [node] before [t]. *)
Definition insert_last (t node : Z) : M lheap unit :=
  l <- CList.get_prev t ;; set_prev node l ;;;
  set_next node t ;;;
  l <- CList.get_prev t ;; set_next l node ;;;
  set_prev t node.

Definition reparent (rootproc pre : Z) : M tree_st unit :=
  let p := pre - pt_off in
  put_tp p (with_parent rootproc) ;;;
  z <- is_zombie p ;;
  if z : bool then on_links (insert_last (ch rootproc) pre) ;;; on_sem rootproc _post_sem
  else on_links (_insert_into_list (ch rootproc) pre) ;;; ret tt.

(** A turn of the loop: at [p], the node before it is moved. *)
Definition exit_turn (this rootproc : Z) (st : Z * Z) : M tree_st (Z * Z + unit) :=
  let '(pre, p) := st in
  when (negb (pre =? 0) && negb (pre =? ch this)) (reparent rootproc pre) ;;;
  if p =? ch this then ret (inr tt)
  else n <- on_links (CList.get_next p) ;; ret (inl (p, n)).

Definition exit (this code : Z) : M tree_st unit :=
  x <- get_tp this ;;
  rp <- gets (fun s => rootprocs s !! t_container x) ;;
  match rp with
  | None => stop Fault
  | Some rootproc =>
      assert (negb (this =? rootproc) && negb (t_idle x)) ;;;
      put_tp this (with_exitcode code) ;;;
      acquire_tree ;;;
      p <- on_links (CList.get_next (ch this)) ;;
      n <- gets (fun s => S (size (tprocs s))) ;;
      while n (exit_turn this rootproc) (0, p) ;;;
      on_links (init_list_node (ch this)) ;;;
      on_links (_detach_from_list (ptn this)) ;;;
      x <- get_tp this ;;
      on_links (insert_last (ch (parent x)) (ptn this)) ;;;
      on_sem (parent x) _post_sem ;;;
      release_tree ;;;
      put_tp this (t_with_state ZOMBIE)
  end.

(** ** wait *)
(** Up to where it may sleep: [None] for no children, otherwise whether it
    passes at once. *)
Definition wait_enter (this w : Z) : M tree_st (option bool) :=
  e <- on_links (_empty_list (ch this)) ;;
  if e : bool then ret None else b <- on_sem this (_wait_sem_enter this w) ;; ret (Some b).
Definition wait_leave (this w : Z) : M tree_st bool := on_sem this (_wait_sem_leave w).

(** From [wait_sem] on: the local pid, the exit code and the pid, or -1. *)
Definition wait_reap (this : Z) : M tree_st (option (Z * Z * Z)) :=
  acquire_tree ;;;
  q <- on_links (CList.get_prev (ch this)) ;;
  let p := q - pt_off in
  z <- is_zombie p ;;
  if z : bool then
    x <- get_tp p ;;
    on_global (free_pid (t_pid x)) ;;;
    free_hashpid (t_pid x) ;;;
    let localpid := t_localpid x in
    on_pidmap (t_container x) (free_pid localpid) ;;;
    on_links (_detach_from_list q) ;;;
    modify (set_links (fun l => delete (ch p) (delete (ptn p) l))) ;;;
    modify (set_tprocs (delete p)) ;;;
    release_tree ;;;
    ret (Some (localpid, exitcode x, t_pid x))
  else release_tree ;;; ret None.

(** ** kill *)
Definition kill (pid : Z) : M tree_st Z :=
  if pid <? 0 then ret (-1)
  else
    acquire_tree ;;;
    p <- lookup_pid pid ;;
    if negb (p =? 0) then
      hp <- gets (fun s => hashpids s !! p) ;;
      match hp with
      | None => stop Fault
      | Some hp =>
          x <- get_tp (h_proc hp) ;;
          if bool_decide (t_state x = UNUSED) then ret (-1)
          else
            put_tp (h_proc hp) (t_with_killed true) ;;;
            when (bool_decide (t_state x = SLEEPING)) (put_tp (h_proc hp) (t_with_state RUNNABLE)) ;;;
            release_tree ;;; ret 0
      end
    else release_tree ;;; ret (-1).
End proc.

(** * The process tree's invariant (kernel/proc.c)

    [tree_inv ex s live zomb credit]: the children of [p] are [live p] and,
    behind them, the zombies [zomb p]; [credit p] counts the posts to
    [p]'s semaphore that [p] has consumed without having reaped a zombie yet.
    [ex] is a process whose list of children is being taken apart. *)

(** ** Inserting at the end of a list *)
Lemma insert_last_ring l t l0 node :
  ring l (t :: l0) -> is_Some (l !! node) -> node <> 0 -> node ∉ t :: l0 ->
  exists l', insert_last t node l = Ret (tt, l') /\ ring l' (t :: l0 ++ [node]) /\ forall c, c ∉ node :: t :: l0 -> l' !! c = l !! c.
Proof.
  intros Hr Hn Hn0 Hnl. pose proof Hr as (Hnd & H0 & Hp & Hl). set (z := lst t l0) in *.
  assert (Hz : z ∈ t :: l0) by apply lst_In. assert (Hnz : node <> z) by (by intros ->). assert (Hnt : node <> t) by (intros ->; apply Hnl; by left).
  pose proof (ring_alloc _ _ _ Hr Hz) as Hza. pose proof (ring_alloc _ _ t Hr ltac:(by left)) as Hta.
  exists (relink (relink l z node) node t). split; [|split].
  - unfold insert_last, set_prev, set_next. rewrite (bind_Ret _ _ _ _ _ (get_prev_Ret l t z (proj2 Hl))).
    rewrite (bind_Ret _ _ _ _ _ (update_alter l node _ Hn)). set (l1 := alter _ node l).
    assert (A1 : forall p, is_Some (l !! p) -> is_Some (l1 !! p)) by (intros p Hs; unfold l1; rewrite lookup_alter; case_decide; [subst; by apply fmap_is_Some|done]).
    rewrite (bind_Ret _ _ _ _ _ (update_alter l1 node _ (A1 _ Hn))). set (l2 := alter _ node l1).
    assert (A2 : forall p, is_Some (l !! p) -> is_Some (l2 !! p)).
    { intros p Hs. unfold l2. rewrite lookup_alter. case_decide; [subst; apply fmap_is_Some|]; by apply A1. }
    assert (Et : prev <$> l2 !! t = Some z) by (unfold l2, l1; rewrite !lookup_alter_ne by done; apply (proj2 Hl)).
    rewrite (bind_Ret _ _ _ _ _ (get_prev_Ret l2 t z Et)). rewrite (bind_Ret _ _ _ _ _ (update_alter l2 z _ (A2 _ Hza))). rewrite update_alter.
    + do 2 f_equal. unfold relink, l2, l1. apply map_eq. intros c. rewrite !lookup_alter. repeat case_decide; try congruence; by destruct (l !! c).
    + rewrite lookup_alter. case_decide as Ezt; [apply fmap_is_Some|]; by apply A2.
  - split; [|split; [set_solver|split]].
    + apply NoDup_cons. apply NoDup_cons in Hnd as [Ht Hnd]. split; [|apply NoDup_app; split; [done|split; [set_solver|apply NoDup_singleton]]]. set_solver.
    + apply opath_app. split; [|split; [|done]].
      * apply NoDup_cons in Hnd as [Ht Hnd]. apply opath_relink; [by left|done|]. apply opath_relink; [|set_solver|done]. right. split; [by apply NoDup_cons|done].
      * fold z. apply relink_keeps; [done|done|]. by apply relink_linked.
    + rewrite lst_app. cbn [lst]. apply relink_linked; by apply relink_alloc.
  - intros c Hc. rewrite !relink_other by set_solver. done.
Qed.

(** ** Posting *)
Lemma post_spec sm :
  sem_inv sm -> val (sem sm) + 1 < 2 ^ 31 - 1 ->
  exists sm' woken, _post_sem sm = Ret (tt, sm') /\ sem_inv sm' /\ (woken = 0 \/ woken = 1) /\
    val (sem sm') + Z.of_nat (length (sleeplist (sem sm'))) + woken = val (sem sm) + Z.of_nat (length (sleeplist (sem sm))) + 1.
Proof.
  intros H Hv. destruct (sem_cases sm H) as [[H0 Hs]|(l & w & p & Hval & Hl & Hw & Hwl)].
  - exists (set_sem (set_val (val (sem sm) + 1)) sm), 0. rewrite (post_idle sm H H0) by lia. split; [done|]. split; [|split; [by left|cbn; lia]].
    destruct H as [A1 A2 A3 A4 A5]. split; cbn in *; try done; lia.
  - destruct (post_busy sm l w p H Hval Hl Hw Hwl) as [E H']. exists (wake l w p sm), 1. split; [done|]. split; [done|]. split; [by right|].
    unfold wake. cbn. rewrite Hl, length_app. simpl. lia.
Qed.

Section kids.
Context (ch_off pt_off root_proc : Z).
Local Notation ch := (ch ch_off).
Local Notation ptn := (ptn pt_off).

Record tree_inv (ex : option Z) (s : tree_st) (live zomb : Z -> list Z) (credit : Z -> Z) : Prop := {
  ti_ring : forall p, is_Some (tprocs s !! p) -> Some p <> ex -> ring (links s) (ch p :: (ptn <$> live p ++ zomb p));
  ti_node : forall p, is_Some (tprocs s !! p) -> is_Some (links s !! ptn p) /\ ptn p <> 0 /\ is_Some (links s !! ch p) /\ ch p <> 0;
  ti_sep : forall p q, is_Some (tprocs s !! p) -> is_Some (tprocs s !! q) -> ch p <> ptn q;
  ti_kid : forall p c, c ∈ live p ++ zomb p -> is_Some (tprocs s !! p) /\ c <> p /\ c <> root_proc /\ exists x, tprocs s !! c = Some x /\ parent x = p;
  ti_nodup : forall p, NoDup (live p ++ zomb p);
  ti_child : forall c x, tprocs s !! c = Some x -> parent x <> 0 -> c <> root_proc -> c ∈ live (parent x) ++ zomb (parent x);
  ti_live : forall p c x, c ∈ live p -> tprocs s !! c = Some x -> t_state x <> ZOMBIE;
  ti_zomb : forall p c x, c ∈ zomb p -> tprocs s !! c = Some x -> t_state x = ZOMBIE;
  ti_sem : forall p x, tprocs s !! p = Some x -> sem_inv (childexit x) /\ 0 <= credit p /\
    (Some p <> ex -> t_state x <> ZOMBIE -> Z.of_nat (length (zomb p)) = val (sem (childexit x)) + Z.of_nat (length (sleeplist (sem (childexit x)))) + credit p);
  ti_dead : forall p x, tprocs s !! p = Some x -> t_state x = ZOMBIE -> live p = [] /\ zomb p = [];
  ti_reaper : forall c r, rootprocs s !! c = Some r -> exists x, tprocs s !! r = Some x /\ t_state x <> ZOMBIE /\ t_container x = c /\
    (r <> root_proc -> forall xp, tprocs s !! parent x = Some xp -> t_container xp <> c);
  ti_root : exists x, tprocs s !! root_proc = Some x /\ rootprocs s !! t_container x = Some root_proc;
  ti_null : tprocs s !! 0 = None
}.

(** ** Steps *)
Lemma get_tp_Ret p s x : tprocs s !! p = Some x -> get_tp p s = Ret (x, s).
Proof. intros E. unfold get_tp. by rewrite E. Qed.
Lemma put_tp_Ret p f s x : tprocs s !! p = Some x -> put_tp p f s = Ret (tt, set_tprocs <[p := f x]> s).
Proof. intros E. unfold put_tp. by rewrite (bind_Ret _ _ _ _ _ (get_tp_Ret _ _ _ E)). Qed.
Lemma on_links_Ret {A} (m : M lheap A) s a l : m (links s) = Ret (a, l) -> on_links m s = Ret (a, set_links (fun _ => l) s).
Proof. exact (zoom_Ret links (fun l => set_links (fun _ => l)) m s a l). Qed.
Lemma on_links_read {A} (m : M lheap A) s a : m (links s) = Ret (a, links s) -> on_links m s = Ret (a, s).
Proof. intros E. rewrite (on_links_Ret m s a _ E). by destruct s. Qed.
Lemma on_sem_Ret {A} p (m : M sem_st A) s x a sm : tprocs s !! p = Some x -> m (childexit x) = Ret (a, sm) -> on_sem p m s = Ret (a, set_tprocs <[p := with_childexit sm x]> s).
Proof. intros E1 E2. unfold on_sem. by rewrite E1, E2. Qed.

Lemma ptn_inj p q : ptn p = ptn q -> p = q.
Proof. unfold ProcTree.ptn. lia. Qed.
Lemma ch_inj p q : ch p = ch q -> p = q.
Proof. unfold ProcTree.ch. lia. Qed.
Lemma elem_nodes a p (l : list Z) : a ∈ ch p :: (ptn <$> l) <-> a = ch p \/ exists c, a = ptn c /\ c ∈ l.
Proof. rewrite elem_of_cons, list_elem_of_fmap. done. Qed.

(** Two processes' lists share no node. *)
Lemma rings_apart ex s live zomb credit p q a :
  tree_inv ex s live zomb credit -> is_Some (tprocs s !! p) -> is_Some (tprocs s !! q) -> p <> q ->
  a ∈ ch p :: (ptn <$> live p ++ zomb p) -> a ∉ ch q :: (ptn <$> live q ++ zomb q).
Proof.
  intros H Hp Hq Hne. rewrite !elem_nodes. intros [->|(c & -> & Hc)] [E|(d & E & Hd)].
  - by apply ch_inj in E.
  - destruct (ti_kid _ _ _ _ _ H q d Hd) as (_ & _ & _ & x & Hx & _). by apply (ti_sep _ _ _ _ _ H p d Hp ltac:(by eexists)).
  - destruct (ti_kid _ _ _ _ _ H p c Hc) as (_ & _ & _ & x & Hx & _). symmetry in E. by apply (ti_sep _ _ _ _ _ H q c Hq ltac:(by eexists)).
  - apply ptn_inj in E as <-. destruct (ti_kid _ _ _ _ _ H p c Hc) as (_ & _ & _ & x & Hx & <-). destruct (ti_kid _ _ _ _ _ H q c Hd) as (_ & _ & _ & x' & Hx' & <-). congruence.
Qed.

(** ** Giving a process a new place *)
(** [c] becomes a child of [r], in the state [st]; nobody else moves. *)
Record place (ex' : option Z) (s s' : tree_st) (live zomb live' zomb' : Z -> list Z) (credit' : Z -> Z) (c r : Z) (st : procstate) : Prop := {
  pl_proc : forall q, match tprocs s !! q with
    | None => tprocs s' !! q = None
    | Some x => exists x', tprocs s' !! q = Some x' /\ t_container x' = t_container x /\ parent x' = (if decide (q = c) then r else parent x) /\
        t_state x' = (if decide (q = c) then st else t_state x) /\ sem_inv (childexit x') /\ 0 <= credit' q /\
        (Some q <> ex' -> t_state x' <> ZOMBIE -> Z.of_nat (length (zomb' q)) = val (sem (childexit x')) + Z.of_nat (length (sleeplist (sem (childexit x')))) + credit' q)
    end;
  pl_root : rootprocs s' = rootprocs s;
  pl_kids : forall d q, d ∈ live' q ++ zomb' q <-> (d <> c /\ d ∈ live q ++ zomb q) \/ (d = c /\ q = r);
  pl_nodup : forall q, NoDup (live' q ++ zomb' q);
  pl_live : forall d q, d ∈ live' q -> d ∈ live q /\ d <> c \/ d = c /\ st <> ZOMBIE;
  pl_zomb : forall d q, d ∈ zomb' q -> d ∈ zomb q /\ d <> c \/ d = c /\ st = ZOMBIE;
  pl_node : forall a, is_Some (links s !! a) -> is_Some (links s' !! a)
}.

Lemma place_inv ex ex' s s' live zomb credit live' zomb' credit' c r st xc xr :
  tree_inv ex s live zomb credit -> tprocs s !! c = Some xc -> tprocs s !! r = Some xr -> c <> r -> c <> root_proc -> t_state xr <> ZOMBIE ->
  (forall k, rootprocs s !! k = Some c -> st <> ZOMBIE /\ t_container xr <> k) -> (st = ZOMBIE -> live' c = [] /\ zomb' c = []) ->
  place ex' s s' live zomb live' zomb' credit' c r st ->
  (forall p, is_Some (tprocs s !! p) -> Some p <> ex' -> ring (links s') (ch p :: (ptn <$> live' p ++ zomb' p))) ->
  tree_inv ex' s' live' zomb' credit'.
Proof.
  intros H Hc Hr Hcr Hcroot Hrz Hreap Hdead [P1 P2 P3 P4 P5 P6 P7] Hring.
  assert (Hback : forall q x', tprocs s' !! q = Some x' -> exists x, tprocs s !! q = Some x /\ t_container x' = t_container x /\ parent x' = (if decide (q = c) then r else parent x) /\
      t_state x' = (if decide (q = c) then st else t_state x)).
  { intros q x' Hx'. specialize (P1 q). destruct (tprocs s !! q) as [x|]; [|congruence]. destruct P1 as (x2 & E & A1 & A2 & A3 & _). rewrite Hx' in E. injection E as <-. by exists x. }
  assert (Hfwd : forall q, is_Some (tprocs s !! q) <-> is_Some (tprocs s' !! q)).
  { intros q. specialize (P1 q). destruct (tprocs s !! q) as [x|]; [destruct P1 as (x' & -> & _); split; eauto|rewrite P1; split; intros [? ?]; done]. }
  split.
  - intros p Hp. apply Hring. by apply Hfwd.
  - intros p Hp%Hfwd. destruct (ti_node _ _ _ _ _ H p Hp) as (? & ? & ? & ?). auto.
  - intros p q Hp%Hfwd Hq%Hfwd. by apply (ti_sep _ _ _ _ _ H).
  - intros p d [[Hd Hin]|[-> ->]]%P3.
    + destruct (ti_kid _ _ _ _ _ H p d Hin) as (Hp & ? & ? & x & Hx & Hpar). apply Hfwd in Hp. split; [done|]. split; [done|]. split; [done|].
      specialize (P1 d). rewrite Hx in P1. destruct P1 as (x' & Hx' & _ & E & _). rewrite decide_False in E by done. exists x'. by rewrite E.
    + split; [apply Hfwd; by eexists|]. split; [done|]. split; [done|]. specialize (P1 c). rewrite Hc in P1. destruct P1 as (x' & Hx' & _ & E & _).
      rewrite decide_True in E by done. by exists x'.
  - exact P4.
  - intros d x' Hx' Hpar Hroot. destruct (Hback d x' Hx') as (x & Hx & _ & E & _). rewrite E in *. apply P3. destruct (decide (d = c)) as [->|Hd]; [by right|]. left.
    split; [done|]. by apply (ti_child _ _ _ _ _ H).
  - intros p d x' Hd Hx'. destruct (Hback d x' Hx') as (x & Hx & _ & _ & E). rewrite E. destruct (P5 d p Hd) as [[Hin Hn]|[-> Hs]].
    + rewrite decide_False by done. by eapply (ti_live _ _ _ _ _ H).
    + by rewrite decide_True.
  - intros p d x' Hd Hx'. destruct (Hback d x' Hx') as (x & Hx & _ & _ & E). rewrite E. destruct (P6 d p Hd) as [[Hin Hn]|[-> Hs]].
    + rewrite decide_False by done. by eapply (ti_zomb _ _ _ _ _ H).
    + by rewrite decide_True.
  - intros p x' Hx'. specialize (P1 p). destruct (tprocs s !! p) as [x|]; [|congruence]. destruct P1 as (x2 & E & _ & _ & _ & A). rewrite Hx' in E. by injection E as <-.
  - intros p x' Hx' Hz. destruct (Hback p x' Hx') as (x & Hx & _ & _ & E). rewrite E in Hz. destruct (decide (p = c)) as [->|Hpc]; [by apply Hdead|].
    destruct (ti_dead _ _ _ _ _ H p x Hx Hz) as [E1 E2]. assert (Hno : live' p ++ zomb' p = []).
    { destruct (live' p ++ zomb' p) as [|d l] eqn:El; [done|]. destruct (proj1 (P3 d p)) as [[_ Hin]|[-> ->]]; [rewrite El; by left| |].
      - rewrite E1, E2 in Hin. inversion Hin.
      - congruence. }
    by apply app_nil in Hno.
  - intros k q. rewrite P2. intros Hq. destruct (ti_reaper _ _ _ _ _ H k q Hq) as (x & Hx & Hz & Hk & Hout). pose proof (P1 q) as Pq. rewrite Hx in Pq.
    destruct Pq as (x' & Hx' & A1 & A2 & A3 & _). exists x'. split; [done|]. rewrite A1, A2, A3. destruct (decide (q = c)) as [->|Hqc].
    + destruct (Hreap k Hq) as [Hs Hk']. split; [done|]. split; [done|]. intros _ xp Hxp. destruct (Hback r xp Hxp) as (xr' & Hxr' & -> & _). congruence.
    + split; [done|]. split; [done|]. intros Hroot xp Hxp. destruct (Hback _ xp Hxp) as (xp0 & Hxp0 & -> & _). by apply Hout.
  - destruct (ti_root _ _ _ _ _ H) as (x & Hx & Hr0). pose proof (P1 root_proc) as Pq. rewrite Hx in Pq. destruct Pq as (x' & Hx' & A1 & _). exists x'. by rewrite P2, A1.
  - pose proof (P1 0) as P0. by rewrite (ti_null _ _ _ _ _ H) in P0.
Qed.

(** ** A child goes to another process *)
Definition kupd (f : Z -> list Z) (k : Z) (l : list Z) : Z -> list Z := fun q => if decide (q = k) then l else f q.
Lemma kupd_eq f k l : kupd f k l k = l.
Proof. unfold kupd. by rewrite decide_True. Qed.
Lemma kupd_ne f k l q : q <> k -> kupd f k l q = f q.
Proof. intros. unfold kupd. by rewrite decide_False. Qed.

(** What the steps on the tree leave of a process and of the rest. *)
Definition same_proc (x x' : tproc) : Prop :=
  t_pid x' = t_pid x /\ t_localpid x' = t_localpid x /\ t_idle x' = t_idle x /\ t_state x' = t_state x /\ t_container x' = t_container x /\ exitcode x' = exitcode x /\ t_killed x' = t_killed x.
Definition same_rest (s s' : tree_st) : Prop :=
  tree_lock s' = tree_lock s /\ rootprocs s' = rootprocs s /\ globalpidmap s' = globalpidmap s /\ pidmaps s' = pidmaps s /\ h s' = h s /\ hashpids s' = hashpids s.
Record tree_step (s s' : tree_st) : Prop := {
  ts_rest : same_rest s s';
  ts_proc : forall q, match tprocs s !! q with None => tprocs s' !! q = None | Some x => exists x', tprocs s' !! q = Some x' /\ same_proc x x' end
}.

Lemma tree_step_refl s : tree_step s s.
Proof. split; [by repeat split|]. intros q. destruct (tprocs s !! q) as [x|]; [|done]. exists x. by repeat split. Qed.

Lemma tree_step_trans s s1 s2 : tree_step s s1 -> tree_step s1 s2 -> tree_step s s2.
Proof.
  intros [(A1 & A2 & A3 & A4 & A5 & A6) A] [(B1 & B2 & B3 & B4 & B5 & B6) B]. split; [repeat split; congruence|]. intros q. specialize (A q). specialize (B q).
  destruct (tprocs s !! q) as [x|]; [|by rewrite A in B]. destruct A as (x1 & E1 & (?&?&?&?&?&?&?)). rewrite E1 in B. destruct B as (x2 & E2 & (?&?&?&?&?&?&?)).
  exists x2. split; [done|]. repeat split; congruence.
Qed.

Lemma tree_step_size s s' : tree_step s s' -> size (tprocs s') = size (tprocs s).
Proof.
  intros [_ H]. rewrite <- !size_dom. f_equal. apply set_eq. intros q. rewrite !elem_of_dom. specialize (H q).
  destruct (tprocs s !! q) as [x|]; [destruct H as (x' & -> & _); split; eauto|rewrite H; done].
Qed.

Lemma kids_bound ex s live zomb credit p : tree_inv ex s live zomb credit -> (length (live p ++ zomb p) <= size (tprocs s))%nat.
Proof.
  intros H. pose proof (ti_nodup _ _ _ _ _ H p) as Hnd. rewrite <- size_dom.
  rewrite <- (size_list_to_set (C := gset Z) (live p ++ zomb p)) by done. apply subseteq_size. intros c Hc%elem_of_list_to_set. apply elem_of_dom.
  destruct (ti_kid _ _ _ _ _ H p c Hc) as (_ & _ & _ & x & Hx & _). by eexists.
Qed.

Lemma zomb_bound ex s live zomb credit p : tree_inv ex s live zomb credit -> (length (zomb p) <= size (tprocs s))%nat.
Proof. intros H. pose proof (kids_bound _ _ _ _ _ p H) as Hk. rewrite length_app in Hk. lia. Qed.

(** The process [c] moves from the front of [this]'s list to [rp]'s. *)
Definition move_live (z : bool) (live : Z -> list Z) (this rp c : Z) : Z -> list Z := if z then live else kupd (kupd live this (tail (live this))) rp (c :: live rp).
Definition move_zomb (z : bool) (zomb : Z -> list Z) (this rp c : Z) : Z -> list Z := if z then kupd (kupd zomb this (tail (zomb this))) rp (zomb rp ++ [c]) else zomb.

Lemma elem_push (z : bool) (l : list Z) c d : d ∈ (if z then l ++ [c] else c :: l) <-> d ∈ l \/ d = c.
Proof. destruct z; [rewrite elem_of_app, list_elem_of_singleton|rewrite elem_of_cons]; tauto. Qed.

Lemma head_zombie ex s live zomb credit this c rest xc :
  tree_inv ex s live zomb credit -> live this ++ zomb this = c :: rest -> tprocs s !! c = Some xc ->
  if bool_decide (t_state xc = ZOMBIE) then live this = [] /\ zomb this = c :: rest else exists l, live this = c :: l /\ rest = l ++ zomb this.
Proof.
  intros H E Hc. case_bool_decide as Hz.
  - destruct (live this) as [|a l] eqn:El; [done|]. injection E as -> _. exfalso. eapply (ti_live _ _ _ _ _ H this c xc); [rewrite El; by left|done|done].
  - destruct (live this) as [|a l] eqn:El; [|injection E as -> <-; by exists l]. exfalso. apply Hz. eapply (ti_zomb _ _ _ _ _ H this c xc); [|done]. simpl in E. rewrite E. by left.
Qed.

Lemma move_kids ex s live zomb credit this rp c rest xc q :
  tree_inv ex s live zomb credit -> live this ++ zomb this = c :: rest -> tprocs s !! c = Some xc -> this <> rp ->
  let z := bool_decide (t_state xc = ZOMBIE) in
  move_live z live this rp c q ++ move_zomb z zomb this rp c q =
    if decide (q = rp) then (if z then (live rp ++ zomb rp) ++ [c] else c :: live rp ++ zomb rp) else if decide (q = this) then rest else live q ++ zomb q.
Proof.
  intros H E Hc Hne z. pose proof (head_zombie _ _ _ _ _ _ _ _ _ H E Hc) as Hh. fold z in Hh. unfold move_live, move_zomb, kupd. destruct z.
  - destruct Hh as [El Ez]. destruct (decide (q = rp)) as [->|]; [by rewrite app_assoc|]. destruct (decide (q = this)) as [->|]; [|done]. by rewrite El, Ez.
  - destruct Hh as (l & El & ->). destruct (decide (q = rp)) as [->|]; [done|]. destruct (decide (q = this)) as [->|]; [|done]. by rewrite El.
Qed.

Lemma is_zombie_Ret p s x : tprocs s !! p = Some x -> is_zombie p s = Ret (bool_decide (t_state x = ZOMBIE), s).
Proof. intros E. unfold is_zombie. by rewrite (bind_Ret _ _ _ _ _ (get_tp_Ret _ _ _ E)). Qed.

Lemma post_bound ex s live zomb credit p x :
  tree_inv ex s live zomb credit -> tprocs s !! p = Some x -> Some p <> ex -> t_state x <> ZOMBIE -> Z.of_nat (size (tprocs s)) < 2 ^ 31 - 2 ->
  val (sem (childexit x)) + 1 < 2 ^ 31 - 1.
Proof.
  intros H Hp Hex Hz Hsz. destruct (ti_sem _ _ _ _ _ H p x Hp) as (_ & Hc & Hn). specialize (Hn Hex Hz). pose proof (zomb_bound _ _ _ _ _ p H). lia.
Qed.

Lemma reparent_Ret this rp s live zomb credit c rest xc xr :
  tree_inv (Some this) s live zomb credit -> this <> rp -> c <> rp -> tprocs s !! c = Some xc -> tprocs s !! rp = Some xr -> t_state xr <> ZOMBIE ->
  live this ++ zomb this = c :: rest -> (forall k, rootprocs s !! k = Some c -> t_container xr <> k) -> Z.of_nat (size (tprocs s)) < 2 ^ 31 - 2 ->
  let z := bool_decide (t_state xc = ZOMBIE) in
  exists s' credit', reparent ch_off pt_off rp (ptn c) s = Ret (tt, s') /\
    tree_inv (Some this) s' (move_live z live this rp c) (move_zomb z zomb this rp c) credit' /\ tree_step s s' /\
    (forall q, q <> rp -> credit' q = credit q) /\ (forall d, is_Some (tprocs s !! d) -> d <> c -> d ∉ live rp ++ zomb rp -> links s' !! ptn d = links s !! ptn d) /\
    (forall q x x', q <> c -> tprocs s !! q = Some x -> tprocs s' !! q = Some x' -> parent x' = parent x).
Proof.
  intros H Hthis Hcr Hc Hr Hrz Hkids Hout Hsz z.
  assert (Hin : c ∈ live this ++ zomb this) by (rewrite Hkids; by left).
  destruct (ti_kid _ _ _ _ _ H this c Hin) as (Hthis_some & Hct & Hcroot & xc' & Hxc' & Hpar). rewrite Hc in Hxc'. injection Hxc' as <-.
  pose proof (head_zombie _ _ _ _ _ _ _ _ _ H Hkids Hc) as Hh. fold z in Hh.
  destruct (ti_node _ _ _ _ _ H c ltac:(by eexists)) as (Hnode & Hn0 & _ & _).
  assert (Hrex : Some rp <> Some this) by congruence.
  pose proof (ti_ring _ _ _ _ _ H rp ltac:(by eexists) Hrex) as Hring.
  assert (Hnin : ptn c ∉ ch rp :: (ptn <$> live rp ++ zomb rp)).
  { apply (rings_apart _ _ _ _ _ this rp (ptn c) H Hthis_some ltac:(by eexists) Hthis). apply elem_nodes. right. by exists c. }
  set (s1 := set_tprocs <[c := with_parent rp xc]> s).
  assert (Hc1 : tprocs s1 !! c = Some (with_parent rp xc)) by apply lookup_insert_eq.
  assert (Hr1 : tprocs s1 !! rp = Some xr) by (cbn [tprocs s1 set_tprocs]; by rewrite lookup_insert_ne).
  (* the call, and the state after it *)
  assert (Hcall : exists l' sm woken, reparent ch_off pt_off rp (ptn c) s = Ret (tt, set_tprocs <[rp := with_childexit sm xr]> (set_links (fun _ => l') s1)) /\
      ring l' (ch rp :: (ptn <$> (if z then (live rp ++ zomb rp) ++ [c] else c :: live rp ++ zomb rp))) /\
      (forall a, a ∉ ptn c :: ch rp :: (ptn <$> live rp ++ zomb rp) -> l' !! a = links s !! a) /\ sem_inv sm /\ 0 <= woken /\
      val (sem sm) + Z.of_nat (length (sleeplist (sem sm))) + woken = val (sem (childexit xr)) + Z.of_nat (length (sleeplist (sem (childexit xr)))) + (if z then 1 else 0)).
  { unfold reparent. cbv zeta. replace (ptn c - pt_off) with c by (unfold ProcTree.ptn; lia). rewrite (bind_Ret _ _ _ _ _ (put_tp_Ret c _ s xc Hc)). fold s1.
    rewrite (bind_Ret _ _ _ _ _ (is_zombie_Ret c s1 _ Hc1)). change (t_state (with_parent rp xc)) with (t_state xc). fold z.
    destruct (ti_sem _ _ _ _ _ H rp xr Hr) as (Hsem & _ & _). destruct z.
    - destruct (insert_last_ring (links s1) (ch rp) (ptn <$> live rp ++ zomb rp) (ptn c) Hring Hnode Hn0 Hnin) as (l' & El & Hring' & Hf).
      destruct (post_spec (childexit xr) Hsem) as (sm & woken & Ep & Hsem' & Hw & Hcount); [by eapply post_bound|].
      exists l', sm, woken. rewrite (bind_Ret _ _ _ _ _ (on_links_Ret _ s1 _ _ El)). rewrite (on_sem_Ret rp _ (set_links (fun _ => l') s1) xr tt sm Hr1 Ep). split; [done|].
      rewrite (fmap_app _ (live rp ++ zomb rp)). split; [exact Hring'|]. split; [exact Hf|]. split; [done|]. split; [lia|]. lia.
    - destruct (insert_into_list_ring (links s1) (ch rp) (ptn <$> live rp ++ zomb rp) (ptn c) Hring Hnode Hn0 Hnin) as (l' & El & Hring' & Hf).
      exists l', (childexit xr), 0. rewrite (bind_Ret _ _ _ _ _ (on_links_Ret _ s1 _ _ El)). split.
      + unfold ret. do 2 f_equal. unfold set_tprocs, set_links. cbn. f_equal. symmetry. apply insert_id. cbn [tprocs s1 set_tprocs]. rewrite lookup_insert_ne by done. rewrite Hr. by destruct xr.
      + split; [exact Hring'|]. split; [exact Hf|]. split; [done|]. lia. }
  destruct Hcall as (l' & sm & woken & Ecall & Hring' & Hframe & Hsem' & Hw & Hcount). set (s' := set_tprocs _ (set_links _ s1)) in *.
  assert (Hlook : forall q, tprocs s' !! q = if decide (q = rp) then Some (with_childexit sm xr) else if decide (q = c) then Some (with_parent rp xc) else tprocs s !! q).
  { intros q. cbn [tprocs s' s1 set_tprocs set_links]. destruct (decide (q = rp)) as [->|Hq]; [apply lookup_insert_eq|]. rewrite lookup_insert_ne by done.
    destruct (decide (q = c)) as [->|Hq2]; [apply lookup_insert_eq|by rewrite lookup_insert_ne]. }
  assert (Hlinks : forall a, is_Some (links s !! a) -> is_Some (l' !! a)).
  { intros a Ha. destruct (decide (a ∈ ptn c :: ch rp :: (ptn <$> live rp ++ zomb rp))) as [Hi|Hi]; [|by rewrite Hframe].
    eapply ring_alloc; [exact Hring'|]. destruct z; rewrite ?fmap_app, ?fmap_cons, ?fmap_app in *; set_solver. }
  assert (Hmk := fun q => move_kids _ _ _ _ _ this rp c rest xc q H Hkids Hc Hthis). cbv zeta in Hmk. fold z in Hmk.
  pose proof (ti_nodup _ _ _ _ _ H this) as Hnd. rewrite Hkids in Hnd. apply NoDup_cons in Hnd as [Hcrest Hnd].
  assert (Hcnot : forall q, q <> this -> c ∉ live q ++ zomb q).
  { intros q Hq Hcq. destruct (ti_kid _ _ _ _ _ H q c Hcq) as (_ & _ & _ & x2 & Hx2 & Hp2). rewrite Hc in Hx2. injection Hx2 as <-. congruence. }
  exists s', (fun q => if decide (q = rp) then credit q + woken else credit q). split; [exact Ecall|]. split; [|split; [|split; [|split]]].
  - eapply (place_inv (Some this) (Some this) s s' live zomb credit); [exact H|exact Hc|exact Hr|exact Hcr|exact Hcroot|exact Hrz| | | |].
    + intros k Hk. destruct (ti_reaper _ _ _ _ _ H k c Hk) as (x2 & Hx2 & Hz2 & _). rewrite Hc in Hx2. injection Hx2 as <-. split; [done|by apply Hout].
    + intros Hz. destruct (ti_dead _ _ _ _ _ H c xc Hc Hz) as [E1 E2]. assert (E : move_live z live this rp c c ++ move_zomb z zomb this rp c c = []) by (rewrite Hmk; rewrite !decide_False by done; by rewrite E1, E2).
      by apply app_nil in E.
    + split; [|done| | | | |].
      * intros q. rewrite Hlook. destruct (decide (q = rp)) as [->|Hq].
        { rewrite Hr. exists (with_childexit sm xr). split; [done|]. split; [done|]. rewrite !decide_False by done. split; [done|]. split; [done|]. split; [done|].
          destruct (ti_sem _ _ _ _ _ H rp xr Hr) as (_ & Hc0 & Hn). split; [lia|]. intros _ Hz. specialize (Hn Hrex Hz). cbn [childexit with_childexit].
          unfold move_zomb. destruct z; [rewrite kupd_eq, length_app; simpl; lia|lia]. }
        destruct (decide (q = c)) as [->|Hqc].
        { rewrite Hc. exists (with_parent rp xc). split; [done|]. split; [done|]. split; [done|]. split; [done|].
          destruct (ti_sem _ _ _ _ _ H c xc Hc) as (Hs & Hc0 & Hn). split; [done|]. split; [done|]. intros _ Hz. cbn [childexit with_parent].
          unfold move_zomb, kupd. destruct z; rewrite ?decide_False by done; apply Hn; done || congruence. }
        destruct (tprocs s !! q) as [x|] eqn:Eq; [|done]. exists x. split; [done|]. split; [done|]. split; [done|]. split; [done|].
        destruct (ti_sem _ _ _ _ _ H q x Eq) as (Hs & Hc0 & Hn). split; [done|]. split; [done|]. intros Hqex Hz.
        unfold move_zomb, kupd. destruct z; rewrite ?decide_False by (done || congruence); by apply Hn.
      * intros d q. rewrite Hmk. destruct (decide (q = rp)) as [->|Hq].
        { rewrite elem_push. split; [intros [Hd| ->]; [left; split; [intros ->; by apply (Hcnot rp ltac:(done))|done]|by right]|intros [[_ Hd]|[-> _]]; [by left|by right]]. }
        destruct (decide (q = this)) as [->|Hqt].
        { rewrite Hkids, elem_of_cons. split; [intros Hd; left; split; [by intros ->|by right]|intros [[? [?|Hd]]|[_ ?]]; done]. }
        specialize (Hcnot q Hqt). split; [intros Hd; left; split; [by intros ->|done]|intros [[_ Hd]|[_ ?]]; done].
      * intros q. rewrite Hmk. pose proof (ti_nodup _ _ _ _ _ H q) as Hndq. destruct (decide (q = rp)) as [->|Hq].
        { specialize (Hcnot rp ltac:(done)). destruct z; [apply NoDup_app; split; [done|]; split; [set_solver|apply NoDup_singleton]|by apply NoDup_cons]. }
        destruct (decide (q = this)) as [->|]; done.
      * intros d q. unfold move_live, kupd. destruct z eqn:Ez.
        { intros Hd. left. split; [done|]. intros ->. destruct (decide (q = this)) as [->|Hqt]; [destruct Hh as [El _]; rewrite El in Hd; inversion Hd|].
          apply (Hcnot q Hqt). apply elem_of_app. by left. }
        unfold z in Ez. apply bool_decide_eq_false in Ez. destruct Hh as (l & El & Er). destruct (decide (q = rp)) as [->|Hq].
        { intros [->|Hd]%elem_of_cons; [by right|]. left. split; [done|]. intros ->. apply (Hcnot rp ltac:(done)). apply elem_of_app. by left. }
        destruct (decide (q = this)) as [->|Hqt].
        { rewrite El. simpl. intros Hd. left. split; [by right|]. intros ->. apply Hcrest. rewrite Er. apply elem_of_app. by left. }
        intros Hd. left. split; [done|]. intros ->. apply (Hcnot q Hqt). apply elem_of_app. by left.
      * intros d q. unfold move_zomb, kupd. destruct z eqn:Ez.
        { unfold z in Ez. apply bool_decide_eq_true in Ez. destruct Hh as [El Ezm]. destruct (decide (q = rp)) as [->|Hq].
          - intros [Hd| ->%list_elem_of_singleton]%elem_of_app; [|by right]. left. split; [done|]. intros ->. apply (Hcnot rp ltac:(done)). apply elem_of_app. by right.
          - destruct (decide (q = this)) as [->|Hqt].
            + rewrite Ezm. simpl. intros Hd. left. split; [by right|]. by intros ->.
            + intros Hd. left. split; [done|]. intros ->. apply (Hcnot q Hqt). apply elem_of_app. by right. }
        destruct Hh as (l & El & Er). intros Hd. left. split; [done|]. intros ->. destruct (decide (q = this)) as [->|Hqt].
        { apply Hcrest. rewrite Er. apply elem_of_app. by right. } apply (Hcnot q Hqt). apply elem_of_app. by right.
      * exact Hlinks.
    + intros p Hp Hpex. rewrite Hmk. destruct (decide (p = rp)) as [->|Hprp]; [exact Hring'|]. rewrite decide_False by congruence.
      eapply ring_frame; [by apply (ti_ring _ _ _ _ _ H p Hp)|]. intros a Ha. apply Hframe. intros [->|Ha']%elem_of_cons.
      * apply elem_nodes in Ha as [E|(d & E & Hd)]; [by apply (ti_sep _ _ _ _ _ H p c Hp ltac:(by eexists))|]. apply ptn_inj in E as <-. apply (Hcnot p); [congruence|done].
      * revert Ha'. by apply (rings_apart _ _ _ _ _ p rp a H Hp ltac:(by eexists) Hprp).
  - split; [by repeat split|]. intros q. rewrite Hlook. destruct (decide (q = rp)) as [->|Hq]; [rewrite Hr; by eexists|].
    destruct (decide (q = c)) as [->|]; [rewrite Hc; by eexists|]. destruct (tprocs s !! q) as [x|]; [|done]. exists x. by repeat split.
  - intros q Hq. by rewrite decide_False.
  - intros d Hds Hd Hdr. apply Hframe. rewrite elem_of_cons, elem_nodes. intros [E|[E|(e & E & He)]].
    + by apply ptn_inj in E.
    + symmetry in E. by apply (ti_sep _ _ _ _ _ H rp d ltac:(by eexists) Hds).
    + apply ptn_inj in E as <-. done.
  - intros q x x' Hq Hx. rewrite Hlook. destruct (decide (q = rp)) as [->|Hqr]; [rewrite Hr in Hx; injection Hx as <-; by intros [= <-]|]. rewrite decide_False by done. congruence.
Qed.
End kids.
