(* ===== verification/ProcExit.v ===== *)
(** * Exit and wait on the process tree (kernel/proc.c)

    What the loop of [exit] and the calls do to the lists of children, on
    states that satisfy [tree_inv]. *)
From stdpp Require Import base gmap list.
From Stdlib Require Import ZArith Lia.
From S2P Require Import Prelude HashMap CList Bitmap Sem Sched ProcTree.

Section exit.
Context (ch_off pt_off root_proc : Z).
Local Notation ch := (ch ch_off).
Local Notation ptn := (ptn pt_off).
Local Notation tree_inv := (tree_inv ch_off pt_off root_proc).

(** The nodes of [rest] follow each other from [p] up to the head. *)
Fixpoint fwd (l : lheap) (this p : Z) (rest : list Z) : Prop :=
  match rest with
  | [] => p = ch this
  | c :: rest => p = ptn c /\ exists n, CList.next <$> l !! p = Some n /\ fwd l this n rest
  end.

Lemma fwd_frame l l' this p rest : (forall c, c ∈ rest -> l' !! ptn c = l !! ptn c) -> fwd l this p rest -> fwd l' this p rest.
Proof.
  revert p. induction rest as [|c rest IH]; intros p Hf; [done|]. intros (-> & n & Hn & Hr). split; [done|]. exists n.
  rewrite Hf by (by left). split; [done|]. apply IH; [|done]. intros d Hd. apply Hf. by right.
Qed.

Lemma fwd_opath l this a rest :
  opath l a (ptn <$> rest) -> CList.linked l (lst a (ptn <$> rest)) (ch this) -> exists n, CList.next <$> l !! a = Some n /\ fwd l this n rest.
Proof.
  revert a. induction rest as [|c rest IH]; intros a; cbn [fmap list_fmap opath lst].
  - intros _ [Hn _]. exists (ch this). by split.
  - intros [[Hn _] Hp] Hl. exists (ptn c). split; [done|]. split; [done|]. by apply IH.
Qed.

Lemma ring_fwd l this rest : ring l (ch this :: (ptn <$> rest)) -> exists n, CList.next <$> l !! ch this = Some n /\ fwd l this n rest.
Proof. intros (_ & _ & Hp & Hl). by apply fwd_opath. Qed.

Lemma tree_step_get s s' q x : tree_step s s' -> tprocs s !! q = Some x -> exists x', tprocs s' !! q = Some x' /\ same_proc x x'.
Proof. intros [_ H] Hq. specialize (H q). by rewrite Hq in H. Qed.
Lemma tree_step_root s s' : tree_step s s' -> rootprocs s' = rootprocs s.
Proof. by intros [(_ & ? & _) _]. Qed.

(** [s1] is [s] after some of [this]'s children have gone to [rp]. *)
Record handed (this rp : Z) (s s1 : tree_st) (live zomb live1 zomb1 : Z -> list Z) (credit credit1 : Z -> Z) : Prop := {
  hd_step : tree_step s s1;
  hd_live : reverse (live1 this) ++ live1 rp = reverse (live this) ++ live rp;
  hd_zomb : zomb1 rp ++ zomb1 this = zomb rp ++ zomb this;
  hd_other : forall q, q <> rp -> q <> this -> live1 q = live q /\ zomb1 q = zomb q;
  hd_credit : forall q, q <> rp -> credit1 q = credit q;
  hd_parent : forall q x x', q ∉ live this ++ zomb this -> tprocs s !! q = Some x -> tprocs s1 !! q = Some x' -> parent x' = parent x
}.

Lemma handed_refl this rp s live zomb credit : handed this rp s s live zomb live zomb credit credit.
Proof. split; try done; [apply tree_step_refl|]. intros; congruence. Qed.

Lemma handed_trans this rp s s1 s2 live zomb live1 zomb1 live2 zomb2 credit credit1 credit2 :
  (forall q, q ∈ live1 this ++ zomb1 this -> q ∈ live this ++ zomb this) ->
  handed this rp s s1 live zomb live1 zomb1 credit credit1 -> handed this rp s1 s2 live1 zomb1 live2 zomb2 credit1 credit2 ->
  handed this rp s s2 live zomb live2 zomb2 credit credit2.
Proof.
  intros Hsub [A1 A2 A3 A4 A5 A6] [B1 B2 B3 B4 B5 B6]. split; [by eapply tree_step_trans|congruence|congruence| | |].
  - intros q H1 H2. destruct (A4 q H1 H2) as [-> ->] || (destruct (A4 q H1 H2), (B4 q H1 H2); split; congruence).
  - intros q Hq. by rewrite B5, A5.
  - intros q x x' Hq Hx Hx'. destruct (tree_step_get _ _ q x A1 Hx) as (x1 & Hx1 & _). rewrite (B6 q x1 x'); [by eapply A6| |done|done]. intros Hin. by apply Hq, Hsub.
Qed.

Lemma give_pre this rp s live zomb credit xt xr pl pre p rest :
  tree_inv (Some this) s live zomb credit -> this <> rp -> tprocs s !! this = Some xt -> tprocs s !! rp = Some xr -> rootprocs s !! t_container xt = Some rp ->
  live this ++ zomb this = pl ++ rest -> (pl = [] /\ pre = 0 \/ exists c, pl = [c] /\ pre = ptn c) -> fwd (links s) this p rest ->
  Z.of_nat (size (tprocs s)) < 2 ^ 31 - 2 ->
  exists s1 live1 zomb1 credit1, when (negb (pre =? 0) && negb (pre =? ch this)) (reparent ch_off pt_off rp pre) s = Ret (tt, s1) /\
    tree_inv (Some this) s1 live1 zomb1 credit1 /\ handed this rp s s1 live zomb live1 zomb1 credit credit1 /\ live1 this ++ zomb1 this = rest /\ fwd (links s1) this p rest.
Proof.
  intros H Hne Ht Hr Hroot Hkids Hpre Hfwd Hsz. destruct Hpre as [[-> ->]|(c & -> & ->)].
  - exists s, live, zomb, credit. split; [done|]. split; [done|]. split; [apply handed_refl|]. by split.
  - assert (Hin : c ∈ live this ++ zomb this) by (rewrite Hkids; by left).
    destruct (ti_kid _ _ _ _ _ _ _ _ H this c Hin) as (_ & Hct & Hcroot & xc & Hxc & Hpar). destruct (ti_node _ _ _ _ _ _ _ _ H c ltac:(by eexists)) as (_ & Hn0 & _).
    destruct (ti_reaper _ _ _ _ _ _ _ _ H _ rp Hroot) as (xr' & Hxr' & Hrz & Hrc & Hrout). rewrite Hr in Hxr'. injection Hxr' as <-.
    assert (Hcr : c <> rp). { intros ->. rewrite Hr in Hxc. injection Hxc as <-. rewrite <- Hpar in Ht. by apply (Hrout Hcroot xt). }
    assert (Hout : forall k, rootprocs s !! k = Some c -> t_container xr <> k).
    { intros k Hk. destruct (ti_reaper _ _ _ _ _ _ _ _ H k c Hk) as (xc' & Hxc' & _ & _ & Hco). rewrite Hxc in Hxc'. injection Hxc' as <-.
      rewrite Hrc. apply (Hco Hcroot). by rewrite Hpar. }
    destruct (reparent_Ret _ _ _ this rp s live zomb credit c rest xc xr H Hne Hcr Hxc Hr Hrz Hkids Hout Hsz) as (s1 & credit1 & E & H1 & Hst & Hcred & Hlinks & Hpars).
    set (z := bool_decide (t_state xc = ZOMBIE)) in *.
    pose proof (head_zombie _ _ _ _ _ _ _ _ _ _ _ _ H Hkids Hxc) as Hh. fold z in Hh.
    assert (Hmk := fun q => move_kids _ _ _ _ _ _ _ _ this rp c rest xc q H Hkids Hxc Hne). cbv zeta in Hmk. fold z in Hmk.
    assert (Hrest : forall d, d ∈ rest -> d ∈ live this ++ zomb this) by (intros d Hd; rewrite Hkids; by right).
    exists s1, (move_live z live this rp c), (move_zomb z zomb this rp c), credit1. split; [|split; [done|split; [|split]]].
    + rewrite (proj2 (Z.eqb_neq (ptn c) 0)), (proj2 (Z.eqb_neq (ptn c) (ch this))); [exact E| |done].
      intros E2. symmetry in E2. by apply (ti_sep _ _ _ _ _ _ _ _ H this c ltac:(by eexists) ltac:(by eexists)).
    + split; [done| | | |done|].
      * unfold move_live, kupd. destruct z; [done|]. destruct Hh as (l & El & _). rewrite decide_False, !decide_True by done. rewrite El. simpl. by rewrite reverse_cons, <- app_assoc.
      * unfold move_zomb, kupd. destruct z; [|done]. destruct Hh as (_ & Ez). rewrite decide_True, decide_False, decide_True by done. rewrite Ez. simpl. by rewrite <- app_assoc.
      * intros q Hq Hqt. unfold move_live, move_zomb, kupd. by destruct z; rewrite ?decide_False.
      * intros q x x' Hq. apply Hpars. intros ->. by apply Hq.
    + rewrite Hmk, decide_False, decide_True by done. done.
    + eapply fwd_frame; [|exact Hfwd]. intros d Hd. destruct (ti_kid _ _ _ _ _ _ _ _ H this d (Hrest d Hd)) as (_ & _ & _ & xd & Hxd & Hpd). apply Hlinks.
      * by eexists.
      * intros ->. pose proof (ti_nodup _ _ _ _ _ _ _ _ H this) as Hnd. rewrite Hkids in Hnd. by apply NoDup_cons in Hnd as [? _].
      * intros Hdr. destruct (ti_kid _ _ _ _ _ _ _ _ H rp d Hdr) as (_ & _ & _ & xd' & Hxd' & Hpd'). rewrite Hxd in Hxd'. injection Hxd' as <-. congruence.
Qed.

(** The loop hands every child to [rp]. *)
Lemma exit_loop this rp rest : forall m pre p s live zomb credit xt xr pl,
  tree_inv (Some this) s live zomb credit -> this <> rp -> tprocs s !! this = Some xt -> tprocs s !! rp = Some xr -> rootprocs s !! t_container xt = Some rp ->
  live this ++ zomb this = pl ++ rest -> (pl = [] /\ pre = 0 \/ exists c, pl = [c] /\ pre = ptn c) -> fwd (links s) this p rest ->
  Z.of_nat (size (tprocs s)) < 2 ^ 31 - 2 -> (length rest < m)%nat ->
  exists s' live' zomb' credit', while m (exit_turn ch_off pt_off this rp) (pre, p) s = Ret (tt, s') /\ tree_inv (Some this) s' live' zomb' credit' /\
    handed this rp s s' live zomb live' zomb' credit credit' /\ live' this = [] /\ zomb' this = [].
Proof.
  induction rest as [|d rest IH]; intros m pre p s live zomb credit xt xr pl H Hne Ht Hr Hroot Hkids Hpre Hfwd Hsz Hm; (destruct m as [|m]; [simpl in Hm; lia|]); rewrite while_S; unfold exit_turn at 1;
    destruct (give_pre this rp s live zomb credit xt xr pl pre p _ H Hne Ht Hr Hroot Hkids Hpre Hfwd Hsz) as (s1 & live1 & zomb1 & credit1 & E1 & H1 & Hh1 & Hk1 & Hf1);
    rewrite bind_assoc, (bind_Ret _ _ _ _ _ E1).
  - cbn [fwd] in Hf1. rewrite Hf1, Z.eqb_refl. apply app_nil in Hk1 as [El Ez]. exists s1, live1, zomb1, credit1. by split.
  - cbn [fwd] in Hf1. destruct Hf1 as (-> & n & Hn & Hf1).
    assert (Hin : d ∈ live1 this ++ zomb1 this) by (rewrite Hk1; by left).
    destruct (ti_kid _ _ _ _ _ _ _ _ H1 this d Hin) as (Hts & _ & _ & xd & Hxd & _).
    rewrite (proj2 (Z.eqb_neq (ptn d) (ch this))).
    2:{ intros E2. symmetry in E2. by apply (ti_sep _ _ _ _ _ _ _ _ H1 this d Hts ltac:(by eexists)). }
    rewrite bind_assoc, (bind_Ret _ _ _ _ _ (on_links_Ret _ s1 _ _ (get_next_Ret _ _ _ Hn))). rewrite (bind_Ret (ret _) _ _ _ _ eq_refl).
    assert (Es : set_links (fun _ => links s1) s1 = s1) by (by destruct s1). rewrite Es.
    destruct (tree_step_get _ _ this xt (hd_step _ _ _ _ _ _ _ _ _ _ Hh1) Ht) as (xt1 & Ht1 & (_ & _ & _ & _ & Ec & _)).
    destruct (tree_step_get _ _ rp xr (hd_step _ _ _ _ _ _ _ _ _ _ Hh1) Hr) as (xr1 & Hr1 & _).
    destruct (IH m (ptn d) n s1 live1 zomb1 credit1 xt1 xr1 [d] H1 Hne Ht1 Hr1) as (s2 & live2 & zomb2 & credit2 & E2 & H2 & Hh2 & El & Ez).
    + by rewrite Ec, (tree_step_root _ _ (hd_step _ _ _ _ _ _ _ _ _ _ Hh1)).
    + done.
    + right. by exists d.
    + done.
    + by rewrite (tree_step_size _ _ (hd_step _ _ _ _ _ _ _ _ _ _ Hh1)).
    + simpl in Hm. lia.
    + exists s2, live2, zomb2, credit2. split; [exact E2|]. split; [done|]. split; [|by split]. eapply handed_trans; [|exact Hh1|exact Hh2].
      intros q Hq. rewrite Hkids. rewrite Hk1 in Hq. apply elem_of_app. by right.
Qed.

(** ** The end of [exit] *)
Lemma detach_frame l head l1 p l2 :
  ring l (head :: l1 ++ p :: l2) ->
  exists v l', _detach_from_list p l = Ret (v, l') /\ ring l' (head :: l1 ++ l2) /\ ring l' [p] /\ forall c, c ∉ head :: l1 ++ p :: l2 -> l' !! c = l !! c.
Proof.
  intros Hr. change (head :: l1 ++ p :: l2) with ((head :: l1) ++ p :: l2) in Hr. apply ring_rotate in Hr. rewrite <- app_comm_cons in Hr.
  destruct (l2 ++ head :: l1) as [|b k] eqn:El; [by destruct l2|].
  destruct (detach_from_list_ring _ _ _ _ Hr) as (l' & E & Hr' & Hp & Hf). exists (lst b k), l'. split; [done|].
  rewrite <- El in Hr', Hf. split; [by apply ring_rotate in Hr'|]. split; [done|]. intros c Hc. apply Hf. set_solver.
Qed.

(** Fields that the tree does not depend on. *)
Lemma inv_change ex s s' live zomb credit credit' :
  tree_inv ex s live zomb credit -> links s' = links s -> rootprocs s' = rootprocs s ->
  (forall q, match tprocs s !! q with
     | None => tprocs s' !! q = None
     | Some x => exists x', tprocs s' !! q = Some x' /\ parent x' = parent x /\ (t_state x' = t_state x \/ (t_state x <> ZOMBIE /\ t_state x' <> ZOMBIE)) /\ t_container x' = t_container x /\
         sem_inv (childexit x') /\ 0 <= credit' q /\
         (Some q <> ex -> t_state x' <> ZOMBIE -> Z.of_nat (length (zomb q)) = val (sem (childexit x')) + Z.of_nat (length (sleeplist (sem (childexit x')))) + credit' q)
     end) -> tree_inv ex s' live zomb credit'.
Proof.
  intros H El Er Hp.
  assert (Hb : forall q x', tprocs s' !! q = Some x' -> exists x, tprocs s !! q = Some x /\ parent x' = parent x /\ (t_state x' = ZOMBIE <-> t_state x = ZOMBIE) /\ t_container x' = t_container x).
  { intros q x' Hx'. specialize (Hp q). destruct (tprocs s !! q) as [x|]; [|congruence]. destruct Hp as (x2 & E & Hpa & Hs & Hco & _). rewrite Hx' in E. injection E as <-. exists x.
    split; [done|]. split; [done|]. split; [|done]. destruct Hs as [->|[? ?]]; [done|]. by split. }
  assert (Hf : forall q x, tprocs s !! q = Some x -> exists x', tprocs s' !! q = Some x' /\ parent x' = parent x /\ (t_state x' = ZOMBIE <-> t_state x = ZOMBIE) /\ t_container x' = t_container x).
  { intros q x Hx. pose proof (Hp q) as Hq. rewrite Hx in Hq. destruct Hq as (x' & Hx' & _). exists x'. split; [done|]. destruct (Hb q x' Hx') as (x2 & E & ?). rewrite Hx in E. by injection E as <-. }
  assert (Hs : forall q, is_Some (tprocs s' !! q) <-> is_Some (tprocs s !! q)).
  { intros q. split; [intros [x' (x & ? & _)%Hb]|intros [x (x' & ? & _)%Hf]]; by eexists. }
  split; rewrite ?El, ?Er.
  - intros p Hq. apply (ti_ring _ _ _ _ _ _ _ _ H). by apply Hs.
  - intros p Hq. apply (ti_node _ _ _ _ _ _ _ _ H). by apply Hs.
  - intros p q Hq1 Hq2. apply (ti_sep _ _ _ _ _ _ _ _ H); by apply Hs.
  - intros p c Hc. destruct (ti_kid _ _ _ _ _ _ _ _ H p c Hc) as (? & ? & ? & x & Hx & Hpar). destruct (Hf c x Hx) as (x' & Hx' & E & _).
    split; [by apply Hs|]. split; [done|]. split; [done|]. exists x'. by rewrite E.
  - apply (ti_nodup _ _ _ _ _ _ _ _ H).
  - intros c x' Hx'. destruct (Hb c x' Hx') as (x & Hx & -> & _). by apply (ti_child _ _ _ _ _ _ _ _ H).
  - intros p c x' Hc Hx' Hz. destruct (Hb c x' Hx') as (x & Hx & _ & E & _). apply E in Hz. by apply (ti_live _ _ _ _ _ _ _ _ H p c x Hc Hx).
  - intros p c x' Hc Hx'. destruct (Hb c x' Hx') as (x & Hx & _ & E & _). apply E. by apply (ti_zomb _ _ _ _ _ _ _ _ H p c x Hc Hx).
  - intros p x' Hx'. pose proof (Hp p) as Hq. destruct (Hb p x' Hx') as (x & Hx & _). rewrite Hx in Hq. destruct Hq as (x2 & E & _ & _ & _ & A). rewrite Hx' in E. by injection E as <-.
  - intros p x' Hx' Hz. destruct (Hb p x' Hx') as (x & Hx & _ & E & _). apply (ti_dead _ _ _ _ _ _ _ _ H p x Hx). by apply E.
  - intros c r Hr. destruct (ti_reaper _ _ _ _ _ _ _ _ H c r Hr) as (x & Hx & Hz & Hc & Hout). destruct (Hf r x Hx) as (x' & Hx' & E1 & E2 & E3). exists x'.
    rewrite E1, E3. split; [done|]. split; [intros Hz'; by apply Hz, E2|]. split; [done|]. intros Hroot xp Hxp. destruct (Hb _ xp Hxp) as (xp0 & Hxp0 & _ & _ & ->). by apply Hout.
  - destruct (ti_root _ _ _ _ _ _ _ _ H) as (x & Hx & Hr). destruct (Hf _ x Hx) as (x' & Hx' & _ & _ & E). exists x'. by rewrite E.
  - destruct (tprocs s' !! 0) as [x'|] eqn:E; [|done]. destruct (Hb 0 x' E) as (x & Hx & _). by rewrite (ti_null _ _ _ _ _ _ _ _ H) in Hx.
Qed.

Lemma inv_same ex s s' live zomb credit :
  tree_inv ex s live zomb credit -> links s' = links s -> rootprocs s' = rootprocs s ->
  (forall q, match tprocs s !! q with
     | None => tprocs s' !! q = None
     | Some x => exists x', tprocs s' !! q = Some x' /\ parent x' = parent x /\ (t_state x' = t_state x \/ (t_state x <> ZOMBIE /\ t_state x' <> ZOMBIE)) /\ t_container x' = t_container x /\ childexit x' = childexit x
     end) -> tree_inv ex s' live zomb credit.
Proof.
  intros H El Er Hp. apply (inv_change ex s s' live zomb credit credit H El Er). intros q. specialize (Hp q). destruct (tprocs s !! q) as [x|] eqn:Ex; [|done].
  destruct Hp as (x' & Hx' & E1 & E2 & E3 & E4). destruct (ti_sem _ _ _ _ _ _ _ _ H q x Ex) as (S1 & S2 & S3). exists x'. rewrite E4. split; [done|]. split; [done|]. split; [done|]. split; [done|]. split; [done|]. split; [done|].
  intros Hex Hz. apply S3; [done|]. destruct E2 as [E2|[? _]]; [by rewrite <- E2|done].
Qed.

(** From the end of the loop on: [this] goes behind its siblings, its parent
    is told, and it is a zombie. *)
Definition die (this : Z) : M tree_st unit :=
  on_links (init_list_node (ch this)) ;;;
  on_links (_detach_from_list (ptn this)) ;;;
  x <- get_tp this ;;
  on_links (insert_last (ch (parent x)) (ptn this)) ;;;
  on_sem (parent x) _post_sem ;;;
  release_tree ;;;
  put_tp this (t_with_state ZOMBIE).

Lemma set_links_twice a b s : set_links (fun _ => a) (set_links (fun _ => b) s) = set_links (fun _ => a) s.
Proof. done. Qed.

Lemma die_Ret this s live zomb credit xt :
  tree_inv (Some this) s live zomb credit -> tprocs s !! this = Some xt -> t_state xt <> ZOMBIE -> parent xt <> 0 -> this <> root_proc ->
  live this = [] -> zomb this = [] -> (forall k, rootprocs s !! k <> Some this) -> Z.of_nat (size (tprocs s)) < 2 ^ 31 - 2 ->
  exists s' credit' xp l1 l2, die this s = Ret (tt, s') /\ tprocs s !! parent xt = Some xp /\ live (parent xt) = l1 ++ this :: l2 /\
    tree_inv None s' (kupd live (parent xt) (l1 ++ l2)) (kupd zomb (parent xt) (zomb (parent xt) ++ [this])) credit' /\
    (forall q, q <> parent xt -> credit' q = credit q) /\ tree_lock s' = false /\ tprocs s' !! this = Some (t_with_state ZOMBIE xt) /\
    (forall q x, q <> this -> tprocs s !! q = Some x -> exists x', tprocs s' !! q = Some x' /\ same_proc x x' /\ parent x' = parent x) /\
    rootprocs s' = rootprocs s /\ globalpidmap s' = globalpidmap s /\ pidmaps s' = pidmaps s /\ h s' = h s /\ hashpids s' = hashpids s /\ dom (tprocs s') = dom (tprocs s).
Proof.
  intros H Ht Hz Hpar Hroot El Ez Hnr Hsz. set (P := parent xt) in *.
  pose proof (ti_child _ _ _ _ _ _ _ _ H this xt Ht Hpar Hroot) as Hin. fold P in Hin. destruct (ti_kid _ _ _ _ _ _ _ _ H P this Hin) as ([xp HP] & HtP & _ & _).
  apply elem_of_app in Hin as [Hin|Hin]; [|by destruct Hz; eapply (ti_zomb _ _ _ _ _ _ _ _ H)]. apply list_elem_of_split in Hin as (l1 & l2 & Elive).
  assert (Hpz : t_state xp <> ZOMBIE). { intros Hpz. destruct (ti_dead _ _ _ _ _ _ _ _ H P xp HP Hpz) as [E _]. rewrite E in Elive. by destruct l1. }
  destruct (ti_node _ _ _ _ _ _ _ _ H this ltac:(by eexists)) as (Hn & Hn0 & Hc & Hc0).
  pose proof (ti_ring _ _ _ _ _ _ _ _ H P ltac:(by eexists) ltac:(congruence)) as Hring. rewrite Elive in Hring.
  set (la := <[ch this := mkNode (ch this) (ch this)]> (links s)).
  assert (Hcn : forall q, is_Some (tprocs s !! q) -> ch this <> ptn q) by (intros q Hq; by apply (ti_sep _ _ _ _ _ _ _ _ H this q ltac:(by eexists))).
  assert (Hca : forall q, q <> this -> is_Some (tprocs s !! q) -> ch this ∉ ch q :: (ptn <$> live q ++ zomb q)).
  { intros q Hq Hqs. rewrite elem_nodes. intros [E|(c & E & Hc')]; [by apply ch_inj in E|]. destruct (ti_kid _ _ _ _ _ _ _ _ H q c Hc') as (_ & _ & _ & x & Hx & _). by apply (Hcn c ltac:(by eexists)). }
  assert (Hringa : ring la (ch P :: (ptn <$> l1) ++ ptn this :: (ptn <$> l2 ++ zomb P))).
  { eapply ring_frame; [|intros a Ha; apply lookup_insert_ne]; [by rewrite <- app_assoc, fmap_app in Hring|].
    intros <-. apply (Hca P (not_eq_sym HtP) ltac:(by eexists)). rewrite Elive, <- app_assoc, fmap_app. exact Ha. }
  destruct (detach_frame _ _ _ _ _ Hringa) as (v & lb & Eb & Hringb & Hself & Hfb).
  rewrite <- fmap_app in Hringb.
  assert (Hnb : is_Some (lb !! ptn this)) by (eapply ring_alloc; [exact Hself|by left]).
  pose proof (ti_nodup _ _ _ _ _ _ _ _ H P) as Hnd. rewrite Elive in Hnd.
  assert (Hni : this ∉ l1 ++ l2 ++ zomb P). { rewrite <- app_assoc in Hnd. simpl in Hnd. apply NoDup_app in Hnd as (_ & Hd & Hn2). apply NoDup_cons in Hn2 as [Hn2 _]. rewrite elem_of_app. intros [Hi|Hi]; [by apply (Hd this Hi); left|done]. }
  assert (Hninb : ptn this ∉ ch P :: (ptn <$> l1 ++ l2 ++ zomb P)).
  { rewrite elem_nodes. intros [E|(c & E & Hc')]; [symmetry in E; by apply (ti_sep _ _ _ _ _ _ _ _ H P this ltac:(by eexists) ltac:(by eexists))|]. by apply ptn_inj in E as <-. }
  destruct (insert_last_ring lb (ch P) (ptn <$> l1 ++ l2 ++ zomb P) (ptn this) Hringb Hnb Hn0 Hninb) as (lc & Ec & Hringc & Hfc).
  destruct (ti_sem _ _ _ _ _ _ _ _ H P xp HP) as (Hsem & Hcp & Hcount). specialize (Hcount ltac:(congruence) Hpz).
  destruct (post_spec (childexit xp) Hsem) as (sm & woken & Ep & Hsem' & Hw & Hcw); [eapply post_bound; [exact H|exact HP|congruence|done|done]|].
  set (sa := set_links (fun _ => la) s). set (sb := set_links (fun _ => lb) s). set (sc := set_links (fun _ => lc) s).
  set (sd := set_tprocs <[P := with_childexit sm xp]> sc). set (se := set_tree_lock false sd). set (s' := set_tprocs <[this := t_with_state ZOMBIE xt]> se).
  assert (Ht' : tprocs se !! this = Some xt) by (cbn [tprocs se sd sc set_tprocs set_links set_tree_lock]; by rewrite lookup_insert_ne).
  exists s', (fun q => if decide (q = P) then credit q + woken else credit q), xp, l1, l2. split.
  { unfold die. rewrite (bind_Ret _ _ _ _ _ (on_links_Ret _ s _ _ (init_list_node_spec _ _ Hc))). fold la sa.
    rewrite (bind_Ret _ _ _ _ _ (on_links_Ret _ sa _ _ Eb)). change (set_links (fun _ => lb) sa) with sb.
    rewrite (bind_Ret _ _ _ _ _ (get_tp_Ret this sb xt Ht)). fold P. rewrite (bind_Ret _ _ _ _ _ (on_links_Ret _ sb _ _ Ec)). change (set_links (fun _ => lc) sb) with sc.
    rewrite (bind_Ret _ _ _ _ _ (on_sem_Ret P _ sc xp tt sm HP Ep)). fold sd. rewrite (bind_Ret release_tree _ sd tt se eq_refl).
    by rewrite (put_tp_Ret this _ se xt Ht'). }
  split; [done|]. split; [done|].
  assert (Hlook : forall q, tprocs s' !! q = if decide (q = this) then Some (t_with_state ZOMBIE xt) else if decide (q = P) then Some (with_childexit sm xp) else tprocs s !! q).
  { intros q. cbn [tprocs s' se sd sc set_tprocs set_links set_tree_lock]. destruct (decide (q = this)) as [->|Hq]; [apply lookup_insert_eq|]. rewrite lookup_insert_ne by done.
    destruct (decide (q = P)) as [->|Hq2]; [apply lookup_insert_eq|by rewrite lookup_insert_ne]. }
  split; [|split; [intros q Hq; by rewrite decide_False|split; [done|split; [rewrite Hlook; by rewrite decide_True|split; [|repeat split; try done]]]]].
  - assert (Hmk : forall q, kupd live P (l1 ++ l2) q ++ kupd zomb P (zomb P ++ [this]) q = if decide (q = P) then (l1 ++ l2 ++ zomb P) ++ [this] else live q ++ zomb q).
    { intros q. unfold kupd. destruct (decide (q = P)); [by rewrite <- !app_assoc|done]. }
    assert (Hcnot : forall q, q <> P -> this ∉ live q ++ zomb q).
    { intros q Hq Hcq. destruct (ti_kid _ _ _ _ _ _ _ _ H q this Hcq) as (_ & _ & _ & x2 & Hx2 & Hp2). rewrite Ht in Hx2. injection Hx2 as <-. by apply Hq. }
    assert (HinP : forall d, d ∈ live P ++ zomb P <-> d = this \/ d ∈ l1 ++ l2 ++ zomb P).
    { intros d. rewrite Elive, <- app_assoc. simpl. rewrite !elem_of_app, elem_of_cons, elem_of_app. tauto. }
    assert (Hlc : forall a, a ∉ ptn this :: ch P :: (ptn <$> l1 ++ l2 ++ zomb P) -> a <> ch this -> lc !! a = links s !! a).
    { intros a Ha Hat. rewrite Hfc by done. rewrite Hfb; [by apply lookup_insert_ne, not_eq_sym|]. rewrite elem_of_cons, elem_of_app, elem_of_cons.
      rewrite !elem_of_cons, fmap_app, elem_of_app in Ha. tauto. }
    eapply (place_inv _ _ _ (Some this) None s s' live zomb credit); [exact H|exact Ht|exact HP|by apply not_eq_sym|exact Hroot|exact Hpz| | | |].
    + intros k Hk. by destruct (Hnr k).
    + intros _. unfold kupd. rewrite !decide_False by (by apply not_eq_sym). done.
    + split; [|done| | | | |].
      * intros q. rewrite Hlook. destruct (decide (q = this)) as [->|Hq].
        { rewrite Ht. exists (t_with_state ZOMBIE xt). split; [done|]. split; [done|]. split; [done|]. split; [done|].
          destruct (ti_sem _ _ _ _ _ _ _ _ H this xt Ht) as (Hs & Hc1 & _). split; [done|]. rewrite decide_False by (by apply not_eq_sym). by split. }
        destruct (decide (q = P)) as [->|Hqp].
        { rewrite HP. exists (with_childexit sm xp). split; [done|]. split; [done|]. split; [done|]. split; [done|]. split; [done|]. split; [lia|].
          intros _ _. rewrite kupd_eq, length_app. cbn [childexit with_childexit]. simpl. lia. }
        destruct (tprocs s !! q) as [x|] eqn:Eq; [|done]. exists x. split; [done|]. split; [done|]. split; [done|]. split; [done|].
        destruct (ti_sem _ _ _ _ _ _ _ _ H q x Eq) as (Hs & Hc1 & Hn1). split; [done|]. split; [done|]. intros _ Hz1. rewrite kupd_ne by done. apply Hn1; [congruence|done].
      * intros d q. rewrite Hmk. destruct (decide (q = P)) as [->|Hq].
        { rewrite elem_of_app, list_elem_of_singleton, HinP. split; [intros [Hd| ->]; [left; split; [by intros ->|by right]|by right]|intros [[Hd [?|?]]|[-> _]]; [done|by left|by right]]. }
        specialize (Hcnot q Hq). split; [intros Hd; left; split; [by intros ->|done]|intros [[_ Hd]|[_ ?]]; done].
      * intros q. rewrite Hmk. destruct (decide (q = P)) as [->|Hq]; [|apply (ti_nodup _ _ _ _ _ _ _ _ H q)]. apply NoDup_app. split; [|split; [set_solver|apply NoDup_singleton]].
        rewrite <- app_assoc in Hnd. simpl in Hnd. apply NoDup_app in Hnd as (N1 & N2 & [_ N3]%NoDup_cons). apply NoDup_app. split; [done|]. split; [|done]. intros d Hd Hd2. apply (N2 d Hd). by right.
      * intros d q. unfold kupd. destruct (decide (q = P)) as [->|Hq].
        { intros Hd. left. split; [rewrite Elive; rewrite elem_of_app, elem_of_cons; rewrite elem_of_app in Hd; tauto|]. intros ->. apply Hni. rewrite elem_of_app in Hd. rewrite !elem_of_app. tauto. }
        intros Hd. left. split; [done|]. intros ->. apply (Hcnot q Hq). apply elem_of_app. by left.
      * intros d q. unfold kupd. destruct (decide (q = P)) as [->|Hq].
        { intros [Hd| ->%list_elem_of_singleton]%elem_of_app; [|by right]. left. split; [done|]. intros ->. apply Hni. rewrite !elem_of_app. tauto. }
        intros Hd. left. split; [done|]. intros ->. apply (Hcnot q Hq). apply elem_of_app. by right.
      * intros a Ha. cbn [links s' se sd sc set_tprocs set_links set_tree_lock]. destruct (decide (a ∈ ptn this :: ch P :: (ptn <$> l1 ++ l2 ++ zomb P))) as [Hi|Hi].
        { eapply ring_alloc; [exact Hringc|]. rewrite elem_of_cons, elem_of_app, list_elem_of_singleton. rewrite !elem_of_cons in Hi. tauto. }
        destruct (decide (a = ch this)) as [->|Hat]; [|by rewrite Hlc]. rewrite Hfc by done. rewrite Hfb; [unfold la; rewrite lookup_insert_eq; by eexists|].
        rewrite elem_of_cons, elem_of_app, elem_of_cons. rewrite !elem_of_cons, fmap_app, elem_of_app in Hi. tauto.
    + intros q Hq _. rewrite Hmk. cbn [links s' se sd sc set_tprocs set_links set_tree_lock]. destruct (decide (q = P)) as [->|Hqp].
      { rewrite (fmap_app _ (l1 ++ l2 ++ zomb P)). exact Hringc. }
      destruct (decide (q = this)) as [->|Hqt].
      { rewrite El, Ez. assert (Elc : lc !! ch this = Some (mkNode (ch this) (ch this))).
        { rewrite Hfc, Hfb; [apply lookup_insert_eq| |].
          - intros Hi. apply (Hca P (not_eq_sym HtP) ltac:(by eexists)). rewrite Elive, <- app_assoc, fmap_app. exact Hi.
          - intros [E|Hi]%elem_of_cons; [by apply (Hcn this ltac:(by eexists))|]. apply (Hca P (not_eq_sym HtP) ltac:(by eexists)).
            rewrite elem_nodes in *. destruct Hi as [?|(c & E & Hc')]; [by left|right]. exists c. split; [done|]. apply HinP. by right. }
        eapply ring_frame; [apply (ring_single ∅ (ch this) Hc0)|]. intros a ->%list_elem_of_singleton. by rewrite Elc, lookup_insert_eq. }
      eapply ring_frame; [apply (ti_ring _ _ _ _ _ _ _ _ H q Hq); congruence|]. intros a Ha. apply Hlc.
      * intros [->|Ha']%elem_of_cons.
        { apply elem_nodes in Ha as [E|(d & E & Hd)]; [symmetry in E; by apply (ti_sep _ _ _ _ _ _ _ _ H q this Hq ltac:(by eexists))|]. apply ptn_inj in E as <-. by apply (Hcnot q). }
        apply (rings_apart _ _ _ _ _ _ _ _ q P a H Hq ltac:(by eexists) Hqp Ha). rewrite elem_nodes in *. destruct Ha' as [?|(c & E & Hc')]; [by left|right]. exists c. split; [done|]. apply HinP. by right.
      * intros ->. by apply (Hca q Hqt Hq).
  - intros q x Hq Hx. rewrite Hlook, decide_False by done. destruct (decide (q = P)) as [->|]; [rewrite HP in Hx; injection Hx as <-|]; (eexists; split; [done|]); by repeat split.
  - apply set_eq. intros q. rewrite !elem_of_dom, Hlook. destruct (decide (q = this)) as [->|]; [split; by eexists|]. destruct (decide (q = P)) as [->|]; [split; by eexists|done].
Qed.

(** ** exit *)
Lemma tree_inv_ex p s live zomb credit : tree_inv None s live zomb credit -> tree_inv (Some p) s live zomb credit.
Proof.
  intros [A1 A2 A3 A4 A5 A6 A7 A8 A9 A10 A11 A12 A13]. split; try done; [intros q Hq _; by apply A1|].
  intros q x Hq. destruct (A9 q x Hq) as (? & ? & Hn). split; [done|]. split; [done|]. intros _. by apply Hn.
Qed.

Lemma reaper_out s live zomb credit this rp x k :
  tree_inv None s live zomb credit -> tprocs s !! this = Some x -> rootprocs s !! t_container x = Some rp -> this <> rp -> this <> root_proc /\ rootprocs s !! k <> Some this.
Proof.
  intros H Hx Hrp Hne. split; [|intros Hk].
  - intros ->. destruct (ti_root _ _ _ _ _ _ _ _ H) as (x' & Hx' & Hr). rewrite Hx in Hx'. injection Hx' as <-. congruence.
  - destruct (ti_reaper _ _ _ _ _ _ _ _ H k this Hk) as (x' & Hx' & _ & E & _). rewrite Hx in Hx'. injection Hx' as <-. congruence.
Qed.

(** Where the children of [this] have gone. *)
Definition live_to (live : Z -> list Z) (this rp : Z) : Z -> list Z := kupd live rp (reverse (live this) ++ live rp).
Definition zomb_to (zomb : Z -> list Z) (this rp : Z) : Z -> list Z := kupd zomb rp (zomb rp ++ zomb this).

Lemma exit_Ret this code s live zomb credit x rp :
  tree_inv None s live zomb credit -> tree_lock s = false -> tprocs s !! this = Some x -> t_state x <> ZOMBIE -> t_idle x = false ->
  rootprocs s !! t_container x = Some rp -> this <> rp -> parent x <> 0 -> Z.of_nat (size (tprocs s)) < 2 ^ 31 - 2 ->
  exists s' live' zomb' credit' l1 l2, exit ch_off pt_off this code s = Ret (tt, s') /\ tree_inv None s' live' zomb' credit' /\ tree_lock s' = false /\
    (exists x', tprocs s' !! this = Some x' /\ t_state x' = ZOMBIE /\ exitcode x' = code /\ t_pid x' = t_pid x /\ t_localpid x' = t_localpid x /\ t_container x' = t_container x /\ parent x' = parent x) /\
    live' this = [] /\ zomb' this = [] /\
    live_to live this rp (parent x) = l1 ++ this :: l2 /\ live' (parent x) = l1 ++ l2 /\ zomb' (parent x) = zomb_to zomb this rp (parent x) ++ [this] /\
    (forall q, q <> this -> q <> parent x -> live' q = live_to live this rp q /\ zomb' q = zomb_to zomb this rp q) /\
    (forall q, q <> rp -> q <> parent x -> credit' q = credit q) /\
    (forall q y, q <> this -> tprocs s !! q = Some y -> exists y', tprocs s' !! q = Some y' /\ same_proc y y' /\
       parent y' = if decide (q ∈ live this ++ zomb this) then rp else parent y) /\
    rootprocs s' = rootprocs s /\ globalpidmap s' = globalpidmap s /\ pidmaps s' = pidmaps s /\ h s' = h s /\ hashpids s' = hashpids s /\ dom (tprocs s') = dom (tprocs s).
Proof.
  intros H Hlk Ht Hz Hidle Hrp Hne Hpar Hsz. destruct (reaper_out _ _ _ _ this rp x 0 H Ht Hrp Hne) as [Hroot _].
  assert (Hnr : forall k, rootprocs s !! k <> Some this) by (intros k; apply (reaper_out _ _ _ _ this rp x k H Ht Hrp Hne)).
  pose proof (ti_child _ _ _ _ _ _ _ _ H this x Ht Hpar Hroot) as Hme. destruct (ti_kid _ _ _ _ _ _ _ _ H _ this Hme) as (_ & HtP & _ & _).
  set (xc := with_exitcode code x). set (s0 := set_tree_lock true (set_tprocs <[this := xc]> s)).
  assert (Hlk0 : forall q, tprocs s0 !! q = if decide (q = this) then Some xc else tprocs s !! q).
  { intros q. cbn [tprocs s0 set_tprocs set_tree_lock]. destruct (decide (q = this)) as [->|]; [apply lookup_insert_eq|by rewrite lookup_insert_ne]. }
  assert (H0 : tree_inv (Some this) s0 live zomb credit).
  { apply tree_inv_ex, (inv_same _ s _ _ _ _ H); [done|done|]. intros q. rewrite Hlk0. destruct (decide (q = this)) as [->|Hq].
    - rewrite Ht. exists xc. repeat split; try done. by left.
    - destruct (tprocs s !! q) as [y|]; [|done]. exists y. repeat split; try done. by left. }
  assert (Ht0 : tprocs s0 !! this = Some xc) by (by rewrite Hlk0, decide_True).
  destruct (ti_reaper _ _ _ _ _ _ _ _ H _ rp Hrp) as (xr & Hxr & Hrz & _ & _).
  assert (Hr0 : tprocs s0 !! rp = Some xr) by (by rewrite Hlk0, decide_False by done).
  assert (Hszs : size (tprocs s0) = size (tprocs s)) by (cbn [tprocs s0 set_tprocs set_tree_lock]; apply map_size_insert_Some; by eexists).
  destruct (ring_fwd _ _ _ (ti_ring _ _ _ _ _ _ _ _ H this ltac:(by eexists) ltac:(done))) as (n & Hn & Hf).
  pose proof (kids_bound _ _ _ _ _ _ _ _ this H) as Hkb.
  destruct (exit_loop this rp (live this ++ zomb this) (S (size (tprocs s0))) 0 n s0 live zomb credit xc xr []) as (s1 & live1 & zomb1 & credit1 & E1 & H1 & Hh & El & Ez);
    [done|done|done|done|exact Hrp|done|by left|exact Hf|lia|lia|].
  destruct Hh as [Hst Hl1 Hz1 Hoth Hcr Hps]. rewrite El in Hl1. rewrite Ez, app_nil_r in Hz1. cbn in Hl1.
  destruct (tree_step_get _ _ this xc Hst Ht0) as (x1 & Hx1 & (P1 & P2 & P3 & P4 & P5 & P6 & P7)).
  assert (Hthis : this ∉ live this ++ zomb this) by (intros Hi; by destruct (ti_kid _ _ _ _ _ _ _ _ H this this Hi) as (_ & ? & _)).
  pose proof (Hps this xc x1 Hthis Ht0 Hx1) as Epar. change (parent xc) with (parent x) in Epar.
  destruct Hst as [(R1 & R2 & R3 & R4 & R5 & R6) Hst].
  destruct (die_Ret this s1 live1 zomb1 credit1 x1) as (s2 & credit2 & xp & l1 & l2 & E2 & HP & Elive & H2 & Hcr2 & Hlk2 & Hme2 & Hoth2 & Q1 & Q2 & Q3 & Q4 & Q5 & Q6);
    [done|done|by rewrite P4|congruence|done|done|done|by rewrite R2|rewrite (tree_step_size s0 s1) by (by split); lia|].
  rewrite Epar in *.
  assert (EL : forall q, q <> this -> live1 q = live_to live this rp q) by (intros q Hq; unfold live_to, kupd; destruct (decide (q = rp)) as [->|Hq']; [done|by apply Hoth]).
  assert (EZ : forall q, q <> this -> zomb1 q = zomb_to zomb this rp q) by (intros q Hq; unfold zomb_to, kupd; destruct (decide (q = rp)) as [->|Hq']; [done|by apply Hoth]).
  eexists s2, _, _, credit2, l1, l2. split; [|split; [exact H2|split; [done|]]].
  { unfold exit. rewrite (bind_Ret _ _ _ _ _ (get_tp_Ret this s x Ht)). rewrite (bind_Ret (gets _) _ s _ _ eq_refl), Hrp.
    rewrite (proj2 (Z.eqb_neq this rp) Hne), Hidle. rewrite (bind_Ret _ _ s _ _ eq_refl). rewrite (bind_Ret _ _ _ _ _ (put_tp_Ret this _ s x Ht)). fold xc.
    rewrite (bind_Ret acquire_tree _ _ tt s0); [|unfold acquire_tree; rewrite (bind_Ret (gets tree_lock) _ _ _ _ eq_refl); cbn [tree_lock set_tprocs]; by rewrite Hlk].
    rewrite (bind_Ret _ _ s0 n s0 (on_links_Ret _ s0 _ _ (get_next_Ret _ _ _ Hn))).
    rewrite (bind_Ret (gets _) _ s0 _ _ eq_refl). rewrite (bind_Ret _ _ _ _ _ E1). exact E2. }
  split; [exists (t_with_state ZOMBIE x1); by rewrite Hme2|].
  split; [by rewrite kupd_ne|]. split; [by rewrite kupd_ne|]. split; [by rewrite <- EL|]. split; [apply kupd_eq|]. split; [by rewrite kupd_eq, EZ|].
  split; [intros q Hq Hqp; rewrite !kupd_ne by done; by rewrite EL, EZ|]. split; [intros q Hq Hqp; by rewrite Hcr2, Hcr|].
  split; [|rewrite Q1, Q2, Q3, Q4, Q5, Q6, R2, R3, R4, R5, R6; repeat split].
  - intros q y Hq Hy. assert (Hy0 : tprocs s0 !! q = Some y) by (by rewrite Hlk0, decide_False).
    pose proof (Hst q) as Hq1. rewrite Hy0 in Hq1. destruct Hq1 as (y1 & Hy1 & S1). destruct (Hoth2 q y1 Hq Hy1) as (y2 & Hy2 & S2 & Ep). exists y2. split; [done|].
    split; [destruct S1 as (?&?&?&?&?&?&?), S2 as (?&?&?&?&?&?&?); repeat split; congruence|].
    destruct (decide (q ∈ live this ++ zomb this)) as [Hin|Hin]; [|rewrite Ep; by apply (Hps q y y1)].
    assert (Hqr : q ∈ live1 rp ++ zomb1 rp).
    { rewrite Hl1, Hz1. rewrite !elem_of_app, elem_of_reverse. apply elem_of_app in Hin. tauto. }
    destruct (ti_kid _ _ _ _ _ _ _ _ H1 rp q Hqr) as (_ & _ & _ & y1' & Hy1' & E). rewrite Hy1 in Hy1'. injection Hy1' as <-. by rewrite Ep.
  - apply set_eq. intros q. rewrite !elem_of_dom. specialize (Hst q). rewrite Hlk0 in Hst. destruct (decide (q = this)) as [->|]; [rewrite Ht; destruct Hst as (? & -> & _); split; eauto|].
    destruct (tprocs s !! q) as [y|]; [destruct Hst as (? & -> & _); split; eauto|rewrite Hst; done].
Qed.
End exit.
