(* ===== verification/ProcWait.v ===== *)
(** * Pids and wait (kernel/proc.c)

    [pid_inv]: every process has a pid of its own, used in the map of the
    system and found through the hash map, and, once started, a local pid used
    in the map of its container. [wait] reaps a zombie and keeps it. *)
From stdpp Require Import base gmap sets list.
From Stdlib Require Import ZArith Lia.
From S2P Require Import Prelude HashMap CList Bitmap Sem Sched ProcTree ProcExit.

Lemma hm_rep_ext f g m bs : (forall a, a ∈ members bs -> f a = g a) -> hm_rep f m bs -> hm_rep g m bs.
Proof.
  intros E [A1 A2 A3 A4 A5]. split; try done. intros i l a Hi Ha. rewrite <- E; [by eapply A4|].
  apply elem_of_list_to_set, list_elem_of_join. exists l. split; [done|]. by eapply list_elem_of_lookup_2.
Qed.


Record hash_inv (s : tree_st) : Prop := {
  pi_range : forall p x, tprocs s !! p = Some x -> 0 <= t_pid x < MAX_CONTAINER_PID;
  pi_hash : exists bs, hm_rep (hash s 0) (h s) bs /\ members bs = dom (hashpids s);
  pi_dom : dom (hashpids s) ⊆ dom (HashMap.next (h s));
  pi_node : forall hp x, hashpids s !! hp = Some x -> hp <> 0 /\ hp <> stack_node /\ exists y, tprocs s !! h_proc x = Some y /\ t_pid y = h_pid x;
  pi_of : forall p y, tprocs s !! p = Some y -> exists hp, hashpids s !! hp = Some (mkHashpid (t_pid y) p);
  pi_inj : forall a b x y, hashpids s !! a = Some x -> hashpids s !! b = Some y -> h_pid x = h_pid y -> a = b
}.

Record pid_inv (s : tree_st) : Prop := {
  pi_map : hash_inv s;
  pi_global : pid_wf (globalpidmap s);
  pi_used : forall p x, tprocs s !! p = Some x -> pid_used (globalpidmap s) (t_pid x) = true;
  pi_maps : forall p x, tprocs s !! p = Some x -> t_state x <> UNUSED ->
    exists pm, pidmaps s !! t_container x = Some pm /\ pid_wf pm /\ 0 <= t_localpid x < MAX_CONTAINER_PID /\ pid_used pm (t_localpid x) = true;
  pi_local : forall p q x y, tprocs s !! p = Some x -> tprocs s !! q = Some y -> p <> q -> t_state x <> UNUSED -> t_state y <> UNUSED ->
    t_container x = t_container y -> t_localpid x <> t_localpid y
}.

Lemma hash_inv_same s s' : hash_inv s -> (forall q, t_pid <$> tprocs s' !! q = t_pid <$> tprocs s !! q) -> h s' = h s -> hashpids s' = hashpids s -> hash_inv s'.
Proof.
  intros [A1 (bs & Hb & Hm) A3 A4 A5 A6] E1 E2 E3.
  assert (Hback : forall q y, tprocs s' !! q = Some y -> exists x, tprocs s !! q = Some x /\ t_pid y = t_pid x).
  { intros q y Hy. specialize (E1 q). rewrite Hy in E1. symmetry in E1. apply fmap_Some in E1 as (x & Hx & E). by exists x. }
  split; rewrite ?E2, ?E3; try done.
  - intros q y Hy. destruct (Hback q y Hy) as (x & Hx & ->). by apply (A1 q).
  - exists bs. split; [|done]. eapply hm_rep_ext; [|exact Hb]. intros a _. unfold hash, pid_at. by rewrite E3.
  - intros a y Hy. destruct (A4 a y Hy) as (? & ? & x & Hx & Ex). split; [done|]. split; [done|]. specialize (E1 (h_proc y)). rewrite Hx in E1.
    apply fmap_Some in E1 as (w & Hw & Ew). exists w. split; [done|congruence].
  - intros q y Hy. destruct (Hback q y Hy) as (x & Hx & ->). by apply A5.
Qed.

Lemma pid_distinct s p q x y : hash_inv s -> tprocs s !! p = Some x -> tprocs s !! q = Some y -> t_pid x = t_pid y -> p = q.
Proof.
  intros H Hp Hq E. destruct (pi_of _ H p x Hp) as [a Ha], (pi_of _ H q y Hq) as [b Hb].
  pose proof (pi_inj _ H a b _ _ Ha Hb E) as <-. rewrite Ha in Hb. by injection Hb.
Qed.

(** ** The hash map of pids *)
Lemma pid_at_nonneg s pid a : hash_inv s -> 0 <= pid -> 0 <= pid_at s pid a.
Proof.
  intros H Hp. unfold pid_at. case (a =? stack_node); [done|]. destruct (hashpids s !! a) as [x|] eqn:E; [|done].
  destruct (pi_node _ H a x E) as (_ & _ & y & Hy & <-). apply (pi_range _ H _ y Hy).
Qed.

Lemma hash_range s pid : hash_inv s -> 0 <= pid -> forall a, 0 <= hash s pid a < HASHSIZE.
Proof.
  intros H Hp a. unfold hash, HASHSIZE. pose proof (pid_at_nonneg s pid a H Hp). rewrite Z.rem_mod_nonneg by lia. by apply Z.mod_pos_bound.
Qed.

Lemma hash_node s pid a x : hash_inv s -> hashpids s !! a = Some x -> pid_at s pid a = h_pid x.
Proof. intros H Ha. destruct (pi_node _ H a x Ha) as (_ & Hn & _). unfold pid_at. by rewrite (proj2 (Z.eqb_neq a stack_node)), Ha. Qed.

Lemma rep_at s pid bs : hash_inv s -> hm_rep (hash s 0) (h s) bs -> members bs = dom (hashpids s) -> hm_rep (hash s pid) (h s) bs.
Proof.
  intros H Hr E. eapply hm_rep_ext; [|exact Hr]. intros a. rewrite E. intros [x Hx]%elem_of_dom. unfold hash. by rewrite !(hash_node s _ a x H Hx).
Qed.

Lemma map_room s bs : hash_inv s -> members bs = dom (hashpids s) -> (size (members bs) < S (size (dom (HashMap.next (h s)))))%nat.
Proof. intros H ->. pose proof (subseteq_size _ _ (pi_dom _ H)). lia. Qed.

Lemma on_h_Ret {A} (m : M hash_map A) s a m' : m (h s) = Ret (a, m') -> on_h m s = Ret (a, set_h m' s).
Proof. intros E. unfold on_h, zoom. by rewrite E. Qed.

(** A search finds the node of the process with that pid, or none has it. *)
Lemma lookup_pid_Ret s pid :
  hash_inv s -> 0 <= pid -> exists r, lookup_pid pid s = Ret (r, s) /\
    (r <> 0 -> exists x, hashpids s !! r = Some x /\ h_pid x = pid) /\ (r = 0 -> forall p x, tprocs s !! p = Some x -> t_pid x <> pid).
Proof.
  intros H Hp. destruct (pi_hash _ H) as (bs & Hr & Em). pose proof (rep_at s pid bs H Hr Em) as Hr'.
  destruct (lookup_spec (hash s pid) (hash_range s pid H Hp) (hashcmp s pid) (h s) bs stack_node _ Hr' (map_room s bs H Em)) as (r & E & Hin & Hno).
  exists r. split; [|split].
  - unfold lookup_pid, map_fuel. rewrite (bind_Ret (gets _) _ s _ s eq_refl). rewrite (on_h_Ret _ s _ _ E). by destruct s.
  - intros Hr0. destruct (Hin Hr0) as (Hm & _ & Hc). rewrite Em in Hm. apply elem_of_dom in Hm as [x Hx]. exists x. split; [done|].
    unfold hashcmp in Hc. apply Z.eqb_eq in Hc. by rewrite (hash_node s pid r x H Hx) in Hc.
  - intros -> p x Hx Epid. destruct (pi_of _ H p x Hx) as [hp Hhp]. assert (Hm : hp ∈ members bs) by (rewrite Em; apply elem_of_dom; by eexists).
    assert (Eat : pid_at s pid hp = pid_at s pid stack_node) by (rewrite (hash_node s pid hp _ H Hhp); done).
    specialize (Hno eq_refl hp Hm). unfold hash, hashcmp in Hno. rewrite Eat, Z.eqb_refl in Hno. specialize (Hno eq_refl). done.
Qed.

(** Erasing the node of a process. *)
Lemma free_hashpid_Ret s p x :
  hash_inv s -> tprocs s !! p = Some x -> exists hp m', free_hashpid (t_pid x) s = Ret (tt, set_hashpids (delete hp) (set_h m' s)) /\
    hashpids s !! hp = Some (mkHashpid (t_pid x) p) /\ dom (HashMap.next m') = dom (HashMap.next (h s)) /\
    exists bs', hm_rep (hash (set_hashpids (delete hp) (set_h m' s)) 0) m' bs' /\ members bs' = dom (delete hp (hashpids s)).
Proof.
  intros H Hx. pose proof (pi_range _ H p x Hx) as Hpid. destruct (lookup_pid_Ret s (t_pid x) H ltac:(lia)) as (r & E & Hr & Hno).
  destruct (decide (r = 0)) as [->|Hr0]; [by destruct (Hno eq_refl p x Hx)|]. destruct (Hr Hr0) as (y & Hy & Epid).
  destruct (pi_of _ H p x Hx) as [hp Hhp]. pose proof (pi_inj _ H r hp y _ Hy Hhp Epid) as ->.
  destruct (pi_hash _ H) as (bs & Hrep & Em). pose proof (rep_at s (t_pid x) bs H Hrep Em) as Hrep'.
  destruct (erase_spec (hash s (t_pid x)) (hash_range s (t_pid x) H ltac:(lia)) (h s) bs hp _ Hrep' (map_room s bs H Em)) as (m' & Ee & Ed & bs' & Hb' & Em').
  exists hp, m'. split; [|split; [done|split; [done|exists bs'; split]]].
  - unfold free_hashpid. rewrite (bind_Ret _ _ _ _ _ E), (proj2 (Z.eqb_neq hp 0)) by done. unfold map_fuel. rewrite (bind_Ret (gets _) _ s _ s eq_refl).
    by rewrite (bind_Ret (fun t => on_h (_hashmap_erase (hash t (t_pid x)) (S (size (dom (HashMap.next (h s))))) hp) t) _ s tt (set_h m' s) (on_h_Ret _ s _ _ Ee)).
  - eapply hm_rep_ext; [|exact Hb']. rewrite Em', Em. intros a [[z Hz]%elem_of_dom Ha%not_elem_of_singleton]%elem_of_difference.
    unfold hash, pid_at. destruct (pi_node _ H a z Hz) as (_ & Hs & _). rewrite !(proj2 (Z.eqb_neq a stack_node)) by done.
    cbn [hashpids set_hashpids set_h]. by rewrite lookup_delete_ne.
  - by rewrite Em', Em, dom_delete_L.
Qed.

Lemma free_pid_Ret pm pid :
  pid_wf pm -> 0 <= pid < MAX_CONTAINER_PID ->
  exists pm', free_pid pid pm = Ret (tt, pm') /\ pid_wf pm' /\ forall j, 0 <= j -> pid_used pm' j = if j =? pid then false else pid_used pm j.
Proof.
  intros [Hwf Hl] Hp. destruct (bitmap_clear_Ret _ _ _ Hwf Hp) as (bm' & E & Hwf' & Hb). exists (mkPidmap bm' (last_pid pm)).
  split; [by apply on_bitmap_Ret|]. by split.
Qed.

Lemma on_global_Ret {A} (m : M pidmap_t A) s a pm : m (globalpidmap s) = Ret (a, pm) -> on_global m s = Ret (a, set_global pm s).
Proof. intros E. unfold on_global, zoom. by rewrite E. Qed.
Lemma on_pidmap_Ret {A} c (m : M pidmap_t A) s pm a pm' : pidmaps s !! c = Some pm -> m pm = Ret (a, pm') -> on_pidmap c m s = Ret (a, set_pidmaps (insert c pm') s).
Proof. intros E1 E2. unfold on_pidmap. by rewrite E1, E2. Qed.

(** ** A process goes *)
Section wait.
Context (ch_off pt_off root_proc : Z).
Local Notation ch := (ch ch_off).
Local Notation ptn := (ptn pt_off).
Local Notation tree_inv := (tree_inv ch_off pt_off root_proc).

Lemma remove_inv s s' live zomb credit this zs z :
  tree_inv None s live zomb credit -> 1 <= credit this -> zomb this = zs ++ [z] -> (exists x, tprocs s !! this = Some x /\ t_state x <> ZOMBIE) ->
  tprocs s' = delete z (tprocs s) -> rootprocs s' = rootprocs s ->
  ring (links s') (ch this :: (ptn <$> live this ++ zs)) -> (forall a, a ∉ ch z :: ch this :: (ptn <$> live this ++ zomb this) -> links s' !! a = links s !! a) ->
  tree_inv None s' live (kupd zomb this zs) (fun q => if decide (q = this) then credit q - 1 else credit q).
Proof.
  intros H Hcr Ez (xt & Ht & Htz) Et Er Hring Hf.
  assert (Hz : z ∈ live this ++ zomb this) by (rewrite Ez, !elem_of_app, list_elem_of_singleton; tauto).
  destruct (ti_kid _ _ _ _ _ _ _ _ H this z Hz) as (_ & Hzt & Hzr & xz & Hxz & Hzp).
  assert (Hzz : t_state xz = ZOMBIE) by (apply (ti_zomb _ _ _ _ _ _ _ _ H this z xz); [rewrite Ez; set_solver|done]).
  destruct (ti_dead _ _ _ _ _ _ _ _ H z xz Hxz Hzz) as [Dl Dz].
  pose proof (ti_nodup _ _ _ _ _ _ _ _ H this) as Hnd. rewrite Ez, app_assoc in Hnd. apply NoDup_app in Hnd as (Hnd1 & Hnd2 & _).
  assert (Hk : forall c q, c ∈ live q ++ kupd zomb this zs q <-> c ∈ live q ++ zomb q /\ c <> z).
  { intros c q. unfold kupd. destruct (decide (q = this)) as [->|Hq].
    - rewrite Ez, app_assoc, (elem_of_app (live this ++ zs)), list_elem_of_singleton. split; [intros Hc; split; [by left|]|intros [[?|?] ?]; done].
      intros ->. apply (Hnd2 z Hc). by left.
    - split; [|by intros [? _]]. intros Hc. split; [done|]. intros ->. destruct (ti_kid _ _ _ _ _ _ _ _ H q z Hc) as (_ & _ & _ & x & Hx & Hp). congruence. }
  assert (Hzn : forall p, is_Some (tprocs s' !! p) -> p <> z /\ is_Some (tprocs s !! p)).
  { intros p [x Hx]. rewrite Et in Hx. apply lookup_delete_Some in Hx as [? ?]. split; [by apply not_eq_sym|by eexists]. }
  assert (Hl : forall p x, tprocs s' !! p = Some x -> p <> z /\ tprocs s !! p = Some x).
  { intros p x Hx. rewrite Et in Hx. apply lookup_delete_Some in Hx as [? ?]. split; [by apply not_eq_sym|done]. }
  assert (Hl' : forall p, p <> z -> tprocs s' !! p = tprocs s !! p) by (intros p Hp; rewrite Et; by apply lookup_delete_ne, not_eq_sym).
  assert (Hlf : forall a, (forall p, p <> this -> is_Some (tprocs s !! p) -> p <> z -> a ∈ ch p :: (ptn <$> live p ++ zomb p) -> links s' !! a = links s !! a)).
  { intros a p Hp Hs Hpz Ha. apply Hf. intros [->|Hin]%elem_of_cons.
    - apply (rings_apart _ _ _ _ _ _ _ _ p z (ch z) H Hs ltac:(by eexists) Hpz Ha). by left.
    - by apply (rings_apart _ _ _ _ _ _ _ _ p this a H Hs ltac:(by eexists) Hp Ha). }
  split.
  - intros p Hp _. destruct (Hzn p Hp) as [Hpz Hs]. unfold kupd. destruct (decide (p = this)) as [->|Hpt]; [exact Hring|].
    eapply ring_frame; [by apply (ti_ring _ _ _ _ _ _ _ _ H p Hs)|]. intros a Ha. by apply (Hlf a p).
  - intros p Hp. destruct (Hzn p Hp) as [Hpz Hs]. destruct (ti_node _ _ _ _ _ _ _ _ H p Hs) as (N1 & N2 & N3 & N4).
    assert (Hc : is_Some (links s' !! ch p)).
    { destruct (decide (p = this)) as [->|Hpt]; [eapply ring_alloc; [exact Hring|by left]|]. rewrite (Hlf (ch p) p); [done..|by left]. }
    assert (Hn : is_Some (links s' !! ptn p)); [|done].
    destruct (decide (ptn p ∈ ch this :: (ptn <$> live this ++ zs))) as [Hi|Hi]; [by eapply ring_alloc|]. rewrite Hf; [done|].
    rewrite elem_of_cons, elem_nodes. intros [E|[E|(c & E & Hcin)]].
    + symmetry in E. by apply (ti_sep _ _ _ _ _ _ _ _ H z p ltac:(by eexists) Hs).
    + symmetry in E. by apply (ti_sep _ _ _ _ _ _ _ _ H this p ltac:(by eexists) Hs).
    + apply ptn_inj in E as <-. apply Hi. rewrite elem_nodes. right. exists p. split; [done|]. pose proof (proj2 (Hk p this) (conj Hcin Hpz)) as Hkk. by rewrite kupd_eq in Hkk.
  - intros p q Hp%Hzn Hq%Hzn. apply (ti_sep _ _ _ _ _ _ _ _ H); tauto.
  - intros p c [Hc Hcz]%Hk. destruct (ti_kid _ _ _ _ _ _ _ _ H p c Hc) as (Hs & ? & ? & x & Hx & Hp).
    assert (Hpz : p <> z) by (intros ->; rewrite Dl, Dz in Hc; by apply elem_of_nil in Hc).
    split; [by rewrite Hl'|]. split; [done|]. split; [done|]. exists x. by rewrite Hl'.
  - intros p. unfold kupd. destruct (decide (p = this)) as [->|]; [done|apply (ti_nodup _ _ _ _ _ _ _ _ H p)].
  - intros c x [Hcz Hx]%Hl Hp Hr. apply Hk. split; [|done]. by apply (ti_child _ _ _ _ _ _ _ _ H).
  - intros p c x Hc [_ Hx]%Hl. by apply (ti_live _ _ _ _ _ _ _ _ H p c).
  - intros p c x Hc [_ Hx]%Hl. apply (ti_zomb _ _ _ _ _ _ _ _ H p c); [|done]. unfold kupd in Hc. destruct (decide (p = this)) as [->|]; [rewrite Ez; set_solver|done].
  - intros p x [Hpz Hx]%Hl. destruct (ti_sem _ _ _ _ _ _ _ _ H p x Hx) as (S1 & S2 & S3). split; [done|]. unfold kupd. destruct (decide (p = this)) as [->|]; [|done].
    split; [lia|]. intros _ Hz1. specialize (S3 ltac:(done) Hz1). rewrite Ez, length_app in S3. simpl in S3. lia.
  - intros p x [Hpz Hx]%Hl Hz1. destruct (ti_dead _ _ _ _ _ _ _ _ H p x Hx Hz1) as [El1 Ez1]. split; [done|]. unfold kupd. destruct (decide (p = this)) as [->|]; [congruence|done].
  - intros c r. rewrite Er. intros Hr. destruct (ti_reaper _ _ _ _ _ _ _ _ H c r Hr) as (x & Hx & Hz1 & Hc & Hout). exists x. rewrite Hl' by (intros ->; congruence).
    split; [done|]. split; [done|]. split; [done|]. intros Hrr xp [_ Hxp]%Hl. by apply Hout.
  - destruct (ti_root _ _ _ _ _ _ _ _ H) as (x & Hx & Hr). exists x. rewrite Er, Hl' by (by apply not_eq_sym). done.
  - rewrite Et. rewrite lookup_delete_ne; [apply (ti_null _ _ _ _ _ _ _ _ H)|]. intros ->. by rewrite (ti_null _ _ _ _ _ _ _ _ H) in Hxz.
Qed.

Definition reaped (s s' : tree_st) (z : Z) (x : tproc) : Prop :=
  tprocs s' = delete z (tprocs s) /\ (forall j, 0 <= j -> pid_used (globalpidmap s') j = if j =? t_pid x then false else pid_used (globalpidmap s) j) /\
  (exists pm pm', pidmaps s !! t_container x = Some pm /\ pidmaps s' = <[t_container x := pm']> (pidmaps s) /\
    forall j, 0 <= j -> pid_used pm' j = if j =? t_localpid x then false else pid_used pm j) /\
  (exists hp, hashpids s !! hp = Some (mkHashpid (t_pid x) z) /\ hashpids s' = delete hp (hashpids s)).

Lemma remove_pid_inv s s' z x hp pm pm' :
  pid_inv s -> tprocs s !! z = Some x -> tprocs s' = delete z (tprocs s) ->
  pid_wf (globalpidmap s') -> (forall j, 0 <= j -> pid_used (globalpidmap s') j = if j =? t_pid x then false else pid_used (globalpidmap s) j) ->
  t_state x <> UNUSED -> pidmaps s !! t_container x = Some pm -> pidmaps s' = <[t_container x := pm']> (pidmaps s) -> pid_wf pm' ->
  (forall j, 0 <= j -> pid_used pm' j = if j =? t_localpid x then false else pid_used pm j) ->
  hashpids s !! hp = Some (mkHashpid (t_pid x) z) -> hashpids s' = delete hp (hashpids s) -> dom (HashMap.next (h s')) = dom (HashMap.next (h s)) ->
  (exists bs', hm_rep (hash s' 0) (h s') bs' /\ members bs' = dom (hashpids s')) -> pid_inv s'.
Proof.
  intros H Hx Et Hg Hgu Hun Hpm Epm Hpm' Hpu Hhp Eh Ed Hb. pose proof (pi_map _ H) as Hh.
  assert (Hl : forall p y, tprocs s' !! p = Some y -> p <> z /\ tprocs s !! p = Some y).
  { intros p y Hy. rewrite Et in Hy. apply lookup_delete_Some in Hy as [? ?]. split; [by apply not_eq_sym|done]. }
  assert (Hne : forall p y, tprocs s' !! p = Some y -> t_pid y <> t_pid x) by (intros p y [Hp Hy]%Hl E; apply Hp; by apply (pid_distinct s p z y x)).
  split; [split| | | |].
  - intros p y [_ Hy]%Hl. by apply (pi_range _ Hh p y).
  - done.
  - rewrite Eh, Ed, dom_delete_L. pose proof (pi_dom _ Hh). set_solver.
  - intros a y. rewrite Eh. intros [Ha Hy]%lookup_delete_Some. destruct (pi_node _ Hh a y Hy) as (? & ? & w & Hw & Ew). split; [done|]. split; [done|].
    exists w. rewrite Et, lookup_delete_ne; [done|]. intros Ez. rewrite <- Ez, Hx in Hw. injection Hw as <-. apply Ha. by apply (pi_inj _ Hh hp a _ y Hhp Hy).
  - intros p y Hy. destruct (Hl p y Hy) as [Hpz Hy']. destruct (pi_of _ Hh p y Hy') as [a Ha]. exists a. rewrite Eh, lookup_delete_ne; [done|]. intros <-. rewrite Hhp in Ha. by injection Ha as _ ->.
  - intros a b y w. rewrite Eh. intros [_ Hy]%lookup_delete_Some [_ Hw]%lookup_delete_Some. by apply (pi_inj _ Hh).
  - done.
  - intros p y Hy. destruct (Hl p y Hy) as [_ Hy']. pose proof (pi_range _ Hh p y Hy'). rewrite Hgu by lia. rewrite (proj2 (Z.eqb_neq _ _) (Hne p y Hy)). by apply (pi_used _ H p).
  - intros p y Hy Hu. destruct (Hl p y Hy) as [Hpz Hy']. destruct (pi_maps _ H p y Hy' Hu) as (m & Hm & Hmw & Hr & Hmu). rewrite Epm.
    destruct (decide (t_container y = t_container x)) as [Ec|Ec]; [|exists m; by rewrite lookup_insert_ne by (by apply not_eq_sym)].
    exists pm'. rewrite Ec, lookup_insert_eq. split; [done|]. split; [done|]. split; [done|]. rewrite Hpu by lia.
    rewrite (proj2 (Z.eqb_neq _ _) (pi_local _ H p z y x Hy' Hx Hpz Hu Hun Ec)). rewrite Ec, Hpm in Hm. by injection Hm as <-.
  - intros p q y w [_ Hy]%Hl [_ Hw]%Hl. by apply (pi_local _ H).
Qed.

Lemma wait_reap_Ret this s live zomb credit xt :
  tree_inv None s live zomb credit -> pid_inv s -> tree_lock s = false -> tprocs s !! this = Some xt -> t_state xt <> ZOMBIE -> 1 <= credit this ->
  exists zs z x s', zomb this = zs ++ [z] /\ tprocs s !! z = Some x /\ t_state x = ZOMBIE /\
    wait_reap ch_off pt_off this s = Ret (Some (t_localpid x, exitcode x, t_pid x), s') /\
    tree_inv None s' live (kupd zomb this zs) (fun q => if decide (q = this) then credit q - 1 else credit q) /\ pid_inv s' /\ tree_lock s' = false /\ reaped s s' z x.
Proof.
  intros H Hpi Hlk Ht Htz Hcr.
  destruct (ti_sem _ _ _ _ _ _ _ _ H this xt Ht) as (Hsem & _ & Hn). specialize (Hn ltac:(done) Htz).
  assert (Hv : 0 <= val (sem (childexit xt)) + Z.of_nat (length (sleeplist (sem (childexit xt))))).
  { destruct (decide (0 <= val (sem (childexit xt)))); [lia|]. rewrite (sm_busy _ Hsem) by lia. lia. }
  destruct (zomb this) as [|z zs _] eqn:Ez using rev_ind; [simpl in Hn; lia|].
  assert (Hz : z ∈ zomb this) by (rewrite Ez; set_solver). assert (Hzk : z ∈ live this ++ zomb this) by (apply elem_of_app; by right).
  destruct (ti_kid _ _ _ _ _ _ _ _ H this z Hzk) as (_ & Hzt & Hzr & x & Hx & Hzp). pose proof (ti_zomb _ _ _ _ _ _ _ _ H this z x Hz Hx) as Hzz.
  pose proof (ti_ring _ _ _ _ _ _ _ _ H this ltac:(by eexists) ltac:(done)) as Hring. rewrite Ez, app_assoc, fmap_app in Hring. cbn [fmap list_fmap] in Hring.
  set (s1 := set_tree_lock true s). pose proof (pi_map _ Hpi) as Hh. pose proof (pi_range _ Hh z x Hx) as Hpr.
  destruct (free_pid_Ret _ (t_pid x) (pi_global _ Hpi) Hpr) as (g' & Eg & Hg & Hgu).
  set (s2 := set_global g' s1). assert (Hh2 : hash_inv s2) by (by apply (hash_inv_same s)).
  destruct (free_hashpid_Ret s2 z x Hh2 Hx) as (hp & m' & Eh & Hhp & Hd & Hb). set (s3 := set_hashpids (delete hp) (set_h m' s2)) in *.
  assert (Hun : t_state x <> UNUSED) by congruence.
  destruct (pi_maps _ Hpi z x Hx Hun) as (pm & Hpm & Hpw & Hlp & _). destruct (free_pid_Ret pm (t_localpid x) Hpw Hlp) as (pm' & Ep & Hpw' & Hpu).
  set (s4 := set_pidmaps (insert (t_container x) pm') s3).
  destruct (detach_frame (links s) (ch this) (ptn <$> live this ++ zs) (ptn z) [] Hring) as (v & l' & El & Hring' & _ & Hlf). rewrite app_nil_r in Hring'.
  set (s5 := set_links (fun _ => l') s4). set (s6 := set_links (fun l => delete (ch z) (delete (ptn z) l)) s5). set (s' := set_tree_lock false (set_tprocs (delete z) s6)).
  assert (Hni : forall a, a ∈ ch this :: (ptn <$> live this ++ zs) -> a <> ptn z /\ a <> ch z).
  { intros a Ha. pose proof (ring_NoDup _ _ Hring) as Hnd. split.
    - intros ->. rewrite app_comm_cons in Hnd. apply NoDup_app in Hnd as (_ & Hnd & _). apply (Hnd (ptn z) Ha). by left.
    - intros ->. apply (rings_apart _ _ _ _ _ _ _ _ this z (ch z) H ltac:(by eexists) ltac:(by eexists) (not_eq_sym Hzt)); [|by left].
      rewrite elem_nodes in *. destruct Ha as [?|(c & E & Hc)]; [by left|right]. exists c. split; [done|]. rewrite Ez, app_assoc, elem_of_app. by left. }
  exists zs, z, x, s'. split; [done|]. split; [done|]. split; [done|]. split; [|split; [|split; [|split; [done|]]]].
  - unfold wait_reap. rewrite (bind_Ret acquire_tree _ s tt s1); [|unfold acquire_tree; rewrite (bind_Ret (gets tree_lock) _ _ _ _ eq_refl); by rewrite Hlk].
    assert (Hpv : CList.get_prev (ch this) (links s1) = Ret (ptn z, links s)).
    { destruct (sentinel_ends (links s) (ch this) ((ptn <$> live this ++ zs) ++ [ptn z]) Hring) as [_ Ep2]. by rewrite lst_app in Ep2. }
    rewrite (bind_Ret _ _ s1 (ptn z) s1 (on_links_Ret _ s1 _ _ Hpv)). cbv zeta. replace (ptn z - pt_off) with z by (unfold ProcTree.ptn; lia).
    rewrite (bind_Ret _ _ _ _ _ (is_zombie_Ret z s1 x Hx)), bool_decide_true by done. rewrite (bind_Ret _ _ _ _ _ (get_tp_Ret z s1 x Hx)).
    rewrite (bind_Ret _ _ _ _ _ (on_global_Ret _ s1 _ _ Eg)). fold s2. rewrite (bind_Ret _ _ _ _ _ Eh).
    rewrite (bind_Ret _ _ _ _ _ (on_pidmap_Ret _ _ s3 pm _ _ Hpm Ep)). fold s4. rewrite (bind_Ret _ _ _ _ _ (on_links_Ret _ s4 _ _ El)). done.
  - apply (remove_inv s s' live zomb credit this zs z H Hcr Ez); [by exists xt|done|done| |].
    + eapply ring_frame; [exact Hring'|]. intros a Ha. cbn [links s' s6 s5 set_tree_lock set_tprocs set_links]. destruct (Hni a Ha). by rewrite !lookup_delete_ne by (by apply not_eq_sym).
    + intros a Ha. cbn [links s' s6 s5 set_tree_lock set_tprocs set_links]. rewrite Ez, app_assoc, fmap_app, !elem_of_cons, elem_of_app in Ha. cbn [fmap list_fmap] in Ha. rewrite list_elem_of_singleton in Ha.
      rewrite !lookup_delete_ne by (intros <-; tauto). apply Hlf. rewrite elem_of_cons, elem_of_app, list_elem_of_singleton. tauto.
  - apply (remove_pid_inv s s' z x hp pm pm' Hpi Hx); try done.
  - split; [done|]. split; [done|]. split; [by exists pm, pm'|by exists hp].
Qed.
End wait.
