(* ===== verification/ProcFork.v ===== *)
(** * New processes (kernel/proc.c)

    [init_proc], [set_parent_to_this] and [start_proc], in the order [fork]
    calls them, keep the invariants of the tree and of the pids. *)
From stdpp Require Import base gmap sets list.
From Stdlib Require Import ZArith Lia.
From S2P Require Import Prelude HashMap CList Bitmap Sem Sched ProcTree ProcExit ProcWait.

(** ** A node for a new pid *)
Lemma alloc_hashpid_Ret s p x hp :
  hash_inv (set_tprocs (delete p) s) -> tprocs s !! p = Some x -> 0 <= t_pid x < MAX_CONTAINER_PID ->
  (forall q y, q <> p -> tprocs s !! q = Some y -> t_pid y <> t_pid x) -> hashpids s !! hp = None -> hp <> 0 -> hp <> stack_node ->
  exists m', alloc_hashpid p hp s = Ret (tt, set_h m' (set_hashpids (insert hp (mkHashpid (t_pid x) p)) s)) /\
    hash_inv (set_h m' (set_hashpids (insert hp (mkHashpid (t_pid x) p)) s)).
Proof.
  intros H Hx Hr Hd Hhp Hn0 Hns. set (s1 := set_hashpids (insert hp (mkHashpid (t_pid x) p)) s).
  set (s2 := set_h (mkHm (<[hp := 0]> (HashMap.next (h s1))) (bullet (h s1))) s1).
  destruct (pi_hash _ H) as (bs & Hb & Em). cbn [hashpids set_tprocs h] in Em, Hb.
  assert (Hni : hp ∉ members bs) by (rewrite Em; by apply not_elem_of_dom).
  assert (Hat : forall a, 0 <= pid_at s1 0 a).
  { intros a. unfold pid_at. case (a =? stack_node); [done|]. cbn [hashpids s1 set_hashpids]. destruct (decide (a = hp)) as [->|Ha]; [rewrite lookup_insert_eq; cbn [h_pid]; lia|].
    rewrite lookup_insert_ne by done. destruct (hashpids s !! a) as [y|] eqn:E; [|done]. destruct (pi_node _ H a y E) as (_ & _ & w & Hw & <-). by apply (pi_range _ H _ w Hw). }
  assert (Hrng : forall a, 0 <= hash s1 0 a < HASHSIZE).
  { intros a. unfold hash, HASHSIZE. specialize (Hat a). rewrite Z.rem_mod_nonneg by lia. by apply Z.mod_pos_bound. }
  assert (Hb2 : hm_rep (hash s1 0) (h s2) bs).
  { destruct Hb as [A1 A2 A3 A4 A5]. split; try done.
    - intros i q l Hq Hl. cbn [HashMap.next h s2 set_h]. eapply chain_ext; [|by eapply A3]. intros a Ha. rewrite lookup_insert_ne; [done|]. intros ->.
      apply Hni, elem_of_list_to_set, list_elem_of_join. exists l. split; [done|]. by eapply list_elem_of_lookup_2.
    - intros i l a Hl Ha. rewrite <- (A4 i l a Hl Ha). unfold hash, pid_at. cbn [hashpids s1 set_hashpids set_tprocs]. rewrite lookup_insert_ne; [done|]. intros ->.
      apply Hni, elem_of_list_to_set, list_elem_of_join. exists l. split; [done|]. by eapply list_elem_of_lookup_2. }
  destruct (insert_spec (hash s1 0) Hrng (h s2) bs hp (S (size (dom (HashMap.next (h s2)))))) as (m' & E & Ed & bs' & Hb' & Em'); [done|done| |done| |].
  - cbn [HashMap.next h s2 set_h]. rewrite lookup_insert_eq. by eexists.
  - rewrite Em. pose proof (subseteq_size _ _ (pi_dom _ H)) as Hs. cbn [hashpids set_tprocs h] in Hs. cbn [HashMap.next h s2 s1 set_h set_hashpids].
    assert (size (dom (HashMap.next (h s))) <= size (dom (<[hp:=0%Z]> (HashMap.next (h s)))))%nat by (apply subseteq_size; set_solver). lia.
  - exists m'. split.
    + unfold alloc_hashpid. rewrite (bind_Ret _ _ _ _ _ (get_tp_Ret p s x Hx)). rewrite (bind_Ret (modify (set_hashpids (insert hp (mkHashpid (t_pid x) p)))) _ s tt s1 eq_refl).
      rewrite (bind_Ret (modify (fun s => set_h (mkHm (<[hp := 0]> (HashMap.next (h s))) (bullet (h s))) s)) _ s1 tt s2 eq_refl). unfold map_fuel. rewrite (bind_Ret (gets _) _ s2 _ s2 eq_refl).
      by rewrite (bind_Ret (fun t => on_h (_hashmap_insert (hash t 0) (S (size (dom (HashMap.next (h s2))))) hp) t) _ s2 0 (set_h m' s2) (on_h_Ret _ s2 _ _ E)).
    + split; cbn [tprocs hashpids h set_h s1 set_hashpids].
      * intros q y Hy. destruct (decide (q = p)) as [->|Hq]; [rewrite Hx in Hy; injection Hy as <-; lia|]. apply (pi_range _ H q y). cbn [tprocs set_tprocs]. by rewrite lookup_delete_ne by (by apply not_eq_sym).
      * exists bs'. split; [done|]. rewrite Em', Em, dom_insert_L. done.
      * rewrite dom_insert_L, Ed. cbn [HashMap.next h s2 set_h]. rewrite dom_insert_L. pose proof (pi_dom _ H) as Hs. cbn [hashpids set_tprocs h] in Hs. set_solver.
      * intros a y [[<- <-]|[Ha Hy]]%lookup_insert_Some; [split; [done|]; split; [done|]; exists x; done|].
        destruct (pi_node _ H a y Hy) as (? & ? & w & Hw & Ew). split; [done|]. split; [done|]. exists w. cbn [tprocs set_tprocs] in Hw. by apply lookup_delete_Some in Hw as [_ ?].
      * intros q y Hy. destruct (decide (q = p)) as [->|Hq]; [rewrite Hx in Hy; injection Hy as <-; exists hp; by rewrite lookup_insert_eq|].
        destruct (pi_of _ H q y) as [a Ha]; [cbn [tprocs set_tprocs]; by rewrite lookup_delete_ne by (by apply not_eq_sym)|]. exists a. cbn [hashpids set_tprocs] in Ha. rewrite lookup_insert_ne; [done|]. intros ->. congruence.
      * assert (Hno : forall b z, hashpids s !! b = Some z -> h_pid z <> t_pid x).
        { intros b z Hz. destruct (pi_node _ H b z Hz) as (_ & _ & w & Hw & <-). cbn [tprocs set_tprocs] in Hw. apply lookup_delete_Some in Hw as [Hpw Hw]. by apply (Hd (h_proc z)); [apply not_eq_sym|]. }
        intros a b y z [[<- <-]|[Ha Hy]]%lookup_insert_Some [[<- <-]|[Hbn Hz]]%lookup_insert_Some; cbn [h_pid]; try done.
        -- intros Ee. by destruct (Hno b z Hz).
        -- intros Ee. by destruct (Hno a y Hy).
        -- by apply (pi_inj _ H).
Qed.

Section fork.
Context (ch_off pt_off root_proc root_container : Z).
Local Notation ch := (ch ch_off).
Local Notation ptn := (ptn pt_off).
Local Notation tree_inv := (tree_inv ch_off pt_off root_proc).
Local Notation init_proc := (init_proc ch_off pt_off root_container).

Definition started (pid lp par : Z) (st : procstate) : tproc := mkTproc false false pid lp 0 st (mkSemSt (init_sem 0) ∅ []) par root_container.

(** The addresses [kalloc] returned for the process and its pid's node. *)
Record fresh_at (s : tree_st) (p hp : Z) : Prop := {
  fr_proc : tprocs s !! p = None;
  fr_ch : links s !! ch p = None;
  fr_ptn : links s !! ptn p = None;
  fr_p0 : p <> 0; fr_c0 : ch p <> 0; fr_n0 : ptn p <> 0; fr_cn : ch p <> ptn p;
  fr_hp : hashpids s !! hp = None; fr_h0 : hp <> 0; fr_hs : hp <> stack_node
}.

Lemma pid_inv_out s p : pid_inv s -> tprocs s !! p = None -> hash_inv (set_tprocs (delete p) s).
Proof. intros H Hp. apply (hash_inv_same s); [apply (pi_map _ H)| |done|done]. intros q. cbn [tprocs set_tprocs]. by rewrite delete_id. Qed.

Lemma add_pid_inv s s' p x :
  pid_inv s -> tprocs s !! p = None -> tprocs s' = <[p := x]> (tprocs s) -> hash_inv s' -> t_state x = UNUSED -> pid_wf (globalpidmap s') -> 0 <= t_pid x < MAX_CONTAINER_PID ->
  (forall i, 0 <= i -> pid_used (globalpidmap s') i = if i =? t_pid x then true else pid_used (globalpidmap s) i) -> pidmaps s' = pidmaps s -> pid_inv s'.
Proof.
  intros H Hp Et Hh Hst Hg Hr Hu Epm. split; [done|done|..]; rewrite ?Et, ?Epm.
  - intros q y [[<- <-]|[Hq Hy]]%lookup_insert_Some; [rewrite Hu by lia; by rewrite Z.eqb_refl|].
    pose proof (pi_range _ (pi_map _ H) q y Hy). rewrite Hu by lia. case_match; [done|]. by apply (pi_used _ H q).
  - intros q y [[<- <-]|[Hq Hy]]%lookup_insert_Some Hs; [done|]. by apply (pi_maps _ H q).
  - intros q r y z [[<- <-]|[Hq Hy]]%lookup_insert_Some [[<- <-]|[Hq' Hz]]%lookup_insert_Some; try done. by apply (pi_local _ H).
Qed.

Lemma init_proc_Ret s p hp :
  pid_inv s -> tree_lock s = false -> fresh_at s p hp -> (exists j, 0 <= j < MAX_CONTAINER_PID /\ pid_used (globalpidmap s) j = false) ->
  exists s' pid, init_proc p hp s = Ret (tt, s') /\ tprocs s' = <[p := started pid 0 0 UNUSED]> (tprocs s) /\ tree_lock s' = false /\
    pid_used (globalpidmap s) pid = false /\ next_fit (globalpidmap s) pid /\ pid_inv s' /\ rootprocs s' = rootprocs s /\ pidmaps s' = pidmaps s /\
    links s' = <[ptn p := mkNode (ptn p) (ptn p)]> (<[ch p := mkNode (ch p) (ch p)]> (links s)).
Proof.
  intros H Hlk [F1 F2 F3 F4 F5 F6 F7 F8 F9 F10] (j & Hj & Hfree).
  set (s1 := set_tprocs (insert p new_tproc) s). set (s2 := set_links (fun l => <[ch p := mkNode 0 0]> (<[ptn p := mkNode 0 0]> l)) s1). set (s3 := set_tree_lock true s2).
  destruct (alloc_pid_free (globalpidmap s) j (pi_global _ H) Hj Hfree) as (pid & g' & Eg & Hpr & Hpf & Hnf & Hgw & _ & Hgu).
  set (s4 := set_global g' s3). set (x4 := t_with_pid pid new_tproc). set (s5 := set_tprocs (insert p x4) s4).
  assert (H4 : tprocs s4 !! p = Some new_tproc) by apply lookup_insert_eq. assert (H5 : tprocs s5 !! p = Some x4) by apply lookup_insert_eq.
  destruct (alloc_hashpid_Ret s5 p x4 hp) as (m' & Eh & Hh); [|done|exact Hpr| |exact F8|exact F9|exact F10|].
  { apply (hash_inv_same (set_tprocs (delete p) s)); [by apply pid_inv_out| |done|done]. intros q. cbn [tprocs set_tprocs s5 s4 s3 s2 s1 set_global set_tree_lock set_links]. by rewrite !delete_insert_eq. }
  { intros q y Hq Hy. cbn [tprocs set_tprocs s5 s4 s3 s2 s1 set_global set_tree_lock set_links] in Hy. rewrite !lookup_insert_ne in Hy by (by apply not_eq_sym).
    intros E. cbn [t_pid x4 t_with_pid] in E. pose proof (pi_used _ H q y Hy). congruence. }
  set (s6 := set_h m' _) in *. set (s7 := set_tree_lock false s6). change (t_pid x4) with pid in *.
  set (l8 := <[ch p := mkNode (ch p) (ch p)]> (links s7)). set (l9 := <[ptn p := mkNode (ptn p) (ptn p)]> l8).
  assert (E8 : init_list_node (ch p) (links s7) = Ret (tt, l8)) by (apply init_list_node_spec; cbn [links s7 s6 s5 s4 s3 s2 set_tree_lock set_h set_hashpids set_tprocs set_global set_links]; rewrite lookup_insert_eq; by eexists).
  assert (E9 : init_list_node (ptn p) l8 = Ret (tt, l9)).
  { apply init_list_node_spec. unfold l8. rewrite lookup_insert_ne by done. cbn [links s7 s6 s5 s4 s3 s2 set_tree_lock set_h set_hashpids set_tprocs set_global set_links].
    rewrite lookup_insert_ne by done. rewrite lookup_insert_eq. by eexists. }
  set (x := started pid 0 0 UNUSED). set (s' := set_tprocs (insert p x) (set_links (fun _ => l9) s7)).
  assert (Et : tprocs s' = <[p := x]> (tprocs s)) by (cbn [tprocs s' s7 s6 s5 s4 s3 s2 s1 set_tree_lock set_h set_hashpids set_tprocs set_global set_links]; by rewrite !insert_insert_eq).
  exists s', pid. split; [|split; [exact Et|split; [done|split; [exact Hpf|split; [exact Hnf|split; [|split; [done|split; [done|]]]]]]]].
  - unfold ProcTree.init_proc. rewrite (bind_Ret (modify (set_tprocs (insert p new_tproc))) _ s tt s1 eq_refl).
    rewrite (bind_Ret (modify (set_links (fun l => <[ch p := mkNode 0 0]> (<[ptn p := mkNode 0 0]> l)))) _ s1 tt s2 eq_refl).
    rewrite (bind_Ret acquire_tree _ s2 tt s3); [|unfold acquire_tree; rewrite (bind_Ret (gets tree_lock) _ _ _ _ eq_refl); cbn [tree_lock s2 s1 set_tprocs set_links]; by rewrite Hlk].
    rewrite (bind_Ret _ _ _ _ _ (on_global_Ret _ s3 _ _ Eg)). fold s4. rewrite (bind_Ret _ _ _ _ _ (put_tp_Ret p _ s4 _ H4)). fold x4 s5.
    rewrite (bind_Ret _ _ _ _ _ Eh). fold s6. rewrite (bind_Ret release_tree _ s6 tt s7 eq_refl).
    assert (Hp7 : tprocs s7 !! p = Some x4) by exact H5. rewrite (bind_Ret _ _ _ _ _ (put_tp_Ret p _ s7 _ Hp7)). set (t1 := set_tprocs _ s7).
    rewrite (bind_Ret _ _ t1 tt _ (put_tp_Ret p _ t1 _ (lookup_insert_eq _ _ _))). set (t2 := set_tprocs _ t1).
    rewrite (bind_Ret _ _ t2 tt _ (on_links_Ret _ t2 _ _ E8)). set (t3 := set_links _ t2). rewrite (bind_Ret _ _ t3 tt _ (on_links_Ret _ t3 _ _ E9)). set (t4 := set_links _ t3).
    rewrite (bind_Ret _ _ t4 tt _ (put_tp_Ret p _ t4 _ (lookup_insert_eq _ _ _))). set (t5 := set_tprocs _ t4). rewrite (put_tp_Ret p _ t5 _ (lookup_insert_eq _ _ _)).
    do 2 f_equal. unfold s', t5, t4, t3, t2, t1, set_tprocs, set_links. cbn. by rewrite !insert_insert_eq.
  - apply (add_pid_inv s s' p x H F1 Et); [|done|exact Hgw|exact Hpr|exact Hgu|done].
    apply (hash_inv_same s6 s' Hh); [|done|done]. intros q. rewrite Et. cbn [tprocs s6 s5 s4 s3 s2 s1 set_tree_lock set_h set_hashpids set_tprocs set_global set_links].
    destruct (decide (q = p)) as [->|Hq]; [by rewrite !lookup_insert_eq|by rewrite !lookup_insert_ne by (by apply not_eq_sym)].
  - cbn [links s' s7 s6 s5 s4 s3 s2 set_tree_lock set_h set_hashpids set_tprocs set_global set_links]. unfold l9, l8. cbn [links s7 s6 s5 s4 s3 s2 s1 set_tree_lock set_h set_hashpids set_tprocs set_global set_links].
    rewrite insert_insert_eq. apply map_eq. intros a. destruct (decide (a = ptn p)) as [->|Ha]; [by rewrite !lookup_insert_eq|].
    destruct (decide (a = ch p)) as [->|Hc]; [by rewrite !(lookup_insert_ne _ (ptn p)), !lookup_insert_eq by done|by rewrite !lookup_insert_ne by (by apply not_eq_sym)].
Qed.

(** ** The tree with a new process *)
Lemma add_inv s s' live zomb credit p x hp :
  tree_inv None s live zomb credit -> fresh_at s p hp -> tprocs s' = <[p := x]> (tprocs s) -> rootprocs s' = rootprocs s -> parent x = 0 -> t_state x <> ZOMBIE ->
  childexit x = mkSemSt (init_sem 0) ∅ [] ->
  links s' = <[ptn p := mkNode (ptn p) (ptn p)]> (<[ch p := mkNode (ch p) (ch p)]> (links s)) -> tree_inv None s' live zomb (fun q => if decide (q = p) then 0 else credit q).
Proof.
  intros H [F1 F2 F3 F4 F5 F6 F7 _ _ _] Et Er Hpar Hst Hsem El.
  assert (Hnk : live p ++ zomb p = []).
  { destruct (live p ++ zomb p) as [|c l] eqn:E; [done|]. destruct (ti_kid _ _ _ _ _ _ _ _ H p c) as ([y Hy] & _); [rewrite E; by left|congruence]. }
  pose proof (proj1 (app_nil _ _) Hnk) as [Hl0 Hz0].
  assert (Hl : forall q y, tprocs s' !! q = Some y -> (q = p /\ y = x) \/ (q <> p /\ tprocs s !! q = Some y)).
  { intros q y. rewrite Et. intros [[<- <-]|[Hq Hy]]%lookup_insert_Some; [by left|right]. split; [by apply not_eq_sym|done]. }
  assert (Hs : forall q, is_Some (tprocs s' !! q) -> q = p \/ (q <> p /\ is_Some (tprocs s !! q))).
  { intros q [y [[-> _]|[Hq Hy]]%Hl]; [by left|right]. split; [done|by eexists]. }
  assert (Hk : forall q, q <> p -> tprocs s' !! q = tprocs s !! q) by (intros q Hq; rewrite Et; by rewrite lookup_insert_ne by (by apply not_eq_sym)).
  assert (Hne : forall a, is_Some (links s !! a) -> a <> ch p /\ a <> ptn p) by (intros a Ha; split; intros ->; [rewrite F2 in Ha|rewrite F3 in Ha]; by apply is_Some_None in Ha).
  assert (Hlf : forall a, is_Some (links s !! a) -> links s' !! a = links s !! a) by (intros a Ha; destruct (Hne a Ha); rewrite El; by rewrite !lookup_insert_ne by (by apply not_eq_sym)).
  assert (Hc : links s' !! ch p = Some (mkNode (ch p) (ch p))) by (rewrite El, lookup_insert_ne by (by apply not_eq_sym); apply lookup_insert_eq).
  assert (Hn : links s' !! ptn p = Some (mkNode (ptn p) (ptn p))) by (rewrite El; apply lookup_insert_eq).
  split.
  - intros q [->|[Hq Hqs]]%Hs _.
    + rewrite Hnk. eapply ring_frame; [apply (ring_single ∅ (ch p) F5)|]. intros a ->%list_elem_of_singleton. by rewrite Hc, lookup_insert_eq.
    + pose proof (ti_ring _ _ _ _ _ _ _ _ H q Hqs ltac:(done)) as Hr. eapply ring_frame; [exact Hr|]. intros a Ha. apply Hlf. by eapply ring_alloc.
  - intros q [->|[Hq Hqs]]%Hs; [split; [by eexists|]; split; [done|]; split; [by eexists|done]|].
    destruct (ti_node _ _ _ _ _ _ _ _ H q Hqs) as (? & ? & ? & ?). by rewrite !Hlf.
  - intros q r [->|[Hq Hqs]]%Hs [->|[Hr Hrs]]%Hs.
    + done.
    + destruct (ti_node _ _ _ _ _ _ _ _ H r Hrs) as (Ha & _). destruct (Hne _ Ha). by apply not_eq_sym.
    + destruct (ti_node _ _ _ _ _ _ _ _ H q Hqs) as (_ & _ & Ha & _). by destruct (Hne _ Ha).
    + by apply (ti_sep _ _ _ _ _ _ _ _ H).
  - intros q c Hcq. destruct (ti_kid _ _ _ _ _ _ _ _ H q c Hcq) as (Hqs & ? & ? & y & Hy & ?). assert (c <> p) by congruence. assert (q <> p) by (intros ->; rewrite Hnk in Hcq; by apply elem_of_nil in Hcq).
    rewrite !Hk by done. split; [done|]. split; [done|]. split; [done|]. by exists y.
  - apply (ti_nodup _ _ _ _ _ _ _ _ H).
  - intros c y [[-> ->]|[Hcp Hy]]%Hl Hy0 Hr; [done|]. by apply (ti_child _ _ _ _ _ _ _ _ H).
  - intros q c y Hcq [[-> ->]|[Hcp Hy]]%Hl; [done|]. by apply (ti_live _ _ _ _ _ _ _ _ H q c).
  - intros q c y Hcq [[-> ->]|[Hcp Hy]]%Hl; [|by apply (ti_zomb _ _ _ _ _ _ _ _ H q c)].
    destruct (ti_kid _ _ _ _ _ _ _ _ H q p) as (_ & _ & _ & y & Hy & _); [apply elem_of_app; by right|congruence].
  - intros q y [[-> ->]|[Hq Hy]]%Hl.
    + rewrite decide_True, Hsem, Hz0 by done. split; [|split; [done|done]]. split; simpl; try done; try lia; [constructor|]. intros w. rewrite elem_of_nil. split; [done|]. by intros [? ?].
    + rewrite decide_False by done. by apply (ti_sem _ _ _ _ _ _ _ _ H).
  - intros q y [[-> ->]|[Hq Hy]]%Hl Hz; [done|]. by apply (ti_dead _ _ _ _ _ _ _ _ H q y).
  - intros c r. rewrite Er. intros Hr. destruct (ti_reaper _ _ _ _ _ _ _ _ H c r Hr) as (y & Hy & ? & ? & Hout). exists y. rewrite Hk by congruence.
    split; [done|]. split; [done|]. split; [done|]. intros Hrr z [[Ep _]|[_ Hz]]%Hl; [|by apply Hout].
    pose proof (ti_child _ _ _ _ _ _ _ _ H r y Hy ltac:(congruence) Hrr) as Hk2. rewrite Ep, Hnk in Hk2. by apply elem_of_nil in Hk2.
  - destruct (ti_root _ _ _ _ _ _ _ _ H) as (y & Hy & Hr). exists y. by rewrite Er, Hk by congruence.
  - rewrite Hk by (by apply not_eq_sym). apply (ti_null _ _ _ _ _ _ _ _ H).
Qed.

Lemma set_parent_Ret s live zomb credit this p x xt :
  tree_inv None s live zomb credit -> tree_lock s = false -> tprocs s !! p = Some x -> parent x = 0 -> t_state x <> ZOMBIE -> p <> root_proc -> (forall k, rootprocs s !! k <> Some p) ->
  tprocs s !! this = Some xt -> t_state xt <> ZOMBIE -> p <> this ->
  exists l', set_parent_to_this ch_off pt_off this p s = Ret (tt, set_links (fun _ => l') (set_tprocs (insert p (with_parent this x)) s)) /\
    tree_inv None (set_links (fun _ => l') (set_tprocs (insert p (with_parent this x)) s)) (kupd live this (p :: live this)) zomb credit.
Proof.
  intros H Hlk Hp Hpar Hst Hroot Hnr Ht Htz Hpt.
  assert (Hnk : forall q, p ∉ live q ++ zomb q).
  { intros q Hq. destruct (ti_kid _ _ _ _ _ _ _ _ H q p Hq) as ([y Hy] & _ & _ & y' & Hy' & Hpq). assert (Eq0 : q = 0) by congruence. rewrite Eq0 in Hy. by rewrite (ti_null _ _ _ _ _ _ _ _ H) in Hy. }
  destruct (ti_node _ _ _ _ _ _ _ _ H p ltac:(by eexists)) as (Hn & Hn0 & _).
  assert (Hni : ptn p ∉ ch this :: (ptn <$> live this ++ zomb this)).
  { rewrite elem_nodes. intros [E|(c & E & Hc)]; [symmetry in E; by apply (ti_sep _ _ _ _ _ _ _ _ H this p ltac:(by eexists) ltac:(by eexists))|]. apply ptn_inj in E as <-. by apply (Hnk this). }
  destruct (insert_into_list_ring (links s) (ch this) (ptn <$> live this ++ zomb this) (ptn p)) as (l' & El & Hring & Hf); [by apply (ti_ring _ _ _ _ _ _ _ _ H); [eexists|]|done..|].
  exists l'. set (s1 := set_tree_lock true s). set (s2 := set_tprocs (insert p (with_parent this x)) s1). split.
  - unfold set_parent_to_this. rewrite (bind_Ret acquire_tree _ s tt s1); [|unfold acquire_tree; rewrite (bind_Ret (gets tree_lock) _ _ _ _ eq_refl); by rewrite Hlk].
    rewrite (bind_Ret _ _ _ _ _ (put_tp_Ret p _ s1 x Hp)). fold s2. rewrite (bind_Ret _ _ _ _ _ (on_links_Ret _ s2 _ _ El)). unfold release_tree, modify. do 2 f_equal.
    unfold s2, s1, set_tree_lock, set_links, set_tprocs. cbn. by rewrite Hlk.
  - set (s' := set_links (fun _ => l') (set_tprocs (insert p (with_parent this x)) s)).
    assert (Hmk : forall q, kupd live this (p :: live this) q ++ zomb q = if decide (q = this) then p :: live this ++ zomb this else live q ++ zomb q) by (intros q; unfold kupd; destruct (decide (q = this)) as [->|]; done).
    assert (Hla : forall a, is_Some (links s !! a) -> is_Some (l' !! a)).
    { intros a Ha. destruct (decide (a ∈ ptn p :: ch this :: (ptn <$> live this ++ zomb this))) as [Hi|Hi]; [|by rewrite Hf]. eapply ring_alloc; [exact Hring|]. rewrite !elem_of_cons in *. tauto. }
    apply (place_inv ch_off pt_off root_proc None None s s' live zomb credit _ _ _ p this (t_state x) x xt H Hp Ht Hpt Hroot Htz).
    + intros k Hk. by destruct (Hnr k).
    + done.
    + split; [|done| | | | |].
      * intros q. cbn [tprocs s' set_links set_tprocs]. destruct (decide (q = p)) as [->|Hq].
        { rewrite Hp. exists (with_parent this x). rewrite lookup_insert_eq. split; [done|]. split; [done|]. split; [done|]. split; [done|].
          destruct (ti_sem _ _ _ _ _ _ _ _ H p x Hp) as (? & ? & ?). done. }
        rewrite lookup_insert_ne by (by apply not_eq_sym). destruct (tprocs s !! q) as [y|] eqn:Ey; [|done]. exists y. split; [done|]. split; [done|]. split; [done|]. split; [done|].
        by apply (ti_sem _ _ _ _ _ _ _ _ H q y).
      * intros d q. rewrite Hmk. destruct (decide (q = this)) as [->|Hq].
        { rewrite elem_of_cons. split; [intros [->|Hd]; [by right|left; split; [intros ->; by apply (Hnk this)|done]]|intros [[_ Hd]|[-> _]]; [by right|by left]]. }
        split; [intros Hd; left; split; [intros ->; by apply (Hnk q)|done]|intros [[_ Hd]|[_ ?]]; done].
      * intros q. rewrite Hmk. destruct (decide (q = this)) as [->|Hq]; [apply NoDup_cons; split; [apply Hnk|]|]; apply (ti_nodup _ _ _ _ _ _ _ _ H).
      * intros d q. unfold kupd. assert (Hd2 : d ∈ live q -> d ∈ live q /\ d <> p) by (intros Hd; split; [done|]; intros ->; apply (Hnk q), elem_of_app; by left).
        destruct (decide (q = this)) as [->|Hq]; [|by left; apply Hd2]. intros [->|Hd]%elem_of_cons; [by right|left; by apply Hd2].
      * intros d q Hd. left. split; [done|]. intros ->. apply (Hnk q), elem_of_app. by right.
      * exact Hla.
    + intros q Hq _. rewrite Hmk. cbn [links s' set_links set_tprocs]. destruct (decide (q = this)) as [->|Hqt]; [exact Hring|].
      eapply ring_frame; [by apply (ti_ring _ _ _ _ _ _ _ _ H q Hq)|]. intros a Ha. apply Hf. intros [->|Ha2]%elem_of_cons.
      * apply elem_nodes in Ha as [E|(c & E & Hc)]; [symmetry in E; by apply (ti_sep _ _ _ _ _ _ _ _ H q p Hq ltac:(by eexists))|]. apply ptn_inj in E as <-. by apply (Hnk q).
      * by apply (rings_apart _ _ _ _ _ _ _ _ q this a H Hq ltac:(by eexists) Hqt Ha).
Qed.

(** ** The local pid *)
Lemma start_proc_Ret s live zomb credit p x pm :
  tree_inv None s live zomb credit -> pid_inv s -> tprocs s !! p = Some x -> parent x <> 0 -> t_state x = UNUSED -> pidmaps s !! t_container x = Some pm -> pid_wf pm ->
  (exists j, 0 <= j < MAX_CONTAINER_PID /\ pid_used pm j = false) ->
  exists lp pm', start_proc ch_off pt_off root_proc p s = Ret (lp, set_tprocs (insert p (t_with_state RUNNABLE (t_with_localpid lp x))) (set_pidmaps (insert (t_container x) pm') s)) /\
    tree_inv None (set_tprocs (insert p (t_with_state RUNNABLE (t_with_localpid lp x))) (set_pidmaps (insert (t_container x) pm') s)) live zomb credit /\
    pid_inv (set_tprocs (insert p (t_with_state RUNNABLE (t_with_localpid lp x))) (set_pidmaps (insert (t_container x) pm') s)) /\
    pid_used pm lp = false /\ next_fit pm lp.
Proof.
  intros H Hpi Hx Hpar Hst Hpm Hpw (j & Hj & Hfree). destruct (alloc_pid_free pm j Hpw Hj Hfree) as (lp & pm' & Ep & Hlr & Hlf & Hnf & Hpw' & _ & Hu).
  exists lp, pm'. set (x' := t_with_state RUNNABLE (t_with_localpid lp x)). set (s1 := set_pidmaps (insert (t_container x) pm') s). set (s' := set_tprocs (insert p x') s1).
  assert (Hl : forall q y, tprocs s' !! q = Some y -> (q = p /\ y = x') \/ (q <> p /\ tprocs s !! q = Some y)).
  { intros q y. cbn [tprocs s' s1 set_tprocs set_pidmaps]. intros [[<- <-]|[Hq Hy]]%lookup_insert_Some; [by left|right]. split; [by apply not_eq_sym|done]. }
  split; [|split; [|split; [|by split]]].
  - unfold start_proc. rewrite (bind_Ret _ _ _ _ _ (get_tp_Ret p s x Hx)), (proj2 (Z.eqb_neq (parent x) 0)) by done. rewrite (bind_Ret (when false _) _ s tt s eq_refl).
    rewrite (bind_Ret _ _ _ _ _ (on_pidmap_Ret _ _ s pm _ _ Hpm Ep)). fold s1. rewrite (bind_Ret _ _ _ _ _ (put_tp_Ret p _ s1 x Hx)). set (s2 := set_tprocs _ s1).
    rewrite (bind_Ret _ _ s2 tt _ (put_tp_Ret p _ s2 _ (lookup_insert_eq _ _ _))). unfold ret. do 2 f_equal. unfold s', s2, set_tprocs. cbn. by rewrite insert_insert_eq.
  - apply (inv_same _ _ _ None s s' live zomb credit H); [done|done|]. intros q. cbn [tprocs s' s1 set_tprocs set_pidmaps]. destruct (decide (q = p)) as [->|Hq].
    + rewrite Hx. exists x'. rewrite lookup_insert_eq. split; [done|]. split; [done|]. split; [|done]. right. by rewrite Hst.
    + rewrite lookup_insert_ne by (by apply not_eq_sym). destruct (tprocs s !! q) as [y|]; [|done]. exists y. repeat split. by left.
  - split.
    + apply (hash_inv_same s); [apply (pi_map _ Hpi)| |done|done]. intros q. cbn [tprocs s' s1 set_tprocs set_pidmaps]. destruct (decide (q = p)) as [->|Hq]; [by rewrite Hx, lookup_insert_eq|by rewrite lookup_insert_ne by (by apply not_eq_sym)].
    + apply (pi_global _ Hpi).
    + intros q y [[-> ->]|[Hq Hy]]%Hl; [by apply (pi_used _ Hpi p x)|by apply (pi_used _ Hpi q y)].
    + intros q y Hy Hs. cbn [pidmaps s' s1 set_tprocs set_pidmaps]. destruct (Hl q y Hy) as [[-> ->]|[Hq Hy']].
      * exists pm'. cbn [t_container x' t_with_state t_with_localpid t_localpid]. rewrite lookup_insert_eq. split; [done|]. split; [done|]. split; [lia|]. rewrite Hu by lia. by rewrite Z.eqb_refl.
      * destruct (pi_maps _ Hpi q y Hy' Hs) as (m & Hm & Hmw & Hr & Hmu). destruct (decide (t_container x = t_container y)) as [Ec|Ec]; [|exists m; by rewrite lookup_insert_ne].
        exists pm'. rewrite Ec, lookup_insert_eq. split; [done|]. split; [done|]. split; [done|]. rewrite Hu by lia. case_match; [done|]. rewrite Ec, Hm in Hpm. by injection Hpm as <-.
    + assert (Hnew : forall q y, q <> p -> tprocs s !! q = Some y -> t_state y <> UNUSED -> t_container x = t_container y -> t_localpid y <> lp).
      { intros q y Hq Hy Hs Ec E. destruct (pi_maps _ Hpi q y Hy Hs) as (m & Hm & _ & _ & Hmu). rewrite <- Ec, Hpm in Hm. injection Hm as <-. congruence. }
      intros q r y z [[-> ->]|[Hq Hy]]%Hl [[-> ->]|[Hr Hz]]%Hl Hqr Hs1 Hs2 Ec; [done| | |by apply (pi_local _ Hpi q r y z)].
      * intros E. by apply (Hnew r z Hr Hz Hs2 Ec).
      * by apply (Hnew q y Hq Hy Hs1).
Qed.

(** [fork]'s calls on the tree. *)
Lemma child_Ret s live zomb credit this xt p hp pm :
  tree_inv None s live zomb credit -> pid_inv s -> tree_lock s = false -> tprocs s !! this = Some xt -> t_state xt <> ZOMBIE ->
  fresh_at s p hp -> (exists j, 0 <= j < MAX_CONTAINER_PID /\ pid_used (globalpidmap s) j = false) ->
  pidmaps s !! root_container = Some pm -> pid_wf pm -> (exists j, 0 <= j < MAX_CONTAINER_PID /\ pid_used pm j = false) ->
  exists pid lp s' credit', (init_proc p hp ;;; set_parent_to_this ch_off pt_off this p ;;; start_proc ch_off pt_off root_proc p) s = Ret (lp, s') /\
    tree_inv None s' (kupd live this (p :: live this)) zomb credit' /\ pid_inv s' /\ tree_lock s' = false /\ rootprocs s' = rootprocs s /\
    tprocs s' = <[p := started pid lp this RUNNABLE]> (tprocs s) /\ (forall q, q <> p -> credit' q = credit q) /\
    pid_used (globalpidmap s) pid = false /\ next_fit (globalpidmap s) pid /\ pid_used pm lp = false /\ next_fit pm lp.
Proof.
  intros H Hpi Hlk Ht Htz Hfr Hg Hpm Hpw Hj. destruct (init_proc_Ret s p hp Hpi Hlk Hfr Hg) as (s1 & pid & E1 & Et1 & Hlk1 & Hu & Hnf & Hpi1 & Er1 & Ep1 & El1).
  pose proof (fr_proc _ _ _ Hfr) as Hnone. assert (Hpt : p <> this) by congruence.
  pose proof (add_inv s s1 live zomb credit p _ hp H Hfr Et1 Er1 eq_refl ltac:(done) eq_refl El1) as H1.
  assert (Hx1 : tprocs s1 !! p = Some (started pid 0 0 UNUSED)) by (rewrite Et1; apply lookup_insert_eq).
  assert (Hnr : forall k, rootprocs s1 !! k <> Some p) by (intros k; rewrite Er1; intros Hk; destruct (ti_reaper _ _ _ _ _ _ _ _ H k p Hk) as (y & Hy & _); congruence).
  assert (Hroot : p <> root_proc) by (intros ->; destruct (ti_root _ _ _ _ _ _ _ _ H) as (y & Hy & _); congruence).
  assert (Ht1 : tprocs s1 !! this = Some xt) by (by rewrite Et1, lookup_insert_ne).
  destruct (set_parent_Ret s1 live zomb _ this p _ xt H1 Hlk1 Hx1 eq_refl ltac:(done) Hroot Hnr Ht1 Htz Hpt) as (l' & E2 & H2).
  set (s2 := set_links (fun _ => l') (set_tprocs (insert p (with_parent this (started pid 0 0 UNUSED))) s1)) in *.
  assert (Hx2 : tprocs s2 !! p = Some (with_parent this (started pid 0 0 UNUSED))) by (apply lookup_insert_eq).
  assert (Hpi2 : pid_inv s2).
  { destruct Hpi1 as [I1 I2 I3 I4 I5].
    assert (Hl : forall q y, tprocs s2 !! q = Some y -> exists y', tprocs s1 !! q = Some y' /\ t_pid y' = t_pid y /\ t_state y' = t_state y /\ t_container y' = t_container y /\ t_localpid y' = t_localpid y).
    { intros q y. cbn [tprocs s2 set_links set_tprocs]. intros [[<- <-]|[Hq Hy]]%lookup_insert_Some; [by eexists|by exists y]. }
    split; [|done| | |].
    - apply (hash_inv_same s1 s2 I1); [|done|done]. intros q. cbn [tprocs s2 set_links set_tprocs]. destruct (decide (q = p)) as [->|Hq]; [by rewrite Hx1, lookup_insert_eq|by rewrite lookup_insert_ne by (by apply not_eq_sym)].
    - intros q y (y' & Hy & <- & _)%Hl. by apply (I3 q).
    - intros q y (y' & Hy & _ & <- & <- & <-)%Hl. by apply (I4 q).
    - intros q r y z (y' & Hy & _ & <- & <- & <-)%Hl (z' & Hz & _ & <- & <- & <-)%Hl. by apply (I5 q r). }
  assert (Hpm2 : pidmaps s2 !! root_container = Some pm) by (cbn [pidmaps s2 set_links set_tprocs]; by rewrite Ep1).
  assert (Hth : this <> 0) by (intros ->; by rewrite (ti_null _ _ _ _ _ _ _ _ H) in Ht).
  destruct (start_proc_Ret s2 _ _ _ p _ pm H2 Hpi2 Hx2 Hth eq_refl Hpm2 Hpw Hj) as (lp & pm' & E3 & H3 & Hpi3 & Hu3 & Hnf3).
  eexists pid, lp, _, _. split; [rewrite (bind_Ret _ _ _ _ _ E1), (bind_Ret _ _ _ _ _ E2); exact E3|].
  split; [exact H3|]. split; [exact Hpi3|]. split; [done|]. split; [done|]. split; [|split; [by intros q Hq; rewrite decide_False|done]].
  cbn [tprocs s2 set_links set_tprocs set_pidmaps]. by rewrite !insert_insert_eq, Et1, insert_insert_eq.
Qed.
End fork.
