(* ===== verification/ProcProps.v ===== *)
(** * Properties of processes (kernel/proc.c)

    What the calls on the process tree do on states that satisfy [tree_inv]
    and [pid_inv], and a concrete tree: the first process (1000), its child
    (2000), and the children of that one: 3000, alive, and the zombie 4000. *)
From stdpp Require Import base gmap sets list.
From Stdlib Require Import ZArith Lia.
From S2P Require Import Prelude HashMap CList Bitmap Sem Sched ProcTree ProcExit ProcWait ProcFork.

Lemma pid_inv_same s s' :
  pid_inv s -> globalpidmap s' = globalpidmap s -> pidmaps s' = pidmaps s -> h s' = h s -> hashpids s' = hashpids s -> dom (tprocs s') = dom (tprocs s) ->
  (forall q y, tprocs s !! q = Some y -> exists y', tprocs s' !! q = Some y' /\ t_pid y' = t_pid y /\ t_localpid y' = t_localpid y /\ t_container y' = t_container y /\
     (t_state y = UNUSED -> t_state y' = UNUSED)) -> pid_inv s'.
Proof.
  intros [I1 I2 I3 I4 I5] Eg Ep Eh Ehp Ed Hp.
  assert (Hl : forall q y', tprocs s' !! q = Some y' -> exists y, tprocs s !! q = Some y /\ t_pid y' = t_pid y /\ t_localpid y' = t_localpid y /\ t_container y' = t_container y /\
    (t_state y' <> UNUSED -> t_state y <> UNUSED)).
  { intros q y' Hy'. assert (Hq : q ∈ dom (tprocs s)) by (rewrite <- Ed; by eapply elem_of_dom_2). apply elem_of_dom in Hq as [y Hy].
    destruct (Hp q y Hy) as (y2 & Hy2 & ? & ? & ? & Hu). rewrite Hy' in Hy2. injection Hy2 as <-. exists y. repeat split; try done. auto. }
  split; rewrite ?Eg, ?Ep; [|done| | |].
  - apply (hash_inv_same s s' I1); [|done|done]. intros q. destruct (tprocs s !! q) as [y|] eqn:Ey.
    + destruct (Hp q y Ey) as (y' & -> & E & _). simpl. by rewrite E.
    + destruct (tprocs s' !! q) as [y'|] eqn:Ey'; [|done]. destruct (Hl q y' Ey') as (y & Hy & _). congruence.
  - intros q y' Hy'. destruct (Hl q y' Hy') as (y & Hy & -> & _). by apply (I3 q).
  - intros q y' Hy' Hs. destruct (Hl q y' Hy') as (y & Hy & _ & -> & -> & Hu). apply (I4 q y Hy). auto.
  - intros q r y' z' Hy' Hz' Hqr Hs Hs' Ec. destruct (Hl q y' Hy') as (y & Hy & _ & E1 & E2 & Hu), (Hl r z' Hz') as (z & Hz & _ & E3 & E4 & Hu2).
    rewrite E1, E3. apply (I5 q r y z); auto. congruence.
Qed.

Section props.
Context (ch_off pt_off root_proc root_container : Z).
Local Notation ch := (ch ch_off).
Local Notation ptn := (ptn pt_off).
Local Notation tree_inv := (tree_inv ch_off pt_off root_proc).

(** C23: Where [fork] adds to the tree: with fresh memory and free pids,
    [init_proc], [set_parent_to_this] and [start_proc] make a runnable process
    that is its parent's newest child, with the next free pid of the system
    and the next free local pid of its container, keep the invariants of the
    tree and of the pids, and concern no other process. *)
Theorem child_started s live zomb credit this xt p hp pm :
  tree_inv None s live zomb credit -> pid_inv s -> tree_lock s = false -> tprocs s !! this = Some xt -> t_state xt <> ZOMBIE ->
  fresh_at ch_off pt_off s p hp -> (exists j, 0 <= j < MAX_CONTAINER_PID /\ pid_used (globalpidmap s) j = false) ->
  pidmaps s !! root_container = Some pm -> pid_wf pm -> (exists j, 0 <= j < MAX_CONTAINER_PID /\ pid_used pm j = false) ->
  exists pid lp s' credit',
    (init_proc ch_off pt_off root_container p hp ;;; set_parent_to_this ch_off pt_off this p ;;; start_proc ch_off pt_off root_proc p) s = Ret (lp, s') /\
    tree_inv None s' (kupd live this (p :: live this)) zomb credit' /\ pid_inv s' /\ tree_lock s' = false /\
    tprocs s' = <[p := started root_container pid lp this RUNNABLE]> (tprocs s) /\
    pid_used (globalpidmap s) pid = false /\ next_fit (globalpidmap s) pid /\ pid_used pm lp = false /\ next_fit pm lp.
Proof.
  intros. destruct (child_Ret ch_off pt_off root_proc root_container s live zomb credit this xt p hp pm) as (pid & lp & s' & credit' & ? & ? & ? & ? & ? & ? & ? & ? & ? & ? & ?); try done.
  exists pid, lp, s', credit'. done.
Qed.

(** C13: [exit] of a process that is not the first of its container: every
    child goes to the container's first process, the living ones to the front
    of its children and the zombies, with a post each, to the back; the
    process, now a zombie with its exit code and no children, goes behind its
    siblings and its parent gets a post; everything else is as it was and the
    invariants of the tree (in particular that the posts a process has not
    used up count its zombies) and of the pids hold. *)
Theorem exit_correct s live zomb credit this code x rp :
  tree_inv None s live zomb credit -> pid_inv s -> tree_lock s = false -> tprocs s !! this = Some x -> t_state x = RUNNING -> t_idle x = false ->
  rootprocs s !! t_container x = Some rp -> this <> rp -> parent x <> 0 -> Z.of_nat (size (tprocs s)) < 2 ^ 31 - 2 ->
  exists s' live' zomb' credit' l1 l2, exit ch_off pt_off this code s = Ret (tt, s') /\ tree_inv None s' live' zomb' credit' /\ pid_inv s' /\ tree_lock s' = false /\
    (exists x', tprocs s' !! this = Some x' /\ t_state x' = ZOMBIE /\ exitcode x' = code) /\ live' this = [] /\ zomb' this = [] /\
    live_to live this rp (parent x) = l1 ++ this :: l2 /\ live' (parent x) = l1 ++ l2 /\ zomb' (parent x) = zomb_to zomb this rp (parent x) ++ [this] /\
    (forall q, q <> this -> q <> parent x -> live' q = live_to live this rp q /\ zomb' q = zomb_to zomb this rp q) /\
    (forall q y, q <> this -> tprocs s !! q = Some y -> exists y', tprocs s' !! q = Some y' /\ same_proc y y' /\ parent y' = if decide (q ∈ live this ++ zomb this) then rp else parent y).
Proof.
  intros H Hpi Hlk Hx Hst Hid Hrp Hne Hpar Hsz.
  destruct (exit_Ret ch_off pt_off root_proc this code s live zomb credit x rp) as (s' & live' & zomb' & credit' & l1 & l2 & E & H' & Hlk' & (x' & Hx' & Hz & Hc & Ei & El & Ek & _) & L1 & L2 & L3 & L4 & L5 & L6 & _ & L8 & _ & G1 & G2 & G3 & G4 & G5);
    [done|done|done|by rewrite Hst|done|done|done|done|done|].
  exists s', live', zomb', credit', l1, l2. split; [done|]. split; [done|]. split; [|split; [done|split; [by exists x'|done]]].
  apply (pid_inv_same s s' Hpi); try done. intros q y Hy. destruct (decide (q = this)) as [->|Hq].
  - rewrite Hx in Hy. injection Hy as <-. exists x'. repeat split; try done. congruence.
  - destruct (L8 q y Hq Hy) as (y' & Hy' & (S1 & S2 & _ & S4 & S5 & _) & _). exists y'. repeat split; congruence.
Qed.

Lemma wait_enter_Ret s live zomb credit this w x :
  tree_inv None s live zomb credit -> tprocs s !! this = Some x -> t_state x <> ZOMBIE -> 0 < val (sem (childexit x)) ->
  exists s1, wait_enter ch_off this w s = Ret (Some true, s1) /\ tree_inv None s1 live zomb (fun q => if decide (q = this) then credit q + 1 else credit q) /\
    s1 = set_tprocs (insert this (with_childexit (set_sem (set_val (val (sem (childexit x)) - 1)) (childexit x)) x)) s.
Proof.
  intros H Hx Hz Hv. destruct (ti_sem _ _ _ _ _ _ _ _ H this x Hx) as (Hs & Hc & Hn). specialize (Hn ltac:(done) Hz). pose proof (sm_range _ Hs) as Hr.
  destruct (sentinel_ends (links s) (ch this) (ptn <$> live this ++ zomb this)) as [Ee _]; [by apply (ti_ring _ _ _ _ _ _ _ _ H); [eexists|]|].
  rewrite (sm_idle _ Hs) in Hn by lia. simpl in Hn.
  set (sm := set_sem (set_val (val (sem (childexit x)) - 1)) (childexit x)). set (s1 := set_tprocs (insert this (with_childexit sm x)) s).
  exists s1. split; [|split; [|done]].
  - unfold wait_enter. rewrite (bind_Ret _ _ s _ s (on_links_read _ s _ Ee)). rewrite bool_decide_false by (intros E%fmap_nil_inv%app_nil; destruct E as [_ E]; rewrite E in Hn; simpl in Hn; lia).
    assert (Ew : _wait_sem_enter this w (childexit x) = Ret (true, sm)).
    { unfold _wait_sem_enter, modify, gets, bind, set_sem. simpl. rewrite i32_small by lia. rewrite (proj2 (Z.geb_le _ _)) by lia. done. }
    by rewrite (bind_Ret _ _ s _ s1 (on_sem_Ret this _ s x _ _ Hx Ew)).
  - assert (Hl : forall q, tprocs s1 !! q = if decide (q = this) then Some (with_childexit sm x) else tprocs s !! q).
    { intros q. cbn [tprocs s1 set_tprocs]. destruct (decide (q = this)) as [->|]; [apply lookup_insert_eq|by rewrite lookup_insert_ne]. }
    apply (inv_change _ _ _ None s s1 live zomb credit); [done..|]. intros q. rewrite Hl. destruct (decide (q = this)) as [->|Hq].
    + rewrite Hx. exists (with_childexit sm x). split; [done|]. split; [done|]. split; [by left|]. split; [done|]. split; [by apply val_up; [|lia..]|].
      split; [lia|]. intros _ _. cbn [childexit with_childexit sm set_sem set_val sem val sleeplist]. rewrite (sm_idle _ Hs) by lia. simpl. lia.
    + destruct (tprocs s !! q) as [y|] eqn:Ey; [|done]. exists y. split; [done|]. split; [done|]. split; [by left|]. split; [done|]. by apply (ti_sem _ _ _ _ _ _ _ _ H q y).
Qed.

(** C14: [wait] reaps. When a post is there for the process, [wait_sem] passes
    and takes it; and a process that has used up a post that no zombie it
    reaped accounts for (having passed, or been woken by [post_sem]) finds a
    zombie at the end of its children: [wait] gives its local pid, exit code
    and pid, removes it, takes its pid out of the map and the hash map, and
    frees both pids; the invariants of the tree and of the pids hold. *)
Theorem wait_reaps s live zomb credit this w x :
  tree_inv None s live zomb credit -> pid_inv s -> tree_lock s = false -> tprocs s !! this = Some x -> t_state x = RUNNING ->
  (0 < val (sem (childexit x)) \/ 0 < credit this) ->
  exists s1, (s1 = s \/ wait_enter ch_off this w s = Ret (Some true, s1)) /\
    exists zs z xz s', zomb this = zs ++ [z] /\ tprocs s !! z = Some xz /\ t_state xz = ZOMBIE /\
      wait_reap ch_off pt_off this s1 = Ret (Some (t_localpid xz, exitcode xz, t_pid xz), s') /\
      (exists credit', tree_inv None s' live (kupd zomb this zs) credit') /\ pid_inv s' /\ tree_lock s' = false /\ reaped s1 s' z xz.
Proof.
  intros H Hpi Hlk Hx Hst Hor. assert (Hnz : t_state x <> ZOMBIE) by (by rewrite Hst).
  destruct (decide (0 < val (sem (childexit x)))) as [Hv|Hv].
  - destruct (wait_enter_Ret s live zomb credit this w x H Hx Hnz Hv) as (s1 & E1 & H1 & Es). exists s1. split; [by right|]. set (x1 := with_childexit _ x) in Es.
    assert (Hx1 : tprocs s1 !! this = Some x1) by (rewrite Es; apply lookup_insert_eq).
    assert (Hpi1 : pid_inv s1).
    { apply (pid_inv_same s s1 Hpi); try (by rewrite Es).
      - rewrite Es. cbn [tprocs set_tprocs]. rewrite dom_insert_L. apply elem_of_dom_2 in Hx. set_solver.
      - intros q y Hy. rewrite Es. cbn [tprocs set_tprocs]. destruct (decide (q = this)) as [->|Hq]; [rewrite lookup_insert_eq|rewrite lookup_insert_ne by (by apply not_eq_sym); by exists y].
        rewrite Hx in Hy. injection Hy as <-. by exists x1. }
    destruct (ti_sem _ _ _ _ _ _ _ _ H this x Hx) as (_ & Hc & _).
    destruct (wait_reap_Ret ch_off pt_off root_proc this s1 live zomb _ x1 H1 Hpi1) as (zs & z & xz & s' & Ez & Hz & Hzz & E2 & H2 & Hpi2 & Hlk2 & Hr); [by rewrite Es|done|done|rewrite decide_True by done; lia|].
    exists zs, z, xz, s'. split; [done|]. split; [|split; [done|split; [done|split; [by eexists|done]]]].
    rewrite Es in Hz. cbn [tprocs set_tprocs] in Hz. rewrite lookup_insert_ne in Hz; [done|]. intros <-.
    destruct (ti_kid _ _ _ _ _ _ _ _ H this this) as (_ & Hn & _); [|done]. rewrite Ez, !elem_of_app, list_elem_of_singleton. tauto.
  - exists s. split; [by left|]. destruct (wait_reap_Ret ch_off pt_off root_proc this s live zomb credit x H Hpi) as (zs & z & xz & s' & Ez & Hz & Hzz & E2 & H2 & Hpi2 & Hlk2 & Hr); [done|done|done|lia|].
    exists zs, z, xz, s'. split; [done|]. split; [done|]. split; [done|]. split; [done|]. split; [by eexists|done].
Qed.

(** C39: [kill] finds the process with the pid, or none: it gives -1 for a
    negative pid and a pid no process has, changing nothing; for a started
    process it sets [killed] and makes it runnable if it sleeps; but for a
    process that is not started yet it gives -1 and keeps the lock of the
    process tree, after which every [exit] and every [kill] is stuck. *)
Theorem kill_spec s pid :
  pid_inv s -> tree_lock s = false ->
  (pid < 0 /\ kill pid s = Ret (-1, s)) \/
  (0 <= pid /\ (forall p x, tprocs s !! p = Some x -> t_pid x <> pid) /\ kill pid s = Ret (-1, s)) \/
  (exists p x, tprocs s !! p = Some x /\ t_pid x = pid /\ t_state x <> UNUSED /\
     kill pid s = Ret (0, set_tprocs (insert p (if bool_decide (t_state x = SLEEPING) then t_with_state RUNNABLE (t_with_killed true x) else t_with_killed true x)) s)) \/
  (exists p x s', tprocs s !! p = Some x /\ t_pid x = pid /\ t_state x = UNUSED /\ kill pid s = Ret (-1, s') /\
     (forall pid', 0 <= pid' -> kill pid' s' = Stop Sleep) /\ acquire_tree s' = Stop Sleep).
Proof.
  intros H Hlk. destruct (decide (pid < 0)) as [Hneg|Hneg]; [left; split; [done|]; unfold kill; by rewrite (proj2 (Z.ltb_lt pid 0)) by lia|right].
  set (s1 := set_tree_lock true s).
  assert (Ea : acquire_tree s = Ret (tt, s1)) by (unfold acquire_tree; rewrite (bind_Ret (gets tree_lock) _ s _ s eq_refl); by rewrite Hlk).
  assert (H1 : hash_inv s1) by (by apply (hash_inv_same s); [apply (pi_map _ H)|..]).
  assert (Hback : set_tree_lock false s1 = s) by (unfold s1, set_tree_lock; cbn; rewrite <- Hlk; by destruct s).
  destruct (lookup_pid_Ret s1 pid H1 ltac:(lia)) as (r & El & Hsome & Hnone). destruct (decide (r = 0)) as [->|Hr0].
  - left. split; [lia|]. split; [exact (Hnone eq_refl)|]. unfold kill. rewrite (proj2 (Z.ltb_ge pid 0)) by lia.
    rewrite (bind_Ret _ _ _ _ _ Ea), (bind_Ret _ _ _ _ _ El). rewrite Z.eqb_refl. cbn [negb]. rewrite (bind_Ret release_tree _ s1 tt s); [done|]. unfold release_tree, modify. by rewrite Hback.
  - right. destruct (Hsome Hr0) as (e & He & Epid). destruct (pi_node _ H1 r e He) as (_ & _ & x & Hx & Ex). set (p := h_proc e) in *.
    assert (Ek : kill pid s = (y <- get_tp p ;; if bool_decide (t_state y = UNUSED) then ret (-1) else
        put_tp p (t_with_killed true) ;;; when (bool_decide (t_state y = SLEEPING)) (put_tp p (t_with_state RUNNABLE)) ;;; release_tree ;;; ret 0) s1).
    { unfold kill. rewrite (proj2 (Z.ltb_ge pid 0)) by lia. rewrite (bind_Ret _ _ _ _ _ Ea), (bind_Ret _ _ _ _ _ El). rewrite (proj2 (Z.eqb_neq r 0)) by done. cbn [negb].
      rewrite (bind_Ret (gets _) _ s1 _ s1 eq_refl). by rewrite He. }
    rewrite (bind_Ret _ _ _ _ _ (get_tp_Ret p s1 x Hx)) in Ek. destruct (decide (t_state x = UNUSED)) as [Hu|Hu].
    + right. exists p, x, s1. rewrite bool_decide_true in Ek by done. split; [done|]. split; [congruence|]. split; [done|]. split; [done|]. split; [|done].
      intros pid' Hp'. unfold kill. by rewrite (proj2 (Z.ltb_ge pid' 0)) by lia.
    + left. exists p, x. split; [done|]. split; [congruence|]. split; [done|]. rewrite bool_decide_false in Ek by done. rewrite Ek.
      rewrite (bind_Ret _ _ _ _ _ (put_tp_Ret p _ s1 x Hx)). set (s2 := set_tprocs _ s1). destruct (bool_decide (t_state x = SLEEPING)); cbn [when].
      * rewrite (bind_Ret _ _ s2 _ _ (put_tp_Ret p _ s2 _ (lookup_insert_eq _ _ _))). unfold release_tree, modify, bind, ret. do 2 f_equal.
        unfold s2, s1, set_tprocs, set_tree_lock. cbn. by rewrite insert_insert_eq, <- Hlk.
      * rewrite (bind_Ret (ret tt) _ s2 tt s2 eq_refl). unfold release_tree, modify, bind, ret. do 2 f_equal. unfold s2, s1, set_tprocs, set_tree_lock. cbn. by rewrite <- Hlk.
Qed.
End props.

(** ** A concrete tree *)
Definition demo_proc (pid : Z) (st : procstate) (posts par : Z) : tproc := mkTproc false false pid pid 0 st (mkSemSt (init_sem posts) ∅ []) par 7.
Definition demo_procs : gmap Z tproc :=
  <[1000 := demo_proc 0 RUNNABLE 0 1000]> (<[2000 := demo_proc 1 RUNNING 1 1000]> (<[3000 := demo_proc 2 SLEEPING 0 2000]> {[4000 := demo_proc 3 ZOMBIE 0 2000]})).
Definition demo_links : lheap :=
  list_to_map [(1016, mkNode 2032 2032); (2032, mkNode 1016 1016); (2016, mkNode 4032 3032); (3032, mkNode 2016 4032); (4032, mkNode 3032 2016);
    (3016, mkNode 3016 3016); (4016, mkNode 4016 4016); (1032, mkNode 1032 1032)].
Definition demo_hps : gmap Z hashpid_t :=
  <[501 := mkHashpid 0 1000]> (<[502 := mkHashpid 1 2000]> (<[503 := mkHashpid 2 3000]> {[504 := mkHashpid 3 4000]})).
Definition demo_pids : pidmap_t := mkPidmap [15; 0; 0; 0] 3.
Definition demo_buckets : list Z := [501; 502; 503; 504] ++ replicate 124 0.
Definition demo_tree : tree_st :=
  mkTree demo_links demo_procs false {[7 := 1000]} demo_pids {[7 := demo_pids]} (mkHm (list_to_map [(501, 0); (502, 0); (503, 0); (504, 0)]) demo_buckets) demo_hps.
Definition demo_live (p : Z) : list Z := if p =? 1000 then [2000] else if p =? 2000 then [3000] else [].
Definition demo_zomb (p : Z) : list Z := if p =? 2000 then [4000] else [].

Ltac proc_cases H :=
  match type of H with
  | tprocs demo_tree !! ?q = Some ?x =>
      change (demo_procs !! q = Some x) in H; unfold demo_procs in H;
      apply lookup_insert_Some in H as [[<- <-]|[_ H]]; [|apply lookup_insert_Some in H as [[<- <-]|[_ H]]; [|apply lookup_insert_Some in H as [[<- <-]|[_ H]]; [|apply lookup_singleton_Some in H as [<- <-]]]]
  end.
Ltac hp_cases H :=
  match type of H with
  | hashpids demo_tree !! ?q = Some ?x =>
      change (demo_hps !! q = Some x) in H; unfold demo_hps in H;
      apply lookup_insert_Some in H as [[<- <-]|[_ H]]; [|apply lookup_insert_Some in H as [[<- <-]|[_ H]]; [|apply lookup_insert_Some in H as [[<- <-]|[_ H]]; [|apply lookup_singleton_Some in H as [<- <-]]]]
  end.

Lemma demo_kids p c : c ∈ demo_live p ++ demo_zomb p -> (p = 1000 /\ c = 2000) \/ (p = 2000 /\ c = 3000) \/ (p = 2000 /\ c = 4000).
Proof.
  unfold demo_live, demo_zomb. destruct (Z.eqb_spec p 1000) as [->|H1]; [intros ->%list_elem_of_singleton; by left|].
  destruct (Z.eqb_spec p 2000) as [->|H2]; [|by intros ?%elem_of_nil]. simpl. intros [->| ->%list_elem_of_singleton]%elem_of_cons; right; [by left|by right].
Qed.

Lemma demo_ring_ok l : bool_decide (NoDup l) && bool_decide (0 ∉ l) = true -> match l with [] => False | a :: l' => opath demo_links a l' /\ CList.linked demo_links (lst a l') a end -> ring demo_links l.
Proof. intros [H1 H2]%andb_true_iff. apply bool_decide_eq_true in H1, H2. destruct l as [|a l]; [done|]. intros [H3 H4]. by split. Qed.

Lemma demo_tree_inv : tree_inv 16 32 1000 None demo_tree demo_live demo_zomb (fun _ => 0).
Proof.
  split.
  - intros p [x Hx] _. proc_cases Hx; (apply demo_ring_ok; [reflexivity|vm_compute; tauto]).
  - intros p [x Hx]. proc_cases Hx; (split; [by eexists|]; split; [done|]; split; [by eexists|done]).
  - intros p q [x Hx] [y Hy]. proc_cases Hx; proc_cases Hy; done.
  - intros p c [[-> ->]|[[-> ->]|[-> ->]]]%demo_kids; (split; [by eexists|]; split; [done|]; split; [done|]; by eexists).
  - intros p. apply (bool_decide_unpack _). unfold demo_live, demo_zomb. destruct (p =? 1000), (p =? 2000); reflexivity.
  - intros c x Hx _ Hr. proc_cases Hx; [done|..]; apply (bool_decide_unpack _); reflexivity.
  - intros p c x Hc Hx. assert (Hk : c ∈ demo_live p ++ demo_zomb p) by (apply elem_of_app; by left). destruct (demo_kids p c Hk) as [[-> ->]|[[-> ->]|[-> ->]]].
    + by injection Hx as <-.
    + by injection Hx as <-.
    + by apply list_elem_of_singleton in Hc.
  - intros p c x Hc Hx. assert (Hk : c ∈ demo_live p ++ demo_zomb p) by (apply elem_of_app; by right). destruct (demo_kids p c Hk) as [[-> ->]|[[-> ->]|[-> ->]]].
    + by apply elem_of_nil in Hc.
    + by apply list_elem_of_singleton in Hc.
    + by injection Hx as <-.
  - intros p x Hx. proc_cases Hx; (split; [|split; [done|done]]); (split; simpl; try done; try lia; [constructor|]; intros w; rewrite elem_of_nil; split; [done|]; by intros [? ?]).
  - intros p x Hx Hz. by proc_cases Hx.
  - intros c r Hr. change (({[7 := 1000]} : gmap Z Z) !! c = Some r) in Hr. apply lookup_singleton_Some in Hr as [<- <-]. eexists. split; [reflexivity|]. done.
  - eexists. split; reflexivity.
  - reflexivity.
Qed.

Definition demo_bs : list (list Z) := [[501]; [502]; [503]; [504]] ++ replicate 124 [].

Lemma demo_rep : hm_rep (hash demo_tree 0) (h demo_tree) demo_bs.
Proof.
  assert (Hl : forall i l, demo_bs !! i = Some l -> (i < 4)%nat \/ l = []).
  { intros i l. unfold demo_bs. intros Hi. destruct (decide (i < 4)%nat) as [|Hge]; [by left|right]. rewrite lookup_app_r in Hi by (simpl; lia). by apply lookup_replicate in Hi as [? _]. }
  split; [reflexivity|reflexivity|..].
  - intros i p l Hp Hb. destruct (Hl i l Hb) as [Hi| ->].
    + destruct i as [|[|[|[|i]]]]; [..|lia]; injection Hp as <-; injection Hb as <-; (split; [done|]; split; [done|]; exists 0; done).
    + destruct (decide (i < 4)%nat) as [Hi|Hi]; [destruct i as [|[|[|[|i]]]]; [done..|lia]|]. cbn [h demo_tree bullet] in Hp. unfold demo_buckets in Hp.
      rewrite lookup_app_r in Hp by (simpl; lia). by apply lookup_replicate in Hp as [? _].
  - intros i l a Hb Ha. destruct (Hl i l Hb) as [Hi| ->]; [|by apply elem_of_nil in Ha].
    destruct i as [|[|[|[|i]]]]; [..|lia]; injection Hb as <-; apply list_elem_of_singleton in Ha as ->; reflexivity.
  - intros i l Hb. destruct (Hl i l Hb) as [Hi| ->]; [|constructor]. destruct i as [|[|[|[|i]]]]; [..|lia]; injection Hb as <-; apply NoDup_singleton.
Qed.

Lemma demo_pid_inv : pid_inv demo_tree.
Proof.
  assert (Hw : pid_wf demo_pids) by (split; [|done]; split; [done|]; repeat constructor; lia).
  split; [split| | | |].
  - intros p x Hx. by proc_cases Hx.
  - exists demo_bs. split; [apply demo_rep|]. by vm_compute.
  - apply (bool_decide_unpack _). by vm_compute.
  - intros hp x Hx. hp_cases Hx; (split; [done|]; split; [done|]; by eexists).
  - intros p x Hx. proc_cases Hx; [exists 501|exists 502|exists 503|exists 504]; reflexivity.
  - intros a b x y Hx Hy. by hp_cases Hx; hp_cases Hy.
  - exact Hw.
  - intros p x Hx. by proc_cases Hx.
  - intros p x Hx _. exists demo_pids. by proc_cases Hx.
  - intros p q x y Hx Hy Hpq. by proc_cases Hx; proc_cases Hy.
Qed.

Lemma child_started_witness :
  exists pid lp s' credit',
    (init_proc 16 32 7 5000 505 ;;; set_parent_to_this 16 32 2000 5000 ;;; start_proc 16 32 1000 5000) demo_tree = Ret (lp, s') /\
    tree_inv 16 32 1000 None s' (kupd demo_live 2000 (5000 :: demo_live 2000)) demo_zomb credit' /\ pid_inv s' /\ tree_lock s' = false /\
    tprocs s' = <[5000 := started 7 pid lp 2000 RUNNABLE]> demo_procs /\
    pid_used demo_pids pid = false /\ next_fit demo_pids pid /\ pid_used demo_pids lp = false /\ next_fit demo_pids lp.
Proof.
  refine (child_started 16 32 1000 7 demo_tree demo_live demo_zomb (fun _ => 0) 2000 _ 5000 505 demo_pids demo_tree_inv demo_pid_inv eq_refl eq_refl _ _ _ eq_refl _ _).
  - done.
  - by split.
  - exists 4. by split.
  - split; [|done]; split; [done|]; repeat constructor; lia.
  - exists 4. by split.
Defined.

Lemma exit_correct_witness :
  exists s' live' zomb' credit' l1 l2, exit 16 32 2000 77 demo_tree = Ret (tt, s') /\ tree_inv 16 32 1000 None s' live' zomb' credit' /\ pid_inv s' /\ tree_lock s' = false /\
    (exists x', tprocs s' !! 2000 = Some x' /\ t_state x' = ZOMBIE /\ exitcode x' = 77) /\ live' 2000 = [] /\ zomb' 2000 = [] /\
    live_to demo_live 2000 1000 1000 = l1 ++ 2000 :: l2 /\ live' 1000 = l1 ++ l2 /\ zomb' 1000 = zomb_to demo_zomb 2000 1000 1000 ++ [2000] /\
    (forall q, q <> 2000 -> q <> 1000 -> live' q = live_to demo_live 2000 1000 q /\ zomb' q = zomb_to demo_zomb 2000 1000 q) /\
    (forall q y, q <> 2000 -> tprocs demo_tree !! q = Some y -> exists y', tprocs s' !! q = Some y' /\ same_proc y y' /\ parent y' = if decide (q ∈ demo_live 2000 ++ demo_zomb 2000) then 1000 else parent y).
Proof.
  refine (exit_correct 16 32 1000 demo_tree demo_live demo_zomb (fun _ => 0) 2000 77 (demo_proc 1 RUNNING 1 1000) 1000 demo_tree_inv demo_pid_inv eq_refl eq_refl eq_refl eq_refl eq_refl _ _ _); [done|done|reflexivity].
Defined.

Lemma wait_reaps_witness :
  exists s1, (s1 = demo_tree \/ wait_enter 16 2000 9000 demo_tree = Ret (Some true, s1)) /\
    exists zs z xz s', demo_zomb 2000 = zs ++ [z] /\ tprocs demo_tree !! z = Some xz /\ t_state xz = ZOMBIE /\
      wait_reap 16 32 2000 s1 = Ret (Some (t_localpid xz, exitcode xz, t_pid xz), s') /\
      (exists credit', tree_inv 16 32 1000 None s' demo_live (kupd demo_zomb 2000 zs) credit') /\ pid_inv s' /\ tree_lock s' = false /\ reaped s1 s' z xz.
Proof.
  refine (wait_reaps 16 32 1000 demo_tree demo_live demo_zomb (fun _ => 0) 2000 9000 (demo_proc 1 RUNNING 1 1000) demo_tree_inv demo_pid_inv eq_refl eq_refl eq_refl _). by left.
Defined.

Lemma kill_spec_witness :
  let s := set_tprocs (insert 3000 (demo_proc 2 UNUSED 0 2000)) demo_tree in
  kill 2 s = Ret (-1, set_tree_lock true s) /\ fst <$> (match kill 2 demo_tree with Ret r => Some r | _ => None end) = Some 0 /\
  ((2 < 0 /\ kill 2 demo_tree = Ret (-1, demo_tree)) \/
   (0 <= 2 /\ (forall p x, tprocs demo_tree !! p = Some x -> t_pid x <> 2) /\ kill 2 demo_tree = Ret (-1, demo_tree)) \/
   (exists p x, tprocs demo_tree !! p = Some x /\ t_pid x = 2 /\ t_state x <> UNUSED /\
      kill 2 demo_tree = Ret (0, set_tprocs (insert p (if bool_decide (t_state x = SLEEPING) then t_with_state RUNNABLE (t_with_killed true x) else t_with_killed true x)) demo_tree)) \/
   (exists p x s', tprocs demo_tree !! p = Some x /\ t_pid x = 2 /\ t_state x = UNUSED /\ kill 2 demo_tree = Ret (-1, s') /\
      (forall pid', 0 <= pid' -> kill pid' s' = Stop Sleep) /\ acquire_tree s' = Stop Sleep)).
Proof.
  split; [by vm_compute|]. split; [by vm_compute|]. exact (kill_spec demo_tree 2 demo_pid_inv eq_refl).
Defined.
