(* ===== verification/SysFile.v ===== *)
(** * The system calls on files (kernel/sysfile.c)

    The state is that of the open files and of the calling process: its
    descriptors, its working directory, the sections and the memory of its
    address space, and the number of pages [alloc_page_for_user] gave the
    kernel that it has not given back. [umem a] is the byte at the user
    address [a]; a page fault that brings it in is invisible here. Arguments
    are the C values after conversion to their declared types; negative
    results are shown as such, not as the [u64] that holds them. *)
From stdpp Require Import base gmap list.
From Stdlib Require Import ZArith Lia.
From S2P Require Import Prelude Bytes BCache BlockStore CString Console Inode Pipe File Mmu Sections.

Definition AT_FDCWD : Z := -100.
Definition O_WRONLY : Z := 1.
Definition O_RDWR : Z := 2.
Definition O_CREAT : Z := 64.
Definition PROT_WRITE : Z := 2.
Definition sizeof_iovec : Z := 16.

Record syst (St : Type) := mkSys { files : fst_ St; fps : oftable; cwd : Z; sections : list section; umem : Z -> Z; pages : Z }.
Arguments mkSys {St} _ _ _ _ _ _.
Arguments files {St} _.
Arguments fps {St} _.
Arguments cwd {St} _.
Arguments sections {St} _.
Arguments umem {St} _.
Arguments pages {St} _.

(** [n] bytes of [mem] from [a] on, and [mem] with [bs] stored from [a] on. *)
Definition mem_range (mem : Z -> Z) (a : Z) (n : nat) : bytes := (fun k => mem (u64 (a + Z.of_nat k))) <$> seq 0 n.
Definition mem_store (mem : Z -> Z) (a : Z) (bs : bytes) : Z -> Z :=
  fun b => match bs !! Z.to_nat (u64 (b - a)) with Some x => x | None => mem b end.

Section code.
Context {St : Type} {BC : BlockCache St} (sblock : SuperBlock) {KA : Kalloc} (uninit : InodeEntry) (kpage : list Z).
(** The structure [stat] of the C library. *)
Context (sizeof_stat : Z) (stat_bytes : stat -> bytes).
(** The operation context on the stack and the calling thread. *)
Context (ctx t : Z).
Abbreviation M := (M (syst St)).

Definition set_files (f : fst_ St) (s : syst St) : syst St := mkSys f (fps s) (cwd s) (sections s) (umem s) (pages s).
Definition set_fps (f : oftable -> oftable) (s : syst St) : syst St := mkSys (files s) (f (fps s)) (cwd s) (sections s) (umem s) (pages s).
Definition set_cwd (p : Z) (s : syst St) : syst St := mkSys (files s) (fps s) p (sections s) (umem s) (pages s).
Definition set_sections (f : list section -> list section) (s : syst St) : syst St := mkSys (files s) (fps s) (cwd s) (f (sections s)) (umem s) (pages s).
Definition set_umem (m : Z -> Z) (s : syst St) : syst St := mkSys (files s) (fps s) (cwd s) (sections s) m (pages s).
Definition set_pages (n : Z) (s : syst St) : syst St := mkSys (files s) (fps s) (cwd s) (sections s) (umem s) n.

Definition on_files {A} (m : Prelude.M (fst_ St) A) : M A := zoom files set_files m.
Definition on_ino {A} (m : Prelude.M (ist St) A) : M A := on_files (on_inodes m).
Definition begin_op : M unit := on_files (on_bcache (bc_begin_op ctx)).
Definition end_op : M unit := on_files (on_bcache (bc_end_op ctx)).

Definition user_bytes (a n : Z) : M bytes := gets (fun s => mem_range (umem s) a (Z.to_nat n)).
Definition to_user (a : Z) (bs : bytes) : M unit := modify (fun s => set_umem (mem_store (umem s) a bs) s).
Definition alloc_page_for_user : M unit := modify (fun s => set_pages (pages s + 1) s).
Definition free_page : M unit := modify (fun s => set_pages (pages s - 1) s).
Definition readable_user (a n : Z) : M bool := gets (fun s => user_readable (sections s) a n).
Definition writeable_user (a n : Z) : M bool := gets (fun s => user_writeable (sections s) a n).

(** [user_strlen(path, 256)], and the string with its terminator. *)
Definition user_path (a : Z) : M (option bytes) :=
  n <- gets (fun s => user_strlen (sections s) (umem s) a 256) ;;
  if n =? 0 then ret None else p <- user_bytes a n ;; ret (Some p).

(** ** Descriptors *)
Definition fd2file (fd : Z) : M (option Z) :=
  if (fd >=? NOFILE) || (fd <? 0) then ret None
  else o <- gets fps ;; match o !! Z.to_nat fd with Some f => ret f | None => stop Fault end.

(** The loop runs to [NFILE], the table has [NOFILE] entries. *)
Definition fdalloc (f : Z) : M Z :=
  r <- for_upto (Z.to_nat NFILE) 0 (fun i =>
    o <- gets fps ;;
    match o !! Z.to_nat i with
    | None => stop Fault
    | Some (Some _) => ret None
    | Some None => modify (set_fps (insert (Z.to_nat i) (Some f))) ;;; ret (Some i)
    end) ;;
  match r with Some i => ret i | None => ret (-1) end.

Definition sys_ioctl (fd request : Z) : M Z := assert (request =? 0x5413) ;;; ret 0.

Definition sys_dup (fd : Z) : M Z :=
  f <- fd2file fd ;;
  match f with
  | None => ret (-1)
  | Some f => nfd <- fdalloc f ;; if nfd <? 0 then ret (-1) else on_files (filedup f) ;;; ret nfd
  end.

Definition sys_close (fd : Z) : M Z :=
  if (fd >=? NOFILE) || (fd <? 0) then ret (-1)
  else
    f <- fd2file fd ;;
    match f with
    | None => stop Fault
    | Some f => on_files (fileclose sblock ctx t f) ;;; modify (set_fps (insert (Z.to_nat fd) None)) ;;; ret 0
    end.

(** ** Mappings *)
Definition sys_mmap (addr length prot fl fd offset : Z) : M Z :=
  f <- fd2file fd ;;
  match f with
  | None => ret (-1)
  | Some f =>
      x <- on_files (load_file f) ;;
      if negb (bool_decide (fty x = FD_INODE)) then ret (-1)
      else
        l <- gets sections ;;
        let addr := if addr =? 0 then PAGE_BASE (u64 (foldl (fun b s => Z.max b (end_ s)) 0 l + Z.shiftl PAGE_SIZE 4)) else addr in
        let st_length := u64 length in
        let st := mkSection (if negb (Z.land prot PROT_WRITE =? 0) then ST_FILE else Z.lor ST_FILE ST_RO) addr (u64 (addr + st_length)) f (u64 offset) st_length in
        modify (set_sections (fun l => st :: l)) ;;; ret 0
  end.

(** The first section that satisfies [f] leaves the list. *)
Fixpoint detach_section (f : section -> bool) (l : list section) : list section :=
  match l with
  | [] => []
  | st :: l => if f st then l else st :: detach_section f l
  end.

Definition sys_munmap (addr length : Z) : M Z :=
  l <- gets sections ;;
  let found st := (begin st <=? addr) && (u64 (addr + length) <? end_ st) in
  match find_section found l with
  | None => ret (-1)
  | Some st =>
      begin_op ;;;
      x <- on_files (load_file (fp st)) ;;
      src <- user_bytes addr (u64 length) ;;
      on_ino (inode_write sblock (Some ctx) (ip x) src (u64 (offset st + addr - begin st)) (u64 length)) ;;;
      end_op ;;;
      modify (set_sections (detach_section found)) ;;;
      when (begin st <? addr) (modify (set_sections (fun l => mkSection (flags st) (begin st) addr (fp st) (offset st) (u64 (addr - begin st)) :: l))) ;;;
      when (u64 (addr + length) <? end_ st)
        (let b := u64 (addr + length) in
         modify (set_sections (fun l => mkSection (flags st) b (end_ st) (fp st) (u64 (offset st + b - begin st)) (u64 (end_ st - b)) :: l))) ;;;
      ret 0
  end.

(** ** read and write *)
Definition read_turn (f buffer size i : Z) : M (Z + Z) :=
  if i <? size then
    r <- on_files (fileread t f (Z.min PAGE_SIZE (size - i))) ;;
    let n := i32 r.1 in
    to_user (u64 (buffer + i)) (take (Z.to_nat (Z.max n 0)) r.2) ;;;
    let i := i32 (i + n) in
    ret (if n =? Z.min PAGE_SIZE (size - i) then inl i else inr i)
  else ret (inr i).

Definition sys_read (fuel : nat) (fd buffer size : Z) : M Z :=
  f <- fd2file fd ;;
  w <- writeable_user buffer size ;;
  match f with
  | None => ret (-1)
  | Some f =>
      if (size <=? 0) || negb w then ret (-1)
      else alloc_page_for_user ;;; i <- while fuel (read_turn f buffer size) 0 ;; free_page ;;; ret i
  end.

(** [fuel] also bounds the turns of [filewrite]. *)
Definition write_turn (fuel : nat) (f buffer size i : Z) : M (Z + Z) :=
  if i <? size then
    let n := Z.min PAGE_SIZE (size - i) in
    ka <- user_bytes (u64 (buffer + i)) n ;;
    r <- on_files (filewrite sblock fuel ctx t f ka n) ;;
    let n := i32 r in
    let i := i32 (i + n) in
    ret (if n =? Z.min PAGE_SIZE (size - i) then inl i else inr i)
  else ret (inr i).

Definition sys_write (fuel : nat) (fd buffer size : Z) : M Z :=
  f <- fd2file fd ;;
  r <- readable_user buffer size ;;
  match f with
  | None => ret (-1)
  | Some f =>
      if (size <=? 0) || negb r then ret (-1)
      else alloc_page_for_user ;;; i <- while fuel (write_turn fuel f buffer size) 0 ;; free_page ;;; ret i
  end.

(** [inl] is the total so far, [inr] the return of -1. *)
Definition writev_turn (fuel : nat) (f iov p tot : Z) : M (Z + unit) :=
  iov_base <- user_bytes (u64 (iov + p * sizeof_iovec)) 8 ;;
  iov_len <- user_bytes (u64 (iov + p * sizeof_iovec + 8)) 8 ;;
  let iov_base := le_decode iov_base in
  let iov_len := le_decode iov_len in
  r <- readable_user iov_base iov_len ;;
  if negb r then ret (inr tt)
  else i <- while fuel (write_turn fuel f iov_base (i32 iov_len)) 0 ;; ret (inl (u64 (tot + i))).

Definition sys_writev (fuel : nat) (fd iov iovcnt : Z) : M Z :=
  f <- fd2file fd ;;
  r <- readable_user iov (u64 (sizeof_iovec * iovcnt)) ;;
  match f with
  | None => ret (-1)
  | Some f =>
      if (iovcnt <=? 0) || negb r then ret (-1)
      else
        alloc_page_for_user ;;;
        res <- while (S (Z.to_nat iovcnt)) (fun '(p, tot) =>
          if p <? iovcnt then
            x <- writev_turn fuel f iov p tot ;;
            ret (match x with inl tot => inl (p + 1, tot) | inr _ => inr None end)
          else ret (inr (Some tot))) (0, 0) ;;
        match res with
        | None => ret (-1)
        | Some tot => free_page ;;; ret tot
        end
  end.

Definition sys_fstat (fd st : Z) : M Z :=
  f <- fd2file fd ;;
  w <- writeable_user st sizeof_stat ;;
  match f with
  | None => ret (-1)
  | Some f =>
      if negb w then ret (-1)
      else r <- on_files (filestat f) ;; match r.2 with Some x => to_user st (stat_bytes x) | None => ret tt end ;;; ret r.1
  end.

(** ** Paths *)
(** What the buffer [name] on the stack holds before the call, and what
    follows the strings "." and ".." in memory: [inode_insert] copies 14 bytes
    of them. *)
Context (nm0 dot_rest dotdot_rest : bytes).

Definition find_path (path : bytes) : M (option Z) := c <- gets cwd ;; on_ino (namei sblock uninit c path nm0 (Some ctx)).
Definition find_parent (path : bytes) : M (option (Z * bytes)) := c <- gets cwd ;; on_ino (nameiparent sblock uninit c path nm0 (Some ctx)).

Definition sys_newfstatat (dirfd path st fl : Z) : M Z :=
  path <- user_path path ;;
  w <- writeable_user st sizeof_stat ;;
  match path with
  | None => ret (-1)
  | Some path =>
      if negb w then ret (-1)
      else if negb (dirfd =? AT_FDCWD) then ret (-1)
      else if negb (fl =? 0) then ret (-1)
      else
        begin_op ;;;
        ip <- find_path path ;;
        match ip with
        | None => end_op ;;; ret (-1)
        | Some ip =>
            on_ino (inode_lock ip) ;;;
            x <- on_ino (stati ip) ;;
            to_user st (stat_bytes x) ;;;
            on_ino (inode_unlock ip) ;;;
            on_ino (inode_put sblock (Some ctx) ip) ;;;
            end_op ;;; ret 0
        end
  end.

(** The loop from [off] on: [true] for no entry in use. *)
Definition isdirempty (dp : Z) : Prelude.M (ist St) bool :=
  e <- load_entry dp ;;
  r <- for_upto (dir_turns e - 2) 2 (fun k =>
    de <- inode_read dp (k * sizeof_DirEntry) sizeof_DirEntry ;;
    assert (de.1 =? sizeof_DirEntry) ;;;
    ret (if negb (de_inode_no (dirent_of de.2) =? 0) then Some tt else None)) ;;
  ret (match r with Some _ => false | None => true end).

(** From the lock of the parent directory on; the operation is still open. *)
Definition unlink_in (dp : Z) (name : bytes) : Prelude.M (ist St) Z :=
  let bad := inode_unlock dp ;;; inode_put sblock (Some ctx) dp ;;; ret (-1) in
  inode_lock dp ;;;
  c1 <- strncmp name [46; 0] FILE_NAME_MAX_LENGTH ;;
  c2 <- (if c1 =? 0 then ret 0 else strncmp name [46; 46; 0] FILE_NAME_MAX_LENGTH) ;;
  if (c1 =? 0) || (c2 =? 0) then bad
  else
    l <- inode_lookup dp name ;;
    if l.1 =? 0 then bad
    else
      ip <- inode_get sblock uninit l.1 ;;
      inode_lock ip ;;;
      e <- load_entry ip ;;
      assert (negb (num_links e <? 1)) ;;;
      empty <- (if type e =? INODE_DIRECTORY then isdirempty ip else ret true) ;;
      if negb empty then inode_unlock ip ;;; inode_put sblock (Some ctx) ip ;;; bad
      else
        n <- inode_write sblock (Some ctx) dp (dirent_bytes (mkDirent 0 (replicate 14 0))) (default 0 l.2) sizeof_DirEntry ;;
        assert (n =? sizeof_DirEntry) ;;;
        when (type e =? INODE_DIRECTORY)
          (update_entry dp (fun d => set_num_links (u16 (num_links d - 1)) d) ;;; inode_sync sblock (Some ctx) dp true) ;;;
        inode_unlock dp ;;;
        inode_put sblock (Some ctx) dp ;;;
        update_entry ip (fun d => set_num_links (u16 (num_links d - 1)) d) ;;;
        inode_sync sblock (Some ctx) ip true ;;;
        inode_unlock ip ;;;
        inode_put sblock (Some ctx) ip ;;;
        ret 0.

Definition sys_unlinkat (fd path flag : Z) : M Z :=
  assert ((fd =? AT_FDCWD) && (flag =? 0)) ;;;
  path <- user_path path ;;
  match path with
  | None => ret (-1)
  | Some path =>
      begin_op ;;;
      dp <- find_parent path ;;
      match dp with
      | None => end_op ;;; ret (-1)
      | Some (dp, name) => r <- on_ino (unlink_in dp name) ;; end_op ;;; ret r
      end
  end.

(** [create] in the directory; the inode returned is locked. *)
Definition set_device (mj mn : Z) (e : InodeEntry) : InodeEntry := mkEntry (type e) (u16 mj) (u16 mn) 1 (num_bytes e) (addrs e) (indirect e).

Definition create_in (parent : Z) (name : bytes) (ty mj mn : Z) : Prelude.M (ist St) (option Z) :=
  inode_lock parent ;;;
  l <- inode_lookup parent name ;;
  if negb (l.1 =? 0) then
    inode_unlock parent ;;;
    inode_put sblock (Some ctx) parent ;;;
    p <- inode_get sblock uninit l.1 ;;
    inode_lock p ;;;
    e <- load_entry p ;;
    if ty =? type e then ret (Some p)
    else inode_unlock p ;;; inode_put sblock (Some ctx) p ;;; ret None
  else
    ino <- inode_alloc sblock (Some ctx) ty ;;
    inode_insert sblock (Some ctx) parent name ino ;;;
    when (ty =? INODE_DIRECTORY)
      (update_entry parent (fun d => set_num_links (u16 (num_links d + 1)) d) ;;; inode_sync sblock (Some ctx) parent true) ;;;
    inode_unlock parent ;;;
    inode_put sblock (Some ctx) parent ;;;
    p <- inode_get sblock uninit ino ;;
    inode_lock p ;;;
    update_entry p (set_device mj mn) ;;;
    inode_sync sblock (Some ctx) p true ;;;
    when (ty =? INODE_DIRECTORY)
      (inode_insert sblock (Some ctx) p ([46; 0] ++ dot_rest) ino ;;;
       x <- load_inode parent ;;
       inode_insert sblock (Some ctx) p ([46; 46; 0] ++ dotdot_rest) (inode_no x) ;;; ret tt) ;;;
    ret (Some p).

Definition create (path : bytes) (ty mj mn : Z) : M (option Z) :=
  par <- find_parent path ;;
  match par with
  | None => ret None
  | Some (parent, name) => on_ino (create_in parent name ty mj mn)
  end.

Definition sys_openat (dirfd path omode : Z) : M Z :=
  path <- user_path path ;;
  match path with
  | None => ret (-1)
  | Some path =>
      if negb (dirfd =? AT_FDCWD) then ret (-1)
      else
        begin_op ;;;
        ip <- (if negb (Z.land omode O_CREAT =? 0) then create path INODE_REGULAR 0 0
               else ip <- find_path path ;; match ip with None => ret None | Some ip => on_ino (inode_lock ip) ;;; ret (Some ip) end) ;;
        match ip with
        | None => end_op ;;; ret (-1)
        | Some ip =>
            let fail := on_ino (inode_unlock ip) ;;; on_ino (inode_put sblock (Some ctx) ip) ;;; end_op ;;; ret (-1) in
            f <- on_files filealloc ;;
            match f with
            | None => fail
            | Some f =>
                fd <- fdalloc f ;;
                if fd <? 0 then on_files (fileclose sblock ctx t f) ;;; fail
                else
                  on_ino (inode_unlock ip) ;;;
                  end_op ;;;
                  on_files (update_file f (fun x => mkFile FD_INODE (ref x) (Z.land omode O_WRONLY =? 0)
                    (negb (Z.land omode O_WRONLY =? 0) || negb (Z.land omode O_RDWR =? 0)) (fpipe x) ip 0)) ;;;
                  ret fd
            end
        end
  end.

(** [mkdirat] and [mknodat] from the check of [dirfd] on. *)
Definition make_node (dirfd : Z) (path : bytes) (ty mj mn : Z) : M Z :=
  if negb (dirfd =? AT_FDCWD) then ret (-1)
  else
    begin_op ;;;
    ip <- create path ty mj mn ;;
    match ip with
    | None => end_op ;;; ret (-1)
    | Some ip => on_ino (inode_unlock ip) ;;; on_ino (inode_put sblock (Some ctx) ip) ;;; end_op ;;; ret 0
    end.

Definition sys_mkdirat (dirfd path mode : Z) : M Z :=
  path <- user_path path ;;
  match path with
  | None => ret (-1)
  | Some path => if negb (dirfd =? AT_FDCWD) then ret (-1) else if negb (mode =? 0) then ret (-1) else make_node dirfd path INODE_DIRECTORY 0 0
  end.

Definition sys_mknodat (dirfd path mj mn : Z) : M Z :=
  path <- user_path path ;;
  match path with
  | None => ret (-1)
  | Some path => make_node dirfd path INODE_DEVICE mj mn
  end.

(** [path] is not checked: [n] bytes of memory, enough for the string. *)
Definition sys_chdir (n path : Z) : M Z :=
  begin_op ;;;
  path <- user_bytes path n ;;
  ip <- find_path path ;;
  match ip with
  | None => end_op ;;; ret (-1)
  | Some ip =>
      on_ino (inode_lock ip) ;;;
      e <- on_ino (load_entry ip) ;;
      if negb (type e =? INODE_DIRECTORY) then
        on_ino (inode_unlock ip) ;;; on_ino (inode_put sblock (Some ctx) ip) ;;; end_op ;;; ret (-1)
      else
        on_ino (inode_unlock ip) ;;;
        old <- gets cwd ;;
        on_ino (inode_put sblock (Some ctx) old) ;;;
        end_op ;;;
        modify (set_cwd ip) ;;; ret 0
  end.

(** The results of [fdalloc] are stored unchecked. *)
Definition sys_pipe2 (fd fl : Z) : M Z :=
  r <- on_files (pipeAlloc sblock kpage ctx t) ;;
  match r with
  | None => ret (-1)
  | Some (f0, f1) =>
      a <- fdalloc f0 ;; to_user fd (le_encode 4 (u32 a)) ;;;
      b <- fdalloc f1 ;; to_user (u64 (fd + 4)) (le_encode 4 (u32 b)) ;;;
      ret 0
  end.
End code.
