(* ===== verification/SysProps.v ===== *)
(** * Reading and writing through descriptors (kernel/sysfile.c)

    [sys_read] and [sys_write] on a file, against the promises of the inode
    layer, and the count of a file's descriptors. *)
From stdpp Require Import base gmap list.
From Stdlib Require Import ZArith Lia.
From S2P Require Import Prelude Bytes Bitmap BCache BlockStore CString Console Inode InodeFile InodeMap InodeWrite BCacheStore BCacheProps InodeProps Pipe File FileProps Mmu Sections SysFile.

(** ** User memory *)
Lemma mem_range_length mem a n : length (mem_range mem a n) = n.
Proof. unfold mem_range. by rewrite length_fmap, length_seq. Qed.

Lemma mem_range_ok mem a n : (forall b, byte_ok (mem b)) -> Forall byte_ok (mem_range mem a n).
Proof. intros H. apply Forall_fmap, Forall_true. intros k. apply H. Qed.

Lemma mem_store_nil mem a b : mem_store mem a [] b = mem b.
Proof. done. Qed.

Lemma mem_store_app mem a b1 b2 b :
  Z.of_nat (length b1) + Z.of_nat (length b2) <= 2 ^ 64 ->
  mem_store (mem_store mem a b1) (u64 (a + Z.of_nat (length b1))) b2 b = mem_store mem a (b1 ++ b2) b.
Proof.
  intros Hl. unfold mem_store. set (d := u64 (b - a)). set (l1 := Z.of_nat (length b1)) in *.
  assert (Hd : 0 <= d < 2 ^ 64) by (apply Z.mod_pos_bound; lia).
  assert (E : u64 (b - u64 (a + l1)) = u64 (d - l1)).
  { unfold d, u64, wrapu. rewrite Zminus_mod_idemp_r, Zminus_mod_idemp_l. f_equal. lia. }
  rewrite E. destruct (decide (d < l1)) as [Hlt|Hge].
  - assert (E2 : u64 (d - l1) = d - l1 + 2 ^ 64) by (unfold u64, wrapu; symmetry; apply (Z.mod_unique _ _ (-1)); lia).
    rewrite E2, (lookup_ge_None_2 b2) by lia. rewrite lookup_app_l by lia. done.
  - rewrite u64_small by lia. rewrite lookup_app_r by lia. replace (Z.to_nat d - length b1)%nat with (Z.to_nat (d - l1)) by lia.
    destruct (b2 !! Z.to_nat (d - l1)); [done|]. by rewrite lookup_ge_None_2 by lia.
Qed.

Section sys.
Context {St : Type} {BC : BlockCache St} (sblock : SuperBlock) {BL : BlockCacheLaws St sblock} {KA : Kalloc}.
Context (ctx t : Z).

Lemma on_files_Ret {A} (m : M (fst_ St) A) (s : syst St) a f : m (files s) = Ret (a, f) -> on_files m s = Ret (a, set_files f s).
Proof. exact (zoom_Ret files set_files m s a f). Qed.

(** A file open for reading, between system calls. *)
Record readable_file (s : fst_ St) (v : gmap Z bytes) (f : Z) (x : File) (i : Inode) : Prop := {
  rf_idle : idle (cache (inos s)) v;
  rf_file : ftable s !! Z.to_nat f = Some x;
  rf_kind : fty x = FD_INODE /\ File.readable x = true;
  rf_inode : iheap (inos s) !! ip x = Some i;
  rf_lock : 0 < rc i /\ ilock i = 1 /\ ivalid i = true;
  rf_fs : fs_ok sblock v;
  rf_data : file_wf sblock v (entry i);
  rf_off : 0 <= off x <= num_bytes (entry i)
}.

Lemma fileread_Ret s v f x i n :
  readable_file s v f x i -> 0 <= n < 2 ^ 32 ->
  let k := Z.min n (num_bytes (entry i) - off x) in
  exists s', fileread t f n s = Ret ((k, range (Z.to_nat (off x)) (Z.to_nat n) (file_data v (entry i))), s') /\
    readable_file s' v f (set_off (off x + k) x) i.
Proof.
  intros [H1 H2 [Hty Hrd] H4 (Hrc & Hlk & Hval) H6 H7 H8] Hn k.
  set (s1 := set_iheap (insert (ip x) (set_ilock 0 i)) (inos s)).
  destruct (inode_read_reads sblock (fun cs => idle cs v) v s1 (ip x) (set_ilock 0 i) (off x) n (idle_reader v)) as (cs & E & H'); try done.
  { simpl. apply lookup_insert_eq. }
  cbn [entry set_ilock] in E. fold k in E. set (s2 := set_cache cs s1).
  assert (Hmax : num_bytes (entry i) < 2 ^ 32) by apply (num_bytes_nonneg sblock v (entry i) (fw_maps _ _ _ H7)).
  set (x' := set_off (off x + k) x).
  set (s3 := set_iheap (insert (ip x) (set_ilock 1 (set_ilock 0 i))) s2).
  exists (set_ftable (insert (Z.to_nat f) x') (set_inos s3 s)). pose proof (lookup_lt_Some _ _ _ H2) as Hlt. split.
  - unfold fileread. erewrite bind_Ret by (unfold load_file; by rewrite H2). rewrite Hty, Hrd, bool_decide_eq_true_2 by done. cbn [andb].
    erewrite bind_Ret by (unfold on_inodes; apply zoom_Ret; apply (inode_lock_Ret (ip x) (inos s) i); done). fold s1.
    rewrite u64_small by lia. erewrite bind_Ret by (unfold on_inodes; apply zoom_Ret; cbn [inos set_inos]; exact E). cbn [fst].
    erewrite bind_Ret by (unfold update_file; cbn [ftable set_inos]; by rewrite H2). rewrite u64_small by lia. fold x' s2.
    erewrite bind_Ret by (unfold on_inodes; apply zoom_Ret; cbn [inos set_inos set_ftable];
      apply (inode_unlock_Ret (ip x) s2 (set_ilock 0 i)); [simpl; apply lookup_insert_eq|done|done]). done.
  - split; try done.
    + simpl. by apply list_lookup_insert_eq.
    + simpl. rewrite lookup_insert_eq. f_equal. destruct i. simpl in Hlk. by subst.
    + unfold x'. cbn [off set_off]. lia.
Qed.

(** How many bytes a call for [size] bytes can give: full pages only, beyond
    the first page. *)
Definition read_limit (size : Z) : Z := if size <=? PAGE_SIZE then size else PAGE_SIZE * (size / PAGE_SIZE).

Lemma range_exact (l : bytes) o n : (o + n <= length l)%nat -> length (range o n l) = n.
Proof. intros H. unfold range. rewrite length_take, length_drop. lia. Qed.

Lemma take_range (l : bytes) o m n : (m <= n)%nat -> take m (range o n l) = range o m l.
Proof. intros H. unfold range. by rewrite take_take, Nat.min_l. Qed.

Definition same_process (s s' : syst St) : Prop := fps s' = fps s /\ cwd s' = cwd s /\ sections s' = sections s /\ pages s' = pages s.

Lemma read_turn_Ret f buffer size i s v x ip_ :
  readable_file (files s) v f x ip_ -> 0 <= i < size -> size < 2 ^ 31 ->
  let w := Z.min (Z.min PAGE_SIZE (size - i)) (num_bytes (entry ip_) - off x) in
  exists s1, read_turn t f buffer size i s = Ret (if w =? Z.min PAGE_SIZE (size - (i + w)) then inl (i + w) else inr (i + w), s1) /\
    readable_file (files s1) v f (set_off (off x + w) x) ip_ /\ same_process s s1 /\
    umem s1 = mem_store (umem s) (u64 (buffer + i)) (range (Z.to_nat (off x)) (Z.to_nat w) (file_data v (entry ip_))).
Proof.
  intros H Hi Hs w. pose proof (rf_off _ _ _ _ _ H) as Hoff. change PAGE_SIZE with 4096 in *.
  destruct (fileread_Ret (files s) v f x ip_ (Z.min 4096 (size - i)) H ltac:(lia)) as (s2 & E & H2). fold w in E, H2.
  set (data := range (Z.to_nat (off x)) (Z.to_nat w) (file_data v (entry ip_))).
  exists (set_umem (mem_store (umem s) (u64 (buffer + i)) data) (set_files s2 s)). split; [|split; [exact H2|split; [done|done]]].
  unfold read_turn. rewrite (proj2 (Z.ltb_lt i size)) by lia. change PAGE_SIZE with 4096. rewrite (bind_Ret _ _ _ _ _ (on_files_Ret _ s _ _ E)). cbv zeta. cbn [fst snd].
  rewrite !i32_small by lia. rewrite take_range by lia. replace (Z.to_nat (Z.max w 0)) with (Z.to_nat w) by lia. fold data.
  rewrite (bind_Ret (to_user _ _) _ _ tt (set_umem (mem_store (umem s) (u64 (buffer + i)) data) (set_files s2 s)) eq_refl). done.
Qed.

Lemma sys_read_loop f buffer size v ip_ : size < 2 ^ 31 ->
  forall n i (s : syst St) x, readable_file (files s) v f x ip_ -> 0 <= i < size -> (Z.to_nat ((size - i) / PAGE_SIZE) + (if (num_bytes (entry ip_) =? off x)%Z then 1 else 3) <= n)%nat ->
  let k := Z.min (num_bytes (entry ip_) - off x) (read_limit (size - i)) in
  exists s', while n (read_turn t f buffer size) i s = Ret (i + k, s') /\ readable_file (files s') v f (set_off (off x + k) x) ip_ /\ same_process s s' /\
    (forall b, umem s' b = mem_store (umem s) (u64 (buffer + i)) (range (Z.to_nat (off x)) (Z.to_nat k) (file_data v (entry ip_))) b).
Proof.
  intros Hsize. induction n as [|n IH]; intros i s x H Hi Hn k; [destruct (_ =? _); lia|].
  pose proof (num_bytes_nonneg sblock v _ (fw_maps _ _ _ (rf_data _ _ _ _ _ H))) as Hnb. pose proof (rf_off _ _ _ _ _ H) as Hoff.
  pose proof (file_data_length sblock v _ (fw_maps _ _ _ (rf_data _ _ _ _ _ H))) as Hlen.
  rewrite while_S. destruct (read_turn_Ret f buffer size i s v x ip_ H Hi Hsize) as (s1 & E & H1 & Hsame & Hmem).
  set (w := Z.min (Z.min PAGE_SIZE (size - i)) (num_bytes (entry ip_) - off x)) in *. rewrite (bind_Ret _ _ _ _ _ E).
  unfold k, read_limit in *. change PAGE_SIZE with 4096 in *. set (r := size - i) in *. set (D := num_bytes (entry ip_)) in *.
  pose proof (Z.div_mod r 4096 ltac:(lia)) as Hdm. pose proof (Z.mod_pos_bound r 4096 ltac:(lia)) as Hmod.
  assert (Hdiv : 4096 <= r -> 1 <= r / 4096) by (intros; apply Z.div_le_lower_bound; lia).
  assert (Hwd : w = Z.min (Z.min 4096 r) (D - off x)) by done.
  replace (size - (i + w)) with (r - w) in * by lia.
  destruct (Z.eqb_spec w (Z.min 4096 (r - w))) as [Ew|Ew].
  - (* another turn *)
    assert (Hw : i + w < size) by lia.
    destruct (IH (i + w) s1 (set_off (off x + w) x) H1 ltac:(lia)) as (s' & E' & H' & Hsame' & Hmem').
    { replace (size - (i + w)) with (r - w) by lia. cbn [off set_off]. fold D. destruct (Z.eqb_spec D (off x)); [lia|].
      destruct (decide (w = 4096)) as [E4|E4].
      - replace (r - w) with (r + (-1) * 4096) by lia. rewrite Z.div_add by lia. destruct (_ =? _); lia.
      - rewrite (Z.div_small (r - w)) by lia. rewrite (proj2 (Z.eqb_eq D (off x + w))) by lia. lia. }
    cbn [off set_off] in E', H', Hmem'. replace (size - (i + w)) with (r - w) in * by lia. fold D in E', H', Hmem'.
    set (k' := Z.min (D - (off x + w)) (if r - w <=? 4096 then r - w else 4096 * ((r - w) / 4096))) in *.
    assert (Hk : w + k' = Z.min (D - off x) (if r <=? 4096 then r else 4096 * (r / 4096))).
    { unfold k'. destruct (decide (w = 4096)) as [E4|E4].
      - assert (Hr8 : (r - w) / 4096 = r / 4096 - 1) by (replace (r - w) with (r + (-1) * 4096) by lia; rewrite Z.div_add by lia; lia). rewrite Hr8.
        destruct (Z.leb_spec r 4096), (Z.leb_spec (r - w) 4096); lia.
      - destruct (Z.leb_spec r 4096), (Z.leb_spec (r - w) 4096); lia. }
    assert (Hk0 : 0 <= k') by (pose proof (Z.div_pos (r - w) 4096 ltac:(lia) ltac:(lia)); unfold k'; destruct (r - w <=? 4096); lia).
    exists s'. rewrite <- Hk. split; [by rewrite E', Z.add_assoc|]. split; [by rewrite Z.add_assoc; destruct x|].
    split; [destruct Hsame as (?&?&?&?), Hsame' as (?&?&?&?); repeat split; congruence|].
    intros b. rewrite Hmem', Hmem. replace (Z.to_nat (w + k')) with (Z.to_nat w + Z.to_nat k')%nat by lia. rewrite range_app.
    replace (Z.to_nat (off x) + Z.to_nat w)%nat with (Z.to_nat (off x + w)) by lia.
    assert (Hl1 : length (range (Z.to_nat (off x)) (Z.to_nat w) (file_data v (entry ip_))) = Z.to_nat w) by (apply range_exact; lia).
    rewrite <- (mem_store_app _ (u64 (buffer + i))).
    + rewrite Hl1, Z2Nat.id by lia. f_equal. unfold u64, wrapu. rewrite Zplus_mod_idemp_l. f_equal. lia.
    + rewrite Hl1. unfold range. rewrite length_take. lia.
  - assert (Hk : w = Z.min (D - off x) (if r <=? 4096 then r else 4096 * (r / 4096))) by (destruct (Z.leb_spec r 4096); lia).
    exists s1. rewrite <- Hk. split; [done|]. split; [done|]. split; [done|]. intros b. by rewrite Hmem.
Qed.

Lemma fd2file_Ret fd f (s : syst St) : fps s !! Z.to_nat fd = Some f -> 0 <= fd < NOFILE -> fd2file fd s = Ret (f, s).
Proof.
  intros Hf Hfd. unfold fd2file. rewrite (proj2 (Z.ltb_ge fd 0)) by lia. replace (fd >=? NOFILE) with false by lia. cbn [orb].
  rewrite (bind_Ret (gets fps) _ s _ s eq_refl). by rewrite Hf.
Qed.

(** C17: [sys_read] of [size] bytes from an open file returns how many bytes it
    gives: all up to the end of the file for at most one page, and full pages
    only beyond that (a last piece shorter than a page is never asked for);
    it stores exactly these bytes of the file from [buffer] on, advances the
    offset by them, leaves the rest of the process and the file itself as they
    were and gives its page back. *)
Theorem sys_read_correct fuel fd buffer size (s : syst St) v f x i :
  0 <= fd < NOFILE -> fps s !! Z.to_nat fd = Some (Some f) -> readable_file (files s) v f x i ->
  0 < size < 2 ^ 31 -> user_writeable (sections s) buffer size = true -> (Z.to_nat (size / PAGE_SIZE) + 3 <= fuel)%nat ->
  let k := Z.min (num_bytes (entry i) - off x) (read_limit size) in
  exists s', sys_read t fuel fd buffer size s = Ret (k, s') /\ readable_file (files s') v f (set_off (off x + k) x) i /\ same_process s s' /\
    (forall b, umem s' b = mem_store (umem s) (u64 buffer) (range (Z.to_nat (off x)) (Z.to_nat k) (file_data v (entry i))) b).
Proof.
  intros Hfd Hf H Hs Hw Hfuel k. set (s1 := set_pages (pages s + 1) s).
  destruct (sys_read_loop f buffer size v i ltac:(lia) fuel 0 s1 x H ltac:(lia)) as (s' & E & H' & (E1 & E2 & E3 & E4) & Hm).
  { rewrite Z.sub_0_r. destruct (num_bytes (entry i) =? off x)%Z; lia. }
  rewrite Z.sub_0_r, Z.add_0_r in *. fold k in E, H', Hm. exists (set_pages (pages s' - 1) s'). split; [|split; [done|split; [|done]]].
  - unfold sys_read. rewrite (bind_Ret _ _ _ _ _ (fd2file_Ret fd _ s Hf Hfd)). unfold writeable_user. rewrite (bind_Ret (gets _) _ s _ s eq_refl).
    rewrite Hw. cbn [negb]. rewrite (proj2 (Z.leb_gt size 0)) by lia. cbn [orb]. rewrite (bind_Ret alloc_page_for_user _ s tt s1 eq_refl).
    rewrite (bind_Ret _ _ _ _ _ E). rewrite (bind_Ret free_page _ s' tt (set_pages (pages s' - 1) s') eq_refl). done.
  - split; [done|]. split; [done|]. split; [done|]. cbn [pages set_pages]. rewrite E4. cbn [pages s1 set_pages]. lia.
Qed.

(** C18: [sys_write] of at most three blocks to an open file writes exactly
    these bytes of the process's memory at the file's offset, in one
    transaction, advances the offset, returns [size] and gives its page back;
    no other file and nothing of the process changes. *)
Theorem sys_write_correct fd buffer size (s : syst St) v f x i :
  0 <= fd < NOFILE -> fps s !! Z.to_nat fd = Some (Some f) -> writable_file sblock (files s) v f x i ->
  0 < size <= filewrite_max -> off x + size <= INODE_MAX_BYTES -> user_readable (sections s) buffer size = true ->
  (forall b, byte_ok (umem s b)) -> 5 <= free_count sblock v ->
  exists s' v' e',
    sys_write sblock ctx t 2 fd buffer size s = Ret (size, s') /\
    writable_file sblock (files s') v' f (set_off (off x + size) x) (set_entry e' i) /\
    file_data v' e' = splice (Z.to_nat (off x)) (mem_range (umem s) (u64 buffer) (Z.to_nat size)) (file_data v (entry i)) /\
    others sblock v (entry i) v' e' (inode_no i) /\ same_process s s' /\ umem s' = umem s.
Proof.
  intros Hfd Hf H Hs Hmax Hr Hb Hfree. change filewrite_max with 1536 in *. set (src := mem_range (umem s) (u64 buffer) (Z.to_nat size)).
  assert (Hlen : length src = Z.to_nat size) by apply mem_range_length.
  destruct (filewrite_one_transaction sblock ctx t f src size (files s) v x i H) as (fs' & v' & e' & E & H' & Hd & Ho); [change filewrite_max with 1536; lia|done|lia|by apply mem_range_ok|done|].
  rewrite take_ge in Hd by lia. set (s1 := set_pages (pages s + 1) s). set (s2 := set_files fs' s1).
  exists (set_pages (pages s2 - 1) s2), v', e'. split; [|split; [done|split; [done|split; [done|split; [|done]]]]].
  - unfold sys_write. rewrite (bind_Ret _ _ _ _ _ (fd2file_Ret fd _ s Hf Hfd)). unfold readable_user. rewrite (bind_Ret (gets _) _ s _ s eq_refl).
    rewrite Hr. cbn [negb]. rewrite (proj2 (Z.leb_gt size 0)) by lia. cbn [orb]. rewrite (bind_Ret alloc_page_for_user _ s tt s1 eq_refl).
    assert (Ew : while 2 (SysFile.write_turn sblock ctx t 2 f buffer size) 0 s1 = Ret (size, s2)).
    { rewrite while_S. unfold SysFile.write_turn at 1. rewrite (proj2 (Z.ltb_lt 0 size)) by lia. change PAGE_SIZE with 4096. rewrite Z.sub_0_r, Z.min_r, Z.add_0_r by lia.
      unfold user_bytes. rewrite !bind_assoc, (bind_Ret (gets _) _ s1 src s1 eq_refl). rewrite bind_assoc.
      rewrite (bind_Ret _ _ s1 size s2 (on_files_Ret _ s1 _ _ E)). cbv zeta. rewrite !i32_small by lia. rewrite Z.add_0_l, Z.sub_diag.
      rewrite (bind_Ret (ret _) _ s2 _ s2 eq_refl). by rewrite (proj2 (Z.eqb_neq size (Z.min 4096 0))) by lia. }
    rewrite (bind_Ret _ _ _ _ _ Ew). rewrite (bind_Ret free_page _ s2 tt (set_pages (pages s2 - 1) s2) eq_refl). done.
  - split; [done|]. split; [done|]. split; [done|]. cbn. lia.
Qed.
End sys.

(** ** Examples *)
#[local] Existing Instance ex_kalloc.
#[local] Existing Instance ex_cache.
#[local] Existing Instance ex_laws.

(** The name "b" at the start of the heap; the root directory is open. *)
Definition ex_mem (a : Z) : Z := if a =? 0x1000 then 98 else if a =? 0x1001 then 0 else 5.
Definition ex_sys : syst bcst :=
  mkSys (mkFst (inos ex_fst) [ex_file; mkFile FD_NONE 0 false false 0 0 0] false ∅) (Some 0 :: replicate 15 None) 8 [mkSection ST_HEAP 0x1000 0x3000 0 0 0] ex_mem 0.
Definition ex_at_start : File := set_off 0 ex_file.
Definition ex_sys_start : syst bcst := set_files (mkFst (inos ex_fst) [ex_at_start] false ∅) ex_sys.

Lemma ex_sys_writable : writable_file ex_sb (files ex_sys) ex_view 0 ex_file ex_inode.
Proof. destruct ex_writable. by constructor. Qed.
Lemma ex_sys_readable : readable_file ex_sb (files ex_sys_start) ex_view 0 ex_at_start ex_inode.
Proof. destruct ex_writable as [? ? ? ? (?&?&?&?) ? ? ?]. by constructor. Qed.
Lemma ex_mem_ok b : byte_ok (umem ex_sys b).
Proof. unfold byte_ok. cbn [umem ex_sys]. unfold ex_mem. destruct (b =? 0x1000); [lia|]. destruct (b =? 0x1001); lia. Qed.

Lemma sys_read_correct_witness :
  exists s', sys_read 1 4 0 0x2000 100 ex_sys_start = Ret (32, s') /\ readable_file ex_sb (files s') ex_view 0 (set_off 32 ex_at_start) ex_inode /\
    same_process ex_sys_start s' /\ (forall b, umem s' b = mem_store ex_mem 0x2000 (range 0 32 (file_data ex_view ex_dir)) b).
Proof.
  apply (sys_read_correct ex_sb 1 4 0 0x2000 100 ex_sys_start ex_view 0 ex_at_start ex_inode); try done.
  - exact ex_sys_readable.
  - vm_compute. lia.
Defined.

Lemma sys_write_correct_witness :
  exists s' v' e', sys_write ex_sb 7 1 2 0 0x1000 1000 ex_sys = Ret (1000, s') /\
    writable_file ex_sb (files s') v' 0 (set_off (32 + 1000) ex_file) (set_entry e' ex_inode) /\
    file_data v' e' = splice 32 (mem_range ex_mem 0x1000 1000) (file_data ex_view ex_dir) /\
    others ex_sb ex_view ex_dir v' e' 1 /\ same_process ex_sys s' /\ umem s' = ex_mem.
Proof.
  apply (sys_write_correct ex_sb 7 1 0 0x1000 1000 ex_sys ex_view 0 ex_file ex_inode).
  - vm_compute. split; congruence.
  - reflexivity.
  - exact ex_sys_writable.
  - vm_compute. split; congruence.
  - vm_compute. congruence.
  - reflexivity.
  - exact ex_mem_ok.
  - rewrite ex_free. vm_compute. congruence.
Defined.
