(* ===== verification/Hoare.v ===== *)
(** * Triples over the state monad

    What a computation that returns does to an assertion on the state: the
    rules for the constructs of the models, the hint database [stable] of the
    computations known to keep one, and a tactic that walks along code. *)
From stdpp Require Import base list.
From Stdlib Require Import ZArith Lia.
From S2P Require Import Prelude CString.

(** ** Triples *)
Definition hoare {S A} (P : S -> Prop) (m : M S A) (Q : A -> S -> Prop) : Prop := forall s a s', P s -> m s = Ret (a, s') -> Q a s'.
Definition stable {S A} (P : S -> Prop) (m : M S A) : Prop := hoare P m (fun _ => P).

Create HintDb stable.

Section rules.
Context {S : Type}.
Implicit Types (P : S -> Prop).

Lemma hoare_bind {A B} P (m : M S A) (k : A -> M S B) R Q : hoare P m R -> (forall a, hoare (R a) (k a) Q) -> hoare P (bind m k) Q.
Proof. intros Hm Hk s b s' Hs E. apply bind_inv in E as (a & s1 & E1 & E2). by apply (Hk a s1 b s' (Hm s a s1 Hs E1)). Qed.
Lemma hoare_keep {A B} P (m : M S A) (k : A -> M S B) Q : stable P m -> (forall a, hoare P (k a) Q) -> hoare P (bind m k) Q.
Proof. apply hoare_bind. Qed.
Lemma stable_bind {A B} P (m : M S A) (k : A -> M S B) : stable P m -> (forall a, stable P (k a)) -> stable P (bind m k).
Proof. apply hoare_bind. Qed.
Lemma hoare_ret {A} P (a : A) (Q : A -> S -> Prop) : (forall s, P s -> Q a s) -> hoare P (ret a) Q.
Proof. intros H s b s' Hs [= <- <-]. by apply H. Qed.
Lemma stable_ret {A} P (a : A) : stable P (ret a).
Proof. by apply hoare_ret. Qed.
Lemma hoare_stop {A} P r (Q : A -> S -> Prop) : hoare P (stop r) Q.
Proof. intros s a s' _ [=]. Qed.
Lemma hoare_gets {A} P (f : S -> A) : stable P (gets f).
Proof. intros s a s' Hs [= <- <-]. done. Qed.
Lemma stable_stop {A} P r : stable P (stop r : M S A).
Proof. apply hoare_stop. Qed.
Lemma hoare_assert P b : stable P (assert b).
Proof. destruct b; [apply stable_ret|apply hoare_stop]. Qed.
Lemma stable_when P b m : stable P m -> stable P (when b m).
Proof. intros H. destruct b; [done|apply stable_ret]. Qed.
Lemma stable_while {A B} P n (body : A -> M S (A + B)) a : (forall a, stable P (body a)) -> stable P (while n body a).
Proof.
  intros H. revert a. induction n as [|n IH]; intros a; [apply hoare_stop|]. apply (hoare_keep P (body a)); [apply H|]. intros [a'|b]; [apply IH|apply stable_ret].
Qed.
Lemma stable_for_upto {B} P n i (body : Z -> M S (option B)) : (forall i, stable P (body i)) -> stable P (for_upto n i body).
Proof.
  intros H. revert i. induction n as [|n IH]; intros i; [apply stable_ret|]. apply (hoare_keep P (body i)); [apply H|]. intros [b|]; [apply stable_ret|apply IH].
Qed.
Lemma hoare_for_upto {B} P n i (body : Z -> M S (option B)) (Q : B -> S -> Prop) :
  (forall j, i <= j -> hoare P (body j) (fun r s => match r with None => P s | Some b => Q b s end)) ->
  hoare P (for_upto n i body) (fun r s => match r with None => P s | Some b => Q b s end).
Proof.
  revert i. induction n as [|n IH]; intros i H; [by apply hoare_ret|].
  eapply hoare_bind; [by apply H|]. intros [b|]; [by apply hoare_ret|]. apply IH. intros j Hj. apply H. lia.
Qed.
Lemma stable_for_acc {A} P n i (body : Z -> A -> M S A) a : (forall i a, stable P (body i a)) -> stable P (for_acc n i body a).
Proof.
  intros H. revert i a. induction n as [|n IH]; intros i a; [apply stable_ret|]. apply (hoare_keep P (body i a)); [apply H|]. intros b. apply IH.
Qed.
Lemma hoare_post {A} P (m : M S A) (Q Q' : A -> S -> Prop) : hoare P m Q -> (forall a s, Q a s -> Q' a s) -> hoare P m Q'.
Proof. intros H HQ s a s' Hs E. apply HQ. by apply (H s). Qed.
Lemma stable_rd P (l : list Z) i : stable P (rd l i).
Proof. unfold rd. destruct (if 0 <=? i then l !! Z.to_nat i else None); [apply stable_ret|apply hoare_stop]. Qed.
Lemma stable_strncmp P a b n : stable P (strncmp a b n).
Proof.
  unfold strncmp. generalize 0 as i. induction (Z.to_nat n) as [|k IH]; intros i; [apply stable_ret|]. cbn [strncmp_loop].
  apply hoare_keep; [apply stable_rd|intros x]. apply hoare_keep; [apply stable_rd|intros y]. repeat (case_match; try apply stable_ret); apply IH.
Qed.
End rules.

#[export] Hint Resolve stable_ret stable_stop hoare_stop hoare_gets hoare_assert stable_rd stable_strncmp : stable.

(** Walks along code that keeps an assertion. *)
Ltac stable_walk :=
  repeat first
    [ match goal with |- hoare ?P ?m (fun _ => ?P) => change (stable P m) end
    | solve [auto with stable]
    | apply stable_when
    | apply stable_bind; [|intros ?]
    | apply hoare_keep; [|intros ?]
    | apply stable_while; intros ?
    | apply stable_for_upto; intros ?
    | apply stable_for_acc; intros ? ?
    | match goal with
      | |- stable _ (if ?b then _ else _) => destruct b
      | |- hoare _ (if ?b then _ else _) _ => destruct b
      | |- stable _ (match ?x with _ => _ end) => destruct x
      | |- hoare _ (match ?x with _ => _ end) _ => destruct x
      end
    | progress cbv zeta ].
