(* ===== verification/SysLocks.v ===== *)
(** * The locks of inodes across system calls (kernel/sysfile.c)

    What the functions of the inode layer and the system calls do to the set
    of inodes that are locked, on every path that returns. *)
From stdpp Require Import base gmap sets list.
From Stdlib Require Import ZArith Lia.
From S2P Require Import Prelude Hoare Bytes Bitmap BCache BlockStore BCacheStore BCacheProps CString Console Inode InodeProps Pipe File FileProps Mmu Sections SysFile SysProps.

(** ** The inode layer *)
Section inodes.
Context {St : Type} {BC : BlockCache St} (sblock : SuperBlock) {KA : Kalloc} (uninit : InodeEntry).
Implicit Types (s : ist St) (X : gset Z).

(** The inodes of [X] are locked, no others. *)
Record locked X s : Prop := {
  lk_lock : forall p i, iheap s !! p = Some i -> ilock i = if decide (p ∈ X) then 0 else 1;
  lk_some : forall p, p ∈ X -> is_Some (iheap s !! p)
}.

Lemma stable_heap {A} X (m : M (ist St) A) : (forall s a s', m s = Ret (a, s') -> iheap s' = iheap s) -> stable (locked X) m.
Proof. intros H s a s' [A1 A2] E. split; rewrite (H s a s' E); done. Qed.

Lemma stable_on_cache {A} X (m : M St A) : stable (locked X) (on_cache m).
Proof. apply stable_heap. intros s a s' E. unfold on_cache, zoom in E. destruct (m (cache s)) as [[b c]|]; [|done]. by injection E as _ <-. Qed.
Lemma stable_on_cons {A} X (m : M console A) : stable (locked X) (on_cons m).
Proof. apply stable_heap. intros s a s' E. unfold on_cons, zoom in E. destruct (m (cons s)) as [[b c]|]; [|done]. by injection E as _ <-. Qed.
Lemma stable_load X p : stable (locked X) (load_inode p).
Proof. apply stable_heap. intros s a s' E. unfold load_inode in E. destruct (iheap s !! p); [|done]. by injection E as _ <-. Qed.
Lemma stable_ilist X f : stable (locked X) (modify (set_ilist f)).
Proof. apply stable_heap. by intros s a s' [= _ <-]. Qed.
Lemma stable_iroot X r : stable (locked X) (modify (set_iroot r)).
Proof. apply stable_heap. by intros s a s' [= _ <-]. Qed.

Lemma update_locks X Y p f :
  (forall i, ilock i = (if decide (p ∈ X) then 0 else 1) -> ilock (f i) = if decide (p ∈ Y) then 0 else 1) -> (forall q, q <> p -> q ∈ Y <-> q ∈ X) ->
  hoare (locked X) (update_inode p f) (fun _ => locked Y).
Proof.
  intros Hf HY s a s' [A1 A2] E. unfold update_inode in E. destruct (iheap s !! p) as [i|] eqn:Hp; [|done]. injection E as _ <-. split; cbn [iheap set_iheap].
  - intros q j [[<- <-]|[Hq Hj]]%lookup_insert_Some; [apply Hf; by apply A1|]. rewrite (A1 q j Hj). apply not_eq_sym in Hq. by rewrite (decide_ext _ _ _ _ (HY q Hq)).
  - intros q Hq. destruct (decide (q = p)) as [->|Hne]; [rewrite lookup_insert_eq; by eexists|]. rewrite lookup_insert_ne by (by apply not_eq_sym). by apply A2, HY.
Qed.
Lemma stable_update X p f : (forall i, ilock (f i) = ilock i) -> stable (locked X) (update_inode p f).
Proof. intros Hf. apply update_locks; [intros i; by rewrite Hf|done]. Qed.
Lemma stable_update_entry X p f : stable (locked X) (update_entry p f).
Proof. by apply stable_update. Qed.
Lemma stable_load_entry X p : stable (locked X) (load_entry p).
Proof. apply hoare_keep; [apply stable_load|intros; apply stable_ret]. Qed.
Lemma stable_elem X l i : stable (locked X) (elem l i).
Proof. unfold elem. destruct (l !! _); [apply stable_ret|apply hoare_stop]. Qed.
Lemma stable_rc X p : stable (locked X) (increment_rc p).
Proof. by apply stable_update. Qed.
Lemma stable_rc_down X p : stable (locked X) (decrement_rc p).
Proof. by apply stable_update. Qed.
Lemma stable_valid X p b : stable (locked X) (update_inode p (set_valid b)).
Proof. by apply stable_update. Qed.

Hint Extern 1 (stable _ (update_inode _ _)) => apply stable_update; reflexivity : stable.
Hint Resolve stable_on_cache stable_on_cons stable_load stable_ilist stable_iroot stable_update_entry stable_load_entry stable_elem stable_rc stable_rc_down stable_valid : stable.

(** Taking and giving back a lock. *)
Lemma hoare_lock X p : hoare (locked X) (inode_lock p) (fun _ s => p ∉ X /\ locked ({[p]} ∪ X) s).
Proof.
  unfold inode_lock. eapply hoare_bind; [intros s a s' H E; pose proof (stable_load X p s a s' H E); unfold load_inode in E; instantiate (1 := fun i s => locked X s /\ iheap s !! p = Some i); split; [done|]; destruct (iheap s !! p) as [j|] eqn:Hp; [by injection E as <- <-|done]|].
  intros i s a s' [H Hp] E. apply bind_inv in E as ([] & s1 & E1 & E). unfold assert in E1. destruct (rc i >? 0); [|done]. injection E1 as <-.
  pose proof (lk_lock _ _ H p i Hp) as Hl. destruct (decide (p ∈ X)) as [|Hn]; rewrite Hl in E; [done|]. cbn in E. split; [done|].
  eapply (update_locks X ({[p]} ∪ X) p (set_ilock 0)); [intros; rewrite decide_True by set_solver; done|set_solver|exact H|exact E].
Qed.
Lemma lock_bind {A} X p (k : unit -> M (ist St) A) Q : (p ∉ X -> hoare (locked ({[p]} ∪ X)) (k tt) Q) -> hoare (locked X) (bind (inode_lock p) k) Q.
Proof. intros Hk s a s' H E. apply bind_inv in E as ([] & s1 & E1 & E2). destruct (hoare_lock X p s tt s1 H E1) as [Hn H1]. by apply (Hk Hn s1). Qed.
Lemma hoare_unlock X p : p ∈ X -> hoare (locked X) (inode_unlock p) (fun _ => locked (X ∖ {[p]})).
Proof.
  intros Hp s a s' H E. unfold inode_unlock in E. apply bind_inv in E as (i & s1 & E1 & E). unfold load_inode in E1. destruct (iheap s !! p) as [j|] eqn:Hi; [|done]. injection E1 as -> <-.
  apply bind_inv in E as ([] & s1 & E1 & E). unfold assert in E1. destruct (rc i >? 0); [|done]. injection E1 as <-.
  pose proof (lk_lock _ _ H p i Hi) as Hl. rewrite decide_True in Hl by done. rewrite Hl in E. cbn in E.
  eapply (update_locks X (X ∖ {[p]}) p (set_ilock 1)); [intros; rewrite decide_False by set_solver; done|set_solver|exact H|exact E].
Qed.
Lemma unlock_bind {A} X p (k : unit -> M (ist St) A) Q : p ∈ X -> hoare (locked (X ∖ {[p]})) (k tt) Q -> hoare (locked X) (bind (inode_unlock p) k) Q.
Proof. intros Hp Hk. eapply hoare_bind; [by apply hoare_unlock|intros []; exact Hk]. Qed.
Lemma relock X (p : Z) : p ∈ X -> {[p]} ∪ X ∖ {[p]} = X.
Proof. intros Hp. apply set_eq. intros q. destruct (decide (q = p)); set_solver. Qed.
Lemma unlocked X (p : Z) : p ∉ X -> ({[p]} ∪ X) ∖ {[p]} = X.
Proof. set_solver. Qed.

Lemma stable_sync X c p b : stable (locked X) (inode_sync sblock c p b).
Proof. unfold inode_sync. stable_walk. Qed.
Lemma stable_alloc X c ty : stable (locked X) (inode_alloc sblock c ty).
Proof. unfold inode_alloc. stable_walk. Qed.
Lemma stable_map X c p o : stable (locked X) (inode_map c p o).
Proof. unfold inode_map. stable_walk. Qed.
Hint Resolve stable_sync stable_alloc stable_map : stable.

(** [console_write] unlocks the inode and locks it again, whether the caller
    has it locked or not: one that is not locked is unlocked twice meanwhile. *)
Record unlocked_twice X p s : Prop := {
  ut_lock : forall q i, iheap s !! q = Some i -> ilock i = if decide (q = p) then 2 else if decide (q ∈ X) then 0 else 1;
  ut_some : forall q, q ∈ X -> is_Some (iheap s !! q)
}.

Lemma update_lock_at X p f s u s' : update_inode p f s = Ret (u, s') -> (forall q, q ∈ X -> is_Some (iheap s !! q)) ->
  (exists i, iheap s !! p = Some i /\ iheap s' = <[p := f i]> (iheap s)) /\ forall q, q ∈ X -> is_Some (iheap s' !! q).
Proof.
  intros E Hs. unfold update_inode in E. destruct (iheap s !! p) as [i|] eqn:Hi; [|done]. injection E as _ <-. cbn [iheap set_iheap]. split; [by exists i|].
  intros q Hq. apply lookup_insert_is_Some. destruct (decide (p = q)); [by left|right; split; [done|by apply Hs]].
Qed.

Lemma unlock_again X p : p ∉ X -> hoare (locked X) (inode_unlock p) (fun _ => unlocked_twice X p).
Proof.
  intros Hp s [] s' H E. unfold inode_unlock in E. apply bind_inv in E as (i & s1 & E1 & E). unfold load_inode in E1. destruct (iheap s !! p) as [j|] eqn:Hi; [|done]. injection E1 as -> <-.
  apply bind_inv in E as ([] & s1 & E1 & E). unfold assert in E1. destruct (rc i >? 0); [|done]. injection E1 as <-.
  pose proof (lk_lock _ _ H p i Hi) as Hl. rewrite decide_False in Hl by done. rewrite Hl in E. cbn in E.
  destruct (update_lock_at X p _ s tt s' E (lk_some _ _ H)) as [(k & _ & E2) Hs]. split; [|exact Hs]. rewrite E2.
  intros q x [[<- <-]|[Hq Hx]]%lookup_insert_Some; [by rewrite decide_True|]. rewrite decide_False by (by apply not_eq_sym). by apply (lk_lock _ _ H).
Qed.

Lemma lock_once X p : p ∉ X -> hoare (unlocked_twice X p) (inode_lock p) (fun _ => locked X).
Proof.
  intros Hp s [] s' [H1 H2] E. unfold inode_lock in E. apply bind_inv in E as (i & s1 & E1 & E). unfold load_inode in E1. destruct (iheap s !! p) as [j|] eqn:Hi; [|done]. injection E1 as -> <-.
  apply bind_inv in E as ([] & s1 & E1 & E). unfold assert in E1. destruct (rc i >? 0); [|done]. injection E1 as <-.
  pose proof (H1 p i Hi) as Hl. rewrite decide_True in Hl by done. rewrite Hl in E. cbn in E.
  destruct (update_lock_at X p _ s tt s' E H2) as [(k & _ & E2) Hs]. split; [|exact Hs]. rewrite E2.
  intros q x [[<- <-]|[Hq Hx]]%lookup_insert_Some; [by rewrite decide_False|]. rewrite (H1 q x Hx), (decide_False (P := q = p)) by (by apply not_eq_sym). done.
Qed.

Lemma twice_put_cons X p src n : stable (unlocked_twice X p) (if n <=? Z.of_nat (length src) then on_cons (console_put (take (Z.to_nat n) src)) else stop Fault).
Proof.
  destruct (n <=? _); [|apply hoare_stop]. intros s a s' [H1 H2] E. unfold on_cons, zoom in E. destruct (console_put _ (cons s)) as [[b c]|]; [|done]. by injection E as _ <-.
Qed.

Lemma stable_console_write X p src n : stable (locked X) (console_write p src n).
Proof.
  unfold console_write. do 2 (apply hoare_keep; [auto with stable|intros ?]). destruct (decide (p ∈ X)) as [Hp|Hp].
  - apply unlock_bind; [done|]. apply hoare_keep; [stable_walk|intros ?]. apply lock_bind. intros _. rewrite relock by done. apply stable_ret.
  - eapply hoare_bind; [by apply unlock_again|intros ?]. eapply hoare_bind; [apply twice_put_cons|intros ?].
    eapply hoare_bind; [by apply lock_once|intros ?; apply stable_ret].
Qed.
Lemma stable_console_read X p n : p ∈ X -> stable (locked X) (console_read p n).
Proof.
  intros Hp. unfold console_read. do 2 (apply hoare_keep; [auto with stable|intros ?]). apply unlock_bind; [done|]. apply hoare_keep; [stable_walk|intros r].
  destruct r; [|apply hoare_stop]. apply lock_bind. intros _. rewrite relock by done. apply stable_ret.
Qed.
Hint Resolve stable_console_write stable_console_read : stable.
Lemma stable_read X p o n : p ∈ X -> stable (locked X) (inode_read p o n).
Proof. intros Hp. unfold inode_read, Inode.read_turn. stable_walk. Qed.
Lemma stable_write X c p src o n : stable (locked X) (inode_write sblock c p src o n).
Proof. unfold inode_write, Inode.write_turn. stable_walk. Qed.
Hint Resolve stable_read stable_write : stable.
Lemma stable_read_dirent X p o : p ∈ X -> stable (locked X) (read_dirent p o).
Proof. intros Hp. unfold read_dirent. stable_walk. Qed.
Hint Resolve stable_read_dirent : stable.
Lemma stable_lookup X p nm : p ∈ X -> stable (locked X) (inode_lookup p nm).
Proof. intros Hp. unfold inode_lookup. stable_walk. Qed.
Hint Resolve stable_lookup : stable.
Lemma stable_insert X c p nm ino : p ∈ X -> stable (locked X) (inode_insert sblock c p nm ino).
Proof. intros Hp. unfold inode_insert. stable_walk. Qed.
Lemma stable_isdirempty X p : p ∈ X -> stable (locked X) (isdirempty p).
Proof. intros Hp. unfold isdirempty. stable_walk. Qed.
Lemma stable_stati X p : stable (locked X) (stati p).
Proof. unfold stati. stable_walk. Qed.
Lemma stable_clear X c p : stable (locked X) (inode_clear sblock c p).
Proof. unfold inode_clear, clear_direct, clear_indirect. stable_walk. Qed.
Lemma stable_find X ino l : stable (locked X) (find_inode ino l).
Proof. induction l as [|p l IH]; cbn [find_inode]; stable_walk. Qed.
Hint Resolve stable_insert stable_isdirempty stable_stati stable_clear stable_find : stable.

(** ** get, put, paths *)
Lemma stable_lock_unlock X p : stable (locked X) (inode_lock p ;;; inode_unlock p).
Proof. apply lock_bind. intros Hn. eapply hoare_post; [apply hoare_unlock; set_solver|]. intros ? s. by rewrite unlocked. Qed.

Lemma hoare_new X : hoare (locked X) (gets (fun s => kalloc (dom (iheap s)))) (fun q s => locked X s /\ iheap s !! q = None).
Proof. intros s a s' H [= <- <-]. split; [done|]. apply not_elem_of_dom, kalloc_fresh. Qed.

Lemma stable_get X ino : stable (locked X) (inode_get sblock uninit ino).
Proof.
  unfold inode_get. do 2 (apply stable_bind; [auto with stable|intros _]). apply stable_bind; [auto with stable|intros l]. apply stable_bind; [auto with stable|intros found]. destruct found as [p|].
  - apply stable_bind; [auto with stable|intros _]. apply lock_bind. intros Hn. apply unlock_bind; [set_solver|]. rewrite unlocked by done. apply stable_ret.
  - eapply hoare_bind; [apply hoare_new|]. intros p.
    eapply (hoare_bind _ _ _ (fun _ => locked X)).
    { intros s u s' [H Hp] [= _ <-]. split; cbn [iheap set_iheap].
      - intros q j [[<- <-]|[Hq Hj]]%lookup_insert_Some; [|by apply (lk_lock _ _ H)]. rewrite decide_False; [done|]. intros Hin. destruct (lk_some _ _ H p Hin). congruence.
      - intros q Hq. destruct (lk_some _ _ H q Hq) as [j Hj]. rewrite lookup_insert_ne by congruence. by eexists. }
    intros _. do 2 (apply stable_bind; [auto with stable|intros _]). apply lock_bind. intros Hn. apply hoare_keep; [auto with stable|intros _].
    apply unlock_bind; [set_solver|]. rewrite unlocked by done. stable_walk.
Qed.

Lemma stable_put X c p : stable (locked X) (inode_put sblock c p).
Proof.
  unfold inode_put. apply stable_bind; [auto with stable|intros i]. destruct (_ && _); [|auto with stable].
  apply stable_bind; [auto with stable|intros _]. apply lock_bind. intros Hn. do 4 (apply hoare_keep; [auto with stable|intros _]).
  apply unlock_bind; [set_solver|]. rewrite unlocked by done. intros s a s' [A1 A2] [= _ <-]. split; cbn [iheap set_iheap].
  - intros q j Hj. apply lookup_delete_Some in Hj as [_ Hj]. by apply A1.
  - intros q Hq. destruct (A2 q Hq) as [j Hj]. rewrite lookup_delete_ne by congruence. by eexists.
Qed.
Hint Resolve stable_get stable_put : stable.

Lemma stable_skipelem X path nm : stable (locked X) (skipelem path nm : M (ist St) _).
Proof. unfold skipelem. stable_walk. Qed.
Lemma stable_share X p : stable (locked X) (inode_share p).
Proof. unfold inode_share. stable_walk. Qed.
Hint Resolve stable_skipelem stable_share : stable.

Lemma stable_namex_body X c par st : stable (locked X) (namex_body sblock uninit c par st).
Proof.
  destruct st as [[p path] nm]. unfold namex_body. apply stable_bind; [auto with stable|intros nxt]. destruct nxt as [[path' nm']|]; [|auto with stable].
  apply lock_bind. intros Hn. assert (Hp : p ∈ {[p]} ∪ X) by set_solver. apply hoare_keep; [auto with stable|intros e].
  destruct (negb _); [apply unlock_bind; [done|]; rewrite unlocked by done; stable_walk|].
  apply hoare_keep; [auto with stable|intros ch]. destruct (par && _); [apply unlock_bind; [done|]; rewrite unlocked by done; stable_walk|].
  apply hoare_keep; [auto with stable|intros l]. apply unlock_bind; [done|]. rewrite unlocked by done. stable_walk.
Qed.
Hint Resolve stable_namex_body : stable.

Lemma stable_namex X cwd path par nm c : stable (locked X) (namex sblock uninit cwd path par nm c).
Proof. unfold namex. stable_walk. Qed.
Hint Resolve stable_namex : stable.
Lemma stable_namei X cwd path nm c : stable (locked X) (namei sblock uninit cwd path nm c).
Proof. unfold namei. stable_walk. Qed.
Lemma stable_nameiparent X cwd path nm c : stable (locked X) (nameiparent sblock uninit cwd path nm c).
Proof. apply stable_namex. Qed.

Lemma stable_unlink_in X c dp nm : stable (locked X) (unlink_in sblock uninit c dp nm).
Proof.
  assert (Hbad : dp ∉ X -> stable (locked X) (ret tt) -> hoare (locked ({[dp]} ∪ X)) (inode_unlock dp ;;; inode_put sblock (Some c) dp ;;; ret (-1)) (fun _ => locked X)).
  { intros Hn _. apply unlock_bind; [set_solver|]. rewrite unlocked by done. stable_walk. }
  unfold unlink_in. cbv zeta. apply lock_bind. intros Hn. specialize (Hbad Hn (stable_ret _ _)). assert (Hdp : dp ∈ {[dp]} ∪ X) by set_solver.
  apply hoare_keep; [auto with stable|intros c1]. apply hoare_keep; [destruct (c1 =? 0); auto with stable|intros c2]. destruct (_ || _); [exact Hbad|].
  apply hoare_keep; [auto with stable|intros l]. destruct (l.1 =? 0); [exact Hbad|]. apply hoare_keep; [auto with stable|intros ip].
  apply lock_bind. intros Hni. assert (Hip : ip ∈ {[ip]} ∪ ({[dp]} ∪ X)) by set_solver. assert (Hdp2 : dp ∈ {[ip]} ∪ ({[dp]} ∪ X)) by set_solver.
  do 2 (apply hoare_keep; [auto with stable|intros ?]). apply hoare_keep; [destruct (_ =? _); auto with stable|intros emp]. destruct (negb emp).
  - apply unlock_bind; [done|]. rewrite unlocked by done. apply hoare_keep; [auto with stable|intros _]. exact Hbad.
  - do 3 (apply hoare_keep; [stable_walk|intros ?]). apply unlock_bind; [done|].
    assert (E : ({[ip]} ∪ ({[dp]} ∪ X)) ∖ {[dp]} = {[ip]} ∪ X) by set_solver. rewrite E.
    do 3 (apply hoare_keep; [auto with stable|intros ?]). apply unlock_bind; [set_solver|]. rewrite unlocked by set_solver. stable_walk.
Qed.

(** The inode [create] returns is locked. *)
Definition locked_too X (p : option Z) : gset Z := match p with Some p => {[p]} ∪ X | None => X end.

Lemma hoare_create_in dot dotdot X c parent nm ty mj mn : hoare (locked X) (create_in sblock uninit c dot dotdot parent nm ty mj mn) (fun r => locked (locked_too X r)).
Proof.
  unfold create_in. apply lock_bind. intros Hn. assert (Hp : parent ∈ {[parent]} ∪ X) by set_solver. apply hoare_keep; [auto with stable|intros l]. destruct (negb _).
  - apply unlock_bind; [done|]. rewrite unlocked by done. do 2 (apply hoare_keep; [auto with stable|intros ?]). apply lock_bind. intros Hn2.
    apply hoare_keep; [auto with stable|intros e]. destruct (ty =? type e); [apply hoare_ret; by intros s|]. apply unlock_bind; [set_solver|]. rewrite unlocked by done.
    apply hoare_keep; [auto with stable|intros _]. apply hoare_ret. by intros s.
  - do 3 (apply hoare_keep; [stable_walk|intros ?]). apply unlock_bind; [done|]. rewrite unlocked by done. apply hoare_keep; [auto with stable|intros _].
    apply hoare_keep; [auto with stable|intros p]. apply lock_bind. intros Hn2. assert (Hp2 : p ∈ {[p]} ∪ X) by set_solver. do 3 (apply hoare_keep; [stable_walk|intros ?]). apply hoare_ret. by intros s.
Qed.
End inodes.

(** ** Files and system calls *)
Section calls.
Context {St : Type} {BC : BlockCache St} (sblock : SuperBlock) {KA : Kalloc} (uninit : InodeEntry) (kpage : list Z).
Context (sizeof_stat : Z) (stat_bytes : stat -> bytes) (ctx t : Z) (nm0 dot_rest dotdot_rest : bytes).

Definition flocked (X : gset Z) (s : fst_ St) : Prop := locked X (inos s).
(** The inodes of [X] are locked, and [k] pages are lent. *)
Definition slocked (X : gset Z) (k : Z) (s : syst St) : Prop := locked X (inos (files s)) /\ pages s = k.

Lemma hoare_on_inodes {A} X (Y : A -> gset Z) (m : M (ist St) A) : hoare (locked X) m (fun a => locked (Y a)) -> hoare (flocked X) (on_inodes m) (fun a => flocked (Y a)).
Proof. intros H s a s' Hs E. unfold on_inodes, zoom in E. destruct (m (inos s)) as [[b i]|] eqn:Em; [|done]. injection E as -> <-. by apply (H (inos s)). Qed.
Lemma stable_on_inodes {A} X (m : M (ist St) A) : stable (locked X) m -> stable (flocked X) (on_inodes m).
Proof. exact (hoare_on_inodes X (fun _ => X) m). Qed.
Lemma stable_inos {A} X (m : M (fst_ St) A) : (forall s a s', m s = Ret (a, s') -> inos s' = inos s) -> stable (flocked X) m.
Proof. intros H s a s' Hs E. unfold flocked. by rewrite (H s a s' E). Qed.
Lemma stable_on_bcache {A} X (m : M St A) : stable (flocked X) (on_bcache m).
Proof. apply stable_on_inodes, stable_on_cache. Qed.
Lemma stable_on_pipe {A} X p (m : M Pipe A) : stable (flocked X) (on_pipe p m).
Proof. apply stable_inos. intros s a s' E. unfold on_pipe in E. destruct (pipes s !! p) as [q|]; [|done]. destruct (m q) as [[b q']|]; [|done]. by injection E as _ <-. Qed.
Lemma stable_load_file X f : stable (flocked X) (load_file f).
Proof. apply stable_inos. intros s a s' E. unfold load_file in E. destruct (ftable s !! _); [|done]. by injection E as _ <-. Qed.
Lemma stable_update_file X f g : stable (flocked X) (update_file f g).
Proof. apply stable_inos. intros s a s' E. unfold update_file in E. destruct (ftable s !! _); [|done]. by injection E as _ <-. Qed.
Lemma stable_flock X b : stable (flocked X) (modify (set_flock b)).
Proof. apply stable_inos. by intros s a s' [= _ <-]. Qed.
Lemma stable_pipes X f : stable (flocked X) (modify (set_pipes f)).
Proof. apply stable_inos. by intros s a s' [= _ <-]. Qed.
Hint Resolve stable_on_inodes stable_on_bcache stable_on_pipe stable_load_file stable_update_file stable_flock stable_pipes stable_put : stable.

Lemma stable_acquire X : stable (flocked X) acquire_ftable.
Proof. unfold acquire_ftable. stable_walk. Qed.
Lemma stable_release X : stable (flocked X) release_ftable.
Proof. unfold release_ftable. stable_walk. Qed.
Hint Resolve stable_acquire stable_release : stable.
Lemma stable_filealloc X : stable (flocked X) filealloc.
Proof. unfold filealloc. generalize (Z.to_nat NFILE) as n. intros n. stable_walk. Qed.
Lemma stable_filedup X f : stable (flocked X) (filedup f).
Proof. unfold filedup. stable_walk. Qed.
Lemma stable_fileclose X f : stable (flocked X) (fileclose sblock ctx t f).
Proof. unfold fileclose. stable_walk. Qed.
Hint Resolve stable_filealloc stable_filedup stable_fileclose : stable.
Lemma stable_pipeAlloc X : stable (flocked X) (pipeAlloc sblock kpage ctx t).
Proof. unfold pipeAlloc. stable_walk. Qed.

Lemma hoare_flock X p : hoare (flocked X) (on_inodes (inode_lock p)) (fun _ s => p ∉ X /\ flocked ({[p]} ∪ X) s).
Proof. intros s a s' Hs E. unfold on_inodes, zoom in E. destruct (inode_lock p (inos s)) as [[b i]|] eqn:Em; [|done]. injection E as _ <-. by apply (hoare_lock X p (inos s) b i). Qed.
Lemma flock_bind {A} X p (k : unit -> M (fst_ St) A) Q : (p ∉ X -> hoare (flocked ({[p]} ∪ X)) (k tt) Q) -> hoare (flocked X) (bind (on_inodes (inode_lock p)) k) Q.
Proof. intros Hk s a s' H E. apply bind_inv in E as ([] & s1 & E1 & E2). destruct (hoare_flock X p s tt s1 H E1) as [Hn H1]. by apply (Hk Hn s1). Qed.
Lemma funlock_bind {A} X p (k : unit -> M (fst_ St) A) Q : p ∈ X -> hoare (flocked (X ∖ {[p]})) (k tt) Q -> hoare (flocked X) (bind (on_inodes (inode_unlock p)) k) Q.
Proof. intros Hp Hk. eapply hoare_bind; [exact (hoare_on_inodes X (fun _ => X ∖ {[p]}) _ (hoare_unlock X p Hp))|intros []; exact Hk]. Qed.

Hint Resolve stable_read stable_write stable_stati : stable.
Lemma stable_fileread X f n : stable (flocked X) (fileread t f n).
Proof.
  unfold fileread. apply stable_bind; [auto with stable|intros x]. destruct (_ && _); [|stable_walk]. apply flock_bind. intros Hn. assert (Hp : ip x ∈ {[ip x]} ∪ X) by set_solver.
  do 2 (apply hoare_keep; [auto with stable|intros ?]). apply funlock_bind; [done|]. rewrite unlocked by done. apply stable_ret.
Qed.
Lemma stable_filestat X f : stable (flocked X) (filestat f).
Proof.
  unfold filestat. apply stable_bind; [auto with stable|intros x]. destruct (bool_decide _); [|stable_walk]. apply flock_bind. intros Hn. assert (Hp : ip x ∈ {[ip x]} ∪ X) by set_solver.
  apply hoare_keep; [auto with stable|intros ?]. apply funlock_bind; [done|]. rewrite unlocked by done. apply stable_ret.
Qed.
Lemma stable_filewrite X n f src m : stable (flocked X) (filewrite sblock n ctx t f src m).
Proof.
  unfold filewrite. apply stable_bind; [auto with stable|intros x]. destruct (_ && _); [|stable_walk]. apply stable_while. intros i. unfold filewrite_turn.
  destruct (i <? m); [|auto with stable]. cbv zeta. apply stable_bind; [auto with stable|intros _]. apply stable_bind; [auto with stable|intros y]. apply flock_bind. intros Hn.
  assert (Hp : ip y ∈ {[ip y]} ∪ X) by set_solver. do 2 (apply hoare_keep; [auto with stable|intros ?]). apply funlock_bind; [done|]. rewrite unlocked by done. stable_walk.
Qed.

(** The calls. *)
Lemma hoare_on_files {A} X k (Y : A -> gset Z) (m : M (fst_ St) A) : hoare (flocked X) m (fun a => flocked (Y a)) -> hoare (slocked X k) (on_files m) (fun a => slocked (Y a) k).
Proof. intros H s a s' [Hs Hk] E. unfold on_files, zoom in E. destruct (m (files s)) as [[b i]|] eqn:Em; [|done]. injection E as -> <-. split; [by apply (H (files s))|done]. Qed.
Lemma stable_on_files {A} X k (m : M (fst_ St) A) : stable (flocked X) m -> stable (slocked X k) (on_files m).
Proof. exact (hoare_on_files X k (fun _ => X) m). Qed.
Lemma hoare_on_ino {A} X k (Y : A -> gset Z) (m : M (ist St) A) : hoare (locked X) m (fun a => locked (Y a)) -> hoare (slocked X k) (on_ino m) (fun a => slocked (Y a) k).
Proof. intros H. by apply hoare_on_files, hoare_on_inodes. Qed.
Lemma stable_on_ino {A} X k (m : M (ist St) A) : stable (locked X) m -> stable (slocked X k) (on_ino m).
Proof. exact (hoare_on_ino X k (fun _ => X) m). Qed.
Lemma stable_modify X k (f : syst St -> syst St) : (forall s, files (f s) = files s /\ pages (f s) = pages s) -> stable (slocked X k) (modify f).
Proof. intros Hf s a s' [H1 H2] [= _ <-]. destruct (Hf s) as [E1 E2]. split; by rewrite ?E1, ?E2. Qed.
Lemma stable_set_fps X k f : stable (slocked X k) (modify (set_fps f)).
Proof. by apply stable_modify. Qed.
Lemma stable_set_cwd X k p : stable (slocked X k) (modify (set_cwd p)).
Proof. by apply stable_modify. Qed.
Lemma stable_set_sections X k f : stable (slocked X k) (modify (set_sections f)).
Proof. by apply stable_modify. Qed.
Lemma stable_to_user X k a bs : stable (slocked X k) (to_user a bs).
Proof. by apply stable_modify. Qed.
Lemma stable_begin X k : stable (slocked X k) (begin_op ctx).
Proof. apply stable_on_files, stable_on_bcache. Qed.
Lemma stable_end X k : stable (slocked X k) (end_op ctx).
Proof. apply stable_on_files, stable_on_bcache. Qed.
Lemma stable_fd2file X k fd : stable (slocked X k) (fd2file fd).
Proof. unfold fd2file. stable_walk. Qed.
Hint Resolve stable_on_files stable_on_ino stable_set_fps stable_set_cwd stable_set_sections stable_to_user stable_begin stable_end stable_fd2file stable_pipeAlloc stable_fileread stable_filestat stable_filewrite : stable.
Lemma stable_fdalloc X k f : stable (slocked X k) (fdalloc f).
Proof. unfold fdalloc. generalize (Z.to_nat NFILE) as n. intros n. stable_walk. Qed.
Lemma stable_user_path X k a : stable (slocked X k) (user_path a).
Proof. unfold user_path, user_bytes. stable_walk. Qed.
Lemma stable_find_path X k p : stable (slocked X k) (find_path sblock uninit ctx nm0 p).
Proof. unfold find_path. apply stable_bind; [auto with stable|intros c]. apply stable_on_ino, stable_namei. Qed.
Lemma stable_find_parent X k p : stable (slocked X k) (find_parent sblock uninit ctx nm0 p).
Proof. unfold find_parent. apply stable_bind; [auto with stable|intros c]. apply stable_on_ino, stable_nameiparent. Qed.
Hint Resolve stable_fdalloc stable_user_path stable_find_path stable_find_parent : stable.

Lemma slock_bind {A} X k p (g : unit -> M (syst St) A) Q : (p ∉ X -> hoare (slocked ({[p]} ∪ X) k) (g tt) Q) -> hoare (slocked X k) (bind (on_ino (inode_lock p)) g) Q.
Proof.
  intros Hg s a s' H E. apply bind_inv in E as ([] & s1 & E1 & E2). unfold on_ino, on_files, zoom in E1. destruct (on_inodes _ _) as [[b i]|] eqn:Em; [|done]. injection E1 as _ <-.
  destruct H as [H1 H2]. destruct (hoare_flock X p (files s) b i H1 Em) as [Hn H3]. by apply (Hg Hn (set_files i s)).
Qed.
Lemma sunlock_bind {A} X k p (g : unit -> M (syst St) A) Q : p ∈ X -> hoare (slocked (X ∖ {[p]}) k) (g tt) Q -> hoare (slocked X k) (bind (on_ino (inode_unlock p)) g) Q.
Proof. intros Hp Hg. eapply hoare_bind; [exact (hoare_on_ino X k (fun _ => X ∖ {[p]}) _ (hoare_unlock X p Hp))|intros []; exact Hg]. Qed.

(** A page is borrowed and given back. *)
Lemma lend_page {A} X k (m : M (syst St) A) : stable (slocked X (k + 1)) m -> stable (slocked X k) (alloc_page_for_user ;;; a <- m ;; free_page ;;; ret a).
Proof.
  intros Hm s a s' [H1 H2] E. apply bind_inv in E as ([] & s1 & [= <-] & E). apply bind_inv in E as (b & s2 & E2 & E).
  destruct (Hm _ b s2 (conj H1 (f_equal (fun n => n + 1) H2) : slocked X (k + 1) (set_pages (pages s + 1) s)) E2) as [H3 H4].
  apply bind_inv in E as ([] & s3 & [= <-] & [= <- <-]). split; [done|]. cbn [pages set_pages]. lia.
Qed.

Lemma stable_write_turn X k n f b sz i : stable (slocked X k) (SysFile.write_turn sblock ctx t n f b sz i).
Proof. unfold SysFile.write_turn, user_bytes. stable_walk. Qed.
Lemma stable_read_turn X k f b sz i : stable (slocked X k) (SysFile.read_turn t f b sz i).
Proof. unfold SysFile.read_turn. stable_walk. Qed.
Hint Resolve stable_write_turn stable_read_turn : stable.
Lemma stable_sys_read X k n fd b sz : stable (slocked X k) (sys_read t n fd b sz).
Proof. unfold sys_read, writeable_user. do 2 (apply stable_bind; [auto with stable|intros ?]). destruct a; [|auto with stable]. destruct (_ || _); [auto with stable|]. apply lend_page. stable_walk. Qed.
Lemma stable_sys_write X k n fd b sz : stable (slocked X k) (sys_write sblock ctx t n fd b sz).
Proof. unfold sys_write, readable_user. do 2 (apply stable_bind; [auto with stable|intros ?]). destruct a; [|auto with stable]. destruct (_ || _); [auto with stable|]. apply lend_page. stable_walk. Qed.
Lemma stable_sys_dup X k fd : stable (slocked X k) (sys_dup fd).
Proof. unfold sys_dup. stable_walk. Qed.
Lemma stable_sys_close X k fd : stable (slocked X k) (sys_close sblock ctx t fd).
Proof. unfold sys_close. stable_walk. Qed.
Lemma stable_sys_fstat X k fd st : stable (slocked X k) (sys_fstat sizeof_stat stat_bytes fd st).
Proof. unfold sys_fstat, writeable_user. stable_walk. Qed.
Lemma stable_sys_mmap X k a b c d e f : stable (slocked X k) (sys_mmap a b c d e f).
Proof. unfold sys_mmap. stable_walk. Qed.
(** [munmap] writes the inode without taking its lock. *)
Lemma stable_sys_munmap X k a n : stable (slocked X k) (sys_munmap sblock ctx a n).
Proof. unfold sys_munmap, user_bytes. stable_walk. Qed.
Lemma stable_sys_pipe2 X k a b : stable (slocked X k) (sys_pipe2 sblock kpage ctx t a b).
Proof. unfold sys_pipe2. stable_walk. Qed.

Lemma hoare_sys_writev X k n fd a b : hoare (slocked X k) (sys_writev sblock ctx t n fd a b) (fun r s => slocked X k s \/ r = -1 /\ slocked X (k + 1) s).
Proof.
  unfold sys_writev, readable_user. do 2 (apply hoare_keep; [auto with stable|intros ?]). destruct a0 as [f|]; [|apply hoare_ret; by left]. destruct (_ || _); [apply hoare_ret; by left|].
  apply (hoare_bind _ _ _ (fun _ => slocked X (k + 1))); [intros s u s' [H1 H2] [= _ <-]; split; [done|cbn; lia]|intros _].
  apply hoare_keep.
  - apply stable_while. intros [p tot]. destruct (p <? b); [|stable_walk]. unfold writev_turn, user_bytes, readable_user. stable_walk.
  - intros [tot|]; [|apply hoare_ret; by right]. intros s r s' [H1 H2] E. apply bind_inv in E as (u & s1 & [= _ <-] & [= <- <-]). left. split; [done|cbn; lia].
Qed.

Lemma stable_sys_newfstatat X k a b c d : stable (slocked X k) (sys_newfstatat sblock uninit sizeof_stat stat_bytes ctx nm0 a b c d).
Proof.
  unfold sys_newfstatat, writeable_user. do 2 (apply stable_bind; [auto with stable|intros ?]). destruct a0; [|auto with stable]. do 3 (destruct (negb _); [auto with stable|]).
  do 2 (apply stable_bind; [auto with stable|intros ?]). destruct a2 as [p|]; [|stable_walk]. apply slock_bind. intros Hn.
  do 2 (apply hoare_keep; [auto using stable_stati with stable|intros ?]). apply sunlock_bind; [set_solver|]. rewrite unlocked by done. stable_walk.
Qed.

Lemma stable_sys_unlinkat X k a b c : stable (slocked X k) (sys_unlinkat sblock uninit ctx nm0 a b c).
Proof. unfold sys_unlinkat. pose proof stable_unlink_in. stable_walk. Qed.

Lemma hoare_create X k p ty mj mn : hoare (slocked X k) (create sblock uninit ctx nm0 dot_rest dotdot_rest p ty mj mn) (fun r => slocked (locked_too X r) k).
Proof.
  unfold create. apply hoare_keep; [auto with stable|intros par]. destruct par as [[q nm]|]; [|apply hoare_ret; by intros s]. apply hoare_on_ino, hoare_create_in.
Qed.

(** The end of the calls that create. *)
Lemma stable_drop X k p r : p ∉ X -> hoare (slocked ({[p]} ∪ X) k) (on_ino (inode_unlock p) ;;; on_ino (inode_put sblock (Some ctx) p) ;;; end_op ctx ;;; ret r) (fun _ : Z => slocked X k).
Proof. intros Hn. apply sunlock_bind; [set_solver|]. rewrite unlocked by done. stable_walk. Qed.

Lemma stable_make_node k d p ty mj mn : stable (slocked ∅ k) (make_node sblock uninit ctx nm0 dot_rest dotdot_rest d p ty mj mn).
Proof.
  unfold make_node. destruct (negb _); [auto with stable|]. apply stable_bind; [auto with stable|intros ?]. eapply hoare_bind; [apply hoare_create|]. intros [q|]; cbn [locked_too]; [|stable_walk].
  apply stable_drop. set_solver.
Qed.
Hint Resolve stable_make_node : stable.
Lemma stable_sys_mkdirat k a b c : stable (slocked ∅ k) (sys_mkdirat sblock uninit ctx nm0 dot_rest dotdot_rest a b c).
Proof. unfold sys_mkdirat. stable_walk. Qed.
Lemma stable_sys_mknodat k a b c d : stable (slocked ∅ k) (sys_mknodat sblock uninit ctx nm0 dot_rest dotdot_rest a b c d).
Proof. unfold sys_mknodat. stable_walk. Qed.

Lemma hoare_open_lock k p :
  hoare (slocked ∅ k) (ip <- find_path sblock uninit ctx nm0 p ;; match ip with None => ret None | Some ip => on_ino (inode_lock ip) ;;; ret (Some ip) end) (fun r => slocked (locked_too ∅ r) k).
Proof. apply hoare_keep; [auto with stable|intros [q|]; [|apply hoare_ret; by intros s]]. apply slock_bind. intros _. apply hoare_ret. by intros s. Qed.

Lemma stable_sys_openat k a b c : stable (slocked ∅ k) (sys_openat sblock uninit ctx t nm0 dot_rest dotdot_rest a b c).
Proof.
  unfold sys_openat. apply stable_bind; [auto with stable|intros path]. destruct path as [path|]; [|auto with stable]. destruct (negb _); [auto with stable|].
  apply stable_bind; [auto with stable|intros _]. apply (hoare_bind _ _ _ (fun r => slocked (locked_too ∅ r) k)).
  - destruct (negb _); [apply hoare_create|apply hoare_open_lock].
  - intros [p|]; cbn [locked_too]; [|stable_walk]. cbv zeta. assert (Hn : p ∉ (∅ : gset Z)) by set_solver.
    apply hoare_keep; [auto with stable|intros f]. destruct f as [f|]; [|by apply stable_drop]. apply hoare_keep; [auto with stable|intros fd].
    destruct (fd <? 0); [apply hoare_keep; [auto with stable|intros _]; by apply stable_drop|]. apply sunlock_bind; [set_solver|]. rewrite unlocked by done. stable_walk.
Qed.

Lemma stable_sys_chdir X k n a : stable (slocked X k) (sys_chdir sblock uninit ctx nm0 n a).
Proof.
  unfold sys_chdir, user_bytes. do 3 (apply stable_bind; [auto with stable|intros ?]). destruct a2 as [p|]; [|stable_walk]. apply slock_bind. intros Hn.
  apply hoare_keep; [auto using stable_load_entry with stable|intros e]. destruct (negb _); [by apply stable_drop|]. apply sunlock_bind; [set_solver|]. rewrite unlocked by done. stable_walk.
Qed.

(** ** The calls as one relation *)
Inductive fcall :=
| Ioctl (fd request : Z) | Mmap (addr length prot fl fd offset : Z) | Munmap (addr length : Z) | Dup (fd : Z) | Close (fd : Z) | Read (fuel : nat) (fd buffer size : Z) | Write (fuel : nat) (fd buffer size : Z)
| Writev (fuel : nat) (fd iov iovcnt : Z) | Fstat (fd st : Z) | Newfstatat (dirfd path st fl : Z) | Unlinkat (fd path flag : Z) | Openat (dirfd path omode : Z)
| Mkdirat (dirfd path mode : Z) | Mknodat (dirfd path mj mn : Z) | Chdir (n path : Z) | Pipe2 (fd fl : Z).

Definition fcall_run (c : fcall) : M (syst St) Z :=
  match c with
  | Ioctl fd r => sys_ioctl fd r
  | Mmap a l p f fd o => sys_mmap a l p f fd o
  | Munmap a l => sys_munmap sblock ctx a l
  | Dup fd => sys_dup fd
  | Close fd => sys_close sblock ctx t fd
  | Read n fd b sz => sys_read t n fd b sz
  | Write n fd b sz => sys_write sblock ctx t n fd b sz
  | Writev n fd v c => sys_writev sblock ctx t n fd v c
  | Fstat fd st => sys_fstat sizeof_stat stat_bytes fd st
  | Newfstatat d p st f => sys_newfstatat sblock uninit sizeof_stat stat_bytes ctx nm0 d p st f
  | Unlinkat fd p f => sys_unlinkat sblock uninit ctx nm0 fd p f
  | Openat d p o => sys_openat sblock uninit ctx t nm0 dot_rest dotdot_rest d p o
  | Mkdirat d p m => sys_mkdirat sblock uninit ctx nm0 dot_rest dotdot_rest d p m
  | Mknodat d p mj mn => sys_mknodat sblock uninit ctx nm0 dot_rest dotdot_rest d p mj mn
  | Chdir n p => sys_chdir sblock uninit ctx nm0 n p
  | Pipe2 fd f => sys_pipe2 sblock kpage ctx t fd f
  end.

(** Calls one after the other, and how many pages they have lost. *)
Inductive calls_reach (s0 : syst St) : Z -> syst St -> Prop :=
| calls_start : calls_reach s0 0 s0
| calls_step n s c r s' : calls_reach s0 n s -> fcall_run c s = Ret (r, s') -> calls_reach s0 (match c with Writev _ _ _ _ => n + (pages s' - pages s) | _ => n end) s'.

Lemma fcall_keeps c k : hoare (slocked ∅ k) (fcall_run c) (fun r s => slocked ∅ k s \/ (exists n fd v m, c = Writev n fd v m) /\ r = -1 /\ slocked ∅ (k + 1) s).
Proof.
  assert (Hl : forall m, stable (slocked ∅ k) m -> hoare (slocked ∅ k) m (fun r s => slocked ∅ k s \/ (exists n fd v m, c = Writev n fd v m) /\ r = -1 /\ slocked ∅ (k + 1) s)).
  { intros m H s a s' Hs E. left. by apply (H s a). }
  destruct c; cbn [fcall_run]; lazymatch goal with |- hoare _ (sys_writev _ _ _ _ _ _ _) _ => idtac | _ => apply Hl end.
  - unfold sys_ioctl. stable_walk.
  - apply stable_sys_mmap.
  - apply stable_sys_munmap.
  - apply stable_sys_dup.
  - apply stable_sys_close.
  - apply stable_sys_read.
  - apply stable_sys_write.
  - apply (hoare_post _ _ _ _ (hoare_sys_writev _ _ _ _ _ _)). intros r s [H|H]; [by left|right]; (split; [by eexists _, _, _, _|done]).
  - apply stable_sys_fstat.
  - apply stable_sys_newfstatat.
  - apply stable_sys_unlinkat.
  - apply stable_sys_openat.
  - apply stable_sys_mkdirat.
  - apply stable_sys_mknodat.
  - apply stable_sys_chdir.
  - apply stable_sys_pipe2.
Qed.

(** C19: The system calls on files, all sixteen, give back what they take on
    every path that returns: started with no inode locked, after any sequence
    of calls no inode is locked, and every call has given its page back,
    except that [writev] keeps it when it returns -1 for a buffer it may not
    read. [munmap], which writes the inode without taking its lock, leaves no
    lock behind either: on a device it unlocks the unlocked inode and locks it
    again. *)
Theorem calls_release_all s0 n s c r s' :
  locked ∅ (inos (files s0)) -> calls_reach s0 n s -> fcall_run c s = Ret (r, s') ->
  locked ∅ (inos (files s')) /\ pages s = pages s0 + n /\
  (pages s' = pages s \/ (exists m fd v k, c = Writev m fd v k) /\ r = -1 /\ pages s' = pages s + 1).
Proof.
  intros H0 Hr E.
  assert (Hs : locked ∅ (inos (files s)) /\ pages s = pages s0 + n).
  { clear E. induction Hr as [|n s c' r' s1 Hr [IH1 IH2] E1]; [split; [done|lia]|].
    destruct (fcall_keeps c' (pages s) s r' s1 (conj IH1 eq_refl) E1) as [[H1 H2]|[(m & fd & v & k & ->) [_ [H1 H2]]]]; (split; [done|]).
    - destruct c'; lia.
    - lia. }
  destruct Hs as [H1 H2]. destruct (fcall_keeps c (pages s) s r s' (conj H1 eq_refl) E) as [[H3 H4]|[Hc [Hm [H3 H4]]]]; (split; [done|split; [done|]]); [by left|by right].
Qed.
End calls.

(** ** Examples *)
#[local] Existing Instance ex_kalloc.
#[local] Existing Instance ex_cache.

(** [mkdir b], then a second [openat] of the descriptor. *)
Definition ex_call (c : fcall) (s : syst bcst) : outcome (Z * syst bcst) :=
  fcall_run ex_sb ex_dir [] 8 (fun _ => replicate 8 0) 7 1 (replicate 14 0) (replicate 12 0) (replicate 11 0) c s.
Definition ex_result (c : fcall) (s : syst bcst) : Z * syst bcst := match ex_call c s with Ret r => r | Stop _ => (-5, s) end.
Definition ex_mkdir : syst bcst := (ex_result (Mkdirat AT_FDCWD 0x1000 0) ex_sys).2.
Definition ex_open : Z * syst bcst := ex_result (Openat AT_FDCWD 0x1000 0) ex_mkdir.

Lemma calls_release_all_witness :
  ex_open.1 = 1 /\ locked ∅ (inos (files ex_open.2)) /\ pages ex_open.2 = 0 + 0.
Proof.
  destruct (calls_release_all ex_sb ex_dir [] 8 (fun _ => replicate 8 0) 7 1 (replicate 14 0) (replicate 12 0) (replicate 11 0)
    ex_sys 0 ex_mkdir (Openat AT_FDCWD 0x1000 0) ex_open.1 ex_open.2) as (H1 & H2 & _).
  - split; [|set_solver]. intros p i. destruct (decide (p = 8)) as [->|Hp]; [intros [= <-]; reflexivity|].
    unfold ex_sys, ex_fst. cbn [files inos iheap]. change (({[8 := ex_inode]} : gmap Z Inode) !! p = Some i -> ilock i = if decide (p ∈ (∅ : gset Z)) then 0 else 1). by rewrite lookup_singleton_ne by done.
  - apply calls_step with (n := 0) (s := ex_sys) (c := Mkdirat AT_FDCWD 0x1000 0) (r := 0); [apply calls_start|vm_compute; reflexivity].
  - vm_compute. reflexivity.
  - split; [vm_compute; reflexivity|]. split; [exact H1|exact H2].
Defined.
