(* ===== verification/SysFds.v ===== *)
(** * Descriptors and the counts of files (kernel/sysfile.c, fs/file.c)

    What the system calls do to the descriptors of a process and to the
    reference counts of the table of open files. *)
From stdpp Require Import base gmap sets list.
From Stdlib Require Import ZArith Lia.
From S2P Require Import Prelude Hoare Bytes Bitmap BCache BlockStore BCacheStore BCacheProps CString Console Inode InodeProps Pipe File FileProps Mmu Sections SysFile SysProps SysLocks.

(** ** Counting descriptors *)
Implicit Types o : list (option Z).
Definition descs (f : Z) (o : list (option Z)) : Z := Z.of_nat (length (filter (fun x => x = Some f) o)).

Lemma descs_bounds f o : 0 <= descs f o <= Z.of_nat (length o).
Proof. unfold descs. induction o as [|x o IH]; [done|]. rewrite filter_cons. destruct (decide _); cbn [length] in *; lia. Qed.

Lemma descs_insert f o i x y : o !! i = Some x -> descs f (<[i := y]> o) = descs f o - (if decide (x = Some f) then 1 else 0) + (if decide (y = Some f) then 1 else 0).
Proof.
  intros Hi. unfold descs. rewrite (insert_take_drop o i y) by (by eapply lookup_lt_Some). rewrite <- (take_drop_middle o i x Hi) at 3.
  rewrite !filter_app, !filter_cons, !length_app. do 2 destruct (decide (_ = Some f)); cbn [length]; lia.
Qed.

Lemma descs_pos f o i : o !! i = Some (Some f) -> 0 < descs f o.
Proof.
  intros Hi. unfold descs. assert (H : Some f ∈ filter (fun x => x = Some f) o) by (apply list_elem_of_filter; split; [done|by eapply list_elem_of_lookup_2]).
  destruct (filter _ o); [by apply not_elem_of_nil in H|cbn; lia].
Qed.

(** The counts [R] of the files cover the descriptors [o]: each descriptor is
    counted, and what else holds a file does so at most [E] times. *)
Record covered (E : Z) (o : list (option Z)) (R : list Z) : Prop := {
  cv_len : Z.of_nat (length o) = NOFILE;
  cv_in : forall fd f, o !! fd = Some (Some f) -> 0 <= f < Z.of_nat (length R);
  cv_count : forall k r, R !! k = Some r -> descs (Z.of_nat k) o <= r <= descs (Z.of_nat k) o + E
}.

Lemma covered_desc E o R fd f : covered E o R -> o !! fd = Some (Some f) -> exists r, R !! Z.to_nat f = Some r /\ 0 < descs f o <= r.
Proof.
  intros H Hf. destruct (cv_in _ _ _ H fd f Hf) as [H0 H1]. destruct (lookup_lt_is_Some_2 R (Z.to_nat f)) as [r Hr]; [lia|]. exists r. split; [done|].
  pose proof (cv_count _ _ _ H _ _ Hr) as Hc. rewrite Z2Nat.id in Hc by lia. pose proof (descs_pos f o fd Hf). lia.
Qed.

Lemma covered_free E o R k r : covered E o R -> R !! k = Some r -> r <= 0 -> r = 0 /\ descs (Z.of_nat k) o = 0.
Proof. intros H Hr Hle. pose proof (cv_count _ _ _ H k r Hr). pose proof (descs_bounds (Z.of_nat k) o). lia. Qed.

(** One count and one descriptor change. *)
Lemma covered_count E o R k r : covered E o R -> R !! k = Some r -> forall r', descs (Z.of_nat k) o <= r' <= descs (Z.of_nat k) o + E -> covered E o (<[k := r']> R).
Proof.
  intros [H1 H2 H3] Hr r' Hr'. split; [done|intros fd f Hf; rewrite length_insert; by apply (H2 fd)|].
  intros j q Hq. destruct (decide (k = j)) as [->|Hne]; [|rewrite list_lookup_insert_ne in Hq by done; by apply H3].
  rewrite list_lookup_insert_eq in Hq by (by eapply lookup_lt_Some). by injection Hq as <-.
Qed.

Lemma covered_open E o R i k r : covered E o R -> o !! i = Some None -> R !! k = Some r -> covered E (<[i := Some (Z.of_nat k)]> o) (<[k := r + 1]> R).
Proof.
  intros [H1 H2 H3] Hi Hr. pose proof (lookup_lt_Some _ _ _ Hr) as Hk. split.
  - by rewrite length_insert.
  - intros fd f Hf. rewrite length_insert. destruct (decide (i = fd)) as [->|Hne]; [|rewrite list_lookup_insert_ne in Hf by done; by apply (H2 fd)].
    rewrite list_lookup_insert_eq in Hf by (by eapply lookup_lt_Some). injection Hf as <-. lia.
  - intros j q Hq. rewrite (descs_insert _ _ _ _ _ Hi), (decide_False (P := None = _)) by done. destruct (decide (k = j)) as [->|Hne].
    + rewrite list_lookup_insert_eq in Hq by done. injection Hq as <-. rewrite decide_True by done. pose proof (H3 j r Hr). lia.
    + rewrite list_lookup_insert_ne in Hq by done. rewrite decide_False by (intros [= Heq]; lia). pose proof (H3 j q Hq). lia.
Qed.

Lemma covered_fdalloc E o R i k r : covered E o R -> o !! i = Some None -> R !! k = Some r -> descs (Z.of_nat k) o + 1 <= r -> covered E (<[i := Some (Z.of_nat k)]> o) R.
Proof.
  intros [H1 H2 H3] Hi Hr Hlt. pose proof (lookup_lt_Some _ _ _ Hr) as Hk. split.
  - by rewrite length_insert.
  - intros fd f Hf. destruct (decide (i = fd)) as [->|Hne]; [|rewrite list_lookup_insert_ne in Hf by done; by apply (H2 fd)].
    rewrite list_lookup_insert_eq in Hf by (by eapply lookup_lt_Some). injection Hf as <-. lia.
  - intros j q Hq. rewrite (descs_insert _ _ _ _ _ Hi). rewrite decide_False by done. pose proof (H3 j q Hq) as H. destruct (decide (Some (Z.of_nat k) = Some (Z.of_nat j))) as [[= Heq]|Hne]; [|lia].
    apply Nat2Z.inj in Heq as ->. rewrite Hr in Hq. injection Hq as <-. lia.
Qed.

Lemma covered_close E o R i k r : covered E o R -> o !! i = Some (Some (Z.of_nat k)) -> R !! k = Some r -> covered E (<[i := None]> o) (<[k := r - 1]> R).
Proof.
  intros [H1 H2 H3] Hi Hr. split.
  - by rewrite length_insert.
  - intros fd f Hf. rewrite length_insert. destruct (decide (i = fd)) as [->|Hne]; [|rewrite list_lookup_insert_ne in Hf by done; by apply (H2 fd)].
    rewrite list_lookup_insert_eq in Hf by (by eapply lookup_lt_Some). done.
  - intros j q Hq. rewrite (descs_insert _ _ _ _ _ Hi), (decide_False (P := None = _)) by done. destruct (decide (k = j)) as [->|Hne].
    + rewrite list_lookup_insert_eq in Hq by (by eapply lookup_lt_Some). injection Hq as <-. rewrite decide_True by done. pose proof (H3 j r Hr). lia.
    + rewrite list_lookup_insert_ne in Hq by done. rewrite decide_False by (intros [= Heq]; lia). pose proof (H3 j q Hq). lia.
Qed.

(** ** The table of open files *)
Section table.
Context {St : Type} {BC : BlockCache St} (sblock : SuperBlock) {KA : Kalloc} (kpage : list Z) (ctx t : Z).

(** The counts of the files. *)
Definition refs (R : list Z) (fs : fst_ St) : Prop := ref <$> ftable fs = R.

Lemma stable_table {A} R (m : M (fst_ St) A) : (forall s a s', m s = Ret (a, s') -> ftable s' = ftable s) -> stable (refs R) m.
Proof. intros H s a s' Hs E. unfold refs. by rewrite (H s a s' E). Qed.
Lemma refs_on_inodes {A} R (m : M (ist St) A) : stable (refs R) (on_inodes m).
Proof. apply stable_table. intros s a s' E. unfold on_inodes, zoom in E. destruct (m (inos s)) as [[b i]|]; [|done]. by injection E as _ <-. Qed.
Lemma refs_on_bcache {A} R (m : M St A) : stable (refs R) (on_bcache m).
Proof. apply refs_on_inodes. Qed.
Lemma refs_on_pipe {A} R p (m : M Pipe A) : stable (refs R) (on_pipe p m).
Proof. apply stable_table. intros s a s' E. unfold on_pipe in E. destruct (pipes s !! p) as [q|]; [|done]. destruct (m q) as [[b q']|]; [|done]. by injection E as _ <-. Qed.
Lemma refs_load R f : stable (refs R) (load_file f).
Proof. apply stable_table. intros s a s' E. unfold load_file in E. destruct (ftable s !! _); [|done]. by injection E as _ <-. Qed.
Lemma refs_flock R b : stable (refs R) (modify (set_flock b)).
Proof. apply stable_table. by intros s a s' [= _ <-]. Qed.
Lemma refs_pipes R f : stable (refs R) (modify (set_pipes f)).
Proof. apply stable_table. by intros s a s' [= _ <-]. Qed.
Hint Resolve refs_on_inodes refs_on_bcache refs_on_pipe refs_load refs_flock refs_pipes : stable.
Lemma refs_acquire R : stable (refs R) acquire_ftable.
Proof. unfold acquire_ftable. stable_walk. Qed.
Lemma refs_release R : stable (refs R) release_ftable.
Proof. unfold release_ftable. stable_walk. Qed.
Hint Resolve refs_acquire refs_release : stable.

(** A store to a file changes its count to [g]'s. *)
Lemma refs_update R f g (h : Z -> Z) : (forall x, ref (g x) = h (ref x)) ->
  hoare (refs R) (update_file f g) (fun _ s => exists r, R !! Z.to_nat f = Some r /\ refs (<[Z.to_nat f := h r]> R) s).
Proof.
  intros Hg s a s' Hs E. unfold update_file in E. destruct (ftable s !! Z.to_nat f) as [x|] eqn:Hx; [|done]. injection E as _ <-.
  exists (ref x). split; [rewrite <- Hs, list_lookup_fmap, Hx; done|]. unfold refs. cbn [ftable set_ftable]. by rewrite list_fmap_insert, Hg, Hs.
Qed.
Lemma refs_same R f g : (forall x, ref (g x) = ref x) -> stable (refs R) (update_file f g).
Proof.
  intros Hg s a s' Hs E. destruct (refs_update R f g id Hg s a s' Hs E) as (r & Hr & H). unfold id in H. by rewrite list_insert_id in H.
Qed.

Lemma refs_loaded R f s x : refs R s -> ftable s !! f = Some x -> R !! f = Some (ref x).
Proof. intros <- Hx. by rewrite list_lookup_fmap, Hx. Qed.

Definition allocated R (o : option Z) (s : fst_ St) : Prop :=
  match o with None => refs R s | Some i => exists k r, i = Z.of_nat k /\ R !! k = Some r /\ r <= 0 /\ refs (<[k := 1]> R) s end.

Lemma refs_filealloc R : hoare (refs R) filealloc (allocated R).
Proof.
  unfold filealloc. apply hoare_keep; [auto with stable|intros _].
  apply (hoare_bind _ _ _ (fun r s => match r with None => refs R s | Some i => allocated R (Some i) s end)).
  2:{ intros [i|]; [by apply hoare_ret|]. change (allocated R None) with (refs R). apply hoare_keep; [auto with stable|intros _]. by apply hoare_ret. }
  generalize (Z.to_nat NOFILE) as n. intros n. apply (hoare_for_upto _ n 0 _ (fun i => allocated R (Some i))). intros i0 Hi.
  intros s a s' Hs E. apply bind_inv in E as (x & s1 & E1 & E). unfold load_file in E1. destruct (ftable s !! Z.to_nat i0) as [y|] eqn:Hy; [|done]. injection E1 as -> <-.
  destruct (Z.leb_spec (ref x) 0); [|injection E as <- <-; exact Hs].
  apply bind_inv in E as ([] & s2 & E2 & E). destruct (refs_update R i0 (set_ref 1) (fun _ => 1) (fun _ => eq_refl) s tt s2 Hs E2) as (r & Hr & H2).
  apply bind_inv in E as ([] & s3 & [= <-] & [= <- <-]). exists (Z.to_nat i0), r. split; [lia|]. split; [done|]. split; [|done].
  pose proof (refs_loaded R _ s x Hs Hy) as Hx. rewrite Hr in Hx. by injection Hx as ->.
Qed.

Lemma refs_filedup R f : hoare (refs R) (filedup f) (fun _ s => exists r, R !! Z.to_nat f = Some r /\ refs (<[Z.to_nat f := i32 (r + 1)]> R) s).
Proof.
  unfold filedup. apply hoare_keep; [auto with stable|intros _]. eapply hoare_bind; [apply (refs_update R f _ (fun r => i32 (r + 1))); done|intros [] s a s' (r & Hr & Hs) E].
  apply bind_inv in E as ([] & s3 & [= <-] & [= <- <-]). by exists r.
Qed.

Lemma refs_fileclose R f : hoare (refs R) (fileclose sblock ctx t f) (fun _ s => exists r, R !! Z.to_nat f = Some r /\ refs (<[Z.to_nat f := i32 (r - 1)]> R) s).
Proof.
  unfold fileclose. apply hoare_keep; [auto with stable|intros _]. eapply hoare_bind; [apply (refs_update R f _ (fun r => i32 (r - 1))); done|intros _ s a s' (r & Hr & Hs) E].
  exists r. split; [done|]. revert s a s' Hs E. change (stable (refs (<[Z.to_nat f:=i32 (r - 1)]> R)) (x <- load_file f ;;
    (if ref x =? 0 then match fty x with
      | FD_INODE => update_file f (set_fty FD_NONE) ;;; release_ftable ;;; on_bcache (bc_begin_op ctx) ;;; on_inodes (inode_put sblock (Some ctx) (ip x)) ;;; on_bcache (bc_end_op ctx)
      | FD_PIPE => on_pipe (fpipe x) (pipeClose t (writable x)) ;;; release_ftable
      | FD_NONE => ret tt end else release_ftable))).
  stable_walk. by apply refs_same.
Qed.

Lemma refs_fileread R f n : stable (refs R) (fileread t f n).
Proof. unfold fileread. stable_walk. by apply refs_same. Qed.
Lemma refs_filestat R f : stable (refs R) (filestat f).
Proof. unfold filestat. stable_walk. Qed.
Lemma refs_filewrite R n f src m : stable (refs R) (filewrite sblock n ctx t f src m).
Proof. unfold filewrite, filewrite_turn. stable_walk. by apply refs_same. Qed.

(** Both files, or none. *)
Definition allocated2 R (o : option (Z * Z)) (s : fst_ St) : Prop :=
  match o with
  | None => refs R s
  | Some (f0, f1) => exists k0 k1 r0 r1, f0 = Z.of_nat k0 /\ f1 = Z.of_nat k1 /\ k0 <> k1 /\ R !! k0 = Some r0 /\ R !! k1 = Some r1 /\ r0 <= 0 /\ r1 <= 0 /\ refs (<[k1 := 1]> (<[k0 := 1]> R)) s
  end.

Lemma refs_pipeAlloc R : Forall (fun r => 0 <= r) R -> hoare (refs R) (pipeAlloc sblock kpage ctx t) (allocated2 R).
Proof.
  intros HR. unfold pipeAlloc. apply (hoare_bind _ _ _ (allocated R)); [apply refs_filealloc|]. intros [f0|]; [|by apply hoare_ret].
  intros s a s' (k0 & r0 & -> & Hr0 & Hle0 & Hs) E. pose proof (lookup_lt_Some _ _ _ Hr0) as Hk0.
  revert s a s' Hs E. fold (hoare (S := fst_ St) (A := option (Z * Z))). apply (hoare_bind _ _ _ (allocated (<[k0 := 1]> R))); [apply refs_filealloc|]. intros [f1|].
  - intros s a s' (k1 & r1 & -> & Hr1 & Hle1 & Hs) E. assert (Hne : k0 <> k1).
    { intros <-. rewrite list_lookup_insert_eq in Hr1 by done. injection Hr1 as <-. lia. }
    rewrite list_lookup_insert_ne in Hr1 by done.
    assert (H : refs (<[k1 := 1]> (<[k0 := 1]> R)) s' /\ a = Some (Z.of_nat k0, Z.of_nat k1)).
    { revert s a s' Hs E. apply hoare_keep; [auto with stable|intros p]. apply hoare_keep; [auto with stable|intros _].
      do 6 (apply hoare_keep; [by apply refs_same|intros _]). by apply hoare_ret. }
    destruct H as [H ->]. by exists k0, k1, r0, r1.
  - intros s a s' Hs E. apply bind_inv in E as ([] & s1 & E1 & [= <- <-]). destruct (refs_fileclose _ _ s tt s1 Hs E1) as (r & Hr & H1).
    rewrite Nat2Z.id, list_lookup_insert_eq in * by done. injection Hr as <-. change (i32 (1 - 1)) with 0 in H1. rewrite list_insert_insert_eq in H1.
    assert (r0 = 0) as -> by (rewrite Forall_lookup in HR; specialize (HR _ _ Hr0); lia). by rewrite list_insert_id in H1.
Qed.
End table.

(** ** The calls *)
Section syscalls.
Context {St : Type} {BC : BlockCache St} (sblock : SuperBlock) {KA : Kalloc} (uninit : InodeEntry) (kpage : list Z).
Context (sizeof_stat : Z) (stat_bytes : stat -> bytes) (ctx t : Z) (nm0 dot_rest dotdot_rest : bytes).
Notation fcall_run := (fcall_run sblock uninit kpage sizeof_stat stat_bytes ctx t nm0 dot_rest dotdot_rest).

(** The descriptors are [o], the counts are [R]. *)
Definition fdtab o R (s : syst St) : Prop := fps s = o /\ refs R (files s).

Lemma fdtab_on_files {A} o R (m : M (fst_ St) A) Q : hoare (refs R) m Q -> hoare (fdtab o R) (on_files m) (fun a s => fps s = o /\ Q a (files s)).
Proof. intros H s a s' [Hs Hk] E. unfold on_files, zoom in E. destruct (m (files s)) as [[b i]|] eqn:Em; [|done]. injection E as -> <-. split; [done|by apply (H (files s))]. Qed.
Lemma fdtab_files {A} o R (m : M (fst_ St) A) : stable (refs R) m -> stable (fdtab o R) (on_files m).
Proof. exact (fdtab_on_files o R m (fun _ => refs R)). Qed.
Lemma fdtab_ino {A} o R (m : M (ist St) A) : stable (fdtab o R) (on_ino m).
Proof. apply fdtab_files, refs_on_inodes. Qed.
Lemma fdtab_modify o R (f : syst St -> syst St) : (forall s, files (f s) = files s /\ fps (f s) = fps s) -> stable (fdtab o R) (modify f).
Proof. intros Hf s a s' [H1 H2] [= _ <-]. destruct (Hf s) as [E1 E2]. split; by rewrite ?E1, ?E2. Qed.
Lemma fdtab_cwd o R p : stable (fdtab o R) (modify (set_cwd p)).
Proof. by apply fdtab_modify. Qed.
Lemma fdtab_sections o R f : stable (fdtab o R) (modify (set_sections f)).
Proof. by apply fdtab_modify. Qed.
Lemma fdtab_to_user o R a bs : stable (fdtab o R) (to_user a bs).
Proof. by apply fdtab_modify. Qed.
Lemma fdtab_alloc_page o R : stable (fdtab o R) alloc_page_for_user.
Proof. by apply fdtab_modify. Qed.
Lemma fdtab_free_page o R : stable (fdtab o R) free_page.
Proof. by apply fdtab_modify. Qed.
Lemma fdtab_begin o R : stable (fdtab o R) (begin_op ctx).
Proof. apply fdtab_files, refs_on_bcache. Qed.
Lemma fdtab_end o R : stable (fdtab o R) (end_op ctx).
Proof. apply fdtab_files, refs_on_bcache. Qed.
Hint Resolve fdtab_files fdtab_ino fdtab_cwd fdtab_sections fdtab_to_user fdtab_alloc_page fdtab_free_page fdtab_begin fdtab_end refs_load refs_fileread refs_filestat refs_filewrite : stable.
Lemma fdtab_fd2file o R fd : stable (fdtab o R) (fd2file fd).
Proof. unfold fd2file. stable_walk. Qed.
Lemma fdtab_path o R a : stable (fdtab o R) (user_path a).
Proof. unfold user_path, user_bytes. stable_walk. Qed.
Lemma fdtab_find_path o R p : stable (fdtab o R) (find_path sblock uninit ctx nm0 p).
Proof. unfold find_path. stable_walk. Qed.
Lemma fdtab_find_parent o R p : stable (fdtab o R) (find_parent sblock uninit ctx nm0 p).
Proof. unfold find_parent. stable_walk. Qed.
Hint Resolve fdtab_fd2file fdtab_path fdtab_find_path fdtab_find_parent : stable.
Lemma fdtab_create o R p ty mj mn : stable (fdtab o R) (create sblock uninit ctx nm0 dot_rest dotdot_rest p ty mj mn).
Proof. unfold create. stable_walk. Qed.
Hint Resolve fdtab_create : stable.
Lemma fdtab_write_turn o R n f b sz i : stable (fdtab o R) (SysFile.write_turn sblock ctx t n f b sz i).
Proof. unfold SysFile.write_turn, user_bytes. stable_walk. Qed.
Lemma fdtab_make_node o R d p ty mj mn : stable (fdtab o R) (make_node sblock uninit ctx nm0 dot_rest dotdot_rest d p ty mj mn).
Proof. unfold make_node. stable_walk. Qed.
Hint Resolve fdtab_write_turn fdtab_make_node : stable.

(** The calls that leave the descriptors alone. *)
Definition fd_call (c : fcall) : bool := match c with Dup _ | Close _ | Openat _ _ _ | Pipe2 _ _ => true | _ => false end.

Lemma fdtab_other c o R : fd_call c = false -> stable (fdtab o R) (fcall_run c).
Proof.
  destruct c; try done; intros _; cbn [SysLocks.fcall_run];
    unfold sys_ioctl, sys_mmap, sys_munmap, sys_read, SysFile.read_turn, sys_write, sys_writev, writev_turn, sys_fstat, sys_newfstatat, sys_unlinkat, sys_mkdirat, sys_mknodat, sys_chdir, user_bytes, readable_user, writeable_user; stable_walk.
Qed.

Lemma fdalloc_fdtab o R f : hoare (fdtab o R) (fdalloc f) (fun a s => (exists i, a = Z.of_nat i /\ o !! i = Some None /\ fdtab (<[i := Some f]> o) R s) \/ a = -1 /\ fdtab o R s).
Proof.
  unfold fdalloc. generalize (Z.to_nat NFILE) as n. intros n.
  eapply hoare_bind; [apply (hoare_for_upto _ n 0 _ (fun a s => exists i, a = Z.of_nat i /\ o !! i = Some None /\ fdtab (<[i := Some f]> o) R s))|].
  - intros j Hj s a s' [Hf Hs] E. apply bind_inv in E as (o' & s1 & [= <- <-] & E). rewrite Hf in E. unfold oftable in E. destruct (o !! Z.to_nat j) as [[g|]|] eqn:Hj'; [by revert E; intros [= <- <-]| |done].
    apply bind_inv in E as ([] & s2 & [= <-] & [= <- <-]). exists (Z.to_nat j). split; [lia|]. split; [done|]. split; [cbn; by rewrite Hf|done].
  - intros [i|]; apply hoare_ret; [by left|by right].
Qed.

Lemma fd2file_fdtab o R fd : hoare (fdtab o R) (fd2file fd) (fun r s => fdtab o R s /\ forall f, r = Some f -> 0 <= fd < NOFILE /\ o !! Z.to_nat fd = Some (Some f)).
Proof.
  unfold fd2file. destruct (_ || _) eqn:Hb; [by apply hoare_ret|]. apply orb_false_iff in Hb as [H1 H2]. intros s a s' Hs E. apply bind_inv in E as (o' & s1 & [= <- <-] & E).
  rewrite (proj1 Hs) in E. unfold oftable in E. destruct (o !! Z.to_nat fd) as [g|] eqn:Hg; [|done]. revert E. intros [= <- <-]. split; [done|]. intros f ->. split; [lia|done].
Qed.

(** ** The descriptors are counted *)
Context (E : Z) (HE : 1 <= E /\ E + NOFILE + 1 < 2 ^ 31).
Definition counted (s : syst St) : Prop := covered E (fps s) (ref <$> ftable (files s)).

Lemma fdtab_counted o R s : fdtab o R s -> covered E o R -> counted s.
Proof. intros [<- <-]. done. Qed.
Lemma counted_fdtab s : counted s -> exists o R, fdtab o R s /\ covered E o R.
Proof. intros H. by eexists _, _. Qed.

Lemma covered_bounds o R k r : covered E o R -> R !! k = Some r -> 0 <= r <= NOFILE + E.
Proof. intros H Hr. pose proof (cv_count _ _ _ H k r Hr). pose proof (descs_bounds (Z.of_nat k) o). rewrite (cv_len _ _ _ H) in *. lia. Qed.

Lemma counted_other c : fd_call c = false -> stable counted (fcall_run c).
Proof. intros Hc s a s' (o & R & Hs & Hcv)%counted_fdtab Er. eapply fdtab_counted; [by apply (fdtab_other c o R Hc s a)|done]. Qed.

(** [fdalloc] on a file whose count went up by one. *)
Lemma fdalloc_counted o R k r f : covered E o R -> R !! k = Some r -> f = Z.of_nat k ->
  hoare (fdtab o (<[k := r + 1]> R)) (fdalloc f) (fun a s => a < 0 /\ fdtab o (<[k := r + 1]> R) s \/ 0 <= a /\ counted s).
Proof.
  intros Hc Hr -> s a s' Hs Er. destruct (fdalloc_fdtab _ _ _ s a s' Hs Er) as [(i & -> & Hi & H)|[-> H]]; [|by left].
  right. split; [lia|]. eapply fdtab_counted; [exact H|]. by apply covered_open.
Qed.

Lemma counted_dup fd : stable counted (sys_dup fd).
Proof.
  intros s a s' (o & R & Hs & Hc)%counted_fdtab Er. revert s a s' Hs Er. unfold sys_dup. eapply hoare_bind; [apply fd2file_fdtab|].
  intros [f|]; [|apply hoare_ret; intros s [Hs _]; by eapply fdtab_counted]. intros s a s' [Hs Hf] Er. destruct (Hf f eq_refl) as [Hfd Ho]. clear Hf.
  destruct (covered_desc E o R _ f Hc Ho) as (r & Hr & Hpos). destruct (cv_in _ _ _ Hc _ f Ho) as [Hf0 _].
  apply bind_inv in Er as (b & s1 & E1 & Er). destruct (fdalloc_fdtab o R f s b s1 Hs E1) as [(i & -> & Hi & H1)|[-> H1]].
  - rewrite (proj2 (Z.ltb_ge _ 0)) in Er by lia. apply bind_inv in Er as (u & s2 & E2 & [= <- <-]).
    destruct (fdtab_on_files _ R _ _ (refs_filedup R f) s1 u s2 H1 E2) as (Ho2 & r' & Hr' & H2). rewrite Hr in Hr'. injection Hr' as <-.
    pose proof (covered_bounds o R _ r Hc Hr) as Hb. rewrite i32_small in H2 by lia. eapply fdtab_counted; [split; [exact Ho2|exact H2]|].
    rewrite <- (Z2Nat.id f) at 1 by lia. by apply covered_open.
  - rewrite (proj2 (Z.ltb_lt _ 0)) in Er by lia. injection Er as <- <-. by eapply fdtab_counted.
Qed.

Lemma counted_close fd : stable counted (sys_close sblock ctx t fd).
Proof.
  intros s a s' (o & R & Hs & Hc)%counted_fdtab Er. revert s a s' Hs Er. unfold sys_close. destruct (_ || _); [apply hoare_ret; intros s Hs; by eapply fdtab_counted|].
  eapply hoare_bind; [apply fd2file_fdtab|]. intros [f|]; [|apply hoare_stop]. intros s a s' [Hs Hf] Er. destruct (Hf f eq_refl) as [Hfd Ho]. clear Hf.
  destruct (covered_desc E o R _ f Hc Ho) as (r & Hr & Hpos). destruct (cv_in _ _ _ Hc _ f Ho) as [Hf0 _].
  apply bind_inv in Er as (u & s1 & E1 & Er). destruct (fdtab_on_files _ R _ _ (refs_fileclose sblock ctx t R f) s u s1 Hs E1) as (Ho1 & r' & Hr' & H1). rewrite Hr in Hr'. injection Hr' as <-.
  apply bind_inv in Er as (v & s2 & [= _ <-] & [= <- <-]). pose proof (covered_bounds o R _ r Hc Hr) as Hb. rewrite i32_small in H1 by lia.
  apply (fdtab_counted (<[Z.to_nat fd := None]> o) (<[Z.to_nat f := r - 1]> R)); [split; [cbn; by rewrite Ho1|exact H1]|]. apply covered_close; [done| |done]. by rewrite Z2Nat.id by lia.
Qed.

Lemma counted_openat a b c : stable counted (sys_openat sblock uninit ctx t nm0 dot_rest dotdot_rest a b c).
Proof.
  intros s r s' (o & R & Hs & Hc)%counted_fdtab Er. revert s r s' Hs Er. assert (Hk : forall s, fdtab o R s -> counted s) by (intros s Hs; by eapply fdtab_counted).
  assert (Hkeep : forall m : M (syst St) Z, stable (fdtab o R) m -> hoare (fdtab o R) m (fun _ => counted)) by (intros m Hm s a' s' Hs Er; apply Hk, (Hm s a' s' Hs Er)).
  unfold sys_openat. apply hoare_keep; [auto with stable|intros path]. destruct path as [path|]; [|by apply hoare_ret]. destruct (negb _); [by apply hoare_ret|].
  apply hoare_keep; [auto with stable|intros _]. apply hoare_keep; [stable_walk|intros ip]. destruct ip as [p|]; [|apply Hkeep; stable_walk]. cbv zeta.
  eapply hoare_bind; [apply fdtab_on_files, refs_filealloc|]. intros [f|]; [|apply Hkeep; unfold allocated; stable_walk].
  intros s r s' (Ho & k & r0 & -> & Hr0 & Hle & H) Er. destruct (covered_free E o R k r0 Hc Hr0 Hle) as [-> Hd].
  apply bind_inv in Er as (fd & s1 & E1 & Er). destruct (fdalloc_counted o R k 0 _ Hc Hr0 eq_refl s fd s1 (conj Ho H) E1) as [[Hfd H1]|[Hfd H1]].
  - rewrite (proj2 (Z.ltb_lt _ 0)) in Er by lia. apply bind_inv in Er as (u & s2 & E2 & Er).
    destruct (fdtab_on_files _ _ _ _ (refs_fileclose sblock ctx t _ _) s1 u s2 H1 E2) as (Ho2 & r' & Hr' & H2). rewrite Nat2Z.id in Hr', H2.
    pose proof (lookup_lt_Some _ _ _ Hr0) as Hlt. rewrite list_lookup_insert_eq in Hr' by done. injection Hr' as <-. change (i32 (1 - 1)) with 0 in H2.
    rewrite list_insert_insert_eq, list_insert_id in H2 by done. revert Er. apply Hkeep; [stable_walk|by split].
  - rewrite (proj2 (Z.ltb_ge _ 0)) in Er by lia. apply counted_fdtab in H1 as (o' & R' & H1 & Hc'). apply (fdtab_counted o' R'); [|done]. clear E1. revert s1 r s' H1 Er.
    change (stable (fdtab o' R') (on_ino (inode_unlock p) ;;; end_op ctx ;;;
      on_files (update_file (Z.of_nat k) (fun x => mkFile FD_INODE (ref x) (Z.land c O_WRONLY =? 0) (negb (Z.land c O_WRONLY =? 0) || negb (Z.land c O_RDWR =? 0)) (fpipe x) p 0)) ;;; ret fd)).
    stable_walk. apply fdtab_files. by apply refs_same.
Qed.

(** [fdalloc] on a file that is counted once more than it has descriptors. *)
Lemma fdalloc_spare o R k r f : covered E o R -> R !! k = Some r -> descs (Z.of_nat k) o + 1 <= r -> f = Z.of_nat k ->
  hoare (fdtab o R) (fdalloc f) (fun _ s => exists o', covered E o' R /\ (forall j, j <> f -> descs j o' = descs j o) /\ fdtab o' R s).
Proof.
  intros Hc Hr Hle -> s a s' Hs Er. destruct (fdalloc_fdtab _ _ _ s a s' Hs Er) as [(i & -> & Hi & H)|[-> H]]; [|by exists o].
  exists (<[i := Some (Z.of_nat k)]> o). split; [by apply (covered_fdalloc E o R i k r)|]. split; [|done].
  intros j Hj. rewrite (descs_insert _ _ _ _ _ Hi). rewrite !decide_False by congruence. lia.
Qed.

Lemma counted_pipe2 fd fl : stable counted (sys_pipe2 sblock kpage ctx t fd fl).
Proof.
  intros s r s' (o & R & Hs & Hc)%counted_fdtab Er. revert s r s' Hs Er. unfold sys_pipe2.
  assert (HR : Forall (fun r => 0 <= r) R) by (apply Forall_lookup; intros k r Hr; pose proof (covered_bounds o R k r Hc Hr); lia).
  eapply hoare_bind; [by apply fdtab_on_files, refs_pipeAlloc|]. intros [[f0 f1]|]; [|apply hoare_ret; intros s Hs; by apply (fdtab_counted o R)].
  intros s r s' (Ho & k0 & k1 & r0 & r1 & -> & -> & Hne & Hr0 & Hr1 & Hle0 & Hle1 & H) Er.
  destruct (covered_free E o R k0 r0 Hc Hr0 Hle0) as [-> Hd0], (covered_free E o R k1 r1 Hc Hr1 Hle1) as [-> Hd1].
  set (R2 := <[k1 := 1]> (<[k0 := 1]> R)) in *. pose proof (lookup_lt_Some _ _ _ Hr0) as Hk0. pose proof (lookup_lt_Some _ _ _ Hr1) as Hk1.
  assert (Hc2 : covered E o R2).
  { apply (covered_count E o _ k1 0); [apply (covered_count E o R k0 0 Hc Hr0); lia|by rewrite list_lookup_insert_ne by done|lia]. }
  assert (H20 : R2 !! k0 = Some 1) by (unfold R2; rewrite list_lookup_insert_ne, list_lookup_insert_eq by done; done).
  assert (H21 : R2 !! k1 = Some 1) by (unfold R2; rewrite list_lookup_insert_eq by (by rewrite length_insert); done).
  apply bind_inv in Er as (a & s1 & E1 & Er).
  destruct (fdalloc_spare o R2 k0 1 _ Hc2 H20 ltac:(lia) eq_refl s a s1 (conj Ho H) E1) as (o1 & Hc1 & Hd & H1).
  apply bind_inv in Er as ([] & s2 & E2 & Er). apply (fdtab_to_user o1 _ _ _ _ _ _ H1) in E2.
  apply bind_inv in Er as (b & s3 & E3 & Er). assert (Hd' : descs (Z.of_nat k1) o1 = 0) by (rewrite Hd by lia; done).
  destruct (fdalloc_spare o1 R2 k1 1 _ Hc1 H21 ltac:(lia) eq_refl s2 b s3 E2 E3) as (o2 & Hc3 & _ & H3).
  apply bind_inv in Er as ([] & s4 & E4 & [= <- <-]). apply (fdtab_to_user o2 _ _ _ _ _ _ H3) in E4. by apply (fdtab_counted o2 R2).
Qed.

Lemma counted_call c : stable counted (fcall_run c).
Proof.
  destruct (fd_call c) eqn:Hc; [|by apply counted_other]. destruct c; try done; [apply counted_dup|apply counted_close|apply counted_openat|apply counted_pipe2].
Qed.

Lemma counted_reach s0 n s : counted s0 -> calls_reach sblock uninit kpage sizeof_stat stat_bytes ctx t nm0 dot_rest dotdot_rest s0 n s -> counted s.
Proof. intros H0 Hr. induction Hr as [|n s c r s' _ IH Er]; [done|by apply (counted_call c s r)]. Qed.

(** C20: The reference counts cover the descriptors: from a state in which the
    count of every file is at least the number of descriptors of the process
    that designate it (and at most [E] more), every sequence of the calls on
    files leads to such a state. So a descriptor always designates an entry
    of the table that is in use, which [filealloc] does not hand out. *)
Theorem descriptors_counted s0 n s :
  counted s0 -> calls_reach sblock uninit kpage sizeof_stat stat_bytes ctx t nm0 dot_rest dotdot_rest s0 n s ->
  counted s /\
  forall fd f, fps s !! fd = Some (Some f) ->
    (exists x, ftable (files s) !! Z.to_nat f = Some x /\ 0 < descs f (fps s) <= ref x) /\
    forall g fs', filealloc (files s) = Ret (Some g, fs') -> g <> f.
Proof.
  intros H0 Hr. pose proof (counted_reach s0 n s H0 Hr) as Hc. split; [done|]. intros fd f Hf.
  destruct (covered_desc E _ _ fd f Hc Hf) as (r & Hr' & Hpos). pose proof (cv_in _ _ _ Hc fd f Hf) as Hin.
  assert (Hx := Hr'). rewrite list_lookup_fmap in Hx. destruct (ftable (files s) !! Z.to_nat f) as [x|]; [|done]. injection Hx as <-. split; [by exists x|].
  intros g fs' Ea -> . destruct (refs_filealloc _ (files s) _ fs' eq_refl Ea) as (k & q & Hk & Hq & Hle & _). rewrite Hk, Nat2Z.id in Hr'. rewrite Hr' in Hq. injection Hq as <-. lia.
Qed.
End syscalls.

(** ** Examples *)
#[local] Existing Instance ex_kalloc.
#[local] Existing Instance ex_cache.

(** [mkdir], [dup] of the root directory's descriptor, and [close] of it. *)
Definition ex_fds : syst bcst := set_fps (fun _ => Some 0 :: replicate 127 None) ex_sys.
Definition ex_dup : syst bcst := (ex_result (Dup 0) ex_fds).2.
Definition ex_closed : syst bcst := (ex_result (Close 0) ex_dup).2.

Lemma descriptors_counted_witness :
  fps ex_closed !! 1%nat = Some (Some 0) /\ exists x, ftable (files ex_closed) !! 0%nat = Some x /\ 0 < descs 0 (fps ex_closed) <= ref x.
Proof.
  destruct (descriptors_counted ex_sb ex_dir [] 8 (fun _ => replicate 8 0) 7 1 (replicate 14 0) (replicate 12 0) (replicate 11 0) 1 ltac:(vm_compute; split; congruence) ex_fds 0 ex_closed) as [_ H].
  - split; [reflexivity| |].
    + intros [|fd] f; [intros [= <-]; vm_compute; split; congruence|]. change (replicate 127 (None : option Z) !! fd = Some (Some f) -> 0 <= f < 2). intros [Hr _]%lookup_replicate. done.
    + intros [|[|k]] r; [intros [= <-]; vm_compute; split; congruence|intros [= <-]; vm_compute; split; congruence|done].
  - apply calls_step with (n := 0) (s := ex_dup) (c := Close 0) (r := 0); [|vm_compute; reflexivity].
    apply calls_step with (n := 0) (s := ex_fds) (c := Dup 0) (r := 1); [apply calls_start|vm_compute; reflexivity].
  - split; [reflexivity|]. exact (proj1 (H 1%nat 0 eq_refl)).
Defined.
