(* ===== verification/Paging.v ===== *)
(** * Demand paging (kernel/paging.c, and what it rests on in kernel/pt.c,
    kernel/mem.c and kernel/proc.c)

    The state holds the allocator's memory (Mem.v) with the page tables
    (PT.v), the address space of every process, named by the process, the map
    of the swap slots (Bitmap.v) and the file system, through whose block
    cache pages are swapped. A section is named by the address [kalloc] gave
    it. A spin lock that is held, and a sleep lock without permits, stop the
    caller with [Sleep]. [children] and [zombie] describe the process tree,
    which no call here changes; invalidating the TLB has no model. *)
From stdpp Require Import base gmap list.
From Stdlib Require Import ZArith Lia.
From S2P Require Import Prelude Bytes Bitmap BCache BlockStore CString Console Inode Pipe File Mmu LockFree Mem PT Sections.

Definition REVERSED_PAGES := 1024.

(** [struct section] with the value of its sleep lock. *)
Record vma := mkVma { at_ : Z; sec : section; slock : Z }.
Record pgdir := mkPgdir { pt : Z; pd_lock : bool; section_head : list vma; online : bool }.

Definition set_pt (p : Z) (d : pgdir) : pgdir := mkPgdir p (pd_lock d) (section_head d) (online d).
Definition set_pd_lock (b : bool) (d : pgdir) : pgdir := mkPgdir (pt d) b (section_head d) (online d).
Definition set_section_head (f : list vma -> list vma) (d : pgdir) : pgdir := mkPgdir (pt d) (pd_lock d) (f (section_head d)) (online d).
Definition set_online (b : bool) (d : pgdir) : pgdir := mkPgdir (pt d) (pd_lock d) (section_head d) b.

Definition set_flags (f : Z) (s : section) : section := mkSection f (begin s) (end_ s) (fp s) (offset s) (length_ s).
Definition set_end (e : Z) (s : section) : section := mkSection (flags s) (begin s) e (fp s) (offset s) (length_ s).
Definition set_sec (f : section -> section) (v : vma) : vma := mkVma (at_ v) (f (sec v)) (slock v).
Definition set_slock (l : Z) (v : vma) : vma := mkVma (at_ v) (sec v) l.

Record pst (St : Type) := mkPst { pmem : mem_st; dirs : gmap Z pgdir; swapmap : bitmap; pfs : fst_ St; offline_proc : Z }.
Arguments mkPst {St} _ _ _ _ _.
Arguments pmem {St} _.
Arguments dirs {St} _.
Arguments swapmap {St} _.
Arguments pfs {St} _.
Arguments offline_proc {St} _.

(** A [for] loop over the nodes of a ring that may leave early. *)
Fixpoint for_list {S A B} (l : list A) (body : A -> M S (option B)) : M S (option B) :=
  match l with
  | [] => ret None
  | x :: l => r <- body x ;; match r with Some b => ret (Some b) | None => for_list l body end
  end.

(** The bytes of a page, and [memcpy] to it. *)
Fixpoint rd_words (n : nat) (a : Z) : M mem_st (list Z) :=
  match n with O => ret [] | S n => w <- rd_word a ;; l <- rd_words n (a + 8) ;; ret (w :: l) end.
Fixpoint wr_words (l : list Z) (a : Z) : M mem_st unit :=
  match l with [] => ret tt | w :: l => wr_word a w ;;; wr_words l (a + 8) end.
Definition load_page (ka : Z) : M mem_st bytes := l <- rd_words 512 ka ;; ret (unwords 8 l).
Definition store_page (ka : Z) (off : nat) (bs : bytes) : M mem_st unit :=
  old <- load_page ka ;; wr_words (Bytes.words 8 512 (splice off bs old)) ka.

Section code.
Context {St : Type} {BC : BlockCache St} (kend : Z).
Context (sizeof_section : Z) (this : Z).
Context (children : Z -> list Z) (zombie : Z -> bool) (root_proc : Z) (depth : nat).
Abbreviation M := (M (pst St)).

Definition set_pmem (m : mem_st) (s : pst St) : pst St := mkPst m (dirs s) (swapmap s) (pfs s) (offline_proc s).
Definition set_dirs (f : gmap Z pgdir -> gmap Z pgdir) (s : pst St) : pst St := mkPst (pmem s) (f (dirs s)) (swapmap s) (pfs s) (offline_proc s).
Definition set_swapmap (b : bitmap) (s : pst St) : pst St := mkPst (pmem s) (dirs s) b (pfs s) (offline_proc s).
Definition set_pfs (f : fst_ St) (s : pst St) : pst St := mkPst (pmem s) (dirs s) (swapmap s) f (offline_proc s).
Definition set_offline (p : Z) (s : pst St) : pst St := mkPst (pmem s) (dirs s) (swapmap s) (pfs s) p.

Definition on_mem {A} (m : Prelude.M mem_st A) : M A := zoom pmem set_pmem m.
Definition on_swapmap {A} (m : Prelude.M bitmap A) : M A := zoom swapmap set_swapmap m.
Definition on_fs {A} (m : Prelude.M (fst_ St) A) : M A := zoom pfs set_pfs m.
Definition on_bc {A} (m : Prelude.M St A) : M A := on_fs (on_bcache m).

Definition load_dir (pd : Z) : M pgdir := fun s => match dirs s !! pd with Some d => Ret (d, s) | None => Stop Fault end.
Definition update_dir (pd : Z) (f : pgdir -> pgdir) : M unit :=
  fun s => match dirs s !! pd with Some d => Ret (tt, set_dirs (insert pd (f d)) s) | None => Stop Fault end.

Definition find_vma (a : Z) (l : list vma) : option vma := head (filter (fun v => at_ v = a) l).
Definition load_vma (pd a : Z) : M vma := d <- load_dir pd ;; match find_vma a (section_head d) with Some v => ret v | None => stop Fault end.
Definition update_vma (pd a : Z) (f : vma -> vma) : M unit :=
  update_dir pd (set_section_head (fmap (fun v => if at_ v =? a then f v else v))).

Definition acquire_pd (pd : Z) : M unit := d <- load_dir pd ;; if pd_lock d then stop Sleep else update_dir pd (set_pd_lock true).
Definition release_pd (pd : Z) : M unit := update_dir pd (set_pd_lock false).
Definition acquire_slock (pd a : Z) : M unit := v <- load_vma pd a ;; if slock v - 1 <? 0 then stop Sleep else update_vma pd a (set_slock (slock v - 1)).
Definition release_slock (pd a : Z) : M unit := update_vma pd a (fun v => set_slock (slock v + 1) v).

(** ** Page tables of an address space (kernel/pt.c) *)
Definition get_pte (pd va : Z) (alloc : bool) : M Z :=
  d <- load_dir pd ;; r <- on_mem (PT.get_pte (pt d) va alloc) ;; update_dir pd (set_pt r.1) ;;; ret r.2.
Definition vmmap (pd va ka flags : Z) : M unit :=
  d <- load_dir pd ;; p <- on_mem (PT.vmmap (pt d) va ka flags) ;; update_dir pd (set_pt p).

Definition rd_pte (p : Z) : M Z := on_mem (rd_word p).
Definition wr_pte (p e : Z) : M unit := on_mem (wr_word p e).

(** [for(u64 va = a; va < b; va += PAGE_SIZE)] *)
Definition for_pages (a b : Z) (body : Z -> M unit) : M unit :=
  while (S (Z.to_nat ((b - a + PAGE_SIZE - 1) / PAGE_SIZE)))
    (fun va => if va <? b then body va ;;; ret (inl (u64 (va + PAGE_SIZE))) else ret (inr tt)) a.

(** ** Pages on disk (kernel/mem.c) *)
Definition write_turn (ka bno i : Z) : M (option unit) :=
  b <- on_bc (bc_acquire (u32 (bno + i))) ;;
  d <- on_mem (load_page ka) ;;
  on_bc (bc_set_data b (range (Z.to_nat (i * BLOCK_SIZE)) (Z.to_nat BLOCK_SIZE) d)) ;;;
  on_bc (bc_sync None b) ;;;
  on_bc (bc_release b) ;;;
  ret None.
Definition write_page_to_disk (ka : Z) : M Z :=
  bno <- on_swapmap find_and_set_8_blocks ;;
  for_upto 8 0 (write_turn ka bno) ;;;
  ret bno.

Definition read_turn (ka bno i : Z) : M (option unit) :=
  b <- on_bc (bc_acquire (u32 (bno + i))) ;;
  d <- on_bc (bc_data b) ;;
  on_mem (store_page ka (Z.to_nat (i * BLOCK_SIZE)) d) ;;;
  on_bc (bc_release b) ;;;
  ret None.
Definition read_page_from_disk (ka bno : Z) : M unit :=
  for_upto 8 0 (read_turn ka bno) ;;;
  on_swapmap (release_8_blocks bno).

(** ** [swapout] *)
Definition invalidate_turn (pd va : Z) : M unit :=
  pte <- get_pte pd va false ;;
  when (negb (pte =? 0)) (e <- rd_pte pte ;; wr_pte pte (Z.land e (u64 (Z.lnot PTE_VALID)))).
Definition swapout_turn (pd va : Z) : M unit :=
  pte <- get_pte pd va false ;;
  when (negb (pte =? 0)) (
    e <- rd_pte pte ;;
    when (negb (e =? 0)) (
      let ka := P2K (PTE_ADDRESS e) in
      bno <- write_page_to_disk ka ;;
      wr_pte pte (u32 (Z.shiftl bno 12)) ;;;
      on_mem (kfree_page kend ka))).

Definition swapout (pd st : Z) : M unit :=
  v <- load_vma pd st ;;
  assert (negb (has (sec v) ST_SWAP)) ;;;
  update_vma pd st (set_sec (set_flags (Z.lor (flags (sec v)) ST_SWAP))) ;;;
  update_dir pd (set_online true) ;;;
  let begin := begin (sec v) in
  let end_ := end_ (sec v) in
  for_pages begin end_ (invalidate_turn pd) ;;;
  acquire_slock pd st ;;;
  release_pd pd ;;;
  (if has (sec v) ST_FILE then ret tt else for_pages begin end_ (swapout_turn pd)) ;;;
  release_slock pd st.

(** ** A process whose address space is not in use (kernel/proc.c) *)
Fixpoint find_offline_proc (n : nat) (fa : Z) : M unit :=
  match n with
  | O => stop NoFuel
  | S n =>
      o <- gets offline_proc ;;
      if negb (o =? 0) then ret tt
      else
        for_list (children fa) (fun proc =>
          acquire_pd proc ;;;
          d <- load_dir proc ;;
          if negb (zombie proc) && negb (online d) then modify (set_offline proc) ;;; ret (Some tt)
          else release_pd proc ;;; find_offline_proc n proc ;;; ret None) ;;;
        ret tt
  end.
Definition get_offline_proc : M Z :=
  modify (set_offline 0) ;;; find_offline_proc depth root_proc ;;; gets offline_proc.

(** [&get_offline_proc()->pgdir] is not NULL for a NULL process: the test
    never succeeds, and the access to the ring is then a fault. *)
Definition alloc_turn (_ : unit) : M (unit + Z) :=
  c <- on_mem left_page_cnt ;;
  if c <=? REVERSED_PAGES then
    pd <- get_offline_proc ;;
    d <- load_dir pd ;;
    for_list (section_head d) (fun v =>
      v <- load_vma pd (at_ v) ;;
      when (flags (sec v) =? ST_HEAP) (swapout pd (at_ v)) ;;; ret (@None unit)) ;;;
    ret (inl tt)
  else ka <- on_mem kalloc_page ;; ret (inr ka).
Definition alloc_page_for_user : M Z :=
  ds <- gets dirs ;; while (S (S (size ds))) alloc_turn tt.

(** ** [swapin] *)
Definition swapin_turn (pd va : Z) : M unit :=
  pte <- get_pte pd va false ;;
  when (negb (pte =? 0)) (
    e <- rd_pte pte ;;
    when (negb (e =? 0)) (
      ka <- alloc_page_for_user ;;
      e <- rd_pte pte ;;
      read_page_from_disk ka (u32 (Z.shiftr e 12)) ;;;
      vmmap pd va ka PTE_USER_DATA)).
Definition swapin (pd st : Z) : M unit :=
  v <- load_vma pd st ;;
  assert (has (sec v) ST_SWAP) ;;;
  acquire_slock pd st ;;;
  for_pages (begin (sec v)) (end_ (sec v)) (swapin_turn pd) ;;;
  release_slock pd st ;;;
  update_vma pd st (set_sec (fun x => set_flags (Z.land (flags x) (u64 (Z.lnot ST_SWAP))) x)).

(** ** The sections of an address space *)
Definition init_heap (pd begin : Z) : M Z :=
  s <- on_mem (kalloc 512 sizeof_section) ;;
  update_dir pd (set_section_head (fun l => mkVma s (mkSection ST_HEAP begin begin 0 0 0) 1 :: l)) ;;;
  ret s.

Fixpoint sbrk_search (l : list vma) (begin : Z) : Z + vma :=
  match l with
  | [] => inl begin
  | v :: l => if has (sec v) ST_HEAP then inr v else sbrk_search l (Z.max begin (end_ (sec v)))
  end.
Definition unmap_turn (pd va : Z) : M unit :=
  pte <- get_pte pd va false ;;
  when (negb (pte =? 0)) (e <- rd_pte pte ;; when (valid e) (on_mem (kfree_page kend (P2K (PTE_ADDRESS e))) ;;; wr_pte pte 0)).
Definition sbrk (size : Z) : M Z :=
  d <- load_dir this ;;
  match sbrk_search (section_head d) 0 with
  | inr v =>
      let end0 := end_ (sec v) in
      (if 0 <=? size then update_vma this (at_ v) (set_sec (fun x => set_end (u64 (end_ x + size)) x))
       else
         let size := i64 (-1 * size) in
         assert (negb (end0 <? u64 (u64 size + begin (sec v)))) ;;;
         when (has (sec v) ST_SWAP) (swapin this (at_ v)) ;;;
         update_vma this (at_ v) (set_sec (fun x => set_end (u64 (end_ x - size)) x)) ;;;
         v <- load_vma this (at_ v) ;;
         for_pages (PAGE_BASE (u64 (end_ (sec v) + PAGE_SIZE - 1))) (PAGE_BASE end0) (unmap_turn this)) ;;;
      ret end0
  | inl begin =>
      assert (negb (size <? 0)) ;;;
      s <- init_heap this (u64 (PAGE_BASE begin + Z.shiftl PAGE_SIZE 2)) ;;
      update_vma this s (set_sec (fun x => set_end (u64 (end_ x + size)) x)) ;;;
      v <- load_vma this s ;;
      ret (end_ (sec v))
  end.

(** ** [pgfault] *)
Definition hits (addr : Z) (v : vma) : bool := (begin (sec v) <=? addr) && (addr <? end_ (sec v)).

Definition file_page (st : section) (addr ka : Z) : M unit :=
  f <- on_fs (load_file (fp st)) ;;
  r <- on_fs (on_inodes (inode_read (ip f) (u64 (offset st + PAGE_BASE addr - begin st)) PAGE_SIZE)) ;;
  on_mem (store_page ka 0 r.2).

(** [addr] is the fault address register. *)
Definition pgfault (addr : Z) : M Z :=
  d <- load_dir this ;;
  match head (filter (fun v => hits addr v = true) (section_head d)) with
  | None => ret (-1)
  | Some v =>
      pte <- get_pte this addr true ;;
      e <- rd_pte pte ;;
      (if Z.land e PTE_VALID =? 0 then
         if has (sec v) ST_FILE then
           ka <- alloc_page_for_user ;;
           file_page (sec v) addr ka ;;;
           vmmap this addr ka (if has (sec v) ST_RO then Z.lor PTE_USER_DATA PTE_RO else PTE_USER_DATA)
         else
           when (has (sec v) ST_SWAP) (swapin this (at_ v)) ;;;
           e <- rd_pte pte ;;
           when (e =? 0) (ka <- alloc_page_for_user ;; vmmap this addr ka PTE_USER_DATA)
       else if negb (Z.land e PTE_RO =? 0) then
         ka <- alloc_page_for_user ;;
         e <- rd_pte pte ;;
         page <- on_mem (load_page (P2K (PTE_ADDRESS e))) ;;
         on_mem (store_page ka 0 page) ;;;
         on_mem (kfree_page kend (P2K (PTE_ADDRESS e))) ;;;
         vmmap this addr ka PTE_USER_DATA
       else stop Panic) ;;;
      ret 0
  end.

(** ** Making, copying and freeing address spaces *)
Definition init_sections (pd : Z) : M unit := update_dir pd (set_section_head (fun _ => [])).

Definition init_pgdir (pd : Z) : M unit :=
  p <- on_mem new_table ;;
  update_dir pd (set_pt p) ;;; update_dir pd (set_pd_lock false) ;;; init_sections pd ;;; update_dir pd (set_online false).

Definition free_turn (va : Z) (pd : Z) : M unit :=
  pte <- get_pte pd va false ;;
  when (negb (pte =? 0)) (e <- rd_pte pte ;; when (valid e) (on_mem (kfree_page kend (P2K (PTE_ADDRESS e))))).
Fixpoint free_sections_from (pd : Z) (pre : option Z) (l : list Z) : M unit :=
  match l with
  | [] => match pre with Some p => on_mem (kfree p) | None => ret tt end
  | st :: l =>
      v <- load_vma pd st ;;
      when (has (sec v) ST_SWAP) (swapin pd st) ;;;
      for_pages (PAGE_BASE (begin (sec v))) (end_ (sec v)) (fun va => free_turn va pd) ;;;
      match pre with Some p => on_mem (kfree p) | None => ret tt end ;;;
      free_sections_from pd (Some st) l
  end.
Definition free_sections (pd : Z) : M unit := d <- load_dir pd ;; free_sections_from pd None (at_ <$> section_head d).

Definition free_pgdir (pd : Z) : M unit :=
  d <- load_dir pd ;;
  if pt d =? 0 then ret tt
  else free_sections pd ;;; on_mem (free_tables kend (pt d)) ;;; update_dir pd (set_pt 0).

Definition copy_sections (from to : Z) : M unit :=
  init_sections to ;;;
  d <- load_dir from ;;
  for_list (section_head d) (fun v =>
    s <- on_mem (kalloc 512 sizeof_section) ;;
    update_dir to (set_section_head (fun l => mkVma s (sec v) (slock v) :: l)) ;;; ret (@None unit)) ;;;
  ret tt.

(** The part of [fork] that copies the address space. *)
Definition share_turn (np va : Z) : M unit :=
  pte <- get_pte this va false ;;
  when (negb (pte =? 0)) (
    e <- rd_pte pte ;;
    when (valid e) (
      vmmap np va (P2K (PTE_ADDRESS e)) (Z.lor (PTE_FLAGS e) PTE_RO) ;;;
      e <- rd_pte pte ;;
      wr_pte pte (Z.lor e PTE_RO))).
Definition fork_memory (np : Z) : M unit :=
  copy_sections this np ;;;
  d <- load_dir this ;;
  for_list (section_head d) (fun v =>
    for_pages (PAGE_BASE (begin (sec v))) (PAGE_BASE (end_ (sec v)) + 1) (share_turn np) ;;; ret (@None unit)) ;;;
  ret tt.

(** [attach_pgdir], without the translation register it loads. *)
Definition attach_pgdir (pd : Z) : M unit :=
  acquire_pd this ;;; update_dir this (set_online false) ;;; release_pd this ;;;
  d <- load_dir pd ;;
  when (negb (pt d =? 0)) (acquire_pd pd ;;; update_dir pd (set_online true) ;;; release_pd pd).

(** [copyout]: [off] and [p] advance by what was copied. *)
Definition copyout_turn (pd end_ i : Z) (st : Z * bytes) : M (Z * bytes) :=
  let '(off, p) := st in
  let n := Z.min (u64 (end_ - off)) (u64 ((i + 1) * PAGE_SIZE - off)) in
  pte <- get_pte pd off true ;;
  e <- rd_pte pte ;;
  when (Z.land e PTE_VALID =? 0) (ka <- alloc_page_for_user ;; vmmap pd off ka PTE_USER_DATA) ;;;
  e <- rd_pte pte ;;
  on_mem (store_page (P2K (PTE_ADDRESS e)) (Z.to_nat (off - PAGE_BASE off)) (take (Z.to_nat n) p)) ;;;
  ret (u64 (off + n), drop (Z.to_nat n) p).
Definition copyout (pd va : Z) (p : bytes) (len : Z) : M Z :=
  if len =? 0 then ret 0
  else
    let end_ := u64 (va + len) in
    let first := va / PAGE_SIZE in
    for_acc (Z.to_nat ((end_ - 1) / PAGE_SIZE - first + 1)) first (copyout_turn pd end_) (va, p) ;;;
    ret 0.
End code.
