(* ===== verification/PagingMem.v ===== *)
(** * Pages and page tables under demand paging (kernel/paging.c)

    What the steps of Paging.v do to the allocator's memory, on states with
    the invariant [pt_inv] of a page table (PT.v): reading and writing the
    content of a page, taking and giving back a page, changing an entry. *)
From stdpp Require Import base gmap list.
From Stdlib Require Import ZArith Lia.
From S2P Require Import Prelude Bytes Bitmap BCache BlockStore CString Console Inode Pipe File Mmu LockFree Mem PT Sections Paging.

(** ** The content of a page *)
Definition page_words (s : mem_st) (p : Z) : list Z := (fun k => default 0 (words s !! (p + 8 * Z.of_nat k))) <$> seq 0 512.

Fixpoint put_words (l : list Z) (a : Z) (w : gmap Z Z) : gmap Z Z :=
  match l with [] => w | x :: l => put_words l (a + 8) (<[a := x]> w) end.

Lemma put_words_out l a w x : x < a \/ a + 8 * Z.of_nat (length l) <= x -> put_words l a w !! x = w !! x.
Proof.
  revert a w. induction l as [|y l IH]; intros a w Hx; [done|]. cbn [length put_words] in *. rewrite IH by lia. apply lookup_insert_ne. lia.
Qed.

Lemma put_words_in l a w (k : nat) y : l !! k = Some y -> put_words l a w !! (a + 8 * Z.of_nat k) = Some y.
Proof.
  revert a w k. induction l as [|x l IH]; intros a w k Hk; [done|]. cbn [put_words]. destruct k as [|k].
  - injection Hk as ->. rewrite Z.mul_0_r, Z.add_0_r, put_words_out by lia. apply lookup_insert_eq.
  - replace (a + 8 * Z.of_nat (S k)) with (a + 8 + 8 * Z.of_nat k) by lia. by apply IH.
Qed.

Lemma rd_words_Ret n : forall a s, (forall k, (k < n)%nat -> ram (a + 8 * Z.of_nat k) = true) ->
  rd_words n a s = Ret ((fun k => default 0 (words s !! (a + 8 * Z.of_nat k))) <$> seq 0 n, s).
Proof.
  induction n as [|n IH]; intros a s H; [done|]. cbn [rd_words]. pose proof (H 0%nat ltac:(lia)) as H0. rewrite Z.add_0_r in H0.
  rewrite (bind_Ret (rd_word a) _ s (default 0 (words s !! a)) s) by (unfold rd_word; by rewrite H0).
  rewrite (bind_Ret _ _ _ _ _ (IH (a + 8) s ltac:(intros k Hk; replace (a + 8 + 8 * Z.of_nat k) with (a + 8 * Z.of_nat (S k)) by lia; apply H; lia))).
  unfold ret. cbn [seq fmap list_fmap]. rewrite Z.mul_0_r, Z.add_0_r. do 3 f_equal. rewrite <- seq_shift, <- list_fmap_compose. apply list_fmap_ext. intros k x _. cbn.
  do 2 f_equal. lia.
Qed.

Lemma wr_words_Ret l : forall a s, (forall k, (k < length l)%nat -> ram (a + 8 * Z.of_nat k) = true) ->
  wr_words l a s = Ret (tt, set_words (put_words l a) s).
Proof.
  induction l as [|x l IH]; intros a s H; [by destruct s|]. cbn [wr_words put_words]. pose proof (H 0%nat ltac:(cbn; lia)) as H0. rewrite Z.add_0_r in H0.
  rewrite (bind_Ret _ _ _ _ _ (wr_word_Ret a x s H0)). rewrite IH; [done|].
  intros k Hk. replace (a + 8 + 8 * Z.of_nat k) with (a + 8 * Z.of_nat (S k)) by lia. apply H. cbn. lia.
Qed.

Lemma page_words_length s p : length (page_words s p) = 512%nat.
Proof. unfold page_words. by rewrite length_fmap, length_seq. Qed.

Lemma page_ram lo p k : page_ok lo p -> (k < 512)%nat -> ram (p + 8 * Z.of_nat k) = true.
Proof. intros Hp Hk. apply (pte_ram lo p (Z.of_nat k) Hp). lia. Qed.

Lemma load_page_Ret lo p s : page_ok lo p -> load_page p s = Ret (unwords 8 (page_words s p), s).
Proof. intros Hp. unfold load_page. rewrite (bind_Ret _ _ _ _ _ (rd_words_Ret 512 p s ltac:(intros; by apply (page_ram lo)))). done. Qed.

Lemma store_page_Ret lo p off bs s : page_ok lo p -> (off + length bs <= 4096)%nat ->
  store_page p off bs s = Ret (tt, set_words (put_words (Bytes.words 8 512 (splice off bs (unwords 8 (page_words s p)))) p) s).
Proof.
  intros Hp Hl. unfold store_page. rewrite (bind_Ret _ _ _ _ _ (load_page_Ret lo p s Hp)). apply wr_words_Ret. intros k Hk. apply (page_ram lo); [done|].
  rewrite words_length in Hk. lia.
Qed.

(** The content after it was written, and that of other pages. *)
Lemma page_words_put s p l : length l = 512%nat -> page_words (set_words (put_words l p) s) p = l.
Proof.
  intros Hl. apply list_eq. intros k. unfold page_words. rewrite list_lookup_fmap. cbn [words set_words]. destruct (decide (k < 512)%nat) as [Hk|Hk].
  - rewrite lookup_seq_lt by done. destruct (lookup_lt_is_Some_2 l k) as [y Hy]; [lia|]. cbn. by rewrite Hy, (put_words_in l p _ k y Hy).
  - rewrite lookup_seq_ge by lia. symmetry. apply lookup_ge_None_2. lia.
Qed.

Lemma page_words_ext s s' p : (forall a, p <= a < p + PAGE_SIZE -> words s' !! a = words s !! a) -> page_words s' p = page_words s p.
Proof.
  intros H. unfold page_words. apply list_fmap_ext. intros i k [-> Hk]%lookup_seq. rewrite H; [done|]. unfold PAGE_SIZE. lia.
Qed.

(** Words are as wide as the machine's. *)
Definition page_wide (s : mem_st) (p : Z) : Prop := Forall (word_ok 8) (page_words s p).

Lemma words_of_page l : length l = 512%nat -> Forall (word_ok 8) l -> Bytes.words 8 512 (unwords 8 l) = l.
Proof. intros Hl Ho. rewrite <- Hl, <- (app_nil_r (unwords 8 l)). by apply words_unwords. Qed.

(** ** Steps on a state with a page table *)
Section steps.
Context (lo : Z) (pt : Z) (T : tables).

Definition user_page (g : ghost) (p n : Z) : Prop := gheld g !! p = Some n /\ forall a, T !! a <> Some p.

Lemma user_page_ok s g p n : pt_inv lo s g pt T -> user_page g p n -> page_ok lo p.
Proof using. intros H [Hp _]. eapply held_page; [apply (p_mem _ _ _ _ _ H)|exact Hp]. Qed.

Lemma user_not_table s g p n a q j : pt_inv lo s g pt T -> user_page g p n -> T !! a = Some q -> 0 <= j < 512 -> ~ p <= pte_ptr q j < p + PAGE_SIZE.
Proof using.
  intros H Hp Ha Hj Hin. pose proof (user_page_ok s g p n H Hp) as (_ & _ & _ & Hpm). pose proof (table_page _ _ _ _ _ _ _ H Ha) as (_ & _ & _ & Hqm).
  destruct Hp as [_ Hp]. apply (Hp a). rewrite (pages_apart p q (8 * j)); [done|done|done|unfold PAGE_SIZE; lia|done].
Qed.

(** Writes to a page of the user leave the tables alone. *)
Lemma user_write s g p n w v : pt_inv lo s g pt T -> user_page g p n -> p <= w < p + PAGE_SIZE -> pt_inv lo (set_words (insert w v) s) g pt T.
Proof using.
  intros H Hp Hw. assert (Hne : forall a q j, T !! a = Some q -> 0 <= j < 512 -> w <> pte_ptr q j) by (intros a q j Ha Hj ->; by eapply user_not_table).
  constructor; simpl; try apply H.
  - apply write_inv; [apply H|]. eapply held_not_ctl; [apply (p_mem _ _ _ _ _ H)|apply Hp|done].
  - intros a q i Ha Hl Hi. rewrite lookup_insert_ne by (by eapply Hne). by apply (p_entry _ _ _ _ _ H).
  - intros a q i Ha Hl Hi. rewrite lookup_insert_ne by (by eapply Hne). by eapply (p_leaf _ _ _ _ _ H).
Qed.

Lemma user_writes g p n l : forall s a, pt_inv lo s g pt T -> user_page g p n -> p <= a -> a + 8 * Z.of_nat (length l) <= p + PAGE_SIZE ->
  pt_inv lo (set_words (put_words l a) s) g pt T.
Proof using.
  induction l as [|x l IH]; intros s a H Hp Ha Hl; [by destruct s|]. cbn [put_words length] in *.
  change (set_words (fun w => put_words l (a + 8) (<[a := x]> w)) s) with (set_words (put_words l (a + 8)) (set_words (insert a x) s)).
  apply IH; [|done|lia|lia]. eapply user_write; [done|done|lia].
Qed.

Lemma pte_of_words s s' va : (forall q, T !! path va = Some q -> words s' !! pte_ptr q (VA_PART3 va) = words s !! pte_ptr q (VA_PART3 va)) -> pte_of s' T va = pte_of s T va.
Proof using. intros H. unfold pte_of. destruct (T !! path va) as [q|]; [|done]. by rewrite H. Qed.

Record stored (s s' : mem_st) (g : ghost) (p : Z) (l : list Z) : Prop := {
  sr_inv : pt_inv lo s' g pt T;
  sr_page : page_words s' p = l;
  sr_pte : forall va, pte_of s' T va = pte_of s T va;
  sr_other : forall q n, user_page g q n -> q <> p -> page_words s' q = page_words s q
}.

Lemma store_stored s g p n l : pt_inv lo s g pt T -> user_page g p n -> length l = 512%nat -> stored s (set_words (put_words l p) s) g p l.
Proof using.
  intros H Hp Hl. pose proof (user_page_ok s g p n H Hp) as Hpo. split.
  - eapply user_writes; [done|done|lia|rewrite Hl; unfold PAGE_SIZE; lia].
  - by apply page_words_put.
  - intros va. apply pte_of_words. intros q Hq. apply put_words_out. rewrite Hl. pose proof (user_not_table s g p n _ q (VA_PART3 va) H Hp Hq) as Hn.
    destruct (part_bounds va) as (_ & _ & _ & HB). specialize (Hn HB). unfold PAGE_SIZE in Hn. lia.
  - intros q m Hq Hne. apply page_words_ext. intros a Ha. apply put_words_out. rewrite Hl. pose proof (user_page_ok s g q m H Hq) as Hqo.
    destruct (pages_disjoint lo p q Hpo Hqo) as [?|?]; [congruence|unfold PAGE_SIZE in *; lia..].
Qed.

(** [kalloc_page] *)
Lemma take_page s g p l : pt_inv lo s g pt T -> gfree g = p :: l ->
  exists s', kalloc_page s = Ret (p, s') /\ pt_inv lo s' (hold_page p l g) pt T /\ user_page (hold_page p l g) p 0 /\ words s' = words s.
Proof using.
  intros H Hf. pose proof (p_mem _ _ _ _ _ H) as HM. pose proof (free_bound lo s g HM) as Hb. change NPAGE with 258048 in Hb.
  destruct (kalloc_page_spec lo s g p l HM Hf ltac:(lia)) as (s1 & E1 & H1 & Hz1 & H0 & Hw). destruct (i_sep _ _ _ HM p ltac:(rewrite Hf; by left)) as [_ Hph].
  assert (Hnt : forall a, T !! a <> Some p) by (intros a Ha; pose proof (p_held _ _ _ _ _ H a p Ha); congruence).
  exists s1. split; [done|]. split; [|split; [split; [apply lookup_insert_eq|done]|done]]. constructor; simpl; try apply H; try done.
  - destruct (p_zero _ _ _ _ _ H) as (z & Hz & [m Hm] & Hzt). exists z. split; [congruence|]. split; [|done]. apply lookup_insert_is_Some'. right. eauto.
  - intros a q Ha. rewrite lookup_insert_ne by (intros ->; by apply (Hnt a)). by eapply (p_held _ _ _ _ _ H).
  - intros a q i. rewrite Hw. apply (p_entry _ _ _ _ _ H).
  - intros a q i. rewrite Hw. apply (p_leaf _ _ _ _ _ H).
Qed.

(** [kfree_page] of a page of the user. *)
Definition dropped (p n : Z) (g : ghost) : ghost := if n <=? 1 then drop_page p g else count_page p (n - 1) g.

Lemma dropped_other p n g q : q <> p -> gheld (dropped p n g) !! q = gheld g !! q.
Proof using. intros Hq. unfold dropped. destruct (n <=? 1); simpl; [by rewrite lookup_delete_ne|by rewrite lookup_insert_ne]. Qed.

Lemma give_page kend s g p n : lo = PAGE_BASE kend + PAGE_SIZE ->
  pt_inv lo s g pt T -> user_page g p n -> p <> zero_page s -> n <= 127 ->
  exists s', kfree_page kend p s = Ret (tt, s') /\ pt_inv lo s' (dropped p n g) pt T /\
    (forall w, ~ p <= w < p + PAGE_SIZE -> words s' !! w = words s !! w) /\ (1 < n -> words s' = words s) /\ zero_page s' = zero_page s.
Proof using.
  intros Hlo H Hp Hz Hn. pose proof (p_mem _ _ _ _ _ H) as HM. pose proof (free_bound _ s g HM) as Hb. change NPAGE with 258048 in Hb. destruct Hp as [Hp Hnt].
  pose proof (kfree_page_spec kend s g p n) as K1. pose proof (kfree_page_frees kend s g p n) as K2. pose proof (kfree_page_run kend s g p n) as K3. cbv zeta in K1, K2, K3. rewrite <- Hlo in K1, K2, K3.
  destruct (K1 HM Hp Hz Hn ltac:(lia)) as (s' & E & HM' & Hz'). exists s'. split; [done|].
  assert (Hw : (forall w, ~ p <= w < p + PAGE_SIZE -> words s' !! w = words s !! w) /\ (1 < n -> words s' = words s)).
  { destruct (i_ref _ _ _ HM p n Hp) as [Hn0 _]. pose proof (wraps_neg_small n ltac:(lia)) as Hn8. destruct (Z.leb_spec n 1) as [Hd|Hd].
    - destruct (K2 HM Hp Hz) as (s2 & E2 & _ & _ & Hw2); [lia|lia|]. rewrite E in E2. injection E2 as <-. split; [|lia].
      intros w Hwp. rewrite Hw2. apply lookup_insert_ne. intros <-. unfold PAGE_SIZE in Hwp. lia.
    - pose proof (K3 HM Hp Hz) as Er. rewrite E, Hn8, (proj2 (Z.leb_gt _ _)) in Er by lia. injection Er as ->. done. }
  split; [|split; [apply Hw|split; [apply Hw|done]]]. constructor; try apply H.
  - unfold dropped. exact HM'.
  - destruct (p_zero _ _ _ _ _ H) as (z & Hzz & Hzh & Hzt). exists z. split; [congruence|]. split; [|done]. rewrite dropped_other by congruence. done.
  - intros a q Ha. rewrite dropped_other by (intros ->; by apply (Hnt a)). by eapply (p_held _ _ _ _ _ H).
  - intros a q i Ha Hl Hi. rewrite (proj1 Hw) by (eapply user_not_table; [done|split; done|done|done]). by apply (p_entry _ _ _ _ _ H).
  - intros a q i Ha Hl Hi. rewrite (proj1 Hw) by (eapply user_not_table; [done|split; done|done|done]). by eapply (p_leaf _ _ _ _ _ H).
Qed.

(** What the other pages and the entries keep when a page is given back. *)
Lemma give_kept s s' g p n : pt_inv lo s g pt T -> user_page g p n -> (forall w, ~ p <= w < p + PAGE_SIZE -> words s' !! w = words s !! w) ->
  (forall va, pte_of s' T va = pte_of s T va) /\ forall q k, user_page g q k -> q <> p -> page_words s' q = page_words s q.
Proof using.
  intros H Hp Hw. split.
  - intros va. unfold pte_of. destruct (T !! path va) as [q|] eqn:Hq; [|done]. rewrite Hw; [done|]. destruct (part_bounds va) as (_ & _ & _ & HB). by eapply user_not_table.
  - intros q k Hq Hne. apply page_words_ext. intros w Hin. apply Hw. pose proof (user_page_ok s g p n H Hp) as Hpo. pose proof (user_page_ok s g q k H Hq) as Hqo.
    destruct (pages_disjoint lo p q Hpo Hqo) as [?|?]; [congruence|unfold PAGE_SIZE in *; lia..].
Qed.

(** Entries of the last level. *)
Definition entry_ptr (q va : Z) : Z := pte_ptr q (VA_PART3 va).

Lemma get_pte_found s g va alloc q : pt_inv lo s g pt T -> T !! path va = Some q -> PT.get_pte pt va alloc s = Ret ((pt, entry_ptr q va), s).
Proof using.
  intros H Hq. unfold PT.get_pte. rewrite (bind_Ret _ _ _ _ _ (walk_spec lo s g pt T va H)). cbv beta iota. rewrite Hq. cbn [default from_option id].
  destruct (page_ok_index lo q) as (_ & H0 & _); [by eapply table_page|]. by rewrite (proj2 (Z.eqb_neq q 0)).
Qed.

Lemma rd_entry s g va q : pt_inv lo s g pt T -> T !! path va = Some q -> rd_word (entry_ptr q va) s = Ret (pte_of s T va, s).
Proof using.
  intros H Hq. destruct (part_bounds va) as (_ & _ & _ & HB). destruct (p_leaf _ _ _ _ _ H _ q (VA_PART3 va) Hq eq_refl HB) as [e He].
  unfold pte_of. rewrite Hq. unfold entry_ptr. rewrite He. apply rd_word_Ret; [|done]. eapply pte_ram; [by eapply table_page|done].
Qed.

(** Two addresses have the same entry when they are on the same page. *)
Definition same_page (va va' : Z) : Prop := (va / 4096) mod 2 ^ 36 = (va' / 4096) mod 2 ^ 36.

Record entered (s s' : mem_st) (g : ghost) (va e : Z) : Prop := {
  en_inv : pt_inv lo s' g pt T;
  en_new : forall va', same_page va' va -> pte_of s' T va' = e;
  en_other : forall va', ~ same_page va' va -> pte_of s' T va' = pte_of s T va';
  en_page : forall p n, user_page g p n -> page_words s' p = page_words s p
}.

Lemma path_same va va' : same_page va va' -> path va = path va' /\ VA_PART3 va = VA_PART3 va'.
Proof using.
  unfold same_page, path. intros E. rewrite !VA_PART0_mod, !VA_PART1_mod, !VA_PART2_mod, !VA_PART3_mod.
  assert (Hd : forall a k, 0 <= k <= 27 -> (a / 2 ^ (12 + k)) mod 512 = (((a / 4096) mod 2 ^ 36) / 2 ^ k) mod 512).
  { intros a k Hk. change 4096 with (2 ^ 12). rewrite Z.pow_add_r, <- Z.div_div by lia. set (x := a / 2 ^ 12). replace (2 ^ 36) with (2 ^ k * 2 ^ (36 - k)) by (rewrite <- Z.pow_add_r by lia; f_equal; lia).
    assert (0 < 2 ^ k) by (apply Z.pow_pos_nonneg; lia). assert (0 < 2 ^ (36 - k)) by (apply Z.pow_pos_nonneg; lia).
    rewrite Z.rem_mul_r by lia. rewrite Z.add_comm, Z.mul_comm, Z.div_add_l by lia. rewrite (Z.div_small (x mod 2 ^ k)) by (apply Z.mod_pos_bound; lia). rewrite Z.add_0_r.
    change 512 with (2 ^ 9). rewrite <- Znumtheory.Zmod_div_mod; [done|lia|lia|]. exists (2 ^ (27 - k)). rewrite <- Z.pow_add_r by lia. f_equal. lia. }
  pose proof (Hd va) as H1. pose proof (Hd va') as H2. rewrite <- E in H2.
  pose proof (H1 0 ltac:(lia)) as A0. pose proof (H1 9 ltac:(lia)) as A1. pose proof (H1 18 ltac:(lia)) as A2. pose proof (H1 27 ltac:(lia)) as A3.
  pose proof (H2 0 ltac:(lia)) as B0. pose proof (H2 9 ltac:(lia)) as B1. pose proof (H2 18 ltac:(lia)) as B2. pose proof (H2 27 ltac:(lia)) as B3.
  change (12 + 0) with 12 in *. change (12 + 9) with 21 in *. change (12 + 18) with 30 in *. change (12 + 27) with 39 in *. split; congruence.
Qed.

Lemma enter s g va q e : pt_inv lo s g pt T -> T !! path va = Some q -> wr_word (entry_ptr q va) e s = Ret (tt, set_words (insert (entry_ptr q va) e) s) /\
  entered s (set_words (insert (entry_ptr q va) e) s) g va e.
Proof using.
  intros H Hq. destruct (part_bounds va) as (_ & _ & _ & HB). pose proof (table_page _ _ _ _ _ _ _ H Hq) as Hqo. split; [apply wr_word_Ret; by eapply pte_ram|]. split.
  - by eapply leaf_write.
  - intros va' [E1 E2]%path_same. unfold pte_of. rewrite E1, Hq, E2. unfold set_words; cbn [words]. unfold entry_ptr. by rewrite lookup_insert_eq.
  - intros va' Hne. apply pte_of_words. intros q' Hq'. unfold set_words; cbn [words]. apply lookup_insert_ne. intros E. destruct (part_bounds va') as (_ & _ & _ & HB').
    apply (pte_ptr_inj lo) in E as [<- E3]; [|done|by eapply table_page|done|done]. apply Hne. unfold same_page. apply parts_inj; [by eapply (p_inj _ _ _ _ _ H)|done].
  - intros p n Hp. apply page_words_ext. intros a Ha. unfold set_words; cbn [words]. apply lookup_insert_ne. intros <-. by eapply user_not_table.
Qed.

(** [vmmap] where the table is there. *)
Lemma vmmap_found s g va q ka flags n : pt_inv lo s g pt T -> T !! path va = Some q -> user_page g ka n -> 0 <= flags < 4096 ->
  exists s', PT.vmmap pt va ka flags s = Ret (pt, s') /\ entered s s' (count_page ka (n + 1) g) va (K2P ka + flags) /\
    table_of (K2P ka + flags) = ka /\ user_page (count_page ka (n + 1) g) ka (n + 1) /\ zero_page s' = zero_page s.
Proof using.
  intros H Hq [Hka Hnt] Hf. destruct (entry_of lo ka flags (held_page _ _ _ _ _ (p_mem _ _ _ _ _ H) Hka) Hf) as (Ev & _ & _ & Et).
  destruct (enter s g va q (K2P ka + flags) H Hq) as [Ew [He1 He2 He3 He4]].
  destruct (increment_inv lo _ g pt T ka n He1 Hka Hnt) as (s2 & E2 & H2 & Hw2).
  destruct (increment_ref_spec lo _ g ka n (p_mem _ _ _ _ _ He1) Hka) as (s2' & E2' & _ & Hz2 & _). rewrite E2 in E2'. injection E2' as <-.
  exists s2. split; [|split; [|split; [done|split; [split; [apply lookup_insert_eq|done]|done]]]].
  - unfold PT.vmmap. rewrite (bind_Ret _ _ _ _ _ (get_pte_found s g va true q H Hq)). cbn [fst snd]. rewrite Ev, (bind_Ret _ _ _ _ _ Ew), (bind_Ret _ _ _ _ _ E2). done.
  - split; [done|..].
    + intros va' Hs. unfold pte_of. rewrite Hw2. by apply He2.
    + intros va' Hs. unfold pte_of. rewrite Hw2. by apply He3.
    + intros p m [Hp Hpt]. unfold page_words. rewrite Hw2. destruct (decide (p = ka)) as [->|Hne].
      * apply (He4 ka n). done.
      * simpl in Hp. rewrite lookup_insert_ne in Hp by done. by apply (He4 p m).
Qed.
End steps.

(** ** An example: a page mapped at 0x400000, with plenty of pages left *)
Definition pg_kend := 0xffff00003eb00123.
Definition pg_client : client := after pg_kend [OPage].
Definition pg_page := 0xffff00003effe000.
Definition pg_addr := 0x400000.

Lemma pg_client_run : (if run_client pg_kend [OPage] then true else false) = true.
Proof. vm_compute. reflexivity. Qed.

Lemma pg_facts : zero_page pg_client.1.1 <> pg_page /\ alloc_page_cnt pg_client.1.1 = 1277 /\ pg_client.2 !! pg_page = Some 0 /\ forallb (fun w => (0 <=? w) && (w <? 2 ^ 64)) (page_words pg_client.1.1 pg_page) = true.
Proof. vm_compute. split; [discriminate|]. split; [reflexivity|]. split; reflexivity. Qed.
