(* ===== verification/PagingProps.v ===== *)
(** * What a page fault does (kernel/paging.c)

    [space]: the address space of a process is a page table in the
    allocator's memory. On such states: a fault on a page that is not there
    maps a new one, a fault on a page that is mapped read-only gives the
    process a copy of its own. *)
From stdpp Require Import base gmap list.
From Stdlib Require Import ZArith Lia.
From S2P Require Import Prelude Bytes Bitmap BCache BlockStore CString Console Inode Pipe File Mmu LockFree Mem PT Sections Paging PagingMem.

Section props.
Context {St : Type} {BC : BlockCache St} (kend sizeof_section this : Z).
Context (children : Z -> list Z) (zombie : Z -> bool) (root_proc : Z) (depth : nat).
Abbreviation lo := (PAGE_BASE kend + PAGE_SIZE).
Abbreviation pst := (pst St).

Record space (pd : Z) (s : pst) (g : ghost) (d : pgdir) (T : tables) : Prop := {
  sp_dir : dirs s !! pd = Some d;
  sp_pt : pt_inv lo (pmem s) g (pt d) T
}.

Lemma on_mem_Ret {A} (m : M mem_st A) (s : pst) a m' : m (pmem s) = Ret (a, m') -> on_mem m s = Ret (a, set_pmem m' s).
Proof using. intros H. unfold on_mem, zoom. by rewrite H. Qed.

Lemma set_pmem_id (s : pst) : set_pmem (pmem s) s = s.
Proof using. by destruct s. Qed.
Lemma set_pmem_pmem m m' (s : pst) : set_pmem m (set_pmem m' s) = set_pmem m s.
Proof using. done. Qed.

Lemma load_dir_Ret pd (s : pst) d : dirs s !! pd = Some d -> load_dir pd s = Ret (d, s).
Proof using. intros H. unfold load_dir. by rewrite H. Qed.

Lemma update_same pd (s : pst) d f : dirs s !! pd = Some d -> f d = d -> update_dir pd f s = Ret (tt, s).
Proof using.
  intros H Hf. unfold update_dir. rewrite H, Hf. destruct s. unfold set_dirs. cbn in *. by rewrite insert_id.
Qed.

Lemma set_pt_same d : set_pt (pt d) d = d.
Proof using. by destruct d. Qed.

(** ** [get_pte] and [vmmap] on an address space *)
Lemma get_pte_here pd s g d T va alloc q : space pd s g d T -> T !! path va = Some q -> get_pte pd va alloc s = Ret (entry_ptr q va, s).
Proof using.
  intros [Hd Hp] Hq. unfold get_pte. rewrite (bind_Ret _ _ _ _ _ (load_dir_Ret _ _ _ Hd)).
  rewrite (bind_Ret _ _ _ _ _ (on_mem_Ret _ s _ _ (get_pte_found lo (pt d) T (pmem s) g va alloc q Hp Hq))). rewrite set_pmem_id. cbn [fst snd].
  rewrite (bind_Ret _ _ _ _ _ (update_same pd s d _ Hd (set_pt_same d))). done.
Qed.

Lemma get_pte_none pd s g d T va : space pd s g d T -> T !! path va = None -> get_pte pd va false s = Ret (0, s).
Proof using.
  intros [Hd Hp] Hq. unfold get_pte. rewrite (bind_Ret _ _ _ _ _ (load_dir_Ret _ _ _ Hd)).
  pose proof (get_pte_lookup lo (pmem s) g (pt d) T va Hp) as E. rewrite Hq in E.
  rewrite (bind_Ret _ _ _ _ _ (on_mem_Ret _ s _ _ E)). rewrite set_pmem_id. cbn [fst snd]. rewrite (bind_Ret _ _ _ _ _ (update_same pd s d _ Hd (set_pt_same d))). done.
Qed.

Lemma rd_pte_here pd s g d T va q : space pd s g d T -> T !! path va = Some q -> rd_pte (entry_ptr q va) s = Ret (pte_of (pmem s) T va, s).
Proof using.
  intros [Hd Hp] Hq. unfold rd_pte. rewrite (on_mem_Ret _ s _ _ (rd_entry lo (pt d) T (pmem s) g va q Hp Hq)). by rewrite set_pmem_id.
Qed.

Lemma entry_ptr_pos s g d T pd va q : space pd s g d T -> T !! path va = Some q -> entry_ptr q va =? 0 = false.
Proof using.
  intros [_ Hp] Hq. destruct (table_page _ _ _ _ _ _ _ Hp Hq) as (P1 & P2 & _). destruct (part_bounds va) as (_ & _ & _ & HB). apply Z.eqb_neq. unfold entry_ptr, pte_ptr, KSPACE_MASK in *. lia.
Qed.

Lemma vmmap_here pd s g d T va ka flags n q : space pd s g d T -> T !! path va = Some q -> user_page T g ka n -> 0 <= flags < 4096 ->
  exists m, vmmap pd va ka flags s = Ret (tt, set_pmem m s) /\ entered lo (pt d) T (pmem s) m (count_page ka (n + 1) g) va (K2P ka + flags) /\
    table_of (K2P ka + flags) = ka /\ user_page T (count_page ka (n + 1) g) ka (n + 1) /\ zero_page m = zero_page (pmem s).
Proof using.
  intros [Hd Hp] Hq Hka Hf. destruct (vmmap_found lo (pt d) T (pmem s) g va q ka flags n Hp Hq Hka Hf) as (m & E & He & Ht & Hu & Hz).
  exists m. split; [|done]. unfold vmmap. rewrite (bind_Ret _ _ _ _ _ (load_dir_Ret _ _ _ Hd)), (bind_Ret _ _ _ _ _ (on_mem_Ret _ s _ _ E)).
  apply (update_same pd _ d); [done|apply set_pt_same].
Qed.

(** ** [alloc_page_for_user] while there are pages enough *)
Abbreviation alloc_page := (alloc_page_for_user kend children zombie root_proc depth).

Lemma alloc_user pd s g d T p l : space pd s g d T -> gfree g = p :: l -> REVERSED_PAGES < Z.of_nat (length (gfree g)) ->
  exists m, alloc_page s = Ret (p, set_pmem m s) /\ space pd (set_pmem m s) (hold_page p l g) d T /\ user_page T (hold_page p l g) p 0 /\
    words m = words (pmem s) /\ zero_page m = zero_page (pmem s).
Proof using.
  intros [Hd Hp] Hf Hl. pose proof (p_mem _ _ _ _ _ Hp) as HM. pose proof (free_bound _ _ g HM) as Hb. change NPAGE with 258048 in Hb.
  destruct (take_page lo (pt d) T (pmem s) g p l Hp Hf) as (m & E & Hp' & Hu & Hw). exists m. split; [|split; [by split|split; [done|split; [done|]]]].
  - unfold alloc_page_for_user. rewrite (bind_Ret (gets dirs) _ s _ s eq_refl). rewrite while_S. unfold alloc_turn at 1.
    assert (Ec : on_mem left_page_cnt s = Ret (Z.of_nat (length (gfree g)), s)).
    { rewrite (on_mem_Ret left_page_cnt s (u64 (alloc_page_cnt (pmem s))) (pmem s) eq_refl), set_pmem_id. rewrite (i_cnt _ _ _ HM). do 2 f_equal. unfold u64. apply wrapu_small; lia. }
    rewrite bind_assoc, (bind_Ret _ _ _ _ _ Ec), (proj2 (Z.leb_gt _ _)) by done. rewrite bind_assoc, (bind_Ret _ _ _ _ _ (on_mem_Ret _ s _ _ E)). done.
  - destruct (kalloc_page_spec lo (pmem s) g p l HM Hf ltac:(lia)) as (m' & E' & _ & Hz & _). rewrite E in E'. by injection E' as <-.
Qed.

Lemma get_pte_make pd s g d T va : space pd s g d T -> (4 <= length (gfree g))%nat ->
  exists m g' pt' T' q, let s' := set_dirs (insert pd (set_pt pt' d)) (set_pmem m s) in
    get_pte pd va true s = Ret (entry_ptr q va, s') /\ space pd s' g' (set_pt pt' d) T' /\ T' !! path va = Some q /\ grown 4 (pmem s) g T m g' T'.
Proof using.
  intros [Hd Hp] Hl. destruct (get_pte_alloc lo (pmem s) g (pt d) T va Hp Hl) as (m & g' & pt' & T' & q & E & Hp' & Hq & G). exists m, g', pt', T', q. cbv zeta.
  split; [|split; [split; [apply lookup_insert_eq|done]|done]]. unfold get_pte. rewrite (bind_Ret _ _ _ _ _ (load_dir_Ret _ _ _ Hd)), (bind_Ret _ _ _ _ _ (on_mem_Ret _ s _ _ E)). cbn [fst snd].
  rewrite (bind_Ret (update_dir pd (set_pt pt')) _ (set_pmem m s) tt (set_dirs (insert pd (set_pt pt' d)) (set_pmem m s))); [done|]. unfold update_dir. cbn [dirs set_pmem]. by rewrite Hd.
Qed.

Lemma user_grown k s g T s' g' T' p n : grown k s g T s' g' T' -> user_page T g p n -> user_page T' g' p n /\ page_words s' p = page_words s p.
Proof using.
  intros G [Hp Ht]. destruct (gr_pages _ _ _ _ _ _ _ G) as [_ Hk]. split; [split|].
  - by apply (lookup_weaken _ _ _ _ Hp), (gr_held _ _ _ _ _ _ _ G).
  - intros a Ha. destruct (T !! a) as [p'|] eqn:E.
    + pose proof (lookup_weaken _ _ _ _ E (gr_tables _ _ _ _ _ _ _ G)) as E2. rewrite Ha in E2. simplify_eq. by apply (Ht a).
    + pose proof (gr_new _ _ _ _ _ _ _ G a p Ha E). congruence.
  - apply page_words_ext. intros w Hw. by apply (Hk p n w).
Qed.

(** What else a fault of the process leaves alone. *)
Definition elsewhere (s s' : pst) : Prop :=
  (forall pd, pd <> this -> dirs s' !! pd = dirs s !! pd) /\ swapmap s' = swapmap s /\ pfs s' = pfs s.

(** A fault at [addr] mapped the new page [ka]; the process no longer uses
    [old] there. *)
Record faulted (s s' : pst) (g g' : ghost) (d d' : pgdir) (T T' : tables) (addr ka : Z) (old : option Z) : Prop := {
  fa_space : space this s' g' d' T';
  fa_dir : d' = set_pt (pt d') d;
  fa_rest : elsewhere s s';
  fa_free : ka ∈ gfree g;
  fa_own : user_page T' g' ka 1;
  fa_pte : forall va, same_page va addr -> pte_of (pmem s') T' va = K2P ka + PTE_USER_DATA;
  fa_other : forall va, ~ same_page va addr -> pte_of (pmem s') T' va = pte_of (pmem s) T va;
  fa_pages : forall p n, user_page T g p n -> Some p <> old -> user_page T' g' p n /\ page_words (pmem s') p = page_words (pmem s) p
}.

Abbreviation pgfault := (pgfault kend this children zombie root_proc depth).

(** A page that is not there. *)
Lemma fault_new s g d T addr v :
  space this s g d T -> head (filter (fun v => hits addr v = true) (section_head d)) = Some v -> has (sec v) ST_FILE = false -> has (sec v) ST_SWAP = false ->
  pte_of (pmem s) T addr = 0 -> REVERSED_PAGES + 4 < Z.of_nat (length (gfree g)) ->
  exists s' g' d' T' ka, pgfault addr s = Ret (0, s') /\ faulted s s' g g' d d' T T' addr ka None.
Proof using.
  intros H Hv Hf Hs He Hl. pose proof (sp_dir _ _ _ _ _ H) as Hd. unfold REVERSED_PAGES in Hl. destruct (get_pte_make this s g d T addr H ltac:(lia)) as (m1 & g1 & pt1 & T1 & q & E1 & H1 & Hq & G). cbv zeta in E1, H1.
  set (s1 := set_dirs (insert this (set_pt pt1 d)) (set_pmem m1 s)) in *. pose proof (gr_free _ _ _ _ _ _ _ G) as Hl1.
  assert (He1 : pte_of (pmem s1) T1 addr = 0) by (change (pmem s1) with m1; by rewrite (pte_of_grown _ _ _ _ _ _ _ addr G)).
  destruct (gfree g1) as [|ka l] eqn:Ef; [cbn in Hl1; lia|]. destruct (alloc_user this s1 g1 _ T1 ka l H1 Ef) as (m2 & E2 & H2 & Hu2 & Hw2 & Hz2); [rewrite Ef; unfold REVERSED_PAGES; lia|].
  destruct (vmmap_here this _ _ _ T1 addr ka PTE_USER_DATA 0 q H2 Hq Hu2) as (m3 & E3 & [N1 N2 N3 N4] & Ht & Hu3 & Hz3); [vm_compute; split; congruence|].
  eexists _, _, (set_pt pt1 d), T1, ka. split.
  - unfold Paging.pgfault. rewrite (bind_Ret _ _ _ _ _ (load_dir_Ret _ _ _ Hd)), Hv. rewrite (bind_Ret _ _ _ _ _ E1), (bind_Ret _ _ _ _ _ (rd_pte_here this s1 g1 _ T1 addr q H1 Hq)), He1.
    change (Z.land 0 PTE_VALID =? 0) with true. cbv iota. rewrite Hf, Hs. rewrite !bind_assoc. rewrite (bind_Ret (when false _) _ s1 tt s1 eq_refl), bind_assoc, (bind_Ret _ _ _ _ _ (rd_pte_here this s1 g1 _ T1 addr q H1 Hq)), He1.
    change (0 =? 0) with true. cbn [when]. rewrite bind_assoc, (bind_Ret _ _ _ _ _ E2), (bind_Ret _ _ _ _ _ E3). reflexivity.
  - cbn [set_pt pt]. split; [split; [apply lookup_insert_eq|exact N1]|done| | |exact Hu3|exact N2| |].
    + split; [intros pd Hpd; cbn; by apply lookup_insert_ne|done].
    + apply (gr_sub _ _ _ _ _ _ _ G). rewrite Ef. by left.
    + intros va Hva. cbn [pmem set_pmem]. rewrite (N3 va Hva). cbn [pmem set_pmem]. rewrite <- (pte_of_grown _ _ _ _ _ _ _ va G). unfold pte_of. by rewrite Hw2.
    + intros p n Hp _. destruct (user_grown _ _ _ _ _ _ _ p n G Hp) as [Hp1 Hpw].
      assert (Hne : p <> ka) by (intros ->; destruct Hp1 as [Hp1 _]; destruct (i_sep _ _ _ (p_mem _ _ _ _ _ (sp_pt _ _ _ _ _ H1)) ka ltac:(rewrite Ef; by left)); congruence).
      assert (Hp2 : user_page T1 (hold_page ka l g1) p n) by (destruct Hp1 as [? ?]; split; [cbn; by rewrite lookup_insert_ne|done]).
      assert (Hp3 : user_page T1 (count_page ka (0 + 1) (hold_page ka l g1)) p n) by (destruct Hp2 as [? ?]; split; [cbn; by rewrite lookup_insert_ne|done]).
      split; [done|]. cbn [pmem set_pmem]. rewrite (N4 p n Hp3). cbn [pmem set_pmem]. rewrite <- Hpw. unfold page_words. by rewrite Hw2.
Qed.

Lemma splice_all (bs old : bytes) : length bs = length old -> splice 0 bs old = bs.
Proof using. intros H. unfold splice. cbn [take app]. rewrite drop_ge by lia. apply app_nil_r. Qed.

Lemma page_bytes_length m p : length (unwords 8 (page_words m p)) = 4096%nat.
Proof using. by rewrite unwords_length, page_words_length. Qed.

Lemma user_other T g g' p n ka : user_page T g p n -> p <> ka -> (forall q, q <> ka -> gheld g' !! q = gheld g !! q) -> user_page T g' p n.
Proof using. intros [Hp Ht] Hne Hg. split; [by rewrite Hg|done]. Qed.

(** A page that is mapped read-only: the process gets a copy. *)
Lemma fault_copy s g d T addr v n :
  let e := pte_of (pmem s) T addr in let old := table_of e in
  space this s g d T -> head (filter (fun v => hits addr v = true) (section_head d)) = Some v ->
  Z.land e PTE_VALID <> 0 -> Z.land e PTE_RO <> 0 -> user_page T g old n -> n <= 127 -> old <> zero_page (pmem s) -> page_wide (pmem s) old ->
  REVERSED_PAGES < Z.of_nat (length (gfree g)) ->
  exists s' g' ka, pgfault addr s = Ret (0, s') /\ faulted s s' g g' d d T T addr ka (Some old) /\
    page_words (pmem s') ka = page_words (pmem s) old /\
    (if n <=? 1 then old ∈ gfree g' else user_page T g' old (n - 1) /\ page_words (pmem s') old = page_words (pmem s) old).
Proof using.
  intros e old H Hv Hvalid Hro Hold Hn Hz Hwide Hl. pose proof (sp_dir _ _ _ _ _ H) as Hd. pose proof (sp_pt _ _ _ _ _ H) as HP.
  destruct (T !! path addr) as [q|] eqn:Hq; [|destruct Hvalid; unfold e, pte_of; by rewrite Hq].
  destruct (gfree g) as [|ka l] eqn:Ef; [unfold REVERSED_PAGES in Hl; cbn in Hl; lia|].
  destruct (alloc_user this s g d T ka l H Ef) as (m1 & E1 & H1 & Hu1 & Hw1 & Hz1); [by rewrite Ef|]. set (s1 := set_pmem m1 s) in *. set (g1 := hold_page ka l g) in *.
  assert (Hka : forall p k, gheld g !! p = Some k -> p <> ka) by (intros p k Hp ->; destruct (i_sep _ _ _ (p_mem _ _ _ _ _ HP) ka ltac:(rewrite Ef; by left)); congruence).
  assert (Hg1 : forall p, p <> ka -> gheld g1 !! p = gheld g !! p) by (intros p Hp; unfold g1; cbn; by rewrite lookup_insert_ne).
  assert (Hpw1 : forall p, page_words m1 p = page_words (pmem s) p) by (intros p; unfold page_words; by rewrite Hw1).
  assert (Hp1 : forall va, pte_of m1 T va = pte_of (pmem s) T va) by (intros va; unfold pte_of; by rewrite Hw1).
  pose proof (user_other T g g1 old n ka Hold (Hka _ _ (proj1 Hold)) Hg1) as Hold1. pose proof (Hka _ _ (proj1 Hold)) as Hne.
  pose proof (user_page_ok _ _ _ _ _ _ _ (sp_pt _ _ _ _ _ H1) Hold1) as Hoko. pose proof (user_page_ok _ _ _ _ _ _ _ (sp_pt _ _ _ _ _ H1) Hu1) as Hkao.
  (* the copy *)
  set (page := unwords 8 (page_words m1 old)). assert (Hpl : length page = 4096%nat) by apply page_bytes_length.
  pose proof (store_page_Ret lo ka 0 page m1 Hkao ltac:(lia)) as Es. rewrite splice_all in Es by by rewrite Hpl, page_bytes_length. unfold page in Es at 2.
  rewrite words_of_page in Es; [|apply page_words_length|rewrite Hpw1; exact Hwide].
  destruct (store_stored _ _ _ m1 g1 ka 0 (page_words m1 old) (sp_pt _ _ _ _ _ H1) Hu1 (page_words_length _ _)) as [S1 S2 S3 S4]. set (m2 := set_words _ m1) in *.
  (* the old page is given back *)
  destruct (give_page lo (pt d) T kend m2 g1 old n eq_refl S1 Hold1) as (m3 & E3 & H3 & Hw3 & Hw3' & Hz3); [change (zero_page m2) with (zero_page m1); congruence|done|].
  set (g3 := dropped old n g1) in *. assert (Hu3 : user_page T g3 ka 0) by (split; [unfold g3; rewrite dropped_other by done; apply Hu1|apply Hu1]).
  assert (Hs3 : space this (set_pmem m3 s) g3 d T) by (split; [exact Hd|exact H3]).
  destruct (vmmap_here this (set_pmem m3 s) g3 d T addr ka PTE_USER_DATA 0 q Hs3 Hq Hu3) as (m4 & E4 & [N1 N2 N3 N4] & Ht & Hu4 & Hz4); [vm_compute; split; congruence|]. cbn [pmem set_pmem] in *.
  destruct (give_kept lo (pt d) T m2 m3 g1 old n S1 Hold1 Hw3) as [Hpt3 Hpw3].
  exists (set_pmem m4 s), (count_page ka (0 + 1) g3), ka. split; [|split; [|split]].
  - unfold Paging.pgfault. rewrite (bind_Ret _ _ _ _ _ (load_dir_Ret _ _ _ Hd)), Hv. rewrite (bind_Ret _ _ _ _ _ (get_pte_here this s g d T addr true q H Hq)), (bind_Ret _ _ _ _ _ (rd_pte_here this s g d T addr q H Hq)).
    fold e. rewrite (proj2 (Z.eqb_neq _ 0) Hvalid), (proj2 (Z.eqb_neq _ 0) Hro). cbn [negb]. rewrite bind_assoc, (bind_Ret _ _ _ _ _ E1), bind_assoc, (bind_Ret _ _ _ _ _ (rd_pte_here this s1 g1 d T addr q H1 Hq)).
    change (pmem s1) with m1. rewrite Hp1. fold e. change (P2K (PTE_ADDRESS e)) with old. rewrite bind_assoc, (bind_Ret _ _ _ _ _ (on_mem_Ret _ s1 _ m1 (load_page_Ret lo old m1 Hoko))).
    fold page. rewrite bind_assoc, (bind_Ret _ _ _ _ _ (on_mem_Ret _ (set_pmem m1 s1) _ _ Es)). fold m2. rewrite bind_assoc, (bind_Ret _ _ _ _ _ (on_mem_Ret _ (set_pmem m2 (set_pmem m1 s1)) _ _ E3)).
    change (set_pmem m3 (set_pmem m2 (set_pmem m1 s1))) with (set_pmem m3 s). rewrite (bind_Ret _ _ _ _ _ E4). reflexivity.
  - split; [split; [exact Hd|exact N1]|symmetry; apply set_pt_same|split; [intros pd _; reflexivity|split; reflexivity]|rewrite Ef; apply list_elem_of_here|exact Hu4|exact N2| |].
    + intros va Hva. cbn [pmem set_pmem]. by rewrite (N3 va Hva), Hpt3, S3, Hp1.
    + intros p k Hp Hpo. pose proof (Hka _ _ (proj1 Hp)) as Hpk. pose proof (user_other T g g1 p k ka Hp Hpk Hg1) as Hp1'. assert (Hpo' : p <> old) by congruence.
      assert (Hp3 : user_page T g3 p k) by (destruct Hp1' as [? ?]; split; [unfold g3; by rewrite dropped_other|done]).
      assert (Hp4 : user_page T (count_page ka (0 + 1) g3) p k) by (destruct Hp3 as [? ?]; split; [cbn; by rewrite lookup_insert_ne|done]).
      split; [done|]. cbn [pmem set_pmem]. by rewrite (N4 p k Hp4), (Hpw3 p k Hp1' Hpo'), (S4 p k Hp1' Hpk), Hpw1.
  - cbn [pmem set_pmem]. rewrite (N4 ka 1 Hu4), (Hpw3 ka 0 Hu1) by congruence. by rewrite S2, Hpw1.
  - destruct (Z.leb_spec n 1) as [Hn1|Hn1].
    + cbn. unfold g3, dropped. rewrite (proj2 (Z.leb_le _ _)) by done. by left.
    + assert (Hq3 : user_page T (count_page ka (0 + 1) g3) old (n - 1)).
      { split; [cbn; rewrite lookup_insert_ne by done; unfold g3, dropped; rewrite (proj2 (Z.leb_gt _ _)) by done; apply lookup_insert_eq|apply Hold]. }
      split; [done|]. cbn [pmem set_pmem]. rewrite (N4 old (n - 1) Hq3). cbn [pmem set_pmem]. rewrite <- Hpw1, <- (S4 old n Hold1 Hne). unfold page_words. by rewrite Hw3'.
Qed.

(** The section a fault at [addr] belongs to. *)
Definition fault_section (d : pgdir) (addr : Z) : option vma := head (filter (fun v => hits addr v = true) (section_head d)).

(** C5: [pgfault] gives a process its pages. A fault outside of its sections
    is refused and changes nothing. A fault on an address of an anonymous
    section that has no page maps a page that was free; a fault on a page
    mapped read-only maps a page that was free with the content of the old
    one, which loses one of its references, and keeps its content as long as
    it has others: processes that share a page do not see each other's
    writes. In both cases the new page has this one reference, the entries of
    all other pages, the content of all other pages in use, the other address
    spaces, the swap slots and the file system are what they were. A fault on
    a page mapped for writing is a panic. *)
Theorem pgfault_correct s g d T addr :
  space this s g d T -> REVERSED_PAGES + 4 < Z.of_nat (length (gfree g)) ->
  let e := pte_of (pmem s) T addr in
  match fault_section d addr with
  | None => pgfault addr s = Ret (-1, s)
  | Some v =>
      (e = 0 -> has (sec v) ST_FILE = false -> has (sec v) ST_SWAP = false ->
        exists s' g' d' T' ka, pgfault addr s = Ret (0, s') /\ faulted s s' g g' d d' T T' addr ka None) /\
      (Z.land e PTE_VALID <> 0 -> Z.land e PTE_RO = 0 -> pgfault addr s = Stop Panic) /\
      (forall n, Z.land e PTE_VALID <> 0 -> Z.land e PTE_RO <> 0 ->
        user_page T g (table_of e) n -> n <= 127 -> table_of e <> zero_page (pmem s) -> page_wide (pmem s) (table_of e) ->
        exists s' g' ka, pgfault addr s = Ret (0, s') /\ faulted s s' g g' d d T T addr ka (Some (table_of e)) /\
          page_words (pmem s') ka = page_words (pmem s) (table_of e) /\
          (if n <=? 1 then table_of e ∈ gfree g'
           else user_page T g' (table_of e) (n - 1) /\ page_words (pmem s') (table_of e) = page_words (pmem s) (table_of e)))
  end.
Proof using.
  intros H Hl e. pose proof (sp_dir _ _ _ _ _ H) as Hd. destruct (fault_section d addr) as [v|] eqn:Hv.
  - split; [|split].
    + intros He Hf Hs. by eapply fault_new.
    + intros Hva Hro. assert (Hq : is_Some (T !! path addr)) by (destruct (T !! path addr) eqn:Eq; [eauto|destruct Hva; unfold e, pte_of; by rewrite Eq]). destruct Hq as [q Hq].
      unfold Paging.pgfault. rewrite (bind_Ret _ _ _ _ _ (load_dir_Ret _ _ _ Hd)). unfold fault_section in Hv. rewrite Hv.
      rewrite (bind_Ret _ _ _ _ _ (get_pte_here this s g d T addr true q H Hq)), (bind_Ret _ _ _ _ _ (rd_pte_here this s g d T addr q H Hq)). fold e.
      rewrite (proj2 (Z.eqb_neq _ 0) Hva), Hro. reflexivity.
    + intros n. intros. eapply (fault_copy s g d T addr v n); [done..|]. lia.
  - unfold Paging.pgfault. rewrite (bind_Ret _ _ _ _ _ (load_dir_Ret _ _ _ Hd)). unfold fault_section in Hv. by rewrite Hv.
Qed.
End props.

(** ** An example: a heap page at 0x400000 *)
Abbreviation pg_lo := (PAGE_BASE pg_kend + PAGE_SIZE).

Lemma pg_wide : page_wide pg_client.1.1 pg_page.
Proof.
  destruct pg_facts as (_ & _ & _ & H). unfold page_wide. apply Forall_forall. intros w Hw. rewrite forallb_forall in H. specialize (H w). rewrite <- list_elem_of_In in H. specialize (H Hw).
  apply andb_true_iff in H as [?%Z.leb_le ?%Z.ltb_lt]. unfold word_ok. change (256 ^ Z.of_nat 8) with (2 ^ 64). lia.
Qed.

Lemma pg_start : exists m g, pt_inv pg_lo m g 0 ∅ /\ user_page ∅ g pg_page 0 /\ page_wide m pg_page /\ pg_page <> zero_page m /\ Z.of_nat (length (gfree g)) = 1277.
Proof.
  destruct (mem_reach_inv pg_kend pg_client.1.1 pg_client.1.2 pg_client.2) as (g & H & _ & Hh & Hz).
  { split; vm_compute; discriminate. } { exact (after_reach pg_kend [OPage] pg_client_run). }
  destruct pg_facts as (F1 & F2 & F3 & _). exists pg_client.1.1, g. split; [apply no_tables; [exact H|rewrite Hh; exact Hz]|]. split; [split; [rewrite Hh; exact F3|intros a; by rewrite lookup_empty]|].
  split; [exact pg_wide|]. split; [intros E; apply F1; symmetry; exact E|]. rewrite <- (i_cnt _ _ _ H). exact F2.
Qed.

(** The page mapped with the flags [fl]. *)
Lemma pg_mapped fl : 0 <= fl < 4096 -> exists m g pt T, pt_inv pg_lo m g pt T /\ pte_of m T pg_addr = K2P pg_page + fl /\ table_of (K2P pg_page + fl) = pg_page /\
  user_page T g pg_page 1 /\ page_wide m pg_page /\ pg_page <> zero_page m /\ 1200 < Z.of_nat (length (gfree g)) /\ forall a, ~ same_page a pg_addr -> pte_of m T a = 0.
Proof.
  intros Hfl. destruct pg_start as (m0 & g0 & H & Hu & Hw0 & Hz0 & Hc).
  destruct (get_pte_alloc pg_lo m0 g0 0 ∅ pg_addr H ltac:(lia)) as (m1 & g1 & pt1 & T1 & q & _ & H1 & Hq & G).
  destruct (user_grown _ _ _ _ _ _ _ pg_page 0 G Hu) as [Hu1 Hw1]. pose proof (gr_free _ _ _ _ _ _ _ G) as Hfr. destruct (gr_pages _ _ _ _ _ _ _ G) as [Hz1 _].
  destruct (vmmap_found pg_lo pt1 T1 m1 g1 pg_addr q pg_page fl 0 H1 Hq Hu1 Hfl) as (m2 & _ & [N1 N2 N3 N4] & Ht & Hu2 & Hz2).
  exists m2, (count_page pg_page (0 + 1) g1), pt1, T1. split; [done|]. split; [by apply N2|]. split; [done|]. split; [done|]. split; [|split; [|split]].
  - unfold page_wide. rewrite (N4 pg_page 1 Hu2), Hw1. exact Hw0.
  - by rewrite Hz2, Hz1.
  - change (1200 < Z.of_nat (length (gfree g1))). lia.
  - intros a Ha. rewrite (N3 a Ha), (pte_of_grown _ _ _ _ _ _ _ a G). unfold pte_of. by rewrite lookup_empty.
Qed.

Definition pg_heap : vma := mkVma 77 (mkSection ST_HEAP pg_addr (pg_addr + 0x3000) 0 0 0) 1.
Definition pg_state (m : mem_st) (pt : Z) : pst unit := mkPst m {[1 := mkPgdir pt false [pg_heap] false]} [0] (mkFst (mkIst tt ∅ [] ex_cons 0) [] false ∅) 0.
#[local] Instance no_cache : BlockCache unit := {|
  bc_acquire _ := stop Fault; bc_release _ := stop Fault; bc_sync _ _ := stop Fault; bc_alloc _ := stop Fault; bc_free _ _ := stop Fault;
  bc_begin_op _ := stop Fault; bc_end_op _ := stop Fault; bc_data _ := stop Fault; bc_set_data _ _ := stop Fault |}.

(** A write to the page, shared read-only, and a first touch of the next. *)
Lemma pgfault_correct_witness :
  (exists s s' ka, pgfault pg_kend 1 (fun _ => []) (fun _ => false) 0 1 (pg_addr + 5) s = Ret (0, s') /\ ka <> pg_page /\ page_words (pmem s') ka = page_words (pmem s) pg_page) /\
  (exists (s s' : pst unit), pgfault pg_kend 1 (fun _ => []) (fun _ => false) 0 1 (pg_addr + 0x1234) s = Ret (0, s')).
Proof.
  split.
  - destruct (pg_mapped (Z.lor PTE_USER_DATA PTE_RO)) as (m & g & pt & T & HP & He & Ht & Hu & Hw & Hz & Hl & _); [vm_compute; split; congruence|].
    assert (Hsp : space pg_kend 1 (pg_state m pt) g (mkPgdir pt false [pg_heap] false) T) by (split; [apply lookup_singleton_eq|exact HP]).
    destruct (pgfault_correct pg_kend 1 (fun _ => []) (fun _ => false) 0 1 (pg_state m pt) g _ T (pg_addr + 5) Hsp) as (_ & _ & Hcopy); [unfold REVERSED_PAGES; lia|].
    assert (Epte : pte_of (pmem (pg_state m pt)) T (pg_addr + 5) = K2P pg_page + Z.lor PTE_USER_DATA PTE_RO) by exact He. rewrite Epte, Ht in Hcopy.
    destruct (Hcopy 1) as (s' & g' & ka & E & Hfa & Hpw & _); [vm_compute; congruence|vm_compute; congruence|exact Hu|lia|exact Hz|exact Hw|].
    exists (pg_state m pt), s', ka. split; [exact E|]. split; [|exact Hpw]. intros ->. pose proof (fa_free _ _ _ _ _ _ _ _ _ _ _ _ _ Hfa) as Hin.
    destruct (i_sep _ _ _ (p_mem _ _ _ _ _ HP) pg_page Hin). destruct Hu. congruence.
  - destruct (pg_mapped PTE_USER_DATA) as (m & g & pt & T & HP & _ & _ & _ & _ & _ & Hl & Hnone); [vm_compute; split; congruence|].
    assert (Hsp : space pg_kend 1 (pg_state m pt) g (mkPgdir pt false [pg_heap] false) T) by (split; [apply lookup_singleton_eq|exact HP]).
    destruct (pgfault_correct pg_kend 1 (fun _ => []) (fun _ => false) 0 1 (pg_state m pt) g _ T (pg_addr + 0x1234) Hsp) as (Hnew & _); [unfold REVERSED_PAGES; lia|].
    destruct Hnew as (s' & _ & _ & _ & _ & E & _); [apply Hnone; vm_compute; discriminate|reflexivity|reflexivity|]. exists (pg_state m pt), s'. exact E.
Defined.
