(* ===== verification/Swap.v ===== *)
(** * Pages on the swap area of the disk (kernel/mem.c, over fs/cache.c)

    [SwapCache] states what swapping needs of the block cache: outside of an
    atomic operation, a block can be read, and written through with
    [sync(NULL, block)]. fs/cache.c keeps that promise ([bcache_swap]). On any
    cache that does, [write_page_to_disk] stores a page in a free slot and
    [read_page_from_disk] brings it back and frees the slot. *)
From stdpp Require Import base gmap list.
From Stdlib Require Import ZArith Lia.
From S2P Require Import Prelude Bytes Bitmap BCache BCacheInv BCacheLog BCacheCrash BCacheOps BlockStore BCacheStore CString Console Inode Pipe File Mmu LockFree Mem PT Sections Paging PagingMem.

Class SwapCache (St : Type) {BC : BlockCache St} := {
  sc_idle : St -> gmap Z bytes -> Prop;
  sc_block s v n d : sc_idle s v -> v !! n = Some d -> block_ok d;
  sc_read s v n d : sc_idle s v -> v !! n = Some d ->
    exists p s1 s2, bc_acquire n s = Ret (p, s1) /\ bc_data p s1 = Ret (d, s1) /\ bc_release p s1 = Ret (tt, s2) /\ sc_idle s2 v;
  sc_write s v n d0 d : sc_idle s v -> v !! n = Some d0 -> block_ok d ->
    exists p s1 s2 s3 s4, bc_acquire n s = Ret (p, s1) /\ bc_set_data p d s1 = Ret (tt, s2) /\ bc_sync None p s2 = Ret (tt, s3) /\
      bc_release p s3 = Ret (tt, s4) /\ sc_idle s4 (<[n := d]> v)
}.

(** ** fs/cache.c *)
Section cache.
Context (sblock : SuperBlock) {KA : Kalloc}.

Lemma on_disk_inv ops s n d :
  wal_inv sblock ops s -> is_Some (disk s !! n) -> ~ in_area sblock n -> block_ok d -> acq s n = true -> wal_inv sblock ops (on_disk n d s).
Proof.
  intros H Hd Hn Hb Ha. assert (Hls : n <> sb_log_start sblock) by (intros ->; by eapply Hn, wal_ls).
  assert (Hlk : forall m, is_Some (<[n := d]> (disk s) !! m) <-> is_Some (disk s !! m)).
  { intros m. rewrite lookup_insert_is_Some'. split; [intros [<-|?]; done|by right]. }
  destruct (dev_write_spec s n d) as (_ & Hc & Hcc); [apply (li_cache _ _ (wi_log _ _ _ H))|done|done| |].
  { intros p b C. right. left. unfold acq in Ha. by rewrite C in Ha. }
  pose proof (wi_log _ _ _ H) as HL. pose proof (li_layout _ _ HL) as Hlay. split; try apply H.
  - split; [done| |apply HL|apply HL|].
    + split; [apply Hlay| | | |apply Hlay|].
      * intros i Hi. apply Hlk, Hlay, Hi.
      * apply Hlk, Hlay.
      * intros m Hm. destruct (ll_home _ _ Hlay m Hm). split; [by apply Hlk|done].
      * rewrite Hcc. apply Hlay.
    + cbn [on_disk disk]. unfold disk_header. rewrite lookup_insert_ne by done. apply HL.
  - intros i Hi. apply Hlk, (wi_area _ _ _ H), Hi.
  - intros m Hm. apply (wi_words _ _ _ H). by apply Hlk.
Qed.

Lemma idle_write s v n d0 d :
  cache_idle sblock s v -> v !! n = Some d0 -> block_ok d ->
  exists p s1 s2 s3 s4, cache_acquire n s = Ret (p, s1) /\ update_block p (set_data d) s1 = Ret (tt, s2) /\ cache_sync None p s2 = Ret (tt, s3) /\
    cache_release p s3 = Ret (tt, s4) /\ cache_idle sblock s4 (<[n := d]> v).
Proof.
  intros [Hw Ha Hl Hv] Hd Hok. pose proof (Hv n) as Hn. rewrite Hd in Hn. case_decide as Harea; [done|].
  assert (Hdk : is_Some (disk s !! n)) by (apply view_is_Some; [apply (wi_log _ _ _ Hw)|eauto]).
  destruct (wal_acquire sblock ∅ s n Hw (Ha n) Hdk Harea) as (p & s1 & b & E & Hw1 & (D1 & _ & Hd1 & _ & _) & C & A & V & O).
  destruct (wal_write sblock ∅ s1 n p b d Hw1 C A Hok) as (s2 & E2 & Hw2 & (D2 & _ & Hd2 & _ & _) & C2 & O2).
  pose proof C2 as [Hb2 Hbn2]%cached_Some; [|apply (wi_log _ _ _ Hw2)].
  assert (A2 : acq s2 n = true) by (unfold acq; by rewrite C2).
  destruct (dev_write_spec s2 n d) as (E3 & Hc3 & Hcc); [apply (li_cache _ _ (wi_log _ _ _ Hw2))|by rewrite D2, D1|done| |].
  { intros q c Cq. rewrite C2 in Cq. injection Cq as <- <-. right. by left. }
  pose proof (on_disk_inv ∅ s2 n d Hw2 ltac:(by rewrite D2, D1) Harea Hok A2) as Hw3.
  assert (C3 : cached (on_disk n d s2) n = Some (p, set_data d b)) by (by rewrite Hcc).
  destruct (wal_release sblock ∅ _ n p _ Hw3 C3 A) as (s4 & E4 & Hw4 & (D4 & _ & Hd4 & _ & _) & C4 & O4); [right; cbn; apply lookup_insert_eq|].
  exists p, s1, s2, (on_disk n d s2), s4. split; [done|]. split; [done|]. split.
  { unfold cache_sync, device_write. rewrite (bind_Ret _ _ _ _ _ (load_block_Ret _ _ _ Hb2)). cbn [data set_data]. rewrite Hbn2. exact E3. }
  split; [done|]. split; [done| |rewrite Hd4; cbn; by rewrite Hd2, Hd1|].
  - intros m. destruct (decide (m = n)) as [->|Hm]; [unfold acq; by rewrite C4|]. unfold acq. rewrite O4, Hcc, O2 by done. destruct (O m Hm) as (_ & Hacq & _). unfold acq in Hacq. rewrite Hacq. apply Ha.
  - intros m. destruct (decide (m = n)) as [->|Hm].
    + rewrite lookup_insert_eq, decide_False by done. unfold view. rewrite C4. done.
    + rewrite lookup_insert_ne, (Hv m) by done. case_decide; [done|]. destruct (O m Hm) as (<- & _). unfold view. rewrite O4, Hcc, O2 by done. rewrite D4. cbn [on_disk disk].
      rewrite lookup_insert_ne by done. by rewrite D2.
Qed.

Lemma idle_block s v n d : cache_idle sblock s v -> v !! n = Some d -> block_ok d.
Proof.
  intros [Hw _ _ Hv] Hd. rewrite (Hv n) in Hd. case_decide; [done|]. eapply view_ok; [apply (wi_log _ _ _ Hw)|done].
Qed.

#[export] Instance bcache_swap : @SwapCache bcst (bcache sblock).
Proof.
  refine (@Build_SwapCache bcst (bcache sblock) (cache_idle sblock) idle_block _ _).
  - exact (idle_read sblock).
  - exact idle_write.
Defined.
End cache.

(** ** Pages in slots *)
Section swap.
Context {St : Type} {BC : BlockCache St} {SC : SwapCache St}.
Abbreviation pst := (pst St).

Definition bst (s : pst) : St := cache (inos (pfs s)).
Definition set_bst (c : St) (s : pst) : pst := set_pfs (set_inos (set_cache c (inos (pfs s))) (pfs s)) s.

Lemma on_bc_Ret {A} (m : M St A) (s : pst) a c : m (bst s) = Ret (a, c) -> on_bc m s = Ret (a, set_bst c s).
Proof using. intros H. unfold on_bc, on_fs, on_bcache, on_inodes, on_cache, zoom. unfold bst in H. by rewrite H. Qed.

Lemma bst_set c s : bst (set_bst c s) = c.
Proof using. done. Qed.
Lemma set_bst_set c c' s : set_bst c (set_bst c' s) = set_bst c s.
Proof using. done. Qed.

(** [s'] is [s] but for the blocks, which are now [v]. *)
Definition swapped (v : gmap Z bytes) (s s' : pst) : Prop := exists c, s' = set_bst c s /\ sc_idle c v.

Lemma swapped_trans v s s' c : (exists c0, s' = set_bst c0 s) -> sc_idle c v -> swapped v s (set_bst c s').
Proof using. intros [c0 ->] H. by exists c. Qed.

Lemma write_block n (s : pst) v d0 d : sc_idle (bst s) v -> v !! n = Some d0 -> block_ok d ->
  exists b s1 s2 s3, on_bc (bc_acquire n) s = Ret (b, s1) /\ on_bc (bc_set_data b d) s1 = Ret (tt, s2) /\
    (forall {B} (k : M pst B), (on_bc (bc_sync None b) ;;; on_bc (bc_release b) ;;; k) s2 = k s3) /\ (exists c1, s1 = set_bst c1 s) /\ swapped (<[n := d]> v) s s3.
Proof using.
  intros H Hn Hd. destruct (sc_write (bst s) v n d0 d H Hn Hd) as (b & c1 & c2 & c3 & c4 & E1 & E2 & E3 & E4 & H4).
  exists b, (set_bst c1 s), (set_bst c2 s), (set_bst c4 s). split; [by apply on_bc_Ret|]. split; [exact (on_bc_Ret _ (set_bst c1 s) _ c2 E2)|]. split.
  - intros B k. rewrite (bind_Ret _ _ _ _ _ (on_bc_Ret _ (set_bst c2 s) _ c3 E3)). by rewrite (bind_Ret _ _ _ _ _ (on_bc_Ret _ (set_bst c3 s) _ c4 E4)).
  - split; [eauto|]. by exists c4.
Qed.

Lemma read_cached n (s : pst) v d : sc_idle (bst s) v -> v !! n = Some d ->
  exists b s1 s2, on_bc (bc_acquire n) s = Ret (b, s1) /\ on_bc (bc_data b) s1 = Ret (d, s1) /\ (exists c1, s1 = set_bst c1 s) /\
    forall m, on_bc (bc_release b) (set_pmem m s1) = Ret (tt, set_pmem m s2) /\ swapped v s s2.
Proof using.
  intros H Hn. destruct (sc_read (bst s) v n d H Hn) as (b & c1 & c2 & E1 & E2 & E3 & H3).
  exists b, (set_bst c1 s), (set_bst c2 s). split; [by apply on_bc_Ret|]. split; [|split; [eauto|]].
  - rewrite (on_bc_Ret _ (set_bst c1 s) _ c1 E2). done.
  - intros m. split; [|by exists c2]. exact (on_bc_Ret _ (set_pmem m (set_bst c1 s)) _ c2 E3).
Qed.

(** The blocks with the page [d] from block [n] on. *)
Definition slot_blocks (n : Z) (d : bytes) (v v' : gmap Z bytes) (i : Z) : Prop :=
  forall m, v' !! m = if decide (n <= m < n + i) then Some (range (Z.to_nat ((m - n) * BLOCK_SIZE)) (Z.to_nat BLOCK_SIZE) d) else v !! m.

Definition slot_no (k : Z) : Z := SWAP_START + k * 8.
Definition slot_there (v : gmap Z bytes) (k : Z) : Prop := forall i, 0 <= i < 8 -> is_Some (v !! (slot_no k + i)).

Lemma range_block_ok d i : 0 <= i < 8 -> length d = 4096%nat -> Forall byte_ok d -> block_ok (range (Z.to_nat (i * BLOCK_SIZE)) (Z.to_nat BLOCK_SIZE) d).
Proof using.
  intros Hi Hl Hd. split; [apply range_length; change BLOCK_SIZE with 512; lia|]. unfold range. by apply Forall_take, Forall_drop.
Qed.

Lemma write_page_spec lo ka (s : pst) v k bm' :
  page_ok lo ka -> sc_idle (bst s) v -> 0 <= k < SWAP_SIZE -> slot_there v k -> find_and_set_8_blocks (swapmap s) = Ret (slot_no k, bm') ->
  exists v' s', write_page_to_disk ka s = Ret (slot_no k, s') /\ slot_blocks (slot_no k) (unwords 8 (page_words (pmem s) ka)) v v' 8 /\
    swapped v' (set_swapmap bm' s) s'.
Proof using.
  intros Hka Hv Hk Hth Hf. set (d := unwords 8 (page_words (pmem s) ka)). unfold write_page_to_disk.
  assert (Ef : on_swapmap find_and_set_8_blocks s = Ret (slot_no k, set_swapmap bm' s)) by (unfold on_swapmap, zoom; by rewrite Hf).
  rewrite (bind_Ret _ _ _ _ _ Ef). set (s0 := set_swapmap bm' s). assert (Hn : 0 <= slot_no k < 1000) by (unfold slot_no, SWAP_START, SWAP_SIZE in *; lia).
  destruct (for_upto_inv (fun i s1 => exists v1, slot_blocks (slot_no k) d v v1 i /\ swapped v1 s0 s1) (write_turn ka (slot_no k)) 8 0 s0) as (s' & E & v' & Hb' & Hs').
  - exists v. split; [intros m; by rewrite decide_False by lia|]. exists (bst s). by destruct s as [? ? ? [[] ? ? ?] ?].
  - intros i s1 Hi (v1 & Hb1 & c1 & -> & Hv1). destruct (Hth i ltac:(lia)) as [d0 Hd0]. pose proof (Hb1 (slot_no k + i)) as Hbi. rewrite decide_False in Hbi by lia. rewrite Hd0 in Hbi.
    destruct (write_block (slot_no k + i) (set_bst c1 s0) v1 d0 (range (Z.to_nat (i * BLOCK_SIZE)) (Z.to_nat BLOCK_SIZE) d) Hv1 Hbi) as (b & s2 & s3 & s4 & E1 & E2 & E3 & (c2 & Hs2) & c4 & -> & H4).
    { apply range_block_ok; [lia|unfold d; by rewrite unwords_length, page_words_length|apply unwords_ok]. }
    exists (set_bst c4 (set_bst c1 s0)). split.
    + unfold write_turn. rewrite u32_small by lia. rewrite (bind_Ret _ _ _ _ _ E1). subst s2.
      assert (El : on_mem (load_page ka) (set_bst c2 (set_bst c1 s0)) = Ret (d, set_bst c2 (set_bst c1 s0))).
      { unfold on_mem, zoom. rewrite (load_page_Ret lo ka _ Hka). reflexivity. }
      rewrite (bind_Ret _ _ _ _ _ El), (bind_Ret _ _ _ _ _ E2), E3. done.
    + eexists. split; [|exists c4; done]. intros m. destruct (decide (m = slot_no k + i)) as [->|Hm].
      * rewrite lookup_insert_eq, decide_True by lia. do 3 f_equal. lia.
      * rewrite lookup_insert_ne, (Hb1 m) by done. destruct (decide (slot_no k <= m < slot_no k + i)), (decide (slot_no k <= m < slot_no k + (i + 1))); (done || lia).
  - exists v', s'. split; [by rewrite (bind_Ret _ _ _ _ _ E)|done].
Qed.

Lemma stored_refl lo pt T s g p : pt_inv lo s g pt T -> stored lo pt T s s g p (page_words s p).
Proof using. intros H. by split. Qed.

Lemma stored_trans lo pt T s1 s2 s3 g p l l' : stored lo pt T s1 s2 g p l -> stored lo pt T s2 s3 g p l' -> stored lo pt T s1 s3 g p l'.
Proof using.
  intros [A1 A2 A3 A4] [B1 B2 B3 B4]. split; [done|done| |].
  - intros va. by rewrite B3.
  - intros q n Hq Hne. by rewrite (B4 q n), (A4 q n).
Qed.

(** What is on the page after the first [i] blocks. *)
Lemma splice_next (d old : bytes) i : length d = 4096%nat -> length old = 4096%nat -> 0 <= i < 8 ->
  splice (Z.to_nat (i * BLOCK_SIZE)) (range (Z.to_nat (i * BLOCK_SIZE)) (Z.to_nat BLOCK_SIZE) d)
    (take (Z.to_nat (i * BLOCK_SIZE)) d ++ drop (Z.to_nat (i * BLOCK_SIZE)) old) =
  take (Z.to_nat ((i + 1) * BLOCK_SIZE)) d ++ drop (Z.to_nat ((i + 1) * BLOCK_SIZE)) old.
Proof using.
  intros Hd Ho Hi. set (o := Z.to_nat (i * BLOCK_SIZE)). replace (Z.to_nat ((i + 1) * BLOCK_SIZE)) with (o + Z.to_nat BLOCK_SIZE)%nat by (unfold o; change BLOCK_SIZE with 512; lia).
  assert (Hle : (o + Z.to_nat BLOCK_SIZE <= 4096)%nat) by (unfold o; change BLOCK_SIZE with 512; lia). unfold splice. rewrite range_length by lia.
  rewrite take_app_length' by (rewrite length_take; lia). rewrite drop_app_ge by (rewrite length_take; lia). rewrite length_take, drop_drop.
  replace (o + (o + Z.to_nat BLOCK_SIZE - o `min` length d))%nat with (o + Z.to_nat BLOCK_SIZE)%nat by lia. rewrite app_assoc. f_equal. unfold range. apply take_take_drop.
Qed.

Lemma read_page_spec lo pt T g ka n (s : pst) v k d bm' :
  pt_inv lo (pmem s) g pt T -> user_page T g ka n -> sc_idle (bst s) v -> 0 <= k < SWAP_SIZE -> length d = 4096%nat -> Forall byte_ok d ->
  (forall i, 0 <= i < 8 -> v !! (slot_no k + i) = Some (range (Z.to_nat (i * BLOCK_SIZE)) (Z.to_nat BLOCK_SIZE) d)) ->
  release_8_blocks (slot_no k) (swapmap s) = Ret (tt, bm') ->
  exists m c, read_page_from_disk ka (slot_no k) s = Ret (tt, set_swapmap bm' (set_pmem m (set_bst c s))) /\ sc_idle c v /\
    stored lo pt T (pmem s) m g ka (Bytes.words 8 512 d) /\ zero_page m = zero_page (pmem s).
Proof using.
  intros HP Hu Hv Hk Hl Hd Hb Hr. unfold read_page_from_disk. set (old := unwords 8 (page_words (pmem s) ka)).
  assert (Hol : length old = 4096%nat) by (unfold old; by rewrite unwords_length, page_words_length). assert (Hn : 0 <= slot_no k < 1000) by (unfold slot_no, SWAP_START, SWAP_SIZE in *; lia).
  destruct (for_upto_inv (fun i s1 => exists m c l, s1 = set_pmem m (set_bst c s) /\ sc_idle c v /\ stored lo pt T (pmem s) m g ka l /\ zero_page m = zero_page (pmem s) /\
      unwords 8 l = take (Z.to_nat (i * BLOCK_SIZE)) d ++ drop (Z.to_nat (i * BLOCK_SIZE)) old /\ (0 < i -> Forall (word_ok 8) l)) (read_turn ka (slot_no k)) 8 0 s) as (s' & E & m & c & l & -> & Hc & Hst & Hz & Hl' & Hw).
  - exists (pmem s), (bst s), (page_words (pmem s) ka). split; [by destruct s as [? ? ? [[] ? ? ?] ?]|]. split; [done|]. split; [by apply stored_refl|]. split; [done|]. split; [done|lia].
  - intros i s1 Hi (m & c & l & -> & Hc & Hst & Hz & Hl' & _). assert (Hbi := Hb i ltac:(lia)).
    destruct (read_cached (slot_no k + i) (set_pmem m (set_bst c s)) v _ Hc Hbi) as (b & s2 & s3 & E1 & E2 & (c1 & ->) & E3).
    assert (Hrl : length (range (Z.to_nat (i * BLOCK_SIZE)) (Z.to_nat BLOCK_SIZE) d) = 512%nat) by (rewrite range_length; change BLOCK_SIZE with 512 in *; lia).
    pose proof (sr_inv _ _ _ _ _ _ _ _ Hst) as HPm. pose proof (user_page_ok _ _ _ _ _ _ _ HPm Hu) as Hko.
    pose proof (store_page_Ret lo ka (Z.to_nat (i * BLOCK_SIZE)) (range (Z.to_nat (i * BLOCK_SIZE)) (Z.to_nat BLOCK_SIZE) d) m Hko ltac:(rewrite Hrl; change BLOCK_SIZE with 512; lia)) as Es.
    rewrite (sr_page _ _ _ _ _ _ _ _ Hst), Hl', splice_next in Es by (done || lia).
    set (l2 := Bytes.words 8 512 _) in Es. destruct (E3 (set_words (put_words l2 ka) m)) as [E4 (c4 & -> & Hc4)].
    exists (set_pmem (set_words (put_words l2 ka) m) (set_bst c4 s)). split.
    + unfold read_turn. rewrite u32_small by lia. rewrite (bind_Ret _ _ _ _ _ E1), (bind_Ret _ _ _ _ _ E2).
      assert (Es' : on_mem (store_page ka (Z.to_nat (i * BLOCK_SIZE)) (range (Z.to_nat (i * BLOCK_SIZE)) (Z.to_nat BLOCK_SIZE) d)) (set_bst c1 (set_pmem m (set_bst c s))) =
        Ret (tt, set_pmem (set_words (put_words l2 ka) m) (set_bst c1 (set_pmem m (set_bst c s))))) by (unfold on_mem, zoom; cbn [pmem set_bst set_pfs set_pmem]; by rewrite Es).
      rewrite (bind_Ret _ _ _ _ _ Es'), (bind_Ret _ _ _ _ _ E4). done.
    + eexists _, c4, l2. split; [done|]. split; [done|]. split.
      * eapply stored_trans; [exact Hst|]. eapply store_stored; [done|done|apply words_length].
      * assert (Hnok : Forall byte_ok (take (Z.to_nat ((i + 1) * BLOCK_SIZE)) d ++ drop (Z.to_nat ((i + 1) * BLOCK_SIZE)) old))
          by (apply Forall_app; split; [by apply Forall_take|apply Forall_drop, unwords_ok]).
        assert (Hnl : length (take (Z.to_nat ((i + 1) * BLOCK_SIZE)) d ++ drop (Z.to_nat ((i + 1) * BLOCK_SIZE)) old) = (8 * 512)%nat)
          by (rewrite length_app, length_take, length_drop; change BLOCK_SIZE with 512; lia).
        split; [done|]. unfold l2. split; [by apply unwords_words|]. intros _. by apply words_ok.
  - exists m, c. split; [|split; [done|split; [|done]]].
    + rewrite (bind_Ret _ _ _ _ _ E). unfold on_swapmap, zoom. cbn [swapmap set_pmem set_bst set_pfs]. by rewrite Hr.
    + change (Z.to_nat ((0 + Z.of_nat 8) * BLOCK_SIZE)) with 4096%nat in Hl'. rewrite take_ge, (drop_ge old), app_nil_r in Hl' by lia. rewrite <- Hl'.
      rewrite words_of_page; [done| |apply Hw; lia]. rewrite <- (sr_page _ _ _ _ _ _ _ _ Hst). apply page_words_length.
Qed.
End swap.
