(* ===== verification/SwapProps.v ===== *)
(** * Swapping a section out and in again (kernel/paging.c)

    [swapout] moves the pages of a section to free slots of the swap area and
    leaves the number of the slot in the entry of each; [swapin] brings them
    back. Between the two the pages are free for others. *)
From stdpp Require Import base gmap list.
From Stdlib Require Import ZArith Lia.
From S2P Require Import Prelude Bytes Bitmap BCache BlockStore CString Console Inode Pipe File Mmu LockFree Mem PT Sections Paging PagingMem PagingProps Swap.

(** ** The loop over the pages of a range *)
Definition turns (b e : Z) : Z := (e - b + PAGE_SIZE - 1) / PAGE_SIZE.
Definition page_at (b i : Z) : Z := b + PAGE_SIZE * i.

Lemma turns_bounds b e : 0 <= b <= e -> 0 <= turns b e /\ PAGE_SIZE * (turns b e - 1) < e - b <= PAGE_SIZE * turns b e.
Proof. unfold turns, PAGE_SIZE. intros H. Z.div_mod_to_equations. lia. Qed.

Lemma for_pages_inv {St} (P : Z -> pst St -> Prop) b e body s :
  0 <= b <= e -> e <= 2 ^ 48 -> P 0 s ->
  (forall i s, 0 <= i < turns b e -> P i s -> exists s', body (page_at b i) s = Ret (tt, s') /\ P (i + 1) s') ->
  exists s', for_pages b e body s = Ret (tt, s') /\ P (turns b e) s'.
Proof.
  intros Hb He H0 Hstep. destruct (turns_bounds b e Hb) as (Hn & Hn1). unfold for_pages. change ((e - b + PAGE_SIZE - 1) / PAGE_SIZE) with (turns b e).
  assert (Hgen : forall k i s, Z.of_nat k = turns b e - i -> 0 <= i -> P i s ->
    exists s', while (S k) (fun va => if va <? e then body va ;;; ret (inl (u64 (va + PAGE_SIZE))) else ret (inr tt)) (page_at b i) s = Ret (tt, s') /\ P (turns b e) s').
  { induction k as [|k IH]; intros i s1 Hk Hi Hp; rewrite while_S.
    - rewrite (proj2 (Z.ltb_ge _ _)) by (unfold page_at, PAGE_SIZE in *; lia). exists s1. split; [done|]. by replace (turns b e) with i by lia.
    - rewrite (proj2 (Z.ltb_lt _ _)) by (unfold page_at, PAGE_SIZE in *; lia). destruct (Hstep i s1 ltac:(lia) Hp) as (s2 & E & H2). rewrite bind_assoc, (bind_Ret _ _ _ _ _ E).
      change ((ret (inl (u64 (page_at b i + PAGE_SIZE)))) s2) with (Ret (@inl Z unit (u64 (page_at b i + PAGE_SIZE)), s2)).
      rewrite (bind_Ret (ret (inl (u64 (page_at b i + PAGE_SIZE)))) _ s2 _ s2 eq_refl).
      replace (u64 (page_at b i + PAGE_SIZE)) with (page_at b (i + 1)); [apply IH; [lia|lia|done]|].
      unfold u64. rewrite wrapu_small; unfold page_at, PAGE_SIZE in *; lia. }
  destruct (Hgen (Z.to_nat (turns b e)) 0 s ltac:(lia) ltac:(lia) H0) as (s' & E & Hp). exists s'. split; [|done]. by replace (page_at b 0) with b in E by (unfold page_at; lia).
Qed.

Lemma pages_apart_va b e i j : 0 <= b <= e -> e <= 2 ^ 48 -> 0 <= i < turns b e -> 0 <= j < turns b e -> same_page (page_at b i) (page_at b j) -> i = j.
Proof.
  intros Hb He Hi Hj. destruct (turns_bounds b e Hb) as (Hn & Hn1). unfold same_page, page_at, PAGE_SIZE in *. rewrite !(Z.mul_comm 4096), !Z.div_add by lia.
  assert (Hs : forall x, 0 <= x < turns b e -> 0 <= b / 4096 + x < 2 ^ 36).
  { intros x Hx. assert (0 <= b / 4096) by (apply Z.div_pos; lia). split; [lia|]. rewrite <- Z.div_add by lia. apply Z.div_lt_upper_bound; [lia|]. change (4096 * 2 ^ 36) with (2 ^ 48). lia. }
  rewrite !Z.mod_small by (by apply Hs). lia.
Qed.

(** ** The pages of a section *)
Section pages.
Context (kend : Z) (pt : Z) (T : tables) (b e : Z).
Abbreviation lo := (PAGE_BASE kend + PAGE_SIZE).
Abbreviation va := (page_at b).

(** [f i] is the page behind the [i]th page of the range. *)
Record resident (s : mem_st) (g : ghost) (f : Z -> option Z) : Prop := {
  rs_none : forall i, 0 <= i < turns b e -> f i = None -> pte_of s T (va i) = 0;
  rs_some : forall i p, 0 <= i < turns b e -> f i = Some p -> exists fl k, pte_of s T (va i) = K2P p + fl /\ 0 <= fl < 4096 /\
    user_page T g p k /\ k <= 127 /\ p <> zero_page s /\ page_wide s p;
  rs_inj : forall i j p, 0 <= i < turns b e -> 0 <= j < turns b e -> f i = Some p -> f j = Some p -> i = j
}.

Lemma clear_valid p fl : page_ok lo p -> 0 <= fl < 4096 -> exists fl', 0 <= fl' < 4096 /\ Z.land (K2P p + fl) (u64 (Z.lnot PTE_VALID)) = K2P p + fl'.
Proof using.
  intros Hp Hf. exists (fl - fl mod 2). assert (Hm := Z.mod_pos_bound fl 2 ltac:(lia)). split; [Z.div_mod_to_equations; lia|].
  destruct Hp as (P1 & P2 & P3 & P4). unfold PAGE_SIZE, PHYSTOP, KSPACE_MASK in *. rewrite K2P_range by (unfold KSPACE_MASK; lia). unfold KSPACE_MASK. set (q := p - 18446462598732840960).
  assert (Hq : 0 <= q < 2 ^ 32) by lia. assert (Hqm : q mod 2 = 0).
  { unfold q. pose proof (Z.div_mod p 4096 ltac:(lia)) as Hd. rewrite P4 in Hd. replace (p - 18446462598732840960) with ((2048 * (p / 4096) - 9223231299366420480) * 2) by lia. apply Z_mod_mult. }
  change (u64 (Z.lnot PTE_VALID)) with (2 ^ 64 - 1 - 1). assert (E : Z.land (q + fl) (2 ^ 64 - 1 - 1) = Z.land (q + fl) (Z.lnot (2 ^ 1 - 1))).
  { apply Z.bits_inj'. intros t Ht. rewrite !Z.land_spec. destruct (Z.ltb_spec t 64) as [Hlt|Hge].
    - f_equal. change (2 ^ 64 - 1 - 1) with (Z.lnot (2 ^ 1 - 1) mod 2 ^ 64). by rewrite Z.mod_pow2_bits_low by lia.
    - rewrite <- (Z.mod_small (q + fl) (2 ^ 64)) by lia. by rewrite Z.mod_pow2_bits_high by lia. }
  rewrite E, land_align by lia. change (2 ^ 1) with 2. rewrite Z.add_mod, Hqm, Z.add_0_l, Z.mod_mod by lia. lia.
Qed.

(** ** Free slots *)
Definition free_slots (bm : bitmap) : gset Z := filter (fun t => bit bm t = false) (list_to_set (seqZ 0 SWAP_SIZE)).
Definition pages_left (f : Z -> option Z) (i : Z) : gset Z := filter (fun j => i <= j /\ is_Some (f j)) (list_to_set (seqZ 0 (turns b e))).

Lemma elem_free_slots bm t : t ∈ free_slots bm <-> 0 <= t < SWAP_SIZE /\ bit bm t = false.
Proof using. unfold free_slots. rewrite elem_of_filter, elem_of_list_to_set, elem_of_seqZ. unfold SWAP_SIZE. intuition lia. Qed.

Lemma elem_pages_left f i j : j ∈ pages_left f i <-> 0 <= j < turns b e /\ i <= j /\ is_Some (f j).
Proof using. unfold pages_left. rewrite elem_of_filter, elem_of_list_to_set, elem_of_seqZ. intuition lia. Qed.

Lemma find_slot bm : bm_wf bm SWAP_SIZE -> (0 < size (free_slots bm))%nat ->
  exists k bm', 0 <= k < SWAP_SIZE /\ bit bm k = false /\ find_and_set_8_blocks bm = Ret (slot_no k, bm') /\ bm_wf bm' SWAP_SIZE /\
    (forall t, 0 <= t -> bit bm' t = if t =? k then true else bit bm t).
Proof using.
  intros Hwf Hs. unfold find_and_set_8_blocks. destruct (swap_scan bm (Z.to_nat SWAP_SIZE) 0 Hwf ltac:(lia) ltac:(done) ltac:(lia)) as [[Hf _]|(k & bm' & Hk & Hfree & _ & E & Hwf' & Hbit)].
  - exfalso. assert (Hem : free_slots bm = ∅); [|rewrite Hem, size_empty in Hs; lia]. apply set_eq. intros t. rewrite elem_free_slots. split; [|by intros []%not_elem_of_empty].
    intros [Ht Hbt]. rewrite Hf in Hbt by done. done.
  - exists k, bm'. split; [done|]. split; [done|]. split; [by rewrite (bind_Ret _ _ _ _ _ E)|done].
Qed.

Lemma slot_taken bm bm' k : 0 <= k < SWAP_SIZE -> bit bm k = false -> (forall t, 0 <= t -> bit bm' t = if t =? k then true else bit bm t) ->
  size (free_slots bm) = S (size (free_slots bm')).
Proof using.
  intros Hk Hf Hbit. assert (E : free_slots bm = {[k]} ∪ free_slots bm').
  { apply set_eq. intros t. rewrite elem_of_union, elem_of_singleton, !elem_free_slots. split.
    - intros [Ht Hbt]. destruct (decide (t = k)) as [|Hne]; [by left|]. right. rewrite Hbit, (proj2 (Z.eqb_neq t k)) by (done || lia). done.
    - intros [->|[Ht Hbt]]; [done|]. rewrite Hbit in Hbt by lia. destruct (Z.eqb_spec t k) as [->|]; done. }
  rewrite E, size_union, size_singleton; [done|]. intros t ->%elem_of_singleton. rewrite elem_free_slots. intros [_ Hbt]. rewrite Hbit, Z.eqb_refl in Hbt by lia. done.
Qed.

Lemma page_passed f i : 0 <= i < turns b e -> size (pages_left f i) = ((if f i then 1 else 0) + size (pages_left f (i + 1)))%nat.
Proof using.
  intros Hi. destruct (f i) as [p|] eqn:Hf.
  - assert (E : pages_left f i = {[i]} ∪ pages_left f (i + 1)).
    { apply set_eq. intros j. rewrite elem_of_union, elem_of_singleton, !elem_pages_left. split.
      - intros (Hj & Hij & Hs). destruct (decide (j = i)); [by left|right]. split; [done|]. split; [lia|done].
      - intros [->|(Hj & Hij & Hs)]; [split; [done|split; [lia|eauto]]|split; [done|split; [lia|done]]]. }
    rewrite E, size_union, size_singleton; [done|]. intros j ->%elem_of_singleton. rewrite elem_pages_left. lia.
  - cbn [Nat.add]. f_equal. apply set_eq. intros j. rewrite !elem_pages_left. split; [|intros (?&?&?); split; [done|split; [lia|done]]].
    intros (Hj & Hij & [q Hq]). split; [done|]. split; [|eauto]. assert (j <> i) by (intros ->; congruence). lia.
Qed.

Lemma entry_pos p fl : KSPACE_MASK <= kend -> page_ok lo p -> 0 <= fl < 4096 -> 0 < K2P p + fl /\ table_of (K2P p + fl) = p.
Proof using.
  intros Hk Hp Hf. destruct (entry_of lo p fl Hp Hf) as (_ & _ & _ & ->). split; [|done]. destruct Hp as (P1 & P2 & P3 & P4).
  assert (Hlo : KSPACE_MASK <= PAGE_BASE kend).
  { unfold PAGE_BASE. change (PAGE_SIZE - 1) with (2 ^ 12 - 1). rewrite land_align by lia. pose proof (Z.div_mod kend (2 ^ 12) ltac:(lia)). pose proof (Z.mod_pos_bound kend (2 ^ 12) ltac:(lia)).
    change KSPACE_MASK with (4503530907893760 * 2 ^ 12) in *. lia. }
  unfold PAGE_SIZE, PHYSTOP, KSPACE_MASK in *. rewrite K2P_range by (unfold KSPACE_MASK; lia). unfold KSPACE_MASK. lia.
Qed.
(** ** [swapout] clears the valid bits *)

(** The entries outside of the range. *)
Definition beyond (a : Z) : Prop := forall i, 0 <= i < turns b e -> ~ same_page a (va i).

Context (Hb : 0 <= b <= e) (He : e <= 2 ^ 48).
Context {St : Type} {BC : BlockCache St} (pd : Z).

Lemma same_page_refl a : same_page a a.
Proof using. done. Qed.

Lemma resident_enter s s' g f i v : 0 <= i < turns b e -> resident s g f -> entered lo pt T s s' g (va i) v -> zero_page s' = zero_page s ->
  (forall p, f i = Some p -> exists fl, v = K2P p + fl /\ 0 <= fl < 4096) -> (f i = None -> v = 0) -> resident s' g f.
Proof using Hb He.
  intros Hi [R1 R2 R3] [N1 N2 N3 N4] Hz Hs Hn. split; [| |done].
  - intros j Hj Hf. destruct (decide (j = i)) as [->|Hne]; [rewrite N2 by done; by apply Hn|]. rewrite N3; [by apply R1|]. intros E. by apply Hne, (pages_apart_va b e).
  - intros j p Hj Hf. destruct (R2 j p Hj Hf) as (fl & k & Ee & Hfl & Hu & Hk & Hpz & Hw).
    assert (Hw' : page_wide s' p) by (unfold page_wide; by rewrite (N4 p k Hu)). destruct (decide (j = i)) as [->|Hne].
    + destruct (Hs p Hf) as (fl' & -> & Hfl'). exists fl', k. rewrite N2 by done. rewrite Hz. done.
    + exists fl, k. rewrite N3 by (intros E; by apply Hne, (pages_apart_va b e)). rewrite Hz. done.
Qed.

Record cleared (s m : mem_st) (g : ghost) (f : Z -> option Z) : Prop := {
  cl_inv : pt_inv lo m g pt T;
  cl_res : resident m g f;
  cl_zero : zero_page m = zero_page s;
  cl_pages : forall p k, user_page T g p k -> page_words m p = page_words s p;
  cl_beyond : forall a, beyond a -> pte_of m T a = pte_of s T a
}.

Lemma invalidate_run (s : pst St) g d f : space kend pd s g d T -> Paging.pt d = pt -> resident (pmem s) g f ->
  exists m, for_pages b e (invalidate_turn pd) s = Ret (tt, set_pmem m s) /\ cleared (pmem s) m g f.
Proof using Hb He.
  intros Hsp Hpt Hres. pose proof (sp_pt _ _ _ _ _ _ Hsp) as HP. rewrite Hpt in HP.
  destruct (for_pages_inv (fun _ s1 => exists m, s1 = set_pmem m s /\ cleared (pmem s) m g f) b e (invalidate_turn pd) s Hb He) as (s' & E & m & -> & Hc); [| |by exists m].
  - exists (pmem s). split; [by destruct s|]. by split.
  - intros i s1 Hi (m & -> & [C1 C2 C3 C4 C5]). assert (Hs1 : space kend pd (set_pmem m s) g d T) by (split; [apply Hsp|by rewrite Hpt]).
    destruct (T !! path (va i)) as [q|] eqn:Hq.
    + unfold invalidate_turn. rewrite (bind_Ret _ _ _ _ _ (get_pte_here kend pd _ g d T (va i) false q Hs1 Hq)). rewrite (entry_ptr_pos kend _ g d T pd (va i) q Hs1 Hq). cbn [negb when].
      rewrite (bind_Ret _ _ _ _ _ (rd_pte_here kend pd _ g d T (va i) q Hs1 Hq)). cbn [pmem set_pmem]. set (v := Z.land _ _).
      destruct (enter lo pt T m g (va i) q v C1 Hq) as [Ew Hen]. set (m' := set_words _ m) in *. exists (set_pmem m' s). split.
      * unfold wr_pte, on_mem, zoom. cbn [pmem set_pmem]. by rewrite Ew.
      * exists m'. split; [done|]. split; [apply Hen| |done| |].
        -- apply (resident_enter m m' g f i v Hi C2 Hen eq_refl).
           ++ intros p Hf. destruct (rs_some _ _ _ C2 i p Hi Hf) as (fl & k & Ee & Hfl & Hu & _). unfold v. rewrite Ee.
              destruct (clear_valid p fl (user_page_ok _ _ _ _ _ _ _ C1 Hu) Hfl) as (fl' & ? & ->). eauto.
           ++ intros Hf. unfold v. by rewrite (rs_none _ _ _ C2 i Hi Hf).
        -- intros p k Hu. rewrite (en_page _ _ _ _ _ _ _ _ Hen p k Hu). by apply (C4 p k).
        -- intros a Ha. rewrite (en_other _ _ _ _ _ _ _ _ Hen a (Ha i Hi)). by apply C5.
    + exists (set_pmem m s). split; [|by exists m]. unfold invalidate_turn. by rewrite (bind_Ret _ _ _ _ _ (get_pte_none kend pd _ g d T (va i) Hs1 Hq)).
Qed.


(** ** [swapout] moves the pages *)
Context {SC : SwapCache St}.

(** The slot [k] holds the page with the bytes [d]. *)
Definition slot_holds (v : gmap Z bytes) (k : Z) (d : bytes) : Prop :=
  forall i, 0 <= i < 8 -> v !! (slot_no k + i) = Some (range (Z.to_nat (i * BLOCK_SIZE)) (Z.to_nat BLOCK_SIZE) d).

Definition in_slot (k m : Z) : Prop := slot_no k <= m < slot_no k + 8.

(** The first [i] pages are in the slots [sl], the others where they were. *)
Record halfway (s : pst St) (g : ghost) (v : gmap Z bytes) (f : Z -> option Z) (i : Z) (s1 : pst St) (g1 : ghost) (v1 : gmap Z bytes) (sl : Z -> Z) : Prop := {
  hw_state : exists m c bm, s1 = set_swapmap bm (set_pmem m (set_bst c s));
  hw_idle : sc_idle (bst s1) v1;
  hw_inv : pt_inv lo (pmem s1) g1 pt T;
  hw_bm : bm_wf (swapmap s1) SWAP_SIZE;
  hw_zero : zero_page (pmem s1) = zero_page (pmem s);
  hw_left : forall j p, i <= j < turns b e -> f j = Some p -> pte_of (pmem s1) T (va j) = pte_of (pmem s) T (va j) /\
    page_words (pmem s1) p = page_words (pmem s) p /\ forall k, user_page T g p k -> user_page T g1 p k;
  hw_none : forall j, 0 <= j < turns b e -> f j = None -> pte_of (pmem s1) T (va j) = 0;
  hw_done : forall j p, 0 <= j < i -> f j = Some p -> pte_of (pmem s1) T (va j) = slot_no (sl j) * PAGE_SIZE /\ 0 <= sl j < SWAP_SIZE /\
    bit (swapmap s) (sl j) = false /\ slot_holds v1 (sl j) (unwords 8 (page_words (pmem s) p));
  hw_inj : forall j j' p p', 0 <= j < i -> 0 <= j' < i -> f j = Some p -> f j' = Some p' -> sl j = sl j' -> j = j';
  hw_bits : forall t, 0 <= t -> bit (swapmap s1) t = true <-> bit (swapmap s) t = true \/ exists j, 0 <= j < i /\ is_Some (f j) /\ sl j = t;
  hw_blocks : forall m, (forall j, 0 <= j < i -> is_Some (f j) -> ~ in_slot (sl j) m) -> v1 !! m = v !! m;
  hw_free : (length (gfree g) <= length (gfree g1))%nat;
  hw_given : forall j p k, 0 <= j < i -> f j = Some p -> user_page T g p k -> k <= 1 -> p ∈ gfree g1;
  hw_room : (size (pages_left f i) <= size (free_slots (swapmap s1)))%nat;
  hw_other : forall p k, user_page T g p k -> (forall j, 0 <= j < turns b e -> f j <> Some p) -> user_page T g1 p k /\ page_words (pmem s1) p = page_words (pmem s) p;
  hw_beyond : forall a, beyond a -> pte_of (pmem s1) T a = pte_of (pmem s) T a
}.

Lemma slots_disjoint k k' m : in_slot k m -> in_slot k' m -> k = k'.
Proof using. unfold in_slot, slot_no, SWAP_START. lia. Qed.

Lemma swapout_none s g v f i s1 g1 v1 sl : 0 <= i < turns b e -> halfway s g v f i s1 g1 v1 sl -> f i = None -> halfway s g v f (i + 1) s1 g1 v1 sl.
Proof using.
  intros Hi [] Hf. assert (Hlt : forall j p, 0 <= j < i + 1 -> f j = Some p -> 0 <= j < i) by (intros j p Hj Hs; assert (j <> i) by (intros ->; congruence); lia).
  split; try done.
  - intros j p Hj. apply hw_left0. lia.
  - intros j p Hj Hs. by apply (hw_done0 j p (Hlt j p Hj Hs)).
  - intros j j' p p' Hj Hj' Hs Hs'. by apply (hw_inj0 j j' p p' (Hlt j p Hj Hs) (Hlt j' p' Hj' Hs')).
  - intros t Ht. rewrite (hw_bits0 t Ht). split; (intros [?|(j & Hj & [p Hs] & <-)]; [by left|right; exists j; split; [|eauto]]); [lia|by eapply Hlt].
  - intros m Hm. apply hw_blocks0. intros j Hj. apply Hm. lia.
  - intros j p k Hj Hs. by apply (hw_given0 j p k (Hlt j p Hj Hs)).
  - by rewrite (page_passed f i Hi), Hf in hw_room0.
Qed.

Lemma slot_shift k : 0 <= k < SWAP_SIZE -> u32 (Z.shiftl (slot_no k) 12) = slot_no k * PAGE_SIZE.
Proof using.
  intros Hk. rewrite Z.shiftl_mul_pow2 by lia. change (2 ^ 12) with PAGE_SIZE. apply u32_small. unfold slot_no, SWAP_START, SWAP_SIZE, PAGE_SIZE in *. lia.
Qed.

Lemma slot_stored s g v f i s1 g1 v1 sl k d v2 : halfway s g v f i s1 g1 v1 sl -> 0 <= k < SWAP_SIZE -> bit (swapmap s1) k = false -> slot_blocks (slot_no k) d v1 v2 8 ->
  slot_holds v2 k d /\ (forall j dj, 0 <= j < i -> is_Some (f j) -> slot_holds v1 (sl j) dj -> slot_holds v2 (sl j) dj) /\ (forall m, ~ in_slot k m -> v2 !! m = v1 !! m).
Proof using.
  intros H Hk Hbk Hb2. split; [|split].
  - intros t Ht. rewrite (Hb2 (slot_no k + t)), decide_True by lia. do 3 f_equal. lia.
  - intros j dj Hj Hs Hh t Ht. rewrite (Hb2 (slot_no (sl j) + t)), decide_False; [by apply Hh|]. intros Hin.
    destruct Hs as [p Hs]. destruct (hw_done _ _ _ _ _ _ _ _ _ H j p Hj Hs) as (_ & Hslj & _). assert (sl j = k) as E by (apply (slots_disjoint (sl j) k (slot_no (sl j) + t)); unfold in_slot; lia).
    assert (bit (swapmap s1) (sl j) = true) by (apply (hw_bits _ _ _ _ _ _ _ _ _ H); [lia|right; exists j; eauto]). congruence.
  - intros m Hm. rewrite (Hb2 m), decide_False; [done|]. exact Hm.
Qed.

Lemma free_slot_there s g v f i s1 g1 v1 sl k : halfway s g v f i s1 g1 v1 sl -> 0 <= k < SWAP_SIZE -> bit (swapmap s1) k = false -> slot_there v k -> slot_there v1 k.
Proof using.
  intros H Hk Hbk Hth t Ht. rewrite (hw_blocks _ _ _ _ _ _ _ _ _ H); [by apply Hth|]. intros j Hj Hs Hin. assert (sl j = k) as E by (apply (slots_disjoint (sl j) k (slot_no k + t)); [done|unfold in_slot; lia]).
  assert (bit (swapmap s1) (sl j) = true) by (apply (hw_bits _ _ _ _ _ _ _ _ _ H); [lia|right; eauto]). congruence.
Qed.

Lemma swapout_one s g d v f i s1 g1 v1 sl p :
  KSPACE_MASK <= kend -> space kend pd s g d T -> Paging.pt d = pt -> (forall k, 0 <= k < SWAP_SIZE -> slot_there v k) -> resident (pmem s) g f ->
  0 <= i < turns b e -> halfway s g v f i s1 g1 v1 sl -> f i = Some p ->
  exists s2 g2 v2 sl', swapout_turn kend pd (va i) s1 = Ret (tt, s2) /\ halfway s g v f (i + 1) s2 g2 v2 sl'.
Proof using Hb He.
  intros Hkend Hsp Hpt Hth Hres Hi H Hf. pose proof (hw_inv _ _ _ _ _ _ _ _ _ H) as HP1. destruct (rs_some _ _ _ Hres i p Hi Hf) as (fl & kp & Ee & Hfl & Hu & Hkp & Hpz & _).
  destruct (hw_left _ _ _ _ _ _ _ _ _ H i p ltac:(lia) Hf) as (Epte & Epw & Huk). pose proof (Huk kp Hu) as Hu1. pose proof (user_page_ok _ _ _ _ _ _ _ HP1 Hu1) as Hpok.
  destruct (entry_pos p fl Hkend Hpok Hfl) as [Hpos Htab]. rewrite Ee in Epte.
  assert (Hq : is_Some (T !! path (va i))) by (destruct (T !! path (va i)) eqn:Eq; [eauto|unfold pte_of in Epte; rewrite Eq in Epte; lia]). destruct Hq as [q Hq].
  assert (Hs1 : space kend pd s1 g1 d T).
  { split; [|by rewrite Hpt]. destruct (hw_state _ _ _ _ _ _ _ _ _ H) as (m & c & bm & ->). apply (sp_dir _ _ _ _ _ _ Hsp). }
  assert (Hroom : (0 < size (free_slots (swapmap s1)))%nat) by (pose proof (hw_room _ _ _ _ _ _ _ _ _ H) as Hr; rewrite (page_passed f i Hi), Hf in Hr; lia).
  destruct (find_slot (swapmap s1) (hw_bm _ _ _ _ _ _ _ _ _ H) Hroom) as (k & bm' & Hk & Hbk & Ef & Hwf' & Hbit).
  destruct (write_page_spec lo p s1 v1 k bm' Hpok (hw_idle _ _ _ _ _ _ _ _ _ H) Hk (free_slot_there _ _ _ _ _ _ _ _ _ k H Hk Hbk (Hth k Hk)) Ef) as (v2 & s2 & Ew & Hb2 & c2 & -> & Hc2).
  destruct (slot_stored _ _ _ _ _ _ _ _ _ k _ v2 H Hk Hbk Hb2) as (Hnew & Hold & Hrest).
  destruct (enter lo pt T (pmem s1) g1 (va i) q (slot_no k * PAGE_SIZE) HP1 Hq) as [Een [N1 N2 N3 N4]]. set (m2 := set_words _ (pmem s1)) in *.
  destruct (give_page lo pt T kend m2 g1 p kp eq_refl N1 Hu1) as (m3 & Eg & HP3 & Hw3 & _ & Hz3); [change (zero_page m2) with (zero_page (pmem s1)); by rewrite (hw_zero _ _ _ _ _ _ _ _ _ H)|done|].
  destruct (give_kept lo pt T m2 m3 g1 p kp N1 Hu1 Hw3) as [Hpt3 Hpw3].
  set (s3 := set_pmem m3 (set_pmem m2 (set_bst c2 (set_swapmap bm' s1)))).
  exists s3, (dropped p kp g1), v2, (fun j => if j =? i then k else sl j). split.
  { unfold swapout_turn. rewrite (bind_Ret _ _ _ _ _ (get_pte_here kend pd s1 g1 d T (va i) false q Hs1 Hq)), (entry_ptr_pos kend s1 g1 d T pd (va i) q Hs1 Hq). cbn [negb when].
    rewrite (bind_Ret _ _ _ _ _ (rd_pte_here kend pd s1 g1 d T (va i) q Hs1 Hq)), Epte, (proj2 (Z.eqb_neq (K2P p + fl) 0)) by lia. cbn [negb when].
    change (P2K (PTE_ADDRESS (K2P p + fl))) with (table_of (K2P p + fl)). rewrite Htab, (bind_Ret _ _ _ _ _ Ew), slot_shift by done.
    assert (E1 : wr_pte (entry_ptr q (va i)) (slot_no k * PAGE_SIZE) (set_bst c2 (set_swapmap bm' s1)) = Ret (tt, set_pmem m2 (set_bst c2 (set_swapmap bm' s1)))).
    { unfold wr_pte. apply on_mem_Ret. exact Een. }
    rewrite (bind_Ret _ _ _ _ _ E1). apply on_mem_Ret. exact Eg. }
  assert (Hne : forall j, 0 <= j < turns b e -> j <> i -> ~ same_page (va j) (va i)) by (intros j Hj Hji E; by apply Hji, (pages_apart_va b e)).
  assert (Hpj : forall j pj, 0 <= j < turns b e -> j <> i -> f j = Some pj -> pj <> p) by (intros j pj Hj Hji Hfj ->; apply Hji; by eapply (rs_inj _ _ _ Hres)).
  assert (Hslk : forall j pj, 0 <= j < i -> f j = Some pj -> sl j <> k).
  { intros j pj Hj Hfj E. assert (bit (swapmap s1) (sl j) = true); [|congruence]. apply (hw_bits _ _ _ _ _ _ _ _ _ H); [destruct (hw_done _ _ _ _ _ _ _ _ _ H j pj Hj Hfj) as (_ & ? & _); lia|right; eauto]. }
  assert (Hlt : forall j, 0 <= j < i + 1 -> j <> i -> 0 <= j < i) by (intros; lia).
  split; change (pmem s3) with m3; change (swapmap s3) with bm'; change (bst s3) with c2.
  - destruct (hw_state _ _ _ _ _ _ _ _ _ H) as (m & c & bm & ->). by exists m3, c2, bm'.
  - done.
  - done.
  - done.
  - rewrite Hz3. apply (hw_zero _ _ _ _ _ _ _ _ _ H).
  - intros j pj Hj Hfj. destruct (hw_left _ _ _ _ _ _ _ _ _ H j pj ltac:(lia) Hfj) as (A1 & A2 & A3). assert (Hji : j <> i) by lia. pose proof (Hpj j pj ltac:(lia) Hji Hfj) as Hpp.
    destruct (rs_some _ _ _ Hres j pj ltac:(lia) Hfj) as (_ & kj & _ & _ & Huj & _). split; [|split].
    + rewrite Hpt3, N3; [done|]. apply Hne; [lia|done].
    + rewrite (Hpw3 pj kj (A3 kj Huj) Hpp), (N4 pj kj (A3 kj Huj)). done.
    + intros k' Hu'. destruct (A3 k' Hu') as [B1 B2]. split; [by rewrite dropped_other|done].
  - intros j Hj Hfj. rewrite Hpt3, N3; [by apply (hw_none _ _ _ _ _ _ _ _ _ H)|]. apply Hne; [done|]. intros ->. congruence.
  - intros j pj Hj Hfj. destruct (Z.eqb_spec j i) as [->|Hji].
    + rewrite Hpt3, N2 by done. rewrite Hf in Hfj. injection Hfj as <-. rewrite Epw in Hnew. split; [done|]. split; [done|]. split; [|done].
      destruct (bit (swapmap s) k) eqn:Eb; [|done]. assert (bit (swapmap s1) k = true) by (apply (hw_bits _ _ _ _ _ _ _ _ _ H); [lia|by left]). congruence.
    + destruct (hw_done _ _ _ _ _ _ _ _ _ H j pj (Hlt j Hj Hji) Hfj) as (A1 & A2 & A3 & A4). rewrite Hpt3, N3 by (apply Hne; [lia|done]). split; [done|]. split; [done|]. split; [done|].
      apply (Hold j); [lia|eauto|done].
  - intros j j' pj pj' Hj Hj' Hfj Hfj'. destruct (Z.eqb_spec j i) as [->|Hji], (Z.eqb_spec j' i) as [->|Hji']; [done|intros E; by destruct (Hslk j' pj' (Hlt j' Hj' Hji') Hfj')|intros E; by destruct (Hslk j pj (Hlt j Hj Hji) Hfj)|].
    by apply (hw_inj _ _ _ _ _ _ _ _ _ H j j' pj pj' (Hlt j Hj Hji) (Hlt j' Hj' Hji')).
  - intros t Ht. rewrite (Hbit t Ht). destruct (Z.eqb_spec t k) as [->|Htk].
    + split; [|done]. intros _. right. exists i. rewrite Z.eqb_refl. split; [lia|eauto].
    + rewrite (hw_bits _ _ _ _ _ _ _ _ _ H t Ht). split; (intros [?|(j & Hj & Hs & Hsl)]; [by left|right; exists j]).
      * rewrite (proj2 (Z.eqb_neq j i)) by lia. split; [lia|done].
      * destruct (Z.eqb_spec j i) as [->|Hji]; [congruence|]. split; [lia|done].
  - intros m Hm. rewrite Hrest.
    + apply (hw_blocks _ _ _ _ _ _ _ _ _ H). intros j Hj Hs. specialize (Hm j ltac:(lia) Hs). by rewrite (proj2 (Z.eqb_neq j i)) in Hm by lia.
    + specialize (Hm i ltac:(lia) ltac:(eauto)). by rewrite Z.eqb_refl in Hm.
  - etrans; [apply (hw_free _ _ _ _ _ _ _ _ _ H)|]. unfold dropped. destruct (kp <=? 1); cbn; lia.
  - intros j pj kj Hj Hfj Huj Hkj. destruct (decide (j = i)) as [->|Hji].
    + rewrite Hf in Hfj. injection Hfj as <-. destruct Hu as [Hu _], Huj as [Huj _]. rewrite Hu in Huj. injection Huj as ->. unfold dropped. rewrite (proj2 (Z.leb_le _ _)) by done. by left.
    + pose proof (hw_given _ _ _ _ _ _ _ _ _ H j pj kj (Hlt j Hj Hji) Hfj Huj Hkj). unfold dropped. destruct (kp <=? 1); [by right|done].
  - pose proof (hw_room _ _ _ _ _ _ _ _ _ H) as Hr. rewrite (page_passed f i Hi), Hf, (slot_taken (swapmap s1) bm' k Hk Hbk Hbit) in Hr. cbn in Hr. lia.
  - intros pj kj Huj Hno. destruct (hw_other _ _ _ _ _ _ _ _ _ H pj kj Huj Hno) as [A1 A2]. assert (Hpp : pj <> p) by (intros ->; by apply (Hno i)). split.
    + destruct A1 as [B1 B2]. split; [by rewrite dropped_other|done].
    + by rewrite (Hpw3 pj kj A1 Hpp), (N4 pj kj A1).
  - intros a Ha. rewrite Hpt3, N3; [by apply (hw_beyond _ _ _ _ _ _ _ _ _ H)|]. by apply Ha.
Qed.

(** ** [swapin] *)
Lemma release_slot bm k : bm_wf bm SWAP_SIZE -> 0 <= k < SWAP_SIZE ->
  exists bm', release_8_blocks (slot_no k) bm = Ret (tt, bm') /\ bm_wf bm' SWAP_SIZE /\ forall t, 0 <= t -> bit bm' t = if t =? k then false else bit bm t.
Proof using.
  intros Hwf Hk. destruct (bitmap_clear_Ret bm SWAP_SIZE k Hwf Hk) as (bm' & E & H). exists bm'. split; [|done]. unfold release_8_blocks, slot_no. unfold SWAP_SIZE in Hk.
  rewrite u32_small by lia. replace (SWAP_START + k * 8 - SWAP_START) with (k * 8) by lia. by rewrite Z.div_mul.
Qed.

(** The pages from [i] on are in their slots, those before are back. [U] are
    the slots in use for other pages. *)
Record coming (s : pst St) (g : ghost) (v : gmap Z bytes) (U : Z -> Prop) (sl : Z -> Z) (cont : Z -> option (list Z)) (i : Z) (s1 : pst St) (g1 : ghost) : Prop := {
  ci_state : exists m c bm, s1 = set_swapmap bm (set_pmem m (set_bst c s));
  ci_idle : sc_idle (bst s1) v;
  ci_inv : pt_inv lo (pmem s1) g1 pt T;
  ci_bm : bm_wf (swapmap s1) SWAP_SIZE;
  ci_zero : zero_page (pmem s1) = zero_page (pmem s);
  ci_slot : forall j c, i <= j < turns b e -> cont j = Some c -> pte_of (pmem s1) T (va j) = slot_no (sl j) * PAGE_SIZE;
  ci_back : forall j c, 0 <= j < i -> cont j = Some c -> exists p, pte_of (pmem s1) T (va j) = K2P p + PTE_USER_DATA /\ table_of (K2P p + PTE_USER_DATA) = p /\
    user_page T g1 p 1 /\ page_words (pmem s1) p = c;
  ci_none : forall j, 0 <= j < turns b e -> cont j = None -> pte_of (pmem s1) T (va j) = 0;
  ci_bits : forall t, 0 <= t -> bit (swapmap s1) t = true <-> U t \/ exists j, i <= j < turns b e /\ is_Some (cont j) /\ sl j = t;
  ci_free : Z.of_nat (length (gfree g)) <= i + Z.of_nat (length (gfree g1));
  ci_other : forall p k, user_page T g p k -> user_page T g1 p k /\ page_words (pmem s1) p = page_words (pmem s) p;
  ci_beyond : forall a, beyond a -> pte_of (pmem s1) T a = pte_of (pmem s) T a
}.

(** What the slots hold. *)
Record in_slots (v : gmap Z bytes) (U : Z -> Prop) (sl : Z -> Z) (cont : Z -> option (list Z)) : Prop := {
  is_slot : forall j c, 0 <= j < turns b e -> cont j = Some c -> 0 <= sl j < SWAP_SIZE /\ ~ U (sl j) /\ slot_holds v (sl j) (unwords 8 c) /\ length c = 512%nat /\ Forall (word_ok 8) c;
  is_inj : forall j j' c c', 0 <= j < turns b e -> 0 <= j' < turns b e -> cont j = Some c -> cont j' = Some c' -> sl j = sl j' -> j = j'
}.

Context (children : Z -> list Z) (zombie : Z -> bool) (root_proc : Z) (depth : nat).
Abbreviation swapin_turn := (swapin_turn kend children zombie root_proc depth pd).

Lemma swapin_none s g v U sl cont i s1 g1 : 0 <= i < turns b e -> coming s g v U sl cont i s1 g1 -> cont i = None -> coming s g v U sl cont (i + 1) s1 g1.
Proof using.
  intros Hi [] Hc. split; try done.
  - intros j c Hj. apply ci_slot0. lia.
  - intros j c Hj Hs. apply ci_back0; [|done]. assert (j <> i) by (intros ->; congruence). lia.
  - intros t Ht. rewrite (ci_bits0 t Ht). split; (intros [?|(j & Hj & [c Hs] & <-)]; [by left|right; exists j]).
    + assert (j <> i) by (intros ->; congruence). split; [lia|eauto].
    + split; [lia|eauto].
  - lia.
Qed.

Lemma swapin_one s g d v U sl cont i s1 g1 c :
  space kend pd s g d T -> Paging.pt d = pt -> in_slots v U sl cont -> 0 <= i < turns b e -> REVERSED_PAGES + turns b e < Z.of_nat (length (gfree g)) ->
  coming s g v U sl cont i s1 g1 -> cont i = Some c ->
  exists s2 g2, swapin_turn (va i) s1 = Ret (tt, s2) /\ coming s g v U sl cont (i + 1) s2 g2.
Proof using Hb He.
  intros Hsp Hpt Hin Hi Hroom H Hc. pose proof (ci_inv _ _ _ _ _ _ _ _ _ H) as HP1. pose proof (ci_slot _ _ _ _ _ _ _ _ _ H i c ltac:(lia) Hc) as Ee.
  destruct (is_slot _ _ _ _ Hin i c Hi Hc) as (Hk & HU & Hh & Hcl & Hcw). set (k := sl i) in *. assert (Hsn : 0 < slot_no k * PAGE_SIZE < 2 ^ 32) by (unfold slot_no, SWAP_START, SWAP_SIZE, PAGE_SIZE in *; lia).
  assert (Hq : is_Some (T !! path (va i))) by (destruct (T !! path (va i)) eqn:Eq; [eauto|unfold pte_of in Ee; rewrite Eq in Ee; lia]). destruct Hq as [q Hq].
  assert (Hs1 : space kend pd s1 g1 d T) by (split; [destruct (ci_state _ _ _ _ _ _ _ _ _ H) as (m & c' & bm & ->); apply (sp_dir _ _ _ _ _ _ Hsp)|by rewrite Hpt]).
  pose proof (ci_free _ _ _ _ _ _ _ _ _ H) as Hfr. unfold REVERSED_PAGES in Hroom. destruct (gfree g1) as [|ka l] eqn:Ef; [cbn in Hfr; lia|].
  destruct (alloc_user kend children zombie root_proc depth pd s1 g1 d T ka l Hs1 Ef) as (m1 & E1 & Hs2 & Hu1 & Hw1 & Hz1); [rewrite Ef; unfold REVERSED_PAGES; lia|].
  set (g2 := hold_page ka l g1) in *. set (s2 := set_pmem m1 s1) in *. pose proof (sp_pt _ _ _ _ _ _ Hs2) as HP2. rewrite Hpt in HP2. change (pmem s2) with m1 in HP2.
  destruct (release_slot (swapmap s1) k (ci_bm _ _ _ _ _ _ _ _ _ H) Hk) as (bm' & Er & Hwf' & Hbit).
  destruct (read_page_spec lo pt T g2 ka 0 s2 v k (unwords 8 c) bm' HP2 Hu1 (ci_idle _ _ _ _ _ _ _ _ _ H) Hk ltac:(by rewrite unwords_length, Hcl) (unwords_ok _ _) Hh Er) as (m2 & c2 & E2 & Hc2 & [S1 S2 S3 S4] & Hz2).
  rewrite (words_of_page c Hcl Hcw) in S2. set (s3 := set_swapmap bm' (set_pmem m2 (set_bst c2 s2))) in *.
  assert (Hs3 : space kend pd s3 g2 d T) by (split; [apply (sp_dir _ _ _ _ _ _ Hs1)|by rewrite Hpt]).
  destruct (vmmap_here kend pd s3 g2 d T (va i) ka PTE_USER_DATA 0 q Hs3 Hq Hu1) as (m3 & E3 & [N1 N2 N3 N4] & Ht & Hu3 & Hz3); [vm_compute; split; congruence|]. rewrite Hpt in N1. change (pmem s3) with m2 in *.
  assert (Hpte1 : forall a, pte_of m1 T a = pte_of (pmem s1) T a) by (intros a; unfold pte_of; by rewrite Hw1). assert (Hpw1 : forall p, page_words m1 p = page_words (pmem s1) p) by (intros p; unfold page_words; by rewrite Hw1).
  exists (set_pmem m3 s3), (count_page ka (0 + 1) g2). split.
  { unfold Paging.swapin_turn. rewrite (bind_Ret _ _ _ _ _ (get_pte_here kend pd s1 g1 d T (va i) false q Hs1 Hq)), (entry_ptr_pos kend s1 g1 d T pd (va i) q Hs1 Hq). cbn [negb when].
    rewrite (bind_Ret _ _ _ _ _ (rd_pte_here kend pd s1 g1 d T (va i) q Hs1 Hq)), Ee, (proj2 (Z.eqb_neq (slot_no k * PAGE_SIZE) 0)) by lia. cbn [negb when].
    rewrite (bind_Ret _ _ _ _ _ E1), (bind_Ret _ _ _ _ _ (rd_pte_here kend pd s2 g2 d T (va i) q Hs2 Hq)). change (pmem s2) with m1. rewrite Hpte1, Ee.
    replace (u32 (Z.shiftr (slot_no k * PAGE_SIZE) 12)) with (slot_no k).
    2: { rewrite Z.shiftr_div_pow2 by lia. change (2 ^ 12) with PAGE_SIZE. rewrite Z.div_mul by (unfold PAGE_SIZE; lia). symmetry. apply u32_small. unfold PAGE_SIZE in Hsn. lia. }
    rewrite (bind_Ret _ _ _ _ _ E2). exact E3. }
  assert (Hne : forall j, 0 <= j < turns b e -> j <> i -> ~ same_page (va j) (va i)) by (intros j Hj Hji E; by apply Hji, (pages_apart_va b e)).
  assert (Hpt3 : forall a, ~ same_page a (va i) -> pte_of m3 T a = pte_of (pmem s1) T a) by (intros a Ha; by rewrite (N3 a Ha), S3, Hpte1).
  assert (Hkeep : forall p n, user_page T g1 p n -> user_page T (count_page ka (0 + 1) g2) p n /\ page_words m3 p = page_words (pmem s1) p).
  { intros p n Hp. assert (Hpk : p <> ka) by (intros ->; destruct (i_sep _ _ _ (p_mem _ _ _ _ _ HP1) ka ltac:(rewrite Ef; by left)); destruct Hp; congruence).
    assert (Hp2 : user_page T g2 p n) by (destruct Hp; split; [unfold g2; cbn; by rewrite lookup_insert_ne|done]).
    assert (Hp3 : user_page T (count_page ka (0 + 1) g2) p n) by (destruct Hp2; split; [cbn; by rewrite lookup_insert_ne|done]). split; [done|]. by rewrite (N4 p n Hp3), (S4 p n Hp2 Hpk), Hpw1. }
  split; change (pmem (set_pmem m3 s3)) with m3; change (swapmap (set_pmem m3 s3)) with bm'; change (bst (set_pmem m3 s3)) with c2.
  - destruct (ci_state _ _ _ _ _ _ _ _ _ H) as (m & c' & bm & ->). by exists m3, c2, bm'.
  - done.
  - done.
  - done.
  - rewrite Hz3, Hz2. change (pmem s2) with m1. rewrite Hz1. apply (ci_zero _ _ _ _ _ _ _ _ _ H).
  - intros j cj Hj Hcj. rewrite Hpt3 by (apply Hne; lia). apply (ci_slot _ _ _ _ _ _ _ _ _ H j cj); [lia|done].
  - intros j cj Hj Hcj. destruct (decide (j = i)) as [->|Hji].
    + exists ka. rewrite N2 by done. split; [done|]. split; [done|]. split; [done|]. rewrite Hc in Hcj. injection Hcj as <-. by rewrite (N4 ka 1 Hu3).
    + destruct (ci_back _ _ _ _ _ _ _ _ _ H j cj ltac:(lia) Hcj) as (p & A1 & A2 & A3 & A4). exists p. destruct (Hkeep p 1 A3) as [B1 B2]. rewrite Hpt3 by (apply Hne; lia). split; [done|]. split; [done|]. split; [done|]. by rewrite B2.
  - intros j Hj Hcj. rewrite Hpt3; [by apply (ci_none _ _ _ _ _ _ _ _ _ H)|]. apply Hne; [done|]. intros ->. congruence.
  - intros t Htt. rewrite (Hbit t Htt). destruct (Z.eqb_spec t k) as [->|Htk].
    + split; [done|]. intros [?|(j & Hj & [cj Hcj] & Hsl)]; [done|]. assert (j = i) by (eapply (is_inj _ _ _ _ Hin j i cj c); [lia|lia|done|done|done]). lia.
    + rewrite (ci_bits _ _ _ _ _ _ _ _ _ H t Htt). split; (intros [?|(j & Hj & Hs & Hsl)]; [by left|right; exists j]).
      * assert (j <> i) by (intros ->; by apply Htk). split; [lia|done].
      * split; [lia|done].
  - unfold g2. cbn in Hfr |- *. lia.
  - intros p n Hp. destruct (ci_other _ _ _ _ _ _ _ _ _ H p n Hp) as [A1 A2]. destruct (Hkeep p n A1) as [B1 B2]. split; [done|]. by rewrite B2.
  - intros a Ha. rewrite Hpt3 by (by apply Ha). by apply (ci_beyond _ _ _ _ _ _ _ _ _ H).
Qed.

(** ** The two calls *)
Lemma swapout_pages s g d v f :
  KSPACE_MASK <= kend -> space kend pd s g d T -> Paging.pt d = pt -> sc_idle (bst s) v -> (forall k, 0 <= k < SWAP_SIZE -> slot_there v k) -> bm_wf (swapmap s) SWAP_SIZE ->
  resident (pmem s) g f -> (size (pages_left f 0) <= size (free_slots (swapmap s)))%nat ->
  exists s' g' v' sl, for_pages b e (swapout_turn kend pd) s = Ret (tt, s') /\ halfway s g v f (turns b e) s' g' v' sl.
Proof using Hb He.
  intros Hk Hsp Hpt Hv Hth Hwf Hres Hroom. pose proof (sp_pt _ _ _ _ _ _ Hsp) as HP. rewrite Hpt in HP.
  destruct (for_pages_inv (fun i s1 => exists g1 v1 sl, halfway s g v f i s1 g1 v1 sl) b e (swapout_turn kend pd) s Hb He) as (s' & E & g' & v' & sl & H); [| |by exists s', g', v', sl].
  - exists g, v, (fun _ => 0). split; try (done || (intros; lia)).
    + exists (pmem s), (bst s), (swapmap s). by destruct s as [? ? ? [[] ? ? ?] ?].
    + intros j Hj Hf. by apply (rs_none _ _ _ Hres).
    + intros t Ht. split; [by left|]. intros [?|(j & Hj & _)]; [done|lia].
  - intros i s1 Hi (g1 & v1 & sl & H). destruct (f i) as [p|] eqn:Hf.
    + destruct (swapout_one s g d v f i s1 g1 v1 sl p Hk Hsp Hpt Hth Hres Hi H Hf) as (s2 & g2 & v2 & sl' & E & H2). eauto 8.
    + exists s1. split; [|exists g1, v1, sl; by apply swapout_none].
      assert (Hs1 : space kend pd s1 g1 d T) by (split; [destruct (hw_state _ _ _ _ _ _ _ _ _ H) as (m & c & bm & ->); apply (sp_dir _ _ _ _ _ _ Hsp)|rewrite Hpt; apply (hw_inv _ _ _ _ _ _ _ _ _ H)]).
      unfold swapout_turn. destruct (T !! path (va i)) as [q|] eqn:Hq.
      * rewrite (bind_Ret _ _ _ _ _ (get_pte_here kend pd s1 g1 d T (va i) false q Hs1 Hq)), (entry_ptr_pos kend s1 g1 d T pd (va i) q Hs1 Hq). cbn [negb when].
        rewrite (bind_Ret _ _ _ _ _ (rd_pte_here kend pd s1 g1 d T (va i) q Hs1 Hq)), (hw_none _ _ _ _ _ _ _ _ _ H i Hi Hf). done.
      * by rewrite (bind_Ret _ _ _ _ _ (get_pte_none kend pd s1 g1 d T (va i) Hs1 Hq)).
Qed.

Lemma swapin_pages s g d v U sl cont :
  space kend pd s g d T -> Paging.pt d = pt -> sc_idle (bst s) v -> bm_wf (swapmap s) SWAP_SIZE -> in_slots v U sl cont -> REVERSED_PAGES + turns b e < Z.of_nat (length (gfree g)) ->
  (forall j c, 0 <= j < turns b e -> cont j = Some c -> pte_of (pmem s) T (va j) = slot_no (sl j) * PAGE_SIZE) -> (forall j, 0 <= j < turns b e -> cont j = None -> pte_of (pmem s) T (va j) = 0) ->
  (forall t, 0 <= t -> bit (swapmap s) t = true <-> U t \/ exists j, 0 <= j < turns b e /\ is_Some (cont j) /\ sl j = t) ->
  exists s' g', for_pages b e swapin_turn s = Ret (tt, s') /\ coming s g v U sl cont (turns b e) s' g'.
Proof using Hb He.
  intros Hsp Hpt Hv Hwf Hin Hroom Hs Hn Hbits. pose proof (sp_pt _ _ _ _ _ _ Hsp) as HP. rewrite Hpt in HP.
  destruct (for_pages_inv (fun i s1 => exists g1, coming s g v U sl cont i s1 g1) b e swapin_turn s Hb He) as (s' & E & g' & H); [| |by exists s', g'].
  - exists g. split; try (done || (intros; lia)). exists (pmem s), (bst s), (swapmap s). by destruct s as [? ? ? [[] ? ? ?] ?].
  - intros i s1 Hi (g1 & H). destruct (cont i) as [c|] eqn:Hc.
    + destruct (swapin_one s g d v U sl cont i s1 g1 c Hsp Hpt Hin Hi Hroom H Hc) as (s2 & g2 & E & H2). eauto.
    + exists s1. split; [|exists g1; by apply swapin_none].
      assert (Hs1 : space kend pd s1 g1 d T) by (split; [destruct (ci_state _ _ _ _ _ _ _ _ _ H) as (m & c & bm & ->); apply (sp_dir _ _ _ _ _ _ Hsp)|rewrite Hpt; apply (ci_inv _ _ _ _ _ _ _ _ _ H)]).
      unfold Paging.swapin_turn. destruct (T !! path (va i)) as [q|] eqn:Hq.
      * rewrite (bind_Ret _ _ _ _ _ (get_pte_here kend pd s1 g1 d T (va i) false q Hs1 Hq)), (entry_ptr_pos kend s1 g1 d T pd (va i) q Hs1 Hq). cbn [negb when].
        rewrite (bind_Ret _ _ _ _ _ (rd_pte_here kend pd s1 g1 d T (va i) q Hs1 Hq)), (ci_none _ _ _ _ _ _ _ _ _ H i Hi Hc). done.
      * by rewrite (bind_Ret _ _ _ _ _ (get_pte_none kend pd s1 g1 d T (va i) Hs1 Hq)).
Qed.
End pages.
