(* ===== verification/SwapCalls.v ===== *)
(** * [swapout] and [swapin] as a whole (kernel/paging.c)

    The two calls with what they do to the section and to the locks, and the
    round trip of the pages of a section through the disk. *)
From stdpp Require Import base gmap list.
From Stdlib Require Import ZArith Lia.
From S2P Require Import Prelude Bytes Bitmap BCache BCacheCrash BCacheSteps BCacheProps BlockStore BCacheStore CString Console Inode InodeProps Mkfs MkfsProps MkfsRoot Pipe File Mmu LockFree Mem PT Sections Paging PagingMem PagingProps Swap SwapProps.

Section calls.
Context {St : Type} {BC : BlockCache St} {SC : SwapCache St} (kend : Z).
Context (children : Z -> list Z) (zombie : Z -> bool) (root_proc : Z) (depth : nat).
Abbreviation lo := (PAGE_BASE kend + PAGE_SIZE).
Abbreviation pst := (pst St).

(** ** Sections and address spaces *)
Lemma find_upd a f l v : find_vma a l = Some v -> (forall w, at_ (f w) = at_ w) -> find_vma a ((fun w => if at_ w =? a then f w else w) <$> l) = Some (f v).
Proof using.
  intros H Hf. unfold find_vma in *. induction l as [|w l IH]; [done|]. rewrite fmap_cons, filter_cons. rewrite filter_cons in H. destruct (Z.eqb_spec (at_ w) a) as [E|E].
  - rewrite decide_True in H by done. injection H as ->. by rewrite decide_True by by rewrite Hf.
  - rewrite decide_False in H by done. rewrite decide_False by done. by apply IH.
Qed.

Lemma find_upd_ne a a' f l : a' <> a -> (forall w, at_ (f w) = at_ w) -> find_vma a' ((fun w => if at_ w =? a then f w else w) <$> l) = find_vma a' l.
Proof using.
  intros H Hf. unfold find_vma. induction l as [|w l IH]; [done|]. rewrite fmap_cons, !filter_cons. destruct (Z.eqb_spec (at_ w) a) as [E|E].
  - rewrite !decide_False by (rewrite ?Hf; congruence). done.
  - destruct (decide (at_ w = a')); [done|done].
Qed.

(** [d'] is [d] with the section [v] at [a]. *)
Record redone (a : Z) (v : vma) (d d' : pgdir) : Prop := {
  rd_pt : pt d' = pt d;
  rd_here : find_vma a (section_head d') = Some v;
  rd_other : forall a', a' <> a -> find_vma a' (section_head d') = find_vma a' (section_head d)
}.

Lemma redone_refl a v d : find_vma a (section_head d) = Some v -> redone a v d d.
Proof using. by split. Qed.

Lemma redone_trans a v v' d d' d'' : redone a v d d' -> redone a v' d' d'' -> redone a v' d d''.
Proof using. intros [A1 A2 A3] [B1 B2 B3]. split; [congruence|done|]. intros a' Ha. by rewrite B3, A3. Qed.

Lemma redone_eq a v d d' e e' : pt e = pt d -> section_head e = section_head d -> pt e' = pt d' -> section_head e' = section_head d' -> redone a v d d' -> redone a v e e'.
Proof using. intros H1 H2 H3 H4 [A1 A2 A3]. split; [congruence|by rewrite H4|]. intros x Hx. rewrite H4, H2. by apply A3. Qed.

Lemma redone_upd a v d f : find_vma a (section_head d) = Some v -> (forall w, at_ (f w) = at_ w) ->
  redone a (f v) d (set_section_head (fmap (fun w => if at_ w =? a then f w else w)) d).
Proof using. intros H Hf. split; [done|by apply find_upd|]. intros a' Ha. by apply find_upd_ne. Qed.

Lemma update_dir_Ret pd (s : pst) d f : dirs s !! pd = Some d -> update_dir pd f s = Ret (tt, set_dirs (insert pd (f d)) s).
Proof using. intros H. unfold update_dir. by rewrite H. Qed.

Lemma load_vma_Ret pd a (s : pst) d v : dirs s !! pd = Some d -> find_vma a (section_head d) = Some v -> load_vma pd a s = Ret (v, s).
Proof using. intros H Hv. unfold load_vma. rewrite (bind_Ret _ _ _ _ _ (load_dir_Ret pd s d H)), Hv. done. Qed.

Lemma update_vma_Ret pd a (s : pst) d v f : dirs s !! pd = Some d -> find_vma a (section_head d) = Some v -> (forall w, at_ (f w) = at_ w) ->
  exists d', update_vma pd a f s = Ret (tt, set_dirs (insert pd d') s) /\ redone a (f v) d d' /\ pd_lock d' = pd_lock d /\ online d' = online d.
Proof using. intros H Hv Hf. eexists. split; [by apply update_dir_Ret|]. split; [by apply redone_upd|done]. Qed.

Lemma acquire_slock_Ret pd a (s : pst) d v : dirs s !! pd = Some d -> find_vma a (section_head d) = Some v -> 0 < slock v ->
  exists d', acquire_slock pd a s = Ret (tt, set_dirs (insert pd d') s) /\ redone a (set_slock (slock v - 1) v) d d' /\ pd_lock d' = pd_lock d /\ online d' = online d.
Proof using.
  intros H Hv Hl. destruct (update_vma_Ret pd a s d v (set_slock (slock v - 1)) H Hv ltac:(done)) as (d' & E & Hr). exists d'. split; [|done].
  unfold acquire_slock. rewrite (bind_Ret _ _ _ _ _ (load_vma_Ret pd a s d v H Hv)), (proj2 (Z.ltb_ge _ _)) by lia. exact E.
Qed.

Lemma set_dirs_set pd (d d' : pgdir) (s : pst) : set_dirs (insert pd d') (set_dirs (insert pd d) s) = set_dirs (insert pd d') s.
Proof using. unfold set_dirs. cbn. by rewrite insert_insert_eq. Qed.

Lemma lookup_set_dirs pd (d : pgdir) (s : pst) : dirs (set_dirs (insert pd d) s) !! pd = Some d.
Proof using. cbn. apply lookup_insert_eq. Qed.

Lemma flags_restored f : 0 <= f < 2 ^ 64 -> Z.land f ST_SWAP = 0 -> Z.land (Z.lor f ST_SWAP) ST_SWAP <> 0 /\ Z.land (Z.lor f ST_SWAP) (u64 (Z.lnot ST_SWAP)) = f.
Proof using.
  intros Hf H. change ST_SWAP with 2 in *. split.
  - intros E. assert (Hb : Z.testbit (Z.land (Z.lor f 2) 2) 1 = true) by by rewrite Z.land_spec, Z.lor_spec, orb_true_r. by rewrite E in Hb.
  - change (u64 (Z.lnot 2)) with (Z.lnot 2 mod 2 ^ 64). apply Z.bits_inj'. intros t Ht. rewrite Z.land_spec, Z.lor_spec. destruct (Z.ltb_spec t 64) as [Hlt|Hge].
    + rewrite Z.mod_pow2_bits_low, Z.lnot_spec by lia. assert (Hl : Z.testbit (Z.land f 2) t = false) by (rewrite H; apply Z.bits_0). rewrite Z.land_spec in Hl. destruct (Z.testbit f t), (Z.testbit 2 t); done.
    + rewrite Z.mod_pow2_bits_high by lia. rewrite andb_false_r. rewrite <- (Z.mod_small f (2 ^ 64)) by lia. by rewrite Z.mod_pow2_bits_high by lia.
Qed.

Lemma space_pmem pd (s : pst) g d T m g' : space kend pd s g d T -> pt_inv lo m g' (pt d) T -> space kend pd (set_pmem m s) g' d T.
Proof using. intros [H _] Hp. by split. Qed.

Lemma space_dirs pd (s : pst) g d T d' : space kend pd s g d T -> pt d' = pt d -> space kend pd (set_dirs (insert pd d') s) g d' T.
Proof using. intros [H Hp] Hpt. split; [apply lookup_set_dirs|by rewrite Hpt]. Qed.

(** ** [swapout] *)
Record away (T : tables) (b e : Z) (s : pst) (g : ghost) (bv : gmap Z bytes) (f : Z -> option Z) (s1 : pst) (g1 : ghost) (bv1 : gmap Z bytes) (sl : Z -> Z) : Prop := {
  aw_idle : sc_idle (bst s1) bv1;
  aw_bm : bm_wf (swapmap s1) SWAP_SIZE;
  aw_zero : zero_page (pmem s1) = zero_page (pmem s);
  aw_done : forall j p, 0 <= j < turns b e -> f j = Some p -> pte_of (pmem s1) T (page_at b j) = slot_no (sl j) * PAGE_SIZE /\ 0 <= sl j < SWAP_SIZE /\
    bit (swapmap s) (sl j) = false /\ slot_holds bv1 (sl j) (unwords 8 (page_words (pmem s) p)) /\ forall k, user_page T g p k -> k <= 1 -> p ∈ gfree g1;
  aw_none : forall j, 0 <= j < turns b e -> f j = None -> pte_of (pmem s1) T (page_at b j) = 0;
  aw_inj : forall j j' p p', 0 <= j < turns b e -> 0 <= j' < turns b e -> f j = Some p -> f j' = Some p' -> sl j = sl j' -> j = j';
  aw_bits : forall t, 0 <= t -> bit (swapmap s1) t = true <-> bit (swapmap s) t = true \/ exists j, 0 <= j < turns b e /\ is_Some (f j) /\ sl j = t;
  aw_blocks : forall m, (forall k, 0 <= k < SWAP_SIZE -> bit (swapmap s) k = false -> ~ in_slot k m) -> bv1 !! m = bv !! m;
  aw_free : (length (gfree g) <= length (gfree g1))%nat;
  aw_other : forall p k, user_page T g p k -> (forall j, 0 <= j < turns b e -> f j <> Some p) -> user_page T g1 p k /\ page_words (pmem s1) p = page_words (pmem s) p;
  aw_beyond : forall a, beyond b e a -> pte_of (pmem s1) T a = pte_of (pmem s) T a
}.

(** A section that can be swapped out. *)
Record swappable (pd a : Z) (s : pst) (g : ghost) (d : pgdir) (T : tables) (v : vma) (f : Z -> option Z) (bv : gmap Z bytes) : Prop := {
  sw_kend : KSPACE_MASK <= kend;
  sw_space : space kend pd s g d T;
  sw_vma : find_vma a (section_head d) = Some v;
  sw_flags : 0 <= flags (sec v) < 2 ^ 64 /\ has (sec v) ST_SWAP = false /\ has (sec v) ST_FILE = false;
  sw_lock : 0 < slock v;
  sw_range : 0 <= begin (sec v) <= end_ (sec v) /\ end_ (sec v) <= 2 ^ 48;
  sw_res : resident T (begin (sec v)) (end_ (sec v)) (pmem s) g f;
  sw_idle : sc_idle (bst s) bv;
  sw_slots : forall k, 0 <= k < SWAP_SIZE -> slot_there bv k;
  sw_bm : bm_wf (swapmap s) SWAP_SIZE;
  sw_room : (size (pages_left (begin (sec v)) (end_ (sec v)) f 0) <= size (free_slots (swapmap s)))%nat
}.

Definition swapped_flags (v : vma) : vma := set_sec (set_flags (Z.lor (flags (sec v)) ST_SWAP)) v.

Lemma set_slock_back v w : set_slock (slock (set_slock (slock v - 1) w) + 1) (set_slock (slock v - 1) w) = set_slock (slock v) w.
Proof using. destruct v as [? ? l], w. unfold set_slock. cbn. f_equal. lia. Qed.

Lemma swapout_spec pd a s g d T v f bv : swappable pd a s g d T v f bv ->
  exists s1 g1 d1 bv1 sl, swapout kend pd a s = Ret (tt, s1) /\ space kend pd s1 g1 d1 T /\ redone a (swapped_flags v) d d1 /\ online d1 = true /\ pd_lock d1 = false /\
    away T (begin (sec v)) (end_ (sec v)) s g bv f s1 g1 bv1 sl.
Proof using.
  intros [Hk Hsp Hv (Hf1 & Hf2 & Hf3) Hl [Hb He] Hres Hbv Hth Hwf Hroom]. set (b := begin (sec v)) in *. set (e := end_ (sec v)) in *. pose proof (sp_dir _ _ _ _ _ _ Hsp) as Hd.
  destruct (update_vma_Ret pd a s d v (set_sec (set_flags (Z.lor (flags (sec v)) ST_SWAP))) Hd Hv ltac:(done)) as (d1 & E1 & R1 & _). set (s1 := set_dirs (insert pd d1) s) in *.
  set (d2 := set_online true d1). set (s2 := set_dirs (insert pd d2) s).
  assert (E2 : update_dir pd (set_online true) s1 = Ret (tt, s2)) by (rewrite (update_dir_Ret pd s1 d1 _ (lookup_set_dirs pd d1 s)); unfold s1; by rewrite set_dirs_set).
  assert (Hp2 : pt d2 = pt d) by apply (rd_pt _ _ _ _ R1). pose proof (space_dirs pd s g d T d2 Hsp Hp2) as Hsp2.
  destruct (invalidate_run kend (pt d) T b e Hb He pd s2 g d2 f Hsp2 Hp2 Hres) as (m & E3 & [C1 C2 C3 C4 C5]). set (s3 := set_pmem m s2) in *. change (pmem s2) with (pmem s) in *.
  assert (Hd3 : dirs s3 !! pd = Some d2) by apply lookup_set_dirs. assert (Hv2 : find_vma a (section_head d2) = Some (swapped_flags v)) by apply (rd_here _ _ _ _ R1).
  destruct (acquire_slock_Ret pd a s3 d2 (swapped_flags v) Hd3 Hv2 Hl) as (d4 & E4 & R4 & L4 & O4). set (s4 := set_dirs (insert pd d4) s3) in *.
  set (d5 := set_pd_lock false d4). set (s5 := set_dirs (insert pd d5) s3).
  assert (E5 : release_pd pd s4 = Ret (tt, s5)) by (unfold release_pd; rewrite (update_dir_Ret pd s4 d4 _ (lookup_set_dirs pd d4 s3)); unfold s4; by rewrite set_dirs_set).
  assert (Hp5 : pt d5 = pt d) by (change (pt d5) with (pt d4); by rewrite (rd_pt _ _ _ _ R4)).
  assert (Hsp5 : space kend pd s5 g d5 T) by (split; [apply lookup_set_dirs|rewrite Hp5; exact C1]).
  destruct (swapout_pages kend (pt d) T b e Hb He pd s5 g d5 bv f Hk Hsp5 Hp5 Hbv Hth Hwf C2 Hroom) as (s6 & g6 & bv6 & sl & E6 & H6). change (pmem s5) with m in *.
  assert (Hd6 : dirs s6 !! pd = Some d5) by (destruct (hw_state _ _ _ _ _ _ _ _ _ _ _ _ _ _ H6) as (m' & c' & bm' & ->); apply lookup_set_dirs).
  destruct (update_vma_Ret pd a s6 d5 (set_slock (slock v - 1) (swapped_flags v)) (fun v => set_slock (slock v + 1) v) Hd6 (rd_here _ _ _ _ R4) ltac:(done)) as (d7 & E7 & R7 & L7 & O7).
  set (s7 := set_dirs (insert pd d7) s6) in *. exists s7, g6, d7, bv6, sl. split; [|split; [|split; [|split; [|split]]]].
  - unfold swapout. rewrite (bind_Ret _ _ _ _ _ (load_vma_Ret pd a s d v Hd Hv)), Hf2. rewrite (bind_Ret (assert (negb false)) _ s tt s eq_refl), (bind_Ret _ _ _ _ _ E1), (bind_Ret _ _ _ _ _ E2).
    cbv zeta. fold b e. rewrite (bind_Ret _ _ _ _ _ E3), (bind_Ret _ _ _ _ _ E4), (bind_Ret _ _ _ _ _ E5), Hf3, (bind_Ret _ _ _ _ _ E6). exact E7.
  - split; [apply lookup_set_dirs|]. rewrite (rd_pt _ _ _ _ R7), Hp5. apply (hw_inv _ _ _ _ _ _ _ _ _ _ _ _ _ _ H6).
  - rewrite set_slock_back in R7. assert (E : set_slock (slock v) (swapped_flags v) = swapped_flags v) by by destruct v. rewrite E in R7.
    apply (redone_trans a (swapped_flags v) _ d d2); [by apply (redone_eq a _ d d1)|]. apply (redone_trans a _ _ d2 d4 d7 R4). by apply (redone_eq a _ d5 d7).
  - rewrite O7. change (online d5) with (online d4). by rewrite O4.
  - by rewrite L7.
  - split; try (apply H6).
    + change (pmem s7) with (pmem s6). rewrite (hw_zero _ _ _ _ _ _ _ _ _ _ _ _ _ _ H6). exact C3.
    + intros j p Hj Hfj. destruct (hw_done _ _ _ _ _ _ _ _ _ _ _ _ _ _ H6 j p Hj Hfj) as (A1 & A2 & A3 & A4). destruct (rs_some _ _ _ _ _ _ Hres j p Hj Hfj) as (_ & k & _ & _ & Hu & _).
      change (pmem s5) with m in A4. rewrite (C4 p k Hu) in A4. split; [done|]. split; [done|]. split; [done|]. split; [done|]. intros k' Hk' Hle. by apply (hw_given _ _ _ _ _ _ _ _ _ _ _ _ _ _ H6 j p k').
    + intros x Hx. apply (hw_blocks _ _ _ _ _ _ _ _ _ _ _ _ _ _ H6). intros j Hj [p Hfj]. destruct (hw_done _ _ _ _ _ _ _ _ _ _ _ _ _ _ H6 j p Hj Hfj) as (_ & A2 & A3 & _). by apply Hx.
    + intros p k Hu Hno. destruct (hw_other _ _ _ _ _ _ _ _ _ _ _ _ _ _ H6 p k Hu Hno) as [A1 A2]. split; [done|]. change (pmem s7) with (pmem s6). rewrite A2. by apply (C4 p k).
    + intros x Hx. change (pmem s7) with (pmem s6). rewrite (hw_beyond _ _ _ _ _ _ _ _ _ _ _ _ _ _ H6 x Hx). by apply C5.
Qed.

(** ** [swapin] *)
Abbreviation swapin := (swapin kend children zombie root_proc depth).

Lemma swapin_spec pd a s g d T v bv U sl cont :
  let b := begin (sec v) in let e := end_ (sec v) in
  space kend pd s g d T -> find_vma a (section_head d) = Some v -> has (sec v) ST_SWAP = true -> 0 < slock v -> 0 <= b <= e -> e <= 2 ^ 48 ->
  sc_idle (bst s) bv -> bm_wf (swapmap s) SWAP_SIZE -> in_slots b e bv U sl cont -> REVERSED_PAGES + turns b e < Z.of_nat (length (gfree g)) ->
  (forall j c, 0 <= j < turns b e -> cont j = Some c -> pte_of (pmem s) T (page_at b j) = slot_no (sl j) * PAGE_SIZE) ->
  (forall j, 0 <= j < turns b e -> cont j = None -> pte_of (pmem s) T (page_at b j) = 0) ->
  (forall t, 0 <= t -> bit (swapmap s) t = true <-> U t \/ exists j, 0 <= j < turns b e /\ is_Some (cont j) /\ sl j = t) ->
  exists s' g' d' s0 s1, swapin pd a s = Ret (tt, s') /\ space kend pd s' g' d' T /\
    redone a (set_sec (fun x => set_flags (Z.land (flags x) (u64 (Z.lnot ST_SWAP))) x) v) d d' /\
    coming kend (pt d) T b e s0 g bv U sl cont (turns b e) s1 g' /\ pmem s0 = pmem s /\ pmem s' = pmem s1 /\ swapmap s' = swapmap s1 /\ bst s' = bst s1.
Proof using.
  intros b e Hsp Hv Hf Hl Hb He Hbv Hwf Hin Hroom H1 H2 H3. pose proof (sp_dir _ _ _ _ _ _ Hsp) as Hd.
  destruct (acquire_slock_Ret pd a s d v Hd Hv Hl) as (d1 & E1 & R1 & L1 & O1). set (s1 := set_dirs (insert pd d1) s) in *. pose proof (rd_pt _ _ _ _ R1) as Hp1.
  pose proof (space_dirs pd s g d T d1 Hsp Hp1) as Hsp1.
  destruct (swapin_pages kend (pt d) T b e Hb He pd children zombie root_proc depth s1 g d1 bv U sl cont Hsp1 Hp1 Hbv Hwf Hin Hroom H1 H2 H3) as (s2 & g2 & E2 & C2).
  assert (Hd2 : dirs s2 !! pd = Some d1) by (destruct (ci_state _ _ _ _ _ _ _ _ _ _ _ _ _ _ C2) as (m & c & bm & ->); apply lookup_set_dirs).
  destruct (update_vma_Ret pd a s2 d1 (set_slock (slock v - 1) v) (fun v => set_slock (slock v + 1) v) Hd2 (rd_here _ _ _ _ R1) ltac:(done)) as (d3 & E3 & R3 & _). set (s3 := set_dirs (insert pd d3) s2) in *.
  rewrite set_slock_back in R3. assert (E : set_slock (slock v) v = v) by by destruct v. rewrite E in R3.
  destruct (update_vma_Ret pd a s3 d3 v (set_sec (fun x => set_flags (Z.land (flags x) (u64 (Z.lnot ST_SWAP))) x)) (lookup_set_dirs pd d3 s2) (rd_here _ _ _ _ R3) ltac:(done)) as (d4 & E4 & R4 & _).
  exists (set_dirs (insert pd d4) s3), g2, d4, s1, s2. split; [|split; [|split; [|done]]].
  - unfold Paging.swapin. rewrite (bind_Ret _ _ _ _ _ (load_vma_Ret pd a s d v Hd Hv)), Hf, (bind_Ret (assert true) _ s tt s eq_refl), (bind_Ret _ _ _ _ _ E1), (bind_Ret _ _ _ _ _ E2).
    unfold release_slock. rewrite (bind_Ret _ _ _ _ _ E3). exact E4.
  - split; [apply lookup_set_dirs|]. rewrite (rd_pt _ _ _ _ R4), (rd_pt _ _ _ _ R3), Hp1. apply (ci_inv _ _ _ _ _ _ _ _ _ _ _ _ _ _ C2).
  - apply (redone_trans a _ _ d d1 d4 R1). by apply (redone_trans a _ _ d1 d3 d4 R3).
Qed.

(** C6: A section survives the trip to the disk. With a free slot for each of
    its pages and pages enough for the way back, [swapout] gives all pages of
    the section away: no entry of the section is valid, a page nobody else
    uses is free. [swapin] then returns too, and brings every page back: each
    is a page of the process alone with the content it had, the section is
    what it was, the slots are free again, blocks outside of the free slots
    have not changed, and neither have the entries outside of the section and
    the content of all other pages in use. *)
Theorem swap_round_trip pd a s g d T v f bv :
  swappable pd a s g d T v f bv -> let b := begin (sec v) in let e := end_ (sec v) in
  REVERSED_PAGES + turns b e < Z.of_nat (length (gfree g)) ->
  exists s1 g1 d1 s2 g2 d2 bv2, swapout kend pd a s = Ret (tt, s1) /\ swapin pd a s1 = Ret (tt, s2) /\
    space kend pd s1 g1 d1 T /\ space kend pd s2 g2 d2 T /\
    (forall j, 0 <= j < turns b e -> valid (pte_of (pmem s1) T (page_at b j)) = false) /\
    (forall j p, 0 <= j < turns b e -> f j = Some p -> user_page T g p 1 -> p ∈ gfree g1) /\
    (forall j p, 0 <= j < turns b e -> f j = Some p -> exists p', pte_of (pmem s2) T (page_at b j) = K2P p' + PTE_USER_DATA /\ table_of (K2P p' + PTE_USER_DATA) = p' /\
       user_page T g2 p' 1 /\ page_words (pmem s2) p' = page_words (pmem s) p) /\
    (forall j, 0 <= j < turns b e -> f j = None -> pte_of (pmem s2) T (page_at b j) = 0) /\
    redone a v d d2 /\ (forall t, 0 <= t -> bit (swapmap s2) t = bit (swapmap s) t) /\
    sc_idle (bst s2) bv2 /\ (forall m, (forall k, 0 <= k < SWAP_SIZE -> bit (swapmap s) k = false -> ~ in_slot k m) -> bv2 !! m = bv !! m) /\
    (forall x, beyond b e x -> pte_of (pmem s2) T x = pte_of (pmem s) T x) /\
    (forall p k, user_page T g p k -> (forall j, 0 <= j < turns b e -> f j <> Some p) -> user_page T g2 p k /\ page_words (pmem s2) p = page_words (pmem s) p).
Proof using.
  intros Hs b e Hroom. destruct (swapout_spec pd a s g d T v f bv Hs) as (s1 & g1 & d1 & bv1 & sl & E1 & Hsp1 & R1 & _ & _ & W).
  change (away T b e s g bv f s1 g1 bv1 sl) in W.
  pose proof Hs as [Hk Hsp Hv (Hf1 & Hf2 & Hf3) Hl [Hb He] Hres Hbv Hth Hwf _]. unfold has in Hf2. apply negb_false_iff, Z.eqb_eq in Hf2. destruct (flags_restored (flags (sec v)) Hf1 Hf2) as [Hfl1 Hfl2].
  set (cont := fun j => page_words (pmem s) <$> f j). set (U := fun t => bit (swapmap s) t = true).
  assert (Hc : forall j c, cont j = Some c -> exists p, f j = Some p /\ c = page_words (pmem s) p) by (unfold cont; intros j c Hj; destruct (f j) as [p|]; [injection Hj as <-; eauto|done]).
  destruct (swapin_spec pd a s1 g1 d1 T (swapped_flags v) bv1 U sl cont Hsp1 (rd_here _ _ _ _ R1)) as (s2 & g2 & d2 & s0 & s2' & E2 & Hsp2 & R2 & C & Em0 & Em & Esw & Ebst).
  - unfold has. cbn. apply negb_true_iff, Z.eqb_neq. exact Hfl1.
  - exact Hl.
  - exact Hb.
  - exact He.
  - apply W.
  - apply W.
  - split.
    + intros j c Hj (p & Hfj & ->)%Hc. destruct (aw_done _ _ _ _ _ _ _ _ _ _ _ W j p Hj Hfj) as (_ & A2 & A3 & A4 & _). destruct (rs_some _ _ _ _ _ _ Hres j p Hj Hfj) as (_ & _ & _ & _ & _ & _ & _ & Hw).
      split; [done|]. split; [unfold U; congruence|]. split; [done|]. split; [apply page_words_length|exact Hw].
    + intros j j' c c' Hj Hj' (p & Hfj & _)%Hc (p' & Hfj' & _)%Hc. by apply (aw_inj _ _ _ _ _ _ _ _ _ _ _ W j j' p p').
  - pose proof (aw_free _ _ _ _ _ _ _ _ _ _ _ W). change (REVERSED_PAGES + turns b e < Z.of_nat (length (gfree g1))). lia.
  - intros j c Hj (p & Hfj & _)%Hc. by apply (aw_done _ _ _ _ _ _ _ _ _ _ _ W j p Hj Hfj).
  - intros j Hj Hcj. apply (aw_none _ _ _ _ _ _ _ _ _ _ _ W j Hj). unfold cont in Hcj. by destruct (f j).
  - intros t Ht. rewrite (aw_bits _ _ _ _ _ _ _ _ _ _ _ W t Ht). unfold U, cont. by setoid_rewrite fmap_is_Some.
  - change (begin (sec (swapped_flags v))) with b in C. change (end_ (sec (swapped_flags v))) with e in C.
    exists s1, g1, d1, s2, g2, d2, bv1. split; [done|]. split; [done|]. split; [done|]. split; [done|]. split; [|split; [|split; [|split; [|split; [|split; [|split; [|split; [|split]]]]]]]].
    + intros j Hj. destruct (f j) as [p|] eqn:Hfj; [|by rewrite (aw_none _ _ _ _ _ _ _ _ _ _ _ W j Hj Hfj)].
      destruct (aw_done _ _ _ _ _ _ _ _ _ _ _ W j p Hj Hfj) as (-> & _). unfold valid, PTE_VALID. change 1 with (Z.ones 1). rewrite Z.land_ones by lia. change (2 ^ 1) with 2.
      replace (slot_no (sl j) * PAGE_SIZE) with (slot_no (sl j) * 2048 * 2) by (unfold PAGE_SIZE; lia). by rewrite Z_mod_mult.
    + intros j p Hj Hfj Hu. by apply (aw_done _ _ _ _ _ _ _ _ _ _ _ W j p Hj Hfj) with 1.
    + intros j p Hj Hfj. rewrite Em. apply (ci_back _ _ _ _ _ _ _ _ _ _ _ _ _ _ C j _ Hj). unfold cont. by rewrite Hfj.
    + intros j Hj Hfj. rewrite Em. apply (ci_none _ _ _ _ _ _ _ _ _ _ _ _ _ _ C j Hj). unfold cont. by rewrite Hfj.
    + apply (redone_trans a _ _ d d1 d2 R1). replace v with (set_sec (fun x => set_flags (Z.land (flags x) (u64 (Z.lnot ST_SWAP))) x) (swapped_flags v)); [exact R2|].
      destruct v as [? [] ?]. unfold set_sec, set_flags, swapped_flags in *. cbn in *. by rewrite Hfl2.
    + intros t Ht. rewrite Esw. apply eq_true_iff_eq. rewrite (ci_bits _ _ _ _ _ _ _ _ _ _ _ _ _ _ C t Ht). unfold U. split; [intros [?|(j & Hj & _)]; [done|lia]|by left].
    + rewrite Ebst. apply (ci_idle _ _ _ _ _ _ _ _ _ _ _ _ _ _ C).
    + apply W.
    + intros x Hx. rewrite Em, (ci_beyond _ _ _ _ _ _ _ _ _ _ _ _ _ _ C x Hx), Em0. by apply (aw_beyond _ _ _ _ _ _ _ _ _ _ _ W).
    + intros p k Hu Hno. destruct (aw_other _ _ _ _ _ _ _ _ _ _ _ W p k Hu Hno) as [A1 A2]. destruct (ci_other _ _ _ _ _ _ _ _ _ _ _ _ _ _ C p k ltac:(done)) as [B1 B2].
      split; [done|]. by rewrite Em, B2, Em0.
Qed.
End calls.

(** ** An example: a heap of one page, over a freshly formatted disk *)
Lemma formatted : exists s, base s /\ forall b, 2 <= b < 65 -> gv s !! b = Some zero_block.
Proof.
  destruct (zero_sectors 1000 0 start ltac:(lia)) as (m0 & _ & Hm0).
  assert (H : finv (set_img (insert 1 (splice 0 (sb_bytes sb) zero_block)) (set_img (fun _ => m0) (set_freeblock nmeta start))) []).
  { apply (format_spec (fun _ => m0) start); [done|]. intros j. rewrite Hm0. cbn [img start]. rewrite lookup_empty. unfold FSSIZE.
    destruct (decide (Z.of_nat 0 <= j < Z.of_nat (0 + 1000))), (decide (0 <= j < 1000)); (lia || done). }
  eexists. split; [apply (fi_base _ _ H)|apply (fi_log _ _ H)].
Qed.

Lemma swap_area : exists dk, (exists cs, cache_idle sb cs (mounted sb dk)) /\ forall k, 0 <= k < SWAP_SIZE -> slot_there (mounted sb dk) k.
Proof.
  destruct formatted as (s & Hb & Hlog). exists (gv s). split.
  - destruct (@mount_idle sb ex_kalloc (gv s) (image_disk_wf s Hb Hlog)) as (cs & _ & H). eauto.
  - intros k Hk i Hi. unfold slot_no, SWAP_START, SWAP_SIZE in *. rewrite mounted_ne, gv_ne by lia. apply (bs_dom s Hb). unfold FSSIZE. lia.
Qed.

Definition sw_heap : vma := mkVma 77 (mkSection ST_HEAP pg_addr (pg_addr + 0x1000) 0 0 0) 1.
Definition sw_state (m : mem_st) (pt : Z) (cs : bcst) : pst bcst :=
  mkPst m {[1 := mkPgdir pt true [sw_heap] false]} [5] (mkFst (mkIst cs ∅ [] ex_cons 0) [] false ∅) 0.

Lemma swap_round_trip_witness :
  exists s s1 s2 p', @swapout bcst (@bcache sb ex_kalloc) pg_kend 1 77 s = Ret (tt, s1) /\ @swapin bcst (@bcache sb ex_kalloc) pg_kend (fun _ => []) (fun _ => false) 0 1 1 77 s1 = Ret (tt, s2) /\
    page_words (pmem s2) p' = page_words (pmem s) pg_page.
Proof.
  destruct swap_area as (dk & (cs & Hidle) & Hslots).
  destruct (pg_mapped PTE_USER_DATA) as (m & g & pt & T & HP & He & Ht & Hu & Hw & Hz & Hl & _); [vm_compute; split; congruence|].
  set (f := fun i : Z => if i =? 0 then Some pg_page else None).
  destruct (@swap_round_trip bcst (@bcache sb ex_kalloc) (@bcache_swap sb ex_kalloc) pg_kend (fun _ => []) (fun _ => false) 0 1 1 77 (sw_state m pt cs) g (mkPgdir pt true [sw_heap] false) T sw_heap f (mounted sb dk))
    as (s1 & g1 & d1 & s2 & g2 & d2 & bv2 & E1 & E2 & _ & _ & _ & _ & Hback & _).
  - split.
    + vm_compute. discriminate.
    + split; [apply lookup_singleton_eq|exact HP].
    + reflexivity.
    + split; [split; [vm_compute; discriminate|vm_compute; reflexivity]|split; reflexivity].
    + reflexivity.
    + split; [split|]; vm_compute; discriminate.
    + split.
      * intros i Hi. change (turns _ _) with 1 in Hi. replace i with 0 by lia. discriminate.
      * intros i p Hi. change (turns _ _) with 1 in Hi. replace i with 0 by lia. intros [= <-]. exists PTE_USER_DATA, 1. split; [exact He|]. split; [vm_compute; split; congruence|]. split; [exact Hu|]. split; [lia|]. split; [exact Hz|exact Hw].
      * intros i j p Hi Hj. change (turns _ _) with 1 in Hi, Hj. lia.
    + exact Hidle.
    + exact Hslots.
    + split; [reflexivity|repeat constructor; lia].
    + vm_compute. lia.
  - change (turns _ _) with 1. unfold REVERSED_PAGES. lia.
  - destruct (Hback 0 pg_page) as (p' & _ & _ & _ & Hpw); [split; [lia|vm_compute; reflexivity]|reflexivity|]. exists (sw_state m pt cs), s1, s2, p'. split; [exact E1|]. split; [exact E2|exact Hpw].
Defined.
