(* ===== verification/Emmc.v ===== *)
(** * Commands and waits of the SD controller (driver/sddef.h)

    The registers of the controller are hardware: the class [Emmc] reads and
    writes them on a state [C], which may move on by itself with every access
    and with the time spent in [delay_us]. Messages have no effect, but the
    registers they print are read. A command is named by its index in
    [sdCommandTable]. *)
From stdpp Require Import base gmap list strings.
From Stdlib Require Import ZArith Lia.
From S2P Require Import Prelude Bytes.

(** Offsets of the registers from [MMIO_BASE]. *)
Definition EMMC_BLKSIZECNT := 0x00300004.
Definition EMMC_ARG1 := 0x00300008.
Definition EMMC_CMDTM := 0x0030000C.
Definition EMMC_RESP0 := 0x00300010.
Definition EMMC_RESP1 := 0x00300014.
Definition EMMC_RESP2 := 0x00300018.
Definition EMMC_RESP3 := 0x0030001C.
Definition EMMC_DATA := 0x00300020.
Definition EMMC_STATUS := 0x00300024.
Definition EMMC_CONTROL1 := 0x0030002C.
Definition EMMC_INTERRUPT := 0x00300030.

Definition CMD_IS_DATA := 0x00200000.
Definition CMD_RSPNS_NO := 0x00000000.
Definition CMD_RSPNS_136 := 0x00010000.
Definition CMD_RSPNS_48 := 0x00020000.
Definition CMD_RSPNS_48B := 0x00030000.
Definition TM_MULTI_BLOCK := 0x00000020.
Definition TM_DAT_DIR_HC := 0x00000000.
Definition TM_DAT_DIR_CH := 0x00000010.
Definition TM_BLKCNT_EN := 0x00000002.
Definition TM_MULTI_DATA := Z.lor (Z.lor CMD_IS_DATA TM_MULTI_BLOCK) TM_BLKCNT_EN.

Definition INT_AUTO_ERROR := 0x01000000.
Definition INT_DATA_END_ERR := 0x00400000.
Definition INT_DATA_CRC_ERR := 0x00200000.
Definition INT_DATA_TIMEOUT := 0x00100000.
Definition INT_INDEX_ERROR := 0x00080000.
Definition INT_END_ERROR := 0x00040000.
Definition INT_CRC_ERROR := 0x00020000.
Definition INT_CMD_TIMEOUT := 0x00010000.
Definition INT_ERR := 0x00008000.
Definition INT_READ_RDY := 0x00000020.
Definition INT_WRITE_RDY := 0x00000010.
Definition INT_DATA_DONE := 0x00000002.
Definition INT_CMD_DONE := 0x00000001.
Definition INT_ERROR_MASK :=
  Z.lor (Z.lor (Z.lor (Z.lor (Z.lor (Z.lor (Z.lor INT_CRC_ERROR INT_END_ERROR) INT_INDEX_ERROR) INT_DATA_TIMEOUT) INT_DATA_CRC_ERR) INT_DATA_END_ERR) INT_ERR) INT_AUTO_ERROR.

Definition SR_READ_AVAILABLE := 0x00000800.
Definition SR_DAT_INHIBIT := 0x00000002.
Definition SR_CMD_INHIBIT := 0x00000001.

Definition ST_APP_CMD := 0x00000020.
Definition ST_CARD_STATE := 0x00001e00.
Definition R1_CARD_STATE_SHIFT := 9.
Definition R1_ERRORS_MASK := 0xfff9c004.
Definition R6_RCA_MASK := 0xffff0000.

Definition SCR_SD_BUS_WIDTH_1 := 0x00000100.
Definition SCR_SD_BUS_WIDTH_4 := 0x00000400.
Definition SCR_CMD_SUPP_SET_BLKCNT := 0x02000000.
Definition SCR_CMD_SUPP_SPEED_CLASS := 0x01000000.
Definition SD_SUPP_SET_BLOCK_COUNT := 0x80000000.
Definition SD_SUPP_SPEED_CLASS := 0x40000000.
Definition SD_SUPP_BUS_WIDTH_4 := 0x20000000.
Definition SD_SUPP_BUS_WIDTH_1 := 0x10000000.

Definition SD_OK := 0.
Definition SD_ERROR := 1.
Definition SD_TIMEOUT := 2.
Definition SD_BUSY := 3.
Definition SD_ERROR_APP_CMD := 9.

(** ** The table of commands *)
Inductive resp_kind := RESP_NO | RESP_R1 | RESP_R1b | RESP_R2I | RESP_R2S | RESP_R3 | RESP_R6 | RESP_R7.
Inductive rca_kind := RCA_NO | RCA_YES.
Record EMMCCommand := mkCommand { name : string; code : Z; resp : resp_kind; rca_of : rca_kind; delay : Z }.

Definition sdCommandTable : list EMMCCommand := [
  mkCommand "GO_IDLE_STATE" (Z.lor 0x00000000 CMD_RSPNS_NO) RESP_NO RCA_NO 0;
  mkCommand "ALL_SEND_CID" (Z.lor 0x02000000 CMD_RSPNS_136) RESP_R2I RCA_NO 0;
  mkCommand "SEND_REL_ADDR" (Z.lor 0x03000000 CMD_RSPNS_48) RESP_R6 RCA_NO 0;
  mkCommand "SET_DSR" (Z.lor 0x04000000 CMD_RSPNS_NO) RESP_NO RCA_NO 0;
  mkCommand "SWITCH_FUNC" (Z.lor 0x06000000 CMD_RSPNS_48) RESP_R1 RCA_NO 0;
  mkCommand "CARD_SELECT" (Z.lor 0x07000000 CMD_RSPNS_48B) RESP_R1b RCA_YES 0;
  mkCommand "SEND_IF_COND" (Z.lor 0x08000000 CMD_RSPNS_48) RESP_R7 RCA_NO 100;
  mkCommand "SEND_CSD" (Z.lor 0x09000000 CMD_RSPNS_136) RESP_R2S RCA_YES 0;
  mkCommand "SEND_CID" (Z.lor 0x0A000000 CMD_RSPNS_136) RESP_R2I RCA_YES 0;
  mkCommand "VOLT_SWITCH" (Z.lor 0x0B000000 CMD_RSPNS_48) RESP_R1 RCA_NO 0;
  mkCommand "STOP_TRANS" (Z.lor 0x0C000000 CMD_RSPNS_48B) RESP_R1b RCA_NO 0;
  mkCommand "SEND_STATUS" (Z.lor 0x0D000000 CMD_RSPNS_48) RESP_R1 RCA_YES 0;
  mkCommand "GO_INACTIVE" (Z.lor 0x0F000000 CMD_RSPNS_NO) RESP_NO RCA_YES 0;
  mkCommand "SET_BLOCKLEN" (Z.lor 0x10000000 CMD_RSPNS_48) RESP_R1 RCA_NO 0;
  mkCommand "READ_SINGLE" (Z.lor (Z.lor (Z.lor 0x11000000 CMD_RSPNS_48) CMD_IS_DATA) TM_DAT_DIR_CH) RESP_R1 RCA_NO 0;
  mkCommand "READ_MULTI" (Z.lor (Z.lor (Z.lor 0x12000000 CMD_RSPNS_48) TM_MULTI_DATA) TM_DAT_DIR_CH) RESP_R1 RCA_NO 0;
  mkCommand "SEND_TUNING" (Z.lor 0x13000000 CMD_RSPNS_48) RESP_R1 RCA_NO 0;
  mkCommand "SPEED_CLASS" (Z.lor 0x14000000 CMD_RSPNS_48B) RESP_R1b RCA_NO 0;
  mkCommand "SET_BLOCKCNT" (Z.lor 0x17000000 CMD_RSPNS_48) RESP_R1 RCA_NO 0;
  mkCommand "WRITE_SINGLE" (Z.lor (Z.lor (Z.lor 0x18000000 CMD_RSPNS_48) CMD_IS_DATA) TM_DAT_DIR_HC) RESP_R1 RCA_NO 0;
  mkCommand "WRITE_MULTI" (Z.lor (Z.lor (Z.lor 0x19000000 CMD_RSPNS_48) TM_MULTI_DATA) TM_DAT_DIR_HC) RESP_R1 RCA_NO 0;
  mkCommand "PROGRAM_CSD" (Z.lor 0x1B000000 CMD_RSPNS_48) RESP_R1 RCA_NO 0;
  mkCommand "SET_WRITE_PR" (Z.lor 0x1C000000 CMD_RSPNS_48B) RESP_R1b RCA_NO 0;
  mkCommand "CLR_WRITE_PR" (Z.lor 0x1D000000 CMD_RSPNS_48B) RESP_R1b RCA_NO 0;
  mkCommand "SND_WRITE_PR" (Z.lor 0x1E000000 CMD_RSPNS_48) RESP_R1 RCA_NO 0;
  mkCommand "ERASE_WR_ST" (Z.lor 0x20000000 CMD_RSPNS_48) RESP_R1 RCA_NO 0;
  mkCommand "ERASE_WR_END" (Z.lor 0x21000000 CMD_RSPNS_48) RESP_R1 RCA_NO 0;
  mkCommand "ERASE" (Z.lor 0x26000000 CMD_RSPNS_48B) RESP_R1b RCA_NO 0;
  mkCommand "LOCK_UNLOCK" (Z.lor 0x2A000000 CMD_RSPNS_48) RESP_R1 RCA_NO 0;
  mkCommand "APP_CMD" (Z.lor 0x37000000 CMD_RSPNS_NO) RESP_NO RCA_NO 100;
  mkCommand "APP_CMD" (Z.lor 0x37000000 CMD_RSPNS_48) RESP_R1 RCA_YES 0;
  mkCommand "GEN_CMD" (Z.lor 0x38000000 CMD_RSPNS_48) RESP_R1 RCA_NO 0;
  mkCommand "SET_BUS_WIDTH" (Z.lor 0x06000000 CMD_RSPNS_48) RESP_R1 RCA_NO 0;
  mkCommand "SD_STATUS" (Z.lor 0x0D000000 CMD_RSPNS_48) RESP_R1 RCA_YES 0;
  mkCommand "SEND_NUM_WRBL" (Z.lor 0x16000000 CMD_RSPNS_48) RESP_R1 RCA_NO 0;
  mkCommand "SEND_NUM_ERS" (Z.lor 0x17000000 CMD_RSPNS_48) RESP_R1 RCA_NO 0;
  mkCommand "SD_SENDOPCOND" (Z.lor 0x29000000 CMD_RSPNS_48) RESP_R3 RCA_NO 1000;
  mkCommand "SET_CLR_DET" (Z.lor 0x2A000000 CMD_RSPNS_48) RESP_R1 RCA_NO 0;
  mkCommand "SEND_SCR" (Z.lor (Z.lor (Z.lor 0x33000000 CMD_RSPNS_48) CMD_IS_DATA) TM_DAT_DIR_CH) RESP_R1 RCA_NO 0 ].

Definition IX_READ_SINGLE := 14.
Definition IX_WRITE_SINGLE := 19.
Definition IX_APP_CMD := 29.
Definition IX_APP_CMD_RCA := 30.
Definition IX_APP_CMD_START := 32.
Definition IX_SEND_SCR := 38.

(** ** The state *)
Class Emmc (C : Type) := {
  reg_read : Z -> M C Z;
  reg_write : Z -> Z -> M C unit;
  delay_us : Z -> M C unit
}.

Record SDDescriptor := mkSD {
  cid : list Z; csd : list Z; scr : list Z; ocr : Z; support : Z; sd_type : Z;
  rca : Z; cardState : Z; status : Z; lastCmd : Z; lastArg : Z
}.

Definition set_cid (l : list Z) (d : SDDescriptor) : SDDescriptor := mkSD l (csd d) (scr d) (ocr d) (support d) (sd_type d) (rca d) (cardState d) (status d) (lastCmd d) (lastArg d).
Definition set_csd (l : list Z) (d : SDDescriptor) : SDDescriptor := mkSD (cid d) l (scr d) (ocr d) (support d) (sd_type d) (rca d) (cardState d) (status d) (lastCmd d) (lastArg d).
Definition set_scr (l : list Z) (d : SDDescriptor) : SDDescriptor := mkSD (cid d) (csd d) l (ocr d) (support d) (sd_type d) (rca d) (cardState d) (status d) (lastCmd d) (lastArg d).
Definition set_ocr (v : Z) (d : SDDescriptor) : SDDescriptor := mkSD (cid d) (csd d) (scr d) v (support d) (sd_type d) (rca d) (cardState d) (status d) (lastCmd d) (lastArg d).
Definition set_support (v : Z) (d : SDDescriptor) : SDDescriptor := mkSD (cid d) (csd d) (scr d) (ocr d) v (sd_type d) (rca d) (cardState d) (status d) (lastCmd d) (lastArg d).
Definition set_rca (v : Z) (d : SDDescriptor) : SDDescriptor := mkSD (cid d) (csd d) (scr d) (ocr d) (support d) (sd_type d) v (cardState d) (status d) (lastCmd d) (lastArg d).
Definition set_cardState (v : Z) (d : SDDescriptor) : SDDescriptor := mkSD (cid d) (csd d) (scr d) (ocr d) (support d) (sd_type d) (rca d) v (status d) (lastCmd d) (lastArg d).
Definition set_status (v : Z) (d : SDDescriptor) : SDDescriptor := mkSD (cid d) (csd d) (scr d) (ocr d) (support d) (sd_type d) (rca d) (cardState d) v (lastCmd d) (lastArg d).
Definition set_last (c a : Z) (d : SDDescriptor) : SDDescriptor := mkSD (cid d) (csd d) (scr d) (ocr d) (support d) (sd_type d) (rca d) (cardState d) (status d) c a.

Definition any (v mask : Z) : bool := negb (Z.land v mask =? 0).

Section code.
Context {C : Type} {E : Emmc C}.

Record emmc_st := mkEmmc { dev : C; sdCard : SDDescriptor }.

Definition rd (r : Z) : M emmc_st Z := zoom dev (fun c s => mkEmmc c (sdCard s)) (reg_read r).
Definition wr (r v : Z) : M emmc_st unit := zoom dev (fun c s => mkEmmc c (sdCard s)) (reg_write r v).
Definition set_card (f : SDDescriptor -> SDDescriptor) : M emmc_st unit := modify (fun s => mkEmmc (dev s) (f (sdCard s))).

Definition sd_delayus (c : Z) : M emmc_st unit := zoom dev (fun d s => mkEmmc d (sdCard s)) (delay_us (u32 (c * 3))).

(** The registers that a message about an error prints. *)
Definition printed (l : list Z) : M emmc_st unit := foldr (fun r m => rd r ;;; m) (ret tt) l.

Definition sdDebugResponse (resp : Z) : M emmc_st Z :=
  printed [EMMC_RESP3; EMMC_RESP2; EMMC_RESP1; EMMC_RESP0; EMMC_STATUS; EMMC_CONTROL1; EMMC_INTERRUPT] ;;; ret resp.

(** ** Waiting *)
Definition wait_count : Z := 1000000.

(** [while(c && count--) sd_delayus(1)]: the count is -1 after the loop gave up. *)
Definition wait_turn (c : M emmc_st bool) (count : Z) : M emmc_st (Z + Z) :=
  b <- c ;;
  if negb b then ret (inr count)
  else if count =? 0 then ret (inr (-1))
  else sd_delayus 1 ;;; ret (inl (count - 1)).
Definition wait_while (c : M emmc_st bool) (count : Z) : M emmc_st Z :=
  while (S (Z.to_nat count)) (wait_turn c) count.

Definition sdWaitForInterrupt (mask : Z) : M emmc_st Z :=
  let waitMask := i32 (Z.lor mask INT_ERROR_MASK) in
  count <- wait_while (v <- rd EMMC_INTERRUPT ;; ret (negb (any v (u32 waitMask)))) wait_count ;;
  v <- rd EMMC_INTERRUPT ;;
  let ival := i32 v in
  if (count <=? 0) || any ival INT_CMD_TIMEOUT || any ival INT_DATA_TIMEOUT then
    wr EMMC_INTERRUPT (u32 ival) ;;; ret SD_TIMEOUT
  else if any ival INT_ERROR_MASK then
    printed [EMMC_STATUS; EMMC_RESP0] ;;; wr EMMC_INTERRUPT (u32 ival) ;;; ret SD_ERROR
  else wr EMMC_INTERRUPT mask ;;; ret SD_OK.

Definition busy (inhibit : Z) : M emmc_st bool :=
  s <- rd EMMC_STATUS ;;
  if any s inhibit then i <- rd EMMC_INTERRUPT ;; ret (negb (any i INT_ERROR_MASK)) else ret false.

Definition sdWaitForCommand : M emmc_st Z :=
  count <- wait_while (busy SR_CMD_INHIBIT) wait_count ;;
  failed <- (if count <=? 0 then ret true else i <- rd EMMC_INTERRUPT ;; ret (any i INT_ERROR_MASK)) ;;
  if failed : bool then printed [EMMC_STATUS; EMMC_INTERRUPT; EMMC_RESP0] ;;; ret SD_BUSY else ret SD_OK.

(** Here the count goes up, and is tested before the body. *)
Definition data_turn (count : Z) : M emmc_st (Z + Z) :=
  b <- busy SR_DAT_INHIBIT ;;
  if negb b then ret (inr count)
  else let count := count + 1 in
       if count <? 500000 then sd_delayus 1 ;;; ret (inl count) else ret (inr count).
Definition sdWaitForData : M emmc_st Z :=
  count <- while (Z.to_nat 500001) data_turn 0 ;;
  failed <- (if 500000 <=? count then ret true else i <- rd EMMC_INTERRUPT ;; ret (any i INT_ERROR_MASK)) ;;
  if failed : bool then printed [EMMC_STATUS; EMMC_INTERRUPT; EMMC_RESP0] ;;; ret SD_BUSY else ret SD_OK.

(** ** Sending commands *)
Definition store_state (resp0 : Z) : M emmc_st unit :=
  set_card (set_cardState (u32 (Z.shiftr (Z.land resp0 ST_CARD_STATE) R1_CARD_STATE_SHIFT))).

Definition handle_resp (k : resp_kind) (arg resp0 : Z) : M emmc_st Z :=
  match k with
  | RESP_NO => ret SD_OK
  | RESP_R1 | RESP_R1b =>
      set_card (set_status (u32 resp0)) ;;; store_state resp0 ;;; ret (Z.land resp0 (i32 R1_ERRORS_MASK))
  | RESP_R2I | RESP_R2S =>
      set_card (set_status 0) ;;;
      d0 <- rd EMMC_RESP3 ;; d1 <- rd EMMC_RESP2 ;; d2 <- rd EMMC_RESP1 ;;
      let data := [d0; d1; d2; u32 resp0] in
      set_card (match k with RESP_R2I => set_cid data | _ => set_csd data end) ;;; ret SD_OK
  | RESP_R3 => set_card (set_status 0) ;;; set_card (set_ocr (u32 resp0)) ;;; ret SD_OK
  | RESP_R6 =>
      set_card (set_rca (Z.land (u32 resp0) R6_RCA_MASK)) ;;;
      let st := Z.lor (Z.lor (Z.lor (Z.land resp0 0x00001fff) (Z.shiftl (Z.land resp0 0x00002000) 6))
                  (Z.shiftl (Z.land resp0 0x00004000) 8)) (Z.shiftl (Z.land resp0 0x00008000) 8) in
      set_card (set_status st) ;;; store_state resp0 ;;; ret (i32 (Z.land st R1_ERRORS_MASK))
  | RESP_R7 => set_card (set_status 0) ;;; ret (if resp0 =? arg then SD_OK else SD_ERROR)
  end.

Definition sdSendCommandP (index arg : Z) : M emmc_st Z :=
  match sdCommandTable !! Z.to_nat index with
  | None => stop Fault
  | Some cmd =>
      busy <- sdWaitForCommand ;;
      if negb (busy =? 0) then ret SD_BUSY
      else
        set_card (set_last index (u32 arg)) ;;;
        v <- rd EMMC_INTERRUPT ;; wr EMMC_INTERRUPT v ;;;
        wr EMMC_ARG1 (u32 arg) ;;;
        wr EMMC_CMDTM (code cmd) ;;;
        when (negb (delay cmd =? 0)) (sd_delayus (delay cmd)) ;;;
        result <- sdWaitForInterrupt INT_CMD_DONE ;;
        if negb (result =? 0) then ret result
        else r <- rd EMMC_RESP0 ;; handle_resp (resp cmd) arg (i32 r)
  end.

Definition sdSendAppCommand : M emmc_st Z :=
  c <- gets sdCard ;;
  if rca c =? 0 then sdSendCommandP IX_APP_CMD 0 ;;; ret SD_OK
  else
    resp <- sdSendCommandP IX_APP_CMD_RCA (i32 (rca c)) ;;
    if negb (resp =? 0) then sdDebugResponse resp
    else c <- gets sdCard ;; ret (if any (status c) ST_APP_CMD then SD_OK else SD_ERROR).

(** The part that [sdSendCommand] and [sdSendCommandA] share. *)
Definition send_with (index : Z) (arg : M emmc_st Z) : M emmc_st Z :=
  resp <- (if IX_APP_CMD_START <=? index then sdSendAppCommand else ret 0) ;;
  if negb (resp =? 0) then sdDebugResponse resp
  else
    a <- arg ;;
    resp <- sdSendCommandP index a ;;
    if negb (resp =? 0) then ret resp
    else c <- gets sdCard ;;
         if (IX_APP_CMD_START <=? index) && negb (rca c =? 0) && negb (any (status c) ST_APP_CMD) then ret SD_ERROR_APP_CMD
         else ret resp.

Definition sdSendCommand (index : Z) : M emmc_st Z :=
  send_with index (
    match sdCommandTable !! Z.to_nat index with
    | None => stop Fault
    | Some cmd => c <- gets sdCard ;; ret (match rca_of cmd with RCA_YES => i32 (rca c) | RCA_NO => 0 end)
    end).
Definition sdSendCommandA (index arg : Z) : M emmc_st Z := send_with index (ret arg).

(** ** The card's configuration register *)
Definition scr_turn (st : Z * Z) : M emmc_st (Z * Z + Z) :=
  let '(numRead, count) := st in
  if numRead <? 2 then
    s <- rd EMMC_STATUS ;;
    if any s SR_READ_AVAILABLE then
      v <- rd EMMC_DATA ;;
      set_card (fun d => set_scr (<[Z.to_nat numRead := v]> (scr d)) d) ;;; ret (inl (numRead + 1, count))
    else
      sd_delayus 1 ;;;
      let count := count - 1 in
      ret (if count =? 0 then inr numRead else inl (numRead, count))
  else ret (inr numRead).
Definition add_support (bit flag : Z) : M emmc_st unit :=
  set_card (fun d => if any (default 0 (scr d !! 0%nat)) bit then set_support (Z.lor (support d) flag) d else d).
Definition sdReadSCR : M emmc_st Z :=
  w <- sdWaitForData ;;
  if negb (w =? 0) then ret SD_TIMEOUT
  else
    wr EMMC_BLKSIZECNT (Z.lor (Z.shiftl 1 16) 8) ;;;
    resp <- sdSendCommand IX_SEND_SCR ;;
    if negb (resp =? 0) then sdDebugResponse resp
    else
      resp <- sdWaitForInterrupt INT_READ_RDY ;;
      if negb (resp =? 0) then sdDebugResponse resp
      else
        numRead <- while (Z.to_nat 100003) scr_turn (0, 100000) ;;
        if negb (numRead =? 2) then printed [EMMC_STATUS; EMMC_INTERRUPT; EMMC_RESP0] ;;; ret SD_TIMEOUT
        else
          add_support SCR_SD_BUS_WIDTH_4 SD_SUPP_BUS_WIDTH_4 ;;;
          add_support SCR_SD_BUS_WIDTH_1 SD_SUPP_BUS_WIDTH_1 ;;;
          add_support SCR_CMD_SUPP_SET_BLKCNT SD_SUPP_SET_BLOCK_COUNT ;;;
          add_support SCR_CMD_SUPP_SPEED_CLASS SD_SUPP_SPEED_CLASS ;;;
          ret SD_OK.
End code.
Arguments emmc_st C : clear implicits.
Arguments mkEmmc {C} _ _.
Arguments dev {C} _.
Arguments sdCard {C} _.

(** ** The divider of the clock *)
Definition HOST_SPEC_V2 := 1.

Definition fls_step (m sh : Z) (xr : Z * Z) : Z * Z :=
  let '(x, r) := xr in if any x m then (x, r) else (u64 (Z.shiftl x sh), r - sh).
Definition fls_long (x : Z) : Z :=
  if x =? 0 then 0
  else (fls_step 0x80000000 1 (fls_step 0xc0000000 2 (fls_step 0xf0000000 4 (fls_step 0xff000000 8 (fls_step 0xffff0000 16 (x, 32)))))).2.
Definition roundup_pow_of_two (x : Z) : Z := u64 (Z.shiftl 1 (fls_long (u64 (x - 1)))).

Definition sdGetClockDivider (sdHostVer freq : Z) : Z :=
  let closest := 41666666 / freq in
  let shiftcount := fls_long (u32 (closest - 1)) in
  let shiftcount := if 0 <? shiftcount then shiftcount - 1 else shiftcount in
  let shiftcount := if 7 <? shiftcount then 7 else shiftcount in
  let divisor := if HOST_SPEC_V2 <? sdHostVer then closest else Z.shiftl 1 shiftcount in
  let divisor := if divisor <=? 2 then 2 else divisor in
  let hi := if HOST_SPEC_V2 <? sdHostVer then Z.shiftr (Z.land divisor 0x300) 2 else 0 in
  let lo := Z.land divisor 0x0ff in
  u32 (Z.shiftl lo 8 + hi).

(** * What the controller promises, and its waits and commands (driver/sddef.h)

    [EmmcLaws] states the behaviour of the hardware during transfers of single
    blocks, as its manual documents it: a command answers with [INT_CMD_DONE]
    some time later, a transfer with [INT_READ_RDY] or [INT_WRITE_RDY] and,
    after its 128 words, with [INT_DATA_DONE]; an interrupt stays set until
    its bit is written back. Times are counted in reads of the register. *)

Definition SD_TYPE_2_HC := 4.

Inductive phase :=
| Idle
| Armed (arg : Z)
| Wait (k : nat) (bit : Z) (next : phase)
| Fifo (ws : list Z)
| Sending (n : Z) (ws : list Z).

(** Time may have passed. *)
Definition later (p p' : phase) : Prop :=
  p' = p \/ exists k k' bit next, p = Wait k bit next /\ p' = Wait k' bit next /\ (k' <= k)%nat.

Definition soon (k : nat) : Prop := Z.of_nat k < wait_count.
Definition card_arg (hc : bool) (n : Z) : Z := if hc then n else Z.shiftl n 9.
Definition quiet (p : phase) : Prop := match p with Idle | Sending _ _ => True | _ => False end.

Class EmmcLaws (C : Type) {E : Emmc C} := {
  em_hc : bool;
  emmc_at : C -> phase -> gmap Z bytes -> Prop;
  em_block c p d n bs : emmc_at c p d -> d !! n = Some bs -> 0 <= n /\ card_arg em_hc n < 2 ^ 31 /\ length bs = 512%nat /\ Forall byte_ok bs;
  em_time c p d us : emmc_at c p d -> exists c' p', delay_us us c = Ret (tt, c') /\ later p p' /\ emmc_at c' p' d;
  em_free c d : emmc_at c Idle d -> exists v c', reg_read EMMC_STATUS c = Ret (v, c') /\ any v SR_CMD_INHIBIT = false /\ emmc_at c' Idle d;
  em_quiet c p d : emmc_at c p d -> quiet p -> exists c', reg_read EMMC_INTERRUPT c = Ret (0, c') /\ emmc_at c' p d;
  em_wait c k bit next d : emmc_at c (Wait (S k) bit next) d ->
    exists c' k', reg_read EMMC_INTERRUPT c = Ret (0, c') /\ (k' <= k)%nat /\ emmc_at c' (Wait k' bit next) d;
  em_raised c bit next d : emmc_at c (Wait 0 bit next) d -> exists c', reg_read EMMC_INTERRUPT c = Ret (bit, c') /\ emmc_at c' (Wait 0 bit next) d;
  em_clear c bit next d : emmc_at c (Wait 0 bit next) d -> exists c', reg_write EMMC_INTERRUPT bit c = Ret (tt, c') /\ emmc_at c' next d;
  em_clear0 c d : emmc_at c Idle d -> exists c', reg_write EMMC_INTERRUPT 0 c = Ret (tt, c') /\ emmc_at c' Idle d;
  em_resp c p d : emmc_at c p d -> exists v c' p', reg_read EMMC_RESP0 c = Ret (v, c') /\ Z.land v R1_ERRORS_MASK = 0 /\ 0 <= v < 2 ^ 32 /\ later p p' /\ emmc_at c' p' d;
  em_size c d : emmc_at c Idle d -> exists c', reg_write EMMC_BLKSIZECNT 512 c = Ret (tt, c') /\ emmc_at c' Idle d;
  em_arg c a d : emmc_at c Idle d -> exists c', reg_write EMMC_ARG1 a c = Ret (tt, c') /\ emmc_at c' (Armed a) d;
  em_read c n bs d : emmc_at c (Armed (u32 (card_arg em_hc n))) d -> d !! n = Some bs ->
    exists c' k k', reg_write EMMC_CMDTM 0x11220010 c = Ret (tt, c') /\ soon k /\ soon k' /\
      emmc_at c' (Wait k INT_CMD_DONE (Wait k' INT_READ_RDY (Fifo (words 4 128 bs)))) d;
  em_write c n bs d : emmc_at c (Armed (u32 (card_arg em_hc n))) d -> d !! n = Some bs ->
    exists c' k k', reg_write EMMC_CMDTM 0x18220000 c = Ret (tt, c') /\ soon k /\ soon k' /\
      emmc_at c' (Wait k INT_CMD_DONE (Wait k' INT_WRITE_RDY (Sending n []))) d;
  em_fifo c w ws d : emmc_at c (Fifo (w :: ws)) d ->
    exists c' k, reg_read EMMC_DATA c = Ret (w, c') /\ soon k /\
      emmc_at c' (match ws with [] => Wait k INT_DATA_DONE Idle | _ => Fifo ws end) d;
  em_send c n ws w d : emmc_at c (Sending n ws) d -> (length ws < 127)%nat -> word_ok 4 w ->
    exists c', reg_write EMMC_DATA w c = Ret (tt, c') /\ emmc_at c' (Sending n (ws ++ [w])) d;
  em_sent c n ws w d : emmc_at c (Sending n ws) d -> length ws = 127%nat -> word_ok 4 w ->
    exists c' k, reg_write EMMC_DATA w c = Ret (tt, c') /\ soon k /\
      emmc_at c' (Wait k INT_DATA_DONE Idle) (<[n := unwords 4 (ws ++ [w])]> d)
}.

Section laws.
Context {C : Type} {E : Emmc C} {L : EmmcLaws C}.
Abbreviation st := (emmc_st C).

Definition at_phase (s : st) (p : phase) (d : gmap Z bytes) : Prop := emmc_at (dev s) p d.
Definition moved (s s' : st) (p : phase) (d : gmap Z bytes) : Prop := at_phase s' p d /\ sdCard s' = sdCard s.

Lemma on_dev {A} (m : M C A) (s : st) a c' : m (dev s) = Ret (a, c') ->
  zoom dev (fun c s => mkEmmc c (sdCard s)) m s = Ret (a, mkEmmc c' (sdCard s)).
Proof. intros H. unfold zoom. by rewrite H. Qed.

Lemma later_wait k bit next p : later (Wait k bit next) p -> exists k', (k' <= k)%nat /\ p = Wait k' bit next.
Proof. intros [->|(k0 & k' & b & n & [= -> -> ->] & -> & Hk)]; [by exists k|by exists k']. Qed.

(** ** Waiting for an interrupt *)
Definition plain (bit : Z) : Prop := bit ∈ [INT_CMD_DONE; INT_READ_RDY; INT_WRITE_RDY; INT_DATA_DONE].

Lemma plain_bits bit : plain bit ->
  any bit (u32 (i32 (Z.lor bit INT_ERROR_MASK))) = true /\ i32 bit = bit /\ any bit INT_CMD_TIMEOUT = false /\ any bit INT_DATA_TIMEOUT = false /\ any bit INT_ERROR_MASK = false.
Proof. intros H. unfold plain in H. rewrite !elem_of_cons in H. destruct H as [->|[->|[->|[->|H]]]]; [by repeat split..|by apply elem_of_nil in H]. Qed.

Lemma wait_loop m k bit next d (s : st) (count : Z) n :
  any bit m = true -> at_phase s (Wait k bit next) d -> Z.of_nat k < count -> (k < n)%nat ->
  exists count' s', while n (wait_turn (v <- rd EMMC_INTERRUPT ;; ret (negb (any v m)))) count s = Ret (count', s') /\
    0 < count' /\ moved s s' (Wait 0 bit next) d.
Proof.
  intros Hb. revert k s count. induction n as [|n IH]; intros k s count Ha Hc Hn; [lia|]. cbn [while].
  destruct k as [|k].
  - destruct (em_raised _ _ _ _ Ha) as (c' & E1 & H1). exists count, (mkEmmc c' (sdCard s)). split; [|done].
    unfold wait_turn, rd, bind. rewrite (on_dev _ _ _ _ E1). unfold ret. by rewrite Hb.
  - destruct (em_wait _ _ _ _ _ Ha) as (c' & k' & E1 & Hk & H1). destruct (em_time _ _ _ (u32 (1 * 3)) H1) as (c2 & p2 & E2 & (k2 & Hk2 & ->)%later_wait & H2).
    destruct (IH k2 (mkEmmc c2 (sdCard s)) (count - 1) H2) as (count' & s' & Er & Hc' & Hm); [lia..|].
    exists count', s'. split; [|done]. rewrite <- Er. unfold wait_turn, rd, bind at 1 2 3. rewrite (on_dev _ _ _ _ E1). unfold ret at 1.
    unfold any at 1. rewrite Z.land_0_l. cbn [negb Z.eqb]. rewrite (proj2 (Z.eqb_neq count 0)) by lia.
    unfold sd_delayus, bind. rewrite (on_dev _ (mkEmmc c' (sdCard s)) _ _ E2). done.
Qed.

Lemma sdWaitForInterrupt_spec k bit next d (s : st) : plain bit -> at_phase s (Wait k bit next) d -> soon k ->
  exists s', sdWaitForInterrupt bit s = Ret (SD_OK, s') /\ moved s s' next d.
Proof.
  intros Hp Ha Hk. destruct (plain_bits bit Hp) as (H1 & H2 & H3 & H4 & H5). unfold soon in Hk.
  destruct (wait_loop (u32 (i32 (Z.lor bit INT_ERROR_MASK))) k bit next d s wait_count (S (Z.to_nat wait_count)) H1 Ha Hk ltac:(lia)) as (count & s1 & E1 & Hc & Ha1 & Hs1).
  destruct (em_raised _ _ _ _ Ha1) as (c2 & E2 & Ha2). destruct (em_clear _ _ _ _ Ha2) as (c3 & E3 & Ha3).
  exists (mkEmmc c3 (sdCard s1)). split; [|by split]. unfold sdWaitForInterrupt, wait_while. rewrite (bind_Ret _ _ _ _ _ E1).
  unfold rd at 1. rewrite (bind_Ret _ _ _ _ _ (on_dev _ _ _ _ E2)), H2, H3, H4, H5, (proj2 (Z.leb_gt count 0)) by lia. cbn [orb].
  unfold wr. by rewrite (bind_Ret _ _ _ _ _ (on_dev _ (mkEmmc c2 (sdCard s1)) _ _ E3)).
Qed.

(** ** Commands *)
Lemma sdWaitForCommand_spec d (s : st) : at_phase s Idle d -> exists s', sdWaitForCommand s = Ret (SD_OK, s') /\ moved s s' Idle d.
Proof.
  intros Ha. destruct (em_free _ _ Ha) as (v & c1 & E1 & Hv & H1). destruct (em_quiet _ _ _ H1 I) as (c2 & E2 & H2).
  exists (mkEmmc c2 (sdCard s)). split; [|done]. unfold sdWaitForCommand, wait_while. cbn [while].
  assert (Et : wait_turn (busy SR_CMD_INHIBIT) wait_count s = Ret (inr wait_count, mkEmmc c1 (sdCard s))).
  { unfold wait_turn, busy, rd, bind. rewrite (on_dev _ _ _ _ E1), Hv. done. }
  unfold bind at 1 2. rewrite Et. unfold ret at 1. change (wait_count <=? 0) with false. cbv iota. unfold rd, bind. by rewrite (on_dev _ (mkEmmc c1 _) _ _ E2).
Qed.

Definition cmd_code (write : bool) : Z := if write then 0x18220000 else 0x11220010.
Definition cmd_index (write : bool) : Z := if write then IX_WRITE_SINGLE else IX_READ_SINGLE.
Definition cmd_next (write : bool) (n : Z) (bs : bytes) (k : nat) : phase :=
  if write then Wait k INT_WRITE_RDY (Sending n []) else Wait k INT_READ_RDY (Fifo (words 4 128 bs)).

Lemma resp_ok v : 0 <= v < 2 ^ 32 -> Z.land v R1_ERRORS_MASK = 0 -> Z.land (i32 v) (i32 R1_ERRORS_MASK) = 0.
Proof.
  intros Hv H. apply Z.bits_inj'. intros i Hi. rewrite Z.land_spec, Z.bits_0.
  assert (Hb : forall a j, 0 <= a < 2 ^ 32 -> 0 <= j -> Z.testbit (i32 a) j = Z.testbit a (Z.min j 31)).
  { intros a j Ha Hj. unfold i32, wraps. change (2 ^ (32 - 1)) with 2147483648 in *. change (2 ^ 32) with 4294967296 in *.
    destruct (Z.ltb_spec a 2147483648).
    - rewrite Z.mod_small by lia. replace (a + 2147483648 - 2147483648) with a by lia.
      destruct (Z.min_spec j 31) as [[? ->]|[? ->]]; [done|].
      rewrite <- (Z.mod_small a (2 ^ 31)) by lia. by rewrite !Z.mod_pow2_bits_high by lia.
    - replace ((a + 2147483648) mod 4294967296 - 2147483648) with (a - 4294967296) by (rewrite <- (Z.mod_unique (a + 2147483648) 4294967296 1 (a - 2147483648)); lia).
      destruct (Z.ltb_spec j 32).
      + replace (Z.testbit (a - 4294967296) j) with (Z.testbit ((a - 4294967296) mod 2 ^ 32) j) by (by rewrite Z.mod_pow2_bits_low by lia).
        replace ((a - 4294967296) mod 2 ^ 32) with a by (apply Z.mod_unique with (-1); lia). f_equal. lia.
      + replace (Z.min j 31) with 31 by lia.
        assert (E1 : Z.testbit a 31 = true). { apply Z.testbit_true; [lia|]. replace (a / 2 ^ 31) with 1 by (apply Z.div_unique with (a - 2 ^ 31); lia). done. }
        rewrite E1. replace (a - 4294967296) with (Z.lnot (4294967295 - a)) by (unfold Z.lnot; lia). rewrite Z.lnot_spec by lia.
        rewrite <- (Z.mod_small (4294967295 - a) (2 ^ 32)) by lia. by rewrite Z.mod_pow2_bits_high by lia. }
  rewrite !Hb by (done || unfold R1_ERRORS_MASK; lia). rewrite <- Z.land_spec, H. apply Z.bits_0.
Qed.

Lemma send_read_write write n bs d (s : st) : at_phase s Idle d -> d !! n = Some bs ->
  exists s' k, sdSendCommandA (cmd_index write) (card_arg em_hc n) s = Ret (SD_OK, s') /\ soon k /\ at_phase s' (cmd_next write n bs k) d /\ sd_type (sdCard s') = sd_type (sdCard s).
Proof.
  intros Ha Hd. destruct (sdWaitForCommand_spec d s Ha) as (s1 & E1 & Ha1 & Hs1).
  set (s2 := mkEmmc (dev s1) (set_last (cmd_index write) (u32 (card_arg em_hc n)) (sdCard s1))).
  destruct (em_quiet _ _ _ Ha1 I) as (c3 & E3 & Ha3). destruct (em_clear0 _ _ Ha3) as (c4 & E4 & Ha4). destruct (em_arg _ (u32 (card_arg em_hc n)) _ Ha4) as (c5 & E5 & Ha5).
  assert (Hsend : exists c6 k k', reg_write EMMC_CMDTM (cmd_code write) c5 = Ret (tt, c6) /\ soon k /\ soon k' /\ emmc_at c6 (Wait k INT_CMD_DONE (cmd_next write n bs k')) d).
  { destruct write; [by eapply em_write|by eapply em_read]. }
  destruct Hsend as (c6 & k & k' & E6 & Hk & Hk' & Ha6).
  destruct (sdWaitForInterrupt_spec k INT_CMD_DONE (cmd_next write n bs k') d (mkEmmc c6 (sdCard s2))) as (s7 & E7 & Ha7 & Hs7); [by left|done|done|].
  destruct (em_resp _ _ _ Ha7) as (v & c8 & p8 & E8 & Hv & Hvb & Hl & Ha8).
  assert (Hp8 : exists k8, (k8 <= k')%nat /\ p8 = cmd_next write n bs k8) by (unfold cmd_next in Hl |- *; destruct write; by apply later_wait in Hl).
  destruct Hp8 as (k8 & Hk8 & ->).
  set (s9 := mkEmmc c8 (set_cardState (u32 (Z.shiftr (Z.land (i32 v) ST_CARD_STATE) R1_CARD_STATE_SHIFT)) (set_status (u32 (i32 v)) (sdCard s7)))).
  exists s9, k8. split; [|split; [unfold soon in *; lia|split; [done|]]].
  2: { unfold s9. cbn. rewrite Hs7. unfold s2. cbn. by rewrite Hs1. }
  unfold sdSendCommandA, send_with. assert (Ei : (IX_APP_CMD_START <=? cmd_index write) = false) by by destruct write. rewrite Ei.
  assert (EP : sdSendCommandP (cmd_index write) (card_arg em_hc n) s = Ret (SD_OK, s9)).
  { unfold sdSendCommandP. assert (Ec : exists nm, sdCommandTable !! Z.to_nat (cmd_index write) = Some (mkCommand nm (cmd_code write) RESP_R1 RCA_NO 0)) by (destruct write; eexists; reflexivity).
    destruct Ec as [nm ->]. rewrite (bind_Ret _ _ _ _ _ E1). change (negb (SD_OK =? 0)) with false. cbv iota.
    rewrite (bind_Ret (set_card _) _ s1 tt s2 eq_refl). unfold rd at 1. rewrite (bind_Ret _ _ _ _ _ (on_dev _ s2 _ _ E3)). unfold wr at 1.
    rewrite (bind_Ret _ _ _ _ _ (on_dev _ (mkEmmc c3 (sdCard s2)) _ _ E4)). unfold wr at 1. rewrite (bind_Ret _ _ _ _ _ (on_dev _ (mkEmmc c4 (sdCard s2)) _ _ E5)).
    unfold wr at 1. cbn [code]. rewrite (bind_Ret _ _ _ _ _ (on_dev _ (mkEmmc c5 (sdCard s2)) _ _ E6)).
    match goal with |- context [bind (when ?b ?m) ?k ?s] => change (bind (when b m) k s) with (k tt s) end. cbn [dev sdCard]. rewrite (bind_Ret _ _ _ _ _ E7). change (negb (SD_OK =? 0)) with false. cbv iota.
    unfold rd at 1. rewrite (bind_Ret _ _ _ _ _ (on_dev _ _ _ _ E8)). cbn [resp handle_resp]. unfold set_card, store_state, set_card, modify, bind, ret. rewrite (resp_ok v Hvb Hv). done. }
  rewrite (bind_Ret (ret 0) _ s 0 s eq_refl). change (negb (0 =? 0)) with false. cbv iota. rewrite (bind_Ret (ret _) _ s _ s eq_refl), (bind_Ret _ _ _ _ _ EP).
  change (negb (SD_OK =? 0)) with false. cbv iota. by rewrite (bind_Ret (gets sdCard) _ s9 _ s9 eq_refl).
Qed.
End laws.
