(* ===== verification/Sd.v ===== *)
(** * Requests to the disk (driver/sd.c, common/buf.c, fs/block_device.c)

    A request is a [struct buf], on the stack of the thread that makes it; its
    node of the queue is at [bnode b]. The request in front is the one the
    controller works on, and [sd_intr] completes it and starts the next. A
    call is cut where it waits: [sdrw] is [sdrw_start], then [sdrw_wait] for
    the semaphore of the request, which may put the thread to sleep, and
    [sdrw_wake] once it has been woken. The critical sections under [sdlock]
    and the lock of the queue are single transitions. *)
From stdpp Require Import base gmap list.
From Stdlib Require Import ZArith Lia.
From S2P Require Import Prelude CList Bytes Sem Emmc.

Definition BSIZE := 512.
Definition B_VALID := 0x2.
Definition B_DIRTY := 0x4.
Definition BLOCKNO_OFFSET := 0x20800.
Definition BLOCK_SIZE := 512.

Record buf := mkBuf { flags : Z; blockno : Z; bdata : bytes; bufsem : Semaphore }.
Definition bnode (b : Z) : Z := b + 520.
Definition of_bnode (n : Z) : Z := n - 520.
Definition data_of (b : Z) : Z := b + 8.

Definition set_flags (f : Z) (x : buf) : buf := mkBuf f (blockno x) (bdata x) (bufsem x).
Definition set_blockno (n : Z) (x : buf) : buf := mkBuf (flags x) n (bdata x) (bufsem x).
Definition set_data (l : bytes) (x : buf) : buf := mkBuf (flags x) (blockno x) l (bufsem x).
Definition set_bufsem (m : Semaphore) (x : buf) : buf := mkBuf (flags x) (blockno x) (bdata x) m.

Section code.
Context {C : Type} {E : Emmc C}.

(** [swaits]: the wait records of the semaphores; [swoken]: the calls of
    [activate_proc]. *)
Record sdst := mkSdst {
  emmc : emmc_st C; bufQueue : Queue; bnodes : lheap; bufs : gmap Z buf;
  swaits : gmap Z WaitData; swoken : list Z; LBA : Z; Nsectors : Z
}.
Abbreviation M := (M sdst).

Definition set_emmc (e : emmc_st C) (s : sdst) : sdst := mkSdst e (bufQueue s) (bnodes s) (bufs s) (swaits s) (swoken s) (LBA s) (Nsectors s).
Definition set_bufQueue (q : Queue) (s : sdst) : sdst := mkSdst (emmc s) q (bnodes s) (bufs s) (swaits s) (swoken s) (LBA s) (Nsectors s).
Definition set_bnodes (h : lheap) (s : sdst) : sdst := mkSdst (emmc s) (bufQueue s) h (bufs s) (swaits s) (swoken s) (LBA s) (Nsectors s).
Definition set_bufs (f : gmap Z buf -> gmap Z buf) (s : sdst) : sdst := mkSdst (emmc s) (bufQueue s) (bnodes s) (f (bufs s)) (swaits s) (swoken s) (LBA s) (Nsectors s).
Definition set_swaits (w : gmap Z WaitData) (k : list Z) (s : sdst) : sdst := mkSdst (emmc s) (bufQueue s) (bnodes s) (bufs s) w k (LBA s) (Nsectors s).
Definition set_mbr (l n : Z) (s : sdst) : sdst := mkSdst (emmc s) (bufQueue s) (bnodes s) (bufs s) (swaits s) (swoken s) l n.

Definition on_emmc {A} (m : Prelude.M (emmc_st C) A) : M A := zoom emmc set_emmc m.
Definition on_queue (f : Queue -> Prelude.M lheap Queue) : M unit :=
  q <- gets bufQueue ;; q' <- zoom bnodes set_bnodes (f q) ;; modify (set_bufQueue q').
Definition load_buf (b : Z) : M buf := fun s => match bufs s !! b with Some x => Ret (x, s) | None => Stop Fault end.
Definition update_buf (b : Z) (f : buf -> buf) : M unit :=
  fun s => match bufs s !! b with Some x => Ret (tt, set_bufs (insert b (f x)) s) | None => Stop Fault end.
Definition on_sem {A} (b : Z) (m : Prelude.M sem_st A) : M A :=
  fun s => match bufs s !! b with
           | Some x => match m (mkSemSt (bufsem x) (swaits s) (swoken s)) with
                       | Ret (a, t) => Ret (a, set_swaits (waits t) (activated t) (set_bufs (insert b (set_bufsem (sem t) x)) s))
                       | Stop r => Stop r
                       end
           | None => Stop Fault
           end.

(** ** common/buf.c *)
Definition bufqueue_push (b : Z) : M Z := on_queue (fun q => queue_push q (bnode b)) ;;; q <- gets bufQueue ;; ret (q_sz q).
Definition bufqueue_pop : M unit := on_queue queue_pop.
Definition bufqueue_front : M Z :=
  q <- gets bufQueue ;;
  if queue_empty q then ret 0 else f <- zoom bnodes set_bnodes (queue_front q) ;; ret (of_bnode f).
Definition bufqueue_empty : M bool := q <- gets bufQueue ;; ret (queue_empty q).

(** ** driver/sd.c *)
Definition intbuf (x : buf) (i : Z) : Z := le_decode (range (4 * Z.to_nat i) 4 (bdata x)).
Definition send_turn (b i : Z) : M (option unit) := x <- load_buf b ;; on_emmc (wr EMMC_DATA (intbuf x i)) ;;; ret None.

Definition sd_start (b : Z) : M unit :=
  x <- load_buf b ;;
  c <- gets (fun s => sdCard (emmc s)) ;;
  let bno := if sd_type c =? SD_TYPE_2_HC then i32 (blockno x) else i32 (Z.shiftl (i32 (blockno x)) 9) in
  let write := any (flags x) B_DIRTY in
  v <- on_emmc (rd EMMC_INTERRUPT) ;;
  if negb (v =? 0) then stop Panic
  else
    on_emmc (wr EMMC_BLKSIZECNT 512) ;;;
    resp <- on_emmc (sdSendCommandA (if write then IX_WRITE_SINGLE else IX_READ_SINGLE) bno) ;;
    assert (resp =? 0) ;;;
    assert (negb (any (data_of b) 0x03)) ;;;
    when write (
      resp <- on_emmc (sdWaitForInterrupt INT_WRITE_RDY) ;;
      assert (resp =? 0) ;;;
      v <- on_emmc (rd EMMC_INTERRUPT) ;;
      assert (v =? 0) ;;;
      for_upto 128 0 (send_turn b) ;;; ret tt).

Definition receive_turn (b i : Z) : M (option unit) :=
  v <- on_emmc (rd EMMC_DATA) ;;
  update_buf b (fun x => set_data (splice (4 * Z.to_nat i) (le_encode 4 v) (bdata x)) x) ;;; ret None.

Definition sd_intr : M unit :=
  b <- bufqueue_front ;;
  x <- load_buf b ;;
  (if any (flags x) B_DIRTY then
     r <- on_emmc (sdWaitForInterrupt INT_DATA_DONE) ;; assert (r =? 0)
   else
     r <- on_emmc (sdWaitForInterrupt INT_READ_RDY) ;; assert (r =? 0) ;;;
     for_upto 128 0 (receive_turn b) ;;;
     r <- on_emmc (sdWaitForInterrupt INT_DATA_DONE) ;; assert (r =? 0)) ;;;
  update_buf b (set_flags B_VALID) ;;;
  bufqueue_pop ;;;
  on_sem b _post_sem ;;;
  e <- bufqueue_empty ;;
  when (negb e) (f <- bufqueue_front ;; sd_start f).

Definition sdrw_start (b : Z) : M unit :=
  update_buf b (set_bufsem (init_sem 0)) ;;;
  n <- bufqueue_push b ;;
  when (n =? 1) (sd_start b).

(** Thread [t] waits, with the record [w] of [kalloc]; [false]: it sleeps. *)
Definition wait_turn (b t w : Z) (_ : unit) : M (unit + bool) :=
  up <- on_sem b (_wait_sem_enter t w) ;;
  if up : bool then x <- load_buf b ;; ret (if flags x =? B_VALID then inr true else inl tt)
  else ret (inr false).
Definition sdrw_wait (b t w : Z) : M bool :=
  x <- load_buf b ;; while (Z.to_nat (val (bufsem x)) + 2) (wait_turn b t w) tt.

(** The thread runs again: woken by a post, or by [kill]. *)
Definition sdrw_wake (b t w w' : Z) : M bool :=
  up <- on_sem b (_wait_sem_leave w) ;;
  if negb up then ret true
  else x <- load_buf b ;; if flags x =? B_VALID then ret true else sdrw_wait b t w'.

(** A [struct buf] on the stack, which holds [x] or, before its fields are
    set, [junk]. *)
Definition new_buf (b : Z) (x : buf) : M unit :=
  modify (set_bufs (insert b x)) ;;; modify (fun s => set_bnodes (insert (bnode b) (mkNode 0 0) (bnodes s)) s).

(** ** Initialisation, around the waits of its [sdrw] *)
Definition queue_reset : M unit := modify (set_bufQueue queue_init).
Definition sd_init_start (sdInit : Prelude.M (emmc_st C) Z) (b : Z) (junk : buf) : M unit :=
  on_emmc sdInit ;;; queue_reset ;;;
  new_buf b (set_flags 0 (set_blockno 0 junk)) ;;; sdrw_start b.
Definition sd_init_end (b : Z) : M unit :=
  x <- load_buf b ;;
  let p i := le_decode (range (462 + 4 * i) 4 (bdata x)) in
  modify (set_mbr (p 2%nat) (p 3%nat)) ;;; modify (set_bufs (delete b)).

(** ** fs/block_device.c
 *)
Definition device_blockno (block_no : Z) : Z := u32 (u32 block_no + BLOCKNO_OFFSET).

Definition sd_read_start (b block_no : Z) (junk : buf) : M unit :=
  new_buf b (set_flags 0 (set_blockno (device_blockno block_no) junk)) ;;; sdrw_start b.
Definition sd_read_end (b : Z) : M bytes :=
  x <- load_buf b ;; modify (set_bufs (delete b)) ;;; ret (take (Z.to_nat BLOCK_SIZE) (bdata x)).

Definition sd_write_start (b block_no : Z) (buffer : bytes) (junk : buf) : M unit :=
  new_buf b (set_data (splice 0 (take (Z.to_nat BLOCK_SIZE) buffer) (bdata junk)) (set_flags (Z.lor B_DIRTY B_VALID) (set_blockno (device_blockno block_no) junk))) ;;;
  sdrw_start b.
Definition sd_write_end (b : Z) : M unit := modify (set_bufs (delete b)).
End code.
Arguments sdst C : clear implicits.

(** * Starting and completing a request (driver/sd.c)

    What [sd_start] and the transfer of a block's words by [sd_intr] do, on a
    controller that keeps the promises of [EmmcLaws]. *)

Lemma words_lookup w n l i : (i < n)%nat -> words w n l !! i = Some (le_decode (range (w * i) w l)).
Proof.
  revert l i. induction n as [|n IH]; intros l i Hi; [lia|]. cbn [words]. destruct i as [|i].
  - cbn [lookup list_lookup]. unfold range. by rewrite Nat.mul_0_r, drop_0.
  - cbn [lookup list_lookup]. change (list_lookup i (words w n (drop w l))) with (words w n (drop w l) !! i).
    rewrite IH by lia. unfold range. rewrite drop_drop. do 4 f_equal. lia.
Qed.

(** The words stored one by one make up the block. *)
Lemma splice_word w ws old i z : (i < length ws)%nat -> ws !! i = Some z -> length old = (w * length ws)%nat ->
  splice (w * i) (le_encode w z) (unwords w (take i ws) ++ drop (w * i) old) = unwords w (take (S i) ws) ++ drop (w * S i) old.
Proof.
  intros Hi Hz Hl. rewrite (take_S_r _ _ _ Hz), unwords_app. cbn [unwords]. rewrite app_nil_r.
  assert (Hu : length (unwords w (take i ws)) = (w * i)%nat) by (rewrite unwords_length, length_take; f_equal; lia).
  unfold splice. rewrite le_encode_length, take_app_length' by done. rewrite <- app_assoc. f_equal. f_equal.
  rewrite drop_app_ge by lia. rewrite drop_drop, Hu. f_equal. lia.
Qed.

Section start.
Context {C : Type} {E : Emmc C} {L : EmmcLaws C}.
Abbreviation sdst := (sdst C).

Lemma on_emmc_Ret {A} (m : M (emmc_st C) A) (s : sdst) a e : m (emmc s) = Ret (a, e) -> on_emmc m s = Ret (a, set_emmc e s).
Proof. intros H. unfold on_emmc, zoom. by rewrite H. Qed.

Lemma load_buf_Ret b (s : sdst) y : bufs s !! b = Some y -> load_buf b s = Ret (y, s).
Proof. intros H. unfold load_buf. by rewrite H. Qed.

Lemma update_buf_Ret b f (s : sdst) y : bufs s !! b = Some y -> update_buf b f s = Ret (tt, set_bufs (insert b (f y)) s).
Proof. intros H. unfold update_buf. by rewrite H. Qed.

Lemma on_bufsem_Ret {A} b (m : M sem_st A) (s : sdst) y a sm wts ak :
  bufs s !! b = Some y -> m (mkSemSt (bufsem y) (swaits s) (swoken s)) = Ret (a, mkSemSt sm wts ak) ->
  on_sem b m s = Ret (a, set_swaits wts ak (set_bufs (insert b (set_bufsem sm y)) s)).
Proof. intros H Hm. unfold on_sem. by rewrite H, Hm. Qed.

Definition hc_ok (s : sdst) : Prop := (sd_type (sdCard (emmc s)) =? SD_TYPE_2_HC) = em_hc.

(** ** [sd_start] *)
Definition write_of (y : buf) : bool := any (flags y) B_DIRTY.

(** The controller works on the request [y], on a disk that held [d]. *)
Definition working (e : emmc_st C) (y : buf) (d : gmap Z bytes) : Prop :=
  if write_of y then exists k, soon k /\ at_phase e (Wait k INT_DATA_DONE Idle) (<[blockno y := bdata y]> d)
  else exists k bs, d !! blockno y = Some bs /\ soon k /\ at_phase e (Wait k INT_READ_RDY (Fifo (words 4 128 bs))) d.

Definition startable (b : Z) (y : buf) : Prop := 0 < b /\ b mod 4 = 0 /\ length (bdata y) = 512%nat /\ Forall byte_ok (bdata y).

Lemma device_arg n d bs (e : emmc_st C) p : at_phase e p d -> d !! n = Some bs ->
  0 <= n < 2 ^ 31 -> (if em_hc then i32 n else i32 (Z.shiftl (i32 n) 9)) = card_arg em_hc n.
Proof.
  intros Ha Hd Hn. destruct (em_block _ _ _ _ _ Ha Hd) as (H0 & H1 & _). unfold card_arg in *. destruct em_hc; [rewrite i32_small by lia; done|].
  rewrite (i32_small n) by lia. rewrite i32_small; [done|]. rewrite Z.shiftl_mul_pow2 in * by lia. lia.
Qed.

Lemma block_range n d bs (e : emmc_st C) p : at_phase e p d -> d !! n = Some bs -> 0 <= n < 2 ^ 31.
Proof.
  intros Ha Hd. destruct (em_block _ _ _ _ _ Ha Hd) as (H0 & H1 & _). unfold card_arg in *. destruct em_hc; [lia|]. rewrite Z.shiftl_mul_pow2 in H1 by lia. lia.
Qed.

Lemma send_loop b y d (s : sdst) : startable b y -> bufs s !! b = Some y -> at_phase (emmc s) (Sending (blockno y) []) d ->
  exists e k, for_upto 128 0 (send_turn b) s = Ret (None, set_emmc e s) /\ soon k /\
    at_phase e (Wait k INT_DATA_DONE Idle) (<[blockno y := bdata y]> d) /\ sdCard e = sdCard (emmc s).
Proof.
  intros (_ & _ & Hl & Hok) Hb Ha. set (ws := words 4 128 (bdata y)).
  assert (Hws : length ws = 128%nat) by apply words_length. assert (Hwo : Forall (word_ok 4) ws) by by apply words_ok.
  set (P := fun (i : Z) (s' : sdst) => exists e, s' = set_emmc e s /\ sdCard e = sdCard (emmc s) /\
    if i <? 128 then at_phase e (Sending (blockno y) (take (Z.to_nat i) ws)) d
    else exists k, soon k /\ at_phase e (Wait k INT_DATA_DONE Idle) (<[blockno y := bdata y]> d)).
  destruct (for_upto_inv P (send_turn b) 128 0 s) as (s' & Er & e & -> & Hc & k & Hk & Hp).
  - exists (emmc s). split; [by destruct s|]. by split.
  - intros i s0 Hi (e & -> & Hc & Hp). rewrite (proj2 (Z.ltb_lt i 128)) in Hp by lia. destruct (lookup_lt_is_Some_2 ws (Z.to_nat i) ltac:(lia)) as [w Hw].
    pose proof (Forall_lookup_1 _ _ _ _ Hwo Hw) as Hwok.
    assert (Ew : intbuf y i = w). { unfold intbuf. unfold ws in Hw. rewrite words_lookup in Hw by lia. congruence. }
    assert (Hstep : forall c', reg_write EMMC_DATA w (dev e) = Ret (tt, c') -> send_turn b i (set_emmc e s) = Ret (None, set_emmc (mkEmmc c' (sdCard e)) s)).
    { intros c' Ec. unfold send_turn. rewrite (bind_Ret _ _ _ _ _ (load_buf_Ret b (set_emmc e s) y Hb)), Ew. unfold wr. by rewrite (bind_Ret _ _ _ _ _ (on_emmc_Ret _ (set_emmc e s) _ _ (on_dev _ e _ _ Ec))). }
    destruct (decide (i = 127)) as [->|Hne].
    + destruct (em_sent _ _ _ w _ Hp) as (c' & k & Ec & Hk & Ha'); [rewrite length_take; lia|done|].
      eexists. split; [by apply Hstep|]. exists (mkEmmc c' (sdCard e)). split; [done|]. split; [done|]. change (127 + 1 <? 128) with false. exists k. split; [done|].
      rewrite <- (take_S_r _ _ _ Hw) in Ha'. rewrite take_ge in Ha' by lia. unfold ws in Ha'. rewrite unwords_words in Ha' by done. exact Ha'.
    + destruct (em_send _ _ _ w _ Hp) as (c' & Ec & Ha'); [rewrite length_take; lia|done|].
      eexists. split; [by apply Hstep|]. exists (mkEmmc c' (sdCard e)). split; [done|]. split; [done|]. rewrite (proj2 (Z.ltb_lt _ _)) by lia.
      rewrite <- (take_S_r _ _ _ Hw) in Ha'. by replace (Z.to_nat (i + 1)) with (S (Z.to_nat i)) by lia.
  - exists e, k. done.
Qed.

Lemma sd_start_spec b y d (s : sdst) : startable b y -> bufs s !! b = Some y -> hc_ok s -> at_phase (emmc s) Idle d -> is_Some (d !! blockno y) ->
  exists e, sd_start b s = Ret (tt, set_emmc e s) /\ working e y d /\ sd_type (sdCard e) = sd_type (sdCard (emmc s)).
Proof.
  intros Hst Hb Hhc Ha [bs Hbs]. pose proof (block_range _ _ _ _ _ Ha Hbs) as Hr.
  destruct (em_quiet _ _ _ Ha I) as (c1 & E1 & H1). destruct (em_size _ _ H1) as (c2 & E2 & H2).
  destruct (send_read_write (write_of y) (blockno y) bs d (mkEmmc c2 (sdCard (emmc s))) H2 Hbs) as (e3 & k & E3 & Hk & H3 & Hty).
  assert (Hal : any (data_of b) 3 = false).
  { destruct Hst as (Hb0 & Hb4 & _). unfold any, data_of. apply negb_false_iff, Z.eqb_eq. change 3 with (Z.ones 2). rewrite Z.land_ones by lia. change (2 ^ 2) with 4. rewrite Z.add_mod by lia. by rewrite Hb4. }
  unfold sd_start. rewrite (bind_Ret _ _ _ _ _ (load_buf_Ret b s y Hb)). rewrite (bind_Ret (gets _) _ s (sdCard (emmc s)) s eq_refl).
  change (any (flags y) B_DIRTY) with (write_of y). rewrite Hhc, (device_arg _ _ _ _ _ Ha Hbs Hr).
  unfold rd at 1. rewrite (bind_Ret _ _ _ _ _ (on_emmc_Ret _ s _ _ (on_dev _ _ _ _ E1))). change (negb (0 =? 0)) with false. cbv iota.
  unfold wr at 1. rewrite (bind_Ret _ _ _ _ _ (on_emmc_Ret _ (set_emmc (mkEmmc c1 (sdCard (emmc s))) s) _ _ (on_dev _ (mkEmmc c1 (sdCard (emmc s))) _ _ E2))).
  change (if write_of y then IX_WRITE_SINGLE else IX_READ_SINGLE) with (cmd_index (write_of y)).
  rewrite (bind_Ret _ _ _ _ _ (on_emmc_Ret _ (set_emmc (mkEmmc c2 (sdCard (emmc s))) s) _ _ E3)). change (SD_OK =? 0) with true. rewrite Hal.
  unfold assert at 1 2. cbn [negb]. rewrite !(bind_Ret (ret tt) _ _ tt _ eq_refl).
  change (set_emmc e3 (set_emmc (mkEmmc c2 (sdCard (emmc s))) s)) with (set_emmc e3 s).
  unfold working. destruct (write_of y) eqn:Ew; cbn [when cmd_next] in *.
  - destruct (sdWaitForInterrupt_spec k INT_WRITE_RDY (Sending (blockno y) []) d e3) as (e4 & E4 & H4 & Hc4); [by do 2 right; left|done|done|].
    destruct (em_quiet _ _ _ H4 I) as (c5 & E5 & H5).
    destruct (send_loop b y d (set_emmc (mkEmmc c5 (sdCard e4)) s) Hst Hb H5) as (e6 & k6 & E6 & Hk6 & H6 & Hc6).
    exists e6. split; [|split; [by exists k6|rewrite Hc6; cbn; by rewrite Hc4]].
    rewrite (bind_Ret _ _ _ _ _ (on_emmc_Ret _ (set_emmc e3 s) _ _ E4)). change (SD_OK =? 0) with true. unfold assert at 1. rewrite (bind_Ret (ret tt) _ _ tt _ eq_refl).
    unfold rd at 1. rewrite (bind_Ret _ _ _ _ _ (on_emmc_Ret _ (set_emmc e4 s) _ _ (on_dev _ e4 _ _ E5))). change (0 =? 0) with true. unfold assert. rewrite (bind_Ret (ret tt) _ _ tt _ eq_refl).
    change (set_emmc (mkEmmc c5 (sdCard e4)) (set_emmc e4 s)) with (set_emmc (mkEmmc c5 (sdCard e4)) s). by rewrite (bind_Ret _ _ _ _ _ E6).
  - exists e3. split; [done|]. split; [by exists k, bs|done].
Qed.

(** ** Receiving a block *)
Lemma receive_loop b y bs d (s : sdst) : length (bdata y) = 512%nat -> length bs = 512%nat -> Forall byte_ok bs -> bufs s !! b = Some y -> at_phase (emmc s) (Fifo (words 4 128 bs)) d ->
  exists e k, for_upto 128 0 (receive_turn b) s = Ret (None, set_emmc e (set_bufs (insert b (set_data bs y)) s)) /\ soon k /\
    at_phase e (Wait k INT_DATA_DONE Idle) d /\ sdCard e = sdCard (emmc s).
Proof.
  intros Hy Hbs Hok Hb Ha. set (ws := words 4 128 bs). assert (Hws : length ws = 128%nat) by apply words_length.
  set (part := fun i : Z => unwords 4 (take (Z.to_nat i) ws) ++ drop (4 * Z.to_nat i) (bdata y)).
  set (P := fun (i : Z) (s' : sdst) => exists e, s' = set_emmc e (set_bufs (insert b (set_data (part i) y)) s) /\ sdCard e = sdCard (emmc s) /\
    if i <? 128 then at_phase e (Fifo (drop (Z.to_nat i) ws)) d else exists k, soon k /\ at_phase e (Wait k INT_DATA_DONE Idle) d).
  destruct (for_upto_inv P (receive_turn b) 128 0 s) as (s' & Er & e & -> & Hc & k & Hk & Hp).
  - exists (emmc s). split; [|by split]. destruct s as [? ? ? bf ? ? ? ?]. unfold set_emmc, set_bufs, part. cbn in *. destruct y. cbn. by rewrite insert_id.
  - intros i s0 Hi (e & -> & Hc & Hp). rewrite (proj2 (Z.ltb_lt i 128)) in Hp by lia. destruct (lookup_lt_is_Some_2 ws (Z.to_nat i) ltac:(lia)) as [w Hw].
    rewrite (drop_S _ _ _ Hw) in Hp. destruct (em_fifo _ _ _ _ Hp) as (c' & k & Ec & Hk & Ha').
    exists (set_emmc (mkEmmc c' (sdCard e)) (set_bufs (insert b (set_data (part (i + 1)) y)) s)). split.
    + unfold receive_turn, rd. rewrite (bind_Ret _ _ _ _ _ (on_emmc_Ret _ (set_emmc e (set_bufs (insert b (set_data (part i) y)) s)) _ _ (on_dev _ e _ _ Ec))).
      rewrite (bind_Ret _ _ _ _ _ (update_buf_Ret b _ (set_emmc (mkEmmc c' (sdCard e)) (set_bufs (insert b (set_data (part i) y)) s)) (set_data (part i) y) ltac:(apply lookup_insert_eq))).
      unfold set_emmc, set_bufs. cbn [bufs emmc bufQueue bnodes swaits swoken LBA Nsectors]. unfold ret. do 3 f_equal. rewrite insert_insert_eq. f_equal. unfold set_data. cbn [flags blockno bdata bufsem]. f_equal.
      unfold part. replace (Z.to_nat (i + 1)) with (S (Z.to_nat i)) by lia. apply splice_word; [lia|done|lia].
    + exists (mkEmmc c' (sdCard e)). split; [done|]. split; [done|]. destruct (decide (i = 127)) as [->|Hne].
      * change (127 + 1 <? 128) with false. exists k. split; [done|]. assert (En : drop 128 ws = []) by (apply drop_ge; lia). change (S (Z.to_nat 127)) with 128%nat in Ha'. by rewrite En in Ha'.
      * rewrite (proj2 (Z.ltb_lt _ _)) by lia. replace (Z.to_nat (i + 1)) with (S (Z.to_nat i)) by lia.
        destruct (drop (S (Z.to_nat i)) ws) as [|w' ws'] eqn:Ed; [|done]. apply (f_equal length) in Ed. rewrite length_drop in Ed. cbn in Ed. lia.
  - exists e, k. split; [|done]. rewrite Er. do 4 f_equal. unfold part. change (Z.to_nat (0 + Z.of_nat 128)) with 128%nat.
    rewrite take_ge by lia. rewrite drop_ge by lia. rewrite app_nil_r. unfold ws. by rewrite unwords_words.
Qed.
End start.
