(* ===== verification/SdProps.v ===== *)
(** * The disk as the block cache sees it (fs/block_device.c, driver/sd.c)

    The specification serves the requests of all threads one by one, in the
    order in which they were made: one interrupt, one request. Whatever the
    order of the threads' steps and of the interrupts, the code does what it
    says, and the controller is started for one request at a time. *)
From stdpp Require Import base gmap list.
From Stdlib Require Import ZArith Lia.
From S2P Require Import Prelude CList Bytes Sem Emmc Sd.

(** ** The specification *)
Inductive tstat := Called | Asleep (t w : Z) | Passed.
(** [a_data]: the block to write; [a_answer]: the block, once served. *)
Record act := mkAct { a_block : Z; a_data : option bytes; a_answer : option bytes; a_stat : tstat }.
Record spec := mkSpec { disk : gmap Z bytes; pending : list Z; acts : gmap Z act }.

Inductive label :=
| LRead (b n : Z) (junk : buf)
| LWrite (b n : Z) (data : bytes) (junk : buf)
| LWait (b t w : Z)
| LWake (b t w w' : Z)
| LIntr
| LReadEnd (b : Z)
| LWriteEnd (b : Z).

Inductive out := Nothing | Passes (p : bool) | Data (d : bytes).

Definition asleep (a : spec) : list Z := omap (fun p => match a_stat p.2 with Asleep _ w => Some w | _ => None end) (map_to_list (acts a)).

Definition set_stat (v : tstat) (x : act) : act := mkAct (a_block x) (a_data x) (a_answer x) v.
Definition serve (d : bytes) (x : act) : act := mkAct (a_block x) (a_data x) (Some d) (a_stat x).

(** A new request, if the stack of its thread has room for one at [b] and the
    disk has the block. *)
Definition enter (b n : Z) (data : option bytes) (a : spec) : option (spec * out) :=
  if bool_decide (0 < b) && (b mod 4 =? 0) && bool_decide (acts a !! b = None) && bool_decide (is_Some (disk a !! device_blockno n)) && (Z.of_nat (length (pending a)) + 1 <? 2 ^ 31 - 1)
  then Some (mkSpec (disk a) (pending a ++ [b]) (<[b := mkAct (device_blockno n) data None Called]> (acts a)), Nothing)
  else None.

Definition is_block (d : bytes) : bool := (length d =? 512)%nat && forallb (fun x => (0 <=? x) && (x <? 256)) d.

Definition spec_step (l : label) (a : spec) : option (spec * out) :=
  match l with
  | LRead b n junk => if is_block (bdata junk) then enter b n None a else None
  | LWrite b n data junk => if is_block data && is_block (bdata junk) then enter b n (Some data) a else None
  | LWait b t w =>
      match acts a !! b with
      | Some (mkAct n data None Called) =>
          if bool_decide (w ∈ asleep a) then None
          else Some (mkSpec (disk a) (pending a) (<[b := mkAct n data None (Asleep t w)]> (acts a)), Passes false)
      | Some (mkAct n data (Some d) Called) => Some (mkSpec (disk a) (pending a) (<[b := mkAct n data (Some d) Passed]> (acts a)), Passes true)
      | _ => None
      end
  | LWake b t w _ =>
      match acts a !! b with
      | Some (mkAct n data (Some d) (Asleep t' w')) =>
          if bool_decide (t = t' /\ w = w') then Some (mkSpec (disk a) (pending a) (<[b := mkAct n data (Some d) Passed]> (acts a)), Passes true) else None
      | _ => None
      end
  | LIntr =>
      match pending a with
      | b :: rest =>
          match acts a !! b with
          | Some x =>
              match a_data x with
              | Some d => Some (mkSpec (<[a_block x := d]> (disk a)) rest (<[b := serve d x]> (acts a)), Nothing)
              | None => match disk a !! a_block x with Some d => Some (mkSpec (disk a) rest (<[b := serve d x]> (acts a)), Nothing) | None => None end
              end
          | None => None
          end
      | [] => None
      end
  | LReadEnd b =>
      match acts a !! b with
      | Some (mkAct _ None (Some d) Passed) => Some (mkSpec (disk a) (pending a) (delete b (acts a)), Data d)
      | _ => None
      end
  | LWriteEnd b =>
      match acts a !! b with
      | Some (mkAct _ (Some _) (Some _) Passed) => Some (mkSpec (disk a) (pending a) (delete b (acts a)), Nothing)
      | _ => None
      end
  end.

Fixpoint spec_run (ls : list label) (a : spec) : option (spec * list out) :=
  match ls with
  | [] => Some (a, [])
  | l :: ls => '(a1, o) ← spec_step l a; '(a2, os) ← spec_run ls a1; Some (a2, o :: os)
  end.

Lemma is_block_ok d : is_block d = true -> length d = 512%nat /\ Forall byte_ok d.
Proof.
  unfold is_block. intros [Hl Hf]%andb_true_iff. split; [by apply Nat.eqb_eq|]. apply Forall_forall. intros x Hx%list_elem_of_In.
  rewrite forallb_forall in Hf. specialize (Hf x Hx). unfold byte_ok. lia.
Qed.

(** ** The code *)
Section code.
Context {C : Type} {E : Emmc C}.

Definition call (l : label) : M (sdst C) out :=
  match l with
  | LRead b n junk => sd_read_start b n junk ;;; ret Nothing
  | LWrite b n data junk => sd_write_start b n data junk ;;; ret Nothing
  | LWait b t w => p <- sdrw_wait b t w ;; ret (Passes p)
  | LWake b t w w' => p <- sdrw_wake b t w w' ;; ret (Passes p)
  | LIntr => sd_intr ;;; ret Nothing
  | LReadEnd b => d <- sd_read_end b ;; ret (Data d)
  | LWriteEnd b => sd_write_end b ;;; ret Nothing
  end.

Fixpoint run (ls : list label) : M (sdst C) (list out) :=
  match ls with [] => ret [] | l :: ls => o <- call l ;; os <- run ls ;; ret (o :: os) end.

Context {L : EmmcLaws C}.
Abbreviation sdst := (sdst C).

(** ** The relation *)
Definition sem_ok (x : act) (m : Semaphore) (wts : gmap Z WaitData) : Prop :=
  match a_stat x, a_answer x with
  | Called, None => m = mkSem 0 []
  | Called, Some _ => m = mkSem 1 []
  | Asleep t w, None => m = mkSem (-1) [w] /\ wts !! w = Some (mkWait false t)
  | Asleep t w, Some _ => m = mkSem 0 [] /\ wts !! w = Some (mkWait true t)
  | Passed, None => False
  | Passed, Some _ => m = mkSem 0 []
  end.

Definition is_write (x : act) : bool := match a_data x with Some _ => true | None => false end.

Definition buf_ok (x : act) (y : buf) : Prop :=
  blockno y = a_block x /\ length (bdata y) = 512%nat /\ Forall byte_ok (bdata y) /\
  match a_answer x with
  | None => write_of y = is_write x /\ (forall d, a_data x = Some d -> bdata y = d)
  | Some d => flags y = B_VALID /\ bdata y = d
  end.

Definition act_ok (b : Z) (x : act) (bs : gmap Z buf) (wts : gmap Z WaitData) : Prop :=
  0 < b /\ b mod 4 = 0 /\ exists y, bs !! b = Some y /\ buf_ok x y /\ sem_ok x (bufsem y) wts.

Record rel (s : sdst) (a : spec) : Prop := {
  rl_queue : queue_rep (bnodes s) (bufQueue s) (bnode <$> pending a);
  rl_nodup : NoDup (pending a);
  rl_pend : forall b, b ∈ pending a <-> exists x, acts a !! b = Some x /\ a_answer x = None;
  rl_act : forall b x, acts a !! b = Some x -> act_ok b x (bufs s) (swaits s);
  rl_dist : forall b b' x x' t t' w, acts a !! b = Some x -> acts a !! b' = Some x' -> a_stat x = Asleep t w -> a_stat x' = Asleep t' w -> b = b';
  rl_blocks : forall b x, acts a !! b = Some x -> a_answer x = None -> is_Some (disk a !! a_block x);
  rl_hc : hc_ok s;
  rl_work : match pending a with [] => at_phase (emmc s) Idle (disk a) | b :: _ => exists y, bufs s !! b = Some y /\ working (emmc s) y (disk a) end
}.

Definition no_sleep (w : Z) (x : act) : Prop := forall t, a_stat x <> Asleep t w.

Lemma sem_ok_frame x m wts wts' : (forall t w, a_stat x = Asleep t w -> wts' !! w = wts !! w) -> sem_ok x m wts -> sem_ok x m wts'.
Proof using. unfold sem_ok. intros H. destruct (a_stat x) as [|t w|]; [done| |done]. rewrite (H t w eq_refl). done. Qed.

Lemma act_ok_frame b x bs wts bs' wts' : bs' !! b = bs !! b -> (forall t w, a_stat x = Asleep t w -> wts' !! w = wts !! w) -> act_ok b x bs wts -> act_ok b x bs' wts'.
Proof using. intros Hb Hw (H1 & H2 & y & Hy & H3 & H4). split; [done|]. split; [done|]. exists y. rewrite Hb. split; [done|]. split; [done|]. by eapply sem_ok_frame. Qed.

(** ** The semaphore of a request *)
Lemma post_asleep wts ak w t : wts !! w = Some (mkWait false t) ->
  _post_sem (mkSemSt (mkSem (-1) [w]) wts ak) = Ret (tt, mkSemSt (mkSem 0 []) (<[w := mkWait true t]> wts) (ak ++ [t])).
Proof using.
  intros Hw. unfold _post_sem, modify, gets, bind, set_sem. cbn [sem waits activated set_val val sleeplist]. change (i32 (-1 + 1) <=? 0) with true. cbv iota.
  unfold assert. rewrite bool_decide_eq_false_2 by done. cbn [negb last ret]. unfold load_wait. cbn [waits]. rewrite Hw. cbn [ret]. unfold set_waits, detach_wait, set_sem, set_sleeplist, activate_proc, modify.
  cbn -[filter]. rewrite filter_cons_False by tauto. done.
Qed.

Lemma leave_woken wts ak w t : wts !! w = Some (mkWait true t) -> _wait_sem_leave w (mkSemSt (mkSem 0 []) wts ak) = Ret (true, mkSemSt (mkSem 0 []) (delete w wts) ak).
Proof using. intros Hw. unfold _wait_sem_leave, load_wait, bind. cbn [waits]. rewrite Hw. done. Qed.

Lemma posts x m wts ak : a_answer x = None -> sem_ok x m wts ->
  exists m' wts' ak', _post_sem (mkSemSt m wts ak) = Ret (tt, mkSemSt m' wts' ak') /\ (forall d, sem_ok (serve d x) m' wts') /\
    forall w, no_sleep w x -> wts' !! w = wts !! w.
Proof using.
  unfold sem_ok, no_sleep. cbn [serve a_answer a_stat]. intros -> H. destruct (a_stat x) as [|t w|]; [|destruct H as [-> Hw]|done].
  - subst m. by eexists _, _, _.
  - eexists _, _, _. split; [by apply post_asleep|]. split; [intros d; split; [done|apply lookup_insert_eq]|]. intros w' Hw'. apply lookup_insert_ne. intros ->. by apply (Hw' t).
Qed.

(** ** New requests *)
Lemma on_queue_Ret f (s : sdst) q' h' : f (bufQueue s) (bnodes s) = Ret (q', h') -> on_queue f s = Ret (tt, set_bufQueue q' (set_bnodes h' s)).
Proof using. intros H. unfold on_queue, gets, modify, zoom, bind. by rewrite H. Qed.

Lemma queue_kept h h' q l : queue_rep h q l -> (forall c, c ∈ l -> h' !! c = h !! c) -> queue_rep h' q l.
Proof using. intros (H1 & H2 & H3) Hf. split; [done|]. split; [done|]. destruct l as [|c l]; [done|]. destruct H3 as (H3 & H4 & H5). split; [done|]. split; [done|]. by eapply ring_frame. Qed.

Lemma bnode_in b (l : list Z) : bnode b ∈ (bnode <$> l) <-> b ∈ l.
Proof using. rewrite list_elem_of_fmap. unfold bnode. split; [intros (b' & He & H); by replace b with b' by lia|by exists b]. Qed.

Lemma rel_new b x y a s s' :
  rel s a -> acts a !! b = None -> a_answer x = None -> a_stat x = Called -> is_Some (disk a !! a_block x) ->
  queue_rep (bnodes s') (bufQueue s') (bnode <$> pending a ++ [b]) -> act_ok b x (bufs s') (swaits s') -> bufs s' !! b = Some y ->
  (forall b', b' <> b -> bufs s' !! b' = bufs s !! b') -> swaits s' = swaits s -> hc_ok s' ->
  (if bool_decide (pending a = []) then working (emmc s') y (disk a) else emmc s' = emmc s) ->
  rel s' (mkSpec (disk a) (pending a ++ [b]) (<[b := x]> (acts a))).
Proof using.
  intros H Hn Hx Hc Hd Hq Ha Hy Hb Hw Hhc Hwk. assert (Hni : b ∉ pending a) by (intros (x' & Hx' & _)%(rl_pend _ _ H); congruence).
  split; cbn [disk pending acts].
  - exact Hq.
  - apply NoDup_app. split; [apply H|]. split; [|apply NoDup_singleton]. intros b' Hb' ->%list_elem_of_singleton. done.
  - intros b'. rewrite elem_of_app, list_elem_of_singleton, (rl_pend _ _ H b'). destruct (decide (b' = b)) as [->|Hne].
    + rewrite lookup_insert_eq. split; [|by right]. intros _. by exists x.
    + rewrite lookup_insert_ne by done. split; [|by left]. intros [?|?]; done.
  - intros b' x' Hx'. destruct (decide (b' = b)) as [->|Hne]; [by rewrite lookup_insert_eq in Hx'; injection Hx' as <-|]. rewrite lookup_insert_ne in Hx' by done.
    eapply act_ok_frame; [by apply Hb|by intros; rewrite Hw|by apply H].
  - intros b1 b2 x1 x2 t t' w H1 H2 S1 S2. destruct (decide (b1 = b)) as [->|N1]; [rewrite lookup_insert_eq in H1; simplify_eq; congruence|].
    destruct (decide (b2 = b)) as [->|N2]; [rewrite lookup_insert_eq in H2; simplify_eq; congruence|]. rewrite lookup_insert_ne in H1, H2 by done. by eapply (rl_dist _ _ H).
  - intros b' x' Hx' Hn'. destruct (decide (b' = b)) as [->|Hne]; [by rewrite lookup_insert_eq in Hx'; injection Hx' as <-|]. rewrite lookup_insert_ne in Hx' by done. by eapply (rl_blocks _ _ H).
  - done.
  - pose proof (rl_work _ _ H) as Hk. destruct (pending a) as [|b1 l] eqn:Ep; cbn [app]; [by exists y|]. rewrite bool_decide_eq_false_2 in Hwk by done. destruct Hk as (y1 & H1 & H2). exists y1. rewrite Hwk. split; [|done].
    rewrite Hb; [done|]. intros ->. apply Hni. by left.
Qed.

Lemma enter_sim b n data a a' o y s :
  rel s a -> enter b n data a = Some (a', o) -> buf_ok (mkAct (device_blockno n) data None Called) y ->
  exists s', (new_buf b y ;;; sdrw_start b) s = Ret (tt, s') /\ o = Nothing /\ rel s' a'.
Proof using.
  intros H He Hy. unfold enter in He. destruct (_ && _) eqn:Ec in He; [|done]. injection He as <- <-.
  apply andb_true_iff in Ec as [[[[Hb0%bool_decide_eq_true Hb4%Z.eqb_eq]%andb_true_iff Hn%bool_decide_eq_true]%andb_true_iff Hd%bool_decide_eq_true]%andb_true_iff Hlen%Z.ltb_lt].
  set (x := mkAct (device_blockno n) data None Called) in *.
  set (s1 := set_bnodes (insert (bnode b) (mkNode 0 0) (bnodes s)) (set_bufs (insert b y) s)). set (y1 := set_bufsem (init_sem 0) y). set (s2 := set_bufs (insert b y1) s1).
  assert (Hni : b ∉ pending a) by (intros (x' & Hx' & _)%(rl_pend _ _ H); congruence).
  destruct (queue_push_fifo (bnodes s2) (bufQueue s) (bnode <$> pending a) (bnode b)) as (q' & h' & Eq & Hq).
  { eapply queue_kept; [apply H|]. intros c Hc. cbn. apply lookup_insert_ne. intros <-. apply Hni, bnode_in, Hc. }
  { cbn. rewrite lookup_insert_eq. eauto. }
  { unfold bnode. lia. }
  { by rewrite bnode_in. }
  { rewrite length_fmap. exact Hlen. }
  set (s3 := set_bufQueue q' (set_bnodes h' s2)).
  assert (Hsz : q_sz q' = Z.of_nat (length (pending a)) + 1) by (destruct Hq as [-> _]; rewrite length_app, length_fmap; cbn; lia).
  assert (E3 : (new_buf b y ;;; sdrw_start b) s = when (q_sz q' =? 1) (sd_start b) s3).
  { rewrite (bind_Ret (new_buf b y) _ s tt s1 eq_refl). unfold sdrw_start, bufqueue_push. rewrite (bind_Ret _ _ _ _ _ (update_buf_Ret b _ s1 y ltac:(apply lookup_insert_eq))).
    change (set_bufs (insert b (set_bufsem (init_sem 0) y)) s1) with s2. rewrite bind_assoc. rewrite (bind_Ret _ _ _ _ _ (on_queue_Ret (fun q => queue_push q (bnode b)) s2 q' h' Eq)). done. }
  assert (Hy1 : bufs s3 !! b = Some y1) by apply lookup_insert_eq.
  assert (Hother : forall b', b' <> b -> bufs s3 !! b' = bufs s !! b') by (intros b' Hb'; cbn; by rewrite !lookup_insert_ne by done).
  assert (Hok : act_ok b x (bufs s3) (swaits s3)) by (split; [done|]; split; [done|]; exists y1; split; [done|]; by split).
  assert (Hq' : queue_rep (bnodes s3) (bufQueue s3) (bnode <$> pending a ++ [b])) by by rewrite fmap_app.
  rewrite E3.
  destruct (decide (pending a = [])) as [Ep|Ep].
  - rewrite Hsz, Ep. change (Z.of_nat (length (@nil Z)) + 1 =? 1) with true. cbn [when]. pose proof (rl_work _ _ H) as Hw. rewrite Ep in Hw.
    destruct (sd_start_spec b y1 (disk a) s3) as (e & Es & Hwk & Hty); [|done|apply H|done|destruct Hy as (Hbl & _); change (blockno y1) with (blockno y); by rewrite Hbl|].
    { destruct Hy as (_ & Hl & Hby & _). by repeat split. }
    exists (set_emmc e s3). split; [done|]. split; [done|]. replace ([] ++ [b]) with (pending a ++ [b]) by by rewrite Ep. eapply (rel_new b x y1); try done.
    + unfold hc_ok. cbn. rewrite Hty. apply H.
    + by rewrite bool_decide_eq_true_2.
  - rewrite (proj2 (Z.eqb_neq _ _)) by (rewrite Hsz; destruct (pending a); [done|cbn; lia]). exists s3. split; [done|]. split; [done|].
    eapply (rel_new b x y1); try done; [apply H|]. by rewrite bool_decide_eq_false_2.
Qed.

(** ** A change of one request that keeps its place in the queue *)
Lemma rel_same b x x' y' a s s' :
  rel s a -> acts a !! b = Some x -> a_answer x' = a_answer x -> a_block x' = a_block x ->
  (forall t w, a_stat x' = Asleep t w -> forall b2 x2 t2, b2 <> b -> acts a !! b2 = Some x2 -> a_stat x2 <> Asleep t2 w) ->
  (forall b2 x2 t2 w2, b2 <> b -> acts a !! b2 = Some x2 -> a_stat x2 = Asleep t2 w2 -> swaits s' !! w2 = swaits s !! w2) ->
  bnodes s' = bnodes s -> bufQueue s' = bufQueue s -> emmc s' = emmc s ->
  bufs s' !! b = Some y' -> buf_ok x' y' -> sem_ok x' (bufsem y') (swaits s') ->
  (forall y, bufs s !! b = Some y -> flags y' = flags y /\ blockno y' = blockno y /\ bdata y' = bdata y) ->
  (forall b2, b2 <> b -> bufs s' !! b2 = bufs s !! b2) ->
  rel s' (mkSpec (disk a) (pending a) (<[b := x']> (acts a))).
Proof using.
  intros H Hx Han Hbl Hdist Hw Hnd Hqu Hem Hy' Hok Hsm Hsame Hother. split; cbn [disk pending acts].
  - rewrite Hnd, Hqu. apply H.
  - apply H.
  - intros b2. rewrite (rl_pend _ _ H b2). destruct (decide (b2 = b)) as [->|Hne]; [|by rewrite lookup_insert_ne].
    rewrite lookup_insert_eq. split; intros (x2 & H1 & H2); [exists x'|exists x]; split; try done; congruence.
  - intros b2 x2 H2. destruct (decide (b2 = b)) as [->|Hne].
    + rewrite lookup_insert_eq in H2. injection H2 as <-. destruct (rl_act _ _ H b x Hx) as (H0 & H4 & _). split; [done|]. split; [done|]. by exists y'.
    + rewrite lookup_insert_ne in H2 by done. eapply act_ok_frame; [by apply Hother| |by apply H]. intros t2 w2 E2. by eapply Hw.
  - intros b1 b2 x1 x2 t t' w H1 H2 S1 S2. destruct (decide (b1 = b)) as [->|N1], (decide (b2 = b)) as [->|N2]; [done| | |rewrite lookup_insert_ne in H1, H2 by done; by eapply (rl_dist _ _ H)].
    + rewrite lookup_insert_eq in H1. rewrite lookup_insert_ne in H2 by done. injection H1 as <-. by destruct (Hdist t w S1 b2 x2 t').
    + rewrite lookup_insert_eq in H2. rewrite lookup_insert_ne in H1 by done. injection H2 as <-. by destruct (Hdist t' w S2 b1 x1 t).
  - intros b2 x2 H2 Hn. destruct (decide (b2 = b)) as [->|Hne]; [|rewrite lookup_insert_ne in H2 by done; by eapply (rl_blocks _ _ H)].
    rewrite lookup_insert_eq in H2. injection H2 as <-. rewrite Hbl. eapply (rl_blocks _ _ H); [done|congruence].
  - unfold hc_ok. rewrite Hem. apply H.
  - pose proof (rl_work _ _ H) as Hk. rewrite Hem. destruct (pending a) as [|b1 l]; [done|]. destruct Hk as (y1 & Hy1 & Hwk). destruct (decide (b1 = b)) as [->|Hne].
    + exists y'. split; [done|]. destruct (Hsame y1 Hy1) as (F1 & F2 & F3). unfold working, write_of in *. by rewrite F1, F2, F3.
    + exists y1. by rewrite Hother.
Qed.

Lemma asleep_in a b x t w : acts a !! b = Some x -> a_stat x = Asleep t w -> w ∈ asleep a.
Proof using. intros Hx Hs. unfold asleep. apply list_elem_of_omap. exists (b, x). rewrite elem_of_map_to_list. split; [done|]. cbn. by rewrite Hs. Qed.

(** ** Waiting and waking *)
Lemma loop_done n b t w (s s1 : sdst) p : wait_turn b t w tt s = Ret (inr p, s1) -> (p' <- while (n + 2) (wait_turn b t w) tt ;; ret (Passes p')) s = Ret (Passes p, s1).
Proof using. intros H. replace (n + 2)%nat with (S (S n)) by lia. unfold bind at 1. rewrite while_S, (bind_Ret _ _ _ _ _ H). done. Qed.

Lemma wait_sim b t w a a' o s : rel s a -> spec_step (LWait b t w) a = Some (a', o) -> exists s', call (LWait b t w) s = Ret (o, s') /\ rel s' a'.
Proof using.
  intros H Hs. cbn [spec_step] in Hs. destruct (acts a !! b) as [[n data an st]|] eqn:Hx; [|done].
  destruct (rl_act _ _ H b _ Hx) as (_ & _ & y & Hy & Hok & Hsm). destruct st as [|t0 w0|]; [|by destruct an|by destruct an].
  cbn [sem_ok a_stat a_answer] in Hsm. unfold sem_ok in Hsm. cbn [a_stat a_answer] in Hsm. cbn [call]. unfold sdrw_wait.
  rewrite bind_assoc, (bind_Ret _ _ _ _ _ (load_buf_Ret b s y Hy)). destruct an as [d|].
  - injection Hs as <- <-. rewrite Hsm. cbn [val].
    set (s1 := set_swaits (swaits s) (swoken s) (set_bufs (insert b (set_bufsem (mkSem 0 []) y)) s)).
    assert (E1 : on_sem b (_wait_sem_enter t w) s = Ret (true, s1)) by (apply on_bufsem_Ret; [done|by rewrite Hsm]).
    assert (E2 : wait_turn b t w tt s = Ret (inr true, s1)).
    { unfold wait_turn. rewrite (bind_Ret _ _ _ _ _ E1). rewrite (bind_Ret _ _ _ _ _ (load_buf_Ret b s1 (set_bufsem (mkSem 0 []) y) ltac:(apply lookup_insert_eq))).
      destruct Hok as (_ & _ & _ & Hf & _). cbn [flags set_bufsem]. by rewrite Hf. }
    exists s1. split; [by apply loop_done|].
    eapply (rel_same b _ _ (set_bufsem (mkSem 0 []) y)); try done; try apply lookup_insert_eq.
    + intros ? Hy0. rewrite Hy in Hy0. by injection Hy0 as <-.
    + intros b2 Hb2. cbn. by apply lookup_insert_ne.
  - destruct (bool_decide (w ∈ asleep a)) eqn:Ew; [done|]. apply bool_decide_eq_false in Ew. injection Hs as <- <-. rewrite Hsm. cbn [val].
    set (s1 := set_swaits (<[w := mkWait false t]> (swaits s)) (swoken s) (set_bufs (insert b (set_bufsem (mkSem (-1) [w]) y)) s)).
    assert (E1 : on_sem b (_wait_sem_enter t w) s = Ret (false, s1)) by (apply on_bufsem_Ret; [done|by rewrite Hsm]).
    assert (E2 : wait_turn b t w tt s = Ret (inr false, s1)) by (unfold wait_turn; by rewrite (bind_Ret _ _ _ _ _ E1)).
    exists s1. split; [by apply loop_done|].
    eapply (rel_same b _ _ (set_bufsem (mkSem (-1) [w]) y)); try done; try apply lookup_insert_eq.
    + intros t1 w1 [= <- <-] b2 x2 t2 _ H2 S2. apply Ew. by eapply asleep_in.
    + intros b2 x2 t2 w2 _ H2 S2. cbn. apply lookup_insert_ne. intros <-. apply Ew. by eapply asleep_in.
    + split; [done|apply lookup_insert_eq].
    + intros ? Hy0. rewrite Hy in Hy0. by injection Hy0 as <-.
    + intros b2 Hb2. cbn. by apply lookup_insert_ne.
Qed.

Lemma wake_sim b t w w' a a' o s : rel s a -> spec_step (LWake b t w w') a = Some (a', o) -> exists s', call (LWake b t w w') s = Ret (o, s') /\ rel s' a'.
Proof using.
  intros H Hs. cbn [spec_step] in Hs. destruct (acts a !! b) as [[n data an st]|] eqn:Hx; [|done]. destruct an as [d|]; [|done]. destruct st as [|t0 w0|]; [done| |done].
  destruct (bool_decide _) eqn:Ew in Hs; [|done]. apply bool_decide_eq_true in Ew as [<- <-]. injection Hs as <- <-.
  destruct (rl_act _ _ H b _ Hx) as (_ & _ & y & Hy & Hok & Hsm & Hwt).
  set (s1 := set_swaits (delete w (swaits s)) (swoken s) (set_bufs (insert b (set_bufsem (mkSem 0 []) y)) s)).
  assert (E1 : on_sem b (_wait_sem_leave w) s = Ret (true, s1)) by (apply on_bufsem_Ret; [done|rewrite Hsm; by eapply leave_woken]).
  exists s1. split.
  - cbn [call]. unfold sdrw_wake. rewrite bind_assoc, (bind_Ret _ _ _ _ _ E1). cbn [negb]. rewrite bind_assoc, (bind_Ret _ _ _ _ _ (load_buf_Ret b s1 (set_bufsem (mkSem 0 []) y) ltac:(apply lookup_insert_eq))).
    destruct Hok as (_ & _ & _ & Hf & _). cbn [flags set_bufsem]. by rewrite Hf.
  - eapply (rel_same b _ _ (set_bufsem (mkSem 0 []) y)); try done; try apply lookup_insert_eq.
    + intros b2 x2 t2 w2 Hne H2 S2. cbn. apply lookup_delete_ne. intros <-. by destruct (Hne (rl_dist _ _ H _ _ _ _ _ _ _ H2 Hx S2 eq_refl)).
    + intros ? Hy0. rewrite Hy in Hy0. by injection Hy0 as <-.
    + intros b2 Hb2. cbn. by apply lookup_insert_ne.
Qed.

(** ** The end of a call *)
Lemma end_rel b x d a s : rel s a -> acts a !! b = Some x -> a_answer x = Some d -> rel (set_bufs (delete b) s) (mkSpec (disk a) (pending a) (delete b (acts a))).
Proof using.
  intros H Hx Hd. assert (Hni : b ∉ pending a) by (intros (x' & Hx' & Hn)%(rl_pend _ _ H); congruence). split; cbn [disk pending acts].
  - apply H.
  - apply H.
  - intros b2. rewrite (rl_pend _ _ H b2). split; intros (x2 & H1 & H2); exists x2; split; try done.
    + rewrite lookup_delete_ne; [done|]. intros <-. congruence.
    + by apply lookup_delete_Some in H1 as [_ ?].
  - intros b2 x2 [Hne H2]%lookup_delete_Some. eapply act_ok_frame; [|done|by apply H]. cbn. by apply lookup_delete_ne.
  - intros b1 b2 x1 x2 t t' w [_ H1]%lookup_delete_Some [_ H2]%lookup_delete_Some. by eapply (rl_dist _ _ H).
  - intros b2 x2 [_ H2]%lookup_delete_Some. by eapply (rl_blocks _ _ H).
  - apply H.
  - pose proof (rl_work _ _ H) as Hk. destruct (pending a) as [|b1 l]; [done|]. destruct Hk as (y1 & Hy1 & Hwk). exists y1. split; [|done]. cbn. rewrite lookup_delete_ne; [done|]. intros <-. apply Hni. by left.
Qed.

(** ** Interrupts *)
Lemma bind_cong {A B} (m m' : M sdst A) (k : A -> M sdst B) (s s' : sdst) : m s = m' s' -> bind m k s = bind m' k s'.
Proof using. intros H. unfold bind. by rewrite H. Qed.

Definition transfer (b : Z) (x : buf) : M sdst unit :=
  if any (flags x) B_DIRTY then
    r <- on_emmc (sdWaitForInterrupt INT_DATA_DONE) ;; assert (r =? 0)
  else
    r <- on_emmc (sdWaitForInterrupt INT_READ_RDY) ;; assert (r =? 0) ;;;
    for_upto 128 0 (receive_turn b) ;;;
    r <- on_emmc (sdWaitForInterrupt INT_DATA_DONE) ;; assert (r =? 0).

Lemma wait_done k next (s : sdst) d : at_phase (emmc s) (Wait k INT_DATA_DONE next) d -> soon k ->
  exists e, (r <- on_emmc (sdWaitForInterrupt INT_DATA_DONE) ;; assert (r =? 0)) s = Ret (tt, set_emmc e s) /\ at_phase e next d /\ sdCard e = sdCard (emmc s).
Proof using.
  intros Ha Hk. destruct (sdWaitForInterrupt_spec k INT_DATA_DONE next d (emmc s)) as (e & E1 & H1 & Hc); [by do 3 right; left|done|done|].
  exists e. split; [|done]. by rewrite (bind_Ret _ _ _ _ _ (on_emmc_Ret _ s _ _ E1)).
Qed.

(** The block that the request [x] leaves in its buffer. *)
Definition answer (x : act) (d : gmap Z bytes) : option bytes := match a_data x with Some bs => Some bs | None => d !! a_block x end.
Definition after (x : act) (d : gmap Z bytes) : gmap Z bytes := match a_data x with Some bs => <[a_block x := bs]> d | None => d end.

Lemma transfer_spec b x y d (s : sdst) : a_answer x = None -> buf_ok x y -> bufs s !! b = Some y -> working (emmc s) y d ->
  exists e bs, answer x d = Some bs /\ length bs = 512%nat /\ Forall byte_ok bs /\
    transfer b y s = Ret (tt, set_emmc e (set_bufs (insert b (set_data bs y)) s)) /\ at_phase e Idle (after x d) /\ sdCard e = sdCard (emmc s).
Proof using.
  intros Hn (Hbl & Hl & Hok & Hy) Hb Hw. rewrite Hn in Hy. destruct Hy as [Hwr Hdata]. unfold working in Hw. unfold transfer. change (any (flags y) B_DIRTY) with (write_of y).
  unfold is_write, answer, after in *. destruct (a_data x) as [bs|]; rewrite Hwr in *.
  - specialize (Hdata bs eq_refl). subst bs. destruct Hw as (k & Hk & Ha). rewrite Hbl in Ha. destruct (wait_done k Idle s _ Ha Hk) as (e & E1 & H1 & Hc).
    exists e, (bdata y). repeat split; try done. rewrite E1. do 2 f_equal. destruct s as [? ? ? bf ? ? ? ?], y. unfold set_emmc, set_bufs. cbn in *. by rewrite insert_id.
  - destruct Hw as (k & bs & Hd & Hk & Ha). rewrite Hbl in Hd. destruct (em_block _ _ _ _ _ Ha Hd) as (_ & _ & Hlb & Hbok).
    destruct (sdWaitForInterrupt_spec k INT_READ_RDY _ d (emmc s) ltac:(by do 1 right; left) Ha Hk) as (e1 & E1 & H1 & Hc1).
    destruct (receive_loop b y bs d (set_emmc e1 s) Hl Hlb Hbok Hb H1) as (e2 & k2 & E2 & Hk2 & H2 & Hc2).
    destruct (wait_done k2 Idle (set_emmc e2 (set_bufs (insert b (set_data bs y)) (set_emmc e1 s))) d H2 Hk2) as (e3 & E3 & H3 & Hc3).
    exists e3, bs. repeat split; try done; [|rewrite Hc3; cbn; rewrite Hc2; cbn; by rewrite Hc1].
    rewrite (bind_Ret _ _ _ _ _ (on_emmc_Ret _ s _ _ E1)). change (SD_OK =? 0) with true. unfold assert at 1. rewrite (bind_Ret (ret tt) _ _ tt _ eq_refl), (bind_Ret _ _ _ _ _ E2). exact E3.
Qed.

Lemma intr_spec b rest a : pending a = b :: rest -> spec_step LIntr a =
  match acts a !! b with Some x => match answer x (disk a) with Some d => Some (mkSpec (after x (disk a)) rest (<[b := serve d x]> (acts a)), Nothing) | None => None end | None => None end.
Proof using. intros Hp. cbn [spec_step]. rewrite Hp. destruct (acts a !! b) as [x|]; [|done]. unfold answer, after. by destruct (a_data x). Qed.

(** The state when the request [b] has been served and taken off the queue. *)
Lemma rel_served b rest x bs y' a s s' :
  rel s a -> pending a = b :: rest -> acts a !! b = Some x -> answer x (disk a) = Some bs ->
  queue_rep (bnodes s') (bufQueue s') (bnode <$> rest) ->
  bufs s' !! b = Some y' -> buf_ok (serve bs x) y' -> sem_ok (serve bs x) (bufsem y') (swaits s') ->
  (forall b2, b2 <> b -> bufs s' !! b2 = bufs s !! b2) -> (forall w, no_sleep w x -> swaits s' !! w = swaits s !! w) -> hc_ok s' ->
  match rest with [] => at_phase (emmc s') Idle (after x (disk a)) | b2 :: _ => exists y2, bufs s' !! b2 = Some y2 /\ working (emmc s') y2 (after x (disk a)) end ->
  rel s' (mkSpec (after x (disk a)) rest (<[b := serve bs x]> (acts a))).
Proof using.
  intros H Hp Hx Hans Hq Hy' Hok Hsm Hother Hw Hhc Hwk. pose proof (rl_nodup _ _ H) as Hnd. rewrite Hp in Hnd. apply NoDup_cons in Hnd as [Hni Hnd].
  split; cbn [disk pending acts]; [done|done| | | | |done|done].
  - intros b2. pose proof (rl_pend _ _ H b2) as Hi. rewrite Hp, elem_of_cons in Hi. destruct (decide (b2 = b)) as [->|Hne].
    + rewrite lookup_insert_eq. split; [done|]. by intros (x2 & [= <-] & ?).
    + rewrite lookup_insert_ne by done. rewrite <- Hi. split; [by right|by intros [?|?]].
  - intros b2 x2 H2. destruct (decide (b2 = b)) as [->|Hne].
    + rewrite lookup_insert_eq in H2. injection H2 as <-. destruct (rl_act _ _ H b x Hx) as (H0 & H4 & _). split; [done|]. split; [done|]. by exists y'.
    + rewrite lookup_insert_ne in H2 by done. eapply act_ok_frame; [by apply Hother| |by apply H]. intros t2 w2 S2. apply Hw. intros t1 S1. by destruct (Hne (rl_dist _ _ H _ _ _ _ _ _ _ H2 Hx S2 S1)).
  - intros b1 b2 x1 x2 t t' w H1 H2 S1 S2.
    assert (Hback : forall b3 x3 t3, <[b := serve bs x]> (acts a) !! b3 = Some x3 -> a_stat x3 = Asleep t3 w -> exists x4, acts a !! b3 = Some x4 /\ a_stat x4 = Asleep t3 w).
    { intros b3 x3 t3 H3 S3. destruct (decide (b3 = b)) as [->|]; [rewrite lookup_insert_eq in H3; injection H3 as <-; by exists x|rewrite lookup_insert_ne in H3 by done; by exists x3]. }
    destruct (Hback _ _ _ H1 S1) as (x3 & H3 & S3). destruct (Hback _ _ _ H2 S2) as (x4 & H4 & S4). by eapply (rl_dist _ _ H).
  - intros b2 x2 H2 Hn2. destruct (decide (b2 = b)) as [->|Hne]; [rewrite lookup_insert_eq in H2; by injection H2 as <-|]. rewrite lookup_insert_ne in H2 by done.
    pose proof (rl_blocks _ _ H b2 x2 H2 Hn2) as Hd. unfold after. destruct (a_data x); [|done]. apply lookup_insert_is_Some'. by right.
Qed.

Lemma intr_sim a a' o s : rel s a -> spec_step LIntr a = Some (a', o) -> exists s', call LIntr s = Ret (o, s') /\ rel s' a'.
Proof using.
  intros H Hs. destruct (pending a) as [|b rest] eqn:Hp; [cbn [spec_step] in Hs; by rewrite Hp in Hs|]. rewrite (intr_spec b rest a Hp) in Hs.
  destruct (proj1 (rl_pend _ _ H b)) as (x & Hx & Hn); [rewrite Hp; by left|]. rewrite Hx in Hs.
  destruct (rl_act _ _ H b x Hx) as (Hb0 & Hb4 & y & Hy & Hok & Hsm). pose proof (rl_work _ _ H) as Hk. rewrite Hp in Hk. destruct Hk as (y0 & Hy0 & Hwk). rewrite Hy in Hy0. injection Hy0 as <-.
  destruct (transfer_spec b x y (disk a) s Hn Hok Hy Hwk) as (e & bs & Hans & Hlb & Hbok & E1 & He & Hc). rewrite Hans in Hs. injection Hs as <- <-.
  pose proof (rl_nodup _ _ H) as Hnd. rewrite Hp in Hnd. apply NoDup_cons in Hnd as [Hni Hnd].
  set (s1 := set_emmc e (set_bufs (insert b (set_data bs y)) s)) in *. set (y2 := set_flags B_VALID (set_data bs y)). set (s2 := set_bufs (insert b y2) s1).
  pose proof (rl_queue _ _ H) as Hq. rewrite Hp, fmap_cons in Hq. destruct (queue_pop_fifo _ _ _ _ Hq) as (q' & h' & Eq & Hq').
  set (s3 := set_bufQueue q' (set_bnodes h' s2)).
  destruct (posts x (bufsem y) (swaits s) (swoken s) Hn Hsm) as (m & wts & ak & Epost & Hpost & Hwts). set (y4 := set_bufsem m y2). set (s4 := set_swaits wts ak (set_bufs (insert b y4) s3)).
  assert (Hother : forall b2, b2 <> b -> bufs s4 !! b2 = bufs s !! b2) by (intros b2 Hb2; cbn; by rewrite !lookup_insert_ne by done).
  assert (Hy4 : bufs s4 !! b = Some y4) by apply lookup_insert_eq.
  assert (E4 : sd_intr s = (e <- bufqueue_empty ;; when (negb e) (f <- bufqueue_front ;; sd_start f)) s4).
  { destruct (queue_front_fifo _ _ _ Hq) as [Ef Ee]. unfold sd_intr, bufqueue_front. rewrite bind_assoc, (bind_Ret (gets bufQueue) _ s _ s eq_refl), Ee. cbn [fmap list_fmap]. rewrite bool_decide_eq_false_2 by done.
    rewrite bind_assoc. rewrite (bind_Ret (zoom bnodes set_bnodes (queue_front (bufQueue s))) _ s (bnode b) s) by (unfold zoom; rewrite Ef; by destruct s).
    rewrite (bind_Ret (ret _) _ s b s) by (unfold ret, of_bnode, bnode; do 2 f_equal; lia).
    rewrite (bind_Ret _ _ _ _ _ (load_buf_Ret b s y Hy)). fold (transfer b y). rewrite (bind_Ret _ _ _ _ _ E1).
    rewrite (bind_Ret _ _ _ _ _ (update_buf_Ret b _ s1 (set_data bs y) ltac:(apply lookup_insert_eq))). fold y2 s2.
    unfold bufqueue_pop at 1. rewrite (bind_Ret _ _ _ _ _ (on_queue_Ret queue_pop s2 q' h' Eq)). fold s3.
    rewrite (bind_Ret _ _ _ _ _ (on_bufsem_Ret b _post_sem s3 y2 tt m wts ak ltac:(apply lookup_insert_eq) Epost)). fold y4 s4. reflexivity. }
  assert (Hok4 : buf_ok (serve bs x) y4).
  { destruct Hok as (Hbl & _). split; [exact Hbl|]. split; [done|]. split; [done|]. by split. }
  destruct (queue_front_fifo h' q' (bnode <$> rest) Hq') as [Ef Ee].
  assert (E5 : forall e, bufqueue_empty (set_emmc e s4) = Ret (bool_decide (bnode <$> rest = []), set_emmc e s4)) by (intros e0; unfold bufqueue_empty, gets, bind, ret; cbn; by rewrite Ee).
  assert (Ety : sd_type (sdCard (emmc s4)) = sd_type (sdCard (emmc s))) by (cbn; by rewrite Hc).
  cbn [call]. rewrite (bind_cong _ _ _ _ _ E4). destruct rest as [|b2 rest].
  - exists s4. split.
    + unfold bind. change s4 with (set_emmc e s4). rewrite E5. done.
    + eapply (rel_served b [] x bs y4); try done. unfold hc_ok. rewrite Ety. apply H.
  - destruct (proj1 (rl_pend _ _ H b2)) as (x2 & Hx2 & Hn2); [rewrite Hp; right; by left|].
    assert (Hne : b2 <> b) by (intros ->; apply Hni; by left).
    destruct (rl_act _ _ H b2 x2 Hx2) as (H20 & H24 & yn & Hyn & Hokn & _). pose proof Hokn as (Hbln & Hln & Hbyn & _).
    destruct (sd_start_spec b2 yn (after x (disk a)) s4) as (e5 & E6 & Hwk5 & Hty5).
    { by repeat split. } { by rewrite Hother. } { unfold hc_ok. rewrite Ety. apply H. } { exact He. }
    { rewrite Hbln. pose proof (rl_blocks _ _ H b2 x2 Hx2 Hn2) as Hd. unfold after. destruct (a_data x); [|done]. apply lookup_insert_is_Some'. by right. }
    exists (set_emmc e5 s4). split.
    + rewrite bind_assoc. change s4 with (set_emmc e s4) at 1. rewrite (bind_Ret _ _ _ _ _ (E5 e)). change (set_emmc e s4) with s4. rewrite bool_decide_eq_false_2 by done. cbn [negb when].
      unfold bufqueue_front. rewrite !bind_assoc. rewrite (bind_Ret (gets bufQueue) _ s4 q' s4 eq_refl), Ee, bool_decide_eq_false_2 by done.
      rewrite !bind_assoc. rewrite (bind_Ret (zoom bnodes set_bnodes (queue_front q')) _ s4 (bnode b2) s4) by (unfold zoom; change (bnodes s4) with h'; rewrite Ef; done).
      rewrite (bind_Ret (ret _) _ s4 b2 s4) by (unfold ret, of_bnode, bnode; do 2 f_equal; lia). by rewrite (bind_Ret _ _ _ _ _ E6).
    + eapply (rel_served b (b2 :: rest) x bs y4); try done; [unfold hc_ok; cbn; rewrite Hty5, Ety; apply H|]. exists yn. split; [by rewrite Hother|done].
Qed.

(** ** Every step *)
Lemma step_sim l a a' o s : rel s a -> spec_step l a = Some (a', o) -> exists s', call l s = Ret (o, s') /\ rel s' a'.
Proof using.
  intros H Hs. destruct l as [b n junk|b n data junk|b t w|b t w w'| |b|b]; [| |by eapply wait_sim|by eapply wake_sim|by eapply intr_sim| |]; cbn [spec_step] in Hs.
  - destruct (is_block (bdata junk)) eqn:Hj; [|done]. apply is_block_ok in Hj as [Hl Hok].
    destruct (enter_sim b n None a a' o (set_flags 0 (set_blockno (device_blockno n) junk)) s H Hs) as (s' & E1 & -> & H'); [by repeat split|].
    exists s'. split; [|done]. cbn [call]. unfold sd_read_start. by rewrite (bind_Ret _ _ _ _ _ E1).
  - destruct (is_block data && is_block (bdata junk)) eqn:Hj; [|done]. apply andb_true_iff in Hj as [[Hld Hokd]%is_block_ok [Hl Hok]%is_block_ok].
    assert (Ed : splice 0 (take (Z.to_nat BLOCK_SIZE) data) (bdata junk) = data).
    { change (Z.to_nat BLOCK_SIZE) with 512%nat. rewrite take_ge by lia. unfold splice. rewrite take_0, drop_ge by lia. cbn [app]. apply app_nil_r. }
    destruct (enter_sim b n (Some data) a a' o (set_data (splice 0 (take (Z.to_nat BLOCK_SIZE) data) (bdata junk)) (set_flags (Z.lor B_DIRTY B_VALID) (set_blockno (device_blockno n) junk))) s H Hs) as (s' & E1 & -> & H').
    { rewrite Ed. split; [done|]. split; [done|]. split; [done|]. split; [done|]. by intros d [= <-]. }
    exists s'. split; [|done]. cbn [call]. unfold sd_write_start. by rewrite (bind_Ret _ _ _ _ _ E1).
  - destruct (acts a !! b) as [[n data an st]|] eqn:Hx; [|done]. destruct data, an as [d|], st; try done. injection Hs as <- <-.
    destruct (rl_act _ _ H b _ Hx) as (_ & _ & y & Hy & (_ & Hl & _ & _ & Hd) & _). exists (set_bufs (delete b) s). split; [|by eapply end_rel].
    cbn [call]. unfold sd_read_end. rewrite bind_assoc, (bind_Ret _ _ _ _ _ (load_buf_Ret b s y Hy)). unfold bind, modify, ret. change (Z.to_nat BLOCK_SIZE) with 512%nat. by rewrite take_ge, Hd by lia.
  - destruct (acts a !! b) as [[n data an st]|] eqn:Hx; [|done]. destruct data, an as [d|], st; try done. injection Hs as <- <-.
    exists (set_bufs (delete b) s). split; [done|by eapply end_rel].
Qed.

(** C8: the disk as its clients see it. For any sequence of steps of the
    threads that read and write blocks and of interrupts, as long as the
    controller interrupts only while it works on a request and every thread
    keeps to the order of its own steps, the code returns what the
    specification says, and no step fails: requests are served one per
    interrupt in the order in which they were made, a read gives its thread
    the block as it is when it is served, a write has changed the disk by the
    time its thread goes on, and a thread sleeps exactly when its request has
    not been served. *)
Theorem disk_requests_refine ls a a' os s :
  rel s a -> spec_run ls a = Some (a', os) -> exists s', run ls s = Ret (os, s') /\ rel s' a'.
Proof using.
  revert a os s. induction ls as [|l ls IH]; intros a os s H Hr; cbn [spec_run] in Hr; [injection Hr as <- <-; by exists s|].
  destruct (spec_step l a) as [[a1 o]|] eqn:E1; [|done]. cbn in Hr. destruct (spec_run ls a1) as [[a2 os1]|] eqn:E2; [|done]. injection Hr as <- <-.
  destruct (step_sim l a a1 o s H E1) as (s1 & C1 & H1). destruct (IH a1 os1 s1 H1 E2) as (s2 & C2 & H2). exists s2. split; [|done].
  cbn [run]. by rewrite (bind_Ret _ _ _ _ _ C1), (bind_Ret _ _ _ _ _ C2).
Qed.
End code.

(** ** A controller *)
Record ctl := mkCtl { ctl_phase : phase; ctl_disk : gmap Z bytes }.

Definition ctl_read (r : Z) (c : ctl) : Z * ctl :=
  if r =? EMMC_INTERRUPT then
    match ctl_phase c with
    | Wait (S k) bit next => (0, mkCtl (Wait k bit next) (ctl_disk c))
    | Wait 0 bit _ => (bit, c)
    | _ => (0, c)
    end
  else if r =? EMMC_DATA then
    match ctl_phase c with
    | Fifo (w :: ws) => (w, mkCtl (match ws with [] => Wait 1 INT_DATA_DONE Idle | _ => Fifo ws end) (ctl_disk c))
    | _ => (0, c)
    end
  else (0, c).

Definition ctl_write (r v : Z) (c : ctl) : ctl :=
  let d := ctl_disk c in
  if r =? EMMC_INTERRUPT then match ctl_phase c with Wait 0 bit next => if v =? bit then mkCtl next d else c | _ => c end
  else if r =? EMMC_ARG1 then match ctl_phase c with Idle => mkCtl (Armed v) d | _ => c end
  else if r =? EMMC_CMDTM then
    match ctl_phase c with
    | Armed n =>
        if v =? 0x18220000 then mkCtl (Wait 2 INT_CMD_DONE (Wait 2 INT_WRITE_RDY (Sending n []))) d
        else match d !! n with Some bs => mkCtl (Wait 2 INT_CMD_DONE (Wait 2 INT_READ_RDY (Fifo (words 4 128 bs)))) d | None => c end
    | _ => c
    end
  else if r =? EMMC_DATA then
    match ctl_phase c with
    | Sending n ws => if (length ws =? 127)%nat then mkCtl (Wait 1 INT_DATA_DONE Idle) (<[n := unwords 4 (ws ++ [v])]> d) else mkCtl (Sending n (ws ++ [v])) d
    | _ => c
    end
  else c.

#[export] Instance ctl_emmc : Emmc ctl := {|
  reg_read r c := Ret (ctl_read r c);
  reg_write r v c := Ret (tt, ctl_write r v c);
  delay_us _ c := Ret (tt, c)
|}.

Fixpoint phase_ok (p : phase) : Prop :=
  match p with Wait _ _ next => phase_ok next | Sending n _ => 0 <= n < 2 ^ 31 | _ => True end.
Definition ctl_at (c : ctl) (p : phase) (d : gmap Z bytes) : Prop :=
  c = mkCtl p d /\ phase_ok p /\ forall n bs, d !! n = Some bs -> 0 <= n < 2 ^ 31 /\ length bs = 512%nat /\ Forall byte_ok bs.

Lemma ctl_moves p' d' c c' p d : ctl_at c p d -> c' = mkCtl p' d' -> phase_ok p' -> (d' = d \/ exists n bs, 0 <= n < 2 ^ 31 /\ length bs = 512%nat /\ Forall byte_ok bs /\ d' = <[n := bs]> d) -> ctl_at c' p' d'.
Proof.
  intros (_ & _ & Hd) -> Hp [->|(n & bs & Hn & Hl & Hb & ->)]; (split; [done|]; split; [done|]); [done|]. intros n' bs'. destruct (decide (n' = n)) as [->|Hne]; [rewrite lookup_insert_eq; by intros [= <-]|rewrite lookup_insert_ne by done; apply Hd].
Qed.

#[export] Instance ctl_laws : EmmcLaws ctl.
Proof.
  refine {| em_hc := true; emmc_at := ctl_at |}.
  - intros c p d n bs (_ & _ & Hd) Hn. cbn. destruct (Hd n bs Hn) as (? & ? & ?). done || (split; [lia|]; split; [lia|done]).
  - intros c p d us H. exists c, p. split; [done|]. split; [by left|done].
  - intros c d H. exists 0, c. done.
  - intros c p d (-> & H) Hq. exists (mkCtl p d). by destruct p.
  - intros c k bit next d H. exists (mkCtl (Wait k bit next) d), k. pose proof H as (-> & Hp & _). split; [done|]. split; [lia|]. eapply ctl_moves; [done|done|done|by left].
  - intros c bit next d H. exists c. pose proof H as (-> & _). done.
  - intros c bit next d H. exists (mkCtl next d). pose proof H as (-> & Hp & _). split; [|eapply ctl_moves; [done|done|done|by left]]. cbn. unfold ctl_write. cbn. by rewrite Z.eqb_refl.
  - intros c d H. exists c. pose proof H as (-> & _). done.
  - intros c p d H. exists 0, c, p. split; [done|]. split; [done|]. split; [lia|]. split; [by left|done].
  - intros c d H. exists c. done.
  - intros c a d H. exists (mkCtl (Armed a) d). pose proof H as (-> & _). split; [done|]. eapply ctl_moves; [done|done|done|by left].
  - intros c n bs d H Hn. pose proof H as (-> & _ & Hd). destruct (Hd n bs Hn) as (Hr & _). cbn [card_arg] in *. rewrite u32_small in * by lia.
    exists (mkCtl (Wait 2 INT_CMD_DONE (Wait 2 INT_READ_RDY (Fifo (words 4 128 bs)))) d), 2%nat, 2%nat. split; [cbn -[words]; unfold ctl_write; cbn -[words]; by rewrite Hn|]. split; [done|]. split; [done|]. eapply ctl_moves; [done|done|done|by left].
  - intros c n bs d H Hn. pose proof H as (-> & _ & Hd). destruct (Hd n bs Hn) as (Hr & _). cbn [card_arg] in *. rewrite u32_small in * by lia.
    exists (mkCtl (Wait 2 INT_CMD_DONE (Wait 2 INT_WRITE_RDY (Sending n []))) d), 2%nat, 2%nat. split; [done|]. split; [done|]. split; [done|]. eapply ctl_moves; [done|done|done|by left].
  - intros c w ws d H. pose proof H as (-> & _). exists (mkCtl (match ws with [] => Wait 1 INT_DATA_DONE Idle | _ => Fifo ws end) d), 1%nat. split; [done|]. split; [done|]. eapply ctl_moves; [done|done|by destruct ws|by left].
  - intros c n ws w d H Hl Hw. pose proof H as (-> & Hp & _). exists (mkCtl (Sending n (ws ++ [w])) d). split; [|eapply ctl_moves; [done|done|done|by left]]. cbn. unfold ctl_write. cbn. by rewrite (proj2 (Nat.eqb_neq (length ws) 127)) by lia.
  - intros c n ws w d H Hl Hw. pose proof H as (-> & Hp & _). exists (mkCtl (Wait 1 INT_DATA_DONE Idle) (<[n := unwords 4 (ws ++ [w])]> d)), 1%nat. split; [cbn -[Nat.eqb]; unfold ctl_write; cbn -[Nat.eqb]; by rewrite Hl|]. split; [done|].
    eapply ctl_moves; [done|done|done|]. right. exists n, (unwords 4 (ws ++ [w])). split; [done|]. split; [rewrite unwords_length, length_app; cbn; lia|]. split; [apply unwords_ok|done].
Defined.

(** One thread writes block 1, another one reads it meanwhile: it sleeps, and
    gets what the first one wrote. *)
Definition ex_junk : buf := mkBuf 0 0 (replicate 512 0) (mkSem 0 []).
Definition ex_disk : gmap Z bytes := {[device_blockno 1 := replicate 512 7]}.
Definition ex_sd : sdst ctl := mkSdst (mkEmmc (mkCtl Idle ex_disk) (mkSD [] [] [] 0 0 SD_TYPE_2_HC 0 0 0 0 0)) queue_init ∅ ∅ ∅ [] 0 0.
Definition ex_labels : list label :=
  [LWrite 1000 1 (replicate 512 9) ex_junk; LRead 2000 1 ex_junk; LWait 2000 50 60; LIntr; LWait 1000 40 61; LIntr; LWriteEnd 1000; LWake 2000 50 60 62; LReadEnd 2000].

Lemma disk_requests_refine_witness :
  exists s', run ex_labels ex_sd = Ret ([Nothing; Nothing; Passes false; Nothing; Passes true; Nothing; Nothing; Passes true; Data (replicate 512 9)], s').
Proof.
  assert (E0 : snd <$> spec_run ex_labels (mkSpec ex_disk [] ∅) = Some [Nothing; Nothing; Passes false; Nothing; Passes true; Nothing; Nothing; Passes true; Data (replicate 512 9)]) by (vm_compute; reflexivity).
  destruct (spec_run ex_labels (mkSpec ex_disk [] ∅)) as [[a' os]|] eqn:E; [|discriminate]. injection E0 as Eo.
  destruct (disk_requests_refine ex_labels (mkSpec ex_disk [] ∅) a' os ex_sd) as (s' & Er & _); [|exact E|exists s'; rewrite Er, Eo; reflexivity].
  split; cbn [ex_sd bnodes bufQueue pending acts disk emmc].
  - by repeat split.
  - constructor.
  - intros b. split; [by intros ?%elem_of_nil|intros (x & Hx & _); by rewrite lookup_empty in Hx].
  - intros b x Hx. by rewrite lookup_empty in Hx.
  - intros b b' x x' t t' w Hx. by rewrite lookup_empty in Hx.
  - intros b x Hx. by rewrite lookup_empty in Hx.
  - reflexivity.
  - split; [reflexivity|]. split; [exact I|]. unfold ex_disk. intros n bs [<- <-]%lookup_singleton_Some. split; [vm_compute; split; congruence|]. split; [apply length_replicate|]. apply Forall_replicate. unfold byte_ok. lia.
Defined.

(** A thread killed while its request waits goes on at once, with whatever
    its buffer holds; the buffer is gone when the interrupt comes. *)
Lemma killed_reader_faults :
  match run [LRead 2000 1 ex_junk; LWait 2000 50 60; LWake 2000 50 60 62; LReadEnd 2000] ex_sd with
  | Ret (os, s') => os = [Nothing; Passes false; Passes true; Data (replicate 512 0)] /\ sd_intr s' = Stop Fault
  | Stop _ => False
  end.
Proof. vm_compute. by split. Qed.
