(* ===== verification/Fork.v ===== *)
(** * Two address spaces in one memory, and sharing a page (kernel/proc.c, fork)

    [both]: the page tables of two processes, of different pages of the same
    allocator. A page that is no table is shared by [fork] by entering it in
    the other tree, read-only, and making the own entry read-only. *)
From stdpp Require Import base gmap list.
From Stdlib Require Import ZArith Lia.
From S2P Require Import Prelude Bytes Bitmap BCache BlockStore CString Console Inode Pipe File Mmu LockFree Mem PT Sections Paging PagingMem PagingProps SwapProps SwapCalls.

(** ** [kalloc] leaves the pages in use alone *)
Lemma get_head_state q h s s1 : get_head q s = Ret (h, s1) -> s1 = s.
Proof. unfold get_head, gets, stop. intros H. repeat case_match; by simplify_eq. Qed.

Lemma put_head_kept q h s s1 : put_head q h s = Ret (tt, s1) -> words s1 = words s /\ alloc_page_cnt s1 = alloc_page_cnt s.
Proof. unfold put_head, modify, stop. intros H. repeat case_match; by simplify_eq. Qed.

Lemma queue_words q node s s' : add_to_queue q node s = Ret (tt, s') -> (forall w, w <> node -> words s' !! w = words s !! w) /\ alloc_page_cnt s' = alloc_page_cnt s.
Proof.
  unfold add_to_queue. intros H. apply bind_inv in H as (h & s1 & ->%get_head_state & H). apply bind_inv in H as ([] & s2 & H2 & [H3 H4]%put_head_kept).
  unfold wr_word in H2. case_match; [|done]. injection H2 as <-. rewrite H3, H4. split; [|done]. intros w Hw. cbn. by apply lookup_insert_ne.
Qed.

Lemma fetch_words q a s s' : fetch_from_queue q s = Ret (a, s') -> words s' = words s /\ alloc_page_cnt s' = alloc_page_cnt s.
Proof.
  unfold fetch_from_queue. intros H. apply bind_inv in H as (h & s1 & ->%get_head_state & H). case_match; [unfold ret in H; by simplify_eq|].
  apply bind_inv in H as (n & s1 & H2 & H). assert (s1 = s) as -> by (unfold rd_word in H2; case_match; by simplify_eq).
  apply bind_inv in H as ([] & s2 & H3%put_head_kept & H4). unfold ret in H4. by simplify_eq.
Qed.

Lemma fill_words fuel sz e it s s' : 0 < sz -> while fuel (add_turn sz e) it s = Ret (tt, s') ->
  (forall w, w < it \/ e <= w -> words s' !! w = words s !! w) /\ alloc_page_cnt s' = alloc_page_cnt s.
Proof.
  intros Hsz. revert it s. induction fuel as [|fuel IH]; intros it s H; [done|]. rewrite while_S in H. unfold add_turn at 1 in H. destruct (Z.ltb_spec (it + sz) e) as [Hlt|Hge].
  - rewrite bind_assoc in H. apply bind_inv in H as ([] & s1 & [H1 H1']%queue_words & H). rewrite (bind_Ret (ret (inl (it + sz))) _ s1 _ s1 eq_refl) in H. destruct (IH _ _ H) as [H2 H2']. split; [|congruence].
    intros w Hw. rewrite H2 by lia. apply H1. lia.
  - unfold ret, bind in H. by simplify_eq.
Qed.

Definition pages_same (g : ghost) (s s' : mem_st) : Prop := forall p n w, gheld g !! p = Some n -> p <= w < p + PAGE_SIZE -> words s' !! w = words s !! w.

Lemma kalloc_words lo s g size fuel a s' : mem_inv lo s g -> 1 <= size <= 4080 -> Z.of_nat (length (gfree g)) < 2 ^ 63 -> (257 <= fuel)%nat ->
  kalloc fuel size s = Ret (a, s') -> pages_same g s s' /\ alloc_page_cnt s - 1 <= alloc_page_cnt s'.
Proof.
  intros H Hs Hlen Hf E. destruct (round_size_ok size Hs) as [Hsz Hm]. unfold kalloc in E. fold (round_size size) in E. set (sz := round_size size) in *.
  destruct fuel as [|fuel]; [lia|]. rewrite while_S in E. unfold kalloc_turn at 1 in E. rewrite bind_assoc in E. apply bind_inv in E as (h & s1 & E1 & E). pose proof (fetch_words _ _ _ _ E1) as [W1 C1].
  destruct (class_spec sz Hsz Hm) as (Hi & _). destruct (i_len _ _ _ H) as [_ L2]. destruct (lookup_lt_is_Some_2 (gslots g) (class sz)) as [l0 Hl]; [lia|]. destruct l0 as [|b l].
  2: { destruct (kalloc_take lo s g sz b l H Hsz Hm Hl) as (s2 & g2 & E2 & H0 & _). rewrite E1 in E2. injection E2 as -> ->. rewrite (proj2 (Z.eqb_neq b 0)) in E by done. unfold ret, bind in E. simplify_eq. split; [intros p n w _ _; by rewrite W1|lia]. }
  rewrite (fetch_empty lo s g sz H Hsz Hm Hl) in E1. injection E1 as <- <-. change (0 =? 0) with true in E. cbv iota in E. rewrite bind_assoc in E. apply bind_inv in E as ([] & s2 & E2 & E). rewrite (bind_Ret (ret (inl tt)) _ s2 _ s2 eq_refl) in E.
  destruct (gfree g) as [|q lf] eqn:Ef.
  { unfold _add_page in E2. apply bind_inv in E2 as (x & s3 & E2 & _). by rewrite (kalloc_page_empty lo s g H Ef) in E2. }
  assert (Ws2 : pages_same g s s2 /\ alloc_page_cnt s2 = alloc_page_cnt s - 1).
  { pose proof E2 as E3. unfold _add_page in E3. destruct (kalloc_page_spec lo s g q lf H Ef ltac:(rewrite Ef; lia)) as (s3 & K1 & K3 & _ & _ & K2). rewrite (bind_Ret _ _ _ _ _ K1) in E3.
    pose proof (i_cnt _ _ _ H) as Hc0. pose proof (i_cnt _ _ _ K3) as Hc3. rewrite Ef in Hc0. cbn in Hc0, Hc3.
    apply bind_inv in E3 as ([] & s4 & E4 & E3). apply fill_words in E3 as [F1 F2]; [|lia]. unfold wr_word in E4. case_match; [|done]. injection E4 as <-. cbn in F2. split; [|lia].
    intros p n w Hp Hw. pose proof (i_ok _ _ _ H q ltac:(left; rewrite Ef; by left)) as Hqo. pose proof (i_ok _ _ _ H p ltac:(right; right; by exists n)) as Hpo. destruct (i_sep _ _ _ H q ltac:(rewrite Ef; by left)) as [_ Hqh].
    assert (Hout : w < q \/ q + PAGE_SIZE <= w) by (destruct (pages_disjoint lo p q Hpo Hqo) as [?|?]; [congruence|lia..]).
    rewrite F1 by lia. cbn. rewrite lookup_insert_ne by (unfold PAGE_SIZE in *; lia). by rewrite K2. }
  destruct (add_page_spec lo s g sz q lf (S fuel) H Ef) as (s3 & g3 & A1 & _ & A3 & _ & _ & _ & b & l' & A7); [by rewrite Ef|done|done|lia|]. rewrite A1 in E2. injection E2 as ->.
  destruct fuel as [|fuel]; [lia|]. rewrite while_S in E. unfold kalloc_turn at 1 in E. rewrite bind_assoc in E. apply bind_inv in E as (h & s4 & E1 & E). pose proof (fetch_words _ _ _ _ E1) as [W4 C4].
  destruct (kalloc_take lo s2 g3 sz b l' A3 Hsz Hm A7) as (s5 & g5 & E2 & H0 & _). rewrite E1 in E2. injection E2 as -> ->. rewrite (proj2 (Z.eqb_neq b 0)) in E by done. unfold ret, bind in E. simplify_eq.
  split; [|lia]. intros p n w Hp Hw. rewrite W4. by eapply Ws2.
Qed.

(** ** A page table while others use the allocator *)
Definition tables_same (T : tables) (s s' : mem_st) : Prop := forall a q w, T !! a = Some q -> q <= w < q + PAGE_SIZE -> words s' !! w = words s !! w.

Lemma entry_in lo q i : page_ok lo q -> 0 <= i < 512 -> q <= pte_ptr q i < q + PAGE_SIZE.
Proof. unfold pte_ptr, PAGE_SIZE. lia. Qed.

Lemma other_tables lo s g s' g' pt T : pt_inv lo s g pt T -> mem_inv lo s' g' -> tables_same T s s' -> (forall a q, T !! a = Some q -> gheld g' !! q = Some 0) ->
  zero_page s' = zero_page s -> is_Some (gheld g' !! zero_page s) -> pt_inv lo s' g' pt T.
Proof.
  intros H HM Hw Hh Hz Hzh. constructor; try apply H; try done.
  - destruct (p_zero _ _ _ _ _ H) as (z & <- & _ & Hzt). exists (zero_page s). split; [done|]. split; [done|exact Hzt].
  - intros a q i Ha Hl Hi. rewrite (Hw a q) by (done || by eapply (entry_in lo), Hi; eapply table_page). by apply (p_entry _ _ _ _ _ H).
  - intros a q i Ha Hl Hi. rewrite (Hw a q) by (done || by eapply (entry_in lo), Hi; eapply table_page). by eapply (p_leaf _ _ _ _ _ H).
Qed.

Lemma pte_of_same lo s g s' pt T va : pt_inv lo s g pt T -> tables_same T s s' -> pte_of s' T va = pte_of s T va.
Proof.
  intros H Hw. unfold pte_of. destruct (T !! path va) as [q|] eqn:Hq; [|done]. rewrite (Hw _ q _ Hq); [done|]. eapply (entry_in lo); [by eapply table_page|apply part_bounds].
Qed.

(** ** [vmmap], for what else is in the memory *)
Record mapped (lo : Z) (m0 : mem_st) (g : ghost) (T : tables) (m : mem_st) (g' : ghost) (pt' : Z) (T' : tables) (va ka fl n : Z) : Prop := {
  mp_inv : pt_inv lo m g' pt' T';
  mp_here : forall a, same_page a va -> pte_of m T' a = K2P ka + fl;
  mp_beyond : forall a, ~ same_page a va -> pte_of m T' a = pte_of m0 T a;
  mp_count : gheld g' !! ka = Some (n + 1);
  mp_held : forall q k, gheld g !! q = Some k -> q <> ka -> gheld g' !! q = Some k;
  mp_words : forall q k w, user_page T g q k -> q <= w < q + PAGE_SIZE -> words m !! w = words m0 !! w;
  mp_tables : forall a q, T' !! a = Some q -> (exists b, T !! b = Some q) \/ gheld g !! q = None;
  mp_sub : T ⊆ T';
  mp_free : (length (gfree g) <= 4 + length (gfree g'))%nat;
  mp_zero : zero_page m = zero_page m0
}.

Lemma user_after lo m0 g T m g' pt' T' va ka fl n q k : mapped lo m0 g T m g' pt' T' va ka fl n -> user_page T g q k -> user_page T' g' q (if q =? ka then n + 1 else k).
Proof.
  intros H [Hq Ht]. split.
  - destruct (Z.eqb_spec q ka) as [->|Hne]; [apply H|by eapply mp_held].
  - intros a Ha. destruct (mp_tables _ _ _ _ _ _ _ _ _ _ _ _ H a q Ha) as [[b Hb]|Hn]; [by apply (Ht b)|congruence].
Qed.

Lemma vmmap_maps lo m0 g pt T va ka fl n : pt_inv lo m0 g pt T -> (4 <= length (gfree g))%nat -> user_page T g ka n -> 0 <= fl < 4096 ->
  exists m g' pt' T', PT.vmmap pt va ka fl m0 = Ret (pt', m) /\ mapped lo m0 g T m g' pt' T' va ka fl n.
Proof.
  intros H Hf Hka Hfl. destruct (get_pte_alloc lo m0 g pt T va H Hf) as (m1 & g1 & pt1 & T1 & q & E1 & H1 & Hq & G).
  destruct (user_grown _ _ _ _ _ _ _ ka n G Hka) as [Hka1 _]. destruct (enter lo pt1 T1 m1 g1 va q (K2P ka + fl) H1 Hq) as [E2 [N1 N2 N3 N4]]. set (m2 := set_words _ m1) in *.
  destruct Hka1 as [Hk1 Ht1]. destruct (increment_inv lo m2 g1 pt1 T1 ka n N1 Hk1 Ht1) as (m3 & E3 & H3 & Hw3).
  destruct (increment_ref_spec lo m2 g1 ka n (p_mem _ _ _ _ _ N1) Hk1) as (m3' & E3' & _ & Hz3 & _). rewrite E3 in E3'. injection E3' as <-.
  destruct (entry_of lo ka fl (held_page _ _ _ _ _ (p_mem _ _ _ _ _ H) (proj1 Hka)) Hfl) as (Ev & _ & _ & _).
  exists m3, (count_page ka (n + 1) g1), pt1, T1. split.
  { unfold PT.vmmap. rewrite (bind_Ret _ _ _ _ _ E1). cbn [fst snd]. rewrite Ev. fold (entry_ptr q va). rewrite (bind_Ret _ _ _ _ _ E2), (bind_Ret _ _ _ _ _ E3). done. }
  split; cbn [gheld count_page gfree].
  - done.
  - intros a Ha. unfold pte_of. rewrite Hw3. by apply N2.
  - intros a Ha. rewrite <- (pte_of_grown _ _ _ _ _ _ _ a G), <- (N3 a Ha). unfold pte_of. by rewrite Hw3.
  - apply lookup_insert_eq.
  - intros q' k Hq' Hne. rewrite lookup_insert_ne by done. by apply (lookup_weaken _ _ _ _ Hq'), (gr_held _ _ _ _ _ _ _ G).
  - intros q' k w Hq' Hw. destruct (user_grown _ _ _ _ _ _ _ q' k G Hq') as [Hq1 _]. destruct (gr_pages _ _ _ _ _ _ _ G) as [_ Hk]. rewrite Hw3. unfold m2, set_words. cbn [words].
    rewrite lookup_insert_ne; [destruct Hq'; by eapply Hk|]. intros <-. eapply (user_not_table lo pt1 T1 m1 g1 q' k (path va) q); [done|done|done|apply part_bounds|exact Hw].
  - intros a q' Ha. destruct (T !! a) as [p|] eqn:E; [left|right; by eapply (gr_new _ _ _ _ _ _ _ G)]. exists a. pose proof (lookup_weaken _ _ _ _ E (gr_tables _ _ _ _ _ _ _ G)). congruence.
  - apply G.
  - apply G.
  - rewrite Hz3. unfold m2, set_words. cbn. apply (gr_pages _ _ _ _ _ _ _ G).
Qed.

(** ** Two address spaces *)
Section fork.
Context {St : Type} {BC : BlockCache St} (kend this np : Z).
Abbreviation lo := (PAGE_BASE kend + PAGE_SIZE).
Abbreviation pst := (pst St).

Record both (s : pst) (g : ghost) (d d' : pgdir) (T T' : tables) : Prop := {
  bo_par : space kend this s g d T;
  bo_kid : space kend np s g d' T';
  bo_apart : forall a b q, T !! a = Some q -> T' !! b <> Some q
}.

Definition common (T T' : tables) (g : ghost) (p n : Z) : Prop := user_page T g p n /\ user_page T' g p n.

(** One page of the parent, [p], is shared at [va]. *)
Record shared1 (s s' : pst) (g g' : ghost) (d d' d1 : pgdir) (T T' T1 : tables) (va p e n : Z) : Prop := {
  s1_both : both s' g' d d1 T T1;
  s1_dir : d1 = set_pt (pt d1) d';
  s1_par : forall a, same_page a va -> pte_of (pmem s') T a = e;
  s1_kid : forall a, same_page a va -> pte_of (pmem s') T1 a = e;
  s1_par_other : forall a, ~ same_page a va -> pte_of (pmem s') T a = pte_of (pmem s) T a;
  s1_kid_other : forall a, ~ same_page a va -> pte_of (pmem s') T1 a = pte_of (pmem s) T' a;
  s1_common : forall q k, common T T' g q k -> common T T1 g' q (if q =? p then n + 1 else k);
  s1_pages : forall q k, common T T' g q k -> page_words (pmem s') q = page_words (pmem s) q;
  s1_rest : (forall pd, pd <> np -> dirs s' !! pd = dirs s !! pd) /\ swapmap s' = swapmap s /\ pfs s' = pfs s /\ zero_page (pmem s') = zero_page (pmem s);
  s1_free : (length (gfree g) <= 4 + length (gfree g'))%nat
}.

Lemma par_user s g d d' T T' a q : both s g d d' T T' -> T !! a = Some q -> user_page T' g q 0.
Proof using. intros H Ha. split; [by eapply (p_held _ _ _ _ _ (sp_pt _ _ _ _ _ _ (bo_par _ _ _ _ _ _ H)))|]. intros b. by eapply bo_apart. Qed.

Lemma flags_ro p fl : page_ok lo p -> 0 <= fl < 4096 -> Z.odd fl = true ->
  valid (K2P p + fl) = true /\ PTE_FLAGS (K2P p + fl) = fl /\ 0 <= Z.lor fl PTE_RO < 4096 /\ Z.lor (K2P p + fl) PTE_RO = K2P p + Z.lor fl PTE_RO.
Proof using.
  intros Hp Hf Ho. destruct Hp as (P1 & P2 & P3 & P4). unfold PAGE_SIZE, PHYSTOP, KSPACE_MASK in *. rewrite K2P_range by (unfold KSPACE_MASK; lia). unfold KSPACE_MASK. set (q := p - 18446462598732840960).
  assert (Hq : 0 <= q < 2 ^ 32) by lia. assert (Hqm : q mod 2 ^ 12 = 0).
  { unfold q. replace (p - 18446462598732840960) with (p + (- 4503530907893760) * 2 ^ 12) by lia. by rewrite Z.mod_add. }
  assert (Hro : 0 <= PTE_RO) by (vm_compute; discriminate).
  assert (Hlor : 0 <= Z.lor fl PTE_RO < 4096).
  { assert (H0 : 0 <= Z.lor fl PTE_RO) by (apply Z.lor_nonneg; lia). split; [done|]. destruct (Z.eq_dec (Z.lor fl PTE_RO) 0) as [E|E]; [lia|]. apply (Z.log2_lt_pow2 _ 12); [lia|].
    rewrite Z.log2_lor by lia. apply Z.max_lub_lt; [|reflexivity]. destruct (Z.eq_dec fl 0) as [->|]; [reflexivity|]. apply Z.log2_lt_pow2; lia. }
  split; [rewrite (valid_low q fl 12) by (done || lia); done|]. split; [|split; [done|]].
  - unfold PTE_FLAGS. rewrite <- (lor_low q fl 12) by (done || lia). apply Z.bits_inj'. intros i Hi. rewrite Z.land_spec, Z.lor_spec.
    destruct (Z.ltb_spec i 12) as [Hlt|Hge].
    + assert (Eq : Z.testbit q i = false) by (rewrite <- (Z.mod_pow2_bits_low q 12 i), Hqm by lia; apply Z.bits_0). rewrite Eq. cbn [orb].
      assert (Em : Z.testbit 0xFFFF000000000FFF i = true) by (change 0xFFFF000000000FFF with (Z.lor (Z.ones 12) (Z.shiftl (Z.ones 16) 48)); rewrite Z.lor_spec, Z.ones_spec_low by lia; done). by rewrite Em, andb_true_r.
    + assert (Ef : Z.testbit fl i = false) by (rewrite <- (Z.mod_small fl (2 ^ 12)) by lia; by rewrite Z.mod_pow2_bits_high by lia). rewrite Ef, orb_false_r.
      destruct (Z.ltb_spec i 32) as [H32|H32].
      * assert (Em : Z.testbit 0xFFFF000000000FFF i = false). { change 0xFFFF000000000FFF with (Z.lor (Z.ones 12) (Z.shiftl (Z.ones 16) 48)). rewrite Z.lor_spec, Z.ones_spec_high by lia. rewrite Z.shiftl_spec by lia. by rewrite Z.testbit_neg_r by lia. } by rewrite Em, andb_false_r.
      * rewrite <- (Z.mod_small q (2 ^ 32)) by lia. by rewrite Z.mod_pow2_bits_high by lia.
  - rewrite <- (lor_low q fl 12), <- (lor_low q (Z.lor fl PTE_RO) 12) by (done || lia). by rewrite Z.lor_assoc.
Qed.

Lemma vmmap_np (s : pst) d' va ka fl m pt' : dirs s !! np = Some d' -> PT.vmmap (pt d') va ka fl (pmem s) = Ret (pt', m) ->
  vmmap np va ka fl s = Ret (tt, set_dirs (insert np (set_pt pt' d')) (set_pmem m s)).
Proof using.
  intros Hd E. unfold vmmap. rewrite (bind_Ret _ _ _ _ _ (load_dir_Ret np s d' Hd)), (bind_Ret _ _ _ _ _ (on_mem_Ret _ s _ _ E)). by apply update_dir_Ret.
Qed.

Lemma share_one s g d d' T T' va p fl n : this <> np -> both s g d d' T T' -> common T T' g p n -> (4 <= length (gfree g))%nat ->
  pte_of (pmem s) T va = K2P p + fl -> 0 <= fl < 4096 -> Z.odd fl = true ->
  exists s' g' d1 T1, share_turn this np va s = Ret (tt, s') /\ shared1 s s' g g' d d' d1 T T' T1 va p (K2P p + Z.lor fl PTE_RO) n.
Proof using.
  intros Hne H [Hp Hp'] Hf He Hfl Ho. pose proof (bo_par _ _ _ _ _ _ H) as Hpar. pose proof (bo_kid _ _ _ _ _ _ H) as Hkid. pose proof (sp_pt _ _ _ _ _ _ Hpar) as HP. pose proof (sp_pt _ _ _ _ _ _ Hkid) as HP'.
  pose proof (user_page_ok _ _ _ _ _ _ _ HP Hp) as Hpo. destruct (flags_ro p fl Hpo Hfl Ho) as (Hv & Hfe & Hfr & Hlor). destruct (entry_of lo p fl Hpo Hfl) as (_ & _ & _ & Ht).
  destruct (T !! path va) as [q|] eqn:Hq.
  2: { assert (E0 : pte_of (pmem s) T va = 0) by (unfold pte_of; by rewrite Hq). rewrite He in E0. rewrite E0 in Hv. done. }
  destruct (vmmap_maps lo (pmem s) g (pt d') T' va p (Z.lor fl PTE_RO) n HP' Hf Hp' Hfr) as (m1 & g1 & pt1 & T1 & E1 & M).
  pose proof (vmmap_np s d' va p _ m1 pt1 (sp_dir _ _ _ _ _ _ Hkid) E1) as Em. set (s1 := set_dirs (insert np (set_pt pt1 d')) (set_pmem m1 s)) in *.
  (* the parent's tables *)
  assert (Hsame1 : tables_same T (pmem s) m1) by (intros a r w Ha Hw; eapply (mp_words _ _ _ _ _ _ _ _ _ _ _ _ M); [by eapply par_user|exact Hw]).
  assert (Hheld1 : forall a r, T !! a = Some r -> gheld g1 !! r = Some 0).
  { intros a r Ha. pose proof (par_user _ _ _ _ _ _ _ _ H Ha) as [Hr _]. eapply (mp_held _ _ _ _ _ _ _ _ _ _ _ _ M); [done|]. intros ->. destruct Hp as [_ Hp]. by apply (Hp a). }
  assert (Hapart1 : forall a b r, T !! a = Some r -> T1 !! b <> Some r).
  { intros a b r Ha Hb. pose proof (par_user _ _ _ _ _ _ _ _ H Ha) as [Hr Hr']. destruct (mp_tables _ _ _ _ _ _ _ _ _ _ _ _ M b r Hb) as [[c Hc]|Hn]; [by apply (Hr' c)|congruence]. }
  assert (Hz1 : is_Some (gheld g1 !! zero_page (pmem s))).
  { destruct (p_zero _ _ _ _ _ (mp_inv _ _ _ _ _ _ _ _ _ _ _ _ M)) as (z & Hz & Hzh & _). rewrite <- (mp_zero _ _ _ _ _ _ _ _ _ _ _ _ M). by rewrite Hz. }
  pose proof (other_tables lo (pmem s) g m1 g1 (pt d) T HP (p_mem _ _ _ _ _ (mp_inv _ _ _ _ _ _ _ _ _ _ _ _ M)) Hsame1 Hheld1 (mp_zero _ _ _ _ _ _ _ _ _ _ _ _ M) Hz1) as HP1.
  assert (Hpar1 : space kend this s1 g1 d T) by (split; [cbn; rewrite lookup_insert_ne by done; apply Hpar|exact HP1]).
  destruct (enter lo (pt d) T m1 g1 va q (K2P p + Z.lor fl PTE_RO) HP1 Hq) as [E2 [N1 N2 N3 N4]]. set (m2 := set_words _ m1) in *. set (s2 := set_pmem m2 s1).
  (* the child's tables *)
  assert (Hsame2 : tables_same T1 m1 m2).
  { intros a r w Ha Hw. unfold m2, set_words. cbn [words]. apply lookup_insert_ne. intros <-.
    assert (Hr : user_page T g1 r 0) by (split; [by eapply (p_held _ _ _ _ _ (mp_inv _ _ _ _ _ _ _ _ _ _ _ _ M))|intros b Hb; by apply (Hapart1 b a r)]).
    eapply (user_not_table lo (pt d) T m1 g1 r 0 (path va) q); [done|done|done|apply part_bounds|exact Hw]. }
  pose proof (other_tables lo m1 g1 m2 g1 pt1 T1 (mp_inv _ _ _ _ _ _ _ _ _ _ _ _ M) (p_mem _ _ _ _ _ N1) Hsame2 (p_held _ _ _ _ _ (mp_inv _ _ _ _ _ _ _ _ _ _ _ _ M)) eq_refl ltac:(by rewrite (mp_zero _ _ _ _ _ _ _ _ _ _ _ _ M))) as HP2.
  exists s2, g1, (set_pt pt1 d'), T1. split.
  - unfold share_turn. rewrite (bind_Ret _ _ _ _ _ (get_pte_here kend this s g d T va false q Hpar Hq)), (entry_ptr_pos kend s g d T this va q Hpar Hq). cbn [negb when].
    rewrite (bind_Ret _ _ _ _ _ (rd_pte_here kend this s g d T va q Hpar Hq)), He, Hv. cbn [when]. change (P2K (PTE_ADDRESS (K2P p + fl))) with (table_of (K2P p + fl)). rewrite Ht, Hfe, (bind_Ret _ _ _ _ _ Em).
    rewrite (bind_Ret _ _ _ _ _ (rd_pte_here kend this s1 g1 d T va q Hpar1 Hq)). change (pmem s1) with m1. rewrite (pte_of_same lo (pmem s) g m1 (pt d) T va HP Hsame1), He, Hlor. unfold wr_pte. by rewrite (on_mem_Ret _ s1 _ m2 E2).
  - split.
    + split; [split; [apply Hpar1|exact N1]|split; [apply lookup_insert_eq|exact HP2]|exact Hapart1].
    + done.
    + exact N2.
    + intros a Ha. change (pmem s2) with m2. rewrite (pte_of_same lo m1 g1 m2 pt1 T1 a (mp_inv _ _ _ _ _ _ _ _ _ _ _ _ M) Hsame2). by apply (mp_here _ _ _ _ _ _ _ _ _ _ _ _ M).
    + intros a Ha. change (pmem s2) with m2. rewrite (N3 a Ha). by apply (pte_of_same lo (pmem s) g m1 (pt d) T a HP).
    + intros a Ha. change (pmem s2) with m2. rewrite (pte_of_same lo m1 g1 m2 pt1 T1 a (mp_inv _ _ _ _ _ _ _ _ _ _ _ _ M) Hsame2). by apply (mp_beyond _ _ _ _ _ _ _ _ _ _ _ _ M).
    + intros r k [Hr Hr']. pose proof (user_after _ _ _ _ _ _ _ _ _ _ _ _ r k M Hr') as Hu. split; [|done]. split; [apply Hu|apply Hr].
    + intros r k [Hr Hr']. change (pmem s2) with m2. pose proof (user_after _ _ _ _ _ _ _ _ _ _ _ _ r k M Hr') as [Hu _].
      rewrite (N4 r _ (conj Hu (proj2 Hr))). apply page_words_ext. intros w Hw. by eapply (mp_words _ _ _ _ _ _ _ _ _ _ _ _ M).
    + split; [|split; [done|split; [done|]]]. { intros pd Hpd. cbn. by apply lookup_insert_ne. } change (pmem s2) with m2. apply (mp_zero _ _ _ _ _ _ _ _ _ _ _ _ M).
    + apply (mp_free _ _ _ _ _ _ _ _ _ _ _ _ M).
Qed.

Lemma share_none s g d d' T T' va : both s g d d' T T' -> valid (pte_of (pmem s) T va) = false -> share_turn this np va s = Ret (tt, s).
Proof using.
  intros H Hv. pose proof (bo_par _ _ _ _ _ _ H) as Hpar. unfold share_turn. destruct (T !! path va) as [q|] eqn:Hq.
  - rewrite (bind_Ret _ _ _ _ _ (get_pte_here kend this s g d T va false q Hpar Hq)), (entry_ptr_pos kend s g d T this va q Hpar Hq). cbn [negb when].
    rewrite (bind_Ret _ _ _ _ _ (rd_pte_here kend this s g d T va q Hpar Hq)), Hv. done.
  - by rewrite (bind_Ret _ _ _ _ _ (get_pte_none kend this s g d T va Hpar Hq)).
Qed.
End fork.
