(* ===== verification/ForkProps.v ===== *)
(** * Copy on write across [fork] (kernel/proc.c, kernel/paging.c)

    [fork_memory], the part of [fork] that copies the address space, shares
    every page of the sections between the two processes, read-only; a later
    write of either of them gives it a copy of its own, and the other one
    keeps what it had. *)
From stdpp Require Import base gmap list.
From Stdlib Require Import ZArith Lia.
From S2P Require Import Prelude Bytes Bitmap BCache BlockStore CString Console Inode Pipe File Mmu LockFree Mem PT Sections Paging PagingMem PagingProps SwapProps SwapCalls Fork.

(** The numbers of the pages the loop of [fork] visits for a section. *)
Definition sec_pages (x : section) : list Z := seqZ (begin x / 4096) (end_ x / 4096 - begin x / 4096 + 1).
Definition all_pages (l : list vma) : list Z := l ≫= (fun v => sec_pages (sec v)).
Definition sec_ok (x : section) : Prop := 0 <= begin x <= end_ x /\ end_ x < 2 ^ 48 - 4096.

Lemma base_of a : PAGE_BASE a = 4096 * (a / 4096).
Proof. unfold PAGE_BASE. change (PAGE_SIZE - 1) with (2 ^ 12 - 1). rewrite land_align by lia. change (2 ^ 12) with 4096. pose proof (Z.div_mod a 4096 ltac:(lia)). lia. Qed.

Lemma same_number x y : 0 <= x < 2 ^ 36 -> 0 <= y < 2 ^ 36 -> same_page (4096 * x) (4096 * y) -> x = y.
Proof. intros Hx Hy. unfold same_page. rewrite !(Z.mul_comm 4096), !Z.div_mul, !Z.mod_small by lia. done. Qed.

Lemma same_page_sym a b : same_page a b -> same_page b a.
Proof. unfold same_page. congruence. Qed.
Lemma same_page_trans a b c : same_page a b -> same_page b c -> same_page a c.
Proof. unfold same_page. congruence. Qed.

Lemma sec_pages_range x y : sec_ok x -> y ∈ sec_pages x -> 0 <= y < 2 ^ 36.
Proof.
  intros [[H0 H1] H2] [Hy1 Hy2]%elem_of_seqZ. assert (0 <= begin x / 4096) by (apply Z.div_pos; lia). assert (end_ x / 4096 < 2 ^ 36) by (apply Z.div_lt_upper_bound; lia). lia.
Qed.

Section fork.
Context {St : Type} {BC : BlockCache St} (kend this np : Z).
Abbreviation lo := (PAGE_BASE kend + PAGE_SIZE).
Abbreviation pst := (pst St).
Abbreviation both := (both kend this np).

(** ** Before *)
Section sharing.
Context (s : pst) (g : ghost) (d d' : pgdir) (T T' : tables) (f : Z -> option Z).
Definition entry_at (x : Z) : Z := pte_of (pmem s) T (4096 * x).

(** [f x] is the page that the parent has at page number [x]. *)
Record sharable (l : list Z) : Prop := {
  sb_none : forall x, x ∈ l -> f x = None -> valid (entry_at x) = false;
  sb_some : forall x p, x ∈ l -> f x = Some p -> exists fl n, entry_at x = K2P p + fl /\ 0 <= fl < 4096 /\ Z.odd fl = true /\ common T T' g p n;
  sb_inj : forall x y p, x ∈ l -> y ∈ l -> f x = Some p -> f y = Some p -> x = y;
  sb_range : forall x, x ∈ l -> 0 <= x < 2 ^ 36
}.

Definition shared_in (l : list Z) (q : Z) : bool := bool_decide (Some q ∈ (f <$> l)).

(** After the pages [l] have been shared. *)
Record sharing (l : list Z) (s1 : pst) (g1 : ghost) (d1 : pgdir) (T1 : tables) : Prop := {
  sh_both : both s1 g1 d d1 T T1;
  sh_dir : d1 = set_pt (pt d1) d';
  sh_done : forall x p a, x ∈ l -> f x = Some p -> same_page a (4096 * x) -> pte_of (pmem s1) T a = Z.lor (entry_at x) PTE_RO /\ pte_of (pmem s1) T1 a = Z.lor (entry_at x) PTE_RO;
  sh_left : forall a, (forall x, x ∈ l -> is_Some (f x) -> ~ same_page a (4096 * x)) -> pte_of (pmem s1) T a = pte_of (pmem s) T a /\ pte_of (pmem s1) T1 a = pte_of (pmem s) T' a;
  sh_common : forall q k, common T T' g q k -> common T T1 g1 q (if shared_in l q then k + 1 else k);
  sh_pages : forall q k, common T T' g q k -> page_words (pmem s1) q = page_words (pmem s) q;
  sh_rest : (forall pd, pd <> np -> dirs s1 !! pd = dirs s !! pd) /\ swapmap s1 = swapmap s /\ pfs s1 = pfs s /\ zero_page (pmem s1) = zero_page (pmem s);
  sh_free : (length (gfree g) <= 4 * length l + length (gfree g1))%nat
}.

Lemma sharing_start : both s g d d' T T' -> sharing [] s g d' T'.
Proof using.
  intros H. split; [done|by destruct d'|intros x p a Hx; by apply elem_of_nil in Hx|done| |done|done|lia].
  intros q k Hq. unfold shared_in. cbn. rewrite bool_decide_eq_false_2; [done|]. by intros ?%elem_of_nil.
Qed.

Lemma shared_in_snoc l x q : shared_in (l ++ [x]) q = shared_in l q || bool_decide (f x = Some q).
Proof using.
  unfold shared_in. rewrite fmap_app. apply eq_bool_prop_intro. rewrite orb_True, !bool_decide_spec, elem_of_app. cbn. rewrite list_elem_of_singleton. naive_solver.
Qed.

Lemma share_next all l x s1 g1 d1 T1 : this <> np -> sharable all -> (forall y, y ∈ l -> y ∈ all) -> x ∈ all -> x ∉ l -> sharing l s1 g1 d1 T1 -> (4 <= length (gfree g1))%nat ->
  exists s2 g2 d2 T2, share_turn this np (4096 * x) s1 = Ret (tt, s2) /\ sharing (l ++ [x]) s2 g2 d2 T2.
Proof using.
  intros Hne Hsb Hsub Hx Hxl H Hf. pose proof (sb_range _ Hsb x Hx) as Hxr.
  assert (Hfresh : forall y, y ∈ l -> ~ same_page (4096 * x) (4096 * y)) by (intros y Hy Hs; apply Hxl; rewrite (same_number x y); [done|done|by apply (sb_range _ Hsb), Hsub|done]).
  destruct (sh_left _ _ _ _ _ H (4096 * x) ltac:(intros y Hy _; by apply Hfresh)) as [Hex _]. fold (entry_at x) in Hex.
  destruct (f x) as [p|] eqn:Hfx.
  - destruct (sb_some _ Hsb x p Hx Hfx) as (fl & n & He & Hfl & Ho & Hc). rewrite He in Hex.
    assert (Hnew : shared_in l p = false).
    { apply bool_decide_eq_false. intros (y & Hy & Hyl)%list_elem_of_fmap. apply Hxl. rewrite (sb_inj _ Hsb x y p); auto. }
    pose proof (sh_common _ _ _ _ _ H p n Hc) as Hc1. rewrite Hnew in Hc1.
    destruct (share_one kend this np s1 g1 d d1 T T1 (4096 * x) p fl n Hne (sh_both _ _ _ _ _ H) Hc1 Hf Hex Hfl Ho) as (s2 & g2 & d2 & T2 & E & N).
    assert (Hlor : K2P p + Z.lor fl PTE_RO = Z.lor (entry_at x) PTE_RO).
    { rewrite He. symmetry. apply (flags_ro kend p fl); [|done|done]. eapply user_page_ok; [apply (sp_pt _ _ _ _ _ _ (bo_par _ _ _ _ _ _ _ _ _ (sh_both _ _ _ _ _ H)))|apply Hc1]. }
    exists s2, g2, d2, T2. split; [exact E|]. split.
    + apply (s1_both _ _ _ _ _ _ _ _ _ _ _ _ _ _ _ _ _ N).
    + rewrite (s1_dir _ _ _ _ _ _ _ _ _ _ _ _ _ _ _ _ _ N), (sh_dir _ _ _ _ _ H). done.
    + intros y p' a [Hy| ->%list_elem_of_singleton]%elem_of_app Hp' Ha.
      * assert (Hna : ~ same_page a (4096 * x)) by (intros Hs; apply (Hfresh y Hy); eapply same_page_trans; [by apply same_page_sym|done]).
        rewrite (s1_par_other _ _ _ _ _ _ _ _ _ _ _ _ _ _ _ _ _ N a Hna), (s1_kid_other _ _ _ _ _ _ _ _ _ _ _ _ _ _ _ _ _ N a Hna). by eapply sh_done.
      * rewrite <- Hlor. split; [by apply (s1_par _ _ _ _ _ _ _ _ _ _ _ _ _ _ _ _ _ N)|by apply (s1_kid _ _ _ _ _ _ _ _ _ _ _ _ _ _ _ _ _ N)].
    + intros a Ha. assert (Hna : ~ same_page a (4096 * x)) by (apply Ha; [apply elem_of_app; right; by left|by rewrite Hfx]).
      rewrite (s1_par_other _ _ _ _ _ _ _ _ _ _ _ _ _ _ _ _ _ N a Hna), (s1_kid_other _ _ _ _ _ _ _ _ _ _ _ _ _ _ _ _ _ N a Hna). apply (sh_left _ _ _ _ _ H). intros y Hy. apply Ha. apply elem_of_app. by left.
    + intros q k Hq. pose proof (s1_common _ _ _ _ _ _ _ _ _ _ _ _ _ _ _ _ _ N q _ (sh_common _ _ _ _ _ H q k Hq)) as Hn. rewrite shared_in_snoc, Hfx. destruct (Z.eqb_spec q p) as [->|Hqp].
      * rewrite bool_decide_eq_true_2, orb_true_r by done. destruct Hc as [[Hcn _] _], Hq as [[Hqk _] _]. by replace k with n by congruence.
      * rewrite bool_decide_eq_false_2, orb_false_r by congruence. exact Hn.
    + intros q k Hq. rewrite (s1_pages _ _ _ _ _ _ _ _ _ _ _ _ _ _ _ _ _ N q _ (sh_common _ _ _ _ _ H q k Hq)). by eapply sh_pages.
    + destruct (s1_rest _ _ _ _ _ _ _ _ _ _ _ _ _ _ _ _ _ N) as (R1 & R2 & R3 & R4), (sh_rest _ _ _ _ _ H) as (Q1 & Q2 & Q3 & Q4). repeat split; try congruence. intros pd Hpd. by rewrite R1, Q1.
    + pose proof (s1_free _ _ _ _ _ _ _ _ _ _ _ _ _ _ _ _ _ N) as F1. pose proof (sh_free _ _ _ _ _ H) as F2. rewrite length_app. cbn. lia.
  - pose proof (sb_none _ Hsb x Hx Hfx) as Hv. rewrite <- Hex in Hv. exists s1, g1, d1, T1. split; [by eapply share_none; [apply H|]|]. destruct H as [A1 A2 A3 A4 A5 A6 A7 A8]. split; try done.
    + intros y p a [Hy| ->%list_elem_of_singleton]%elem_of_app Hp; [by apply (A3 y p)|congruence].
    + intros a Ha. apply A4. intros y Hy. apply Ha. apply elem_of_app. by left.
    + intros q k Hq. rewrite shared_in_snoc, Hfx, bool_decide_eq_false_2, orb_false_r by done. by apply A5.
    + rewrite length_app. cbn. lia.
Qed.

(** The loop over a section, and over all of them. *)
Lemma share_section all l x s1 g1 d1 T1 : this <> np -> sharable all -> sec_ok x -> NoDup (l ++ sec_pages x) -> (forall y, y ∈ l ++ sec_pages x -> y ∈ all) ->
  sharing l s1 g1 d1 T1 -> (4 * length (l ++ sec_pages x) <= length (gfree g))%nat ->
  exists s2 g2 d2 T2, for_pages (PAGE_BASE (begin x)) (PAGE_BASE (end_ x) + 1) (share_turn this np) s1 = Ret (tt, s2) /\ sharing (l ++ sec_pages x) s2 g2 d2 T2.
Proof using.
  intros Hne Hsb Hx Hnd Hsub H Hf. pose proof Hx as [[H0 H1] H2]. set (b := begin x / 4096). set (n := end_ x / 4096 - b + 1).
  assert (Hb : 0 <= b) by (apply Z.div_pos; lia). assert (Hbe : b <= end_ x / 4096) by (apply Z.div_le_mono; lia). assert (He : end_ x / 4096 * 4096 <= end_ x) by (rewrite Z.mul_comm; apply Z.mul_div_le; lia).
  assert (Et : turns (PAGE_BASE (begin x)) (PAGE_BASE (end_ x) + 1) = n).
  { unfold turns, PAGE_SIZE. rewrite !base_of. fold b. replace (4096 * (end_ x / 4096) + 1 - 4096 * b + 4096 - 1) with ((end_ x / 4096 - b + 1) * 4096) by lia. by apply Z.div_mul. }
  assert (Hlen : length (sec_pages x) = Z.to_nat n) by apply length_seqZ.
  destruct (for_pages_inv (fun i s2 => exists g2 d2 T2, sharing (l ++ seqZ b i) s2 g2 d2 T2) (PAGE_BASE (begin x)) (PAGE_BASE (end_ x) + 1) (share_turn this np) s1) as (s2 & E & g2 & d2 & T2 & H').
  - rewrite !base_of. lia.
  - rewrite base_of. lia.
  - exists g1, d1, T1. cbn. by rewrite app_nil_r.
  - rewrite Et. intros i s2 Hi (g2 & d2 & T2 & Hs). unfold page_at, PAGE_SIZE. rewrite base_of. fold b. replace (4096 * b + 4096 * i) with (4096 * (b + i)) by lia.
    assert (Hin : b + i ∈ sec_pages x) by (apply elem_of_seqZ; fold b; unfold n in Hi; lia).
    assert (Hpre : seqZ b i ++ seqZ (b + i) (n - i) = sec_pages x) by (rewrite <- seqZ_app by lia; unfold sec_pages; fold b n; f_equal; lia).
    assert (Hfree : (4 <= length (gfree g2))%nat) by (pose proof (sh_free _ _ _ _ _ Hs) as F; rewrite length_app, length_seqZ in F; rewrite length_app, Hlen in Hf; lia).
    destruct (share_next all (l ++ seqZ b i) (b + i) s2 g2 d2 T2 Hne Hsb) as (s3 & g3 & d3 & T3 & E3 & H3); [| | |done|done|].
    + intros y [Hy|Hy]%elem_of_app; apply Hsub, elem_of_app; [by left|right]. rewrite <- Hpre. apply elem_of_app. by left.
    + apply Hsub, elem_of_app. by right.
    + intros [Hy|Hy]%elem_of_app; [|apply elem_of_seqZ in Hy; lia]. apply NoDup_app in Hnd as (_ & Hd & _). by apply (Hd (b + i)).
    + exists s3. split; [exact E3|]. exists g3, d3, T3. rewrite (seqZ_app b i 1) by lia. change (seqZ (b + i) 1) with [b + i] || (replace (seqZ (b + i) 1) with [b + i] by (cbn; f_equal; lia)). by rewrite app_assoc.
  - exists s2, g2, d2, T2. split; [exact E|]. rewrite Et in H'. exact H'.
Qed.

Lemma share_sections all secs l s1 g1 d1 T1 : this <> np -> sharable all -> Forall (fun v => sec_ok (sec v)) secs -> l ++ all_pages secs = all -> NoDup all ->
  (4 * length all <= length (gfree g))%nat -> sharing l s1 g1 d1 T1 ->
  exists s2 g2 d2 T2, for_list secs (fun v => for_pages (PAGE_BASE (begin (sec v))) (PAGE_BASE (end_ (sec v)) + 1) (share_turn this np) ;;; ret (@None unit)) s1 = Ret (None, s2) /\ sharing all s2 g2 d2 T2.
Proof using.
  intros Hne Hsb Hok. revert l s1 g1 d1 T1. induction Hok as [|v secs Hv Hok IH]; intros l s1 g1 d1 T1 Hall Hnd Hf H; cbn [for_list].
  - unfold all_pages in Hall. cbn in Hall. rewrite app_nil_r in Hall. subst all. by exists s1, g1, d1, T1.
  - change (all_pages (v :: secs)) with (sec_pages (sec v) ++ all_pages secs) in Hall. rewrite app_assoc in Hall. pose proof Hnd as Hnd'. rewrite <- Hall in Hnd'. apply NoDup_app in Hnd' as (Hnd1 & _ & _).
    destruct (share_section all l (sec v) s1 g1 d1 T1 Hne Hsb Hv Hnd1) as (s2 & g2 & d2 & T2 & E & H2); [intros y Hy; rewrite <- Hall; apply elem_of_app; by left|done|rewrite <- Hall, length_app in Hf; lia|].
    rewrite bind_assoc, (bind_Ret _ _ _ _ _ E). rewrite (bind_Ret (ret None) _ s2 None s2 eq_refl). by eapply IH.
Qed.
End sharing.

(** ** The copies of the sections *)
Definition copy_of (v w : vma) : Prop := sec w = sec v /\ slock w = slock v.

Record copied (secs : list vma) (s s' : pst) (g g' : ghost) (d d' d1 : pgdir) (T T' : tables) : Prop := {
  cp_both : Fork.both (St := St) kend this np s' g' d d1 T T';
  cp_dir : exists new, d1 = set_section_head (fun l => new ++ l) d' /\ Forall2 copy_of secs (reverse new);
  cp_held : gheld g' = gheld g;
  cp_words : pages_same g (pmem s) (pmem s');
  cp_rest : (forall pd, pd <> np -> dirs s' !! pd = dirs s !! pd) /\ swapmap s' = swapmap s /\ pfs s' = pfs s /\ zero_page (pmem s') = zero_page (pmem s);
  cp_free : (length (gfree g) <= length secs + length (gfree g'))%nat
}.

Lemma both_frame (s : pst) g d d' T T' m g' : both s g d d' T T' -> mem_inv lo m g' -> gheld g' = gheld g -> pages_same g (pmem s) m -> zero_page m = zero_page (pmem s) -> both (set_pmem m s) g' d d' T T'.
Proof using.
  intros [[D1 P1] [D2 P2] Ha] HM Hh Hw Hz. assert (Hzh : is_Some (gheld g' !! zero_page (pmem s))) by (destruct (p_zero _ _ _ _ _ P1) as (z & <- & Hzh & _); by rewrite Hh).
  split; [split; [done|]|split; [done|]|done].
  - eapply other_tables; [exact P1|done| |intros a q Hq; rewrite Hh; by apply (p_held _ _ _ _ _ P1 a)|done|done]. intros a q w Hq Hin. pose proof (p_held _ _ _ _ _ P1 a q Hq) as Hqh. by apply (Hw q 0 w).
  - eapply other_tables; [exact P2|done| |intros a q Hq; rewrite Hh; by apply (p_held _ _ _ _ _ P2 a)|done|done]. intros a q w Hq Hin. pose proof (p_held _ _ _ _ _ P2 a q Hq) as Hqh. by apply (Hw q 0 w).
Qed.

Lemma both_kid (s : pst) g d d' T T' d1 : this <> np -> both s g d d' T T' -> pt d1 = pt d' -> both (set_dirs (insert np d1) s) g d d1 T T'.
Proof using.
  intros Hne [[D1 P1] [D2 P2] Ha] Hpt. split; [split; [cbn; by rewrite lookup_insert_ne|done]|split; [apply lookup_insert_eq|by rewrite Hpt]|done].
Qed.

Section copying.
Context (sizeof_section : Z).

Lemma copy_loop secs : this <> np -> 1 <= sizeof_section <= 4080 -> forall (s : pst) g d d' T T', both s g d d' T T' -> (length secs < length (gfree g))%nat ->
  exists s' g' d1, for_list secs (fun v => a <- on_mem (kalloc 512 sizeof_section) ;; update_dir np (set_section_head (fun l => mkVma a (sec v) (slock v) :: l)) ;;; ret (@None unit)) s = Ret (None, s') /\
    copied secs s s' g g' d d' d1 T T'.
Proof using.
  intros Hne Hsz. induction secs as [|v secs IH]; intros s g d d' T T' H Hf; cbn [for_list].
  - exists s, g, d'. split; [done|]. split; [done|exists []; split; [by destruct d'|constructor]|done|by intros p n w _ _|done|cbn; lia].
  - pose proof (sp_pt _ _ _ _ _ _ (bo_par _ _ _ _ _ _ _ _ _ H)) as P1. pose proof (p_mem _ _ _ _ _ P1) as HM. pose proof (free_bound _ _ g HM) as Hbd. change NPAGE with 258048 in Hbd.
    destruct (kalloc_spec lo (pmem s) g sizeof_section 512 HM Hsz ltac:(lia) ltac:(lia)) as (a & m & g1 & E & _ & HM1 & (_ & _ & Hh) & Hz); [left; intros E0; rewrite E0 in Hf; cbn in Hf; lia|].
    destruct (kalloc_words lo (pmem s) g sizeof_section 512 a m HM Hsz ltac:(lia) ltac:(lia) E) as [Hw Hc].
    assert (Hf1 : (length (gfree g) <= 1 + length (gfree g1))%nat) by (rewrite (i_cnt _ _ _ HM), (i_cnt _ _ _ HM1) in Hc; lia).
    pose proof (both_frame s g d d' T T' m g1 H HM1 Hh Hw Hz) as H1. set (d2 := set_section_head (fun l => mkVma a (sec v) (slock v) :: l) d').
    pose proof (both_kid _ g1 d d' T T' d2 Hne H1 eq_refl) as H2. set (s2 := set_dirs (insert np d2) (set_pmem m s)) in *.
    destruct (IH s2 g1 d d2 T T' H2) as (s3 & g3 & d3 & E3 & [A1 (new & A2 & A2') A3 A4 A5 A6]); [cbn in Hf; lia|].
    exists s3, g3, d3. split.
    + rewrite bind_assoc, (bind_Ret _ _ _ _ _ (on_mem_Ret _ s _ _ E)). rewrite bind_assoc, (bind_Ret _ _ _ _ _ (update_dir_Ret np (set_pmem m s) d' _ (sp_dir _ _ _ _ _ _ (bo_kid _ _ _ _ _ _ _ _ _ H1)))). fold d2 s2.
      by rewrite (bind_Ret (ret None) _ s2 None s2 eq_refl).
    + split; [done| | | | |cbn; lia].
      * exists (new ++ [mkVma a (sec v) (slock v)]). split; [rewrite A2; unfold d2, set_section_head; cbn; by rewrite <- app_assoc|]. rewrite reverse_app. constructor; [done|exact A2'].
      * congruence.
      * intros p n w Hp Hin. rewrite (A4 p n w) by (done || by rewrite Hh). cbn. by apply (Hw p n w).
      * destruct A5 as (R1 & R2 & R3 & R4). repeat split; [|done|done|rewrite R4; exact Hz]. intros pd Hpd. rewrite R1 by done. cbn. by apply lookup_insert_ne.
Qed.

(** ** [fork] *)
Definition copied_pages (d : pgdir) : list Z := all_pages (section_head d).

(** What was known of the parent's pages holds after the copies were made. *)
Lemma copied_sharable secs (s s' : pst) g g' d d' d1 T T' f l : both s g d d' T T' -> copied secs s s' g g' d d' d1 T T' -> sharable s g T T' f l ->
  sharable s' g' T T' f l /\ (forall a, pte_of (pmem s') T a = pte_of (pmem s) T a /\ pte_of (pmem s') T' a = pte_of (pmem s) T' a) /\
  (forall q k, common T T' g q k -> common T T' g' q k /\ page_words (pmem s') q = page_words (pmem s) q).
Proof using.
  intros H C [S1 S2 S3 S4]. pose proof (sp_pt _ _ _ _ _ _ (bo_par _ _ _ _ _ _ _ _ _ H)) as HP. pose proof (sp_pt _ _ _ _ _ _ (bo_kid _ _ _ _ _ _ _ _ _ H)) as HP'.
  assert (Hp : forall a, pte_of (pmem s') T a = pte_of (pmem s) T a /\ pte_of (pmem s') T' a = pte_of (pmem s) T' a).
  { intros a. split; [apply (pte_of_same lo (pmem s) g (pmem s') (pt d) T a HP)|apply (pte_of_same lo (pmem s) g (pmem s') (pt d') T' a HP')]; intros b q w Hb Hw.
    - eapply (cp_words _ _ _ _ _ _ _ _ _ _ C); [by eapply (p_held _ _ _ _ _ HP)|done].
    - eapply (cp_words _ _ _ _ _ _ _ _ _ _ C); [by eapply (p_held _ _ _ _ _ HP')|done]. }
  assert (Hc : forall q k, common T T' g q k -> common T T' g' q k /\ page_words (pmem s') q = page_words (pmem s) q).
  { intros q k [[Hq H1] [_ H2]]. split; [unfold common, user_page; by rewrite (cp_held _ _ _ _ _ _ _ _ _ _ C)|]. apply page_words_ext. intros w Hw. by eapply (cp_words _ _ _ _ _ _ _ _ _ _ C). }
  split; [|done]. split; try done; unfold entry_at in *.
  - intros x Hx Hfx. rewrite (proj1 (Hp _)). by apply S1.
  - intros x p Hx Hfx. rewrite (proj1 (Hp _)). destruct (S2 x p Hx Hfx) as (fl & n & E1 & E2 & E3 & E4). exists fl, n. split; [done|]. split; [done|]. split; [done|]. by apply Hc.
Qed.

(** After [fork_memory]: [f x] is the page that both have at page number
    [x]. *)
Record forked (f : Z -> option Z) (s s' : pst) (g g' : ghost) (d d' d1 : pgdir) (T T' T1 : tables) : Prop := {
  fk_both : both s' g' d d1 T T1;
  fk_secs : Forall2 copy_of (section_head d) (reverse (section_head d1));
  fk_shared : forall x p a, x ∈ copied_pages d -> f x = Some p -> same_page a (4096 * x) ->
    pte_of (pmem s') T a = Z.lor (pte_of (pmem s) T a) PTE_RO /\ pte_of (pmem s') T1 a = Z.lor (pte_of (pmem s) T a) PTE_RO;
  fk_left : forall a, (forall x, x ∈ copied_pages d -> is_Some (f x) -> ~ same_page a (4096 * x)) ->
    pte_of (pmem s') T a = pte_of (pmem s) T a /\ pte_of (pmem s') T1 a = pte_of (pmem s) T' a;
  fk_count : forall q k, common T T' g q k -> common T T1 g' q (if shared_in f (copied_pages d) q then k + 1 else k) /\ page_words (pmem s') q = page_words (pmem s) q;
  fk_rest : (forall pd, pd <> np -> dirs s' !! pd = dirs s !! pd) /\ swapmap s' = swapmap s /\ pfs s' = pfs s /\ zero_page (pmem s') = zero_page (pmem s);
  fk_free : (length (gfree g) <= length (section_head d) + 4 * length (copied_pages d) + length (gfree g'))%nat
}.

Lemma pte_same_page (s : pst) g d T a b : space kend this s g d T -> same_page a b -> pte_of (pmem s) T a = pte_of (pmem s) T b.
Proof using. intros [_ H] Hs. unfold pte_of. destruct (path_same a b Hs) as [-> ->]. done. Qed.

Lemma fork_copies (s : pst) g d d' T T' f : this <> np -> 1 <= sizeof_section <= 4080 -> both s g d d' T T' ->
  Forall (fun v => sec_ok (sec v)) (section_head d) -> NoDup (copied_pages d) -> sharable s g T T' f (copied_pages d) ->
  (length (section_head d) + 4 * length (copied_pages d) < length (gfree g))%nat ->
  exists s' g' d1 T1, fork_memory sizeof_section this np s = Ret (tt, s') /\ forked f s s' g g' d d' d1 T T' T1.
Proof using.
  intros Hne Hsz H Hok Hnd Hsb Hf. set (d0 := set_section_head (fun _ => []) d'). set (s0 := set_dirs (insert np d0) s).
  pose proof (both_kid s g d d' T T' d0 Hne H eq_refl) as H0. fold s0 in H0.
  destruct (copy_loop (section_head d) Hne Hsz s0 g d d0 T T' H0) as (s1 & g1 & d1 & E1 & C); [lia|].
  assert (Hsb0 : sharable s0 g T T' f (copied_pages d)) by (destruct Hsb; by split).
  destruct (copied_sharable _ s0 s1 g g1 d d0 d1 T T' f (copied_pages d) H0 C Hsb0) as (Hsb1 & Hp1 & Hc1).
  pose proof (cp_free _ _ _ _ _ _ _ _ _ _ C) as Hf1. pose proof (cp_both _ _ _ _ _ _ _ _ _ _ C) as H1.
  destruct (share_sections s1 g1 d d1 T T' f (copied_pages d) (section_head d) [] s1 g1 d1 T' Hne Hsb1 Hok eq_refl Hnd) as (s2 & g2 & d2 & T2 & E2 & [A1 A2 A3 A4 A5 A6 A7 A8]); [lia|by apply sharing_start|].
  exists s2, g2, d2, T2. split.
  - unfold fork_memory, copy_sections. rewrite bind_assoc. assert (Ei : init_sections np s = Ret (tt, s0)) by (apply (update_dir_Ret np s d'); apply (bo_kid _ _ _ _ _ _ _ _ _ H)).
    rewrite (bind_Ret _ _ _ _ _ Ei), bind_assoc, (bind_Ret _ _ _ _ _ (load_dir_Ret _ _ _ (sp_dir _ _ _ _ _ _ (bo_par _ _ _ _ _ _ _ _ _ H0)))), bind_assoc, (bind_Ret _ _ _ _ _ E1).
    rewrite (bind_Ret (ret tt) _ s1 tt s1 eq_refl), (bind_Ret _ _ _ _ _ (load_dir_Ret _ _ _ (sp_dir _ _ _ _ _ _ (bo_par _ _ _ _ _ _ _ _ _ H1)))). by rewrite (bind_Ret _ _ _ _ _ E2).
  - split; [done| | | | | |lia].
    + destruct (cp_dir _ _ _ _ _ _ _ _ _ _ C) as (new & -> & Hnew). rewrite A2. cbn. by rewrite app_nil_r.
    + intros x p a Hx Hfx Ha. destruct (A3 x p a Hx Hfx Ha) as [B1 B2]. unfold entry_at in *. rewrite (proj1 (Hp1 _)) in B1, B2. by rewrite (pte_same_page s g d T a _ (bo_par _ _ _ _ _ _ _ _ _ H) Ha).
    + intros a Ha. destruct (A4 a Ha) as [B1 B2]. destruct (Hp1 a) as [B3 B4]. split; [by rewrite B1, B3|by rewrite B2, B4].
    + intros q k Hq. destruct (Hc1 q k Hq) as [Hq1 Hw1]. split; [by apply A5|]. by rewrite (A6 q k Hq1), Hw1.
    + destruct A7 as (R1 & R2 & R3 & R4), (cp_rest _ _ _ _ _ _ _ _ _ _ C) as (Q1 & Q2 & Q3 & Q4).
      change (swapmap s0) with (swapmap s) in Q2. change (pfs s0) with (pfs s) in Q3. change (zero_page (pmem s0)) with (zero_page (pmem s)) in Q4.
      repeat split; try congruence. intros pd Hpd. rewrite R1, Q1 by done. cbn. by apply lookup_insert_ne.
Qed.

(** ** A write after [fork] *)
Lemma page_word s s' q i : page_words s' q = page_words s q -> 0 <= i < 512 -> default 0 (words s' !! pte_ptr q i) = default 0 (words s !! pte_ptr q i).
Proof using.
  intros H Hi. assert (E : forall m, page_words m q !! Z.to_nat i = Some (default 0 (words m !! pte_ptr q i))).
  { intros m. unfold page_words. rewrite list_lookup_fmap, lookup_seq_lt by lia. cbn. do 4 f_equal. unfold pte_ptr. lia. }
  pose proof (E s') as E1. rewrite H, (E s) in E1. congruence.
Qed.

(** The entries of a table whose pages a fault of the other process keeps. *)
Lemma fault_keeps pd (s s2 : pst) g g2 d d2 T T2 T' addr ka p : (forall b q, T' !! b = Some q -> user_page T g q 0 /\ q <> p) ->
  faulted kend pd s s2 g g2 d d2 T T2 addr ka (Some p) -> forall a, pte_of (pmem s2) T' a = pte_of (pmem s) T' a.
Proof using.
  intros H F a. unfold pte_of. destruct (T' !! path a) as [q|] eqn:Hq; [|done]. destruct (H _ q Hq) as [Hu Hne].
  apply page_word; [|apply part_bounds]. eapply (fa_pages _ _ _ _ _ _ _ _ _ _ _ _ _ F); [exact Hu|congruence].
Qed.

Lemma hit_copied d d1 addr : Forall2 copy_of (section_head d) (reverse (section_head d1)) -> is_Some (fault_section d addr) -> is_Some (fault_section d1 addr).
Proof using.
  unfold fault_section. intros HF [v Hv]. assert (Hin : v ∈ filter (fun v => hits addr v = true) (section_head d)) by (destruct (filter _ (section_head d)); [done|injection Hv as ->; left]).
  apply list_elem_of_filter in Hin as [Hh Hin]. apply list_elem_of_lookup in Hin as [i Hi]. destruct (Forall2_lookup_l _ _ _ _ _ HF Hi) as (w & Hw & Es & _).
  assert (Hin1 : w ∈ filter (fun v => hits addr v = true) (section_head d1)).
  { apply list_elem_of_filter. split; [unfold hits in *; by rewrite Es|]. apply elem_of_reverse. by eapply list_elem_of_lookup_2. }
  destruct (filter _ (section_head d1)) as [|u l]; [by apply elem_of_nil in Hin1|]. by exists u.
Qed.

Lemma ro_entry p fl : page_ok lo p -> 0 <= fl < 4096 -> Z.odd fl = true -> let e := Z.lor (K2P p + fl) PTE_RO in
  Z.land e PTE_VALID <> 0 /\ Z.land e PTE_RO <> 0 /\ table_of e = p.
Proof using.
  intros Hp Hfl Ho e. destruct (flags_ro kend p fl Hp Hfl Ho) as (_ & _ & Hr & He). unfold e.
  destruct (flags_ro kend p (Z.lor fl PTE_RO) Hp Hr) as (Hv & _); [by rewrite <- Z.bit0_odd, Z.lor_spec, Z.bit0_odd, Ho|]. rewrite <- He in Hv. split; [|split].
  - unfold valid in Hv. by destruct (Z.eqb_spec (Z.land (Z.lor (K2P p + fl) PTE_RO) PTE_VALID) 0).
  - replace (Z.land (Z.lor (K2P p + fl) PTE_RO) PTE_RO) with PTE_RO; [done|]. apply Z.bits_inj'. intros i Hi. rewrite Z.land_spec, Z.lor_spec. by destruct (Z.testbit (K2P p + fl) i), (Z.testbit PTE_RO i).
  - rewrite He. by apply (entry_of lo p (Z.lor fl PTE_RO)).
Qed.
End copying.

Section write.
Context (children : Z -> list Z) (zombie : Z -> bool) (root_proc : Z) (depth : nat).
Abbreviation pgfault pd := (pgfault kend pd children zombie root_proc depth).

(** The process [pd], with the page table [T], wrote at [addr], where it
    shared the page [p]: it has a copy [ka], the table [T'] of the other one
    and the page are what they were. *)
Record split_off (pd : Z) (s s2 : pst) (g g2 : ghost) (d : pgdir) (T T' : tables) (addr p ka n : Z) : Prop := {
  so_fault : faulted kend pd s s2 g g2 d d T T addr ka (Some p);
  so_new : ka <> p;
  so_copy : page_words (pmem s2) ka = page_words (pmem s) p;
  so_kept : page_words (pmem s2) p = page_words (pmem s) p /\ gheld g2 !! p = Some n;
  so_other : forall a, pte_of (pmem s2) T' a = pte_of (pmem s) T' a
}.

Lemma write_splits pd (s : pst) g d T T' addr p fl n : space kend pd s g d T -> (forall b q, T' !! b = Some q -> user_page T g q 0 /\ q <> p) ->
  is_Some (fault_section d addr) -> pte_of (pmem s) T addr = Z.lor (K2P p + fl) PTE_RO -> 0 <= fl < 4096 -> Z.odd fl = true ->
  user_page T g p (n + 1) -> 1 <= n <= 126 -> p <> zero_page (pmem s) -> page_wide (pmem s) p -> REVERSED_PAGES < Z.of_nat (length (gfree g)) ->
  exists s2 g2 ka, pgfault pd addr s = Ret (0, s2) /\ split_off pd s s2 g g2 d T T' addr p ka n.
Proof using.
  intros H HT [v Hv] He Hfl Ho Hp Hn Hz Hw Hf. destruct (ro_entry p fl (user_page_ok _ _ _ _ _ _ _ (sp_pt _ _ _ _ _ _ H) Hp) Hfl Ho) as (Hva & Hro & Ht). rewrite <- He in Hva, Hro, Ht.
  pose proof (fault_copy kend pd children zombie root_proc depth s g d T addr v (n + 1)) as F. cbv zeta in F. rewrite Ht in F.
  destruct (F H Hv Hva Hro Hp ltac:(lia) Hz Hw Hf) as (s2 & g2 & ka & E & FA & Hc & Hk). rewrite (proj2 (Z.leb_gt _ _)) in Hk by lia. destruct Hk as [[Hk _] Hk'].
  exists s2, g2, ka. split; [done|]. split; [done| |done|split; [done|]|].
  - intros ->. pose proof (fa_free _ _ _ _ _ _ _ _ _ _ _ _ _ FA) as Hin. destruct (i_sep _ _ _ (p_mem _ _ _ _ _ (sp_pt _ _ _ _ _ _ H)) p Hin) as [_ Hin']. destruct Hp. congruence.
  - by rewrite Hk; f_equal; lia.
  - by eapply fault_keeps.
Qed.

(** C7: [fork] shares the memory of a process with its child, and the two
    stay apart. The part of [fork] that copies the address space ends; the
    child gets a copy of every section, in the opposite order. Every page of
    the sections that the parent has is now in both page tables, read-only,
    its content kept and its count one higher; the other entries of both, the
    pages in use, the other address spaces, the swap slots and the file
    system are what they were. When the parent or the child then writes to
    such a page, the fault succeeds and gives it a page of its own with the
    same content, while the entries of the other one and the content of the
    page it still uses do not change. *)
Theorem fork_copies_on_write (sizeof_section : Z) (s : pst) g d d' T T' f :
  this <> np -> 1 <= sizeof_section <= 4080 -> both s g d d' T T' -> Forall (fun v => sec_ok (sec v)) (section_head d) -> NoDup (copied_pages d) ->
  sharable s g T T' f (copied_pages d) -> REVERSED_PAGES + Z.of_nat (length (section_head d) + 4 * length (copied_pages d)) < Z.of_nat (length (gfree g)) ->
  exists s' g' d1 T1, fork_memory sizeof_section this np s = Ret (tt, s') /\ forked f s s' g g' d d' d1 T T' T1 /\
    forall x p addr n, x ∈ copied_pages d -> f x = Some p -> same_page addr (4096 * x) -> is_Some (fault_section d addr) ->
      common T T' g p n -> 1 <= n <= 126 -> p <> zero_page (pmem s) -> page_wide (pmem s) p ->
      (exists s2 g2 ka, pgfault this addr s' = Ret (0, s2) /\ split_off this s' s2 g' g2 d T T1 addr p ka n) /\
      (exists s2 g2 ka, pgfault np addr s' = Ret (0, s2) /\ split_off np s' s2 g' g2 d1 T1 T addr p ka n).
Proof using.
  intros Hne Hsz H Hok Hnd Hsb Hf. unfold REVERSED_PAGES in Hf. destruct (fork_copies sizeof_section s g d d' T T' f) as (s' & g' & d1 & T1 & E & F); [done..|lia|].
  exists s', g', d1, T1. split; [done|]. split; [done|]. intros x p addr n Hx Hfx Ha Hsec Hc Hn Hz Hw.
  destruct (sb_some _ _ _ _ _ _ Hsb x p Hx Hfx) as (fl & k & He & Hfl & Ho & _). unfold entry_at in He.
  destruct (fk_shared _ _ _ _ _ _ _ _ _ _ _ F x p addr Hx Hfx Ha) as [P1 P2]. rewrite (pte_same_page s g d T addr _ (bo_par _ _ _ _ _ _ _ _ _ H) Ha), He in P1, P2.
  destruct (fk_count _ _ _ _ _ _ _ _ _ _ _ F p n Hc) as [[C1 C2] Hpw]. assert (Hin : shared_in f (copied_pages d) p = true) by (apply bool_decide_eq_true_2, list_elem_of_fmap; eauto). rewrite Hin in C1, C2.
  pose proof (fk_both _ _ _ _ _ _ _ _ _ _ _ F) as B. pose proof (fk_free _ _ _ _ _ _ _ _ _ _ _ F) as Hf'. destruct (fk_rest _ _ _ _ _ _ _ _ _ _ _ F) as (_ & _ & _ & Hz').
  assert (Hw' : page_wide (pmem s') p) by (unfold page_wide; by rewrite Hpw). rewrite <- Hz' in Hz. pose proof (bo_par _ _ _ _ _ _ _ _ _ B) as BP. pose proof (bo_kid _ _ _ _ _ _ _ _ _ B) as BK.
  split; eapply write_splits; try done; try (unfold REVERSED_PAGES; lia).
  - intros b q Hb. split; [split; [by eapply (p_held _ _ _ _ _ (sp_pt _ _ _ _ _ _ BK))|intros a Hq; by eapply (bo_apart _ _ _ _ _ _ _ _ _ B)]|intros ->; by apply (proj2 C2 b)].
  - intros b q Hb. split; [by eapply par_user|intros ->; by apply (proj2 C1 b)].
  - eapply hit_copied; [apply (fk_secs _ _ _ _ _ _ _ _ _ _ _ F)|done].
Qed.
End write.
End fork.

(** A process with one heap page forks; then each of the two writes to it. *)
Definition fk_state (m : mem_st) (pt : Z) : pst unit :=
  mkPst m {[1 := mkPgdir pt false [pg_heap] false; 2 := mkPgdir 0 false [] false]} [0] (mkFst (mkIst tt ∅ [] ex_cons 0) [] false ∅) 0.
Definition fk_page (x : Z) : option Z := if x =? pg_addr / 4096 then Some pg_page else None.

#[local] Existing Instance no_cache.

Lemma fork_copies_on_write_witness :
  exists (s s' : pst unit), fork_memory 72 1 2 s = Ret (tt, s') /\
    (exists s2 ka, pgfault pg_kend 1 (fun _ => []) (fun _ => false) 0 1 (pg_addr + 5) s' = Ret (0, s2) /\ ka <> pg_page /\ page_words (pmem s2) ka = page_words (pmem s') pg_page) /\
    (exists s2 ka, pgfault pg_kend 2 (fun _ => []) (fun _ => false) 0 1 (pg_addr + 5) s' = Ret (0, s2) /\ ka <> pg_page /\ page_words (pmem s2) ka = page_words (pmem s') pg_page).
Proof.
  destruct (pg_mapped PTE_USER_DATA) as (m & g & pt & T & HP & He & Ht & Hu & Hw & Hz & Hl & Hnone); [vm_compute; split; congruence|].
  assert (Hpages : forall x, x ∈ copied_pages (mkPgdir pt false [pg_heap] false) -> x = 1024 \/ x = 1025 \/ x = 1026 \/ x = 1027).
  { intros x Hx. change (copied_pages (mkPgdir pt false [pg_heap] false)) with [1024; 1025; 1026; 1027] in Hx. repeat (apply elem_of_cons in Hx as [Hx|Hx]; [tauto|]). by apply elem_of_nil in Hx. }
  destruct (p_zero _ _ _ _ _ HP) as (z & Ez & Hzh & _). rewrite <- Ez in Hzh.
  destruct (fork_copies_on_write pg_kend 1 2 (fun _ => []) (fun _ => false) 0 1 72 (fk_state m pt) g (mkPgdir pt false [pg_heap] false) (mkPgdir 0 false [] false) T ∅ fk_page) as (s' & g' & d1 & T1 & E & F & W).
  - discriminate.
  - split; vm_compute; discriminate.
  - split; [split; [reflexivity|exact HP]|split; [reflexivity|apply no_tables; [apply HP|exact Hzh]]|intros a b q _; by rewrite lookup_empty].
  - repeat constructor; vm_compute; congruence.
  - change (copied_pages (mkPgdir pt false [pg_heap] false)) with [1024; 1025; 1026; 1027]. apply (bool_decide_unpack _). vm_compute. reflexivity.
  - split.
    + intros x Hx Hfx. unfold entry_at. change (pmem (fk_state m pt)) with m. rewrite Hnone; [reflexivity|]. destruct (Hpages x Hx) as [->|[->|[->| ->]]]; [discriminate Hfx|vm_compute; discriminate..].
    + intros x p Hx Hfx. unfold fk_page in Hfx. destruct (Z.eqb_spec x (pg_addr / 4096)) as [->|]; [|done]. injection Hfx as <-. exists PTE_USER_DATA, 1. split; [exact He|]. split; [vm_compute; split; congruence|]. split; [reflexivity|].
      split; [exact Hu|split; [apply Hu|intros a; by rewrite lookup_empty]].
    + intros x y p _ _ Hx Hy. unfold fk_page in *. destruct (Z.eqb_spec x (pg_addr / 4096)), (Z.eqb_spec y (pg_addr / 4096)); congruence.
    + intros x Hx. destruct (Hpages x Hx) as [->|[->|[->| ->]]]; vm_compute; split; congruence.
  - change (REVERSED_PAGES + Z.of_nat (1 + 4 * 4) < Z.of_nat (length (gfree g))). unfold REVERSED_PAGES. lia.
  - destruct (W 1024 pg_page (pg_addr + 5) 1) as [(s2 & g2 & ka & E2 & P2) (s3 & g3 & kb & E3 & P3)]; [vm_compute; left|reflexivity|reflexivity|by exists pg_heap|split; [exact Hu|split; [apply Hu|intros a; by rewrite lookup_empty]]|lia|exact Hz|exact Hw|].
    exists (fk_state m pt), s'. split; [exact E|]. split.
    + exists s2, ka. split; [exact E2|]. split; apply P2.
    + exists s3, kb. split; [exact E3|]. split; apply P3.
Defined.
