(* ===== verification/FreeDir.v ===== *)
(** * Freeing an address space (kernel/pt.c, free_pgdir)

    [free_pgdir] gives back, for every page of every section, the page its
    entry maps, which loses one count, frees the section objects, one behind,
    and then frees the tables. Sections that are swapped out are not covered:
    [free_sections] swaps those in first (SwapCalls.v). *)
From stdpp Require Import base gmap list.
From Stdlib Require Import ZArith Lia.
From S2P Require Import Prelude Bytes Bitmap BCache BlockStore CString Console Inode Pipe File Mmu LockFree Mem PT Sections Paging PagingMem PagingProps SwapProps SwapCalls Fork ForkProps.

(** ** [kfree] leaves the pages in use alone *)
Lemma kfree_words lo s g a sz s' : mem_inv lo s g -> gobjs g !! a = Some sz -> kfree a s = Ret (tt, s') -> pages_same g s s'.
Proof.
  intros H Ha E p n w Hp Hw. destruct (i_objs _ _ _ H a sz Ha) as [Hs _]. pose proof (slot_in lo s g H a sz Hs) as (_ & _ & _ & _ & _ & _ & _ & _ & Hsz & _).
  assert (Hne : w <> a).
  { intros ->. destruct (slot_not_page lo s g H a sz p 0 Hs) as [Hsl _]; [apply (i_ok _ _ _ H); right; right; by exists n|lia|lia|].
    pose proof (i_sep2 _ _ _ H p ltac:(by exists sz)). congruence. }
  unfold kfree in E. destruct (a =? 0); [unfold ret in E; by simplify_eq|]. apply bind_inv in E as (x & s1 & E1 & E).
  assert (s1 = s) as -> by (unfold rd_word in E1; case_match; by simplify_eq). destruct (queue_words _ _ _ _ E) as [Hw' _]. by apply Hw'.
Qed.

(** ** The pages of sections *)
Definition freed_pages (x : section) : list Z := seqZ (begin x / 4096) ((end_ x + 4095) / 4096 - begin x / 4096).
Definition all_freed (l : list vma) : list Z := l ≫= (fun v => freed_pages (sec v)).
Definition plain (x : section) : Prop := 0 <= begin x <= end_ x /\ end_ x < 2 ^ 48 - 4096 /\ has x ST_SWAP = false.

Lemma find_own v l : NoDup (at_ <$> l) -> v ∈ l -> find_vma (at_ v) l = Some v.
Proof.
  unfold find_vma. induction l as [|w l IH]; [by intros _ ?%elem_of_nil|]. rewrite fmap_cons. intros [Hw Hnd]%NoDup_cons Hv. rewrite filter_cons.
  apply elem_of_cons in Hv as [->|Hv]; [by rewrite decide_True|]. rewrite decide_False; [by apply IH|]. intros E. apply Hw. rewrite E. by apply list_elem_of_fmap_2.
Qed.

Section free.
Context {St : Type} {BC : BlockCache St} (kend this pd : Z).
Abbreviation lo := (PAGE_BASE kend + PAGE_SIZE).
Abbreviation pst := (pst St).

(** [f] gives the page mapped at each page number; [uses l p] is how often
    the numbers in [l] map [p]. *)
Context (f : Z -> option Z).
Definition uses (l : list Z) (p : Z) : Z := Z.of_nat (length (filter (fun x => f x = Some p) l)).

Lemma uses_app l l' p : uses (l ++ l') p = uses l p + uses l' p.
Proof using. unfold uses. rewrite filter_app, length_app. lia. Qed.
Lemma uses_one x p : uses [x] p = if decide (f x = Some p) then 1 else 0.
Proof using. unfold uses. rewrite filter_cons, filter_nil. by destruct (decide _). Qed.
Lemma uses_bounds l p : 0 <= uses l p.
Proof using. unfold uses. lia. Qed.

Section run.
Context (s : pst) (g : ghost) (d : pgdir) (T : tables) (H : space kend pd s g d T).

(** The entries of the pages in [all], and counts that cover them. *)
Record freeable (all : list Z) : Prop := {
  fb_page : forall x p, x ∈ all -> f x = Some p -> valid (pte_of (pmem s) T (4096 * x)) = true /\ table_of (pte_of (pmem s) T (4096 * x)) = p /\
    p <> zero_page (pmem s) /\ exists n, user_page T g p n /\ uses all p <= n <= 127;
  fb_none : forall x, x ∈ all -> f x = None -> valid (pte_of (pmem s) T (4096 * x)) = false
}.

(** What has been done when the entries of [l] were visited and the section
    objects in [A] were freed. *)
Record freed (A l : list Z) (s1 : pst) (g1 : ghost) : Prop := {
  fr_mem : exists m, s1 = set_pmem m s;
  fr_inv : pt_inv lo (pmem s1) g1 (pt d) T;
  fr_pte : forall va, pte_of (pmem s1) T va = pte_of (pmem s) T va;
  fr_zero : zero_page (pmem s1) = zero_page (pmem s);
  fr_page : forall p n, user_page T g p n -> uses l p = 0 \/ uses l p < n ->
    gheld g1 !! p = Some (n - uses l p) /\ forall w, p <= w < p + PAGE_SIZE -> words (pmem s1) !! w = words (pmem s) !! w;
  fr_gone : forall p n, user_page T g p n -> 0 < uses l p -> n <= uses l p -> p ∈ gfree g1;
  fr_free : forall p, p ∈ gfree g -> p ∈ gfree g1;
  fr_objs : forall a, gobjs g1 !! a = if decide (a ∈ A) then None else gobjs g !! a
}.

Lemma freed_space A l s1 g1 : freed A l s1 g1 -> space kend pd s1 g1 d T.
Proof using H. intros F. split; [|apply F]. destruct (fr_mem _ _ _ _ F) as [m ->]. apply H. Qed.

Lemma freed_start : freed [] [] s g.
Proof using H.
  split; try done; [by exists (pmem s); rewrite set_pmem_id|apply H|].
  intros p n [Hp _] _. split; [|done]. change (uses [] p) with 0. by rewrite Z.sub_0_r.
Qed.

(** The turn for a page that is not mapped, and for one that is. *)
Lemma free_none A l x s1 g1 :
  freed A l s1 g1 -> f x = None -> valid (pte_of (pmem s) T (4096 * x)) = false -> free_turn kend (4096 * x) pd s1 = Ret (tt, s1) /\ freed A (l ++ [x]) s1 g1.
Proof using H.
  intros F Hx Hv. pose proof (freed_space _ _ _ _ F) as Hs. split.
  - unfold free_turn. destruct (T !! path (4096 * x)) as [q|] eqn:Hq.
    + rewrite (bind_Ret _ _ _ _ _ (get_pte_here kend pd s1 g1 d T (4096 * x) false q Hs Hq)), (entry_ptr_pos kend s1 g1 d T pd (4096 * x) q Hs Hq). simpl when.
      rewrite (bind_Ret _ _ _ _ _ (rd_pte_here kend pd s1 g1 d T (4096 * x) q Hs Hq)), (fr_pte _ _ _ _ F), Hv. done.
    + rewrite (bind_Ret _ _ _ _ _ (get_pte_none kend pd s1 g1 d T (4096 * x) Hs Hq)). done.
  - destruct F as [F1 F2 F3 F4 F5 F6 F7 F8].
    assert (Hu : forall p, uses (l ++ [x]) p = uses l p) by (intros p; rewrite uses_app, uses_one, decide_False by congruence; lia).
    split; try done; intros p n; rewrite Hu; [by apply F5|by apply F6].
Qed.

Lemma free_mapped A l x p n s1 g1 :
  freed A l s1 g1 -> f x = Some p -> valid (pte_of (pmem s) T (4096 * x)) = true -> table_of (pte_of (pmem s) T (4096 * x)) = p -> p <> zero_page (pmem s) ->
  user_page T g p n -> uses l p < n <= 127 -> exists s2 g2, free_turn kend (4096 * x) pd s1 = Ret (tt, s2) /\ freed A (l ++ [x]) s2 g2.
Proof using H.
  intros F Hx Hv Ht Hz Hp Hn. pose proof (freed_space _ _ _ _ F) as Hs. pose proof (uses_bounds l p) as Hu0. destruct F as [[m0 F1] F2 F3 F4 F5 F6 F7 F8].
  destruct (F5 p n Hp ltac:(lia)) as [Hheld Hpw]. assert (Hp1 : user_page T g1 p (n - uses l p)) by (split; [done|apply Hp]).
  destruct (give_page lo (pt d) T kend (pmem s1) g1 p (n - uses l p) eq_refl F2 Hp1) as (m & E & H2 & Hw & Hw1 & Hz2); [congruence|lia|].
  destruct (give_kept lo (pt d) T (pmem s1) m g1 p (n - uses l p) F2 Hp1 Hw) as [Hpte _].
  destruct (T !! path (4096 * x)) as [q|] eqn:Hq; [|unfold pte_of in Hv; rewrite Hq in Hv; done].
  exists (set_pmem m s1), (dropped p (n - uses l p) g1). split.
  { unfold free_turn. rewrite (bind_Ret _ _ _ _ _ (get_pte_here kend pd s1 g1 d T (4096 * x) false q Hs Hq)), (entry_ptr_pos kend s1 g1 d T pd (4096 * x) q Hs Hq). simpl when.
    rewrite (bind_Ret _ _ _ _ _ (rd_pte_here kend pd s1 g1 d T (4096 * x) q Hs Hq)), F3, Hv. fold (table_of (pte_of (pmem s) T (4096 * x))). rewrite Ht. by apply on_mem_Ret. }
  assert (Hu : forall r, uses (l ++ [x]) r = uses l r + if decide (p = r) then 1 else 0).
  { intros r. rewrite uses_app, uses_one, Hx. destruct (decide (p = r)) as [->|]; [by rewrite decide_True|by rewrite decide_False by congruence]. }
  assert (Hsub : forall r, r ∈ gfree g1 -> r ∈ gfree (dropped p (n - uses l p) g1)) by (intros r Hr; unfold dropped; destruct (_ <=? 1); [by right|done]).
  split; cbn [pmem set_pmem].
  - exists m. by rewrite F1.
  - exact H2.
  - intros va. by rewrite Hpte.
  - congruence.
  - intros r k Hr Hk. rewrite Hu in Hk |- *. destruct (decide (p = r)) as [<-|Hne].
    + destruct Hp as [Hp _], Hr as [Hr _]. assert (k = n) as -> by congruence. split.
      * unfold dropped. rewrite (proj2 (Z.leb_gt _ _)) by lia. simpl. rewrite lookup_insert_eq. f_equal. lia.
      * intros w Hin. rewrite Hw1 by lia. by apply Hpw.
    + rewrite Z.add_0_r in *. destruct (F5 r k Hr Hk) as [Hh Hrw]. split; [by rewrite dropped_other by congruence|]. intros w Hin. rewrite Hw; [by apply Hrw|].
      pose proof (user_page_ok lo (pt d) T _ _ _ _ F2 Hp1) as Hpo. pose proof (user_page_ok lo (pt d) T _ _ _ _ F2 (conj Hh (proj2 Hr) : user_page T g1 r _)) as Hro.
      destruct (pages_disjoint lo p r Hpo Hro) as [?|?]; [congruence|lia..].
  - intros r k Hr. rewrite Hu. destruct (decide (p = r)) as [<-|Hne]; [|rewrite Z.add_0_r; intros H0 H1; by eapply Hsub, F6].
    destruct Hp as [Hp _], Hr as [Hr _]. assert (k = n) as -> by congruence. intros _ Hk. unfold dropped. rewrite (proj2 (Z.leb_le _ _)) by lia. by left.
  - intros r Hr. by apply Hsub, F7.
  - intros a. rewrite <- F8. unfold dropped. by destruct (_ <=? 1).
Qed.

(** The loop over a section. *)
Lemma free_section A all l r x s1 g1 : freeable all -> plain x -> all = l ++ freed_pages x ++ r -> freed A l s1 g1 ->
  exists s2 g2, for_pages (PAGE_BASE (begin x)) (end_ x) (fun va => free_turn kend va pd) s1 = Ret (tt, s2) /\ freed A (l ++ freed_pages x) s2 g2.
Proof using H.
  intros Hfb ([H0 H1] & H2 & _) Hall F. set (b := begin x / 4096). set (n := (end_ x + 4095) / 4096 - b).
  assert (Hb : 0 <= b) by (apply Z.div_pos; lia). assert (Hbe : b <= (end_ x + 4095) / 4096) by (apply Z.div_le_mono; lia).
  assert (Hbb : 4096 * b <= begin x) by (apply Z.mul_div_le; lia).
  assert (Et : turns (PAGE_BASE (begin x)) (end_ x) = n).
  { unfold turns, PAGE_SIZE. rewrite base_of. fold b. replace (end_ x - 4096 * b + 4096 - 1) with ((end_ x + 4095) + (- b) * 4096) by lia. rewrite Z.div_add by lia. unfold n. lia. }
  destruct (for_pages_inv (fun i s2 => exists g2, freed A (l ++ seqZ b i) s2 g2) (PAGE_BASE (begin x)) (end_ x) (fun va => free_turn kend va pd) s1) as (s2 & E & g2 & F2).
  - rewrite base_of. fold b. lia.
  - lia.
  - exists g1. cbn. by rewrite app_nil_r.
  - rewrite Et. intros i s2 Hi (g2 & F2). unfold page_at, PAGE_SIZE. rewrite base_of. fold b. replace (4096 * b + 4096 * i) with (4096 * (b + i)) by lia.
    assert (Hpre : freed_pages x = seqZ b i ++ (b + i) :: seqZ (Z.succ (b + i)) (n - i - 1)).
    { unfold freed_pages. fold b n. replace n with (i + (n - i)) at 1 by lia. rewrite seqZ_app by lia. f_equal. rewrite seqZ_cons by lia. f_equal. }
    assert (Hin : b + i ∈ all) by (rewrite Hall, Hpre; set_solver).
    assert (Es : seqZ b (i + 1) = seqZ b i ++ [b + i]) by (rewrite seqZ_app by lia; f_equal; cbn; f_equal; lia). rewrite Es, app_assoc.
    destruct (f (b + i)) as [p|] eqn:Hf.
    + destruct (fb_page _ Hfb _ p Hin Hf) as (Hv & Ht & Hz & k & Hp & Hk). destruct (free_mapped A (l ++ seqZ b i) (b + i) p k s2 g2 F2 Hf Hv Ht Hz Hp) as (s3 & g3 & E3 & F3); [|by exists s3; split; [|exists g3]].
      split; [|apply Hk]. assert (Hle : uses all p = uses (l ++ seqZ b i) p + (1 + uses (seqZ (Z.succ (b + i)) (n - i - 1) ++ r) p)); [|pose proof (uses_bounds (seqZ (Z.succ (b + i)) (n - i - 1) ++ r) p); lia].
      rewrite Hall, Hpre. replace (l ++ (seqZ b i ++ (b + i) :: seqZ (Z.succ (b + i)) (n - i - 1)) ++ r) with ((l ++ seqZ b i) ++ [b + i] ++ (seqZ (Z.succ (b + i)) (n - i - 1) ++ r)) by (by rewrite <- !app_assoc).
      rewrite !uses_app, uses_one, decide_True by done. lia.
    + destruct (free_none A (l ++ seqZ b i) (b + i) s2 g2 F2 Hf (fb_none _ Hfb _ Hin Hf)) as [E2 F3]. by exists s2; split; [|exists g2].
  - exists s2, g2. split; [exact E|]. rewrite Et in F2. exact F2.
Qed.

(** A section object is freed. *)
Lemma free_object A l a s1 g1 : freed A l s1 g1 -> a ∉ A -> is_Some (gobjs g !! a) -> exists s2 g2, on_mem (kfree a) s1 = Ret (tt, s2) /\ freed (a :: A) l s2 g2.
Proof using H.
  intros [[m0 F1] F2 F3 F4 F5 F6 F7 F8] Ha [sz Hsz]. assert (Ho : gobjs g1 !! a = Some sz) by (by rewrite F8, decide_False).
  destruct (kfree_full lo (pmem s1) g1 a sz (p_mem _ _ _ _ _ F2) Ho) as (m & g2 & E & HM & Hobj & Hheld & Hz & Hfr).
  pose proof (kfree_words lo (pmem s1) g1 a sz m (p_mem _ _ _ _ _ F2) Ho E) as Hw.
  assert (Htab : tables_same T (pmem s1) m) by (intros b q w Hq Hin; by apply (Hw q 0 w (p_held _ _ _ _ _ F2 b q Hq))).
  exists (set_pmem m s1), g2. split; [by apply on_mem_Ret|]. split; cbn [pmem set_pmem].
  - exists m. by rewrite F1.
  - destruct (p_zero _ _ _ _ _ F2) as (z & Hzz & Hzh & _). eapply (other_tables lo (pmem s1) g1); [done|done|done| |done|].
    + intros b q Hq. rewrite Hheld. by apply (p_held _ _ _ _ _ F2 b q).
    + rewrite Hheld. congruence.
  - intros va. by rewrite (pte_of_same lo (pmem s1) g1 m (pt d) T va F2 Htab).
  - congruence.
  - intros p n Hp Hu. destruct (F5 p n Hp Hu) as [H1 H2]. split; [by rewrite Hheld|]. intros w Hin. rewrite (Hw p _ w H1 Hin). by apply H2.
  - intros p n Hp H0 H1. rewrite Hfr. by eapply F6.
  - intros p Hp. rewrite Hfr. by apply F7.
  - intros b. rewrite Hobj. destruct (decide (b = a)) as [->|Hne]; [by rewrite lookup_delete_eq, decide_True by (by left)|].
    rewrite lookup_delete_ne, F8 by done. apply decide_ext. rewrite elem_of_cons. tauto.
Qed.

Lemma free_last A l pre s1 g1 : freed A l s1 g1 -> (forall a, pre = Some a -> a ∉ A /\ is_Some (gobjs g !! a)) ->
  exists s2 g2, match pre with Some a => on_mem (kfree a) | None => ret tt end s1 = Ret (tt, s2) /\ freed (option_list pre ++ A) l s2 g2.
Proof using H. intros F Hpre. destruct pre as [a|]; [|by exists s1, g1]. destruct (Hpre a eq_refl). by apply (free_object A l a s1 g1). Qed.

Section sections.
Context (children : Z -> list Z) (zombie : Z -> bool) (root_proc : Z) (depth : nat).
Abbreviation free_sections_from := (free_sections_from kend children zombie root_proc depth pd).

(** All sections: the object of a section is freed when the next one has
    been visited. *)
Lemma free_secs all rs : freeable all -> NoDup (at_ <$> section_head d) -> (forall v, v ∈ section_head d -> plain (sec v) /\ is_Some (gobjs g !! at_ v)) ->
  all = all_freed (section_head d) -> forall dn A pre s1 g1, section_head d = dn ++ rs -> freed A (all_freed dn) s1 g1 ->
  (forall a, a ∈ option_list pre ++ A -> a ∈ at_ <$> dn) -> NoDup (option_list pre ++ A) ->
  exists s2 g2 B, free_sections_from pre (at_ <$> rs) s1 = Ret (tt, s2) /\ freed B all s2 g2 /\ forall a, a ∈ B <-> a ∈ option_list pre ++ A \/ a ∈ at_ <$> rs.
Proof using H.
  intros Hfb Hnd Hok Hall. induction rs as [|v rs IH]; intros dn A pre s1 g1 Hd F HA HN.
  - destruct (free_last A (all_freed dn) pre s1 g1 F) as (s2 & g2 & E & F2).
    { intros a ->. cbn in HA, HN. apply NoDup_cons in HN as [Ha _]. split; [done|]. assert (Hin : a ∈ at_ <$> dn) by (apply HA; left). apply list_elem_of_fmap in Hin as (w & -> & Hw). apply Hok. rewrite Hd. set_solver. }
    exists s2, g2, (option_list pre ++ A). split; [exact E|]. rewrite app_nil_r in Hd. split; [by rewrite Hall, Hd|]. intros a. cbn. set_solver.
  - assert (Hv : v ∈ section_head d) by (rewrite Hd; set_solver). destruct (Hok v Hv) as [Hp Hsz].
    assert (Hav : at_ v ∉ at_ <$> dn). { rewrite Hd, fmap_app, fmap_cons in Hnd. apply NoDup_app in Hnd as (_ & Hx & _). intros Hin. apply (Hx _ Hin). left. }
    pose proof (freed_space _ _ _ _ F) as Hs. assert (El : load_vma pd (at_ v) s1 = Ret (v, s1)) by (apply (load_vma_Ret pd (at_ v) s1 d v (sp_dir _ _ _ _ _ _ Hs)), find_own; done).
    destruct (free_section A all (all_freed dn) (all_freed rs) (sec v) s1 g1 Hfb Hp) as (s2 & g2 & E2 & F2); [|exact F|].
    { rewrite Hall, Hd. unfold all_freed. by rewrite bind_app, bind_cons. }
    destruct (free_last A _ pre s2 g2 F2) as (s3 & g3 & E3 & F3).
    { intros a ->. cbn in HA, HN. apply NoDup_cons in HN as [Ha _]. split; [done|]. assert (Hin : a ∈ at_ <$> dn) by (apply HA; left). apply list_elem_of_fmap in Hin as (w & -> & Hw). apply Hok. rewrite Hd. set_solver. }
    assert (Edn : all_freed dn ++ freed_pages (sec v) = all_freed (dn ++ [v])) by (unfold all_freed; rewrite bind_app, bind_cons; cbn; by rewrite app_nil_r).
    rewrite Edn in F3. destruct (IH (dn ++ [v]) (option_list pre ++ A) (Some (at_ v)) s3 g3) as (s4 & g4 & B & E4 & F4 & HB).
    + by rewrite <- app_assoc.
    + exact F3.
    + intros a Hin. rewrite fmap_app. apply elem_of_app. apply (elem_of_cons _ _ (at_ v)) in Hin as [->|Hin]; [right; by left|left; by apply HA].
    + cbn. apply NoDup_cons. split; [|done]. intros Hin. apply Hav. by apply HA.
    + exists s4, g4, B. split; [|split; [done|]].
      * cbn. rewrite (bind_Ret _ _ _ _ _ El). destruct Hp as (_ & _ & ->). rewrite (bind_Ret _ _ _ _ _ (eq_refl : ret tt s1 = Ret (tt, s1))), (bind_Ret _ _ _ _ _ E2), (bind_Ret _ _ _ _ _ E3). exact E4.
      * intros a. rewrite HB. cbn. set_solver.
Qed.
End sections.
End run.
End free.

(** The page that the page table [T] maps at page number [x]. *)
Definition mapped (m : mem_st) (T : tables) (x : Z) : option Z :=
  let e := pte_of m T (4096 * x) in if valid e then Some (table_of e) else None.

Section whole.
Context {St : Type} {BC : BlockCache St} (kend pd : Z) (children : Z -> list Z) (zombie : Z -> bool) (root_proc : Z) (depth : nat).
Abbreviation lo := (PAGE_BASE kend + PAGE_SIZE).
Abbreviation pst := (pst St).

(** Every mapped page is one of the user's, and its count covers the entries
    of the sections that map it. *)
Definition counted (m : mem_st) (T : tables) (g : ghost) (all : list Z) : Prop :=
  forall x p, x ∈ all -> mapped m T x = Some p -> p <> zero_page m /\ exists n, user_page T g p n /\ uses (mapped m T) all p <= n <= 127.

(** After [free_pgdir]: of a page of the user with count [n], [k] entries of
    the sections were given back. *)
Record dir_freed (s s' : pst) (g g' : ghost) (d : pgdir) (T : tables) : Prop := {
  df_inv : mem_inv lo (pmem s') g';
  df_dirs : dirs s' = <[pd := set_pt 0 d]> (dirs s);
  df_rest : swapmap s' = swapmap s /\ pfs s' = pfs s /\ offline_proc s' = offline_proc s;
  df_pages : forall p n, user_page T g p n -> let k := uses (mapped (pmem s) T) (all_freed (section_head d)) p in
    if (k =? 0) || (k <? n) then gheld g' !! p = Some (n - k) /\ page_words (pmem s') p = page_words (pmem s) p else p ∈ gfree g';
  df_tables : forall a p, T !! a = Some p -> p ∈ gfree g';
  df_free : forall p, p ∈ gfree g -> p ∈ gfree g';
  df_objs : forall a, gobjs g' !! a = if decide (a ∈ at_ <$> section_head d) then None else gobjs g !! a
}.

(** C21: [free_pgdir] gives an address space back. For a page table that
    exists, with the sections in memory and the counts of the mapped pages at
    least the number of their entries, it returns; the page table pointer is
    NULL; every page of the user loses one count for each entry of the
    sections that maps it, goes to the free pages with its last count and
    otherwise keeps its content; the objects of the sections are free again,
    every other object is kept; and every page of the page table goes to the
    free pages. The allocator's invariant holds, and the other address
    spaces, the swap slots and the file system are what they were. *)
Theorem free_pgdir_correct (s : pst) g d T :
  space kend pd s g d T -> pt d <> 0 -> NoDup (at_ <$> section_head d) ->
  (forall v, v ∈ section_head d -> plain (sec v) /\ is_Some (gobjs g !! at_ v)) ->
  counted (pmem s) T g (all_freed (section_head d)) ->
  exists s' g', free_pgdir kend children zombie root_proc depth pd s = Ret (tt, s') /\ dir_freed s s' g g' d T.
Proof using.
  intros H Hpt Hnd Hok Hc. set (f := mapped (pmem s) T). set (all := all_freed (section_head d)).
  assert (Hfb : freeable f s g T all).
  { split; intros x.
    - intros p Hx Hf. destruct (Hc x p Hx Hf) as (Hz & n & Hp). unfold f, mapped in Hf. case_match; [|done]. injection Hf as <-. split; [done|]. split; [done|]. split; [done|]. by exists n.
    - intros _ Hf. unfold f, mapped in Hf. by case_match. }
  destruct (free_secs kend pd f s g d T H children zombie root_proc depth all (section_head d) Hfb Hnd Hok eq_refl [] [] None s g eq_refl) as (s1 & g1 & B & E1 & F & HB);
    [exact (freed_start kend pd f s g d T H)|by intros a ?%elem_of_nil|constructor|].
  pose proof (freed_space _ _ _ _ _ _ _ H _ _ _ _ F) as Hs1. destruct F as [[m1 F1] F2 _ _ F5 F6 F7 F8].
  destruct (free_tables_spec kend (pmem s1) g1 (pt d) T F2 Hpt) as (m & g' & E2 & M2 & _ & G1 & G2 & G3 & G4 & G5).
  exists (set_dirs (insert pd (set_pt 0 d)) (set_pmem m s1)), g'. split.
  - unfold free_pgdir. rewrite (bind_Ret _ _ _ _ _ (load_dir_Ret pd s d (sp_dir _ _ _ _ _ _ H))), (proj2 (Z.eqb_neq _ _)) by done.
    unfold free_sections. rewrite bind_assoc, (bind_Ret _ _ _ _ _ (load_dir_Ret pd s d (sp_dir _ _ _ _ _ _ H))), (bind_Ret _ _ _ _ _ E1), (bind_Ret _ _ _ _ _ (on_mem_Ret _ s1 _ _ E2)).
    apply update_dir_Ret. apply (sp_dir _ _ _ _ _ _ Hs1).
  - subst s1. split; cbn [pmem set_pmem set_dirs dirs swapmap pfs offline_proc]; try done.
    + intros p n Hp. cbv zeta. fold f all. pose proof (uses_bounds f all p) as Hu0. destruct (_ || _) eqn:Ek.
      * destruct (F5 p n Hp) as [P1 P2]; [lia|]. assert (Hp1 : user_page T g1 p (n - uses f all p)) by (split; [done|apply Hp]). split; [rewrite G3; [done|apply Hp]|].
        apply page_words_ext. intros w Hw. rewrite G5; [by apply P2|]. intros a q Ha Hin.
        destruct (pages_disjoint lo p q (user_page_ok lo (pt d) T _ _ _ _ F2 Hp1) (table_page _ _ _ _ _ _ _ F2 Ha)) as [?|?]; [intros ->; by apply (proj2 Hp a)|lia..].
      * apply G2, (F6 p n Hp); lia.
    + intros p Hp. by apply G2, F7.
    + intros a. rewrite G4, F8. apply decide_ext. rewrite HB. cbn. set_solver.
Qed.
End whole.

#[local] Existing Instance no_cache.

(** A process with one heap section of three pages, of which one is mapped. *)
Lemma free_pgdir_correct_witness :
  exists (s s' : pst unit) g', free_pgdir pg_kend (fun _ => []) (fun _ => false) 0 1 1 s = Ret (tt, s') /\ pg_page ∈ gfree g' /\ mem_inv pg_lo (pmem s') g' /\
    exists d, dirs s' !! 1 = Some d /\ pt d = 0.
Proof.
  destruct (pg_mapped PTE_USER_DATA) as (m & g & pt & T & HP & He & Ht & Hu & _ & Hz & Hl & Hnone); [vm_compute; split; congruence|].
  pose proof (p_mem _ _ _ _ _ HP) as HM. pose proof (free_bound _ _ g HM) as Hbd. change NPAGE with 258048 in Hbd.
  destruct (kalloc_spec pg_lo m g 72 512 HM ltac:(lia) ltac:(lia) ltac:(lia)) as (a & m1 & g1 & E & _ & HM1 & (_ & Ho & Hh) & Hz1); [left; intros E0; rewrite E0 in Hl; cbn in Hl; lia|].
  destruct (kalloc_words pg_lo m g 72 512 a m1 HM ltac:(lia) ltac:(lia) ltac:(lia) E) as [Hw _].
  assert (Htab : tables_same T m m1) by (intros b q w Hq Hin; by apply (Hw q 0 w (p_held _ _ _ _ _ HP b q Hq))).
  assert (HP1 : pt_inv pg_lo m1 g1 pt T).
  { destruct (p_zero _ _ _ _ _ HP) as (z & Hzz & Hzh & _). eapply (other_tables pg_lo m g); [done|done|done| |done|by rewrite Hh, Hzz]. intros b q Hq. rewrite Hh. by apply (p_held _ _ _ _ _ HP b q). }
  assert (Hpte : forall va, pte_of m1 T va = pte_of m T va) by (intros va; by apply (pte_of_same pg_lo m g m1 pt T va HP Htab)).
  set (d := mkPgdir pt false [mkVma a (mkSection ST_HEAP pg_addr (pg_addr + 0x3000) 0 0 0) 1] false).
  set (s := mkPst m1 {[1 := d]} [0] (mkFst (mkIst tt ∅ [] ex_cons 0) [] false ∅) 0 : pst unit).
  assert (Hmap : mapped m1 T 1024 = Some pg_page).
  { unfold mapped. rewrite Hpte. change (4096 * 1024) with pg_addr. rewrite He, Ht. reflexivity. }
  assert (Hnomap : forall x, x ≠ 1024 -> x ∈ [1024; 1025; 1026] -> mapped m1 T x = None).
  { intros x Hx Hin. unfold mapped. rewrite Hpte, Hnone; [done|]. repeat (apply elem_of_cons in Hin as [->|Hin]; [by vm_compute|]). by apply elem_of_nil in Hin. }
  assert (Hu1 : uses (mapped m1 T) [1024; 1025; 1026] pg_page = 1).
  { unfold uses. rewrite !filter_cons, filter_nil, Hmap, !Hnomap by set_solver. by rewrite !decide_True, !decide_False by done. }
  assert (Hup : user_page T g1 pg_page 1) by (split; [rewrite Hh|]; apply Hu).
  destruct (free_pgdir_correct pg_kend 1 (fun _ => []) (fun _ => false) 0 1 s g1 d T) as (s' & g' & E' & F).
  - split; [apply lookup_singleton_eq|exact HP1].
  - intros E0. destruct (p_root _ _ _ _ _ HP1) as [[_ ET]|Hr].
    + assert (Hv : pte_of m T pg_addr = 0) by (by rewrite ET; unfold pte_of; rewrite lookup_empty). rewrite Hv in He. vm_compute in He. discriminate.
    + pose proof (table_page _ _ _ _ _ _ _ HP1 Hr) as (_ & Hp & _). change (pt = 0) in E0. rewrite E0 in Hp. vm_compute in Hp. by destruct (Hp eq_refl).
  - apply NoDup_singleton.
  - intros v Hv. apply list_elem_of_singleton in Hv as ->. split; [by vm_compute|]. cbn. rewrite Ho, lookup_insert_eq. by eexists.
  - change (all_freed (section_head d)) with [1024; 1025; 1026]. change (pmem s) with m1. intros x p Hx Hp. destruct (decide (x = 1024)) as [->|Hne]; [|by rewrite Hnomap in Hp].
    rewrite Hmap in Hp. injection Hp as <-. split; [by rewrite Hz1|]. exists 1. split; [exact Hup|]. by rewrite Hu1.
  - exists s, s', g'. split; [exact E'|]. split; [|split; [apply F|]].
    + pose proof (df_pages _ _ _ _ _ _ _ _ F pg_page 1 Hup) as Hpg. change (all_freed (section_head d)) with [1024; 1025; 1026] in Hpg. change (pmem s) with m1 in Hpg. by rewrite Hu1 in Hpg.
    + exists (set_pt 0 d). split; [|done]. rewrite (df_dirs _ _ _ _ _ _ _ _ F). apply lookup_insert_eq.
Defined.
