(* ===== verification/UserMem.v ===== *)
(** * The bytes of an address space, and [copyout] (kernel/pt.c)

    [ubyte]: the byte a process has at an address of its own, through its
    page table. [copyout] stores bytes there and maps the pages that are
    missing; all other bytes are kept. *)
From stdpp Require Import base gmap list.
From Stdlib Require Import ZArith Lia.
From S2P Require Import Prelude Bytes Bitmap BCache BlockStore CString Console Inode Pipe File Mmu LockFree Mem PT Sections Paging PagingMem PagingProps Swap SwapProps SwapCalls Fork.

Definition canonical (a : Z) : Prop := 0 <= a < 2 ^ 48.
Definition is_mapped (m : mem_st) (T : tables) (a : Z) : Prop := valid (pte_of m T a) = true.
Definition ubyte (m : mem_st) (T : tables) (a : Z) : Z := default 0 (unwords 8 (page_words m (table_of (pte_of m T a))) !! Z.to_nat (a mod 4096)).

(** [bs] is what the process has from [a] on. *)
Definition uholds (m : mem_st) (T : tables) (a : Z) (bs : bytes) : Prop :=
  forall k b, bs !! k = Some b -> is_mapped m T (a + Z.of_nat k) /\ ubyte m T (a + Z.of_nat k) = b.

Lemma page_eq a b : canonical a -> canonical b -> same_page a b <-> a / 4096 = b / 4096.
Proof.
  intros [Ha1 Ha2] [Hb1 Hb2]. unfold same_page. assert (H : forall x, 0 <= x < 2 ^ 48 -> 0 <= x / 4096 < 2 ^ 36).
  { intros x Hx. split; [apply Z.div_pos; lia|]. apply Z.div_lt_upper_bound; lia. }
  rewrite !Z.mod_small by (by apply H). done.
Qed.

Lemma pte_page m T a b : a / 4096 = b / 4096 -> pte_of m T a = pte_of m T b.
Proof. intros H. unfold pte_of. destruct (path_same a b) as [-> ->]; [unfold same_page; congruence|done]. Qed.

Lemma filter_one (f h : Z -> bool) l x : NoDup l -> x ∈ l -> f x = true -> h x = false -> (forall y, y ∈ l -> y <> x -> h y = f y) ->
  length (List.filter f l) = S (length (List.filter h l)).
Proof.
  intros Hnd Hx HP HQ Heq. induction Hnd as [|y l Hy Hnd IH]; [by apply elem_of_nil in Hx|]. cbn. apply elem_of_cons in Hx as [<-|Hx].
  - rewrite HP, HQ. cbn. f_equal. f_equal. apply filter_ext_in. intros z Hz%list_elem_of_In. symmetry. apply Heq; [by right|]. by intros ->.
  - rewrite (Heq y); [|left|by intros ->]. specialize (IH Hx ltac:(intros z Hz; apply Heq; by right)). destruct (f y); cbn; by rewrite IH.
Qed.

Section user.
Context {St : Type} {BC : BlockCache St} (kend : Z) (pd base top : Z).
Abbreviation lo := (PAGE_BASE kend + PAGE_SIZE).
Abbreviation pst := (pst St).

(** ** A range of addresses whose pages no other address shares *)
Definition region (a : Z) : Prop := base <= a < top.
Definition region_pages : list Z := seqZ (base / 4096) (top / 4096 - base / 4096).
Definition missing (m : mem_st) (T : tables) : nat := length (List.filter (fun x => negb (valid (pte_of m T (4096 * x)))) region_pages).

(** Every page is a user's; there are pages for what is missing. *)
Record user_inv (s : pst) (g : ghost) (d : pgdir) (T : tables) : Prop := {
  ui_space : space kend pd s g d T;
  ui_page : forall a, canonical a -> is_mapped (pmem s) T a -> exists n, user_page T g (table_of (pte_of (pmem s) T a)) n;
  ui_own : forall a b, region a -> canonical b -> is_mapped (pmem s) T a -> is_mapped (pmem s) T b ->
    table_of (pte_of (pmem s) T a) = table_of (pte_of (pmem s) T b) -> a / 4096 = b / 4096;
  ui_free : REVERSED_PAGES + 5 * Z.of_nat (missing (pmem s) T) <= Z.of_nat (length (gfree g))
}.

(** [bs] was stored at [off]; nothing else changed. *)
Record put (off : Z) (bs : bytes) (s s' : pst) (d d' : pgdir) (T T' : tables) : Prop := {
  pu_new : uholds (pmem s') T' off bs;
  pu_old : forall b, canonical b -> is_mapped (pmem s) T b -> is_mapped (pmem s') T' b /\ (b < off \/ off + Z.of_nat (length bs) <= b -> ubyte (pmem s') T' b = ubyte (pmem s) T b);
  pu_dir : d' = set_pt (pt d') d;
  pu_rest : (forall p, p <> pd -> dirs s' !! p = dirs s !! p) /\ swapmap s' = swapmap s
}.

Lemma put_nil s d T off : put off [] s s d d T T.
Proof using. split; [intros k b Hk; by rewrite lookup_nil in Hk|done|symmetry; apply set_pt_same|done]. Qed.

Lemma put_app off a b s s1 s2 d d1 d2 T T1 T2 : 0 <= off -> off + Z.of_nat (length a) <= 2 ^ 48 -> put off a s s1 d d1 T T1 -> put (off + Z.of_nat (length a)) b s1 s2 d1 d2 T1 T2 -> put off (a ++ b) s s2 d d2 T T2.
Proof using.
  intros Hc1 Hc2 [A1 A2 A3 (A4 & A5)] [B1 B2 B3 (B4 & B5)]. split.
  - intros k x [Hx|[Hl Hx]]%lookup_app_Some.
    + pose proof (lookup_lt_Some _ _ _ Hx) as Hlt. destruct (A1 k x Hx) as [M1 U1]. destruct (B2 (off + Z.of_nat k)) as [M2 U2]; [unfold canonical; lia|done|]. split; [done|]. rewrite U2; [done|lia].
    + replace (off + Z.of_nat k) with (off + Z.of_nat (length a) + Z.of_nat (k - length a)) by lia. by apply B1.
  - intros x Hx Hm. destruct (A2 x Hx Hm) as [M1 U1]. destruct (B2 x Hx M1) as [M2 U2]. split; [done|]. rewrite length_app. intros Ho. rewrite U2, U1; [done|lia|lia].
  - rewrite B3, A3. done.
  - split; [intros p Hp; by rewrite B4, A4|congruence].
Qed.

(** What was known of bytes elsewhere still holds. *)
Lemma put_holds off bs s s' d d' T T' a l : put off bs s s' d d' T T' -> 0 <= a -> a + Z.of_nat (length l) <= 2 ^ 48 -> a + Z.of_nat (length l) <= off \/ off + Z.of_nat (length bs) <= a ->
  uholds (pmem s) T a l -> uholds (pmem s') T' a l.
Proof using.
  intros H Ha Hl Hd Hh k b Hk. pose proof (lookup_lt_Some _ _ _ Hk) as Hlt. destruct (Hh k b Hk) as [Hm Hb]. destruct (pu_old _ _ _ _ _ _ _ _ H (a + Z.of_nat k)) as [M2 U2]; [unfold canonical; lia|done|].
  split; [done|]. rewrite U2; [done|lia].
Qed.

(** ** A store to a mapped page *)
Lemma store_user s g d T off bs : user_inv s g d T -> region off -> canonical off -> off mod 4096 + Z.of_nat (length bs) <= 4096 -> Forall byte_ok bs -> is_mapped (pmem s) T off ->
  exists s', on_mem (store_page (table_of (pte_of (pmem s) T off)) (Z.to_nat (off mod 4096)) bs) s = Ret (tt, s') /\ user_inv s' g d T /\ put off bs s s' d d T T /\ pfs s' = pfs s /\ forall b, pte_of (pmem s') T b = pte_of (pmem s) T b.
Proof using.
  intros [[Hd HP] Hpg Hown Hfr] Hr Hc Hl Hok Hm. pose proof (Z.mod_pos_bound off 4096 ltac:(lia)) as Hmod. destruct (Hpg off Hc Hm) as [n Hu]. set (p := table_of (pte_of (pmem s) T off)) in *.
  pose proof (user_page_ok _ _ _ _ _ _ _ HP Hu) as Hpo. set (old := unwords 8 (page_words (pmem s) p)). assert (Hol : length old = 4096%nat) by (unfold old; by rewrite unwords_length, page_words_length).
  set (new := splice (Z.to_nat (off mod 4096)) bs old). assert (Hnl : length new = 4096%nat) by (unfold new; rewrite splice_length; lia).
  pose proof (store_page_Ret lo p (Z.to_nat (off mod 4096)) bs (pmem s) Hpo ltac:(lia)) as E. fold old new in E.
  destruct (store_stored _ _ _ (pmem s) g p n (Bytes.words 8 512 new) HP Hu (words_length _ _ _)) as [S1 S2 S3 S4]. set (m := set_words _ (pmem s)) in *.
  assert (Hup : unwords 8 (page_words m p) = new) by (rewrite S2; apply unwords_words; [apply splice_ok; [done|apply unwords_ok]|done]).
  assert (Hmm : forall b, is_mapped m T b <-> is_mapped (pmem s) T b) by (intros b; unfold is_mapped; by rewrite S3).
  exists (set_pmem m s). split; [by apply on_mem_Ret|]. split; [split|split; [split|split; [done|exact S3]]].
  - by split.
  - intros a Ha Hma. change (pmem (set_pmem m s)) with m. rewrite S3. by apply Hpg; [|apply Hmm].
  - intros a b Ha Hb Hma Hmb. change (pmem (set_pmem m s)) with m. rewrite !S3. apply Hown; [done|done|by apply Hmm|by apply Hmm].
  - change (pmem (set_pmem m s)) with m. unfold missing. rewrite (filter_ext _ (fun x => negb (valid (pte_of (pmem s) T (4096 * x))))) by (intros x; by rewrite S3). exact Hfr.
  - intros k b Hk. pose proof (lookup_lt_Some _ _ _ Hk) as Hlt. change (pmem (set_pmem m s)) with m.
    assert (Hdiv : (off + Z.of_nat k) / 4096 = off / 4096) by (Z.div_mod_to_equations; lia). assert (Hmd : (off + Z.of_nat k) mod 4096 = off mod 4096 + Z.of_nat k) by (Z.div_mod_to_equations; lia).
    unfold is_mapped, ubyte. rewrite S3, (pte_page _ _ _ off Hdiv). fold p. split; [exact Hm|]. rewrite Hup, Hmd. unfold new. rewrite splice_lookup by lia.
    rewrite decide_True by lia. replace (Z.to_nat (off mod 4096 + Z.of_nat k) - Z.to_nat (off mod 4096))%nat with k by lia. by rewrite Hk.
  - intros b Hb Hmb. change (pmem (set_pmem m s)) with m. split; [by apply Hmm|]. intros Hout. unfold ubyte. rewrite S3. destruct (Hpg b Hb Hmb) as [k Hub].
    destruct (decide (table_of (pte_of (pmem s) T b) = p)) as [Ep|Hne].
    + pose proof (Hown off b Hr Hb Hm Hmb ltac:(by rewrite Ep)) as Hdiv. rewrite Ep, Hup. pose proof (Z.mod_pos_bound b 4096 ltac:(lia)) as Hbm. fold old. unfold new. rewrite splice_lookup by lia.
      pose proof (Z.div_mod off 4096 ltac:(lia)). pose proof (Z.div_mod b 4096 ltac:(lia)). by rewrite decide_False by lia.
    + by rewrite (S4 _ _ Hub Hne).
  - symmetry. apply set_pt_same.
  - split; [intros p' _; reflexivity|reflexivity].
Qed.

(** ** Mapping what is missing *)
Lemma missing_pages a : 0 <= base -> base mod 4096 = 0 -> top mod 4096 = 0 -> region a -> a / 4096 ∈ region_pages.
Proof using.
  intros H0 Hb Ht Hr. unfold region in Hr. apply elem_of_seqZ. Z.div_mod_to_equations. lia.
Qed.

Context (children : Z -> list Z) (zombie : Z -> bool) (root_proc : Z) (depth : nat).
Abbreviation copyout := (copyout kend children zombie root_proc depth).
Abbreviation copyout_turn := (copyout_turn kend children zombie root_proc depth).
Abbreviation alloc_page := (alloc_page_for_user kend children zombie root_proc depth).

(** What an address space was still is: its entries, pages and directory. *)
Record grew (s s' : pst) (d d' : pgdir) (T T' : tables) : Prop := {
  gw_old : forall b, canonical b -> is_mapped (pmem s) T b -> is_mapped (pmem s') T' b /\ ubyte (pmem s') T' b = ubyte (pmem s) T b;
  gw_dir : d' = set_pt (pt d') d;
  gw_rest : (forall p, p <> pd -> dirs s' !! p = dirs s !! p) /\ swapmap s' = swapmap s
}.

Lemma grew_put off bs s s1 s2 d d1 d2 T T1 T2 : grew s s1 d d1 T T1 -> put off bs s1 s2 d1 d2 T1 T2 -> put off bs s s2 d d2 T T2.
Proof using.
  intros [A1 A2 (A3 & A4)] [B1 B2 B3 (B4 & B5)]. split; [done| |by rewrite B3, A2|split; [intros p Hp; by rewrite B4, A3|congruence]].
  intros b Hb Hm. destruct (A1 b Hb Hm) as [M1 U1]. destruct (B2 b Hb M1) as [M2 U2]. split; [done|]. intros Ho. by rewrite U2.
Qed.

(** [pte = get_pte(pd, off, true); if(!( *pte & PTE_VALID)) vmmap(.., fl)] *)
Definition ensure (off fl : Z) : M pst Z :=
  pte <- get_pte pd off true ;; e <- rd_pte pte ;; when (Z.land e PTE_VALID =? 0) (ka <- alloc_page ;; vmmap pd off ka fl) ;;; ret pte.

Lemma ensure_maps s g d T off fl : 0 <= fl < 4096 -> Z.odd fl = true -> 0 <= base -> top <= 2 ^ 48 -> base mod 4096 = 0 -> top mod 4096 = 0 -> user_inv s g d T -> region off ->
  exists s' g' d' T' q, ensure off fl s = Ret (entry_ptr q off, s') /\ user_inv s' g' d' T' /\ T' !! path off = Some q /\ is_mapped (pmem s') T' off /\ grew s s' d d' T T' /\ pfs s' = pfs s.
Proof using.
  intros Hfl Hod Hb0 Ht48 Hbm Htm H Hr. pose proof H as [Hsp Hpg Hown Hfr]. pose proof Hr as Hr'. unfold region in Hr'. assert (Hc : canonical off) by (unfold canonical; lia).
  destruct (valid (pte_of (pmem s) T off)) eqn:Hv.
  - destruct (T !! path off) as [q|] eqn:Hq; [|unfold pte_of in Hv; rewrite Hq in Hv; done]. exists s, g, d, T, q. split; [|split; [done|split; [done|split; [done|split; [split; [done|symmetry; apply set_pt_same|done]|done]]]]].
    unfold ensure. rewrite (bind_Ret _ _ _ _ _ (get_pte_here kend pd s g d T off true q Hsp Hq)), (bind_Ret _ _ _ _ _ (rd_pte_here kend pd s g d T off q Hsp Hq)). unfold valid in Hv. apply negb_true_iff in Hv. by rewrite Hv.
  - assert (Hmiss : (1 <= missing (pmem s) T)%nat).
    { unfold missing. assert (Hin : off / 4096 ∈ List.filter (fun x => negb (valid (pte_of (pmem s) T (4096 * x)))) region_pages).
      { apply list_elem_of_In, filter_In. split; [apply list_elem_of_In; by apply missing_pages|]. rewrite (pte_page _ _ _ off); [by rewrite Hv|]. by rewrite Z.mul_comm, Z.div_mul. }
      destruct (List.filter _ region_pages); [by apply elem_of_nil in Hin|cbn; lia]. }
    unfold REVERSED_PAGES in Hfr. destruct (get_pte_make kend pd s g d T off Hsp ltac:(lia)) as (m1 & g1 & pt1 & T1 & q & E1 & H1 & Hq & G). cbv zeta in E1, H1.
    set (s1 := set_dirs (insert pd (set_pt pt1 d)) (set_pmem m1 s)) in *. pose proof (gr_free _ _ _ _ _ _ _ G) as Hl1.
    assert (Hp1 : forall b, pte_of m1 T1 b = pte_of (pmem s) T b) by (intros b; apply (pte_of_grown _ _ _ _ _ _ _ b G)).
    destruct (gfree g1) as [|ka l] eqn:Ef; [cbn in Hl1; lia|]. destruct (alloc_user kend children zombie root_proc depth pd s1 g1 _ T1 ka l H1 Ef) as (m2 & E2 & H2 & Hu2 & Hw2 & Hz2); [rewrite Ef; unfold REVERSED_PAGES; lia|].
    destruct (vmmap_here kend pd _ _ _ T1 off ka fl 0 q H2 Hq Hu2 Hfl) as (m3 & E3 & [N1 N2 N3 N4] & Ht & Hu3 & Hz3).
    set (s3 := set_pmem m3 (set_pmem m2 s1)) in *. set (g3 := count_page ka (0 + 1) (hold_page ka l g1)) in *. cbn [pmem set_pmem] in N1, N2, N3, N4.
    assert (Hp2 : forall b, pte_of m2 T1 b = pte_of (pmem s) T b) by (intros b; rewrite <- Hp1; unfold pte_of; by rewrite Hw2).
    assert (Hka : forall p n, user_page T g p n -> p <> ka /\ user_page T1 g3 p n /\ page_words m3 p = page_words (pmem s) p).
    { intros p n Hp. destruct (user_grown _ _ _ _ _ _ _ p n G Hp) as [Hp1' Hpw]. assert (Hne : p <> ka) by (intros ->; destruct (i_sep _ _ _ (p_mem _ _ _ _ _ (sp_pt _ _ _ _ _ _ H1)) ka ltac:(rewrite Ef; by left)), Hp1'; congruence).
      assert (Hp3 : user_page T1 g3 p n) by (destruct Hp1' as [? ?]; split; [unfold g3; cbn; by rewrite !lookup_insert_ne|done]).
      split; [done|]. split; [done|]. rewrite (N4 p n Hp3), <- Hpw. unfold page_words. by rewrite Hw2. }
    assert (Hsame : forall b, canonical b -> same_page b off <-> b / 4096 = off / 4096) by (intros b Hb; by apply page_eq).
    assert (Hother : forall b, canonical b -> b / 4096 <> off / 4096 -> pte_of m3 T1 b = pte_of (pmem s) T b) by (intros b Hb Hne; rewrite N3 by (by rewrite Hsame); apply Hp2).
    assert (Hhere : forall b, canonical b -> b / 4096 = off / 4096 -> pte_of m3 T1 b = K2P ka + fl) by (intros b Hb He; apply N2; by rewrite Hsame).
    assert (Hvk : valid (K2P ka + fl) = true) by (apply (flags_ro kend ka fl); [by eapply (user_page_ok _ _ _ _ _ _ _ (sp_pt _ _ _ _ _ _ H2))|done|done]).
    exists s3, g3, (set_pt pt1 d), T1, q. split; [|split; [|split; [done|split; [|split; [split|done]]]]].
    + unfold ensure. rewrite (bind_Ret _ _ _ _ _ E1), (bind_Ret _ _ _ _ _ (rd_pte_here kend pd s1 g1 _ T1 off q H1 Hq)). change (pmem s1) with m1. rewrite Hp1. unfold valid in Hv. apply negb_false_iff in Hv. rewrite Hv. cbn [when].
      rewrite bind_assoc, (bind_Ret _ _ _ _ _ E2), (bind_Ret _ _ _ _ _ E3). done.
    + split.
      * split; [apply lookup_insert_eq|exact N1].
      * intros a Ha Hma. unfold is_mapped in *. change (pmem s3) with m3 in *. destruct (decide (a / 4096 = off / 4096)) as [He|Hne]; [rewrite (Hhere a Ha He), Ht; by exists 1|].
        rewrite (Hother a Ha Hne) in *. destruct (Hpg a Ha Hma) as [n Hn]. exists n. by apply Hka.
      * intros a b Ha Hb Hma Hmb He. unfold is_mapped in *. change (pmem s3) with m3 in *. assert (Hca : canonical a) by (unfold region, canonical in *; lia).
        destruct (decide (a / 4096 = off / 4096)) as [Ea|Na], (decide (b / 4096 = off / 4096)) as [Eb|Nb].
        -- congruence.
        -- rewrite (Hhere a Hca Ea), Ht, (Hother b Hb Nb) in He. rewrite (Hother b Hb Nb) in Hmb. destruct (Hpg b Hb Hmb) as [n Hn]. rewrite <- He in Hn. by destruct (Hka _ _ Hn).
        -- rewrite (Hhere b Hb Eb), Ht, (Hother a Hca Na) in He. rewrite (Hother a Hca Na) in Hma. destruct (Hpg a Hca Hma) as [n Hn]. rewrite He in Hn. by destruct (Hka _ _ Hn).
        -- rewrite (Hother a Hca Na), (Hother b Hb Nb) in He. rewrite (Hother a Hca Na) in Hma. rewrite (Hother b Hb Nb) in Hmb. by apply Hown.
      * change (pmem s3) with m3. assert (Hone : missing (pmem s) T = S (missing m3 T1)).
        { assert (Hpc : forall x, x ∈ region_pages -> canonical (4096 * x) /\ 4096 * x / 4096 = x).
          { intros x Hx%elem_of_seqZ. split; [|by rewrite Z.mul_comm, Z.div_mul]. unfold canonical. Z.div_mod_to_equations. lia. }
          apply (filter_one _ _ _ (off / 4096)); [apply NoDup_seqZ|by apply missing_pages| | |].
          - rewrite (pte_page _ _ _ off); [by rewrite Hv|]. by rewrite Z.mul_comm, Z.div_mul.
          - destruct (Hpc (off / 4096)) as [P1 P2]; [by apply missing_pages|]. by rewrite (Hhere _ P1 P2), Hvk.
          - intros y Hy Hne. destruct (Hpc y Hy) as [P1 P2]. rewrite Hother; [done|done|congruence]. }
        unfold REVERSED_PAGES. change (gfree g3) with l. cbn in Hl1. lia.
    + unfold is_mapped. change (pmem s3) with m3. by rewrite (Hhere off Hc eq_refl).
    + intros b Hb Hmb. assert (Hne : b / 4096 <> off / 4096) by (intros He; unfold is_mapped in Hmb; by rewrite (pte_page _ _ _ _ He), Hv in Hmb).
      unfold is_mapped, ubyte in *. change (pmem s3) with m3. rewrite (Hother b Hb Hne). split; [done|]. destruct (Hpg b Hb Hmb) as [n Hn]. by destruct (Hka _ _ Hn) as (_ & _ & ->).
    + done.
    + split; [intros p Hp; unfold s3; cbn; by apply lookup_insert_ne|done].
Qed.

Lemma ensure_bind {A} (K : Z -> M pst A) off fl s :
  (pte <- get_pte pd off true ;; e <- rd_pte pte ;; when (Z.land e PTE_VALID =? 0) (ka <- alloc_page ;; vmmap pd off ka fl) ;;; K pte) s = bind (ensure off fl) K s.
Proof using.
  unfold ensure, bind. destruct (get_pte pd off true s) as [[pte s1]|r]; [|reflexivity]. destruct (rd_pte pte s1) as [[e s2]|r]; [|reflexivity].
  by destruct (when _ _ s2) as [[[] s3]|r].
Qed.

(** ** [copyout] *)
Section aligned.
Context (Hb0 : 0 <= base) (Htop : top <= 2 ^ 48) (Hbm : base mod 4096 = 0) (Htm : top mod 4096 = 0).

Lemma copyout_turn_puts s g d T off end_ p : user_inv s g d T -> base <= off < end_ -> end_ <= top -> Z.of_nat (length p) = end_ - off -> Forall byte_ok p ->
  let n := Z.min (end_ - off) ((off / 4096 + 1) * 4096 - off) in
  exists s' g' d' T', copyout_turn pd end_ (off / 4096) (off, p) s = Ret ((off + n, drop (Z.to_nat n) p), s') /\ user_inv s' g' d' T' /\ put off (take (Z.to_nat n) p) s s' d d' T T'.
Proof using Hb0 Htop Hbm Htm.
  intros H Ho He Hl Hok n. assert (Hr : region off) by (unfold region; lia). pose proof (Z.div_mod off 4096 ltac:(lia)) as Hdm. pose proof (Z.mod_pos_bound off 4096 ltac:(lia)) as Hmod.
  destruct (ensure_maps s g d T off PTE_USER_DATA ltac:(vm_compute; split; congruence) eq_refl Hb0 Htop Hbm Htm H Hr) as (s1 & g1 & d1 & T1 & q & E1 & H1 & Hq & Hm & G & _).
  destruct (store_user s1 g1 d1 T1 off (take (Z.to_nat n) p) H1 Hr) as (s2 & E2 & H2 & P & _); [unfold canonical; lia|rewrite length_take; lia|by apply Forall_take|done|].
  exists s2, g1, d1, T1. split; [|split; [done|by eapply grew_put]].
  unfold copyout_turn. assert (Eu : Z.min (u64 (end_ - off)) (u64 ((off / 4096 + 1) * PAGE_SIZE - off)) = n) by (unfold PAGE_SIZE; unfold n, u64; rewrite !wrapu_small by lia; done).
  rewrite Eu, ensure_bind, (bind_Ret _ _ _ _ _ E1), (bind_Ret _ _ _ _ _ (rd_pte_here kend pd s1 g1 d1 T1 off q (ui_space _ _ _ _ H1) Hq)).
  change (P2K (PTE_ADDRESS ?e)) with (table_of e). replace (off - PAGE_BASE off) with (off mod 4096) by (unfold PAGE_BASE; change (PAGE_SIZE - 1) with (2 ^ 12 - 1); rewrite land_align by lia; change (2 ^ 12) with 4096; lia).
  rewrite (bind_Ret _ _ _ _ _ E2). unfold u64. rewrite wrapu_small by lia. done.
Qed.

Lemma copyout_loop k : forall s g d T off end_ p, user_inv s g d T -> base <= off < end_ -> end_ <= top -> Z.of_nat (length p) = end_ - off -> Forall byte_ok p ->
  Z.of_nat k = (end_ - 1) / 4096 - off / 4096 + 1 ->
  exists r s' g' d' T', for_acc k (off / 4096) (copyout_turn pd end_) (off, p) s = Ret (r, s') /\ user_inv s' g' d' T' /\ put off p s s' d d' T T'.
Proof using Hb0 Htop Hbm Htm.
  induction k as [|k IH]; intros s g d T off end_ p H Ho He Hl Hok Hk.
  { exfalso. assert (off / 4096 <= (end_ - 1) / 4096) by (apply Z.div_le_mono; lia). lia. }
  destruct (copyout_turn_puts s g d T off end_ p H Ho He Hl Hok) as (s1 & g1 & d1 & T1 & E & H1 & P). set (n := Z.min (end_ - off) ((off / 4096 + 1) * 4096 - off)) in *.
  pose proof (Z.div_mod off 4096 ltac:(lia)) as Hdm. pose proof (Z.mod_pos_bound off 4096 ltac:(lia)) as Hmod. cbn [for_acc]. rewrite (bind_Ret _ _ _ _ _ E).
  destruct (Z.le_gt_cases end_ ((off / 4096 + 1) * 4096)) as [Hlast|Hmore].
  - assert (En : n = end_ - off) by lia. assert (Ek : k = 0%nat). { assert (Hd : (end_ - 1) / 4096 = off / 4096) by (symmetry; apply (Z.div_unique _ _ _ (end_ - 1 - 4096 * (off / 4096))); lia). lia. }
    subst k. cbn [for_acc]. eexists _, s1, g1, d1, T1. split; [done|]. split; [done|]. rewrite take_ge in P by lia. exact P.
  - assert (En : off + n = (off / 4096 + 1) * 4096) by lia. assert (Ed : (off + n) / 4096 = off / 4096 + 1) by (rewrite En; by apply Z.div_mul).
    destruct (IH s1 g1 d1 T1 (off + n) end_ (drop (Z.to_nat n) p) H1) as (r & s2 & g2 & d2 & T2 & E2 & H2 & P2); [lia|done|rewrite length_drop; lia|by apply Forall_drop|rewrite Ed; lia|].
    rewrite Ed in E2. exists r, s2, g2, d2, T2. split; [done|]. split; [done|]. rewrite <- (take_drop (Z.to_nat n) p). assert (Hlt : Z.of_nat (length (take (Z.to_nat n) p)) = n) by (rewrite length_take; lia).
    eapply put_app; [lia|rewrite Hlt; lia|exact P|by rewrite Hlt].
Qed.

Lemma copyout_puts s g d T va p : user_inv s g d T -> base <= va -> va + Z.of_nat (length p) <= top -> Forall byte_ok p ->
  exists s' g' d' T', copyout pd va p (Z.of_nat (length p)) s = Ret (0, s') /\ user_inv s' g' d' T' /\ put va p s s' d d' T T'.
Proof using Hb0 Htop Hbm Htm.
  intros H Hv Hl Hok. unfold copyout. destruct (Z.eqb_spec (Z.of_nat (length p)) 0) as [E0|N0].
  - exists s, g, d, T. split; [done|]. split; [done|]. destruct p; [apply put_nil|cbn in E0; lia].
  - unfold u64. rewrite wrapu_small by lia. unfold PAGE_SIZE.
    assert (Hd : va / 4096 <= (va + Z.of_nat (length p) - 1) / 4096) by (apply Z.div_le_mono; lia).
    destruct (copyout_loop (Z.to_nat ((va + Z.of_nat (length p) - 1) / 4096 - va / 4096 + 1)) s g d T va (va + Z.of_nat (length p)) p H) as (r & s' & g' & d' & T' & E & H' & P); [lia|done|lia|done|lia|].
    rewrite (bind_Ret _ _ _ _ _ E). by exists s', g', d', T'.
Qed.
End aligned.
End user.
