(* ===== verification/Exec.v ===== *)
(** * Running a program (kernel/exec.c)

    [execve] on the state of Paging.v. The new address space is the local
    variable [pd], a further name in [dirs]; the registers it leaves in the
    user context are part of the result. [argv] is the array of strings the
    caller passed, read in its own address space ([None] for NULL), without
    their terminators. The structs of the ELF file are those of the C
    library's header elf.h. *)
From stdpp Require Import base gmap list.
From Stdlib Require Import ZArith Lia.
From S2P Require Import Prelude Bytes Bitmap BCache BlockStore CString Console Inode Pipe File Mmu LockFree Mem PT Sections Paging.

(** elf.h: sizes, constants, and the fields of a header's bytes. *)
Class Elf := {
  sizeof_Elf64_Ehdr : Z; sizeof_Elf64_Phdr : Z;
  ELFMAG : list Z; PT_LOAD : Z; PF_R : Z; PF_W : Z; PF_X : Z;
  e_ident : bytes -> list Z; e_phoff : bytes -> Z; e_phnum : bytes -> Z; e_entry : bytes -> Z;
  p_type : bytes -> Z; p_flags : bytes -> Z; p_offset : bytes -> Z; p_vaddr : bytes -> Z; p_filesz : bytes -> Z; p_memsz : bytes -> Z
}.

(** The registers of [p->ucontext] that change. *)
Record regs := mkRegs { sp_el0 : Z; x0 : Z; x1 : Z; elr : Z }.

Definition set_range (b e : Z) (s : section) : section := mkSection (flags s) b e (fp s) (offset s) (length_ s).
Definition set_file (f o n : Z) (s : section) : section := mkSection (flags s) (begin s) (end_ s) f o n.
Definition set_length (n : Z) (s : section) : section := mkSection (flags s) (begin s) (end_ s) (fp s) (offset s) n.

(** [memset(s->fp, 0, sizeof(struct file))] and the fields set after it. *)
Definition zero_file : File := mkFile FD_NONE 0 false false 0 0 0.
Definition set_ip (p : Z) (x : File) : File := mkFile (fty x) (ref x) (readable x) (writable x) (fpipe x) p (off x).

Section code.
Context {St : Type} {BC : BlockCache St} (sblock : SuperBlock) {KA : Kalloc} (uninit : InodeEntry) {EL : Elf}.
Context (kend sizeof_section this : Z) (children : Z -> list Z) (zombie : Z -> bool) (root_proc : Z) (depth : nat).
(** The local variables [pd] and [ctx], what [kalloc] leaves in a section,
    the working directory of the process and the buffer of [namex]. *)
Context (pd ctx : Z) (uninit_section : section) (cwd : Z) (nm0 : bytes).
Abbreviation M := (M (pst St)).
Abbreviation alloc_page_for_user := (alloc_page_for_user kend children zombie root_proc depth).
Abbreviation copyout := (copyout kend children zombie root_proc depth).

Definition on_ino {A} (m : Prelude.M (ist St) A) : M A := on_fs (on_inodes m).

Definition error (ctx : option Z) (inode : option Z) (pd : option Z) : M Z :=
  (match inode with
   | Some p => on_ino (inode_unlock p) ;;; on_ino (inode_put sblock ctx p) ;;; match ctx with Some c => on_bc (bc_end_op c) | None => stop Fault end
   | None => ret tt
   end) ;;;
  (match ctx with Some c => on_bc (bc_end_op c) | None => ret tt end) ;;;
  (match pd with Some pd => free_pgdir kend children zombie root_proc depth pd | None => ret tt end) ;;;
  ret (-1).

(** A turn of the loop of [load]: the value returned, or [va] and [offset]. *)
Definition load_turn (pd inode end_ fl : Z) (st : Z * Z) : M ((Z * Z) + Z) :=
  let '(va, offset) := st in
  if va <? end_ then
    pte <- get_pte pd va true ;;
    e <- rd_pte pte ;;
    when (Z.land e PTE_VALID =? 0) (ka <- alloc_page_for_user ;; vmmap pd va ka fl) ;;;
    e <- rd_pte pte ;;
    let ka := P2K (PTE_ADDRESS e) in
    let rest := u64 (PAGE_BASE va + PAGE_SIZE - va) in
    r <- on_ino (inode_read inode offset (Z.min rest (u64 (end_ - va)))) ;;
    on_mem (store_page ka (Z.to_nat (va - PAGE_BASE va)) r.2) ;;;
    let n := r.1 in
    let next := ret (inl (u64 (va + n), u64 (offset + n))) in
    if negb (n =? PAGE_SIZE) then
      if n =? u64 (end_ - va) then on_mem (store_page ka (Z.to_nat n) (replicate (Z.to_nat (PAGE_SIZE - n)) 0)) ;;; next
      else if n =? rest then on_mem (store_page ka 0 (replicate (Z.to_nat (PAGE_SIZE - n)) 0)) ;;; next
      else ret (inr (-1))
    else next
  else ret (inr 0).
Definition load (pd inode offset va len fl : Z) : M Z :=
  let end_ := u64 (va + len) in
  while (S (S (Z.to_nat ((end_ - va) / PAGE_SIZE + 1)))) (load_turn pd inode end_ fl) (va, offset).

(** The file of a section: [memset] also clears the count. *)
Definition segment_file (inode : Z) : Prelude.M (fst_ St) Z :=
  f <- filealloc ;;
  match f with
  | None => stop Fault
  | Some f =>
      update_file f (fun _ => zero_file) ;;;
      update_file f (set_ip inode) ;;;
      update_file f (set_fty FD_INODE) ;;;
      update_file f (set_rw true false) ;;;
      ret f
  end.

(** A program header of type [PT_LOAD]: false when [load] failed, and the end
    of the section. *)
Definition set_sec_at (s : Z) (f : section -> section) : M unit := update_vma pd s (set_sec f).
Definition bss_turn (va : Z) : M unit := z <- on_mem get_zero_page ;; vmmap pd va z (Z.lor PTE_RO PTE_USER_DATA).
Definition load_segment (inode : Z) (ph : bytes) : M (bool * Z) :=
  s <- on_mem (kalloc 512 sizeof_section) ;;
  update_dir pd (set_section_head (fun l => mkVma s (set_range (p_vaddr ph) (u64 (p_vaddr ph + p_memsz ph)) uninit_section) 1 :: l)) ;;;
  f <- on_fs (segment_file inode) ;;
  set_sec_at s (set_file f (p_offset ph) (p_memsz ph)) ;;;
  let p b := negb (Z.land (p_flags ph) b =? 0) in
  ok <- (if p PF_R && p PF_W then
           on_fs (update_file f (set_rw true true)) ;;;
           set_sec_at s (set_flags ST_FILE) ;;;
           r <- load pd inode (p_offset ph) (p_vaddr ph) (p_filesz ph) PTE_USER_DATA ;;
           if negb (r =? 0) then ret false
           else
             for_pages (PAGE_BASE (u64 (p_vaddr ph + p_filesz ph + PAGE_SIZE - 1))) (u64 (p_vaddr ph + p_memsz ph)) bss_turn ;;;
             ret true
         else if p PF_R && p PF_X then
           set_sec_at s (set_flags (Z.lor ST_TEXT ST_RO)) ;;;
           r <- load pd inode (p_offset ph) (p_vaddr ph) (p_filesz ph) (Z.lor PTE_USER_DATA PTE_RO) ;;
           ret (r =? 0)
         else ret true) ;;
  ret (ok, u64 (p_vaddr ph + p_memsz ph)).

(** The loop over the program headers: [sp], or NULL for an error. *)
Definition segment_turn (inode : Z) (elf : bytes) (st : Z * Z * Z) : M ((Z * Z * Z) + option Z) :=
  let '(offset, i, sp) := st in
  if i <? e_phnum elf then
    r <- on_ino (inode_read inode offset sizeof_Elf64_Phdr) ;;
    if negb (r.1 =? sizeof_Elf64_Phdr) then ret (inr None)
    else
      let next sp := ret (inl (u64 (offset + sizeof_Elf64_Phdr), i + 1, sp)) in
      if negb (p_type r.2 =? PT_LOAD) then next sp
      else
        q <- load_segment inode r.2 ;;
        if q.1 : bool then next (Z.max sp q.2) else ret (inr None)
  else ret (inr (Some sp)).
Definition load_segments (inode : Z) (elf : bytes) (sp : Z) : M (option Z) :=
  while (S (Z.to_nat (e_phnum elf))) (segment_turn inode elf) (e_phoff elf, 0, sp).

(** ** The stack *)


(** The strings of [argv] or [envp]: [sp], their number and the array of
    their addresses, or NULL when there are too many. *)
Fixpoint push_strings (l : list bytes) (st : Z * Z * list Z) : M (option (Z * Z * list Z)) :=
  match l with
  | [] => ret (Some st)
  | a :: l =>
      let '(sp, argc, argvp) := st in
      if argc >=? 32 then ret None
      else
        let sp := u64 (sp - (Z.of_nat (length a) + 1)) in
        copyout pd sp (a ++ [0]) (u64 (Z.of_nat (length a) + 1)) ;;;
        push_strings l (sp, argc + 1, <[Z.to_nat argc := sp]> argvp)
  end.
Definition push_array (v : option (list bytes)) (sp : Z) : M (option (Z * Z * list Z)) :=
  match v with None => ret (Some (sp, 0, replicate 32 0)) | Some l => push_strings l (sp, 0, replicate 32 0) end.

(** [for(int i = argc; i >= 0; i--)] over the addresses. *)
Fixpoint push_pointers (n : nat) (argvp : list Z) (sp : Z) : M Z :=
  match argvp !! n with
  | None => stop Fault
  | Some a =>
      let sp := u64 (sp - 8) in
      copyout pd sp (le_encode 8 a) 8 ;;;
      match n with O => ret sp | S n => push_pointers n argvp sp end
  end.

(** The strings and the arrays, from [sp] downward: the final [sp] and
    [argc]. *)
Definition push_arguments (argv envp : option (list bytes)) (sp : Z) : M (option (Z * Z)) :=
  r <- push_array envp sp ;;
  match r with
  | None => ret None
  | Some (sp, envc, envpp) =>
      r <- push_array argv sp ;;
      match r with
      | None => ret None
      | Some (sp, argc, argvp) =>
          let sp := u64 (sp - sp mod 8) in
          sp <- push_pointers (Z.to_nat envc) envpp sp ;;
          sp <- push_pointers (Z.to_nat argc) argvp sp ;;
          let sp := u64 (sp - 8) in
          copyout pd sp (le_encode 8 argc) 8 ;;;
          ret (Some (sp, argc))
      end
  end.

(** Step 3: the section of the stack, with the arguments. *)
Definition exec_stack (argv envp : option (list bytes)) (sp : Z) : M (option (Z * Z)) :=
  let sp := PAGE_BASE (u64 (sp + PAGE_SIZE - 1)) in
  s <- on_mem (kalloc 512 sizeof_section) ;;
  let stack_end := u64 (sp + 5 * PAGE_SIZE) in
  update_dir pd (set_section_head (fun l => mkVma s (set_flags ST_STACK (set_range sp stack_end (set_length (5 * PAGE_SIZE) uninit_section))) 1 :: l)) ;;;
  push_arguments argv envp (u64 (stack_end - 64)).

(** ** [execve] *)
Definition exec_final : M unit :=
  free_pgdir kend children zombie root_proc depth this ;;;
  d <- load_dir pd ;;
  update_dir this (fun _ => d) ;;;
  copy_sections sizeof_section pd this ;;;
  for_list (section_head d) (fun v => on_mem (kfree (at_ v)) ;;; ret (@None unit)) ;;;
  attach_pgdir this pd.

Definition execve (path : bytes) (argv envp : option (list bytes)) : M (Z * option regs) :=
  let fail m := r <- m ;; ret (r, None) in
  on_bc (bc_begin_op ctx) ;;;
  inode <- on_ino (namei sblock uninit cwd path nm0 (Some ctx)) ;;
  match inode with
  | None => fail (error (Some ctx) None None)
  | Some inode =>
      on_ino (inode_lock inode) ;;;
      r <- on_ino (inode_read inode 0 sizeof_Elf64_Ehdr) ;;
      if negb (r.1 =? sizeof_Elf64_Ehdr) then fail (error (Some ctx) (Some inode) None)
      else
        let elf := r.2 in
        c <- strncmp (e_ident elf) ELFMAG 4 ;;
        if negb (c =? 0) then fail (error (Some ctx) (Some inode) None)
        else
          init_pgdir pd ;;;
          sp <- load_segments inode elf 0 ;;
          match sp with
          | None => fail (error (Some ctx) (Some inode) (Some pd))
          | Some sp =>
              on_ino (inode_unlock inode) ;;;
              on_ino (inode_put sblock (Some ctx) inode) ;;;
              on_bc (bc_end_op ctx) ;;;
              r <- exec_stack argv envp sp ;;
              match r with
              | None => fail (error None None (Some pd))
              | Some (sp, argc) =>
                  exec_final ;;;
                  ret (argc, Some (mkRegs sp argc (u64 (sp + 8)) (e_entry elf)))
              end
          end
  end.
End code.
