(* ===== verification/ExecProps.v ===== *)
(** * What a new program finds on its stack (kernel/exec.c)

    [exec_stack] maps the pages of the stack and leaves there the number of
    arguments, the arrays [argv] and [envp], each with a NULL at its end, and
    the strings they point to. *)
From stdpp Require Import base gmap list.
From Stdlib Require Import ZArith Lia.
From S2P Require Import Prelude Bytes Bitmap BCache BlockStore CString Console Inode Pipe File Mmu LockFree Mem PT Sections Paging PagingMem PagingProps Swap SwapProps SwapCalls Fork UserMem Exec BCacheSteps BCacheProps BCacheStore InodeFile InodeMap InodeDir InodeProps FileProps.

(** ** Strings that grow downward *)
Fixpoint blob (l : list bytes) : bytes := match l with [] => [] | a :: l => blob l ++ (a ++ [0]) end.
Fixpoint ptrs_of (sp : Z) (l : list bytes) : list Z :=
  match l with [] => [] | a :: l => let sp := sp - (Z.of_nat (length a) + 1) in sp :: ptrs_of sp l end.

Lemma ptrs_length sp l : length (ptrs_of sp l) = length l.
Proof. revert sp. induction l as [|a l IH]; intros sp; [done|]. cbn. by rewrite IH. Qed.

Lemma blob_ok l : Forall (Forall byte_ok) l -> Forall byte_ok (blob l).
Proof. induction 1 as [|a l Ha Hl IH]; [constructor|]. cbn. apply Forall_app. split; [done|]. apply Forall_app. split; [done|]. by repeat constructor. Qed.

Lemma uholds_app m T a x y : uholds m T a (x ++ y) <-> uholds m T a x /\ uholds m T (a + Z.of_nat (length x)) y.
Proof.
  split.
  - intros H. split; intros k b Hk; [apply H, lookup_app_Some; by left|].
    replace (a + Z.of_nat (length x) + Z.of_nat k) with (a + Z.of_nat (length x + k)) by lia. apply H. rewrite lookup_app_r by lia. by replace (length x + k - length x)%nat with k by lia.
  - intros [H1 H2] k b [Hk|[Hl Hk]]%lookup_app_Some; [by apply H1|]. replace (a + Z.of_nat k) with (a + Z.of_nat (length x) + Z.of_nat (k - length x)) by lia. by apply H2.
Qed.

Lemma blob_strings m T l : forall sp, uholds m T (sp - Z.of_nat (length (blob l))) (blob l) -> Forall2 (fun a p => uholds m T p (a ++ [0])) l (ptrs_of sp l).
Proof.
  induction l as [|a l IH]; intros sp H; [constructor|]. cbn [blob ptrs_of] in *. rewrite !length_app in H. cbn [length] in H. apply uholds_app in H as [H1 H2].
  replace (sp - Z.of_nat (length (blob l) + (length a + 1)) + Z.of_nat (length (blob l))) with (sp - (Z.of_nat (length a) + 1)) in H2 by lia. constructor; [done|]. apply IH.
  by replace (sp - (Z.of_nat (length a) + 1) - Z.of_nat (length (blob l))) with (sp - Z.of_nat (length (blob l) + (length a + 1))) by lia.
Qed.

Lemma unwords_one a : unwords 8 [a] = le_encode 8 a.
Proof. unfold unwords. apply app_nil_r. Qed.

Section stack.
Context {St : Type} {BC : BlockCache St} (kend sizeof_section : Z) (children : Z -> list Z) (zombie : Z -> bool) (root_proc : Z) (depth : nat).
Context (pd base top : Z) (Hb0 : 0 <= base) (Htop : top <= 2 ^ 48) (Hbm : base mod 4096 = 0) (Htm : top mod 4096 = 0).
Abbreviation lo := (PAGE_BASE kend + PAGE_SIZE).
Abbreviation pst := (pst St).
Abbreviation user_inv := (user_inv (St := St) kend pd base top).
Abbreviation put := (put (St := St) pd).
Abbreviation push_strings := (push_strings kend children zombie root_proc depth pd).
Abbreviation push_pointers := (push_pointers kend children zombie root_proc depth pd).

Lemma put_down off a b (s s1 s2 : pst) d d1 d2 T T1 T2 : 0 <= off -> off + Z.of_nat (length a) + Z.of_nat (length b) <= 2 ^ 48 ->
  put (off + Z.of_nat (length a)) b s s1 d d1 T T1 -> put off a s1 s2 d1 d2 T1 T2 -> put off (a ++ b) s s2 d d2 T T2.
Proof using.
  intros H0 H1 [A1 A2 A3 (A4 & A5)] P. pose proof P as [B1 B2 B3 (B4 & B5)]. split.
  - apply uholds_app. split; [done|]. eapply put_holds; [exact P|lia|lia|lia|done].
  - intros x Hx Hm. destruct (A2 x Hx Hm) as [M1 U1]. destruct (B2 x Hx M1) as [M2 U2]. split; [done|]. rewrite length_app. intros Ho. rewrite U2, U1; [done|lia|lia].
  - rewrite B3, A3. done.
  - split; [intros p Hp; by rewrite B4, A4|congruence].
Qed.

Definition padded (ptrs : list Z) : list Z := ptrs ++ replicate (32 - length ptrs) 0.

Lemma padded_set ptrs a : (length ptrs < 32)%nat -> <[length ptrs := a]> (padded ptrs) = padded (ptrs ++ [a]).
Proof using.
  intros H. unfold padded. rewrite insert_app_r_alt, Nat.sub_diag, length_app by lia. cbn [length]. replace (32 - length ptrs)%nat with (S (32 - (length ptrs + 1))) by lia. cbn. by rewrite <- app_assoc.
Qed.

Lemma push_strings_puts l : forall sp old s g d T, user_inv s g d T -> base <= sp - Z.of_nat (length (blob l)) -> sp <= top -> Forall (Forall byte_ok) l -> (length old + length l <= 32)%nat ->
  exists s' g' d' T', let sp' := sp - Z.of_nat (length (blob l)) in
    push_strings l (sp, Z.of_nat (length old), padded old) s = Ret (Some (sp', Z.of_nat (length old + length l), padded (old ++ ptrs_of sp l)), s') /\
    user_inv s' g' d' T' /\ put sp' (blob l) s s' d d' T T'.
Proof using Hb0 Htop Hbm Htm.
  induction l as [|a l IH]; intros sp old s g d T H Hsp Ht Hok Hl.
  - exists s, g, d, T. cbn [Exec.push_strings blob ptrs_of length]. rewrite app_nil_r, Nat.add_0_r, Z.sub_0_r. split; [done|]. split; [done|apply put_nil].
  - cbn [blob length] in *. rewrite !length_app in *. cbn [length] in *. inversion Hok as [|? ? Ha Hok']; subst. set (sp1 := sp - (Z.of_nat (length a) + 1)).
    destruct (copyout_puts kend pd base top children zombie root_proc depth Hb0 Htop Hbm Htm s g d T sp1 (a ++ [0]) H) as (s1 & g1 & d1 & T1 & E1 & H1 & P1); [lia|rewrite length_app; cbn; lia|apply Forall_app; split; [done|by repeat constructor]|].
    destruct (IH sp1 (old ++ [sp1]) s1 g1 d1 T1 H1) as (s2 & g2 & d2 & T2 & E2 & H2 & P2); [lia|lia|done|rewrite length_app; cbn; lia|]. cbv zeta in E2, P2.
    exists s2, g2, d2, T2. cbv zeta. replace (sp - Z.of_nat (length (blob l) + (length a + 1))) with (sp1 - Z.of_nat (length (blob l))) by lia. split; [|split; [done|]].
    + cbn [Exec.push_strings]. rewrite Z.geb_leb, (proj2 (Z.leb_gt 32 _)) by lia. unfold u64. rewrite !wrapu_small by lia. fold sp1.
      replace (Z.of_nat (length a) + 1) with (Z.of_nat (length (a ++ [0]))) by (rewrite length_app; cbn; lia). rewrite (bind_Ret _ _ _ _ _ E1), Nat2Z.id, padded_set by lia.
      rewrite length_app in E2. cbn [length] in E2. replace (Z.of_nat (length old + 1)) with (Z.of_nat (length old) + 1) in E2 by lia. rewrite E2. cbn [ptrs_of]. fold sp1. rewrite <- app_assoc. cbn [app].
      by replace (length old + 1 + length l)%nat with (length old + S (length l))%nat by lia.
    + eapply put_down; [lia|rewrite length_app; cbn; lia| |exact P2]. by replace (sp1 - Z.of_nat (length (blob l)) + Z.of_nat (length (blob l))) with sp1 by lia.
Qed.

Lemma push_array_puts v sp s g d T : let l := default [] v in user_inv s g d T -> base <= sp - Z.of_nat (length (blob l)) -> sp <= top -> Forall (Forall byte_ok) l -> (length l <= 32)%nat ->
  exists s' g' d' T', let sp' := sp - Z.of_nat (length (blob l)) in
    push_array kend children zombie root_proc depth pd v sp s = Ret (Some (sp', Z.of_nat (length l), padded (ptrs_of sp l)), s') /\ user_inv s' g' d' T' /\ put sp' (blob l) s s' d d' T T'.
Proof using Hb0 Htop Hbm Htm.
  intros l H Hsp Ht Hok Hl. destruct v as [v|]; cbn in l.
  - destruct (push_strings_puts v sp [] s g d T H Hsp Ht Hok Hl) as (s' & g' & d' & T' & E & R). by exists s', g', d', T'.
  - exists s, g, d, T. cbn. rewrite Z.sub_0_r. split; [done|]. split; [done|apply put_nil].
Qed.

(** ** The arrays of pointers *)
Lemma push_pointers_puts n : forall ptrs sp s g d T, user_inv s g d T -> base <= sp - 8 * (Z.of_nat n + 1) -> sp <= top -> (n < length ptrs)%nat ->
  exists s' g' d' T', let sp' := sp - 8 * (Z.of_nat n + 1) in
    push_pointers n ptrs sp s = Ret (sp', s') /\ user_inv s' g' d' T' /\ put sp' (unwords 8 (take (S n) ptrs)) s s' d d' T T'.
Proof using Hb0 Htop Hbm Htm.
  induction n as [|n IH]; intros ptrs sp s g d T H Hsp Ht Hl.
  all: destruct (lookup_lt_is_Some_2 ptrs _ Hl) as [a Ha]; cbn [Exec.push_pointers]; rewrite Ha; unfold u64; rewrite (wrapu_small _ (sp - 8)) by lia.
  all: destruct (copyout_puts kend pd base top children zombie root_proc depth Hb0 Htop Hbm Htm s g d T (sp - 8) (le_encode 8 a) H) as (s1 & g1 & d1 & T1 & E1 & H1 & P1); [lia|rewrite le_encode_length; lia|apply le_encode_ok|].
  all: rewrite le_encode_length in E1; change (Z.of_nat 8) with 8 in E1; rewrite (bind_Ret _ _ _ _ _ E1).
  - exists s1, g1, d1, T1. cbv zeta. change (8 * (Z.of_nat 0 + 1)) with 8. split; [done|]. split; [done|]. rewrite (take_S_r _ _ _ Ha). change (take 0 ptrs ++ [a]) with [a]. by rewrite unwords_one.
  - destruct (IH ptrs (sp - 8) s1 g1 d1 T1 H1) as (s2 & g2 & d2 & T2 & E2 & H2 & P2); [lia|lia|lia|]. cbv zeta in E2, P2. exists s2, g2, d2, T2. cbv zeta.
    replace (sp - 8 * (Z.of_nat (S n) + 1)) with (sp - 8 - 8 * (Z.of_nat n + 1)) by lia. split; [exact E2|]. split; [done|]. rewrite (take_S_r _ _ _ Ha), unwords_app, unwords_one.
    assert (Hlen : Z.of_nat (length (unwords 8 (take (S n) ptrs))) = 8 * (Z.of_nat n + 1)) by (rewrite unwords_length, length_take; lia).
    eapply put_down; [lia|rewrite Hlen, le_encode_length; lia| |exact P2]. rewrite Hlen. by replace (sp - 8 - 8 * (Z.of_nat n + 1) + 8 * (Z.of_nat n + 1)) with (sp - 8) by lia.
Qed.
Lemma put_outside off bs (s s' : pst) d d' T T' b : put off bs s s' d d' T T' -> base <= off -> off + Z.of_nat (length bs) <= top -> canonical b -> b < base \/ top <= b ->
  is_mapped (pmem s) T b -> is_mapped (pmem s') T' b /\ ubyte (pmem s') T' b = ubyte (pmem s) T b.
Proof using. intros P H1 H2 Hc Ho Hm. destruct (pu_old _ _ _ _ _ _ _ _ _ P b Hc Hm) as [M U]. split; [done|]. apply U. lia. Qed.

(** What the process finds at [sp]. *)
Record arguments_at (m : mem_st) (T : tables) (sp : Z) (argv envp : list bytes) : Prop := {
  aa_argc : uholds m T sp (le_encode 8 (Z.of_nat (length argv)));
  aa_argv : exists ptrs, uholds m T (sp + 8) (unwords 8 (ptrs ++ [0])) /\ Forall2 (fun a p => uholds m T p (a ++ [0])) argv ptrs;
  aa_envp : exists ptrs, uholds m T (sp + 8 + 8 * (Z.of_nat (length argv) + 1)) (unwords 8 (ptrs ++ [0])) /\ Forall2 (fun a p => uholds m T p (a ++ [0])) envp ptrs
}.

Definition stack_size (argv envp : list bytes) : Z := Z.of_nat (length (blob argv) + length (blob envp) + 8 * (length argv + length envp + 3)) + 7 + 64.

(** [lia] through the names of the proof below. *)
Ltac ulia := repeat match goal with x := _ : Z |- _ => subst x end; lia.

Lemma take_padded ptrs : (length ptrs < 32)%nat -> take (S (length ptrs)) (padded ptrs) = ptrs ++ [0].
Proof using. intros H. unfold padded. rewrite take_app_ge, take_replicate by lia. by replace ((S (length ptrs) - length ptrs) `min` (32 - length ptrs))%nat with 1%nat by lia. Qed.

(** The arrays have 32 places, the loop over them starts at the number of
    strings: with 32 strings it reads past the end. *)
Lemma push_pointers_past_end ptrs sp (s : pst) : length ptrs = 32%nat -> push_pointers 32 (padded ptrs) sp s = Stop Fault.
Proof using. intros H. cbn [push_pointers]. rewrite lookup_ge_None_2; [done|]. unfold padded. rewrite length_app, length_replicate. lia. Qed.


Lemma push_all argv envp sp1 (s1 : pst) g1 d1 T1 : let args := default [] argv in let env := default [] envp in
  user_inv s1 g1 d1 T1 -> base <= sp1 - (stack_size args env - 64) -> sp1 <= top ->
  Forall (Forall byte_ok) args -> Forall (Forall byte_ok) env -> (length args <= 31)%nat -> (length env <= 31)%nat ->
  exists sp s' g' d' T', push_arguments kend children zombie root_proc depth pd argv envp sp1 s1 = Ret (Some (sp, Z.of_nat (length args)), s') /\ user_inv s' g' d' T' /\
    base <= sp < sp1 /\ sp mod 8 = 0 /\ arguments_at (pmem s') T' sp args env /\ section_head d' = section_head d1 /\
    (forall b, canonical b -> b < base \/ top <= b -> is_mapped (pmem s1) T1 b -> is_mapped (pmem s') T' b /\ ubyte (pmem s') T' b = ubyte (pmem s1) T1 b).
Proof using Hb0 Htop Hbm Htm.
  intros args env I1 Hst Hsp1 Hoa Hoe Hla Hle. unfold stack_size in Hst.
  set (le := Z.of_nat (length (blob env))). set (la := Z.of_nat (length (blob args))). set (sp2 := sp1 - le). set (sp3 := sp2 - la). set (sp4 := sp3 - sp3 mod 8).
  assert (Hm8 := Z.mod_pos_bound sp3 8 ltac:(lia)). set (sp5 := sp4 - 8 * (Z.of_nat (length env) + 1)). set (sp6 := sp5 - 8 * (Z.of_nat (length args) + 1)).
  destruct (push_array_puts envp sp1 s1 g1 d1 T1 I1) as (s2 & g2 & d2 & T2 & E2 & I2 & P2); fold env; [ulia|ulia|done|lia|]. fold env in E2, P2. cbv zeta in E2, P2. fold le sp2 in E2, P2.
  destruct (push_array_puts argv sp2 s2 g2 d2 T2 I2) as (s3 & g3 & d3 & T3 & E3 & I3 & P3); fold args; [ulia|ulia|done|lia|]. fold args in E3, P3. cbv zeta in E3, P3. fold la sp3 in E3, P3.
  destruct (push_pointers_puts (length env) (padded (ptrs_of sp1 env)) sp4 s3 g3 d3 T3 I3) as (s4 & g4 & d4 & T4 & E4 & I4 & P4); [ulia|ulia|unfold padded; rewrite length_app, length_replicate, ptrs_length; lia|].
  cbv zeta in E4, P4. fold sp5 in E4, P4. rewrite <- (ptrs_length sp1 env) in P4 at 1. rewrite take_padded in P4 by (rewrite ptrs_length; lia).
  destruct (push_pointers_puts (length args) (padded (ptrs_of sp2 args)) sp5 s4 g4 d4 T4 I4) as (s5 & g5 & d5 & T5 & E5 & I5 & P5); [ulia|ulia|unfold padded; rewrite length_app, length_replicate, ptrs_length; lia|].
  cbv zeta in E5, P5. fold sp6 in E5, P5. rewrite <- (ptrs_length sp2 args) in P5 at 1. rewrite take_padded in P5 by (rewrite ptrs_length; lia).
  destruct (copyout_puts kend pd base top children zombie root_proc depth Hb0 Htop Hbm Htm s5 g5 d5 T5 (sp6 - 8) (le_encode 8 (Z.of_nat (length args))) I5) as (s6 & g6 & d6 & T6 & E6 & I6 & P6); [ulia|rewrite le_encode_length; lia|apply le_encode_ok|].
  rewrite le_encode_length in E6. change (Z.of_nat 8) with 8 in E6.
  assert (L4 : Z.of_nat (length (unwords 8 (ptrs_of sp1 env ++ [0]))) = 8 * (Z.of_nat (length env) + 1)) by (rewrite unwords_length, length_app, ptrs_length; cbn; lia).
  assert (L5 : Z.of_nat (length (unwords 8 (ptrs_of sp2 args ++ [0]))) = 8 * (Z.of_nat (length args) + 1)) by (rewrite unwords_length, length_app, ptrs_length; cbn; lia).
  assert (L6 : Z.of_nat (length (le_encode 8 (Z.of_nat (length args)))) = 8) by by rewrite le_encode_length.
  exists (sp6 - 8), s6, g6, d6, T6. split; [|split; [done|split; [ulia|split; [|split; [|split]]]]].
  - unfold push_arguments. rewrite (bind_Ret _ _ _ _ _ E2), (bind_Ret _ _ _ _ _ E3).
    assert (Esp4 : u64 (sp3 - sp3 mod 8) = sp4) by (unfold u64; apply wrapu_small; ulia). cbv zeta. rewrite Esp4, !Nat2Z.id, (bind_Ret _ _ _ _ _ E4), (bind_Ret _ _ _ _ _ E5).
    assert (Esp6 : u64 (sp6 - 8) = sp6 - 8) by (unfold u64; apply wrapu_small; ulia). rewrite Esp6, (bind_Ret _ _ _ _ _ E6). done.
  - unfold sp6, sp5, sp4. replace (_ - 8) with ((sp3 / 8 - (Z.of_nat (length env) + 1) - (Z.of_nat (length args) + 1) - 1) * 8) by (pose proof (Z.div_mod sp3 8 ltac:(lia)); lia). by apply Z.mod_mul.
  - split.
    + apply (pu_new _ _ _ _ _ _ _ _ _ P6).
    + exists (ptrs_of sp2 args). replace (sp6 - 8 + 8) with sp6 by lia. split; [eapply put_holds; [exact P6|ulia|ulia|ulia|apply (pu_new _ _ _ _ _ _ _ _ _ P5)]|]. apply blob_strings. fold la sp3.
      eapply put_holds; [exact P6|ulia|ulia|ulia|]. eapply put_holds; [exact P5|ulia|ulia|ulia|]. eapply put_holds; [exact P4|ulia|ulia|ulia|]. apply (pu_new _ _ _ _ _ _ _ _ _ P3).
    + exists (ptrs_of sp1 env). replace (sp6 - 8 + 8 + 8 * (Z.of_nat (length args) + 1)) with sp5 by ulia.
      split; [eapply put_holds; [exact P6|ulia|ulia|ulia|]; eapply put_holds; [exact P5|ulia|ulia|ulia|]; apply (pu_new _ _ _ _ _ _ _ _ _ P4)|]. apply blob_strings. fold le sp2.
      eapply put_holds; [exact P6|ulia|ulia|ulia|]. eapply put_holds; [exact P5|ulia|ulia|ulia|]. eapply put_holds; [exact P4|ulia|ulia|ulia|]. eapply put_holds; [exact P3|ulia|ulia|ulia|]. apply (pu_new _ _ _ _ _ _ _ _ _ P2).
  - by rewrite (pu_dir _ _ _ _ _ _ _ _ _ P6), (pu_dir _ _ _ _ _ _ _ _ _ P5), (pu_dir _ _ _ _ _ _ _ _ _ P4), (pu_dir _ _ _ _ _ _ _ _ _ P3), (pu_dir _ _ _ _ _ _ _ _ _ P2).
  - intros b Hb Hout M1. destruct (put_outside _ _ _ _ _ _ _ _ b P2 ltac:(ulia) ltac:(ulia) Hb Hout M1) as [M2 U2]. destruct (put_outside _ _ _ _ _ _ _ _ b P3 ltac:(ulia) ltac:(ulia) Hb Hout M2) as [M3 U3].
    destruct (put_outside _ _ _ _ _ _ _ _ b P4 ltac:(ulia) ltac:(ulia) Hb Hout M3) as [M4 U4]. destruct (put_outside _ _ _ _ _ _ _ _ b P5 ltac:(ulia) ltac:(ulia) Hb Hout M4) as [M5 U5].
    destruct (put_outside _ _ _ _ _ _ _ _ b P6 ltac:(ulia) ltac:(ulia) Hb Hout M5) as [M6 U6]. split; [done|congruence].
Qed.
End stack.

(** ** Step 3 of [execve] *)
Section exec_stack.
Context {St : Type} {BC : BlockCache St} (kend sizeof_section : Z) (children : Z -> list Z) (zombie : Z -> bool) (root_proc : Z) (depth : nat).
Context (pd : Z) (uninit_section : section).
Abbreviation lo := (PAGE_BASE kend + PAGE_SIZE).
Abbreviation pst := (pst St).
Abbreviation exec_stack := (exec_stack kend sizeof_section children zombie root_proc depth pd uninit_section).

Lemma kalloc_space (s : pst) g d T : space kend pd s g d T -> 1 <= sizeof_section <= 4080 -> gfree g <> [] ->
  exists a m g1, on_mem (kalloc 512 sizeof_section) s = Ret (a, set_pmem m s) /\ space kend pd (set_pmem m s) g1 d T /\ gheld g1 = gheld g /\ pages_same g (pmem s) m /\
    (length (gfree g) <= 1 + length (gfree g1))%nat.
Proof using.
  intros [Hd HP] Hsz Hne. pose proof (p_mem _ _ _ _ _ HP) as HM. pose proof (free_bound _ _ g HM) as Hbd. change NPAGE with 258048 in Hbd.
  destruct (kalloc_spec lo (pmem s) g sizeof_section 512 HM Hsz ltac:(lia) ltac:(lia)) as (a & m & g1 & E & _ & HM1 & (_ & _ & Hh) & Hz); [by left|].
  destruct (kalloc_words lo (pmem s) g sizeof_section 512 a m HM Hsz ltac:(lia) ltac:(lia) E) as [Hw Hc].
  exists a, m, g1. split; [by apply on_mem_Ret|]. split; [split; [done|]|split; [done|split; [done|rewrite (i_cnt _ _ _ HM), (i_cnt _ _ _ HM1) in Hc; lia]]].
  eapply other_tables; [exact HP|done| |intros b q Hq; rewrite Hh; by eapply (p_held _ _ _ _ _ HP)|done|destruct (p_zero _ _ _ _ _ HP) as (z & <- & Hzh & _); by rewrite Hh].
  intros b q w Hq Hin. eapply Hw; [by eapply (p_held _ _ _ _ _ HP)|done].
Qed.

(** The address space before: every page that is mapped is a user's, none
    is mapped where the stack will be, and there are pages enough. *)
Record stack_ready (base : Z) (s : pst) (g : ghost) (d : pgdir) (T : tables) : Prop := {
  sr_space : space kend pd s g d T;
  sr_user : forall a, canonical a -> is_mapped (pmem s) T a -> exists n, user_page T g (table_of (pte_of (pmem s) T a)) n;
  sr_none : forall a, base <= a < base + 5 * 4096 -> valid (pte_of (pmem s) T a) = false;
  sr_free : REVERSED_PAGES + 26 <= Z.of_nat (length (gfree g))
}.

Lemma stack_start base (s : pst) g d T m g1 d1 : stack_ready base s g d T -> 0 <= base -> base + 5 * 4096 <= 2 ^ 48 -> base mod 4096 = 0 ->
  space kend pd (set_pmem m s) g1 d T -> gheld g1 = gheld g -> pages_same g (pmem s) m -> (length (gfree g) <= 1 + length (gfree g1))%nat -> pt d1 = pt d ->
  let s1 := set_dirs (insert pd d1) (set_pmem m s) in
  user_inv kend pd base (base + 5 * 4096) s1 g1 d1 T /\ (forall b, canonical b -> is_mapped (pmem s) T b -> is_mapped (pmem s1) T b /\ ubyte (pmem s1) T b = ubyte (pmem s) T b).
Proof using.
  intros [H Hu Hn Hf] Hb0 Hb1 Hbm [Hd1 HP1] Hh Hw Hl Hpt s1. pose proof (sp_pt _ _ _ _ _ _ H) as HP.
  assert (Hp : forall a, pte_of m T a = pte_of (pmem s) T a) by (intros a; apply (pte_of_same lo (pmem s) g m (pt d) T a HP); intros b q w Hq Hin; eapply Hw; [by eapply (p_held _ _ _ _ _ HP)|done]).
  split; [split|]; change (pmem s1) with m.
  - split; [apply lookup_insert_eq|by rewrite Hpt].
  - intros a Ha Hm. unfold is_mapped in *. rewrite Hp in *. destruct (Hu a Ha Hm) as [n Hn']. exists n. unfold user_page in *. by rewrite Hh.
  - intros a b Ha _ Hm. unfold is_mapped in Hm. rewrite Hp, Hn in Hm; [done|exact Ha].
  - assert (Hmis : (missing base (base + 5 * 4096) m T <= 5)%nat).
    { unfold missing. etrans; [apply List.filter_length_le|]. unfold region_pages. rewrite length_seqZ. rewrite Z.div_add by lia. lia. }
    unfold REVERSED_PAGES in *. lia.
  - intros b Hb Hm. unfold is_mapped, ubyte in *. rewrite Hp. split; [done|]. destruct (Hu b Hb Hm) as [n [Hn' _]]. f_equal. f_equal. f_equal. apply page_words_ext. intros w Hin. by eapply Hw.
Qed.

(** The section of the stack. *)
Definition stack_section (base : Z) : section := set_flags ST_STACK (set_range base (base + 5 * 4096) (set_length (5 * PAGE_SIZE) uninit_section)).

(** C9: a program starts with the arguments it was given. When the strings of
    [argv] and [envp] fit the five pages of the stack and there are at most 31
    of each, step 3 of [execve] makes the section of the stack above the
    segments, and the process then has, from the final stack pointer on, the
    number of arguments, the array of pointers [argv] with a NULL at its end
    and the same for [envp]; every pointer is the address of its string with
    the terminator. The stack pointer is a multiple of 8 inside the section,
    and every byte the address space had before is what it was. *)
Theorem exec_stack_correct sp0 argv envp (s : pst) g d T : let base := PAGE_BASE (u64 (sp0 + PAGE_SIZE - 1)) in let args := default [] argv in let env := default [] envp in
  0 <= sp0 -> sp0 + 6 * 4096 <= 2 ^ 48 -> 1 <= sizeof_section <= 4080 -> stack_ready base s g d T ->
  Forall (Forall byte_ok) args -> Forall (Forall byte_ok) env -> (length args <= 31)%nat -> (length env <= 31)%nat -> stack_size args env <= 5 * 4096 ->
  exists sp a s' g' d' T', exec_stack argv envp sp0 s = Ret (Some (sp, Z.of_nat (length args)), s') /\ user_inv kend pd base (base + 5 * 4096) s' g' d' T' /\
    base <= sp < base + 5 * 4096 /\ sp mod 8 = 0 /\ arguments_at (pmem s') T' sp args env /\
    section_head d' = mkVma a (stack_section base) 1 :: section_head d /\
    (forall b, canonical b -> is_mapped (pmem s) T b -> is_mapped (pmem s') T' b /\ ubyte (pmem s') T' b = ubyte (pmem s) T b).
Proof using.
  intros base args env H0 H1 Hsz R Hoa Hoe Hla Hle Hst.
  assert (Hbase : base = 4096 * ((sp0 + 4095) / 4096)).
  { unfold base, u64. change PAGE_SIZE with 4096. replace (sp0 + 4096 - 1) with (sp0 + 4095) by lia. rewrite wrapu_small by lia. unfold PAGE_BASE. change (PAGE_SIZE - 1) with (2 ^ 12 - 1). rewrite land_align by lia. change (2 ^ 12) with 4096.
    pose proof (Z.div_mod (sp0 + 4095) 4096 ltac:(lia)). lia. }
  assert (Hb0 : 0 <= base) by (pose proof (Z.div_pos (sp0 + 4095) 4096); lia). assert (Hb1 : base + 5 * 4096 <= 2 ^ 48) by (pose proof (Z.mul_div_le (sp0 + 4095) 4096); lia).
  assert (Hbm : base mod 4096 = 0) by (rewrite Hbase, Z.mul_comm; by apply Z.mod_mul). assert (Htm : (base + 5 * 4096) mod 4096 = 0) by (by rewrite Z.mod_add).
  assert (Ebase : PAGE_BASE (u64 (sp0 + PAGE_SIZE - 1)) = base) by reflexivity. clearbody base. pose proof (sr_space _ _ _ _ _ R) as Hsp. assert (Hpos : 0 <= stack_size args env) by (unfold stack_size; lia).
  destruct (kalloc_space s g d T Hsp Hsz) as (a & m & g1 & E1 & Hsp1 & Hh & Hw & Hl); [pose proof (sr_free _ _ _ _ _ R) as Hf; unfold REVERSED_PAGES in Hf; intros E0; rewrite E0 in Hf; cbn in Hf; lia|].
  set (d1 := set_section_head (fun l => mkVma a (stack_section base) 1 :: l) d). destruct (stack_start base s g d T m g1 d1 R Hb0 Hb1 Hbm Hsp1 Hh Hw Hl eq_refl) as [I1 K1]. cbv zeta in I1, K1. set (s1 := set_dirs (insert pd d1) (set_pmem m s)) in *.
  destruct (push_all kend children zombie root_proc depth pd base (base + 5 * 4096) Hb0 Hb1 Hbm Htm argv envp (base + 5 * 4096 - 64) s1 g1 d1 T I1) as (sp & s' & g' & d' & T' & E2 & I2 & H2 & H3 & H4 & H5 & H6); [fold args env; lia|lia|done..|].
  exists sp, a, s', g', d', T'. split; [|split; [done|split; [lia|split; [done|split; [done|split; [by rewrite H5|]]]]]].
  - unfold Exec.exec_stack. rewrite Ebase, (bind_Ret _ _ _ _ _ E1). assert (Eend : u64 (base + 5 * PAGE_SIZE) = base + 5 * 4096) by (unfold u64, PAGE_SIZE; apply wrapu_small; lia). rewrite Eend.
    rewrite (bind_Ret _ _ _ _ _ (update_dir_Ret pd (set_pmem m s) d _ (sp_dir _ _ _ _ _ _ Hsp1))). fold (stack_section base) d1 s1.
    assert (Esp : u64 (base + 5 * 4096 - 64) = base + 5 * 4096 - 64) by (unfold u64; apply wrapu_small; lia). rewrite Esp. exact E2.
  - intros b Hb Hm. assert (Hout : b < base \/ base + 5 * 4096 <= b) by (destruct (decide (base <= b < base + 5 * 4096)) as [Hin|]; [unfold is_mapped in Hm; by rewrite (sr_none _ _ _ _ _ R b Hin) in Hm|lia]).
    destruct (K1 b Hb Hm) as [M1 U1]. destruct (H6 b Hb Hout M1) as [M2 U2]. split; [done|congruence].
Qed.
End exec_stack.

(** [ls -l], on an address space that has no pages yet. *)
#[local] Existing Instance no_cache.
Definition xs_state (m : mem_st) : pst unit := mkPst m {[1 := mkPgdir 0 false [] false]} [0] (mkFst (mkIst tt ∅ [] ex_cons 0) [] false ∅) 0.
Definition xs_uninit : section := mkSection 0 0 0 0 0 0.

Lemma none_mapped m a : valid (pte_of m ∅ a) = false.
Proof. unfold pte_of. by rewrite lookup_empty. Qed.

Lemma exec_stack_correct_witness :
  exists (s s' : pst unit) sp T', exec_stack pg_kend 72 (fun _ => []) (fun _ => false) 0 1 1 xs_uninit (Some [[108; 115]; [45; 108]]) None 0x401234 s = Ret (Some (sp, 2), s') /\
    arguments_at (pmem s') T' sp [[108; 115]; [45; 108]] [].
Proof.
  destruct pg_start as (m & g & HP & _ & _ & _ & Hc).
  destruct (exec_stack_correct pg_kend 72 (fun _ => []) (fun _ => false) 0 1 1 xs_uninit 0x401234 (Some [[108; 115]; [45; 108]]) None (xs_state m) g (mkPgdir 0 false [] false) ∅) as (sp & a & s' & g' & d' & T' & E & _ & _ & _ & A & _).
  - lia.
  - lia.
  - lia.
  - split; [split; [reflexivity|exact HP]| |intros b _; apply none_mapped|unfold REVERSED_PAGES; lia].
    intros b _ Hb. unfold is_mapped in Hb. change (pmem (xs_state m)) with m in Hb. by rewrite none_mapped in Hb.
  - repeat constructor; vm_compute; congruence.
  - constructor.
  - cbn. lia.
  - cbn. lia.
  - vm_compute. congruence.
  - exists (xs_state m), s', sp, T'. split; [exact E|exact A].
Defined.

(** * Loading a segment of a program (kernel/exec.c)

    [load] of a segment that starts at a page boundary: the process has the
    bytes of the file there, and zeros to the end of the last page. *)

Lemma file_data_ok sblock v e : fs_ok sblock v -> Forall byte_ok (file_data v e).
Proof.
  intros H. unfold file_data. apply Forall_fmap, Forall_forall. intros k _. cbn. unfold fbyte. case_match; [done|]. cbn.
  destruct (v !! _) as [d|] eqn:E; [|done]. cbn. destruct (d !! _) as [b|] eqn:Eb; [|done]. cbn. eapply Forall_lookup_1; [apply (fo_block _ _ H _ _ E)|exact Eb].
Qed.

Section load.
Context {St : Type} {BC : BlockCache St} (sblock : SuperBlock) {BL : BlockCacheLaws St sblock}.
Context (kend : Z) (children : Z -> list Z) (zombie : Z -> bool) (root_proc : Z) (depth : nat).
Context (pd base top : Z) (Hb0 : 0 <= base) (Htop : top <= 2 ^ 48) (Hbm : base mod 4096 = 0) (Htm : top mod 4096 = 0).
Abbreviation lo := (PAGE_BASE kend + PAGE_SIZE).
Abbreviation pst := (pst St).
Abbreviation user_inv := (user_inv (St := St) kend pd base top).
Abbreviation put := (put (St := St) pd).
Abbreviation load_turn := (load_turn kend children zombie root_proc depth pd).
Abbreviation load := (load kend children zombie root_proc depth pd).

Lemma on_ino_Ret {A} (m : M (ist St) A) (s : pst) a i : m (inos (pfs s)) = Ret (a, i) -> on_ino m s = Ret (a, set_pfs (set_inos i (pfs s)) s).
Proof using. intros H. unfold on_ino, on_fs, on_inodes, zoom. by rewrite H. Qed.

(** The file: [inode] is loaded in operation [c], and only the cache of the
    file system differs from [fs]. *)
Record reading (c : Z) (a : store) (inode : Z) (ip : Inode) (fs : fst_ St) (s : pst) : Prop := {
  rd_open : opened sblock c a (inos (pfs s)) inode ip;
  rd_wf : file_wf sblock (st_view a) (entry ip);
  rd_same : exists cs, pfs s = set_inos (set_cache cs (inos fs)) fs
}.

Lemma file_read c a inode ip fs s off n : reading c a inode ip fs s -> 0 <= off -> 0 <= n < 2 ^ 32 -> off + n <= num_bytes (entry ip) ->
  exists f, on_ino (inode_read inode off n) s = Ret ((n, range (Z.to_nat off) (Z.to_nat n) (file_data (st_view a) (entry ip))), set_pfs f s) /\ reading c a inode ip fs (set_pfs f s).
Proof using BL.
  intros [[] Hw [cs Hs]] Ho Hn Hl. destruct (inode_read_spec sblock c a (inos (pfs s)) inode ip off n) as (cs' & E & H'); try done; [lia|].
  rewrite Z.min_l in E by lia. exists (set_inos (set_cache cs' (inos (pfs s))) (pfs s)). split; [by apply on_ino_Ret|]. split; [by split|done|]. exists cs'. rewrite Hs. done.
Qed.

Lemma user_inv_pfs f s g d T : user_inv s g d T -> user_inv (set_pfs f s) g d T.
Proof using. intros [[Hd HP] H2 H3 H4]. split; [by split|exact H2|exact H3|exact H4]. Qed.

Lemma put_pfs off bs f s s' d d' T T' : put off bs (set_pfs f s) s' d d' T T' -> put off bs s s' d d' T T'.
Proof using. intros [H1 H2 H3 H4]. by split. Qed.

Lemma reading_mem c a inode ip fs (s s' : pst) : pfs s' = pfs s -> reading c a inode ip fs s -> reading c a inode ip fs s'.
Proof using. intros E [H1 H2 H3]. split; [by rewrite E|done|by rewrite E]. Qed.

(** ** A page of the segment *)
Lemma load_turn_puts c a inode ip fs fl s g d T va off end_ : 0 <= fl < 4096 -> Z.odd fl = true ->
  user_inv s g d T -> reading c a inode ip fs s -> base <= va < end_ -> va mod 4096 = 0 -> end_ <= top -> 0 <= off -> off + (end_ - va) <= num_bytes (entry ip) ->
  let n := Z.min 4096 (end_ - va) in
  exists s' g' d' T', load_turn inode end_ fl (va, off) s = Ret (inl (va + n, off + n), s') /\ user_inv s' g' d' T' /\ reading c a inode ip fs s' /\
    put va (range (Z.to_nat off) (Z.to_nat n) (file_data (st_view a) (entry ip)) ++ replicate (Z.to_nat (4096 - n)) 0) s s' d d' T T'.
Proof using Hb0 Htop Hbm Htm BL.
  intros Hfl Hod H R Hva Hal He Ho Hl n. assert (Hr : region base top va) by (unfold region; lia). assert (Hc : canonical va) by (unfold canonical; lia).
  assert (Hnb : num_bytes (entry ip) <= 71680) by apply (fw_size _ _ _ (rd_wf _ _ _ _ _ _ R)). assert (Hpg : va + 4096 <= top) by (Z.div_mod_to_equations; lia).
  destruct (ensure_maps kend pd base top children zombie root_proc depth s g d T va fl Hfl Hod Hb0 Htop Hbm Htm H Hr) as (s1 & g1 & d1 & T1 & q & E1 & H1 & Hq & Hm & G & Hf1).
  pose proof (reading_mem _ _ _ _ _ s s1 Hf1 R) as R1. destruct (file_read c a inode ip fs s1 off n R1 Ho) as (f & E2 & R2); [lia|lia|].
  set (bs := range (Z.to_nat off) (Z.to_nat n) (file_data (st_view a) (entry ip))) in *.
  assert (Hbl : length bs = Z.to_nat n) by (unfold bs; apply range_length; pose proof (file_data_length sblock _ _ (fw_maps _ _ _ (rd_wf _ _ _ _ _ _ R))); lia).
  assert (Hbo : Forall byte_ok bs) by (apply range_ok, (file_data_ok sblock), (op_fs _ _ _ _ _ _ (rd_open _ _ _ _ _ _ R))).
  destruct (store_user kend pd base top (set_pfs f s1) g1 d1 T1 va bs (user_inv_pfs f _ _ _ _ H1) Hr Hc) as (s2 & E3 & H2 & P & Hf2 & Hp2); [rewrite Hal, Hbl; lia|done|exact Hm|].
  change (pmem (set_pfs f s1)) with (pmem s1) in E3. rewrite Hal in E3. change (Z.to_nat 0) with 0%nat in E3. pose proof (reading_mem _ _ _ _ _ _ s2 Hf2 R2) as R3.
  assert (Hbase : PAGE_BASE va = va) by (unfold PAGE_BASE; change (PAGE_SIZE - 1) with (2 ^ 12 - 1); rewrite land_align by lia; change (2 ^ 12) with 4096; lia).
  assert (Erest : u64 (PAGE_BASE va + PAGE_SIZE - va) = 4096) by (rewrite Hbase; unfold u64, PAGE_SIZE; rewrite wrapu_small; lia).
  assert (Eleft : u64 (end_ - va) = end_ - va) by (unfold u64; apply wrapu_small; lia). assert (Enx : u64 (va + n) = va + n /\ u64 (off + n) = off + n) by (unfold u64; rewrite !wrapu_small by lia; done). destruct Enx as [Enx1 Enx2].
  assert (Erun : load_turn inode end_ fl (va, off) s = (let next := ret (inl (va + n, off + n)) in
    if negb (n =? PAGE_SIZE) then if n =? end_ - va then on_mem (store_page (table_of (pte_of (pmem s1) T1 va)) (Z.to_nat n) (replicate (Z.to_nat (PAGE_SIZE - n)) 0)) ;;; next
      else if n =? 4096 then on_mem (store_page (table_of (pte_of (pmem s1) T1 va)) 0 (replicate (Z.to_nat (PAGE_SIZE - n)) 0)) ;;; next else ret (inr (-1))
    else next) s2).
  { unfold Exec.load_turn. rewrite (proj2 (Z.ltb_lt _ _)) by lia. rewrite ensure_bind, (bind_Ret _ _ _ _ _ E1), (bind_Ret _ _ _ _ _ (rd_pte_here kend pd s1 g1 d1 T1 va q (ui_space _ _ _ _ _ _ _ _ H1) Hq)).
    rewrite Erest, Eleft. fold n. rewrite (bind_Ret _ _ _ _ _ E2). cbn [fst snd]. rewrite Hbase, Z.sub_diag. change (Z.to_nat 0) with 0%nat. rewrite (bind_Ret _ _ _ _ _ E3), Enx1, Enx2. done. }
  rewrite Erun. unfold PAGE_SIZE. destruct (Z.eqb_spec n 4096) as [En|Nn]; cbn [negb].
  - exists s2, g1, d1, T1. split; [done|]. split; [done|]. split; [done|]. rewrite En. cbn [Z.to_nat replicate]. rewrite app_nil_r. eapply grew_put; [exact G|]. by eapply put_pfs.
  - assert (En : n = end_ - va) by lia. rewrite (proj2 (Z.eqb_eq _ _) En).
    assert (Hm2 : is_mapped (pmem s2) T1 (va + n)).
    { unfold is_mapped. rewrite (pte_page _ _ _ va) by (Z.div_mod_to_equations; lia). apply (pu_old _ _ _ _ _ _ _ _ _ P va Hc Hm). }
    destruct (store_user kend pd base top s2 g1 d1 T1 (va + n) (replicate (Z.to_nat (4096 - n)) 0) H2) as (s3 & E4 & H3 & P2 & Hf3 & _);
      [unfold region; lia|unfold canonical; lia|rewrite length_replicate; Z.div_mod_to_equations; lia|by apply Forall_replicate|done|].
    assert (Hmn : (va + n) mod 4096 = n) by (Z.div_mod_to_equations; lia). rewrite Hmn, Hp2, (pte_page _ _ _ va) in E4 by (Z.div_mod_to_equations; lia). change (pmem (set_pfs f s1)) with (pmem s1) in E4.
    exists s3, g1, d1, T1. rewrite (bind_Ret _ _ _ _ _ E4). split; [done|]. split; [done|]. split; [by eapply reading_mem|]. eapply grew_put; [exact G|].
    eapply put_app; [lia|rewrite Hbl; lia|eapply put_pfs; exact P|]. rewrite Hbl, Z2Nat.id by lia. exact P2.
Qed.

(** ** The whole segment *)
Lemma load_loop c a inode ip fs fl end_ k : 0 <= fl < 4096 -> Z.odd fl = true -> end_ <= top -> forall s g d T va off,
  user_inv s g d T -> reading c a inode ip fs s -> base <= va <= end_ -> va mod 4096 = 0 -> 0 <= off -> off + (end_ - va) <= num_bytes (entry ip) -> end_ - va <= 4096 * Z.of_nat k ->
  exists s' g' d' T', while (S k) (load_turn inode end_ fl) (va, off) s = Ret (0, s') /\ user_inv s' g' d' T' /\ reading c a inode ip fs s' /\
    put va (range (Z.to_nat off) (Z.to_nat (end_ - va)) (file_data (st_view a) (entry ip)) ++ replicate (Z.to_nat (- (end_ - va) mod 4096)) 0) s s' d d' T T'.
Proof using Hb0 Htop Hbm Htm BL.
  intros Hfl Hod He. assert (Hstop : forall j v o s, v = end_ -> while (S j) (load_turn inode end_ fl) (v, o) s = Ret (0, s)) by (intros j v o s ->; rewrite while_S; unfold Exec.load_turn; by rewrite (proj2 (Z.ltb_ge _ _)) by lia).
  induction k as [|k IH]; intros s g d T va off H R Hva Hal Ho Hl Hk; (destruct (Z.eq_dec va end_) as [Ev|Nv];
    [exists s, g, d, T; rewrite (Hstop _ va off s Ev); split; [done|]; split; [done|]; split; [done|]; rewrite Ev, Z.sub_diag; rewrite range_0; apply put_nil|]); [lia|].
  destruct (load_turn_puts c a inode ip fs fl s g d T va off end_ Hfl Hod H R) as (s1 & g1 & d1 & T1 & E1 & H1 & R1 & P1); [lia|done|done|done|done|]. set (n := Z.min 4096 (end_ - va)) in *. rewrite while_S, (bind_Ret _ _ _ _ _ E1).
  destruct (Z.le_gt_cases 4096 (end_ - va)) as [Hfull|Hpart].
  - assert (En : n = 4096) by lia. rewrite En in *. destruct (IH s1 g1 d1 T1 (va + 4096) (off + 4096) H1 R1) as (s2 & g2 & d2 & T2 & E2 & H2 & R2 & P2); [lia|Z.div_mod_to_equations; lia|lia|lia|lia|].
    exists s2, g2, d2, T2. split; [exact E2|]. split; [done|]. split; [done|]. replace (Z.to_nat (4096 - 4096)) with 0%nat in P1 by lia. rewrite app_nil_r in P1.
    replace (Z.to_nat (end_ - va)) with (Z.to_nat 4096 + Z.to_nat (end_ - (va + 4096)))%nat by lia. rewrite range_app, <- app_assoc.
    assert (Hlen : Z.of_nat (length (range (Z.to_nat off) (Z.to_nat 4096) (file_data (st_view a) (entry ip)))) = 4096).
    { pose proof (file_data_length sblock _ _ (fw_maps _ _ _ (rd_wf _ _ _ _ _ _ R))). rewrite range_length; lia. }
    eapply put_app; [lia|rewrite Hlen; lia|exact P1|]. rewrite Hlen. replace (Z.to_nat off + Z.to_nat 4096)%nat with (Z.to_nat (off + 4096)) by lia.
    by replace (- (end_ - va) mod 4096) with (- (end_ - (va + 4096)) mod 4096) by (Z.div_mod_to_equations; lia).
  - assert (En : n = end_ - va) by lia. rewrite En in *. exists s1, g1, d1, T1. rewrite Hstop by lia. split; [done|]. split; [done|]. split; [done|].
    replace (- (end_ - va) mod 4096) with (4096 - (end_ - va)) by (Z.div_mod_to_equations; lia). exact P1.
Qed.

(** C10: [load] gives a process the segment of its program. For a segment that
    starts at a page boundary and lies in the file, [load] returns 0, and the
    process has the [len] bytes of the file from [off] on at [va], with zeros
    after them to the end of the page; pages that were missing are mapped with
    the flags given, all other bytes of the address space are what they were,
    and of the file system only the state of the cache changes. *)
Theorem load_correct c a inode ip fs fl s g d T va off len : 0 <= fl < 4096 -> Z.odd fl = true ->
  user_inv s g d T -> reading c a inode ip fs s -> base <= va -> va + len <= top -> va mod 4096 = 0 -> 0 <= off -> 0 <= len -> off + len <= num_bytes (entry ip) ->
  exists s' g' d' T', load inode off va len fl s = Ret (0, s') /\ user_inv s' g' d' T' /\ reading c a inode ip fs s' /\
    put va (range (Z.to_nat off) (Z.to_nat len) (file_data (st_view a) (entry ip)) ++ replicate (Z.to_nat (- len mod 4096)) 0) s s' d d' T T'.
Proof using Hb0 Htop Hbm Htm BL.
  intros Hfl Hod H R Hva Ht Hal Ho Hlen Hl. unfold Exec.load. assert (Ee : u64 (va + len) = va + len) by (unfold u64; apply wrapu_small; lia). rewrite Ee. unfold PAGE_SIZE.
  replace (va + len - va) with len by lia. pose proof (Z.div_mod len 4096 ltac:(lia)). pose proof (Z.mod_pos_bound len 4096 ltac:(lia)). assert (0 <= len / 4096) by (apply Z.div_pos; lia).
  destruct (load_loop c a inode ip fs fl (va + len) (S (Z.to_nat (len / 4096 + 1))) Hfl Hod Ht s g d T va off H R) as (s' & g' & d' & T' & E & H' & R' & P); [lia|done|done|lia|lia|].
  replace (va + len - va) with len in P by lia. by exists s', g', d', T'.
Qed.
End load.

(** The file that [execve] gives a section has the count 0: the next
    [filealloc] hands it out again. *)
Lemma segment_file_reused {St} {BC : BlockCache St} inode (s : fst_ St) k x : flock s = false -> (k < Z.to_nat NOFILE)%nat -> (forall i, (i < k)%nat -> busy s i) -> ftable s !! k = Some x -> ref x <= 0 ->
  exists s1 s2, segment_file inode s = Ret (Z.of_nat k, s1) /\ ftable s1 !! k = Some (mkFile FD_INODE 0 true false 0 inode 0) /\ filealloc s1 = Ret (Some (Z.of_nat k), s2).
Proof.
  intros Hl Hk Hb Hx Hr. pose proof (filealloc_first s k x Hl Hk Hb Hx Hr) as E. assert (Hlt : (k < length (ftable s))%nat) by by eapply lookup_lt_Some.
  set (y := mkFile FD_INODE 0 true false 0 inode 0). set (s1 := set_ftable (insert k y) s). assert (Hy : ftable s1 !! k = Some y) by (by apply list_lookup_insert_eq).
  assert (Hup : forall f a, update_file (Z.of_nat k) f (set_ftable (insert k a) s) = Ret (tt, set_ftable (insert k (f a)) s)).
  { intros f a. unfold update_file. rewrite Nat2Z.id. cbn [ftable set_ftable]. rewrite list_lookup_insert_eq by done. unfold set_ftable. cbn. by rewrite list_insert_insert_eq. }
  exists s1. eexists. split; [|split; [exact Hy|]].
  - unfold segment_file. rewrite (bind_Ret _ _ _ _ _ E). by rewrite (bind_Ret _ _ _ _ _ (Hup _ _)), (bind_Ret _ _ _ _ _ (Hup _ _)), (bind_Ret _ _ _ _ _ (Hup _ _)), (bind_Ret _ _ _ _ _ (Hup _ _)).
  - apply (filealloc_first s1 k y); [done|done| |done|done]. intros i Hi. destruct (Hb i Hi) as [z [Hz Hz']]. exists z. split; [|done]. cbn. by rewrite list_lookup_insert_ne by lia.
Qed.

(** Sixteen bytes of the directory of the example disk, at 0x400000. *)
#[local] Existing Instance ex_cache.
#[local] Existing Instance ex_laws.
Definition ld_state (m : mem_st) : pst bcst := mkPst m {[1 := mkPgdir 0 false [] false]} [0] (mkFst ex_ist [] false ∅) 0.

Lemma load_correct_witness :
  exists (s s' : pst bcst) T', load pg_kend (fun _ => []) (fun _ => false) 0 1 1 8 16 0x400000 16 PTE_USER_DATA s = Ret (0, s') /\
    uholds (pmem s') T' 0x400000 (dirent_bytes (mkDirent 2 (ex_name 97)) ++ replicate 4080 0).
Proof.
  destruct pg_start as (m & g & HP & _ & _ & _ & Hc).
  assert (Hn : forall b, valid (pte_of m ∅ b) = false) by (intros b; unfold pte_of; by rewrite lookup_empty).
  assert (Ed : dirent_bytes (mkDirent 2 (ex_name 97)) = range 16 16 (file_data ex_view ex_dir)) by (vm_compute; reflexivity). rewrite Ed.
  destruct (load_correct ex_sb pg_kend (fun _ => []) (fun _ => false) 0 1 1 0x400000 0x401000 ltac:(lia) ltac:(lia) eq_refl eq_refl 7 ex_store 8 ex_inode (mkFst ex_ist [] false ∅) PTE_USER_DATA (ld_state m) g (mkPgdir 0 false [] false) ∅ 0x400000 16 16)
    as (s' & g' & d' & T' & E & _ & _ & P).
  - vm_compute. split; congruence.
  - reflexivity.
  - split; [split; [reflexivity|exact HP]|intros b _ Hb|intros b b' _ _ Hb|].
    + unfold is_mapped in Hb. change (pmem (ld_state m)) with m in Hb. by rewrite Hn in Hb.
    + unfold is_mapped in Hb. change (pmem (ld_state m)) with m in Hb. by rewrite Hn in Hb.
    + assert (Hm : (missing 0x400000 0x401000 (pmem (ld_state m)) ∅ <= 1)%nat) by (unfold missing; etrans; [apply List.filter_length_le|reflexivity]). unfold REVERSED_PAGES. lia.
  - split; [exact ex_opened|exact (dw_file _ _ _ ex_dir_wf)|by exists (cache ex_ist)].
  - lia.
  - lia.
  - reflexivity.
  - lia.
  - lia.
  - vm_compute. congruence.
  - exists (ld_state m), s', T'. split; [exact E|]. apply (pu_new _ _ _ _ _ _ _ _ _ P).
Defined.
