(* ===== verification/SdInit.v ===== *)
(** * Starting the SD card (driver/sddef.h)

    [sdInit] and what it calls, on the registers of Emmc.v. The fields of
    [sdCard] that only the start uses, [sdHostVer] and [sdBaseClock] are kept
    beside the rest. [clock_rate] is the answer of the mailbox. The loops of
    [delay] and the messages, [sdParseCID] among them, have no effect. NULL in
    [lastCmd] is -1.

    Whatever the registers answer, every wait gives up: [sdInit] returns, and
    the card counts as initialised exactly if the result says so. *)
From stdpp Require Import base gmap list.
From Stdlib Require Import ZArith Lia.
From S2P Require Import Prelude CString Emmc.

Definition EMMC_CONTROL0 := 0x00300028.
Definition EMMC_IRPT_MASK := 0x00300034.
Definition EMMC_IRPT_EN := 0x00300038.
Definition EMMC_SLOTISR_VER := 0x003000fc.
Definition GPFSEL4 := 0x200010.
Definition GPFSEL5 := 0x200014.
Definition GPEDS1 := 0x200044.
Definition GPHEN1 := 0x200068.
Definition GPPUD := 0x200094.
Definition GPPUDCLK1 := 0x20009C.

Definition C0_HCTL_DWITDH := 0x00000002.
Definition C1_SRST_HC := 0x01000000.
Definition C1_TOUNIT_MAX := 0x000e0000.
Definition C1_CLK_EN := 0x00000004.
Definition C1_CLK_STABLE := 0x00000002.
Definition C1_CLK_INTLEN := 0x00000001.
Definition FREQ_SETUP := 400000.
Definition FREQ_NORMAL := 25000000.
Definition HOST_SPEC_NUM := 0x00ff0000.
Definition HOST_SPEC_NUM_SHIFT := 16.
Definition ACMD41_HCS := 0x40000000.
Definition ACMD41_SDXC_POWER := 0x10000000.
Definition ACMD41_S18R := 0x01000000.
Definition ACMD41_VOLTAGE := 0x00ff8000.
Definition ACMD41_ARG_HC := Z.lor (Z.lor (Z.lor ACMD41_HCS ACMD41_SDXC_POWER) ACMD41_VOLTAGE) ACMD41_S18R.
Definition ACMD41_ARG_SC := Z.lor ACMD41_VOLTAGE ACMD41_S18R.
Definition R3_COMPLETE := 0x80000000.
Definition R3_CCS := 0x40000000.
Definition R3_S18A := 0x01000000.

Definition IX_GO_IDLE_STATE := 0.
Definition IX_ALL_SEND_CID := 1.
Definition IX_SEND_REL_ADDR := 2.
Definition IX_CARD_SELECT := 5.
Definition IX_SEND_IF_COND := 6.
Definition IX_SEND_CSD := 7.
Definition IX_SET_BLOCKLEN := 13.
Definition IX_SET_BUS_WIDTH := 32.
Definition IX_APP_SEND_OP_COND := 36.

Definition CSD0_VERSION := 0x00c00000.
Definition CSD0_V1 := 0x00000000.
Definition CSD1VN_READ_BL_LEN := 0x00000f00.
Definition CSD1VN_READ_BL_LEN_SHIFT := 8.
Definition CSD3VN_FILE_FORMAT := 0x0000000c.
Definition CSD3VN_FILE_FORMAT_HDD := 0x00000000.
Definition CSD3VN_FILE_FORMAT_DOSFAT := 0x00000004.
Definition CSD1V1_C_SIZEH := 0x00000003.
Definition CSD1V1_C_SIZEH_SHIFT := 10.
Definition CSD2V1_C_SIZEL := 0xffc00000.
Definition CSD2V1_C_SIZEL_SHIFT := 22.
Definition CSD2V1_C_SIZE_MULT := 0x00000380.
Definition CSD2V1_C_SIZE_MULT_SHIFT := 7.
Definition CSD2V2_C_SIZE := 0x3fffff00.
Definition CSD2V2_C_SIZE_SHIFT := 8.

Definition SD_TYPE_1 := 2.
Definition SD_TYPE_2_SC := 3.
Definition SD_ERROR_RESET := 6.
Definition SD_ERROR_CLOCK := 7.
Definition SD_ERROR_VOLTAGE := 8.
Definition SD_CARD_CHANGED := 10.
Definition SD_CARD_REINSERTED := 12.

Definition set_type (v : Z) (d : SDDescriptor) : SDDescriptor := mkSD (cid d) (csd d) (scr d) (ocr d) (support d) v (rca d) (cardState d) (status d) (lastCmd d) (lastArg d).

Record init_st (C : Type) := mkInit { emmc : emmc_st C; uhsi : Z; init : bool; absent : bool; capacity : Z; fileFormat : Z; sdHostVer : Z; sdBaseClock : Z }.
Arguments mkInit {C} _ _ _ _ _ _ _ _.
Arguments emmc {C} _.
Arguments uhsi {C} _.
Arguments init {C} _.
Arguments absent {C} _.
Arguments capacity {C} _.
Arguments fileFormat {C} _.
Arguments sdHostVer {C} _.
Arguments sdBaseClock {C} _.

Section code.
Context {C : Type} {E : Emmc C} (clock_rate : M C Z).
Abbreviation st := (init_st C).
Abbreviation M := (M st).

Definition set_emmc (e : emmc_st C) (s : st) : st := mkInit e (uhsi s) (init s) (absent s) (capacity s) (fileFormat s) (sdHostVer s) (sdBaseClock s).
Definition set_uhsi (v : Z) (s : st) : st := mkInit (emmc s) v (init s) (absent s) (capacity s) (fileFormat s) (sdHostVer s) (sdBaseClock s).
Definition set_init (b : bool) (s : st) : st := mkInit (emmc s) (uhsi s) b (absent s) (capacity s) (fileFormat s) (sdHostVer s) (sdBaseClock s).
Definition set_absent (b : bool) (s : st) : st := mkInit (emmc s) (uhsi s) (init s) b (capacity s) (fileFormat s) (sdHostVer s) (sdBaseClock s).
Definition set_capacity (v : Z) (s : st) : st := mkInit (emmc s) (uhsi s) (init s) (absent s) v (fileFormat s) (sdHostVer s) (sdBaseClock s).
Definition set_fileFormat (v : Z) (s : st) : st := mkInit (emmc s) (uhsi s) (init s) (absent s) (capacity s) v (sdHostVer s) (sdBaseClock s).
Definition set_hostVer (v : Z) (s : st) : st := mkInit (emmc s) (uhsi s) (init s) (absent s) (capacity s) (fileFormat s) v (sdBaseClock s).
Definition set_baseClock (v : Z) (s : st) : st := mkInit (emmc s) (uhsi s) (init s) (absent s) (capacity s) (fileFormat s) (sdHostVer s) v.

Definition on_emmc {A} (m : Prelude.M (emmc_st C) A) : M A := zoom emmc set_emmc m.
Definition on_dev {A} (m : Prelude.M C A) : Prelude.M (emmc_st C) A := zoom dev (fun c s => mkEmmc c (sdCard s)) m.

(** [*r |= v], [*r &= v] *)
Definition or_reg (r v : Z) : Prelude.M (emmc_st C) unit := x <- rd r ;; wr r (Z.lor x v).
Definition and_reg (r v : Z) : Prelude.M (emmc_st C) unit := x <- rd r ;; wr r (Z.land x v).

(** ** The clock *)
(** [while(c && --count)] *)
Definition predec_turn (c : Prelude.M (emmc_st C) bool) (count : Z) : Prelude.M (emmc_st C) (Z + Z) :=
  b <- c ;;
  if negb b then ret (inr count)
  else let count := count - 1 in if count =? 0 then ret (inr 0) else sd_delayus 1 ;;; ret (inl count).
(** [while(c && count--) sd_delayus(10)] *)
Definition wait10_turn (c : Prelude.M (emmc_st C) bool) (count : Z) : Prelude.M (emmc_st C) (Z + Z) :=
  b <- c ;;
  if negb b then ret (inr count)
  else if count =? 0 then ret (inr (-1))
  else sd_delayus 10 ;;; ret (inl (count - 1)).
Definition wait10 (c : Prelude.M (emmc_st C) bool) : Prelude.M (emmc_st C) Z := while (Z.to_nat 10001) (wait10_turn c) 10000.

Definition sdSetClock (hostVer freq : Z) : Prelude.M (emmc_st C) Z :=
  count <- while (Z.to_nat 100000) (predec_turn (v <- rd EMMC_STATUS ;; ret (any v (Z.lor SR_CMD_INHIBIT SR_DAT_INHIBIT)))) 100000 ;;
  if count <=? 0 then printed [EMMC_STATUS] ;;; ret SD_ERROR_CLOCK
  else
    and_reg EMMC_CONTROL1 (u32 (Z.lnot C1_CLK_EN)) ;;;
    sd_delayus 10 ;;;
    let cdiv := i32 (sdGetClockDivider hostVer (u32 freq)) in
    x <- rd EMMC_CONTROL1 ;;
    wr EMMC_CONTROL1 (Z.lor (Z.land x 0xffff003f) (u32 cdiv)) ;;;
    sd_delayus 10 ;;;
    or_reg EMMC_CONTROL1 C1_CLK_EN ;;;
    sd_delayus 10 ;;;
    count <- wait10 (v <- rd EMMC_CONTROL1 ;; ret (negb (any v C1_CLK_STABLE))) ;;
    if count <=? 0 then ret SD_ERROR_CLOCK
    else printed [EMMC_STATUS; EMMC_CONTROL1] ;;; ret SD_OK.

(** ** Reset *)
Definition clear_card (d : SDDescriptor) : SDDescriptor := set_type 0 (set_status 0 (set_last (-1) 0 (set_ocr 0 (set_rca 0 d)))).

Definition sdResetCard (resetType : Z) : M Z :=
  count <- on_emmc (
    wr EMMC_CONTROL0 0 ;;;
    or_reg EMMC_CONTROL1 (u32 resetType) ;;;
    sd_delayus 10 ;;;
    wait10 (v <- rd EMMC_CONTROL1 ;; ret (any v (u32 resetType)))) ;;
  if count <=? 0 then ret SD_ERROR_RESET
  else
    on_emmc (or_reg EMMC_CONTROL1 (Z.lor C1_CLK_INTLEN C1_TOUNIT_MAX) ;;; sd_delayus 10) ;;;
    v <- gets sdHostVer ;;
    resp <- on_emmc (sdSetClock v FREQ_SETUP) ;;
    if negb (resp =? 0) then ret resp
    else
      on_emmc (wr EMMC_IRPT_EN (Z.land (Z.land 0xffffffff (u32 (Z.lnot INT_CMD_DONE))) (u32 (Z.lnot INT_WRITE_RDY))) ;;; wr EMMC_IRPT_MASK 0xffffffff) ;;;
      on_emmc (set_card clear_card) ;;;
      modify (set_uhsi 0) ;;;
      on_emmc (sdSendCommand IX_GO_IDLE_STATE).

(** ** Voltage and capacity *)
(** A send that may time out: [Some] is the error to return. *)
Definition op_cond_once (arg : Z) : Prelude.M (emmc_st C) (option Z) :=
  resp <- sdSendCommandA IX_APP_SEND_OP_COND arg ;;
  ret (if negb (resp =? 0) && negb (resp =? SD_TIMEOUT) then Some resp else None).
Fixpoint op_cond_loop (count : nat) (arg : Z) : Prelude.M (emmc_st C) (option Z) :=
  c <- gets sdCard ;;
  if any (ocr c) R3_COMPLETE then ret None
  else
    match count with
    | O => ret None
    | S count =>
        printed [EMMC_STATUS] ;;;
        r <- op_cond_once arg ;;
        match r with Some e => ret (Some e) | None => op_cond_loop count arg end
    end.
Definition sdAppSendOpCond (arg : Z) : Prelude.M (emmc_st C) Z :=
  printed [EMMC_STATUS] ;;;
  r <- op_cond_once arg ;;
  match r with
  | Some e => ret e
  | None =>
      r <- op_cond_loop 6 arg ;;
      match r with
      | Some e => ret e
      | None =>
          c <- gets sdCard ;;
          ret (if negb (any (ocr c) R3_COMPLETE) then SD_TIMEOUT else if negb (any (ocr c) ACMD41_VOLTAGE) then SD_ERROR_VOLTAGE else SD_OK)
      end
  end.

Definition sdSwitchVoltage : Prelude.M (emmc_st C) Z := ret SD_OK.

(** ** Pins *)
Definition pull_up (clk : Z) : Prelude.M (emmc_st C) unit := wr GPPUD 2 ;;; wr GPPUDCLK1 clk ;;; wr GPPUD 0 ;;; wr GPPUDCLK1 0.
Definition sdInitGPIO : Prelude.M (emmc_st C) unit :=
  and_reg GPFSEL4 (u32 (Z.lnot (Z.shiftl 7 (7 * 3)))) ;;;
  pull_up (Z.shiftl 1 15) ;;;
  or_reg GPHEN1 (Z.shiftl 1 15) ;;;
  or_reg GPFSEL4 (Z.lor (Z.shiftl 7 (8 * 3)) (Z.shiftl 7 (9 * 3))) ;;;
  pull_up (Z.lor (Z.shiftl 1 16) (Z.shiftl 1 17)) ;;;
  or_reg GPFSEL5 (Z.lor (Z.lor (Z.lor (Z.shiftl 7 (0 * 3)) (Z.shiftl 7 (1 * 3))) (Z.shiftl 7 (2 * 3))) (Z.shiftl 7 (3 * 3))) ;;;
  pull_up (Z.lor (Z.lor (Z.lor (Z.shiftl 1 18) (Z.shiftl 1 19)) (Z.shiftl 1 20)) (Z.shiftl 1 21)).

Definition sdGetBaseClock : M Z :=
  r <- on_emmc (on_dev clock_rate) ;;
  modify (set_baseClock r) ;;;
  ret (if r =? -1 then SD_ERROR else SD_OK).

(** ** What the card says about itself *)
Definition word (l : list Z) (i : nat) : Z := default 0 (l !! i).
Definition csd_capacity (csd : list Z) : Z :=
  if Z.land (word csd 0) CSD0_VERSION =? CSD0_V1 then
    let csize := i32 (u32 (Z.shiftl (Z.land (word csd 1) CSD1V1_C_SIZEH) CSD1V1_C_SIZEH_SHIFT + Z.shiftr (Z.land (word csd 2) CSD2V1_C_SIZEL) CSD2V1_C_SIZEL_SHIFT)) in
    let mult := Z.shiftl 1 (Z.shiftr (Z.land (word csd 2) CSD2V1_C_SIZE_MULT) CSD2V1_C_SIZE_MULT_SHIFT + 2) in
    let blockSize := i32 (Z.shiftl 1 (Z.shiftr (Z.land (word csd 1) CSD1VN_READ_BL_LEN) CSD1VN_READ_BL_LEN_SHIFT)) in
    u64 ((csize + 1) * mult * blockSize)
  else
    let csize := Z.shiftr (Z.land (word csd 2) CSD2V2_C_SIZE) CSD2V2_C_SIZE_SHIFT in
    u64 ((csize + 1) * 512 * 1024).
Definition sdParseCSD : M unit :=
  s <- gets emmc ;;
  let csd := csd (sdCard s) in
  modify (set_capacity (csd_capacity csd)) ;;;
  modify (set_fileFormat (Z.land (word csd 3) CSD3VN_FILE_FORMAT)).

(** ** [sdInit] *)
(** [if((resp = m)) return f(resp)] *)
Definition try (m : Prelude.M (emmc_st C) Z) (f : Z -> Prelude.M (emmc_st C) Z) (k : M Z) : M Z :=
  resp <- on_emmc m ;; if negb (resp =? 0) then on_emmc (f resp) else k.
Definition set_card_type (v : Z) : M unit := on_emmc (set_card (set_type v)).

(** From the identification of the card on. *)
Definition sdInit_identify (oldCID : list Z) : M Z :=
  c <- gets emmc ;;
  resp <- (if any (ocr (sdCard c)) R3_S18A then on_emmc sdSwitchVoltage else ret 0) ;;
  if negb (resp =? 0) then ret resp
  else
    try (sdSendCommand IX_ALL_SEND_CID) sdDebugResponse (
    try (sdSendCommand IX_SEND_REL_ADDR) sdDebugResponse (
    try (sdSendCommand IX_SEND_CSD) sdDebugResponse (
    sdParseCSD ;;;
    f <- gets fileFormat ;;
    if negb (f =? CSD3VN_FILE_FORMAT_DOSFAT) && negb (f =? CSD3VN_FILE_FORMAT_HDD) then ret SD_ERROR
    else
      v <- gets sdHostVer ;;
      try (sdSetClock v FREQ_NORMAL) sdDebugResponse (
      try (sdSendCommand IX_CARD_SELECT) sdDebugResponse (
      try sdReadSCR sdDebugResponse (
      c <- gets emmc ;;
      let four := any (support (sdCard c)) SD_SUPP_BUS_WIDTH_4 in
      try (if four then sdSendCommandA IX_SET_BUS_WIDTH (Z.lor (i32 (rca (sdCard c))) 2) else ret 0) sdDebugResponse (
      when four (on_emmc (or_reg EMMC_CONTROL0 C0_HCTL_DWITDH)) ;;;
      try (sdSendCommandA IX_SET_BLOCKLEN 512) sdDebugResponse (
      modify (set_init true) ;;;
      c <- gets emmc ;;
      ret (if bool_decide (oldCID = cid (sdCard c)) then SD_CARD_REINSERTED else SD_CARD_CHANGED))))))))).

(** The card is to be started again. *)
Definition sdInit_restart (oldCID : list Z) : M Z :=
  v <- on_emmc (rd EMMC_SLOTISR_VER) ;;
  modify (set_hostVer (Z.shiftr (Z.land v HOST_SPEC_NUM) HOST_SPEC_NUM_SHIFT)) ;;;
  resp <- sdGetBaseClock ;;
  if negb (resp =? 0) then ret resp
  else
    resp <- sdResetCard C1_SRST_HC ;;
    if negb (resp =? 0) then ret resp
    else
      resp <- on_emmc (sdSendCommandA IX_SEND_IF_COND 0x000001AA) ;;
      if resp =? SD_OK then
        try (sdAppSendOpCond ACMD41_ARG_HC) sdDebugResponse (
        c <- gets emmc ;;
        set_card_type (if any (ocr (sdCard c)) R3_CCS then SD_TYPE_2_HC else SD_TYPE_2_SC) ;;;
        sdInit_identify oldCID)
      else if resp =? SD_BUSY then ret resp
      else
        v <- on_emmc (rd EMMC_STATUS) ;;
        resp <- (if any v SR_CMD_INHIBIT then sdResetCard C1_SRST_HC else ret 0) ;;
        if negb (resp =? 0) then ret resp
        else
          try (sdAppSendOpCond ACMD41_ARG_SC) sdDebugResponse (
          set_card_type SD_TYPE_1 ;;;
          sdInit_identify oldCID).

Definition sdInit : M Z :=
  s <- gets (fun s => s) ;;
  when (negb (init s)) (on_emmc sdInitGPIO) ;;;
  v <- on_emmc (rd GPEDS1) ;;
  let cardEjected := any v (Z.shiftl 1 (47 - 32)) in
  modify (set_absent false) ;;;
  oldCID <- (if cardEjected && init s then modify (set_init false) ;;; c <- gets emmc ;; ret (cid (sdCard c)) else ret (replicate 4 0)) ;;
  i <- gets init ;;
  if i : bool then ret SD_OK else sdInit_restart oldCID.
End code.

(** ** Calls that return *)
(** From every state, with a result in [Q]; from the states of [P]. *)
Definition yields {S A} (Q : A -> Prop) (m : M S A) : Prop := forall s, exists a s', m s = Ret (a, s') /\ Q a.
Abbreviation returns := (yields (fun _ => True)).
Definition ends {S A} (P : S -> Prop) (m : M S A) (R : A -> S -> Prop) : Prop := forall s, P s -> exists a s', m s = Ret (a, s') /\ R a s'.

Section rules.
Context {S : Type}.
Lemma yields_ret {A} (Q : A -> Prop) a : Q a -> yields Q (ret a : M S A).
Proof. intros H s. by exists a, s. Qed.
Lemma yields_gets {A} (f : S -> A) : returns (gets f).
Proof. intros s. by exists (f s), s. Qed.
Lemma yields_modify (f : S -> S) : returns (modify f).
Proof. intros s. by exists tt, (f s). Qed.
Lemma yields_bind {A B} (P : A -> Prop) (Q : B -> Prop) (m : M S A) (k : A -> M S B) : yields P m -> (forall a, P a -> yields Q (k a)) -> yields Q (bind m k).
Proof. intros Hm Hk s. destruct (Hm s) as (a & s1 & E & Ha). destruct (Hk a Ha s1) as (b & s2 & E2 & Hb). exists b, s2. by rewrite (bind_Ret _ _ _ _ _ E). Qed.
Lemma yields_if {A} (Q : A -> Prop) (b : bool) (m n : M S A) : yields Q m -> yields Q n -> yields Q (if b then m else n).
Proof. by destruct b. Qed.
Lemma yields_zoom {T A} (Q : A -> Prop) (get : S -> T) (set : T -> S -> S) (m : M T A) : yields Q m -> yields Q (zoom get set m).
Proof. intros H s. destruct (H (get s)) as (a & t & E & Ha). exists a, (set t s). split; [by apply zoom_Ret|done]. Qed.
Lemma yields_any {A} (Q : A -> Prop) (m : M S A) : yields Q m -> returns m.
Proof. intros H s. destruct (H s) as (a & s' & E & _). by exists a, s'. Qed.

(** A turn of a loop whose variable gets smaller, where [P] holds of it. *)
Definition shrinks {A B} (P : A -> Prop) (f : A -> nat) (a : A) (m : M S (A + B)) : Prop :=
  yields (fun r => match r with inl a' => P a' /\ (f a' < f a)%nat | inr _ => True end) m.
Lemma returns_while {A B} (P : A -> Prop) (f : A -> nat) (body : A -> M S (A + B)) n a : (forall a, P a -> shrinks P f a (body a)) -> P a -> (f a < n)%nat -> returns (while n body a).
Proof.
  intros Hb. revert a. induction n as [|n IH]; intros a Ha Hn s; [lia|]. rewrite while_S. destruct (Hb a Ha s) as (r & s1 & E & Hr). rewrite (bind_Ret _ _ _ _ _ E).
  destruct r as [a'|b]; [apply IH; [tauto|lia]|by exists b, s1].
Qed.
End rules.

Create HintDb returns discriminated.
#[export] Hint Constants Opaque : returns.
#[export] Hint Resolve yields_gets yields_modify : returns.
#[export] Hint Extern 1 (yields _ (ret _)) => apply yields_ret; exact I : returns.
(** Walks along the statements of a call; [auto] knows the calls in it. *)
Ltac returns_step := first
  [ solve [auto with returns]
  | match goal with
    | |- yields _ (bind _ _) => apply (yields_bind (fun _ => True)); [|intros ? _]
    | |- yields _ (if _ then _ else _) => apply yields_if
    | |- yields _ (when _ _) => apply yields_if
    | |- yields _ (match ?x with _ => _ end) => destruct x
    end ].
Ltac returns_walk := repeat (cbv zeta; returns_step).

(** ** Results *)
(** No result of a command is one of the results of a successful start. *)
Definition code_ok (r : Z) : Prop := r <> SD_CARD_CHANGED /\ r <> SD_CARD_REINSERTED.

Lemma code_bit r : Z.testbit r 3 = false -> code_ok r.
Proof. intros H. split; intros ->; discriminate. Qed.
Lemma i32_bit x : Z.testbit (i32 x) 3 = Z.testbit x 3.
Proof.
  unfold i32, wraps. change (32 - 1) with 31. set (y := (x + 2 ^ 31) mod 2 ^ 32 - 2 ^ 31).
  assert (E : y mod 2 ^ 31 = x mod 2 ^ 31).
  { unfold y. rewrite <- (Z.mod_add (_ - _) 1), Z.mul_1_l, Z.sub_add by lia. change (2 ^ 32) with (2 ^ 31 * 2). rewrite Z.rem_mul_r by lia.
    rewrite (Z.mul_comm (2 ^ 31)), Z.mod_add, Z.mod_mod, <- (Z.mod_add x 1) by lia. by rewrite Z.mul_1_l. }
  rewrite <- (Z.mod_pow2_bits_low y 31 3), <- (Z.mod_pow2_bits_low x 31 3) by lia. by rewrite E.
Qed.

Section start.
Context {C : Type} {E : Emmc C} (clock_rate : M C Z).
Context (Hread : forall r, returns (reg_read r)) (Hwrite : forall r v, returns (reg_write r v)) (Hdelay : forall us, returns (delay_us us)) (Hclock : returns clock_rate).
Abbreviation st := (init_st C).

Lemma rd_returns r : returns (rd r).
Proof using Hread. by apply yields_zoom, Hread. Qed.
Lemma wr_returns r v : returns (wr r v).
Proof using Hwrite. by apply yields_zoom, Hwrite. Qed.
Lemma delay_returns c : returns (sd_delayus c).
Proof using Hdelay. by apply yields_zoom, Hdelay. Qed.
Lemma card_returns f : returns (set_card (C := C) f).
Proof using. apply yields_modify. Qed.
Hint Resolve rd_returns wr_returns delay_returns card_returns : returns.

Lemma printed_returns l : returns (printed l).
Proof using Hread. unfold printed. induction l as [|r l IH]; cbn [foldr]; returns_walk. Qed.
Hint Resolve printed_returns : returns.
Lemma debug_yields resp : yields (eq resp) (sdDebugResponse resp).
Proof using Hread. apply (yields_bind (fun _ => True)); [apply printed_returns|]. intros _ _. by apply yields_ret. Qed.
Lemma or_returns r v : returns (or_reg r v).
Proof using Hread Hwrite. unfold or_reg. returns_walk. Qed.
Lemma and_returns r v : returns (and_reg r v).
Proof using Hread Hwrite. unfold and_reg. returns_walk. Qed.
Hint Resolve debug_yields or_returns and_returns : returns.

(** ** The waits *)
(** A turn, statement by statement. *)
Ltac shrinks_walk := unfold shrinks; repeat first
  [ match goal with |- yields _ (ret _) => apply yields_ret; solve [exact I | split; lia] end
  | match goal with |- yields _ (bind _ _) => apply (yields_bind (fun _ => True)); [solve [returns_walk]|intros ? _] end
  | match goal with |- yields _ (if ?b then _ else _) => destruct b eqn:?H end
  | progress cbv zeta
  | match goal with H : (_ =? _) = _ |- _ => (apply Z.eqb_eq in H; subst) || apply Z.eqb_neq in H | H : (_ <? _) = _ |- _ => apply Z.ltb_lt in H || apply Z.ltb_ge in H end ].

Lemma wait_returns c count : returns c -> 0 <= count -> returns (wait_while c count).
Proof using Hdelay. intros Hc H0. apply (returns_while (fun x => 0 <= x) Z.to_nat); [|done|lia]. intros x Hx. unfold wait_turn. shrinks_walk. Qed.
Lemma wait10_returns c : returns c -> returns (wait10 c).
Proof using Hdelay. intros Hc. apply (returns_while (fun x => 0 <= x) Z.to_nat); [|lia|lia]. intros x Hx. unfold wait10_turn. shrinks_walk. Qed.
Lemma predec_returns c : returns c -> returns (while (Z.to_nat 100000) (predec_turn c) 100000).
Proof using Hdelay. intros Hc. apply (returns_while (fun x => 0 < x) (fun x => Z.to_nat (x - 1))); [|lia|lia]. intros x Hx. unfold predec_turn. shrinks_walk. Qed.
Hint Extern 1 (yields _ (wait10 _)) => apply wait10_returns; solve [returns_walk] : returns.
Hint Extern 1 (yields _ (while _ (predec_turn _) _)) => apply predec_returns; solve [returns_walk] : returns.
Lemma wait_count_returns c : returns c -> returns (wait_while c wait_count).
Proof using Hdelay. intros Hc. apply wait_returns; [done|unfold wait_count; lia]. Qed.
Hint Extern 1 (yields _ (wait_while _ _)) => apply wait_count_returns; solve [returns_walk] : returns.
Lemma busy_returns inhibit : returns (busy inhibit).
Proof using Hread. unfold busy. returns_walk. Qed.
Hint Resolve busy_returns : returns.
Lemma data_wait_returns : returns (while (Z.to_nat 500001) data_turn 0).
Proof using Hread Hdelay. apply (returns_while (fun x => 0 <= x <= 500000) (fun x => Z.to_nat (500000 - x))); [|lia|lia]. intros x Hx. unfold data_turn. shrinks_walk. Qed.
Lemma scr_wait_returns : returns (while (Z.to_nat 100003) scr_turn (0, 100000)).
Proof using Hread Hdelay.
  apply (returns_while (fun st => 0 <= st.1 <= 2 /\ 0 < st.2) (fun st => Z.to_nat (2 - st.1 + st.2))); [|cbn; lia|cbn; lia]. intros [i x] [Hi Hx]. cbn [fst snd] in *. unfold scr_turn. shrinks_walk.
  all: apply yields_ret. 2: destruct (x - 1 =? 0) eqn:Ex; [done|apply Z.eqb_neq in Ex]. all: cbn; lia.
Qed.
Hint Resolve data_wait_returns scr_wait_returns : returns.

(** ** Commands *)
Ltac code := first [exact I | split; discriminate | done | match goal with |- context [if ?b then _ else _] => destruct b; code end].
Hint Extern 2 (yields code_ok (ret _)) => apply yields_ret; code : returns.

Lemma interrupt_code mask : yields code_ok (sdWaitForInterrupt mask).
Proof using Hread Hwrite Hdelay. unfold sdWaitForInterrupt. returns_walk. Qed.
Lemma command_code : yields code_ok sdWaitForCommand.
Proof using Hread Hdelay. unfold sdWaitForCommand. returns_walk. Qed.
Lemma data_code : yields code_ok sdWaitForData.
Proof using Hread Hdelay. unfold sdWaitForData. returns_walk. Qed.
Lemma resp_code k arg resp0 : yields code_ok (handle_resp k arg resp0).
Proof using Hread.
  unfold handle_resp, store_state. destruct k; returns_walk; apply yields_ret.
  1,2: apply code_bit; by rewrite Z.land_spec, andb_false_r.
  apply code_bit. by rewrite i32_bit, Z.land_spec, andb_false_r.
Qed.
Lemma interrupt_any mask : returns (sdWaitForInterrupt mask).
Proof using Hread Hwrite Hdelay. eapply yields_any, interrupt_code. Qed.
Lemma command_any : returns sdWaitForCommand.
Proof using Hread Hdelay. eapply yields_any, command_code. Qed.
Lemma data_any : returns sdWaitForData.
Proof using Hread Hdelay. eapply yields_any, data_code. Qed.
Hint Resolve interrupt_code resp_code interrupt_any command_any data_any : returns.

(** [resp = m; if(resp) return resp]: the result of [m] may be returned. *)
Lemma code_bind {S A} (Q : A -> Prop) (m : Prelude.M S Z) (k : Z -> Prelude.M S A) : yields code_ok m -> (forall r, code_ok r -> yields Q (k r)) -> yields Q (bind m k).
Proof using. apply yields_bind. Qed.
Lemma code_fail {S} (r : Z) : code_ok r -> yields code_ok (ret r : Prelude.M S Z).
Proof using. apply yields_ret. Qed.
Lemma code_debug r : code_ok r -> yields code_ok (sdDebugResponse r).
Proof using Hread. intros H s. destruct (debug_yields r s) as (a & s' & Ea & <-). by exists r, s'. Qed.
Hint Resolve code_fail code_debug : returns.
Ltac code_walk := repeat (cbv zeta; first
  [ solve [auto with returns]
  | match goal with
    | |- yields _ (bind _ _) => apply code_bind; [solve [auto with returns]|intros ? ?]
    | |- yields code_ok (ret _) => apply yields_ret; code
    end
  | returns_step ]).

Lemma sendP_code index arg : is_Some (sdCommandTable !! Z.to_nat index) -> yields code_ok (sdSendCommandP index arg).
Proof using Hread Hwrite Hdelay. intros [cmd E1]. unfold sdSendCommandP. rewrite E1. code_walk. Qed.
Hint Extern 1 (yields code_ok (sdSendCommandP _ _)) => apply sendP_code; first [assumption|by eexists] : returns.
Hint Extern 1 (yields _ (sdSendCommandP _ _)) => eapply yields_any, sendP_code; first [assumption|by eexists] : returns.
Lemma app_code : yields code_ok sdSendAppCommand.
Proof using Hread Hwrite Hdelay. unfold sdSendAppCommand. code_walk. Qed.
Hint Resolve app_code : returns.
Lemma send_code index a : is_Some (sdCommandTable !! Z.to_nat index) -> returns a -> yields code_ok (send_with index a).
Proof using Hread Hwrite Hdelay.
  intros Hi Ha. unfold send_with. apply code_bind; [apply yields_if; code_walk|]. intros r Hr. apply yields_if; [code_walk|].
  apply (yields_bind (fun _ => True)); [done|]. intros v _. code_walk.
Qed.
Lemma send_command_code index : is_Some (sdCommandTable !! Z.to_nat index) -> yields code_ok (sdSendCommand index).
Proof using Hread Hwrite Hdelay. intros Hi. unfold sdSendCommand. apply send_code; [done|]. destruct Hi as [cmd ->]. returns_walk. Qed.
Lemma send_commandA_code index arg : is_Some (sdCommandTable !! Z.to_nat index) -> yields code_ok (sdSendCommandA index arg).
Proof using Hread Hwrite Hdelay. intros Hi. unfold sdSendCommandA. apply send_code; [done|]. by apply yields_ret. Qed.
Hint Extern 1 (yields code_ok (sdSendCommand _)) => apply send_command_code; by eexists : returns.
Hint Extern 1 (yields code_ok (sdSendCommandA _ _)) => apply send_commandA_code; by eexists : returns.

Lemma support_returns bit flag : returns (add_support (C := C) bit flag).
Proof using. apply yields_modify. Qed.
Hint Resolve support_returns : returns.
Lemma scr_code : yields code_ok sdReadSCR.
Proof using Hread Hwrite Hdelay. unfold sdReadSCR. code_walk. Qed.
Lemma clock_code v freq : yields code_ok (sdSetClock v freq).
Proof using Hread Hwrite Hdelay. unfold sdSetClock. code_walk. Qed.
Definition code_opt (r : option Z) : Prop := match r with Some e => code_ok e | None => True end.
Lemma op_cond_once_code arg : yields code_opt (op_cond_once arg).
Proof using Hread Hwrite Hdelay. unfold op_cond_once. apply code_bind; [auto with returns|]. intros r Hr. apply yields_ret. by destruct (_ && _). Qed.
Lemma op_cond_loop_code n arg : yields code_opt (op_cond_loop n arg).
Proof using Hread Hwrite Hdelay.
  induction n as [|n IH]; cbn [op_cond_loop]; (apply (yields_bind (fun _ => True)); [apply yields_gets|]; intros c _; apply yields_if; [by apply yields_ret|]); [by apply yields_ret|].
  apply (yields_bind (fun _ => True)); [apply printed_returns|]. intros _ _. apply (yields_bind code_opt); [apply op_cond_once_code|]. intros [e|] He; [by apply yields_ret|exact IH].
Qed.
Lemma op_cond_code arg : yields code_ok (sdAppSendOpCond arg).
Proof using Hread Hwrite Hdelay.
  unfold sdAppSendOpCond. apply (yields_bind (fun _ => True)); [apply printed_returns|]. intros _ _.
  apply (yields_bind code_opt); [apply op_cond_once_code|]. intros [e|] He; [by apply yields_ret|].
  apply (yields_bind code_opt); [apply op_cond_loop_code|]. intros [e'|] He'; [by apply yields_ret|]. code_walk.
Qed.
Lemma gpio_returns : returns sdInitGPIO.
Proof using Hread Hwrite. unfold sdInitGPIO, pull_up. returns_walk. Qed.
Hint Resolve scr_code clock_code op_cond_code gpio_returns : returns.

(** ** The flag [init] *)
Section flag.
Context {A : Type}.
Implicit Types (b : bool) (R : A -> st -> Prop).
Abbreviation flag b := (fun s : st => init s = b).

Lemma ends_emmc {B} b (Q : B -> Prop) (m : Prelude.M (emmc_st C) B) (k : B -> Prelude.M st A) R : yields Q m -> (forall a, Q a -> ends (flag b) (k a) R) -> ends (flag b) (bind (on_emmc m) k) R.
Proof using.
  intros Hm Hk s Hs. destruct (Hm (emmc s)) as (a & e & Ea & Ha). rewrite (bind_Ret (on_emmc m) k s a (set_emmc e s)) by by apply zoom_Ret. by apply Hk.
Qed.
Lemma ends_modify b b' f (k : unit -> Prelude.M st A) R : (forall s, init s = b -> init (f s) = b') -> ends (flag b') (k tt) R -> ends (flag b) (bind (modify f) k) R.
Proof using. intros Hf Hk s Hs. rewrite (bind_Ret (modify f) k s tt (f s) eq_refl). apply Hk, Hf, Hs. Qed.
Lemma ends_gets {B} b (f : st -> B) (k : B -> Prelude.M st A) R : (forall s, init s = b -> ends (flag b) (k (f s)) R) -> ends (flag b) (bind (gets f) k) R.
Proof using. intros Hk s Hs. rewrite (bind_Ret (gets f) k s (f s) s eq_refl). by apply Hk. Qed.
Lemma ends_ret b a R : (forall s, init s = b -> R a s) -> ends (flag b) (ret a) R.
Proof using. intros H s Hs. exists a, s. auto. Qed.
Lemma ends_bind {B} b b' (Q : B -> Prop) (m : Prelude.M st B) (k : B -> Prelude.M st A) R : ends (flag b) m (fun a s => Q a /\ init s = b') -> (forall a, Q a -> ends (flag b') (k a) R) -> ends (flag b) (bind m k) R.
Proof using. intros Hm Hk s Hs. destruct (Hm s Hs) as (a & s1 & Ea & Ha & H1). rewrite (bind_Ret m k s a s1 Ea). by apply Hk. Qed.
End flag.
Abbreviation off := (fun s : st => init s = false).

(** A result of [sdInit] that is an error. *)
Definition failure (r : Z) : Prop := r <> SD_OK /\ code_ok r.
Definition started (r : Z) (s : st) : Prop := init s = true /\ (r = SD_CARD_CHANGED \/ r = SD_CARD_REINSERTED) \/ init s = false /\ failure r.

Lemma fails r : (r =? 0) = false -> code_ok r -> ends off (ret r) started.
Proof using. intros Hr Hc. apply ends_ret. intros s Hs. right. apply Z.eqb_neq in Hr. done. Qed.
Lemma fails_emmc r (m : Prelude.M (emmc_st C) Z) : (r =? 0) = false -> code_ok r -> yields (eq r) m -> ends off (on_emmc m) started.
Proof using.
  intros Hr Hc Hm s Hs. destruct (Hm (emmc s)) as (a & e & Ea & <-). exists r, (set_emmc e s). split; [by apply zoom_Ret|]. right. apply Z.eqb_neq in Hr. done.
Qed.
Lemma try_ends m (k : Prelude.M st Z) : yields code_ok m -> ends off k started -> ends off (try m sdDebugResponse k) started.
Proof using Hread.
  intros Hm Hk. unfold try. apply (ends_emmc _ code_ok); [done|]. intros r Hr. destruct (r =? 0) eqn:Er; cbn [negb]; [done|]. apply (fails_emmc r); [done|done|apply debug_yields].
Qed.
Lemma card_type_ends v (k : Prelude.M st Z) : ends off k started -> ends off (set_card_type v ;;; k) started.
Proof using. intros Hk. apply (ends_emmc _ (fun _ => True)); [apply card_returns|done]. Qed.

Lemma reset_ends t : ends off (sdResetCard t) (fun r s => code_ok r /\ init s = false).
Proof using Hread Hwrite Hdelay.
  unfold sdResetCard. apply (ends_emmc _ (fun _ => True)); [returns_walk|]. intros count _. destruct (count <=? 0); [by apply ends_ret; intros s Hs|].
  apply (ends_emmc _ (fun _ => True)); [returns_walk|]. intros _ _. apply ends_gets. intros s _. apply (ends_emmc _ code_ok); [apply clock_code|]. intros r Hr.
  destruct (r =? 0); cbn [negb]; [|by apply ends_ret].
  do 2 (apply (ends_emmc _ (fun _ => True)); [returns_walk|]; intros _ _). apply (ends_modify _ false); [done|].
  intros s1 H1. destruct (send_command_code IX_GO_IDLE_STATE ltac:(by eexists) (emmc s1)) as (a & e & Ea & Ha). exists a, (set_emmc e s1). split; [by apply zoom_Ret|done].
Qed.
Lemma parse_ends : ends off sdParseCSD (fun _ s => True /\ init s = false).
Proof using. intros s Hs. unfold sdParseCSD. rewrite (bind_Ret (gets emmc) _ s (emmc s) s eq_refl). eexists tt, _. split; [reflexivity|done]. Qed.
Lemma identify_ends old : ends off (sdInit_identify old) started.
Proof using Hread Hwrite Hdelay.
  unfold sdInit_identify. apply ends_gets. intros s _. apply (ends_bind _ false (eq 0)).
  { destruct (any _ _); [|by apply ends_ret]. intros s1 H1. by exists 0, (set_emmc (emmc s1) s1). }
  intros r <-. cbn [negb Z.eqb]. do 3 (apply try_ends; [auto with returns|]). apply (ends_bind _ false (fun _ => True)); [apply parse_ends|]. intros _ _.
  apply ends_gets. intros s2 _. destruct (_ && _); [by apply fails; [|code]|]. apply ends_gets. intros s3 _.
  do 3 (apply try_ends; [auto with returns|]). apply ends_gets. intros s4 _. apply try_ends; [destruct (any _ _); auto with returns|].
  apply (ends_bind _ false (fun _ => True)).
  { intros s5 H5. destruct (any _ _); [|by exists tt, s5]. destruct (or_returns EMMC_CONTROL0 C0_HCTL_DWITDH (emmc s5)) as (u & e & Ee & _). exists u, (set_emmc e s5). split; [by apply zoom_Ret|done]. }
  intros _ _. apply try_ends; [auto with returns|]. apply (ends_modify _ true); [done|]. apply ends_gets. intros s6 _. apply ends_ret. intros s7 H7. left. split; [done|]. destruct (bool_decide _); auto.
Qed.

Lemma base_clock_ends : ends off (sdGetBaseClock clock_rate) (fun r s => code_ok r /\ init s = false).
Proof using Hclock.
  unfold sdGetBaseClock. apply (ends_emmc _ (fun _ => True)); [apply yields_zoom, Hclock|]. intros r _. apply (ends_modify _ false); [done|]. apply ends_ret. intros s Hs. split; [|done]. code.
Qed.
Lemma restart_ends old : ends off (sdInit_restart clock_rate old) started.
Proof using Hread Hwrite Hdelay Hclock.
  unfold sdInit_restart. apply (ends_emmc _ (fun _ => True)); [auto with returns|]. intros v _. apply (ends_modify _ false); [done|].
  apply (ends_bind _ false code_ok); [apply base_clock_ends|]. intros r Hr. destruct (r =? 0) eqn:Er; cbn [negb]; [|by apply fails].
  apply (ends_bind _ false code_ok); [apply reset_ends|]. intros r1 Hr1. destruct (r1 =? 0) eqn:Er1; cbn [negb]; [|by apply fails].
  apply (ends_emmc _ code_ok); [auto with returns|]. intros r2 Hr2. destruct (r2 =? SD_OK) eqn:Er2.
  { apply try_ends; [auto with returns|]. apply ends_gets. intros s _. apply card_type_ends, identify_ends. }
  destruct (r2 =? SD_BUSY); [by apply fails|]. apply (ends_emmc _ (fun _ => True)); [auto with returns|]. intros v1 _.
  apply (ends_bind _ false code_ok); [destruct (any _ _); [apply reset_ends|by apply ends_ret; intros s Hs; split; [code|]]|].
  intros r3 Hr3. destruct (r3 =? 0) eqn:Er3; cbn [negb]; [|by apply fails]. apply try_ends; [auto with returns|]. apply card_type_ends, identify_ends.
Qed.

(** C40: whatever the registers of the controller and the mailbox answer, as
    long as the accesses return, [sdInit] returns, and it leaves the card
    marked as initialised exactly if it returns [SD_OK], which it does only
    for a card that it found initialised, [SD_CARD_CHANGED] or
    [SD_CARD_REINSERTED]. *)
Theorem sd_init_ends (s : st) :
  exists r s', sdInit clock_rate s = Ret (r, s') /\
    (init s' = true <-> r = SD_OK \/ r = SD_CARD_CHANGED \/ r = SD_CARD_REINSERTED) /\ (r = SD_OK -> init s = true).
Proof using Hread Hwrite Hdelay Hclock.
  set (b := init s). assert (H : ends (fun s1 => init s1 = b) (sdInit clock_rate) (fun r s' => started r s' \/ r = SD_OK /\ b = true /\ init s' = true)).
  2: { destruct (H s eq_refl) as (r & s' & Er & Hr). exists r, s'. split; [exact Er|]. destruct Hr as [[[Hi Hr]|(Hi & Hne & Hc & Hc')]|(-> & Hs & Hi)]; rewrite Hi; [|intuition congruence|tauto].
       split; [tauto|]. destruct Hr as [-> | ->]; discriminate. }
  unfold sdInit. apply ends_gets. intros s0 ->. clearbody b.
  apply (ends_bind _ b (fun _ => True)).
  { intros s1 H1. destruct b; [by exists tt, s1|]. destruct (gpio_returns (emmc s1)) as (u & e & Ee & _). exists u, (set_emmc e s1). split; [by apply zoom_Ret|done]. }
  intros _ _. apply (ends_emmc _ (fun _ => True)); [auto with returns|]. intros v _. apply (ends_modify _ b); [done|].
  assert (Hoff : forall old, ends off (i <- gets init ;; if i : bool then ret SD_OK else sdInit_restart clock_rate old) (fun r s' => started r s' \/ r = SD_OK /\ b = true /\ init s' = true)).
  { intros old. apply ends_gets. intros s1 ->. intros s2 H2. destruct (restart_ends old s2 H2) as (r & s3 & E3 & H3). eauto. }
  destruct b; [|rewrite andb_false_r; apply (ends_bind _ false (fun _ => True)); [by apply ends_ret|auto]].
  destruct (any v _); cbn [andb].
  - apply (ends_bind _ false (fun _ => True)); [|auto]. apply (ends_modify _ false); [done|]. apply ends_gets. intros s1 _. by apply ends_ret.
  - apply (ends_bind _ true (fun _ => True)); [by apply ends_ret|]. intros old _. apply ends_gets. intros s1 ->. apply ends_ret. auto.
Qed.
End start.

(** ** A card that answers *)
(** The state is the last command; no command fails or waits. *)
Definition card_resp (code : Z) : Z :=
  match Z.shiftr code 24 with 0x08 => 0x1AA | 0x29 => 0xc0ff8000 | 0x03 => 0x45670000 | _ => 0x920 end.
Definition card_read (r : Z) : M Z Z :=
  fun code => Ret (if r =? EMMC_INTERRUPT then Z.lor INT_CMD_DONE INT_READ_RDY
                   else if r =? EMMC_STATUS then SR_READ_AVAILABLE
                   else if r =? EMMC_CONTROL1 then C1_CLK_STABLE
                   else if r =? EMMC_RESP0 then card_resp code
                   else if r =? EMMC_DATA then SCR_SD_BUS_WIDTH_4 else 7, code).
#[local] Instance card : Emmc Z := {| reg_read := card_read; reg_write r v := modify (fun code => if r =? EMMC_CMDTM then v else code); delay_us _ := ret tt |}.
Definition unused : init_st Z := mkInit (mkEmmc 0 (mkSD [] [] (replicate 2 0) 0 0 0 0 0 0 (-1) 0)) 0 false false 0 0 0 0.

Example card_starts : match sdInit (ret 41666666) unused with Ret (r, s) => r = SD_CARD_CHANGED /\ sd_type (sdCard (emmc s)) = SD_TYPE_2_HC | Stop _ => False end.
Proof. vm_compute. done. Qed.

Lemma sd_init_ends_witness : exists r s', sdInit (ret 41666666) unused = Ret (r, s') /\ r <> SD_OK.
Proof.
  assert (Hr : forall r, returns (reg_read (C := Z) r)) by (intros r s; by eexists _, s).
  assert (Hw : forall r v, returns (reg_write (C := Z) r v)) by (intros r v s; by eexists tt, _).
  assert (Hd : forall us, returns (delay_us (C := Z) us)) by (intros us s; by exists tt, s).
  assert (Hc : returns (ret 41666666 : M Z Z)) by (intros s; by exists 41666666, s).
  destruct (sd_init_ends (ret 41666666) Hr Hw Hd Hc unused) as (r & s' & Er & _ & H).
  exists r, s'. split; [exact Er|]. intros E. discriminate (H E).
Defined.
