(* ===== verification/Trap.v ===== *)
(** * Traps and interrupts (aarch64/trap.c, driver/interrupt.c, driver/clock.c)

    The state [S] is that of the whole kernel; [tbl] and [set_tbl] are its
    table of interrupt handlers and the handler of the clock, which are named
    by numbers: [call h] is the call of the handler [h]. Registers of the
    interrupt controller are read and written by [device_get_u32] and
    [device_put_u32]. Serving an interrupt is compared with [serve], which
    goes through the list of pending interrupts. *)
From stdpp Require Import base list.
From Stdlib Require Import ZArith Lia.
From S2P Require Import Prelude.

Definition NUM_IRQ_TYPES : Z := 64.
Definition IRQ_SDIO : Z := 56.
Definition IRQ_ARASANSDIO : Z := 62.
Definition MMIO_BASE : Z := 0xffff00003F000000.
Definition LOCAL_BASE : Z := 0xffff000040000000.
Definition IRQ_PENDING_1 : Z := MMIO_BASE + 0xB204.
Definition IRQ_PENDING_2 : Z := MMIO_BASE + 0xB208.
Definition ENABLE_IRQS_1 : Z := MMIO_BASE + 0xB210.
Definition GPU_INT_ROUTE : Z := LOCAL_BASE + 0xC.
Definition GPU_IRQ2CORE (i : Z) : Z := i.
Definition IRQ_SRC_CORE (i : Z) : Z := LOCAL_BASE + 0x60 + 4 * i.
Definition CORE_CLOCK_CTRL (id : Z) : Z := LOCAL_BASE + 0x40 + 4 * id.
Definition CORE_CLOCK_ENABLE : Z := Z.shiftl 1 1.
Definition IRQ_SRC_GPU : Z := Z.shiftl 1 8.
Definition IRQ_SRC_CNTPNSIRQ : Z := Z.shiftl 1 1.

Definition ESR_EC_SHIFT : Z := 26.
Definition ESR_ISS_MASK : Z := 0xFFFFFF.
Definition ESR_IR_MASK : Z := Z.shiftl 1 25.
Definition ESR_EC_UNKNOWN : Z := 0x00.
Definition ESR_EC_SVC64 : Z := 0x15.
Definition ESR_EC_IABORT_EL0 : Z := 0x20.
Definition ESR_EC_IABORT_EL1 : Z := 0x21.
Definition ESR_EC_DABORT_EL0 : Z := 0x24.
Definition ESR_EC_DABORT_EL1 : Z := 0x25.

Record table := mkTable { int_handler : list (option Z); clock_handler : option Z; one_ms : Z }.

Section code.
Context {S : Type} (tbl : S -> table) (set_tbl : table -> S -> S) (call : Z -> M S unit).
Context (device_get_u32 : Z -> M S Z) (device_put_u32 : Z -> Z -> M S unit) (cpuid : Z).

(** ** The clock *)
(** The registers of the timer: its frequency, its count, and the writes that
    enable it and set the countdown. *)
Context (get_clock_frequency get_timestamp : M S Z) (set_cntp_ctl set_cntp_tval : Z -> M S unit).
Definition reset_clock (countdown_ms : Z) : M S unit :=
  c <- gets tbl ;;
  let t := u64 (countdown_ms * one_ms c) in
  assert (t <=? 0x7fffffff) ;;; set_cntp_tval t.
Definition init_clock : M S unit :=
  f <- get_clock_frequency ;;
  modify (fun s => set_tbl (mkTable (int_handler (tbl s)) (clock_handler (tbl s)) (f / 1000)) s) ;;;
  set_cntp_ctl 1 ;;;
  reset_clock 1000 ;;;
  device_put_u32 (CORE_CLOCK_CTRL cpuid) CORE_CLOCK_ENABLE.
Definition get_timestamp_ms : M S Z := t <- get_timestamp ;; c <- gets tbl ;; ret (t / one_ms c).
Definition set_clock_handler (h : Z) : M S unit := modify (fun s => set_tbl (mkTable (int_handler (tbl s)) (Some h) (one_ms (tbl s))) s).
Definition invoke_clock_handler : M S unit :=
  t <- gets tbl ;; match clock_handler t with None => stop Panic | Some h => call h end.

(** ** Interrupts *)
Definition put_handler (i : Z) (h : option Z) : M S unit :=
  fun s => if (Z.to_nat i <? length (int_handler (tbl s)))%nat
           then Ret (tt, set_tbl (mkTable (<[Z.to_nat i := h]> (int_handler (tbl s))) (clock_handler (tbl s)) (one_ms (tbl s))) s) else Stop Fault.
Definition init_interrupt : M S unit :=
  for_upto (Z.to_nat NUM_IRQ_TYPES) 0 (fun i => put_handler i None ;;; ret (@None unit)) ;;;
  device_put_u32 GPU_INT_ROUTE (GPU_IRQ2CORE 0).
Definition set_interrupt_handler (type handler : Z) : M S unit :=
  device_put_u32 (ENABLE_IRQS_1 + 4 * (type / 32)) (u32 (Z.shiftl 1 (type mod 32))) ;;;
  put_handler type (Some handler).

Definition interrupt_turn (map i : Z) : M S (option unit) :=
  if Z.land (Z.shiftr map i) 1 =? 0 then ret None
  else
    t <- gets tbl ;;
    match int_handler t !! Z.to_nat i with
    | Some (Some h) => call h ;;; ret None
    | Some None => stop Panic
    | None => stop Fault
    end.
Definition interrupt_global_handler : M S unit :=
  source <- device_get_u32 (IRQ_SRC_CORE cpuid) ;;
  source <- (if negb (Z.land source IRQ_SRC_CNTPNSIRQ =? 0) then invoke_clock_handler ;;; ret (Z.lxor source IRQ_SRC_CNTPNSIRQ) else ret source) ;;
  source <- (if negb (Z.land source IRQ_SRC_GPU =? 0) then
               lo <- device_get_u32 IRQ_PENDING_1 ;;
               hi <- device_get_u32 IRQ_PENDING_2 ;;
               let map := Z.lor lo (u64 (Z.shiftl hi 32)) in
               for_upto (Z.to_nat NUM_IRQ_TYPES) 0 (interrupt_turn map) ;;;
               ret (Z.lxor source IRQ_SRC_GPU)
             else ret source) ;;
  if negb (source =? 0) then stop Panic else ret tt.

(** ** Traps *)
(** The exception syndrome, the calls of the handler and what it asks of the
    current process. *)
Context (arch_get_esr : M S Z) (arch_reset_esr : M S unit) (set_ucontext : Z -> M S unit) (syscall_entry : Z -> M S unit) (pgfault : Z -> M S Z).
Context (killed : M S bool) (elr : M S Z) (exit : Z -> M S unit).

Definition trap_global_handler (context : Z) : M S unit :=
  set_ucontext context ;;;
  esr <- arch_get_esr ;;
  let ec := Z.shiftr esr ESR_EC_SHIFT in
  let iss := Z.land esr ESR_ISS_MASK in
  let ir := Z.land esr ESR_IR_MASK in
  arch_reset_esr ;;;
  (if ec =? ESR_EC_UNKNOWN then if negb (ir =? 0) then stop Panic else interrupt_global_handler
   else if ec =? ESR_EC_SVC64 then syscall_entry context
   else if (ec =? ESR_EC_IABORT_EL0) || (ec =? ESR_EC_IABORT_EL1) || (ec =? ESR_EC_DABORT_EL0) || (ec =? ESR_EC_DABORT_EL1) then pgfault iss ;;; ret tt
   else stop Panic) ;;;
  k <- killed ;;
  e <- elr ;;
  when (k && (Z.shiftr e 48 =? 0)) (exit (-1)).
Definition trap_error_handler : M S unit := stop Panic.

(** ** Dispatch *)
Section dispatch.
(** The handlers and the reads of registers leave the table alone: handlers
    are set when the kernel starts. *)
Context (t : table) (Hlen : length (int_handler t) = Z.to_nat NUM_IRQ_TYPES).
Definition keeps {A} (m : M S A) : Prop := forall s a s', m s = Ret (a, s') -> tbl s = t -> tbl s' = t.
Context (Hcall : forall h, keeps (call h)) (Hget : forall r, keeps (device_get_u32 r)).

(** What is asked: the pending interrupts in order, each by its handler. *)
Definition pending (map : Z) : list Z := filter (fun i => Z.testbit map i = true) (seqZ 0 NUM_IRQ_TYPES).
Definition handler_of (i : Z) : option Z := mjoin (int_handler t !! Z.to_nat i).
Fixpoint serve_all (l : list Z) : M S unit :=
  match l with
  | [] => ret tt
  | i :: l => match handler_of i with Some h => call h ;;; serve_all l | None => stop Panic end
  end.
Definition serve_clock : M S unit := match clock_handler t with Some h => call h | None => stop Panic end.
Definition serve : M S unit :=
  source <- device_get_u32 (IRQ_SRC_CORE cpuid) ;;
  when (Z.testbit source 1) serve_clock ;;;
  when (Z.testbit source 8) (lo <- device_get_u32 IRQ_PENDING_1 ;; hi <- device_get_u32 IRQ_PENDING_2 ;; serve_all (pending (Z.lor lo (u64 (Z.shiftl hi 32))))) ;;;
  when (negb (Z.ldiff source (Z.lor IRQ_SRC_CNTPNSIRQ IRQ_SRC_GPU) =? 0)) (stop Panic).

Lemma bit_land a n : 0 <= n -> (Z.land a (Z.shiftl 1 n) =? 0) = negb (Z.testbit a n).
Proof using.
  intros Hn. rewrite Z.shiftl_1_l. destruct (Z.testbit a n) eqn:Ht; cbn [negb].
  - apply Z.eqb_neq. intros E. assert (Hb : Z.testbit (Z.land a (2 ^ n)) n = true) by (by rewrite Z.land_spec, Z.pow2_bits_true, Ht). by rewrite E, Z.bits_0 in Hb.
  - apply Z.eqb_eq, Z.bits_inj'. intros i Hi. rewrite Z.land_spec, Z.pow2_bits_eqb, Z.bits_0 by done. destruct (Z.eqb_spec n i) as [<-|]; [by rewrite Ht|apply andb_false_r].
Qed.

(** Clearing a bit that is set, and the source that is left at the end. *)
Lemma lxor_clears a n : 0 <= n -> Z.testbit a n = true -> Z.lxor a (Z.shiftl 1 n) = Z.ldiff a (Z.shiftl 1 n).
Proof using.
  intros Hn Ht. apply Z.bits_inj'. intros i Hi. rewrite Z.shiftl_1_l, Z.lxor_spec, Z.ldiff_spec, Z.pow2_bits_eqb by done.
  destruct (Z.eqb_spec n i) as [<-|]; [by rewrite Ht|by rewrite xorb_false_r, andb_true_r].
Qed.
Lemma ldiff_clear a n : 0 <= n -> Z.testbit a n = false -> Z.ldiff a (Z.shiftl 1 n) = a.
Proof using.
  intros Hn Ht. apply Z.bits_inj'. intros i Hi. rewrite Z.shiftl_1_l, Z.ldiff_spec, Z.pow2_bits_eqb by done.
  destruct (Z.eqb_spec n i) as [<-|]; [by rewrite Ht|by rewrite andb_true_r].
Qed.

Lemma turn_bit map i : 0 <= i -> (Z.land (Z.shiftr map i) 1 =? 0) = negb (Z.testbit map i).
Proof using. intros Hi. change 1 with (Z.shiftl 1 0). rewrite bit_land by done. by rewrite Z.shiftr_spec, Z.add_0_l. Qed.

(** The loop over the types of interrupts calls the handlers of the pending
    ones, in order, up to the first that has none. *)
Lemma turns_serve map n i s : 0 <= i -> i + Z.of_nat n = NUM_IRQ_TYPES -> tbl s = t ->
  for_upto n i (interrupt_turn map) s = (serve_all (filter (fun i => Z.testbit map i = true) (seqZ i (Z.of_nat n))) ;;; ret None) s.
Proof using Hlen Hcall.
  revert i s. induction n as [|n IH]; intros i s Hi Hn Ht; [done|]. cbn [for_upto]. rewrite seqZ_cons by lia. replace (Z.pred (Z.of_nat (Datatypes.S n))) with (Z.of_nat n) by lia.
  unfold interrupt_turn at 1. rewrite turn_bit by done. destruct (Z.testbit map i) eqn:Hb; cbn [negb].
  - rewrite filter_cons_True by done. cbn [serve_all]. rewrite bind_assoc, (bind_Ret (gets tbl) _ s (tbl s) s eq_refl), Ht. unfold handler_of.
    destruct (int_handler t !! Z.to_nat i) as [h|] eqn:Eh; [|apply lookup_ge_None in Eh; unfold NUM_IRQ_TYPES in *; lia].
    destruct h as [h|]; cbn [mjoin option_join]; [|done]. rewrite !bind_assoc. destruct (call h s) as [[[] s1]|r] eqn:E1; [|by rewrite !(bind_Stop _ _ _ _ E1)]. rewrite !(bind_Ret _ _ _ _ _ E1).
    rewrite (bind_Ret (ret None) _ s1 None s1 eq_refl). unfold Z.succ. apply IH; [lia|lia|by eapply Hcall].
  - rewrite filter_cons_False by congruence. rewrite (bind_Ret (ret None) _ s None s eq_refl). unfold Z.succ. apply IH; [lia|lia|done].
Qed.
Lemma serve_all_keeps l : keeps (serve_all l).
Proof using Hcall.
  induction l as [|i l IH]; intros s [] s' E Ht; cbn [serve_all] in E; [by injection E as <-|]. destruct (handler_of i); [|done].
  apply bind_inv in E as ([] & s1 & E1 & E2). apply (IH s1 tt s' E2). by eapply Hcall.
Qed.

(** The second half of the handler, where the bit of the clock is clear. *)
Lemma gpu_served source s : tbl s = t -> Z.testbit source 1 = false ->
  (source <- (if negb (Z.land source IRQ_SRC_GPU =? 0) then
                lo <- device_get_u32 IRQ_PENDING_1 ;; hi <- device_get_u32 IRQ_PENDING_2 ;;
                for_upto (Z.to_nat NUM_IRQ_TYPES) 0 (interrupt_turn (Z.lor lo (u64 (Z.shiftl hi 32)))) ;;; ret (Z.lxor source IRQ_SRC_GPU)
              else ret source) ;;
   if negb (source =? 0) then stop Panic else ret tt) s =
  (when (Z.testbit source 8) (lo <- device_get_u32 IRQ_PENDING_1 ;; hi <- device_get_u32 IRQ_PENDING_2 ;; serve_all (pending (Z.lor lo (u64 (Z.shiftl hi 32))))) ;;;
   when (negb (Z.ldiff source IRQ_SRC_GPU =? 0)) (stop Panic)) s.
Proof using Hlen Hcall Hget.
  intros Ht H1. unfold IRQ_SRC_GPU. rewrite bit_land, negb_involutive by done. destruct (Z.testbit source 8) eqn:H8; cbn [when].
  - rewrite !bind_assoc. destruct (device_get_u32 IRQ_PENDING_1 s) as [[lo s1]|r] eqn:E1; [|by rewrite !(bind_Stop _ _ _ _ E1)]. rewrite !(bind_Ret _ _ _ _ _ E1), !bind_assoc.
    destruct (device_get_u32 IRQ_PENDING_2 s1) as [[hi s2]|r] eqn:E2; [|by rewrite !(bind_Stop _ _ _ _ E2)]. rewrite !(bind_Ret _ _ _ _ _ E2), !bind_assoc.
    assert (T2 : tbl s2 = t) by (eapply Hget, Hget; eauto). set (map := Z.lor lo _).
    pose proof (turns_serve map (Z.to_nat NUM_IRQ_TYPES) 0 s2 ltac:(lia) ltac:(reflexivity) T2) as Hs. change (Z.of_nat (Z.to_nat NUM_IRQ_TYPES)) with NUM_IRQ_TYPES in Hs. fold (pending map) in Hs.
    destruct (serve_all (pending map) s2) as [[[] s3]|r] eqn:E3.
    + rewrite (bind_Ret _ _ _ _ _ E3) in Hs. rewrite (bind_Ret _ _ _ _ _ Hs), (bind_Ret _ _ _ _ _ E3). rewrite (bind_Ret (ret _) _ s3 _ s3 eq_refl), lxor_clears by done. by destruct (Z.ldiff _ _ =? 0).
    + rewrite (bind_Stop _ _ _ _ E3) in Hs. by rewrite (bind_Stop _ _ _ _ Hs), (bind_Stop _ _ _ _ E3).
  - rewrite (bind_Ret (ret source) _ s source s eq_refl), (bind_Ret (ret tt) _ s tt s eq_refl), ldiff_clear by done. by destruct (source =? 0).
Qed.

(** An interrupt is served: the clock's handler is called if the clock is
    a source, then the handler of every interrupt the controller reports as
    pending, from the lowest number up; a missing handler, or a source that
    is neither, is a panic, and nothing else happens. *)
Theorem interrupts_served s : tbl s = t -> interrupt_global_handler s = serve s.
Proof using Hlen Hcall Hget.
  intros Ht. unfold interrupt_global_handler, serve. destruct (device_get_u32 (IRQ_SRC_CORE cpuid) s) as [[source s1]|r] eqn:E1; [|by rewrite !(bind_Stop _ _ _ _ E1)].
  rewrite !(bind_Ret _ _ _ _ _ E1). assert (T1 : tbl s1 = t) by (by eapply Hget). unfold IRQ_SRC_CNTPNSIRQ at 1. rewrite bit_land, negb_involutive by done.
  assert (Hd : forall x, Z.ldiff (Z.ldiff source (Z.shiftl 1 1)) x = Z.ldiff source (Z.lor (Z.shiftl 1 1) x)).
  { intros x. apply Z.bits_inj'. intros i Hi. rewrite !Z.ldiff_spec, Z.lor_spec, negb_orb. by rewrite andb_assoc. }
  assert (H8 : Z.testbit (Z.ldiff source (Z.shiftl 1 1)) 8 = Z.testbit source 8) by (rewrite Z.ldiff_spec; apply andb_true_r).
  assert (H1 : Z.testbit (Z.ldiff source (Z.shiftl 1 1)) 1 = false) by (rewrite Z.ldiff_spec; apply andb_false_r).
  destruct (Z.testbit source 1) eqn:Hb; cbn [when].
  - rewrite bind_assoc. assert (Ec : invoke_clock_handler s1 = serve_clock s1) by (unfold invoke_clock_handler, serve_clock; rewrite (bind_Ret (gets tbl) _ s1 (tbl s1) s1 eq_refl), T1; done).
    destruct (serve_clock s1) as [[[] s2]|r] eqn:E2; [|by rewrite (bind_Stop _ _ _ _ Ec), (bind_Stop _ _ _ _ E2)]. rewrite (bind_Ret _ _ _ _ _ Ec), (bind_Ret _ _ _ _ _ E2), (bind_Ret (ret _) _ s2 _ s2 eq_refl).
    unfold IRQ_SRC_CNTPNSIRQ. rewrite lxor_clears by done. rewrite gpu_served by (done || (unfold serve_clock in E2; destruct (clock_handler t); [by eapply Hcall|done])). by rewrite H8, Hd.
  - rewrite (bind_Ret (ret source) _ s1 source s1 eq_refl), (bind_Ret (ret tt) _ s1 tt s1 eq_refl). unfold IRQ_SRC_CNTPNSIRQ. rewrite <- Hd, ldiff_clear by done. by apply gpu_served.
Qed.
End dispatch.

(** A killed process does not go back to user space: [exit] does not return,
    so a trap that returns has found the process alive or in the kernel. *)
Lemma killed_process_stopped context s u s' : (forall c s u s', exit c s <> Ret (u, s')) -> trap_global_handler context s = Ret (u, s') ->
  exists k e s1 s2, killed s1 = Ret (k, s2) /\ elr s2 = Ret (e, s') /\ k && (Z.shiftr e 48 =? 0) = false.
Proof using.
  intros Hexit H. unfold trap_global_handler in H. apply bind_inv in H as (u1 & a & _ & H). apply bind_inv in H as (esr & b & _ & H). cbv zeta in H.
  apply bind_inv in H as (u2 & c & _ & H). apply bind_inv in H as (u3 & s1 & _ & H). apply bind_inv in H as (k & s2 & Hk & H). apply bind_inv in H as (e & s3 & He & H).
  exists k, e, s1, s2. destruct (k && (Z.shiftr e 48 =? 0)) eqn:Ek; cbn [when] in H; [by apply Hexit in H|]. injection H as _ <-. done.
Qed.
End code.

(** ** The handlers of the kernel *)
(** The clock and the two interrupts of the SD controller are pending at
    once; the second part of the state is what was called. *)
Definition example_table : table := mkTable (<[56%nat := Some 3]> (<[62%nat := Some 4]> (replicate 64 None))) (Some 7) 62500.
Definition example_reads (r : Z) : M (table * list Z) Z :=
  ret (if r =? IRQ_SRC_CORE 0 then Z.lor IRQ_SRC_CNTPNSIRQ IRQ_SRC_GPU
       else if r =? IRQ_PENDING_2 then Z.lor (Z.shiftl 1 (IRQ_SDIO - 32)) (Z.shiftl 1 (IRQ_ARASANSDIO - 32)) else 0).
Definition example_call (h : Z) : M (table * list Z) unit := modify (fun s => (s.1, s.2 ++ [h])).

Lemma interrupts_served_witness : interrupt_global_handler fst example_call example_reads 0 (example_table, []) = Ret (tt, (example_table, [7; 3; 4])).
Proof.
  rewrite (interrupts_served fst example_call example_reads 0 example_table); [reflexivity|reflexivity| | |reflexivity].
  - intros h s u s' [= <- <-] Ht. exact Ht.
  - intros r s a s' [= <- <-] Ht. exact Ht.
Defined.
