(* ===== verification/KernelPT.v ===== *)
(** * The kernel's own page table (aarch64/kernel_pt.c)

    The table is data: three pages, filled by the compiler. [walk] follows it
    as the processor does, with the macros of mmu.h: an entry of the form
    [PTE_TABLE] leads to the next level, one of the form [PTE_BLOCK] maps the
    rest of the address. The two inner tables are at [l2] and [l3]. *)
From stdpp Require Import base list.
From Stdlib Require Import ZArith Lia.
From S2P Require Import Prelude Mmu.

Definition MT_DEVICE_nGnRnE := 0.
Definition PTE_BLOCK := 1.
Definition PTE_KERNEL := Z.shiftl 0 6.
Definition PTE_DEVICE := Z.lor (Z.shiftl MT_DEVICE_nGnRnE 2) AF_USED.
Definition PTE_KERNEL_DATA := Z.lor (Z.lor PTE_KERNEL PTE_NORMAL) PTE_BLOCK.
Definition PTE_KERNEL_DEVICE := Z.lor (Z.lor PTE_KERNEL PTE_DEVICE) PTE_BLOCK.

Definition _kernel_pt_level3 : list Z := [
  Z.lor 0x0 PTE_KERNEL_DATA; Z.lor 0x200000 PTE_KERNEL_DATA; Z.lor 0x400000 PTE_KERNEL_DATA; Z.lor 0x600000 PTE_KERNEL_DATA;
  Z.lor 0x800000 PTE_KERNEL_DATA; Z.lor 0xa00000 PTE_KERNEL_DATA; Z.lor 0xc00000 PTE_KERNEL_DATA; Z.lor 0xe00000 PTE_KERNEL_DATA;
  Z.lor 0x1000000 PTE_KERNEL_DATA; Z.lor 0x1200000 PTE_KERNEL_DATA; Z.lor 0x1400000 PTE_KERNEL_DATA; Z.lor 0x1600000 PTE_KERNEL_DATA;
  Z.lor 0x1800000 PTE_KERNEL_DATA; Z.lor 0x1a00000 PTE_KERNEL_DATA; Z.lor 0x1c00000 PTE_KERNEL_DATA; Z.lor 0x1e00000 PTE_KERNEL_DATA;
  Z.lor 0x2000000 PTE_KERNEL_DATA; Z.lor 0x2200000 PTE_KERNEL_DATA; Z.lor 0x2400000 PTE_KERNEL_DATA; Z.lor 0x2600000 PTE_KERNEL_DATA;
  Z.lor 0x2800000 PTE_KERNEL_DATA; Z.lor 0x2a00000 PTE_KERNEL_DATA; Z.lor 0x2c00000 PTE_KERNEL_DATA; Z.lor 0x2e00000 PTE_KERNEL_DATA;
  Z.lor 0x3000000 PTE_KERNEL_DATA; Z.lor 0x3200000 PTE_KERNEL_DATA; Z.lor 0x3400000 PTE_KERNEL_DATA; Z.lor 0x3600000 PTE_KERNEL_DATA;
  Z.lor 0x3800000 PTE_KERNEL_DATA; Z.lor 0x3a00000 PTE_KERNEL_DATA; Z.lor 0x3c00000 PTE_KERNEL_DATA; Z.lor 0x3e00000 PTE_KERNEL_DATA;
  Z.lor 0x4000000 PTE_KERNEL_DATA; Z.lor 0x4200000 PTE_KERNEL_DATA; Z.lor 0x4400000 PTE_KERNEL_DATA; Z.lor 0x4600000 PTE_KERNEL_DATA;
  Z.lor 0x4800000 PTE_KERNEL_DATA; Z.lor 0x4a00000 PTE_KERNEL_DATA; Z.lor 0x4c00000 PTE_KERNEL_DATA; Z.lor 0x4e00000 PTE_KERNEL_DATA;
  Z.lor 0x5000000 PTE_KERNEL_DATA; Z.lor 0x5200000 PTE_KERNEL_DATA; Z.lor 0x5400000 PTE_KERNEL_DATA; Z.lor 0x5600000 PTE_KERNEL_DATA;
  Z.lor 0x5800000 PTE_KERNEL_DATA; Z.lor 0x5a00000 PTE_KERNEL_DATA; Z.lor 0x5c00000 PTE_KERNEL_DATA; Z.lor 0x5e00000 PTE_KERNEL_DATA;
  Z.lor 0x6000000 PTE_KERNEL_DATA; Z.lor 0x6200000 PTE_KERNEL_DATA; Z.lor 0x6400000 PTE_KERNEL_DATA; Z.lor 0x6600000 PTE_KERNEL_DATA;
  Z.lor 0x6800000 PTE_KERNEL_DATA; Z.lor 0x6a00000 PTE_KERNEL_DATA; Z.lor 0x6c00000 PTE_KERNEL_DATA; Z.lor 0x6e00000 PTE_KERNEL_DATA;
  Z.lor 0x7000000 PTE_KERNEL_DATA; Z.lor 0x7200000 PTE_KERNEL_DATA; Z.lor 0x7400000 PTE_KERNEL_DATA; Z.lor 0x7600000 PTE_KERNEL_DATA;
  Z.lor 0x7800000 PTE_KERNEL_DATA; Z.lor 0x7a00000 PTE_KERNEL_DATA; Z.lor 0x7c00000 PTE_KERNEL_DATA; Z.lor 0x7e00000 PTE_KERNEL_DATA;
  Z.lor 0x8000000 PTE_KERNEL_DATA; Z.lor 0x8200000 PTE_KERNEL_DATA; Z.lor 0x8400000 PTE_KERNEL_DATA; Z.lor 0x8600000 PTE_KERNEL_DATA;
  Z.lor 0x8800000 PTE_KERNEL_DATA; Z.lor 0x8a00000 PTE_KERNEL_DATA; Z.lor 0x8c00000 PTE_KERNEL_DATA; Z.lor 0x8e00000 PTE_KERNEL_DATA;
  Z.lor 0x9000000 PTE_KERNEL_DATA; Z.lor 0x9200000 PTE_KERNEL_DATA; Z.lor 0x9400000 PTE_KERNEL_DATA; Z.lor 0x9600000 PTE_KERNEL_DATA;
  Z.lor 0x9800000 PTE_KERNEL_DATA; Z.lor 0x9a00000 PTE_KERNEL_DATA; Z.lor 0x9c00000 PTE_KERNEL_DATA; Z.lor 0x9e00000 PTE_KERNEL_DATA;
  Z.lor 0xa000000 PTE_KERNEL_DATA; Z.lor 0xa200000 PTE_KERNEL_DATA; Z.lor 0xa400000 PTE_KERNEL_DATA; Z.lor 0xa600000 PTE_KERNEL_DATA;
  Z.lor 0xa800000 PTE_KERNEL_DATA; Z.lor 0xaa00000 PTE_KERNEL_DATA; Z.lor 0xac00000 PTE_KERNEL_DATA; Z.lor 0xae00000 PTE_KERNEL_DATA;
  Z.lor 0xb000000 PTE_KERNEL_DATA; Z.lor 0xb200000 PTE_KERNEL_DATA; Z.lor 0xb400000 PTE_KERNEL_DATA; Z.lor 0xb600000 PTE_KERNEL_DATA;
  Z.lor 0xb800000 PTE_KERNEL_DATA; Z.lor 0xba00000 PTE_KERNEL_DATA; Z.lor 0xbc00000 PTE_KERNEL_DATA; Z.lor 0xbe00000 PTE_KERNEL_DATA;
  Z.lor 0xc000000 PTE_KERNEL_DATA; Z.lor 0xc200000 PTE_KERNEL_DATA; Z.lor 0xc400000 PTE_KERNEL_DATA; Z.lor 0xc600000 PTE_KERNEL_DATA;
  Z.lor 0xc800000 PTE_KERNEL_DATA; Z.lor 0xca00000 PTE_KERNEL_DATA; Z.lor 0xcc00000 PTE_KERNEL_DATA; Z.lor 0xce00000 PTE_KERNEL_DATA;
  Z.lor 0xd000000 PTE_KERNEL_DATA; Z.lor 0xd200000 PTE_KERNEL_DATA; Z.lor 0xd400000 PTE_KERNEL_DATA; Z.lor 0xd600000 PTE_KERNEL_DATA;
  Z.lor 0xd800000 PTE_KERNEL_DATA; Z.lor 0xda00000 PTE_KERNEL_DATA; Z.lor 0xdc00000 PTE_KERNEL_DATA; Z.lor 0xde00000 PTE_KERNEL_DATA;
  Z.lor 0xe000000 PTE_KERNEL_DATA; Z.lor 0xe200000 PTE_KERNEL_DATA; Z.lor 0xe400000 PTE_KERNEL_DATA; Z.lor 0xe600000 PTE_KERNEL_DATA;
  Z.lor 0xe800000 PTE_KERNEL_DATA; Z.lor 0xea00000 PTE_KERNEL_DATA; Z.lor 0xec00000 PTE_KERNEL_DATA; Z.lor 0xee00000 PTE_KERNEL_DATA;
  Z.lor 0xf000000 PTE_KERNEL_DATA; Z.lor 0xf200000 PTE_KERNEL_DATA; Z.lor 0xf400000 PTE_KERNEL_DATA; Z.lor 0xf600000 PTE_KERNEL_DATA;
  Z.lor 0xf800000 PTE_KERNEL_DATA; Z.lor 0xfa00000 PTE_KERNEL_DATA; Z.lor 0xfc00000 PTE_KERNEL_DATA; Z.lor 0xfe00000 PTE_KERNEL_DATA;
  Z.lor 0x10000000 PTE_KERNEL_DATA; Z.lor 0x10200000 PTE_KERNEL_DATA; Z.lor 0x10400000 PTE_KERNEL_DATA; Z.lor 0x10600000 PTE_KERNEL_DATA;
  Z.lor 0x10800000 PTE_KERNEL_DATA; Z.lor 0x10a00000 PTE_KERNEL_DATA; Z.lor 0x10c00000 PTE_KERNEL_DATA; Z.lor 0x10e00000 PTE_KERNEL_DATA;
  Z.lor 0x11000000 PTE_KERNEL_DATA; Z.lor 0x11200000 PTE_KERNEL_DATA; Z.lor 0x11400000 PTE_KERNEL_DATA; Z.lor 0x11600000 PTE_KERNEL_DATA;
  Z.lor 0x11800000 PTE_KERNEL_DATA; Z.lor 0x11a00000 PTE_KERNEL_DATA; Z.lor 0x11c00000 PTE_KERNEL_DATA; Z.lor 0x11e00000 PTE_KERNEL_DATA;
  Z.lor 0x12000000 PTE_KERNEL_DATA; Z.lor 0x12200000 PTE_KERNEL_DATA; Z.lor 0x12400000 PTE_KERNEL_DATA; Z.lor 0x12600000 PTE_KERNEL_DATA;
  Z.lor 0x12800000 PTE_KERNEL_DATA; Z.lor 0x12a00000 PTE_KERNEL_DATA; Z.lor 0x12c00000 PTE_KERNEL_DATA; Z.lor 0x12e00000 PTE_KERNEL_DATA;
  Z.lor 0x13000000 PTE_KERNEL_DATA; Z.lor 0x13200000 PTE_KERNEL_DATA; Z.lor 0x13400000 PTE_KERNEL_DATA; Z.lor 0x13600000 PTE_KERNEL_DATA;
  Z.lor 0x13800000 PTE_KERNEL_DATA; Z.lor 0x13a00000 PTE_KERNEL_DATA; Z.lor 0x13c00000 PTE_KERNEL_DATA; Z.lor 0x13e00000 PTE_KERNEL_DATA;
  Z.lor 0x14000000 PTE_KERNEL_DATA; Z.lor 0x14200000 PTE_KERNEL_DATA; Z.lor 0x14400000 PTE_KERNEL_DATA; Z.lor 0x14600000 PTE_KERNEL_DATA;
  Z.lor 0x14800000 PTE_KERNEL_DATA; Z.lor 0x14a00000 PTE_KERNEL_DATA; Z.lor 0x14c00000 PTE_KERNEL_DATA; Z.lor 0x14e00000 PTE_KERNEL_DATA;
  Z.lor 0x15000000 PTE_KERNEL_DATA; Z.lor 0x15200000 PTE_KERNEL_DATA; Z.lor 0x15400000 PTE_KERNEL_DATA; Z.lor 0x15600000 PTE_KERNEL_DATA;
  Z.lor 0x15800000 PTE_KERNEL_DATA; Z.lor 0x15a00000 PTE_KERNEL_DATA; Z.lor 0x15c00000 PTE_KERNEL_DATA; Z.lor 0x15e00000 PTE_KERNEL_DATA;
  Z.lor 0x16000000 PTE_KERNEL_DATA; Z.lor 0x16200000 PTE_KERNEL_DATA; Z.lor 0x16400000 PTE_KERNEL_DATA; Z.lor 0x16600000 PTE_KERNEL_DATA;
  Z.lor 0x16800000 PTE_KERNEL_DATA; Z.lor 0x16a00000 PTE_KERNEL_DATA; Z.lor 0x16c00000 PTE_KERNEL_DATA; Z.lor 0x16e00000 PTE_KERNEL_DATA;
  Z.lor 0x17000000 PTE_KERNEL_DATA; Z.lor 0x17200000 PTE_KERNEL_DATA; Z.lor 0x17400000 PTE_KERNEL_DATA; Z.lor 0x17600000 PTE_KERNEL_DATA;
  Z.lor 0x17800000 PTE_KERNEL_DATA; Z.lor 0x17a00000 PTE_KERNEL_DATA; Z.lor 0x17c00000 PTE_KERNEL_DATA; Z.lor 0x17e00000 PTE_KERNEL_DATA;
  Z.lor 0x18000000 PTE_KERNEL_DATA; Z.lor 0x18200000 PTE_KERNEL_DATA; Z.lor 0x18400000 PTE_KERNEL_DATA; Z.lor 0x18600000 PTE_KERNEL_DATA;
  Z.lor 0x18800000 PTE_KERNEL_DATA; Z.lor 0x18a00000 PTE_KERNEL_DATA; Z.lor 0x18c00000 PTE_KERNEL_DATA; Z.lor 0x18e00000 PTE_KERNEL_DATA;
  Z.lor 0x19000000 PTE_KERNEL_DATA; Z.lor 0x19200000 PTE_KERNEL_DATA; Z.lor 0x19400000 PTE_KERNEL_DATA; Z.lor 0x19600000 PTE_KERNEL_DATA;
  Z.lor 0x19800000 PTE_KERNEL_DATA; Z.lor 0x19a00000 PTE_KERNEL_DATA; Z.lor 0x19c00000 PTE_KERNEL_DATA; Z.lor 0x19e00000 PTE_KERNEL_DATA;
  Z.lor 0x1a000000 PTE_KERNEL_DATA; Z.lor 0x1a200000 PTE_KERNEL_DATA; Z.lor 0x1a400000 PTE_KERNEL_DATA; Z.lor 0x1a600000 PTE_KERNEL_DATA;
  Z.lor 0x1a800000 PTE_KERNEL_DATA; Z.lor 0x1aa00000 PTE_KERNEL_DATA; Z.lor 0x1ac00000 PTE_KERNEL_DATA; Z.lor 0x1ae00000 PTE_KERNEL_DATA;
  Z.lor 0x1b000000 PTE_KERNEL_DATA; Z.lor 0x1b200000 PTE_KERNEL_DATA; Z.lor 0x1b400000 PTE_KERNEL_DATA; Z.lor 0x1b600000 PTE_KERNEL_DATA;
  Z.lor 0x1b800000 PTE_KERNEL_DATA; Z.lor 0x1ba00000 PTE_KERNEL_DATA; Z.lor 0x1bc00000 PTE_KERNEL_DATA; Z.lor 0x1be00000 PTE_KERNEL_DATA;
  Z.lor 0x1c000000 PTE_KERNEL_DATA; Z.lor 0x1c200000 PTE_KERNEL_DATA; Z.lor 0x1c400000 PTE_KERNEL_DATA; Z.lor 0x1c600000 PTE_KERNEL_DATA;
  Z.lor 0x1c800000 PTE_KERNEL_DATA; Z.lor 0x1ca00000 PTE_KERNEL_DATA; Z.lor 0x1cc00000 PTE_KERNEL_DATA; Z.lor 0x1ce00000 PTE_KERNEL_DATA;
  Z.lor 0x1d000000 PTE_KERNEL_DATA; Z.lor 0x1d200000 PTE_KERNEL_DATA; Z.lor 0x1d400000 PTE_KERNEL_DATA; Z.lor 0x1d600000 PTE_KERNEL_DATA;
  Z.lor 0x1d800000 PTE_KERNEL_DATA; Z.lor 0x1da00000 PTE_KERNEL_DATA; Z.lor 0x1dc00000 PTE_KERNEL_DATA; Z.lor 0x1de00000 PTE_KERNEL_DATA;
  Z.lor 0x1e000000 PTE_KERNEL_DATA; Z.lor 0x1e200000 PTE_KERNEL_DATA; Z.lor 0x1e400000 PTE_KERNEL_DATA; Z.lor 0x1e600000 PTE_KERNEL_DATA;
  Z.lor 0x1e800000 PTE_KERNEL_DATA; Z.lor 0x1ea00000 PTE_KERNEL_DATA; Z.lor 0x1ec00000 PTE_KERNEL_DATA; Z.lor 0x1ee00000 PTE_KERNEL_DATA;
  Z.lor 0x1f000000 PTE_KERNEL_DATA; Z.lor 0x1f200000 PTE_KERNEL_DATA; Z.lor 0x1f400000 PTE_KERNEL_DATA; Z.lor 0x1f600000 PTE_KERNEL_DATA;
  Z.lor 0x1f800000 PTE_KERNEL_DATA; Z.lor 0x1fa00000 PTE_KERNEL_DATA; Z.lor 0x1fc00000 PTE_KERNEL_DATA; Z.lor 0x1fe00000 PTE_KERNEL_DATA;
  Z.lor 0x20000000 PTE_KERNEL_DATA; Z.lor 0x20200000 PTE_KERNEL_DATA; Z.lor 0x20400000 PTE_KERNEL_DATA; Z.lor 0x20600000 PTE_KERNEL_DATA;
  Z.lor 0x20800000 PTE_KERNEL_DATA; Z.lor 0x20a00000 PTE_KERNEL_DATA; Z.lor 0x20c00000 PTE_KERNEL_DATA; Z.lor 0x20e00000 PTE_KERNEL_DATA;
  Z.lor 0x21000000 PTE_KERNEL_DATA; Z.lor 0x21200000 PTE_KERNEL_DATA; Z.lor 0x21400000 PTE_KERNEL_DATA; Z.lor 0x21600000 PTE_KERNEL_DATA;
  Z.lor 0x21800000 PTE_KERNEL_DATA; Z.lor 0x21a00000 PTE_KERNEL_DATA; Z.lor 0x21c00000 PTE_KERNEL_DATA; Z.lor 0x21e00000 PTE_KERNEL_DATA;
  Z.lor 0x22000000 PTE_KERNEL_DATA; Z.lor 0x22200000 PTE_KERNEL_DATA; Z.lor 0x22400000 PTE_KERNEL_DATA; Z.lor 0x22600000 PTE_KERNEL_DATA;
  Z.lor 0x22800000 PTE_KERNEL_DATA; Z.lor 0x22a00000 PTE_KERNEL_DATA; Z.lor 0x22c00000 PTE_KERNEL_DATA; Z.lor 0x22e00000 PTE_KERNEL_DATA;
  Z.lor 0x23000000 PTE_KERNEL_DATA; Z.lor 0x23200000 PTE_KERNEL_DATA; Z.lor 0x23400000 PTE_KERNEL_DATA; Z.lor 0x23600000 PTE_KERNEL_DATA;
  Z.lor 0x23800000 PTE_KERNEL_DATA; Z.lor 0x23a00000 PTE_KERNEL_DATA; Z.lor 0x23c00000 PTE_KERNEL_DATA; Z.lor 0x23e00000 PTE_KERNEL_DATA;
  Z.lor 0x24000000 PTE_KERNEL_DATA; Z.lor 0x24200000 PTE_KERNEL_DATA; Z.lor 0x24400000 PTE_KERNEL_DATA; Z.lor 0x24600000 PTE_KERNEL_DATA;
  Z.lor 0x24800000 PTE_KERNEL_DATA; Z.lor 0x24a00000 PTE_KERNEL_DATA; Z.lor 0x24c00000 PTE_KERNEL_DATA; Z.lor 0x24e00000 PTE_KERNEL_DATA;
  Z.lor 0x25000000 PTE_KERNEL_DATA; Z.lor 0x25200000 PTE_KERNEL_DATA; Z.lor 0x25400000 PTE_KERNEL_DATA; Z.lor 0x25600000 PTE_KERNEL_DATA;
  Z.lor 0x25800000 PTE_KERNEL_DATA; Z.lor 0x25a00000 PTE_KERNEL_DATA; Z.lor 0x25c00000 PTE_KERNEL_DATA; Z.lor 0x25e00000 PTE_KERNEL_DATA;
  Z.lor 0x26000000 PTE_KERNEL_DATA; Z.lor 0x26200000 PTE_KERNEL_DATA; Z.lor 0x26400000 PTE_KERNEL_DATA; Z.lor 0x26600000 PTE_KERNEL_DATA;
  Z.lor 0x26800000 PTE_KERNEL_DATA; Z.lor 0x26a00000 PTE_KERNEL_DATA; Z.lor 0x26c00000 PTE_KERNEL_DATA; Z.lor 0x26e00000 PTE_KERNEL_DATA;
  Z.lor 0x27000000 PTE_KERNEL_DATA; Z.lor 0x27200000 PTE_KERNEL_DATA; Z.lor 0x27400000 PTE_KERNEL_DATA; Z.lor 0x27600000 PTE_KERNEL_DATA;
  Z.lor 0x27800000 PTE_KERNEL_DATA; Z.lor 0x27a00000 PTE_KERNEL_DATA; Z.lor 0x27c00000 PTE_KERNEL_DATA; Z.lor 0x27e00000 PTE_KERNEL_DATA;
  Z.lor 0x28000000 PTE_KERNEL_DATA; Z.lor 0x28200000 PTE_KERNEL_DATA; Z.lor 0x28400000 PTE_KERNEL_DATA; Z.lor 0x28600000 PTE_KERNEL_DATA;
  Z.lor 0x28800000 PTE_KERNEL_DATA; Z.lor 0x28a00000 PTE_KERNEL_DATA; Z.lor 0x28c00000 PTE_KERNEL_DATA; Z.lor 0x28e00000 PTE_KERNEL_DATA;
  Z.lor 0x29000000 PTE_KERNEL_DATA; Z.lor 0x29200000 PTE_KERNEL_DATA; Z.lor 0x29400000 PTE_KERNEL_DATA; Z.lor 0x29600000 PTE_KERNEL_DATA;
  Z.lor 0x29800000 PTE_KERNEL_DATA; Z.lor 0x29a00000 PTE_KERNEL_DATA; Z.lor 0x29c00000 PTE_KERNEL_DATA; Z.lor 0x29e00000 PTE_KERNEL_DATA;
  Z.lor 0x2a000000 PTE_KERNEL_DATA; Z.lor 0x2a200000 PTE_KERNEL_DATA; Z.lor 0x2a400000 PTE_KERNEL_DATA; Z.lor 0x2a600000 PTE_KERNEL_DATA;
  Z.lor 0x2a800000 PTE_KERNEL_DATA; Z.lor 0x2aa00000 PTE_KERNEL_DATA; Z.lor 0x2ac00000 PTE_KERNEL_DATA; Z.lor 0x2ae00000 PTE_KERNEL_DATA;
  Z.lor 0x2b000000 PTE_KERNEL_DATA; Z.lor 0x2b200000 PTE_KERNEL_DATA; Z.lor 0x2b400000 PTE_KERNEL_DATA; Z.lor 0x2b600000 PTE_KERNEL_DATA;
  Z.lor 0x2b800000 PTE_KERNEL_DATA; Z.lor 0x2ba00000 PTE_KERNEL_DATA; Z.lor 0x2bc00000 PTE_KERNEL_DATA; Z.lor 0x2be00000 PTE_KERNEL_DATA;
  Z.lor 0x2c000000 PTE_KERNEL_DATA; Z.lor 0x2c200000 PTE_KERNEL_DATA; Z.lor 0x2c400000 PTE_KERNEL_DATA; Z.lor 0x2c600000 PTE_KERNEL_DATA;
  Z.lor 0x2c800000 PTE_KERNEL_DATA; Z.lor 0x2ca00000 PTE_KERNEL_DATA; Z.lor 0x2cc00000 PTE_KERNEL_DATA; Z.lor 0x2ce00000 PTE_KERNEL_DATA;
  Z.lor 0x2d000000 PTE_KERNEL_DATA; Z.lor 0x2d200000 PTE_KERNEL_DATA; Z.lor 0x2d400000 PTE_KERNEL_DATA; Z.lor 0x2d600000 PTE_KERNEL_DATA;
  Z.lor 0x2d800000 PTE_KERNEL_DATA; Z.lor 0x2da00000 PTE_KERNEL_DATA; Z.lor 0x2dc00000 PTE_KERNEL_DATA; Z.lor 0x2de00000 PTE_KERNEL_DATA;
  Z.lor 0x2e000000 PTE_KERNEL_DATA; Z.lor 0x2e200000 PTE_KERNEL_DATA; Z.lor 0x2e400000 PTE_KERNEL_DATA; Z.lor 0x2e600000 PTE_KERNEL_DATA;
  Z.lor 0x2e800000 PTE_KERNEL_DATA; Z.lor 0x2ea00000 PTE_KERNEL_DATA; Z.lor 0x2ec00000 PTE_KERNEL_DATA; Z.lor 0x2ee00000 PTE_KERNEL_DATA;
  Z.lor 0x2f000000 PTE_KERNEL_DATA; Z.lor 0x2f200000 PTE_KERNEL_DATA; Z.lor 0x2f400000 PTE_KERNEL_DATA; Z.lor 0x2f600000 PTE_KERNEL_DATA;
  Z.lor 0x2f800000 PTE_KERNEL_DATA; Z.lor 0x2fa00000 PTE_KERNEL_DATA; Z.lor 0x2fc00000 PTE_KERNEL_DATA; Z.lor 0x2fe00000 PTE_KERNEL_DATA;
  Z.lor 0x30000000 PTE_KERNEL_DATA; Z.lor 0x30200000 PTE_KERNEL_DATA; Z.lor 0x30400000 PTE_KERNEL_DATA; Z.lor 0x30600000 PTE_KERNEL_DATA;
  Z.lor 0x30800000 PTE_KERNEL_DATA; Z.lor 0x30a00000 PTE_KERNEL_DATA; Z.lor 0x30c00000 PTE_KERNEL_DATA; Z.lor 0x30e00000 PTE_KERNEL_DATA;
  Z.lor 0x31000000 PTE_KERNEL_DATA; Z.lor 0x31200000 PTE_KERNEL_DATA; Z.lor 0x31400000 PTE_KERNEL_DATA; Z.lor 0x31600000 PTE_KERNEL_DATA;
  Z.lor 0x31800000 PTE_KERNEL_DATA; Z.lor 0x31a00000 PTE_KERNEL_DATA; Z.lor 0x31c00000 PTE_KERNEL_DATA; Z.lor 0x31e00000 PTE_KERNEL_DATA;
  Z.lor 0x32000000 PTE_KERNEL_DATA; Z.lor 0x32200000 PTE_KERNEL_DATA; Z.lor 0x32400000 PTE_KERNEL_DATA; Z.lor 0x32600000 PTE_KERNEL_DATA;
  Z.lor 0x32800000 PTE_KERNEL_DATA; Z.lor 0x32a00000 PTE_KERNEL_DATA; Z.lor 0x32c00000 PTE_KERNEL_DATA; Z.lor 0x32e00000 PTE_KERNEL_DATA;
  Z.lor 0x33000000 PTE_KERNEL_DATA; Z.lor 0x33200000 PTE_KERNEL_DATA; Z.lor 0x33400000 PTE_KERNEL_DATA; Z.lor 0x33600000 PTE_KERNEL_DATA;
  Z.lor 0x33800000 PTE_KERNEL_DATA; Z.lor 0x33a00000 PTE_KERNEL_DATA; Z.lor 0x33c00000 PTE_KERNEL_DATA; Z.lor 0x33e00000 PTE_KERNEL_DATA;
  Z.lor 0x34000000 PTE_KERNEL_DATA; Z.lor 0x34200000 PTE_KERNEL_DATA; Z.lor 0x34400000 PTE_KERNEL_DATA; Z.lor 0x34600000 PTE_KERNEL_DATA;
  Z.lor 0x34800000 PTE_KERNEL_DATA; Z.lor 0x34a00000 PTE_KERNEL_DATA; Z.lor 0x34c00000 PTE_KERNEL_DATA; Z.lor 0x34e00000 PTE_KERNEL_DATA;
  Z.lor 0x35000000 PTE_KERNEL_DATA; Z.lor 0x35200000 PTE_KERNEL_DATA; Z.lor 0x35400000 PTE_KERNEL_DATA; Z.lor 0x35600000 PTE_KERNEL_DATA;
  Z.lor 0x35800000 PTE_KERNEL_DATA; Z.lor 0x35a00000 PTE_KERNEL_DATA; Z.lor 0x35c00000 PTE_KERNEL_DATA; Z.lor 0x35e00000 PTE_KERNEL_DATA;
  Z.lor 0x36000000 PTE_KERNEL_DATA; Z.lor 0x36200000 PTE_KERNEL_DATA; Z.lor 0x36400000 PTE_KERNEL_DATA; Z.lor 0x36600000 PTE_KERNEL_DATA;
  Z.lor 0x36800000 PTE_KERNEL_DATA; Z.lor 0x36a00000 PTE_KERNEL_DATA; Z.lor 0x36c00000 PTE_KERNEL_DATA; Z.lor 0x36e00000 PTE_KERNEL_DATA;
  Z.lor 0x37000000 PTE_KERNEL_DATA; Z.lor 0x37200000 PTE_KERNEL_DATA; Z.lor 0x37400000 PTE_KERNEL_DATA; Z.lor 0x37600000 PTE_KERNEL_DATA;
  Z.lor 0x37800000 PTE_KERNEL_DATA; Z.lor 0x37a00000 PTE_KERNEL_DATA; Z.lor 0x37c00000 PTE_KERNEL_DATA; Z.lor 0x37e00000 PTE_KERNEL_DATA;
  Z.lor 0x38000000 PTE_KERNEL_DATA; Z.lor 0x38200000 PTE_KERNEL_DATA; Z.lor 0x38400000 PTE_KERNEL_DATA; Z.lor 0x38600000 PTE_KERNEL_DATA;
  Z.lor 0x38800000 PTE_KERNEL_DATA; Z.lor 0x38a00000 PTE_KERNEL_DATA; Z.lor 0x38c00000 PTE_KERNEL_DATA; Z.lor 0x38e00000 PTE_KERNEL_DATA;
  Z.lor 0x39000000 PTE_KERNEL_DATA; Z.lor 0x39200000 PTE_KERNEL_DATA; Z.lor 0x39400000 PTE_KERNEL_DATA; Z.lor 0x39600000 PTE_KERNEL_DATA;
  Z.lor 0x39800000 PTE_KERNEL_DATA; Z.lor 0x39a00000 PTE_KERNEL_DATA; Z.lor 0x39c00000 PTE_KERNEL_DATA; Z.lor 0x39e00000 PTE_KERNEL_DATA;
  Z.lor 0x3a000000 PTE_KERNEL_DATA; Z.lor 0x3a200000 PTE_KERNEL_DATA; Z.lor 0x3a400000 PTE_KERNEL_DATA; Z.lor 0x3a600000 PTE_KERNEL_DATA;
  Z.lor 0x3a800000 PTE_KERNEL_DATA; Z.lor 0x3aa00000 PTE_KERNEL_DATA; Z.lor 0x3ac00000 PTE_KERNEL_DATA; Z.lor 0x3ae00000 PTE_KERNEL_DATA;
  Z.lor 0x3b000000 PTE_KERNEL_DATA; Z.lor 0x3b200000 PTE_KERNEL_DATA; Z.lor 0x3b400000 PTE_KERNEL_DATA; Z.lor 0x3b600000 PTE_KERNEL_DATA;
  Z.lor 0x3b800000 PTE_KERNEL_DATA; Z.lor 0x3ba00000 PTE_KERNEL_DATA; Z.lor 0x3bc00000 PTE_KERNEL_DATA; Z.lor 0x3be00000 PTE_KERNEL_DATA;
  Z.lor 0x3c000000 PTE_KERNEL_DATA; Z.lor 0x3c200000 PTE_KERNEL_DATA; Z.lor 0x3c400000 PTE_KERNEL_DATA; Z.lor 0x3c600000 PTE_KERNEL_DATA;
  Z.lor 0x3c800000 PTE_KERNEL_DATA; Z.lor 0x3ca00000 PTE_KERNEL_DATA; Z.lor 0x3cc00000 PTE_KERNEL_DATA; Z.lor 0x3ce00000 PTE_KERNEL_DATA;
  Z.lor 0x3d000000 PTE_KERNEL_DATA; Z.lor 0x3d200000 PTE_KERNEL_DATA; Z.lor 0x3d400000 PTE_KERNEL_DATA; Z.lor 0x3d600000 PTE_KERNEL_DATA;
  Z.lor 0x3d800000 PTE_KERNEL_DATA; Z.lor 0x3da00000 PTE_KERNEL_DATA; Z.lor 0x3dc00000 PTE_KERNEL_DATA; Z.lor 0x3de00000 PTE_KERNEL_DATA;
  Z.lor 0x3e000000 PTE_KERNEL_DATA; Z.lor 0x3e200000 PTE_KERNEL_DATA; Z.lor 0x3e400000 PTE_KERNEL_DATA; Z.lor 0x3e600000 PTE_KERNEL_DATA;
  Z.lor 0x3e800000 PTE_KERNEL_DATA; Z.lor 0x3ea00000 PTE_KERNEL_DATA; Z.lor 0x3ec00000 PTE_KERNEL_DATA; Z.lor 0x3ee00000 PTE_KERNEL_DATA;
  Z.lor 0x3f000000 PTE_KERNEL_DEVICE; Z.lor 0x3f200000 PTE_KERNEL_DEVICE; Z.lor 0x3f400000 PTE_KERNEL_DEVICE; Z.lor 0x3f600000 PTE_KERNEL_DEVICE;
  Z.lor 0x3f800000 PTE_KERNEL_DEVICE; Z.lor 0x3fa00000 PTE_KERNEL_DEVICE; Z.lor 0x3fc00000 PTE_KERNEL_DEVICE; Z.lor 0x3fe00000 PTE_KERNEL_DEVICE].

Section tables.
Context (l2 l3 : Z).

Definition _kernel_pt_level2 : list Z := [K2P l3 + PTE_TABLE; Z.lor 0x40000000 PTE_KERNEL_DEVICE; 0; Z.lor 0xC0000000 PTE_KERNEL_DEVICE] ++ replicate 508 0.
Definition kernel_pt : list Z := [K2P l2 + PTE_TABLE] ++ replicate 511 0.
Definition invalid_pt : list Z := replicate 512 0.

(** The tables in physical memory. *)
Definition table_at (pa : Z) : option (list Z) := if pa =? K2P l2 then Some _kernel_pt_level2 else if pa =? K2P l3 then Some _kernel_pt_level3 else None.

(** The physical address of [va] and the flags of the entry that maps it;
    [bits] is the size of what an entry of the level maps. *)
Fixpoint walk (levels : list (Z * Z)) (t : list Z) (va : Z) : option (Z * Z) :=
  match levels with
  | [] => None
  | (i, bits) :: levels =>
      match t !! Z.to_nat i with
      | None => None
      | Some e =>
          if Z.land e 3 =? PTE_TABLE then match table_at (PTE_ADDRESS e) with Some t => walk levels t va | None => None end
          else if Z.land e 3 =? PTE_BLOCK then Some (PTE_ADDRESS e + va mod 2 ^ bits, PTE_FLAGS e)
          else None
      end
  end.
Definition kernel_walk (va : Z) : option (Z * Z) := walk [(VA_PART0 va, 39); (VA_PART1 va, 30); (VA_PART2 va, 21)] kernel_pt va.

(** ** What the table maps *)
Lemma level3_length : length _kernel_pt_level3 = 512%nat.
Proof using. reflexivity. Qed.

(** What an entry of the last table maps, and how. *)
Definition region (p : Z) : Z := if p <? 0x3f000000 then PTE_KERNEL_DATA else PTE_KERNEL_DEVICE.
Definition level3_ok (i : nat) : bool :=
  match _kernel_pt_level3 !! i with Some e => e =? Z.lor (Z.of_nat i * 2 ^ 21) (region (Z.of_nat i * 2 ^ 21)) | None => false end.
Lemma level3_all : forallb level3_ok (seq 0 512) = true.
Proof using. vm_compute. reflexivity. Qed.
Definition entry_ok (i : nat) : bool :=
  let b := Z.of_nat i * 2 ^ 21 in
  let e := Z.lor b (region b) in
  (Z.land e 3 =? PTE_BLOCK) && (PTE_ADDRESS e =? b) && (PTE_FLAGS e =? region b).
Lemma entry_all : forallb entry_ok (seq 0 512) = true.
Proof using. vm_compute. reflexivity. Qed.

Lemma level3_entry i : 0 <= i < 512 -> exists e, _kernel_pt_level3 !! Z.to_nat i = Some e /\ Z.land e 3 = PTE_BLOCK /\ PTE_ADDRESS e = i * 2 ^ 21 /\ PTE_FLAGS e = region (i * 2 ^ 21).
Proof using.
  intros Hi. assert (Hin : In (Z.to_nat i) (seq 0 512)) by (apply in_seq; lia).
  pose proof (proj1 (forallb_forall _ _) level3_all _ Hin) as H3. pose proof (proj1 (forallb_forall _ _) entry_all _ Hin) as He.
  unfold level3_ok in H3. destruct (_kernel_pt_level3 !! Z.to_nat i) as [e|] eqn:E; [|done]. apply Z.eqb_eq in H3. exists e. split; [done|].
  unfold entry_ok in He. cbv zeta in He. rewrite <- H3, Z2Nat.id in He by lia. apply andb_prop in He as [He Hf]. apply andb_prop in He as [Hb Ha].
  apply Z.eqb_eq in Hb, Ha, Hf. done.
Qed.

(** The inner tables are kernel pages, two different ones. *)
Definition table_address (l : Z) : Prop := KSPACE_MASK <= l < KSPACE_MASK + 2 ^ 48 /\ l mod 4096 = 0.
Lemma table_entry l : table_address l -> Z.land (K2P l + PTE_TABLE) 3 = PTE_TABLE /\ PTE_ADDRESS (K2P l + PTE_TABLE) = K2P l.
Proof using.
  intros [Hr Ha]. unfold K2P, KSPACE_MASK in *. rewrite u64_small by lia. set (a := l - 0xffff000000000000).
  assert (E : a mod 4096 = 0) by (rewrite <- Ha; unfold a; replace (l - 0xffff000000000000) with (l + (-0xffff000000000) * 4096) by lia; by rewrite Z.mod_add by lia).
  unfold PTE_TABLE. pose proof (Z.div_mod a 4096). split.
  - change 3 with (Z.ones 2) at 2. rewrite Z.land_ones by lia. change (2 ^ 2) with 4. symmetry. apply Z.mod_unique with (q := 1024 * (a / 4096)); lia.
  - rewrite PTE_ADDRESS_mod. change (2 ^ 12) with 4096. assert (H1 : (a + 3) / 4096 = a / 4096) by (symmetry; apply Z.div_unique with (r := 3); lia). rewrite H1.
    rewrite Z.mod_small; [lia|]. split; [apply Z.div_pos; lia|apply Z.div_lt_upper_bound; lia].
Qed.

Context (Hl2 : table_address l2) (Hl3 : table_address l3) (Hne : l2 <> l3).

Lemma table_at_l2 : table_at (K2P l2) = Some _kernel_pt_level2.
Proof using. unfold table_at. by rewrite Z.eqb_refl. Qed.
Lemma table_at_l3 : table_at (K2P l3) = Some _kernel_pt_level3.
Proof using Hl2 Hl3 Hne.
  unfold table_at. rewrite Z.eqb_refl. destruct (Z.eqb_spec (K2P l3) (K2P l2)) as [E|]; [|done]. destruct Hl2 as [? _], Hl3 as [? _]. unfold K2P, KSPACE_MASK in *. rewrite !u64_small in E by lia. lia.
Qed.

(** The parts of a kernel address below 512 GB. *)
Lemma kernel_parts p : 0 <= p < 2 ^ 39 -> VA_PART0 (P2K p) = 0 /\ VA_PART1 (P2K p) = p / 2 ^ 30 /\ VA_PART2 (P2K p) = (p / 2 ^ 21) mod 512 /\ (P2K p) mod 2 ^ 30 = p mod 2 ^ 30 /\ (P2K p) mod 2 ^ 21 = p mod 2 ^ 21.
Proof using.
  intros Hp. assert (E : P2K p = p + 0xffff000000000000) by (unfold P2K, KSPACE_MASK; apply u64_small; lia).
  assert (E39 : P2K p = p + 0x1fffe00 * 2 ^ 39) by (rewrite E; lia). assert (E30 : P2K p = p + 0x3fffc0000 * 2 ^ 30) by (rewrite E; lia). assert (E21 : P2K p = p + 0x7fff8000000 * 2 ^ 21) by (rewrite E; lia).
  split_and!.
  - rewrite VA_PART0_mod, E39, Z.div_add, Z.div_small by lia. reflexivity.
  - rewrite VA_PART1_mod, E30, Z.div_add by lia. change 0x3fffc0000 with (0x1fffe00 * 512). rewrite Z.mod_add by lia. apply Z.mod_small. split; [apply Z.div_pos; lia|apply Z.div_lt_upper_bound; lia].
  - rewrite VA_PART2_mod, E21, Z.div_add by lia. change 0x7fff8000000 with (0x3fffc0000 * 512). by rewrite Z.mod_add by lia.
  - rewrite E30. by apply Z.mod_add.
  - rewrite E21. by apply Z.mod_add.
Qed.

(** An entry of the second table that maps a gigabyte. *)
Lemma gigabyte q p : q = 1 \/ q = 3 -> p / 2 ^ 30 = q -> (PTE_ADDRESS (Z.lor (q * 2 ^ 30) PTE_KERNEL_DEVICE) + p mod 2 ^ 30, PTE_FLAGS (Z.lor (q * 2 ^ 30) PTE_KERNEL_DEVICE)) = (p, PTE_KERNEL_DEVICE).
Proof using.
  intros Hq Hp. pose proof (Z.div_mod p (2 ^ 30)) as Hd. rewrite Hp in Hd.
  replace (PTE_ADDRESS (Z.lor (q * 2 ^ 30) PTE_KERNEL_DEVICE)) with (q * 2 ^ 30) by (destruct Hq; subst q; reflexivity).
  replace (PTE_FLAGS (Z.lor (q * 2 ^ 30) PTE_KERNEL_DEVICE)) with PTE_KERNEL_DEVICE by (destruct Hq as [-> | ->]; reflexivity).
  f_equal. lia.
Qed.
Lemma level2_rest q : 4 <= q < 512 -> _kernel_pt_level2 !! Z.to_nat q = Some 0.
Proof using. intros Hq. unfold _kernel_pt_level2. rewrite lookup_app_r by (cbn; lia). apply lookup_replicate_2. cbn. lia. Qed.

(** The first gigabyte goes through the last table. *)
Lemma last_table p : 0 <= p < 2 ^ 30 ->
  exists e, _kernel_pt_level3 !! Z.to_nat ((p / 2 ^ 21) mod 512) = Some e /\ Z.land e 3 = PTE_BLOCK /\ PTE_ADDRESS e + p mod 2 ^ 21 = p /\ PTE_FLAGS e = region p.
Proof using.
  intros Hp. assert (Hq : 0 <= p / 2 ^ 21 < 512) by (split; [apply Z.div_pos; lia|apply Z.div_lt_upper_bound; lia]). rewrite Z.mod_small by lia.
  destruct (level3_entry _ Hq) as (e & He & Hb & Ha & Hf). exists e. pose proof (Z.div_mod p (2 ^ 21)). pose proof (Z.mod_pos_bound p (2 ^ 21)).
  split_and!; [done|done|lia|]. rewrite Hf. unfold region. replace (p / 2 ^ 21 * 2 ^ 21 <? 0x3f000000) with (p <? 0x3f000000); [done|].
  destruct (Z.ltb_spec p 0x3f000000), (Z.ltb_spec (p / 2 ^ 21 * 2 ^ 21) 0x3f000000); lia.
Qed.

(** The kernel's page table maps the kernel address of every physical
    address of the first two gigabytes, and of the fourth, to that physical
    address, ordinary memory below [PHYSTOP] and device memory above it, and
    maps nothing else of the first 512 gigabytes of the kernel's space. *)
Theorem kernel_map_correct p : 0 <= p < 2 ^ 39 ->
  kernel_walk (P2K p) = if (p <? 0x80000000) || (0xC0000000 <=? p) && (p <? 0x100000000) then Some (p, if p <? PHYSTOP then PTE_KERNEL_DATA else PTE_KERNEL_DEVICE) else None.
Proof using Hl2 Hl3 Hne.
  intros Hp. destruct (kernel_parts p Hp) as (E0 & E1 & E2 & Em1 & Em2). unfold kernel_walk. cbn [walk]. rewrite E0, E1, E2, Em1, Em2.
  change (Z.to_nat 0) with O. unfold kernel_pt at 1. cbn [app lookup list_lookup].
  destruct (table_entry l2 Hl2) as [T2 A2], (table_entry l3 Hl3) as [T3 A3]. rewrite T2, A2, table_at_l2. change (PTE_TABLE =? PTE_TABLE) with true. cbv iota.
  assert (Hq : 0 <= p / 2 ^ 30 < 512) by (split; [apply Z.div_pos; lia|apply Z.div_lt_upper_bound; lia]). pose proof (Z.div_mod p (2 ^ 30)) as Hd. pose proof (Z.mod_pos_bound p (2 ^ 30)) as Hm. remember (p / 2 ^ 30) as q eqn:Eq.
  assert (q = 0 \/ q = 1 \/ q = 2 \/ q = 3 \/ 4 <= q < 512) as [-> |[-> |[-> |[-> |Hbig]]]] by lia.
  - destruct (last_table p) as (e & He & Hb & Ha & Hf); [lia|]. change (Z.to_nat 0) with O. unfold _kernel_pt_level2 at 1. cbn [app lookup list_lookup]. rewrite T3, A3, table_at_l3, He, Hb, Ha, Hf.
    change (PTE_TABLE =? PTE_TABLE) with true. change (PTE_BLOCK =? PTE_TABLE) with false. change (PTE_BLOCK =? PTE_BLOCK) with true. cbv iota. by replace (p <? 0x80000000) with true by (symmetry; apply Z.ltb_lt; lia).
  - pose proof (gigabyte 1 p (or_introl eq_refl) (eq_sym Eq)) as Hg. change (Z.to_nat 1) with 1%nat. unfold _kernel_pt_level2 at 1. cbn [app lookup list_lookup]. change 0x40000000 with (1 * 2 ^ 30). rewrite Hg.
    replace (p <? 0x80000000) with true by (symmetry; apply Z.ltb_lt; lia). replace (p <? PHYSTOP) with false by (symmetry; apply Z.ltb_ge; unfold PHYSTOP; lia). reflexivity.
  - replace (p <? 0x80000000) with false by (symmetry; apply Z.ltb_ge; lia). replace (0xC0000000 <=? p) with false by (symmetry; apply Z.leb_gt; lia). reflexivity.
  - pose proof (gigabyte 3 p (or_intror eq_refl) (eq_sym Eq)) as Hg. change (Z.to_nat 3) with 3%nat. unfold _kernel_pt_level2 at 1. cbn [app lookup list_lookup]. change (3 * 2 ^ 30) with 0xC0000000 in Hg. unfold app. change (0xC0000000) with (Z.pos (3221225472)) in Hg. match goal with |- (if ?b then _ else (if ?c then _ else _)) = _ => change b with false; change c with true end. cbv iota. rewrite Hg.
    replace (p <? 0x80000000) with false by (symmetry; apply Z.ltb_ge; lia). replace (0xC0000000 <=? p) with true by (symmetry; apply Z.leb_le; lia). replace (p <? 0x100000000) with true by (symmetry; apply Z.ltb_lt; lia). replace (p <? PHYSTOP) with false by (symmetry; apply Z.ltb_ge; unfold PHYSTOP; lia). reflexivity.
  - rewrite (level2_rest q Hbig). replace (p <? 0x80000000) with false by (symmetry; apply Z.ltb_ge; lia). replace (p <? 0x100000000) with false by (symmetry; apply Z.ltb_ge; lia). by rewrite andb_false_r.
Qed.
End tables.

(** [invalid_pt] maps nothing: an access through the null pointer faults. *)
Lemma invalid_pt_maps_nothing l2 l3 va levels i bits : walk l2 l3 ((i, bits) :: levels) invalid_pt va = None.
Proof.
  cbn [walk]. destruct (invalid_pt !! Z.to_nat i) as [e|] eqn:E; [|done]. apply lookup_replicate in E as [-> _]. reflexivity.
Qed.

(** The device page of the UART, with the tables at two pages of the kernel. *)
Example kernel_map_correct_witness : table_address (P2K 0x90000) /\ table_address (P2K 0x91000) /\ P2K 0x90000 <> P2K 0x91000 /\
  kernel_walk (P2K 0x90000) (P2K 0x91000) (P2K 0x3f201000) = Some (0x3f201000, PTE_KERNEL_DEVICE).
Proof.
  assert (H2 : table_address (P2K 0x90000)) by (split; [split; reflexivity || (vm_compute; congruence)|reflexivity]).
  assert (H3 : table_address (P2K 0x91000)) by (split; [split; reflexivity || (vm_compute; congruence)|reflexivity]).
  assert (Hne : P2K 0x90000 <> P2K 0x91000) by (vm_compute; congruence).
  split_and!; [done|done|done|]. rewrite (kernel_map_correct _ _ H2 H3 Hne) by lia. reflexivity.
Defined.
